(* ===== verification/_CoqProject ===== *)
-Q . S2P
Prelude.v
Format.v
Utf8.v
ByteOrder.v
GuestMem.v
VirtQueue.v
Bus.v
Mmio.v
DescUtils.v
Block.v
NetBackend.v
Net.v
I8042.v
Serial.v
Multikey.v
Cmdline.v
EventManager.v
VsockPacket.v
VsockRxq.v
VsockTcp.v
VsockUdp.v
VsockUnix.v
VsockProxy.v
Reaper.v
VsockMuxer.v
VsockDevice.v
Mptable.v
Regs.v
Msr.v
CpuidBits.v
BrandString.v
Cpuid.v
FuseAbi.v
FsServer.v
FsInvariant.v
FsDevice.v
Passthrough.v
PassthroughOwn.v
PassthroughSpec.v
Arch.v
Console.v
ConsolePort.v
Rng.v
Balloon.v
Shm.v
MmioManager.v
Vcpu.v
Gic.v
SndAbi.v
Snd.v
Rtc.v
Gpio.v
Pl011.v
Smbios.v
Resources.v
CApi.v
Rutabaga.v
Rutabaga2d.v
GpuAbi.v
Gpu.v
