(* ===== verification/Prelude.v ===== *)
(** * Verification of the Shelter interface VMM

    [src/shelter_interface/src] is a virtual machine monitor in Rust derived
    from libkrun.  A guest kernel runs under KVM; every access it makes to
    device memory or to an I/O port leaves the guest and is routed by a bus to
    a device model.  Virtio devices share split virtqueues with the guest: the
    guest publishes buffers in its own memory, the device pops them, reads or
    fills them and returns them.  The vsock device turns the streams and
    datagrams of the guest into sockets of the host.  The guest is not trusted:
    everything read from its memory (ring indices, descriptor links, packet
    headers, register writes) is arbitrary, and the theorems quantify over it.

    ** How a guest access flows, and which file models which part

    Paths are relative to [src/shelter_interface/src]; each file is one Module
    of the same name.

    - [Prelude] (this file): machine integers, results and panics, little-endian
      codecs, bit lemmas, the tactics and hint databases of the development.
    - [ByteOrder]: [utils/src/byte_order.rs].
    - [GuestMem]: the interface [GuestMemory] to the [vm-memory] crate and its
      laws, with a concrete memory for the witnesses.
    - [Bus]: [devices/src/bus.rs], the routing of accesses to devices.
    - [Mmio]: [devices/src/virtio/mmio.rs] and the trait of [device.rs]: the
      register file of a virtio device, its status state machine, queue set-up
      and interrupts.  The device behind the transport is the class
      [VirtioDevice].
    - [VirtQueue]: [devices/src/virtio/queue.rs], the device side of a split
      virtqueue; [pop], [add_used], notification suppression.
    - [DescUtils]: [devices/src/virtio/descriptor_utils.rs], [Reader] and
      [Writer] over a descriptor chain.
    - [Block]: [devices/src/virtio/block/worker.rs], [device.rs] and [mod.rs]:
      the block device, on [DescUtils] and [VirtQueue].
    - [I8042], [Serial]: the legacy devices [legacy/i8042.rs] and
      [legacy/x86_64/serial.rs].
    - [NetBackend], [Net]: [devices/src/virtio/net/]: the back ends that carry
      frames ([passt.rs], [gvproxy.rs]) and the worker between them and the
      guest's queues ([worker.rs], [device.rs]).
    - [Multikey]: [virtio/fs/multikey.rs], the inode table of the file server.
    - [FuseAbi]: [virtio/fs/fuse.rs] and [virtio/linux_errno.rs], the messages
      of the protocol and their bytes.  [FsServer]: [virtio/fs/server.rs] and
      the trait of [filesystem.rs], which decodes a request, calls one method of
      the class [FileSystem] and encodes the reply.  [FsInvariant]: predicates
      every method keeps are kept by every message.  [FsDevice]: [device.rs] and
      [worker.rs], which take the messages from the queue.
    - [Passthrough]: [virtio/fs/linux/passthrough.rs], the instance of
      [FileSystem] that turns methods into system calls of the class [Host].
      [PassthroughOwn] and [PassthroughSpec]: its theorems, on descriptors and
      credentials, and on references, handles, permissions and listings.
    - [Cmdline]: [kernel/src/cmdline/mod.rs]; [Format]: the decimal and
      hexadecimal renderings of Rust's [format!] that it and the device
      managers use.
    - [Utf8]: how the Rust standard library reads bytes as text, with which the
      console's log and the file server's names are read.
    - [Rng], [Balloon]: [virtio/rng] and [virtio/balloon], the entropy device
      and free-page reporting, on [VirtQueue].
    - [Console], [ConsolePort]: [virtio/console/].  The device, its control
      messages and its ports ([device.rs], [console_control.rs], [port.rs]);
      the two threads of a port ([process_tx.rs], [process_rx.rs],
      [port_queue_mapping.rs]) over the classes [PortInput] and [PortOutput],
      with the descriptors and the log sink of [port_io.rs] as instances.
    - [SndAbi], [Snd]: [virtio/snd/].  The messages ([virtio_sound.rs]); the
      streams, the worker, the buffers shared with the thread of PipeWire and
      the back end's bookkeeping ([stream.rs], [mod.rs], [worker.rs],
      [device.rs], [audio_backends/pipewire.rs]).
    - [Rutabaga], [Rutabaga2d]: [rutabaga_gfx/src/rutabaga_core.rs] (structures
      of [rutabaga_utils.rs]), the graphics library's tables over the class
      [Graphics] of its components; [rutabaga_2d.rs] and [macros.rs], the
      software component, an instance of the class.
    - [GpuAbi], [Gpu]: [virtio/gpu/].  The messages ([protocol.rs]); the device,
      its worker, the fences and the mappings of blobs ([virtio_gpu.rs],
      [worker.rs], [device.rs], [event_handler.rs]), on the library's tables.
    - [Rtc], [Gpio], [Pl011]: the devices of the aarch64 build,
      [legacy/rtc_pl031.rs] and [legacy/aarch64/].
    - [Smbios]: [smbios/src], the tables that name the machine.
    - [CpuidBits], [BrandString], [Cpuid]: [cpuid/src], what the guest sees of
      its processor: bit fields ([bit_helper.rs]), the brand string
      ([brand_string.rs]), topology, cache and feature leaves ([transformer/],
      [template/], [lib.rs]) and their use in [vmm/src/linux/vstate.rs].
    - [Mptable], [Regs], [Msr], [Arch]: [arch/src/x86_64].  The multiprocessor
      table ([mptable.rs]); segment descriptors, page tables, boot registers and
      the local APIC ([gdt.rs], [regs.rs], [interrupts.rs]); model-specific
      registers ([msr.rs]); memory layout, memory map and zero page ([mod.rs]).
    - [Shm]: [vmm/src/device_manager/shm.rs] and the memory ranges of
      [create_guest_memory] in [vmm/src/builder.rs].
    - [MmioManager]: [vmm/src/device_manager/kvm/mmio.rs] and [legacy.rs], the
      managers that place devices on the two buses ([Bus]), register their
      events with KVM (the class [Kvm]) and describe them on the command line
      ([Cmdline]); [attach_mmio_device] of [builder.rs].
    - [Vcpu]: the processor thread of [vmm/src/linux/vstate.rs] with the state
      machine of [utils/src/sm.rs], and the thread that controls it.
    - [Gic]: [devices/src/legacy/gic.rs], the emulated interrupt controller of
      the aarch64 build.
    - [Resources]: [vmm/src/resources.rs] and [vmm/src/vmm_config/], the
      configuration of a machine and what is checked of it.
    - [CApi]: [libkrun/src/lib.rs], the functions a program calls to describe
      and start a machine; state is the table of contexts, what the calls ask
      of the host is the class [Host] of the file.
    - [EventManager]: [polly/src/event_manager.rs] and
      [utils/src/linux/epoll.rs]; the kernel's epoll is the class [Epoll].
    - [VsockPacket], [VsockRxq], [VsockTcp], [VsockUdp], [VsockUnix],
      [VsockProxy], [Reaper], [VsockMuxer], [VsockDevice]:
      [devices/src/virtio/vsock/].  A packet is a view of guest memory
      ([packet.rs]); packets for the guest go through [push_packet] and
      [MuxerRxQ] ([muxer_rxq.rs]); a proxy forwards one connection to a host
      socket ([tcp.rs], [udp.rs], [unix.rs], the trait of [proxy.rs]); the muxer
      routes guest packets and host events to proxies ([muxer.rs],
      [muxer_thread.rs]); the reaper removes released proxies ([reaper.rs]); the
      device ties them to the queues and to the transport ([device.rs],
      [event_handler.rs]).

    ** Modelling conventions

    - A [w]-bit integer is a [Z]; unchecked arithmetic is followed by [wrap],
      the behaviour of the release profile.  [checked_add] and the like are
      options.  Bytes are integers below 256, buffers lists of them.
    - [unwrap] on a failure, [assert!], [todo!()] and an index out of range are
      [Panic] of [outcome]; a [Result] is [result].
    - A method with [&mut self] takes the state and returns it; shared state
      ([Arc<Mutex<_>>]) is one field that all its users thread: device handles
      index a store in [Bus], the receive ring, guest memory and packet queue
      of the vsock threads are the record [Env].
    - Threads: each handler runs to completion between two others, which is
      what the locks of the source guarantee for the state it holds under
      them.  The one place where a handler asks for a lock it already holds is
      modelled: [VsockMuxer] tracks the guard of the proxy map and such a
      request is the outcome [Blocked].  Fences have no sequential effect.
    - In [Snd] the worker, the thread of PipeWire and the driver take turns in
      any order; a handler that panics ends its thread.  In [Gpu] the worker,
      the thread of the library that reports fences and the driver interleave
      between the steps of one message, since the lock of the fences is taken
      per step; what the worker returned, reported and mapped is kept as
      histories ([returned], [reported], [mmaps]) in its state.
    - [Vcpu] is interleaved: processor thread, controlling thread and signals
      are step relations over one world.  A turn of the processor yields its
      answers and event writes as a list of actions; each is a step of its own
      and the others may act before it.  The controlling side sends, awaits
      answers, gives up, or drops its handle, which closes the two channels one
      after the other.  Safety holds for every interleaving, progress for the
      fair ones.
    - Code outside the repository is a class: [GuestMemory], [HostMapping]
      (host addresses of guest memory), [Epoll], [Sockets], [HostFs] (the
      block device's file), [Kvm], [StreamSocket] and [DgramSocket] (the
      sockets of the network back ends), [Host] (the system calls of the file
      server, with what it relies on in [HostLaws]), [HostFds] (the terminal of
      a console), [Host] of [CApi] (files, sockets and environment of the
      calling program); event descriptors, channels and hypervisor
      calls are a predicate telling whether a call succeeds and a log of the
      calls.  The laws of the classes are documented behaviour, and concrete
      instances run the witnesses.
    - Traits are classes ([VirtioDevice], [BusDevice], [ProxyOps] with
      [ProxyLaws], [FileSystem] with [well_behaved] and [respects], [Graphics]);
      clients are proved against the class.  The pass-through file system is [respects] for
      the ownership of descriptors; it is not [well_behaved] throughout, since
      two requests panic it ([init_read_panics], [copyfilerange_flags_panic])
      and listings trust the kernel's records.
    - The text of log messages is left out.  Where building one does more than
      read values the definition has it: the numbers a message computes
      ([Pl011]), the second guard it takes ([process_proxy_release] of
      [VsockMuxer]), the name it unwraps ([do_lookup_at] of [Passthrough]; the file
      system proper is its instance with debug messages off, as the front end
      sets them, and [debug_lookup_panics] is what happens with them on).

    ** Loops and fuel

    Loops that the guest or the host can prolong take a fuel argument whose
    exhaustion is visible in the result, and a theorem gives the amount that is
    always enough.  Chain iteration is bounded by the [ttl] of the iterator,
    the queue size ([descriptor_chain_terminates]); draining a queue by its
    outstanding chains ([drain_complete]); the receive loop of a TCP proxy by
    the credit the guest granted ([recv_pkt_within_credit]), of a UDP proxy by
    the datagrams waiting ([udp_recv_terminates]); the device loops by the
    chains outstanding when the driver leaves the index alone while the loop
    runs ([rx_loop_drains], [tx_loop_drains], [process_queue_drains],
    [frq_drains], [gpu_queue_drains]; the last three from [round_loop_drains] of
    [VirtQueue]); a row-by-row transfer by its rectangle
    ([transfer_2d_total]).  Where
    a loop of the source can run for ever, a theorem says so for every fuel
    ([invalid_head_spins], [unmapped_buffer_spins]).

    ** What the theorems show

    - Queues: iteration terminates on every memory content, cyclic chains
      included; a pop returns exactly the next chain or nothing; the used ring
      is a faithful log of completions; event-index suppression follows the
      specification's window formula; the validity check means that the three
      rings are inside guest memory.
    - Transport: the register-level status machine refines the virtio life
      cycle; a well-formedness invariant holds along every access sequence;
      queue configuration has effect only in the states that allow it; an
      interrupt raised between a read and its acknowledgement is not lost; a
      failed device stays failed.
    - Bus: lookups agree with the flat map from addresses to devices, and
      insertion keeps ranges disjoint.
    - Readers and writers: every window is inside guest memory; reads return
      the bytes of the chain in order and writes put them there and nowhere
      else.
    - Block: each request gets the effect on disk and memory its type asks for,
      and every chain the device consumes is answered at most once, in order.
    - vsock: packets lie inside guest memory for every header; delivery writes
      the packet the code describes; the receive loop counts exactly the bytes
      it takes from the socket, and bytes in flight never exceed the credit;
      data read from a socket arrives in the guest unchanged; handlers of one
      connection leave the others alone; host events come back to the
      connection that registered them; the only way to block is the reset of a
      listening connection.
    - Network: frames go both ways in order and whole, none lost; the framing
      over a stream reads back what it wrote, however the stream splits it.
    - File server: over a well-behaved file system a message is answered with
      the header of its own length, unless it is one the protocol gives no
      answer or an error ends the request first, and nothing outside the reply
      changes; reads and listings panic when the reply's header does not have
      buffers of its own ([empty_writer_panics]).  The worker serves exactly the
      message of the popped chain and keeps what its handler leaves;
      listings parse back; names arrive as the request holds them; the queue
      loop ends.  Every descriptor the pass-through file system opens is owned
      by one inode or handle and closed with it, its thread is root between
      requests, reference counts follow the guest's ledger, handles are good
      from opening to release, permissions are those of the mode bits.
    - Entropy and balloon: every buffer is filled and every report carried out
      once, and nothing else is touched.
    - Console: what the guest prints leaves whole and in order, however the
      sink splits it, what is typed arrives byte for byte, and the driver learns
      exactly the ports there are; the log shows what was written line by line,
      with what is not UTF-8 replaced ([log_keeps_bytes]), and a full buffer is
      cut where it is, also inside a character ([log_cuts_character]).
    - Sound: streams follow their documented life cycle, store the parameters
      that were set and are connected with them; in every reachable
      state a stream that can play is connected and every message is answered
      when its last buffer goes; the bytes of the buffers are what is played
      and recorded.
    - Graphics: commands decode and responses encode exactly ([decode_exact],
      [encode_exact]); a chain is answered once in every interleaving of worker,
      library and driver, and a report of a fence releases what waits for it;
      the tables of device and library list the same resources, and follow the
      requests whatever the components do; mappings of blobs, those
      the device makes itself and those it asks the library for, stay inside the
      shared window when [virgl_resource_map2] makes them ([map_blob_contained]),
      and otherwise need not ([map_blob_escapes]); a software transfer is the copy of the rectangle, and an
      image uploaded in pieces arrives ([image_uploaded]).
    - SMBIOS: the tables parse back to the strings they were made of.
    - C API: contexts are isolated and stay well-formed, what is started is
      what the calls described, and calls panic only for the named reasons; a
      failing call changes nothing, but for a start, which consumes its context
      whatever comes of it.
    - CPUID: the guest sees the topology of its own machine and otherwise the
      host's values; templates remove exactly their features.
    - Boot: the layout keeps RAM, kernel image, device hole and shared-memory
      windows apart; what is written to the zero page parses back; tables have
      valid addresses, lengths and checksums; the boot page tables are the
      identity on the first gigabyte as a page walk sees it; descriptors and
      register lists round-trip or match a reference search.
    - Wiring: after registration every access, notification and interrupt
      reaches the one device it belongs to.
    - Processors: the exit code is sent before the exit event is written,
      whatever the interleaving, and the thread panics only after its handle was
      dropped; in a fair execution every event of a controller that waits for
      its answers is answered, unless the guest stops first; device accesses
      reach their owner; the interrupt controller posts each line to
      exactly its targets and never leaves a processor asleep on a pending line.
    - Legacy devices, containers, command line, event manager: refinement of
      bounded FIFOs and finite maps, output order, round trip of options,
      exact dispatch.

    ** Not modelled

    macOS-only code ([hvf], [timesync.rs], the macOS file server and processor
    threads), which this system does not compile; generated bindings
    ([arch_gen]) but for the constants and structures in use; the back
    ends of the graphics library (bindings of C libraries, cross-domain proxying,
    allocators) with its snapshots; the KVM and
    confidential-computing ioctls, thread start and processor configuration of
    [vmm], which set up the kernel's state rather than the program's; the
    aarch64 device tree, whose encoding is the [vm-fdt] crate's. *)

From stdpp Require Export base tactics functions option list numbers gmap.
From Stdlib Require Export ZArith Znumtheory Lia Bool.

#[global] Open Scope Z_scope.

(** ** Machine-width integers

    A [w]-bit unsigned Rust integer is a [Z] in [[0, 2^w)]; the release
    profile of the crate wraps on overflow, so every unchecked operation is
    followed by [wrap]. *)

Definition wrap (w z : Z) : Z := z mod 2 ^ w.

Definition fits (w z : Z) : Prop := 0 <= z < 2 ^ w.

Definition fitsb (w z : Z) : bool := (0 <=? z) && (z <? 2 ^ w).

(** Bitwise complement at width [w] (Rust's [!x]). *)
Definition bnot (w z : Z) : Z := Z.ldiff (Z.ones w) z.

(** [checked_add], [checked_sub] at width [w]. *)
Definition checked_add (w a b : Z) : option Z :=
  if a + b <? 2 ^ w then Some (a + b) else None.

Definition checked_sub (a b : Z) : option Z :=
  if b <=? a then Some (a - b) else None.

(** Reinterpretation of the low [w] bits as a two's complement integer. *)
Definition to_signed (w z : Z) : Z :=
  let u := wrap w z in if u <? 2 ^ (w - 1) then u else u - 2 ^ w.

Declare Scope krun_scope.
Delimit Scope krun_scope with krun.
Notation "a +[ w ] b" := (wrap w (a + b)) (at level 50, left associativity,
  w at level 9, format "a  +[ w ]  b") : krun_scope.
Notation "a -[ w ] b" := (wrap w (a - b)) (at level 50, left associativity,
  w at level 9, format "a  -[ w ]  b") : krun_scope.
Notation "a .& b" := (Z.land a b) (at level 51, left associativity) : krun_scope.
Notation "a .| b" := (Z.lor a b) (at level 52, left associativity) : krun_scope.
Notation "a .<< b" := (Z.shiftl a b) (at level 45, left associativity) : krun_scope.
Notation "a .>> b" := (Z.shiftr a b) (at level 45, left associativity) : krun_scope.
#[global] Open Scope krun_scope.

(** ** Results and panics

    [result E A] is Rust's [Result<A, E>]; [outcome A] separates a returned
    value from a panic ([unwrap] on [None]/[Err], an out-of-range index, a
    failed [assert!]). *)

Inductive result (E A : Type) : Type :=
| Ok (a : A)
| Err (e : E).
Arguments Ok {E A} _.
Arguments Err {E A} _.

Inductive outcome (A : Type) : Type :=
| Ret (a : A)
| Panic.
Arguments Ret {A} _.
Arguments Panic {A}.

#[global] Instance result_ret {E} : MRet (result E) := fun A a => Ok a.
#[global] Instance result_bind {E} : MBind (result E) :=
  fun A B f m => match m with Ok a => f a | Err e => Err e end.
#[global] Instance outcome_ret : MRet outcome := fun A a => Ret a.
#[global] Instance outcome_bind : MBind outcome :=
  fun A B f m => match m with Ret a => f a | Panic => Panic end.

(** A call whose loops the outside can prolong: [None] when the fuel ran out. *)
Definition fueled (A : Type) : Type := option (outcome A).

#[global] Instance fueled_ret : MRet fueled := fun A a => Some (Ret a).
#[global] Instance fueled_bind : MBind fueled :=
  fun A B f m => match m with Some (Ret a) => f a | Some Panic => Some Panic | None => None end.

(** A call that can fail or panic. *)
Definition fallible (E A : Type) : Type := outcome (result E A).

#[global] Instance fallible_ret {E} : MRet (fallible E) := fun A a => Ret (Ok a).
#[global] Instance fallible_bind {E} : MBind (fallible E) :=
  fun A B f m => match m with Ret (Ok a) => f a | Ret (Err e) => Ret (Err e) | Panic => Panic end.

(** A call that cannot fail, inside one that can. *)
Definition succeed {E A} (m : outcome A) : fallible E A :=
  match m with Ret a => Ret (Ok a) | Panic => Panic end.

Definition fail {E A} (e : E) : fallible E A := Ret (Err e).

Definition ok_or {E A} (o : option A) (e : E) : result E A :=
  match o with Some a => Ok a | None => Err e end.

Definition is_ok {E A} (r : result E A) : bool :=
  match r with Ok _ => true | Err _ => false end.

Definition map_err {E F A} (f : E -> F) (r : result E A) : result F A :=
  match r with Ok a => Ok a | Err e => Err (f e) end.

Definition unwrap {A} (o : option A) : outcome A :=
  match o with Some a => Ret a | None => Panic end.

(** ** Byte lists *)

Abbreviation byte := Z (only parsing).

Definition bytes_ok (bs : list byte) : Prop := Forall (fits 8) bs.

Fixpoint le_bytes (n : nat) (z : Z) : list byte :=
  match n with
  | O => []
  | S n => wrap 8 z :: le_bytes n (z .>> 8)
  end.

Fixpoint le_val (bs : list byte) : Z :=
  match bs with
  | [] => 0
  | b :: bs => b + 256 * le_val bs
  end.

Definition slice {A} (l : list A) (off n : nat) : list A := take n (drop off l).

(** Overwrite of [length bs] cells from [off], clipped to the list. *)
Definition splice {A} (l : list A) (off : nat) (bs : list A) : list A :=
  take (length l) (take off l ++ bs ++ drop (off + length bs) l).

(** A read of a device's configuration space: bytes from [offset] on, as far as
    the space and the caller's buffer go; outside the buffer is unchanged. *)
Definition config_read (config_slice : list byte) (offset : Z) (data : list byte) : list byte :=
  let config_len := Z.of_nat (length config_slice) in
  if config_len <=? offset then data
  else
    match checked_add 64 offset (Z.of_nat (length data)) with
    | None => data
    | Some end_ =>
        let src := slice config_slice (Z.to_nat offset) (Z.to_nat (Z.min end_ config_len - offset)) in
        src ++ drop (length src) data
    end.

(** ** Automation *)

Create HintDb krun.

(** Case analysis on every boolean [if]/[match] scrutinee of the goal. *)
Ltac case_bool :=
  match goal with
  | |- context [if ?b then _ else _] =>
      lazymatch type of b with bool => destruct b eqn:? end
  | H : context [if ?b then _ else _] |- _ =>
      lazymatch type of b with bool => destruct b eqn:? end
  end.

(** Reflect boolean integer tests into linear arithmetic facts. *)
Ltac zify_bool :=
  repeat match goal with
  | H : (_ <? _) = true |- _ => apply Z.ltb_lt in H
  | H : (_ <? _) = false |- _ => apply Z.ltb_ge in H
  | H : (_ <=? _) = true |- _ => apply Z.leb_le in H
  | H : (_ <=? _) = false |- _ => apply Z.leb_gt in H
  | H : (_ =? _) = true |- _ => apply Z.eqb_eq in H
  | H : (_ =? _) = false |- _ => apply Z.eqb_neq in H
  | H : _ && _ = true |- _ => apply andb_true_iff in H as [? ?]
  | H : _ || _ = false |- _ => apply orb_false_iff in H as [? ?]
  | H : negb _ = true |- _ => apply negb_true_iff in H
  | H : negb _ = false |- _ => apply negb_false_iff in H
  end.

Ltac inv H := inversion H; subst; clear H.

(** ** Lemmas on machine integers *)

Section machine_integers.
Implicit Types w z a b : Z.

Lemma pow2_pos w : 0 <= w -> 0 < 2 ^ w.
Proof. intros; apply Z.pow_pos_nonneg; lia. Qed.

Lemma wrap_fits w z : 0 <= w -> fits w (wrap w z).
Proof. intros. apply Z.mod_pos_bound, pow2_pos; lia. Qed.

Lemma wrap_small w z : fits w z -> wrap w z = z.
Proof. intros. by apply Z.mod_small. Qed.

Lemma wrap_wrap w z : wrap w (wrap w z) = wrap w z.
Proof. apply Zmod_mod. Qed.

Lemma wrap_add_l w a b : wrap w (wrap w a + b) = wrap w (a + b).
Proof. apply Zplus_mod_idemp_l. Qed.

Lemma wrap_add_r w a b : wrap w (a + wrap w b) = wrap w (a + b).
Proof. apply Zplus_mod_idemp_r. Qed.

Lemma wrap_sub_l w a b : wrap w (wrap w a - b) = wrap w (a - b).
Proof. apply Zminus_mod_idemp_l. Qed.

Lemma wrap_sub_r w a b : wrap w (a - wrap w b) = wrap w (a - b).
Proof. apply Zminus_mod_idemp_r. Qed.

Lemma fitsb_fits w z : fitsb w z = true <-> fits w z.
Proof. unfold fitsb, fits. lia. Qed.

Lemma fits_0 w : 0 <= w -> fits w 0.
Proof. unfold fits. pose proof (pow2_pos w). lia. Qed.

Lemma fits_mono w w' z : w <= w' -> fits w z -> fits w' z.
Proof.
  unfold fits; intros Hle [? ?]. split; [done|].
  eapply Z.lt_le_trans; [done|]. apply Z.pow_le_mono_r; lia.
Qed.

(** A value fits [w] bits iff it is its own low [w] bits. *)
Lemma fits_land w z : 0 <= w -> (fits w z <-> Z.land z (Z.ones w) = z).
Proof.
  intros. rewrite Z.land_ones by done. unfold fits. split; intros Hz.
  - by apply Z.mod_small.
  - rewrite <- Hz. apply Z.mod_pos_bound, pow2_pos; lia.
Qed.

Lemma land_fits w a b : 0 <= w -> fits w a -> fits w (a .& b).
Proof.
  intros Hw Ha. apply fits_land; [done|]. apply fits_land in Ha; [|done].
  by rewrite <- Z.land_assoc, (Z.land_comm b), Z.land_assoc, Ha.
Qed.

Lemma land_fits_r w a b : 0 <= w -> fits w b -> fits w (a .& b).
Proof. rewrite Z.land_comm. apply land_fits. Qed.

Lemma lor_fits w a b : 0 <= w -> fits w a -> fits w b -> fits w (a .| b).
Proof.
  intros Hw Ha Hb. apply fits_land; [done|].
  apply fits_land in Ha; [|done]. apply fits_land in Hb; [|done].
  by rewrite Z.land_lor_distr_l, Ha, Hb.
Qed.

Lemma bnot_fits w z : 0 <= w -> fits w (bnot w z).
Proof.
  intros Hw. apply fits_land; [done|]. unfold bnot.
  apply Z.bits_inj'; intros i Hi. rewrite Z.land_spec, Z.ldiff_spec.
  destruct (Z.testbit (Z.ones w) i), (Z.testbit z i); done.
Qed.

Lemma shiftr_fits w a k : 0 <= w -> 0 <= k -> fits w a -> fits w (a .>> k).
Proof.
  unfold fits. intros Hw Hk [Ha1 Ha2]. rewrite Z.shiftr_div_pow2 by done.
  pose proof (pow2_pos k Hk). split; [by apply Z.div_pos|].
  eapply Z.le_lt_trans; [apply Z.div_le_upper_bound with (q := a)|]; nia.
Qed.

(** [x & !m] clears exactly the bits of [m]. *)
Lemma land_bnot w a b : 0 <= w -> fits w a -> a .& bnot w b = Z.ldiff a b.
Proof.
  intros Hw Ha. unfold bnot. apply Z.bits_inj'; intros i Hi.
  rewrite Z.land_spec, !Z.ldiff_spec.
  apply fits_land in Ha; [|done]. rewrite <- Ha at 1 2. rewrite Z.land_spec.
  destruct (Z.testbit a i), (Z.testbit b i), (Z.testbit (Z.ones w) i); done.
Qed.

Lemma testbit_high w a i : 0 <= w -> fits w a -> w <= i -> Z.testbit a i = false.
Proof.
  intros Hw Ha Hi. rewrite <- (wrap_small w a) by done.
  by apply Z.mod_pow2_bits_high.
Qed.

Lemma testbit_log2_high n : 0 < n -> Z.testbit n (Z.log2 n) = true.
Proof. apply Z.bit_log2. Qed.

(** [n & (n - 1) == 0] is the power-of-two test for positive [n]. *)
Lemma land_pred_pow2 n :
  0 < n -> (n .& (n - 1) = 0 <-> exists k, 0 <= k /\ n = 2 ^ k).
Proof.
  intros Hn. split.
  - intros Hland. exists (Z.log2 n). pose proof (Z.log2_nonneg n). split; [done|].
    destruct (Z.log2_spec n Hn) as [Hlo Hhi].
    destruct (Z.eq_dec n (2 ^ Z.log2 n)) as [|Hne]; [done|exfalso].
    assert (Z.log2 (n - 1) = Z.log2 n) as Hlog.
    { apply Z.log2_unique; [done|]. split; lia. }
    assert (Z.testbit (n .& (n - 1)) (Z.log2 n) = true) as Hb.
    { rewrite Z.land_spec, testbit_log2_high by lia. rewrite <- Hlog.
      apply testbit_log2_high. pose proof (pow2_pos (Z.log2 n)). lia. }
    by rewrite Hland, Z.bits_0 in Hb.
  - intros (k & Hk & ->). replace (2 ^ k - 1) with (Z.ones k)
      by (rewrite Z.ones_equiv; lia).
    rewrite Z.land_ones by done. apply Z.mod_same.
    pose proof (pow2_pos k Hk). lia.
Qed.

Lemma land_ones_0 a k : 0 <= k -> (a .& (2 ^ k - 1) = 0 <-> a mod 2 ^ k = 0).
Proof.
  intros. replace (2 ^ k - 1) with (Z.ones k) by (rewrite Z.ones_equiv; lia).
  by rewrite Z.land_ones.
Qed.

(** A single-bit mask tests that bit. *)
Lemma land_bit s k : 0 <= k -> (s .& 2 ^ k =? 0) = negb (Z.testbit s k).
Proof.
  intros Hk. destruct (Z.eqb_spec (s .& 2 ^ k) 0) as [E|E].
  - apply (f_equal (fun z => Z.testbit z k)) in E.
    rewrite Z.land_spec, Z.pow2_bits_true, andb_true_r, Z.bits_0 in E by lia. by rewrite E.
  - destruct (Z.testbit s k) eqn:Hb; [done|]. exfalso; apply E.
    apply Z.bits_inj'; intros i Hi. rewrite Z.land_spec, Z.bits_0.
    destruct (Z.eq_dec i k) as [->|]; [by rewrite Hb|].
    by rewrite Z.pow2_bits_false, andb_false_r by lia.
Qed.

Lemma land_bit_0 s k : 0 <= k -> (s .& 2 ^ k = 0 <-> Z.testbit s k = false).
Proof. intros. rewrite <- Z.eqb_eq, land_bit by done. apply negb_true_iff. Qed.

(** Bits of a complement. *)
Lemma bnot_sub w z : 0 <= w -> fits w z -> bnot w z = 2 ^ w - 1 - z.
Proof.
  intros Hw [Hz Hlt]. unfold bnot. rewrite <- Z.sub_nocarry_ldiff.
  - rewrite Z.ones_equiv. lia.
  - apply Z.bits_inj'; intros i Hi. rewrite Z.ldiff_spec, Z.bits_0, Z.testbit_ones_nonneg by lia.
    destruct (Z.ltb_spec i w); [by rewrite andb_false_r|].
    rewrite andb_true_r. destruct (Z.eq_dec z 0) as [->|]; [apply Z.bits_0|].
    apply Z.bits_above_log2; [lia|]. apply Z.log2_lt_pow2; [lia|].
    apply Z.lt_le_trans with (2 ^ w); [done|]. apply Z.pow_le_mono_r; lia.
Qed.

Lemma bnot_testbit w z i : 0 <= i < w -> Z.testbit (bnot w z) i = negb (Z.testbit z i).
Proof.
  intros. unfold bnot. rewrite Z.ldiff_spec, Z.ones_spec_low by lia. done.
Qed.

(** Disjoint fields: [lo | (h << k)] is [h * 2^k + lo]. *)
Lemma lor_mul_pow2 k lo h : 0 <= k -> fits k lo -> lo .| (h * 2 ^ k) = h * 2 ^ k + lo.
Proof.
  intros Hk Hlo. assert (lo .& (h * 2 ^ k) = 0) as E.
  { apply Z.bits_inj'; intros i Hi. rewrite Z.land_spec, Z.bits_0.
    destruct (Z.lt_ge_cases i k); [by rewrite Z.mul_pow2_bits_low, andb_false_r by lia|].
    by rewrite (testbit_high k lo) by done. }
  pose proof (Z.add_lor_land lo (h * 2 ^ k)). lia.
Qed.

Lemma land_byte a : fits 8 a -> a .& 0xff = a.
Proof. intros. change 0xff with (Z.ones 8). by apply fits_land. Qed.

(** Wrapping at a multiple of the modulus does not change residues. *)
Lemma wrap_mod w z m : (m | 2 ^ w) -> 0 < m -> wrap w z mod m = z mod m.
Proof.
  intros [k Hk] Hm. unfold wrap. rewrite Hk. destruct (Z.eq_dec k 0) as [->|Hk0].
  - by rewrite Z.mul_0_l, Zmod_0_r.
  - rewrite Z.mul_comm, Z.rem_mul_r by lia. by rewrite Z.mul_comm, Z_mod_plus_full, Zmod_mod.
Qed.

Lemma checked_add_Some w a b c :
  checked_add w a b = Some c <-> c = a + b /\ a + b < 2 ^ w.
Proof. unfold checked_add. case_bool; zify_bool; naive_solver lia. Qed.

Lemma checked_sub_Some a b c :
  checked_sub a b = Some c <-> c = a - b /\ b <= a.
Proof. unfold checked_sub. case_bool; zify_bool; naive_solver lia. Qed.
End machine_integers.

#[export] Hint Resolve wrap_fits fits_0 land_fits land_fits_r lor_fits bnot_fits
  shiftr_fits : krun.

(** Discharges [fits w e] for the bit expressions of device registers. *)
Ltac solve_fits :=
  repeat match goal with |- fits _ _ => first
    [ assumption
    | apply wrap_fits; lia
    | apply lor_fits; [lia| |]
    | apply bnot_fits; lia
    | (apply land_fits; [lia|]; solve_fits) || (apply land_fits_r; [lia|]; solve_fits)
    | apply shiftr_fits; [lia|lia|]
    | by (unfold fits; lia)
    | by (split; vm_compute; congruence) ] end.

(** ** Lemmas on byte lists and slices *)

Abbreviation Zlength l := (Z.of_nat (length l)).

Section byte_lists.
Implicit Types (bs : list byte) (z : Z) (n : nat).

Lemma length_le_bytes n z : length (le_bytes n z) = n.
Proof. revert z; induction n; intros; simpl; auto. Qed.

Lemma le_bytes_ok n z : bytes_ok (le_bytes n z).
Proof.
  revert z; induction n; intros; simpl; constructor; [apply wrap_fits; lia|].
  apply IHn.
Qed.

Lemma pow2_8S n : 2 ^ (8 * Z.of_nat (S n)) = 256 * 2 ^ (8 * Z.of_nat n).
Proof.
  rewrite Nat2Z.inj_succ.
  replace (8 * Z.succ (Z.of_nat n)) with (8 + 8 * Z.of_nat n) by lia.
  rewrite Z.pow_add_r by lia. reflexivity.
Qed.

Lemma le_val_bound bs : bytes_ok bs -> 0 <= le_val bs < 2 ^ (8 * Zlength bs).
Proof.
  induction 1 as [|b bs Hb _ IH]; [simpl; lia|].
  cbn [le_val length]. rewrite pow2_8S. unfold fits in Hb.
  change (2 ^ 8) with 256 in *. lia.
Qed.

Lemma le_val_le_bytes n z :
  le_val (le_bytes n z) = wrap (8 * Z.of_nat n) z.
Proof.
  unfold wrap. revert z; induction n as [|n IH]; intros z; [by rewrite Z.mod_1_r|].
  cbn [le_bytes le_val]. rewrite IH, pow2_8S. unfold wrap.
  rewrite Z.shiftr_div_pow2 by lia. change (2 ^ 8) with 256.
  pose proof (pow2_pos (8 * Z.of_nat n) ltac:(lia)).
  by rewrite (Z.rem_mul_r z 256) by lia.
Qed.

Lemma le_bytes_le_val bs : bytes_ok bs -> le_bytes (length bs) (le_val bs) = bs.
Proof.
  induction 1 as [|b bs Hb _ IH]; [done|]. cbn [le_val length le_bytes].
  unfold fits in Hb. change (2 ^ 8) with 256 in *. f_equal.
  - unfold wrap. change (2 ^ 8) with 256. rewrite Z.mul_comm, Z_mod_plus_full.
    by apply Z.mod_small.
  - rewrite Z.shiftr_div_pow2 by lia. change (2 ^ 8) with 256.
    rewrite Z.mul_comm, Z_div_plus_full, Z.div_small by lia. done.
Qed.

Lemma le_bytes_le_val_n n bs :
  length bs = n -> bytes_ok bs -> le_bytes n (le_val bs) = bs.
Proof. intros <-. apply le_bytes_le_val. Qed.

Lemma le_bytes_wrap n z : le_bytes n (wrap (8 * Z.of_nat n) z) = le_bytes n z.
Proof.
  rewrite <- le_val_le_bytes.
  rewrite <- (length_le_bytes n z) at 1. apply le_bytes_le_val, le_bytes_ok.
Qed.
End byte_lists.
Arguments le_bytes : simpl never.

Section slices.
Context {A : Type}.
Implicit Types (l bs : list A) (off n : nat).

Lemma length_slice l off n :
  (off + n <= length l)%nat -> length (slice l off n) = n.
Proof. unfold slice. rewrite length_take, length_drop. lia. Qed.

(** In-range overwrites are the plain concatenation. *)
Lemma splice_in l off bs :
  (off + length bs <= length l)%nat ->
  splice l off bs = take off l ++ bs ++ drop (off + length bs) l.
Proof.
  intros. unfold splice. apply take_ge.
  rewrite !length_app, length_take, length_drop. lia.
Qed.

Lemma length_splice l off bs : length (splice l off bs) = length l.
Proof.
  unfold splice. rewrite length_take, !length_app, length_take, length_drop. lia.
Qed.

Lemma lookup_splice l off bs i :
  (off + length bs <= length l)%nat ->
  splice l off bs !! i =
    if decide (off <= i < off + length bs)%nat then bs !! (i - off)%nat else l !! i.
Proof.
  intros. rewrite splice_in by done. destruct (decide _).
  - rewrite lookup_app_r; rewrite length_take; [|lia].
    rewrite lookup_app_l by lia. f_equal; lia.
  - destruct (decide (i < off)%nat).
    + rewrite lookup_app_l by (rewrite length_take; lia). by rewrite lookup_take_lt.
    + rewrite lookup_app_r; rewrite length_take; [|lia].
      rewrite lookup_app_r by lia. rewrite lookup_drop. f_equal; lia.
Qed.

Lemma lookup_slice l off n i :
  slice l off n !! i = if decide (i < n)%nat then l !! (off + i)%nat else None.
Proof.
  unfold slice. case_decide.
  - by rewrite lookup_take_lt, lookup_drop.
  - by rewrite lookup_take_ge by lia.
Qed.

Lemma slice_app_l l bs n : n = length l -> slice (l ++ bs) 0 n = l.
Proof. intros ->. unfold slice. by rewrite drop_0, take_app_length. Qed.

Lemma slice_app_r l bs off n :
  (length l <= off)%nat -> slice (l ++ bs) off n = slice bs (off - length l) n.
Proof. intros. unfold slice. by rewrite drop_app_ge by done. Qed.

Lemma slice_all l n : n = length l -> slice l 0 n = l.
Proof. intros ->. unfold slice. by rewrite drop_0, firstn_all. Qed.

Lemma slice_splice_same l off bs :
  (off + length bs <= length l)%nat -> slice (splice l off bs) off (length bs) = bs.
Proof.
  intros. apply list_eq; intros i. rewrite lookup_slice.
  case_decide; [|by rewrite lookup_ge_None_2 by lia].
  rewrite lookup_splice by done. case_decide; [|lia]. f_equal; lia.
Qed.

Lemma slice_splice_disjoint l off bs off' n :
  (off + length bs <= length l)%nat ->
  (off' + n <= off \/ off + length bs <= off')%nat ->
  slice (splice l off bs) off' n = slice l off' n.
Proof.
  intros ? Hd. apply list_eq; intros i. rewrite !lookup_slice.
  case_decide; [|done]. rewrite lookup_splice by done. case_decide; [lia|done].
Qed.

Lemma splice_Forall (P : A -> Prop) l off bs :
  Forall P l -> Forall P bs -> Forall P (splice l off bs).
Proof.
  intros. unfold splice. apply Forall_take, Forall_app; split; [by apply Forall_take|].
  apply Forall_app; split; [done|]. by apply Forall_drop.
Qed.

Lemma slice_Forall (P : A -> Prop) l off n : Forall P l -> Forall P (slice l off n).
Proof. intros. by apply Forall_take, Forall_drop. Qed.
End slices.
Arguments slice : simpl never.
Arguments splice : simpl never.

#[export] Hint Rewrite length_le_bytes @length_splice @length_app @length_take
  @length_drop : krun_len.
#[export] Hint Resolve le_bytes_ok splice_Forall slice_Forall : krun.

(** A property that every step keeps holds wherever the steps lead. *)
Lemma rtc_preserves {A} (R : A -> A -> Prop) (P : A -> Prop) x y :
  rtc R x y -> P x -> (forall a b, R a b -> P a -> P b) -> P y.
Proof. intros Hr Hx Hs. induction Hr as [|x y z Hxy _ IH]; [done|]. by apply IH, (Hs _ _ Hxy). Qed.

(** A run of one step. *)
Lemma one_step {A} (R : A -> A -> Prop) a b x y :
  (forall z, R a z -> z = b) -> (forall z, ~ R b z) -> rtc R a x -> R x y -> x = a /\ y = b.
Proof.
  intros Ha Hb Hx Hy. inversion Hx as [? E|? z ? Hz Hx']; subst; [by auto|].
  apply Ha in Hz as ->. inversion Hx' as [? E|? z ? Hz Hx'']; subst; exfalso; by eapply Hb.
Qed.

(** ** Equalities of bit expressions

    Two [w]-bit values agree when their [w] low bits do; [bitwise w] reduces
    such an equality to one boolean equality per bit and computes the bits of
    constants. *)

Lemma fits_bits_eq w a b :
  0 <= w -> fits w a -> fits w b -> (forall i, 0 <= i < w -> Z.testbit a i = Z.testbit b i) -> a = b.
Proof.
  intros Hw Ha Hb Heq. apply Z.bits_inj'; intros i Hi. destruct (Z.lt_ge_cases i w); [by apply Heq|].
  by rewrite !(testbit_high w) by done.
Qed.

Lemma range_split (P : Z -> Prop) a b : (a < b -> P a) -> (forall i, a + 1 <= i < b -> P i) -> forall i, a <= i < b -> P i.
Proof. intros Ha Hr i Hi. destruct (Z.eq_dec i a) as [->|]; [apply Ha; lia|apply Hr; lia]. Qed.

Ltac each_bit tac :=
  match goal with
  | |- forall i, ?a <= i < ?b -> _ =>
      lazymatch eval vm_compute in (a <? b) with
      | true =>
          let a' := eval vm_compute in (a + 1) in
          refine (range_split _ a b _ _); [intros _; cbv beta; tac|change (a + 1) with a'; each_bit tac]
      | false => let H := fresh in intros ? H; exfalso; revert H; clear; lia
      end
  end.

Lemma wrap_testbit w z i : 0 <= i < w -> Z.testbit (wrap w z) i = Z.testbit z i.
Proof. intros. unfold wrap. apply Z.mod_pow2_bits_low. lia. Qed.

(** Bits of a compound expression at a constant position. *)
Ltac bit_specs :=
  repeat match goal with
  | |- context [Z.testbit (Z.lor _ _) _] => rewrite Z.lor_spec
  | |- context [Z.testbit (Z.land _ _) _] => rewrite Z.land_spec
  | |- context [Z.testbit (Z.lxor _ _) _] => rewrite Z.lxor_spec
  | |- context [Z.testbit (Z.shiftl _ _) _] => rewrite Z.shiftl_spec by lia
  | |- context [Z.testbit (Z.shiftr _ _) _] => rewrite Z.shiftr_spec by lia
  | |- context [Z.testbit (bnot _ _) _] => rewrite bnot_testbit by lia
  | |- context [Z.testbit (wrap _ _) ?i] => rewrite wrap_testbit by lia
  | |- context [Z.testbit ?x (?i - ?j)] =>
      let k := eval vm_compute in (i - j) in change (i - j) with k
  | |- context [Z.testbit ?x (?i + ?j)] =>
      let k := eval vm_compute in (i + j) in change (i + j) with k
  | |- context [Z.testbit ?x (Zneg ?i)] => rewrite (Z.testbit_neg_r x (Zneg i)) by lia
  | |- context [Z.testbit (Zpos ?x) ?i] =>
      let k := eval vm_compute in (Z.testbit (Zpos x) i) in change (Z.testbit (Zpos x) i) with k
  | |- context [Z.testbit Z0 ?i] => rewrite (Z.bits_0 i)
  end;
  rewrite ?andb_false_r, ?andb_true_r, ?andb_false_l, ?andb_true_l, ?orb_false_r, ?orb_true_r,
    ?orb_false_l, ?orb_true_l.

Ltac bitwise w :=
  apply (fits_bits_eq w); [lia| | |each_bit ltac:(bit_specs; try done)].

Lemma map_wrap_bytes bs : bytes_ok bs -> map (wrap 8) bs = bs.
Proof. induction 1 as [|x l Hx _ IH]; [done|]. cbn. rewrite wrap_small by done. by f_equal. Qed.
