(* ===== verification/Format.v ===== *)
(** * Printed numbers

    What Rust's [format!] prints for an unsigned integer in base ten ([{}]) and
    sixteen, zero-padded ([{:08x}]), as code points, and the reader a consumer
    applies to it.  The reader gives back the number. *)

From S2P Require Import Prelude.

(** The character of a digit below 16, lower case. *)
Definition digit (d : Z) : Z := if d <? 10 then 48 + d else 87 + d.

Definition digit_value (c : Z) : Z := if c <? 58 then c - 48 else c - 87.

(** The digits of [z] in base [b], most significant first, in front of [acc];
    [fuel] bounds their number. *)
Fixpoint fmt_digits (b : Z) (fuel : nat) (z : Z) (acc : list Z) : list Z :=
  match fuel with
  | O => acc
  | S fuel =>
      let acc := digit (z mod b) :: acc in
      if z <? b then acc else fmt_digits b fuel (z / b) acc
  end.

(** [{}] for a [u64]: at most twenty digits. *)
Definition decimal (z : Z) : list Z := fmt_digits 10 20 z [].

(** [{:x}] for a [u64]. *)
Definition hex (z : Z) : list Z := fmt_digits 16 16 z [].

(** Padding with zeros on the left to a width. *)
Definition pad (width : nat) (s : list Z) : list Z := replicate (width - length s) 48 ++ s.

Definition read_digits (b : Z) (s : list Z) : Z := fold_left (fun z c => z * b + digit_value c) s 0.

Lemma digit_value_digit d : 0 <= d < 16 -> digit_value (digit d) = d.
Proof. intros Hd. unfold digit, digit_value. repeat case_match; zify_bool; lia. Qed.

Lemma read_digits_app b s t :
  read_digits b (s ++ t) = fold_left (fun z c => z * b + digit_value c) t (read_digits b s).
Proof. apply fold_left_app. Qed.

(** What the loop prints, read in front of [acc]. *)
Lemma fmt_digits_read b fuel z acc :
  2 <= b <= 16 -> 0 <= z < b ^ Z.of_nat fuel -> (0 < fuel)%nat ->
  exists s, fmt_digits b fuel z acc = s ++ acc /\ read_digits b s = z /\
    Forall (fun c => exists d, 0 <= d < b /\ c = digit d) s /\ s <> [].
Proof.
  intros Hb. revert z acc. induction fuel as [|fuel IH]; intros z acc Hz Hf; [lia|].
  pose proof (Z.mod_pos_bound z b ltac:(lia)) as Hm. cbn [fmt_digits]. destruct (z <? b) eqn:E; zify_bool.
  - exists [digit (z mod b)]. rewrite Z.mod_small by lia. split; [done|]. split.
    + cbn. rewrite digit_value_digit by lia. lia.
    + split; [|done]. constructor; [|constructor]. exists z. split; [lia|done].
  - rewrite Nat2Z.inj_succ, Z.pow_succ_r in Hz by lia.
    assert (0 <= z / b < b ^ Z.of_nat fuel) as Hq.
    { split; [apply Z.div_pos; lia|]. apply Z.div_lt_upper_bound; lia. }
    destruct fuel as [|fuel].
    { change (Z.of_nat 0) with 0 in Hz. rewrite Z.pow_0_r in Hz. lia. }
    destruct (IH (z / b) (digit (z mod b) :: acc) Hq ltac:(lia)) as (s & -> & Hr & Hd & Hne).
    exists (s ++ [digit (z mod b)]). rewrite <- app_assoc. split; [done|]. split.
    + rewrite read_digits_app, Hr. cbn. rewrite digit_value_digit by lia.
      pose proof (Z.div_mod z b ltac:(lia)). lia.
    + split; [|by destruct s]. apply Forall_app. split; [done|]. constructor; [|constructor].
      exists (z mod b). done.
Qed.

Lemma decimal_read z : fits 64 z -> read_digits 10 (decimal z) = z.
Proof.
  intros [Hlo Hhi]. destruct (fmt_digits_read 10 20 z []) as (s & Hs & Hr & _); [lia| |lia|].
  - split; [done|]. assert (2 ^ 64 <= 10 ^ Z.of_nat 20) by (vm_compute; congruence). lia.
  - unfold decimal. by rewrite Hs, app_nil_r.
Qed.

Lemma hex_read z : fits 64 z -> read_digits 16 (hex z) = z.
Proof.
  intros [Hlo Hhi]. destruct (fmt_digits_read 16 16 z []) as (s & Hs & Hr & _); [lia| |lia|].
  - split; [done|]. assert (2 ^ 64 <= 16 ^ Z.of_nat 16) by (vm_compute; congruence). lia.
  - unfold hex. by rewrite Hs, app_nil_r.
Qed.

Lemma read_digits_pad b width s : 0 <= b -> read_digits b (pad width s) = read_digits b s.
Proof.
  intros Hb. unfold pad. rewrite read_digits_app.
  assert (read_digits b (replicate (width - length s) 48) = 0) as ->; [|done].
  induction (width - length s)%nat as [|n IH]; [done|].
  change (replicate (S n) 48) with ([48] ++ replicate n 48). by rewrite read_digits_app.
Qed.

(** Printed characters are letters and digits. *)
Definition alnum (c : Z) : Prop := 48 <= c <= 57 \/ 97 <= c <= 102.

Lemma fmt_digits_alnum b fuel z acc :
  2 <= b <= 16 -> Forall alnum acc -> Forall alnum (fmt_digits b fuel z acc).
Proof.
  intros Hb. revert z acc. induction fuel as [|fuel IH]; intros z acc Ha; [done|]. cbn [fmt_digits].
  assert (Forall alnum (digit (z mod b) :: acc)) as Hc.
  { constructor; [|done]. pose proof (Z.mod_pos_bound z b ltac:(lia)). unfold digit, alnum.
    case_match; zify_bool; lia. }
  destruct (z <? b); [done|by apply IH].
Qed.

Lemma decimal_alnum z : Forall alnum (decimal z).
Proof. apply fmt_digits_alnum; [lia|constructor]. Qed.

Lemma pad_hex_alnum n z : Forall alnum (pad n (hex z)).
Proof.
  apply Forall_app. split; [apply Forall_replicate; unfold alnum; lia|].
  apply fmt_digits_alnum; [lia|constructor].
Qed.

Lemma alnum_not_in c s : Forall alnum s -> ~ alnum c -> c ∉ s.
Proof. intros Hs Hc Hin. rewrite Forall_forall in Hs. by apply Hc, Hs. Qed.

Lemma length_fmt_digits b fuel z acc : (length (fmt_digits b fuel z acc) <= fuel + length acc)%nat.
Proof.
  revert z acc. induction fuel as [|fuel IH]; intros z acc; cbn [fmt_digits]; [lia|].
  destruct (z <? b); [cbn; lia|]. specialize (IH (z / b) (digit (z mod b) :: acc)). cbn [length] in IH. lia.
Qed.

Lemma length_pad n s : length (pad n s) = Nat.max n (length s).
Proof. unfold pad. rewrite length_app, length_replicate. lia. Qed.
