(* ===== verification/Utf8.v ===== *)
(** * UTF-8, as the Rust standard library reads it

    [String::from_utf8] accepts the well-formed sequences of table 3-7 of the
    Unicode standard; [String::from_utf8_lossy] replaces every maximal prefix
    of an ill-formed sequence by U+FFFD.  A string is the list of its bytes.
    The theorems: text made of characters is well-formed and is kept; what the
    lossy reading yields is well-formed. *)

From S2P Require Import Prelude.

Module Utf8.

Definition between (lo hi b : Z) : bool := (lo <=? b) && (b <=? hi).

(** A continuation byte. *)
Definition tail (b : byte) : bool := between 0x80 0xbf b.

(** The second bytes that may follow [a]. *)
Definition second (a b : byte) : bool :=
  if a =? 0xe0 then between 0xa0 0xbf b
  else if a =? 0xed then between 0x80 0x9f b
  else if a =? 0xf0 then between 0x90 0xbf b
  else if a =? 0xf4 then between 0x80 0x8f b
  else tail b.

(** How many bytes the character takes that begins with [a]; 0: none does. *)
Definition utf8_char_width (a : byte) : nat :=
  if a <? 0x80 then 1
  else if between 0xc2 0xdf a then 2
  else if between 0xe0 0xef a then 3
  else if between 0xf0 0xf4 a then 4
  else 0.

(** [Utf8Chunks::next]: whether the bytes begin with a character, and how many
    of them belong to it or to the prefix that cannot be continued.  A byte
    beyond the end counts as 0. *)
Definition next_char (bs : list byte) : bool * nat :=
  match bs with
  | [] => (true, 0%nat)
  | a :: rest =>
      let get i := default 0 (rest !! i) in
      match utf8_char_width a with
      | 1%nat => (true, 1%nat)
      | 2%nat => if second a (get 0%nat) then (true, 2%nat) else (false, 1%nat)
      | 3%nat =>
          if second a (get 0%nat) then if tail (get 1%nat) then (true, 3%nat) else (false, 2%nat) else (false, 1%nat)
      | 4%nat =>
          if second a (get 0%nat) then
            if tail (get 1%nat) then if tail (get 2%nat) then (true, 4%nat) else (false, 3%nat) else (false, 2%nat)
          else (false, 1%nat)
      | _ => (false, 1%nat)
      end
  end.

Definition REPLACEMENT : list byte := [0xef; 0xbf; 0xbd].

(** The pieces of a text: characters, and what has to be replaced. *)
Fixpoint chunks (fuel : nat) (bs : list byte) : list (bool * list byte) :=
  match fuel, bs with
  | S fuel, _ :: _ => let '(ok, n) := next_char bs in (ok, take n bs) :: chunks fuel (drop n bs)
  | _, _ => nil
  end.

Definition utf8_chunks (bs : list byte) : list (bool * list byte) := chunks (length bs) bs.

Definition utf8_valid (bs : list byte) : bool := forallb fst (utf8_chunks bs).

Definition from_utf8 (bs : list byte) : option (list byte) := if utf8_valid bs then Some bs else None.

Definition from_utf8_lossy (bs : list byte) : list byte :=
  concat (map (fun p : bool * list byte => if p.1 then p.2 else REPLACEMENT) (utf8_chunks bs)).

(** ** Pieces *)

(** A piece is not empty, so the length is enough fuel. *)
Lemma next_char_length a rest : (1 <= (next_char (a :: rest)).2)%nat.
Proof. cbn. repeat case_match; cbn; lia. Qed.

(** A character is there as a whole. *)
Lemma next_char_inside bs n : next_char bs = (true, n) -> (n <= length bs)%nat.
Proof.
  destruct bs as [|a rest]; [by intros [= <-]|]. cbn. destruct (utf8_char_width a) as [|[|[|[|[|k]]]]] eqn:Ew; [done|intros [= <-]; cbn; lia| | | |done].
  - destruct rest as [|b rest]; cbn; [|destruct (second a b); [intros [= <-]; cbn; lia|done]].
    unfold second, tail, between. repeat case_match; done.
  - destruct rest as [|b [|c rest]]; cbn; repeat case_match; try done; try (intros [= <-]; cbn; lia).
    all: unfold second, tail, between in *; repeat case_match; done.
  - destruct rest as [|b [|c [|d rest]]]; cbn; repeat case_match; try done; try (intros [= <-]; cbn; lia).
    all: unfold second, tail, between in *; repeat case_match; done.
Qed.

Lemma chunks_fuel fuel fuel' bs : (length bs <= fuel)%nat -> (length bs <= fuel')%nat -> chunks fuel bs = chunks fuel' bs.
Proof.
  revert fuel' bs. induction fuel as [|fuel IH]; intros [|fuel'] [|a bs] H1 H2; try done; cbn in H1, H2; try lia.
  cbn [chunks]. pose proof (next_char_length a bs) as Hn. destruct (next_char (a :: bs)) as [ok n]. cbn in Hn.
  f_equal. apply IH; rewrite length_drop; cbn; lia.
Qed.

Lemma utf8_chunks_cons a rest :
  utf8_chunks (a :: rest) = ((next_char (a :: rest)).1, take (next_char (a :: rest)).2 (a :: rest))
                              :: utf8_chunks (drop (next_char (a :: rest)).2 (a :: rest)).
Proof.
  unfold utf8_chunks. pose proof (next_char_length a rest) as Hn. cbn [length chunks]. destruct (next_char (a :: rest)) as [ok n]. cbn [fst snd] in *.
  f_equal. apply chunks_fuel; rewrite length_drop; cbn; lia.
Qed.

(** The pieces make up the text. *)
Lemma chunks_concat bs : concat (map snd (utf8_chunks bs)) = bs.
Proof.
  induction bs as [bs IH] using (induction_ltof1 _ (@length byte)). destruct bs as [|a rest]; [done|].
  rewrite utf8_chunks_cons. pose proof (next_char_length a rest) as Hn. set (n := (next_char (a :: rest)).2) in *. cbn [map concat snd].
  rewrite IH; [apply take_drop|]. unfold ltof. rewrite length_drop, length_cons. lia.
Qed.

(** Well-formed text is kept. *)
Lemma lossy_valid bs : utf8_valid bs = true -> from_utf8_lossy bs = bs.
Proof.
  intros Hv. unfold from_utf8_lossy. rewrite <- (chunks_concat bs) at 2. f_equal. apply map_ext_in.
  unfold utf8_valid in Hv. rewrite forallb_forall in Hv. intros [ok piece] Hin. specialize (Hv _ Hin). by destruct ok.
Qed.

(** A piece that begins with a character does so whatever follows. *)
Lemma next_char_app bs n l : next_char bs = (true, n) -> bs <> [] -> next_char (take n bs ++ l) = (true, n).
Proof.
  intros E Hne. pose proof (next_char_inside bs n E) as Hl. destruct bs as [|a rest]; [done|]. revert E Hl. cbn.
  destruct (utf8_char_width a) as [|[|[|[|[|k]]]]] eqn:Ew; [done|..|done].
  - intros [= <-] _. cbn. by rewrite Ew.
  - destruct (second a _) eqn:E1; [|done]. intros [= <-] Hl. destruct rest as [|b rest]; [cbn in Hl; lia|]. cbn in *. by rewrite Ew, E1.
  - destruct (second a _) eqn:E1; [|done]. destruct (tail _) eqn:E2; [|done]. intros [= <-] Hl.
    destruct rest as [|b [|c rest]]; try (cbn in Hl; lia). cbn in *. by rewrite Ew, E1, E2.
  - destruct (second a _) eqn:E1; [|done]. destruct (tail _) eqn:E2; [|done]. destruct (tail (default 0 (rest !! 2%nat))) eqn:E3; [|done].
    intros [= <-] Hl. destruct rest as [|b [|c [|d rest]]]; try (cbn in Hl; lia). cbn in *. by rewrite Ew, E1, E2, E3.
Qed.

(** A character in front. *)
Lemma valid_front bs n l : next_char bs = (true, n) -> bs <> [] -> utf8_valid (take n bs ++ l) = utf8_valid l.
Proof.
  intros E Hne. pose proof (next_char_inside _ _ E) as Hl. pose proof (next_char_app _ _ l E Hne) as E'.
  destruct bs as [|a rest]; [done|]. pose proof (next_char_length a rest) as Hn. rewrite E in Hn. cbn in Hn. destruct n as [|n]; [lia|].
  unfold utf8_valid. cbn [take app] in *. rewrite utf8_chunks_cons, E'. cbn [fst snd forallb andb].
  rewrite app_comm_cons, drop_app_length'; [done|]. rewrite length_cons, length_take. cbn in Hl. lia.
Qed.

(** The lossy reading yields well-formed text. *)
Lemma from_utf8_lossy_valid bs : utf8_valid (from_utf8_lossy bs) = true.
Proof.
  induction bs as [bs IH] using (induction_ltof1 _ (@length byte)). destruct bs as [|a rest]; [done|].
  unfold from_utf8_lossy. rewrite utf8_chunks_cons. pose proof (next_char_length a rest) as Hn. cbn [map concat].
  set (n := (next_char (a :: rest)).2) in *. assert (utf8_valid (from_utf8_lossy (drop n (a :: rest))) = true) as Hv.
  { apply IH. unfold ltof. rewrite length_drop, length_cons. lia. }
  destruct (next_char (a :: rest)) as [ok k] eqn:E. cbn [fst snd] in *. destruct ok.
  - by rewrite valid_front by done.
  - change REPLACEMENT with (take 3 REPLACEMENT). by rewrite valid_front.
Qed.

(** ** Characters *)

(** A Unicode scalar value, and its encoding. *)
Definition scalar (c : Z) : Prop := 0 <= c < 0xd800 \/ 0xe000 <= c < 0x110000.

Definition encode_utf8 (c : Z) : list byte :=
  if c <? 0x80 then [c]
  else if c <? 0x800 then [0xc0 + c / 64; 0x80 + c mod 64]
  else if c <? 0x10000 then [0xe0 + c / 4096; 0x80 + c / 64 mod 64; 0x80 + c mod 64]
  else [0xf0 + c / 262144; 0x80 + c / 4096 mod 64; 0x80 + c / 64 mod 64; 0x80 + c mod 64].

Lemma next_char_encode c : scalar c -> next_char (encode_utf8 c) = (true, length (encode_utf8 c)).
Proof.
  intros Hc. unfold encode_utf8. repeat case_match; zify_bool; unfold scalar in Hc; cbn.
  all: unfold utf8_char_width, second, tail, between; repeat (case_match; zify_bool; try done); exfalso; Z.div_mod_to_equations; lia.
Qed.

(** Text made of characters is well-formed, so the lossy reading keeps it. *)
Lemma encoded_valid cs : Forall scalar cs -> utf8_valid (concat (map encode_utf8 cs)) = true.
Proof.
  induction 1 as [|c cs Hc _ IH]; [done|]. cbn [map concat]. pose proof (next_char_encode c Hc) as E.
  rewrite <- (firstn_all (encode_utf8 c)), (valid_front _ _ _ E); [done|]. unfold encode_utf8. repeat case_match; done.
Qed.
End Utf8.
