(* ===== verification/ByteOrder.v ===== *)
(** * Byte order helpers ([utils/src/byte_order.rs])

    The macro-generated readers copy at most [size] bytes of the input into a
    zeroed array and decode it; the writers encode the value and copy as many
    bytes as the buffer holds.  Both loops [zip], so a short buffer is legal
    and silently truncates. *)

From S2P Require Import Prelude.

Module ByteOrder.

(** [generate_read_fn!]: the zero-initialised array filled from [input]. *)
Definition read_array (size : nat) (input : list byte) : list byte :=
  take size input ++ replicate (size - length input) 0.

Definition read_le (size : nat) (input : list byte) : Z := le_val (read_array size input).

Definition read_be (size : nat) (input : list byte) : Z := le_val (rev (read_array size input)).

(** [generate_write_fn!]: the pairwise copy into [buf]. *)
Definition write_array (buf src : list byte) : list byte :=
  take (length buf) src ++ drop (length src) buf.

Definition write_le (size : nat) (buf : list byte) (n : Z) : list byte :=
  write_array buf (le_bytes size n).

Definition write_be (size : nat) (buf : list byte) (n : Z) : list byte :=
  write_array buf (rev (le_bytes size n)).

Definition read_le_u16 (input : list byte) : Z := read_le 2 input.
Definition read_le_u32 (input : list byte) : Z := read_le 4 input.
Definition read_le_u64 (input : list byte) : Z := read_le 8 input.
Definition read_be_u16 (input : list byte) : Z := read_be 2 input.
Definition read_be_u32 (input : list byte) : Z := read_be 4 input.
Definition write_le_u16 (buf : list byte) (n : Z) : list byte := write_le 2 buf n.
Definition write_le_u32 (buf : list byte) (n : Z) : list byte := write_le 4 buf n.
Definition write_le_u64 (buf : list byte) (n : Z) : list byte := write_le 8 buf n.
Definition write_be_u16 (buf : list byte) (n : Z) : list byte := write_be 2 buf n.
Definition write_be_u32 (buf : list byte) (n : Z) : list byte := write_be 4 buf n.

(** The [i32] variants work on [i8] buffers: bytes are reinterpreted. *)
Definition read_le_i32 (input : list Z) : Z :=
  to_signed 32 (read_le 4 (map (wrap 8) input)).
Definition write_le_i32 (buf : list Z) (n : Z) : list Z :=
  write_array buf (map (to_signed 8) (le_bytes 4 (wrap 32 n))).

(** ** Lemmas *)

Lemma length_write_array buf src : length (write_array buf src) = length buf.
Proof. unfold write_array. rewrite length_app, length_take, length_drop. lia. Qed.

Lemma length_write_le size buf n : length (write_le size buf n) = length buf.
Proof. apply length_write_array. Qed.

Lemma write_array_full buf src :
  (length src <= length buf)%nat -> write_array buf src = src ++ drop (length src) buf.
Proof. intros. unfold write_array. by rewrite take_ge. Qed.

Lemma read_array_full size input :
  (size <= length input)%nat -> read_array size input = take size input.
Proof.
  intros. unfold read_array. replace (size - length input)%nat with O by lia.
  apply app_nil_r.
Qed.

Lemma length_read_array size input : length (read_array size input) = size.
Proof. unfold read_array. rewrite length_app, length_take, length_replicate. lia. Qed.

Lemma read_array_ok size input : bytes_ok input -> bytes_ok (read_array size input).
Proof.
  intros. apply Forall_app; split; [by apply Forall_take|].
  apply Forall_replicate. unfold fits; lia.
Qed.

Lemma read_le_fits size input :
  bytes_ok input -> fits (8 * Z.of_nat size) (read_le size input).
Proof.
  intros H. unfold read_le, fits.
  pose proof (le_val_bound _ (read_array_ok size _ H)) as Hb.
  by rewrite length_read_array in Hb.
Qed.

(** Reading back a written value: the low [8 * size] bits survive. *)
Lemma read_write_le size buf n :
  (size <= length buf)%nat -> read_le size (write_le size buf n) = wrap (8 * Z.of_nat size) n.
Proof.
  intros. unfold read_le, write_le.
  rewrite read_array_full by (rewrite length_write_array; done).
  rewrite write_array_full by (rewrite length_le_bytes; done).
  rewrite take_app_le by (rewrite length_le_bytes; done).
  rewrite take_ge by (rewrite length_le_bytes; done). apply le_val_le_bytes.
Qed.

Lemma read_write_be size buf n :
  (size <= length buf)%nat -> read_be size (write_be size buf n) = wrap (8 * Z.of_nat size) n.
Proof.
  intros. unfold read_be, write_be.
  rewrite read_array_full by (rewrite length_write_array; done).
  rewrite write_array_full by (rewrite length_rev, length_le_bytes; done).
  rewrite take_app_le by (rewrite length_rev, length_le_bytes; done).
  rewrite take_ge by (rewrite length_rev, length_le_bytes; done).
  rewrite rev_involutive. apply le_val_le_bytes.
Qed.

Lemma write_le_splice size buf off n :
  (off + size <= length buf)%nat ->
  take off buf ++ write_le size (drop off buf) n = splice buf off (le_bytes size n).
Proof.
  intros. rewrite splice_in by (rewrite length_le_bytes; done).
  unfold write_le. rewrite write_array_full by (rewrite length_le_bytes, length_drop; lia).
  by rewrite drop_drop.
Qed.

Lemma read_le_slice size buf off :
  (off + size <= length buf)%nat -> read_le size (drop off buf) = le_val (slice buf off size).
Proof. intros. unfold read_le. rewrite read_array_full by (rewrite length_drop; lia). done. Qed.

(** A value of [size] bytes written little endian into a buffer that can
    hold it is read back unchanged by the matching reader, and the same holds
    for the big endian pair; bytes past the first [size] are untouched. *)
Theorem byte_order_roundtrip (size : nat) (buf : list byte) (n : Z) :
  (size <= length buf)%nat -> fits (8 * Z.of_nat size) n ->
  read_le size (write_le size buf n) = n /\
  read_be size (write_be size buf n) = n /\
  drop size (write_le size buf n) = drop size buf /\
  length (write_le size buf n) = length buf.
Proof.
  intros Hl Hn. rewrite read_write_le, read_write_be, length_write_le by done.
  rewrite !wrap_small by done. repeat split; try done.
  unfold write_le. rewrite write_array_full by (rewrite length_le_bytes; done).
  rewrite drop_app_ge by (rewrite length_le_bytes; done).
  by rewrite length_le_bytes, Nat.sub_diag.
Qed.

Lemma byte_order_roundtrip_witness :
  read_le 2 (write_le 2 [7; 7; 7] 0xabcd) = 0xabcd /\ write_le 2 [7; 7; 7] 0xabcd = [0xcd; 0xab; 7].
Proof.
  split; [|reflexivity].
  apply (byte_order_roundtrip 2 [7; 7; 7] 0xabcd); [simpl; lia|split; vm_compute; congruence].
Defined.

End ByteOrder.
