(* ===== verification/GuestMem.v ===== *)
(** * Guest memory: the interface of the [vm-memory] crate

    [GuestMemoryMmap] comes from a crate outside the repository.  The
    operations the devices call are the fields of [GuestMemory]; what the
    crate documents about them are the fields of [GuestMemoryLaws].  [None]
    stands for any [GuestMemoryError] (no caller looks inside it).  After a
    failed write callers keep the old memory value; no theorem relies on the
    contents of memory after a failed write.

    [FlatMem] is a concrete single-region memory that satisfies the laws; the
    witnesses of the client theorems run on it. *)

From S2P Require Import Prelude.

Class GuestMemory (M : Type) := {
  (** [read_obj]/[read_slice]: the [n] bytes at a guest address *)
  gm_read : M -> Z -> nat -> option (list byte);
  (** [write_obj]/[write_slice] *)
  gm_write : M -> Z -> list byte -> option M;
  (** [load::<u16>] and [store::<u16>]: atomic, naturally aligned accesses *)
  gm_load16 : M -> Z -> option Z;
  gm_store16 : M -> Z -> Z -> option M;
  (** [address_in_range] *)
  gm_in_range : M -> Z -> bool;
  (** [checked_offset] *)
  gm_checked_offset : M -> Z -> Z -> option Z;
  (** [find_region]: start address and length of the region of an address *)
  gm_find_region : M -> Z -> option (Z * Z);
}.

Class GuestMemoryLaws (M : Type) `{GuestMemory M} : Prop := {
  gm_read_length m a n bs : gm_read m a n = Some bs -> length bs = n;
  gm_read_bytes m a n bs : gm_read m a n = Some bs -> bytes_ok bs;
  gm_read_sub m a n bs i k : gm_read m a n = Some bs -> (i + k <= n)%nat ->
    gm_read m (a + Z.of_nat i) k = Some (slice bs i k);
  gm_write_read m m' a bs : gm_write m a bs = Some m' -> bytes_ok bs ->
    gm_read m' a (length bs) = Some bs;
  gm_write_frame m m' a bs a' n : gm_write m a bs = Some m' ->
    a' + Z.of_nat n <= a \/ a + Zlength bs <= a' ->
    gm_read m' a' n = gm_read m a' n;
  gm_write_total m a bs old : gm_read m a (length bs) = Some old -> bytes_ok bs ->
    is_Some (gm_write m a bs);
  gm_write_domain m m' a bs a' n : gm_write m a bs = Some m' ->
    is_Some (gm_read m' a' n) <-> is_Some (gm_read m a' n);
  gm_write_range m m' a bs : gm_write m a bs = Some m' ->
    gm_in_range m' = gm_in_range m /\ gm_find_region m' = gm_find_region m;
  gm_load16_read m a v : gm_load16 m a = Some v ->
    gm_read m a 2 = Some (le_bytes 2 v) /\ fits 16 v;
  gm_load16_total m a bs : gm_read m a 2 = Some bs -> a mod 2 = 0 ->
    is_Some (gm_load16 m a);
  gm_store16_write m a v m' : gm_store16 m a v = Some m' ->
    gm_write m a (le_bytes 2 v) = Some m';
  gm_store16_total m a v bs : gm_read m a 2 = Some bs -> a mod 2 = 0 ->
    is_Some (gm_store16 m a v);
  gm_checked_offset_spec m b o a : gm_checked_offset m b o = Some a <->
    a = b + o /\ a < 2 ^ 64 /\ gm_in_range m a = true;
  gm_in_range_region m a :
    gm_in_range m a = true <-> is_Some (gm_find_region m a);
  gm_find_region_spec m a s l : gm_find_region m a = Some (s, l) -> s <= a < s + l;
  gm_region_read m a s l n : gm_find_region m a = Some (s, l) -> a + Z.of_nat n <= s + l ->
    is_Some (gm_read m a n);
}.

Section derived.
Context {M : Type} `{GuestMemoryLaws M}.

Lemma gm_write_offset m m' a bs b o :
  gm_write m a bs = Some m' -> gm_checked_offset m' b o = gm_checked_offset m b o.
Proof.
  intros Hw. apply gm_write_range in Hw as [Hr _].
  destruct (gm_checked_offset m b o) as [c|] eqn:E.
  - apply gm_checked_offset_spec in E. apply gm_checked_offset_spec. by rewrite Hr.
  - apply eq_None_not_Some; intros [c Hc]. apply gm_checked_offset_spec in Hc.
    rewrite Hr in Hc. by apply gm_checked_offset_spec in Hc; rewrite E in Hc.
Qed.

(** What a [u16] store leaves behind. *)
Lemma gm_store16_load m m' a v w :
  gm_store16 m a v = Some m' -> fits 16 v -> gm_load16 m' a = Some w -> w = v.
Proof.
  intros Hs Hv Hl. apply gm_store16_write in Hs.
  apply gm_load16_read in Hl as [Hl Hw].
  eapply gm_write_read in Hs; [|apply le_bytes_ok].
  rewrite length_le_bytes in Hs.
  assert (le_bytes 2 w = le_bytes 2 v) as Heq by congruence.
  apply (f_equal le_val) in Heq. rewrite !le_val_le_bytes in Heq.
  by rewrite !wrap_small in Heq.
Qed.

Lemma gm_store16_frame m m' a v a' n :
  gm_store16 m a v = Some m' -> a' + Z.of_nat n <= a \/ a + 2 <= a' ->
  gm_read m' a' n = gm_read m a' n.
Proof.
  intros Hs Hd. apply gm_store16_write in Hs.
  eapply gm_write_frame; [done|]. rewrite length_le_bytes. lia.
Qed.

(** A [u16] load depends on its two bytes only. *)
Lemma gm_load16_ext m m' a bs :
  gm_read m a 2 = Some bs -> gm_read m' a 2 = gm_read m a 2 -> a mod 2 = 0 ->
  gm_load16 m' a = gm_load16 m a.
Proof.
  intros Hr Heq Ha. pose proof Hr as Hr'. rewrite <- Heq in Hr'.
  destruct (gm_load16_total _ _ _ Hr Ha) as [v Hv], (gm_load16_total _ _ _ Hr' Ha) as [v' Hv'].
  rewrite Hv, Hv'. apply gm_load16_read in Hv as [E Hf], Hv' as [E' Hf'].
  assert (le_bytes 2 v' = le_bytes 2 v) as Hb by congruence.
  apply (f_equal le_val) in Hb. rewrite !le_val_le_bytes in Hb. by rewrite !wrap_small in Hb; subst.
Qed.

(** The frame of a write, stated on addresses. *)
Lemma gm_write_frame_addr m m' a bs a' n :
  gm_write m a bs = Some m' ->
  (forall i, a' <= i < a' + Z.of_nat n -> ~ (a <= i < a + Zlength bs)) ->
  gm_read m' a' n = gm_read m a' n.
Proof.
  intros Hw Hd. pose proof (gm_write_domain _ _ _ _ a' n Hw) as Hdom.
  destruct (gm_read m' a' n) as [l'|] eqn:E', (gm_read m a' n) as [l|] eqn:E;
    [|by destruct (proj1 Hdom ltac:(eauto))|by destruct (proj2 Hdom ltac:(eauto))|done].
  f_equal. apply gm_read_length in E' as Hl', E as Hl. apply list_eq; intros i.
  destruct (decide (i < n)%nat) as [Hi|]; [|by rewrite !lookup_ge_None_2 by lia].
  pose proof (gm_read_sub _ _ _ _ i 1 E' ltac:(lia)) as S'.
  pose proof (gm_read_sub _ _ _ _ i 1 E ltac:(lia)) as S.
  rewrite (gm_write_frame _ _ _ _ _ _ Hw) in S'.
  - assert (slice l' i 1 = slice l i 1) as Hs by congruence.
    apply (f_equal (.!! 0%nat)) in Hs. unfold slice in Hs.
    by rewrite !lookup_take_lt, !lookup_drop, !Nat.add_0_r in Hs by lia.
  - specialize (Hd (a' + Z.of_nat i) ltac:(lia)). lia.
Qed.

(** A write over the front of a readable range. *)
Lemma gm_write_read_over m m' a bs n old :
  gm_write m a bs = Some m' -> bytes_ok bs -> gm_read m a n = Some old ->
  (length bs <= n)%nat -> gm_read m' a n = Some (bs ++ drop (length bs) old).
Proof.
  intros Hw Hb Ho Hn. destruct (proj2 (gm_write_domain _ _ _ _ a n Hw) ltac:(eauto)) as [new Hnew].
  rewrite Hnew. f_equal. apply gm_read_length in Hnew as Hl', Ho as Hl.
  rewrite <- (take_drop (length bs) new). f_equal.
  - pose proof (gm_read_sub _ _ _ _ 0 (length bs) Hnew ltac:(lia)) as S.
    rewrite Z.add_0_r, (gm_write_read _ _ _ _ Hw Hb) in S. unfold slice in S.
    rewrite drop_0 in S. congruence.
  - pose proof (gm_read_sub _ _ _ _ (length bs) (n - length bs) Hnew ltac:(lia)) as S'.
    pose proof (gm_read_sub _ _ _ _ (length bs) (n - length bs) Ho ltac:(lia)) as S.
    rewrite (gm_write_frame_addr _ _ _ _ _ _ Hw) in S' by lia. unfold slice in *.
    rewrite !take_ge in S, S' by (rewrite length_drop; lia). congruence.
Qed.

(** A write right behind what is known. *)
Lemma gm_write_append m m' a bs bs' :
  is_Some (gm_read m a (length bs + length bs')) -> gm_read m a (length bs) = Some bs ->
  gm_write m (a + Zlength bs) bs' = Some m' -> bytes_ok bs' ->
  gm_read m' a (length (bs ++ bs')) = Some (bs ++ bs').
Proof.
  intros Hs Hr Hw Hb. apply (gm_write_domain _ _ _ _ a _ Hw) in Hs as [new Hn]. rewrite length_app, Hn. f_equal.
  pose proof (gm_read_sub _ _ _ _ 0 (length bs) Hn ltac:(lia)) as H1. rewrite Z.add_0_r, (gm_write_frame _ _ _ _ _ _ Hw), Hr in H1 by lia.
  pose proof (gm_read_sub _ _ _ _ (length bs) (length bs') Hn ltac:(lia)) as H2. rewrite (gm_write_read _ _ _ _ Hw Hb) in H2.
  apply gm_read_length in Hn. injection H1 as E1. injection H2 as E2. unfold slice in *. rewrite drop_0 in E1.
  rewrite (take_ge (drop _ _)) in E2 by (rewrite length_drop; lia).
  transitivity (take (length bs) new ++ drop (length bs) new); [by rewrite take_drop|congruence].
Qed.
End derived.

(** ** A concrete memory: one region *)

Record FlatMem := mkFlat { fm_start : Z; fm_data : list byte }.

Definition fm_wf (m : FlatMem) : bool :=
  (0 <=? fm_start m) && forallb (fitsb 8) (fm_data m).

Definition fm_read (m : FlatMem) (a : Z) (n : nat) : option (list byte) :=
  if fm_wf m && (fm_start m <=? a) && (a + Z.of_nat n <=? fm_start m + Zlength (fm_data m))
  then Some (slice (fm_data m) (Z.to_nat (a - fm_start m)) n) else None.

Definition fm_write (m : FlatMem) (a : Z) (bs : list byte) : option FlatMem :=
  if fm_wf m && forallb (fitsb 8) bs && (fm_start m <=? a) &&
     (a + Zlength bs <=? fm_start m + Zlength (fm_data m))
  then Some (mkFlat (fm_start m) (splice (fm_data m) (Z.to_nat (a - fm_start m)) bs))
  else None.

Definition fm_load16 (m : FlatMem) (a : Z) : option Z :=
  if a mod 2 =? 0 then bs ← fm_read m a 2; Some (le_val bs) else None.

Definition fm_store16 (m : FlatMem) (a v : Z) : option FlatMem :=
  if a mod 2 =? 0 then fm_write m a (le_bytes 2 v) else None.

Definition fm_in_range (m : FlatMem) (a : Z) : bool :=
  fm_wf m && (fm_start m <=? a) && (a <? fm_start m + Zlength (fm_data m)).

Definition fm_find_region (m : FlatMem) (a : Z) : option (Z * Z) :=
  if fm_in_range m a then Some (fm_start m, Zlength (fm_data m)) else None.

Definition fm_checked_offset (m : FlatMem) (b o : Z) : option Z :=
  if (b + o <? 2 ^ 64) && fm_in_range m (b + o) then Some (b + o) else None.

#[export] Instance flat_memory : GuestMemory FlatMem := {|
  gm_read := fm_read;
  gm_write := fm_write;
  gm_load16 := fm_load16;
  gm_store16 := fm_store16;
  gm_in_range := fm_in_range;
  gm_checked_offset := fm_checked_offset;
  gm_find_region := fm_find_region;
|}.

Lemma forallb_bytes bs : forallb (fitsb 8) bs = true <-> bytes_ok bs.
Proof.
  unfold bytes_ok. induction bs as [|b bs IH]; simpl; [by split|].
  by rewrite andb_true_iff, Forall_cons, IH, fitsb_fits.
Qed.

Lemma fm_read_Some m a n bs :
  fm_read m a n = Some bs <->
  fm_wf m = true /\ fm_start m <= a /\ a + Z.of_nat n <= fm_start m + Zlength (fm_data m) /\
  bs = slice (fm_data m) (Z.to_nat (a - fm_start m)) n.
Proof.
  unfold fm_read. case_bool.
  - zify_bool. split; [by intros [= <-]|]. by intros (_ & _ & _ & ->).
  - split; [done|]. intros (Hwf & ? & ? & _). rewrite Hwf in *. lia.
Qed.

Lemma fm_write_Some m a bs m' :
  fm_write m a bs = Some m' <->
  fm_wf m = true /\ bytes_ok bs /\ fm_start m <= a /\
  a + Zlength bs <= fm_start m + Zlength (fm_data m) /\
  m' = mkFlat (fm_start m) (splice (fm_data m) (Z.to_nat (a - fm_start m)) bs).
Proof.
  unfold fm_write. rewrite <- forallb_bytes. case_bool.
  - zify_bool. split; [by intros [= <-]|]. by intros (_ & _ & _ & _ & ->).
  - split; [done|]. intros (Hwf & Hb & ? & ? & _). rewrite Hwf, Hb in *. lia.
Qed.

Lemma fm_wf_spec m : fm_wf m = true <-> 0 <= fm_start m /\ bytes_ok (fm_data m).
Proof. unfold fm_wf. by rewrite <- forallb_bytes, andb_true_iff, Z.leb_le. Qed.

(** Zeroed memory, of any size. *)
Definition zero_mem (size : nat) : FlatMem := mkFlat 0 (replicate size 0).

Lemma zero_mem_wf size : fm_wf (zero_mem size) = true.
Proof. apply fm_wf_spec. split; [done|]. by apply Forall_replicate. Qed.

Lemma zero_mem_read size a n :
  0 <= a -> a + Z.of_nat n <= Z.of_nat size -> gm_read (zero_mem size) a n = Some (replicate n 0).
Proof.
  intros Ha Hn. apply fm_read_Some. unfold zero_mem. cbn [fm_start fm_data]. rewrite length_replicate.
  split; [apply zero_mem_wf|]. split; [done|]. split; [lia|].
  unfold slice. rewrite drop_replicate, take_replicate. f_equal. lia.
Qed.

Lemma zero_mem_in_range size a : 0 <= a < Z.of_nat size -> gm_in_range (zero_mem size) a = true.
Proof.
  intros Ha. cbn [gm_in_range flat_memory]. unfold fm_in_range. rewrite zero_mem_wf.
  unfold zero_mem. cbn [fm_start fm_data]. rewrite length_replicate. lia.
Qed.

Lemma fm_write_wf m a bs m' : fm_write m a bs = Some m' -> fm_wf m' = true.
Proof.
  intros (Hwf & Hbs & _ & _ & ->)%fm_write_Some. apply fm_wf_spec in Hwf as [? ?].
  apply fm_wf_spec; simpl. split; [done|]. by apply splice_Forall.
Qed.

#[export] Instance flat_memory_laws : GuestMemoryLaws FlatMem.
Proof.
  split; simpl.
  - intros m a n bs (_ & ? & ? & ->)%fm_read_Some. apply length_slice. lia.
  - intros m a n bs (Hwf & _ & _ & ->)%fm_read_Some.
    apply fm_wf_spec in Hwf as [_ ?]. by apply slice_Forall.
  - intros m a n bs i k (? & ? & ? & ->)%fm_read_Some ?.
    apply fm_read_Some. repeat split; try done; try lia.
    unfold slice. rewrite skipn_firstn_comm, drop_drop, take_take.
    f_equal; [lia|f_equal; lia].
  - intros m m' a bs Hw _. pose proof (fm_write_wf _ _ _ _ Hw).
    apply fm_write_Some in Hw as (? & ? & ? & ? & ->). apply fm_read_Some. simpl.
    rewrite length_splice. repeat split; try done.
    by rewrite slice_splice_same by lia.
  - intros m m' a bs a' n Hw Hd. pose proof (fm_write_wf _ _ _ _ Hw) as Hwf.
    apply fm_write_Some in Hw as (Hwf0 & ? & ? & ? & ->). unfold fm_read.
    rewrite Hwf, Hwf0. simpl. rewrite length_splice. case_bool; [|done].
    zify_bool. f_equal. apply slice_splice_disjoint; lia.
  - intros m a bs old (? & ? & ? & _)%fm_read_Some ?.
    eexists. apply fm_write_Some. eauto.
  - intros m m' a bs a' n Hw. pose proof (fm_write_wf _ _ _ _ Hw) as Hwf.
    apply fm_write_Some in Hw as (Hwf0 & ? & ? & ? & ->). unfold fm_read.
    rewrite Hwf, Hwf0. simpl. rewrite length_splice.
    case_bool; split; intros [? [=]]; eauto.
  - intros m m' a bs Hw. pose proof (fm_write_wf _ _ _ _ Hw) as Hwf.
    apply fm_write_Some in Hw as (Hwf0 & ? & ? & ? & ->).
    unfold fm_find_region, fm_in_range. rewrite Hwf, Hwf0. simpl. by rewrite length_splice.
  - intros m a v Hl. unfold fm_load16 in Hl. case_bool; [|done].
    destruct (fm_read m a 2) as [bs|] eqn:E; [|done]. simplify_eq/=.
    apply fm_read_Some in E as (Hwf & ? & ? & ->). apply fm_wf_spec in Hwf as [_ Hb].
    pose proof (slice_Forall _ _ (Z.to_nat (a - fm_start m)) 2 Hb) as Hs.
    assert (length (slice (fm_data m) (Z.to_nat (a - fm_start m)) 2) = 2%nat) as Hl
      by (apply length_slice; lia).
    split; [|apply le_val_bound in Hs; by rewrite Hl in Hs].
    f_equal. symmetry. by apply le_bytes_le_val_n.
  - intros m a bs Hr Ha. unfold fm_load16. rewrite Ha, Hr. simpl. eauto.
  - intros m a v m' Hs. unfold fm_store16 in Hs. by case_bool.
  - intros m a v bs (? & ? & ? & _)%fm_read_Some Ha. unfold fm_store16. rewrite Ha. simpl.
    eexists. apply fm_write_Some. rewrite length_le_bytes.
    repeat split; try done. apply le_bytes_ok.
  - intros m b o a. unfold fm_checked_offset. case_bool; zify_bool.
    + split; [by intros [= <-]|]. by intros (-> & _).
    + split; [done|]. intros (-> & ? & Hr). rewrite Hr in *. lia.
  - intros m a. unfold fm_find_region. case_bool; split; try done; eauto.
  - intros m a s l. unfold fm_find_region, fm_in_range.
    case_bool; [|done]. intros [=]. zify_bool. subst. lia.
  - intros m a s l n. unfold fm_find_region, fm_in_range.
    case_bool; [|done]. intros [= <- <-] ?. zify_bool.
    eexists. apply fm_read_Some. eauto.
Qed.
