(* ===== verification/VirtQueue.v ===== *)
(** * Split virtqueues ([devices/src/virtio/queue.rs])

    [Queue] is the device side of a virtio split queue: descriptor chains are
    popped from the driver's available ring and returned through the used
    ring, with event-index notification suppression.  The guest driver is
    untrusted: indices, chain links and ring addresses are read from guest
    memory, so the interesting properties are bounds and termination for
    every memory content, and the exact effect of each operation on the
    rings.

    Memory is the [GuestMemory] interface; the [mem] reference stored in a
    [DescriptorChain] is passed explicitly.  Fences and memory orderings have
    no sequential effect and are not represented. *)

From S2P Require Import Prelude GuestMem.

Module VirtQueue.

Definition VIRTQ_USED_RING_HEADER_SIZE : Z := 4.
Definition VIRTQ_USED_ELEMENT_SIZE : Z := 8.
Definition VIRTQ_AVAIL_RING_HEADER_SIZE : Z := 4.
Definition VIRTQ_AVAIL_ELEMENT_SIZE : Z := 2.
Definition VIRTQ_DESC_F_NEXT : Z := 0x1.
Definition VIRTQ_DESC_F_WRITE : Z := 0x2.
Definition VRING_USED_F_NO_NOTIFY : Z := 1.

Inductive Error :=
| AddressOverflow | GuestMemoryErr | InvalidIndirectDescriptor
| InvalidIndirectDescriptorTable | InvalidChain | InvalidDescriptorIndex
| InvalidMaxSize | InvalidSize | InvalidDescTableAlign | InvalidAvailRingAlign
| InvalidUsedRingAlign | InvalidAvailRingIndex | QueueNotReady
| VolatileMemoryError | DescriptorChainOverflow | FindMemoryRegion
| GuestMemoryError | SplitOutOfBounds (off : Z).

(** ** Descriptors *)

(** [repr(C)]: [addr: u64, len: u32, flags: u16, next: u16], 16 bytes. *)
Record Descriptor := mkDescriptor {
  d_addr : Z; d_len : Z; d_flags : Z; d_next : Z
}.

Definition decode_descriptor (bs : list byte) : Descriptor := {|
  d_addr := le_val (slice bs 0 8);
  d_len := le_val (slice bs 8 4);
  d_flags := le_val (slice bs 12 2);
  d_next := le_val (slice bs 14 2);
|}.

Record DescriptorChain := mkChain {
  desc_table : Z;
  queue_size : Z;
  ttl : Z;
  index : Z;
  addr : Z;
  len : Z;
  flags : Z;
  next : Z;
}.

Definition set_ttl (c : DescriptorChain) (t : Z) : DescriptorChain := {|
  desc_table := desc_table c; queue_size := queue_size c; ttl := t; index := index c;
  addr := addr c; len := len c; flags := flags c; next := next c |}.

Definition has_next (c : DescriptorChain) : bool :=
  negb (flags c .& VIRTQ_DESC_F_NEXT =? 0) && (1 <? ttl c).

Definition chain_is_valid (c : DescriptorChain) : bool :=
  negb (has_next c) || (next c <? queue_size c).

Definition is_write_only (c : DescriptorChain) : bool :=
  negb (flags c .& VIRTQ_DESC_F_WRITE =? 0).

Definition is_read_only (c : DescriptorChain) : bool :=
  flags c .& VIRTQ_DESC_F_WRITE =? 0.

Definition descriptor (c : DescriptorChain) : Descriptor :=
  mkDescriptor (addr c) (len c) (flags c) (next c).

Section memory.
Context {M : Type} `{GuestMemory M}.

Definition checked_new (m : M) (dt qs idx : Z) : option DescriptorChain :=
  if qs <=? idx then None
  else
    desc_head ← gm_checked_offset m dt (idx * 16);
    _ ← gm_checked_offset m desc_head 16;
    bs ← gm_read m desc_head 16;
    let desc := decode_descriptor bs in
    let chain := {|
      desc_table := dt; queue_size := qs; ttl := qs; index := idx;
      addr := d_addr desc; len := d_len desc; flags := d_flags desc; next := d_next desc |} in
    if chain_is_valid chain then Some chain else None.

Definition next_descriptor (m : M) (c : DescriptorChain) : option DescriptorChain :=
  if has_next c then
    c' ← checked_new m (desc_table c) (queue_size c) (next c);
    Some (set_ttl c' (ttl c - 1))
  else None.

(** ** [DescIter] *)

(** [Iterator::next]: yields the current descriptor and advances. *)
Definition desc_iter_next (m : M) (it : option DescriptorChain)
    : option DescriptorChain * option DescriptorChain :=
  match it with
  | Some current => (Some current, next_descriptor m current)
  | None => (None, None)
  end.

(** The items an iterator yields within [fuel] calls of [next]. *)
Fixpoint desc_iter_collect (fuel : nat) (m : M) (it : option DescriptorChain)
    : list DescriptorChain :=
  match fuel with
  | O => []
  | S fuel =>
      match desc_iter_next m it with
      | (Some c, it') => c :: desc_iter_collect fuel m it'
      | (None, _) => []
      end
  end.

(** [into_iter]: [ttl] calls of [next] exhaust the chain (see
    [desc_iter_fuel_enough]). *)
Definition into_iter (m : M) (c : DescriptorChain) : list DescriptorChain :=
  desc_iter_collect (Z.to_nat (Z.max 1 (ttl c))) m (Some c).

Fixpoint take_while {A} (p : A -> bool) (l : list A) : list A :=
  match l with
  | [] => []
  | x :: l => if p x then x :: take_while p l else []
  end.

Fixpoint skip_while {A} (p : A -> bool) (l : list A) : list A :=
  match l with
  | [] => []
  | x :: l => if p x then skip_while p l else x :: l
  end.

Definition readable (m : M) (c : DescriptorChain) : list DescriptorChain :=
  take_while is_read_only (into_iter m c).

Definition writable (m : M) (c : DescriptorChain) : list DescriptorChain :=
  skip_while is_read_only (into_iter m c).

End memory.

(** ** The queue *)

Record Queue := mkQueue {
  max_size : Z;
  size : Z;
  ready : bool;
  q_desc_table : Z;
  avail_ring : Z;
  used_ring : Z;
  next_avail : Z;
  next_used : Z;
  event_idx_enabled : bool;
  num_added : Z;
}.

Definition Queue_new (max_size : Z) : Queue := {|
  max_size := max_size; size := 0; ready := false;
  q_desc_table := 0; avail_ring := 0; used_ring := 0;
  next_avail := 0; next_used := 0; event_idx_enabled := false; num_added := 0 |}.

Definition get_max_size (q : Queue) : Z := max_size q.

Definition actual_size (q : Queue) : Z := Z.min (size q) (max_size q).

Definition set_next_avail (q : Queue) (v : Z) : Queue := {|
  max_size := max_size q; size := size q; ready := ready q;
  q_desc_table := q_desc_table q; avail_ring := avail_ring q; used_ring := used_ring q;
  next_avail := v; next_used := next_used q;
  event_idx_enabled := event_idx_enabled q; num_added := num_added q |}.

Definition set_used_state (q : Queue) (used added : Z) : Queue := {|
  max_size := max_size q; size := size q; ready := ready q;
  q_desc_table := q_desc_table q; avail_ring := avail_ring q; used_ring := used_ring q;
  next_avail := next_avail q; next_used := used;
  event_idx_enabled := event_idx_enabled q; num_added := added |}.

Definition set_event_idx (q : Queue) (enabled : bool) : Queue := {|
  max_size := max_size q; size := size q; ready := ready q;
  q_desc_table := q_desc_table q; avail_ring := avail_ring q; used_ring := used_ring q;
  next_avail := next_avail q; next_used := next_used q;
  event_idx_enabled := enabled; num_added := num_added q |}.

Definition undo_pop (q : Queue) : Queue := set_next_avail q (next_avail q -[16] 1).

Definition go_to_previous_position (q : Queue) : Queue :=
  set_next_avail q (next_avail q -[16] 1).

Section queue_memory.
Context {M : Type} `{GuestMemory M}.

(** [addr.checked_add(len).map_or(true, |v| !mem.address_in_range(v))] *)
Definition ring_out_of_bounds (m : M) (a sz : Z) : bool :=
  match checked_add 64 a sz with
  | Some v => negb (gm_in_range m v)
  | None => true
  end.

Definition is_valid (m : M) (q : Queue) : bool :=
  let queue_size := actual_size q in
  let desc_table_size := 16 * queue_size in
  let avail_ring_size := 6 + 2 * queue_size in
  let used_ring_size := 6 + 8 * queue_size in
  if negb (ready q) then false
  else if (max_size q <? size q) || (size q =? 0) || negb (size q .& (size q - 1) =? 0) then false
  else if ring_out_of_bounds m (q_desc_table q) desc_table_size then false
  else if ring_out_of_bounds m (avail_ring q) avail_ring_size then false
  else if ring_out_of_bounds m (used_ring q) used_ring_size then false
  else if negb (q_desc_table q .& 0xf =? 0) then false
  else if negb (avail_ring q .& 0x1 =? 0) then false
  else if negb (used_ring q .& 0x3 =? 0) then false
  else true.

Definition avail_idx (m : M) (q : Queue) : result Error Z :=
  a ← ok_or (checked_add 64 (avail_ring q) 2) AddressOverflow;
  ok_or (gm_load16 m a) GuestMemoryErr.

(** [len] unwraps [avail_idx]. *)
Definition queue_len (m : M) (q : Queue) : outcome Z :=
  match avail_idx m q with
  | Ok i => Ret (i -[16] next_avail q)
  | Err _ => Panic
  end.

Definition is_empty (m : M) (q : Queue) : outcome bool :=
  l ← queue_len m q; Ret (l =? 0).

Definition pop (m : M) (q : Queue) : outcome (option DescriptorChain * Queue) :=
  l ← queue_len m q;
  if (l =? 0) || (actual_size q =? 0) then Ret (None, q)
  else
    let index_offset := wrap 16 (4 + 2 * (next_avail q mod actual_size q)) in
    bs ← unwrap (gm_read m (avail_ring q +[64] index_offset) 2);
    let desc_index := le_val bs in
    match checked_new m (q_desc_table q) (actual_size q) desc_index with
    | Some c => Ret (Some c, set_next_avail q (next_avail q +[16] 1))
    | None => Ret (None, q)
    end.

(** [VirtqUsedElem], [repr(C)]: [id: u32, len: u32]. *)
Definition used_elem_bytes (id len : Z) : list byte := le_bytes 4 id ++ le_bytes 4 len.

Definition add_used (m : M) (q : Queue) (head_index len : Z)
    : result Error unit * Queue * M :=
  if size q <=? head_index then (Err InvalidDescriptorIndex, q, m)
  else
    let next_used_index := next_used q mod size q in
    let offset := VIRTQ_USED_RING_HEADER_SIZE + next_used_index * VIRTQ_USED_ELEMENT_SIZE in
    match checked_add 64 (used_ring q) offset with
    | None => (Err AddressOverflow, q, m)
    | Some a =>
        match gm_write m a (used_elem_bytes head_index len) with
        | None => (Err GuestMemoryErr, q, m)
        | Some m1 =>
            let q1 := set_used_state q (next_used q +[16] 1) (num_added q +[16] 1) in
            match checked_add 64 (used_ring q) 2 with
            | None => (Err AddressOverflow, q1, m1)
            | Some idx_addr =>
                match gm_store16 m1 idx_addr (next_used q1) with
                | None => (Err GuestMemoryErr, q1, m1)
                | Some m2 => (Ok tt, q1, m2)
                end
            end
        end
    end.

Definition used_event (m : M) (q : Queue) : result Error Z :=
  let used_event_offset := VIRTQ_AVAIL_RING_HEADER_SIZE + size q * VIRTQ_AVAIL_ELEMENT_SIZE in
  a ← ok_or (checked_add 64 (avail_ring q) used_event_offset) AddressOverflow;
  ok_or (gm_load16 m a) GuestMemoryErr.

Definition set_avail_event (m : M) (q : Queue) (val : Z) : result Error M :=
  let avail_event_offset := VIRTQ_USED_RING_HEADER_SIZE + VIRTQ_USED_ELEMENT_SIZE * size q in
  a ← ok_or (checked_add 64 (used_ring q) avail_event_offset) AddressOverflow;
  ok_or (gm_store16 m a val) GuestMemoryErr.

Definition set_used_flags (m : M) (q : Queue) (val : Z) : result Error M :=
  ok_or (gm_store16 m (used_ring q) val) GuestMemoryErr.

Definition set_notification (m : M) (q : Queue) (enable : bool) : result Error M :=
  if enable then
    if event_idx_enabled q then set_avail_event m q (next_avail q)
    else set_used_flags m q 0
  else if negb (event_idx_enabled q) then set_used_flags m q VRING_USED_F_NO_NOTIFY
  else Ok m.

(** Returns whether the driver has added entries meanwhile. *)
Definition enable_notification (m : M) (q : Queue) : result Error (bool * M) :=
  m1 ← set_notification m q true;
  idx ← avail_idx m1 q;
  Ok (negb (idx =? next_avail q), m1).

Definition disable_notification (m : M) (q : Queue) : result Error M :=
  set_notification m q false.

Definition needs_notification (m : M) (q : Queue) : result Error bool * Queue :=
  let used_idx := next_used q in
  if event_idx_enabled q then
    match used_event m q with
    | Err e => (Err e, q)
    | Ok ev =>
        let old := used_idx -[16] num_added q in
        (Ok ((used_idx -[16] ev) -[16] 1 <? used_idx -[16] old),
         set_used_state q (next_used q) 0)
    end
  else (Ok true, q).

End queue_memory.

(** ** Descriptor chains: bounds and termination *)

Section chain_facts.
Context {M : Type} `{GuestMemoryLaws M}.
Implicit Types (m : M) (c d : DescriptorChain).

Lemma checked_new_Some m dt qs i c :
  checked_new m dt qs i = Some c ->
  i < qs /\ index c = i /\ queue_size c = qs /\ ttl c = qs /\ desc_table c = dt /\
  chain_is_valid c = true /\
  exists bs, gm_read m (dt + i * 16) 16 = Some bs /\
    descriptor c = decode_descriptor bs /\ dt + i * 16 + 16 < 2 ^ 64.
Proof.
  unfold checked_new. case_bool; [done|]. zify_bool.
  destruct (gm_checked_offset m dt (i * 16)) as [a|] eqn:E1; [|done]. simpl.
  destruct (gm_checked_offset m a 16) as [b|] eqn:E2; [|done]. simpl.
  destruct (gm_read m a 16) as [bs|] eqn:E3; [|done]. simpl.
  case_bool; [|done]. intros [= <-]. simpl.
  apply gm_checked_offset_spec in E1 as (-> & ? & ?).
  apply gm_checked_offset_spec in E2 as (-> & ? & ?).
  repeat split; try done. exists bs. repeat split; try done.
Qed.

Lemma next_descriptor_Some m c d :
  next_descriptor m c = Some d ->
  has_next c = true /\ ttl d = ttl c - 1 /\ 1 < ttl c /\ index d = next c /\
  index d < queue_size d /\ queue_size d = queue_size c /\ desc_table d = desc_table c.
Proof.
  unfold next_descriptor. destruct (has_next c) eqn:Hn; [|done].
  destruct (checked_new _ _ _ _) as [c'|] eqn:E; [|done]. intros [= <-].
  apply checked_new_Some in E as (? & ? & ? & ? & ? & _). simpl.
  unfold has_next in Hn. zify_bool. repeat split; congruence || lia.
Qed.

(** Enough fuel is enough: [max 1 ttl] calls of [next] exhaust the chain, so
    any larger bound yields the same items. *)
Lemma desc_iter_fuel_enough m c n1 n2 :
  Z.max 1 (ttl c) <= Z.of_nat n1 -> Z.max 1 (ttl c) <= Z.of_nat n2 ->
  desc_iter_collect n1 m (Some c) = desc_iter_collect n2 m (Some c).
Proof.
  revert c n2; induction n1 as [|n1 IH]; intros c n2 H1 H2; [lia|].
  destruct n2 as [|n2]; [lia|]. simpl. f_equal.
  destruct (next_descriptor m c) as [d|] eqn:E; [|by destruct n1, n2].
  apply next_descriptor_Some in E as (_ & ? & ? & _). apply IH; lia.
Qed.

Lemma desc_iter_length m it n : (length (desc_iter_collect n m it) <= n)%nat.
Proof.
  revert it; induction n as [|n IH]; intros [c|]; simpl; try lia. specialize (IH (next_descriptor m c)). lia.
Qed.

(** Every yielded descriptor stays inside the table of the head. *)
Lemma desc_iter_bounds m n c :
  index c < queue_size c ->
  Forall (fun d => index d < queue_size c /\ queue_size d = queue_size c /\
                   desc_table d = desc_table c) (desc_iter_collect n m (Some c)).
Proof.
  revert c; induction n as [|n IH]; intros c Hc; [constructor|]. simpl. constructor; [done|].
  destruct (next_descriptor m c) as [d|] eqn:E; [|destruct n; constructor].
  apply next_descriptor_Some in E as (_ & _ & _ & _ & ? & Hq & Hd).
  specialize (IH d ltac:(lia)). by rewrite Hq, Hd in IH.
Qed.

(** Consecutive items are linked by the [next] field of the former. *)
Lemma desc_iter_linked m n c i d e :
  desc_iter_collect n m (Some c) !! i = Some d ->
  desc_iter_collect n m (Some c) !! S i = Some e ->
  has_next d = true /\ index e = next d /\ ttl e = ttl d - 1.
Proof.
  revert c i; induction n as [|n IH]; intros c i Hd He; [done|]. simpl in Hd, He.
  destruct (next_descriptor m c) as [c'|] eqn:E; [|by destruct n].
  destruct i as [|i].
  - simplify_eq/=. destruct n; [done|]. simpl in He. simplify_eq.
    apply next_descriptor_Some in E as (? & ? & _ & ? & _). done.
  - eapply IH; eauto.
Qed.

Lemma take_while_sublist {A} p (l : list A) : exists k, take_while p l = take k l.
Proof.
  induction l as [|x l [k IH]]; [by exists O|]. simpl. case_bool.
  - exists (S k). by rewrite IH.
  - by exists O.
Qed.

Lemma take_skip_while {A} p (l : list A) : take_while p l ++ skip_while p l = l.
Proof. induction l; simpl; [done|]. case_bool; simpl; congruence. Qed.

Lemma take_while_Forall {A} p (l : list A) : Forall (fun x => p x = true) (take_while p l).
Proof. induction l; simpl; [done|]. case_bool; auto. Qed.

(** C1. Whatever the guest writes into its descriptor table, walking a chain
    whose head [checked_new] accepted terminates: any number of [next] calls
    from the queue size on yields the same list, this list has at most
    [queue_size] items (so a cyclic table cannot keep the device busy), every
    item indexes the table within bounds, and consecutive items are linked by
    the [next] field. *)
Theorem descriptor_chain_terminates m dt qs i c (fuel : nat) :
  checked_new m dt qs i = Some c -> 0 <= i -> qs <= Z.of_nat fuel ->
  desc_iter_collect fuel m (Some c) = into_iter m c /\
  Zlength (into_iter m c) <= qs /\
  Forall (fun d => index d < qs /\ desc_table d = dt) (into_iter m c) /\
  (forall k d e, into_iter m c !! k = Some d -> into_iter m c !! S k = Some e ->
     has_next d = true /\ index e = next d).
Proof.
  intros Hc Hi Hf. apply checked_new_Some in Hc as (Hlt & Hidx & Hqs & Httl & Hdt & _).
  unfold into_iter. split_and!.
  - apply desc_iter_fuel_enough; lia.
  - pose proof (desc_iter_length m (Some c) (Z.to_nat (Z.max 1 (ttl c)))). lia.
  - pose proof (desc_iter_bounds m (Z.to_nat (Z.max 1 (ttl c))) c ltac:(lia)) as HF.
    rewrite Hqs, Hdt in HF. eapply Forall_impl; [done|]. naive_solver.
  - intros k d e Hd He. by destruct (desc_iter_linked _ _ _ _ _ _ Hd He) as (? & ? & _).
Qed.

End chain_facts.

(** ** Queue geometry *)

Section queue_facts.
Context {M : Type} `{GuestMemoryLaws M}.
Implicit Types (m : M) (q : Queue) (c d : DescriptorChain).

Lemma ring_in_bounds m a sz :
  ring_out_of_bounds m a sz = false <-> a + sz < 2 ^ 64 /\ gm_in_range m (a + sz) = true.
Proof.
  unfold ring_out_of_bounds. destruct (checked_add 64 a sz) as [v|] eqn:E.
  - apply checked_add_Some in E as [-> ?]. rewrite negb_false_iff. naive_solver.
  - split; [done|]. intros [Hlt _]. unfold checked_add in E. case_bool; [done|].
    zify_bool. lia.
Qed.

Lemma align_test a k :
  0 <= k -> negb (a .& (2 ^ k - 1) =? 0) = false <-> a mod 2 ^ k = 0.
Proof. intros. by rewrite negb_false_iff, Z.eqb_eq, land_ones_0. Qed.

Lemma size_test q :
  0 <= size q ->
  (max_size q <? size q) || (size q =? 0) || negb (size q .& (size q - 1) =? 0) = false <->
  size q <= max_size q /\ exists k, 0 <= k /\ size q = 2 ^ k.
Proof.
  intros Hs. rewrite !orb_false_iff, negb_false_iff, Z.eqb_eq, Z.ltb_ge, Z.eqb_neq. split.
  - intros [[? ?] Hp]. split; [done|]. apply land_pred_pow2 in Hp; [done|lia].
  - intros [? (k & Hk & Hz)]. pose proof (pow2_pos k Hk). repeat split; try lia.
    apply land_pred_pow2; [lia|eauto].
Qed.

(** [is_valid] accepts exactly the queues the virtio specification allows
    and whose rings end inside guest memory: ready, a power-of-two size within
    the device maximum, 16/2/4-byte aligned rings, and an in-range address one
    past each ring (no 64-bit overflow). *)
Theorem is_valid_spec m q :
  0 <= size q ->
  is_valid m q = true <->
  ready q = true /\ size q <= max_size q /\ (exists k, 0 <= k /\ size q = 2 ^ k) /\
  (q_desc_table q + 16 * size q < 2 ^ 64 /\ gm_in_range m (q_desc_table q + 16 * size q) = true) /\
  (avail_ring q + (6 + 2 * size q) < 2 ^ 64 /\ gm_in_range m (avail_ring q + (6 + 2 * size q)) = true) /\
  (used_ring q + (6 + 8 * size q) < 2 ^ 64 /\ gm_in_range m (used_ring q + (6 + 8 * size q)) = true) /\
  q_desc_table q mod 16 = 0 /\ avail_ring q mod 2 = 0 /\ used_ring q mod 4 = 0.
Proof.
  intros Hs. rewrite <- !ring_in_bounds, <- (align_test _ 4), <- (align_test _ 1),
    <- (align_test _ 2) by lia.
  change (2 ^ 4 - 1) with 0xf. change (2 ^ 1 - 1) with 0x1. change (2 ^ 2 - 1) with 0x3.
  unfold is_valid. destruct (ready q); simpl; [|naive_solver].
  pose proof (size_test q Hs) as Hsz. destruct (_ || negb _) eqn:E.
  - split; [done|]. intros (_ & ? & ? & _). destruct Hsz as [_ Hsz]. by destruct Hsz.
  - assert (actual_size q = size q) as -> by (unfold actual_size; lia).
    repeat (case_bool; [naive_solver|]). naive_solver.
Qed.

(** *** Popping the available ring *)

(** Geometry under which the available ring can be read: what [is_valid]
    checks, plus the ring lying in mapped memory. *)
Record avail_ok m q : Prop := {
  ao_size : 0 < size q <= max_size q;
  ao_small : size q <= 2 ^ 14;
  ao_addr : 0 <= avail_ring q /\ avail_ring q + (6 + 2 * size q) < 2 ^ 64;
  ao_align : avail_ring q mod 2 = 0;
  ao_read : is_Some (gm_read m (avail_ring q) (Z.to_nat (6 + 2 * size q)));
  ao_next : fits 16 (next_avail q);
}.

(** The [i]-th entry of the driver's ring (the ring is circular). *)
Definition avail_slot m q (i : Z) : option Z :=
  le_val <$> gm_read m (avail_ring q + (4 + 2 * (i mod size q))) 2.

Lemma avail_read_2 m q off :
  avail_ok m q -> 0 <= off -> off + 2 <= 6 + 2 * size q ->
  exists bs, gm_read m (avail_ring q + off) 2 = Some bs.
Proof.
  intros [? ? ? ? [bs Hr] _] ? ?.
  eapply (gm_read_sub _ _ _ _ (Z.to_nat off) 2) in Hr; [|lia].
  rewrite Z2Nat.id in Hr by done. eauto.
Qed.

Lemma avail_idx_total m q : avail_ok m q -> exists v, avail_idx m q = Ok v /\ fits 16 v.
Proof.
  intros Hok. unfold avail_idx.
  pose proof (ao_addr _ _ Hok) as Ha. pose proof (ao_align _ _ Hok) as Hal.
  pose proof (ao_size _ _ Hok).
  destruct (avail_read_2 m q 2 Hok) as [bs Hbs]; [lia|lia|].
  destruct (gm_load16_total _ _ _ Hbs) as [v Hv].
  { rewrite Zplus_mod, Hal. done. }
  unfold checked_add. case_bool; [|zify_bool; lia]. simpl. rewrite Hv. simpl.
  exists v. split; [done|]. by apply gm_load16_read in Hv as [_ ?].
Qed.

Lemma avail_slot_total m q i : avail_ok m q -> exists h, avail_slot m q i = Some h.
Proof.
  intros Hok. pose proof (ao_size _ _ Hok).
  pose proof (Z.mod_pos_bound i (size q) ltac:(lia)).
  destruct (avail_read_2 m q (4 + 2 * (i mod size q)) Hok) as [bs Hbs]; [lia|lia|].
  exists (le_val bs). unfold avail_slot. by rewrite Hbs.
Qed.

Lemma undo_set_next_avail q v :
  fits 16 (next_avail q) -> v = next_avail q +[16] 1 -> undo_pop (set_next_avail q v) = q.
Proof.
  intros Hf ->. unfold undo_pop. simpl. rewrite wrap_sub_l.
  replace (next_avail q + 1 - 1) with (next_avail q) by lia.
  rewrite (wrap_small 16 (next_avail q)) by done. by destruct q.
Qed.

(** The exact result of [pop] on a readable ring. *)
Lemma pop_exact m q avail head :
  avail_ok m q -> avail_idx m q = Ok avail -> avail_slot m q (next_avail q) = Some head ->
  pop m q = Ret (if avail =? next_avail q then (None, q)
                 else match checked_new m (q_desc_table q) (size q) head with
                      | Some c => (Some c, set_next_avail q (next_avail q +[16] 1))
                      | None => (None, q)
                      end).
Proof.
  intros Hok Ha Hh. pose proof (avail_idx_total _ _ Hok) as (v & Hv & Hfv).
  assert (v = avail) as -> by congruence.
  destruct Hok as [Hsz Hsm Had Hal Hrd Hnx].
  assert (actual_size q = size q) as Has by (unfold actual_size; lia).
  unfold pop, queue_len. rewrite Ha, Has. simpl.
  assert ((avail -[16] next_avail q =? 0) = (avail =? next_avail q)) as ->.
  { unfold wrap, fits in *. destruct (Z.eqb_spec avail (next_avail q)) as [->|Hne].
    - by rewrite Z.sub_diag.
    - apply Z.eqb_neq. intros Hm. apply Z.mod_divide in Hm; [|done].
      destruct Hm as [k Hk]. change (2 ^ 16) with 65536 in *. lia. }
  replace (size q =? 0) with false by lia. rewrite orb_false_r.
  case_bool; [done|]. unfold avail_slot in Hh.
  pose proof (Z.mod_pos_bound (next_avail q) (size q) ltac:(lia)).
  rewrite (wrap_small 16 (4 + _)) by (unfold fits; change (2 ^ 14) with 16384 in *;
    change (2 ^ 16) with 65536; lia).
  rewrite (wrap_small 64) by (unfold fits; lia).
  apply fmap_Some in Hh as (bs & -> & ->). simpl. by destruct (checked_new _ _ _ _).
Qed.

(** What a successful, or an empty, [pop] says, on any ring. *)
Lemma pop_result m q h q' :
  pop m q = Ret (h, q') ->
  match h with
  | Some c => exists a, avail_idx m q = Ok a /\ a -[16] next_avail q <> 0 /\
      q' = set_next_avail q (next_avail q +[16] 1)
  | None => q' = q
  end.
Proof.
  unfold pop, queue_len. destruct (avail_idx m q) as [a|] eqn:Ea; [|done]. cbn [mbind outcome_bind].
  destruct (a -[16] next_avail q =? 0) eqn:E; cbn [orb]; zify_bool; [by intros [= <- <-]|].
  destruct (actual_size q =? 0); [by intros [= <- <-]|].
  destruct (gm_read _ _ _) as [bs|]; [|done]. cbn [unwrap mbind outcome_bind].
  destruct (checked_new _ _ _ _); intros [= <- <-]; [|done]. by exists a.
Qed.

(** The number of entries the driver has published and the device not taken. *)
Definition outstanding (m : M) (q : Queue) : Z :=
  match avail_idx m q with Ok a => a -[16] next_avail q | Err _ => 0 end.

Lemma outstanding_pop m q c q' m2 q2 :
  pop m q = Ret (Some c, q') -> next_avail q2 = next_avail q' -> avail_idx m2 q2 = avail_idx m q ->
  outstanding m2 q2 = outstanding m q - 1 /\ 0 < outstanding m q.
Proof.
  intros (a & Ha & Hne & ->)%pop_result Hn Hi. unfold outstanding. rewrite Hi, Ha, Hn. cbn.
  pose proof (wrap_fits 16 (a - next_avail q) ltac:(lia)) as Hf. unfold fits in Hf.
  split; [|lia]. rewrite wrap_sub_r.
  replace (a - (next_avail q + 1)) with (a - next_avail q - 1) by lia.
  rewrite <- wrap_sub_l. apply wrap_small. unfold fits. lia.
Qed.

Lemma outstanding_nonneg m q : 0 <= outstanding m q.
Proof.
  unfold outstanding. case_match; [|lia]. apply (wrap_fits 16). lia.
Qed.

Lemma add_used_next_avail m q h n r q' m' :
  add_used m q h n = (r, q', m') -> next_avail q' = next_avail q.
Proof. unfold add_used. repeat case_match; by intros [= <- <- <-]. Qed.

(** ** Device loops

    A device serves a queue with [while let Some(head) = queue.pop(mem)].  Such
    a loop is given by its round, which tells whether it popped a chain; the
    state shows its memory and queue through [view].  [None]: out of fuel. *)

Fixpoint round_loop {S : Type} (round : S -> outcome (bool * S)) (fuel : nat) (s : S) : option (outcome S) :=
  match fuel with
  | O => None
  | S fuel =>
      match round s with
      | Ret (true, s) => round_loop round fuel s
      | Ret (false, s) => Some (Ret s)
      | Panic => Some Panic
      end
  end.

Section loop.
Context {S : Type} (round : S -> outcome (bool * S)) (view : S -> M * Queue).

(** A round that pops at most one chain and does not put it back. *)
Definition pops_one : Prop := forall s b s', round s = Ret (b, s') ->
  if b then exists c q, pop (view s).1 (view s).2 = Ret (Some c, q) /\ next_avail (view s').2 = next_avail q
  else s' = s /\ pop (view s).1 (view s).2 = Ret (None, (view s).2).

(** A driver that leaves its index alone while the device runs. *)
Definition index_kept (s : S) : Prop := forall s1 s2,
  rtc (fun a b => round a = Ret (true, b)) s s1 -> round s1 = Ret (true, s2) ->
  avail_idx (view s2).1 (view s2).2 = avail_idx (view s1).1 (view s1).2.

Lemma round_loop_drains fuel s :
  pops_one -> index_kept s -> outstanding (view s).1 (view s).2 < Z.of_nat fuel ->
  exists o, round_loop round fuel s = Some o /\
    forall s', o = Ret s' -> pop (view s').1 (view s').2 = Ret (None, (view s').2).
Proof.
  intros Hone. revert s. induction fuel as [|fuel IH]; intros s Hst Hf.
  { pose proof (outstanding_nonneg (view s).1 (view s).2). lia. }
  cbn [round_loop]. destruct (round s) as [[[] s1]|] eqn:E; [| |by eexists].
  - destruct (Hone _ _ _ E) as (c & q & Hp & Hn).
    destruct (outstanding_pop _ _ _ _ (view s1).1 (view s1).2 Hp Hn) as [Ho _].
    { by apply (Hst s s1); [apply rtc_refl|]. }
    apply IH; [|lia]. intros s2 s3 Hr. apply Hst. by eapply rtc_l.
  - destruct (Hone _ _ _ E) as [-> Hp]. eexists. split; [done|]. by intros s' [= <-].
Qed.
End loop.

(** A head outside the table is no chain. *)
Lemma checked_new_out m dt qs i : qs <= i -> checked_new m dt qs i = None.
Proof.
  intros Hi. destruct (checked_new m dt qs i) as [c|] eqn:E; [|done].
  apply checked_new_Some in E as (Hlt & _). lia.
Qed.

(** The available ring is read from its own bytes only. *)
Lemma avail_ring_frame m m' q :
  avail_ok m q ->
  (forall a n, avail_ring q <= a /\ a + Z.of_nat n <= avail_ring q + (6 + 2 * size q) ->
     gm_read m' a n = gm_read m a n) ->
  avail_ok m' q /\ avail_idx m' q = avail_idx m q /\ forall i, avail_slot m' q i = avail_slot m q i.
Proof.
  intros Hok Hfr. pose proof (ao_size _ _ Hok) as Hs. split_and!.
  - destruct Hok. split; try done. rewrite Hfr; [done|lia].
  - destruct (avail_read_2 m q 2 Hok) as [bs Hbs]; [lia..|].
    unfold avail_idx. destruct (checked_add _ _ _) as [a|] eqn:Ea; [|done].
    apply checked_add_Some in Ea as [-> _]. cbn [ok_or mbind result_bind]. f_equal.
    apply (gm_load16_ext _ _ _ bs); [done|apply Hfr; lia|].
    rewrite Zplus_mod, (ao_align _ _ Hok). done.
  - intros i. unfold avail_slot. pose proof (Z.mod_pos_bound i (size q) ltac:(lia)).
    rewrite Hfr; [done|lia].
Qed.

(** A write outside the descriptor table leaves its descriptors alone. *)
Lemma checked_new_frame m m' a bs dt qs i :
  gm_write m a bs = Some m' -> 0 <= i -> a + Zlength bs <= dt \/ dt + 16 * qs <= a ->
  checked_new m' dt qs i = checked_new m dt qs i.
Proof.
  intros Hw Hi Hd. unfold checked_new. destruct (qs <=? i) eqn:E; [done|]. zify_bool.
  rewrite (gm_write_offset _ _ _ _ _ _ Hw). destruct (gm_checked_offset m dt (i * 16)) as [h|] eqn:Eh; [|done].
  apply gm_checked_offset_spec in Eh as (-> & _). cbn [mbind option_bind].
  rewrite (gm_write_offset _ _ _ _ _ _ Hw), (gm_write_frame _ _ _ _ _ _ Hw) by lia. done.
Qed.

(** Fields of a descriptor read from memory are unsigned. *)
Lemma checked_new_fields m dt qs i c :
  checked_new m dt qs i = Some c -> fits 64 (addr c) /\ fits 32 (len c) /\ fits 16 (next c).
Proof.
  intros (_ & _ & _ & _ & _ & _ & bs & Hb & Hd & _)%checked_new_Some. apply gm_read_length in Hb as Hl.
  apply gm_read_bytes in Hb. unfold descriptor, decode_descriptor in Hd. injection Hd as -> -> _ ->.
  assert (forall off k, (off + k <= 16)%nat -> fits (8 * Z.of_nat k) (le_val (slice bs off k))) as Hf.
  { intros off k Hk. pose proof (le_val_bound (slice bs off k) (slice_Forall _ _ _ _ Hb)) as Hv.
    by rewrite length_slice in Hv by lia. }
  split_and!; [apply (Hf 0 8)%nat|apply (Hf 8 4)%nat|apply (Hf 14 2)%nat]; lia.
Qed.

(** The walk of a chain, likewise. *)
Lemma desc_iter_frame fuel m m' a bs c dt qs :
  gm_write m a bs = Some m' -> a + Zlength bs <= dt \/ dt + 16 * qs <= a ->
  desc_table c = dt -> queue_size c = qs -> 0 <= next c ->
  next_descriptor m' c = next_descriptor m c /\
  desc_iter_collect fuel m' (next_descriptor m' c) = desc_iter_collect fuel m (next_descriptor m c).
Proof.
  intros Hw Hd. revert c. induction fuel as [|fuel IH]; intros c Hdt Hqs Hn.
  - split; [|done]. unfold next_descriptor. rewrite Hdt, Hqs. by rewrite (checked_new_frame _ _ _ _ _ _ _ Hw Hn Hd).
  - assert (next_descriptor m' c = next_descriptor m c) as Heq.
    { unfold next_descriptor. rewrite Hdt, Hqs. by rewrite (checked_new_frame _ _ _ _ _ _ _ Hw Hn Hd). }
    split; [done|]. rewrite Heq. cbn [desc_iter_collect].
    destruct (next_descriptor m c) as [d|] eqn:E; [|done]. cbn [desc_iter_next]. f_equal.
    apply next_descriptor_Some in E as Hnd. destruct Hnd as (_ & _ & _ & _ & _ & Hq & Ht).
    apply IH; [congruence|congruence|]. unfold next_descriptor in E. destruct (has_next c); [|done].
    destruct (checked_new m (desc_table c) (queue_size c) (next c)) as [d'|] eqn:E'; [|done]. injection E as <-.
    apply checked_new_fields in E' as (_ & _ & Hf & _). exact Hf.
Qed.

Lemma pop_cases m q :
  avail_ok m q ->
  exists avail head, avail_idx m q = Ok avail /\ avail_slot m q (next_avail q) = Some head /\
    (avail = next_avail q -> pop m q = Ret (None, q)) /\
    (avail <> next_avail q ->
       match checked_new m (q_desc_table q) (size q) head with
       | Some c => pop m q = Ret (Some c, set_next_avail q (next_avail q +[16] 1)) /\
                   index c = head /\ undo_pop (set_next_avail q (next_avail q +[16] 1)) = q
       | None => pop m q = Ret (None, q)
       end).
Proof.
  intros Hok. destruct (avail_idx_total _ _ Hok) as (avail & Ha & _).
  destruct (avail_slot_total m q (next_avail q) Hok) as [head Hh].
  exists avail, head. rewrite (pop_exact _ _ _ _ Hok Ha Hh). split_and!; try done.
  - intros ->. by rewrite Z.eqb_refl.
  - intros Hne. apply Z.eqb_neq in Hne. rewrite Hne.
    destruct (checked_new _ _ _ _) as [c|] eqn:E; [|done].
    apply checked_new_Some in E as (_ & ? & _).
    split_and!; try done. apply undo_set_next_avail; [apply Hok|done].
Qed.

(** C33. On a readable ring [pop] never panics; it returns nothing exactly when
    the driver's index equals [next_avail] or the published head is not a
    valid descriptor, otherwise the chain headed by the ring entry at
    [next_avail], advancing [next_avail] by one (modulo 2^16) and nothing
    else; [undo_pop] undoes it. *)
Theorem pop_correct m q :
  avail_ok m q ->
  exists avail head, avail_idx m q = Ok avail /\ avail_slot m q (next_avail q) = Some head /\
    (avail = next_avail q -> pop m q = Ret (None, q)) /\
    (avail <> next_avail q ->
       match checked_new m (q_desc_table q) (size q) head with
       | Some c => pop m q = Ret (Some c, set_next_avail q (next_avail q +[16] 1)) /\
                   index c = head /\ undo_pop (set_next_avail q (next_avail q +[16] 1)) = q
       | None => pop m q = Ret (None, q)
       end).
Proof. apply pop_cases. Qed.

(** *** Draining: the device loop [while let Some(head) = queue.pop(mem)] *)

Fixpoint drain (fuel : nat) m q : outcome (list DescriptorChain * Queue) :=
  match fuel with
  | O => Ret ([], q)
  | S fuel =>
      '(oc, q') ← pop m q;
      match oc with
      | None => Ret ([], q')
      | Some c => '(cs, q'') ← drain fuel m q'; Ret (c :: cs, q'')
      end
  end.

Lemma avail_ok_next m q v : avail_ok m q -> fits 16 v -> avail_ok m (set_next_avail q v).
Proof. intros [] ?; by split. Qed.

Lemma drain_S fuel m q avail head c :
  avail_ok m q -> avail_idx m q = Ok avail -> avail <> next_avail q ->
  avail_slot m q (next_avail q) = Some head ->
  checked_new m (q_desc_table q) (size q) head = Some c ->
  drain (S fuel) m q =
    ('(cs, q'') ← drain fuel m (set_next_avail q (next_avail q +[16] 1)); Ret (c :: cs, q'')).
Proof.
  intros Hok Ha Hne Hh Hc. cbn [drain]. rewrite (pop_exact _ _ _ _ Hok Ha Hh), Hc.
  apply Z.eqb_neq in Hne. by rewrite Hne.
Qed.

(** C35. The drain loop terminates and loses nothing: if the [n] entries
    between [next_avail] and the driver's index (16-bit distance) all head
    valid chains, then with any fuel above [n] the loop returns exactly [n]
    chains, in ring order, and leaves [next_avail] equal to the driver's
    index. *)
Theorem drain_complete (n : nat) (fuel : nat) m q avail :
  avail_ok m q -> avail_idx m q = Ok avail ->
  Z.of_nat n = avail -[16] next_avail q -> (n < fuel)%nat ->
  (forall i, (i < n)%nat -> exists h c,
     avail_slot m q (next_avail q +[16] Z.of_nat i) = Some h /\
     checked_new m (q_desc_table q) (size q) h = Some c) ->
  exists cs, drain fuel m q = Ret (cs, set_next_avail q avail) /\ length cs = n /\
    forall i c, cs !! i = Some c ->
      avail_slot m q (next_avail q +[16] Z.of_nat i) = Some (index c).
Proof.
  revert fuel q; induction n as [|n IH]; intros fuel q Hok Ha Hn Hf Hall.
  all: destruct (avail_idx_total _ _ Hok) as (v & Hv & Hfv).
  all: assert (v = avail) as -> by congruence.
  all: pose proof (ao_next _ _ Hok) as Hfn; destruct fuel as [|fuel]; [lia|].
  - assert (avail = next_avail q) as ->.
    { unfold wrap, fits in *. symmetry in Hn. apply Z.mod_divide in Hn; [|done].
      destruct Hn as [k Hk]. change (2 ^ 16) with 65536 in *. lia. }
    destruct (avail_slot_total m q (next_avail q) Hok) as [head Hh].
    exists []. simpl. rewrite (pop_exact _ _ _ _ Hok Ha Hh), Z.eqb_refl. simpl.
    split_and!; try done. by destruct q.
  - destruct (Hall O ltac:(lia)) as (h & c & Hh & Hc).
    rewrite Z.add_0_r, wrap_small in Hh by done.
    assert (avail <> next_avail q) as Hne.
    { intros ->. rewrite Z.sub_diag in Hn. by change (wrap 16 0) with 0 in Hn. }
    destruct (IH fuel (set_next_avail q (next_avail q +[16] 1))) as (cs & Hd & Hl & Hcs).
    + apply avail_ok_next; [done|]. apply wrap_fits; lia.
    + done.
    + simpl. rewrite wrap_sub_r. replace (avail - (next_avail q + 1)) with
        (avail - next_avail q - 1) by lia. rewrite <- wrap_sub_l, <- Hn.
      rewrite wrap_small; [lia|].
      pose proof (wrap_fits 16 (avail - next_avail q) ltac:(lia)). unfold fits in *. lia.
    + lia.
    + intros i Hi. simpl. destruct (Hall (S i) ltac:(lia)) as (h' & c' & Hh' & Hc').
      exists h', c'. split; [|done]. rewrite <- Hh'. unfold avail_slot. simpl.
      rewrite wrap_add_l.
      by replace (next_avail q + 1 + Z.of_nat i) with (next_avail q + Z.of_nat (S i)) by lia.
    + rewrite (drain_S _ _ _ _ _ _ Hok Ha Hne Hh Hc), Hd. simpl.
      exists (c :: cs). split_and!; [done|simpl; lia|]. intros [|i] c' Hi.
      * simplify_eq/=. rewrite Z.add_0_r, wrap_small by done.
        by apply checked_new_Some in Hc as (_ & -> & _).
      * apply Hcs in Hi. unfold avail_slot in *. simpl in Hi. rewrite wrap_add_l in Hi.
        by replace (next_avail q + 1 + Z.of_nat i) with (next_avail q + Z.of_nat (S i)) in Hi by lia.
Qed.

(** *** The used ring as an append-only log *)

Record used_ok m q : Prop := {
  uo_size : 0 < size q /\ (size q | 2 ^ 16);
  uo_addr : 0 <= used_ring q /\ used_ring q + (6 + 8 * size q) < 2 ^ 64;
  uo_align : used_ring q mod 4 = 0;
  uo_read : is_Some (gm_read m (used_ring q) (Z.to_nat (6 + 8 * size q)));
  uo_next : fits 16 (next_used q);
}.

(** Element at circular position [i], decoded as [(id, len)]. *)
Definition used_entry m q (i : Z) : option (Z * Z) :=
  bs ← gm_read m (used_ring q + (4 + (i mod size q) * 8)) 8;
  Some (le_val (slice bs 0 4), le_val (slice bs 4 4)).

(** Abstraction relation: [l] lists the most recently published elements. *)
Definition used_log m q (l : list (Z * Z)) : Prop :=
  forall k e, l !! k = Some e ->
    used_entry m q (next_used q - Zlength l + Z.of_nat k) = Some e.

Lemma used_read_sub m q off k :
  used_ok m q -> 0 <= off -> off + Z.of_nat k <= 6 + 8 * size q ->
  exists bs, gm_read m (used_ring q + off) k = Some bs.
Proof.
  intros [? ? ? [bs Hr] _] ? ?.
  eapply (gm_read_sub _ _ _ _ (Z.to_nat off) k) in Hr; [|lia].
  rewrite Z2Nat.id in Hr by done. eauto.
Qed.

Lemma used_elem_bytes_ok id l : bytes_ok (used_elem_bytes id l).
Proof. apply Forall_app; split; apply le_bytes_ok. Qed.

Lemma used_elem_slices id l :
  fits 32 id -> fits 32 l ->
  le_val (slice (used_elem_bytes id l) 0 4) = id /\
  le_val (slice (used_elem_bytes id l) 4 4) = l.
Proof.
  intros Hi Hl. unfold used_elem_bytes. rewrite slice_app_l, slice_app_r by
    (rewrite length_le_bytes; lia). rewrite length_le_bytes, slice_all by
    (by rewrite length_le_bytes).
  rewrite !le_val_le_bytes. split; by apply wrap_small.
Qed.

Lemma wrap16_mod_size q z :
  0 < size q -> (size q | 2 ^ 16) -> wrap 16 z mod size q = z mod size q.
Proof. intros. symmetry. by apply Zmod_div_mod. Qed.

Lemma used_ring_idx_even m q : used_ok m q -> (used_ring q + 2) mod 2 = 0.
Proof.
  intros Hok. pose proof (uo_align _ _ Hok) as Hal. apply Z.mod_divide in Hal; [|done].
  destruct Hal as [k ->]. replace (k * 4 + 2) with (0 + (2 * k + 1) * 2) by lia.
  by rewrite Z_mod_plus_full.
Qed.

Lemma length_used_elem id l : length (used_elem_bytes id l) = 8%nat.
Proof. unfold used_elem_bytes. by rewrite length_app, !length_le_bytes. Qed.

(** Two positions less than a ring apart use different slots. *)
Lemma used_slots_distinct (n i j : Z) : 0 < j - i < n -> i mod n <> j mod n.
Proof.
  intros Hd Heq. assert ((j - i) mod n = 0) as Hz
    by (rewrite Zminus_mod, Heq, Z.sub_diag; apply Zmod_0_l).
  rewrite Z.mod_small in Hz; lia.
Qed.

(** The memory effect of one successful [add_used]. *)
Lemma add_used_effect m q head ln :
  used_ok m q -> 0 <= head < size q -> fits 32 ln ->
  exists m1 m2,
    gm_write m (used_ring q + (4 + (next_used q mod size q) * 8)) (used_elem_bytes head ln) = Some m1 /\
    gm_store16 m1 (used_ring q + 2) (next_used q +[16] 1) = Some m2 /\
    add_used m q head ln =
      (Ok tt, set_used_state q (next_used q +[16] 1) (num_added q +[16] 1), m2).
Proof.
  intros Hok Hh Hln. pose proof (uo_size _ _ Hok) as [Hs _]. pose proof (uo_addr _ _ Hok) as Ha.
  pose proof (Z.mod_pos_bound (next_used q) (size q) Hs).
  destruct (used_read_sub m q (4 + (next_used q mod size q) * 8) 8 Hok) as [old Hold]; [lia|lia|].
  destruct (gm_write_total m (used_ring q + (4 + (next_used q mod size q) * 8))
    (used_elem_bytes head ln) old) as [m1 Hm1].
  { by rewrite length_used_elem. }
  { apply used_elem_bytes_ok. }
  destruct (used_read_sub m q 2 2 Hok) as [old2 Hold2]; [lia|lia|].
  assert (is_Some (gm_read m1 (used_ring q + 2) 2)) as [old3 Hold3].
  { eapply gm_write_domain; eauto. }
  destruct (gm_store16_total m1 (used_ring q + 2) (next_used q +[16] 1) old3) as [m2 Hm2];
    [done|by eapply used_ring_idx_even|].
  exists m1, m2. split_and!; try done. unfold add_used.
  replace (size q <=? head) with false by lia.
  unfold VIRTQ_USED_RING_HEADER_SIZE, VIRTQ_USED_ELEMENT_SIZE, checked_add.
  case_bool; [|zify_bool; lia]. rewrite Hm1. case_bool; [|zify_bool; lia]. simpl. by rewrite Hm2.
Qed.

Section one_add.
Context m q m1 m2 head ln
  (Hok : used_ok m q) (Hh : 0 <= head < size q) (Hsz : size q <= 2 ^ 16) (Hln : fits 32 ln)
  (Hm1 : gm_write m (used_ring q + (4 + (next_used q mod size q) * 8))
           (used_elem_bytes head ln) = Some m1)
  (Hm2 : gm_store16 m1 (used_ring q + 2) (next_used q +[16] 1) = Some m2).

Let q' := set_used_state q (next_used q +[16] 1) (num_added q +[16] 1).

Lemma add_used_ok' : used_ok m2 q'.
Proof.
  destruct Hok. split; simpl; try done; [|apply wrap_fits; lia].
  eapply gm_write_domain; [by eapply gm_store16_write|]. eapply gm_write_domain; eauto.
Qed.

Lemma add_used_idx : gm_load16 m2 (used_ring q + 2) = Some (next_used q').
Proof.
  pose proof (gm_store16_write _ _ _ _ Hm2) as Hw.
  eapply gm_write_read in Hw; [|apply le_bytes_ok]. rewrite length_le_bytes in Hw.
  destruct (gm_load16_total _ _ _ Hw) as [v Hv]; [by eapply used_ring_idx_even|].
  rewrite Hv. f_equal. eapply gm_store16_load; eauto. apply wrap_fits; lia.
Qed.

Lemma add_used_frame a n :
  a + Z.of_nat n <= used_ring q \/ used_ring q + (6 + 8 * size q) <= a ->
  gm_read m2 a n = gm_read m a n.
Proof.
  intros Hd. pose proof (uo_size _ _ Hok) as [Hs _].
  pose proof (Z.mod_pos_bound (next_used q) (size q) Hs).
  rewrite (gm_store16_frame _ _ _ _ _ _ Hm2) by lia.
  apply (gm_write_frame _ _ _ _ _ _ Hm1). rewrite length_used_elem. lia.
Qed.

(** Entry [i] after the update: the new element at [next_used], the old
    entries elsewhere. *)
Lemma add_used_entry i :
  used_entry m2 q' i =
    if decide (i mod size q = next_used q mod size q) then Some (head, ln)
    else used_entry m q i.
Proof.
  pose proof (uo_size _ _ Hok) as [Hs _].
  pose proof (Z.mod_pos_bound i (size q) Hs).
  unfold used_entry. simpl. rewrite (gm_store16_frame _ _ _ _ _ _ Hm2) by lia.
  case_decide as Hi.
  - rewrite Hi. pose proof (gm_write_read _ _ _ _ Hm1 (used_elem_bytes_ok head ln)) as Hr.
    rewrite length_used_elem in Hr. rewrite Hr. cbn [mbind option_bind].
    assert (fits 32 head) as Hf by (unfold fits in *; lia).
    destruct (used_elem_slices head ln Hf Hln) as [E1 E2]. by rewrite E1, E2.
  - rewrite (gm_write_frame _ _ _ _ _ _ Hm1); [done|].
    rewrite length_used_elem. lia.
Qed.

Lemma add_used_log l :
  used_log m q l -> Zlength l < size q -> used_log m2 q' (l ++ [(head, ln)]).
Proof.
  intros Hlog Hlen k e Hk. pose proof (uo_size _ _ Hok) as [Hs Hdiv].
  rewrite add_used_entry, length_app. simpl.
  assert ((next_used q +[16] 1 - Z.of_nat (length l + 1) + Z.of_nat k) mod size q =
          (next_used q - Zlength l + Z.of_nat k) mod size q) as Hp.
  { rewrite Zplus_mod, Zminus_mod, wrap16_mod_size by done.
    rewrite <- Zminus_mod, <- Zplus_mod. f_equal. lia. }
  unfold used_entry. rewrite Hp. fold (used_entry m q (next_used q - Zlength l + Z.of_nat k)).
  apply lookup_app_Some in Hk as [Hk|[Hk1 Hk2]].
  - pose proof (lookup_lt_Some _ _ _ Hk). rewrite decide_False; [by apply Hlog|].
    apply used_slots_distinct. lia.
  - apply list_lookup_singleton_Some in Hk2 as [Hk2 <-].
    rewrite decide_True; [done|]. f_equal. lia.
Qed.
End one_add.

(** The used ring is read from its own bytes only. *)
Lemma used_ring_frame m m' q l :
  used_ok m q -> used_log m q l ->
  (forall a n, used_ring q <= a /\ a + Z.of_nat n <= used_ring q + (6 + 8 * size q) -> gm_read m' a n = gm_read m a n) ->
  used_ok m' q /\ used_log m' q l.
Proof.
  intros Hok Hlog Hfr. pose proof (uo_size _ _ Hok) as [Hs _]. split.
  - destruct Hok. split; try done. rewrite Hfr; [done|lia].
  - intros k e Hk. rewrite <- (Hlog k e Hk). unfold used_entry.
    pose proof (Z.mod_pos_bound (next_used q - Zlength l + Z.of_nat k) (size q) Hs). by rewrite Hfr by lia.
Qed.

Lemma next_descriptor_nonneg m c c' : next_descriptor m c = Some c' -> 0 <= next c' /\ 0 <= len c'.
Proof.
  unfold next_descriptor. destruct (has_next c); [|done]. destruct (checked_new _ _ _ _) as [d|] eqn:E; [|done].
  intros [= <-]. apply checked_new_fields in E as (? & ? & ? & _). cbn. unfold fits in *. lia.
Qed.

(** ** Published chains and their buffers *)

Definition total_len (l : list DescriptorChain) : Z := foldr (fun d n => len d + n) 0 l.

Lemma total_len_nonneg l : Forall (fun d => 0 <= len d) l -> 0 <= total_len l.
Proof. induction 1; cbn; [done|]. fold (total_len l). lia. Qed.

(** Buffers of different descriptors do not overlap. *)
Definition buffer_apart (d e : DescriptorChain) : Prop := addr d + len d <= addr e \/ addr e + len e <= addr d.

Fixpoint buffers_apart (l : list DescriptorChain) : Prop :=
  match l with [] => True | d :: l => Forall (buffer_apart d) l /\ buffers_apart l end.

(** A mapped buffer away from the descriptor table. *)
Record buffer_ok (m : M) (dt qs : Z) (d : DescriptorChain) : Prop := {
  bo_mapped : is_Some (gm_read m (addr d) (Z.to_nat (len d)));
  bo_len : 0 <= len d;
  bo_table : addr d + len d <= dt \/ dt + 16 * qs <= addr d;
}.

(** The next chain: the driver has published [hd], the head of [c]. *)
Record pending (m : M) (q : Queue) (hd : Z) (c : DescriptorChain) : Prop := {
  pe_avail : avail_ok m q;
  pe_used : used_ok m q;
  pe_index : exists avail, avail_idx m q = Ok avail /\ avail <> next_avail q;
  pe_slot : avail_slot m q (next_avail q) = Some hd;
  pe_chain : checked_new m (q_desc_table q) (size q) hd = Some c;
  pe_head : 0 <= hd;
}.

Lemma pending_pop m q hd c :
  pending m q hd c -> pop m q = Ret (Some c, set_next_avail q (next_avail q +[16] 1)).
Proof.
  intros [Ha _ (avail & Hi & Hne) Hs Hc _]. rewrite (pop_exact _ _ avail hd Ha Hi Hs), Hc.
  by apply Z.eqb_neq in Hne as ->.
Qed.

(** Completing the chain just taken, after writes that left the used ring
    alone. *)
Lemma pending_complete m q hd c lg m1 ln :
  pending m q hd c -> used_log m q lg -> Zlength lg < size q -> fits 32 ln ->
  (forall a k, used_ring q <= a /\ a + Z.of_nat k <= used_ring q + (6 + 8 * size q) -> gm_read m1 a k = gm_read m a k) ->
  exists q2 m2, add_used m1 (set_next_avail q (next_avail q +[16] 1)) (index c) ln = (Ok tt, q2, m2) /\
    used_log m2 q2 (lg ++ [(hd, ln)]) /\ next_avail q2 = next_avail q +[16] 1 /\ num_added q2 = num_added q +[16] 1 /\
    (forall a k, a + Z.of_nat k <= used_ring q \/ used_ring q + (6 + 8 * size q) <= a ->
       gm_read m2 a k = gm_read m1 a k).
Proof.
  intros [Ha Hu _ _ Hc Hh] Hlog Hl Hln Hfr. apply checked_new_Some in Hc as (Hlt & Hi & _).
  set (q1 := set_next_avail _ _).
  destruct (used_ring_frame m m1 q1 lg) as [Hu1 Hlog1]; [destruct Hu; by split|done|exact Hfr|].
  destruct (add_used_effect m1 q1 (index c) ln Hu1) as (m2 & m3 & H2 & H3 & Hadd); [cbn; lia|done|].
  rewrite Hadd. do 2 eexists. split; [done|]. split_and!; try done.
  - rewrite <- Hi. eapply (add_used_log m1 q1); try done; [cbn; lia|apply (ao_small _ _) in Ha; cbn; lia].
  - intros a k Hak. by apply (add_used_frame m1 q1 m2 m3 (index c) ln Hu1 H2 H3).
Qed.

(** C34. Refinement of the used ring to an append-only log: on a mapped ring
    [add_used] succeeds for every head inside the queue; it appends
    [(head, len)] to the log of published elements (up to [size] of them),
    publishes the new index at [used_ring + 2], keeps the ring well formed
    and touches no byte of guest memory outside the ring. *)
Theorem add_used_refines_log m q head ln l :
  used_ok m q -> 0 <= head < size q -> size q <= 2 ^ 16 -> fits 32 ln ->
  used_log m q l -> Zlength l < size q ->
  exists m' q', add_used m q head ln = (Ok tt, q', m') /\
    used_log m' q' (l ++ [(head, ln)]) /\ used_ok m' q' /\
    next_used q' = next_used q +[16] 1 /\ num_added q' = num_added q +[16] 1 /\
    gm_load16 m' (used_ring q + 2) = Some (next_used q') /\
    (forall a n, a + Z.of_nat n <= used_ring q \/ used_ring q + (6 + 8 * size q) <= a ->
       gm_read m' a n = gm_read m a n).
Proof.
  intros Hok Hh Hsz Hln Hlog Hlen.
  destruct (add_used_effect m q head ln Hok Hh Hln) as (m1 & m2 & Hm1 & Hm2 & Hadd).
  eexists m2, _. split; [done|]. split_and!; try done.
  - by eapply add_used_log.
  - by eapply add_used_ok'.
  - by eapply add_used_idx.
  - intros. by eapply add_used_frame.
Qed.

(** *** Notifications *)

(** Circular-window test: [ev] is one of the [n] indices published since
    [u - n]. *)
Lemma event_window u ev n :
  fits 16 u -> fits 16 ev -> fits 16 n ->
  ((u -[16] ev) -[16] 1 <? u -[16] (u -[16] n)) = true <->
  exists k, 0 <= k < n /\ ev = (u - n + k) mod 2 ^ 16.
Proof.
  intros Hu He Hn. rewrite Z.ltb_lt, wrap_sub_r, wrap_sub_l.
  replace (u - (u - n)) with n by lia. rewrite (wrap_small 16 n) by done.
  unfold wrap, fits in *. change (2 ^ 16) with 65536 in *. split.
  - intros Hlt. exists (n - 1 - (u - ev - 1) mod 65536).
    pose proof (Z.mod_pos_bound (u - ev - 1) 65536 ltac:(lia)). split; [lia|].
    replace (u - n + (n - 1 - (u - ev - 1) mod 65536))
      with (u - 1 - (u - ev - 1) mod 65536) by lia.
    rewrite Zminus_mod_idemp_r. replace (u - 1 - (u - ev - 1)) with ev by lia.
    symmetry. apply Z.mod_small. lia.
  - intros (k & Hk & ->). rewrite <- Zminus_mod_idemp_l, Zminus_mod_idemp_r, Zminus_mod_idemp_l.
    replace (u - (u - n + k) - 1) with (n - 1 - k) by lia.
    rewrite Z.mod_small; lia.
Qed.

(** Notification suppression with EVENT_IDX: [needs_notification] asks for
    an interrupt exactly when the driver's [used_event] is one of the indices
    published since the previous call (with 16-bit wrap-around), and resets
    the counter of published elements; without EVENT_IDX it always does. *)
Theorem needs_notification_spec m q ev :
  fits 16 (next_used q) -> fits 16 (num_added q) ->
  (event_idx_enabled q = false -> needs_notification m q = (Ok true, q)) /\
  (event_idx_enabled q = true -> used_event m q = Ok ev ->
   exists b, needs_notification m q = (Ok b, set_used_state q (next_used q) 0) /\
     (b = true <-> exists k, 0 <= k < num_added q /\
        ev = (next_used q - num_added q + k) mod 2 ^ 16)).
Proof.
  intros Hu Hn. split; intros He; unfold needs_notification; rewrite He; [done|].
  intros Hev. rewrite Hev. eexists; split; [done|]. apply event_window; try done.
  unfold used_event in Hev. destruct (checked_add _ _ _); [|done]. simpl in Hev.
  destruct (gm_load16 m _) as [v|] eqn:E; [|done]. simpl in Hev. injection Hev as <-.
  by apply gm_load16_read in E as [_ ?].
Qed.

Lemma used_event_total m q : avail_ok m q -> exists ev, used_event m q = Ok ev.
Proof.
  intros Hok. pose proof (ao_size _ _ Hok). pose proof (ao_addr _ _ Hok).
  destruct (avail_read_2 m q (4 + size q * 2) Hok) as [bs Hbs]; [lia..|].
  destruct (gm_load16_total _ _ _ Hbs) as [ev Hev].
  { rewrite Zplus_mod, (ao_align _ _ Hok). replace (4 + size q * 2) with ((2 + size q) * 2) by lia.
    by rewrite Z.mod_mul. }
  exists ev. unfold used_event, VIRTQ_AVAIL_RING_HEADER_SIZE, VIRTQ_AVAIL_ELEMENT_SIZE, checked_add.
  destruct (_ <? _) eqn:E; [|zify_bool; lia]. cbn [ok_or mbind result_bind]. by rewrite Hev.
Qed.

(** Re-enabling notifications: the field the driver consults
    ([avail_event], or the used-ring flags) is updated in memory, and the
    result tells whether the driver published entries past [next_avail] in
    the memory the device then sees, so none is missed. *)
Theorem enable_notification_spec m q b m' :
  enable_notification m q = Ok (b, m') -> fits 16 (next_avail q) ->
  (event_idx_enabled q = true ->
     gm_read m' (used_ring q + (4 + 8 * size q)) 2 = Some (le_bytes 2 (next_avail q))) /\
  (event_idx_enabled q = false -> gm_read m' (used_ring q) 2 = Some (le_bytes 2 0)) /\
  exists idx, avail_idx m' q = Ok idx /\ (b = true <-> idx <> next_avail q).
Proof.
  unfold enable_notification, set_notification, set_avail_event, set_used_flags.
  unfold VIRTQ_USED_RING_HEADER_SIZE, VIRTQ_USED_ELEMENT_SIZE.
  intros Hen Hf.
  assert (forall a v m1, gm_store16 m a v = Some m1 -> gm_read m1 a 2 = Some (le_bytes 2 v)) as Hst.
  { intros a v m1 Hs. apply gm_store16_write in Hs.
    eapply gm_write_read in Hs; [|apply le_bytes_ok]. by rewrite length_le_bytes in Hs. }
  destruct (event_idx_enabled q).
  - destruct (checked_add _ _ _) as [a|] eqn:Ea; [|done]. apply checked_add_Some in Ea as [-> _].
    simpl in Hen. destruct (gm_store16 m _ _) as [m1|] eqn:Es; [|done]. simpl in Hen.
    destruct (avail_idx m1 q) as [idx|] eqn:Ei; [|done]. simplify_eq/=.
    split_and!; [eauto|done|]. exists idx. by rewrite negb_true_iff, Z.eqb_neq.
  - destruct (gm_store16 m _ _) as [m1|] eqn:Es; [|done]. simpl in Hen.
    destruct (avail_idx m1 q) as [idx|] eqn:Ei; [|done]. simplify_eq/=.
    split_and!; [done|eauto|]. exists idx. by rewrite negb_true_iff, Z.eqb_neq.
Qed.

(** Setting the notification fields of a mapped used ring succeeds and writes
    only there. *)
Lemma set_notification_total m q enable :
  used_ok m q ->
  exists m', set_notification m q enable = Ok m' /\ used_ok m' q /\
    (forall a n, a + Z.of_nat n <= used_ring q \/ used_ring q + (6 + 8 * size q) <= a ->
       gm_read m' a n = gm_read m a n).
Proof.
  intros Hok. pose proof (uo_size _ _ Hok) as [Hs _]. pose proof (uo_addr _ _ Hok) as Ha.
  assert (forall off v, 0 <= off -> off mod 2 = 0 -> off + 2 <= 6 + 8 * size q ->
    exists m', gm_store16 m (used_ring q + off) v = Some m' /\ used_ok m' q /\
      (forall a n, a + Z.of_nat n <= used_ring q \/ used_ring q + (6 + 8 * size q) <= a ->
         gm_read m' a n = gm_read m a n)) as Hst.
  { intros off v Hoff0 Hoff2 Hle. destruct (used_read_sub m q off 2 Hok) as [old Hold]; [lia..|].
    destruct (gm_store16_total m (used_ring q + off) v old Hold) as [m' Hm'].
    { rewrite Zplus_mod, Hoff2. pose proof (uo_align _ _ Hok) as Hal.
      apply Z.mod_divide in Hal as [k ->]; [|done]. replace (k * 4) with (2 * k * 2) by lia.
      by rewrite Z.mod_mul. }
    exists m'. split_and!; [done| |].
    - destruct Hok. split; try done. eapply gm_write_domain; [by eapply gm_store16_write|done].
    - intros a n Hd. apply (gm_store16_frame _ _ _ _ _ _ Hm'). lia. }
  unfold set_notification, set_avail_event, set_used_flags, VIRTQ_USED_RING_HEADER_SIZE, VIRTQ_USED_ELEMENT_SIZE.
  destruct enable, (event_idx_enabled q); cbn [negb].
  - destruct (Hst (4 + 8 * size q) (next_avail q)) as (m' & Hw & ?); [lia| |lia|].
    { replace (4 + 8 * size q) with ((2 + 4 * size q) * 2) by lia. by rewrite Z.mod_mul. }
    exists m'. split; [|done]. unfold checked_add. destruct (_ <? _) eqn:E; [|zify_bool; lia].
    cbn [ok_or mbind result_bind]. by rewrite Hw.
  - destruct (Hst 0 0) as (m' & Hw & ?); [lia|done|lia|]. rewrite Z.add_0_r in Hw. exists m'. by rewrite Hw.
  - by exists m.
  - destruct (Hst 0 VRING_USED_F_NO_NOTIFY) as (m' & Hw & ?); [lia|done|lia|]. rewrite Z.add_0_r in Hw.
    exists m'. by rewrite Hw.
Qed.

End queue_facts.

(** ** Witnesses: a four-entry queue in a flat memory

    Descriptor table at 0 (two descriptors 0 and 1), available ring at 64 with
    entries [1; 0] and index 2, used ring at 80. *)
Definition demo_mem : FlatMem := mkFlat 0
  (le_bytes 8 0x1000 ++ le_bytes 4 8 ++ le_bytes 2 0 ++ le_bytes 2 0 ++
   le_bytes 8 0x2000 ++ le_bytes 4 16 ++ le_bytes 2 2 ++ le_bytes 2 0 ++
   replicate 32 0 ++
   (le_bytes 2 0 ++ le_bytes 2 2 ++ le_bytes 2 1 ++ le_bytes 2 0 ++ replicate 4 0 ++ le_bytes 2 0) ++
   replicate 82 0).

Definition demo_queue : Queue := {|
  max_size := 4; size := 4; ready := true; q_desc_table := 0; avail_ring := 64;
  used_ring := 80; next_avail := 0; next_used := 0; event_idx_enabled := true;
  num_added := 0 |}.

Lemma demo_avail_ok : avail_ok demo_mem demo_queue.
Proof.
  split; try (simpl; lia); try done; try (split; vm_compute; congruence).
Qed.

Lemma demo_used_ok : used_ok demo_mem demo_queue.
Proof.
  split; try (simpl; lia); try done; try (split; vm_compute; congruence).
  split; [simpl; lia|]. by exists 16384.
Qed.

Lemma is_valid_spec_witness : is_valid demo_mem demo_queue = true /\
  exists k, 0 <= k /\ size demo_queue = 2 ^ k.
Proof.
  split; [vm_compute; reflexivity|].
  apply (is_valid_spec demo_mem demo_queue); [vm_compute; congruence|vm_compute; reflexivity].
Defined.

Lemma pop_correct_witness : exists avail head,
  avail_idx demo_mem demo_queue = Ok avail /\
  avail_slot demo_mem demo_queue 0 = Some head /\ avail = 2 /\ head = 1.
Proof.
  destruct (pop_correct demo_mem demo_queue demo_avail_ok) as (avail & head & Ha & Hh & _).
  exists avail, head. split; [exact Ha|]. split; [exact Hh|].
  vm_compute in Ha, Hh. split; congruence.
Defined.

Lemma drain_complete_witness : exists cs,
  drain 10 demo_mem demo_queue = Ret (cs, set_next_avail demo_queue 2) /\ length cs = 2%nat /\
  map index cs = [1; 0].
Proof.
  destruct (drain_complete 2 10 demo_mem demo_queue 2 demo_avail_ok) as (cs & Hd & Hl & _).
  - vm_compute. reflexivity.
  - vm_compute. reflexivity.
  - lia.
  - intros [|[|i]] Hi; [| |lia];
      (eexists _, _; split; [vm_compute; reflexivity|vm_compute; reflexivity]).
  - exists cs. split; [exact Hd|]. split; [exact Hl|].
    vm_compute in Hd. injection Hd as <-. reflexivity.
Defined.

Lemma add_used_refines_log_witness : exists m' q',
  add_used demo_mem demo_queue 1 16 = (Ok tt, q', m') /\ used_log m' q' [(1, 16)] /\
  next_used q' = 1.
Proof.
  destruct (add_used_refines_log demo_mem demo_queue 1 16 [] demo_used_ok) as
    (m' & q' & Ha & Hl & _ & Hn & _).
  - simpl; lia.
  - simpl; lia.
  - split; vm_compute; congruence.
  - intros k e Hk. discriminate Hk.
  - simpl; lia.
  - exists m', q'. split; [exact Ha|]. split; [exact Hl|exact Hn].
Defined.

Lemma needs_notification_spec_witness :
  (exists b, needs_notification demo_mem (set_used_state demo_queue 1 1) =
             (Ok b, set_used_state demo_queue 1 0) /\ b = true) /\
  fst (needs_notification demo_mem (set_used_state demo_queue 3 1)) = Ok false.
Proof.
  split; [|vm_compute; reflexivity].
  destruct (needs_notification_spec demo_mem (set_used_state demo_queue 1 1) 0) as [_ Hn].
  - split; vm_compute; congruence.
  - split; vm_compute; congruence.
  - destruct (Hn eq_refl ltac:(vm_compute; reflexivity)) as (b & Hb & Hiff).
    exists b. split; [exact Hb|]. apply Hiff. exists 0. split; [simpl; lia|reflexivity].
Defined.

Lemma enable_notification_spec_witness : exists m',
  enable_notification demo_mem demo_queue = Ok (true, m') /\
  gm_read m' (80 + (4 + 8 * 4)) 2 = Some (le_bytes 2 0).
Proof.
  eexists. split; [vm_compute; reflexivity|].
  match goal with |- gm_read ?m' _ _ = _ =>
    destruct (enable_notification_spec demo_mem demo_queue true m') as [Hr _] end.
  - vm_compute. reflexivity.
  - split; vm_compute; congruence.
  - apply Hr. reflexivity.
Defined.


(** A cyclic two-entry table: descriptor 0 links to 1 and back. *)
Definition cyclic_mem : FlatMem := mkFlat 0
  (le_bytes 8 100 ++ le_bytes 4 8 ++ le_bytes 2 1 ++ le_bytes 2 1 ++
   le_bytes 8 200 ++ le_bytes 4 8 ++ le_bytes 2 3 ++ le_bytes 2 0 ++ replicate 64 0).

Lemma descriptor_chain_terminates_witness :
  exists c, checked_new cyclic_mem 0 4 0 = Some c /\
    map index (into_iter cyclic_mem c) = [0; 1; 0; 1] /\
    desc_iter_collect 1000 cyclic_mem (Some c) = into_iter cyclic_mem c.
Proof.
  eexists. split; [vm_compute; reflexivity|]. split; [vm_compute; reflexivity|].
  match goal with |- desc_iter_collect _ _ (Some ?c) = _ =>
    apply (descriptor_chain_terminates cyclic_mem 0 4 0 c 1000) end;
    [vm_compute; reflexivity|lia|lia].
Defined.

End VirtQueue.
