(* ===== verification/Bus.v ===== *)
(** * The device bus ([devices/src/bus.rs])

    [Bus] routes guest accesses to devices.  The [BTreeMap<BusRange, _>] is
    ordered by range start only ([BusRange]'s [Ord] ignores the length) and is
    a list sorted by start address; devices are shared ([Arc<Mutex<_>>]), so
    the map holds handles into a store of device states. *)

From S2P Require Import Prelude.


Module Bus.

Inductive Error := Overlap.

(** [BusRange(start, len)] *)
Record BusRange := mkRange { r_start : Z; r_len : Z }.

Abbreviation Handle := nat (only parsing).

Definition Bus : Type := list (BusRange * Handle).

Definition new : Bus := [].

(** [BTreeMap::insert]: ordered insertion; an equal key keeps its old range
    and hands back the old value. *)
Fixpoint btree_insert (k : BusRange) (v : Handle) (l : Bus) : option Handle * Bus :=
  match l with
  | [] => (None, [(k, v)])
  | (k', v') :: l' =>
      if r_start k <? r_start k' then (None, (k, v) :: l)
      else if r_start k =? r_start k' then (Some v', (k', v) :: l')
      else let '(o, r) := btree_insert k v l' in (o, (k', v') :: r)
  end.

(** The last range starting at or before [a] (reverse iteration). *)
Definition first_before (b : Bus) (a : Z) : option (BusRange * Handle) :=
  List.find (fun '(r, _) => r_start r <=? a) (rev b).

Definition get_device (b : Bus) (a : Z) : option (Z * Handle) :=
  match first_before b a with
  | Some (mkRange start len, dev) =>
      let offset := a - start in
      if offset <? len then Some (offset, dev) else None
  | None => None
  end.

Definition insert (b : Bus) (device : Handle) (base len : Z) : result Error unit * Bus :=
  if len =? 0 then (Err Overlap, b)
  else if bool_decide (is_Some (get_device b base)) then (Err Overlap, b)
  else
    let conflict := match first_before b (wrap 64 (wrap 64 (base + len) - 1)) with
                    | Some (mkRange start _, _) => base <=? start
                    | None => false
                    end in
    if conflict then (Err Overlap, b)
    else
      let '(old, b') := btree_insert (mkRange base len) device b in
      match old with
      | Some _ => (Err Overlap, b')
      | None => (Ok tt, b')
      end.

(** The [BusDevice] trait: state transformers of one device. *)
Class BusDevice (D : Type) := {
  bd_read : D -> Z -> Z -> list byte -> D * list byte;
  bd_write : D -> Z -> Z -> list byte -> D;
}.

Section routing.
Context {D : Type} `{BusDevice D}.

(** [Bus::read]: lock the owning device, let it fill [data]. *)
Definition read (b : Bus) (st : Handle -> D) (vcpuid a : Z) (data : list byte)
    : bool * (Handle -> D) * list byte :=
  match get_device b a with
  | Some (offset, h) =>
      let '(d', data') := bd_read (st h) vcpuid offset data in
      (true, <[h := d']> st, data')
  | None => (false, st, data)
  end.

Definition write (b : Bus) (st : Handle -> D) (vcpuid a : Z) (data : list byte)
    : bool * (Handle -> D) :=
  match get_device b a with
  | Some (offset, h) => (true, <[h := bd_write (st h) vcpuid offset data]> st)
  | None => (false, st)
  end.
End routing.

(** ** Invariant: disjoint, non-empty, ordered ranges *)

Definition range_ok (r : BusRange) : Prop :=
  0 <= r_start r /\ 0 < r_len r /\ r_start r + r_len r <= 2 ^ 64.

(** [before r x]: [r] ends no later than the entry [x] starts. *)
Definition before (x y : BusRange * Handle) : Prop :=
  r_start x.1 + r_len x.1 <= r_start y.1.

Fixpoint bus_ok (b : Bus) : Prop :=
  match b with
  | [] => True
  | x :: b => range_ok x.1 /\ Forall (before x) b /\ bus_ok b
  end.

(** The address map a bus denotes. *)
Definition covers (x : BusRange * Handle) (a : Z) : Prop :=
  r_start x.1 <= a < r_start x.1 + r_len x.1.

Definition overlaps (base len : Z) (x : BusRange * Handle) : Prop :=
  base < r_start x.1 + r_len x.1 /\ r_start x.1 < base + len.

Lemma bus_ok_range b x : bus_ok b -> x ∈ b -> range_ok x.1.
Proof. induction b as [|y b IH]; [by inversion 2|]. intros (? & ? & ?) [->|?]%elem_of_cons; auto. Qed.

Lemma find_app {A} (p : A -> bool) (l1 l2 : list A) :
  List.find p (l1 ++ l2) =
    match List.find p l1 with Some x => Some x | None => List.find p l2 end.
Proof. induction l1; simpl; [done|]. by destruct (p a). Qed.

Lemma first_before_cons x b a :
  first_before (x :: b) a =
    match first_before b a with
    | Some y => Some y
    | None => if r_start x.1 <=? a then Some x else None
    end.
Proof. unfold first_before. simpl. rewrite find_app. simpl. by destruct x. Qed.

Lemma first_before_None b a : first_before b a = None <-> Forall (fun x => a < r_start x.1) b.
Proof.
  induction b as [|x b IH]; [done|]. rewrite first_before_cons, Forall_cons.
  destruct (first_before b a) eqn:E.
  - split; [done|]. intros [_ Hf]. by apply IH in Hf.
  - case_bool; zify_bool; split; try done; [intros [? _]; lia|]. intros _. split; [lia|]. by apply IH.
Qed.

Lemma first_before_elem b a x : first_before b a = Some x -> x ∈ b /\ r_start x.1 <= a.
Proof.
  unfold first_before. intros Hf. apply List.find_some in Hf as [Hin Hle].
  apply in_rev in Hin. apply list_elem_of_In in Hin. destruct x; simpl in *. zify_bool. done.
Qed.

(** In an ordered bus an entry starting at or before [a] bounds the result of
    [first_before] from below. *)
Lemma first_before_last b a x y :
  bus_ok b -> first_before b a = Some x -> y ∈ b -> r_start y.1 <= a ->
  r_start y.1 <= r_start x.1.
Proof.
  induction b as [|z b IH]; [done|]. intros (Hz & Hlt & Hok) Hf Hy Hle.
  rewrite first_before_cons in Hf. destruct (first_before b a) as [x'|] eqn:E.
  - injection Hf as ->. apply elem_of_cons in Hy as [->|Hy]; [|by eauto].
    apply first_before_elem in E as [Hx _]. rewrite Forall_forall in Hlt.
    specialize (Hlt _ Hx). unfold before, range_ok in *. lia.
  - apply first_before_None in E. case_bool; [|done]. injection Hf as ->.
    apply elem_of_cons in Hy as [->|Hy]; [lia|]. rewrite Forall_forall in E.
    specialize (E _ Hy). lia.
Qed.

Lemma bus_ok_disjoint b x y a :
  bus_ok b -> x ∈ b -> y ∈ b -> covers x a -> covers y a -> x = y.
Proof.
  induction b as [|z b IH]; [by inversion 2|]. intros (Hz & Hlt & Hok).
  rewrite Forall_forall in Hlt. intros [->|Hx]%elem_of_cons [->|Hy]%elem_of_cons Cx Cy; auto.
  - specialize (Hlt _ Hy). unfold before, covers in *. lia.
  - specialize (Hlt _ Hx). unfold before, covers in *. lia.
Qed.

Lemma get_device_covers b a off h :
  bus_ok b ->
  get_device b a = Some (off, h) <->
  exists x, x ∈ b /\ covers x a /\ off = a - r_start x.1 /\ h = x.2.
Proof.
  intros Hok. unfold get_device. split.
  - destruct (first_before b a) as [[[s l] dev]|] eqn:E; [|done].
    apply first_before_elem in E as [Hin Hle]. simpl in Hle. case_bool; [|done].
    zify_bool. intros [= <- <-]. exists (mkRange s l, dev). unfold covers. simpl.
    split; [done|]. split; [lia|]. done.
  - intros (x & Hin & Hc & -> & ->). unfold covers in Hc.
    destruct (first_before b a) as [y|] eqn:E.
    + pose proof (first_before_last _ _ _ _ Hok E Hin ltac:(lia)) as Hge.
      pose proof (first_before_elem _ _ _ E) as [Hiny Hley].
      assert (covers y a \/ ~ covers y a) as [Hcy|Hncy] by (unfold covers; lia).
      * assert (y = x) as -> by (by eapply bus_ok_disjoint).
        destruct x as [[s l] dev]; simpl in *. case_bool; [done|]. zify_bool. lia.
      * exfalso. pose proof (bus_ok_range _ _ Hok Hiny) as (? & ? & ?).
        assert (x <> y) as Hne by (intros ->; done).
        apply Hncy. unfold covers. split; [lia|].
        destruct (decide (r_start y.1 + r_len y.1 <= a)); [|lia]. exfalso.
        assert (covers x (r_start y.1)) by (unfold covers; lia).
        assert (covers y (r_start y.1)) by (unfold covers; lia).
        apply Hne. by eapply bus_ok_disjoint.
    + apply first_before_None in E. rewrite Forall_forall in E. specialize (E _ Hin). lia.
Qed.

Lemma get_device_None b a :
  bus_ok b -> get_device b a = None <-> forall x, x ∈ b -> ~ covers x a.
Proof.
  intros Hok. split.
  - intros Hn x Hin Hc. assert (get_device b a = Some (a - r_start x.1, x.2)) as Hs
      by (apply get_device_covers; eauto). congruence.
  - intros Hall. destruct (get_device b a) as [[off h]|] eqn:E; [|done]. exfalso.
    apply get_device_covers in E as (x & Hin & Hc & _); [|done]. by eapply Hall.
Qed.

(** ** Insertion *)

Lemma btree_insert_free k v b :
  bus_ok b -> range_ok k -> Forall (fun x => ~ overlaps (r_start k) (r_len k) x) b ->
  exists b', btree_insert k v b = (None, b') /\ bus_ok b' /\
    (forall x, x ∈ b' <-> x = (k, v) \/ x ∈ b).
Proof.
  intros Hok Hk. induction b as [|[k' v'] b IH]; intros Hno.
  - exists [(k, v)]. simpl. split_and!; try done. intros x. set_solver.
  - destruct Hok as (Hk' & Hlt & Hok). apply Forall_cons in Hno as [Hn Hno].
    unfold overlaps, range_ok in *. simpl in *. case_bool; zify_bool.
    + exists ((k, v) :: (k', v') :: b). split_and!; try done; [|set_solver]. simpl.
      split_and!; try done; try lia. apply Forall_cons. unfold before in *. simpl.
      split; [lia|]. eapply Forall_impl; [exact Hlt|]. intros x Hx. simpl in *. lia.
    + replace (r_start k =? r_start k') with false by lia.
      destruct (IH Hok Hno) as (b' & Hb' & Hok' & Hin). rewrite Hb'.
      exists ((k', v') :: b'). split_and!; try done; [|intros x; rewrite !elem_of_cons, Hin; naive_solver].
      simpl. split_and!; try done. apply Forall_forall. intros x [->|Hx]%Hin; unfold before; simpl; [lia|].
      rewrite Forall_forall in Hlt. by apply Hlt.
Qed.

Definition conflict (b : Bus) (base last : Z) : bool :=
  match first_before b last with
  | Some (mkRange start _, _) => base <=? start
  | None => false
  end.

(** The two tests of [insert] together detect exactly the overlaps. *)
Lemma insert_tests b base len :
  bus_ok b -> 0 < len ->
  (get_device b base = None /\ conflict b base (base + len - 1) = false) <->
  Forall (fun x => ~ overlaps base len x) b.
Proof.
  intros Hok Hlen. rewrite Forall_forall. split.
  - intros [Hg Hc] x Hx [Ho1 Ho2]. rewrite get_device_None in Hg by done.
    destruct (decide (r_start x.1 <= base)); [by eapply (Hg x); [|unfold covers; lia]|].
    unfold conflict in Hc. destruct (first_before b (base + len - 1)) as [[[s l] h]|] eqn:E.
    + pose proof (first_before_last _ _ _ x Hok E Hx ltac:(lia)). simpl in *. zify_bool. lia.
    + apply first_before_None in E. rewrite Forall_forall in E. specialize (E _ Hx). lia.
  - intros Hno. split.
    + apply get_device_None; [done|]. intros x Hx Hc. apply (Hno _ Hx).
      unfold overlaps, covers in *. lia.
    + unfold conflict. destruct (first_before b (base + len - 1)) as [[[s l] h]|] eqn:E; [|done].
      apply first_before_elem in E as [Hx Hle]. specialize (Hno _ Hx).
      pose proof (bus_ok_range _ _ Hok Hx) as (? & ? & ?).
      unfold overlaps in Hno. simpl in *. apply Z.leb_gt. lia.
Qed.

Lemma insert_last base len :
  0 <= base -> 0 < len -> base + len <= 2 ^ 64 ->
  wrap 64 (wrap 64 (base + len) - 1) = base + len - 1.
Proof. intros. rewrite wrap_sub_l. apply wrap_small. unfold fits. lia. Qed.

Lemma insert_cases b h base len :
  bus_ok b -> 0 <= base -> 0 <= len -> base + len <= 2 ^ 64 ->
  (len <> 0 /\ Forall (fun x => ~ overlaps base len x) b /\
     exists b', insert b h base len = (Ok tt, b') /\ bus_ok b' /\
       forall x, x ∈ b' <-> x = (mkRange base len, h) \/ x ∈ b) \/
  ((len = 0 \/ Exists (overlaps base len) b) /\ insert b h base len = (Err Overlap, b)).
Proof.
  intros Hok Hb Hl Hbl. unfold insert. case_bool; zify_bool; [right; eauto|].
  rewrite insert_last by lia. fold (conflict b base (base + len - 1)).
  destruct (decide (Forall (fun x => ~ overlaps base len x) b)) as [Hno|Hov].
  - left. split_and!; try done. pose proof Hno as [Hg Hc]%insert_tests; try done; [|lia].
    rewrite Hg, Hc. simpl.
    destruct (btree_insert_free (mkRange base len) h b) as (b' & Hi & Hok' & Hin); try done.
    { unfold range_ok; simpl; lia. }
    rewrite Hi. eauto.
  - right. split.
    + right. apply not_Forall_Exists in Hov; [|intros x; unfold overlaps; apply _].
      eapply Exists_impl; [done|]. intros x. simpl. by apply dec_stable.
    + destruct (get_device b base) eqn:Hg; simpl; [done|].
      destruct (conflict b base (base + len - 1)) eqn:Hc; [done|].
      destruct Hov. apply insert_tests; try done. lia.
Qed.

(** [insert] never corrupts the bus and accepts exactly the legal
    placements: for a range that does not run past the 64-bit address space
    it succeeds iff the range is non-empty and overlaps no registered device,
    the ranges stay ordered and pairwise disjoint, and on rejection the bus
    is unchanged. *)
Theorem bus_insert_correct b h base len :
  bus_ok b -> 0 <= base -> 0 <= len -> base + len <= 2 ^ 64 ->
  exists r b', insert b h base len = (r, b') /\ bus_ok b' /\
    (r = Ok tt <-> len <> 0 /\ Forall (fun x => ~ overlaps base len x) b) /\
    (r = Ok tt -> forall x, x ∈ b' <-> x = (mkRange base len, h) \/ x ∈ b) /\
    (r <> Ok tt -> b' = b).
Proof.
  intros Hok Hb Hl Hbl.
  destruct (insert_cases b h base len) as [(? & ? & b' & Hi & Hok' & Hin)|[Hbad Hi]]; try done.
  - exists (Ok tt), b'. naive_solver.
  - exists (Err Overlap), b. split_and!; try done. split; [done|]. intros [? Hno].
    destruct Hbad as [?|Hex]; [done|]. apply Exists_exists in Hex as (x & Hx & Ho).
    rewrite Forall_forall in Hno. by apply Hno in Ho.
Qed.

(** C27. Routing refines a flat address map: after a successful insertion an
    access to the new range reaches the new device with the offset from its
    base, and every other address is routed exactly as before. *)
Theorem bus_routing_refines b h base len b' a :
  bus_ok b -> 0 <= base -> 0 <= len -> base + len <= 2 ^ 64 ->
  insert b h base len = (Ok tt, b') ->
  get_device b' a =
    if (base <=? a) && (a <? base + len) then Some (a - base, h) else get_device b a.
Proof.
  intros Hok Hb Hl Hbl Hi.
  destruct (insert_cases b h base len) as [(? & Hno & b2 & Hi2 & Hok' & Hin)|[_ Hi2]];
    try done; [|congruence].
  assert (b2 = b') as -> by congruence. case_bool; zify_bool.
  - apply get_device_covers; [done|]. exists (mkRange base len, h).
    unfold covers; simpl. rewrite Hin. naive_solver.
  - destruct (get_device b a) as [[off g]|] eqn:E.
    + apply get_device_covers in E as (x & Hx & Hc & -> & ->); [|done].
      apply get_device_covers; [done|]. exists x. rewrite Hin. naive_solver.
    + apply get_device_None; [done|]. rewrite get_device_None in E by done.
      intros x [->|Hx]%Hin; [|by apply E]. unfold covers; simpl. intros Hc.
      apply andb_false_iff in Heqb0 as [?|?]; zify_bool; lia.
Qed.

Section access.
Context {D : Type} `{BusDevice D}.

(** A guest access changes at most the device that owns the address, with
    the offset relative to its range, and an access outside every range
    reports failure and changes nothing. *)
Theorem bus_access_isolated b (st : Handle -> D) vcpu a data :
  bus_ok b ->
  match get_device b a with
  | Some (off, h) =>
      (exists x, x ∈ b /\ covers x a /\ off = a - r_start x.1 /\ h = x.2) /\
      (write b st vcpu a data).1 = true /\ (read b st vcpu a data).1.1 = true /\
      (write b st vcpu a data).2 h = bd_write (st h) vcpu off data /\
      (read b st vcpu a data).2 = (bd_read (st h) vcpu off data).2 /\
      forall g, g <> h -> (write b st vcpu a data).2 g = st g /\
                          (read b st vcpu a data).1.2 g = st g
  | None => write b st vcpu a data = (false, st) /\ read b st vcpu a data = (false, st, data)
  end.
Proof.
  intros Hok. unfold read, write. destruct (get_device b a) as [[off h]|] eqn:E; [|done].
  destruct (bd_read (st h) vcpu off data) as [d' data'] eqn:Er. simpl. split_and!; try done.
  - by apply get_device_covers in E.
  - by rewrite fn_lookup_insert.
  - intros g Hg. by rewrite !fn_lookup_insert_ne.
Qed.
End access.

(** The overlap test computes [base + len - 1] at 64 bits, so a range that
    runs past the end of the address space escapes it: here the accepted
    range contains the registered one. *)
Lemma insert_wraps_past_overlap :
  let b := [(mkRange 0x2000 0x1000, 0%nat)] in
  exists b', insert b 1%nat 0x1000 (2 ^ 64 - 0x1000 + 1) = (Ok tt, b') /\
    Exists (overlaps 0x1000 (2 ^ 64 - 0x1000 + 1)) b.
Proof.
  eexists. split; [vm_compute; reflexivity|]. apply Exists_cons. left.
  unfold overlaps. simpl. lia.
Qed.

(** ** Witnesses *)

Definition demo_bus : Bus := [(mkRange 0x10 0x10, 7%nat)].

Lemma demo_bus_ok : bus_ok demo_bus.
Proof. unfold demo_bus, bus_ok, range_ok; simpl. repeat split; lia || done. Qed.

Lemma bus_insert_correct_witness :
  (insert demo_bus 8 0x20 5).1 = Ok tt /\ (insert demo_bus 8 0xf 0x10).1 = Err Overlap /\
  exists r b', insert demo_bus 8 0x20 5 = (r, b') /\ bus_ok b'.
Proof.
  split; [reflexivity|]. split; [reflexivity|].
  destruct (bus_insert_correct demo_bus 8 0x20 5 demo_bus_ok) as (r & b' & Hi & Hok & _); try lia.
  exists r, b'. split; [exact Hi|exact Hok].
Defined.

Lemma bus_routing_refines_witness :
  get_device [(mkRange 0x10 0x10, 7%nat); (mkRange 0x20 5, 8%nat)] 0x22 = Some (2, 8%nat).
Proof.
  rewrite (bus_routing_refines demo_bus 8 0x20 5 _ 0x22 demo_bus_ok); try lia; reflexivity.
Defined.

#[local] Instance cell_device : BusDevice Z :=
  {| bd_read := fun d _ off data => (d, map (fun _ => d + off) data);
     bd_write := fun _ _ off data => off + Zlength data |}.

Lemma bus_access_isolated_witness :
  write demo_bus (fun _ => 0) 0 0x13 [1; 2] = (true, (write demo_bus (fun _ => 0) 0 0x13 [1; 2]).2) /\
  (write demo_bus (fun _ => 0) 0 0x13 [1; 2]).2 7%nat = 5.
Proof.
  split; [reflexivity|].
  pose proof (bus_access_isolated demo_bus (fun _ => 0) 0 0x13 [1; 2] demo_bus_ok) as
    (_ & _ & _ & Hw & _).
  rewrite Hw. reflexivity.
Defined.

End Bus.
