(* ===== verification/Mmio.v ===== *)
(** * The virtio MMIO transport ([devices/src/virtio/mmio.rs], [device.rs])

    [MmioTransport] interprets the guest's register accesses: feature
    negotiation, the device-status state machine, queue configuration and
    interrupt acknowledgement.  The device behind it is the [VirtioDevice]
    trait; the provided methods of the trait are definitions, the required
    ones are the fields of the class.

    Event descriptors ([EventFd] of the [vmm-sys-util] crate) are handles; a
    write is recorded in [evt_log] and may fail as [efd_write_ok] decides, in
    which case the [unwrap] panics. *)

From S2P Require Import Prelude ByteOrder GuestMem VirtQueue.
Import ByteOrder VirtQueue.

(** ** The [VirtioDevice] trait *)

Record VirtioShmRegion := { host_addr : Z; guest_addr : Z; shm_size : Z }.

Class VirtioDevice (D M : Type) := {
  avail_features : D -> Z;
  acked_features : D -> Z;
  set_acked_features : D -> Z -> D;
  device_type : D -> Z;
  queues : D -> list Queue;
  (** [queues_mut]: replacement of the queue slice *)
  set_queues : D -> list Queue -> D;
  interrupt_evt : D -> nat;
  read_config : D -> Z -> list byte -> list byte;
  write_config : D -> Z -> list byte -> D;
  activate : D -> M -> option D;
  is_activated : D -> bool;
  vd_reset : D -> bool * D;
  shm_region : D -> option VirtioShmRegion;
}.

(** What the transport relies on: accessors and mutators of the feature words
    and of the queues agree, and configuration accesses stay in the
    configuration space. *)
Class VirtioDeviceLaws (D M : Type) `{VirtioDevice D M} : Prop := {
  vd_queues_set d qs : length qs = length (queues d) -> queues (set_queues d qs) = qs;
  vd_avail_set_queues d qs : avail_features (set_queues d qs) = avail_features d;
  vd_acked_set_queues d qs : acked_features (set_queues d qs) = acked_features d;
  vd_active_set_queues d qs : is_activated (set_queues d qs) = is_activated d;
  vd_acked_set d f : acked_features (set_acked_features d f) = f;
  vd_avail_set d f : avail_features (set_acked_features d f) = avail_features d;
  vd_queues_ack d f : queues (set_acked_features d f) = queues d;
  vd_active_ack d f : is_activated (set_acked_features d f) = is_activated d;
  vd_config d o bs : let d' := write_config d o bs in
    avail_features d' = avail_features d /\ acked_features d' = acked_features d /\
    queues d' = queues d /\ is_activated d' = is_activated d;
  vd_activate d m d' : activate d m = Some d' ->
    is_activated d' = true /\ avail_features d' = avail_features d /\
    acked_features d' = acked_features d;
  vd_reset_features d : let d' := (vd_reset d).2 in
    avail_features d' = avail_features d /\ acked_features d' = acked_features d /\
    (is_activated d' = true -> is_activated d = true);
}.

Section provided.
Context {D M : Type} `{VirtioDevice D M}.

Definition avail_features_by_page (d : D) (page : Z) : Z :=
  if page =? 0 then wrap 32 (avail_features d)
  else if page =? 1 then wrap 32 (avail_features d .>> 32)
  else 0.

Definition ack_features_by_page (d : D) (page value : Z) : D :=
  let v := if page =? 0 then value
           else if page =? 1 then wrap 64 (value .<< 32)
           else 0 in
  let unrequested_features := v .& bnot 64 (avail_features d) in
  let v := if negb (unrequested_features =? 0) then v .& bnot 64 unrequested_features else v in
  set_acked_features d (acked_features d .| v).
End provided.

Module Mmio.

Definition VENDOR_ID : Z := 0.
Definition MMIO_MAGIC_VALUE : Z := 0x74726976.
Definition MMIO_VERSION : Z := 2.

(** [mod device_status] *)
Definition INIT : Z := 0.
Definition ACKNOWLEDGE : Z := 1.
Definition DRIVER : Z := 2.
Definition FAILED : Z := 128.
Definition FEATURES_OK : Z := 8.
Definition DRIVER_OK : Z := 4.

Section transport.
Context {D M : Type} `{VirtioDevice D M}.
(** Whether writing the value to the descriptor succeeds. *)
Context (efd_write_ok : nat -> Z -> bool).

Record MmioTransport := mkTransport {
  device : D;
  features_select : Z;
  acked_features_select : Z;
  queue_select : Z;
  device_status : Z;
  config_generation : Z;
  mem : M;
  interrupt_status : Z;
  queue_evts : gmap Z nat;
  shm_region_select : Z;
  evt_log : list (nat * Z);
}.

Definition new (m : M) (istatus : Z) (d : D) : MmioTransport := {|
  device := d; features_select := 0; acked_features_select := 0; queue_select := 0;
  device_status := INIT; config_generation := 0; mem := m; interrupt_status := istatus;
  queue_evts := ∅; shm_region_select := 0; evt_log := [] |}.

Definition with_device (t : MmioTransport) (d : D) : MmioTransport :=
  mkTransport d (features_select t) (acked_features_select t) (queue_select t)
    (device_status t) (config_generation t) (mem t) (interrupt_status t) (queue_evts t)
    (shm_region_select t) (evt_log t).
Definition with_features_select (t : MmioTransport) (v : Z) : MmioTransport :=
  mkTransport (device t) v (acked_features_select t) (queue_select t)
    (device_status t) (config_generation t) (mem t) (interrupt_status t) (queue_evts t)
    (shm_region_select t) (evt_log t).
Definition with_acked_features_select (t : MmioTransport) (v : Z) : MmioTransport :=
  mkTransport (device t) (features_select t) v (queue_select t)
    (device_status t) (config_generation t) (mem t) (interrupt_status t) (queue_evts t)
    (shm_region_select t) (evt_log t).
Definition with_queue_select (t : MmioTransport) (v : Z) : MmioTransport :=
  mkTransport (device t) (features_select t) (acked_features_select t) v
    (device_status t) (config_generation t) (mem t) (interrupt_status t) (queue_evts t)
    (shm_region_select t) (evt_log t).
Definition with_status (t : MmioTransport) (v : Z) : MmioTransport :=
  mkTransport (device t) (features_select t) (acked_features_select t) (queue_select t)
    v (config_generation t) (mem t) (interrupt_status t) (queue_evts t)
    (shm_region_select t) (evt_log t).
Definition with_interrupt (t : MmioTransport) (v : Z) : MmioTransport :=
  mkTransport (device t) (features_select t) (acked_features_select t) (queue_select t)
    (device_status t) (config_generation t) (mem t) v (queue_evts t)
    (shm_region_select t) (evt_log t).
Definition with_shm_select (t : MmioTransport) (v : Z) : MmioTransport :=
  mkTransport (device t) (features_select t) (acked_features_select t) (queue_select t)
    (device_status t) (config_generation t) (mem t) (interrupt_status t) (queue_evts t)
    v (evt_log t).

Definition register_queue_evt (t : MmioTransport) (evt : nat) (id : Z) : MmioTransport :=
  mkTransport (device t) (features_select t) (acked_features_select t) (queue_select t)
    (device_status t) (config_generation t) (mem t) (interrupt_status t)
    (<[id := evt]> (queue_evts t)) (shm_region_select t) (evt_log t).

(** [eventfd.write(v).unwrap()] *)
Definition signal_evt (t : MmioTransport) (evt : nat) (v : Z) : outcome MmioTransport :=
  if efd_write_ok evt v then
    Ret (mkTransport (device t) (features_select t) (acked_features_select t) (queue_select t)
      (device_status t) (config_generation t) (mem t) (interrupt_status t) (queue_evts t)
      (shm_region_select t) (evt_log t ++ [(evt, v)]))
  else Panic.

Definition check_device_status (t : MmioTransport) (set clr : Z) : bool :=
  device_status t .& (set .| clr) =? set.

Definition with_queue {U} (t : MmioTransport) (dflt : U) (f : Queue -> U) : U :=
  match queues (device t) !! Z.to_nat (queue_select t) with
  | Some q => f q
  | None => dflt
  end.

Definition with_queue_mut (t : MmioTransport) (f : Queue -> Queue) : MmioTransport :=
  match queues (device t) !! Z.to_nat (queue_select t) with
  | Some q => with_device t (set_queues (device t)
                (<[Z.to_nat (queue_select t) := f q]> (queues (device t))))
  | None => t
  end.

Definition update_queue_field (t : MmioTransport) (f : Queue -> Queue) : MmioTransport :=
  if check_device_status t FEATURES_OK FAILED then with_queue_mut t f else t.

Definition reset (t : MmioTransport) : MmioTransport :=
  mkTransport
    (set_queues (device t) (map (fun q => Queue_new (get_max_size q)) (queues (device t))))
    0 0 0 INIT (config_generation t) (mem t) 0 (queue_evts t) (shm_region_select t) (evt_log t).

Definition set_device_status (t : MmioTransport) (status : Z) : outcome MmioTransport :=
  let changed := bnot 32 (device_status t) .& status in
  if (changed =? ACKNOWLEDGE) && (device_status t =? INIT) then Ret (with_status t status)
  else if (changed =? DRIVER) && (device_status t =? ACKNOWLEDGE) then Ret (with_status t status)
  else if (changed =? FEATURES_OK) && (device_status t =? (ACKNOWLEDGE .| DRIVER)) then
    Ret (with_status t status)
  else if (changed =? DRIVER_OK) &&
          (device_status t =? (ACKNOWLEDGE .| DRIVER .| FEATURES_OK)) then
    let t := with_status t status in
    if negb (is_activated (device t)) then
      d ← unwrap (activate (device t) (mem t));
      Ret (with_device t d)
    else Ret t
  else if negb (status .& FAILED =? 0) then
    Ret (with_status t (device_status t .| FAILED))
  else if status =? 0 then
    let t := if is_activated (device t) then
               let '(ok, d) := vd_reset (device t) in
               let t := with_device t d in
               if negb ok then with_status t (device_status t .| FAILED) else t
             else t in
    Ret (if device_status t .& FAILED =? 0 then reset t else t)
  else Ret t.

(** *** [BusDevice::read] *)

Definition shm_bounds (t : MmioTransport) : Z * Z :=
  if 1 <? shm_region_select t then (0, 2 ^ 64 - 1)
  else match shm_region (device t) with
       | Some r => (guest_addr r, shm_size r)
       | None => (0, 2 ^ 64 - 1)
       end.

(** The 32-bit registers; [None] is the early return on an unknown one. *)
Definition read_register (t : MmioTransport) (offset : Z) : option Z :=
  if offset =? 0x0 then Some MMIO_MAGIC_VALUE
  else if offset =? 0x04 then Some MMIO_VERSION
  else if offset =? 0x08 then Some (device_type (device t))
  else if offset =? 0x0c then Some VENDOR_ID
  else if offset =? 0x10 then
    let features := avail_features_by_page (device t) (features_select t) in
    Some (if features_select t =? 1 then features .| 0x1 else features)
  else if offset =? 0x34 then Some (with_queue t 0 get_max_size)
  else if offset =? 0x44 then Some (with_queue t 0 (fun q => if ready q then 1 else 0))
  else if offset =? 0x60 then Some (wrap 32 (interrupt_status t))
  else if offset =? 0x70 then Some (device_status t)
  else if offset =? 0xfc then Some (config_generation t)
  else if (0xb0 <=? offset) && (offset <=? 0xbc) then
    let '(shm_base, shm_len) := shm_bounds t in
    Some (if offset =? 0xb0 then wrap 32 shm_len
          else if offset =? 0xb4 then wrap 32 (shm_len .>> 32)
          else if offset =? 0xb8 then wrap 32 shm_base
          else if offset =? 0xbc then wrap 32 (shm_base .>> 32)
          else 0)
  else None.

Definition read (t : MmioTransport) (offset : Z) (data : list byte) : list byte :=
  if (0 <=? offset) && (offset <=? 0xff) && (Zlength data =? 4) then
    match read_register t offset with
    | Some v => write_le_u32 data v
    | None => data
    end
  else if (0x100 <=? offset) && (offset <=? 0xfff) then
    read_config (device t) (offset - 0x100) data
  else data.

(** *** [BusDevice::write] *)

Definition hi (v x : Z) : Z := (v .& 0xffffffff) .| wrap 64 (x .<< 32).

Definition lo (v x : Z) : Z := (v .& bnot 64 0xffffffff) .| x.

Definition set_size (v : Z) (q : Queue) : Queue :=
  mkQueue (max_size q) (wrap 16 v) (ready q) (q_desc_table q) (avail_ring q) (used_ring q)
    (next_avail q) (next_used q) (event_idx_enabled q) (num_added q).
Definition set_ready (v : Z) (q : Queue) : Queue :=
  mkQueue (max_size q) (size q) (v =? 1) (q_desc_table q) (avail_ring q) (used_ring q)
    (next_avail q) (next_used q) (event_idx_enabled q) (num_added q).
Definition set_desc_table (f : Z -> Z) (q : Queue) : Queue :=
  mkQueue (max_size q) (size q) (ready q) (f (q_desc_table q)) (avail_ring q) (used_ring q)
    (next_avail q) (next_used q) (event_idx_enabled q) (num_added q).
Definition set_avail_ring (f : Z -> Z) (q : Queue) : Queue :=
  mkQueue (max_size q) (size q) (ready q) (q_desc_table q) (f (avail_ring q)) (used_ring q)
    (next_avail q) (next_used q) (event_idx_enabled q) (num_added q).
Definition set_used_ring (f : Z -> Z) (q : Queue) : Queue :=
  mkQueue (max_size q) (size q) (ready q) (q_desc_table q) (avail_ring q) (f (used_ring q))
    (next_avail q) (next_used q) (event_idx_enabled q) (num_added q).

Definition write_register (t : MmioTransport) (offset v : Z) : outcome MmioTransport :=
  if offset =? 0x14 then Ret (with_features_select t v)
  else if offset =? 0x20 then
    Ret (if check_device_status t DRIVER (FEATURES_OK .| FAILED)
         then with_device t (ack_features_by_page (device t) (acked_features_select t) v)
         else t)
  else if offset =? 0x24 then Ret (with_acked_features_select t v)
  else if offset =? 0x30 then Ret (with_queue_select t v)
  else if offset =? 0x38 then Ret (update_queue_field t (set_size v))
  else if offset =? 0x44 then Ret (update_queue_field t (set_ready v))
  else if offset =? 0x50 then
    match queue_evts t !! v with
    | Some evt => signal_evt t evt v
    | None => Ret t
    end
  else if offset =? 0x64 then
    Ret (if check_device_status t DRIVER_OK 0
         then with_interrupt t (interrupt_status t .& bnot 64 v) else t)
  else if offset =? 0x70 then set_device_status t v
  else if offset =? 0x80 then Ret (update_queue_field t (set_desc_table (fun a => lo a v)))
  else if offset =? 0x84 then Ret (update_queue_field t (set_desc_table (fun a => hi a v)))
  else if offset =? 0x90 then Ret (update_queue_field t (set_avail_ring (fun a => lo a v)))
  else if offset =? 0x94 then Ret (update_queue_field t (set_avail_ring (fun a => hi a v)))
  else if offset =? 0xa0 then Ret (update_queue_field t (set_used_ring (fun a => lo a v)))
  else if offset =? 0xa4 then Ret (update_queue_field t (set_used_ring (fun a => hi a v)))
  else if offset =? 0xac then Ret (with_shm_select t v)
  else Ret t.

Definition write (t : MmioTransport) (offset : Z) (data : list byte) : outcome MmioTransport :=
  if (0 <=? offset) && (offset <=? 0xff) && (Zlength data =? 4) then
    write_register t offset (read_le_u32 data)
  else if (0x100 <=? offset) && (offset <=? 0xfff) then
    Ret (if check_device_status t DRIVER FAILED
         then with_device t (write_config (device t) (offset - 0x100) data) else t)
  else Ret t.

(** [BusDevice::interrupt]: raised from the device side. *)
Definition interrupt (t : MmioTransport) (irq_mask : Z) : outcome MmioTransport :=
  signal_evt (with_interrupt t (interrupt_status t .| irq_mask)) (interrupt_evt (device t)) 1.

(** ** The transport as a transition system

    A step is a guest register write or an interrupt raised by the device. *)

Inductive step : MmioTransport -> MmioTransport -> Prop :=
| step_write t off data t' :
    fits 64 off -> bytes_ok data -> write t off data = Ret t' -> step t t'
| step_interrupt t mask t' :
    fits 32 mask -> interrupt t mask = Ret t' -> step t t'.

(** What one register write can do to the transport, by kind of register. *)
Inductive write_effect (t : MmioTransport) (off : Z) : MmioTransport -> Prop :=
| eff_local t' : device t' = device t -> device_status t' = device_status t ->
    interrupt_status t' = interrupt_status t -> write_effect t off t'
| eff_ack v : fits 32 v -> check_device_status t DRIVER (FEATURES_OK .| FAILED) = true ->
    write_effect t off (with_device t (ack_features_by_page (device t) (acked_features_select t) v))
| eff_queue f : check_device_status t FEATURES_OK FAILED = true ->
    write_effect t off (with_queue_mut t f)
| eff_int_ack v : off = 0x64 -> fits 32 v -> check_device_status t DRIVER_OK 0 = true ->
    write_effect t off (with_interrupt t (interrupt_status t .& bnot 64 v))
| eff_status v t' : off = 0x70 -> fits 32 v -> set_device_status t v = Ret t' -> write_effect t off t'
| eff_config o data : check_device_status t DRIVER FAILED = true ->
    write_effect t off (with_device t (write_config (device t) o data)).

Lemma update_queue_effect t off f : write_effect t off (update_queue_field t f).
Proof.
  unfold update_queue_field. case_bool; [by apply eff_queue|by apply eff_local].
Qed.

Lemma signal_evt_effect t off evt v t' :
  signal_evt t evt v = Ret t' -> write_effect t off t'.
Proof. unfold signal_evt. case_bool; intros [= <-]. by apply eff_local. Qed.

Lemma write_register_effect t off v t' :
  fits 32 v -> write_register t off v = Ret t' -> write_effect t off t'.
Proof.
  intros Hv Hw. unfold write_register in Hw.
  repeat first
    [ injection Hw as <-; first
        [ apply update_queue_effect | by apply eff_local
        | case_bool; [by apply eff_ack|by apply eff_local]
        | case_bool; [apply eff_int_ack; [by apply Z.eqb_eq|done|done]
                     |by apply eff_local] ]
    | eapply eff_status; [by apply Z.eqb_eq|done|done]
    | (destruct (queue_evts t !! v); [by eapply signal_evt_effect|by injection Hw as <-; apply eff_local])
    | case_match ].
Qed.

Lemma write_has_effect t off data t' :
  bytes_ok data -> write t off data = Ret t' -> write_effect t off t'.
Proof.
  intros Hd Hw. unfold write in Hw. destruct (_ && _) eqn:E.
  { zify_bool. eapply write_register_effect; [|done]. by apply read_le_fits. }
  destruct (_ && _) in Hw.
  { injection Hw as <-. case_bool; [by apply eff_config|by apply eff_local]. }
  injection Hw as <-. by apply eff_local.
Qed.

(** ** Status bits *)

Lemma check_device_status_bits t set clr i :
  check_device_status t set clr = true -> Z.testbit (set .| clr) i = true ->
  Z.testbit (device_status t) i = Z.testbit set i.
Proof.
  unfold check_device_status. intros Hc Hi. zify_bool.
  assert (Z.testbit (device_status t .& (set .| clr)) i = Z.testbit set i) as Hb
    by by rewrite Hc.
  by rewrite Z.land_spec, Hi, andb_true_r in Hb.
Qed.

(** The bits a status write adds, and those of the old status it keeps. *)
Lemma changed_split old v c :
  fits 32 v -> bnot 32 old .& v = c -> v = (v .& old) .| c.
Proof.
  intros Hv <-. rewrite (Z.land_comm (bnot 32 old) v), land_bnot by (done || lia).
  apply Z.bits_inj'; intros i _. rewrite Z.lor_spec, Z.land_spec, Z.ldiff_spec.
  by destruct (Z.testbit v i), (Z.testbit old i).
Qed.

(** The abstract status machine: the four steps of the initialisation
    sequence, failure, and reset. *)
Inductive status_edge (old new : Z) : Prop :=
| edge_stay : new = old -> status_edge old new
| edge_progress c : (old, c) ∈ [(INIT, ACKNOWLEDGE); (ACKNOWLEDGE, DRIVER);
                       (ACKNOWLEDGE .| DRIVER, FEATURES_OK);
                       (ACKNOWLEDGE .| DRIVER .| FEATURES_OK, DRIVER_OK)] ->
    new = (new .& old) .| c -> status_edge old new
| edge_fail : new = old .| FAILED -> status_edge old new
| edge_reset : Z.testbit old 7 = false -> new = INIT -> status_edge old new.

(** What a status write does, one case per arm of the [match]. *)
Inductive status_effect (t : MmioTransport) : MmioTransport -> Prop :=
| se_progress v c : (device_status t, c) ∈ [(INIT, ACKNOWLEDGE); (ACKNOWLEDGE, DRIVER);
                       (ACKNOWLEDGE .| DRIVER, FEATURES_OK)] ->
    v = (v .& device_status t) .| c -> status_effect t (with_status t v)
| se_driver_ok v : device_status t = ACKNOWLEDGE .| DRIVER .| FEATURES_OK ->
    v = (v .& device_status t) .| DRIVER_OK -> is_activated (device t) = true ->
    status_effect t (with_status t v)
| se_activate v d : device_status t = ACKNOWLEDGE .| DRIVER .| FEATURES_OK ->
    v = (v .& device_status t) .| DRIVER_OK -> is_activated (device t) = false ->
    activate (device t) (mem t) = Some d ->
    status_effect t (with_device (with_status t v) d)
| se_failed : status_effect t (with_status t (device_status t .| FAILED))
| se_reset_refused d : vd_reset (device t) = (false, d) -> is_activated (device t) = true ->
    status_effect t (with_status (with_device t d) (device_status t .| FAILED))
| se_reset_failed d : vd_reset (device t) = (true, d) -> is_activated (device t) = true ->
    Z.testbit (device_status t) 7 = true -> status_effect t (with_device t d)
| se_reset_device d : vd_reset (device t) = (true, d) -> is_activated (device t) = true ->
    Z.testbit (device_status t) 7 = false -> status_effect t (reset (with_device t d))
| se_reset : is_activated (device t) = false ->
    Z.testbit (device_status t) 7 = false -> status_effect t (reset t)
| se_none : status_effect t t.

Lemma failed_bit s : (s .& FAILED =? 0) = negb (Z.testbit s 7).
Proof. by apply (land_bit s 7). Qed.

Lemma failed_bit_lor s i :
  0 <= i -> Z.testbit (s .| FAILED) i = Z.testbit s i || (i =? 7).
Proof.
  intros. change FAILED with (2 ^ 7). rewrite Z.lor_spec, Z.pow2_bits_eqb by lia.
  by rewrite (Z.eqb_sym 7).
Qed.

Lemma reset_request_effect t t' :
  (let t := if is_activated (device t) then
               let '(ok, d) := vd_reset (device t) in
               let t := with_device t d in
               if negb ok then with_status t (device_status t .| FAILED) else t
             else t in
   Ret (if device_status t .& FAILED =? 0 then reset t else t)) = Ret t' ->
  status_effect t t'.
Proof.
  cbv zeta. destruct (is_activated (device t)) eqn:Ha.
  - destruct (vd_reset (device t)) as [[] d] eqn:Hr; cbn [negb]; intros [= <-];
      rewrite failed_bit; cbn [device_status with_device with_status].
    + destruct (Z.testbit (device_status t) 7) eqn:Hf; cbn [negb];
        [by apply se_reset_failed|by apply se_reset_device].
    + rewrite failed_bit_lor, orb_true_r by lia. by apply se_reset_refused.
  - intros [= <-]. rewrite failed_bit.
    destruct (Z.testbit (device_status t) 7) eqn:Hf; cbn [negb];
      [apply se_none|by apply se_reset].
Qed.

Lemma set_device_status_effect t v t' :
  fits 32 v -> set_device_status t v = Ret t' -> status_effect t t'.
Proof.
  intros Hv. unfold set_device_status. pose proof (changed_split (device_status t) v) as Hs.
  repeat (destruct (_ && _) eqn:E;
    [apply andb_true_iff in E as [Hc Ho]; apply Z.eqb_eq in Hc, Ho;
     first [ intros [= <-]; eapply se_progress; [|by apply Hs]; rewrite Ho; set_solver | idtac ]
    |clear E]).
  { cbn [is_activated device with_status]. destruct (is_activated (device t)) eqn:Ha; cbn [negb].
    - intros [= <-]. apply se_driver_ok; auto.
    - destruct (activate _ _) eqn:Hact; [|done]. intros [= <-].
      apply se_activate; auto. }
  destruct (negb _); [intros [= <-]; apply se_failed|].
  destruct (v =? 0); [apply reset_request_effect|]. intros [= <-]. apply se_none.
Qed.

(** ** Invariant of every reachable transport *)

Section invariants.
Context `{!VirtioDeviceLaws D M}.

(** [feat] is the device's feature word at start. *)
Record inv (feat : Z) (t : MmioTransport) : Prop := {
  inv_avail : avail_features (device t) = feat;
  inv_acked : Z.ldiff (acked_features (device t)) feat = 0;
  inv_status : Z.ldiff (device_status t) 0x8f = 0;
  inv_active : Z.testbit (device_status t) 2 = true ->
    Z.testbit (device_status t) 7 = false -> is_activated (device t) = true;
}.

Lemma ldiff_lor a b m : Z.ldiff a m = 0 -> Z.ldiff b m = 0 -> Z.ldiff (a .| b) m = 0.
Proof.
  intros Ha Hb. apply Z.bits_inj'; intros i Hi. rewrite Z.ldiff_spec, Z.lor_spec, Z.bits_0.
  apply (f_equal (fun z => Z.testbit z i)) in Ha, Hb.
  rewrite Z.ldiff_spec, Z.bits_0 in Ha, Hb.
  by destruct (Z.testbit a i), (Z.testbit b i), (Z.testbit m i).
Qed.

Lemma ldiff_land_l a b m : Z.ldiff a m = 0 -> Z.ldiff (a .& b) m = 0.
Proof.
  intros Ha. apply Z.bits_inj'; intros i Hi. rewrite Z.ldiff_spec, Z.land_spec, Z.bits_0.
  apply (f_equal (fun z => Z.testbit z i)) in Ha. rewrite Z.ldiff_spec, Z.bits_0 in Ha.
  by destruct (Z.testbit a i), (Z.testbit b i), (Z.testbit m i).
Qed.

Lemma ldiff_clear v m : Z.ldiff (Z.ldiff v (Z.ldiff v m)) m = 0.
Proof.
  apply Z.bits_inj'; intros i Hi. rewrite !Z.ldiff_spec, Z.bits_0.
  by destruct (Z.testbit v i), (Z.testbit m i).
Qed.

(** Acknowledging features only adds offered ones. *)
Lemma ack_features_spec (d : D) page v :
  fits 32 v ->
  exists w, Z.ldiff w (avail_features d) = 0 /\
    acked_features (ack_features_by_page d page v) = acked_features d .| w.
Proof.
  intros Hv. unfold ack_features_by_page. set (v' := if page =? 0 then _ else _).
  assert (fits 64 v') as Hv'.
  { unfold v'. repeat case_bool; [by apply (fits_mono 32)|by apply wrap_fits|by apply fits_0]. }
  eexists; split; [|apply vd_acked_set]. rewrite (land_bnot 64 v') by (done || lia).
  destruct (Z.eqb_spec (Z.ldiff v' (avail_features d)) 0) as [E|E]; cbn [negb]; [done|].
  rewrite land_bnot by (done || lia). apply ldiff_clear.
Qed.

Lemma with_queue_mut_features t f :
  avail_features (device (with_queue_mut t f)) = avail_features (device t) /\
  acked_features (device (with_queue_mut t f)) = acked_features (device t) /\
  is_activated (device (with_queue_mut t f)) = is_activated (device t) /\
  device_status (with_queue_mut t f) = device_status t.
Proof.
  unfold with_queue_mut. case_match; cbn [device with_device device_status]; [|done].
  by rewrite vd_avail_set_queues, vd_acked_set_queues, vd_active_set_queues.
Qed.

Lemma inv_same feat t t' :
  inv feat t -> avail_features (device t') = avail_features (device t) ->
  acked_features (device t') = acked_features (device t) ->
  is_activated (device t') = is_activated (device t) ->
  device_status t' = device_status t -> inv feat t'.
Proof. intros [] Hv Ha Hc Hs. split; rewrite ?Hv, ?Ha, ?Hc, ?Hs; auto. Qed.

Lemma inv_reset feat t :
  avail_features (device t) = feat -> Z.ldiff (acked_features (device t)) feat = 0 ->
  inv feat (reset t).
Proof.
  intros. split; cbn [reset device device_status];
    rewrite ?vd_avail_set_queues, ?vd_acked_set_queues; done.
Qed.

Lemma inv_fail feat t d :
  inv feat t -> avail_features d = feat -> acked_features d = acked_features (device t) ->
  inv feat (with_status (with_device t d) (device_status t .| FAILED)).
Proof.
  intros [] Hv Ha. split; cbn [device device_status with_status with_device];
    rewrite ?Ha; [done|done|by apply ldiff_lor|].
  rewrite !failed_bit_lor, orb_true_r by lia. done.
Qed.

Lemma inv_status_effect feat t t' : inv feat t -> status_effect t t' -> inv feat t'.
Proof.
  intros Hi. pose proof Hi as [H1 H2 H3 H4].
  assert (forall d b, vd_reset (device t) = (b, d) ->
    avail_features d = feat /\ acked_features d = acked_features (device t)) as Hreset.
  { intros d b E. pose proof (vd_reset_features (device t)) as (?&?&?).
    rewrite E in *; cbn in *. split; congruence. }
  intros Heff. inversion Heff as [v c Hc Hv|v Hs Hv Ha|v d Hs Hv Ha Hact| |d Hr Ha|d Hr Ha Hf
    |d Hr Ha Hf|Ha Hf|]; subst; try (pose proof (Hreset _ _ Hr) as [Hr1 Hr2]).
  - split; cbn [device device_status with_status]; [done|done| |].
    + rewrite Hv. apply ldiff_lor; [rewrite Z.land_comm; by apply ldiff_land_l|].
      set_unfold in Hc. naive_solver.
    + intros Hb. exfalso. rewrite Hv, Z.lor_spec, Z.land_spec in Hb.
      set_unfold in Hc; destruct Hc as [Hc|[Hc|[Hc|[]]]]; injection Hc as E ->;
        rewrite E in Hb; by rewrite andb_false_r in Hb.
  - split; cbn [device device_status with_status]; try done.
    rewrite Hv. apply ldiff_lor; [rewrite Z.land_comm; by apply ldiff_land_l|done].
  - destruct (vd_activate _ _ _ Hact) as (Hx & Hy & Hz).
    split; cbn [device device_status with_status with_device]; [congruence|congruence| |done].
    rewrite Hv. apply ldiff_lor; [rewrite Z.land_comm; by apply ldiff_land_l|done].
  - by apply (inv_fail _ t (device t)).
  - by apply inv_fail.
  - split; cbn [device device_status with_device]; [done|congruence|done|congruence].
  - apply inv_reset; cbn [device with_device]; congruence.
  - by apply inv_reset.
  - done.
Qed.

Lemma inv_new m istatus d :
  Z.ldiff (acked_features d) (avail_features d) = 0 ->
  inv (avail_features d) (new m istatus d).
Proof. intros. split; cbn [new device device_status]; done. Qed.

Lemma inv_write_effect feat t off t' :
  inv feat t -> write_effect t off t' -> inv feat t'.
Proof.
  intros Hi. destruct 1 as [t' Hd Hs _|v Hv _|f _|v _ Hv _|v t' _ Hv Hs|o data _].
  - apply (inv_same _ t); congruence.
  - pose proof (ack_features_spec (device t) (acked_features_select t) v Hv) as (w & Hw & Ha).
    destruct Hi as [H1 H2 H3 H4].
    split; cbn [device device_status with_device]; unfold ack_features_by_page in *;
      rewrite ?vd_avail_set, ?vd_active_ack; try done.
    rewrite Ha. apply ldiff_lor; [done|by rewrite <- H1].
  - destruct (with_queue_mut_features t f) as (?&?&?&?). by apply (inv_same _ t).
  - by apply (inv_same _ t).
  - eapply inv_status_effect; [done|by eapply set_device_status_effect].
  - destruct (vd_config (device t) o data) as (?&?&_&?). by apply (inv_same _ t).
Qed.

Lemma step_effect t t' :
  step t t' ->
  (exists off, write_effect t off t') \/
  (device t' = device t /\ device_status t' = device_status t /\
   exists mask, fits 32 mask /\ interrupt_status t' = interrupt_status t .| mask).
Proof.
  destruct 1 as [t off data t' _ Hd Hw|t mask t' Hm Hi].
  - left. exists off. by eapply write_has_effect.
  - right. unfold interrupt, signal_evt in Hi. case_bool; [|done].
    injection Hi as <-. cbn. eauto.
Qed.

Lemma inv_step feat t t' : inv feat t -> step t t' -> inv feat t'.
Proof.
  intros Hi [[off He]|(Hd & Hs & _)]%step_effect; [by eapply inv_write_effect|].
  apply (inv_same _ t); congruence.
Qed.

Lemma inv_steps feat t t' : inv feat t -> rtc step t t' -> inv feat t'.
Proof. intros Hi. induction 1; eauto using inv_step. Qed.

(** C30. Feature negotiation and activation, for every sequence of guest writes
    and device interrupts from start: the offered features never change, the
    acknowledged ones are always among them, the status word only ever holds
    the defined bits, and a device whose DRIVER_OK bit is set without FAILED
    has been activated. *)
Theorem transport_invariant m istatus d t :
  Z.ldiff (acked_features d) (avail_features d) = 0 ->
  rtc step (new m istatus d) t ->
  avail_features (device t) = avail_features d /\
  Z.ldiff (acked_features (device t)) (avail_features (device t)) = 0 /\
  Z.ldiff (device_status t) 0x8f = 0 /\
  (Z.testbit (device_status t) 2 = true -> Z.testbit (device_status t) 7 = false ->
   is_activated (device t) = true).
Proof.
  intros Ha Hr. apply (inv_steps (avail_features d)) in Hr as [E ? ? ?]; [by rewrite E|].
  by apply inv_new.
Qed.

Lemma status_effect_edge t t' :
  status_effect t t' ->
  status_edge (device_status t) (device_status t') /\
  (is_activated (device t) = false -> is_activated (device t') = true ->
   device_status t = ACKNOWLEDGE .| DRIVER .| FEATURES_OK /\
   Z.testbit (device_status t') 2 = true).
Proof.
  intros Heff.
  assert (forall d b, vd_reset (device t) = (b, d) ->
    is_activated d = true -> is_activated (device t) = true) as Hr.
  { intros d b E. pose proof (vd_reset_features (device t)) as (_&_&?). by rewrite E in *. }
  destruct Heff as [v c Hc Hv|v Hs Hv Ha|v d Hs Hv Ha Hact| |d Hd Ha|d Hd Ha Hf
    |d Hd Ha Hf|Ha Hf|]; cbn [device device_status with_device with_status reset];
    try (split; [|rewrite ?vd_active_set_queues; congruence]).
  - apply (edge_progress _ _ c); [|done]. rewrite !elem_of_cons in Hc; rewrite !elem_of_cons.
    tauto.
  - apply (edge_progress _ _ DRIVER_OK); [|done]. rewrite Hs, !elem_of_cons. tauto.
  - split; [apply (edge_progress _ _ DRIVER_OK); [|done]; 
      rewrite Hs, !elem_of_cons; tauto|]. intros _ _.
    split; [done|]. rewrite Hv, Z.lor_spec. by rewrite orb_true_r.
  - by apply edge_fail.
  - by apply edge_fail.
  - by apply edge_stay.
  - by apply edge_reset.
  - by apply edge_reset.
  - by apply edge_stay.
Qed.

(** C2. The device-status state machine refines the initialisation sequence:
    a step leaves the status alone, adds exactly the next bit of the sequence
    0 -> ACKNOWLEDGE -> DRIVER -> FEATURES_OK -> DRIVER_OK to (a subset of) the
    current bits, adds FAILED, or resets a device that is not FAILED; and the
    device is activated only by the DRIVER_OK step out of
    ACKNOWLEDGE|DRIVER|FEATURES_OK. *)
Theorem status_machine_refines t t' :
  step t t' ->
  status_edge (device_status t) (device_status t') /\
  (is_activated (device t) = false -> is_activated (device t') = true ->
   device_status t = ACKNOWLEDGE .| DRIVER .| FEATURES_OK /\
   Z.testbit (device_status t') 2 = true).
Proof.
  intros [[off He]|(Hd & Hs & _)]%step_effect.
  2: { rewrite Hd, Hs. split; [by apply edge_stay|congruence]. }
  destruct He as [t' Hd Hs _|v Hv _|f _|v _ Hv _|v t' _ Hv Hs|o data _].
  - rewrite Hd, Hs. split; [by apply edge_stay|congruence].
  - split; [by apply edge_stay|]. cbn [device with_device]. unfold ack_features_by_page.
    rewrite vd_active_ack. congruence.
  - destruct (with_queue_mut_features t f) as (_&_&Hc&Hs). rewrite Hc, Hs.
    split; [by apply edge_stay|congruence].
  - split; [by apply edge_stay|cbn; congruence].
  - apply status_effect_edge. by eapply set_device_status_effect.
  - destruct (vd_config (device t) o data) as (_&_&_&Hc). cbn [device with_device].
    rewrite Hc. split; [by apply edge_stay|congruence].
Qed.

(** Configuration is gated by the status: apart from status writes, a guest
    write changes the acknowledged features only while DRIVER is set and
    FEATURES_OK and FAILED are clear, and changes the queues only while
    FEATURES_OK is set and FAILED is clear, and then only the selected one. *)
Theorem configuration_gated t off data t' :
  bytes_ok data -> off <> 0x70 -> write t off data = Ret t' ->
  (acked_features (device t') = acked_features (device t) \/
   Z.testbit (device_status t) 1 = true /\ Z.testbit (device_status t) 3 = false /\
   Z.testbit (device_status t) 7 = false) /\
  (queues (device t') = queues (device t) \/
   Z.testbit (device_status t) 3 = true /\ Z.testbit (device_status t) 7 = false /\
   exists q, queues (device t') = <[Z.to_nat (queue_select t) := q]> (queues (device t))).
Proof.
  intros Hd Hoff Hw. apply write_has_effect in Hw; [|done].
  destruct Hw as [t' E _ _|v Hv Hc|f Hc|v _ Hv _|v t' Ho _ _|o bs _]; [by rewrite E; auto| | | |done|].
  - split; [right|left; apply vd_queues_ack].
    by rewrite !(check_device_status_bits _ _ _ _ Hc).
  - destruct (with_queue_mut_features t f) as (_&->&_&_). split; [by left|].
    unfold with_queue_mut. case_match; [right|by left]; cbn [device with_device].
    rewrite !(check_device_status_bits _ _ _ _ Hc) by done. split_and!; [done..|].
    eexists. apply vd_queues_set, length_insert.
  - by split; left.
  - destruct (vd_config (device t) o bs) as (_&?&?&_). by split; left.
Qed.

(** A failed device never recovers: once FAILED is set, no sequence of
    guest writes (the reset request, writing 0 to the status register,
    included) or interrupts clears it or changes the acknowledged features. *)
Theorem failed_is_permanent t t' :
  rtc step t t' -> Z.testbit (device_status t) 7 = true ->
  Z.testbit (device_status t') 7 = true /\
  acked_features (device t') = acked_features (device t).
Proof.
  induction 1 as [t|t u t' Hs _ IH]; intros Hf; [done|].
  assert (Z.testbit (device_status u) 7 = true /\
    acked_features (device u) = acked_features (device t)) as [Hu Ha]; [|naive_solver congruence].
  apply step_effect in Hs as [[off He]|(-> & -> & _)]; [|done].
  destruct He as [u E1 E2 _|v Hv Hc|f Hc|v _ Hv _|v u _ Hv Hs|o bs Hc];
    [by rewrite E1, E2| | |done| |];
    try by rewrite (check_device_status_bits _ _ _ 7 Hc) in Hf.
  apply set_device_status_effect in Hs; [|done]. clear Hv v.
  pose proof (vd_reset_features (device t)) as (_&Hra&_).
  destruct Hs as [v c Hc _|v E _ _|v d E _ _ _| |d Hr _|d Hr _ _|d _ _ ?|_ ?|];
    cbn [device device_status with_status with_device]; rewrite ?failed_bit_lor, ?orb_true_r by lia;
    try (rewrite Hr in Hra); try done; try congruence; try (by rewrite E in Hf).
  rewrite !elem_of_cons in Hc. destruct Hc as [[= E _]|[[= E _]|[[= E _]|Hc]]];
    [by rewrite E in Hf..|by apply elem_of_nil in Hc].
Qed.

Lemma write_int_ack t data t' :
  write t 0x64 data = Ret t' ->
  interrupt_status t' = interrupt_status t \/
  Z.testbit (device_status t) 2 = true /\
  interrupt_status t' = interrupt_status t .& bnot 64 (read_le_u32 data).
Proof.
  unfold write. case_bool; [|intros [= <-]; by left].
  unfold write_register. simpl (0x64 =? _); cbv iota. intros [= <-].
  destruct (check_device_status t DRIVER_OK 0) eqn:Hc; [right|by left].
  by rewrite (check_device_status_bits _ _ _ 2 Hc).
Qed.

(** Interrupts are not lost: a guest write clears a pending interrupt bit
    only as an acknowledgement of that bit while DRIVER_OK is set, or by a
    completed reset. *)
Theorem interrupt_not_lost t off data t' i :
  bytes_ok data -> fits 64 (interrupt_status t) -> write t off data = Ret t' ->
  Z.testbit (interrupt_status t) i = true ->
  Z.testbit (interrupt_status t') i = true \/
  (off = 0x64 /\ Z.testbit (device_status t) 2 = true /\
   Z.testbit (read_le_u32 data) i = true) \/
  (off = 0x70 /\ device_status t' = INIT /\ Z.testbit (device_status t) 7 = false).
Proof.
  intros Hd Hf Hw Hi. destruct (Z.eq_dec off 0x64) as [->|Hoff].
  { destruct (write_int_ack _ _ _ Hw) as [->|(Hc & ->)]; [by left|].
    destruct (Z.testbit (read_le_u32 data) i) eqn:Hb; [auto|left].
    rewrite land_bnot by (done || lia). by rewrite Z.ldiff_spec, Hi, Hb. }
  apply write_has_effect in Hw; [|done].
  destruct Hw as [t' _ _ E|v _ Hc|f Hc|v Ho Hv Hc|v t' Ho Hv Hs|o bs _];
    [by rewrite E; auto|by left| |done| |by left].
  - left. unfold with_queue_mut. by case_match.
  - apply set_device_status_effect in Hs; [|done].
    destruct Hs; cbn; auto 6.
Qed.

(** ** Programming the 64-bit ring addresses *)

Inductive ring := DescTable | AvailRing | UsedRing.
#[global] Instance ring_eq_dec : EqDecision ring.
Proof. solve_decision. Defined.

(** The register of the low half; the high half follows it. *)
Definition ring_reg (r : ring) : Z :=
  match r with DescTable => 0x80 | AvailRing => 0x90 | UsedRing => 0xa0 end.

Definition ring_addr (r : ring) (q : Queue) : Z :=
  match r with DescTable => q_desc_table q | AvailRing => avail_ring q | UsedRing => used_ring q end.

Definition set_ring (r : ring) (f : Z -> Z) : Queue -> Queue :=
  match r with
  | DescTable => set_desc_table f | AvailRing => set_avail_ring f | UsedRing => set_used_ring f
  end.

Lemma ring_addr_set r f q : ring_addr r (set_ring r f q) = f (ring_addr r q).
Proof. by destruct r. Qed.

Lemma ring_addr_set_ne r r' f q : r' <> r -> ring_addr r' (set_ring r f q) = ring_addr r' q.
Proof. by destruct r, r'. Qed.

Lemma hi_lo a v :
  fits 64 v -> hi (lo a (wrap 32 v)) (wrap 32 (v .>> 32)) = v.
Proof.
  intros Hv. unfold hi, lo, bnot, wrap. change 0xffffffff with (Z.ones 32).
  apply Z.bits_inj'; intros i Hi.
  rewrite Z.lor_spec, Z.land_spec, Z.lor_spec, Z.land_spec, Z.ldiff_spec, !Z.testbit_ones_nonneg by lia.
  destruct (Z.ltb_spec i 64).
  - rewrite (Z.mod_pow2_bits_low _ 64), Z.shiftl_spec by lia. destruct (Z.ltb_spec i 32).
    + rewrite Z.mod_pow2_bits_low, (Z.testbit_neg_r _ (i - 32)) by lia.
      by rewrite andb_false_r, orb_false_l, andb_true_r, orb_false_r.
    + rewrite (Z.mod_pow2_bits_low (v .>> 32)), Z.shiftr_spec by lia.
      rewrite andb_false_r, orb_false_l. f_equal; lia.
  - rewrite (Z.mod_pow2_bits_high _ 64), (testbit_high 64 v) by (done || lia).
    destruct (Z.ltb_spec i 32); [lia|]. by rewrite andb_false_r.
Qed.

Lemma write_ring_lo t r v :
  write t (ring_reg r) (le_bytes 4 v) =
    Ret (update_queue_field t (set_ring r (fun a => lo a (wrap 32 v)))).
Proof.
  assert (read_le_u32 (le_bytes 4 v) = wrap 32 v) as <-; [|by destruct r].
  unfold read_le_u32, read_le. rewrite read_array_full by done.
  rewrite take_ge by done. by rewrite le_val_le_bytes.
Qed.

Lemma write_ring_hi t r v :
  write t (ring_reg r + 4) (le_bytes 4 v) =
    Ret (update_queue_field t (set_ring r (fun a => hi a (wrap 32 v)))).
Proof.
  assert (read_le_u32 (le_bytes 4 v) = wrap 32 v) as <-; [|by destruct r].
  unfold read_le_u32, read_le. rewrite read_array_full by done.
  rewrite take_ge by done. by rewrite le_val_le_bytes.
Qed.

Lemma update_queue_selected t f q :
  check_device_status t FEATURES_OK FAILED = true ->
  queues (device t) !! Z.to_nat (queue_select t) = Some q ->
  let t' := update_queue_field t f in
  check_device_status t' FEATURES_OK FAILED = true /\ queue_select t' = queue_select t /\
  queues (device t') = <[Z.to_nat (queue_select t) := f q]> (queues (device t)).
Proof.
  intros Hc Hq. unfold update_queue_field, with_queue_mut. rewrite Hc, Hq.
  cbn [device with_device queue_select]. split_and!; [done..|].
  apply vd_queues_set, length_insert.
Qed.

(** Programming a ring address: writing the low and the high half of any
    64-bit address to the two registers of a ring, while the status admits
    queue configuration, leaves exactly that address in the selected queue and
    changes no other queue and no other ring of it. *)
Theorem ring_address_programmed t r v q :
  fits 64 v ->
  check_device_status t FEATURES_OK FAILED = true ->
  queues (device t) !! Z.to_nat (queue_select t) = Some q ->
  exists t1 t' q',
    write t (ring_reg r) (le_bytes 4 v) = Ret t1 /\
    write t1 (ring_reg r + 4) (le_bytes 4 (v .>> 32)) = Ret t' /\
    queues (device t') = <[Z.to_nat (queue_select t) := q']> (queues (device t)) /\
    ring_addr r q' = v /\ forall r', r' <> r -> ring_addr r' q' = ring_addr r' q.
Proof.
  intros Hv Hc Hq. rewrite write_ring_lo. do 3 eexists. split; [done|].
  rewrite write_ring_hi. split; [done|].
  destruct (update_queue_selected t (set_ring r (fun a => lo a (wrap 32 v))) q Hc Hq)
    as (Hc1 & Hs1 & Hq1).
  destruct (update_queue_selected _ (set_ring r (fun a => hi a (wrap 32 (v .>> 32))))
    (set_ring r (fun a => lo a (wrap 32 v)) q) Hc1) as (_ & _ & Hq2).
  { rewrite Hs1, Hq1. apply list_lookup_insert_eq. by eapply lookup_lt_Some. }
  rewrite Hq2, Hs1, Hq1, list_insert_insert_eq. split; [done|].
  rewrite !ring_addr_set. split; [by apply hi_lo|].
  intros r' Hr'. by rewrite !ring_addr_set_ne.
Qed.

End invariants.
End transport.

(** ** A device with two queues and no reset support *)

Record SimpleDevice := mkSimple {
  sd_avail : Z; sd_acked : Z; sd_queues : list Queue; sd_active : bool }.

#[global] Instance simple_device : VirtioDevice SimpleDevice unit := {
  avail_features := sd_avail;
  acked_features := sd_acked;
  set_acked_features d f := mkSimple (sd_avail d) f (sd_queues d) (sd_active d);
  device_type _ := 4;
  queues := sd_queues;
  set_queues d qs := mkSimple (sd_avail d) (sd_acked d) qs (sd_active d);
  interrupt_evt _ := O;
  read_config _ _ data := data;
  write_config d _ _ := d;
  activate d _ := Some (mkSimple (sd_avail d) (sd_acked d) (sd_queues d) true);
  is_activated := sd_active;
  vd_reset d := (false, d);
  shm_region _ := None;
}.

#[global] Instance simple_device_laws : VirtioDeviceLaws SimpleDevice unit.
Proof. split; try done. intros d m d' [= <-]. done. Qed.

Definition simple : SimpleDevice := mkSimple 0x100000001 0 [Queue_new 16; Queue_new 32] false.

Abbreviation ok_evt := (fun (_ : nat) (_ : Z) => true).

(** Runs a list of register writes. *)
Definition run (t : MmioTransport) (ws : list (Z * Z)) : outcome (@MmioTransport SimpleDevice unit) :=
  foldl (fun o '(off, v) => t ← o; write ok_evt t off (le_bytes 4 v)) (Ret t) ws.

Lemma run_steps t ws t' :
  Forall (fun w => fits 64 w.1) ws -> run t ws = Ret t' -> rtc (step ok_evt) t t'.
Proof.
  unfold run. revert t. induction ws as [|[off v] ws IH]; intros t Hf Hr.
  - injection Hr as <-. apply rtc_refl.
  - cbn [foldl] in Hr. change (t ← Ret t; write ok_evt t off (le_bytes 4 v))
      with (write ok_evt t off (le_bytes 4 v)) in Hr.
    destruct (write ok_evt t off (le_bytes 4 v)) as [u|] eqn:Hw.
    + eapply rtc_l; [|by apply IH; [inv Hf|]].
      eapply step_write; [by inv Hf|apply le_bytes_ok|done].
    + exfalso. clear -Hr. induction ws as [|[o w] ws IHw]; [done|]. by apply IHw.
Qed.

(** The initialisation sequence of a driver. *)
Definition init_writes : list (Z * Z) :=
  [(0x70, 1); (0x70, 3); (0x24, 1); (0x20, 1); (0x20, 3); (0x70, 11); (0x30, 1);
   (0x80, 0x5000); (0x84, 1); (0x44, 1); (0x70, 15)].

Definition initialised : MmioTransport := Eval vm_compute in
  match run (new tt 0 simple) init_writes with Ret t => t | Panic => new tt 0 simple end.

Lemma initialised_reached : rtc (step ok_evt) (new tt 0 simple) initialised.
Proof.
  apply (run_steps _ init_writes); [|by vm_compute].
  repeat constructor; vm_compute; congruence.
Qed.

Lemma transport_invariant_witness :
  device_status initialised = 15 /\ sd_acked (device initialised) = 0x100000000 /\
  is_activated (device initialised) = true.
Proof.
  split; [reflexivity|split; [reflexivity|]].
  apply (transport_invariant ok_evt tt 0 simple initialised);
    [reflexivity|exact initialised_reached|reflexivity|reflexivity].
Defined.

Lemma simple_write_step t off v t' :
  fits 64 off -> write ok_evt t off (le_bytes 4 v) = Ret t' -> step ok_evt t t'.
Proof. intros. eapply step_write; [done|apply le_bytes_ok|done]. Qed.

Lemma status_machine_refines_witness :
  exists t', step ok_evt (new tt 0 simple) t' /\ status_edge 0 (device_status t') /\
    device_status t' = 1.
Proof.
  assert (step ok_evt (new tt 0 simple) (with_status (new tt 0 simple) 1)) as Hs.
  { apply (simple_write_step _ 0x70 1); [split; vm_compute; congruence|reflexivity]. }
  exists (with_status (new tt 0 simple) 1). split; [exact Hs|split; [|reflexivity]].
  exact (proj1 (status_machine_refines ok_evt _ _ Hs)).
Defined.

Lemma configuration_gated_witness :
  queues (device (new tt 0 simple)) = queues (device (new tt 0 simple)) \/
  Z.testbit (device_status (new tt 0 simple)) 3 = true /\
  Z.testbit (device_status (new tt 0 simple)) 7 = false /\
  exists q, queues (device (new tt 0 simple)) = <[0%nat := q]> (queues (device (new tt 0 simple))).
Proof.
  apply (configuration_gated ok_evt (new tt 0 simple) 0x38 (le_bytes 4 16) (new tt 0 simple));
    [apply le_bytes_ok|lia|reflexivity].
Defined.

Lemma failed_is_permanent_witness :
  let t := with_status (new tt 0 simple) 129 in
  exists t', write ok_evt t 0x70 (le_bytes 4 0) = Ret t' /\ Z.testbit (device_status t') 7 = true.
Proof.
  exists (with_status (new tt 0 simple) 129). split; [reflexivity|].
  apply (failed_is_permanent ok_evt (with_status (new tt 0 simple) 129)); [|reflexivity].
  apply rtc_once, (simple_write_step _ 0x70 0); [split; vm_compute; congruence|reflexivity].
Defined.

Lemma interrupt_not_lost_witness :
  let t := with_interrupt initialised 3 in
  exists t', write ok_evt t 0x64 (le_bytes 4 1) = Ret t' /\ interrupt_status t' = 2 /\
  (Z.testbit (interrupt_status t') 1 = true \/
   (0x64 = 0x64 /\ Z.testbit (device_status t) 2 = true /\
    Z.testbit (read_le_u32 (le_bytes 4 1)) 1 = true) \/
   (0x64 = 0x70 /\ device_status t' = INIT /\ Z.testbit (device_status t) 7 = false)).
Proof.
  exists (with_interrupt initialised 2). split; [reflexivity|split; [reflexivity|]].
  apply (interrupt_not_lost ok_evt (with_interrupt initialised 3) 0x64 (le_bytes 4 1));
    [apply le_bytes_ok|split; vm_compute; congruence|reflexivity|reflexivity].
Defined.

Lemma ring_address_programmed_witness :
  exists q', ring_addr UsedRing q' = 0x123456789a.
Proof.
  destruct (ring_address_programmed ok_evt initialised UsedRing 0x123456789a
    (mkQueue 32 0 true 0x100005000 0 0 0 0 false 0)) as (_ & _ & q' & _ & _ & _ & E & _);
    [split; vm_compute; congruence|reflexivity|reflexivity|by exists q'].
Defined.
End Mmio.
