(* ===== verification/DescUtils.v ===== *)
(** * Readers and writers over descriptor chains
    ([devices/src/virtio/descriptor_utils.rs])

    A [VolatileSlice] of the [vm-memory] crate is a window of guest memory: its
    guest address and its length.  [DescriptorChainConsumer] walks a list of
    them; [Reader] and [Writer] wrap it over the readable and the writable
    descriptors of a chain.  The closure given to [consume] is a function on an
    explicit state (the destination buffer of a read, the guest memory of a
    write, the file of a transfer); a raw copy outside guest memory is
    [Panic]. *)

From S2P Require Import Prelude GuestMem VirtQueue.
Import VirtQueue.

Module DescUtils.

Inductive Error :=
| DescriptorChainOverflow
| FindMemoryRegion
| GuestMemoryError
| InvalidChain
| SplitOutOfBounds (off : Z)
| VolatileMemoryError.

(** The kinds of [io::Error] this module produces or inspects. *)
Inductive IoError := InvalidData | UnexpectedEof | WriteZero | Interrupted | OtherIo.

Record VolatileSlice := mkVS { vs_addr : Z; vs_len : Z }.

(** [VolatileSlice::offset] *)
Definition vs_offset (vs : VolatileSlice) (count : Z) : option VolatileSlice :=
  if count <=? vs_len vs then Some (mkVS (vs_addr vs + count) (vs_len vs - count)) else None.

Record DescriptorChainConsumer := mkConsumer {
  buffers : list VolatileSlice;
  bytes_consumed : Z;
}.

Definition available_bytes (c : DescriptorChainConsumer) : Z :=
  fold_left (fun count vs => count +[64] vs_len vs) (buffers c) 0.

(** *** [consume] *)

(** The buffers handed to the closure. *)
Fixpoint gather (bufs : list VolatileSlice) (count buflen : Z) : list VolatileSlice :=
  match bufs with
  | [] => []
  | vs :: bufs =>
      if count <=? buflen then []
      else
        let rem := count - buflen in
        vs :: gather bufs count
          (if rem <? vs_len vs then buflen + rem else buflen + vs_len vs)
  end.

(** Removal of [rem] bytes from the front. *)
Fixpoint skip_bytes (bufs : list VolatileSlice) (rem : Z) : outcome (list VolatileSlice) :=
  match bufs with
  | [] => Ret []
  | vs :: bufs =>
      if rem <? vs_len vs then v ← unwrap (vs_offset vs rem); Ret (v :: bufs)
      else skip_bytes bufs (rem - vs_len vs)
  end.

Definition consume {St} (c : DescriptorChainConsumer) (count : Z)
    (f : list VolatileSlice -> St -> outcome (result IoError Z * St)) (s : St)
    : outcome (result IoError Z * DescriptorChainConsumer * St) :=
  let bufs := gather (buffers c) count 0 in
  match bufs with
  | [] => Ret (Ok 0, c, s)
  | _ =>
      '(r, s) ← f bufs s;
      match r with
      | Err e => Ret (Err e, c, s)
      | Ok n =>
          match checked_add 64 (bytes_consumed c) n with
          | None => Ret (Err InvalidData, c, s)
          | Some total =>
              bs ← skip_bytes (buffers c) n;
              Ret (Ok n, mkConsumer bs total, s)
          end
      end
  end.

(** *** [split_at]: the consumer that stays, and the one returned *)

(** [position]: index of the buffer that holds the offset, and the rest. *)
Fixpoint position (bufs : list VolatileSlice) (rem : Z) : option nat * Z :=
  match bufs with
  | [] => (None, rem)
  | vs :: bufs =>
      if rem <? vs_len vs then (Some O, rem)
      else let '(p, rem) := position bufs (rem - vs_len vs) in (S <$> p, rem)
  end.

Definition split_at (c : DescriptorChainConsumer) (offset : Z)
    : outcome (result Error DescriptorChainConsumer * DescriptorChainConsumer) :=
  let '(pos, rem) := position (buffers c) offset in
  match pos with
  | Some at_ =>
      let kept := take at_ (buffers c) in
      let other := drop at_ (buffers c) in
      if 0 <? rem then
        match other with
        | [] => Panic
        | front :: other =>
            match vs_offset front rem with
            | None => Ret (Err VolatileMemoryError, mkConsumer kept (bytes_consumed c))
            | Some v =>
                Ret (Ok (mkConsumer (v :: other) 0), mkConsumer (kept ++ [v]) (bytes_consumed c))
            end
        end
      else Ret (Ok (mkConsumer other 0), mkConsumer kept (bytes_consumed c))
  | None =>
      if rem =? 0 then Ret (Ok (mkConsumer [] 0), c) else Ret (Err (SplitOutOfBounds offset), c)
  end.

Section memory.
Context {M : Type} `{GuestMemory M}.

(** *** Construction *)

(** One descriptor to its slice: [find_region], then [get_slice] in it. *)
Definition desc_slice (m : M) (d : DescriptorChain) : outcome (result Error VolatileSlice) :=
  match gm_find_region m (addr d) with
  | None => Ret (Err FindMemoryRegion)
  | Some (start, rlen) =>
      offset ← unwrap (checked_sub (addr d) start);
      Ret (if offset + len d <=? rlen then Ok (mkVS (addr d) (len d)) else Err VolatileMemoryError)
  end.

(** The [map] closure with its running total, and the [collect]. *)
Fixpoint collect_slices (m : M) (ds : list DescriptorChain) (total_len : Z)
    : outcome (result Error (list VolatileSlice)) :=
  match ds with
  | [] => Ret (Ok [])
  | d :: ds =>
      match checked_add 64 total_len (len d) with
      | None => Ret (Err DescriptorChainOverflow)
      | Some total_len =>
          r ← desc_slice m d;
          match r with
          | Err e => Ret (Err e)
          | Ok vs =>
              rs ← collect_slices m ds total_len;
              Ret (match rs with Ok vss => Ok (vs :: vss) | Err e => Err e end)
          end
      end
  end.

Definition Reader_new (m : M) (c : DescriptorChain) : outcome (result Error DescriptorChainConsumer) :=
  r ← collect_slices m (readable m c) 0;
  Ret (match r with Ok vss => Ok (mkConsumer vss 0) | Err e => Err e end).

Definition Writer_new (m : M) (c : DescriptorChain) : outcome (result Error DescriptorChainConsumer) :=
  r ← collect_slices m (writable m c) 0;
  Ret (match r with Ok vss => Ok (mkConsumer vss 0) | Err e => Err e end).

(** *** [io::Read] for [Reader] *)

(** The copy loop: the bytes copied into a buffer with [room] left. *)
Fixpoint copy_from (m : M) (bufs : list VolatileSlice) (room : Z) : outcome (list byte) :=
  match bufs with
  | [] => Ret []
  | vs :: bufs =>
      let copy_len := Z.min room (vs_len vs) in
      bs ← unwrap (gm_read m (vs_addr vs) (Z.to_nat copy_len));
      rest ← copy_from m bufs (room - copy_len);
      Ret (bs ++ rest)
  end.

Definition read (m : M) (c : DescriptorChainConsumer) (buf : list byte)
    : outcome (result IoError Z * DescriptorChainConsumer * list byte) :=
  consume c (Zlength buf)
    (fun bufs buf =>
       bs ← copy_from m bufs (Zlength buf);
       Ret (Ok (Zlength bs), bs ++ drop (length bs) buf)) buf.

(** [Read::read_exact], the loop of the standard library over [read]. *)
Fixpoint read_exact (fuel : nat) (m : M) (c : DescriptorChainConsumer) (n : nat)
    : outcome (result IoError (list byte) * DescriptorChainConsumer) :=
  match n, fuel with
  | O, _ => Ret (Ok [], c)
  | _, O => Panic
  | _, S fuel =>
      '(r, c, buf) ← read m c (replicate n 0);
      match r with
      | Err e => Ret (Err e, c)
      | Ok k =>
          if k =? 0 then Ret (Err UnexpectedEof, c)
          else
            '(r, c) ← read_exact fuel m c (n - Z.to_nat k);
            Ret (match r with Ok bs => Ok (take (Z.to_nat k) buf ++ bs) | Err e => Err e end, c)
      end
  end.

(** The [size] bytes of the object. *)
Definition read_obj (m : M) (c : DescriptorChainConsumer) (size : nat)
    : outcome (result IoError (list byte) * DescriptorChainConsumer) :=
  read_exact size m c size.

(** *** [io::Write] for [Writer] *)

Fixpoint copy_to (m : M) (bufs : list VolatileSlice) (rem : list byte) : outcome (Z * M) :=
  match bufs with
  | [] => Ret (0, m)
  | vs :: bufs =>
      let copy_len := Z.min (Zlength rem) (vs_len vs) in
      m ← unwrap (gm_write m (vs_addr vs) (take (Z.to_nat copy_len) rem));
      '(total, m) ← copy_to m bufs (drop (Z.to_nat copy_len) rem);
      Ret (copy_len + total, m)
  end.

Definition write (m : M) (c : DescriptorChainConsumer) (buf : list byte)
    : outcome (result IoError Z * DescriptorChainConsumer * M) :=
  consume c (Zlength buf)
    (fun bufs m => '(total, m) ← copy_to m bufs buf; Ret (Ok total, m)) m.

(** [Write::write_all], the loop of the standard library over [write]. *)
Fixpoint write_all (fuel : nat) (m : M) (c : DescriptorChainConsumer) (buf : list byte)
    : outcome (result IoError unit * DescriptorChainConsumer * M) :=
  match buf, fuel with
  | [], _ => Ret (Ok tt, c, m)
  | _, O => Panic
  | _, S fuel =>
      '(r, c, m) ← write m c buf;
      match r with
      | Err Interrupted => write_all fuel m c buf
      | Err e => Ret (Err e, c, m)
      | Ok n =>
          if n =? 0 then Ret (Err WriteZero, c, m)
          else write_all fuel m c (drop (Z.to_nat n) buf)
      end
  end.

(** The bytes of the object. *)
Definition write_obj (m : M) (c : DescriptorChainConsumer) (val : list byte)
    : outcome (result IoError unit * DescriptorChainConsumer * M) :=
  write_all (length val) m c val.
End memory.

(** *** Transfers to and from files

    The vectored operation of the file is a parameter. *)
Section files.
Context {St : Type} (vectored : list VolatileSlice -> St -> result IoError Z * St).

(** [read_to], [read_to_at], [write_from], [write_from_at] *)
Definition transfer (c : DescriptorChainConsumer) (count : Z) (s : St)
    : outcome (result IoError Z * DescriptorChainConsumer * St) :=
  consume c count (fun bufs s => Ret (vectored bufs s)) s.

(** [read_exact_to] ([eof] is [UnexpectedEof]) and [write_all_from]
    ([WriteZero]); [None] is a loop still running after [fuel] rounds. *)
Fixpoint transfer_all (eof : IoError) (fuel : nat) (c : DescriptorChainConsumer) (count : Z) (s : St)
    : option (outcome (result IoError unit * DescriptorChainConsumer * St)) :=
  if 0 <? count then
    match fuel with
    | O => None
    | S fuel =>
        match transfer c count s with
        | Panic => Some Panic
        | Ret (Ok n, c, s) =>
            if n =? 0 then Some (Ret (Err eof, c, s))
            else transfer_all eof fuel c (count -[64] n) s
        | Ret (Err Interrupted, c, s) => transfer_all eof fuel c count s
        | Ret (Err e, c, s) => Some (Ret (Err e, c, s))
        end
    end
  else Some (Ret (Ok tt, c, s)).
End files.

(** ** The consumer as a queue of guest addresses

    The specification view of a list of slices is the sequence of guest
    addresses it still covers. *)

Definition vs_flat (vs : VolatileSlice) : list Z := seqZ (vs_addr vs) (vs_len vs).
Definition flat (bufs : list VolatileSlice) : list Z := concat (map vs_flat bufs).

Definition slices_ok (bufs : list VolatileSlice) : Prop :=
  Forall (fun vs => 0 <= vs_len vs) bufs /\ Zlength (flat bufs) < 2 ^ 64.

Definition total (bufs : list VolatileSlice) : Z := foldr (fun vs t => vs_len vs + t) 0 bufs.

Lemma length_vs_flat vs : 0 <= vs_len vs -> Zlength (vs_flat vs) = vs_len vs.
Proof. intros. unfold vs_flat. rewrite length_seqZ. lia. Qed.

Lemma length_flat bufs :
  Forall (fun vs => 0 <= vs_len vs) bufs -> Zlength (flat bufs) = total bufs.
Proof.
  induction 1 as [|vs bufs Hvs _ IH]; [done|]. unfold flat in *; cbn [map concat total foldr].
  rewrite length_app, Nat2Z.inj_add, length_vs_flat, IH by done. done.
Qed.

Lemma total_nonneg bufs : Forall (fun vs => 0 <= vs_len vs) bufs -> 0 <= total bufs.
Proof. intros H. rewrite <- length_flat by done. lia. Qed.

Lemma total_app l1 l2 : total (l1 ++ l2) = total l1 + total l2.
Proof. induction l1; cbn [app total foldr]; [done|]. unfold total in *. lia. Qed.

Lemma available_bytes_total c :
  slices_ok (buffers c) -> available_bytes c = total (buffers c).
Proof.
  intros [Hf Hl]. rewrite length_flat in Hl by done. unfold available_bytes.
  assert (forall acc, 0 <= acc -> acc + total (buffers c) < 2 ^ 64 ->
    fold_left (fun count vs => count +[64] vs_len vs) (buffers c) acc = acc + total (buffers c)) as Hg.
  { clear Hl. induction Hf as [|vs bufs Hvs Hf IH]; intros acc Ha Hb; cbn [fold_left]; [cbn; lia|].
    cbn [total foldr] in *. pose proof (total_nonneg bufs Hf). unfold total in *.
    rewrite wrap_small by (unfold fits; lia). rewrite IH by lia. lia. }
  rewrite Hg by lia. lia.
Qed.

(** What the closure receives: a prefix of the buffers that covers [count]
    bytes, or all of them. *)
Lemma gather_prefix bufs count b :
  Forall (fun vs => 0 <= vs_len vs) bufs -> b <= count ->
  exists rest, bufs = gather bufs count b ++ rest /\
    (rest = [] \/ count - b <= total (gather bufs count b)).
Proof.
  intros Hf. revert b. induction Hf as [|vs bufs Hvs Hf IH]; intros b Hb.
  { exists []. cbn. auto. }
  cbn [gather]. case_bool; zify_bool.
  { exists (vs :: bufs). split; [done|right]. cbn. lia. }
  set (b' := if _ <? _ then _ else _).
  assert (b < b' <= count \/ vs_len vs = 0 /\ b' = b) as Hb'
    by (unfold b'; case_bool; zify_bool; lia).
  assert (b' - b <= vs_len vs) by (unfold b'; case_bool; zify_bool; lia).
  destruct (IH b') as (rest & E & Hc); [lia|]. exists rest. split; [by rewrite E at 1|].
  destruct Hc as [->|Hc]; [by left|right]. cbn [total foldr]. unfold total in Hc. lia.
Qed.

Lemma flat_app l1 l2 : flat (l1 ++ l2) = flat l1 ++ flat l2.
Proof. unfold flat. by rewrite map_app, concat_app. Qed.

Lemma flat_cons vs bufs : flat (vs :: bufs) = vs_flat vs ++ flat bufs.
Proof. done. Qed.

Lemma vs_flat_offset vs n :
  0 <= n <= vs_len vs ->
  vs_flat (mkVS (vs_addr vs + n) (vs_len vs - n)) = drop (Z.to_nat n) (vs_flat vs).
Proof.
  intros. unfold vs_flat. cbn [vs_addr vs_len].
  replace (vs_len vs) with (n + (vs_len vs - n)) at 2 by lia.
  rewrite seqZ_app by lia. rewrite drop_app_length'; [done|]. rewrite length_seqZ. lia.
Qed.

(** Removing [n] bytes from the slices drops [n] addresses and never panics. *)
Lemma skip_bytes_flat bufs n :
  Forall (fun vs => 0 <= vs_len vs) bufs -> 0 <= n ->
  exists bufs', skip_bytes bufs n = Ret bufs' /\ flat bufs' = drop (Z.to_nat n) (flat bufs) /\
    Forall (fun vs => 0 <= vs_len vs) bufs'.
Proof.
  intros Hf. revert n. induction Hf as [|vs bufs Hvs Hf IH]; intros n Hn.
  { exists []. split_and!; [done|by rewrite (drop_nil (A:=Z))|done]. }
  cbn [skip_bytes]. rewrite flat_cons.
  assert (Z.of_nat (length (vs_flat vs)) = vs_len vs) as Hl by by apply length_vs_flat.
  case_bool; zify_bool.
  - unfold vs_offset. destruct (n <=? vs_len vs) eqn:E; [|zify_bool; lia]. eexists.
    split; [done|]. split; [|constructor; [cbn; lia|done]].
    rewrite flat_cons, drop_app_le by lia. f_equal. apply vs_flat_offset. lia.
  - destruct (IH (n - vs_len vs)) as (bufs' & -> & Hfl & Hok); [lia|].
    exists bufs'. split_and!; [done| |done]. rewrite Hfl, drop_app_ge by lia.
    f_equal. lia.
Qed.

(** A count that ends on a buffer boundary: exactly those buffers are handed
    over, and exactly those are removed. *)
Lemma gather_exact bufs rest b :
  Forall (fun vs => 0 < vs_len vs) bufs -> gather (bufs ++ rest) (b + total bufs) b = bufs.
Proof.
  intros Hf. revert b. induction Hf as [|vs bufs Hvs Hf IH]; intros b.
  { destruct rest; cbn [app gather total foldr]; [done|]. by rewrite Z.add_0_r, Z.leb_refl. }
  cbn [app gather total foldr]. fold (total bufs).
  assert (0 <= total bufs) by (apply total_nonneg; eapply Forall_impl; [done|]; cbn; lia).
  case_bool; zify_bool; [lia|]. case_bool; zify_bool; [lia|]. f_equal.
  rewrite Z.add_assoc. apply IH.
Qed.

Lemma skip_bytes_exact bufs vs rest :
  Forall (fun vs => 0 <= vs_len vs) bufs -> 0 < vs_len vs ->
  skip_bytes (bufs ++ vs :: rest) (total bufs) = Ret (vs :: rest).
Proof.
  intros Hf Hvs. induction Hf as [|v bufs Hv Hf IH].
  - cbn [app skip_bytes total foldr]. rewrite (proj2 (Z.ltb_lt 0 _)) by done. unfold vs_offset.
    rewrite (proj2 (Z.leb_le 0 _)) by lia. cbn. rewrite Z.add_0_r, Z.sub_0_r. by destruct vs.
  - cbn [app skip_bytes total foldr]. fold (total bufs).
    pose proof (total_nonneg bufs Hf). case_bool; zify_bool; [lia|].
    by replace (vs_len v + total bufs - vs_len v) with (total bufs) by lia.
Qed.

(** What [consume] does for any closure, by the closure's answer. *)
Lemma consume_spec {St} c count (f : list VolatileSlice -> St -> outcome (result IoError Z * St)) s r c' s' :
  slices_ok (buffers c) -> 0 <= count ->
  (forall bufs s n s', f bufs s = Ret (Ok n, s') -> 0 <= n <= total bufs) ->
  consume c count f s = Ret (r, c', s') ->
  match r with
  | Ok n => flat (buffers c') = drop (Z.to_nat n) (flat (buffers c)) /\ slices_ok (buffers c') /\
      bytes_consumed c' = bytes_consumed c + n /\ 0 <= n <= total (buffers c)
  | Err _ => c' = c
  end.
Proof.
  intros [Hf Hl] Hc Hn. unfold consume.
  destruct (gather_prefix (buffers c) count 0 Hf Hc) as (rest & E & _).
  destruct (gather (buffers c) count 0) as [|v vs] eqn:Eg.
  { intros [= <- <- <-]. rewrite drop_0, Z.add_0_r. pose proof (total_nonneg _ Hf).
    repeat split; (done || lia). }
  destruct (f (v :: vs) s) as [[[n|e] s1]|] eqn:Ef; cbn [mbind outcome_bind]; [|by intros [= <- <- <-]|done].
  destruct (checked_add 64 (bytes_consumed c) n) as [t|] eqn:Et; [|by intros [= <- <- <-]].
  apply checked_add_Some in Et as [-> _]. apply Hn in Ef as Hb.
  destruct (skip_bytes_flat (buffers c) n Hf) as (bufs' & -> & Hfl & Hok); [lia|].
  cbn [mbind outcome_bind]. intros [= <- <- <-]. cbn [buffers bytes_consumed].
  split_and!; [done|split; [done|]|done|lia|].
  - rewrite Hfl, length_drop. lia.
  - rewrite E, total_app. rewrite E in Hf. apply Forall_app in Hf as [_ Hr].
    pose proof (total_nonneg _ Hr). lia.
Qed.

Section contents.
Context {M : Type} {GM : GuestMemory M} {GML : GuestMemoryLaws M}.

(** The bytes the slices cover, in order. *)
Fixpoint contents (m : M) (bufs : list VolatileSlice) : option (list byte) :=
  match bufs with
  | [] => Some []
  | vs :: bufs =>
      bs ← gm_read m (vs_addr vs) (Z.to_nat (vs_len vs));
      rest ← contents m bufs;
      Some (bs ++ rest)
  end.

Lemma contents_cons m vs bufs d :
  contents m (vs :: bufs) = Some d <->
  exists bs rest, gm_read m (vs_addr vs) (Z.to_nat (vs_len vs)) = Some bs /\
    contents m bufs = Some rest /\ d = bs ++ rest.
Proof.
  cbn [contents]. destruct (gm_read _ _ _) as [bs|]; cbn [mbind option_bind]; [|naive_solver].
  destruct (contents m bufs) as [rest|]; cbn [mbind option_bind]; naive_solver.
Qed.

Lemma contents_app m l1 l2 d :
  contents m (l1 ++ l2) = Some d ->
  exists d1 d2, contents m l1 = Some d1 /\ contents m l2 = Some d2 /\ d = d1 ++ d2.
Proof.
  revert d; induction l1 as [|vs l1 IH]; intros d; [by exists [], d|].
  rewrite <- app_comm_cons. intros (bs & rest & Hr & (d1 & d2 & H1 & H2 & ->)%IH & ->)%contents_cons.
  exists (bs ++ d1), d2. split_and!; [|done|by rewrite app_assoc].
  apply contents_cons. eauto.
Qed.

Lemma contents_length m bufs d :
  Forall (fun vs => 0 <= vs_len vs) bufs -> contents m bufs = Some d -> Zlength d = total bufs.
Proof.
  intros Hf. revert d. induction Hf as [|vs bufs Hvs Hf IH]; intros d; [by intros [= <-]|].
  intros (bs & rest & Hr & Hd & ->)%contents_cons. apply IH in Hd.
  apply gm_read_length in Hr. rewrite length_app. cbn [total foldr]. unfold total in Hd. lia.
Qed.

Lemma copy_from_contents m bufs room d :
  Forall (fun vs => 0 <= vs_len vs) bufs -> 0 <= room -> contents m bufs = Some d ->
  copy_from m bufs room = Ret (take (Z.to_nat room) d).
Proof.
  intros Hf. revert room d.
  induction Hf as [|vs bufs Hvs Hf IH]; intros room d Hr; [by intros [= <-]; rewrite take_nil|].
  intros (bs & rest & Hb & Hd & ->)%contents_cons. cbn [copy_from].
  apply gm_read_length in Hb as Hl.
  pose proof (gm_read_sub _ _ _ _ 0 (Z.to_nat (room `min` vs_len vs)) Hb ltac:(lia)) as Hs.
  rewrite Z.add_0_r in Hs. rewrite Hs. cbn [unwrap mbind outcome_bind].
  rewrite (IH _ rest) by (done || lia). cbn [mbind outcome_bind].
  unfold slice. rewrite drop_0, take_app, Hl. do 2 f_equal; [|f_equal; lia].
  destruct (Z.le_ge_cases room (vs_len vs)).
  - by rewrite Z.min_l.
  - rewrite Z.min_r by lia. rewrite !take_ge by lia. done.
Qed.

Lemma skip_bytes_contents m bufs n bufs' d :
  Forall (fun vs => 0 <= vs_len vs) bufs -> 0 <= n ->
  contents m bufs = Some d -> skip_bytes bufs n = Ret bufs' ->
  contents m bufs' = Some (drop (Z.to_nat n) d).
Proof.
  intros Hf. revert n d. induction Hf as [|vs bufs Hvs Hf IH]; intros n d Hn.
  { intros [= <-] [= <-]. by rewrite drop_nil. }
  intros (bs & rest & Hb & Hd & ->)%contents_cons. cbn [skip_bytes].
  apply gm_read_length in Hb as Hl. case_bool; zify_bool.
  - unfold vs_offset. destruct (n <=? vs_len vs) eqn:E; [|zify_bool; lia]. intros [= <-].
    apply contents_cons. exists (drop (Z.to_nat n) bs), rest. cbn [vs_addr vs_len].
    split_and!; [|done|by rewrite drop_app_le by lia].
    pose proof (gm_read_sub _ _ _ _ (Z.to_nat n) (Z.to_nat (vs_len vs - n)) Hb ltac:(lia)) as Hs.
    rewrite Z2Nat.id in Hs by lia. rewrite Hs. unfold slice. rewrite take_ge; [done|].
    rewrite length_drop. lia.
  - intros Hk. eapply IH in Hk; [|lia|done]. rewrite Hk, drop_app_ge by lia.
    do 2 f_equal. lia.
Qed.

(** The closure's view suffices: the first [count] bytes of the gathered
    buffers are the first [count] bytes of the chain. *)
Lemma gather_contents m bufs count d :
  Forall (fun vs => 0 <= vs_len vs) bufs -> 0 <= count -> contents m bufs = Some d ->
  exists d1, contents m (gather bufs count 0) = Some d1 /\
    take (Z.to_nat count) d1 = take (Z.to_nat count) d /\
    Forall (fun vs => 0 <= vs_len vs) (gather bufs count 0).
Proof.
  intros Hf Hc Hd. destruct (gather_prefix bufs count 0 Hf Hc) as (rest & E & Hr).
  rewrite E in Hd, Hf. apply contents_app in Hd as (d1 & d2 & H1 & H2 & ->).
  apply Forall_app in Hf as [Hf1 Hf2]. exists d1. split_and!; [done| |done].
  destruct Hr as [->|Hr]; [injection H2 as <-; by rewrite app_nil_r|].
  rewrite take_app_le; [done|]. apply contents_length in H1; [|done]. lia.
Qed.

Lemma buf_tail (d buf : list byte) :
  take (length buf) d ++ drop (length (take (length buf) d)) buf
  = take (length buf) d ++ drop (length d) buf.
Proof.
  f_equal. rewrite length_take. destruct (Nat.le_ge_cases (length buf) (length d)).
  - by rewrite !drop_ge by lia.
  - by rewrite Nat.min_r by lia.
Qed.

(** [read] in one equation, up to the representation of the slices left. *)
Lemma read_result m c buf d :
  slices_ok (buffers c) -> contents m (buffers c) = Some d ->
  0 <= bytes_consumed c -> bytes_consumed c + Zlength d < 2 ^ 64 ->
  let k := length (take (length buf) d) in
  exists bufs',
    read m c buf = Ret (Ok (Z.of_nat k), mkConsumer bufs' (bytes_consumed c + Z.of_nat k),
                        take (length buf) d ++ drop (length d) buf) /\
    flat bufs' = drop k (flat (buffers c)) /\ contents m bufs' = Some (drop k d) /\
    Forall (fun vs => 0 <= vs_len vs) bufs'.
Proof.
  intros [Hf Hl] Hd Hnn Hlt k. unfold read, consume. rewrite <- (buf_tail d buf). fold k.
  destruct (gather_contents m (buffers c) (Zlength buf) d Hf ltac:(lia) Hd) as (d1 & H1 & Ht & Hg).
  rewrite Nat2Z.id in Ht.
  destruct (gather (buffers c) (Zlength buf) 0) as [|v vs] eqn:Eg.
  - injection H1 as <-. rewrite take_nil in Ht. unfold k. rewrite <- Ht. exists (buffers c).
    cbn [length app]. rewrite !drop_0, Z.add_0_r. split_and!; [by destruct c|done..].
  - rewrite (copy_from_contents _ _ _ d1) by (done || lia). rewrite Nat2Z.id, Ht.
    cbn [mbind outcome_bind]. fold k.
    destruct (skip_bytes_flat (buffers c) (Z.of_nat k) Hf ltac:(lia)) as (bufs' & Hk & Hfl & Hok).
    exists bufs'. rewrite Nat2Z.id in Hfl. unfold checked_add.
    destruct (_ <? _) eqn:Et.
    + rewrite Hk. cbn [mbind outcome_bind]. split_and!; [done|done| |done].
      apply (skip_bytes_contents m _ _ _ d Hf) in Hk; [|lia|done]. by rewrite Nat2Z.id in Hk.
    + zify_bool. subst k. rewrite length_take in *. lia.
Qed.

(** Reading from a chain: [Reader::read] into a buffer never panics, copies
    exactly the first [min (length buf) available] unread bytes of the chain in
    descriptor order, leaves the rest of the buffer alone, and advances past
    precisely those bytes; bytes read plus bytes available is constant. *)
Theorem reader_read_correct m c buf d :
  slices_ok (buffers c) -> contents m (buffers c) = Some d ->
  0 <= bytes_consumed c -> bytes_consumed c + Zlength d < 2 ^ 64 ->
  exists c' n,
    read m c buf = Ret (Ok n, c', take (length buf) d ++ drop (length d) buf) /\
    n = Z.min (Zlength buf) (available_bytes c) /\
    contents m (buffers c') = Some (drop (Z.to_nat n) d) /\ slices_ok (buffers c') /\
    bytes_consumed c' = bytes_consumed c + n /\
    bytes_consumed c' + available_bytes c' = bytes_consumed c + available_bytes c.
Proof.
  intros Hs Hd Hnn Hlt. pose proof Hs as [Hf Hl].
  destruct (read_result m c buf d Hs Hd Hnn Hlt) as (bufs' & Hr & Hfl & Hc & Hok).
  pose proof (contents_length _ _ _ Hf Hd) as Hlen.
  assert (slices_ok bufs') as Hs'.
  { split; [done|]. rewrite Hfl, length_drop. lia. }
  eexists _, _. split; [exact Hr|]. rewrite !available_bytes_total by done.
  cbn [buffers bytes_consumed]. rewrite Nat2Z.id. split_and!; [|done|done|done|].
  - rewrite length_take. lia.
  - rewrite <- !length_flat, Hfl, length_drop by done.
    rewrite <- length_flat in Hlen by done. rewrite length_take. lia.
Qed.

(** *** Writing *)

(** [src] laid over the front of [d]. *)
Definition overlay (src d : list byte) : list byte := take (length d) src ++ drop (length src) d.

Lemma overlay_app src d1 d2 k :
  k = (length src `min` length d1)%nat ->
  overlay src (d1 ++ d2) = (take k src ++ drop k d1) ++ overlay (drop k src) d2.
Proof.
  intros ->. unfold overlay. rewrite length_app, length_drop.
  destruct (Nat.le_ge_cases (length src) (length d1)).
  - rewrite Nat.min_l, !take_ge, drop_app_le by (rewrite ?length_drop; lia).
    rewrite (drop_ge src) by lia. rewrite Nat.sub_diag, drop_0. by rewrite <- app_assoc.
  - rewrite Nat.min_r, (drop_ge d1), app_nil_r, drop_app_ge by lia.
    by rewrite <- take_take_drop, <- app_assoc.
Qed.

Lemma elem_of_vs_flat vs x : x ∈ vs_flat vs <-> vs_addr vs <= x < vs_addr vs + vs_len vs.
Proof. unfold vs_flat. by rewrite elem_of_seqZ. Qed.

Lemma contents_frame m m' bufs :
  (forall a n, (forall x, a <= x < a + Z.of_nat n -> x ∈ flat bufs) -> gm_read m' a n = gm_read m a n) ->
  contents m' bufs = contents m bufs.
Proof.
  induction bufs as [|vs bufs IH]; intros Hfr; [done|]. cbn [contents].
  rewrite Hfr, IH; [done| |].
  - intros a n Hx. apply Hfr. intros x Hi. rewrite flat_cons, elem_of_app. auto.
  - intros x Hi. rewrite flat_cons, elem_of_app, elem_of_vs_flat. lia.
Qed.

Lemma copy_to_contents m bufs rem d :
  Forall (fun vs => 0 <= vs_len vs) bufs -> bytes_ok rem -> NoDup (flat bufs) ->
  contents m bufs = Some d ->
  exists m', copy_to m bufs rem = Ret (Z.min (Zlength rem) (total bufs), m') /\
    contents m' bufs = Some (overlay rem d) /\
    (forall a n, (forall x, a <= x < a + Z.of_nat n -> x ∉ flat bufs) -> gm_read m' a n = gm_read m a n).
Proof.
  intros Hf. revert m rem d. induction Hf as [|vs bufs Hvs Hf IH]; intros m rem d Hb Hnd Hc.
  { injection Hc as <-. exists m. cbn. rewrite drop_nil. split_and!; [|done|done].
    by rewrite Z.min_r by lia. }
  apply contents_cons in Hc as (bs & rest & Hr & Hc & ->). cbn [copy_to].
  set (k := Z.to_nat (Zlength rem `min` vs_len vs)).
  apply gm_read_length in Hr as Hl.
  assert (length (take k rem) = k) as Hk by (rewrite length_take; lia).
  destruct (gm_write_total m (vs_addr vs) (take k rem) (slice bs 0 k)) as [m1 Hw].
  { rewrite Hk. rewrite <- (Z.add_0_r (vs_addr vs)). apply (gm_read_sub _ _ _ _ 0 k Hr). lia. }
  { by apply Forall_take. }
  rewrite Hw. cbn [unwrap mbind outcome_bind].
  rewrite flat_cons, NoDup_app in Hnd. destruct Hnd as (_ & Hdis & Hnd).
  assert (contents m1 bufs = Some rest) as Hc1.
  { rewrite <- Hc. apply contents_frame. intros a n Hx. eapply gm_write_frame_addr; [done|].
    intros i Hi Hin. apply (Hdis i); [apply elem_of_vs_flat; lia|by apply Hx]. }
  destruct (IH m1 (drop k rem) rest ltac:(by apply Forall_drop) Hnd Hc1) as (m' & -> & Hc' & Hfr).
  exists m'. cbn [mbind outcome_bind]. split_and!.
  - do 2 f_equal. rewrite length_drop. cbn [total foldr]. fold (total bufs).
    pose proof (total_nonneg bufs Hf). lia.
  - apply contents_cons. do 2 eexists. split; [|split; [exact Hc'|]].
    + rewrite Hfr; [eapply gm_write_read_over; [done|by apply Forall_take|done|lia]|].
      intros x Hx. intros Hin. by apply (Hdis x); [apply elem_of_vs_flat; lia|].
    + rewrite Hk. apply overlay_app. lia.
  - intros a n Hx. rewrite Hfr; [|set_solver]. eapply gm_write_frame_addr; [done|].
    intros i Hi Hin. apply (Hx i Hi). rewrite flat_cons, elem_of_app, elem_of_vs_flat. lia.
Qed.

Lemma contents_app_2 m l1 l2 d1 d2 :
  contents m l1 = Some d1 -> contents m l2 = Some d2 -> contents m (l1 ++ l2) = Some (d1 ++ d2).
Proof.
  intros H1 H2. revert d1 H1. induction l1 as [|vs l1 IH]; intros d1; [by intros [= <-]|].
  intros (bs & rest & Hr & Hc & ->)%contents_cons. rewrite <- app_comm_cons.
  apply contents_cons. exists bs, (rest ++ d2). rewrite <- app_assoc. auto.
Qed.

(** The write of the gathered prefix, seen on the whole chain. *)
Lemma overlay_prefix m m' g rest buf d1 d2 :
  Forall (fun vs => 0 <= vs_len vs) g ->
  (forall x, x ∈ flat g -> x ∉ flat rest) ->
  (forall a n, (forall x, a <= x < a + Z.of_nat n -> x ∉ flat g) -> gm_read m' a n = gm_read m a n) ->
  contents m g = Some d1 -> contents m rest = Some d2 ->
  rest = [] \/ Zlength buf <= total g -> contents m' g = Some (overlay buf d1) ->
  contents m' (g ++ rest) = Some (overlay buf (d1 ++ d2)).
Proof.
  intros Hg Hdis Hfr H1 H2 Hr Hc. apply contents_length in H1 as Hl; [|done].
  rewrite (overlay_app _ _ _ (length buf `min` length d1)) by done.
  assert (contents m' rest = Some (overlay (drop (length buf `min` length d1) buf) d2)) as Hrest.
  { destruct Hr as [->|Hr].
    - injection H2 as <-. cbn. unfold overlay. cbn [length]. by rewrite drop_nil.
    - unfold overlay. rewrite (drop_ge buf) by lia. cbn [length]. rewrite take_nil, drop_0. cbn [app].
      rewrite <- H2. apply contents_frame. intros a n Hx. apply Hfr. intros x Hi Hin.
      by apply (Hdis x); [|apply Hx]. }
  rewrite (contents_app_2 _ _ _ _ _ Hc Hrest). do 2 f_equal. unfold overlay.
  destruct (Nat.le_ge_cases (length buf) (length d1)).
  - rewrite Nat.min_l by lia. by rewrite !(take_ge buf) by lia.
  - rewrite Nat.min_r by lia. by rewrite !(drop_ge d1) by lia.
Qed.

(** [write] in one statement; the claim below is its reading for a client. *)
Lemma write_result m c buf d :
  slices_ok (buffers c) -> NoDup (flat (buffers c)) -> bytes_ok buf ->
  contents m (buffers c) = Some d ->
  0 <= bytes_consumed c -> bytes_consumed c + Zlength d < 2 ^ 64 ->
  exists c' n m',
    write m c buf = Ret (Ok n, c', m') /\
    n = Z.min (Zlength buf) (available_bytes c) /\
    contents m' (buffers c) = Some (overlay buf d) /\
    (forall a k, (forall x, a <= x < a + Z.of_nat k -> x ∉ flat (buffers c)) ->
       gm_read m' a k = gm_read m a k) /\
    flat (buffers c') = drop (Z.to_nat n) (flat (buffers c)) /\
    bytes_consumed c' = bytes_consumed c + n.
Proof.
  intros [Hf Hl] Hnd Hb Hd Hnn Hlt. unfold write, consume.
  rewrite available_bytes_total by done. pose proof (contents_length _ _ _ Hf Hd) as Hlen.
  destruct (gather_prefix (buffers c) (Zlength buf) 0 Hf ltac:(lia)) as (rest & E & Hr).
  set (g := gather (buffers c) (Zlength buf) 0) in *.
  rewrite E in Hf, Hnd, Hd, Hlen |- *. apply Forall_app in Hf as [Hfg Hfr].
  rewrite flat_app, NoDup_app in Hnd. destruct Hnd as (Hnd1 & Hdis & _).
  apply contents_app in Hd as (d1 & d2 & H1 & H2 & ->).
  destruct (copy_to_contents m g buf d1 Hfg Hb Hnd1 H1) as (m' & Hcp & Hc' & Hfr').
  rewrite Z.sub_0_r in Hr.
  pose proof (overlay_prefix m m' g rest buf d1 d2 Hfg Hdis Hfr' H1 H2 Hr Hc') as Hall.
  pose proof (total_nonneg _ Hfr). pose proof (total_nonneg _ Hfg).
  assert (Zlength buf `min` total g = Zlength buf `min` total (g ++ rest)) as Hn.
  { rewrite total_app. destruct Hr as [->|Hr]; [cbn|]; lia. }
  rewrite Hn in Hcp. rewrite total_app in Hlen.
  set (n := Zlength buf `min` total (g ++ rest)) in *.
  assert (0 <= n <= Zlength (d1 ++ d2)) as Hnb by (unfold n; rewrite total_app; lia).
  assert (forall a k, (forall x, a <= x < a + Z.of_nat k -> x ∉ flat (g ++ rest)) ->
    gm_read m' a k = gm_read m a k) as Hframe.
  { intros a k Hx. apply Hfr'. intros x Hi Hin. apply (Hx x Hi). rewrite flat_app, elem_of_app. auto. }
  destruct g as [|v g'] eqn:Eg.
  - injection Hcp as Hn0 <-. exists c, n, m. rewrite E, <- Hn0, drop_0, Z.add_0_r. auto 6.
  - rewrite Hcp. cbn [mbind outcome_bind]. rewrite <- Eg in *.
    destruct (skip_bytes_flat (g ++ rest) n) as (bufs' & Hk & Hfl & _);
      [by apply Forall_app|lia|].
    unfold checked_add. destruct (_ <? _) eqn:Et; [|zify_bool; lia].
    rewrite Hk. cbn [mbind outcome_bind]. do 3 eexists. split; [done|]. auto 6.
Qed.

(** Writing to a chain whose buffers do not overlap: [Writer::write] never
    panics, stores the first [min (length buf) available] bytes of [buf] at the
    next unwritten addresses of the chain in order (a reader of the same
    buffers gets them back), leaves every address outside the chain unchanged,
    and advances past precisely those bytes. *)
Theorem writer_write_correct m c buf d :
  slices_ok (buffers c) -> NoDup (flat (buffers c)) -> bytes_ok buf ->
  contents m (buffers c) = Some d ->
  0 <= bytes_consumed c -> bytes_consumed c + Zlength d < 2 ^ 64 ->
  exists c' n m',
    write m c buf = Ret (Ok n, c', m') /\
    n = Z.min (Zlength buf) (available_bytes c) /\
    contents m' (buffers c) = Some (overlay buf d) /\
    (forall a k, (forall x, a <= x < a + Z.of_nat k -> x ∉ flat (buffers c)) ->
       gm_read m' a k = gm_read m a k) /\
    flat (buffers c') = drop (Z.to_nat n) (flat (buffers c)) /\
    bytes_consumed c' = bytes_consumed c + n.
Proof. apply write_result. Qed.

(** A buffer that fits is written whole, in one round of [write_all]. *)
Lemma write_all_fits m c buf d :
  slices_ok (buffers c) -> NoDup (flat (buffers c)) -> bytes_ok buf ->
  contents m (buffers c) = Some d -> (length buf <= length d)%nat ->
  0 <= bytes_consumed c -> bytes_consumed c + Zlength d < 2 ^ 64 ->
  exists c' m',
    write_obj m c buf = Ret (Ok tt, c', m') /\
    contents m' (buffers c) = Some (buf ++ drop (length buf) d) /\
    (forall a k, (forall x, a <= x < a + Z.of_nat k -> x ∉ flat (buffers c)) ->
       gm_read m' a k = gm_read m a k) /\
    flat (buffers c') = drop (length buf) (flat (buffers c)) /\
    bytes_consumed c' = bytes_consumed c + Zlength buf.
Proof.
  intros Hs Hnd Hb Hd Hle Hnn Hlt. unfold write_obj.
  destruct (write_result m c buf d Hs Hnd Hb Hd Hnn Hlt) as (c' & n & m' & Hw & Hn & Hc & Hf & Hfl & Hbc).
  rewrite available_bytes_total, <- (contents_length m (buffers c) d) in Hn by (done || apply Hs).
  rewrite Z.min_l in Hn by lia. subst n. rewrite Nat2Z.id in Hfl.
  exists c', m'. unfold overlay in Hc. rewrite take_ge in Hc by lia. split_and!; [|done..].
  destruct buf as [|b buf]; [|].
  - unfold write in Hw. cbn [length write_all].
    unfold consume in Hw. destruct (gather _ _ _) eqn:Eg; [by injection Hw as <- <-|].
    destruct (buffers c); cbn in Eg; [done|]. done.
  - cbn [length write_all]. rewrite Hw. cbn [mbind outcome_bind].
    destruct (Z.of_nat _ =? 0) eqn:E; [cbn [length] in E; zify_bool; lia|].
    rewrite Nat2Z.id, drop_all. by destruct (length buf).
Qed.

(** A writer with room: the bytes its remaining buffers hold. *)
Record room (m : M) (c : DescriptorChainConsumer) (d : list byte) : Prop := {
  room_slices : slices_ok (buffers c);
  room_nodup : NoDup (flat (buffers c));
  room_contents : contents m (buffers c) = Some d;
  room_consumed : 0 <= bytes_consumed c /\ bytes_consumed c + Zlength d < 2 ^ 64 }.

(** Memory outside a chain is the same, and memory stays where it is. *)
Definition framed (c : DescriptorChainConsumer) (m m' : M) : Prop :=
  (forall a k, (forall x, a <= x < a + Z.of_nat k -> x ∉ flat (buffers c)) -> gm_read m' a k = gm_read m a k) /\
  (forall a k, is_Some (gm_read m' a k) <-> is_Some (gm_read m a k)).

Lemma framed_refl c m : framed c m m.
Proof. done. Qed.

Lemma framed_trans c m1 m2 m3 : framed c m1 m2 -> framed c m2 m3 -> framed c m1 m3.
Proof.
  intros [H1 D1] [H2 D2]. split; [intros a k Hx; rewrite (H2 a k Hx); by apply H1|].
  intros a k. by rewrite D2.
Qed.

(** A chain that covers no more addresses has a stronger frame. *)
Lemma framed_sub c c' m m' : flat (buffers c') ⊆ flat (buffers c) -> framed c' m m' -> framed c m m'.
Proof. intros Hs [Hf Hd]. split; [|done]. intros a k Hx. apply Hf. intros x Hi Hin. apply (Hx x Hi), Hs, Hin. Qed.

Lemma copy_to_domain m bufs rem n m' :
  copy_to m bufs rem = Ret (n, m') -> forall a k, is_Some (gm_read m' a k) <-> is_Some (gm_read m a k).
Proof.
  revert m rem n. induction bufs as [|vs bufs IH]; intros m rem n; cbn [copy_to]; [by intros [= _ <-]|].
  destruct (gm_write _ _ _) as [m1|] eqn:Hw; [|done]. cbn [unwrap mbind outcome_bind].
  destruct (copy_to m1 _ _) as [[t m2]|] eqn:Hc; [|done]. cbn [mbind outcome_bind]. intros [= _ <-] a k.
  rewrite (IH _ _ _ Hc). by eapply gm_write_domain.
Qed.

Lemma write_domain m c buf r c' m' :
  write m c buf = Ret (r, c', m') -> forall a k, is_Some (gm_read m' a k) <-> is_Some (gm_read m a k).
Proof.
  unfold write, consume. destruct (gather _ _ _) as [|v g]; [by intros [= _ _ <-]|].
  destruct (copy_to m _ buf) as [[t m2]|] eqn:Hc; [|done]. cbn [mbind outcome_bind].
  destruct (checked_add _ _ _); [|by intros [= _ _ <-]; eapply copy_to_domain].
  destruct (skip_bytes _ _); [|done]. intros [= _ _ <-]. by eapply copy_to_domain.
Qed.

(** The bytes of a chain, address by address. *)
Lemma contents_flat m bufs d :
  Forall (fun vs => 0 <= vs_len vs) bufs -> contents m bufs = Some d ->
  Forall2 (fun a b => gm_read m a 1 = Some [b]) (flat bufs) d.
Proof.
  intros Hf. revert d. induction Hf as [|vs bufs Hvs Hf IH]; intros d; [by intros [= <-]; constructor|].
  intros (bs & rest & Hr & Hc & ->)%contents_cons. rewrite flat_cons. apply Forall2_app; [|by apply IH].
  apply gm_read_length in Hr as Hl. pose proof (length_vs_flat vs Hvs). apply Forall2_same_length_lookup_2; [lia|].
  intros i a b Ha Hb. unfold vs_flat in Ha. apply lookup_seqZ in Ha as [-> Hi].
  rewrite (gm_read_sub _ _ _ _ i 1 Hr) by (apply lookup_lt_Some in Hb; lia). unfold slice.
  by rewrite (drop_S bs b i Hb).
Qed.

Lemma contents_flat_eq m bufs bufs' d d' :
  Forall (fun vs => 0 <= vs_len vs) bufs -> Forall (fun vs => 0 <= vs_len vs) bufs' ->
  contents m bufs = Some d -> contents m bufs' = Some d' -> flat bufs' = flat bufs -> d' = d.
Proof.
  intros Hf Hf' H1%contents_flat H2%contents_flat E; [|done..]. rewrite E in H2. clear E Hf Hf'. revert d' H2.
  induction H1; intros d' H2; inversion H2; subst; [done|]. f_equal; [congruence|auto].
Qed.

(** Writes that miss the first [k] bytes of a chain keep them. *)
Lemma contents_prefix_framed m m' bufs c' k d :
  Forall (fun vs => 0 <= vs_len vs) bufs -> (forall x, x ∈ flat (buffers c') -> x ∉ take k (flat bufs)) ->
  framed c' m m' -> contents m bufs = Some d ->
  exists d', contents m' bufs = Some d' /\ take k d' = take k d.
Proof.
  intros Hf Hdis Hfr. revert k d Hdis. induction Hf as [|vs bufs Hvs Hf IH]; intros k d Hdis; [by intros [= <-]; exists []|].
  intros (bs & rest & Hr & Hc & ->)%contents_cons. rewrite flat_cons, take_app in Hdis.
  pose proof (length_vs_flat vs Hvs) as Hlv. apply gm_read_length in Hr as Hlb.
  destruct (proj2 (proj2 Hfr (vs_addr vs) (Z.to_nat (vs_len vs))) (mk_is_Some _ _ Hr)) as [bs' Hr'].
  apply gm_read_length in Hr' as Hlb'.
  destruct (IH (k - length (vs_flat vs))%nat rest) as (rest' & Hc' & Hrest); [|done|].
  { intros x Hx Hin. apply (Hdis x Hx), elem_of_app. by right. }
  exists (bs' ++ rest'). split; [apply contents_cons; eauto|]. rewrite !take_app.
  replace (length (vs_flat vs)) with (length bs) in Hrest by lia. rewrite Hlb', <- Hlb, Hrest. f_equal.
  set (j := (k `min` length bs)%nat).
  assert (forall l : list byte, length l = length bs -> take k l = take j l) as Hj.
  { intros l Hl. rewrite <- (firstn_all l) at 1. rewrite take_take, Hl. done. }
  rewrite !Hj by lia.
  pose proof (gm_read_sub _ _ _ _ 0 j Hr ltac:(lia)) as Hs. pose proof (gm_read_sub _ _ _ _ 0 j Hr' ltac:(lia)) as Hs'.
  unfold slice in Hs, Hs'. rewrite drop_0, Z.add_0_r in Hs, Hs'. rewrite (proj1 Hfr) in Hs'; [congruence|].
  intros x Hx Hin. apply (Hdis x Hin), elem_of_app. left. unfold vs_flat. apply list_elem_of_lookup.
  exists (Z.to_nat (x - vs_addr vs)). rewrite lookup_take_lt by lia. rewrite lookup_seqZ. lia.
Qed.

Lemma write_room m c buf d :
  room m c d -> bytes_ok buf ->
  exists c' n m', write m c buf = Ret (Ok n, c', m') /\ n = Z.min (Zlength buf) (Zlength d) /\
    contents m' (buffers c) = Some (overlay buf d) /\ framed c m m' /\
    flat (buffers c') = drop (Z.to_nat n) (flat (buffers c)) /\ bytes_consumed c' = bytes_consumed c + n /\
    room m' c' (drop (Z.to_nat n) (overlay buf d)).
Proof.
  intros [Hs Hnd Hd [Hb0 Hb1]] Hb. destruct (write_result m c buf d Hs Hnd Hb Hd Hb0 Hb1) as (c' & n & m' & Hw & Hn & Hc & Hf & Hfl & Hbc).
  rewrite available_bytes_total, <- (contents_length m (buffers c) d) in Hn by (done || apply Hs).
  assert (framed c m m') as Hfd by (split; [done|by eapply write_domain]).
  exists c', n, m'. split_and!; try done.
  assert (length (overlay buf d) = length d) as Hlo by (unfold overlay; rewrite length_app, length_take, length_drop; lia).
  destruct Hs as [Hfo Hl].
  assert (contents m' (buffers c') = Some (drop (Z.to_nat n) (overlay buf d)) /\ Forall (fun vs => 0 <= vs_len vs) (buffers c')) as [Hc' Hfo'].
  { unfold write, consume in Hw. destruct (gather _ _ _) eqn:Eg.
    { injection Hw as <- <- <-. by rewrite drop_0. }
    destruct (copy_to _ _ _) as [[k m1]|]; [|done]. cbn [mbind outcome_bind] in Hw.
    destruct (checked_add _ _ _); [|done].
    destruct (skip_bytes (buffers c) k) as [bs|] eqn:Hk; [|done]. injection Hw as -> <- <-. cbn [buffers].
    destruct (skip_bytes_flat (buffers c) n Hfo) as (bs' & Hk' & _ & Hok).
    { rewrite Hn. pose proof (contents_length _ _ _ Hfo Hd). lia. }
    rewrite Hk in Hk'. injection Hk' as <-. split; [|done]. eapply (skip_bytes_contents _ (buffers c)); [done|lia|done|done]. }
  split; [split; [done|]|..].
  - rewrite Hfl, length_drop. lia.
  - rewrite Hfl. rewrite <- (take_drop (Z.to_nat n)) in Hnd. by apply NoDup_app in Hnd as (_ & _ & ?).
  - done.
  - rewrite length_drop, Hlo. lia.
Qed.

(** [write_all] on a writer with room: all of the buffer, or [WriteZero]. *)
Lemma write_obj_room m c buf d :
  room m c d -> bytes_ok buf ->
  exists r c' m', write_obj m c buf = Ret (r, c', m') /\ framed c m m' /\
    if (length buf <=? length d)%nat
    then r = Ok tt /\ contents m' (buffers c) = Some (buf ++ drop (length buf) d) /\
      flat (buffers c') = drop (length buf) (flat (buffers c)) /\
      bytes_consumed c' = bytes_consumed c + Zlength buf /\ room m' c' (drop (length buf) d)
    else r = Err WriteZero /\ (exists d', room m' c' d') /\ flat (buffers c') ⊆ flat (buffers c).
Proof.
  intros Hr Hb. destruct (write_room m c buf d Hr Hb) as (c' & n & m' & Hw & Hn & Hc & Hf & Hfl & Hbc & Hr').
  destruct buf as [|b buf].
  { exists (Ok tt), c, m. cbn. rewrite !drop_0, Z.add_0_r. split_and!; try done. apply Hr. }
  set (l := b :: buf) in *. destruct (Nat.leb_spec (length l) (length d)) as [Hle|Hgt].
  - assert (n = Zlength l) as -> by lia. rewrite Nat2Z.id in *. unfold overlay in Hc, Hr'. rewrite take_ge in Hc, Hr' by lia.
    exists (Ok tt), c', m'. rewrite drop_app_length in Hr'. split_and!; try done.
    unfold write_obj, l. cbn [length write_all]. fold l. rewrite Hw. cbn [mbind outcome_bind].
    destruct (Z.of_nat _ =? 0) eqn:E; [cbn [length] in E; zify_bool; subst l; cbn [length] in *; lia|].
    rewrite Nat2Z.id, drop_all. by destruct (length buf).
  - assert (n = Zlength d) as -> by lia. rewrite Nat2Z.id in *. unfold write_obj, l. cbn [length write_all]. fold l. rewrite Hw.
    cbn [mbind outcome_bind]. assert (flat (buffers c') ⊆ flat (buffers c)) as Hsub by (rewrite Hfl; apply subseteq_drop).
    destruct (Z.of_nat (length d) =? 0) eqn:E; [exists (Err WriteZero), c', m'; split_and!; eauto|].
    rewrite Nat2Z.id. zify_bool.
    assert (length (overlay l d) = length d) as Hlo by (unfold overlay; rewrite length_app, length_take, length_drop; lia).
    destruct (write_room m' c' (drop (length d) l) [] ) as (c2 & n2 & m2 & Hw2 & Hn2 & _ & Hf2 & Hfl2 & _ & Hr2).
    { by rewrite drop_ge in Hr' by lia. }
    { by apply Forall_drop. }
    destruct (drop (length d) l) as [|x rest] eqn:El; [apply (f_equal length) in El; rewrite length_drop in El; cbn [length] in El; lia|].
    destruct buf as [|b2 buf]; [subst l; cbn [length] in *; lia|]. cbn [length write_all]. rewrite Hw2. cbn [mbind outcome_bind].
    replace n2 with 0 by (rewrite Hn2; cbn [length]; lia). cbn [Z.eqb]. exists (Err WriteZero), c2, m2.
    split; [done|]. split; [|split_and!; [done|eauto|]].
    + eapply framed_trans; [exact Hf|]. by eapply framed_sub.
    + rewrite Hfl2. etrans; [apply subseteq_drop|done].
Qed.

(** *** Typed reads *)

Lemma read_exact_drained fuel m c n :
  (0 < n)%nat -> slices_ok (buffers c) -> contents m (buffers c) = Some [] ->
  0 <= bytes_consumed c < 2 ^ 64 ->
  exists c', read_exact (S fuel) m c n = Ret (Err UnexpectedEof, c').
Proof.
  intros Hn Hs Hd Hb. destruct n as [|n]; [lia|].
  destruct (read_result m c (replicate (S n) 0) [] Hs Hd ltac:(lia) ltac:(cbn; lia))
    as (bufs' & Hr & _).
  eexists. cbn [read_exact]. rewrite Hr, take_nil. reflexivity.
Qed.

(** [read_obj]: an object of [size] bytes is exactly the next [size] bytes
    of the chain when that many are available, and [UnexpectedEof] otherwise;
    the loop terminates. *)
Theorem read_obj_correct m c size d :
  slices_ok (buffers c) -> contents m (buffers c) = Some d ->
  0 <= bytes_consumed c -> bytes_consumed c + Zlength d < 2 ^ 64 ->
  if (size <=? length d)%nat
  then exists c', read_obj m c size = Ret (Ok (take size d), c') /\
         contents m (buffers c') = Some (drop size d) /\ slices_ok (buffers c') /\
         bytes_consumed c' = bytes_consumed c + Z.of_nat size
  else exists c', read_obj m c size = Ret (Err UnexpectedEof, c').
Proof.
  intros Hs Hd Hnn Hlt. unfold read_obj. destruct size as [|n].
  { exists c. rewrite take_0, drop_0. split_and!; (done || lia). }
  set (buf := replicate (S n) 0).
  destruct (read_result m c buf d Hs Hd Hnn Hlt) as (bufs' & Hr & Hfl & Hc & Hok).
  assert (length buf = S n) as Hbuf by apply length_replicate. rewrite Hbuf in *.
  set (k := length (take (S n) d)) in *. cbn [read_exact]. fold buf. rewrite Hr.
  cbn [mbind outcome_bind]. rewrite Nat2Z.id. destruct (Nat.leb_spec (S n) (length d)) as [Hle|Hgt].
  - assert (k = S n) as Hk by (unfold k; rewrite length_take; lia). rewrite Hk in *.
    destruct (Z.of_nat (S n) =? 0) eqn:E; [zify_bool; lia|].
    exists (mkConsumer bufs' (bytes_consumed c + Z.of_nat (S n))).
    split; [|split_and!; [exact Hc| |done]].
    + rewrite Nat.sub_diag. destruct n; cbn [read_exact mbind outcome_bind];
        by rewrite take_app_length', app_nil_r.
    + split; [done|]. cbn [buffers]. rewrite Hfl, length_drop. destruct Hs as [_ ?]. lia.
  - assert (k = length d) as Hk by (unfold k; rewrite length_take; lia). rewrite Hk in *.
    destruct (Z.of_nat (length d) =? 0) eqn:E; [by eexists|]. zify_bool.
    destruct n as [|n]; [lia|]. edestruct (read_exact_drained n m
      (mkConsumer bufs' (bytes_consumed c + Zlength d)) (S (S n) - length d)) as [c' Hc'].
    + lia.
    + split; [done|]. cbn [buffers]. rewrite Hfl, length_drop. destruct Hs as [_ ?]. lia.
    + cbn [buffers]. rewrite Hc. by rewrite drop_ge.
    + cbn [bytes_consumed]. lia.
    + exists c'. by rewrite Hc'.
Qed.

(** *** Construction *)

Definition slice_of (d : DescriptorChain) : VolatileSlice := mkVS (addr d) (len d).

Lemma collect_slices_spec m ds t :
  Forall (fun d => 0 <= len d) ds -> 0 <= t ->
  exists r, collect_slices m ds t = Ret r /\
  match r with
  | Ok vss => vss = map slice_of ds /\ Forall (fun vs => 0 <= vs_len vs) vss /\
      is_Some (contents m vss) /\ (ds <> [] -> t + total vss < 2 ^ 64)
  | Err _ => True
  end.
Proof.
  intros Hf. revert t. induction Hf as [|d ds Hd Hf IH]; intros t Ht.
  { exists (Ok []). cbn. split_and!; eauto. done. }
  cbn [collect_slices]. destruct (checked_add 64 t (len d)) as [t'|] eqn:Et; [|by eexists].
  apply checked_add_Some in Et as [-> Hlt]. unfold desc_slice.
  destruct (gm_find_region m (addr d)) as [[st rl]|] eqn:Er; [|by eexists].
  apply gm_find_region_spec in Er as Hsp. unfold checked_sub.
  destruct (st <=? addr d) eqn:E; [|zify_bool; lia]. cbn [unwrap mbind outcome_bind].
  destruct (addr d - st + len d <=? rl) eqn:E2; [|by eexists]. zify_bool.
  destruct (IH (t + len d)) as (r & -> & Hr); [lia|]. cbn [mbind outcome_bind].
  destruct r as [vss|e]; [|by eexists]. destruct Hr as (-> & Hv & [bs Hbs] & Htot).
  eexists. split; [done|]. split_and!; [done|by constructor| |].
  - destruct (gm_region_read m (addr d) st rl (Z.to_nat (len d)) Er ltac:(lia)) as [b0 Hb0].
    exists (b0 ++ bs). apply contents_cons. eauto.
  - intros _. cbn [total foldr vs_len slice_of]. fold (total (map slice_of ds)).
    destruct ds as [|d' ds]; [cbn; lia|]. specialize (Htot ltac:(done)). lia.
Qed.

Lemma checked_new_len m dt qs i c : checked_new m dt qs i = Some c -> 0 <= len c.
Proof.
  intros (_ & _ & _ & _ & _ & _ & bs & Hr & Hd & _)%checked_new_Some.
  apply gm_read_bytes in Hr. apply (f_equal d_len) in Hd. cbn in Hd. rewrite Hd.
  apply le_val_bound, slice_Forall, Hr.
Qed.

Lemma next_descriptor_len m c d : next_descriptor m c = Some d -> 0 <= len d.
Proof.
  unfold next_descriptor. case_bool; [|done].
  destruct (checked_new m (desc_table c) (queue_size c) (next c)) as [c'|] eqn:E; [|done].
  intros [= <-]. cbn [len set_ttl]. by eapply checked_new_len.
Qed.

Lemma into_iter_len m dt qs i c :
  checked_new m dt qs i = Some c -> Forall (fun d => 0 <= len d) (into_iter m c).
Proof.
  intros Hc. apply checked_new_len in Hc. unfold into_iter. generalize (Z.to_nat (1 `max` ttl c)).
  intros n. revert c Hc. induction n as [|n IH]; intros c Hc; [constructor|].
  cbn [desc_iter_collect desc_iter_next]. constructor; [done|].
  destruct (next_descriptor m c) as [d|] eqn:E; [|destruct n; constructor].
  apply IH. by eapply next_descriptor_len.
Qed.

Lemma collect_consumer m ds :
  Forall (fun d => 0 <= len d) ds ->
  exists r, collect_slices m ds 0 = Ret r /\
  match r with
  | Ok vss => vss = map slice_of ds /\ slices_ok vss /\ is_Some (contents m vss)
  | Err _ => True
  end.
Proof.
  intros Hf. destruct (collect_slices_spec m ds 0 Hf ltac:(lia)) as (r & -> & Hr).
  exists r. split; [done|]. destruct r as [vss|]; [|done]. destruct Hr as (-> & Hv & Hc & Ht).
  split_and!; [done| |done]. split; [done|]. rewrite length_flat by done.
  destruct ds as [|d ds]; [cbn; lia|]. specialize (Ht ltac:(done)). lia.
Qed.

Lemma reader_writer_new m dt qs i c :
  checked_new m dt qs i = Some c ->
  (exists r, Reader_new m c = Ret r /\
    forall rd, r = Ok rd -> buffers rd = map slice_of (readable m c) /\ bytes_consumed rd = 0 /\
      slices_ok (buffers rd) /\ is_Some (contents m (buffers rd))) /\
  (exists r, Writer_new m c = Ret r /\
    forall wr, r = Ok wr -> buffers wr = map slice_of (writable m c) /\ bytes_consumed wr = 0 /\
      slices_ok (buffers wr) /\ is_Some (contents m (buffers wr))).
Proof.
  intros Hc. apply into_iter_len in Hc as Hf. unfold Reader_new, Writer_new, readable, writable.
  rewrite <- (take_skip_while is_read_only) in Hf. apply Forall_app in Hf as [Hr Hw].
  split.
  - destruct (collect_consumer m _ Hr) as (r & -> & Hs). cbn [mbind outcome_bind].
    eexists. split; [done|]. destruct r as [vss|]; [|done]. intros rd [= <-]. naive_solver.
  - destruct (collect_consumer m _ Hw) as (r & -> & Hs). cbn [mbind outcome_bind].
    eexists. split; [done|]. destruct r as [vss|]; [|done]. intros rd [= <-]. naive_solver.
Qed.

(** C40. Building a reader and a writer over a guest-controlled chain never
    panics; on success their windows are exactly the readable (resp. writable)
    descriptors of the chain, in order, every one of them lies in guest memory
    and their total length does not overflow. *)
Theorem chain_windows_in_memory m dt qs i c :
  checked_new m dt qs i = Some c ->
  (exists r, Reader_new m c = Ret r /\
    forall rd, r = Ok rd -> buffers rd = map slice_of (readable m c) /\ bytes_consumed rd = 0 /\
      slices_ok (buffers rd) /\ is_Some (contents m (buffers rd))) /\
  (exists r, Writer_new m c = Ret r /\
    forall wr, r = Ok wr -> buffers wr = map slice_of (writable m c) /\ bytes_consumed wr = 0 /\
      slices_ok (buffers wr) /\ is_Some (contents m (buffers wr))).
Proof. apply reader_writer_new. Qed.
End contents.

(** ** Splitting *)

Lemma position_spec bufs off p r :
  Forall (fun vs => 0 <= vs_len vs) bufs -> 0 <= off -> position bufs off = (p, r) ->
  match p with
  | Some k => exists vs, bufs !! k = Some vs /\ off = total (take k bufs) + r /\ 0 <= r < vs_len vs
  | None => off = total bufs + r /\ 0 <= r
  end.
Proof.
  intros Hf. revert off p r. induction Hf as [|vs bufs Hvs Hf IH]; intros off p r Ho Hp.
  { injection Hp as <- <-. cbn. lia. }
  cbn [position] in Hp. case_bool; zify_bool.
  { injection Hp as <- <-. exists vs. split; [done|]. cbn. lia. }
  destruct (position bufs (off - vs_len vs)) as [p' r'] eqn:E. injection Hp as <- <-.
  apply IH in E; [|lia]. destruct p' as [k|]; cbn [fmap option_fmap option_map].
  - destruct E as (v & Hk & Heq & Hr). exists v. split; [done|].
    cbn [take total foldr]. fold (total (take k bufs)). lia.
  - cbn [total foldr]. fold (total bufs). lia.
Qed.

Lemma total_take_mono bufs j k :
  Forall (fun vs => 0 <= vs_len vs) bufs -> (j <= k)%nat -> total (take j bufs) <= total (take k bufs).
Proof.
  intros Hf Hjk. rewrite <- (take_drop j (take k bufs)), total_app, take_take, Nat.min_l by done.
  assert (0 <= total (drop j (take k bufs))); [|lia].
  by apply total_nonneg, Forall_drop, Forall_take.
Qed.

(** On a buffer boundary the buffers are dealt out whole. *)
Lemma split_at_boundary c k :
  Forall (fun vs => 0 <= vs_len vs) (buffers c) ->
  exists keep data, split_at c (total (take k (buffers c))) = Ret (Ok (mkConsumer data 0), mkConsumer keep (bytes_consumed c)) /\
    buffers c = keep ++ data /\ total keep = total (take k (buffers c)).
Proof.
  intros Hf. unfold split_at. destruct (position (buffers c) _) as [p r] eqn:E.
  apply position_spec in E; [|done|by apply total_nonneg, Forall_take]. destruct p as [i|].
  - destruct E as (vs & Hi & Hoff & Hr). assert (r = 0) as ->.
    { destruct (Nat.le_gt_cases k i).
      - pose proof (total_take_mono (buffers c) k i Hf ltac:(lia)). lia.
      - pose proof (total_take_mono (buffers c) (S i) k Hf ltac:(lia)).
        rewrite (take_S_r _ _ _ Hi), total_app in *. cbn [total foldr] in *. lia. }
    exists (take i (buffers c)), (drop i (buffers c)). rewrite take_drop. split_and!; [done..|lia].
  - destruct E as [E Hr]. pose proof (total_take_mono (buffers c) k (k + length (buffers c)) Hf ltac:(lia)) as Hm.
    rewrite (take_ge (buffers c) (k + _)) in Hm by lia. assert (r = 0) as -> by lia. cbn [Z.eqb].
    exists (buffers c), []. rewrite app_nil_r. split_and!; [by destruct c|done|lia].
Qed.

(** [split_at]: within the available bytes it succeeds and the returned
    consumer holds exactly the bytes from the offset on, and on a buffer
    boundary the original keeps exactly the bytes before it; beyond the
    available bytes it reports [SplitOutOfBounds] and changes nothing. *)
Theorem split_at_spec c off :
  slices_ok (buffers c) -> 0 <= off ->
  if off <=? available_bytes c then
    exists other kept, split_at c off = Ret (Ok other, kept) /\
      flat (buffers other) = drop (Z.to_nat off) (flat (buffers c)) /\ bytes_consumed other = 0 /\
      bytes_consumed kept = bytes_consumed c /\
      (forall k, off = total (take k (buffers c)) ->
         flat (buffers kept) = take (Z.to_nat off) (flat (buffers c)))
  else split_at c off = Ret (Err (SplitOutOfBounds off), c).
Proof.
  intros Hs Ho. rewrite available_bytes_total by done. destruct Hs as [Hf _].
  unfold split_at. destruct (position (buffers c) off) as [p r] eqn:E.
  apply position_spec in E; [|done..]. destruct p as [k|].
  - destruct E as (vs & Hk & Hoff & Hr).
    assert (total (buffers c) = total (take k (buffers c)) + vs_len vs + total (drop (S k) (buffers c)))
      as Htot.
    { rewrite <- (take_drop_middle _ _ _ Hk) at 1. rewrite total_app. cbn [total foldr].
      unfold total; lia. }
    assert (0 <= total (drop (S k) (buffers c))) by by apply total_nonneg, Forall_drop.
    destruct (off <=? total (buffers c)) eqn:Ele; [|zify_bool; lia].
    assert (Z.of_nat (length (flat (take k (buffers c)))) = total (take k (buffers c))) as Hlt
      by by apply length_flat, Forall_take.
    assert (0 <= vs_len vs) by lia.
    destruct (0 <? r) eqn:Er; zify_bool.
    + rewrite (drop_S _ _ _ Hk). unfold vs_offset.
      destruct (r <=? vs_len vs) eqn:E2; [|zify_bool; lia].
      do 2 eexists. split; [done|]. cbn [buffers bytes_consumed]. split_and!; [|done|done|].
      * rewrite <- (take_drop_middle _ _ _ Hk) at 2. rewrite flat_app, !flat_cons, drop_app_ge by lia.
        replace (Z.to_nat off - length (flat (take k (buffers c))))%nat with (Z.to_nat r) by lia.
        rewrite drop_app_le by (pose proof (length_vs_flat vs); lia). f_equal. apply vs_flat_offset; lia.
      * intros j Hj. exfalso. destruct (Nat.le_gt_cases j k).
        -- pose proof (total_take_mono (buffers c) j k Hf ltac:(lia)). lia.
        -- pose proof (total_take_mono (buffers c) (S k) j Hf ltac:(lia)).
           rewrite (take_S_r _ _ _ Hk), total_app in *. cbn [total foldr] in *. lia.
    + assert (r = 0) as -> by lia. do 2 eexists. split; [done|]. cbn [buffers bytes_consumed].
      assert (flat (buffers c) = flat (take k (buffers c)) ++ flat (drop k (buffers c))) as ->
        by by rewrite <- flat_app, take_drop.
      split_and!; [by rewrite drop_app_length' by lia|done|done|].
      intros _ _. by rewrite take_app_length' by lia.
  - destruct E as [-> Hr]. destruct (_ <=? _) eqn:Ele; zify_bool.
    + assert (r = 0) as -> by lia. cbn [Z.eqb]. do 2 eexists. split; [done|].
      rewrite Z.add_0_r, <- length_flat, Nat2Z.id by done. cbn [buffers].
      by rewrite drop_all, take_ge by done.
    + by destruct (r =? 0) eqn:Ez; [zify_bool; lia|].
Qed.

(** A split inside a buffer duplicates the tail of the buffer in both halves
    and loses its head: the original consumer does not keep the bytes before
    the offset. *)
Lemma split_at_inside_buffer a l b off :
  0 < off < l ->
  split_at (mkConsumer [mkVS a l] b) off =
    Ret (Ok (mkConsumer [mkVS (a + off) (l - off)] 0), mkConsumer [mkVS (a + off) (l - off)] b).
Proof.
  intros Ho. unfold split_at. cbn [buffers position vs_len].
  destruct (off <? l) eqn:E; [|zify_bool; lia].
  destruct (0 <? off) eqn:E0; [|zify_bool; lia].
  cbn [drop]. unfold vs_offset. cbn [vs_len vs_addr].
  destruct (off <=? l) eqn:E1; [done|zify_bool; lia].
Qed.

(** The slices handed to the closure may exceed [count]: a transfer of [count]
    bytes out of one longer buffer to a file that takes everything it is given
    moves the whole buffer, and the "exact" loop then ends in an error. *)
Lemma transfer_exceeds_count a l count s fuel :
  0 < count < l -> l < 2 ^ 64 ->
  transfer_all (fun bufs s => (Ok (total bufs), s + total bufs)) UnexpectedEof (S (S fuel))
    (mkConsumer [mkVS a l] 0) count s =
  Some (Ret (Err UnexpectedEof, mkConsumer [] l, s + l)).
Proof.
  intros Hc Hl. assert (0 < count -[64] l) as Hw.
  { unfold wrap. rewrite <- (Z_mod_plus_full _ 1), Z.mod_small; lia. }
  cbn [transfer_all]. rewrite (proj2 (Z.ltb_lt 0 count)) by lia.
  unfold transfer, consume. cbn [buffers gather].
  destruct (count <=? 0) eqn:E1; [zify_bool; lia|].
  cbn [mbind outcome_bind total foldr vs_len bytes_consumed skip_bytes].
  unfold checked_add. destruct (_ <? 2 ^ 64) eqn:E2; [|zify_bool; lia].
  destruct (l + 0 <? l) eqn:E3; [zify_bool; lia|]. cbn [mbind outcome_bind].
  destruct (l + 0 =? 0) eqn:E4; [zify_bool; lia|].
  rewrite Z.add_0_r, Z.add_0_l. apply Z.ltb_lt in Hw. by rewrite Hw.
Qed.

(** ** Witnesses: a chain of one readable and one writable descriptor *)

Definition demo_mem : FlatMem :=
  mkFlat 0 (le_bytes 8 0x40 ++ le_bytes 4 3 ++ le_bytes 2 1 ++ le_bytes 2 1 ++
            le_bytes 8 0x48 ++ le_bytes 4 4 ++ le_bytes 2 2 ++ le_bytes 2 0 ++
            replicate 32 0 ++ [1; 2; 3; 4; 5; 6; 7; 8; 9; 10; 11; 12; 13; 14; 15; 16]).

Definition demo_chain : DescriptorChain := mkChain 0 2 2 0 0x40 3 1 1.

Definition demo_reader : DescriptorChainConsumer := mkConsumer [mkVS 0x40 3] 0.
Definition demo_writer : DescriptorChainConsumer := mkConsumer [mkVS 0x48 4] 0.
Definition demo_split : DescriptorChainConsumer := mkConsumer [mkVS 0x40 3; mkVS 0x48 4] 0.

Lemma chain_windows_in_memory_witness :
  checked_new demo_mem 0 2 0 = Some demo_chain /\
  Writer_new demo_mem demo_chain = Ret (Ok demo_writer) /\
  exists r, Reader_new demo_mem demo_chain = Ret r /\
    forall rd, r = Ok rd -> buffers rd = [mkVS 0x40 3].
Proof.
  split; [reflexivity|split; [reflexivity|]].
  destruct (chain_windows_in_memory demo_mem 0 2 0 demo_chain) as [(r & Hr & Hb) _]; [reflexivity|].
  exists r. split; [exact Hr|]. intros rd E. exact (proj1 (Hb rd E)).
Defined.

Lemma slices_ok_demo bufs :
  forallb (fun vs => 0 <=? vs_len vs) bufs && (Zlength (flat bufs) <? 2 ^ 64) = true -> slices_ok bufs.
Proof.
  intros [Hf Hl]%andb_true_iff. split; [|by apply Z.ltb_lt].
  clear Hl. induction bufs as [|vs bufs IH]; [constructor|]. cbn [forallb] in Hf. zify_bool.
  constructor; auto.
Qed.

Lemma reader_read_correct_witness :
  exists c' n, read demo_mem demo_reader [0; 0] = Ret (Ok n, c', [1; 2]) /\ n = 2 /\
    available_bytes c' = 1.
Proof.
  destruct (reader_read_correct demo_mem demo_reader [0; 0] [1; 2; 3])
    as (c' & n & Hr & Hn & _ & _ & Hb & Ha);
    [apply slices_ok_demo; reflexivity|reflexivity|cbn; lia|cbn; lia|].
  assert (available_bytes demo_reader = 3) as E by reflexivity. rewrite E in Hn, Ha.
  cbn [bytes_consumed demo_reader length] in *. exists c', n. split; [exact Hr|split; lia].
Defined.

Lemma writer_write_correct_witness :
  exists c' n m', write demo_mem demo_writer [21; 22] = Ret (Ok n, c', m') /\ n = 2 /\
    contents m' [mkVS 0x48 4] = Some [21; 22; 11; 12].
Proof.
  destruct (writer_write_correct demo_mem demo_writer [21; 22] [9; 10; 11; 12])
    as (c' & n & m' & Hw & Hn & Hc & _);
    [apply slices_ok_demo; reflexivity|apply (bool_decide_unpack _); vm_compute; exact I|repeat constructor; vm_compute; congruence
    |reflexivity|cbn; lia|cbn; lia|].
  exists c', n, m'. split; [exact Hw|split; [exact Hn|exact Hc]].
Defined.

Lemma read_obj_correct_witness :
  exists c', read_obj demo_mem demo_reader 2 = Ret (Ok [1; 2], c') /\
    contents demo_mem (buffers c') = Some [3].
Proof.
  destruct (read_obj_correct demo_mem demo_reader 2 [1; 2; 3]) as (c' & Hr & Hc & _);
    [apply slices_ok_demo; reflexivity|reflexivity|cbn; lia|cbn; lia|].
  exists c'. split; [exact Hr|exact Hc].
Defined.

Lemma split_at_spec_witness :
  exists other kept, split_at demo_split 3 = Ret (Ok other, kept) /\
    flat (buffers other) = [0x48; 0x49; 0x4a; 0x4b] /\ flat (buffers kept) = [0x40; 0x41; 0x42].
Proof.
  destruct (split_at_spec demo_split 3) as (other & kept & Hs & Ho & _ & _ & Hk);
    [apply slices_ok_demo; reflexivity|lia|].
  exists other, kept. split; [exact Hs|split; [exact Ho|exact (Hk 1%nat eq_refl)]].
Defined.
End DescUtils.
