(* ===== verification/Block.v ===== *)
(** * The virtio block device
    ([devices/src/virtio/block/worker.rs], [device.rs], [mod.rs],
    [devices/src/virtio/file_traits.rs])

    [Block] is the device of the transport; on activation it hands its queue
    and its disk to a [BlockWorker] thread, which serves read, write, flush and
    identification requests from the queue against a file of the host.  The
    host file system is the interface [HostFs]; its laws are the documented
    behaviour of [pread], [pwrite] and [fsync].  State the thread owns (memory,
    disk, interrupt status, host) is in the worker's record while it runs and
    goes back to the device when it is joined. *)

From S2P Require Import Prelude Format GuestMem VirtQueue Mmio DescUtils.
Import VirtQueue DescUtils.

Module Block.

Definition CONFIG_SPACE_SIZE : Z := 8.
Definition SECTOR_SHIFT : Z := 9.
Definition SECTOR_SIZE : Z := 1 .<< SECTOR_SHIFT.
Definition QUEUE_SIZE : Z := 256.
Definition NUM_QUEUES : nat := 1.
Definition QUEUE_SIZES : list Z := [QUEUE_SIZE].
Definition TYPE_BLOCK : Z := 2.
Definition VIRTIO_MMIO_INT_VRING : Z := 1.

(** Constants of the virtio specification. *)
Definition VIRTIO_BLK_T_IN : Z := 0.
Definition VIRTIO_BLK_T_OUT : Z := 1.
Definition VIRTIO_BLK_T_FLUSH : Z := 4.
Definition VIRTIO_BLK_T_GET_ID : Z := 8.
Definition VIRTIO_BLK_S_OK : Z := 0.
Definition VIRTIO_BLK_S_IOERR : Z := 1.
Definition VIRTIO_BLK_ID_BYTES : nat := 20.
Definition VIRTIO_BLK_F_SEG_MAX : Z := 2.
Definition VIRTIO_BLK_F_RO : Z := 5.
Definition VIRTIO_BLK_F_FLUSH : Z := 9.
Definition VIRTIO_RING_F_EVENT_IDX : Z := 29.
Definition VIRTIO_F_VERSION_1 : Z := 32.

(** ** The host *)

(** Bytes written at an offset of a file: a gap is filled with zeros. *)
Definition file_write (content : list byte) (off : nat) (bs : list byte) : list byte :=
  match bs with
  | [] => content
  | _ => take off content ++ replicate (off - length content) 0 ++ bs ++ drop (off + length bs) content
  end.

Class HostFs (W Fd : Type) := {
  (** [OpenOptions::open], by path and read-only flag *)
  fs_open : W -> list byte -> bool -> result IoError Fd;
  (** [seek(SeekFrom::End(0))] *)
  fs_size : W -> Fd -> result IoError Z;
  (** [metadata]: [st_dev], [st_rdev], [st_ino] *)
  fs_meta : W -> Fd -> option (Z * Z * Z);
  (** [preadv64] of at most [n] bytes at an offset *)
  fs_pread : W -> Fd -> Z -> Z -> result IoError (list byte);
  (** [pwritev64]: the number of bytes written *)
  fs_pwrite : W -> Fd -> Z -> list byte -> result IoError Z * W;
  (** [fsync] *)
  fs_sync : W -> Fd -> result IoError unit * W;
  (** The bytes of the file, and those that would survive a crash of the host *)
  fs_content : W -> Fd -> list byte;
  fs_durable : W -> Fd -> list byte;
}.

Class HostFsLaws (W Fd : Type) `{HostFs W Fd} : Prop := {
  fs_content_ok w fd : bytes_ok (fs_content w fd);
  fs_pread_spec w fd off n bs : fs_pread w fd off n = Ok bs ->
    0 <= off /\ Zlength bs <= n /\ bs = take (length bs) (drop (Z.to_nat off) (fs_content w fd));
  fs_pwrite_spec w fd off bs n w' : fs_pwrite w fd off bs = (Ok n, w') ->
    0 <= off /\ 0 <= n <= Zlength bs /\
    fs_content w' fd = file_write (fs_content w fd) (Z.to_nat off) (take (Z.to_nat n) bs);
  fs_pwrite_err w fd off bs e w' : fs_pwrite w fd off bs = (Err e, w') ->
    fs_content w' fd = fs_content w fd;
  fs_sync_spec w fd r w' : fs_sync w fd = (r, w') ->
    fs_content w' fd = fs_content w fd /\ (r = Ok tt -> fs_durable w' fd = fs_content w fd);
}.

(** ** Disk properties *)

Inductive CacheType := Unsafe | Writeback.

Inductive RequestError :=
| FlushingToDisk (e : IoError)
| InvalidDataLength
| ReadingFromDescriptor (e : IoError)
| WritingToDescriptor (e : IoError)
| UnknownRequest.

Record RequestHeader := mkHeader { request_type : Z; _reserved : Z; sector : Z }.

(** [repr(C)], little-endian: 16 bytes. *)
Definition decode_header (bs : list byte) : RequestHeader :=
  mkHeader (le_val (slice bs 0 4)) (le_val (slice bs 4 4)) (le_val (slice bs 8 8)).

Definition REQUEST_HEADER_SIZE : nat := 16.

Section block.
Context {M W Fd : Type} `{GuestMemory M} `{HostFs W Fd}.
(** Whether the [n]-th write to the interrupt event descriptor succeeds. *)
Context (irq_ok : nat -> bool).

Record DiskProperties := mkDisk {
  cache_type : CacheType;
  file : Fd;
  nsectors : Z;
  image_id : list byte;
}.

Definition build_device_id (w : W) (fd : Fd) : option (list byte) :=
  '(dev, rdev, ino) ← fs_meta w fd;
  Some (decimal dev ++ decimal rdev ++ decimal ino).

Definition build_disk_image_id (w : W) (fd : Fd) : list byte :=
  let default_id := replicate VIRTIO_BLK_ID_BYTES 0 in
  match build_device_id w fd with
  | None => default_id
  | Some disk_id =>
      let bytes_to_copy := Nat.min (length disk_id) VIRTIO_BLK_ID_BYTES in
      take bytes_to_copy disk_id ++ drop bytes_to_copy default_id
  end.

Definition DiskProperties_new (w : W) (path : list byte) (ro : bool) (ct : CacheType)
    : result IoError DiskProperties :=
  fd ← fs_open w path ro;
  disk_size ← fs_size w fd;
  Ok (mkDisk ct fd (disk_size .>> SECTOR_SHIFT) (build_disk_image_id w fd)).

(** [Drop]: [flush] of a [File] does nothing; errors are logged. *)
Definition drop_disk (w : W) (d : DiskProperties) : W :=
  match cache_type d with
  | Writeback => (fs_sync w (file d)).2
  | Unsafe => w
  end.

(** ** Vectored transfers of [File] ([file_traits.rs])

    The offset is cast to a signed [off64_t]; no call is made without
    buffers. *)

(** [read_vectored_at_volatile]: the kernel fills the buffers in order. *)
Definition read_vectored_at (w : W) (fd : Fd) (off : Z) (bufs : list VolatileSlice) (m : M)
    : outcome (result IoError Z * M) :=
  match bufs with
  | [] => Ret (Ok 0, m)
  | _ =>
      match fs_pread w fd (to_signed 64 off) (total bufs) with
      | Err e => Ret (Err e, m)
      | Ok bs => '(_, m) ← copy_to m bufs bs; Ret (Ok (Zlength bs), m)
      end
  end.

(** [write_vectored_at_volatile] *)
Definition write_vectored_at (m : M) (fd : Fd) (off : Z) (bufs : list VolatileSlice) (w : W)
    : outcome (result IoError Z * W) :=
  match bufs with
  | [] => Ret (Ok 0, w)
  | _ => bs ← copy_from m bufs (total bufs); Ret (fs_pwrite w fd (to_signed 64 off) bs)
  end.

(** [Writer::write_from_at] and [Reader::read_to_at] on a file. *)
Definition write_from_at (c : DescriptorChainConsumer) (w : W) (fd : Fd) (count off : Z) (m : M)
    : outcome (result IoError Z * DescriptorChainConsumer * M) :=
  consume c count (read_vectored_at w fd off) m.

Definition read_to_at (m : M) (c : DescriptorChainConsumer) (fd : Fd) (count off : Z) (w : W)
    : outcome (result IoError Z * DescriptorChainConsumer * W) :=
  consume c count (write_vectored_at m fd off) w.

(** ** The worker *)

Record BlockWorker := mkWorker {
  queue : Queue;
  interrupt_status : Z;
  (** interrupts delivered, through the controller or the event descriptor *)
  irqs : nat;
  intc : bool;
  irq_line : option Z;
  mem : M;
  disk : DiskProperties;
  host : W;
}.

Definition set_queue (bw : BlockWorker) (q : Queue) : BlockWorker :=
  mkWorker q (interrupt_status bw) (irqs bw) (intc bw) (irq_line bw) (mem bw) (disk bw) (host bw).

Definition set_mem (bw : BlockWorker) (m : M) : BlockWorker :=
  mkWorker (queue bw) (interrupt_status bw) (irqs bw) (intc bw) (irq_line bw) m (disk bw) (host bw).

Definition set_host (bw : BlockWorker) (w : W) : BlockWorker :=
  mkWorker (queue bw) (interrupt_status bw) (irqs bw) (intc bw) (irq_line bw) (mem bw) (disk bw) w.

Definition set_irq (bw : BlockWorker) (status : Z) (n : nat) : BlockWorker :=
  mkWorker (queue bw) status n (intc bw) (irq_line bw) (mem bw) (disk bw) (host bw).

Definition signal_used_queue (bw : BlockWorker) : outcome (result unit unit * BlockWorker) :=
  let bw := set_irq bw (interrupt_status bw .| VIRTIO_MMIO_INT_VRING) (irqs bw) in
  if intc bw then
    _ ← unwrap (irq_line bw);
    Ret (Ok tt, set_irq bw (interrupt_status bw) (S (irqs bw)))
  else if irq_ok (irqs bw) then Ret (Ok tt, set_irq bw (interrupt_status bw) (S (irqs bw)))
  else Ret (Err tt, bw).

(** The outcome of the request, and what is left of the writer; the reader is
    dropped afterwards. *)
Definition process_request (bw : BlockWorker) (h : RequestHeader)
    (reader writer : DescriptorChainConsumer)
    : outcome (result RequestError Z * DescriptorChainConsumer * BlockWorker) :=
  if request_type h =? VIRTIO_BLK_T_IN then
    let data_len := available_bytes writer -[64] 1 in
    if negb (data_len mod 512 =? 0) then Ret (Err InvalidDataLength, writer, bw)
    else
      '(r, writer, m) ← write_from_at writer (host bw) (file (disk bw)) data_len
                          (wrap 64 (sector h * 512)) (mem bw);
      Ret (map_err WritingToDescriptor r, writer, set_mem bw m)
  else if request_type h =? VIRTIO_BLK_T_OUT then
    let data_len := available_bytes reader in
    if negb (data_len mod 512 =? 0) then Ret (Err InvalidDataLength, writer, bw)
    else
      '(r, _, w) ← read_to_at (mem bw) reader (file (disk bw)) data_len
                     (wrap 64 (sector h * 512)) (host bw);
      Ret (map_err ReadingFromDescriptor r, writer, set_host bw w)
  else if request_type h =? VIRTIO_BLK_T_FLUSH then
    match cache_type (disk bw) with
    | Writeback =>
        let '(r, w) := fs_sync (host bw) (file (disk bw)) in
        Ret (_ ← map_err FlushingToDisk r; Ok 0, writer, set_host bw w)
    | Unsafe => Ret (Ok 0, writer, bw)
    end
  else if request_type h =? VIRTIO_BLK_T_GET_ID then
    let data_len := available_bytes writer in
    let disk_id := image_id (disk bw) in
    if data_len <? Zlength disk_id then Ret (Err InvalidDataLength, writer, bw)
    else
      '(r, writer, m) ← write_all (length disk_id) (mem bw) writer disk_id;
      Ret (_ ← map_err WritingToDescriptor r; Ok (Zlength disk_id), writer, set_mem bw m)
  else Ret (Err UnknownRequest, writer, bw).

(** The body of the loop up to the status byte; [None] is a [continue]: the
    chain is not answered. *)
Definition serve (bw : BlockWorker) (head : DescriptorChain) : outcome (option Z * BlockWorker) :=
  reader ← Reader_new (mem bw) head;
  match reader with
  | Err _ => Ret (None, bw)
  | Ok reader =>
      writer ← Writer_new (mem bw) head;
      match writer with
      | Err _ => Ret (None, bw)
      | Ok writer =>
          '(header, reader) ← read_obj (mem bw) reader REQUEST_HEADER_SIZE;
          match header with
          | Err _ => Ret (None, bw)
          | Ok bs =>
              '(r, writer, bw) ← process_request bw (decode_header bs) reader writer;
              let '(status, len) :=
                match r with
                | Ok l => (VIRTIO_BLK_S_OK, l)
                | Err _ => (VIRTIO_BLK_S_IOERR, 0)
                end in
              '(_, _, m) ← write_obj (mem bw) writer [status];
              Ret (Some len, set_mem bw m)
          end
      end
  end.

(** The rest of the body: completion and notification. *)
Definition complete (bw : BlockWorker) (head : DescriptorChain) (len : Z) : outcome BlockWorker :=
  let '(_, q, m) := add_used (mem bw) (queue bw) (VirtQueue.index head) (wrap 32 len) in
  let '(needs, q) := needs_notification m q in
  let bw := set_queue (set_mem bw m) q in
  match needs with
  | Err _ => Panic
  | Ok true => '(_, bw) ← signal_used_queue bw; Ret bw
  | Ok false => Ret bw
  end.

(** One round of the [while let] loop; [false] when the queue gave nothing. *)
Definition process_round (bw : BlockWorker) : outcome (bool * BlockWorker) :=
  '(h, q) ← pop (mem bw) (queue bw);
  let bw := set_queue bw q in
  match h with
  | None => Ret (false, bw)
  | Some head =>
      '(len, bw) ← serve bw head;
      match len with
      | None => Ret (true, bw)
      | Some len => bw ← complete bw head len; Ret (true, bw)
      end
  end.

(** [None] is a loop still running after [fuel] rounds. *)
Definition process_queue : nat -> BlockWorker -> option (outcome BlockWorker) := round_loop process_round.

Fixpoint process_virtio_queues (fuel : nat) (bw : BlockWorker) : option (outcome BlockWorker) :=
  match fuel with
  | O => None
  | S fuel =>
      match disable_notification (mem bw) (queue bw) with
      | Err _ => Some Panic
      | Ok m =>
          match process_queue (S fuel) (set_mem bw m) with
          | None => None
          | Some Panic => Some Panic
          | Some (Ret bw) =>
              match enable_notification (mem bw) (queue bw) with
              | Err _ => Some Panic
              | Ok (again, m) =>
                  let bw := set_mem bw m in
                  if again then process_virtio_queues fuel bw else Some (Ret bw)
              end
          end
      end
  end.

(** [queue_evt] may fail to be read, which is logged. *)
Definition process_queue_event (fuel : nat) (evt_readable : bool) (bw : BlockWorker)
    : option (outcome BlockWorker) :=
  if evt_readable then process_virtio_queues fuel bw else Some (Ret bw).

(** One event of the worker's epoll loop, from a descriptor and its event set;
    [None] in the first component: the thread returned. *)
Inductive source := VirtqEv | StopEv | OtherEv.

Definition EV_IN : Z := 1.

Definition work_event (fuel : nat) (evt_readable : bool) (src : source) (event_set : Z) (bw : BlockWorker)
    : option (outcome (bool * BlockWorker)) :=
  match src with
  | VirtqEv =>
      if event_set =? EV_IN then
        o ← process_queue_event fuel evt_readable bw;
        Some (bw ← o; Ret (true, bw))
      else Some (Ret (true, bw))
  | StopEv => Some (Ret (negb (event_set =? EV_IN), bw))
  | OtherEv => Some (Ret (true, bw))
  end.

(** ** The device *)

Record VirtioBlkConfig := mkConfig { capacity : Z; size_max : Z; seg_max : Z }.

(** [repr(C, packed)]: 16 bytes. *)
Definition config_bytes (c : VirtioBlkConfig) : list byte :=
  le_bytes 8 (capacity c) ++ le_bytes 4 (size_max c) ++ le_bytes 4 (seg_max c).

Record Block := mkBlock {
  b_id : list byte;
  b_partuuid : option (list byte);
  b_config : VirtioBlkConfig;
  b_disk : option DiskProperties;
  b_cache_type : CacheType;
  disk_image_path : list byte;
  is_disk_read_only : bool;
  b_avail_features : Z;
  b_acked_features : Z;
  b_interrupt_status : Z;
  b_irqs : nat;
  b_queues : list Queue;
  (** [DeviceState]: [None] is [Inactive] *)
  device_state : option M;
  b_intc : bool;
  b_irq_line : option Z;
  worker_thread : option BlockWorker;
  b_host : W;
}.

Definition Block_new (w : W) (id : list byte) (partuuid : option (list byte)) (ct : CacheType)
    (path : list byte) (ro : bool) : result IoError Block :=
  disk_properties ← DiskProperties_new w path ro ct;
  let avail_features := (1 .<< VIRTIO_F_VERSION_1) .| (1 .<< VIRTIO_BLK_F_FLUSH)
    .| (1 .<< VIRTIO_BLK_F_SEG_MAX) .| (1 .<< VIRTIO_RING_F_EVENT_IDX) in
  let avail_features := if ro then avail_features .| (1 .<< VIRTIO_BLK_F_RO) else avail_features in
  Ok (mkBlock id partuuid (mkConfig (nsectors disk_properties) 0 254) (Some disk_properties) ct path ro
        avail_features 0 0 0 (map Queue_new QUEUE_SIZES) None false None None w).

Definition is_read_only (b : Block) : bool :=
  negb (b_avail_features b .& (1 .<< VIRTIO_BLK_F_RO) =? 0).

(** [data] is a slice of the guest's access: at most 8 bytes; [write_all] into
    a slice shorter than the source would panic, and the source is clipped to
    it. *)
Definition block_read_config (b : Block) (offset : Z) (data : list byte) : list byte :=
  config_read (config_bytes (b_config b)) offset data.

Inductive ActivateError := BadActivate.

Definition set_active (b : Block) (d : option DiskProperties) (qs : list Queue) (st : option M)
    (bw : option BlockWorker) : Block :=
  mkBlock (b_id b) (b_partuuid b) (b_config b) d (b_cache_type b) (disk_image_path b) (is_disk_read_only b)
    (b_avail_features b) (b_acked_features b) (b_interrupt_status b) (b_irqs b) qs st (b_intc b)
    (b_irq_line b) bw (b_host b).

Definition set_features (b : Block) (f : Z) : Block :=
  mkBlock (b_id b) (b_partuuid b) (b_config b) (b_disk b) (b_cache_type b) (disk_image_path b)
    (is_disk_read_only b) (b_avail_features b) f (b_interrupt_status b) (b_irqs b) (b_queues b)
    (device_state b) (b_intc b) (b_irq_line b) (worker_thread b) (b_host b).

Definition set_intc (b : Block) : Block :=
  mkBlock (b_id b) (b_partuuid b) (b_config b) (b_disk b) (b_cache_type b) (disk_image_path b)
    (is_disk_read_only b) (b_avail_features b) (b_acked_features b) (b_interrupt_status b) (b_irqs b)
    (b_queues b) (device_state b) true (b_irq_line b) (worker_thread b) (b_host b).

Definition set_irq_line (b : Block) (irq : Z) : Block :=
  mkBlock (b_id b) (b_partuuid b) (b_config b) (b_disk b) (b_cache_type b) (disk_image_path b)
    (is_disk_read_only b) (b_avail_features b) (b_acked_features b) (b_interrupt_status b) (b_irqs b)
    (b_queues b) (device_state b) (b_intc b) (Some irq) (worker_thread b) (b_host b).

Definition block_activate (b : Block) (m : M) : outcome (result ActivateError Block) :=
  if bool_decide (is_Some (worker_thread b)) then Panic
  else
    match b_queues b with
    | [] => Panic
    | q :: qs =>
        let event_idx := negb (b_acked_features b .& (1 .<< VIRTIO_RING_F_EVENT_IDX) =? 0) in
        let q := set_event_idx q event_idx in
        let d := match b_disk b with
                 | Some d => Ok d
                 | None => DiskProperties_new (b_host b) (disk_image_path b) (is_disk_read_only b) (b_cache_type b)
                 end in
        Ret (match d with
             | Err _ => Err BadActivate
             | Ok d =>
                 let worker := mkWorker q (b_interrupt_status b) (b_irqs b) (b_intc b) (b_irq_line b) m d (b_host b) in
                 Ok (set_active b None (q :: qs) (Some m) (Some worker))
             end)
    end.

(** The thread hands the host state back when it is joined; its disk is
    dropped. *)
Definition block_reset (b : Block) : bool * Block :=
  (true,
   match worker_thread b with
   | Some bw =>
       mkBlock (b_id b) (b_partuuid b) (b_config b) (b_disk b) (b_cache_type b) (disk_image_path b)
         (is_disk_read_only b) (b_avail_features b) (b_acked_features b) (interrupt_status bw) (irqs bw)
         (b_queues b) None (b_intc b) (b_irq_line b) None (drop_disk (host bw) (disk bw))
   | None => set_active b (b_disk b) (b_queues b) None None
   end).

#[export] Instance block_virtio : VirtioDevice Block M := {
  avail_features := b_avail_features;
  acked_features := b_acked_features;
  set_acked_features := set_features;
  device_type _ := TYPE_BLOCK;
  queues := b_queues;
  set_queues b qs := set_active b (b_disk b) qs (device_state b) (worker_thread b);
  interrupt_evt _ := O;
  read_config := block_read_config;
  write_config b _ _ := b;
  activate b m := match block_activate b m with Ret (Ok b) => Some b | _ => None end;
  is_activated b := bool_decide (is_Some (device_state b));
  vd_reset := block_reset;
  shm_region _ := None;
}.

#[export] Instance block_virtio_laws : VirtioDeviceLaws Block M.
Proof.
  split; try done.
  - intros b m b'. cbn. unfold block_activate.
    destruct (bool_decide _); [done|]. destruct (b_queues b); [done|].
    destruct (match b_disk b with Some _ => _ | None => _ end); [|done]. by intros [= <-].
  - intros b. cbn. unfold block_reset. by destruct (worker_thread b).
Qed.
End block.

(** ** Serving one request *)

Section facts.
Context {M W Fd : Type} {GM : GuestMemory M} {GML : GuestMemoryLaws M}.
Context {FS : HostFs W Fd} {FSL : HostFsLaws W Fd}.
Context (irq_ok : nat -> bool).
Abbreviation BlockWorker := (@BlockWorker M W Fd).
Implicit Types (bw : BlockWorker) (m : M) (head : DescriptorChain).

(** A well-formed request: a chain whose readable part starts with a header,
    followed by [data], and whose writable part is the writer [wr], without
    overlaps. *)
Record request m head (hdr data : list byte) (wr : DescriptorChainConsumer) : Prop := {
  rq_head : exists dt qs i, checked_new m dt qs i = Some head;
  rq_reader : exists rd, Reader_new m head = Ret (Ok rd) /\ contents m (buffers rd) = Some (hdr ++ data);
  rq_header : length hdr = REQUEST_HEADER_SIZE;
  rq_writer : Writer_new m head = Ret (Ok wr);
  rq_nodup : NoDup (flat (buffers wr));
}.

(** The part of [serve] after the request. *)
Definition finish (r : result RequestError Z) (writer : DescriptorChainConsumer) bw
    : outcome (option Z * BlockWorker) :=
  let '(status, len) :=
    match r with Ok l => (VIRTIO_BLK_S_OK, l) | Err _ => (VIRTIO_BLK_S_IOERR, 0) end in
  '(_, _, m) ← write_obj (mem bw) writer [status];
  Ret (Some len, set_mem bw m).

Lemma serve_request bw head hdr data wr :
  request (mem bw) head hdr data wr ->
  (slices_ok (buffers wr) /\ is_Some (contents (mem bw) (buffers wr)) /\ bytes_consumed wr = 0) /\
  exists rd, serve bw head = ('(r, writer, bw) ← process_request bw (decode_header hdr) rd wr; finish r writer bw) /\
    slices_ok (buffers rd) /\ contents (mem bw) (buffers rd) = Some data /\
    bytes_consumed rd = Z.of_nat REQUEST_HEADER_SIZE.
Proof.
  intros [(dt & qs & i & Hc) (rd & Hr & Hd) Hh Hw _].
  destruct (reader_writer_new (mem bw) dt qs i head Hc) as [(r1 & Hr1 & Hrd) (r2 & Hr2 & Hwr)].
  rewrite Hr in Hr1. injection Hr1 as <-. rewrite Hw in Hr2. injection Hr2 as <-.
  destruct (Hrd rd eq_refl) as (_ & Hb & Hs & _). destruct (Hwr wr eq_refl) as (_ & Hbw & Hsw & Hcw).
  split; [done|].
  assert (Zlength (hdr ++ data) < 2 ^ 64) as Hl.
  { rewrite (contents_length _ _ _ (proj1 Hs) Hd), <- length_flat by apply Hs. apply Hs. }
  pose proof (read_obj_correct (mem bw) rd REQUEST_HEADER_SIZE (hdr ++ data) Hs Hd ltac:(lia) ltac:(lia)) as Ho.
  rewrite length_app, Hh in Ho. destruct (Nat.leb_spec REQUEST_HEADER_SIZE (REQUEST_HEADER_SIZE + length data)); [|lia].
  destruct Ho as (rd' & Hro & Hd' & Hs' & Hb'). rewrite take_app_length' in Hro by done.
  rewrite drop_app_length' in Hd' by done. exists rd'. split_and!; [|done|done|lia].
  unfold serve. rewrite Hr. cbn [mbind outcome_bind]. rewrite Hw. cbn [mbind outcome_bind].
  rewrite Hro. cbn [mbind outcome_bind]. reflexivity.
Qed.

Lemma request_data_bound m head hdr data wr :
  request m head hdr data wr -> 16 + Zlength data < 2 ^ 64.
Proof.
  intros [(dt & qs & i & Hc) (rd & Hr & Hd) Hh _ _].
  destruct (reader_writer_new m dt qs i head Hc) as [(r1 & Hr1 & Hrd) _].
  rewrite Hr in Hr1. injection Hr1 as <-. destruct (Hrd rd eq_refl) as (_ & _ & Hs & _).
  pose proof (contents_length _ _ _ (proj1 Hs) Hd) as L. rewrite <- length_flat in L by apply Hs.
  rewrite length_app, Hh in L. destruct Hs as [_ Hs]. unfold REQUEST_HEADER_SIZE in *. lia.
Qed.

(** Writing the status: the first byte of what is left of the writer. *)
Lemma finish_writes r writer bw d :
  slices_ok (buffers writer) -> NoDup (flat (buffers writer)) ->
  contents (mem bw) (buffers writer) = Some d -> d <> [] ->
  0 <= bytes_consumed writer -> bytes_consumed writer + Zlength d < 2 ^ 64 ->
  exists m', finish r writer bw = Ret (Some (match r with Ok l => l | Err _ => 0 end), set_mem bw m') /\
    contents m' (buffers writer) =
      Some ((if is_ok r then VIRTIO_BLK_S_OK else VIRTIO_BLK_S_IOERR) :: drop 1 d) /\
    (forall a k, (forall x, a <= x < a + Z.of_nat k -> x ∉ flat (buffers writer)) ->
       gm_read m' a k = gm_read (mem bw) a k).
Proof.
  intros Hs Hnd Hd Hne Hb Hlt. unfold finish.
  set (status := if is_ok r then VIRTIO_BLK_S_OK else VIRTIO_BLK_S_IOERR).
  destruct (write_all_fits (mem bw) writer [status] d) as (c' & m' & Hw & Hc & Hf & _); try done.
  { constructor; [|constructor]. unfold status. by destruct r. }
  { destruct d; [done|]. cbn. lia. }
  exists m'. subst status. destruct r; cbn [is_ok] in *; rewrite Hw; done.
Qed.

Lemma to_signed_small z : 0 <= z < 2 ^ 63 -> to_signed 64 (wrap 64 z) = z.
Proof.
  intros Hz. unfold to_signed. rewrite !wrap_small by (rewrite ?wrap_small; unfold fits; lia).
  case_bool; zify_bool; lia.
Qed.

(** The shape drivers give a read: whole data buffers, then one status byte. *)
Record read_layout (bufs data : list VolatileSlice) (st : VolatileSlice) : Prop := {
  rl_bufs : bufs = data ++ [st];
  rl_data : Forall (fun vs => 0 < vs_len vs) data;
  rl_status : vs_len st = 1;
  rl_some : data <> [];
  rl_sectors : total data mod 512 = 0;
}.

Lemma read_layout_total bufs data st :
  read_layout bufs data st -> slices_ok bufs ->
  total bufs = total data + 1 /\ 0 < total data /\ total data + 1 < 2 ^ 64 /\
  Forall (fun vs => 0 <= vs_len vs) data.
Proof.
  intros [-> Hd Hs Hn Hm] [Hf Hl]. rewrite length_flat in Hl by done.
  rewrite total_app in Hl |- *. cbn [total foldr] in *. fold (total data) in *.
  apply Forall_app in Hf as [Hf _]. destruct data as [|v data]; [done|].
  apply Forall_cons in Hd as [Hv _]. pose proof Hf as [_ Hf']%Forall_cons.
  pose proof (total_nonneg _ Hf'). cbn [total foldr] in *. fold (total data) in *.
  split_and!; (done || lia).
Qed.

(** The transfer of a read: the host is asked for exactly the data buffers. *)
Lemma process_read bw h rd wr data st :
  request_type h = VIRTIO_BLK_T_IN -> slices_ok (buffers wr) -> bytes_consumed wr = 0 ->
  read_layout (buffers wr) data st ->
  process_request bw h rd wr =
    match fs_pread (host bw) (file (disk bw)) (to_signed 64 (wrap 64 (sector h * 512))) (total data) with
    | Err e => Ret (Err (WritingToDescriptor e), wr, set_mem bw (mem bw))
    | Ok bs =>
        '(_, m) ← copy_to (mem bw) data bs;
        '(r, wr, m) ← match checked_add 64 0 (Zlength bs) with
          | None => Ret (Err InvalidData, wr, m)
          | Some t => bufs ← skip_bytes (buffers wr) (Zlength bs); Ret (Ok (Zlength bs), mkConsumer bufs t, m)
          end;
        Ret (map_err WritingToDescriptor r, wr, set_mem bw m)
    end.
Proof.
  intros Ht Hs Hb Hl. destruct (read_layout_total _ _ _ Hl Hs) as (Htot & Hpos & Hlt & _).
  unfold process_request. rewrite Ht, available_bytes_total, Htot by done. cbn [Z.eqb VIRTIO_BLK_T_IN].
  rewrite wrap_small by (unfold fits; lia). replace (total data + 1 - 1) with (total data) by lia.
  rewrite (rl_sectors _ _ _ Hl). cbn [Z.eqb negb].
  unfold write_from_at, consume. 
  assert (gather (buffers wr) (total data) 0 = data) as ->.
  { rewrite (rl_bufs _ _ _ Hl). apply (gather_exact data [st] 0 (rl_data _ _ _ Hl)). }
  destruct data as [|v data]; [by destruct (rl_some _ _ _ Hl)|]. cbn [read_vectored_at].
  destruct (fs_pread _ _ _ _) as [bs|e]; cbn [mbind outcome_bind]; [|done].
  destruct (copy_to _ _ _) as [[t m]|]; cbn [mbind outcome_bind]; [|done]. by rewrite Hb.
Qed.

(** C3. A read request whose sectors the host delivers is served: the data
    buffers hold the bytes of the disk image from the requested sector on, the
    status byte says OK, the reported length is the length of the data, the
    disk is unchanged and so is all guest memory outside the buffers. *)
Theorem block_read_served bw head hdr rest wr data st bs :
  request (mem bw) head hdr rest wr -> request_type (decode_header hdr) = VIRTIO_BLK_T_IN ->
  read_layout (buffers wr) data st ->
  0 <= sector (decode_header hdr) * 512 < 2 ^ 63 ->
  fs_pread (host bw) (file (disk bw)) (sector (decode_header hdr) * 512) (total data) = Ok bs ->
  Zlength bs = total data ->
  exists m', serve bw head = Ret (Some (total data), set_mem bw m') /\
    contents m' data = Some (slice (fs_content (host bw) (file (disk bw)))
                               (Z.to_nat (sector (decode_header hdr) * 512)) (Z.to_nat (total data))) /\
    contents m' [st] = Some [VIRTIO_BLK_S_OK] /\
    (forall a k, (forall x, a <= x < a + Z.of_nat k -> x ∉ flat (buffers wr)) ->
       gm_read m' a k = gm_read (mem bw) a k).
Proof.
  intros Hrq Ht Hl Hsec Hp Hlen. pose proof (rq_nodup _ _ _ _ _ Hrq) as Hnd.
  destruct (serve_request _ _ _ _ _ Hrq) as ((Hs & [d Hd] & Hb) & rd & -> & _).
  destruct (read_layout_total _ _ _ Hl Hs) as (Htot & Hpos & Hlt & Hf).
  rewrite (process_read _ _ _ _ data st Ht Hs Hb Hl), to_signed_small, Hp by done.
  rewrite (rl_bufs _ _ _ Hl) in Hd, Hnd |- *. pose proof (rl_status _ _ _ Hl) as Hst.
  rewrite flat_app, NoDup_app in Hnd. destruct Hnd as (Hnd1 & Hdis & Hnd2).
  apply contents_app in Hd as (d1 & d2 & H1 & H2 & ->).
  apply fs_pread_spec in Hp as (_ & _ & Hbs).
  assert (bytes_ok bs) as Hbok by (rewrite Hbs; apply Forall_take, Forall_drop, fs_content_ok).
  destruct (copy_to_contents (mem bw) data bs d1 Hf Hbok Hnd1 H1) as (m1 & Hcp & Hc1 & Hfr1).
  rewrite Hcp. cbn [mbind outcome_bind]. unfold checked_add.
  destruct (_ <? _) eqn:E; [|zify_bool; lia]. rewrite Hlen, skip_bytes_exact by (done || lia).
  cbn [mbind outcome_bind map_err].
  pose proof (contents_length _ _ _ Hf H1) as Hl1.
  assert (contents m1 [st] = Some d2) as H2'.
  { rewrite <- H2. apply contents_frame. intros a k Hx. apply Hfr1. intros x Hi Hin. apply (Hdis x Hin). auto. }
  assert (Zlength d2 = 1) as Hl2.
  { rewrite (contents_length (mem bw) [st]); [cbn; lia|constructor; [lia|constructor]|done]. }
  assert (flat [st] = vs_flat st) as Hfst by (unfold flat; cbn; by rewrite app_nil_r).
  destruct (finish_writes (Ok (total data)) (mkConsumer [st] (0 + total data)) (set_mem bw m1) d2)
    as (m' & -> & Hc & Hfr); cbn [buffers bytes_consumed mem set_mem] in *; try done;
    [|by intros ->|lia|lia|].
  { split; [constructor; [lia|constructor]|]. rewrite Hfst, length_vs_flat by lia. lia. }
  exists m'. destruct d2 as [|x [|]]; [done| |cbn in Hl2; lia].
  split_and!; [done| |by rewrite Hc|].
  - rewrite (contents_frame m1 m').
    + rewrite Hc1. unfold overlay, slice. rewrite take_ge, drop_ge, app_nil_r, <- Hlen, Nat2Z.id by lia.
      by f_equal.
    + intros a k Hx. apply Hfr. intros y Hi Hin. by apply (Hdis y); [apply Hx|].
  - intros a k Hx. rewrite Hfr, Hfr1; [done|..];
      intros y Hi Hin; apply (Hx y Hi); rewrite flat_app, elem_of_app; auto.
Qed.

(** When the host fails a read, the device does not tell the driver: the
    error status is stored over the first byte of the data and the status byte
    keeps whatever the driver left there. *)
Theorem failed_read_status_misplaced bw head hdr rest wr data st e :
  request (mem bw) head hdr rest wr -> request_type (decode_header hdr) = VIRTIO_BLK_T_IN ->
  read_layout (buffers wr) data st ->
  fs_pread (host bw) (file (disk bw)) (to_signed 64 (wrap 64 (sector (decode_header hdr) * 512)))
    (total data) = Err e ->
  exists m' d, serve bw head = Ret (Some 0, set_mem bw m') /\
    contents (mem bw) data = Some d /\
    contents m' data = Some (VIRTIO_BLK_S_IOERR :: drop 1 d) /\
    contents m' [st] = contents (mem bw) [st].
Proof.
  intros Hrq Ht Hl Hp. pose proof (rq_nodup _ _ _ _ _ Hrq) as Hnd.
  destruct (serve_request _ _ _ _ _ Hrq) as ((Hs & [d Hd] & Hb) & rd & -> & _).
  destruct (read_layout_total _ _ _ Hl Hs) as (Htot & Hpos & Hlt & Hf).
  rewrite (process_read _ _ _ _ data st Ht Hs Hb Hl), Hp. cbn [mbind outcome_bind].
  pose proof (contents_length _ _ _ (proj1 Hs) Hd) as Hlen.
  destruct (finish_writes (Err (WritingToDescriptor e)) wr (set_mem bw (mem bw)) d) as (m' & -> & Hc & _);
    try done; [by intros ->; cbn in Hlen; lia|lia|lia|].
  rewrite (rl_bufs _ _ _ Hl) in Hd, Hc. pose proof Hd as (d1 & d2 & H1 & H2 & ->)%contents_app.
  apply contents_app in Hc as (c1 & c2 & Hc1 & Hc2 & Heq).
  pose proof (contents_length _ _ _ Hf H1) as L1. pose proof (contents_length _ _ _ Hf Hc1) as L2.
  assert (c1 = VIRTIO_BLK_S_IOERR :: drop 1 d1 /\ c2 = d2) as [-> ->].
  { destruct d1 as [|x d1]; [cbn in L1; lia|]. cbn [app drop is_ok] in *. rewrite !drop_0, app_comm_cons in *.
    symmetry in Heq. apply app_inj_1 in Heq; [done|]. cbn [length] in *. lia. }
  exists m', d1. by rewrite H2.
Qed.

Lemma gather_all m bufs d :
  Forall (fun vs => 0 <= vs_len vs) bufs -> contents m bufs = Some d ->
  contents m (gather bufs (Zlength d) 0) = Some d /\
  total (gather bufs (Zlength d) 0) = Zlength d /\
  Forall (fun vs => 0 <= vs_len vs) (gather bufs (Zlength d) 0).
Proof.
  intros Hf Hd. destruct (gather_contents m bufs (Zlength d) d Hf ltac:(lia) Hd) as (d1 & H1 & Ht & Hg).
  destruct (gather_prefix bufs (Zlength d) 0 Hf ltac:(lia)) as (rest & E & _).
  pose proof (contents_length _ _ _ Hg H1) as L1. pose proof (contents_length _ _ _ Hf Hd) as L.
  rewrite E, total_app in L. rewrite E in Hf. apply Forall_app in Hf as [_ Hr].
  pose proof (total_nonneg _ Hr). rewrite Nat2Z.id, firstn_all, take_ge in Ht by lia. subst d1. auto.
Qed.

(** The transfer of a write: the host is handed exactly the data. *)
Lemma process_write bw h rd wr data :
  request_type h = VIRTIO_BLK_T_OUT -> slices_ok (buffers rd) ->
  contents (mem bw) (buffers rd) = Some data -> data <> [] -> Zlength data mod 512 = 0 ->
  bytes_consumed rd + Zlength data < 2 ^ 64 ->
  forall n w, fs_pwrite (host bw) (file (disk bw)) (to_signed 64 (wrap 64 (sector h * 512))) data = (Ok n, w) ->
  process_request bw h rd wr = Ret (Ok n, wr, set_host bw w).
Proof.
  intros Ht Hs Hd Hne Hm Hb n w Hp. pose proof Hs as [Hf _].
  destruct (gather_all _ _ _ Hf Hd) as (Hg & Htot & Hgf). pose proof (fs_pwrite_spec _ _ _ _ _ _ Hp) as (_ & Hn & _).
  unfold process_request. rewrite Ht, (available_bytes_total rd) by done.
  rewrite <- (contents_length _ _ _ Hf Hd), Hm. cbn [Z.eqb VIRTIO_BLK_T_IN VIRTIO_BLK_T_OUT negb].
  unfold read_to_at, consume, write_vectored_at.
  destruct (gather (buffers rd) (Zlength data) 0) as [|v g]; [by injection Hg as <-|].
  rewrite Htot, (copy_from_contents _ _ _ data Hgf) by (done || lia). cbn [mbind outcome_bind].
  rewrite Nat2Z.id, firstn_all, Hp. unfold checked_add.
  destruct (_ <? _) eqn:E; [|zify_bool; lia].
  destruct (skip_bytes_flat (buffers rd) n Hf) as (bufs' & -> & _); [lia|]. done.
Qed.

(** A write request the host accepts is served: the disk image holds the
    data at the requested sector (as much of it as the host reports written)
    and is otherwise unchanged, the status byte says OK, and no other byte of
    guest memory changes. *)
Theorem block_write_served bw head hdr data wr st n w :
  request (mem bw) head hdr data wr -> request_type (decode_header hdr) = VIRTIO_BLK_T_OUT ->
  buffers wr = [st] -> vs_len st = 1 -> data <> [] -> Zlength data mod 512 = 0 ->
  0 <= sector (decode_header hdr) * 512 < 2 ^ 63 ->
  fs_pwrite (host bw) (file (disk bw)) (sector (decode_header hdr) * 512) data = (Ok n, w) ->
  exists m', serve bw head = Ret (Some n, set_mem (set_host bw w) m') /\
    fs_content w (file (disk bw)) =
      file_write (fs_content (host bw) (file (disk bw))) (Z.to_nat (sector (decode_header hdr) * 512))
        (take (Z.to_nat n) data) /\
    contents m' [st] = Some [VIRTIO_BLK_S_OK] /\
    (forall a k, (forall x, a <= x < a + Z.of_nat k -> x <> vs_addr st) ->
       gm_read m' a k = gm_read (mem bw) a k).
Proof.
  intros Hrq Ht Hst Hl1 Hne Hm Hsec Hp. pose proof (rq_nodup _ _ _ _ _ Hrq) as Hnd.
  destruct (serve_request _ _ _ _ _ Hrq) as ((Hs & [d Hd] & Hb) & rd & -> & Hsr & Hdr & Hbr).
  pose proof (contents_length _ _ _ (proj1 Hs) Hd) as Hlen. rewrite Hst in Hlen. cbn in Hlen.
  assert (16 + Zlength data < 2 ^ 64) as Hlim by by eapply request_data_bound.
  rewrite (process_write _ _ rd wr data Ht Hsr Hdr Hne Hm ltac:(rewrite Hbr; exact Hlim) n w)
    by by rewrite to_signed_small.
  cbn [mbind outcome_bind].
  destruct (finish_writes (Ok n) wr (set_host bw w) d) as (m' & -> & Hc & Hfr);
    try done; [by intros ->; cbn in Hlen; lia|lia|lia|].
  exists m'. rewrite Hst in Hc, Hfr. apply fs_pwrite_spec in Hp as (_ & _ & Hcont).
  destruct d as [|x [|]]; [cbn in Hlen; lia| |cbn in Hlen; lia].
  split_and!; [done|done|by rewrite Hc|].
  intros a k Hx. apply Hfr. intros y Hi Hin. apply (Hx y Hi).
  unfold flat in Hin. cbn in Hin. rewrite app_nil_r in Hin. apply elem_of_vs_flat in Hin. lia.
Qed.

(** ** The queue loop *)

Lemma process_request_queue bw h rd wr r wr' bw' :
  process_request bw h rd wr = Ret (r, wr', bw') -> queue bw' = queue bw.
Proof.
  unfold process_request. intros Hp. repeat case_bool; repeat case_match; simplify_eq; try done.
  - destruct (write_from_at _ _ _ _ _ _) as [[[? ?] ?]|]; cbn in Hp; [|done]. by simplify_eq.
  - destruct (read_to_at _ _ _ _ _ _) as [[[? ?] ?]|]; cbn in Hp; [|done]. by simplify_eq.
  - destruct (write_all _ _ _ _) as [[[? ?] ?]|]; cbn in Hp; [|done]. by simplify_eq.
Qed.

Lemma serve_queue bw head len bw' : serve bw head = Ret (len, bw') -> queue bw' = queue bw.
Proof.
  unfold serve. intros Hs.
  destruct (Reader_new _ _) as [[rd|]|]; cbn [mbind outcome_bind] in Hs; [|by simplify_eq|done].
  destruct (Writer_new _ _) as [[wr|]|]; cbn [mbind outcome_bind] in Hs; [|by simplify_eq|done].
  destruct (read_obj _ _ _) as [[[bs|] rd']|]; cbn [mbind outcome_bind] in Hs; [|by simplify_eq|done].
  destruct (process_request _ _ _ _) as [[[r wr'] bw1]|] eqn:Ep; cbn [mbind outcome_bind] in Hs; [|done].
  apply process_request_queue in Ep. destruct r; cbn [mbind outcome_bind] in Hs;
    (destruct (write_obj _ _ _) as [[[? ?] ?]|]; cbn [mbind outcome_bind] in Hs; [|done]); by simplify_eq.
Qed.

Lemma signal_used_queue_rest bw r bw' :
  signal_used_queue irq_ok bw = Ret (r, bw') ->
  queue bw' = queue bw /\ mem bw' = mem bw /\ disk bw' = disk bw /\ host bw' = host bw.
Proof.
  unfold signal_used_queue. cbn. intros Hs. repeat case_bool; simplify_eq; try done.
  destruct (irq_line bw); cbn in Hs; by simplify_eq.
Qed.

Lemma complete_next_avail bw head len bw' :
  complete irq_ok bw head len = Ret bw' -> next_avail (queue bw') = next_avail (queue bw).
Proof.
  unfold complete. destruct (add_used _ _ _ _) as [[? q] m] eqn:Ea.
  destruct (needs_notification m q) as [needs q'] eqn:En.
  assert (next_avail q' = next_avail (queue bw)) as Hq.
  { apply add_used_next_avail in Ea. rewrite <- Ea. unfold needs_notification in En.
    repeat case_match; by simplify_eq. }
  destruct needs as [[]|]; cbn; [|by intros [= <-]|done].
  destruct (signal_used_queue _ _) as [[rs bw1]|] eqn:Es; cbn; [|done].
  apply signal_used_queue_rest in Es as [Hs _]. intros [= <-]. by rewrite Hs.
Qed.

Lemma process_round_go bw bw' :
  process_round irq_ok bw = Ret (true, bw') ->
  exists c q, pop (mem bw) (queue bw) = Ret (Some c, q) /\ next_avail (queue bw') = next_avail q.
Proof.
  unfold process_round. destruct (pop _ _) as [[[head|] q]|] eqn:Epop; cbn [mbind outcome_bind]; [|done..].
  destruct (serve _ head) as [[len bw1]|] eqn:Es; cbn [mbind outcome_bind]; [|done].
  apply serve_queue in Es. destruct len as [len|].
  - destruct (complete _ _ _ _) as [bw2|] eqn:Ec; cbn [mbind outcome_bind]; [|done].
    intros [= <-]. apply complete_next_avail in Ec. exists head, q. by rewrite Ec, Es.
  - intros [= <-]. exists head, q. by rewrite Es.
Qed.

Lemma process_round_stop bw bw' :
  process_round irq_ok bw = Ret (false, bw') ->
  bw' = bw /\ pop (mem bw) (queue bw) = Ret (None, queue bw).
Proof.
  unfold process_round. destruct (pop _ _) as [[[head|] q]|] eqn:Epop; cbn [mbind outcome_bind]; [|..|done].
  - destruct (serve _ head) as [[[len|] bw1]|]; cbn [mbind outcome_bind]; [|done..].
    by destruct (complete _ _ _ _).
  - apply pop_result in Epop as Hq. subst q. intros [= <-]. by destruct bw.
Qed.

Definition queue_view bw : M * Queue := (mem bw, queue bw).

Lemma process_round_pops : pops_one (process_round irq_ok) queue_view.
Proof.
  intros bw [] bw' Hr; [by apply process_round_go in Hr|by apply process_round_stop in Hr].
Qed.

(** The request loop terminates within one round more than the driver has
    published requests, whatever the requests are, and stops only when the
    queue yields no further chain. *)
Theorem process_queue_drains fuel bw :
  index_kept (process_round irq_ok) queue_view bw -> outstanding (mem bw) (queue bw) < Z.of_nat fuel ->
  exists o, process_queue irq_ok fuel bw = Some o /\
    forall bw', o = Ret bw' -> pop (mem bw') (queue bw') = Ret (None, queue bw').
Proof. apply (round_loop_drains _ _ fuel bw process_round_pops). Qed.

(** A driver that publishes a head index outside the descriptor table makes
    the worker spin: [pop] yields nothing without moving on, and re-enabling
    notifications reports the same pending entry, so the outer loop never
    ends, with any fuel. *)
Theorem invalid_head_spins bw avail (hd : Z) :
  avail_ok (mem bw) (queue bw) -> used_ok (mem bw) (queue bw) ->
  avail_ring (queue bw) + (6 + 2 * size (queue bw)) <= used_ring (queue bw) ->
  avail_idx (mem bw) (queue bw) = Ok avail -> avail <> next_avail (queue bw) ->
  avail_slot (mem bw) (queue bw) (next_avail (queue bw)) = Some hd -> size (queue bw) <= hd ->
  forall fuel, process_virtio_queues irq_ok fuel bw = None.
Proof.
  intros Hao Huo Hsep Ha Hne Hh Hout fuel. revert bw Hao Huo Hsep Ha Hne Hh Hout.
  induction fuel as [|fuel IH]; intros bw Hao Huo Hsep Ha Hne Hh Hout; [done|].
  cbn [process_virtio_queues].
  destruct (set_notification_total (mem bw) (queue bw) false Huo) as (m1 & Hd & Hok1 & Hfr1).
  unfold disable_notification. rewrite Hd.
  destruct (avail_ring_frame (mem bw) m1 (queue bw) Hao) as (Hao1 & Ha1 & Hs1).
  { intros a n Hr. apply Hfr1. lia. }
  assert (process_queue irq_ok (S fuel) (set_mem bw m1) = Some (Ret (set_mem bw m1))) as ->.
  { unfold process_queue. cbn [round_loop]. unfold process_round. cbn [mem queue set_mem].
    rewrite (pop_exact m1 _ avail hd Hao1) by congruence.
    rewrite (checked_new_out m1) by done. destruct (avail =? _); [done|]. by destruct bw. }
  cbn [mem queue set_mem].
  destruct (set_notification_total m1 (queue bw) true Hok1) as (m2 & He & Hok2 & Hfr2).
  destruct (avail_ring_frame m1 m2 (queue bw) Hao1) as (Hao2 & Ha2 & Hs2).
  { intros a n Hr. apply Hfr2. lia. }
  unfold enable_notification. rewrite He. cbn [mbind result_bind]. rewrite Ha2, Ha1, Ha.
  cbn [mbind result_bind]. rewrite (proj2 (Z.eqb_neq _ _) Hne). cbn [negb].
  apply (IH (set_mem (set_mem bw m1) m2)); cbn [mem queue set_mem]; try done; congruence.
Qed.

(** ** Completion *)

(** Completing a request publishes it: exactly one element, the head of the
    chain with the length of the transfer, is appended to the used ring, and
    without event-index suppression the interrupt bit is raised; the worker
    does not panic. *)
Theorem completion_published bw head len l :
  used_ok (mem bw) (queue bw) -> avail_ok (mem bw) (queue bw) -> size (queue bw) <= 2 ^ 16 ->
  0 <= VirtQueue.index head < size (queue bw) -> used_log (mem bw) (queue bw) l ->
  Zlength l < size (queue bw) -> (intc bw = true -> irq_line bw <> None) ->
  exists bw', complete irq_ok bw head len = Ret bw' /\
    used_log (mem bw') (queue bw') (l ++ [(VirtQueue.index head, wrap 32 len)]) /\
    (event_idx_enabled (queue bw) = false -> Z.testbit (interrupt_status bw') 0 = true) /\
    host bw' = host bw.
Proof.
  intros Huo Hao Hsz Hh Hlog Hl Hirq.
  destruct (add_used_effect (mem bw) (queue bw) (VirtQueue.index head) (wrap 32 len) Huo Hh)
    as (m1 & m2 & Hm1 & Hm2 & Hadd); [apply wrap_fits; lia|].
  unfold complete. rewrite Hadd. set (q := set_used_state _ _ _).
  assert (used_log m2 q (l ++ [(VirtQueue.index head, wrap 32 len)])) as Hlog'.
  { eapply add_used_log; try done. apply wrap_fits. lia. }
  assert (exists b n, needs_notification m2 q = (Ok b, set_used_state q (next_used q) n) /\
    (event_idx_enabled (queue bw) = false -> b = true)) as (b & n & Hnn & Hb).
  { unfold needs_notification. cbn [event_idx_enabled set_used_state q].
    destruct (event_idx_enabled (queue bw)); [|exists true; eexists; split; [f_equal; by destruct q|done]].
    destruct (used_event_total m2 q) as [ev ->]; [|by eexists _, _].
    destruct Hao as [? ? ? ? Hrd ?]. split; try done. cbn.
    eapply gm_write_domain; [by eapply gm_store16_write|]. by eapply gm_write_domain. }
  rewrite Hnn. destruct b.
  - unfold signal_used_queue. cbn [intc set_irq set_queue set_mem irqs irq_line interrupt_status].
    assert (Z.testbit (interrupt_status bw .| VIRTIO_MMIO_INT_VRING) 0 = true) as Hbit
      by by rewrite Z.lor_spec, orb_true_r.
    destruct (intc bw).
    + destruct (irq_line bw); [|by destruct Hirq]. cbn [mbind outcome_bind unwrap]. eexists. split; [done|]. done.
    + destruct (irq_ok (irqs bw)); cbn [mbind outcome_bind]; eexists; (split; [done|]); done.
  - eexists. split; [done|]. split; [done|]. split; [|done]. intros He. by specialize (Hb He).
Qed.

(** ** Durability *)

(** A flush of a write-back disk that the host accepts makes the image
    durable; a reset does the same for the disk it closes and leaves the
    device ready for another activation. *)
Lemma flush_durable bw h rd wr w :
  request_type h = VIRTIO_BLK_T_FLUSH -> cache_type (disk bw) = Writeback ->
  fs_sync (host bw) (file (disk bw)) = (Ok tt, w) ->
  process_request bw h rd wr = Ret (Ok 0, wr, set_host bw w) /\
  fs_durable w (file (disk bw)) = fs_content (host bw) (file (disk bw)).
Proof.
  intros Ht Hc Hs. unfold process_request. rewrite Ht, Hc, Hs. split; [done|].
  apply fs_sync_spec in Hs as [_ Hd]. by apply Hd.
Qed.

(** Resetting an active device stops its worker and syncs the image, and
    the device can be activated again: it reopens the image instead of
    panicking, and the reopened worker sees every byte written before. *)
Theorem reset_then_activate (b : @Block M W Fd) bw m fd sz :
  worker_thread b = Some bw -> b_disk b = None -> b_queues b <> [] -> cache_type (disk bw) = Writeback ->
  fs_open (drop_disk (host bw) (disk bw)) (disk_image_path b) (is_disk_read_only b) = Ok fd ->
  fs_size (drop_disk (host bw) (disk bw)) fd = Ok sz ->
  exists b' bw', block_activate (block_reset b).2 m = Ret (Ok b') /\ worker_thread b' = Some bw' /\
    file (disk bw') = fd /\ nsectors (disk bw') = sz .>> SECTOR_SHIFT /\
    fs_content (host bw') (file (disk bw)) = fs_content (host bw) (file (disk bw)) /\
    ((fs_sync (host bw) (file (disk bw))).1 = Ok tt ->
       fs_durable (host bw') (file (disk bw)) = fs_content (host bw) (file (disk bw))).
Proof.
  intros Hw Hd Hq Hc Ho Hs. unfold block_reset, block_activate. rewrite Hw. cbn.
  destruct (b_queues b) as [|q qs]; [done|]. rewrite Hd. unfold DiskProperties_new. rewrite Ho.
  cbn [mbind result_bind]. rewrite Hs. cbn. do 2 eexists. split; [done|]. cbn. split_and!; try done;
    unfold drop_disk; rewrite Hc; destruct (fs_sync _ _) as [r w] eqn:Es;
    apply fs_sync_spec in Es as [Hcc Hdd]; cbn; [done|]. intros ->. by apply Hdd.
Qed.
End facts.

(** ** A concrete host: one image, with what is on the medium *)

Definition img (l : list Z) : list byte := map (wrap 8) l.

Lemma img_ok l : bytes_ok (img l).
Proof. apply Forall_map, Forall_true. intros x. apply wrap_fits. lia. Qed.

Lemma file_write_ok c off bs : bytes_ok c -> bytes_ok bs -> bytes_ok (file_write c off bs).
Proof.
  intros Hc Hb. unfold file_write. destruct bs; [done|]. unfold bytes_ok in *.
  rewrite !Forall_app. split_and!; [by apply Forall_take|apply Forall_replicate; by unfold fits|done|by apply Forall_drop].
Qed.

Record Image := mkImage { im_content : list Z; im_medium : list Z }.

#[export] Instance image_fs : HostFs Image unit := {
  fs_open _ _ _ := Ok tt;
  fs_size w _ := Ok (Zlength (im_content w));
  fs_meta _ _ := Some (1, 0, 42);
  fs_pread w _ off n :=
    if (off <? 0) || (n <? 0) then Err OtherIo else Ok (take (Z.to_nat n) (drop (Z.to_nat off) (img (im_content w))));
  fs_pwrite w _ off bs :=
    if (off <? 0) || negb (forallb (fitsb 8) bs) then (Err OtherIo, w)
    else (Ok (Zlength bs), mkImage (file_write (img (im_content w)) (Z.to_nat off) bs) (im_medium w));
  fs_sync w _ := (Ok tt, mkImage (im_content w) (im_content w));
  fs_content w _ := img (im_content w);
  fs_durable w _ := img (im_medium w);
}.

Lemma forallb_fitsb bs : forallb (fitsb 8) bs = true -> bytes_ok bs.
Proof.
  induction bs as [|b bs IH]; intros Hb; [constructor|]. cbn in Hb. apply andb_true_iff in Hb as [Hb Hr].
  constructor; [|by apply IH]. unfold fitsb in Hb. unfold fits. zify_bool. lia.
Qed.

#[export] Instance image_fs_laws : HostFsLaws Image unit.
Proof.
  split; cbn.
  - intros w _. apply img_ok.
  - intros w _ off n bs. case_bool; [done|]. zify_bool. intros [= <-]. split; [done|].
    rewrite length_take. split; [lia|]. set (l := drop _ _).
    destruct (Nat.le_gt_cases (Z.to_nat n) (length l)).
    + by rewrite Nat.min_l.
    + by rewrite Nat.min_r, !take_ge by lia.
  - intros w _ off bs n w'. case_bool; [done|]. zify_bool. intros [= <- <-]. cbn. split; [done|].
    split; [lia|]. rewrite Nat2Z.id, firstn_all. apply map_wrap_bytes, file_write_ok; [apply img_ok|by apply forallb_fitsb].
  - intros w _ off bs e w'. case_bool; [|done]. by intros [= <- <-].
  - intros w _ r w' [= <- <-]. done.
Qed.

(** ** Witnesses: a four-entry queue with one request of three descriptors

    Descriptor table at 0, available ring at 64, used ring at 80, header at 128,
    one sector at 144 and the status byte at 656. *)

Definition desc (addr len flags next : Z) : list byte :=
  le_bytes 8 addr ++ le_bytes 4 len ++ le_bytes 2 flags ++ le_bytes 2 next.

(** [kind]: request type; [dir]: flags of the data buffer; [hd]: published head. *)
Definition demo_mem (kind dir hd : Z) : FlatMem := mkFlat 0
  (desc 128 16 1 1 ++ desc 144 512 (1 + dir) 2 ++ desc 656 1 2 0 ++ desc 0 0 0 0 ++
   (le_bytes 2 0 ++ le_bytes 2 1 ++ le_bytes 2 hd ++ replicate 8 0) ++ replicate 2 0 ++
   replicate 48 0 ++
   (le_bytes 4 kind ++ le_bytes 4 0 ++ le_bytes 8 1) ++ replicate 512 5 ++ replicate 16 255).

Definition demo_queue : Queue := {|
  max_size := 4; size := 4; ready := true; q_desc_table := 0; avail_ring := 64;
  used_ring := 80; next_avail := 0; next_used := 0; event_idx_enabled := false; num_added := 0 |}.

Definition demo_disk : DiskProperties (Fd:=unit) := mkDisk Writeback tt 2 (replicate 20 48).

Definition demo_image : Image := mkImage (replicate 512 7 ++ replicate 512 9) [].

Definition demo_worker (kind dir hd : Z) : BlockWorker :=
  mkWorker demo_queue 0 0 false None (demo_mem kind dir hd) demo_disk demo_image.

Definition demo_head : DescriptorChain := mkChain 0 4 4 0 128 16 1 1.

Definition demo_data : VolatileSlice := mkVS 144 512.
Definition demo_status : VolatileSlice := mkVS 656 1.

Definition yes (_ : nat) : bool := true.

Ltac ring_ok := split; try (simpl; lia); try done; try (split; vm_compute; congruence).

Lemma block_demo_avail_ok : avail_ok (demo_mem 0 2 0) demo_queue.
Proof. ring_ok. Qed.

Lemma block_demo_used_ok : used_ok (demo_mem 0 2 0) demo_queue.
Proof. ring_ok. split; [simpl; lia|]. by exists 16384. Qed.

Lemma bad_avail_ok : avail_ok (demo_mem 0 2 9) demo_queue.
Proof. ring_ok. Qed.

Lemma bad_used_ok : used_ok (demo_mem 0 2 9) demo_queue.
Proof. ring_ok. split; [simpl; lia|]. by exists 16384. Qed.

Definition hdr_bytes (kind : Z) : list byte := le_bytes 4 kind ++ le_bytes 4 0 ++ le_bytes 8 1.

Lemma demo_read_request :
  request (demo_mem 0 2 0) demo_head (hdr_bytes 0) [] (mkConsumer [demo_data; demo_status] 0).
Proof.
  split.
  - exists 0, 4, 0. vm_compute. reflexivity.
  - exists (mkConsumer [mkVS 128 16] 0). split; vm_compute; reflexivity.
  - reflexivity.
  - vm_compute. reflexivity.
  - apply (bool_decide_unpack _). vm_compute. exact I.
Qed.

Lemma demo_write_request :
  request (demo_mem 1 0 0) demo_head (hdr_bytes 1) (replicate 512 5) (mkConsumer [demo_status] 0).
Proof.
  split.
  - exists 0, 4, 0. vm_compute. reflexivity.
  - exists (mkConsumer [mkVS 128 16; demo_data] 0). split; vm_compute; reflexivity.
  - reflexivity.
  - vm_compute. reflexivity.
  - apply (bool_decide_unpack _). vm_compute. exact I.
Qed.

Lemma demo_layout : read_layout [demo_data; demo_status] [demo_data] demo_status.
Proof. split; try done. constructor; [cbn; lia|constructor]. Qed.

Lemma block_read_served_witness :
  exists m', serve (demo_worker 0 2 0) demo_head = Ret (Some 512, set_mem (demo_worker 0 2 0) m') /\
    contents m' [demo_data] = Some (replicate 512 9) /\ contents m' [demo_status] = Some [0].
Proof.
  destruct (block_read_served (demo_worker 0 2 0) demo_head (hdr_bytes 0) [] _ [demo_data] demo_status
    (replicate 512 9) demo_read_request) as (m' & Hs & Hc & Hst & _).
  - vm_compute. reflexivity.
  - exact demo_layout.
  - vm_compute. split; congruence.
  - vm_compute. reflexivity.
  - vm_compute. reflexivity.
  - exists m'. split; [exact Hs|]. split; [rewrite Hc; vm_compute; reflexivity|exact Hst].
Defined.

Lemma block_write_served_witness :
  exists m' w, serve (demo_worker 1 0 0) demo_head = Ret (Some 512, set_mem (set_host (demo_worker 1 0 0) w) m') /\
    fs_content w tt = replicate 512 7 ++ replicate 512 5.
Proof.
  destruct (block_write_served (demo_worker 1 0 0) demo_head (hdr_bytes 1) (replicate 512 5) _ demo_status
    512 (mkImage (replicate 512 7 ++ replicate 512 5) []) demo_write_request) as (m' & Hs & Hc & _).
  - vm_compute. reflexivity.
  - reflexivity.
  - reflexivity.
  - intros E. discriminate E.
  - reflexivity.
  - vm_compute. split; congruence.
  - vm_compute. reflexivity.
  - exists m', (mkImage (replicate 512 7 ++ replicate 512 5) []). split; [exact Hs|].
    vm_compute. reflexivity.
Defined.

(** A host whose reads fail. *)
Definition broken_fs : HostFs Image unit := {|
  fs_open _ _ _ := Ok tt; fs_size w _ := Ok (Zlength (im_content w)); fs_meta _ _ := None;
  fs_pread _ _ _ _ := Err OtherIo; fs_pwrite w _ _ _ := (Err OtherIo, w);
  fs_sync w _ := (Err OtherIo, w); fs_content w _ := img (im_content w); fs_durable w _ := img (im_medium w) |}.

Lemma broken_fs_laws : HostFsLaws Image unit (H:=broken_fs).
Proof. split; cbn; try done; [intros; apply img_ok|by intros w _ off bs e w' [= _ <-]|by intros w _ r w' [= <- <-]]. Qed.

Lemma failed_read_status_misplaced_witness :
  exists m', serve (H0:=broken_fs) (demo_worker 0 2 0) demo_head = Ret (Some 0, set_mem (demo_worker 0 2 0) m') /\
    contents m' [demo_data] = Some (1 :: replicate 511 5) /\ contents m' [demo_status] = Some [255].
Proof.
  destruct (failed_read_status_misplaced (FS:=broken_fs) (demo_worker 0 2 0) demo_head (hdr_bytes 0) [] _
    [demo_data] demo_status OtherIo demo_read_request) as (m' & d & Hs & Hd & Hc & Hst).
  - vm_compute. reflexivity.
  - exact demo_layout.
  - reflexivity.
  - exists m'. split; [exact Hs|]. rewrite Hc, Hst.
    assert (contents (mem (demo_worker 0 2 0)) [demo_data] = Some (replicate 512 5)) as E
      by (vm_compute; reflexivity).
    rewrite E in Hd. injection Hd as <-. split; vm_compute; reflexivity.
Defined.

Definition demo_worker' : @BlockWorker FlatMem Image unit :=
  match process_round yes (demo_worker 0 2 0) with Ret (_, b) => b | Panic => demo_worker 0 2 0 end.

Lemma block_demo_rounds : process_round yes (demo_worker 0 2 0) = Ret (true, demo_worker') /\
  exists b, process_round yes demo_worker' = Ret (false, b).
Proof. split; [vm_compute; reflexivity|eexists; vm_compute; reflexivity]. Qed.

Lemma index_stable_demo : index_kept (process_round yes) queue_view (demo_worker 0 2 0).
Proof.
  destruct block_demo_rounds as [H1 [b H2]]. intros b1 b2 Hr Hs.
  destruct (one_step (fun a b => process_round yes a = Ret (true, b)) (demo_worker 0 2 0) demo_worker' b1 b2)
    as [-> ->]; [| |done..|].
  - intros z Hz. rewrite H1 in Hz. congruence.
  - intros z Hz. rewrite H2 in Hz. discriminate Hz.
  - vm_compute. reflexivity.
Qed.

Lemma process_queue_drains_witness :
  exists bw', process_queue yes 3 (demo_worker 0 2 0) = Some (Ret bw') /\
    pop (mem bw') (queue bw') = Ret (None, queue bw').
Proof.
  destruct (process_queue_drains yes 3 (demo_worker 0 2 0) index_stable_demo) as (o & Ho & Hr);
    [vm_compute; reflexivity|].
  destruct o as [bw'|]; [|vm_compute in Ho; discriminate]. exists bw'. split; [exact Ho|exact (Hr bw' eq_refl)].
Defined.

Lemma invalid_head_spins_witness : process_virtio_queues yes 1000 (demo_worker 0 2 9) = None.
Proof.
  apply (invalid_head_spins yes (demo_worker 0 2 9) 1 9).
  - exact bad_avail_ok.
  - exact bad_used_ok.
  - vm_compute. congruence.
  - vm_compute. reflexivity.
  - vm_compute. congruence.
  - vm_compute. reflexivity.
  - vm_compute. congruence.
Defined.

Lemma completion_published_witness :
  exists bw', complete yes (demo_worker 0 2 0) demo_head 512 = Ret bw' /\
    used_log (mem bw') (queue bw') [(0, 512)] /\ Z.testbit (interrupt_status bw') 0 = true.
Proof.
  destruct (completion_published yes (demo_worker 0 2 0) demo_head 512 []) as (bw' & Hc & Hl & Hi & _).
  - exact block_demo_used_ok.
  - exact block_demo_avail_ok.
  - vm_compute. congruence.
  - vm_compute. split; congruence.
  - intros k e E. discriminate E.
  - vm_compute. reflexivity.
  - intros E. discriminate E.
  - exists bw'. split; [exact Hc|split; [exact Hl|exact (Hi eq_refl)]].
Defined.

(** A device running [demo_worker]. *)
Definition demo_block : @Block FlatMem Image unit :=
  mkBlock [] None (mkConfig 2 0 254) None Writeback [] false 0 0 0 0 [demo_queue]
    (Some (demo_mem 0 2 0)) false None (Some (demo_worker 0 2 0)) demo_image.

Lemma reset_then_activate_witness :
  exists b' bw', block_activate (block_reset demo_block).2 (demo_mem 0 2 0) = Ret (Ok b') /\
    worker_thread b' = Some bw' /\ nsectors (disk bw') = 2.
Proof.
  destruct (reset_then_activate demo_block (demo_worker 0 2 0) (demo_mem 0 2 0) tt 1024)
    as (b' & bw' & Ha & Hw & _ & Hn & _);
    [reflexivity|reflexivity|discriminate|reflexivity|reflexivity|vm_compute; reflexivity|].
  exists b', bw'. split; [exact Ha|split; [exact Hw|rewrite Hn; vm_compute; reflexivity]].
Defined.
End Block.
