(* ===== verification/NetBackend.v ===== *)
(** * Backends of the network device

    [devices/src/virtio/net/backend.rs], [passt.rs] and [gvproxy.rs].  The
    trait [NetBackend] is the class of that name; what the network device
    relies on is [NetBackendLaws]: which frames a backend has been handed,
    which buffer a partial write still needs, and which frames it will deliver.
    [Passt] frames them on a stream socket, each behind its length as a
    big-endian 32-bit integer; [Gvproxy] sends one datagram per frame.

    The sockets are the classes [StreamSocket] and [DgramSocket]; [StreamSpec]
    and [DgramSpec] state what [recv(2)] and [send(2)] document, in terms of
    the bytes still to arrive and the bytes already sent.  Log messages and
    buffer-size options are left out. *)

From S2P Require Import Prelude.

Module NetBackend.

(** ** The trait *)

(** [EWOULDBLOCK] is [EAGAIN]. *)
Inductive Errno := EAGAIN | EPIPE | Other (e : Z).

Inductive ConnectError :=
| InvalidAddress (e : Errno) | CreateSocket (e : Errno) | Binding (e : Errno) | SendingMagic (e : Errno).

Inductive ReadError := NothingRead | ReadInternal (e : Errno).

Inductive WriteError := NothingWritten | PartialWrite | ProcessNotRunning | WriteInternal (e : Errno).

(** Buffers passed as [&mut [u8]] come back changed. *)
Class NetBackend (B : Type) := {
  read_frame : nat -> B -> list byte -> fueled (result ReadError nat * list byte * B);
  write_frame : nat -> B -> nat -> list byte -> fueled (result WriteError unit * list byte * B);
  has_unfinished_write : B -> bool;
  try_finish_write : nat -> B -> nat -> list byte -> fueled (result WriteError unit * B);
}.

(** What the device relies on.  [carries b fs p]: the frames [fs] have been
    handed over, and when [p] is a buffer the end of the last one still has to
    be sent from it.  [delivers b fs]: the frames that will arrive are [fs]. *)
Class NetBackendLaws (B : Type) `{NetBackend B} := {
  hdr_len_min : nat;
  carries : B -> list (list byte) -> option (list byte) -> Prop;
  delivers : B -> list (list byte) -> Prop;
  write_frame_spec fuel b fs hdr buf : carries b fs None -> (hdr_len_min <= hdr < length buf)%nat ->
    Zlength buf < 2 ^ 32 -> (length buf < fuel)%nat ->
    exists r buf' b', write_frame fuel b hdr buf = Some (Ret (r, buf', b')) /\
      length buf' = length buf /\ drop hdr buf' = drop hdr buf /\
      (forall fs', delivers b fs' -> delivers b' fs') /\
      match r with
      | Ok _ => carries b' (fs ++ [drop hdr buf]) None
      | Err PartialWrite => carries b' (fs ++ [drop hdr buf]) (Some (drop (hdr - hdr_len_min) buf'))
      | Err NothingWritten => carries b' fs None
      | Err _ => True
      end;
  has_unfinished_spec b fs p : carries b fs p ->
    has_unfinished_write b = match p with Some _ => true | None => false end;
  try_finish_spec fuel b fs p hdr buf : carries b fs p -> (hdr_len_min <= hdr)%nat ->
    (forall l, p = Some l -> drop (hdr - hdr_len_min) buf = l) -> (length buf < fuel)%nat ->
    exists r b', try_finish_write fuel b hdr buf = Some (Ret (r, b')) /\
      (forall fs', delivers b fs' -> delivers b' fs') /\
      match r with
      | Ok _ => carries b' fs None
      | Err (PartialWrite | NothingWritten) => carries b' fs p
      | Err _ => True
      end;
  read_frame_spec fuel b fs buf : delivers b fs -> (4 + length buf < fuel)%nat ->
    Forall (fun f => (length f <= length buf)%nat) fs ->
    exists r buf' b', read_frame fuel b buf = Some (Ret (r, buf', b')) /\ length buf' = length buf /\
      (forall fs' p, carries b fs' p -> carries b' fs' p) /\
      match r with
      | Ok n => exists f fs', fs = f :: fs' /\ n = length f /\ take n buf' = f /\ bytes_ok f /\ delivers b' fs'
      | Err NothingRead => delivers b' fs
      | Err _ => True
      end;
}.

(** ** Stream sockets *)

Inductive RecvFlags := DontWait | WaitAll.

Class StreamSocket (K : Type) := {
  so_recv : K -> RecvFlags -> nat -> result Errno (list byte) * K;
  so_send : K -> list byte -> result Errno nat * K;
}.

(** [incoming]: every byte the peer sends from here on; [eof]: whether it
    closes the connection after them; [outgoing]: every byte sent so far. *)
Class StreamSpec (K : Type) `{StreamSocket K} := {
  incoming : K -> list byte;
  eof : K -> bool;
  outgoing : K -> list byte;
  recv_ok k f n bs k' : so_recv k f n = (Ok bs, k') ->
    incoming k = bs ++ incoming k' /\ (length bs <= n)%nat /\ eof k' = eof k /\ outgoing k' = outgoing k;
  recv_err k f n e k' : so_recv k f n = (Err e, k') ->
    incoming k' = incoming k /\ eof k' = eof k /\ outgoing k' = outgoing k;
  (** no bytes: the end of the stream *)
  recv_none k f n k' : so_recv k f n = (Ok [], k') -> (0 < n)%nat -> incoming k = [] /\ eof k = true;
  (** a blocking call waits for bytes that are to come *)
  recv_waits k n k' : incoming k <> [] -> so_recv k WaitAll n <> (Err EAGAIN, k');
  send_ok k bs n k' : so_send k bs = (Ok n, k') -> bs <> [] ->
    (0 < n <= length bs)%nat /\ outgoing k' = outgoing k ++ take n bs /\ incoming k' = incoming k /\ eof k' = eof k;
  send_err k bs e k' : so_send k bs = (Err e, k') ->
    outgoing k' = outgoing k /\ incoming k' = incoming k /\ eof k' = eof k;
}.

(** ** Passt *)

Definition PASST_HEADER_LEN : nat := 4.

Section passt.
Context {K : Type} `{StreamSocket K}.

Record Passt := mkPasst { sock : K; expecting_frame_length : Z; last_partial_write_length : nat }.

Definition passt_new (k : K) : Passt := mkPasst k 0 0.

Definition set_sock (p : Passt) (k : K) : Passt :=
  mkPasst k (expecting_frame_length p) (last_partial_write_length p).

(** [recv(self.fd, &mut buf[bytes_read..], flags)] *)
Definition recv_into (k : K) (f : RecvFlags) (buf : list byte) (bytes_read : nat)
    : result Errno nat * list byte * K :=
  match so_recv k f (length buf - bytes_read) with
  | (Ok bs, k) => (Ok (length bs), splice buf bytes_read bs, k)
  | (Err e, k) => (Err e, buf, k)
  end.

(** The blocking part of [read_loop]. *)
Fixpoint read_rest (fuel : nat) (k : K) (buf : list byte) (bytes_read : nat)
    : fueled (result ReadError unit * list byte * K) :=
  match fuel with
  | O => None
  | S fuel =>
      if (bytes_read <? length buf)%nat then
        match recv_into k WaitAll buf bytes_read with
        | (Err EAGAIN, buf, k) => read_rest fuel k buf bytes_read
        | (Err e, buf, k) => mret (Err (ReadInternal e), buf, k)
        | (Ok size, buf, k) => read_rest fuel k buf (bytes_read + size)
        end
      else mret (Ok tt, buf, k)
  end.

Definition read_loop (fuel : nat) (k : K) (buf : list byte) (block_until_has_data : bool)
    : fueled (result ReadError unit * list byte * K) :=
  if block_until_has_data then read_rest fuel k buf 0
  else
    match recv_into k DontWait buf 0 with
    | (Ok size, buf, k) => read_rest fuel k buf size
    | (Err EAGAIN, buf, k) => mret (Err NothingRead, buf, k)
    | (Err e, buf, k) => mret (Err (ReadInternal e), buf, k)
    end.

Fixpoint write_loop (fuel : nat) (p : Passt) (buf : list byte) (bytes_send : nat)
    : fueled (result WriteError unit * Passt) :=
  match fuel with
  | O => None
  | S fuel =>
      if (bytes_send <? length buf)%nat then
        match so_send (sock p) (drop bytes_send buf) with
        | (Ok size, k) => write_loop fuel (set_sock p k) buf (bytes_send + size)
        | (Err EAGAIN, k) =>
            if (bytes_send =? 0)%nat then mret (Err NothingWritten, set_sock p k)
            else mret (Err PartialWrite,
                       mkPasst k (expecting_frame_length p) (last_partial_write_length p + bytes_send))
        | (Err EPIPE, k) => mret (Err ProcessNotRunning, set_sock p k)
        | (Err e, k) => mret (Err (WriteInternal e), set_sock p k)
        end
      else mret (Ok tt, mkPasst (sock p) (expecting_frame_length p) 0)
  end.

(** The length of the next frame, read when it is not known yet. *)
Definition read_length (fuel : nat) (p : Passt) : fueled (result ReadError unit * Passt) :=
  if expecting_frame_length p =? 0 then
    '(r, frame_length_buf, k) ← read_loop fuel (sock p) (replicate PASST_HEADER_LEN 0) false;
    match r with
    | Ok _ => mret (Ok tt, mkPasst k (le_val (rev frame_length_buf)) (last_partial_write_length p))
    | Err e => mret (Err e, set_sock p k)
    end
  else mret (Ok tt, p).

Definition passt_read_frame (fuel : nat) (p : Passt) (buf : list byte)
    : fueled (result ReadError nat * list byte * Passt) :=
  '(r, p) ← read_length fuel p;
  match r with
  | Err e => mret (Err e, buf, p)
  | Ok _ =>
      let frame_length := Z.to_nat (expecting_frame_length p) in
      if (frame_length <=? length buf)%nat then
        '(r, front, k) ← read_loop fuel (sock p) (take frame_length buf) false;
        match r with
        | Err e => mret (Err e, front ++ drop frame_length buf, set_sock p k)
        | Ok _ =>
            mret (Ok frame_length, front ++ drop frame_length buf, mkPasst k 0 (last_partial_write_length p))
        end
      else Some Panic
  end.

Definition passt_write_frame (fuel : nat) (p : Passt) (hdr_len : nat) (buf : list byte)
    : fueled (result WriteError unit * list byte * Passt) :=
  if negb (last_partial_write_length p =? 0)%nat then Some Panic
  else if (hdr_len <? PASST_HEADER_LEN)%nat then Some Panic
  else if (length buf <=? hdr_len)%nat then Some Panic
  else
    let frame_length := (length buf - hdr_len)%nat in
    let buf := splice buf (hdr_len - PASST_HEADER_LEN) (rev (le_bytes 4 (Z.of_nat frame_length))) in
    '(r, p) ← write_loop fuel p (drop (hdr_len - PASST_HEADER_LEN) buf) 0;
    mret (r, buf, p).

(** The start of the rest, [hdr_len - PASST_HEADER_LEN + already_written], is
    computed modulo [2^64]. *)
Definition passt_try_finish_write (fuel : nat) (p : Passt) (hdr_len : nat) (buf : list byte)
    : fueled (result WriteError unit * Passt) :=
  let already_written := last_partial_write_length p in
  if (already_written =? 0)%nat then mret (Ok tt, p)
  else
    let start := (hdr_len + already_written - PASST_HEADER_LEN)%nat in
    if (hdr_len + already_written <? PASST_HEADER_LEN)%nat || (length buf <? start)%nat then Some Panic
    else write_loop fuel p (drop start buf) 0.

#[global] Instance passt_backend : NetBackend Passt := {|
  read_frame := passt_read_frame;
  write_frame := passt_write_frame;
  has_unfinished_write p := negb (last_partial_write_length p =? 0)%nat;
  try_finish_write := passt_try_finish_write;
|}.

(** ** Reading *)

Context `{!StreamSpec K}.

(** What reading leaves alone. *)
Definition undisturbed (k k' : K) : Prop := eof k' = eof k /\ outgoing k' = outgoing k.

Lemma recv_into_spec k f buf n bs rest r buf' k' :
  (n < length buf)%nat -> incoming k = bs ++ rest -> length bs = (length buf - n)%nat ->
  recv_into k f buf n = (r, buf', k') ->
  undisturbed k k' /\ length buf' = length buf /\
  match r with
  | Ok size => exists bs1 bs2, bs = bs1 ++ bs2 /\ length bs1 = size /\ (0 < size)%nat /\
      incoming k' = bs2 ++ rest /\ take (n + size) buf' = take n buf ++ bs1
  | Err e => incoming k' = incoming k /\ buf' = buf
  end.
Proof.
  intros Hn Hin Hlen. unfold recv_into. destruct (so_recv k f (length buf - n)) as [[got|e] k1] eqn:E; intros [= <- <- <-].
  - destruct (recv_ok _ _ _ _ _ E) as (Hi & Hle & He & Ho). split; [by split|]. rewrite length_splice. split; [done|].
    rewrite Hin in Hi. exists (take (length got) bs), (drop (length got) bs).
    assert (take (length got) bs = got) as Ht.
    { apply (f_equal (take (length got))) in Hi. rewrite take_app_le, take_app_length in Hi by lia. exact Hi. }
    split; [by rewrite take_drop|]. rewrite Ht. split; [done|]. split.
    + destruct got; cbn; [|lia]. apply recv_none in E as [E _]; [|lia]. rewrite E in Hin. by destruct bs; cbn in *; [lia|].
    + split.
      * apply (f_equal (drop (length got))) in Hi. rewrite drop_app_le, drop_app_length in Hi by lia. done.
      * rewrite splice_in by lia. rewrite app_assoc, take_app_le by (rewrite length_app, length_take; lia).
        apply take_ge. rewrite length_app, length_take. lia.
  - destruct (recv_err _ _ _ _ _ E) as (Hi & He & Ho). done.
Qed.

Lemma read_rest_spec fuel k buf n bs rest :
  (n <= length buf)%nat -> incoming k = bs ++ rest -> length bs = (length buf - n)%nat -> (length bs < fuel)%nat ->
  exists r buf' k', read_rest fuel k buf n = Some (Ret (r, buf', k')) /\ undisturbed k k' /\
    length buf' = length buf /\
    match r with
    | Ok _ => buf' = take n buf ++ bs /\ incoming k' = rest
    | Err NothingRead => False
    | Err _ => True
    end.
Proof.
  revert k buf n bs. induction fuel as [|fuel IH]; intros k buf n bs Hn Hin Hlen Hf; [lia|].
  cbn [read_rest]. destruct (Nat.ltb_spec n (length buf)) as [Hlt|Hge].
  2: { destruct bs; cbn in Hlen; [|lia]. do 3 eexists. split; [done|]. split_and!; [by split|done| |done].
       by rewrite app_nil_r, take_ge by lia. }
  destruct (recv_into k WaitAll buf n) as [[r buf1] k1] eqn:E.
  destruct (recv_into_spec _ _ _ _ _ _ _ _ _ Hlt Hin Hlen E) as ([He Ho] & Hl & Hr). destruct r as [size|e].
  - destruct Hr as (bs1 & bs2 & -> & Hs & Hpos & Hin' & Hbuf). rewrite length_app in *.
    destruct (IH k1 buf1 (n + size)%nat bs2) as (r & buf' & k' & -> & [He' Ho'] & Hl' & Hr'); [lia|done|lia|lia|].
    do 3 eexists. split; [done|]. split; [by split; etrans|]. split; [lia|].
    destruct r as [[]|[]]; try done. destruct Hr' as [-> ->]. by rewrite Hbuf, <- app_assoc.
  - destruct Hr as [Hin' ->]. destruct e; [exfalso|by repeat esplit..].
    unfold recv_into in E. destruct (so_recv k WaitAll _) as [[]k2] eqn:E'; simplify_eq.
    apply recv_waits in E'; [done|]. rewrite Hin. destruct bs; cbn in *; [lia|done].
Qed.

Lemma read_loop_spec fuel k buf bs rest :
  incoming k = bs ++ rest -> length bs = length buf -> (0 < length buf < fuel)%nat ->
  exists r buf' k', read_loop fuel k buf false = Some (Ret (r, buf', k')) /\ undisturbed k k' /\
    length buf' = length buf /\
    match r with
    | Ok _ => buf' = bs /\ incoming k' = rest
    | Err NothingRead => incoming k' = incoming k
    | Err _ => True
    end.
Proof.
  intros Hin Hlen [Hpos Hf]. unfold read_loop. destruct (recv_into k DontWait buf 0) as [[r buf1] k1] eqn:E.
  destruct (recv_into_spec _ _ _ _ _ _ _ _ _ Hpos Hin ltac:(lia) E) as ([He Ho] & Hl & Hr). destruct r as [size|e].
  - destruct Hr as (bs1 & bs2 & -> & Hs & Hsz & Hin' & Hbuf). rewrite length_app in *.
    destruct (read_rest_spec fuel k1 buf1 size bs2 rest) as (r & buf' & k' & -> & [He' Ho'] & Hl' & Hr');
      [lia|done|lia|lia|].
    do 3 eexists. split; [done|]. split; [by split; etrans|]. split; [lia|].
    destruct r as [[]|[]]; try done. destruct Hr' as [-> ->]. cbn in Hbuf. by rewrite Hbuf.
  - destruct Hr as [Hin' ->]. destruct e; by repeat esplit.
Qed.

(** ** Framing *)

Definition frame_bytes (f : list byte) : list byte := rev (le_bytes 4 (Zlength f)) ++ f.

(** The bytes of a sequence of frames. *)
Definition stream_of (fs : list (list byte)) : list byte := concat (map frame_bytes fs).

Definition passt_carries (p : Passt) (fs : list (list byte)) (pend : option (list byte)) : Prop :=
  match pend with
  | None => last_partial_write_length p = 0%nat /\ outgoing (sock p) = stream_of fs
  | Some l => exists fs' f, fs = fs' ++ [f] /\ l = frame_bytes f /\
      (0 < last_partial_write_length p < length l)%nat /\
      outgoing (sock p) = stream_of fs' ++ take (last_partial_write_length p) l
  end.

Definition passt_delivers (p : Passt) (fs : list (list byte)) : Prop :=
  Forall (fun f => f <> [] /\ Zlength f < 2 ^ 32 /\ bytes_ok f) fs /\ eof (sock p) = false /\
  if expecting_frame_length p =? 0 then incoming (sock p) = stream_of fs
  else exists f fs', fs = f :: fs' /\ expecting_frame_length p = Zlength f /\ incoming (sock p) = f ++ stream_of fs'.

#[local] Arguments stream_of : simpl never.
#[local] Arguments frame_bytes : simpl never.

Lemma stream_of_app fs gs : stream_of (fs ++ gs) = stream_of fs ++ stream_of gs.
Proof. unfold stream_of. by rewrite map_app, concat_app. Qed.

Lemma stream_of_one f : stream_of [f] = frame_bytes f.
Proof. unfold stream_of. cbn [map concat]. by rewrite app_nil_r. Qed.

Lemma length_frame_bytes f : length (frame_bytes f) = (4 + length f)%nat.
Proof. unfold frame_bytes. by rewrite length_app, length_rev, length_le_bytes. Qed.

(** Sending does not touch the receiving side. *)
Record receives_as (p p' : Passt) : Prop := {
  ra_incoming : incoming (sock p') = incoming (sock p);
  ra_eof : eof (sock p') = eof (sock p);
  ra_expecting : expecting_frame_length p' = expecting_frame_length p;
}.

Lemma delivers_kept p p' fs : receives_as p p' -> passt_delivers p fs -> passt_delivers p' fs.
Proof. intros [Hi He Hx]. unfold passt_delivers. by rewrite Hi, He, Hx. Qed.

(** A send loop that started at [n] stopped with [m] bytes of the buffer out. *)
Record sent_to (p : Passt) (buf : list byte) (n m : nat) (r : result WriteError unit) (p' : Passt) : Prop := {
  se_range : (n <= m <= length buf)%nat;
  se_out : outgoing (sock p') = outgoing (sock p) ++ take (m - n) (drop n buf);
  se_in : receives_as p p';
  se_result : match r with
    | Ok _ => m = length buf /\ last_partial_write_length p' = 0%nat
    | Err PartialWrite => (0 < m < length buf)%nat /\
        last_partial_write_length p' = (last_partial_write_length p + m)%nat
    | Err NothingWritten => n = 0%nat /\ m = 0%nat /\ last_partial_write_length p' = last_partial_write_length p
    | Err _ => True
    end;
}.

Lemma write_loop_spec fuel p buf n :
  (n <= length buf)%nat -> (length buf - n < fuel)%nat ->
  exists r p' m, write_loop fuel p buf n = Some (Ret (r, p')) /\ sent_to p buf n m r p'.
Proof.
  revert p n. induction fuel as [|fuel IH]; intros p n Hn Hf; [lia|]. cbn [write_loop].
  destruct (Nat.ltb_spec n (length buf)) as [Hlt|Hge].
  2: { assert (n = length buf) as -> by lia. do 2 eexists. exists (length buf). split; [done|].
       split; cbn; [lia| |by split|done..]. by rewrite Nat.sub_diag, app_nil_r. }
  assert (drop n buf <> []) as Hne. { intros E%(f_equal length). rewrite length_drop in E. cbn in E. lia. }
  destruct (so_send (sock p) (drop n buf)) as [[size|e] k] eqn:E.
  - destruct (send_ok _ _ _ _ E Hne) as (Hs & Ho & Hi & Heof). rewrite length_drop in Hs.
    destruct (IH (set_sock p k) (n + size)%nat) as (r & p' & m & -> & [Hm Ho' [Hi' Heof' He'] Hr]); [lia|lia|].
    cbn [sock set_sock expecting_frame_length last_partial_write_length] in *.
    do 2 eexists. exists m. split; [done|]. split; [lia| |split; congruence|].
    { rewrite Ho', Ho, <- app_assoc, <- drop_drop. f_equal.
      rewrite <- (take_drop size (take (m - n) (drop n buf))), take_take, skipn_firstn_comm.
      rewrite Nat.min_l by lia. do 2 f_equal. lia. }
    destruct r as [|[]]; try done. lia.
  - destruct (send_err _ _ _ _ E) as (Ho & Hi & Heof).
    assert (forall r p', sock p' = k -> expecting_frame_length p' = expecting_frame_length p ->
      (match r with
       | Ok _ => n = length buf /\ last_partial_write_length p' = 0%nat
       | Err PartialWrite => (0 < n < length buf)%nat /\
           last_partial_write_length p' = (last_partial_write_length p + n)%nat
       | Err NothingWritten => n = 0%nat /\ n = 0%nat /\ last_partial_write_length p' = last_partial_write_length p
       | Err _ => True
       end) -> sent_to p buf n n r p') as Hstop.
    { intros r p' Hk He Hr. split; try done; [rewrite Nat.sub_diag, app_nil_r; congruence|split; congruence]. }
    destruct e; [destruct (Nat.eqb_spec n 0)|..];
      (do 2 eexists; exists n; split; [done|apply Hstop]; cbn; try done; lia).
Qed.

Lemma stream_of_cons f fs : stream_of (f :: fs) = frame_bytes f ++ stream_of fs.
Proof. done. Qed.

Lemma header_value (f : list byte) : Zlength f < 2 ^ 32 -> le_val (le_bytes 4 (Zlength f)) = Zlength f.
Proof. intros Hf. rewrite le_val_le_bytes, wrap_small; [done|]. unfold fits. cbn. lia. Qed.

(** What a read leaves alone, and what it keeps of the connection. *)
Definition read_keeps (p p' : Passt) : Prop :=
  undisturbed (sock p) (sock p') /\ last_partial_write_length p' = last_partial_write_length p.

Lemma read_length_spec fuel p f fs :
  passt_delivers p (f :: fs) -> (4 < fuel)%nat ->
  exists r p', read_length fuel p = Some (Ret (r, p')) /\ read_keeps p p' /\
    match r with
    | Ok _ => expecting_frame_length p' = Zlength f /\ incoming (sock p') = f ++ stream_of fs
    | Err NothingRead => passt_delivers p' (f :: fs)
    | Err _ => True
    end.
Proof.
  intros (Hfs & Heof & Hp) Hf. unfold read_length. destruct (expecting_frame_length p =? 0) eqn:E.
  - pose proof Hp as Hp0. rewrite stream_of_cons in Hp. unfold frame_bytes in Hp. rewrite <- app_assoc in Hp.
    destruct (read_loop_spec fuel (sock p) (replicate PASST_HEADER_LEN 0) (rev (le_bytes 4 (Zlength f))) _ Hp)
      as (r & buf & k & -> & [He Ho] & Hl & Hr); [by rewrite length_rev, length_le_bytes|cbn; lia|].
    cbn [mbind fueled_bind]. destruct r as [[]|e].
    + destruct Hr as [-> Hin]. do 2 eexists. split; [done|]. cbn. rewrite rev_involutive, header_value; [done|].
      by apply Forall_cons in Hfs as [(_ & ? & _) _].
    + do 2 eexists. split; [done|]. cbn. split_and!; try done. destruct e; [|done].
      unfold passt_delivers. cbn. rewrite E, Hr, He. done.
  - destruct Hp as (f' & fs' & [= <- <-] & He & Hin). by do 2 eexists.
Qed.

(** An open connection with nothing to come has nothing to read. *)
Lemma read_loop_idle fuel k buf :
  incoming k = [] -> eof k = false -> (0 < length buf)%nat ->
  exists e k', read_loop fuel k buf false = Some (Ret (Err e, buf, k')) /\ undisturbed k k' /\ incoming k' = [].
Proof.
  intros Hin He Hpos. unfold read_loop, recv_into. rewrite Nat.sub_0_r.
  destruct (so_recv k DontWait (length buf)) as [[bs|e] k1] eqn:E.
  - destruct (recv_ok _ _ _ _ _ E) as (Hi & _). rewrite Hin in Hi. destruct bs; [|done].
    apply recv_none in E as [_ E]; [congruence|done].
  - destruct (recv_err _ _ _ _ _ E) as (Hi & He1 & Ho). rewrite Hin in Hi. destruct e; by repeat esplit.
Qed.

Lemma passt_read_spec fuel p fs buf :
  passt_delivers p fs -> (4 + length buf < fuel)%nat ->
  Forall (fun f => (length f <= length buf)%nat) fs ->
  exists r buf' p', passt_read_frame fuel p buf = Some (Ret (r, buf', p')) /\ length buf' = length buf /\
    read_keeps p p' /\
    match r with
    | Ok n => exists f fs', fs = f :: fs' /\ n = length f /\ take n buf' = f /\ bytes_ok f /\ passt_delivers p' fs'
    | Err NothingRead => passt_delivers p' fs
    | Err _ => True
    end.
Proof.
  intros Hd Hf Hfit. unfold passt_read_frame. destruct fs as [|f fs].
  - destruct Hd as (_ & He & Hp). unfold read_length.
    destruct (expecting_frame_length p =? 0) eqn:E; [|by destruct Hp as (? & ? & ? & _)].
    destruct (read_loop_idle fuel (sock p) (replicate PASST_HEADER_LEN 0) Hp He) as (e & k & -> & [He' Ho] & Hin); [cbn; lia|].
    cbn [mbind fueled_bind]. do 3 eexists. split; [done|]. split_and!; try done. destruct e; [|done].
    unfold passt_delivers. cbn. rewrite E, Hin, He'. done.
  - destruct (read_length_spec fuel p f fs Hd) as (r & p1 & -> & [[He Ho] Hlp] & Hr); [lia|].
    cbn [mbind fueled_bind]. destruct r as [[]|e]; [|by do 3 eexists].
    destruct Hr as [Hexp Hin], Hd as (Hfs & Heof & _). rewrite Hexp, Nat2Z.id.
    apply Forall_cons in Hfit as [Hle _]. apply Nat.leb_le in Hle as Hle'. rewrite Hle'.
    apply Forall_cons in Hfs as Hff. destruct Hff as [(Hne & Hlt & Hok) Hfs'].
    assert (0 < length f)%nat as Hpos by (destruct f; [done|cbn; lia]).
    destruct (read_loop_spec fuel (sock p1) (take (length f) buf) f (stream_of fs) Hin)
      as (r & front & k & -> & [He' Ho'] & Hl & Hr); [rewrite length_take; lia|rewrite length_take; lia|].
    cbn [mbind fueled_bind]. rewrite length_take in Hl.
    assert (length (front ++ drop (length f) buf) = length buf) as Hll by (rewrite length_app, length_drop; lia).
    assert (undisturbed (sock p) k) as Hu by (split; etrans; done).
    destruct r as [[]|e].
    + destruct Hr as [-> Hin']. do 3 eexists. split; [done|]. split; [done|]. split; [by split|]. exists f, fs.
      rewrite take_app_length. split_and!; try done. destruct Hu as [Hu _]. unfold passt_delivers. cbn. by rewrite Hu.
    + do 3 eexists. split; [done|]. split; [done|]. split; [by split|]. destruct e; [|done].
      destruct Hu as [Hu _]. unfold passt_delivers. cbn. rewrite Hexp, Hu, Hr. split_and!; try done.
      destruct (Zlength f =? 0) eqn:E; [apply Z.eqb_eq in E; by destruct f|by eauto].
Qed.

(** The header a frame is sent behind. *)
Lemma framed_buffer hdr (buf : list byte) :
  (4 <= hdr < length buf)%nat -> let buf' := splice buf (hdr - 4) (rev (le_bytes 4 (Z.of_nat (length buf - hdr)))) in
  length buf' = length buf /\ drop hdr buf' = drop hdr buf /\ drop (hdr - 4) buf' = frame_bytes (drop hdr buf).
Proof.
  intros Hh. cbv zeta. set (h := rev _). assert (length h = 4%nat) as Hl by (subst h; by rewrite length_rev, length_le_bytes).
  rewrite length_splice, splice_in by lia. rewrite Hl, Nat.sub_add by lia.
  assert (length (take (hdr - 4) buf) = (hdr - 4)%nat) as Ht by (rewrite length_take; lia).
  split; [done|]. split.
  - rewrite app_assoc, drop_app_ge by (rewrite length_app; lia). rewrite length_app, Ht, Hl.
    by replace (hdr - (hdr - 4 + 4))%nat with 0%nat by lia.
  - rewrite drop_app_ge, Ht, Nat.sub_diag by lia. cbn [drop]. unfold frame_bytes. by rewrite length_drop.
Qed.

Lemma passt_write_spec fuel p fs hdr buf :
  passt_carries p fs None -> (4 <= hdr < length buf)%nat -> (length buf < fuel)%nat ->
  exists r buf' p', passt_write_frame fuel p hdr buf = Some (Ret (r, buf', p')) /\
    length buf' = length buf /\ drop hdr buf' = drop hdr buf /\
    receives_as p p' /\
    match r with
    | Ok _ => passt_carries p' (fs ++ [drop hdr buf]) None
    | Err PartialWrite => passt_carries p' (fs ++ [drop hdr buf]) (Some (drop (hdr - 4) buf'))
    | Err NothingWritten => passt_carries p' fs None
    | Err _ => True
    end.
Proof.
  intros [Hlp Ho] Hh Hf. unfold passt_write_frame, PASST_HEADER_LEN. rewrite Hlp. cbn [Nat.eqb negb].
  destruct (Nat.ltb_spec hdr 4); [lia|]. destruct (Nat.leb_spec (length buf) hdr); [lia|].
  destruct (framed_buffer hdr buf Hh) as (Hl & Hd & Hfr). set (buf' := splice _ _ _) in *. rewrite Hfr.
  assert (length (frame_bytes (drop hdr buf)) = (4 + (length buf - hdr))%nat) as Hlf
    by (by rewrite length_frame_bytes, length_drop).
  destruct (write_loop_spec fuel p (frame_bytes (drop hdr buf)) 0) as (r & p' & m & -> & [Hm Hout Hin Hr]); [lia|lia|].
  cbn [mbind fueled_bind]. do 3 eexists. split; [done|]. split_and!; try done.
  rewrite Nat.sub_0_r, drop_0 in Hout. destruct r as [[]|[]]; try done.
  - destruct Hr as [-> Hr]. rewrite firstn_all in Hout. split; [done|]. by rewrite Hout, Ho, stream_of_app, stream_of_one.
  - destruct Hr as (_ & -> & Hr). split; [congruence|]. by rewrite Hout, Ho, take_0, app_nil_r.
  - destruct Hr as [Hr1 Hr2]. rewrite Hlp in Hr2. cbn in Hr2. exists fs, (drop hdr buf). rewrite Hr2, Hfr.
    split_and!; try done; try lia. by rewrite Hout, Ho.
Qed.

Lemma passt_finish_spec fuel p fs pend hdr buf :
  passt_carries p fs pend -> (4 <= hdr)%nat -> (forall l, pend = Some l -> drop (hdr - 4) buf = l) ->
  (length buf < fuel)%nat ->
  exists r p', passt_try_finish_write fuel p hdr buf = Some (Ret (r, p')) /\
    receives_as p p' /\
    match r with
    | Ok _ => passt_carries p' fs None
    | Err (PartialWrite | NothingWritten) => passt_carries p' fs pend
    | Err _ => True
    end.
Proof.
  intros Hc Hh Hb Hf. unfold passt_try_finish_write, PASST_HEADER_LEN. destruct pend as [l|].
  2: { pose proof Hc as [-> _]. by do 2 eexists. }
  specialize (Hb l eq_refl). destruct Hc as (fs' & f & -> & Hl & Hlp & Ho). set (n := last_partial_write_length p) in *.
  destruct (Nat.eqb_spec n 0); [lia|]. assert (length l = (length buf - (hdr - 4))%nat) as Hll by (by rewrite <- Hb, length_drop).
  destruct (Nat.ltb_spec (hdr + n) 4); [lia|]. destruct (Nat.ltb_spec (length buf) (hdr + n - 4)); [lia|]. cbn [orb].
  replace (hdr + n - 4)%nat with (hdr - 4 + n)%nat by lia. rewrite <- drop_drop, Hb.
  destruct (write_loop_spec fuel p (drop n l) 0) as (r & p' & m & -> & [Hm Hout Hin Hr]);
    [lia|rewrite length_drop; lia|].
  do 2 eexists. split; [done|]. split; [done|]. rewrite Nat.sub_0_r, drop_0, Ho, <- app_assoc in Hout.
  assert (take n l ++ take m (drop n l) = take (n + m) l) as Hj.
  { rewrite <- (take_drop n (take (n + m) l)), take_take, skipn_firstn_comm, Nat.min_l by lia. do 2 f_equal. lia. }
  rewrite Hj in Hout. rewrite length_drop in *. destruct r as [[]|[]]; try done.
  - destruct Hr as [-> Hr]. split; [done|]. rewrite take_ge in Hout by lia. by rewrite Hout, stream_of_app, stream_of_one, Hl.
  - destruct Hr as (_ & -> & Hr). rewrite Nat.add_0_r in Hout. exists fs', f. rewrite Hr. by fold n.
  - destruct Hr as [Hr1 Hr2]. exists fs', f. rewrite Hr2. fold n. split_and!; try done; lia.
Qed.

#[global] Program Instance passt_laws : NetBackendLaws Passt := {|
  hdr_len_min := PASST_HEADER_LEN;
  carries := passt_carries;
  delivers := passt_delivers;
|}.
Next Obligation.
  intros fuel p fs hdr buf Hc Hh _ Hf.
  destruct (passt_write_spec fuel p fs hdr buf Hc Hh Hf) as (r & buf' & p' & Hw & Hl & Hd & He & Hr).
  exists r, buf', p'. split_and!; try done. intros fs'. by apply delivers_kept.
Qed.
Next Obligation.
  intros p fs [l|]; cbn.
  - intros (fs' & f & _ & _ & Hlp & _). by destruct (last_partial_write_length p); [lia|].
  - by intros [-> _].
Qed.
Next Obligation.
  intros fuel p fs pend hdr buf Hc Hh Hb Hf.
  destruct (passt_finish_spec fuel p fs pend hdr buf Hc Hh Hb Hf) as (r & p' & Hw & He & Hr).
  exists r, p'. split_and!; try done. intros fs'. by apply delivers_kept.
Qed.
Next Obligation.
  intros fuel p fs buf Hd Hf Hfit.
  destruct (passt_read_spec fuel p fs buf Hd Hf Hfit) as (r & buf' & p' & Hr & Hl & [[_ Ho] Hlp] & Hres).
  exists r, buf', p'. split_and!; try done. intros fs' [l|]; cbn; by rewrite Hlp, Ho.
Qed.

(** ** From one end of the connection to the other *)

(** The process on the other side, or the socket, is gone. *)
Definition fatal (r : result WriteError unit) : bool :=
  match r with Err ProcessNotRunning | Err (WriteInternal _) => true | _ => false end.

(** The calls a client may make: a new frame when nothing is pending, and
    otherwise the end of the last one from the same buffer. *)
Inductive send_step (hdr : nat) : Passt * list (list byte) * option (list byte) ->
    Passt * list (list byte) * option (list byte) -> Prop :=
| ss_frame fuel p fs buf r buf' p' :
    (PASST_HEADER_LEN <= hdr < length buf)%nat -> Zlength buf < 2 ^ 32 -> bytes_ok buf -> (length buf < fuel)%nat ->
    passt_write_frame fuel p hdr buf = Some (Ret (r, buf', p')) -> fatal r = false ->
    send_step hdr (p, fs, None)
      (p', match r with Err NothingWritten => fs | _ => fs ++ [drop hdr buf] end,
           match r with Err PartialWrite => Some buf' | _ => None end)
| ss_finish fuel p fs buf r p' :
    (PASST_HEADER_LEN <= hdr)%nat -> (length buf < fuel)%nat ->
    passt_try_finish_write fuel p hdr buf = Some (Ret (r, p')) -> fatal r = false ->
    send_step hdr (p, fs, Some buf) (p', fs, match r with Ok _ => None | Err _ => Some buf end).

(** The frames read into buffers of [n] bytes. *)
Inductive receives (n : nat) : Passt -> list (list byte) -> Passt -> Prop :=
| rc_stop q : receives n q [] q
| rc_nothing fuel q buf buf' q1 got q2 :
    length buf = n -> (4 + n < fuel)%nat -> passt_read_frame fuel q buf = Some (Ret (Err NothingRead, buf', q1)) ->
    receives n q1 got q2 -> receives n q got q2
| rc_frame fuel q buf size buf' q1 got q2 :
    length buf = n -> (4 + n < fuel)%nat -> passt_read_frame fuel q buf = Some (Ret (Ok size, buf', q1)) ->
    receives n q1 got q2 -> receives n q (take size buf' :: got) q2.

Definition well_framed (f : list byte) : Prop := f <> [] /\ Zlength f < 2 ^ 32 /\ bytes_ok f.

Definition sending (hdr : nat) (s : Passt * list (list byte) * option (list byte)) : Prop :=
  passt_carries s.1.1 s.1.2 (drop (hdr - PASST_HEADER_LEN) <$> s.2) /\ Forall well_framed s.1.2.

Lemma send_step_carries hdr s s' : send_step hdr s s' -> sending hdr s -> sending hdr s'.
Proof.
  intros Hs [Hc Hw]. destruct Hs as [fuel p fs buf r buf' p' Hh Hl Hb Hf He Hr|fuel p fs buf r p' Hh Hf He Hr]; cbn in *.
  - destruct (passt_write_spec fuel p fs hdr buf Hc Hh Hf) as (r1 & buf1 & p1 & He1 & _ & _ & _ & Hr1).
    rewrite He1 in He. injection He as -> -> ->.
    assert (Forall well_framed (fs ++ [drop hdr buf])) as Hw'.
    { apply Forall_app. split; [done|]. repeat constructor; [| |by apply Forall_drop].
      - intros E%(f_equal length). rewrite length_drop in E. cbn in E. lia.
      - rewrite length_drop. lia. }
    destruct r as [[]|[]]; try done; by split.
  - destruct (passt_finish_spec fuel p fs (Some (drop (hdr - PASST_HEADER_LEN) buf)) hdr buf Hc Hh) as (r1 & p1 & He1 & _ & Hr1); [|done|].
    { intros l [= <-]. done. }
    rewrite He1 in He. injection He as -> ->. destruct r as [[]|[]]; try done; by split.
Qed.

Lemma receives_delivers n q got q' fs :
  receives n q got q' -> passt_delivers q fs -> Forall (fun f => (length f <= n)%nat) fs ->
  exists rest, fs = got ++ rest /\ passt_delivers q' rest.
Proof.
  intros Hr. revert fs. induction Hr as [q|fuel q buf buf' q1 got q2 Hn Hf He _ IH|fuel q buf size buf' q1 got q2 Hn Hf He _ IH];
    intros fs Hd Hfit; [by exists fs|..]; subst n;
    destruct (passt_read_spec fuel q fs buf Hd Hf Hfit) as (r & b & p & He' & _ & _ & Hr');
    rewrite He' in He; injection He as -> -> ->.
  - by apply IH.
  - destruct Hr' as (f & fs' & -> & -> & -> & _ & Hd'). apply Forall_cons in Hfit as [_ Hfit].
    destruct (IH fs' Hd' Hfit) as (rest & -> & Hd2). by exists rest.
Qed.

(** From one end to the other: whatever pieces the sockets move at a time and
    however often a write stops half-way, when a client has sent the frames
    [fs] and a reader with buffers large enough has received all bytes, the
    frames read so far are the first of [fs], in order and unchanged, and all
    of them once no byte is left. *)
Theorem passt_roundtrip k hdr p fs q n got q' :
  outgoing k = [] -> rtc (send_step hdr) (passt_new k, [], None) (p, fs, None) ->
  incoming (sock q) = outgoing (sock p) -> expecting_frame_length q = 0 -> eof (sock q) = false ->
  Forall (fun f => (length f <= n)%nat) fs -> receives n q got q' ->
  exists rest, fs = got ++ rest /\ (incoming (sock q') = [] -> rest = []).
Proof.
  intros Hk Hs Hin Hexp Heof Hfit Hr. assert (sending hdr (p, fs, None)) as [[_ Ho] Hw].
  { apply (rtc_preserves (send_step hdr) (sending hdr) _ _ Hs); [by split|apply send_step_carries]. }
  cbn in Ho, Hw. destruct (receives_delivers n q got q' fs Hr) as (rest & -> & Hf & _ & Hd); [|done|].
  { unfold passt_delivers. rewrite Hexp. cbn. by rewrite Hin, Ho. }
  exists rest. split; [done|]. intros Hq. rewrite Hq in Hd. destruct (expecting_frame_length q' =? 0).
  - destruct rest as [|f rest]; [done|]. rewrite stream_of_cons in Hd. symmetry in Hd. apply app_nil in Hd as [Hd _].
    apply (f_equal length) in Hd. by rewrite length_frame_bytes in Hd.
  - destruct Hd as (f & fs' & -> & _ & Hd). symmetry in Hd. apply app_nil in Hd as [-> _].
    by apply Forall_cons in Hf as [[? _] _].
Qed.

(** ** Departures *)

(** When the peer has closed the connection, reading never returns. *)
Lemma closed_stream_spins p buf :
  expecting_frame_length p = 0 -> (forall f n, so_recv (sock p) f n = (Ok [], sock p)) ->
  forall fuel, passt_read_frame fuel p buf = None.
Proof.
  intros He Hc fuel. unfold passt_read_frame, read_length, read_loop, recv_into. rewrite He, Hc. cbn.
  assert (read_rest fuel (sock p) (splice [0; 0; 0; 0] 0 []) 0 = None) as ->; [|done].
  change (splice [0; 0; 0; 0] 0 []) with [0; 0; 0; 0]. induction fuel as [|fuel IH]; [done|].
  cbn [read_rest]. unfold recv_into. by rewrite Hc.
Qed.

(** A length larger than the buffer is not checked. *)
Lemma oversized_frame_panics fuel p buf :
  expecting_frame_length p <> 0 -> (length buf < Z.to_nat (expecting_frame_length p))%nat ->
  passt_read_frame fuel p buf = Some Panic.
Proof.
  intros Hne Hl. unfold passt_read_frame, read_length. apply Z.eqb_neq in Hne as ->. cbn.
  destruct (Nat.leb_spec (Z.to_nat (expecting_frame_length p)) (length buf)); [lia|done].
Qed.
End passt.
Arguments Passt : clear implicits.

(** ** Gvproxy: one datagram per frame *)

Class DgramSocket (D : Type) := {
  dg_socket : D -> result Errno Z * D;
  (** [UnixAddr::new] *)
  dg_addr : list byte -> result Errno unit;
  dg_unlink : D -> list byte -> D;
  dg_bind : D -> Z -> list byte -> result Errno unit * D;
  dg_sendto : D -> Z -> list byte -> list byte -> result Errno nat * D;
  dg_recv : D -> Z -> nat -> result Errno (list byte) * D;
  dg_set_nonblock : D -> Z -> D;
  dg_reuse_port : D -> Z -> result Errno unit * D;
}.

(** [dg_sent]: the datagrams sent to an address; [dg_coming]: the datagrams
    still to be received on a descriptor. *)
Class DgramSpec (D : Type) `{DgramSocket D} := {
  dg_sent : D -> Z -> list byte -> list (list byte);
  dg_coming : D -> Z -> list (list byte);
  sendto_ok d fd bs a n d' : dg_sendto d fd bs a = (Ok n, d') ->
    dg_sent d' fd a = dg_sent d fd a ++ [bs] /\ dg_coming d' fd = dg_coming d fd;
  sendto_err d fd bs a e d' : dg_sendto d fd bs a = (Err e, d') ->
    dg_sent d' fd a = dg_sent d fd a /\ dg_coming d' fd = dg_coming d fd;
  (** a datagram is received whole, as far as it fits *)
  dg_recv_ok d fd n bs d' : dg_recv d fd n = (Ok bs, d') ->
    exists f, dg_coming d fd = f :: dg_coming d' fd /\ bs = take n f /\ bytes_ok f /\
      forall a, dg_sent d' fd a = dg_sent d fd a;
  dg_recv_err d fd n e d' : dg_recv d fd n = (Err e, d') ->
    dg_coming d' fd = dg_coming d fd /\ forall a, dg_sent d' fd a = dg_sent d fd a;
}.

Definition VFKIT_MAGIC : list byte := [86; 70; 75; 84].

(** ["-krun.sock"] *)
Definition krun_sock : list byte := [45; 107; 114; 117; 110; 46; 115; 111; 99; 107].

Section gvproxy.
Context {D : Type} `{DgramSocket D}.

Record Gvproxy := mkGv { dgram : D; gv_fd : Z; peer_addr : list byte }.

(** [Gvproxy::new]; the socket stays open when a later step fails. *)
Definition gvproxy_new (d : D) (path : list byte) : outcome (result ConnectError Gvproxy * D) :=
  match dg_socket d with
  | (Err e, d) => Ret (Err (CreateSocket e), d)
  | (Ok fd, d) =>
      match dg_addr path, dg_addr (path ++ krun_sock) with
      | Err e, _ | Ok _, Err e => Ret (Err (InvalidAddress e), d)
      | Ok _, Ok _ =>
          let d := dg_unlink d (path ++ krun_sock) in
          match dg_bind d fd (path ++ krun_sock) with
          | (Err e, d) => Ret (Err (Binding e), d)
          | (Ok _, d) =>
              match dg_sendto d fd VFKIT_MAGIC path with
              | (Err e, d) => Ret (Err (SendingMagic e), d)
              | (Ok _, d) =>
                  match dg_reuse_port (dg_set_nonblock d fd) fd with
                  | (Err _, _) => Panic
                  | (Ok _, d) => Ret (Ok (mkGv d fd path), d)
                  end
              end
          end
      end
  end.

Definition gv_read_frame (g : Gvproxy) (buf : list byte) : result ReadError nat * list byte * Gvproxy :=
  match dg_recv (dgram g) (gv_fd g) (length buf) with
  | (Ok bs, d) => (Ok (length bs), splice buf 0 bs, mkGv d (gv_fd g) (peer_addr g))
  | (Err EAGAIN, d) => (Err NothingRead, buf, mkGv d (gv_fd g) (peer_addr g))
  | (Err e, d) => (Err (ReadInternal e), buf, mkGv d (gv_fd g) (peer_addr g))
  end.

Definition gv_write_frame (g : Gvproxy) (hdr_len : nat) (buf : list byte)
    : outcome (result WriteError unit * list byte * Gvproxy) :=
  if (length buf <? hdr_len)%nat then Panic
  else
    let '(r, d) := dg_sendto (dgram g) (gv_fd g) (drop hdr_len buf) (peer_addr g) in
    Ret (match r with Ok _ => Ok tt | Err e => Err (WriteInternal e) end, buf, mkGv d (gv_fd g) (peer_addr g)).

#[global] Instance gvproxy_backend : NetBackend Gvproxy := {|
  read_frame _ g buf := Some (Ret (gv_read_frame g buf));
  write_frame _ g hdr buf := Some (gv_write_frame g hdr buf);
  has_unfinished_write _ := false;
  try_finish_write _ g _ _ := Some (Ret (Ok tt, g));
|}.

#[global] Program Instance gvproxy_laws `{!DgramSpec D} : NetBackendLaws Gvproxy := {|
  hdr_len_min := 0;
  carries g fs p := p = None /\ dg_sent (dgram g) (gv_fd g) (peer_addr g) = VFKIT_MAGIC :: fs;
  delivers g fs := dg_coming (dgram g) (gv_fd g) = fs;
|}.
Next Obligation.
  intros Hsp fuel g fs hdr buf [_ Hc] Hh _ _. cbn. unfold gv_write_frame.
  destruct (Nat.ltb_spec (length buf) hdr); [lia|].
  destruct (dg_sendto _ _ _ _) as [r d] eqn:E. do 3 eexists. split; [done|]. split; [done|]. split; [done|].
  destruct r as [n|e]; cbn.
  - apply sendto_ok in E as [Hs Hi]. rewrite Hs, Hi, Hc. by split_and!.
  - apply sendto_err in E as [Hs Hi]. by rewrite Hi.
Qed.
Next Obligation. by intros Hsp g fs p [-> _]. Qed.
Next Obligation. intros Hsp fuel g fs p hdr buf [-> Hc] _ _ _. by do 2 eexists. Qed.
Next Obligation.
  intros Hsp fuel g fs buf Hd _ Hfit. cbn. unfold gv_read_frame.
  destruct (dg_recv _ _ _) as [[bs|e] d] eqn:E.
  - apply dg_recv_ok in E as (f & Hf & -> & Hb & Hs). rewrite Hd in Hf. subst fs.
    apply Forall_cons in Hfit as [Hle _]. rewrite (take_ge f) by done.
    do 3 eexists. split; [done|]. cbn. rewrite length_splice. split; [done|].
    split; [intros fs' p; by rewrite Hs|]. exists f, (dg_coming d (gv_fd g)). split_and!; try done.
    rewrite splice_in by done. rewrite take_0, app_nil_l. by rewrite take_app_length.
  - apply dg_recv_err in E as [Hi Hs].
    destruct e; do 3 eexists; (split; [reflexivity|]); cbn; rewrite ?Hi;
      (split; [done|]); (split; [intros fs' p; by rewrite Hs|done]).
Qed.
End gvproxy.
Arguments Gvproxy : clear implicits.

(** ** A concrete stream

    At most three bytes are received at a time; [room] lists how many bytes
    the next sends take ([0]: the socket is full), and after them everything is
    taken. *)
Record Pipe := mkPipe { to_read : list byte; written : list byte; room : list nat; shut : bool }.

#[global] Instance pipe_socket : StreamSocket Pipe := {|
  so_recv k f n :=
    match n, to_read k with
    | O, _ => (Ok [], k)
    | _, [] => (if shut k then Ok [] else Err (match f with DontWait => EAGAIN | WaitAll => Other 4 end), k)
    | _, l => (Ok (take (n `min` 3) l), mkPipe (drop (n `min` 3) l) (written k) (room k) (shut k))
    end;
  so_send k bs :=
    match room k with
    | [] => (Ok (length bs), mkPipe (to_read k) (written k ++ bs) [] (shut k))
    | O :: l => (Err EAGAIN, mkPipe (to_read k) (written k) l (shut k))
    | S n :: l =>
        (Ok (S n `min` length bs)%nat,
         mkPipe (to_read k) (written k ++ take (S n `min` length bs) bs) l (shut k))
    end;
|}.

#[global] Program Instance pipe_spec : StreamSpec Pipe := {|
  incoming := to_read;
  eof := shut;
  outgoing := written;
|}.
Next Obligation.
  intros k f n bs k'. cbn. destruct n as [|n]; [by intros [= <- <-]|]. destruct (to_read k) as [|b l] eqn:E.
  - destruct (shut k) eqn:Es; [|done]. intros [= <- <-]. rewrite E, Es. split_and!; try done. cbn. lia.
  - intros [= <- <-].
    split_and!; [symmetry; apply (take_drop (S n `min` 3) (b :: l))| |done..].
    etrans; [apply (firstn_le_length (S n `min` 3) (b :: l))|lia].
Qed.
Next Obligation.
  intros k f n e k'. cbn. destruct n as [|n]; [done|]. destruct (to_read k) as [|b l] eqn:E; [|done]. destruct (shut k) eqn:Es; [done|].
  intros [= <- <-]. by rewrite E, Es.
Qed.
Next Obligation.
  intros k f n k'. cbn. destruct n as [|n]; [lia|]. destruct (to_read k) as [|b l] eqn:E; [|done]. by destruct (shut k).
Qed.
Next Obligation.
  intros k n k' Hne. cbn. destruct n as [|n]; [done|]. by destruct (to_read k) as [|b l].
Qed.
Next Obligation.
  intros k [|b bs] n k' Hs Hne; [done|]. cbn in Hs.
  destruct (room k) as [|[|m] l]; simplify_eq; cbn [written to_read shut]; (split; [cbn; lia|]); (split; [|done]).
  - cbn. by rewrite firstn_all.
  - done.
Qed.
Next Obligation.
  intros k bs e k' Hs. cbn in Hs. destruct (room k) as [|[|m] l]; by simplify_eq.
Qed.

(** A frame of three bytes behind a header of five; the socket takes six
    bytes, then is full once. *)
Definition demo_pipe : Pipe := mkPipe [] [] [6%nat; 0%nat] false.

Definition demo_frame : list byte := [9; 9; 9; 9; 9; 1; 2; 3].

Definition demo_sent : Passt Pipe := mkPasst (mkPipe [] [0; 0; 0; 3; 1; 2; 3] [] false) 0 0.

Definition demo_received : Passt Pipe := passt_new (mkPipe [0; 0; 0; 3; 1; 2; 3] [] [] false).

Lemma demo_sending : rtc (send_step 5) (passt_new demo_pipe, [], None) (demo_sent, [[1; 2; 3]], None).
Proof.
  eapply rtc_l.
  - apply (ss_frame 5 20 (passt_new demo_pipe) [] demo_frame (Err PartialWrite) [9; 0; 0; 0; 3; 1; 2; 3]
      (mkPasst (mkPipe [] [0; 0; 0; 3; 1; 2] [] false) 0 6)); try done;
      first [unfold PASST_HEADER_LEN; cbn; lia|repeat constructor; lia].
  - apply rtc_once.
    apply (ss_finish 5 20 (mkPasst (mkPipe [] [0; 0; 0; 3; 1; 2] [] false) 0 6) [[1; 2; 3]]
      [9; 0; 0; 0; 3; 1; 2; 3] (Ok tt) demo_sent); try reflexivity; unfold PASST_HEADER_LEN; cbn; lia.
Qed.

Lemma passt_roundtrip_witness :
  exists rest, [[1; 2; 3]] = [[1; 2; 3]] ++ rest /\ (@incoming Pipe _ _ (mkPipe [] [] [] false) = [] -> rest = []).
Proof.
  apply (passt_roundtrip demo_pipe 5 demo_sent [[1; 2; 3]] demo_received 10 [[1; 2; 3]] (passt_new (mkPipe [] [] [] false))).
  - reflexivity.
  - exact demo_sending.
  - reflexivity.
  - reflexivity.
  - reflexivity.
  - repeat constructor; cbn; lia.
  - apply (rc_frame 10 20 demo_received (replicate 10 0) 3 [1; 2; 3; 0; 0; 0; 0; 0; 0; 0] (passt_new (mkPipe [] [] [] false)) []).
    + reflexivity.
    + lia.
    + vm_compute. reflexivity.
    + apply rc_stop.
Defined.
End NetBackend.
