(* ===== verification/Net.v ===== *)
(** * The network device ([devices/src/virtio/net/worker.rs], [device.rs])

    The worker moves frames between the guest's two queues and a backend, the
    class [NetBackend].  Each frame travels behind a 12-byte header the guest
    sees; it is zero on the way in, and the backend may overwrite it on the way
    out.  The theorems are proved against [NetBackendLaws], so they hold for
    both backends: a frame from the backend is written to the guest's buffers
    and its chain returned; frames reach the guest in order, none is lost or
    repeated, also across a deferral; a chain the guest publishes is handed to
    the backend once.

    A pass of the worker's endless event loop is [work_event]; event
    descriptors are booleans telling whether they could be read or written. *)

From S2P Require Import Prelude GuestMem VirtQueue NetBackend.

Module Net.
Import VirtQueue NetBackend.

Definition MAX_BUFFER_SIZE : nat := Z.to_nat 65562.
Definition QUEUE_SIZE : Z := 1024.
Definition NUM_QUEUES : nat := 2.
Definition QUEUE_SIZES : list Z := replicate NUM_QUEUES QUEUE_SIZE.
Definition RX_INDEX : nat := 0.
Definition TX_INDEX : nat := 1.
Definition VIRTIO_MMIO_INT_VRING : Z := 1.
Definition VIRTIO_F_VERSION_1 : Z := 32.
Definition VIRTIO_NET_F_CSUM : Z := 0.
Definition VIRTIO_NET_F_GUEST_CSUM : Z := 1.
Definition VIRTIO_NET_F_MAC : Z := 5.
Definition VIRTIO_NET_F_GUEST_TSO4 : Z := 7.
Definition VIRTIO_NET_F_GUEST_UFO : Z := 10.
Definition VIRTIO_NET_F_HOST_TSO4 : Z := 11.
Definition VIRTIO_NET_F_HOST_UFO : Z := 14.
Definition VIRTIO_RING_F_EVENT_IDX : Z := 29.
Definition TYPE_NET : Z := 1.

(** Event sets of epoll. *)
Definition EV_IN : Z := 0x1.
Definition EV_OUT : Z := 0x4.
Definition EV_HANG_UP : Z := 0x10.
Definition EV_READ_HANG_UP : Z := 0x2000.

(** [size_of::<virtio_net_hdr_v1>()] *)
Definition vnet_hdr_len : nat := 12.

Definition write_virtio_net_hdr (buf : list byte) : list byte * nat :=
  (splice buf 0 (replicate vnet_hdr_len 0), vnet_hdr_len).

Inductive FrontendError :=
| DescriptorChainTooSmall | EmptyQueue | GuestMemory_ | QueueError (e : VirtQueue.Error) | ReadOnlyDescriptor.

Inductive RxError := RxBackend (e : ReadError) | RxDeviceError.

Inductive TxError := TxBackend (e : WriteError) | TxDeviceError | TxQueueError (e : VirtQueue.Error).

Inductive Source := VirtqRx | VirtqTx | BackendSocket | Unknown.

Section worker.
Context {M B : Type} `{GuestMemory M, NetBackend B}.

Record NetWorker := mkNet {
  rx_queue : Queue; tx_queue : Queue;
  interrupt_status : Z; intc : bool; irq_line : option Z;
  mem : M; backend : B;
  rx_frame_buf : list byte; rx_frame_buf_len : nat; rx_has_deferred_frame : bool;
  tx_frame_buf : list byte; tx_frame_len : nat;
}.

Definition new (rx tx : Queue) (status : Z) (intc : bool) (irq_line : option Z) (m : M) (b : B) : NetWorker :=
  mkNet rx tx status intc irq_line m b (replicate MAX_BUFFER_SIZE 0) 0 false (replicate MAX_BUFFER_SIZE 0) 0.

Definition set_rx (w : NetWorker) (q : Queue) (m : M) : NetWorker :=
  mkNet q (tx_queue w) (interrupt_status w) (intc w) (irq_line w) m (backend w) (rx_frame_buf w) (rx_frame_buf_len w)
    (rx_has_deferred_frame w) (tx_frame_buf w) (tx_frame_len w).

Definition set_rx_frame (w : NetWorker) (b : B) (buf : list byte) (n : nat) : NetWorker :=
  mkNet (rx_queue w) (tx_queue w) (interrupt_status w) (intc w) (irq_line w) (mem w) b buf n
    (rx_has_deferred_frame w) (tx_frame_buf w) (tx_frame_len w).

Definition set_deferred (w : NetWorker) (d : bool) : NetWorker :=
  mkNet (rx_queue w) (tx_queue w) (interrupt_status w) (intc w) (irq_line w) (mem w) (backend w) (rx_frame_buf w)
    (rx_frame_buf_len w) d (tx_frame_buf w) (tx_frame_len w).

Definition set_tx (w : NetWorker) (q : Queue) (m : M) : NetWorker :=
  mkNet (rx_queue w) q (interrupt_status w) (intc w) (irq_line w) m (backend w) (rx_frame_buf w) (rx_frame_buf_len w)
    (rx_has_deferred_frame w) (tx_frame_buf w) (tx_frame_len w).

Definition set_tx_frame (w : NetWorker) (b : B) (buf : list byte) (n : nat) : NetWorker :=
  mkNet (rx_queue w) (tx_queue w) (interrupt_status w) (intc w) (irq_line w) (mem w) b (rx_frame_buf w)
    (rx_frame_buf_len w) (rx_has_deferred_frame w) buf n.

(** [evt_ok]: the interrupt event could be written. *)
Definition signal_used_queue (w : NetWorker) (evt_ok : bool) : outcome (bool * NetWorker) :=
  let w := mkNet (rx_queue w) (tx_queue w) (interrupt_status w .| VIRTIO_MMIO_INT_VRING) (intc w) (irq_line w) (mem w)
             (backend w) (rx_frame_buf w) (rx_frame_buf_len w) (rx_has_deferred_frame w) (tx_frame_buf w)
             (tx_frame_len w) in
  if intc w then _ ← unwrap (irq_line w); Ret (true, w) else Ret (evt_ok, w).

(** ** Frames to the guest *)

(** The loop of [write_frame_to_guest_impl] over the descriptors: the result,
    what is left of the frame, and memory.  [fuel] bounds the descriptors. *)
Fixpoint fill_frame (fuel : nat) (m : M) (next_desc : option DescriptorChain) (frame_slice : list byte)
    : result FrontendError unit * list byte * M :=
  match fuel, next_desc with
  | O, _ | _, None => (Ok tt, frame_slice, m)
  | S fuel, Some descriptor =>
      match frame_slice with
      | [] => (Ok tt, [], m)
      | _ =>
          if negb (is_write_only descriptor) then (Err ReadOnlyDescriptor, frame_slice, m)
          else
            let len := (length frame_slice `min` Z.to_nat (len descriptor))%nat in
            match gm_write m (addr descriptor) (take len frame_slice) with
            | None => (Err GuestMemory_, frame_slice, m)
            | Some m => fill_frame fuel m (next_descriptor m descriptor) (drop len frame_slice)
            end
      end
  end.

Definition chain_fuel (c : DescriptorChain) : nat := Z.to_nat (Z.max 1 (ttl c)).

Definition write_frame_to_guest_impl (w : NetWorker) : outcome (result FrontendError unit * NetWorker) :=
  '(head, q) ← pop (mem w) (rx_queue w);
  match head with
  | None => Ret (Err EmptyQueue, set_rx w q (mem w))
  | Some head =>
      let frame := take (rx_frame_buf_len w) (rx_frame_buf w) in
      let '(result, rest, m) := fill_frame (chain_fuel head) (mem w) (Some head) frame in
      let result := match result, rest with Ok _, _ :: _ => Err DescriptorChainTooSmall | r, _ => r end in
      let used_len := match result with Ok _ => wrap 32 (Zlength frame) | Err _ => 0 end in
      let '(r, q, m) := add_used m q (index head) used_len in
      Ret (match r with Ok _ => result | Err e => Err (QueueError e) end, set_rx w q m)
  end.

(** [write_frame_to_guest], with the retries that are left. *)
Fixpoint write_retries (n : nat) (w : NetWorker) : outcome (bool * NetWorker) :=
  match n with
  | O => Ret (false, w)
  | S n =>
      '(r, w) ← write_frame_to_guest_impl w;
      match r with Ok _ => Ret (true, w) | Err _ => write_retries n w end
  end.

Definition write_frame_to_guest (w : NetWorker) : outcome (bool * NetWorker) :=
  write_retries (Z.to_nat (actual_size (rx_queue w))) w.

Definition read_into_rx_frame_buf_from_backend (fuel : nat) (w : NetWorker)
    : fueled (result ReadError unit * NetWorker) :=
  let '(buf, len) := write_virtio_net_hdr (rx_frame_buf w) in
  '(r, rest, b) ← read_frame fuel (backend w) (drop len buf);
  let buf := take len buf ++ rest in
  match r with
  | Ok n => mret (Ok tt, set_rx_frame w b buf (len + n))
  | Err e => mret (Err e, set_rx_frame w b buf (rx_frame_buf_len w))
  end.

(** The loop of [process_rx]; [signal]: some chain has been used. *)
Fixpoint rx_loop (fuel : nat) (w : NetWorker) (signal : bool) : fueled (result RxError unit * bool * NetWorker) :=
  match fuel with
  | O => None
  | S fuel' =>
      '(r, w) ← read_into_rx_frame_buf_from_backend fuel w;
      match r with
      | Ok _ =>
          '(ok, w) ← (Some (write_frame_to_guest w) : fueled _);
          if ok : bool then rx_loop fuel' w true else mret (Ok tt, signal, set_deferred w true)
      | Err NothingRead => mret (Ok tt, signal, w)
      | Err e => mret (Err (RxBackend e), signal, w)
      end
  end.

(** [process_rx] after the deferred frame. *)
Definition rx_all (fuel : nat) (evt_ok : bool) (w : NetWorker) : fueled (result RxError unit * NetWorker) :=
  '(r, signal, w) ← rx_loop fuel w false;
  if signal : bool then
    '(ok, w) ← (Some (signal_used_queue w evt_ok) : fueled _);
    if ok : bool then mret (r, w) else mret (Err RxDeviceError, w)
  else mret (r, w).

Definition process_rx (fuel : nat) (evt_ok : bool) (w : NetWorker) : fueled (result RxError unit * NetWorker) :=
  '(go, w) ← ((if rx_has_deferred_frame w then
                 Some ('(ok, w) ← write_frame_to_guest w; Ret (ok, if ok : bool then set_deferred w false else w))
               else mret (true, w)) : fueled _);
  if negb go then mret (Ok tt, w) else rx_all fuel evt_ok w.

(** ** Frames from the guest *)

(** The descriptors of a chain; none when one of them is write-only. *)
Fixpoint tx_collect (fuel : nat) (m : M) (next_desc : option DescriptorChain) (iovec : list (Z * nat))
    : list (Z * nat) :=
  match fuel, next_desc with
  | O, _ | _, None => iovec
  | S fuel, Some desc =>
      if is_write_only desc then []
      else tx_collect fuel m (next_descriptor m desc) (iovec ++ [(addr desc, Z.to_nat (len desc))])
  end.

(** Copying the buffers one after the other, as far as the frame buffer goes. *)
Fixpoint gather (m : M) (iovec : list (Z * nat)) (buf : list byte) (read_count : nat) : list byte * nat :=
  match iovec with
  | [] => (buf, read_count)
  | (desc_addr, desc_len) :: iovec =>
      let limit := ((read_count + desc_len) `min` length buf)%nat in
      match gm_read m desc_addr (limit - read_count) with
      | Some bs => gather m iovec (splice buf read_count bs) (read_count + (limit - read_count))
      | None => (buf, 0%nat)
      end
  end.

(** How one pass of the transmit loop ends. *)
Inductive TxStep := TxContinue | TxBreak | TxReturn (e : TxError).

Definition tx_used (w : NetWorker) (head : DescriptorChain) (after : TxStep) : TxStep * bool * NetWorker :=
  let '(r, q, m) := add_used (mem w) (tx_queue w) (index head) 0 in
  match r with
  | Ok _ => (after, true, set_tx w q m)
  | Err e => (TxReturn (TxQueueError e), false, set_tx w q m)
  end.

Definition tx_round (fuel : nat) (w : NetWorker) : fueled (TxStep * bool * NetWorker) :=
  '(head, q) ← (Some (pop (mem w) (tx_queue w)) : fueled _);
  let w := set_tx w q (mem w) in
  match head with
  | None => mret (TxBreak, false, w)
  | Some head =>
      let iovec := tx_collect (chain_fuel head) (mem w) (Some head) [] in
      let '(buf, read_count) := gather (mem w) iovec (tx_frame_buf w) 0 in
      '(r, front, b) ← write_frame fuel (backend w) vnet_hdr_len (take read_count buf);
      let w := set_tx_frame w b (front ++ drop read_count buf) read_count in
      match r with
      | Ok _ => mret (tx_used (set_tx_frame w b (tx_frame_buf w) 0) head TxContinue)
      | Err NothingWritten => mret (TxBreak, false, set_tx w (undo_pop (tx_queue w)) (mem w))
      | Err PartialWrite => mret (tx_used w head TxBreak)
      | Err e => mret (TxReturn (TxBackend e), false, w)
      end
  end.

(** The loop; [raise_irq]: some chain has been returned. *)
Fixpoint tx_loop (fuel : nat) (w : NetWorker) (raise_irq : bool) : fueled (result TxError bool * NetWorker) :=
  match fuel with
  | O => None
  | S fuel' =>
      '(step, used, w) ← tx_round fuel w;
      match step with
      | TxContinue => tx_loop fuel' w (raise_irq || used)
      | TxBreak => mret (Ok (raise_irq || used), w)
      | TxReturn e => mret (Err e, w)
      end
  end.

Definition process_tx (fuel : nat) (evt_ok : bool) (w : NetWorker) : fueled (result TxError unit * NetWorker) :=
  '(go, w) ← (if has_unfinished_write (backend w) then
                '(r, b) ← try_finish_write fuel (backend w) vnet_hdr_len (take (tx_frame_len w) (tx_frame_buf w));
                mret (is_ok r, set_tx_frame w b (tx_frame_buf w) (tx_frame_len w))
              else mret (true, w));
  if negb go then mret (Ok tt, w)
  else
    '(r, w) ← tx_loop fuel w false;
    match r with
    | Err e => mret (Err e, w)
    | Ok false => mret (Ok tt, w)
    | Ok true =>
        let '(needed, q) := needs_notification (mem w) (tx_queue w) in
        let w := set_tx w q (mem w) in
        match needed with
        | Err _ => Some Panic
        | Ok false => mret (Ok tt, w)
        | Ok true =>
            '(ok, w) ← (Some (signal_used_queue w evt_ok) : fueled _);
            if ok : bool then mret (Ok tt, w) else mret (Err TxDeviceError, w)
        end
    end.

Fixpoint process_tx_loop (fuel : nat) (evt_ok : bool) (w : NetWorker) : fueled NetWorker :=
  match fuel with
  | O => None
  | S fuel' =>
      match disable_notification (mem w) (tx_queue w) with
      | Err _ => Some Panic
      | Ok m =>
          '(_, w) ← process_tx fuel evt_ok (set_tx w (tx_queue w) m);
          match enable_notification (mem w) (tx_queue w) with
          | Err _ => Some Panic
          | Ok (true, m) => process_tx_loop fuel' evt_ok (set_tx w (tx_queue w) m)
          | Ok (false, m) => mret (set_tx w (tx_queue w) m)
          end
      end
  end.

(** ** Events *)

(** A failed change of the notification setting is logged and ignored. *)
Definition rx_notification (enable : bool) (w : NetWorker) : NetWorker :=
  if enable then
    match enable_notification (mem w) (rx_queue w) with Ok (_, m) => set_rx w (rx_queue w) m | Err _ => w end
  else
    match disable_notification (mem w) (rx_queue w) with Ok m => set_rx w (rx_queue w) m | Err _ => w end.

Definition process_rx_queue_event (fuel : nat) (evt_ok : bool) (w : NetWorker) : fueled NetWorker :=
  '(_, w) ← process_rx fuel evt_ok (rx_notification false w);
  mret (rx_notification true w).

Definition process_tx_queue_event (fuel : nat) (evt_ok read_ok : bool) (w : NetWorker) : fueled NetWorker :=
  if read_ok then process_tx_loop fuel evt_ok w else mret w.

Definition process_backend_socket_readable (fuel : nat) (evt_ok : bool) (w : NetWorker) : fueled NetWorker :=
  '(_, w) ← process_rx fuel evt_ok (rx_notification true w);
  mret (rx_notification false w).

Definition process_backend_socket_writeable (fuel : nat) (evt_ok : bool) (w : NetWorker) : fueled NetWorker :=
  '(r, b) ← try_finish_write fuel (backend w) vnet_hdr_len (take (tx_frame_len w) (tx_frame_buf w));
  let w := set_tx_frame w b (tx_frame_buf w) (tx_frame_len w) in
  match r with Ok _ => process_tx_loop fuel evt_ok w | Err _ => mret w end.

(** One event of the loop in [work]. *)
Definition work_event (fuel : nat) (evt_ok read_ok : bool) (source : Source) (event_set : Z) (w : NetWorker)
    : fueled NetWorker :=
  let contains e := event_set .& e =? e in
  match source with
  | VirtqRx => if event_set =? EV_IN then process_rx_queue_event fuel evt_ok w else mret w
  | VirtqTx => if event_set =? EV_IN then process_tx_queue_event fuel evt_ok read_ok w else mret w
  | BackendSocket =>
      if contains EV_HANG_UP || contains EV_READ_HANG_UP then mret w
      else
        w ← (if contains EV_IN then process_backend_socket_readable fuel evt_ok w else mret w);
        if contains EV_OUT then process_backend_socket_writeable fuel evt_ok w else mret w
  | Unknown => mret w
  end.

(** ** The device *)

Record VirtioNetConfig := mkConfig { mac : list byte; status : Z; max_virtqueue_pairs : Z }.

(** The packed structure. *)
Definition config_bytes (c : VirtioNetConfig) : list byte :=
  mac c ++ le_bytes 2 (status c) ++ le_bytes 2 (max_virtqueue_pairs c).

Record Net := mkDev {
  avail_features : Z; acked_features : Z; queues : list Queue; dev_interrupt_status : Z;
  device_state : option M; dev_intc : bool; dev_irq_line : option Z; config : VirtioNetConfig;
}.

Definition net_new (mac : list byte) : Net :=
  mkDev ((1 .<< VIRTIO_NET_F_GUEST_CSUM) .| (1 .<< VIRTIO_NET_F_CSUM) .| (1 .<< VIRTIO_NET_F_GUEST_TSO4) .|
         (1 .<< VIRTIO_NET_F_HOST_TSO4) .| (1 .<< VIRTIO_NET_F_GUEST_UFO) .| (1 .<< VIRTIO_NET_F_HOST_UFO) .|
         (1 .<< VIRTIO_NET_F_MAC) .| (1 .<< VIRTIO_RING_F_EVENT_IDX) .| (1 .<< VIRTIO_F_VERSION_1))
    0 (map Queue_new QUEUE_SIZES) 0 None false None (mkConfig mac 0 0).

Definition net_read_config (d : Net) (offset : Z) (data : list byte) : list byte :=
  config_read (config_bytes (config d)) offset data.

(** [activate]: both queues learn whether event indices are in use, and the
    worker gets copies of them and the backend. *)
Definition net_activate (d : Net) (m : M) (b : B) : outcome (Net * NetWorker) :=
  let event_idx := negb (acked_features d .& (1 .<< VIRTIO_RING_F_EVENT_IDX) =? 0) in
  rx ← unwrap (queues d !! RX_INDEX);
  tx ← unwrap (queues d !! TX_INDEX);
  let rx := set_event_idx rx event_idx in
  let tx := set_event_idx tx event_idx in
  Ret (mkDev (avail_features d) (acked_features d) (<[TX_INDEX := tx]> (<[RX_INDEX := rx]> (queues d)))
         (dev_interrupt_status d) (Some m) (dev_intc d) (dev_irq_line d) (config d),
       new rx tx (dev_interrupt_status d) (dev_intc d) (dev_irq_line d) m b).

Definition is_activated (d : Net) : bool := match device_state d with Some _ => true | None => false end.

(** ** A frame in the buffers of a chain *)

Context `{!GuestMemoryLaws M}.

(** The pieces of a frame the descriptors of a chain take. *)
Fixpoint spread (frame : list byte) (l : list DescriptorChain) : list (list byte) :=
  match frame, l with
  | [], _ | _, [] => []
  | _, d :: l =>
      let n := (length frame `min` Z.to_nat (len d))%nat in
      take n frame :: spread (drop n frame) l
  end.

Lemma spread_nil l : spread [] l = [].
Proof. by destruct l. Qed.

Lemma spread_concat frame l :
  Forall (fun d => 0 <= len d) l -> Zlength frame <= total_len l -> concat (spread frame l) = frame.
Proof.
  revert frame. induction l as [|d l IH]; intros [|b frame] Hl Ht; try done; try (cbn in Ht; lia).
  apply Forall_cons in Hl as [Hd Hl]. set (f := b :: frame) in *. cbn [total_len foldr] in Ht.
  change (spread f (d :: l)) with (take (length f `min` Z.to_nat (len d)) f :: spread (drop (length f `min` Z.to_nat (len d)) f) l).
  cbn [concat]. rewrite IH; [apply take_drop|done|]. rewrite length_drop. fold (total_len l) in Ht.
  pose proof (total_len_nonneg l Hl). lia.
Qed.

(** Where the pieces end up. *)
Definition holds (m : M) (l : list DescriptorChain) (pieces : list (list byte)) : Prop :=
  (length pieces <= length l)%nat /\
  forall i d bs, l !! i = Some d -> pieces !! i = Some bs ->
    gm_read m (addr d) (length bs) = Some bs /\ Zlength bs <= len d.

Lemma fill_frame_spec fuel m c frame l dt qs :
  l = desc_iter_collect fuel m (Some c) -> desc_table c = dt -> queue_size c = qs -> 0 <= next c -> bytes_ok frame ->
  Forall (fun d => is_write_only d = true) l -> Forall (buffer_ok m dt qs) l -> buffers_apart l ->
  exists m', fill_frame fuel m (Some c) frame = (Ok tt, drop (Z.to_nat (total_len l)) frame, m') /\
    holds m' l (spread frame l) /\
    (forall a k, Forall (fun d => a + Z.of_nat k <= addr d \/ addr d + len d <= a) l -> gm_read m' a k = gm_read m a k).
Proof.
  intros -> Hdt Hqs. revert m c frame Hdt Hqs. induction fuel as [|fuel IH]; intros m c frame Hdt Hqs Hn Hfr Hwo Hok Hap.
  { exists m. cbn. destruct frame; (split; [done|]); split; try done; by split; [cbn; lia|]. }
  cbn [fill_frame desc_iter_collect desc_iter_next] in *. set (l := desc_iter_collect fuel m (next_descriptor m c)) in *.
  destruct frame as [|b0 f0]. { exists m. rewrite drop_nil. split; [done|]. split; [by split; [cbn; lia|]|done]. }
  set (f := b0 :: f0) in *. set (n := (length f `min` Z.to_nat (len c))%nat).
  apply Forall_cons in Hwo as [Hwc Hwl], Hok as [Hc Hl]. destruct Hap as [Hapc Hapl], Hc as [[old Hold] Hlen Htab].
  rewrite Hwc. cbn [negb]. assert (length (take n f) = n) as Hln by (rewrite length_take; lia).
  assert (bytes_ok (take n f)) as Hbn by (by apply Forall_take).
  pose proof (gm_read_sub _ _ _ _ 0 n Hold ltac:(lia)) as Hsub. rewrite Z.add_0_r in Hsub.
  destruct (gm_write_total m (addr c) (take n f) (slice old 0 n)) as [m1 Hm1]; [rewrite Hln; exact Hsub|done|]. rewrite Hm1.
  pose proof (gm_write_read _ _ _ _ Hm1 Hbn) as Hrd. rewrite Hln in Hrd.
  assert (forall a k, a + Z.of_nat k <= addr c \/ addr c + len c <= a -> gm_read m1 a k = gm_read m a k) as Hfr1.
  { intros a k Hak. apply (gm_write_frame _ _ _ _ _ _ Hm1). rewrite Hln. lia. }
  destruct (desc_iter_frame fuel _ _ _ _ c dt qs Hm1) as [Hnx Hit]; [rewrite Hln; lia|done..|].
  change (spread f (c :: l)) with (take n f :: spread (drop n f) l).
  assert (drop (Z.to_nat (total_len (c :: l))) f = drop (Z.to_nat (total_len l)) (drop n f)) as ->.
  { assert (0 <= total_len l) as Htl by (apply total_len_nonneg; eapply Forall_impl; [exact Hl|]; by intros d []).
    cbn [total_len foldr]. fold (total_len l). rewrite drop_drop, Z2Nat.inj_add by lia.
    destruct (Nat.le_ge_cases (length f) (Z.to_nat (len c))).
    - rewrite !drop_ge by lia. done.
    - by replace n with (Z.to_nat (len c)) by lia. }
  assert (forall m', holds m' l (spread (drop n f) l) -> gm_read m' (addr c) n = Some (take n f) ->
    holds m' (c :: l) (take n f :: spread (drop n f) l)) as Hcons.
  { intros m' [Hle Hh] Hrd'. split; [cbn [length]; lia|]. intros [|i] d bs Hd Hb; [|by apply (Hh i)].
    assert (d = c) as -> by by injection Hd. assert (bs = take n f) as -> by by injection Hb.
    rewrite Hln. split; [done|lia]. }
  rewrite Hnx. destruct (next_descriptor m c) as [c'|] eqn:En.
  - apply next_descriptor_Some in En as Hnd. destruct Hnd as (_ & _ & _ & _ & _ & Hq' & Hd').
    apply next_descriptor_nonneg in En as [Hn' _]. rewrite Hnx in Hit.
    destruct (IH m1 c' (drop n f)) as (m' & -> & Hh & Hfr'); rewrite ?Hit; fold l; try congruence; try done.
    { by apply Forall_drop. }
    { eapply Forall_impl; [exact Hl|]. intros d [Hm ? ?]. split; try done. by apply (gm_write_domain _ _ _ _ _ _ Hm1). }
    rewrite Hit in Hh, Hfr'. fold l in Hh, Hfr'. exists m'. split; [done|]. split.
    + apply Hcons; [done|]. rewrite <- Hrd. apply Hfr'. eapply Forall_impl; [exact Hapc|].
      intros d Hd. unfold buffer_apart in Hd. lia.
    + intros a k [Ha Hk]%Forall_cons. rewrite Hfr' by done. by apply Hfr1.
  - assert (l = []) as El by (subst l; by destruct fuel). rewrite El in *. exists m1.
    assert (fill_frame fuel m1 None (drop n f) = (Ok tt, drop n f, m1)) as -> by by destruct fuel.
    split; [done|]. split; [apply Hcons; [|done]; by destruct (drop n f); (split; [cbn; lia|])|].
    intros a k [Ha _]%Forall_cons. by apply Hfr1.
Qed.

(** ** Frames to the guest *)

(** A chain that can take a frame: writable, mapped buffers apart from each
    other and from the rings. *)
Record roomy (m : M) (q : Queue) (c : DescriptorChain) : Prop := {
  ro_writable : Forall (fun d => is_write_only d = true) (into_iter m c);
  ro_mapped : Forall (buffer_ok m (q_desc_table q) (size q)) (into_iter m c);
  ro_apart : buffers_apart (into_iter m c);
  ro_used : Forall (fun d => addr d + len d <= used_ring q \/ used_ring q + (6 + 8 * size q) <= addr d) (into_iter m c);
}.

Definition rx_frame (w : NetWorker) : list byte := take (rx_frame_buf_len w) (rx_frame_buf w).

Lemma frame_written w hd c lg :
  pending (mem w) (rx_queue w) hd c -> roomy (mem w) (rx_queue w) c -> bytes_ok (rx_frame w) ->
  Zlength (rx_frame w) <= total_len (into_iter (mem w) c) -> Zlength (rx_frame w) < 2 ^ 32 ->
  used_log (mem w) (rx_queue w) lg -> Zlength lg < size (rx_queue w) ->
  exists q m, write_frame_to_guest_impl w = Ret (Ok tt, set_rx w q m) /\
    holds m (into_iter (mem w) c) (spread (rx_frame w) (into_iter (mem w) c)) /\
    used_log m q (lg ++ [(hd, Zlength (rx_frame w))]) /\ next_avail q = next_avail (rx_queue w) +[16] 1.
Proof.
  intros Hp [Hwo Hok Hap Hur] Hb Hfit H32 Hlog Hl. unfold write_frame_to_guest_impl.
  rewrite (pending_pop _ _ _ _ Hp). cbn [mbind outcome_bind]. fold (rx_frame w).
  pose proof (pe_chain _ _ _ _ Hp) as Hc. apply checked_new_Some in Hc as Hcs.
  destruct Hcs as (_ & _ & Hq & _ & Hdt & _). apply checked_new_fields in Hc as (_ & _ & [Hn _]).
  destruct (fill_frame_spec (chain_fuel c) (mem w) c (rx_frame w) _ _ _ eq_refl Hdt Hq Hn Hb Hwo Hok Hap)
    as (m1 & Hfill & Hholds & Hframe). rewrite Hfill.
  change (desc_iter_collect (chain_fuel c) (mem w) (Some c)) with (into_iter (mem w) c) in *.
  set (l := into_iter (mem w) c) in *.
  rewrite drop_ge by lia. rewrite (wrap_small 32) by (unfold fits; lia).
  destruct (pending_complete (mem w) (rx_queue w) hd c lg m1 (Zlength (rx_frame w)) Hp Hlog Hl)
    as (q2 & m2 & Hadd & Hlog2 & Hna & _ & Hfr2); [unfold fits; lia| |].
  { intros a k Hak. apply Hframe. eapply Forall_impl; [exact Hur|]. cbn. lia. }
  rewrite Hadd. exists q2, m2. split; [done|]. split_and!; try done.
  destruct Hholds as [Hle Hh]. split; [done|]. intros i d bs Hd Hbs. destruct (Hh i d bs Hd Hbs) as [Hr Hz].
  split; [|done]. rewrite Hfr2; [done|]. rewrite Forall_forall in Hur.
  pose proof (Hur d (list_elem_of_lookup_2 _ _ _ Hd)). cbn in *. lia.
Qed.

(** A frame reaches the guest: when the guest has published a chain that can
    take it, the frame in the receive buffer, header included, is laid out over
    the chain's buffers in order, and the chain is returned with its length. *)
Theorem rx_frame_delivered w hd c lg :
  pending (mem w) (rx_queue w) hd c -> roomy (mem w) (rx_queue w) c ->
  bytes_ok (rx_frame w) -> Zlength (rx_frame w) < 2 ^ 32 -> Zlength (rx_frame w) <= total_len (into_iter (mem w) c) ->
  used_log (mem w) (rx_queue w) lg -> Zlength lg < size (rx_queue w) ->
  exists w' pieces, write_frame_to_guest w = Ret (true, w') /\
    concat pieces = rx_frame w /\ holds (mem w') (into_iter (mem w) c) pieces /\
    used_log (mem w') (rx_queue w') (lg ++ [(hd, Zlength (rx_frame w))]) /\
    next_avail (rx_queue w') = next_avail (rx_queue w) +[16] 1.
Proof.
  intros Hp Hro Hb H32 Hfit Hlog Hl.
  destruct (frame_written w hd c lg Hp Hro Hb Hfit H32 Hlog Hl) as (q & m & Hw & Hh & Hlg & Hna).
  exists (set_rx w q m), (spread (rx_frame w) (into_iter (mem w) c)). split.
  - unfold write_frame_to_guest. pose proof (ao_size _ _ (pe_avail _ _ _ _ Hp)) as Hs.
    destruct (Z.to_nat (actual_size (rx_queue w))) as [|n] eqn:E; [unfold actual_size in E; lia|].
    cbn [write_retries]. by rewrite Hw.
  - split; [|done]. apply spread_concat; [|done]. destruct Hro as [_ Hro _ _].
    eapply Forall_impl; [exact Hro|]. by intros d [].
Qed.

(** ** Order of received frames *)

Context `{!NetBackendLaws B}.

(** The steps of [process_rx] that hand a frame over, and the others. *)
Inductive quiet (w : NetWorker) : NetWorker -> Prop :=
| qu_read fuel r w' : read_into_rx_frame_buf_from_backend fuel w = Some (Ret (r, w')) -> quiet w w'
| qu_full w' : write_frame_to_guest w = Ret (false, w') -> quiet w w'
| qu_defer d : quiet w (set_deferred w d)
| qu_signal ok r w' : signal_used_queue w ok = Ret (r, w') -> quiet w w'.

Inductive gives : NetWorker -> list (list byte) -> NetWorker -> Prop :=
| gi_stop w : gives w [] w
| gi_quiet w w1 fs w2 : quiet w w1 -> gives w1 fs w2 -> gives w fs w2
| gi_frame w w1 fs w2 : write_frame_to_guest w = Ret (true, w1) -> gives w1 fs w2 ->
    gives w (drop vnet_hdr_len (rx_frame w) :: fs) w2.

(** The frames the guest has still to get, in order: a deferred one, then
    those the backend will deliver. *)
Record inbox (w : NetWorker) (fs : list (list byte)) : Prop := {
  ib_buffer : length (rx_frame_buf w) = MAX_BUFFER_SIZE;
  ib_frames : exists later, delivers (backend w) later /\
    Forall (fun f => (length f <= MAX_BUFFER_SIZE - vnet_hdr_len)%nat) later /\
    if rx_has_deferred_frame w
    then exists f, rx_frame w = replicate vnet_hdr_len 0 ++ f /\ fs = f :: later
    else fs = later;
}.

Lemma gives_app w fs w1 gs w2 : gives w fs w1 -> gives w1 gs w2 -> gives w (fs ++ gs) w2.
Proof. induction 1; cbn; [done|by eauto using gi_quiet|by eauto using gi_frame]. Qed.

(** Writing to the guest touches the receive ring and memory only. *)
Lemma write_retries_keeps n w ok w' : write_retries n w = Ret (ok, w') -> exists q m, w' = set_rx w q m.
Proof.
  revert w. induction n as [|n IH]; intros w; cbn [write_retries].
  { intros [= _ <-]. exists (rx_queue w), (mem w). by destruct w. }
  destruct (write_frame_to_guest_impl w) as [[r w1]|] eqn:E; [|done]. cbn [mbind outcome_bind].
  assert (exists q m, w1 = set_rx w q m) as (q & m & ->).
  { unfold write_frame_to_guest_impl in E. destruct (pop _ _) as [[[head|] q]|]; cbn [mbind outcome_bind] in E; [| |done].
    - destruct (fill_frame _ _ _ _) as [[? ?] ?]. destruct (add_used _ _ _ _) as [[? q'] m']. injection E as _ <-. by eauto.
    - injection E as _ <-. by eauto. }
  destruct r; [intros [= _ <-]; by eauto|]. intros (q' & m' & ->)%IH. by eauto.
Qed.

Lemma inbox_kept w q m fs : inbox w fs -> inbox (set_rx w q m) fs.
Proof. by intros [Hb Hf]. Qed.

(** A read either brings the next frame or leaves the order as it is. *)
Lemma read_spec fuel w fs :
  inbox w fs -> rx_has_deferred_frame w = false -> (4 + MAX_BUFFER_SIZE < fuel)%nat ->
  exists r w', read_into_rx_frame_buf_from_backend fuel w = Some (Ret (r, w')) /\ rx_has_deferred_frame w' = false /\
    match r with
    | Ok _ => exists f fs', fs = f :: fs' /\ rx_frame w' = replicate vnet_hdr_len 0 ++ f /\ inbox w' fs' /\
        inbox (set_deferred w' true) fs
    | Err NothingRead => inbox w' fs
    | Err _ => True
    end.
Proof.
  intros [Hlen (later & Hd & Hfit & Hfs)] Hdef Hf. rewrite Hdef in Hfs. subst later.
  unfold read_into_rx_frame_buf_from_backend, write_virtio_net_hdr.
  set (buf := splice (rx_frame_buf w) 0 (replicate vnet_hdr_len 0)).
  assert (length buf = MAX_BUFFER_SIZE) as Hl by (subst buf; by rewrite length_splice).
  assert (take vnet_hdr_len buf = replicate vnet_hdr_len 0) as Hh.
  { subst buf. pose proof (slice_splice_same (rx_frame_buf w) 0 (replicate vnet_hdr_len 0)) as Hs.
    rewrite length_replicate in Hs. unfold slice in Hs. rewrite drop_0 in Hs. apply Hs. rewrite Hlen.
    unfold MAX_BUFFER_SIZE, vnet_hdr_len. lia. }
  destruct (read_frame_spec fuel (backend w) fs (drop vnet_hdr_len buf) Hd) as (r & rest & b & -> & Hrl & Hc & Hr);
    [rewrite length_drop; lia|by rewrite length_drop, Hl|].
  rewrite length_drop, Hl in Hrl. cbn [mbind fueled_bind].
  assert (length (take vnet_hdr_len buf ++ rest) = MAX_BUFFER_SIZE) as Hl'.
  { rewrite length_app, length_take, Hl, Hrl. unfold MAX_BUFFER_SIZE, vnet_hdr_len. lia. }
  destruct r as [n|e]; (do 2 eexists; split; [done|]; split; [done|]).
  - destruct Hr as (f & fs' & -> & -> & Htk & Hb & Hd'). apply Forall_cons in Hfit as [_ Hfit].
    assert (take (vnet_hdr_len + length f) (take vnet_hdr_len buf ++ rest) = replicate vnet_hdr_len 0 ++ f) as Hfr.
    { rewrite Hh, take_app, length_replicate. rewrite (take_ge (replicate _ _)) by (rewrite length_replicate; lia).
      by replace (vnet_hdr_len + length f - vnet_hdr_len)%nat with (length f) by lia; rewrite Htk. }
    exists f, fs'. split; [done|]. split; [exact Hfr|]. split.
    + split; [done|]. exists fs'. cbn. by rewrite Hdef.
    + split; [done|]. exists fs'. cbn. split; [done|]. split; [done|]. exists f. by split.
  - destruct e; [|done]. split; [done|]. exists fs. cbn. by rewrite Hdef.
Qed.

Lemma header_dropped w f : rx_frame w = replicate vnet_hdr_len 0 ++ f -> drop vnet_hdr_len (rx_frame w) = f.
Proof. intros ->. by rewrite drop_app_ge, length_replicate, Nat.sub_diag by (by rewrite length_replicate). Qed.

Lemma rx_loop_spec fuel w fs signal :
  inbox w fs -> rx_has_deferred_frame w = false -> (4 + MAX_BUFFER_SIZE + length fs < fuel)%nat ->
  exists o, rx_loop fuel w signal = Some o /\
    forall r sig w', o = Ret (r, sig, w') -> (forall e, r <> Err (RxBackend e)) ->
      exists given rest, fs = given ++ rest /\ gives w given w' /\ inbox w' rest.
Proof.
  revert w fs signal. induction fuel as [|fuel IH]; intros w fs signal Hib Hdef Hf; [lia|]. cbn [rx_loop].
  destruct (read_spec (S fuel) w fs Hib Hdef) as (r & w1 & Hrd & Hdef1 & Hr); [lia|]. rewrite Hrd. cbn [mbind fueled_bind].
  destruct r as [[]|e].
  - destruct Hr as (f & fs' & -> & Hfr & Hib' & Hibd).
    destruct (write_frame_to_guest w1) as [[[] w2]|] eqn:Ew; cbn [mbind fueled_bind]; [| |by eexists].
    + destruct (write_retries_keeps _ _ _ _ Ew) as (q & m & ->).
      destruct (IH (set_rx w1 q m) fs' true) as (o & -> & Ho); [by apply inbox_kept|done|cbn in Hf; lia|].
      eexists. split; [done|]. intros r sig w' Heq Hne. destruct (Ho r sig w' Heq Hne) as (given & rest & -> & Hg & Hi).
      exists (f :: given), rest. split; [done|]. split; [|done]. eapply gi_quiet; [by eapply qu_read|].
      rewrite <- (header_dropped w1 f Hfr). by eapply gi_frame.
    + destruct (write_retries_keeps _ _ _ _ Ew) as (q & m & ->).
      eexists. split; [done|]. intros r sig w' [= <- <- <-] _. exists [], (f :: fs'). split; [done|]. split.
      * eapply gi_quiet; [by eapply qu_read|]. eapply gi_quiet; [by apply qu_full|].
        eapply gi_quiet; [apply qu_defer|apply gi_stop].
      * destruct Hibd as [Hbl Hbf]. by split.
  - destruct e; (eexists; split; [done|]; intros r sig w' [= <- <- <-] Hne); [|by destruct (Hne _ eq_refl)].
    exists [], fs. split; [done|]. split; [|done]. eapply gi_quiet; [by eapply qu_read|apply gi_stop].
Qed.

Lemma signal_keeps w ok b w' fs : signal_used_queue w ok = Ret (b, w') -> inbox w fs -> inbox w' fs.
Proof.
  unfold signal_used_queue. intros Hs [Hb Hf].
  destruct (intc _); [destruct (unwrap _); [|done]|]; injection Hs as _ <-; by split.
Qed.

(** What [process_rx] and its parts promise. *)
Definition rx_ordered (w : NetWorker) (fs : list (list byte)) (x : fueled (result RxError unit * NetWorker)) : Prop :=
  exists o, x = Some o /\ forall w', o = Ret (Ok tt, w') ->
    exists given rest, fs = given ++ rest /\ gives w given w' /\ inbox w' rest.

Lemma rx_all_spec fuel evt_ok w fs :
  inbox w fs -> rx_has_deferred_frame w = false -> (4 + MAX_BUFFER_SIZE + length fs < fuel)%nat ->
  rx_ordered w fs (rx_all fuel evt_ok w).
Proof.
  intros Hib Hdef Hf. unfold rx_all, rx_ordered.
  destruct (rx_loop_spec fuel w fs false Hib Hdef Hf) as (o & -> & Ho).
  destruct o as [[[r signal] w1]|]; cbn [mbind fueled_bind]; [|by eexists]. destruct signal.
  - destruct (signal_used_queue w1 evt_ok) as [[[] w2]|] eqn:Es; cbn [mbind fueled_bind]; [|by eexists..].
    eexists. split; [done|]. intros w' [= -> <-].
    destruct (Ho _ _ _ eq_refl) as (given & rest & -> & Hg & Hi); [done|]. exists given, rest. split; [done|].
    split; [|by eapply signal_keeps]. rewrite <- (app_nil_r given).
    eapply gives_app; [done|]. eapply gi_quiet; [by eapply qu_signal|apply gi_stop].
  - eexists. split; [done|]. intros w' [= -> <-]. by apply (Ho _ _ _ eq_refl).
Qed.

(** Order of received frames: [process_rx] ends, and when it succeeds, what
    it has handed to the guest are the first of the outstanding frames (a
    deferred one and those the backend delivers), in order, each once; the
    others stay outstanding. *)
Theorem rx_frames_in_order fuel evt_ok w fs :
  inbox w fs -> (4 + MAX_BUFFER_SIZE + length fs < fuel)%nat ->
  exists o, process_rx fuel evt_ok w = Some o /\
    forall w', o = Ret (Ok tt, w') ->
      exists given rest, fs = given ++ rest /\ gives w given w' /\ inbox w' rest.
Proof.
  intros Hib Hf. unfold process_rx. destruct (rx_has_deferred_frame w) eqn:Hdef; [|by apply rx_all_spec].
  destruct Hib as [Hbl (later & Hd & Hfit & Hfs)]. rewrite Hdef in Hfs. destruct Hfs as (f & Hfr & ->).
  destruct (write_frame_to_guest w) as [[ok w1]|] eqn:Ew; cbn [mbind outcome_bind fueled_bind]; [|by eexists].
  destruct (write_retries_keeps _ _ _ _ Ew) as (q & m & ->). destruct ok; cbn [negb].
  - destruct (rx_all_spec fuel evt_ok (set_deferred (set_rx w q m) false) later) as (o & -> & Ho);
      [by split; [|exists later]|done|cbn in Hf; lia|].
    exists o. split; [done|]. intros w' Heq. destruct (Ho w' Heq) as (given & rest & -> & Hg & Hi).
    exists (f :: given), rest. split; [done|]. split; [|done].
    rewrite <- (header_dropped w f Hfr). eapply gi_frame; [exact Ew|]. eapply gi_quiet; [apply (qu_defer _ false)|exact Hg].
  - eexists. split; [done|]. intros w' [= <-]. exists [], (f :: later). split; [done|].
    split; [eapply gi_quiet; [by apply qu_full|apply gi_stop]|]. split; [done|]. exists later. cbn. rewrite Hdef. split; [done|]. split; [done|]. by exists f.
Qed.

(** ** Frames from the guest *)

Lemma tx_collect_readable fuel m it iovec :
  Forall (fun d => is_write_only d = false) (desc_iter_collect fuel m it) ->
  tx_collect fuel m it iovec = iovec ++ map (fun d => (addr d, Z.to_nat (len d))) (desc_iter_collect fuel m it).
Proof.
  revert it iovec. induction fuel as [|fuel IH]; intros [c|] iovec Hl; cbn in *; rewrite ?app_nil_r; try done.
  apply Forall_cons in Hl as [-> Hl]. rewrite IH by done. by rewrite <- app_assoc.
Qed.

(** The contents of the buffers of a chain. *)
Definition chain_contents (m : M) (l : list DescriptorChain) : option (list (list byte)) :=
  mapM (fun d => gm_read m (addr d) (Z.to_nat (len d))) l.

Lemma gather_spec m l bss buf n :
  chain_contents m l = Some bss -> (n + length (concat bss) <= length buf)%nat ->
  exists buf', gather m (map (fun d => (addr d, Z.to_nat (len d))) l) buf n = (buf', (n + length (concat bss))%nat) /\
    length buf' = length buf /\ take (n + length (concat bss)) buf' = take n buf ++ concat bss.
Proof.
  revert bss buf n. induction l as [|d l IH]; intros bss buf n Hc Hn; cbn in Hc.
  { injection Hc as <-. cbn. rewrite Nat.add_0_r, app_nil_r. by eexists. }
  destruct (gm_read m (addr d) (Z.to_nat (len d))) as [bs|] eqn:Er; [|done]. cbn in Hc.
  destruct (mapM _ l) as [rest|] eqn:Em; [|done]. injection Hc as <-. cbn [concat] in *. rewrite length_app in *.
  apply gm_read_length in Er as Hl. cbn [map gather].
  rewrite Nat.min_l by lia. replace (n + Z.to_nat (len d) - n)%nat with (Z.to_nat (len d)) by lia. rewrite Er.
  destruct (IH rest (splice buf n bs) (n + Z.to_nat (len d))%nat Em) as (buf' & -> & Hlb & Htk);
    [rewrite length_splice; lia|]. rewrite length_splice in Hlb.
  exists buf'. split; [f_equal; lia|]. split; [done|].
  replace (n + (length bs + length (concat rest)))%nat with (n + Z.to_nat (len d) + length (concat rest))%nat by lia.
  rewrite Htk, splice_in by lia. rewrite (app_assoc (take n buf)), (app_assoc (take n buf)). f_equal.
  rewrite take_app_le by (rewrite length_app, length_take; lia). apply take_ge. rewrite length_app, length_take. lia.
Qed.

(** What one pass of the transmit loop does with the frame [f] of the next
    chain, by how it ends: handed over; partly sent, the rest being in the
    transmit buffer; refused, the chain being published again. *)
Definition tx_outcome (w : NetWorker) (hd : Z) (lg : list (Z * Z)) (fs : list (list byte)) (f : list byte)
    (step : TxStep) (used : bool) (w' : NetWorker) : Prop :=
  match step, used with
  | TxContinue, true => carries (backend w') (fs ++ [f]) None /\
      used_log (mem w') (tx_queue w') (lg ++ [(hd, 0)]) /\ next_avail (tx_queue w') = next_avail (tx_queue w) +[16] 1
  | TxBreak, true =>
      carries (backend w') (fs ++ [f])
        (Some (drop (vnet_hdr_len - hdr_len_min) (take (tx_frame_len w') (tx_frame_buf w')))) /\
      used_log (mem w') (tx_queue w') (lg ++ [(hd, 0)]) /\ next_avail (tx_queue w') = next_avail (tx_queue w) +[16] 1
  | TxBreak, false => carries (backend w') fs None /\ tx_queue w' = tx_queue w /\ mem w' = mem w
  | TxReturn (TxBackend _), false => True
  | _, _ => False
  end.

(** A frame from the guest: the bytes of the next chain, without the header,
    are handed to the backend as one frame, and then the chain is returned
    exactly once; when the socket is full the chain is left for later, and when
    only part could be sent the rest is kept for the backend to finish. *)
Theorem tx_frame_sent fuel w hd c lg fs bss :
  pending (mem w) (tx_queue w) hd c -> Forall (fun d => is_write_only d = false) (into_iter (mem w) c) ->
  chain_contents (mem w) (into_iter (mem w) c) = Some bss ->
  (vnet_hdr_len < length (concat bss) <= MAX_BUFFER_SIZE)%nat ->
  length (tx_frame_buf w) = MAX_BUFFER_SIZE -> (MAX_BUFFER_SIZE < fuel)%nat -> (hdr_len_min <= vnet_hdr_len)%nat ->
  carries (backend w) fs None -> used_log (mem w) (tx_queue w) lg -> Zlength lg < size (tx_queue w) ->
  exists step used w', tx_round fuel w = Some (Ret (step, used, w')) /\
    tx_outcome w hd lg fs (drop vnet_hdr_len (concat bss)) step used w'.
Proof.
  intros Hp Hro Hc Hlen Hbuf Hf Hmin Hcar Hlog Hl. unfold tx_round. rewrite (pending_pop _ _ _ _ Hp).
  cbn [mbind fueled_bind]. set (q1 := set_next_avail _ _). cbn [mem tx_queue tx_frame_buf backend set_tx].
  rewrite tx_collect_readable by done. cbn [app].
  destruct (gather_spec (mem w) (into_iter (mem w) c) bss (tx_frame_buf w) 0 Hc) as (buf & Hg & Hlb & Htk); [lia|].
  change (desc_iter_collect (chain_fuel c) (mem w) (Some c)) with (into_iter (mem w) c). rewrite Hg.
  cbn [Nat.add] in *. rewrite take_0 in Htk. cbn [app] in Htk. rewrite Htk. set (bs := concat bss) in *.
  destruct (write_frame_spec fuel (backend w) fs vnet_hdr_len bs Hcar) as (r & front & b & -> & Hlf & Hdf & _ & Hr);
    [lia|unfold MAX_BUFFER_SIZE in *; lia|lia|].
  cbn [mbind fueled_bind].
  destruct (pending_complete (mem w) (tx_queue w) hd c lg (mem w) 0 Hp Hlog Hl) as (q2 & m2 & Hadd & Hlog2 & Hna & _);
    [done|done|]. fold q1 in Hadd.
  assert (undo_pop q1 = tx_queue w) as Hundo.
  { apply undo_set_next_avail; [apply (pe_avail _ _ _ _ Hp)|done]. }
  destruct r as [[]|[]]; unfold tx_used; cbn [mem tx_queue set_tx set_tx_frame]; rewrite ?Hadd, ?Hundo;
    (do 3 eexists; split; [done|]); try done.
  cbn. split; [|done]. rewrite <- Hlf, take_app_length. done.
Qed.
End worker.

(** ** Departures *)

(** A frame that had to wait is delivered without an interrupt: the flag that
    some chain was used does not cover it. *)
Lemma deferred_not_signalled {M B} `{GuestMemory M, NetBackend B} (w w1 w2 : @NetWorker M B) fuel evt_ok :
  rx_has_deferred_frame w = true -> write_frame_to_guest w = Ret (true, w1) ->
  read_into_rx_frame_buf_from_backend (S fuel) (set_deferred w1 false) = Some (Ret (Err NothingRead, w2)) ->
  process_rx (S fuel) evt_ok w = Some (Ret (Ok tt, w2)) /\ interrupt_status w2 = interrupt_status w.
Proof.
  intros Hd Hw Hr. unfold process_rx. rewrite Hd, Hw. cbn [mbind outcome_bind fueled_bind negb].
  unfold rx_all. cbn [rx_loop]. rewrite Hr. cbn. split; [done|].
  destruct (write_retries_keeps _ _ _ _ Hw) as (q & m & ->). unfold read_into_rx_frame_buf_from_backend in Hr.
  destruct (write_virtio_net_hdr _) as [buf n]. destruct (read_frame _ _ _) as [[[[r rest] b]|]|]; cbn in Hr; try done.
  destruct r; [done|]. by injection Hr as _ <-.
Qed.

(** A frame that is no longer than the header, or a chain the device may not
    read, panics the worker. *)
Lemma unreadable_chain_panics {M K} `{GuestMemoryLaws M, StreamSocket K} (w : @NetWorker M (Passt K)) fuel hd c :
  pending (mem w) (tx_queue w) hd c -> is_write_only c = true -> tx_round fuel w = Some Panic.
Proof.
  intros Hp Hw. unfold tx_round. rewrite (pending_pop _ _ _ _ Hp). cbn [mbind fueled_bind].
  unfold chain_fuel. destruct (Z.to_nat (Z.max 1 (ttl c))) as [|n] eqn:E; [lia|]. cbn [tx_collect]. rewrite Hw. cbn [gather].
  unfold write_frame, passt_backend, passt_write_frame. cbn. by destruct (negb _).
Qed.

(** An event of the backend's socket leaves the driver told not to notify: the
    two changes of the setting are in the opposite order to the queue event's.
    A frame that is deferred then waits for the backend. *)
Lemma socket_event_leaves_notifications_off {M B} `{GuestMemoryLaws M, NetBackend B} (w w1 : @NetWorker M B) fuel evt_ok r :
  process_rx fuel evt_ok (rx_notification true w) = Some (Ret (r, w1)) ->
  used_ok (mem w1) (rx_queue w1) -> event_idx_enabled (rx_queue w1) = false ->
  exists w', process_backend_socket_readable fuel evt_ok w = Some (Ret w') /\
    set_used_flags (mem w1) (rx_queue w1) VRING_USED_F_NO_NOTIFY = Ok (mem w') /\
    rx_has_deferred_frame w' = rx_has_deferred_frame w1.
Proof.
  intros Hp Hu He. unfold process_backend_socket_readable. rewrite Hp. cbn [mbind fueled_bind].
  destruct (set_notification_total (mem w1) (rx_queue w1) false Hu) as (m & Hs & _).
  eexists. split; [done|]. unfold rx_notification, disable_notification. rewrite Hs.
  split; [|done]. unfold set_notification in Hs. by rewrite He in Hs.
Qed.

(** ** Witnesses: one descriptor of 16 bytes at 240, a backend over a pipe *)

Definition demo_mem (fl : Z) : FlatMem := mkFlat 0
  (le_bytes 8 240 ++ le_bytes 4 16 ++ le_bytes 2 fl ++ le_bytes 2 0 ++ replicate 48 0 ++
   le_bytes 2 0 ++ le_bytes 2 1 ++ replicate 60 0 ++ replicate 112 0 ++ seqZ 1 16).

Definition demo_queue : Queue := {|
  max_size := 4; size := 4; ready := true; q_desc_table := 0; avail_ring := 64; used_ring := 128;
  next_avail := 0; next_used := 0; event_idx_enabled := false; num_added := 0 |}.

Definition demo_chain (fl : Z) : DescriptorChain := {|
  desc_table := 0; queue_size := 4; ttl := 4; index := 0; addr := 240; len := 16; flags := fl; next := 0 |}.

Lemma net_demo_pending fl : fl = 0 \/ fl = 2 -> pending (demo_mem fl) demo_queue 0 (demo_chain fl).
Proof.
  intros Hb. assert (avail_ok (demo_mem fl) demo_queue) as Ha.
  { destruct Hb as [-> | ->]; split; try (simpl; lia); try done; try (split; vm_compute; congruence);
      vm_compute; by eexists. }
  assert (used_ok (demo_mem fl) demo_queue) as Hu.
  { destruct Hb as [-> | ->]; split; try (simpl; lia); try done; try (split; vm_compute; congruence);
      try (split; [simpl; lia|by exists 16384]); vm_compute; by eexists. }
  destruct Hb as [-> | ->]; (split; [exact Ha|exact Hu| | | |done]);
    try (vm_compute; reflexivity); exists 1; vm_compute; split; congruence.
Qed.

(** A worker with the three bytes 1, 2, 3 received behind the header. *)
Definition demo_rx : @NetWorker FlatMem (Passt Pipe) :=
  mkNet demo_queue demo_queue 0 false None (demo_mem 2) (passt_new (mkPipe [] [] [] false))
    (replicate 12 0 ++ [1; 2; 3; 9; 9]) 15 false [] 0.

Lemma rx_frame_delivered_witness :
  exists w' pieces, write_frame_to_guest demo_rx = Ret (true, w') /\ concat pieces = replicate 12 0 ++ [1; 2; 3] /\
    holds (mem w') [demo_chain 2] pieces.
Proof.
  destruct (rx_frame_delivered demo_rx 0 (demo_chain 2) []) as (w' & pieces & Hw & Hc & Hh & _).
  - apply net_demo_pending. right. reflexivity.
  - split.
    + repeat constructor.
    + constructor; [|constructor]. split; vm_compute; [eauto|congruence|right; congruence].
    + split; [constructor|exact I].
    + constructor; [|constructor]. vm_compute. right. congruence.
  - repeat constructor; vm_compute; congruence.
  - vm_compute. reflexivity.
  - vm_compute. congruence.
  - intros k e Hk. discriminate Hk.
  - vm_compute. reflexivity.
  - exists w', pieces. split; [exact Hw|]. split; [exact Hc|exact Hh].
Defined.

(** A frame of three bytes is on its way. *)
Definition demo_waiting : @NetWorker FlatMem (Passt Pipe) :=
  new demo_queue demo_queue 0 false None (demo_mem 2) (passt_new (mkPipe [0; 0; 0; 3; 1; 2; 3] [] [] false)).

Lemma rx_frames_in_order_witness :
  exists o, process_rx (Z.to_nat 70000) true demo_waiting = Some o /\
    forall w', o = Ret (Ok tt, w') ->
      exists given rest, [[1; 2; 3]] = given ++ rest /\ gives demo_waiting given w' /\ inbox w' rest.
Proof.
  apply (rx_frames_in_order (Z.to_nat 70000) true demo_waiting [[1; 2; 3]]).
  - split.
    + apply length_replicate.
    + exists [[1; 2; 3]]. split; [|split; [|reflexivity]].
      * split; [|split; reflexivity].
        constructor; [|constructor]. split; [discriminate|]. split; [reflexivity|]. repeat constructor; vm_compute; congruence.
      * constructor; [|constructor]. unfold MAX_BUFFER_SIZE, vnet_hdr_len. simpl length. lia.
  - unfold MAX_BUFFER_SIZE. simpl length. lia.
Defined.

Lemma tx_frame_sent_witness :
  exists step used w', tx_round (Z.to_nat 70000)
      (new demo_queue demo_queue 0 false None (demo_mem 0) (passt_new (mkPipe [] [] [] false))) = Some (Ret (step, used, w')) /\
    tx_outcome (new demo_queue demo_queue 0 false None (demo_mem 0) (passt_new (mkPipe [] [] [] false)))
      0 [] [] [13; 14; 15; 16] step used w'.
Proof.
  apply (tx_frame_sent (Z.to_nat 70000)
    (new demo_queue demo_queue 0 false None (demo_mem 0) (passt_new (mkPipe [] [] [] false))) 0 (demo_chain 0) [] [] [seqZ 1 16]).
  - apply net_demo_pending. left. reflexivity.
  - repeat constructor.
  - vm_compute. reflexivity.
  - unfold MAX_BUFFER_SIZE, vnet_hdr_len. change (length (concat [seqZ 1 16])) with 16%nat. lia.
  - apply length_replicate.
  - unfold MAX_BUFFER_SIZE. lia.
  - unfold vnet_hdr_len. simpl. unfold PASST_HEADER_LEN. lia.
  - split; reflexivity.
  - intros k e Hk. discriminate Hk.
  - vm_compute. reflexivity.
Defined.
End Net.
