(* ===== verification/I8042.v ===== *)
(** * The i8042 keyboard controller ([devices/src/legacy/i8042.rs])

    The controller keeps a 16-byte ring buffer with free-running wrapping
    indices.  The specification is a bounded FIFO; the theorems show that the
    ring refines it through every port access and key press, and that the
    status register's "output available" bit tells whether it is empty.

    The two event descriptors are outside the repository: a write is appended
    to [evts], and may fail as [evt_ok] decides from what was written so far. *)

From S2P Require Import Prelude.

Module I8042.

Inductive evt := ResetEvt | KbdEvt.

Inductive Error := KbdInterruptDisabled | KbdInterruptFailure | InternalBufferFull.

Definition OFS_STATUS : Z := 4.
Definition OFS_DATA : Z := 0.
Definition CMD_READ_CTR : Z := 0x20.
Definition CMD_WRITE_CTR : Z := 0x60.
Definition CMD_READ_OUTP : Z := 0xD0.
Definition CMD_WRITE_OUTP : Z := 0xD1.
Definition CMD_RESET_CPU : Z := 0xFE.
Definition SB_OUT_DATA_AVAIL : Z := 0x01.
Definition SB_I8042_CMD_DATA : Z := 0x08.
Definition SB_KBD_ENABLED : Z := 0x10.
Definition CB_KBD_INT : Z := 0x01.
Definition CB_POST_OK : Z := 0x04.
Definition KEY_CTRL : Z := 0x0014.
Definition KEY_ALT : Z := 0x0011.
Definition KEY_DEL : Z := 0xE071.
Definition BUF_SIZE : Z := 16.

Record I8042Device := mkDev {
  status : Z;
  control : Z;
  outp : Z;
  cmd : Z;
  buf : list byte;
  bhead : Z;
  btail : Z;
  evts : list evt;
}.

Definition new : I8042Device := {|
  control := CB_POST_OK .| CB_KBD_INT; cmd := 0; outp := 0; status := SB_KBD_ENABLED;
  buf := replicate 16 0; bhead := 0; btail := 0; evts := [] |}.

Definition set_status (d : I8042Device) (s : Z) : I8042Device :=
  mkDev s (control d) (outp d) (cmd d) (buf d) (bhead d) (btail d) (evts d).
Definition set_control (d : I8042Device) (v : Z) : I8042Device :=
  mkDev (status d) v (outp d) (cmd d) (buf d) (bhead d) (btail d) (evts d).
Definition set_outp (d : I8042Device) (v : Z) : I8042Device :=
  mkDev (status d) (control d) v (cmd d) (buf d) (bhead d) (btail d) (evts d).
Definition set_cmd (d : I8042Device) (v : Z) : I8042Device :=
  mkDev (status d) (control d) (outp d) v (buf d) (bhead d) (btail d) (evts d).
Definition set_ring (d : I8042Device) (b : list byte) (h t : Z) : I8042Device :=
  mkDev (status d) (control d) (outp d) (cmd d) b h t (evts d).

Definition buf_len (d : I8042Device) : Z := btail d -[64] bhead d.

Definition push_byte (d : I8042Device) (b : byte) : result Error unit * I8042Device :=
  let d := set_status d (status d .| SB_OUT_DATA_AVAIL) in
  if buf_len d =? BUF_SIZE then (Err InternalBufferFull, d)
  else (Ok tt, set_ring d (<[Z.to_nat (btail d mod BUF_SIZE) := b]> (buf d))
                 (bhead d) (btail d +[64] 1)).

Definition pop_byte (d : I8042Device) : option byte * I8042Device :=
  if buf_len d =? 0 then (None, d)
  else
    let res := buf d !!! Z.to_nat (bhead d mod BUF_SIZE) in
    let d := set_ring d (buf d) (bhead d +[64] 1) (btail d) in
    let d := if buf_len d =? 0 then set_status d (status d .& bnot 8 SB_OUT_DATA_AVAIL) else d in
    (Some res, d).

Definition flush_buf (d : I8042Device) : I8042Device :=
  let d := set_ring d (buf d) 0 0 in
  set_status d (status d .& bnot 8 SB_OUT_DATA_AVAIL).

Section events.
Context (evt_ok : list evt -> evt -> bool).

(** [eventfd.write(1)] *)
Definition evt_write (d : I8042Device) (e : evt) : bool * I8042Device :=
  if evt_ok (evts d) e
  then (true, mkDev (status d) (control d) (outp d) (cmd d) (buf d) (bhead d) (btail d)
                (evts d ++ [e]))
  else (false, d).

Definition trigger_kbd_interrupt (d : I8042Device) : result Error unit * I8042Device :=
  if control d .& CB_KBD_INT =? 0 then (Err KbdInterruptDisabled, d)
  else let '(ok, d) := evt_write d KbdEvt in
       (if ok then Ok tt else Err KbdInterruptFailure, d).

(** The tail of [trigger_key]: the last byte and the interrupt. *)
Definition push_and_trigger (d : I8042Device) (b : byte) : result Error unit * I8042Device :=
  match push_byte d b with
  | (Err e, d) => (Err e, d)
  | (Ok _, d) =>
      match trigger_kbd_interrupt d with
      | (Ok _, d) | (Err KbdInterruptDisabled, d) => (Ok tt, d)
      | (Err e, d) => (Err e, d)
      end
  end.

Definition trigger_key (d : I8042Device) (key : Z) : result Error unit * I8042Device :=
  if negb (key .& 0xff00 =? 0) then
    if BUF_SIZE -[64] buf_len d <? 2 then (Err InternalBufferFull, d)
    else
      match push_byte d (wrap 8 (key .>> 8)) with
      | (Err e, d) => (Err e, d)
      | (Ok _, d) => push_and_trigger d (wrap 8 (key .& 0xff))
      end
  else push_and_trigger d (wrap 8 (key .& 0xff)).

Definition trigger_ctrl_alt_del (d : I8042Device) : result Error unit * I8042Device :=
  if BUF_SIZE -[64] buf_len d <? 4 then (Err InternalBufferFull, d)
  else
    match trigger_key d KEY_CTRL with
    | (Err e, d) => (Err e, d)
    | (Ok _, d) =>
        match trigger_key d KEY_ALT with
        | (Err e, d) => (Err e, d)
        | (Ok _, d) =>
            match trigger_key d KEY_DEL with
            | (Err e, d) => (Err e, d)
            | (Ok _, d) => (Ok tt, d)
            end
        end
    end.

(** [BusDevice::read] *)
Definition read (d : I8042Device) (offset : Z) (data : list byte) : I8042Device * list byte :=
  match data with
  | [_] =>
      if offset =? OFS_STATUS then (d, [status d])
      else if offset =? OFS_DATA then
        let '(b, d) := pop_byte d in
        let d := if negb (status d .& SB_OUT_DATA_AVAIL =? 0)
                 then snd (trigger_kbd_interrupt d) else d in
        (d, [default 0 b])
      else (d, data)
  | _ => (d, data)
  end.

(** [push_byte(b).unwrap()] *)
Definition push_unwrap (d : I8042Device) (b : byte) : outcome I8042Device :=
  match push_byte d b with
  | (Ok _, d) => Ret d
  | (Err _, _) => Panic
  end.

(** [BusDevice::write] *)
Definition write (d : I8042Device) (offset : Z) (data : list byte) : outcome I8042Device :=
  match data with
  | [v] =>
      if (offset =? OFS_STATUS) && (v =? CMD_RESET_CPU) then Ret (snd (evt_write d ResetEvt))
      else if (offset =? OFS_STATUS) && (v =? CMD_READ_CTR) then
        let d := flush_buf d in push_unwrap d (control d)
      else if (offset =? OFS_STATUS) && (v =? CMD_WRITE_CTR) then
        let d := flush_buf d in
        Ret (set_cmd (set_status d (status d .| SB_I8042_CMD_DATA)) v)
      else if (offset =? OFS_STATUS) && (v =? CMD_READ_OUTP) then
        let d := flush_buf d in push_unwrap d (outp d)
      else if (offset =? OFS_STATUS) && (v =? CMD_WRITE_OUTP) then
        Ret (set_cmd (set_status d (status d .| SB_I8042_CMD_DATA)) v)
      else if (offset =? OFS_DATA) && negb (status d .& SB_I8042_CMD_DATA =? 0) then
        let d := if cmd d =? CMD_WRITE_CTR then set_control d v
                 else if cmd d =? CMD_WRITE_OUTP then set_outp d v else d in
        Ret (set_status d (status d .& bnot 8 SB_I8042_CMD_DATA))
      else if offset =? OFS_DATA then
        d ← push_unwrap (flush_buf d) 0xFA;
        Ret (snd (trigger_kbd_interrupt d))
      else Ret d
  | _ => Ret d
  end.

(** ** Specification: a bounded FIFO *)

(** The queue the ring represents. *)
Definition queue (d : I8042Device) : list byte :=
  map (fun i => buf d !!! Z.to_nat ((bhead d + Z.of_nat i) mod BUF_SIZE))
    (seq 0 (Z.to_nat (buf_len d))).

Record inv (d : I8042Device) : Prop := {
  inv_buf : length (buf d) = 16%nat;
  inv_len : buf_len d <= BUF_SIZE;
  inv_head : fits 64 (bhead d);
  inv_tail : fits 64 (btail d);
  inv_status : fits 8 (status d);
  inv_avail : status d .& SB_OUT_DATA_AVAIL = 0 <-> queue d = [];
}.


(** ** Ring arithmetic *)

Lemma length_queue d : length (queue d) = Z.to_nat (buf_len d).
Proof. unfold queue. by rewrite length_map, length_seq. Qed.

Lemma buf_len_nonneg d : 0 <= buf_len d.
Proof. apply (wrap_fits 64); lia. Qed.

Lemma queue_lookup d i :
  (i < length (queue d))%nat ->
  queue d !! i = Some (buf d !!! Z.to_nat ((bhead d + Z.of_nat i) mod BUF_SIZE)).
Proof.
  rewrite length_queue. intros Hi. unfold queue. rewrite list_lookup_fmap, lookup_seq_lt by done.
  done.
Qed.

(** The index [push_byte] writes is the one after the last queued byte; the
    wrap-around of the counters is harmless since 16 divides 2^64. *)
Lemma tail_slot d : btail d mod BUF_SIZE = (bhead d + buf_len d) mod BUF_SIZE.
Proof.
  rewrite <- (wrap_mod 64) by (done || (by exists (2 ^ 60))).
  rewrite <- (wrap_mod 64 (bhead d + buf_len d)) by (done || (by exists (2 ^ 60))).
  unfold buf_len. rewrite wrap_add_r. f_equal. f_equal. lia.
Qed.

Lemma slot_lt z : (Z.to_nat (z mod BUF_SIZE) < 16)%nat.
Proof. pose proof (Z.mod_pos_bound z BUF_SIZE ltac:(done)). unfold BUF_SIZE in *. lia. Qed.

Lemma slots_differ h i j :
  0 <= i < j -> j < i + BUF_SIZE -> (h + i) mod BUF_SIZE <> (h + j) mod BUF_SIZE.
Proof.
  unfold BUF_SIZE. intros Hij Hj E. apply Zmod_divide_minus in E as [k Hk]; [|lia].
  pose proof (Z.mod_pos_bound (h + j) 16 ltac:(lia)).
  pose proof (Z_div_mod_eq_full (h + j) 16).
  assert (h + i - (h + j) = (k - (h + j) / 16) * 16) as E' by lia. lia.
Qed.

Lemma avail_bit_set s : (s .| SB_OUT_DATA_AVAIL) .& SB_OUT_DATA_AVAIL <> 0.
Proof.
  change SB_OUT_DATA_AVAIL with (2 ^ 0). rewrite land_bit_0 by lia.
  rewrite Z.lor_spec. cbn. by rewrite orb_true_r.
Qed.

Lemma avail_bit_clear s : (s .& bnot 8 SB_OUT_DATA_AVAIL) .& SB_OUT_DATA_AVAIL = 0.
Proof.
  change SB_OUT_DATA_AVAIL with (2 ^ 0). rewrite land_bit_0 by lia.
  rewrite Z.land_spec, bnot_testbit by lia. cbn. by rewrite andb_false_r.
Qed.

(** ** The ring refines the FIFO *)

Lemma push_byte_full d b :
  inv d -> length (queue d) = 16%nat ->
  exists d', push_byte d b = (Err InternalBufferFull, d') /\ queue d' = queue d /\ inv d'.
Proof.
  intros [] Hf. unfold push_byte. cbn [set_status]. rewrite length_queue in Hf.
  pose proof (buf_len_nonneg d).
  change (buf_len (set_status d (status d .| SB_OUT_DATA_AVAIL))) with (buf_len d).
  destruct (buf_len d =? BUF_SIZE) eqn:E; [|unfold BUF_SIZE in *; zify_bool; lia].
  eexists. split; [done|]. split; [done|]. split; try done.
  - cbn. apply lor_fits; [lia|done|split; vm_compute; congruence].
  - change (queue (set_status d _)) with (queue d). cbn [status set_status].
    split; [intros E'; by apply avail_bit_set in E'|].
    intros E'. apply (f_equal length) in E'. rewrite length_queue in E'. cbn in E'. lia.
Qed.

Lemma push_byte_ok d b :
  inv d -> (length (queue d) < 16)%nat ->
  exists d', push_byte d b = (Ok tt, d') /\ queue d' = queue d ++ [b] /\ inv d' /\
    control d' = control d /\ outp d' = outp d /\ cmd d' = cmd d /\ evts d' = evts d.
Proof.
  intros [] Hf. unfold push_byte. rewrite length_queue in Hf. pose proof (buf_len_nonneg d).
  set (d1 := set_status d _). change (buf_len d1) with (buf_len d).
  destruct (buf_len d =? BUF_SIZE) eqn:E; [unfold BUF_SIZE in *; zify_bool; lia|].
  set (d' := set_ring _ _ _ _). exists d'.
  assert (buf_len d' = buf_len d + 1) as Hl.
  { unfold buf_len, d'. cbn. rewrite wrap_sub_l. fold (buf_len d).
    replace (btail d + 1 - bhead d) with (btail d - bhead d + 1) by lia.
    rewrite <- wrap_add_l. fold (buf_len d). apply wrap_small. unfold fits. lia. }
  assert (queue d' = queue d ++ [b]) as Hq; [|split_and!; [done..| |done|done|done|done]; split].
  - apply list_eq; intros i. destruct (decide (i < length (queue d'))%nat) as [Hi|Hi].
    + rewrite queue_lookup by done. rewrite length_queue, Hl in Hi.
      change (bhead d') with (bhead d). change (buf d') with (<[Z.to_nat (btail d mod BUF_SIZE) := b]> (buf d)).
      rewrite tail_slot. destruct (decide (i < length (queue d))%nat) as [Hj|Hj].
      * rewrite lookup_app_l, queue_lookup by done. rewrite length_queue in Hj.
        rewrite list_lookup_total_insert_ne; [done|]. intros E'.
        pose proof (Z.mod_pos_bound (bhead d + buf_len d) BUF_SIZE ltac:(done)).
        pose proof (Z.mod_pos_bound (bhead d + Z.of_nat i) BUF_SIZE ltac:(done)).
        apply (slots_differ (bhead d) (Z.of_nat i) (buf_len d)); unfold BUF_SIZE in *; lia.
      * rewrite length_queue in Hj. assert (Z.of_nat i = buf_len d) as -> by lia.
        rewrite lookup_app_r, length_queue by (rewrite length_queue; lia).
        replace (i - Z.to_nat (buf_len d))%nat with O by lia.
        rewrite list_lookup_total_insert_eq; [done|]. rewrite inv_buf0. apply slot_lt.
    + rewrite !lookup_ge_None_2; [done| |lia]. rewrite length_app, length_queue in *. cbn. lia.
  - unfold d'; cbn. by rewrite length_insert.
  - rewrite Hl. unfold BUF_SIZE in *. lia.
  - done.
  - unfold d'; cbn. by apply wrap_fits.
  - unfold d'; cbn. apply lor_fits; [lia|done|split; vm_compute; congruence].
  - rewrite Hq. cbn [status d' set_ring d1 set_status]. split; [intros E'; by apply avail_bit_set in E'|].
    intros E'. by destruct (queue d).
Qed.

Lemma pop_byte_empty d : inv d -> queue d = [] -> pop_byte d = (None, d).
Proof.
  intros _ Hq. apply (f_equal length) in Hq. rewrite length_queue in Hq. cbn in Hq.
  pose proof (buf_len_nonneg d). unfold pop_byte.
  destruct (buf_len d =? 0) eqn:E; [done|zify_bool; lia].
Qed.

Lemma pop_byte_ok d b q :
  inv d -> queue d = b :: q ->
  exists d', pop_byte d = (Some b, d') /\ queue d' = q /\ inv d' /\
    control d' = control d /\ outp d' = outp d /\ cmd d' = cmd d /\ evts d' = evts d /\
    (q <> [] -> status d' = status d).
Proof.
  intros [] Hq. assert (Z.to_nat (buf_len d) = S (length q)) as Hlen
    by by rewrite <- length_queue, Hq.
  assert (buf d !!! Z.to_nat (bhead d mod BUF_SIZE) = b) as Hb.
  { pose proof (queue_lookup d 0 ltac:(rewrite length_queue; lia)) as H0.
    rewrite Z.add_0_r, Hq in H0. by injection H0 as <-. }
  unfold pop_byte. destruct (buf_len d =? 0) eqn:E; [zify_bool; lia|]. rewrite Hb.
  set (d1 := set_ring d (buf d) (bhead d +[64] 1) (btail d)).
  assert (buf_len d1 = buf_len d - 1) as Hl.
  { unfold buf_len, d1. cbn. rewrite wrap_sub_r.
    replace (btail d - (bhead d + 1)) with (btail d - bhead d - 1) by lia.
    rewrite <- wrap_sub_l. fold (buf_len d). apply wrap_small.
    pose proof (wrap_fits 64 (btail d - bhead d) ltac:(lia)) as Hw. fold (buf_len d) in Hw.
    unfold fits in *. lia. }
  assert (queue d1 = q) as Hq1.
  { apply list_eq; intros i. destruct (decide (i < length q)%nat) as [Hi|Hi].
    - rewrite queue_lookup by (rewrite length_queue; lia).
      change (q !! i) with ((b :: q) !! S i). rewrite <- Hq, queue_lookup by (rewrite length_queue; lia).
      cbn [d1 set_ring buf bhead]. do 3 f_equal.
      rewrite <- (wrap_mod 64) by (done || (by exists (2 ^ 60))).
      rewrite wrap_add_l, wrap_mod by (done || (by exists (2 ^ 60))). f_equal. lia.
    - rewrite !lookup_ge_None_2; [done|lia|rewrite length_queue; lia]. }
  destruct (buf_len d1 =? 0) eqn:E1; zify_bool.
  - assert (q = []) as -> by (destruct q; [done|cbn in Hlen; lia]).
    eexists. split; [done|]. split; [done|]. split_and!; try done.
    split; cbn [set_status status buf bhead btail d1 set_ring]; try done.
    + change (buf_len (set_status d1 _)) with (buf_len d1). unfold BUF_SIZE in *; lia.
    + by apply wrap_fits.
    + by apply land_fits.
    + split; [done|]. intros _. apply avail_bit_clear.
  - exists d1. split_and!; try done. split; cbn [status buf bhead btail d1 set_ring]; try done.
    + change (buf_len _) with (buf_len d1). unfold BUF_SIZE in *; lia.
    + by apply wrap_fits.
    + change (queue _) with (queue d1). rewrite Hq1, inv_avail0, Hq.
      split; [done|intros ->; cbn in Hlen; lia].
Qed.

Lemma flush_buf_ok d : inv d ->
  queue (flush_buf d) = [] /\ inv (flush_buf d).
Proof.
  intros []. assert (queue (flush_buf d) = []) as Hq by done. split; [done|].
  split; [done| |done|done| |].
  - change (buf_len (flush_buf d)) with 0. done.
  - cbn. by apply land_fits.
  - split; [done|]. intros _. apply avail_bit_clear.
Qed.

(** Changing registers other than the ring. *)
Lemma inv_regs d d' :
  inv d -> buf d' = buf d -> bhead d' = bhead d -> btail d' = btail d -> fits 8 (status d') ->
  Z.testbit (status d') 0 = Z.testbit (status d) 0 -> queue d' = queue d /\ inv d'.
Proof.
  intros [] Hb Hh Ht Hf Hs. assert (buf_len d' = buf_len d) as Hl by (unfold buf_len; congruence).
  assert (queue d' = queue d) as Hq by (unfold queue; by rewrite Hl, Hb, Hh).
  split; [done|]. split; rewrite ?Hb, ?Hh, ?Ht, ?Hl; try done.
  rewrite Hq, <- inv_avail0. change SB_OUT_DATA_AVAIL with (2 ^ 0).
  by rewrite !land_bit_0, Hs by lia.
Qed.

Lemma evt_write_ok d e : inv d ->
  queue (snd (evt_write d e)) = queue d /\ inv (snd (evt_write d e)).
Proof. intros Hi. unfold evt_write. case_bool; [|done]. apply inv_regs; try done. by destruct Hi. Qed.

Lemma trigger_ok d : inv d ->
  queue (snd (trigger_kbd_interrupt d)) = queue d /\ inv (snd (trigger_kbd_interrupt d)).
Proof.
  intros Hi. unfold trigger_kbd_interrupt. case_bool; [done|].
  pose proof (evt_write_ok d KbdEvt Hi). by destruct (evt_write d KbdEvt).
Qed.

Lemma push_flushed d b : inv d ->
  exists d', push_unwrap (flush_buf d) b = Ret d' /\ queue d' = [b] /\ inv d' /\
    control d' = control d /\ outp d' = outp d /\ cmd d' = cmd d /\ evts d' = evts d.
Proof.
  intros Hi. apply flush_buf_ok in Hi as [Hq Hi]. unfold push_unwrap.
  destruct (push_byte_ok _ b Hi) as (d' & -> & Hq' & ? & ?); [rewrite Hq; cbn; lia|].
  rewrite Hq in Hq'. exists d'. auto.
Qed.

(** ** Port accesses against the specification

    The abstract controller: the FIFO, the two registers, and the command whose
    parameter byte is expected, if any. *)

Record spec := mkSpec {
  s_queue : list byte;
  s_control : Z;
  s_outp : Z;
  s_pending : option Z;
}.

Definition abs (d : I8042Device) : spec :=
  mkSpec (queue d) (control d) (outp d)
    (if Z.testbit (status d) 3 then Some (cmd d) else None).

Definition spec_write (s : spec) (offset v : Z) : spec :=
  if offset =? OFS_STATUS then
    if v =? CMD_READ_CTR then mkSpec [s_control s] (s_control s) (s_outp s) (s_pending s)
    else if v =? CMD_WRITE_CTR then mkSpec [] (s_control s) (s_outp s) (Some v)
    else if v =? CMD_READ_OUTP then mkSpec [s_outp s] (s_control s) (s_outp s) (s_pending s)
    else if v =? CMD_WRITE_OUTP then mkSpec (s_queue s) (s_control s) (s_outp s) (Some v)
    else s
  else if offset =? OFS_DATA then
    match s_pending s with
    | Some c => mkSpec (s_queue s) (if c =? CMD_WRITE_CTR then v else s_control s)
                  (if c =? CMD_WRITE_OUTP then v else s_outp s) None
    | None => mkSpec [0xFA] (s_control s) (s_outp s) None
    end
  else s.

Definition spec_read (s : spec) (offset : Z) : spec * option byte :=
  if offset =? OFS_DATA then
    (mkSpec (tail (s_queue s)) (s_control s) (s_outp s) (s_pending s), Some (hd 0 (s_queue s)))
  else (s, None).

Lemma cmd_bit s : (s .& SB_I8042_CMD_DATA =? 0) = negb (Z.testbit s 3).
Proof. by apply (land_bit s 3). Qed.

(** Status updates of a push and a flush leave the command bit alone. *)
Lemma push_flushed_bit d b d' :
  push_unwrap (flush_buf d) b = Ret d' -> Z.testbit (status d') 3 = Z.testbit (status d) 3.
Proof.
  unfold push_unwrap, push_byte. case_bool; [done|]. intros [= <-].
  cbn [status set_ring set_status flush_buf]. rewrite Z.lor_spec, Z.land_spec, bnot_testbit by lia.
  cbn. by rewrite orb_false_r, andb_true_r.
Qed.

Lemma abs_evt_write d e : abs (snd (evt_write d e)) = abs d.
Proof. unfold evt_write. by destruct (evt_ok _ _). Qed.

Lemma abs_trigger d : abs (snd (trigger_kbd_interrupt d)) = abs d.
Proof.
  unfold trigger_kbd_interrupt. destruct (_ =? 0); [done|].
  rewrite <- (abs_evt_write d KbdEvt). by destruct (evt_write d KbdEvt).
Qed.

Lemma push_flushed_abs d b :
  inv d -> exists d', push_unwrap (flush_buf d) b = Ret d' /\ inv d' /\
    abs d' = mkSpec [b] (control d) (outp d) (s_pending (abs d)).
Proof.
  intros Hi. destruct (push_flushed d b Hi) as (d' & Hp & Hq & Hi' & Hc & Ho & Hcm & _).
  exists d'. split_and!; [done..|]. unfold abs; cbn [s_pending].
  by rewrite Hq, Hc, Ho, Hcm, (push_flushed_bit _ _ _ Hp).
Qed.

Lemma expect_param d v :
  inv d -> let d' := set_cmd (set_status d (status d .| SB_I8042_CMD_DATA)) v in
  inv d' /\ abs d' = mkSpec (queue d) (control d) (outp d) (Some v).
Proof.
  intros Hi d'. destruct (inv_regs d d' Hi) as [Hq Hi']; try done.
  - destruct Hi. apply lor_fits; [lia|done|split; vm_compute; congruence].
  - cbn [d' status set_cmd set_status]. rewrite Z.lor_spec. cbn. by rewrite orb_false_r.
  - split; [done|]. unfold abs. rewrite Hq. cbn [d' status set_cmd set_status control outp cmd].
    rewrite Z.lor_spec. cbn. by rewrite orb_true_r.
Qed.

Lemma param_taken d c o :
  inv d -> let d' := set_status (set_outp (set_control d c) o) (status d .& bnot 8 SB_I8042_CMD_DATA) in
  inv d' /\ abs d' = mkSpec (queue d) c o None.
Proof.
  intros Hi d'. destruct (inv_regs d d' Hi) as [Hq Hi']; try done.
  - destruct Hi. by apply land_fits.
  - cbn [d' status set_status]. rewrite Z.land_spec, bnot_testbit by lia. cbn.
    by rewrite andb_true_r.
  - split; [done|]. unfold abs. rewrite Hq. cbn [d' status set_status set_outp set_control control outp].
    rewrite Z.land_spec, bnot_testbit by lia. cbn. by rewrite andb_false_r.
Qed.

(** Every guest write to the controller's ports, of whatever byte, is
    handled without panicking and acts on the abstract controller (FIFO,
    control register, output port, pending command) exactly as specified; the
    ring-buffer invariant, by which the status bit tells whether data is
    available, is preserved. *)
Theorem port_write_refines d offset v :
  inv d -> exists d', write d offset [v] = Ret d' /\ inv d' /\ abs d' = spec_write (abs d) offset v.
Proof.
  intros Hi. unfold write, spec_write. destruct (offset =? OFS_STATUS) eqn:Eo; cbn [andb].
  - assert (offset =? OFS_DATA = false) as -> by (zify_bool; subst; done). cbn [andb].
    destruct (v =? CMD_RESET_CPU) eqn:E0.
    { assert (v = CMD_RESET_CPU) as -> by by zify_bool. eexists. split; [done|].
      split; [by apply evt_write_ok|]. apply abs_evt_write. }
    destruct (v =? CMD_READ_CTR); [by apply push_flushed_abs|].
    destruct (v =? CMD_WRITE_CTR).
    { apply flush_buf_ok in Hi as [Hq Hi]. destruct (expect_param _ v Hi) as [Hi' Ha].
      eexists. split; [done|]. by rewrite Ha, Hq. }
    destruct (v =? CMD_READ_OUTP); [by apply push_flushed_abs|].
    destruct (v =? CMD_WRITE_OUTP); [|by eauto].
    destruct (expect_param d v Hi) as [Hi' Ha]. eauto.
  - destruct (offset =? OFS_DATA) eqn:Ed; cbn [andb]; [|by eauto].
    rewrite cmd_bit, negb_involutive. cbn [abs s_pending s_queue s_control s_outp].
    destruct (Z.testbit (status d) 3) eqn:Eb.
    + eexists. split; [done|].
      pose proof (param_taken d (if cmd d =? CMD_WRITE_CTR then v else control d)
        (if cmd d =? CMD_WRITE_OUTP then v else outp d) Hi) as Hp.
      destruct (cmd d =? CMD_WRITE_CTR) eqn:Ec;
        [assert (cmd d =? CMD_WRITE_OUTP = false) as E2 by (zify_bool; by rewrite Ec); rewrite E2 in *|
         destruct (cmd d =? CMD_WRITE_OUTP)]; by destruct d.
    + destruct (push_flushed_abs d 0xFA Hi) as (d' & -> & Hi' & Ha). cbn [mbind outcome_bind].
      eexists. split; [done|]. rewrite abs_trigger, Ha. cbn [abs s_pending]. rewrite Eb.
      split; [by apply trigger_ok|done].
Qed.

(** Every guest read acts as specified: the data port yields the oldest
    queued byte (0 when there is none) and removes it, the status port shows
    bit 0 set exactly when data is queued. *)
Theorem port_read_refines d offset x :
  inv d ->
  let '(d', data) := read d offset [x] in
  inv d' /\ abs d' = fst (spec_read (abs d) offset) /\
  (offset = OFS_DATA -> data = [hd 0 (queue d)]) /\
  (offset = OFS_STATUS -> exists s, data = [s] /\ (Z.testbit s 0 = true <-> queue d <> [])).
Proof.
  intros Hi. unfold read, spec_read. destruct (offset =? OFS_STATUS) eqn:Eo.
  - zify_bool. subst. cbv iota beta. split_and!; [done..|]. intros _. exists (status d). split; [done|].
    destruct Hi. rewrite <- inv_avail0. change SB_OUT_DATA_AVAIL with (2 ^ 0).
    rewrite land_bit_0, not_false_iff_true by lia. done.
  - destruct (offset =? OFS_DATA) eqn:Ed; zify_bool; [|by split_and!].
    destruct (queue d) as [|b q] eqn:Hq.
    + rewrite pop_byte_empty by done. destruct (inv_avail d Hi) as [_ Hz].
      rewrite Hz by done. cbn. split_and!; try done. unfold abs. by rewrite Hq.
    + destruct (pop_byte_ok d b q Hi Hq) as (d1 & Hp & Hq1 & Hi1 & Hc & Ho & Hcm & _ & _).
      assert (Z.testbit (status d1) 3 = Z.testbit (status d) 3) as Hs.
      { revert Hp. unfold pop_byte. repeat case_bool; intros [= _ <-]; [|done].
        cbn [status set_status set_ring]. rewrite Z.land_spec, bnot_testbit by lia. cbn.
        by rewrite andb_true_r. }
      rewrite Hp. cbn [default]. split_and!; [case_bool; [by apply trigger_ok|done]| |done|done].
      transitivity (abs d1); [destruct (negb _); [apply abs_trigger|done]|].
      unfold abs; cbn [fst s_queue s_control s_outp s_pending]. by rewrite Hq1, Hq, Hc, Ho, Hcm, Hs.
Qed.
(** ** Key presses *)

Section keys.
Context (evts_work : forall log, evt_ok log KbdEvt = true).

Lemma push_and_trigger_ok d b :
  inv d -> (length (queue d) < 16)%nat ->
  exists d', push_and_trigger d b = (Ok tt, d') /\ queue d' = queue d ++ [b] /\ inv d'.
Proof.
  intros Hi Hl. unfold push_and_trigger.
  destruct (push_byte_ok d b Hi Hl) as (d1 & -> & Hq & Hi1 & _).
  destruct (trigger_ok d1 Hi1) as [Hq2 Hi2].
  unfold trigger_kbd_interrupt, evt_write in *. rewrite evts_work in *.
  destruct (control d1 .& CB_KBD_INT =? 0); (eexists; split; [reflexivity|]); cbn [snd] in *;
    (split; [congruence|done]).
Qed.

Lemma room_left d : inv d -> BUF_SIZE -[64] buf_len d = 16 - Z.of_nat (length (queue d)).
Proof.
  intros []. pose proof (buf_len_nonneg d). rewrite length_queue, Z2Nat.id by done.
  unfold BUF_SIZE in *. apply wrap_small. unfold fits. lia.
Qed.

Lemma trigger_key_ok d key :
  inv d -> Zlength (queue d) + (if key .& 0xff00 =? 0 then 1 else 2) <= 16 ->
  exists d', trigger_key d key = (Ok tt, d') /\ inv d' /\
    queue d' = queue d ++ (if key .& 0xff00 =? 0 then [] else [wrap 8 (key .>> 8)]) ++
               [wrap 8 (key .& 0xff)].
Proof.
  intros Hi Hl. unfold trigger_key. rewrite room_left by done.
  destruct (key .& 0xff00 =? 0); cbn [negb app].
  - destruct (push_and_trigger_ok d (wrap 8 (key .& 0xff)) Hi) as (d' & ? & ? & ?); [lia|]. eauto.
  - destruct (_ <? 2) eqn:E; [zify_bool; lia|].
    destruct (push_byte_ok d (wrap 8 (key .>> 8)) Hi) as (d1 & -> & Hq & Hi1 & _); [lia|].
    destruct (push_and_trigger_ok d1 (wrap 8 (key .& 0xff)) Hi1) as (d' & -> & Hq' & Hi').
    { rewrite Hq, length_app. cbn. lia. }
    exists d'. by rewrite Hq', Hq, <- app_assoc.
Qed.

(** Ctrl+Alt+Del is all or nothing: when the buffer has no room for the
    four scan-code bytes the request fails and nothing changes, otherwise
    exactly these bytes are queued in order. *)
Theorem ctrl_alt_del_atomic d :
  inv d ->
  if (length (queue d) <=? 12)%nat
  then exists d', trigger_ctrl_alt_del d = (Ok tt, d') /\ inv d' /\
         queue d' = queue d ++ [0x14; 0x11; 0xE0; 0x71]
  else trigger_ctrl_alt_del d = (Err InternalBufferFull, d).
Proof.
  intros Hi. unfold trigger_ctrl_alt_del. rewrite room_left by done.
  destruct (Nat.leb_spec (length (queue d)) 12) as [Hl|Hl].
  2: { destruct (_ <? 4) eqn:E; [done|zify_bool; lia]. }
  destruct (_ <? 4) eqn:E; [zify_bool; lia|].
  destruct (trigger_key_ok d KEY_CTRL Hi) as (d1 & -> & Hi1 & Hq1);
    [change (KEY_CTRL .& 0xff00 =? 0) with true; lia|].
  change (queue d1 = queue d ++ [0x14]) in Hq1.
  destruct (trigger_key_ok d1 KEY_ALT Hi1) as (d2 & -> & Hi2 & Hq2);
    [rewrite Hq1, !length_app; change (KEY_ALT .& 0xff00 =? 0) with true; cbn [length]; lia|].
  change (queue d2 = queue d1 ++ [0x11]) in Hq2.
  destruct (trigger_key_ok d2 KEY_DEL Hi2) as (d3 & -> & Hi3 & Hq3);
    [rewrite Hq2, Hq1, !length_app; change (KEY_DEL .& 0xff00 =? 0) with false; cbn [length]; lia|].
  exists d3. split_and!; [done..|]. rewrite Hq3, Hq2, Hq1, <- !app_assoc. reflexivity.
Qed.
End keys.
End events.

Lemma inv_power_on : inv new.
Proof. split; try done; try (split; vm_compute; congruence). Qed.

Abbreviation all_ok := (fun (_ : list evt) (_ : evt) => true).

Lemma port_write_refines_witness :
  exists d', write all_ok new OFS_STATUS [CMD_READ_CTR] = Ret d' /\ inv d' /\ queue d' = [5].
Proof.
  destruct (port_write_refines all_ok new OFS_STATUS CMD_READ_CTR inv_power_on) as (d' & Hw & Hi & Ha).
  exists d'. split; [exact Hw|split; [exact Hi|]]. exact (f_equal s_queue Ha).
Defined.

Lemma port_read_refines_witness : inv (fst (read all_ok new OFS_DATA [9])) /\
  snd (read all_ok new OFS_DATA [9]) = [0].
Proof.
  pose proof (port_read_refines all_ok new OFS_DATA 9 inv_power_on) as H. cbn in H |- *.
  destruct H as (Hi & _ & Hd & _). split; [exact Hi|exact (Hd eq_refl)].
Defined.

Lemma ctrl_alt_del_atomic_witness :
  exists d', trigger_ctrl_alt_del all_ok new = (Ok tt, d') /\ inv d' /\
    queue d' = [0x14; 0x11; 0xE0; 0x71].
Proof. apply (ctrl_alt_del_atomic all_ok (fun _ => eq_refl) new inv_power_on). Defined.
End I8042.
