(* ===== verification/Serial.v ===== *)
(** * The 16550A serial port ([devices/src/legacy/x86_64/serial.rs])

    Registers, the receive FIFO, loop-back mode and the output sink.  The sink
    is an [io::Write] trait object and the interrupt an event descriptor, both
    outside the repository: what was written to them is recorded ([out],
    [irqs]) and each write may fail as [out_ok] and [irq_ok] decide.  An
    [io::Error] carries no information the device uses: it is [tt]. *)

From S2P Require Import Prelude.

Module Serial.

Definition LOOP_SIZE : nat := 0x40.
Definition DATA : Z := 0.
Definition IER : Z := 1.
Definition IIR : Z := 2.
Definition LCR : Z := 3.
Definition MCR : Z := 4.
Definition LSR : Z := 5.
Definition MSR : Z := 6.
Definition SCR : Z := 7.
Definition DLAB_LOW : Z := 0.
Definition DLAB_HIGH : Z := 1.
Definition IER_RECV_BIT : Z := 0x1.
Definition IER_THR_BIT : Z := 0x2.
Definition IER_FIFO_BITS : Z := 0x0f.
Definition IIR_FIFO_BITS : Z := 0xc0.
Definition IIR_NONE_BIT : Z := 0x1.
Definition IIR_THR_BIT : Z := 0x2.
Definition IIR_RECV_BIT : Z := 0x4.
Definition LCR_DLAB_BIT : Z := 0x80.
Definition LSR_DATA_BIT : Z := 0x1.
Definition LSR_EMPTY_BIT : Z := 0x20.
Definition LSR_IDLE_BIT : Z := 0x40.
Definition MCR_LOOP_BIT : Z := 0x10.

Record Serial := mkSerial {
  interrupt_enable : Z;
  interrupt_identification : Z;
  line_control : Z;
  line_status : Z;
  modem_control : Z;
  modem_status : Z;
  scratch : Z;
  baud_divisor : Z;
  in_buffer : list byte;
  out : option (list byte);
  irqs : nat;
}.

Definition new (out : option (list byte)) : Serial := {|
  interrupt_enable := 0;
  interrupt_identification := IIR_NONE_BIT;
  line_control := 0x3;
  line_status := LSR_EMPTY_BIT .| LSR_IDLE_BIT;
  modem_control := 0x8;
  modem_status := 0x20 .| 0x10 .| 0x80;
  scratch := 0;
  baud_divisor := 12;
  in_buffer := [];
  out := out;
  irqs := 0 |}.

Definition set_ier (s : Serial) (v : Z) : Serial :=
  mkSerial v (interrupt_identification s) (line_control s) (line_status s) (modem_control s)
    (modem_status s) (scratch s) (baud_divisor s) (in_buffer s) (out s) (irqs s).
Definition set_iir (s : Serial) (v : Z) : Serial :=
  mkSerial (interrupt_enable s) v (line_control s) (line_status s) (modem_control s)
    (modem_status s) (scratch s) (baud_divisor s) (in_buffer s) (out s) (irqs s).
Definition set_lcr (s : Serial) (v : Z) : Serial :=
  mkSerial (interrupt_enable s) (interrupt_identification s) v (line_status s) (modem_control s)
    (modem_status s) (scratch s) (baud_divisor s) (in_buffer s) (out s) (irqs s).
Definition set_lsr (s : Serial) (v : Z) : Serial :=
  mkSerial (interrupt_enable s) (interrupt_identification s) (line_control s) v (modem_control s)
    (modem_status s) (scratch s) (baud_divisor s) (in_buffer s) (out s) (irqs s).
Definition set_mcr (s : Serial) (v : Z) : Serial :=
  mkSerial (interrupt_enable s) (interrupt_identification s) (line_control s) (line_status s) v
    (modem_status s) (scratch s) (baud_divisor s) (in_buffer s) (out s) (irqs s).
Definition set_scr (s : Serial) (v : Z) : Serial :=
  mkSerial (interrupt_enable s) (interrupt_identification s) (line_control s) (line_status s)
    (modem_control s) (modem_status s) v (baud_divisor s) (in_buffer s) (out s) (irqs s).
Definition set_divisor (s : Serial) (v : Z) : Serial :=
  mkSerial (interrupt_enable s) (interrupt_identification s) (line_control s) (line_status s)
    (modem_control s) (modem_status s) (scratch s) v (in_buffer s) (out s) (irqs s).
Definition set_buffer (s : Serial) (b : list byte) : Serial :=
  mkSerial (interrupt_enable s) (interrupt_identification s) (line_control s) (line_status s)
    (modem_control s) (modem_status s) (scratch s) (baud_divisor s) b (out s) (irqs s).
Definition set_out (s : Serial) (o : option (list byte)) : Serial :=
  mkSerial (interrupt_enable s) (interrupt_identification s) (line_control s) (line_status s)
    (modem_control s) (modem_status s) (scratch s) (baud_divisor s) (in_buffer s) o (irqs s).

Definition is_dlab_set (s : Serial) : bool := negb (line_control s .& LCR_DLAB_BIT =? 0).
Definition is_recv_intr_enabled (s : Serial) : bool := negb (interrupt_enable s .& IER_RECV_BIT =? 0).
Definition is_thr_intr_enabled (s : Serial) : bool := negb (interrupt_enable s .& IER_THR_BIT =? 0).
Definition is_loop (s : Serial) : bool := negb (modem_control s .& MCR_LOOP_BIT =? 0).

Definition add_intr_bit (s : Serial) (bit : Z) : Serial :=
  set_iir s ((interrupt_identification s .& bnot 8 IIR_NONE_BIT) .| bit).

Definition del_intr_bit (s : Serial) (bit : Z) : Serial :=
  let v := interrupt_identification s .& bnot 8 bit in
  set_iir s (if v =? 0 then IIR_NONE_BIT else v).

Definition iir_reset (s : Serial) : Serial := set_iir s IIR_NONE_BIT.

Section env.
Context (out_ok : list byte -> byte -> bool) (irq_ok : nat -> bool).

Definition trigger_interrupt (s : Serial) : result unit unit * Serial :=
  if irq_ok (irqs s)
  then (Ok tt, mkSerial (interrupt_enable s) (interrupt_identification s) (line_control s)
                 (line_status s) (modem_control s) (modem_status s) (scratch s) (baud_divisor s)
                 (in_buffer s) (out s) (S (irqs s)))
  else (Err tt, s).

Definition thr_empty (s : Serial) : result unit unit * Serial :=
  if is_thr_intr_enabled s then trigger_interrupt (add_intr_bit s IIR_THR_BIT) else (Ok tt, s).

Definition recv_data (s : Serial) : result unit unit * Serial :=
  let '(r, s) := if is_recv_intr_enabled s
                 then trigger_interrupt (add_intr_bit s IIR_RECV_BIT) else (Ok tt, s) in
  match r with
  | Err e => (Err e, s)
  | Ok _ => (Ok tt, set_lsr s (line_status s .| LSR_DATA_BIT))
  end.

(** [out.write_all(&[value])?; out.flush()?] *)
Definition write_out (s : Serial) (value : byte) : result unit unit * Serial :=
  match out s with
  | Some o => if out_ok o value then (Ok tt, set_out s (Some (o ++ [value]))) else (Err tt, s)
  | None => (Ok tt, s)
  end.

Definition handle_write (s : Serial) (offset value : Z) : result unit unit * Serial :=
  if (offset =? DLAB_LOW) && is_dlab_set s then
    (Ok tt, set_divisor s ((baud_divisor s .& 0xff00) .| value))
  else if (offset =? DLAB_HIGH) && is_dlab_set s then
    (Ok tt, set_divisor s ((baud_divisor s .& 0x00ff) .| wrap 16 (value .<< 8)))
  else if offset =? DATA then
    if is_loop s then
      if (length (in_buffer s) <? LOOP_SIZE)%nat
      then recv_data (set_buffer s (in_buffer s ++ [value]))
      else (Ok tt, s)
    else
      match write_out s value with
      | (Err e, s) => (Err e, s)
      | (Ok _, s) => thr_empty s
      end
  else if offset =? IER then (Ok tt, set_ier s (value .& IER_FIFO_BITS))
  else if offset =? LCR then (Ok tt, set_lcr s value)
  else if offset =? MCR then (Ok tt, set_mcr s value)
  else if offset =? SCR then (Ok tt, set_scr s value)
  else (Ok tt, s).

Definition handle_read (s : Serial) (offset : Z) : Z * Serial :=
  if (offset =? DLAB_LOW) && is_dlab_set s then (wrap 8 (baud_divisor s), s)
  else if (offset =? DLAB_HIGH) && is_dlab_set s then (wrap 8 (baud_divisor s .>> 8), s)
  else if offset =? DATA then
    let s := del_intr_bit s IIR_RECV_BIT in
    let s := if (length (in_buffer s) <=? 1)%nat
             then set_lsr s (line_status s .& bnot 8 LSR_DATA_BIT) else s in
    (hd 0 (in_buffer s), set_buffer s (tail (in_buffer s)))
  else if offset =? IER then (interrupt_enable s, s)
  else if offset =? IIR then (interrupt_identification s .| IIR_FIFO_BITS, iir_reset s)
  else if offset =? LCR then (line_control s, s)
  else if offset =? MCR then (modem_control s, s)
  else if offset =? LSR then (line_status s, s)
  else if offset =? MSR then (modem_status s, s)
  else if offset =? SCR then (scratch s, s)
  else (0, s).

Definition raw_input (s : Serial) (data : list byte) : result unit unit * Serial :=
  if negb (is_loop s) then recv_data (set_buffer s (in_buffer s ++ data)) else (Ok tt, s).

(** [BusDevice] *)
Definition read (s : Serial) (offset : Z) (data : list byte) : list byte * Serial :=
  match data with
  | [_] => let '(v, s) := handle_read s (wrap 8 offset) in ([v], s)
  | _ => (data, s)
  end.

Definition write (s : Serial) (offset : Z) (data : list byte) : Serial :=
  match data with
  | [v] => snd (handle_write s (wrap 8 offset) v)
  | _ => s
  end.

Definition EVENT_IN : Z := 1.

(** [Subscriber::process] for an event on descriptor [source]; [input] is the
    descriptor of the input stream, if any, and [r] what reading it yields (at
    most 32 bytes). *)
Definition process (s : Serial) (input : option Z) (source event_set : Z)
    (r : result unit (list byte)) : Serial :=
  if negb (EVENT_IN .& event_set =? event_set) then s
  else
    match input with
    | Some fd =>
        if fd =? source then
          match r with Ok bytes => snd (raw_input s bytes) | Err _ => s end
        else s
    | None => s
    end.

Definition interest_list (input : option Z) : list (Z * Z) :=
  match input with Some fd => [(EVENT_IN, fd)] | None => [] end.

(** ** Transmission *)

Section working.
Context (outs_work : forall o b, out_ok o b = true) (irqs_work : forall n, irq_ok n = true).

Lemma write_data_out s v o :
  is_dlab_set s = false -> is_loop s = false -> out s = Some o ->
  let s' := snd (handle_write s DATA v) in
  out s' = Some (o ++ [v]) /\ is_dlab_set s' = false /\ is_loop s' = false /\
  in_buffer s' = in_buffer s.
Proof.
  intros Hd Hl Ho. unfold handle_write. rewrite Hd, Hl. cbn [Z.eqb DATA DLAB_LOW DLAB_HIGH andb].
  unfold write_out. rewrite Ho, outs_work. unfold thr_empty, trigger_interrupt. rewrite irqs_work.
  by case_bool.
Qed.

(** Guest output is faithful: outside loop-back mode and divisor-latch
    mode, the bytes the guest writes to the data port reach the sink exactly
    once and in order, and the receive FIFO is untouched. *)
Theorem serial_output_in_order s data o :
  is_dlab_set s = false -> is_loop s = false -> out s = Some o ->
  let s' := foldl (fun s v => write s DATA [v]) s data in
  out s' = Some (o ++ data) /\ in_buffer s' = in_buffer s.
Proof.
  revert s o. induction data as [|v data IH]; intros s o Hd Hl Ho; [by rewrite app_nil_r|].
  cbn [foldl]. unfold write at 2 4. change (wrap 8 DATA) with DATA.
  destruct (write_data_out s v o Hd Hl Ho) as (Ho' & Hd' & Hl' & Hb).
  destruct (IH _ _ Hd' Hl' Ho') as [-> ->]. by rewrite <- app_assoc.
Qed.

(** ** Reception *)

(** The line status register announces data exactly when there is some. *)
Definition data_ready_inv (s : Serial) : Prop :=
  Z.testbit (line_status s) 0 = true <-> in_buffer s <> [].

Inductive guest_step : Serial -> Serial -> Prop :=
| gs_read s off : guest_step s (snd (handle_read s off))
| gs_write s off v : guest_step s (snd (handle_write s off v))
| gs_input s data : data <> [] -> guest_step s (snd (raw_input s data)).

Lemma data_bit_set l : Z.testbit (l .| LSR_DATA_BIT) 0 = true.
Proof. rewrite Z.lor_spec. cbn. by rewrite orb_true_r. Qed.

Lemma data_bit_clear l : Z.testbit (l .& bnot 8 LSR_DATA_BIT) 0 = false.
Proof. rewrite Z.land_spec, bnot_testbit by lia. cbn. by rewrite andb_false_r. Qed.

Lemma recv_data_inv s : in_buffer s <> [] -> data_ready_inv (snd (recv_data s)).
Proof.
  intros Hb. unfold recv_data, trigger_interrupt. rewrite irqs_work.
  case_bool; cbn [snd]; (split; [done|intros _; apply data_bit_set]).
Qed.

Lemma read_inv s off : data_ready_inv s -> data_ready_inv (snd (handle_read s off)).
Proof.
  intros Hi. unfold handle_read.
  destruct (_ && _); [done|]. destruct (_ && _); [done|]. destruct (off =? DATA).
  - unfold data_ready_inv in *. cbn [snd].
    change (in_buffer (del_intr_bit s IIR_RECV_BIT)) with (in_buffer s).
    destruct (in_buffer s) as [|b [|b' l]] eqn:E; cbn [length Nat.leb tail];
      cbn [line_status in_buffer set_buffer set_lsr del_intr_bit set_iir tail]; rewrite ?E;
      cbn [tail]; rewrite ?data_bit_clear; try done.
    split; [done|intros _; by apply Hi].
  - repeat (destruct (off =? _); [done|]). done.
Qed.

Lemma write_inv s off v : data_ready_inv s -> data_ready_inv (snd (handle_write s off v)).
Proof.
  intros Hi. unfold handle_write.
  destruct (_ && _); [done|]. destruct (_ && _); [done|]. destruct (off =? DATA).
  - destruct (is_loop s).
    + destruct (_ <? _)%nat; [|done]. apply recv_data_inv. by destruct (in_buffer s).
    + unfold write_out. destruct (out s); rewrite ?outs_work;
        unfold thr_empty, trigger_interrupt; rewrite irqs_work; by case_bool.
  - repeat (destruct (off =? _); [done|]). done.
Qed.

(** Data-ready invariant: from power-on, through every sequence of guest
    register accesses and non-empty inputs, bit 0 of the line status register
    is set exactly when the receive FIFO holds a byte. *)
Theorem data_ready_reachable o s :
  rtc guest_step (new o) s -> data_ready_inv s.
Proof.
  assert (forall s s', rtc guest_step s s' -> data_ready_inv s -> data_ready_inv s') as Hs.
  { induction 1 as [|x y z Hxy _ IH]; [done|]. intros Hi. apply IH.
    destruct Hxy as [x off|x off v|x data Hd]; [by apply read_inv|by apply write_inv|].
    unfold raw_input. case_bool; [|done]. apply recv_data_inv. cbn. by destruct (in_buffer x), data. }
  intros Hr. by apply (Hs _ _ Hr).
Qed.

(** Reading the data port [n] times. *)
Fixpoint read_data (n : nat) (s : Serial) : list Z * Serial :=
  match n with
  | O => ([], s)
  | S n => let '(v, s) := handle_read s DATA in
           let '(vs, s) := read_data n s in (v :: vs, s)
  end.

Lemma read_data_step s b l :
  is_dlab_set s = false -> in_buffer s = b :: l ->
  exists s', handle_read s DATA = (b, s') /\ is_dlab_set s' = false /\ in_buffer s' = l.
Proof.
  intros Hd Hb. unfold handle_read. rewrite Hd, !andb_false_r. cbn [Z.eqb DATA].
  eexists. split; [|split].
  - f_equal. case_bool; cbn; by rewrite Hb.
  - case_bool; done.
  - case_bool; cbn; by rewrite Hb.
Qed.

Lemma read_data_all s :
  is_dlab_set s = false ->
  exists s', read_data (length (in_buffer s)) s = (in_buffer s, s') /\ in_buffer s' = [].
Proof.
  remember (in_buffer s) as l eqn:Hl. revert s Hl. induction l as [|b l IH]; intros s Hl Hd.
  { exists s. cbn. auto. }
  cbn [length read_data]. destruct (read_data_step s b l Hd ltac:(done)) as (s1 & -> & Hd1 & Hb1).
  destruct (IH s1 ltac:(done) Hd1) as (s2 & -> & Hb2). eauto.
Qed.

(** Input is delivered in order: bytes arriving from the host are read back
    by the guest, oldest first, after the ones already queued, and the FIFO is
    then empty with the data-ready bit clear. *)
Theorem serial_input_in_order s data :
  data_ready_inv s -> is_dlab_set s = false -> is_loop s = false -> data <> [] ->
  exists s',
    read_data (length (in_buffer s ++ data)) (snd (raw_input s data)) = (in_buffer s ++ data, s') /\
    in_buffer s' = [] /\ Z.testbit (line_status s') 0 = false.
Proof.
  intros Hi Hd Hl Hne. unfold raw_input. rewrite Hl. cbn [negb].
  set (s1 := snd (recv_data _)).
  assert (in_buffer s1 = in_buffer s ++ data /\ is_dlab_set s1 = false /\ data_ready_inv s1)
    as (Hb1 & Hd1 & Hi1).
  { split_and!; [| |apply recv_data_inv; cbn; by destruct (in_buffer s), data];
      unfold s1, recv_data, trigger_interrupt; rewrite irqs_work; by case_bool. }
  rewrite <- Hb1. destruct (read_data_all s1 Hd1) as (s' & Hr & Hb). exists s'. split_and!; [done..|].
  assert (forall n s, data_ready_inv s -> data_ready_inv (snd (read_data n s))) as Hn.
  { induction n as [|n IH]; intros t Ht; [done|]. cbn [read_data].
    pose proof (read_inv t DATA Ht) as Ht'. destruct (handle_read t DATA) as [v t'].
    specialize (IH t' Ht'). by destruct (read_data n t'). }
  specialize (Hn (length (in_buffer s1)) s1 Hi1). rewrite Hr in Hn. cbn [snd] in Hn.
  destruct (Z.testbit (line_status s') 0) eqn:E; [|done]. by destruct (proj1 Hn E).
Qed.
End working.

Lemma write_latch_low s v :
  is_dlab_set s = true -> write s DLAB_LOW [v] = set_divisor s (baud_divisor s .& 0xff00 .| v).
Proof. intros Hd. unfold write, handle_write. by rewrite Hd. Qed.

Lemma write_latch_high s v :
  is_dlab_set s = true ->
  write s DLAB_HIGH [v] = set_divisor s (baud_divisor s .& 0x00ff .| wrap 16 (v .<< 8)).
Proof. intros Hd. unfold write, handle_write. by rewrite Hd. Qed.

(** Divisor latch: with DLAB set, writing two bytes to the latch registers
    sets the divisor to the 16-bit value they spell, reads give them back, and
    neither the sink nor the FIFO is touched. *)
Theorem divisor_roundtrip s lo hi :
  fits 8 lo -> fits 8 hi -> fits 16 (baud_divisor s) -> is_dlab_set s = true ->
  let s' := write (write s DLAB_LOW [lo]) DLAB_HIGH [hi] in
  baud_divisor s' = hi * 256 + lo /\
  handle_read s' DLAB_LOW = (lo, s') /\ handle_read s' DLAB_HIGH = (hi, s') /\
  out s' = out s /\ in_buffer s' = in_buffer s.
Proof.
  intros Hlo Hhi Hb Hd s'.
  assert (s' = set_divisor s (((baud_divisor s .& 0xff00 .| lo) .& 0x00ff) .| wrap 16 (hi .<< 8))) as E.
  { unfold s'. rewrite (write_latch_low s), write_latch_high by done. done. }
  assert (baud_divisor s' = hi * 256 + lo) as Hdiv.
  { rewrite E. cbn [baud_divisor set_divisor].
    rewrite Z.land_lor_distr_l, <- Z.land_assoc. change (Z.land 0xff00 0xff) with 0.
    rewrite Z.land_0_r, Z.lor_0_l, land_byte, Z.shiftl_mul_pow2 by (done || lia).
    rewrite wrap_small by (unfold fits in *; lia). by apply lor_mul_pow2. }
  assert (is_dlab_set s' = true) as Hd' by by rewrite E.
  split_and!; [done| | | |].
  - unfold handle_read. rewrite Hd', Hdiv. cbn [Z.eqb DLAB_LOW andb]. f_equal.
    unfold wrap. change (2 ^ 8) with 256. rewrite Z.add_comm, Z_mod_plus_full.
    apply Z.mod_small. done.
  - unfold handle_read. rewrite Hd', Hdiv. cbn [Z.eqb DLAB_LOW DLAB_HIGH andb]. f_equal.
    rewrite Z.shiftr_div_pow2 by lia. change (2 ^ 8) with 256.
    rewrite Z.div_add_l, Z.div_small, Z.add_0_r by (done || lia). by apply wrap_small.
  - by rewrite E.
  - by rewrite E.
Qed.

(** An empty read of the input stream (end of file) announces data that is not
    there: the guest then reads a spurious 0 byte. *)
Lemma empty_input_announces_data s :
  (forall n, irq_ok n = true) -> is_loop s = false -> in_buffer s = [] ->
  let s' := process s (Some 0) 0 EVENT_IN (Ok []) in
  in_buffer s' = [] /\ Z.testbit (line_status s') 0 = true.
Proof.
  intros Hirq Hl Hb.
  assert (process s (Some 0) 0 EVENT_IN (Ok []) = snd (recv_data (set_buffer s []))) as ->.
  { unfold process, raw_input. by rewrite Hl, Hb. }
  unfold recv_data, trigger_interrupt. rewrite Hirq.
  case_bool; cbn [snd]; (split; [done|apply data_bit_set]).
Qed.
End env.

(** ** Witnesses *)

Abbreviation ok_out := (fun (_ : list byte) (_ : byte) => true).
Abbreviation ok_irq := (fun (_ : nat) => true).

Lemma serial_output_in_order_witness :
  out (foldl (fun s v => write ok_out ok_irq s DATA [v]) (new (Some [])) [104; 105]) = Some [104; 105].
Proof.
  apply (serial_output_in_order ok_out ok_irq (fun _ _ => eq_refl) (fun _ => eq_refl)
    (new (Some [])) [104; 105] []); reflexivity.
Defined.

Lemma data_ready_reachable_witness :
  data_ready_inv (snd (raw_input ok_irq (new None) [65])) /\
  Z.testbit (line_status (snd (raw_input ok_irq (new None) [65]))) 0 = true.
Proof.
  split; [|reflexivity].
  apply (data_ready_reachable ok_out ok_irq (fun _ _ => eq_refl) (fun _ => eq_refl) None).
  apply rtc_once, gs_input. discriminate.
Defined.

Lemma serial_input_in_order_witness :
  exists s', read_data 2 (snd (raw_input ok_irq (new None) [65; 66])) = ([65; 66], s') /\
    in_buffer s' = [] /\ Z.testbit (line_status s') 0 = false.
Proof.
  apply (serial_input_in_order ok_irq (fun _ => eq_refl) (new None) [65; 66]);
    [split; intros H; [discriminate H|destruct (H eq_refl)]|reflexivity|reflexivity|discriminate].
Defined.

Lemma divisor_roundtrip_witness :
  baud_divisor (write ok_out ok_irq (write ok_out ok_irq (set_lcr (new None) 0x83) DLAB_LOW [1])
    DLAB_HIGH [2]) = 0x201.
Proof.
  apply (divisor_roundtrip ok_out ok_irq (set_lcr (new None) 0x83) 1 2);
    [split; vm_compute; congruence..|reflexivity].
Defined.
End Serial.
