(* ===== verification/Multikey.v ===== *)
(** * The two-key map of the virtio-fs server
    ([devices/src/virtio/fs/multikey.rs])

    [MultikeyBTreeMap] indexes values by a main key and by an alternate key
    kept in one-to-one correspondence.  The ordered maps are finite maps here;
    the specification is a finite map from main keys to (alternate key, value)
    in which no alternate key occurs twice. *)

From S2P Require Import Prelude.

Module Multikey.
Section multikey.
Context {K1 K2 V : Type} `{Countable K1} `{Countable K2}.

Record MultikeyBTreeMap := mkMap {
  main : gmap K1 (K2 * V);
  alt : gmap K2 K1;
}.

(** Case analysis on the keys of nested lookups. *)
Ltac solve_lookup :=
  cbn [fmap option_fmap option_map fst snd alt];
  repeat (case_bool_decide; simplify_eq; cbn [fst snd alt]);
  repeat first [ rewrite lookup_delete_eq | rewrite lookup_insert_eq
               | rewrite lookup_delete_ne by congruence | rewrite lookup_insert_ne by congruence ];
  try done; congruence.

Definition new : MultikeyBTreeMap := mkMap ∅ ∅.

Definition get (m : MultikeyBTreeMap) (key : K1) : option V := snd <$> main m !! key.

Definition get_alt (m : MultikeyBTreeMap) (key : K2) : option V :=
  match alt m !! key with
  | Some k => get m k
  | None => None
  end.

Definition insert (m : MultikeyBTreeMap) (k1 : K1) (k2 : K2) (v : V)
    : option V * MultikeyBTreeMap :=
  let '(oldval, mn) :=
    match alt m !! k2 with
    | Some oldkey => (main m !! oldkey, delete oldkey (main m))
    | None => (None, main m)
    end in
  let al := <[k2 := k1]> (alt m) in
  let prev := mn !! k1 in
  let mn := <[k1 := (k2, v)]> mn in
  match (match prev with Some x => Some x | None => oldval end) with
  | Some (oldk2, ov) => (Some ov, mkMap mn (if bool_decide (oldk2 = k2) then al else delete oldk2 al))
  | None => (None, mkMap mn al)
  end.

Definition remove (m : MultikeyBTreeMap) (key : K1) : option V * MultikeyBTreeMap :=
  match main m !! key with
  | Some (k2, v) => (Some v, mkMap (delete key (main m)) (delete k2 (alt m)))
  | None => (None, m)
  end.

Definition clear (m : MultikeyBTreeMap) : MultikeyBTreeMap := mkMap ∅ ∅.

(** The one-to-one correspondence. *)
Definition one_to_one (m : MultikeyBTreeMap) : Prop :=
  forall k1 k2, alt m !! k2 = Some k1 <-> exists v, main m !! k1 = Some (k2, v).

Lemma one_to_one_new : one_to_one new.
Proof. intros k1 k2. cbn. rewrite !lookup_empty. split; [done|]. by intros [v [=]]. Qed.

Lemma one_to_one_inj m k1 k1' k2 v v' :
  one_to_one m -> main m !! k1 = Some (k2, v) -> main m !! k1' = Some (k2, v') -> k1 = k1'.
Proof.
  intros Hm Hk Hk'. assert (alt m !! k2 = Some k1) as E by (apply Hm; eauto).
  assert (alt m !! k2 = Some k1') as E' by (apply Hm; eauto). congruence.
Qed.

(** What [insert] leaves in the main map: the entries of the two keys are
    replaced, whichever of them existed. *)
Lemma insert_main m k1 k2 v :
  main (snd (insert m k1 k2 v)) =
    <[k1 := (k2, v)]> (match alt m !! k2 with Some o => delete o (main m) | None => main m end).
Proof.
  unfold insert. destruct (alt m !! k2); by repeat case_match.
Qed.

Lemma insert_alt m k1 k2 v k :
  one_to_one m ->
  alt (snd (insert m k1 k2 v)) !! k =
    if bool_decide (k = k2) then Some k1
    else if bool_decide ((fst <$> main m !! k1) = Some k) then None else alt m !! k.
Proof.
  intros Hm. unfold insert.
  assert (forall o, alt m !! k2 = Some o -> exists w, main m !! o = Some (k2, w)) as Ho
    by (intros o; apply Hm).
  destruct (alt m !! k2) as [o|] eqn:Ea.
  - destruct (Ho o eq_refl) as [w Hw]. destruct (decide (o = k1)) as [->|Hne].
    + rewrite lookup_delete_eq, Hw. solve_lookup.
    + rewrite lookup_delete_ne, Hw by done. destruct (main m !! k1) as [[k2' v']|] eqn:Ek; solve_lookup.
  - destruct (main m !! k1) as [[k2' v']|] eqn:Ek; solve_lookup.
Qed.

(** A main key other than the inserted one survives unless the alternate key
    belonged to it. *)
Lemma insert_main_lookup m k1 k2 v j :
  main (snd (insert m k1 k2 v)) !! j =
    if bool_decide (j = k1) then Some (k2, v)
    else if bool_decide (alt m !! k2 = Some j) then None else main m !! j.
Proof. rewrite insert_main. destruct (alt m !! k2) as [o|]; solve_lookup. Qed.

Lemma insert_one_to_one m k1 k2 v : one_to_one m -> one_to_one (snd (insert m k1 k2 v)).
Proof.
  intros Hm j1 j2. rewrite insert_alt, insert_main_lookup by done.
  repeat case_bool_decide; simplify_eq; try naive_solver.
  - split; [congruence|]. intros [w Hw]. assert (alt m !! k2 = Some j1) by (apply Hm; eauto). congruence.
  - destruct (main m !! k1) as [[x w]|] eqn:Ek; [|done]. simplify_eq/=. split; [done|].
    intros [w' Hw']. by pose proof (one_to_one_inj _ _ _ _ _ _ Hm Ek Hw').
  - rewrite (Hm k1 j2). split; [|intros [w Hw]; congruence]. intros [w Hw]. by rewrite Hw in *.
  - rewrite (Hm j1 j2). split; [|by intros [w Hw]]. intros [w Hw].
    destruct (proj1 (Hm j1 k2) ltac:(done)) as [w' Hw']. congruence.
  - apply Hm.
Qed.

Lemma insert_returns m k1 k2 v :
  one_to_one m ->
  fst (insert m k1 k2 v) = match get m k1 with Some o => Some o | None => get_alt m k2 end.
Proof.
  intros Hm. unfold insert, get_alt, get. destruct (alt m !! k2) as [o|] eqn:Ea.
  - destruct (proj1 (Hm o k2) Ea) as [w Hw]. destruct (decide (o = k1)) as [->|Hne].
    + by rewrite lookup_delete_eq, Hw.
    + rewrite lookup_delete_ne, Hw by done. by destruct (main m !! k1) as [[? ?]|].
  - by destruct (main m !! k1) as [[? ?]|].
Qed.

(** Insertion with two keys: the one-to-one correspondence is preserved,
    both keys then lead to the new value, the returned value is the one of the
    main key if it was present and otherwise the one of the alternate key, and
    exactly the entries that shared one of the keys disappear. *)
Theorem multikey_insert_correct m k1 k2 v :
  one_to_one m ->
  let m' := snd (insert m k1 k2 v) in
  one_to_one m' /\ get m' k1 = Some v /\ get_alt m' k2 = Some v /\
  fst (insert m k1 k2 v) = match get m k1 with Some o => Some o | None => get_alt m k2 end /\
  (forall j, j <> k1 -> get m' j = if bool_decide (alt m !! k2 = Some j) then None else get m j).
Proof.
  intros Hm. cbv zeta. assert (get (insert m k1 k2 v).2 k1 = Some v) as Hg.
  { unfold get. by rewrite insert_main_lookup, bool_decide_true. }
  split_and!; [by apply insert_one_to_one|done| |by apply insert_returns|].
  - unfold get_alt. by rewrite insert_alt, bool_decide_true.
  - intros j Hj. unfold get. rewrite insert_main_lookup, (bool_decide_false (j = k1)) by done.
    by case_bool_decide.
Qed.

Lemma remove_one_to_one m k1 : one_to_one m -> one_to_one (snd (remove m k1)).
Proof.
  intros Hm. unfold remove. destruct (main m !! k1) as [[k2 v]|] eqn:Ek; [|done].
  intros j1 j2; cbn [main alt snd]. rewrite !lookup_delete_Some, (Hm j1 j2).
  setoid_rewrite lookup_delete_Some. split.
  - intros [Hne [w Hw]]. exists w. split; [congruence|done].
  - intros [w [Hne Hw]]. split; [|eauto]. intros <-.
    by pose proof (one_to_one_inj _ _ _ _ _ _ Hm Ek Hw).
Qed.

(** Removal by main key returns its value, removes both of its keys and no
    other entry, and preserves the correspondence. *)
Theorem multikey_remove_correct m k1 :
  one_to_one m ->
  let m' := snd (remove m k1) in
  one_to_one m' /\ fst (remove m k1) = get m k1 /\ get m' k1 = None /\
  (forall j, j <> k1 -> get m' j = get m j) /\
  (forall k2, alt m !! k2 = Some k1 -> get_alt m' k2 = None) /\
  (forall k2, alt m !! k2 <> Some k1 -> get_alt m' k2 = get_alt m k2).
Proof.
  intros Hm. pose proof (remove_one_to_one m k1 Hm) as Ho. revert Ho.
  unfold remove. destruct (main m !! k1) as [[k2 v]|] eqn:Ek; cbn [fst snd]; intros Ho.
  - assert (alt m !! k2 = Some k1) as Ea by (apply Hm; eauto).
    unfold get_alt, get; cbn [main alt]. split_and!.
    + done.
    + by rewrite Ek.
    + by rewrite lookup_delete_eq.
    + intros j Hj. by rewrite lookup_delete_ne.
    + intros j Hj. assert (k2 = j) as <-; [|by rewrite lookup_delete_eq].
      apply Hm in Hj as [w Hw]. congruence.
    + intros j Hj. destruct (decide (j = k2)) as [->|]; [done|].
      rewrite lookup_delete_ne by done. destruct (alt m !! j) as [o|]; [|done].
      rewrite lookup_delete_ne; [done|congruence].
  - unfold get. rewrite Ek. split_and!; try done.
    intros j Hj. apply Hm in Hj as [w Hw]. congruence.
Qed.
End multikey.

Definition demo : MultikeyBTreeMap (K1:=nat) (K2:=nat) (V:=Z) :=
  snd (insert (snd (insert new 1%nat 10%nat 100)) 2%nat 20%nat 200).

Lemma one_to_one_demo : one_to_one demo.
Proof. apply insert_one_to_one, insert_one_to_one, one_to_one_new. Qed.

(** Re-using main key 1 with alternate key 20 drops both former entries. *)
Lemma multikey_insert_correct_witness :
  get (snd (insert demo 1%nat 20%nat 300)) 1%nat = Some 300 /\
  get (snd (insert demo 1%nat 20%nat 300)) 2%nat = None.
Proof.
  destruct (multikey_insert_correct demo 1%nat 20%nat 300 one_to_one_demo) as (_ & Hg & _ & _ & Ho).
  split; [exact Hg|]. exact (Ho 2%nat ltac:(discriminate)).
Defined.

Lemma multikey_remove_correct_witness :
  fst (remove demo 1%nat) = Some 100 /\ get_alt (snd (remove demo 1%nat)) 10%nat = None.
Proof.
  destruct (multikey_remove_correct demo 1%nat one_to_one_demo) as (_ & Hr & _ & _ & Ha & _).
  split; [exact Hr|exact (Ha 10%nat eq_refl)].
Defined.
End Multikey.
