(* ===== verification/Cmdline.v ===== *)
(** * Kernel command line builder ([kernel/src/cmdline/mod.rs])

    A [&str] is the list of its code points; its [len] is the number of UTF-8
    bytes.  The theorems show that what the builder accepts stays within its
    capacity, printable and nul-free, that a rejected insertion changes
    nothing, and that the options can be parsed back from the line. *)

From S2P Require Import Prelude.

Module Cmdline.

Inductive Error :=
| CommandLineCopy | CommandLineOverflow | InvalidAscii | HasSpace | HasEquals | TooLarge.

Definition SPACE : Z := 32.
Definition EQUALS : Z := 61.

Definition utf8_len (c : Z) : Z :=
  if c <? 0x80 then 1 else if c <? 0x800 then 2 else if c <? 0x10000 then 3 else 4.

(** [str::len] *)
Fixpoint str_len (s : list Z) : Z :=
  match s with [] => 0 | c :: s => utf8_len c + str_len s end.

Definition valid_char (c : Z) : bool := (32 <=? c) && (c <=? 126).

Definition valid_str (s : list Z) : result Error unit :=
  if forallb valid_char s then Ok tt else Err InvalidAscii.

Definition contains (s : list Z) (c : Z) : bool := existsb (Z.eqb c) s.

Definition valid_element (s : list Z) : result Error unit :=
  if negb (forallb valid_char s) then Err InvalidAscii
  else if contains s SPACE then Err HasSpace
  else if contains s EQUALS then Err HasEquals
  else Ok tt.

Record Cmdline := mkCmdline { line : list Z; capacity : Z }.

Definition new (cap : Z) : outcome Cmdline :=
  if cap =? 0 then Panic else Ret (mkCmdline [] cap).

Definition str_is_empty (s : list Z) : bool := match s with [] => true | _ => false end.

Definition has_capacity (c : Cmdline) (more : Z) : result Error unit :=
  let needs_space := if str_is_empty (line c) then 0 else 1 in
  if (str_len (line c) +[64] more) +[64] needs_space <? capacity c then Ok tt else Err TooLarge.

Definition start_push (c : Cmdline) : Cmdline :=
  if str_is_empty (line c) then c else mkCmdline (line c ++ [SPACE]) (capacity c).

Definition push_str (c : Cmdline) (s : list Z) : Cmdline := mkCmdline (line c ++ s) (capacity c).

(** [assert!(self.line.len() < self.capacity)] *)
Definition end_push (c : Cmdline) : outcome unit :=
  if str_len (line c) <? capacity c then Ret tt else Panic.

Definition len (c : Cmdline) : Z := str_len (line c).

Definition is_empty (c : Cmdline) : bool := len c =? 0.

Definition insert (c : Cmdline) (k v : list Z) : outcome (result Error unit * Cmdline) :=
  match valid_element k with
  | Err e => Ret (Err e, c)
  | Ok _ =>
      match valid_element v with
      | Err e => Ret (Err e, c)
      | Ok _ =>
          match has_capacity c ((str_len k +[64] str_len v) +[64] 1) with
          | Err e => Ret (Err e, c)
          | Ok _ =>
              let c := start_push c in
              let c := push_str c k in
              let c := push_str c [EQUALS] in
              let c := push_str c v in
              _ ← end_push c;
              Ret (Ok tt, c)
          end
      end
  end.

Definition insert_str (c : Cmdline) (s : list Z) : outcome (result Error unit * Cmdline) :=
  match valid_str s with
  | Err e => Ret (Err e, c)
  | Ok _ =>
      match has_capacity c (str_len s) with
      | Err e => Ret (Err e, c)
      | Ok _ =>
          let c := start_push c in
          let c := push_str c s in
          _ ← end_push c;
          Ret (Ok tt, c)
      end
  end.

(** [CString::new] refuses an interior nul. *)
Definition as_cstring (c : Cmdline) : result Error (list Z) :=
  if contains (line c) 0 then Err InvalidAscii else Ok (line c ++ [0]).

(** ** Lemmas *)

Definition printable (s : list Z) : Prop := Forall (fun c => 32 <= c <= 126) s.

Lemma forallb_valid s : forallb valid_char s = true <-> printable s.
Proof.
  unfold printable. induction s as [|c s IH]; cbn [forallb]; [by split; [constructor|]|].
  rewrite andb_true_iff, Forall_cons, IH. unfold valid_char.
  by rewrite andb_true_iff, !Z.leb_le.
Qed.

Lemma str_len_printable s : printable s -> str_len s = Zlength s.
Proof.
  induction 1 as [|c s Hc _ IH]; [done|]. cbn [str_len length]. unfold utf8_len.
  destruct (c <? 0x80) eqn:E; zify_bool; lia.
Qed.

Lemma contains_spec s c : contains s c = true <-> c ∈ s.
Proof.
  unfold contains. induction s as [|x s IH]; cbn [existsb].
  - split; [done|]. by intros []%not_elem_of_nil.
  - rewrite orb_true_iff, elem_of_cons, IH, Z.eqb_eq. done.
Qed.

Lemma valid_element_ok s :
  valid_element s = Ok tt <-> printable s /\ SPACE ∉ s /\ EQUALS ∉ s.
Proof.
  unfold valid_element. rewrite <- forallb_valid, <- !contains_spec.
  destruct (forallb valid_char s), (contains s SPACE), (contains s EQUALS); naive_solver.
Qed.

(** The invariant of a command line under construction. *)
Definition wf (c : Cmdline) : Prop :=
  printable (line c) /\ Zlength (line c) < capacity c /\ capacity c < 2 ^ 62.

Definition separator (c : Cmdline) : list Z := if str_is_empty (line c) then [] else [SPACE].

Lemma separator_len c :
  Zlength (separator c) = if str_is_empty (line c) then 0 else 1.
Proof. unfold separator. by destruct (str_is_empty (line c)). Qed.

Lemma separator_printable c : printable (separator c).
Proof. unfold separator. destruct (str_is_empty _); repeat constructor; unfold SPACE; lia. Qed.

Lemma start_push_line c : start_push c = mkCmdline (line c ++ separator c) (capacity c).
Proof.
  unfold start_push, separator. destruct (str_is_empty (line c)); [|done].
  rewrite app_nil_r. by destruct c.
Qed.

(** The tail both insertions share: capacity test, separator, text, assertion. *)
Lemma push_checked c s more :
  wf c -> printable s -> more = Zlength s -> Zlength s < 2 ^ 62 ->
  let fits_in := Zlength (line c ++ separator c ++ s) <? capacity c in
  has_capacity c more = (if fits_in then Ok tt else Err TooLarge) /\
  (fits_in = true ->
     end_push (mkCmdline (line c ++ separator c ++ s) (capacity c)) = Ret tt /\
     wf (mkCmdline (line c ++ separator c ++ s) (capacity c))).
Proof.
  intros (Hp & Hlt & Hcap) Hs -> Hl. cbv zeta. unfold has_capacity.
  rewrite str_len_printable, !length_app by done. rewrite <- separator_len.
  pose proof (separator_len c) as Hsep.
  assert (Zlength (separator c) <= 1) by (rewrite Hsep; case_bool; lia).
  rewrite (wrap_small 64 (Zlength (line c) + Zlength s)) by (unfold fits; lia).
  rewrite wrap_small by (unfold fits; lia).
  replace (Z.of_nat (length (line c) + (length (separator c) + length s)))
    with (Zlength (line c) + Zlength s + Zlength (separator c)) by lia.
  split; [done|]. intros Hf. zify_bool.
  assert (printable (line c ++ separator c ++ s)) as Hall.
  { apply Forall_app; split; [done|]. apply Forall_app; split; [apply separator_printable|done]. }
  assert (Zlength (line c ++ separator c ++ s) < capacity c) as Hcl by (rewrite !length_app; lia).
  split; [|done]. unfold end_push; cbn [line capacity]. rewrite str_len_printable by done.
  by apply Z.ltb_lt in Hcl as ->.
Qed.

Lemma kv_insert_cases c k v :
  wf c -> Zlength k < 2 ^ 60 -> Zlength v < 2 ^ 60 ->
  let text := line c ++ separator c ++ k ++ [EQUALS] ++ v in
  exists r c', insert c k v = Ret (r, c') /\ wf c' /\
    (r = Ok tt <-> valid_element k = Ok tt /\ valid_element v = Ok tt /\ Zlength text < capacity c) /\
    (r = Ok tt -> c' = mkCmdline text (capacity c)) /\
    (r <> Ok tt -> c' = c).
Proof.
  intros Hwf Hk Hv text. unfold insert.
  destruct (valid_element k) as [[]|e] eqn:Ek; [|by exists (Err e), c; naive_solver].
  destruct (valid_element v) as [[]|e] eqn:Ev; [|by exists (Err e), c; naive_solver].
  apply valid_element_ok in Ek as (Pk & _ & _), Ev as (Pv & _ & _).
  assert (printable (k ++ [EQUALS] ++ v)) as Pkv.
  { apply Forall_app; split; [done|]. constructor; [unfold EQUALS; lia|done]. }
  destruct (push_checked c (k ++ [EQUALS] ++ v) ((str_len k +[64] str_len v) +[64] 1) Hwf Pkv)
    as [Hc He].
  { rewrite !str_len_printable by done.
    rewrite (wrap_small 64 (Zlength k + Zlength v)) by (unfold fits; lia).
    rewrite wrap_small by (unfold fits; lia). rewrite !length_app. cbn [length]. lia. }
  { rewrite !length_app. cbn [length]. lia. }
  fold text in Hc, He. rewrite Hc. destruct (Zlength text <? capacity c) eqn:Ef.
  - destruct (He eq_refl) as [Hep Hwf'].
    rewrite start_push_line. unfold push_str. cbn [line capacity].
    assert ((((line c ++ separator c) ++ k) ++ [EQUALS]) ++ v = text) as -> by by rewrite <- !app_assoc.
    rewrite Hep. exists (Ok tt), (mkCmdline text (capacity c)). zify_bool. naive_solver.
  - exists (Err TooLarge), c. zify_bool. naive_solver lia.
Qed.

(** Inserting a key/value option never panics and is all or nothing: it
    succeeds exactly when both parts are printable without spaces and equals
    signs and the line with the option still fits below the capacity, and then
    appends " key=value"; otherwise the line is unchanged. *)
Theorem cmdline_insert_correct c k v :
  wf c -> Zlength k < 2 ^ 60 -> Zlength v < 2 ^ 60 ->
  let text := line c ++ separator c ++ k ++ [EQUALS] ++ v in
  exists r c', insert c k v = Ret (r, c') /\ wf c' /\
    (r = Ok tt <-> valid_element k = Ok tt /\ valid_element v = Ok tt /\ Zlength text < capacity c) /\
    (r = Ok tt -> c' = mkCmdline text (capacity c)) /\
    (r <> Ok tt -> c' = c).
Proof. apply kv_insert_cases. Qed.

(** Inserting a free-form string: same guarantees, with spaces and equals
    signs allowed. *)
Theorem cmdline_insert_str_correct c s :
  wf c -> Zlength s < 2 ^ 60 ->
  let text := line c ++ separator c ++ s in
  exists r c', insert_str c s = Ret (r, c') /\ wf c' /\
    (r = Ok tt <-> printable s /\ Zlength text < capacity c) /\
    (r = Ok tt -> c' = mkCmdline text (capacity c)) /\
    (r <> Ok tt -> c' = c).
Proof.
  intros Hwf Hl text. unfold insert_str, valid_str.
  destruct (forallb valid_char s) eqn:Es.
  2: { exists (Err InvalidAscii), c. rewrite <- forallb_valid, Es. naive_solver. }
  apply forallb_valid in Es.
  destruct (push_checked c s (str_len s) Hwf Es) as [Hc He]; [by apply str_len_printable|lia|].
  fold text in Hc, He. rewrite Hc. destruct (Zlength text <? capacity c) eqn:Ef.
  - destruct (He eq_refl) as [Hep Hwf']. rewrite start_push_line. unfold push_str. cbn [line capacity].
    rewrite <- app_assoc. fold text. rewrite Hep.
    exists (Ok tt), (mkCmdline text (capacity c)). zify_bool. naive_solver.
  - exists (Err TooLarge), c. zify_bool. naive_solver lia.
Qed.

(** ** Reading the options back *)

(** Text up to the first [sep], and what follows it. *)
Fixpoint split_first (sep : Z) (s : list Z) : list Z * option (list Z) :=
  match s with
  | [] => ([], None)
  | c :: s =>
      if c =? sep then ([], Some s)
      else let '(a, r) := split_first sep s in (c :: a, r)
  end.

(** The options of a line, as a kernel splits it; [fuel] bounds their number. *)
Fixpoint options (fuel : nat) (s : list Z) : list (list Z * list Z) :=
  match fuel with
  | O => []
  | S fuel =>
      let '(w, rest) := split_first SPACE s in
      let '(k, v) := split_first EQUALS w in
      (k, default [] v) :: match rest with Some r => options fuel r | None => [] end
  end.

Definition parse (s : list Z) : list (list Z * list Z) :=
  if str_is_empty s then [] else options (S (length s)) s.

Fixpoint insert_all (c : Cmdline) (kvs : list (list Z * list Z)) : option Cmdline :=
  match kvs with
  | [] => Some c
  | (k, v) :: kvs =>
      match insert c k v with
      | Ret (Ok _, c) => insert_all c kvs
      | _ => None
      end
  end.

Definition render (kv : list Z * list Z) : list Z := kv.1 ++ [EQUALS] ++ kv.2.

(** The line the builder produces: options joined by single spaces. *)
Fixpoint join (kvs : list (list Z * list Z)) : list Z :=
  match kvs with
  | [] => []
  | [kv] => render kv
  | kv :: kvs => render kv ++ [SPACE] ++ join kvs
  end.

Lemma join_cons kv kv' kvs :
  join (kv :: kv' :: kvs) = render kv ++ SPACE :: join (kv' :: kvs).
Proof. done. Qed.

Lemma join_nonempty kv kvs : str_is_empty (join (kv :: kvs)) = false.
Proof. destruct kvs; cbn [join]; unfold render; by destruct (kv.1). Qed.

Lemma split_first_app sep s r : sep ∉ s -> split_first sep (s ++ sep :: r) = (s, Some r).
Proof.
  induction s as [|c s IH]; intros Hn; cbn [app split_first]; [by rewrite Z.eqb_refl|].
  apply not_elem_of_cons in Hn as [Hc Hs]. destruct (Z.eqb_spec c sep); [congruence|]. by rewrite IH.
Qed.

Lemma split_first_none sep s : sep ∉ s -> split_first sep s = (s, None).
Proof.
  induction s as [|c s IH]; intros Hn; cbn [split_first]; [done|].
  apply not_elem_of_cons in Hn as [Hc Hs]. destruct (Z.eqb_spec c sep); [congruence|]. by rewrite IH.
Qed.

Definition element_ok (s : list Z) : Prop := SPACE ∉ s /\ EQUALS ∉ s.

Lemma render_no_space kv : element_ok kv.1 -> element_ok kv.2 -> SPACE ∉ render kv.
Proof.
  intros [H1 _] [H2 _]. unfold render. rewrite !not_elem_of_app. split_and!; [done| |done].
  intros E. apply elem_of_cons in E as [E|E]; [done|by apply not_elem_of_nil in E].
Qed.

Lemma options_join kvs fuel :
  Forall (fun kv => element_ok kv.1 /\ element_ok kv.2) kvs -> kvs <> [] ->
  (length kvs <= fuel)%nat -> options fuel (join kvs) = kvs.
Proof.
  intros Hf. revert fuel. induction Hf as [|kv kvs [H1 H2] Hf IH]; intros fuel Hne Hl; [done|].
  destruct fuel as [|fuel]; [cbn in Hl; lia|]. cbn [options].
  assert (split_first EQUALS (render kv) = (kv.1, Some kv.2)) as Hr
    by (apply split_first_app, H1).
  destruct kvs as [|kv' kvs].
  - cbn [join]. rewrite split_first_none by by apply render_no_space. rewrite Hr. by destruct kv.
  - rewrite join_cons, split_first_app by by apply render_no_space. rewrite Hr, IH; [by destruct kv|done|].
    cbn in Hl |- *. lia.
Qed.

Lemma join_snoc kvs kv :
  join (kvs ++ [kv]) = join kvs ++ (if str_is_empty (join kvs) then [] else [SPACE]) ++ render kv.
Proof.
  induction kvs as [|a kvs IH]; [done|]. destruct kvs as [|b kvs].
  - rewrite join_nonempty. done.
  - rewrite join_nonempty. rewrite join_nonempty in IH. cbn [app] in *.
    rewrite !join_cons, IH. cbn [app]. by rewrite <- app_assoc.
Qed.

Lemma length_join kvs : (length kvs <= length (join kvs))%nat.
Proof.
  induction kvs as [|a [|b kvs] IH]; [done| |].
  - cbn. unfold render. rewrite !length_app. cbn. lia.
  - rewrite join_cons, length_app. cbn [length] in *. lia.
Qed.

Lemma insert_all_join c kvs done_ c' :
  wf c -> line c = join done_ ->
  Forall (fun kv => Zlength kv.1 < 2 ^ 60 /\ Zlength kv.2 < 2 ^ 60) kvs ->
  insert_all c kvs = Some c' ->
  line c' = join (done_ ++ kvs) /\ wf c' /\ Forall (fun kv => element_ok kv.1 /\ element_ok kv.2) kvs.
Proof.
  intros Hwf Hl Hf. revert c done_ Hwf Hl.
  induction Hf as [|[k v] kvs [Hk Hv] Hf IH]; intros c dn Hwf Hl Hi.
  { injection Hi as <-. by rewrite app_nil_r. }
  cbn [insert_all] in Hi.
  destruct (kv_insert_cases c k v Hwf Hk Hv) as (r & c1 & Hins & Hwf1 & Hiff & Hok & _).
  rewrite Hins in Hi. destruct r as [[]|]; [|done].
  destruct (proj1 Hiff eq_refl) as ((_ & ? & ?)%valid_element_ok & (_ & ? & ?)%valid_element_ok & _).
  destruct (IH c1 (dn ++ [(k, v)])) as (Hl' & Hwf' & Hel); [done| |done|].
  - rewrite join_snoc, (Hok eq_refl). cbn [line]. unfold separator. by rewrite Hl.
  - rewrite <- app_assoc in Hl'. split_and!; [done..|]. by constructor.
Qed.

(** Round trip: whatever key/value options the builder accepted, parsing
    the finished line (split at spaces, then at the first equals sign) gives
    back exactly these options in order; the line is shorter than the
    capacity, and converting it to a C string cannot fail. *)
Theorem cmdline_roundtrip cap kvs c :
  0 < cap < 2 ^ 62 ->
  Forall (fun kv => Zlength kv.1 < 2 ^ 60 /\ Zlength kv.2 < 2 ^ 60) kvs ->
  insert_all (mkCmdline [] cap) kvs = Some c ->
  parse (line c) = kvs /\ len c < cap /\ as_cstring c = Ok (line c ++ [0]).
Proof.
  intros Hcap Hf Hi.
  assert (wf (mkCmdline [] cap)) as Hwf by (split; [constructor|cbn; lia]).
  destruct (insert_all_join _ kvs [] c Hwf eq_refl Hf Hi) as (Hl & (Hp & Hlen & _) & Hel).
  assert (capacity c = cap) as Hc.
  { clear -Hi. revert Hi. change cap with (capacity (mkCmdline [] cap)) at 2.
    generalize (mkCmdline [] cap). induction kvs as [|[k v] kvs IH]; intros c0; [by intros [= <-]|].
    cbn [insert_all]. destruct (insert c0 k v) as [[[] c1]|] eqn:E; [|done..]. intros Hi.
    rewrite (IH _ Hi). revert E. unfold insert, start_push, push_str, end_push.
    repeat case_match; cbn; intros; simplify_eq; done. }
  split_and!.
  - cbn [app] in Hl. rewrite Hl. unfold parse. destruct kvs as [|kv kvs]; [done|].
    pose proof (length_join (kv :: kvs)). rewrite join_nonempty. apply options_join; [done|done|lia].
  - unfold len. rewrite str_len_printable by done. lia.
  - unfold as_cstring. destruct (contains (line c) 0) eqn:E; [|done].
    apply contains_spec in E. unfold printable in Hp. rewrite Forall_forall in Hp. specialize (Hp _ E). lia.
Qed.

(** ** Witnesses: "ro" and "a=b" *)

Definition demo : Cmdline := mkCmdline [114; 111] 10.

Lemma demo_wf : wf demo.
Proof. split; [repeat constructor; lia|cbn; lia]. Qed.

Lemma cmdline_insert_correct_witness :
  exists r c', insert demo [97] [98] = Ret (r, c') /\ wf c' /\ line c' = [114; 111; 32; 97; 61; 98].
Proof.
  destruct (cmdline_insert_correct demo [97] [98] demo_wf) as (r & c' & Hi & Hwf & Hiff & Hok & _);
    [cbn; lia|cbn; lia|].
  exists r, c'. split; [exact Hi|split; [exact Hwf|]]. rewrite Hok; [reflexivity|].
  apply Hiff. split; [reflexivity|split; [reflexivity|cbn; lia]].
Defined.

Lemma cmdline_insert_str_correct_witness :
  exists r c', insert_str demo [97; 32; 98] = Ret (r, c') /\ wf c' /\
    line c' = [114; 111; 32; 97; 32; 98].
Proof.
  destruct (cmdline_insert_str_correct demo [97; 32; 98] demo_wf) as (r & c' & Hi & Hwf & Hiff & Hok & _);
    [cbn; lia|].
  exists r, c'. split; [exact Hi|split; [exact Hwf|]]. rewrite Hok; [reflexivity|].
  apply Hiff. split; [repeat constructor; lia|cbn; lia].
Defined.

Lemma cmdline_roundtrip_witness :
  exists c, insert_all (mkCmdline [] 20) [([97], [98]); ([99; 100], [])] = Some c /\
    parse (line c) = [([97], [98]); ([99; 100], [])].
Proof.
  exists (mkCmdline [97; 61; 98; 32; 99; 100; 61] 20). split; [reflexivity|].
  apply (cmdline_roundtrip 20 [([97], [98]); ([99; 100], [])]);
    [lia|repeat constructor; cbn; lia|reflexivity].
Defined.
End Cmdline.
