(* ===== verification/EventManager.v ===== *)
(** * Event dispatch ([polly/src/event_manager.rs], [utils/src/linux/epoll.rs])

    [EventManager] pairs a table of subscribers with the interest list of an
    epoll instance.  The kernel's epoll is the interface [Epoll]: its laws are
    the documented behaviour of [epoll_ctl].  Subscribers are handles; what a
    subscriber does with an event is a parameter of [dispatch_events], which
    may itself change the manager. *)

From S2P Require Import Prelude.

Module EventManager.

Inductive ControlOperation := Add | Modify | Delete.

(** [events] and [u64] of [libc::epoll_event]. *)
Record EpollEvent := mkEvent { events : Z; data : Z }.

(** [EpollEvent::fd]: the data truncated to an [i32]. *)
Definition fd (e : EpollEvent) : Z := to_signed 32 (data e).

Definition event_default : EpollEvent := mkEvent 0 0.

Class Epoll (Ep : Type) := {
  ctl : Ep -> ControlOperation -> Z -> EpollEvent -> option Ep;
  interest : Ep -> gset Z;
}.

(** [epoll_ctl(2)]: [EEXIST] and [ENOENT]; a failed call changes nothing. *)
Class EpollLaws (Ep : Type) `{Epoll Ep} : Prop := {
  ctl_add e f ev e' : ctl e Add f ev = Some e' -> f ∉ interest e /\ interest e' = {[f]} ∪ interest e;
  ctl_modify e f ev e' : ctl e Modify f ev = Some e' -> f ∈ interest e /\ interest e' = interest e;
  ctl_delete e f ev e' : ctl e Delete f ev = Some e' -> f ∈ interest e /\ interest e' = interest e ∖ {[f]};
}.

Inductive Error := Poll | AlreadyExists (p : Z) | NotFound (p : Z).

Section manager.
Context {Ep : Type} `{Epoll Ep}.

Abbreviation Handle := nat.

Record EventManager := mkManager {
  epoll : Ep;
  subscribers : gmap Z Handle;
}.

Definition new (e : Ep) : EventManager := mkManager e ∅.

Definition subscriber (m : EventManager) (f : Z) : result Error Handle :=
  ok_or (subscribers m !! f) (NotFound f).

Definition register (m : EventManager) (pollable : Z) (ev : EpollEvent) (s : Handle)
    : result Error unit * EventManager :=
  match subscribers m !! pollable with
  | Some _ => (Err (AlreadyExists pollable), m)
  | None =>
      match ctl (epoll m) Add pollable ev with
      | None => (Err Poll, m)
      | Some e => (Ok tt, mkManager e (<[pollable := s]> (subscribers m)))
      end
  end.

(** [interest_list] is the subscriber's own list of events. *)
Fixpoint add_subscriber (m : EventManager) (interest_list : list EpollEvent) (s : Handle)
    : result Error unit * EventManager :=
  match interest_list with
  | [] => (Ok tt, m)
  | ev :: rest =>
      match register m (to_signed 32 (data ev)) ev s with
      | (Err e, m) => (Err e, m)
      | (Ok _, m) => add_subscriber m rest s
      end
  end.

Definition unregister (m : EventManager) (pollable : Z) : result Error unit * EventManager :=
  match subscribers m !! pollable with
  | Some _ =>
      let subs := delete pollable (subscribers m) in
      match ctl (epoll m) Delete pollable event_default with
      | None => (Err Poll, mkManager (epoll m) subs)
      | Some e => (Ok tt, mkManager e subs)
      end
  | None => (Err (NotFound pollable), m)
  end.

Definition modify (m : EventManager) (pollable : Z) (ev : EpollEvent)
    : result Error unit * EventManager :=
  match subscribers m !! pollable with
  | Some _ =>
      match ctl (epoll m) Modify pollable ev with
      | None => (Err Poll, m)
      | Some e => (Ok tt, mkManager e (subscribers m))
      end
  | None => (Err (NotFound pollable), m)
  end.

Definition is_pollable (m : EventManager) (pollable : Z) : outcome (bool * EventManager) :=
  match ctl (epoll m) Add pollable event_default with
  | None => Ret (false, m)
  | Some e =>
      e ← unwrap (ctl e Delete pollable event_default);
      Ret (true, mkManager e (subscribers m))
  end.

(** [dispatch_events] over the ready events; [process] is the subscriber's
    callback on the world [W] and the manager. *)
Fixpoint dispatch_events {W} (process : Handle -> EpollEvent -> W * EventManager -> W * EventManager)
    (ready : list EpollEvent) (w : W * EventManager) : W * EventManager :=
  match ready with
  | [] => w
  | ev :: ready =>
      let w := match subscribers (snd w) !! fd ev with
               | Some s => process s ev w
               | None => w
               end in
      dispatch_events process ready w
  end.

Definition EVENT_BUFFER_SIZE : nat := 128.
Definition EINTR : Z := 4.

(** [run_with_timeout], for the answer of [epoll_wait]: the ready events, or
    an error number. *)
Definition run_with_timeout {W} process (wait : result Z (list EpollEvent)) (w : W * EventManager)
    : result Error nat * (W * EventManager) :=
  match wait with
  | Ok evs => let evs := take EVENT_BUFFER_SIZE evs in
              (Ok (length evs), dispatch_events process evs w)
  | Err e => if e =? EINTR then (Ok 0%nat, dispatch_events process [] w) else (Err Poll, w)
  end.

Section facts.
Context `{!EpollLaws Ep}.

(** Every registered descriptor is in the kernel's interest list. *)
Definition watched (m : EventManager) : Prop := dom (subscribers m) ⊆ interest (epoll m).

Lemma register_watched m p ev s : watched m -> watched (snd (register m p ev s)).
Proof.
  unfold watched, register. intros Hw. destruct (subscribers m !! p); [done|].
  destruct (ctl _ _ _ _) as [e|] eqn:E; [|done]. apply ctl_add in E as [_ E]. cbn.
  rewrite E, dom_insert_L. set_solver.
Qed.

Lemma add_subscriber_watched m evs s : watched m -> watched (snd (add_subscriber m evs s)).
Proof.
  revert m. induction evs as [|ev evs IH]; intros m Hw; [done|]. cbn [add_subscriber].
  pose proof (register_watched m (to_signed 32 (data ev)) ev s Hw) as Hr.
  destruct (register m _ ev s) as [[]]; [by apply IH|done].
Qed.

Lemma unregister_watched m p : watched m -> watched (snd (unregister m p)).
Proof.
  unfold watched, unregister. intros Hw. destruct (subscribers m !! p); [|done].
  destruct (ctl _ _ _ _) as [e|] eqn:E; cbn; rewrite dom_delete_L; [|set_solver].
  apply ctl_delete in E as [_ ->]. set_solver.
Qed.

Lemma modify_watched m p ev : watched m -> watched (snd (modify m p ev)).
Proof.
  unfold watched, modify. intros Hw. destruct (subscribers m !! p); [|done].
  destruct (ctl _ _ _ _) as [e|] eqn:E; [|done]. apply ctl_modify in E as [_ E]. cbn. by rewrite E.
Qed.

(** The operations a program may perform on the manager. *)
Inductive step : EventManager -> EventManager -> Prop :=
| st_register m p ev s : step m (snd (register m p ev s))
| st_add m evs s : step m (snd (add_subscriber m evs s))
| st_unregister m p : step m (snd (unregister m p))
| st_modify m p ev : step m (snd (modify m p ev))
| st_pollable m p b m' : is_pollable m p = Ret (b, m') -> step m m'.

Lemma is_pollable_same m p b m' :
  watched m -> is_pollable m p = Ret (b, m') -> watched m' /\ subscribers m' = subscribers m.
Proof.
  unfold is_pollable, watched. intros Hw. destruct (ctl _ Add _ _) as [e|] eqn:Ea; [|by intros [= <- <-]].
  destruct (ctl e Delete _ _) as [e'|] eqn:Ed; [|done]. intros [= <- <-]. cbn.
  apply ctl_add in Ea as [Hn Ea]. apply ctl_delete in Ed as [_ ->]. rewrite Ea. set_solver.
Qed.

(** No subscriber is lost to the kernel: through every sequence of
    registrations, removals, modifications and probes, successful or failing,
    each registered descriptor is in the epoll interest list. *)
Theorem subscribers_watched e m : rtc step (new e) m -> watched m.
Proof.
  assert (forall m m', rtc step m m' -> watched m -> watched m') as Hs.
  { induction 1 as [|x y z Hxy _ IH]; [done|]. intros Hw. apply IH. destruct Hxy.
    - by apply register_watched.
    - by apply add_subscriber_watched.
    - by apply unregister_watched.
    - by apply modify_watched.
    - by eapply is_pollable_same. }
  intros Hr. apply (Hs _ _ Hr). unfold watched. cbn. by rewrite dom_empty_L.
Qed.

(** Registration is exclusive and complete: [add_subscriber] either
    registers the subscriber for every descriptor of its interest list, or
    stops at the first one that is taken or refused by the kernel and keeps the
    registrations before it; other subscribers' registrations never change. *)
Theorem add_subscriber_spec m evs s :
  exists k, (k <= length evs)%nat /\
    (fst (add_subscriber m evs s) = Ok tt <-> k = length evs) /\
    subscribers (snd (add_subscriber m evs s)) =
      foldl (fun subs ev => <[fd ev := s]> subs) (subscribers m) (take k evs) /\
    (forall p h, subscribers m !! p = Some h ->
       subscribers (snd (add_subscriber m evs s)) !! p = Some h).
Proof.
  revert m. induction evs as [|ev evs IH]; intros m; [by exists 0%nat|]. cbn [add_subscriber].
  destruct (register m (to_signed 32 (data ev)) ev s) as [[[]|e] m1] eqn:Er.
  - destruct (IH m1) as (k & Hk & Hok & Hsub & Hkeep). exists (S k).
    unfold register in Er. destruct (subscribers m !! _) eqn:El; [done|].
    destruct (ctl _ _ _ _) as [e'|] eqn:Ec; [|done]. injection Er as <-. cbn [subscribers] in *.
    cbn [length take foldl]. split_and!; [lia|rewrite Hok; lia|done|].
    intros p h Hp. apply Hkeep. rewrite lookup_insert_ne by congruence. done.
  - exists 0%nat. unfold register in Er. cbn [fst snd take foldl length]. 
    assert (m1 = m) as -> by (repeat case_match; congruence).
    split_and!; [lia|split; [done|lia]|done|done].
Qed.

(** ** Dispatch *)

Context {W : Type} (process : Handle -> EpollEvent -> W * EventManager -> W * EventManager).

(** The callbacks of a dispatch round, with the state each one ran in. *)
Inductive dispatched : list EpollEvent -> W * EventManager -> list (Handle * EpollEvent) ->
    W * EventManager -> Prop :=
| disp_nil w : dispatched [] w [] w
| disp_call ev evs w s tr w' :
    subscribers (snd w) !! fd ev = Some s ->
    dispatched evs (process s ev w) tr w' -> dispatched (ev :: evs) w ((s, ev) :: tr) w'
| disp_skip ev evs w tr w' :
    subscribers (snd w) !! fd ev = None -> dispatched evs w tr w' -> dispatched (ev :: evs) w tr w'.

(** Dispatch delivers each ready event, in order, to the subscriber its
    descriptor is registered to at that moment, and skips descriptors that are
    no longer registered: a descriptor unregistered by an earlier callback of
    the same round, and not registered again, gets no callback. *)
Theorem dispatch_delivers evs w :
  exists tr, dispatched evs w tr (dispatch_events process evs w) /\
    sublist (map snd tr) evs /\
    (forall f, (forall s ev w', fd ev <> f -> subscribers (snd w') !! f = None ->
                 subscribers (snd (process s ev w')) !! f = None) ->
       subscribers (snd w) !! f = None -> Forall (fun c => fd (snd c) <> f) tr).
Proof.
  revert w. induction evs as [|ev evs IH]; intros w; [by exists []; repeat constructor|].
  cbn [dispatch_events]. destruct (subscribers (snd w) !! fd ev) as [s|] eqn:E.
  - destruct (IH (process s ev w)) as (tr & Hd & Hs & Hf). exists ((s, ev) :: tr).
    split_and!; [by constructor|by constructor|].
    intros f Hp Hn. assert (fd ev <> f) by congruence. constructor; [done|]. apply Hf; [done|].
    by apply Hp.
  - destruct (IH w) as (tr & Hd & Hs & Hf). exists tr.
    split_and!; [by constructor|by constructor|auto].
Qed.
End facts.
End manager.

(** ** A concrete interest list *)

#[global] Instance set_epoll : Epoll (gset Z) := {
  ctl e op f _ :=
    match op with
    | Add => if bool_decide (f ∈ e) then None else Some ({[f]} ∪ e)
    | Modify => if bool_decide (f ∈ e) then Some e else None
    | Delete => if bool_decide (f ∈ e) then Some (e ∖ {[f]}) else None
    end;
  interest e := e;
}.

#[global] Instance set_epoll_laws : EpollLaws (gset Z).
Proof. split; cbn; intros; case_bool_decide; simplify_eq; done. Qed.

Lemma subscribers_watched_witness :
  watched (snd (register (new (∅ : gset Z)) 3 (mkEvent 1 3) 7%nat)) /\
  subscribers (snd (register (new (∅ : gset Z)) 3 (mkEvent 1 3) 7%nat)) !! 3 = Some 7%nat.
Proof.
  split; [|reflexivity].
  apply (subscribers_watched (∅ : gset Z)). apply rtc_once, st_register.
Defined.

End EventManager.
