(* ===== verification/VsockPacket.v ===== *)
(** * vsock packets over virtqueue buffers
    ([devices/src/virtio/vsock/packet.rs], [vsock/mod.rs])

    A [VsockPacket] is a pair of pointers into guest memory: the 44-byte header
    and an optional data buffer.  Here it holds guest addresses and every
    accessor acts on the memory value.  A raw access outside guest memory,
    undefined in the source, reads as the empty list and writes nothing; the
    construction theorems show that it cannot happen. *)

From S2P Require Import Prelude ByteOrder GuestMem VirtQueue DescUtils.
Import ByteOrder.
Import VirtQueue (DescriptorChain, addr, len, is_write_only, has_next, next_descriptor).

Module VsockPacket.

Definition MAX_PKT_BUF_SIZE : Z := 64 * 1024.
Definition VSOCK_PKT_HDR_SIZE : Z := 44.

Inductive VsockError :=
| BufDescTooSmall
| BufDescMissing
| GuestMemoryMmap
| GuestMemoryBounds
| HdrDescTooSmall (n : Z)
| InvalidPktLen (n : Z)
| NoData
| UnreadableDescriptor
| UnwritableDescriptor.

Record VsockPacket := mkPkt {
  p_hdr : Z;
  p_buf : option Z;
  p_buf_size : Z;
}.

(** The fields of [struct virtio_vsock_hdr]. *)
Inductive field :=
| SRC_CID | DST_CID | SRC_PORT | DST_PORT | LEN | TYPE | OP | FLAGS | BUF_ALLOC | FWD_CNT.
#[global] Instance field_eq_dec : EqDecision field.
Proof. solve_decision. Defined.

(** [HDROFF_*] *)
Definition hdroff (f : field) : nat :=
  match f with
  | SRC_CID => 0 | DST_CID => 8 | SRC_PORT => 16 | DST_PORT => 20 | LEN => 24
  | TYPE => 28 | OP => 30 | FLAGS => 32 | BUF_ALLOC => 36 | FWD_CNT => 40
  end.

Definition fsize (f : field) : nat :=
  match f with SRC_CID | DST_CID => 8 | TYPE | OP => 2 | _ => 4 end.

Section memory.
Context {M : Type} `{GuestMemory M}.

(** [mem.get_slice(guest_addr, size)]: inside one region *)
Definition get_host_address (m : M) (a size : Z) : option Z :=
  match gm_find_region m a with
  | Some (start, rlen) => if a - start + size <=? rlen then Some a else None
  | None => None
  end.

Definition hdr (m : M) (p : VsockPacket) : list byte :=
  default [] (gm_read m (p_hdr p) (Z.to_nat VSOCK_PKT_HDR_SIZE)).

Definition buf (m : M) (p : VsockPacket) : option (list byte) :=
  (fun a => default [] (gm_read m a (Z.to_nat (p_buf_size p)))) <$> p_buf p.

Definition get (m : M) (p : VsockPacket) (f : field) : Z :=
  read_le (fsize f) (drop (hdroff f) (hdr m p)).

Definition set (m : M) (p : VsockPacket) (f : field) (v : Z) : M :=
  default m (gm_write m (p_hdr p + Z.of_nat (hdroff f)) (le_bytes (fsize f) v)).

Definition src_cid m p := get m p SRC_CID.
Definition dst_cid m p := get m p DST_CID.
Definition src_port m p := get m p SRC_PORT.
Definition dst_port m p := get m p DST_PORT.
Definition pkt_len m p := get m p LEN.
Definition type_ m p := get m p TYPE.
Definition op m p := get m p OP.
Definition flags m p := get m p FLAGS.
Definition buf_alloc m p := get m p BUF_ALLOC.
Definition fwd_cnt m p := get m p FWD_CNT.
Definition set_flag (m : M) (p : VsockPacket) (flag : Z) : M :=
  set m p FLAGS (flags m p .| flag).

(** *** Construction from descriptor chains *)

Definition from_tx_virtq_head (m : M) (head : DescriptorChain) : result VsockError VsockPacket :=
  if is_write_only head then Err UnreadableDescriptor
  else if len head <? VSOCK_PKT_HDR_SIZE then Err (HdrDescTooSmall (len head))
  else
    match get_host_address m (addr head) VSOCK_PKT_HDR_SIZE with
    | None => Err GuestMemoryMmap
    | Some h =>
        let pkt := mkPkt h None 0 in
        if pkt_len m pkt =? 0 then Ok pkt
        else if MAX_PKT_BUF_SIZE <? pkt_len m pkt then Err (InvalidPktLen (pkt_len m pkt))
        else
          match next_descriptor m head with
          | None => Err BufDescMissing
          | Some buf_desc =>
              if is_write_only buf_desc then Err UnreadableDescriptor
              else if len buf_desc <? pkt_len m pkt then Err BufDescTooSmall
              else
                match get_host_address m (addr buf_desc) (len buf_desc) with
                | None => Err GuestMemoryMmap
                | Some b => Ok (mkPkt h (Some b) (len buf_desc))
                end
          end
    end.

Definition from_rx_virtq_head (m : M) (head : DescriptorChain) : result VsockError VsockPacket :=
  if negb (is_write_only head) then Err UnwritableDescriptor
  else if len head <? VSOCK_PKT_HDR_SIZE then Err (HdrDescTooSmall (len head))
  else
    match get_host_address m (addr head) VSOCK_PKT_HDR_SIZE with
    | None => Err GuestMemoryMmap
    | Some h =>
        if negb (has_next head) && (VSOCK_PKT_HDR_SIZE <? len head) then
          match checked_add 64 (addr head) VSOCK_PKT_HDR_SIZE with
          | None => Err GuestMemoryBounds
          | Some buf_addr =>
              let size := len head - VSOCK_PKT_HDR_SIZE in
              match get_host_address m buf_addr size with
              | None => Err GuestMemoryMmap
              | Some b => Ok (mkPkt h (Some b) size)
              end
          end
        else
          match next_descriptor m head with
          | None => Err BufDescMissing
          | Some buf_desc =>
              match get_host_address m (addr buf_desc) (len buf_desc) with
              | None => Err GuestMemoryMmap
              | Some b => Ok (mkPkt h (Some b) (len buf_desc))
              end
          end
    end.

(** *** Requests of the transparent socket impersonation protocol *)

Record TsiProxyCreate := { pc_peer_port : Z; pc_type : Z }.
Record TsiConnectReq := { cr_peer_port : Z; cr_addr : list byte; cr_port : Z }.
Record TsiGetnameReq := { gn_peer_port : Z; gn_local_port : Z; gn_peer : Z }.
Record TsiGetnameRsp := { gr_addr : list byte; gr_port : Z; gr_result : Z }.
Record TsiListenReq := { lr_peer_port : Z; lr_addr : list byte; lr_port : Z; lr_vm_port : Z; lr_backlog : Z }.
Record TsiAcceptReq := { ar_peer_port : Z; ar_flags : Z }.
Record TsiReleaseReq := { rr_peer_port : Z; rr_local_port : Z }.

(** The guard every reader has: [None] when the buffer is too short, a panic
    of [self.buf().unwrap()] when there is none. *)
Definition with_buf {A} (m : M) (p : VsockPacket) (n : Z) (f : list byte -> A) : outcome (option A) :=
  if n <=? p_buf_size p then b ← unwrap (buf m p); Ret (Some (f b)) else Ret None.

Definition sa_family m p := with_buf m p 2 (fun b => read_le_u16 b).
Definition inet_port m p := with_buf m p 4 (fun b => read_be_u16 (drop 2 b)).
Definition inet_addr m p := with_buf m p 8 (fun b => slice b 4 4).
Definition read_proxy_create m p := with_buf m p 6 (fun b =>
  {| pc_peer_port := read_le_u32 b; pc_type := read_le_u16 (drop 4 b) |}).
Definition read_connect_req m p := with_buf m p 10 (fun b =>
  {| cr_peer_port := read_le_u32 b; cr_port := read_be_u16 (drop 8 b); cr_addr := slice b 4 4 |}).
Definition read_getname_req m p := with_buf m p 12 (fun b =>
  {| gn_peer_port := read_le_u32 b; gn_local_port := read_le_u32 (drop 4 b);
     gn_peer := read_le_u32 (drop 8 b) |}).
(** [TsiSendtoAddr] has the layout of [TsiConnectReq]. *)
Definition read_sendto_addr m p := with_buf m p 10 (fun b =>
  {| cr_peer_port := read_le_u32 b; cr_port := read_be_u16 (drop 8 b); cr_addr := slice b 4 4 |}).
Definition read_listen_req m p := with_buf m p 18 (fun b =>
  {| lr_peer_port := read_le_u32 b; lr_addr := slice b 4 4; lr_port := read_be_u16 (drop 8 b);
     lr_vm_port := read_le_u32 (drop 10 b); lr_backlog := to_signed 32 (read_le_u32 (drop 14 b)) |}).
Definition read_accept_req m p := with_buf m p 8 (fun b =>
  {| ar_peer_port := read_le_u32 b; ar_flags := read_le_u32 (drop 4 b) |}).
Definition read_release_req m p := with_buf m p 8 (fun b =>
  {| rr_peer_port := read_le_u32 b; rr_local_port := read_le_u32 (drop 4 b) |}).

(** Store at an offset of the data buffer. *)
Definition write_buf (m : M) (p : VsockPacket) (n : Z) (off : Z) (bs : list byte) : M :=
  if n <=? p_buf_size p then
    match p_buf p with
    | Some a => default m (gm_write m (a + off) bs)
    | None => m
    end
  else m.

(** [write_connect_rsp], [write_listen_rsp], [write_accept_rsp] *)
Definition write_result (m : M) (p : VsockPacket) (result : Z) : M :=
  write_buf m p 4 0 (le_bytes 4 (wrap 32 result)).

Definition write_getname_rsp (m : M) (p : VsockPacket) (rsp : TsiGetnameRsp) : M :=
  let m := write_buf m p 10 0 (gr_addr rsp) in
  let m := write_buf m p 10 4 (rev (le_bytes 2 (gr_port rsp))) in
  write_buf m p 10 6 (le_bytes 4 (wrap 32 (gr_result rsp))).

Definition write_time_sync (m : M) (p : VsockPacket) (time : Z) : M :=
  write_buf m p 8 0 (le_bytes 8 time).
End memory.

(** ** Facts *)

Section facts.
Context {M : Type} {GM : GuestMemory M} {GML : GuestMemoryLaws M}.
Implicit Types (m : M) (p : VsockPacket).

(** Both windows of the packet lie in guest memory. *)
Definition mapped m p : Prop :=
  is_Some (gm_read m (p_hdr p) 44) /\
  match p_buf p with
  | Some a => 0 <= p_buf_size p /\ is_Some (gm_read m a (Z.to_nat (p_buf_size p)))
  | None => p_buf_size p = 0
  end.

Lemma get_host_address_Some m a size b :
  get_host_address m a size = Some b -> 0 <= size ->
  b = a /\ is_Some (gm_read m a (Z.to_nat size)).
Proof.
  unfold get_host_address. destruct (gm_find_region m a) as [[st rl]|] eqn:E; [|done].
  case_bool; [|done]. intros [= <-] Hs. zify_bool. split; [done|].
  eapply gm_region_read; [done|]. apply gm_find_region_spec in E. lia.
Qed.

Lemma field_in_header f : (hdroff f + fsize f <= 44)%nat.
Proof. destruct f; cbn; lia. Qed.

Lemma get_read m p f :
  mapped m p ->
  exists bs, gm_read m (p_hdr p + Z.of_nat (hdroff f)) (fsize f) = Some bs /\ get m p f = le_val bs.
Proof.
  intros [[h Hh] _]. pose proof (field_in_header f). apply gm_read_length in Hh as Hl.
  exists (slice h (hdroff f) (fsize f)). split; [by apply (gm_read_sub _ _ _ _ _ _ Hh)|].
  unfold get, hdr. change (Z.to_nat VSOCK_PKT_HDR_SIZE) with 44%nat. rewrite Hh. cbn [default].
  apply read_le_slice. lia.
Qed.

Lemma get_fits m p f : mapped m p -> fits (8 * Z.of_nat (fsize f)) (get m p f).
Proof.
  intros Hm. destruct (get_read m p f Hm) as (bs & Hr & ->).
  apply gm_read_bytes in Hr as Hb. apply gm_read_length in Hr as <-. by apply le_val_bound.
Qed.

Lemma set_write m p f v :
  mapped m p -> gm_write m (p_hdr p + Z.of_nat (hdroff f)) (le_bytes (fsize f) v) = Some (set m p f v).
Proof.
  intros Hm. destruct (get_read m p f Hm) as (bs & Hr & _).
  destruct (gm_write_total m (p_hdr p + Z.of_nat (hdroff f)) (le_bytes (fsize f) v) bs) as [m' Hw];
    [by rewrite length_le_bytes|apply le_bytes_ok|]. unfold set. by rewrite Hw.
Qed.

Lemma mapped_write m p a bs m' : mapped m p -> gm_write m a bs = Some m' -> mapped m' p.
Proof.
  intros [Hh Hb] Hw. split; [by apply (gm_write_domain _ _ _ _ _ _ Hw)|].
  destruct (p_buf p); [|done]. destruct Hb as [? Hb]. split; [done|].
  by apply (gm_write_domain _ _ _ _ _ _ Hw).
Qed.

Lemma mapped_set m p f v : mapped m p -> mapped (set m p f v) p.
Proof. intros Hm. eapply mapped_write; [done|by apply set_write]. Qed.

(** The layout: distinct fields occupy disjoint bytes. *)
Lemma fields_disjoint f g :
  f <> g -> (hdroff g + fsize g <= hdroff f \/ hdroff f + fsize f <= hdroff g)%nat.
Proof. destruct f, g; cbn; try done; lia. Qed.

Lemma get_set_same m p f v :
  mapped m p -> get (set m p f v) p f = wrap (8 * Z.of_nat (fsize f)) v.
Proof.
  intros Hm. destruct (get_read _ p f (mapped_set m p f v Hm)) as (bs & Hr & ->).
  pose proof (gm_write_read _ _ _ _ (set_write m p f v Hm) (le_bytes_ok _ _)) as Hw.
  rewrite length_le_bytes in Hw. rewrite Hr in Hw. injection Hw as ->. apply le_val_le_bytes.
Qed.

Lemma get_set_other m p f g v : mapped m p -> f <> g -> get (set m p f v) p g = get m p g.
Proof.
  intros Hm Hne. destruct (get_read _ p g (mapped_set m p f v Hm)) as (bs & Hr & ->).
  destruct (get_read m p g Hm) as (bs' & Hr' & ->).
  rewrite (gm_write_frame _ _ _ _ _ _ (set_write m p f v Hm)) in Hr; [congruence|].
  rewrite length_le_bytes. destruct (fields_disjoint f g Hne); lia.
Qed.

(** Header accessors: on a packet in guest memory, writing any header field
    changes exactly that field, to the value written (at its width), and leaves
    the packet in guest memory. *)
Theorem header_fields_independent m p f g v :
  mapped m p -> fits (8 * Z.of_nat (fsize f)) v ->
  mapped (set m p f v) p /\
  get (set m p f v) p g = if bool_decide (f = g) then v else get m p g.
Proof.
  intros Hm Hv. split; [by apply mapped_set|]. case_bool_decide as E.
  - subst. rewrite get_set_same by done. by apply wrap_small.
  - by apply get_set_other.
Qed.

Lemma host_address_mapped m a size b :
  get_host_address m a size = Some b -> 0 <= size -> is_Some (gm_read m b (Z.to_nat size)).
Proof. intros Hg Hs. by destruct (get_host_address_Some m a size b Hg Hs) as [-> ?]. Qed.

(** C38. A transmit packet built from a guest-controlled chain is safe: header
    and data lie in guest memory, the header's length is at most 64 KiB and at
    most the size of the data buffer, and there is a data buffer exactly when
    the length is not zero. *)
Theorem tx_packet_safe m dt qs i head p :
  VirtQueue.checked_new m dt qs i = Some head -> from_tx_virtq_head m head = Ok p ->
  mapped m p /\ 0 <= pkt_len m p <= MAX_PKT_BUF_SIZE /\ pkt_len m p <= p_buf_size p /\
  (pkt_len m p <> 0 <-> is_Some (p_buf p)) /\ is_write_only head = false.
Proof.
  intros Hc. unfold from_tx_virtq_head.
  destruct (is_write_only head) eqn:Hw; [done|]. destruct (_ <? _); [done|].
  destruct (get_host_address m (addr head) _) as [h|] eqn:Eh; [|done].
  apply host_address_mapped in Eh as Hh; [|done].
  assert (mapped m (mkPkt h None 0)) as Hm by done.
  pose proof (get_fits m _ LEN Hm) as Hf. fold (pkt_len m (mkPkt h None 0)) in Hf.
  destruct (pkt_len m (mkPkt h None 0) =? 0) eqn:E0.
  { intros [= <-]. zify_bool. rewrite E0. cbn. split_and!; try done. }
  destruct (MAX_PKT_BUF_SIZE <? _) eqn:Emax; [done|].
  destruct (next_descriptor m head) as [d|] eqn:En; [|done].
  destruct (is_write_only d); [done|]. destruct (len d <? _) eqn:El; [done|].
  destruct (get_host_address m (addr d) (len d)) as [b|] eqn:Eb; [|done]. intros [= <-].
  apply DescUtils.next_descriptor_len in En. zify_bool.
  change (pkt_len m (mkPkt h (Some b) (len d))) with (pkt_len m (mkPkt h None 0)).
  destruct Hf as [Hf _]. cbn [p_buf p_buf_size]. split_and!; try done; try lia.
  split; [done|]. cbn. split; [lia|]. by apply (host_address_mapped m (addr d)).
Qed.

Lemma rx_packet_mapped m dt qs i head p :
  VirtQueue.checked_new m dt qs i = Some head -> from_rx_virtq_head m head = Ok p ->
  mapped m p /\ is_Some (p_buf p) /\ is_write_only head = true.
Proof.
  intros Hc. unfold from_rx_virtq_head.
  destruct (is_write_only head) eqn:Hw; cbn [negb]; [|done]. destruct (len head <? _) eqn:El; [done|].
  destruct (get_host_address m (addr head) _) as [h|] eqn:Eh; [|done].
  apply host_address_mapped in Eh as Hh; [|done]. destruct (_ && _) eqn:E1; zify_bool.
  - destruct (checked_add _ _ _) as [ba|]; [|done].
    destruct (get_host_address m ba _) as [b|] eqn:Eb; [|done]. intros [= <-].
    apply host_address_mapped in Eb as Hb; [|lia]. cbn [p_buf]. split_and!; [|by eexists|done].
    split; [done|]. cbn. split; [lia|done].
  - destruct (next_descriptor m head) as [d|] eqn:En; [|done].
    destruct (get_host_address m (addr d) (len d)) as [b|] eqn:Eb; [|done]. intros [= <-].
    apply DescUtils.next_descriptor_len in En. apply host_address_mapped in Eb as Hb; [|lia].
    cbn [p_buf]. split_and!; [|by eexists|done]. split; [done|]. cbn. split; [lia|done].
Qed.

(** A receive packet built from a guest-controlled chain is safe: header
    and data buffer lie in guest memory, in one descriptor or in two, and the
    data buffer exists. *)
Theorem rx_packet_safe m dt qs i head p :
  VirtQueue.checked_new m dt qs i = Some head -> from_rx_virtq_head m head = Ok p ->
  mapped m p /\ is_Some (p_buf p) /\ is_write_only head = true.
Proof. apply rx_packet_mapped. Qed.

Lemma with_buf_total {A} m p n (f : list byte -> A) :
  mapped m p -> 0 < n ->
  exists r, with_buf m p n f = Ret r /\ (is_Some r <-> n <= p_buf_size p).
Proof.
  intros [_ Hb] Hn. unfold with_buf. destruct (n <=? p_buf_size p) eqn:E; zify_bool.
  - unfold buf. destruct (p_buf p) as [a|]; [|lia]. cbn [fmap option_fmap option_map unwrap].
    eexists. split; [done|]. split; [done|eauto].
  - exists None. split; [done|]. split; [by intros [? ?]|lia].
Qed.

(** Parsing a control request never panics: on any packet in guest memory
    each request reader returns, and yields a request exactly when the data
    buffer is large enough for it. *)
Theorem request_readers_total m p :
  mapped m p ->
  (exists r, read_proxy_create m p = Ret r /\ (is_Some r <-> 6 <= p_buf_size p)) /\
  (exists r, read_connect_req m p = Ret r /\ (is_Some r <-> 10 <= p_buf_size p)) /\
  (exists r, read_getname_req m p = Ret r /\ (is_Some r <-> 12 <= p_buf_size p)) /\
  (exists r, read_sendto_addr m p = Ret r /\ (is_Some r <-> 10 <= p_buf_size p)) /\
  (exists r, read_listen_req m p = Ret r /\ (is_Some r <-> 18 <= p_buf_size p)) /\
  (exists r, read_accept_req m p = Ret r /\ (is_Some r <-> 8 <= p_buf_size p)) /\
  (exists r, read_release_req m p = Ret r /\ (is_Some r <-> 8 <= p_buf_size p)).
Proof. intros Hm. split_and!; by apply with_buf_total. Qed.

(** *** Stores in the data buffer *)

(** The data window does not overlap the header. *)
Definition separate p : Prop :=
  match p_buf p with
  | Some a => a + p_buf_size p <= p_hdr p \/ p_hdr p + 44 <= a
  | None => True
  end.

Lemma write_buf_ok m p n off bs :
  mapped m p -> separate p -> 0 <= off -> off + Zlength bs <= n -> bytes_ok bs ->
  mapped (write_buf m p n off bs) p /\
  (forall f, get (write_buf m p n off bs) p f = get m p f) /\
  (forall a, p_buf p = Some a -> n <= p_buf_size p ->
     gm_read (write_buf m p n off bs) (a + off) (length bs) = Some bs).
Proof.
  intros Hm Hs Ho Hn Hb. unfold write_buf. destruct (n <=? p_buf_size p) eqn:E; zify_bool.
  2: { split_and!; try done. intros. lia. }
  unfold separate in Hs. destruct (p_buf p) as [a|] eqn:Ea; [|by split_and!].
  pose proof Hm as [_ Hbuf]. rewrite Ea in Hbuf. destruct Hbuf as [_ [old Hold]].
  destruct (gm_write_total m (a + off) bs (slice old (Z.to_nat off) (length bs))) as [m' Hw]; [|done|].
  { rewrite <- (Z2Nat.id off) at 1 by done. apply (gm_read_sub _ _ _ _ _ _ Hold). lia. }
  rewrite Hw. change (default m (Some m')) with m'. assert (mapped m' p) as Hm' by by eapply mapped_write.
  split_and!; [done| |].
  - intros f. destruct (get_read m' p f Hm') as (b1 & Hr1 & ->).
    destruct (get_read m p f Hm) as (b2 & Hr2 & ->). pose proof (field_in_header f).
    rewrite (gm_write_frame _ _ _ _ _ _ Hw) in Hr1; [congruence|]. lia.
  - intros a' [= <-] _. by eapply gm_write_read.
Qed.
End facts.

(** ** Witnesses: a header descriptor and a data descriptor *)

Definition demo_table : list byte :=
  le_bytes 8 0x40 ++ le_bytes 4 44 ++ le_bytes 2 1 ++ le_bytes 2 1 ++
  le_bytes 8 0x70 ++ le_bytes 4 16 ++ le_bytes 2 0 ++ le_bytes 2 0.

Definition demo_hdr : list byte :=
  le_bytes 8 3 ++ le_bytes 8 2 ++ le_bytes 4 1000 ++ le_bytes 4 620 ++ le_bytes 4 10 ++
  le_bytes 2 1 ++ le_bytes 2 5 ++ replicate 12 0.

Definition demo_mem : FlatMem :=
  mkFlat 0 (demo_table ++ replicate 32 0 ++ demo_hdr ++ replicate 4 0 ++ replicate 16 7).

Definition demo_head : DescriptorChain := VirtQueue.mkChain 0 2 2 0 0x40 44 1 1.
Definition demo_pkt : VsockPacket := mkPkt 0x40 (Some 0x70) 16.

Lemma mapped_demo : mapped demo_mem demo_pkt.
Proof. split; [eexists; reflexivity|split; [done|eexists; reflexivity]]. Qed.

Lemma header_fields_independent_witness :
  get (set demo_mem demo_pkt DST_PORT 77) demo_pkt DST_PORT = 77 /\
  get (set demo_mem demo_pkt DST_PORT 77) demo_pkt SRC_PORT = 1000.
Proof.
  split.
  - apply (header_fields_independent demo_mem demo_pkt DST_PORT DST_PORT 77 mapped_demo).
    split; vm_compute; congruence.
  - apply (header_fields_independent demo_mem demo_pkt DST_PORT SRC_PORT 77 mapped_demo).
    split; vm_compute; congruence.
Defined.

Lemma tx_packet_safe_witness :
  VirtQueue.checked_new demo_mem 0 2 0 = Some demo_head /\
  from_tx_virtq_head demo_mem demo_head = Ok demo_pkt /\ pkt_len demo_mem demo_pkt <= 16.
Proof.
  split; [reflexivity|split; [reflexivity|]].
  apply (tx_packet_safe demo_mem 0 2 0 demo_head demo_pkt); reflexivity.
Defined.

(** The receive side: the header descriptor is writable, the data one is not. *)
Definition demo_rx_mem : FlatMem :=
  mkFlat 0 (le_bytes 8 0x40 ++ le_bytes 4 44 ++ le_bytes 2 3 ++ le_bytes 2 1 ++
    drop 16 demo_table ++ replicate 32 0 ++ demo_hdr ++ replicate 4 0 ++ replicate 16 7).
Definition demo_rx_head : DescriptorChain := VirtQueue.mkChain 0 2 2 0 0x40 44 3 1.

Lemma rx_packet_safe_witness :
  from_rx_virtq_head demo_rx_mem demo_rx_head = Ok demo_pkt /\ mapped demo_rx_mem demo_pkt.
Proof.
  split; [reflexivity|].
  apply (rx_packet_safe demo_rx_mem 0 2 0 demo_rx_head demo_pkt); reflexivity.
Defined.

(** The receive constructor does not check that the data descriptor is
    writable: a chain whose second descriptor is read-only is accepted. *)
Lemma rx_accepts_read_only_data :
  from_rx_virtq_head demo_rx_mem demo_rx_head = Ok demo_pkt /\
  exists d, next_descriptor demo_rx_mem demo_rx_head = Some d /\ is_write_only d = false /\
    p_buf demo_pkt = Some (addr d).
Proof. split; [reflexivity|]. eexists. split; [reflexivity|split; reflexivity]. Qed.

Lemma request_readers_total_witness :
  exists r, read_connect_req demo_mem demo_pkt = Ret r /\ (is_Some r <-> 10 <= 16).
Proof. apply (request_readers_total demo_mem demo_pkt mapped_demo). Defined.
End VsockPacket.
