(* ===== verification/VsockRxq.v ===== *)
(** * Host-to-guest packets of the vsock muxer
    ([devices/src/virtio/vsock/muxer_rxq.rs], [push_packet] and [MuxerRx] of
    [muxer.rs])

    [MuxerRx] describes a packet to build for the guest.  [push_packet] writes
    it into the next receive buffer of the guest, or keeps it in the bounded
    queue [MuxerRxQ] when the guest has offered none.  The receive virtqueue,
    the guest memory and the queue, shared under locks in the source, are the
    fields of [Env]. *)

From S2P Require Import Prelude ByteOrder GuestMem VirtQueue VsockPacket.
Import ByteOrder VsockPacket.
Import VirtQueue (Queue, pop, add_used).

Module VsockRxq.

Definition MUXER_RXQ_SIZE : nat := 256.
Definition CONN_TX_BUF_SIZE : Z := 8 * 1024 * 1024.
Definition VSOCK_OP_REQUEST : Z := 1.
Definition VSOCK_OP_RESPONSE : Z := 2.
Definition VSOCK_OP_RST : Z := 3.
Definition VSOCK_OP_SHUTDOWN : Z := 4.
Definition VSOCK_OP_RW : Z := 5.
Definition VSOCK_OP_CREDIT_UPDATE : Z := 6.
Definition VSOCK_OP_CREDIT_REQUEST : Z := 7.
Definition VSOCK_TYPE_STREAM : Z := 1.
Definition VSOCK_TYPE_DGRAM : Z := 3.
Definition VSOCK_HOST_CID : Z := 2.

Inductive MuxerRx :=
| Reset (local_port peer_port : Z)
| GetnameResponse (local_port peer_port : Z) (data : TsiGetnameRsp)
| ConnResponse (local_port peer_port result : Z)
| OpRequest (local_port peer_port : Z)
| OpResponse (local_port peer_port : Z)
| CreditRequest (local_port peer_port fwd_cnt : Z)
| CreditUpdate (local_port peer_port fwd_cnt : Z)
| ListenResponse (local_port peer_port result : Z)
| AcceptResponse (local_port peer_port result : Z).

(** *** The queue *)

Record MuxerRxQ := mkRxq { q : list MuxerRx; synced : bool }.

Definition rxq_new : MuxerRxQ := mkRxq [] true.
Definition is_synced (r : MuxerRxQ) : bool := synced r.
Definition rxq_len (r : MuxerRxQ) : nat := length (q r).
Definition rxq_is_empty (r : MuxerRxQ) : bool := (rxq_len r =? 0)%nat.
Definition is_full (r : MuxerRxQ) : bool := (rxq_len r =? MUXER_RXQ_SIZE)%nat.

Definition rxq_push (r : MuxerRxQ) (rx : MuxerRx) : bool * MuxerRxQ :=
  if is_synced r && negb (is_full r) then (true, mkRxq (q r ++ [rx]) (synced r)) else (false, r).

Definition rxq_pop (r : MuxerRxQ) : option MuxerRx * MuxerRxQ :=
  match q r with
  | [] => (None, r)
  | x :: l => (Some x, mkRxq l (synced r))
  end.

Section memory.
Context {M : Type} `{GuestMemory M}.

(** A chain of setters. *)
Definition set_all (m : M) (p : VsockPacket) (l : list (field * Z)) : M :=
  foldl (fun m '(f, v) => set m p f v) m l.

Definition rx_to_pkt (cid : Z) (rx : MuxerRx) (m : M) (p : VsockPacket) : outcome M :=
  let head op lp pp ty := [(OP, op); (SRC_CID, VSOCK_HOST_CID); (DST_CID, cid);
                           (SRC_PORT, lp); (DST_PORT, pp)] ++ ty in
  (** [pkt.set_len(pkt.buf().unwrap().len() as u32)] *)
  let set_len_buf m := _ ← unwrap (buf m p); Ret (set m p LEN (wrap 32 (p_buf_size p))) in
  match rx with
  | Reset lp pp =>
      Ret (set_all m p (head VSOCK_OP_RST lp pp
        [(LEN, 0); (TYPE, VSOCK_TYPE_STREAM); (FLAGS, 0); (BUF_ALLOC, 0); (FWD_CNT, 0)]))
  | ConnResponse lp pp r =>
      let m := set_all m p (head VSOCK_OP_RW lp pp [(TYPE, VSOCK_TYPE_DGRAM)]) in
      set_len_buf (write_result m p r)
  | OpRequest lp pp =>
      let m := set_all m p (head VSOCK_OP_REQUEST lp pp
                 [(TYPE, VSOCK_TYPE_STREAM); (BUF_ALLOC, CONN_TX_BUF_SIZE)]) in
      Ret (set m p LEN 0)
  | OpResponse lp pp =>
      let m := set_all m p (head VSOCK_OP_RESPONSE lp pp
                 [(TYPE, VSOCK_TYPE_STREAM); (BUF_ALLOC, CONN_TX_BUF_SIZE)]) in
      Ret (set m p LEN 0)
  | GetnameResponse lp pp d =>
      let m := set_all m p (head VSOCK_OP_RW lp pp [(TYPE, VSOCK_TYPE_DGRAM)]) in
      set_len_buf (write_getname_rsp m p d)
  | CreditRequest lp pp c =>
      Ret (set_all m p (head VSOCK_OP_CREDIT_REQUEST lp pp
        [(TYPE, VSOCK_TYPE_STREAM); (BUF_ALLOC, CONN_TX_BUF_SIZE); (FWD_CNT, c)]))
  | CreditUpdate lp pp c =>
      Ret (set_all m p (head VSOCK_OP_CREDIT_UPDATE lp pp
        [(TYPE, VSOCK_TYPE_STREAM); (BUF_ALLOC, CONN_TX_BUF_SIZE); (FWD_CNT, c)]))
  | ListenResponse lp pp r =>
      let m := set_all m p (head VSOCK_OP_RW lp pp [(TYPE, VSOCK_TYPE_DGRAM)]) in
      set_len_buf (write_result m p r)
  | AcceptResponse lp pp r =>
      let m := set_all m p (head VSOCK_OP_RW lp pp [(TYPE, VSOCK_TYPE_DGRAM)]) in
      set_len_buf (write_result m p r)
  end.

Record Env := mkEnv { e_mem : M; e_queue : Queue; e_rxq : MuxerRxQ }.

Definition push_packet (cid : Z) (rx : MuxerRx) (e : Env) : outcome Env :=
  '(head, vq) ← pop (e_mem e) (e_queue e);
  match head with
  | Some head =>
      match from_rx_virtq_head (e_mem e) head with
      | Ok p =>
          m ← rx_to_pkt cid rx (e_mem e) p;
          let '(_, vq, m) := add_used m vq (VirtQueue.index head) (44 +[32] pkt_len m p) in
          Ret (mkEnv m vq (e_rxq e))
      | Err _ => Ret (mkEnv (e_mem e) vq (e_rxq e))
      end
  | None => Ret (mkEnv (e_mem e) vq (snd (rxq_push (e_rxq e) rx)))
  end.

(** [VsockMuxer::recv_pkt]: the next queued packet goes into [pkt]. *)
Definition muxer_recv_pkt (cid : Z) (e : Env) (p : VsockPacket) : outcome (result VsockError unit * Env) :=
  if rxq_is_empty (e_rxq e) then Ret (Err NoData, e)
  else
    let '(rx, r) := rxq_pop (e_rxq e) in
    match rx with
    | Some rx => m ← rx_to_pkt cid rx (e_mem e) p; Ret (Ok tt, mkEnv m (e_queue e) r)
    | None => Ret (Ok tt, mkEnv (e_mem e) (e_queue e) r)
    end.
End memory.

(** ** The queue is a bounded FIFO *)

Inductive rxq_op := Push (rx : MuxerRx) | Pop.

(** Runs operations, recording what was accepted and what was delivered. *)
Definition rxq_run (s : MuxerRxQ * list MuxerRx * list MuxerRx) (o : rxq_op)
    : MuxerRxQ * list MuxerRx * list MuxerRx :=
  let '(r, accepted, delivered) := s in
  match o with
  | Push rx => let '(ok, r) := rxq_push r rx in
               (r, if ok then accepted ++ [rx] else accepted, delivered)
  | Pop => let '(x, r) := rxq_pop r in
           (r, accepted, match x with Some rx => delivered ++ [rx] | None => delivered end)
  end.

(** For every sequence of pushes and pops the packets delivered are, in
    order, the packets accepted, the ones not yet delivered are in the queue,
    and the queue never exceeds its 256 entries. *)
Theorem rxq_bounded_fifo ops r accepted delivered :
  foldl rxq_run (rxq_new, [], []) ops = (r, accepted, delivered) ->
  accepted = delivered ++ q r /\ (rxq_len r <= MUXER_RXQ_SIZE)%nat /\ synced r = true.
Proof.
  assert (forall r0 a0 d0, a0 = d0 ++ q r0 -> (rxq_len r0 <= MUXER_RXQ_SIZE)%nat -> synced r0 = true ->
    foldl rxq_run (r0, a0, d0) ops = (r, accepted, delivered) ->
    accepted = delivered ++ q r /\ (rxq_len r <= MUXER_RXQ_SIZE)%nat /\ synced r = true) as Hg.
  { induction ops as [|o ops IH]; intros r0 a0 d0 Ha Hl Hs; [by intros [= <- <- <-]|].
    cbn [foldl]. destruct o as [rx|].
    - unfold rxq_run at 2, rxq_push, is_synced, is_full. rewrite Hs. cbn [andb].
      destruct (Nat.eqb_spec (rxq_len r0) MUXER_RXQ_SIZE); cbn [negb]; apply IH; try done.
      + cbn [q]. by rewrite Ha, app_assoc.
      + unfold rxq_len in *. cbn [q]. rewrite length_app. cbn. lia.
    - unfold rxq_run at 2, rxq_pop. destruct (q r0) as [|x l] eqn:Eq; apply IH; try done.
      + by rewrite Ha, Eq.
      + cbn [q]. by rewrite Ha, <- app_assoc.
      + unfold rxq_len in *. rewrite Eq in Hl. cbn in *. lia. }
  apply Hg; [done|cbn; lia|done].
Qed.

(** A reset has no precedence: it is dropped by a full queue whatever the
    queue holds. *)
Lemma full_queue_drops_reset r lp pp :
  is_full r = true -> rxq_push r (Reset lp pp) = (false, r).
Proof. intros Hf. unfold rxq_push. by rewrite Hf, andb_false_r. Qed.

(** ** What the guest sees of a packet *)

Definition rx_ports (rx : MuxerRx) : Z * Z :=
  match rx with
  | Reset l p | GetnameResponse l p _ | ConnResponse l p _ | OpRequest l p | OpResponse l p
  | CreditRequest l p _ | CreditUpdate l p _ | ListenResponse l p _ | AcceptResponse l p _ => (l, p)
  end.

Definition rx_op (rx : MuxerRx) : Z :=
  match rx with
  | Reset _ _ => VSOCK_OP_RST
  | OpRequest _ _ => VSOCK_OP_REQUEST
  | OpResponse _ _ => VSOCK_OP_RESPONSE
  | CreditRequest _ _ _ => VSOCK_OP_CREDIT_REQUEST
  | CreditUpdate _ _ _ => VSOCK_OP_CREDIT_UPDATE
  | _ => VSOCK_OP_RW
  end.

(** Control-port answers travel as datagrams, the rest on the stream. *)
Definition rx_type (rx : MuxerRx) : Z :=
  match rx with
  | GetnameResponse _ _ _ | ConnResponse _ _ _ | ListenResponse _ _ _ | AcceptResponse _ _ _ =>
      VSOCK_TYPE_DGRAM
  | _ => VSOCK_TYPE_STREAM
  end.

(** The result code of an answer. *)
Definition rx_result (rx : MuxerRx) : option Z :=
  match rx with
  | ConnResponse _ _ r | ListenResponse _ _ r | AcceptResponse _ _ r => Some r
  | _ => None
  end.

Section facts.
Context {M : Type} {GM : GuestMemory M} {GML : GuestMemoryLaws M}.
Implicit Types (m : M) (p : VsockPacket).

(** The last value a chain of setters gives to a field. *)
Fixpoint assigned (l : list (field * Z)) (f : field) : option Z :=
  match l with
  | [] => None
  | (g, v) :: l =>
      match assigned l f with
      | Some x => Some x
      | None => if bool_decide (g = f) then Some v else None
      end
  end.

Definition values_fit (l : list (field * Z)) : Prop :=
  Forall (fun '(f, v) => fits (8 * Z.of_nat (fsize f)) v) l.

Lemma set_all_get m p l f :
  mapped m p -> values_fit l ->
  mapped (set_all m p l) p /\
  get (set_all m p l) p f = match assigned l f with Some v => v | None => get m p f end.
Proof.
  intros Hm Hl. revert m Hm. induction Hl as [|[g v] l Hv Hl IH]; intros m Hm; [done|].
  destruct (IH (set m p g v) (mapped_set m p g v Hm)) as [Hm' Hg]. split; [done|].
  cbn [set_all foldl] in *. unfold set_all in Hg. rewrite Hg. cbn [assigned].
  destruct (assigned l f); [done|]. case_bool_decide as E.
  - subst. rewrite get_set_same by done. by apply wrap_small.
  - by apply get_set_other.
Qed.

(** Ports, counters and identifiers of a packet description fit their fields. *)
Definition rx_fits (cid : Z) (rx : MuxerRx) : Prop :=
  fits 64 cid /\ fits 32 (rx_ports rx).1 /\ fits 32 (rx_ports rx).2 /\
  match rx with
  | CreditRequest _ _ c | CreditUpdate _ _ c => fits 32 c
  | GetnameResponse _ _ d => bytes_ok (gr_addr d) /\ length (gr_addr d) = 4%nat
  | _ => True
  end.

Definition addressed m p (cid : Z) (rx : MuxerRx) : Prop :=
  get m p SRC_CID = VSOCK_HOST_CID /\ get m p DST_CID = cid /\
  get m p SRC_PORT = (rx_ports rx).1 /\ get m p DST_PORT = (rx_ports rx).2 /\
  get m p OP = rx_op rx /\ get m p TYPE = rx_type rx.

Lemma addressed_same m m' p cid rx :
  addressed m p cid rx -> (forall f, f <> LEN -> get m' p f = get m p f) -> addressed m' p cid rx.
Proof. unfold addressed. intros Ha Hs. rewrite !Hs by done. done. Qed.

Lemma addressed_set_len m p cid rx v :
  mapped m p -> addressed m p cid rx -> addressed (set m p LEN v) p cid rx.
Proof. intros Hm Ha. eapply addressed_same; [done|]. intros f Hf. by apply get_set_other. Qed.


Lemma set_keeps_buf m p f v a off n :
  mapped m p -> separate p -> p_buf p = Some a -> 0 <= off -> off + Z.of_nat n <= p_buf_size p ->
  gm_read (set m p f v) (a + off) n = gm_read m (a + off) n.
Proof.
  intros Hm Hs Ha Ho Hn. eapply gm_write_frame; [by apply set_write|]. rewrite length_le_bytes.
  pose proof (field_in_header f). unfold separate in Hs. rewrite Ha in Hs. lia.
Qed.

Lemma set_all_keeps_buf m p l a n :
  mapped m p -> separate p -> p_buf p = Some a -> Z.of_nat n <= p_buf_size p -> values_fit l ->
  gm_read (set_all m p l) a n = gm_read m a n.
Proof.
  intros Hm Hs Ha Hn Hl. revert m Hm. induction Hl as [|[f v] l Hv Hl IH]; intros m Hm; [done|].
  unfold set_all in *. cbn [foldl]. rewrite IH by by apply mapped_set. rewrite <- (Z.add_0_r a).
  by apply set_keeps_buf.
Qed.

(** A data packet: payload into the buffer, a chain of setters, the length. *)
Lemma packet_filled m p a bs l :
  mapped m p -> separate p -> p_buf p = Some a -> Zlength bs <= p_buf_size p -> bytes_ok bs ->
  values_fit l -> fits 32 (Zlength bs) ->
  let m1 := set (set_all (default m (gm_write m a bs)) p l) p LEN (Zlength bs) in
  mapped m1 p /\ gm_read m1 a (length bs) = Some bs /\ get m1 p LEN = Zlength bs /\
  (forall f v, assigned l f = Some v -> f <> LEN -> get m1 p f = v).
Proof.
  intros Hm Hs Ha Hlen Hb Hl Hn.
  assert (default m (gm_write m a bs) = write_buf m p (p_buf_size p) 0 bs) as ->.
  { unfold write_buf. by rewrite Z.leb_refl, Ha, Z.add_0_r. }
  destruct (write_buf_ok m p (p_buf_size p) 0 bs) as (Hm0 & _ & Hr); [done..|].
  specialize (Hr a Ha ltac:(lia)). rewrite Z.add_0_r in Hr.
  set (m0 := write_buf m p _ 0 bs) in *. destruct (set_all_get m0 p l LEN Hm0 Hl) as [Hm1 _].
  intros m1. split_and!.
  - by apply mapped_set.
  - unfold m1. rewrite <- (Z.add_0_r a). rewrite set_keeps_buf by (done || lia).
    rewrite Z.add_0_r. by rewrite set_all_keeps_buf by (done || lia).
  - unfold m1. rewrite get_set_same by done. by apply wrap_small.
  - intros f v Hf Hne. unfold m1. rewrite get_set_other by done.
    destruct (set_all_get m0 p l f Hm0 Hl) as [_ ->]. by rewrite Hf.
Qed.

Ltac solve_values_fit :=
  repeat (apply Forall_cons; split); [..|apply Forall_nil; exact I];
  first [assumption | split; vm_compute; congruence].

(** The fields a setter chain leaves, one by one. *)
Ltac solve_addressed m p Hm Hfit :=
  unfold addressed; split_and!;
  (etransitivity; [apply (set_all_get m p _ _ Hm Hfit)|reflexivity]).

(** Answers: the result is stored, then the length is the whole buffer. *)
Lemma answer_written m p cid rx r :
  mapped m p -> separate p -> is_Some (p_buf p) -> fits 32 (p_buf_size p) ->
  addressed m p cid rx ->
  exists m', (_ ← unwrap (buf (write_result m p r) p);
              Ret (set (write_result m p r) p LEN (wrap 32 (p_buf_size p)))) = Ret m' /\
    mapped m' p /\ addressed m' p cid rx /\ get m' p LEN = p_buf_size p /\
    (4 <= p_buf_size p -> forall a, p_buf p = Some a -> gm_read m' a 4 = Some (le_bytes 4 (wrap 32 r))).
Proof.
  intros Hm Hs [a Ha] Hsz Hadr.
  destruct (write_buf_ok m p 4 0 (le_bytes 4 (wrap 32 r)) Hm Hs) as (Hm1 & Hg1 & Hr1);
    [lia|rewrite length_le_bytes; lia|apply le_bytes_ok|]. fold (write_result m p r) in Hm1, Hg1, Hr1.
  unfold buf. rewrite Ha. cbn [fmap option_fmap option_map unwrap mbind outcome_bind].
  eexists. split; [done|]. split_and!.
  - by apply mapped_set.
  - apply addressed_set_len; [done|]. eapply addressed_same; [done|auto].
  - rewrite get_set_same by done. rewrite wrap_wrap. by apply wrap_small.
  - intros H4 a' [= <-]. specialize (Hr1 a Ha H4). rewrite Z.add_0_r, length_le_bytes in Hr1.
    rewrite <- Hr1, <- (Z.add_0_r a). apply set_keeps_buf; (done || lia).
Qed.

Lemma getname_written m p cid rx d :
  mapped m p -> separate p -> is_Some (p_buf p) -> fits 32 (p_buf_size p) ->
  addressed m p cid rx -> bytes_ok (gr_addr d) -> length (gr_addr d) = 4%nat ->
  exists m', (_ ← unwrap (buf (write_getname_rsp m p d) p);
              Ret (set (write_getname_rsp m p d) p LEN (wrap 32 (p_buf_size p)))) = Ret m' /\
    mapped m' p /\ addressed m' p cid rx /\ get m' p LEN = p_buf_size p.
Proof.
  intros Hm Hs [a Ha] Hsz Hadr Hb Hl. unfold write_getname_rsp. set (m1 := write_buf m p 10 0 _).
  destruct (write_buf_ok m p 10 0 (gr_addr d) Hm Hs) as (Hm1 & Hg1 & _); [lia|lia|done|]. fold m1 in Hm1, Hg1.
  set (m2 := write_buf m1 p 10 4 _).
  destruct (write_buf_ok m1 p 10 4 (rev (le_bytes 2 (gr_port d))) Hm1 Hs) as (Hm2 & Hg2 & _);
    [lia|rewrite length_rev, length_le_bytes; lia|apply Forall_rev, le_bytes_ok|]. fold m2 in Hm2, Hg2.
  set (m3 := write_buf m2 p 10 6 _).
  destruct (write_buf_ok m2 p 10 6 (le_bytes 4 (wrap 32 (gr_result d))) Hm2 Hs) as (Hm3 & Hg3 & _);
    [lia|rewrite length_le_bytes; lia|apply le_bytes_ok|]. fold m3 in Hm3, Hg3.
  unfold buf. rewrite Ha. cbn [fmap option_fmap option_map unwrap mbind outcome_bind].
  eexists. split; [done|]. split_and!.
  - by apply mapped_set.
  - apply addressed_set_len; [done|]. eapply addressed_same; [done|].
    intros f _. by rewrite Hg3, Hg2, Hg1.
  - rewrite get_set_same by done. rewrite wrap_wrap. by apply wrap_small.
Qed.

Lemma rx_to_pkt_total cid rx m p :
  mapped m p -> separate p -> is_Some (p_buf p) -> fits 32 (p_buf_size p) -> rx_fits cid rx ->
  exists m', rx_to_pkt cid rx m p = Ret m' /\ mapped m' p /\ addressed m' p cid rx /\
    (rx_type rx = VSOCK_TYPE_DGRAM -> get m' p LEN = p_buf_size p) /\
    (forall r a, rx_result rx = Some r -> p_buf p = Some a -> 4 <= p_buf_size p ->
       gm_read m' a 4 = Some (le_bytes 4 (wrap 32 r))).
Proof.
  intros Hm Hs Hbuf Hsz (Hcid & Hlp & Hpp & Hx). unfold rx_to_pkt.
  destruct rx as [lp pp|lp pp d|lp pp r|lp pp|lp pp|lp pp c|lp pp c|lp pp r|lp pp r];
    cbn [rx_ports fst snd] in Hlp, Hpp; cbn [app];
    lazymatch goal with |- context [set_all m p ?l] =>
      assert (values_fit l) as Hfit by solve_values_fit;
      pose proof (proj1 (set_all_get m p l LEN Hm Hfit)) as Hm1;
      lazymatch goal with |- context [rx_type ?rx = _] =>
        assert (addressed (set_all m p l) p cid rx) as Hadr by solve_addressed m p Hm Hfit end end.
  - eexists. split; [done|]. by split_and!.
  - destruct Hx as [Hb Hl].
    destruct (getname_written _ p _ _ d Hm1 Hs Hbuf Hsz Hadr Hb Hl) as (m' & -> & ? & ? & ?).
    exists m'. by split_and!.
  - destruct (answer_written _ p _ _ r Hm1 Hs Hbuf Hsz Hadr) as (m' & -> & ? & ? & ? & ?).
    exists m'. split_and!; auto. intros ? ? [= <-]. auto.
  - eexists. split; [done|]. split_and!; [by apply mapped_set|by apply addressed_set_len|done|done].
  - eexists. split; [done|]. split_and!; [by apply mapped_set|by apply addressed_set_len|done|done].
  - eexists. split; [done|]. by split_and!.
  - eexists. split; [done|]. by split_and!.
  - destruct (answer_written _ p _ _ r Hm1 Hs Hbuf Hsz Hadr) as (m' & -> & ? & ? & ? & ?).
    exists m'. split_and!; auto. intros ? ? [= <-]. auto.
  - destruct (answer_written _ p _ _ r Hm1 Hs Hbuf Hsz Hadr) as (m' & -> & ? & ? & ? & ?).
    exists m'. split_and!; auto. intros ? ? [= <-]. auto.
Qed.

(** Building a packet for the guest: for every kind of packet the header in
    guest memory carries the host's and the guest's context ids, the ports, the
    operation and the socket type the kind prescribes; an answer also carries
    its result code in the data buffer and the buffer's size as length; and
    nothing panics. *)
Theorem rx_to_pkt_correct cid rx m p :
  mapped m p -> separate p -> is_Some (p_buf p) -> fits 32 (p_buf_size p) -> rx_fits cid rx ->
  exists m', rx_to_pkt cid rx m p = Ret m' /\ mapped m' p /\ addressed m' p cid rx /\
    (rx_type rx = VSOCK_TYPE_DGRAM -> get m' p LEN = p_buf_size p) /\
    (forall r a, rx_result rx = Some r -> p_buf p = Some a -> 4 <= p_buf_size p ->
       gm_read m' a 4 = Some (le_bytes 4 (wrap 32 r))).
Proof. apply rx_to_pkt_total. Qed.

(** Credit packets do not set the length field: whatever the guest left in its
    buffer is used as the packet's length. *)
Lemma credit_packet_keeps_stale_length cid lp pp c m p :
  mapped m p -> rx_fits cid (CreditUpdate lp pp c) ->
  exists m', rx_to_pkt cid (CreditUpdate lp pp c) m p = Ret m' /\ get m' p LEN = get m p LEN.
Proof.
  intros Hm (Hcid & Hlp & Hpp & Hx). cbn [rx_ports fst snd] in Hlp, Hpp. eexists.
  split; [reflexivity|]. etransitivity; [apply set_all_get; [done|]|reflexivity]. solve_values_fit.
Qed.

(** Delivery: pushing a packet never panics on a valid receive ring.  With
    no buffer offered by the guest the packet waits in the queue (unless that is
    full); otherwise it is written, correctly addressed, into the offered buffer
    before the buffer is published in the used ring with the header size plus
    the packet length.  A malformed chain consumes the buffer and drops the
    packet. *)
Theorem push_packet_delivers cid rx (e : Env) :
  VirtQueue.avail_ok (e_mem e) (e_queue e) -> rx_fits cid rx ->
  (forall head vq p, pop (e_mem e) (e_queue e) = Ret (Some head, vq) ->
     from_rx_virtq_head (e_mem e) head = Ok p -> separate p /\ fits 32 (p_buf_size p)) ->
  exists h vq e', pop (e_mem e) (e_queue e) = Ret (h, vq) /\ push_packet cid rx e = Ret e' /\
  match h with
  | None => e' = mkEnv (e_mem e) (e_queue e) (snd (rxq_push (e_rxq e) rx))
  | Some head =>
      match from_rx_virtq_head (e_mem e) head with
      | Ok p => exists m1, addressed m1 p cid rx /\ mapped m1 p /\
          let '(_, vq', m') := add_used m1 vq (VirtQueue.index head) (44 +[32] pkt_len m1 p) in
          e' = mkEnv m' vq' (e_rxq e)
      | Err _ => e' = mkEnv (e_mem e) vq (e_rxq e)
      end
  end.
Proof.
  intros Hav Hfit Hsep. unfold push_packet.
  destruct (VirtQueue.pop_cases _ _ Hav) as (avail & hd & Ha & Hs & Hempty & Hnext).
  destruct (Z.eq_dec avail (VirtQueue.next_avail (e_queue e))) as [E|E].
  { rewrite (Hempty E). cbn [mbind outcome_bind]. by do 3 eexists. }
  specialize (Hnext E).
  destruct (VirtQueue.checked_new _ _ _ hd) as [head|] eqn:Ec.
  2: { rewrite Hnext. cbn [mbind outcome_bind]. by do 3 eexists. }
  destruct Hnext as (Hpop & _ & _). rewrite Hpop. cbn [mbind outcome_bind].
  destruct (from_rx_virtq_head (e_mem e) head) as [p|err] eqn:Er; 
    [|do 3 eexists; split; [done|]; split; [done|]; by rewrite Er].
  destruct (rx_packet_mapped _ _ _ _ _ _ Ec Er) as (Hm & Hb & _).
  destruct (Hsep _ _ _ Hpop Er) as [Hsp Hsz].
  destruct (rx_to_pkt_total cid rx (e_mem e) p Hm Hsp Hb Hsz Hfit) as (m1 & Hrx & Hm1 & Hadr & _).
  rewrite Hrx. cbn [mbind outcome_bind].
  destruct (add_used m1 _ _ _) as [[r vq'] m'] eqn:Eu. do 3 eexists.
  split; [done|]. split; [done|]. rewrite Er. exists m1. by rewrite Eu.
Qed.
End facts.

(** ** Witnesses *)

Lemma rxq_bounded_fifo_witness :
  exists r, foldl rxq_run (rxq_new, [], []) [Push (Reset 1 2); Push (OpRequest 3 4); Pop] =
    (r, [Reset 1 2; OpRequest 3 4], [Reset 1 2]) /\ [Reset 1 2; OpRequest 3 4] = [Reset 1 2] ++ q r.
Proof.
  exists (mkRxq [OpRequest 3 4] true). split; [reflexivity|].
  apply (rxq_bounded_fifo [Push (Reset 1 2); Push (OpRequest 3 4); Pop] _ _ _ eq_refl).
Defined.

Lemma rx_to_pkt_correct_witness :
  exists m', rx_to_pkt 3 (ConnResponse 1025 500 0) demo_mem demo_pkt = Ret m' /\
    get m' demo_pkt DST_PORT = 500 /\ get m' demo_pkt OP = 5.
Proof.
  destruct (rx_to_pkt_correct 3 (ConnResponse 1025 500 0) demo_mem demo_pkt)
    as (m' & Hr & _ & (_ & _ & _ & Hd & Ho & _) & _);
    [exact mapped_demo|right; cbn; lia|by eexists|split; vm_compute; congruence
    |repeat split; vm_compute; congruence|].
  exists m'. split; [exact Hr|split; [exact Hd|exact Ho]].
Defined.

(** A receive ring of one entry at 0x90 that offers the chain of [demo_rx_mem]. *)
Definition ring_mem : FlatMem :=
  mkFlat 0 (fm_data demo_rx_mem ++ replicate 16 0 ++ le_bytes 2 0 ++ le_bytes 2 1 ++ replicate 60 0).
Definition ring_queue : Queue := VirtQueue.mkQueue 2 2 true 0 0x90 0xb0 0 0 false 0.

Lemma ring_avail_ok : VirtQueue.avail_ok ring_mem ring_queue.
Proof.
  split; cbn; try lia; [reflexivity|eexists; reflexivity|split; vm_compute; congruence].
Qed.

Lemma ring_pop : pop ring_mem ring_queue = Ret (Some demo_rx_head, VirtQueue.set_next_avail ring_queue 1).
Proof. vm_compute. reflexivity. Qed.

Lemma ring_packet : from_rx_virtq_head ring_mem demo_rx_head = Ok demo_pkt.
Proof. vm_compute. reflexivity. Qed.

Lemma ring_mapped : mapped ring_mem demo_pkt.
Proof.
  split; [vm_compute; eexists; reflexivity|].
  split; [vm_compute; congruence|vm_compute; eexists; reflexivity].
Qed.

Lemma demo_separate : separate demo_pkt.
Proof. right. vm_compute. congruence. Qed.

Lemma push_packet_delivers_witness :
  exists e', push_packet 3 (Reset 1 2) (mkEnv ring_mem ring_queue rxq_new) = Ret e' /\
    get (e_mem e') demo_pkt OP = VSOCK_OP_RST /\ q (e_rxq e') = [].
Proof.
  destruct (push_packet_delivers 3 (Reset 1 2) (mkEnv ring_mem ring_queue rxq_new))
    as (h & vq & e' & Hpop & Hpush & Hres);
    [exact ring_avail_ok|repeat split; vm_compute; congruence| |].
  - intros head vq p Hpop Hp. vm_compute in Hpop. injection Hpop as <- <-.
    vm_compute in Hp. injection Hp as <-. split; [right; cbn; lia|split; vm_compute; congruence].
  - exists e'. split; [exact Hpush|]. vm_compute in Hpush. injection Hpush as <-.
    split; vm_compute; reflexivity.
Defined.
End VsockRxq.
