(* ===== verification/VsockTcp.v ===== *)
(** * The TCP proxy of the vsock muxer
    ([devices/src/virtio/vsock/tcp.rs], [proxy.rs])

    [TcpProxy] forwards one guest stream to a host socket under the credit
    scheme of virtio-vsock.  System calls are outside the repository: they are
    the fields of [Sockets] over a host state [W].  The shared receive ring,
    guest memory and packet queue are the [Env] of [VsockRxq]. *)

From S2P Require Import Prelude GuestMem VirtQueue DescUtils VsockPacket VsockRxq.
Import VsockPacket VsockRxq.
Import VirtQueue (Queue, pop, undo_pop, add_used).

Module VsockTcp.

Inductive ProxyStatus :=
| Idle | Connecting | Connected | Listening | Closed | WaitingCreditUpdate | ReverseInit
| WaitingOnAccept.
#[global] Instance status_eq_dec : EqDecision ProxyStatus.
Proof. solve_decision. Defined.
Abbreviation is_status s t := (bool_decide (s = t)).

Inductive RecvPkt := RClose | RError | RRead (n : Z) | RWaitForCredit.

Inductive ProxyRemoval := Keep | Immediate | Deferred.

Definition EV_EMPTY : Z := 0.
Definition EV_IN : Z := 1.
Definition EV_OUT : Z := 4.
Definition EV_HANG_UP : Z := 16.

Record ProxyUpdate := mkUpdate {
  signal_queue : bool;
  remove_proxy : ProxyRemoval;
  polling : option (Z * Z * Z);
  new_proxy : option (Z * Z);
  push_accept : option (Z * Z);
  push_credit_req : option MuxerRx;
}.

Definition update_default : ProxyUpdate := mkUpdate false Keep None None None None.

Definition EPERM : Z := 1.
Definition EINVAL : Z := 22.
Definition EWOULDBLOCK : Z := 11.
Definition ECONNREFUSED : Z := 111.
Definition EINPROGRESS : Z := 115.
Definition O_NONBLOCK : Z := 0x800.

Record TcpProxy := mkTcp {
  id : Z;
  cid : Z;
  parent_id : Z;
  local_port : Z;
  peer_port : Z;
  control_port : Z;
  fd : Z;
  status : ProxyStatus;
  rx_cnt : Z;
  tx_cnt : Z;
  last_tx_cnt_sent : Z;
  peer_buf_alloc : Z;
  peer_fwd_cnt : Z;
  push_cnt : Z;
  pending_accepts : Z;
}.

Definition set_status (t : TcpProxy) (s : ProxyStatus) : TcpProxy :=
  mkTcp (id t) (cid t) (parent_id t) (local_port t) (peer_port t) (control_port t) (fd t) s
    (rx_cnt t) (tx_cnt t) (last_tx_cnt_sent t) (peer_buf_alloc t) (peer_fwd_cnt t) (push_cnt t)
    (pending_accepts t).
Definition set_ports (t : TcpProxy) (lp pp : Z) : TcpProxy :=
  mkTcp (id t) (cid t) (parent_id t) lp pp (control_port t) (fd t) (status t)
    (rx_cnt t) (tx_cnt t) (last_tx_cnt_sent t) (peer_buf_alloc t) (peer_fwd_cnt t) (push_cnt t)
    (pending_accepts t).
Definition set_rx (t : TcpProxy) (rx push : Z) : TcpProxy :=
  mkTcp (id t) (cid t) (parent_id t) (local_port t) (peer_port t) (control_port t) (fd t) (status t)
    rx (tx_cnt t) (last_tx_cnt_sent t) (peer_buf_alloc t) (peer_fwd_cnt t) push
    (pending_accepts t).
Definition set_tx (t : TcpProxy) (tx last : Z) : TcpProxy :=
  mkTcp (id t) (cid t) (parent_id t) (local_port t) (peer_port t) (control_port t) (fd t) (status t)
    (rx_cnt t) tx last (peer_buf_alloc t) (peer_fwd_cnt t) (push_cnt t) (pending_accepts t).
Definition set_credit (t : TcpProxy) (alloc fwd : Z) : TcpProxy :=
  mkTcp (id t) (cid t) (parent_id t) (local_port t) (peer_port t) (control_port t) (fd t) (status t)
    (rx_cnt t) (tx_cnt t) (last_tx_cnt_sent t) alloc fwd (push_cnt t) (pending_accepts t).
Definition set_pending (t : TcpProxy) (n : Z) : TcpProxy :=
  mkTcp (id t) (cid t) (parent_id t) (local_port t) (peer_port t) (control_port t) (fd t) (status t)
    (rx_cnt t) (tx_cnt t) (last_tx_cnt_sent t) (peer_buf_alloc t) (peer_fwd_cnt t) (push_cnt t) n.

Inductive SockKind := InetStream | InetDgram | UnixStream.

Inductive ProxyError := CreatingSocket (errno : Z) | SettingReusePort (errno : Z).

(** System calls: results, with error numbers, and the host state after. *)
Class Sockets (W : Type) := {
  sys_recv : W -> Z -> Z -> result Z (list byte) * W;
  sys_send : W -> Z -> list byte -> result Z Z * W;
  sys_connect : W -> Z -> list byte -> Z -> result Z unit * W;
  sys_bind : W -> Z -> list byte -> Z -> result Z unit * W;
  sys_listen : W -> Z -> Z -> result Z unit * W;
  sys_accept : W -> Z -> result Z Z * W;
  sys_getpeername : W -> Z -> result Z (list byte * Z) * W;
  sys_shutdown : W -> Z -> Z -> W;
  (** [socket(2)] by type, [SO_REUSEPORT], [connect(2)] to a Unix path,
      [sendto(2)] an IPv4 address and port, [close(2)] *)
  sys_socket : W -> SockKind -> result Z Z * W;
  sys_reuse_port : W -> Z -> result Z unit * W;
  sys_connect_unix : W -> Z -> list byte -> result Z unit * W;
  (** [UnixAddr::new] accepts the path *)
  unix_addr_ok : list byte -> bool;
  sys_sendto : W -> Z -> list byte -> list byte * Z -> result Z Z * W;
  sys_close : W -> Z -> W;
  (** [fcntl]: the blocking mode of a descriptor *)
  sys_set_blocking : W -> Z -> bool -> W;
}.

(** [recv(2)] fills at most the buffer; [send(2)] takes at most what it is given. *)
Class SocketLaws (W : Type) `{Sockets W} : Prop := {
  recv_bound w f n bs w' : sys_recv w f n = (Ok bs, w') -> Zlength bs <= n /\ bytes_ok bs;
  send_bound w f bs n w' : sys_send w f bs = (Ok n, w') -> 0 <= n <= Zlength bs;
}.

Section proxy.
Context {M W : Type} `{GuestMemory M} `{Sockets W}.
Abbreviation Env := (@Env M).

(** The proxy, the shared ring/memory/queue and the host. *)
Abbreviation World := (TcpProxy * Env * W)%type.

Definition idle (id cid local_port peer_port control_port fd : Z) : TcpProxy :=
  mkTcp id cid 0 local_port peer_port control_port fd Idle 0 0 0 0 0 0 0.

(** [new]: a failing [setsockopt] leaves the socket open. *)
Definition new (w : W) (id cid local_port peer_port control_port : Z) : result ProxyError TcpProxy * W :=
  match sys_socket w InetStream with
  | (Err e, w) => (Err (CreatingSocket e), w)
  | (Ok fd, w) =>
      let w := sys_set_blocking w fd false in
      match sys_reuse_port w fd with
      | (Err e, w) => (Err (SettingReusePort e), w)
      | (Ok _, w) => (Ok (idle id cid local_port peer_port control_port fd), w)
      end
  end.

Definition new_reverse (id cid parent_id local_port peer_port fd : Z) : TcpProxy :=
  mkTcp id cid parent_id local_port peer_port 0 fd ReverseInit 0 0 0 0 0 0 0.

Definition init_data_pkt (t : TcpProxy) (m : M) (p : VsockPacket) : M :=
  set_all m p [(OP, VSOCK_OP_RW); (SRC_CID, VSOCK_HOST_CID); (DST_CID, cid t);
    (SRC_PORT, local_port t); (DST_PORT, peer_port t); (TYPE, VSOCK_TYPE_STREAM);
    (BUF_ALLOC, CONN_TX_BUF_SIZE); (FWD_CNT, tx_cnt t)].

(** The port to bind: through the host port map when there is one. *)
Definition listen_port (req : TsiListenReq) (host_port_map : option (gmap Z Z)) : option Z :=
  match host_port_map with
  | Some port_map => port_map !! lr_port req
  | None => Some (lr_port req)
  end.

Definition try_listen (t : TcpProxy) (w : W) (req : TsiListenReq) (host_port_map : option (gmap Z Z))
    : Z * W :=
  if is_status (status t) Listening || is_status (status t) WaitingOnAccept then (0, w)
  else
    match listen_port req host_port_map with
    | None => (- EPERM, w)
    | Some port =>
        match sys_bind w (fd t) (lr_addr req) port with
        | (Ok _, w) =>
            match sys_listen w (fd t) (lr_backlog req) with
            | (Ok _, w) => (0, w)
            | (Err e, w) => (- e, w)
            end
        | (Err e, w) => (- e, w)
        end
    end.

Definition peer_avail_credit (t : TcpProxy) : Z :=
  peer_buf_alloc t -[32] (rx_cnt t -[32] peer_fwd_cnt t).

Definition recv_to_pkt (t : TcpProxy) (m : M) (w : W) (p : VsockPacket) : RecvPkt * M * W :=
  match p_buf p with
  | Some a =>
      let max_len := Z.min (p_buf_size p) (peer_avail_credit t) in
      if max_len =? 0 then (RWaitForCredit, m, w)
      else
        match sys_recv w (fd t) max_len with
        | (Ok bs, w) =>
            let m := default m (gm_write m a bs) in
            if 0 <? Zlength bs then (RRead (Zlength bs), m, w) else (RClose, m, w)
        | (Err _, w) => (RError, m, w)
        end
  | None => (RError, m, w)
  end.

(** One round of the receive loop: the ring is empty, the popped buffer was put
    back (waiting for credit or not), or a packet was published. *)
Inductive round := Drained | PutBack (wait_credit : bool) | Pushed.

Definition recv_one (t : TcpProxy) (e : Env) (w : W) : outcome (round * World) :=
  '(h, vq) ← pop (e_mem e) (e_queue e);
  match h with
  | None => Ret (Drained, (t, mkEnv (e_mem e) vq (e_rxq e), w))
  | Some head =>
      let '(len, wait, t, m, w) :=
        match from_rx_virtq_head (e_mem e) head with
        | Ok p =>
            match recv_to_pkt t (e_mem e) w p with
            | (RWaitForCredit, m, w) => (0, true, t, m, w)
            | (RRead cnt, m, w) =>
                let t := set_rx t (rx_cnt t +[32] wrap 32 cnt) (push_cnt t) in
                let m := init_data_pkt t m p in
                let m := set m p LEN (wrap 32 cnt) in
                (44 + cnt, false, t, m, w)
            | (RClose, m, w) => (0, false, set_status t Closed, m, w)
            | (RError, m, w) => (0, false, t, m, w)
            end
        | Err _ => (0, false, t, e_mem e, w)
        end in
      if len =? 0 then Ret (PutBack wait, (t, mkEnv m (undo_pop vq) (e_rxq e), w))
      else
        let t := set_rx t (rx_cnt t) (push_cnt t +[32] wrap 32 len) in
        let '(_, vq, m) := add_used m vq (VirtQueue.index head) (wrap 32 len) in
        Ret (Pushed, (t, mkEnv m vq (e_rxq e), w))
  end.

(** The loop; [None] is a loop still running after [fuel] rounds.  The flags
    are [have_used] and [wait_credit]. *)
Fixpoint recv_pkt (fuel : nat) (have_used : bool) (s : World) : option (outcome (bool * bool * World)) :=
  match fuel with
  | O => None
  | S fuel =>
      let '(t, e, w) := s in
      match recv_one t e w with
      | Panic => Some Panic
      | Ret (Drained, s) => Some (Ret (have_used, false, s))
      | Ret (PutBack wait, s) => Some (Ret (have_used, wait, s))
      | Ret (Pushed, s) => recv_pkt fuel true s
      end
  end.

(** [push_packet(self.cid, rx, ..)] *)
Definition push (rx : MuxerRx) (s : World) : outcome World :=
  let '(t, e, w) := s in
  e ← push_packet (cid t) rx e; Ret (t, e, w).

Definition push_connect_rsp (result : Z) (s : World) : outcome World :=
  push (ConnResponse 1025 (control_port s.1.1) result) s.

Definition push_reset (s : World) : outcome World :=
  push (Reset (local_port s.1.1) (peer_port s.1.1)) s.

Definition push_accept_rsp (result : Z) (s : World) : outcome World :=
  push (AcceptResponse 1030 (control_port s.1.1) result) s.

Definition push_op_request (s : World) : outcome World :=
  push (OpRequest (local_port s.1.1) (peer_port s.1.1)) s.

Definition switch_to_connected (s : World) : World :=
  let '(t, e, w) := s in (set_status t Connected, e, sys_set_blocking w (fd t) true).

Definition connect (req : TsiConnectReq) (s : World) : outcome (ProxyUpdate * World) :=
  let '(t, e, w) := s in
  let '(result, (t, e, w)) :=
    match sys_connect w (fd t) (cr_addr req) (cr_port req) with
    | (Ok _, w) => (0, switch_to_connected (t, e, w))
    | (Err err, w) =>
        if err =? EINPROGRESS then (0, (set_status t Connecting, e, w)) else (- err, (t, e, w))
    end in
  if is_status (status t) Connecting then
    Ret (mkUpdate false Keep (Some (id t, fd t, EV_IN .| EV_OUT)) None None None, (t, e, w))
  else
    let update := mkUpdate false Keep
      (if is_status (status t) Connected then Some (id t, fd t, EV_IN) else None) None None None in
    s ← push_connect_rsp result (t, e, w);
    Ret (update, s).

Definition confirm_connect (p : VsockPacket) (s : World) : outcome World :=
  let '(t, e, w) := s in
  let m := e_mem e in
  let t := set_credit t (buf_alloc m p) (fwd_cnt m p) in
  let t := set_ports t (dst_port m p) (src_port m p) in
  push (OpResponse (dst_port m p) (src_port m p)) (t, e, w).

Definition getpeername (p : VsockPacket) (s : World) : outcome World :=
  let '(t, e, w) := s in
  let m := e_mem e in
  let '(data, w) :=
    match sys_getpeername w (fd t) with
    | (Ok (a, port), w) => ({| gr_addr := a; gr_port := port; gr_result := 0 |}, w)
    | (Err err, w) => ({| gr_addr := [0; 0; 0; 0]; gr_port := 0; gr_result := - err |}, w)
    end in
  push (GetnameResponse (dst_port m p) (src_port m p) data) (t, e, w).

Definition sendmsg (p : VsockPacket) (s : World) : outcome (ProxyUpdate * World) :=
  let '(t, e, w) := s in
  let m := e_mem e in
  let '(ret, t, w) :=
    match buf m p with
    | Some b =>
        match sys_send w (fd t) b with
        | (Ok sent, w) =>
            (to_signed 32 sent, set_tx t (tx_cnt t +[32] wrap 32 sent) (last_tx_cnt_sent t), w)
        | (Err err, w) => (- err, t, w)
        end
    | None => (- EINVAL, t, w)
    end in
  if (0 <? ret) && (CONN_TX_BUF_SIZE / 2 <=? tx_cnt t -[32] last_tx_cnt_sent t) then
    let t := set_tx t (tx_cnt t) (tx_cnt t) in
    s ← push (CreditUpdate (dst_port m p) (src_port m p) (tx_cnt t)) (t, e, w);
    Ret (mkUpdate true Keep None None None None, s)
  else Ret (update_default, (t, e, w)).

Definition listen (p : VsockPacket) (req : TsiListenReq) (host_port_map : option (gmap Z Z)) (s : World)
    : outcome (ProxyUpdate * World) :=
  let '(t, e, w) := s in
  let m := e_mem e in
  let '(result, w) := try_listen t w req host_port_map in
  '(t, e, w) ← push (ListenResponse (dst_port m p) (src_port m p) result) (t, e, w);
  if result =? 0 then
    let t := set_status (set_ports t (local_port t) (lr_vm_port req)) Listening in
    Ret (mkUpdate false Keep (Some (id t, fd t, EV_IN)) None None None, (t, e, w))
  else Ret (update_default, (t, e, w)).

Definition accept (req : TsiAcceptReq) (s : World) : outcome (ProxyUpdate * World) :=
  let '(t, e, w) := s in
  if 0 <? pending_accepts t then
    s ← push_accept_rsp 0 (set_pending t (pending_accepts t - 1), e, w);
    Ret (mkUpdate true Keep None None None None, s)
  else if negb (ar_flags req .& O_NONBLOCK =? 0) then
    s ← push_accept_rsp (- EWOULDBLOCK) (t, e, w);
    Ret (mkUpdate true Keep None None None None, s)
  else Ret (update_default, (set_status t WaitingOnAccept, e, w)).

Definition update_peer_credit (p : VsockPacket) (s : World) : ProxyUpdate * World :=
  let '(t, e, w) := s in
  let m := e_mem e in
  let t := set_status (set_credit t (buf_alloc m p) (fwd_cnt m p)) Connected in
  (mkUpdate false Keep (Some (id t, fd t, EV_IN)) None None None, (t, e, w)).

Definition process_op_response (p : VsockPacket) (s : World) : ProxyUpdate * World :=
  let '(t, e, w) := s in
  let m := e_mem e in
  let t := set_credit t (buf_alloc m p) (fwd_cnt m p) in
  let '(t, e, w) := switch_to_connected (t, e, w) in
  (mkUpdate false Keep (Some (id t, fd t, EV_IN)) None (Some (id t, parent_id t)) None, (t, e, w)).

Definition enqueue_accept (s : World) : outcome World :=
  let '(t, e, w) := s in
  if is_status (status t) WaitingOnAccept then push_accept_rsp 0 (set_status t Listening, e, w)
  else Ret (set_pending t (pending_accepts t +[64] 1), e, w).

(** [how]: 0 read, 1 write, 2 both *)
Definition shutdown (p : VsockPacket) (s : World) : World :=
  let '(t, e, w) := s in
  let recv_off := negb (flags (e_mem e) p .& 1 =? 0) in
  let send_off := negb (flags (e_mem e) p .& 2 =? 0) in
  let how := if recv_off && send_off then 2 else if recv_off then 0 else 1 in
  (t, e, sys_shutdown w (fd t) how).

Definition release (s : World) : ProxyUpdate * World :=
  (mkUpdate false (if is_status (status s.1.1) Listening then Immediate else Deferred)
     None None None None, s).

Definition ev_contains (evset bit : Z) : bool := evset .& bit =? bit.

(** The [IN] event of a connected proxy; [true] is the early return. *)
Definition process_in_connected (fuel : nat) (s : World) : option (outcome (bool * ProxyUpdate * World)) :=
  match recv_pkt fuel false s with
  | None => None
  | Some Panic => Some Panic
  | Some (Ret (signal, wait_credit, (t, e, w))) =>
      let ask := wait_credit && negb (is_status (status t) WaitingCreditUpdate) in
      let req := if ask then Some (CreditRequest (local_port t) (peer_port t) (tx_cnt t)) else None in
      let t := if ask then set_status t WaitingCreditUpdate else t in
      if is_status (status t) Closed then
        Some (s ← push_reset (t, e, w);
              Ret (true, mkUpdate true Keep (Some (id t, fd t, EV_EMPTY)) None None req, s))
      else
        Some (Ret (false, mkUpdate signal Keep
          (if is_status (status t) WaitingCreditUpdate then Some (id t, fd t, EV_EMPTY) else None)
          None None req, (t, e, w)))
  end.

Definition process_out (update : ProxyUpdate) (evset : Z) (s : World) : outcome (ProxyUpdate * World) :=
  if ev_contains evset EV_OUT && is_status (status s.1.1) Connecting then
    s ← push_connect_rsp 0 (switch_to_connected s);
    Ret (mkUpdate true (remove_proxy update) (Some (id s.1.1, fd s.1.1, EV_IN))
           (new_proxy update) (push_accept update) (push_credit_req update), s)
  else Ret (update, s).

Definition process_event (fuel : nat) (evset : Z) (s : World) : option (outcome (ProxyUpdate * World)) :=
  let '(t, e, w) := s in
  if ev_contains evset EV_HANG_UP then
    Some ('(t, e, w) ← (if is_status (status t) Connecting then push_connect_rsp (- ECONNREFUSED) s
                        else push_reset s);
          let t := set_status t Closed in
          Ret (mkUpdate true (if is_status (status t) Listening then Immediate else Deferred)
                 (Some (id t, fd t, EV_EMPTY)) None None None, (t, e, w)))
  else if ev_contains evset EV_IN then
    if is_status (status t) Connected then
      match process_in_connected fuel s with
      | None => None
      | Some Panic => Some Panic
      | Some (Ret (true, update, s)) => Some (Ret (update, s))
      | Some (Ret (false, update, s)) => Some (process_out update evset s)
      end
    else if is_status (status t) Listening || is_status (status t) WaitingOnAccept then
      let '(r, w) := sys_accept w (fd t) in
      Some (Ret (mkUpdate true Keep None
             (match r with Ok f => Some (peer_port t, f) | Err _ => None end) None None, (t, e, w)))
    else Some (process_out update_default evset s)
  else Some (process_out update_default evset s).

(** ** Flow control towards the guest *)

Lemma credit_range t : 0 <= peer_avail_credit t < 2 ^ 32.
Proof. apply (wrap_fits 32). lia. Qed.

(** Bytes sent to the guest it has not yet consumed. *)
Definition in_flight (t : TcpProxy) : Z := rx_cnt t -[32] peer_fwd_cnt t.

Lemma credit_exact t :
  fits 32 (peer_buf_alloc t) -> in_flight t <= peer_buf_alloc t ->
  peer_avail_credit t = peer_buf_alloc t - in_flight t.
Proof.
  intros Hf Hi. unfold peer_avail_credit. fold (in_flight t).
  pose proof (wrap_fits 32 (rx_cnt t - peer_fwd_cnt t) ltac:(lia)) as Hw. fold (in_flight t) in Hw.
  apply wrap_small. unfold fits in *. lia.
Qed.

(** Reading [n] more bytes uses up [n] of the credit, across counter wraps. *)
Lemma credit_after a f r n :
  0 <= n <= a -[32] (r -[32] f) -> a -[32] ((r +[32] n) -[32] f) = a -[32] (r -[32] f) - n.
Proof.
  intros Hn. pose proof (wrap_fits 32 (a - wrap 32 (r - f)) ltac:(lia)) as Hc.
  transitivity (wrap 32 (wrap 32 (a - wrap 32 (r - f)) - n)); [|apply wrap_small; unfold fits in *; lia].
  rewrite !wrap_sub_l.
  replace (a - wrap 32 (r - f) - n) with (a - n - wrap 32 (r - f)) by lia.
  rewrite !wrap_sub_r. f_equal. lia.
Qed.

Context `{!SocketLaws W}.

(** What a receive loop takes from the socket: calls of [recv] one after the
    other, each asking for no more than the credit the earlier ones left.  Only
    the last may yield nothing (end of stream) or fail. *)
Inductive receives (f : Z) : Z -> W -> list (list byte) -> W -> Prop :=
  | receives_none c w : receives f c w [] w
  | receives_last c w n r w' :
      0 < n <= c -> sys_recv w f n = (r, w') -> (forall bs, r = Ok bs -> bs = []) ->
      receives f c w [] w'
  | receives_some c w n bs w1 l w' :
      0 < n <= c -> sys_recv w f n = (Ok bs, w1) -> bs <> [] ->
      receives f (c - Zlength bs) w1 l w' -> receives f c w (bs :: l) w'.

(** The packets carrying these payloads, each with its header. *)
Fixpoint packets_size (l : list (list byte)) : Z :=
  match l with [] => 0 | bs :: l => (44 + Zlength bs) + packets_size l end.

Lemma receives_within f c w l w' : receives f c w l w' -> 0 <= c -> Zlength (concat l) <= c.
Proof.
  induction 1 as [c w|c w n r w' Hn Hr He|c w n bs w1 l w' Hn Hr Hne Hl IH]; intros Hc; cbn; [lia..|].
  apply recv_bound in Hr as [Hb _]. rewrite length_app. specialize (IH ltac:(lia)). lia.
Qed.

Lemma receives_count f c w l w' : receives f c w l w' -> Zlength l <= Zlength (concat l).
Proof.
  induction 1 as [| |c w n bs w1 l w' Hn Hr Hne Hl IH]; cbn; [lia..|].
  rewrite length_app. destruct bs; [done|cbn; lia].
Qed.

Lemma recv_to_pkt_moved t m w p r m' w' :
  0 <= p_buf_size p -> recv_to_pkt t m w p = (r, m', w') ->
  match r with
  | RRead k => exists n bs, 0 < n <= peer_avail_credit t /\ sys_recv w (fd t) n = (Ok bs, w') /\
      bs <> [] /\ k = Zlength bs
  | _ => receives (fd t) (peer_avail_credit t) w [] w'
  end.
Proof.
  intros Hs. unfold recv_to_pkt. pose proof (credit_range t).
  destruct (p_buf p) as [a|]; [|intros [= <- _ <-]; constructor].
  destruct (_ =? 0) eqn:E; [intros [= <- _ <-]; constructor|]. zify_bool.
  destruct (sys_recv w (fd t) _) as [[bs|err] w1] eqn:Er.
  - destruct bs as [|b bs]; intros [= <- _ <-].
    + eapply receives_last; [|exact Er|]; [lia|congruence].
    + do 2 eexists. split; [|by split; [exact Er|]]. lia.
  - intros [= <- _ <-]. eapply receives_last; [|exact Er|]; [lia|done].
Qed.

(** Same connection: the socket, and the credit the guest advertised. *)
Definition same_credit (t t' : TcpProxy) : Prop :=
  fd t' = fd t /\ peer_buf_alloc t' = peer_buf_alloc t /\ peer_fwd_cnt t' = peer_fwd_cnt t.

(** What a loop that took [l] from the socket leaves in the proxy: the
    counters advanced by the bytes taken, and the credit that is left. *)
Record taken (t t' : TcpProxy) (l : list (list byte)) : Prop := {
  taken_same : same_credit t t';
  taken_rx : rx_cnt t' -[32] rx_cnt t = Zlength (concat l);
  taken_push : push_cnt t' -[32] push_cnt t = wrap 32 (packets_size l);
  taken_credit : peer_avail_credit t' = peer_avail_credit t - Zlength (concat l);
}.

Lemma taken_none t t' :
  same_credit t t' -> rx_cnt t' = rx_cnt t -> push_cnt t' = push_cnt t -> taken t t' [].
Proof.
  intros Hs Hr Hp. split; [done|by rewrite Hr, Z.sub_diag|by rewrite Hp, Z.sub_diag|].
  unfold peer_avail_credit. destruct Hs as (_ & -> & ->). rewrite Hr. cbn. lia.
Qed.

Lemma taken_one t bs vt :
  0 < Zlength bs <= peer_avail_credit t ->
  vt = set_rx t (rx_cnt t +[32] Zlength bs) (push_cnt t +[32] (44 + Zlength bs)) -> taken t vt [bs].
Proof.
  intros Hb ->. pose proof (credit_range t) as Hc.
  split; [done| | |]; cbn [concat rx_cnt push_cnt set_rx packets_size]; rewrite ?app_nil_r.
  - rewrite wrap_sub_l. replace (_ - _) with (Zlength bs) by lia. apply wrap_small. unfold fits; lia.
  - rewrite wrap_sub_l. f_equal. lia.
  - unfold peer_avail_credit in *. cbn [peer_buf_alloc rx_cnt peer_fwd_cnt set_rx]. apply credit_after. lia.
Qed.

Lemma taken_app t t1 t' bs l :
  taken t t1 [bs] -> taken t1 t' l -> Zlength bs + Zlength (concat l) <= peer_avail_credit t ->
  taken t t' (bs :: l).
Proof.
  intros [Hs1 Hr1 Hp1 Hc1] [Hs2 Hr2 Hp2 Hc2] Hle. cbn [concat packets_size] in *.
  rewrite app_nil_r in *. pose proof (credit_range t) as Hc.
  split; [destruct Hs1 as (?&?&?), Hs2 as (?&?&?); split_and!; congruence| | |];
    cbn [concat packets_size]; rewrite ?length_app.
  - replace (rx_cnt t' - rx_cnt t) with ((rx_cnt t' - rx_cnt t1) + (rx_cnt t1 - rx_cnt t)) by lia.
    rewrite <- wrap_add_l, Hr2, <- wrap_add_r, Hr1, wrap_small by (unfold fits; lia). lia.
  - replace (push_cnt t' - push_cnt t) with ((push_cnt t' - push_cnt t1) + (push_cnt t1 - push_cnt t)) by lia.
    rewrite <- wrap_add_l, Hp2, <- wrap_add_r, Hp1, wrap_add_l, wrap_add_r. f_equal. lia.
  - lia.
Qed.

Context {GML : GuestMemoryLaws M}.

(** One round: a published packet carries what one [recv] yielded, and the
    proxy counts exactly its bytes; any other round counts nothing. *)
Lemma recv_one_taken t e w r t' e' w' :
  (forall head vq p, pop (e_mem e) (e_queue e) = Ret (Some head, vq) ->
     from_rx_virtq_head (e_mem e) head = Ok p -> 0 <= p_buf_size p) ->
  recv_one t e w = Ret (r, (t', e', w')) ->
  match r with
  | Pushed => exists n bs, 0 < n <= peer_avail_credit t /\ sys_recv w (fd t) n = (Ok bs, w') /\
      bs <> [] /\ taken t t' [bs]
  | _ => receives (fd t) (peer_avail_credit t) w [] w' /\ taken t t' []
  end.
Proof.
  intros Hsize. unfold recv_one.
  assert (forall t0, same_credit t t0 /\ rx_cnt t0 = rx_cnt t /\ push_cnt t0 = push_cnt t ->
    taken t t0 []) as Hnone by (intros t0 (?&?&?); by apply taken_none).
  destruct (pop (e_mem e) (e_queue e)) as [[h vq]|] eqn:Ep; [|done]. cbn [mbind outcome_bind].
  destruct h as [head|]; [|intros [= <- <- <- <-]; split; [constructor|by apply Hnone]].
  specialize (Hsize head vq).
  destruct (from_rx_virtq_head (e_mem e) head) as [p|err];
    [|intros [= <- <- <- <-]; split; [constructor|by apply Hnone]].
  specialize (Hsize p eq_refl eq_refl).
  destruct (recv_to_pkt t (e_mem e) w p) as [[r1 m1] w1] eqn:Er.
  apply recv_to_pkt_moved in Er; [|done].
  destruct r1 as [| |k|]; try (intros [= <- <- <- <-]; split; [exact Er|by apply Hnone]).
  destruct Er as (n & bs & Hn & Hr & Hne & ->).
  destruct (44 + Zlength bs =? 0) eqn:E0; [zify_bool; lia|].
  set (m2 := set _ p LEN _). destruct (add_used m2 vq _ _) as [[r2 vq2] m3].
  intros [= <- <- <- <-]. exists n, bs. split_and!; [lia|lia|done|done|].
  destruct (recv_bound _ _ _ _ _ Hr) as [Hb _].
  assert (0 < Zlength bs) by (destruct bs; [done|cbn; lia]).
  apply taken_one; [lia|]. unfold set_rx. cbn. f_equal; by rewrite wrap_add_r.
Qed.

(** Receive buffers have non-negative size (descriptor lengths are unsigned). *)
Lemma rx_buffer_size (m : M) head p : from_rx_virtq_head m head = Ok p -> 0 <= p_buf_size p.
Proof.
  unfold from_rx_virtq_head. destruct (negb _); [done|]. destruct (_ <? _); [done|].
  destruct (get_host_address m _ _) as [h|]; [|done]. destruct (_ && _) eqn:E; zify_bool.
  - destruct (checked_add _ _ _); [|done]. destruct (get_host_address m _ _); [|done].
    intros [= <-]. cbn. lia.
  - destruct (VirtQueue.next_descriptor m head) as [d|] eqn:En; [|done].
    destruct (get_host_address m _ _); [|done]. intros [= <-]. cbn.
    by eapply DescUtils.next_descriptor_len.
Qed.

Lemma recv_pkt_taken fuel hu t e w :
  peer_avail_credit t < Z.of_nat fuel ->
  exists o, recv_pkt fuel hu (t, e, w) = Some o /\
    forall hu' wait t' e' w', o = Ret (hu', wait, (t', e', w')) ->
      exists l, receives (fd t) (peer_avail_credit t) w l w' /\ taken t t' l /\
        hu' = hu || (0 <? Zlength l).
Proof.
  revert hu t e w. induction fuel as [|fuel IH]; intros hu t e w Hf.
  { pose proof (credit_range t). lia. }
  cbn [recv_pkt]. destruct (recv_one t e w) as [[r [[t1 e1] w1]]|] eqn:E; [|by eexists].
  apply recv_one_taken in E; [|by intros; eapply rx_buffer_size].
  pose proof (credit_range t) as Hc. pose proof (credit_range t1) as Hc1.
  destruct r as [|wait|].
  1-2: destruct E as [Hrec Htk]; eexists; split; [done|]; intros ????? [= <- <- <- <- <-];
    exists []; by rewrite orb_false_r.
  destruct E as (n & bs & Hn & Hr & Hne & Htk).
  pose proof Htk as [(Hfd & _) _ _ Hcr]. cbn [concat] in Hcr. rewrite app_nil_r in Hcr.
  assert (0 < Zlength bs) by (destruct bs; [done|cbn; lia]).
  destruct (IH true t1 e1 w1) as (o & Ho & Hres); [lia|]. exists o. split; [done|].
  intros ? ? t' ? ? Heq. destruct (Hres _ _ _ _ _ Heq) as (l & Hl & Htl & Hhu).
  rewrite Hfd, Hcr in Hl. pose proof (receives_within _ _ _ _ _ Hl ltac:(lia)).
  exists (bs :: l). split; [by eapply receives_some|]. split; [eapply taken_app; [done..|lia]|].
  rewrite Hhu. destruct (0 <? Zlength (bs :: l)) eqn:E; [by rewrite orb_true_r|]. cbn in E. zify_bool. lia.
Qed.

(** C26. Receiving terminates, respects the credit and counts what it moves:
    the loop that moves data from the socket into guest buffers ends after at
    most as many packets as the guest's available credit, whatever the guest
    memory holds.  It asks the socket for the next bytes again and again, never
    for more than the credit that is left, until it has no buffer or no credit,
    or the socket yields nothing; the bytes it received in all are within the
    credit; [rx_cnt] is advanced by exactly their number and [push_cnt] by that
    of the packets with their headers, modulo [2^32]; the credit left is the
    credit at the start less the bytes received; and used buffers are reported
    exactly when something was received (or had been before). *)
Theorem recv_pkt_within_credit fuel hu t e w :
  peer_avail_credit t < Z.of_nat fuel ->
  exists o, recv_pkt fuel hu (t, e, w) = Some o /\
    forall hu' wait t' e' w', o = Ret (hu', wait, (t', e', w')) ->
      exists l, receives (fd t) (peer_avail_credit t) w l w' /\ same_credit t t' /\
        Zlength l <= Zlength (concat l) <= peer_avail_credit t /\
        rx_cnt t' -[32] rx_cnt t = Zlength (concat l) /\
        push_cnt t' -[32] push_cnt t = wrap 32 (packets_size l) /\
        peer_avail_credit t' = peer_avail_credit t - Zlength (concat l) /\
        hu' = hu || (0 <? Zlength l).
Proof.
  intros Hf. destruct (recv_pkt_taken fuel hu t e w Hf) as (o & Ho & Hres). exists o. split; [done|].
  intros hu' wait t' e' w' Heq. destruct (Hres _ _ _ _ _ Heq) as (l & Hl & [Hs Hr Hp Hc] & Hhu).
  pose proof (credit_range t). exists l. split_and!; try done.
  - by eapply receives_count.
  - eapply receives_within; [done|lia].
Qed.

(** Flow control is never violated: if the bytes in flight are within the
    buffer the guest advertised, they still are after any amount of
    receiving. *)
Theorem in_flight_bounded fuel hu t e w hu' wait t' e' w' :
  peer_avail_credit t < Z.of_nat fuel ->
  fits 32 (peer_buf_alloc t) -> in_flight t <= peer_buf_alloc t ->
  recv_pkt fuel hu (t, e, w) = Some (Ret (hu', wait, (t', e', w'))) ->
  in_flight t' <= peer_buf_alloc t'.
Proof.
  intros Hf Ha Hi Hr.
  destruct (recv_pkt_taken fuel hu t e w Hf) as (o & Ho & Hres).
  rewrite Hr in Ho. injection Ho as <-.
  destruct (Hres _ _ _ _ _ eq_refl) as (l & Hl & [(_ & Hba & Hfw) Hrx _ Hc] & _).
  pose proof (credit_range t) as Hcr. pose proof (receives_within _ _ _ _ _ Hl ltac:(lia)) as Hn.
  pose proof (credit_exact t Ha Hi) as Hex. rewrite Hba. set (n := Zlength (concat l)) in *.
  assert (in_flight t' = in_flight t + n) as ->; [|lia].
  unfold in_flight in *. rewrite Hfw.
  replace (rx_cnt t' - peer_fwd_cnt t) with (rx_cnt t' - rx_cnt t + (rx_cnt t - peer_fwd_cnt t)) by lia.
  rewrite <- wrap_add_l, Hrx, <- wrap_add_r.
  pose proof (wrap_fits 32 (rx_cnt t - peer_fwd_cnt t) ltac:(lia)) as Hw.
  rewrite wrap_small; unfold fits in *; lia.
Qed.

(** ** Payload *)

(** C32. Data is delivered faithfully: when the socket yields bytes for the next
    guest buffer, the packet published is addressed from the proxy's port on
    the host to the guest's port, its length field and the used element carry
    exactly the number of bytes received, its payload is those bytes, and the
    whole packet is in memory before the buffer is published. *)
Theorem stream_data_delivered t e w head vq p a bs w' :
  pop (e_mem e) (e_queue e) = Ret (Some head, vq) -> from_rx_virtq_head (e_mem e) head = Ok p ->
  mapped (e_mem e) p -> separate p -> p_buf p = Some a ->
  sys_recv w (fd t) (Z.min (p_buf_size p) (peer_avail_credit t)) = (Ok bs, w') -> bs <> [] ->
  fits 64 (cid t) -> fits 32 (local_port t) -> fits 32 (peer_port t) -> fits 32 (tx_cnt t) ->
  exists m1 t', gm_read m1 a (length bs) = Some bs /\ get m1 p LEN = Zlength bs /\
    get m1 p OP = VSOCK_OP_RW /\ get m1 p TYPE = VSOCK_TYPE_STREAM /\
    get m1 p SRC_CID = VSOCK_HOST_CID /\ get m1 p DST_CID = cid t /\
    get m1 p SRC_PORT = local_port t /\ get m1 p DST_PORT = peer_port t /\ get m1 p FWD_CNT = tx_cnt t /\
    let '(_, vq', m') := add_used m1 vq (VirtQueue.index head) (44 +[32] Zlength bs) in
    recv_one t e w = Ret (Pushed, (t', mkEnv m' vq' (e_rxq e), w')).
Proof.
  intros Hpop Hrx Hm Hs Ha Hr Hne Hcid Hlp Hpp Htx. destruct (recv_bound _ _ _ _ _ Hr) as [Hlen Hb].
  pose proof (credit_range t) as Hcr.
  assert (0 < Zlength bs) as Hpos by (destruct bs; [done|cbn; lia]).
  assert (fits 32 (Zlength bs)) as Hf by (unfold fits; lia).
  unfold recv_one. rewrite Hpop. cbn [mbind outcome_bind]. rewrite Hrx. unfold recv_to_pkt. rewrite Ha.
  destruct (_ =? 0) eqn:E0; zify_bool; [lia|]. rewrite Hr.
  destruct (0 <? Zlength bs) eqn:E1; zify_bool; [|lia].
  rewrite (wrap_small 32 (Zlength bs)) by done. unfold init_data_pkt.
  destruct (44 + Zlength bs =? 0) eqn:E2; zify_bool; [lia|].
  lazymatch goal with |- context [set_all ?m p ?l] =>
    destruct (packet_filled (e_mem e) p a bs l) as (_ & Hpay & Hlen' & Hget);
      [try done; try lia..|]; [repeat (apply Forall_cons; split); try done; split; vm_compute; congruence|] end.
  set (m1 := set _ p LEN _) in *. exists m1. 
  destruct (add_used m1 vq _ _) as [[r vq'] m'] eqn:Eu. eexists. split_and!; try done.
  all: by apply Hget.
Qed.

(** ** Credit given to the guest *)

(** Bytes forwarded to the socket that the guest has not been told about. *)
Definition unreported (t : TcpProxy) : Z := tx_cnt t -[32] last_tx_cnt_sent t.

(** The guest is told in time: after every message sent on behalf of the
    guest, successful or not, fewer than half of the advertised 8 MiB buffer
    have been consumed without a credit update, provided that held before; and
    a credit update carries the total count. *)
Theorem credit_reported p t e w u t' e' w' :
  unreported t < CONN_TX_BUF_SIZE / 2 ->
  (forall b, buf (e_mem e) p = Some b -> Zlength b <= MAX_PKT_BUF_SIZE) ->
  sendmsg p (t, e, w) = Ret (u, (t', e', w')) ->
  unreported t' < CONN_TX_BUF_SIZE / 2 /\
  (signal_queue u = true -> last_tx_cnt_sent t' = tx_cnt t' /\ unreported t' = 0).
Proof.
  intros Hu Hb. unfold sendmsg. set (r := match buf (e_mem e) p with Some _ => _ | None => _ end).
  assert (exists ret t1 w1, r = (ret, t1, w1) /\ last_tx_cnt_sent t1 = last_tx_cnt_sent t /\
    (ret <= 0 -> tx_cnt t1 -[32] last_tx_cnt_sent t1 < CONN_TX_BUF_SIZE / 2)) as (ret & t1 & w1 & Hr & Hl & Hn).
  { unfold r. destruct (buf (e_mem e) p) as [b|]; [|by do 3 eexists].
    destruct (sys_send w (fd t) b) as [[sent|err] w1] eqn:Es; [|by do 3 eexists].
    apply send_bound in Es. specialize (Hb b eq_refl). unfold MAX_PKT_BUF_SIZE in Hb.
    do 3 eexists. split; [done|]. split; [done|]. intros Hle.
    unfold to_signed in Hle. rewrite wrap_small in Hle by (unfold fits; lia).
    destruct (sent <? 2 ^ (32 - 1)) eqn:E; zify_bool; [|lia]. assert (sent = 0) as -> by lia.
    cbn [tx_cnt last_tx_cnt_sent set_tx]. rewrite Z.add_0_r, wrap_sub_l. done. }
  rewrite Hr. destruct (_ && _) eqn:E.
  - unfold push. destruct (push_packet _ _ e) as [e1|]; [|done]. cbn [mbind outcome_bind].
    intros [= <- <- <- <-]. unfold unreported. cbn [tx_cnt last_tx_cnt_sent set_tx signal_queue].
    rewrite Z.sub_diag. done.
  - intros [= <- <- <- <-]. split; [|done]. unfold unreported.
    apply andb_false_iff in E as [E|E]; zify_bool; auto.
Qed.

(** ** Listening *)

(** A guest can only listen on host ports the port map grants: with a map
    configured, a request for a port outside it is refused with [-EPERM] before
    any socket call, and a granted request binds the mapped port. *)
Theorem listen_respects_port_map t w req (map : gmap Z Z) :
  status t <> Listening -> status t <> WaitingOnAccept ->
  match map !! lr_port req with
  | None => try_listen t w req (Some map) = (- EPERM, w)
  | Some port =>
      forall w1, sys_bind w (fd t) (lr_addr req) port = (Ok tt, w1) ->
      forall w2, sys_listen w1 (fd t) (lr_backlog req) = (Ok tt, w2) ->
      try_listen t w req (Some map) = (0, w2)
  end.
Proof.
  intros H1 H2. unfold try_listen, listen_port. rewrite !bool_decide_false by done. cbn [orb].
  destruct (map !! lr_port req); [|done]. intros w1 Hb w2 Hl. by rewrite Hb, Hl.
Qed.

(** A hang-up of a listening socket is not removed at once: the status is
    overwritten before it is tested. *)
Lemma hang_up_never_immediate fuel evset t e w u s :
  ev_contains evset EV_HANG_UP = true -> status t = Listening ->
  process_event fuel evset (t, e, w) = Some (Ret (u, s)) -> remove_proxy u = Deferred.
Proof.
  intros Hev Hst. unfold process_event. rewrite Hev, Hst. rewrite bool_decide_false by done.
  unfold push_reset, push. destruct (push_packet _ _ e); [|done]. cbn [mbind outcome_bind].
  by intros [= <- _].
Qed.
End proxy.

(** ** Witnesses: a socket with a fixed incoming stream that sends everything *)

Definition byte_stream (w : list byte) : list byte := map (wrap 8) w.

#[global] Instance byte_socket : Sockets (list Z) := {
  sys_recv w _ n := if n <? 0 then (Err EINVAL, w)
                    else (Ok (byte_stream (take (Z.to_nat n) w)), drop (Z.to_nat n) w);
  sys_send w _ bs := (Ok (Zlength bs), w);
  sys_connect w _ _ _ := (Ok tt, w);
  sys_bind w _ _ _ := (Ok tt, w);
  sys_listen w _ _ := (Ok tt, w);
  sys_accept w _ := (Err EWOULDBLOCK, w);
  sys_getpeername w _ := (Err EINVAL, w);
  sys_shutdown w _ _ := w;
  sys_socket w _ := (Ok 9, w);
  sys_reuse_port w _ := (Ok tt, w);
  sys_connect_unix w _ _ := (Ok tt, w);
  unix_addr_ok path := Zlength path <? 108;
  sys_sendto w _ bs _ := (Ok (Zlength bs), w);
  sys_close w _ := w;
  sys_set_blocking w _ _ := w;
}.

#[global] Instance byte_socket_laws : @SocketLaws (list Z) byte_socket.
Proof.
  split.
  - intros w f n bs w'. cbn. case_bool; [done|]. intros [= <- _]. zify_bool.
    unfold byte_stream. rewrite length_map, length_take. split; [lia|].
    apply Forall_map, Forall_true. intros x. by apply wrap_fits.
  - intros w f bs n w' [= <- _]. lia.
Qed.

Definition demo_proxy : TcpProxy :=
  set_credit (set_status (idle 1 3 620 1000 5 9) Connected) 4 0.

Definition demo_world := (demo_proxy, mkEnv ring_mem ring_queue rxq_new, [1; 2; 3; 4; 5; 6]).

Lemma recv_pkt_within_credit_witness :
  exists hu' wait t' e' w' l, recv_pkt 5 false demo_world = Some (Ret (hu', wait, (t', e', w'))) /\
    receives 9 4 [1; 2; 3; 4; 5; 6] l w' /\ rx_cnt t' -[32] 0 = Zlength (concat l) /\
    peer_avail_credit t' = 0 /\ hu' = true.
Proof.
  destruct (recv_pkt_within_credit 5 false demo_proxy (mkEnv ring_mem ring_queue rxq_new)
    [1; 2; 3; 4; 5; 6]) as (o & Ho & Hr); [vm_compute; reflexivity|].
  destruct o as [[[hu' wait] [[t' e'] w']]|]; [|vm_compute in Ho; discriminate].
  destruct (Hr _ _ _ _ _ eq_refl) as (l & Hl & _ & _ & Hrx & _ & _ & _).
  exists hu', wait, t', e', w', l. split; [exact Ho|]. split; [exact Hl|]. split; [exact Hrx|].
  vm_compute in Ho. injection Ho as <- <- <- <- <-. split; reflexivity.
Defined.

Lemma in_flight_bounded_witness :
  exists hu' wait t' e' w', recv_pkt 5 false demo_world = Some (Ret (hu', wait, (t', e', w'))) /\
    in_flight t' <= peer_buf_alloc t' /\ w' = [5; 6].
Proof.
  destruct (recv_pkt 5 false demo_world) as [[[[hu wait] [[t' e'] w']]|]|] eqn:E;
    [|vm_compute in E; discriminate..].
  exists hu, wait, t', e', w'. split; [reflexivity|split].
  - apply (in_flight_bounded 5 false demo_proxy (mkEnv ring_mem ring_queue rxq_new) [1; 2; 3; 4; 5; 6]
      hu wait t' e' w');
      [vm_compute; reflexivity|split; vm_compute; congruence|vm_compute; congruence|exact E].
  - vm_compute in E. injection E as <- <- <- <- <-. reflexivity.
Defined.

Lemma credit_reported_witness :
  exists u t' e' w', sendmsg demo_pkt (demo_proxy, mkEnv demo_mem ring_queue rxq_new, [])
    = Ret (u, (t', e', w')) /\ unreported t' < CONN_TX_BUF_SIZE / 2 /\ tx_cnt t' = 16.
Proof.
  destruct (sendmsg demo_pkt (demo_proxy, mkEnv demo_mem ring_queue rxq_new, []))
    as [[u [[t' e'] w']]|] eqn:E; [|vm_compute in E; discriminate].
  exists u, t', e', w'. split; [reflexivity|split].
  - refine (proj1 (credit_reported demo_pkt demo_proxy (mkEnv demo_mem ring_queue rxq_new) []
      u t' e' w' _ _ E)); [vm_compute; reflexivity|].
    intros b Hb. vm_compute in Hb. injection Hb as <-. vm_compute. congruence.
  - vm_compute in E. injection E as <- <- <- <-. reflexivity.
Defined.

Lemma stream_data_delivered_witness :
  exists m1 t' vq' m', gm_read m1 0x70 4 = Some [1; 2; 3; 4] /\ get m1 demo_pkt LEN = 4 /\
    recv_one demo_proxy (mkEnv ring_mem ring_queue rxq_new) [1; 2; 3; 4; 5; 6] =
      Ret (Pushed, (t', mkEnv m' vq' rxq_new, [5; 6])).
Proof.
  destruct (stream_data_delivered demo_proxy (mkEnv ring_mem ring_queue rxq_new) [1; 2; 3; 4; 5; 6]
    demo_rx_head (VirtQueue.set_next_avail ring_queue 1) demo_pkt 0x70 [1; 2; 3; 4] [5; 6]
    ring_pop ring_packet ring_mapped demo_separate eq_refl)
    as (m1 & t' & Hp & Hl & _ & _ & _ & _ & _ & _ & _ & Hr);
    [vm_compute; reflexivity|discriminate|split; vm_compute; congruence..|].
  destruct (add_used m1 _ _ _) as [[r vq'] m']. exists m1, t', vq', m'.
  split; [exact Hp|]. split; [exact Hl|exact Hr].
Defined.

Definition demo_listen : TsiListenReq := {| lr_peer_port := 0; lr_addr := [0; 0; 0; 0]; lr_port := 80;
  lr_vm_port := 0; lr_backlog := 1 |}.

Lemma listen_respects_port_map_witness :
  try_listen demo_proxy ([] : list Z) demo_listen (Some {[8080 := 80]}) = (- EPERM, []).
Proof.
  exact (listen_respects_port_map demo_proxy ([] : list Z) demo_listen {[8080 := 80]}
    ltac:(discriminate) ltac:(discriminate)).
Defined.
End VsockTcp.
