(* ===== verification/VsockUdp.v ===== *)
(** * The UDP proxy of the vsock muxer ([devices/src/virtio/vsock/udp.rs])

    [UdpProxy] forwards guest datagrams to a host socket; there is no credit
    accounting.  It shares the packet layer, the ring and the [Sockets]
    interface with the TCP proxy. *)

From S2P Require Import Prelude GuestMem VirtQueue DescUtils VsockPacket VsockRxq VsockTcp.
Import VsockPacket VsockRxq VsockTcp.
Import VirtQueue (Queue, pop, undo_pop, add_used).

Module VsockUdp.

Record UdpProxy := mkUdp {
  u_id : Z;
  u_cid : Z;
  u_local_port : Z;
  u_peer_port : Z;
  u_fd : Z;
  u_status : ProxyStatus;
  u_sendto_addr : option (list byte * Z);
  u_listening : bool;
  u_rx_cnt : Z;
  u_tx_cnt : Z;
  u_peer_buf_alloc : Z;
  u_peer_fwd_cnt : Z;
}.

Definition u_set_status (t : UdpProxy) (s : ProxyStatus) : UdpProxy :=
  mkUdp (u_id t) (u_cid t) (u_local_port t) (u_peer_port t) (u_fd t) s (u_sendto_addr t)
    (u_listening t) (u_rx_cnt t) (u_tx_cnt t) (u_peer_buf_alloc t) (u_peer_fwd_cnt t).
Definition u_set_addr (t : UdpProxy) (a : option (list byte * Z)) (l : bool) : UdpProxy :=
  mkUdp (u_id t) (u_cid t) (u_local_port t) (u_peer_port t) (u_fd t) (u_status t) a l
    (u_rx_cnt t) (u_tx_cnt t) (u_peer_buf_alloc t) (u_peer_fwd_cnt t).
Definition u_set_cnt (t : UdpProxy) (rx tx : Z) : UdpProxy :=
  mkUdp (u_id t) (u_cid t) (u_local_port t) (u_peer_port t) (u_fd t) (u_status t) (u_sendto_addr t)
    (u_listening t) rx tx (u_peer_buf_alloc t) (u_peer_fwd_cnt t).
Definition u_set_credit (t : UdpProxy) (alloc fwd : Z) : UdpProxy :=
  mkUdp (u_id t) (u_cid t) (u_local_port t) (u_peer_port t) (u_fd t) (u_status t) (u_sendto_addr t)
    (u_listening t) (u_rx_cnt t) (u_tx_cnt t) alloc fwd.

Section udp.
Context {M W : Type} `{GuestMemory M} `{Sockets W}.
Abbreviation Env := (@Env M).
Abbreviation World := (UdpProxy * Env * W)%type.

Definition udp_new (w : W) (id cid peer_port : Z) : result ProxyError UdpProxy * W :=
  match sys_socket w InetDgram with
  | (Err e, w) => (Err (CreatingSocket e), w)
  | (Ok fd, w) =>
      let w := sys_set_blocking w fd false in
      (Ok (mkUdp id cid 0 peer_port fd Idle None false 0 0 0 0), w)
  end.

Definition init_pkt (t : UdpProxy) (m : M) (p : VsockPacket) : M :=
  set_all m p [(OP, VSOCK_OP_RW); (SRC_CID, u_cid t); (DST_CID, VSOCK_HOST_CID);
    (DST_PORT, u_peer_port t); (SRC_PORT, 0); (TYPE, VSOCK_TYPE_DGRAM);
    (BUF_ALLOC, CONN_TX_BUF_SIZE); (FWD_CNT, u_tx_cnt t)].

Definition udp_recv_to_pkt (t : UdpProxy) (m : M) (w : W) (p : VsockPacket) : RecvPkt * M * W :=
  match p_buf p with
  | Some a =>
      match sys_recv w (u_fd t) (p_buf_size p) with
      | (Ok bs, w) =>
          let m := default m (gm_write m a bs) in
          if 0 <? Zlength bs then (RRead (Zlength bs), m, w) else (RClose, m, w)
      | (Err _, w) => (RError, m, w)
      end
  | None => (RError, m, w)
  end.

(** One round of the receive loop, as in [VsockTcp.recv_one]. *)
Definition udp_recv_one (t : UdpProxy) (e : Env) (w : W) : outcome (round * World) :=
  '(h, vq) ← pop (e_mem e) (e_queue e);
  match h with
  | None => Ret (Drained, (t, mkEnv (e_mem e) vq (e_rxq e), w))
  | Some head =>
      let '(len, wait, t, m, w) :=
        match from_rx_virtq_head (e_mem e) head with
        | Ok p =>
            match udp_recv_to_pkt t (e_mem e) w p with
            | (RWaitForCredit, m, w) => (0, true, t, m, w)
            | (RRead cnt, m, w) =>
                let t := u_set_cnt t (u_rx_cnt t +[32] wrap 32 cnt) (u_tx_cnt t) in
                let m := init_pkt t m p in
                let m := set m p LEN (wrap 32 cnt) in
                (44 + cnt, false, t, m, w)
            | (RClose, m, w) => (0, false, u_set_status t Closed, m, w)
            | (RError, m, w) => (0, false, t, m, w)
            end
        | Err _ => (0, false, t, e_mem e, w)
        end in
      if len =? 0 then Ret (PutBack wait, (t, mkEnv m (undo_pop vq) (e_rxq e), w))
      else
        let '(_, vq, m) := add_used m vq (VirtQueue.index head) (wrap 32 len) in
        Ret (Pushed, (t, mkEnv m vq (e_rxq e), w))
  end.

Fixpoint udp_recv_pkt (fuel : nat) (have_used : bool) (s : World)
    : option (outcome (bool * bool * World)) :=
  match fuel with
  | O => None
  | S fuel =>
      let '(t, e, w) := s in
      match udp_recv_one t e w with
      | Panic => Some Panic
      | Ret (Drained, s) => Some (Ret (have_used, false, s))
      | Ret (PutBack wait, s) => Some (Ret (have_used, wait, s))
      | Ret (Pushed, s) => udp_recv_pkt fuel true s
      end
  end.

Definition udp_push (rx : MuxerRx) (s : World) : outcome World :=
  let '(t, e, w) := s in
  e ← push_packet (u_cid t) rx e; Ret (t, e, w).

Definition udp_connect (p : VsockPacket) (req : TsiConnectReq) (s : World)
    : outcome (ProxyUpdate * World) :=
  let '(t, e, w) := s in
  let m := e_mem e in
  let '(res, t, w) :=
    match sys_connect w (u_fd t) (cr_addr req) (cr_port req) with
    | (Ok _, w) => (0, u_set_status t Connected, w)
    | (Err err, w) => (- err, t, w)
    end in
  let t := u_set_credit t (buf_alloc m p) (fwd_cnt m p) in
  '(t, e, w) ← udp_push (ConnResponse (dst_port m p) (src_port m p) res) (t, e, w);
  Ret (mkUpdate false Keep
         (if (res =? 0) && negb (u_listening t) then Some (u_id t, u_fd t, EV_IN) else None)
         None None None, (t, e, w)).

(** [getpeername(self.fd).unwrap()] *)
Definition udp_getpeername (p : VsockPacket) (s : World) : outcome World :=
  let '(t, e, w) := s in
  let m := e_mem e in
  match sys_getpeername w (u_fd t) with
  | (Ok (a, port), w) =>
      udp_push (GetnameResponse (dst_port m p) (src_port m p)
        {| gr_addr := a; gr_port := port; gr_result := 0 |}) (t, e, w)
  | (Err _, _) => Panic
  end.

Definition udp_sendmsg (p : VsockPacket) (s : World) : outcome (ProxyUpdate * World) :=
  let '(t, e, w) := s in
  match buf (e_mem e) p with
  | Some b =>
      match sys_send w (u_fd t) b with
      | (Ok sent, w) =>
          Ret (update_default, (u_set_cnt t (u_rx_cnt t) (u_tx_cnt t +[32] wrap 32 sent), e, w))
      | (Err _, w) => Ret (update_default, (t, e, w))
      end
  | None => Ret (update_default, (t, e, w))
  end.

(** The request has the shape of a connect request: address and port. *)
Definition udp_sendto_addr (req : TsiConnectReq) (s : World) : outcome (ProxyUpdate * World) :=
  let '(t, e, w) := s in
  let t := u_set_addr t (Some (cr_addr req, cr_port req)) (u_listening t) in
  if negb (u_listening t) then
    match sys_bind w (u_fd t) [0; 0; 0; 0] 0 with
    | (Ok _, w) =>
        let t := u_set_addr t (u_sendto_addr t) true in
        Ret (mkUpdate false Keep (Some (u_id t, u_fd t, EV_IN)) None None None, (t, e, w))
    | (Err _, w) => Ret (update_default, (t, e, w))
    end
  else Ret (update_default, (t, e, w)).

Definition udp_sendto_data (p : VsockPacket) (s : World) : outcome World :=
  let '(t, e, w) := s in
  let m := e_mem e in
  let t := u_set_credit t (buf_alloc m p) (fwd_cnt m p) in
  match u_sendto_addr t, buf m p with
  | Some a, Some b =>
      match sys_sendto w (u_fd t) b a with
      | (Ok sent, w) =>
          Ret (u_set_cnt t (u_rx_cnt t) (u_tx_cnt t +[32] wrap 32 sent), e, w)
      | (Err _, w) => Ret (t, e, w)
      end
  | _, _ => Ret (t, e, w)
  end.

Definition udp_update_peer_credit (p : VsockPacket) (s : World) : ProxyUpdate * World :=
  let '(t, e, w) := s in
  let t := u_set_credit t (buf_alloc (e_mem e) p) (fwd_cnt (e_mem e) p) in
  (mkUpdate false Keep (Some (u_id t, u_fd t, EV_IN)) None None None, (t, e, w)).

Definition udp_release (s : World) : ProxyUpdate * World :=
  (mkUpdate false (if is_status (u_status s.1.1) Listening then Immediate else Deferred)
     None None None None, s).

Definition udp_process_event (fuel : nat) (evset : Z) (s : World)
    : option (outcome (ProxyUpdate * World)) :=
  let '(t, e, w) := s in
  if ev_contains evset EV_HANG_UP then
    Some (Ret (mkUpdate false (if is_status (u_status t) Listening then Immediate else Deferred)
                 None None None None, s))
  else if ev_contains evset EV_IN then
    match udp_recv_pkt fuel false s with
    | None => None
    | Some Panic => Some Panic
    | Some (Ret (signal, wait_credit, (t, e, w))) =>
        let ask := wait_credit && negb (is_status (u_status t) WaitingCreditUpdate) in
        let req := if ask then Some (CreditRequest (u_local_port t) (u_peer_port t) (u_tx_cnt t))
                   else None in
        let t := if ask then u_set_status t WaitingCreditUpdate else t in
        Some (Ret (mkUpdate (signal || wait_credit) Keep
          (if is_status (u_status t) WaitingCreditUpdate then Some (u_id t, u_fd t, EV_EMPTY) else None)
          None None req, (t, e, w)))
    end
  else Some (Ret (update_default, s)).

(** ** Receiving *)

(** [recv(2)] on a datagram socket takes one of the queued datagrams. *)
Context (pending : W -> Z -> nat).
Hypothesis recv_takes : forall w f n bs w',
  sys_recv w f n = (Ok bs, w') -> bs <> [] -> (pending w' f < pending w f)%nat.

Lemma udp_recv_one_takes t e w t' e' w' :
  udp_recv_one t e w = Ret (Pushed, (t', e', w')) ->
  u_fd t' = u_fd t /\ (pending w' (u_fd t) < pending w (u_fd t))%nat.
Proof.
  unfold udp_recv_one. destruct (pop _ _) as [[[head|] vq]|]; [|done..]. cbn [mbind outcome_bind].
  destruct (from_rx_virtq_head _ head) as [p|]; [|done]. unfold udp_recv_to_pkt.
  destruct (p_buf p) as [a|]; [|done].
  destruct (sys_recv w (u_fd t) _) as [[bs|err] w1] eqn:Er; [|done].
  destruct (0 <? Zlength bs) eqn:E; [|done]. zify_bool.
  destruct (44 + Zlength bs =? 0); [done|]. destruct (add_used _ _ _ _) as [[? ?] ?].
  intros [= <- _ <-]. split; [done|]. eapply recv_takes; [done|]. by intros ->.
Qed.

(** The datagram receive loop, which knows no credit, terminates whatever the
    guest memory holds: it makes at most one round more than there are
    datagrams queued on the socket. *)
Theorem udp_recv_terminates fuel hu t e w :
  (pending w (u_fd t) < fuel)%nat -> is_Some (udp_recv_pkt fuel hu (t, e, w)).
Proof.
  revert hu t e w. induction fuel as [|fuel IH]; intros hu t e w Hf; [lia|]. cbn [udp_recv_pkt].
  destruct (udp_recv_one t e w) as [[r [[t1 e1] w1]]|] eqn:E; [|by eexists].
  destruct r; [by eexists..|]. apply udp_recv_one_takes in E as [Hfd Hp]. apply IH. rewrite Hfd. lia.
Qed.
End udp.

(** ** The packet of a datagram *)

Section delivery.
Context {M W : Type} {GM : GuestMemory M} {GML : GuestMemoryLaws M} {S : Sockets W} {SL : SocketLaws W}.

(** A datagram arrives whole or cut to the guest's buffer: the published packet
    carries the bytes received, their number, and the datagram type, and is
    addressed to the guest's port.  Its context ids name the guest as source
    and the host as destination, the reverse of the stream packets of
    [VsockTcp.init_data_pkt]. *)
Theorem datagram_delivered t (e : @Env M) (w : W) head vq p a bs w' :
  pop (e_mem e) (e_queue e) = Ret (Some head, vq) -> from_rx_virtq_head (e_mem e) head = Ok p ->
  mapped (e_mem e) p -> separate p -> p_buf p = Some a -> fits 32 (p_buf_size p) ->
  sys_recv w (u_fd t) (p_buf_size p) = (Ok bs, w') -> bs <> [] ->
  fits 64 (u_cid t) -> fits 32 (u_peer_port t) -> fits 32 (u_tx_cnt t) ->
  exists m1 t', gm_read m1 a (length bs) = Some bs /\ get m1 p LEN = Zlength bs /\
    get m1 p OP = VSOCK_OP_RW /\ get m1 p TYPE = VSOCK_TYPE_DGRAM /\ get m1 p DST_PORT = u_peer_port t /\
    get m1 p SRC_PORT = 0 /\ get m1 p SRC_CID = u_cid t /\ get m1 p DST_CID = VSOCK_HOST_CID /\
    let '(_, vq', m') := add_used m1 vq (VirtQueue.index head) (44 +[32] Zlength bs) in
    udp_recv_one t e w = Ret (Pushed, (t', mkEnv m' vq' (e_rxq e), w')).
Proof.
  intros Hpop Hrx Hm Hs Ha Hsz Hr Hne Hcid Hpp Htx. destruct (recv_bound _ _ _ _ _ Hr) as [Hlen Hb].
  assert (0 < Zlength bs) as Hpos by (destruct bs; [done|cbn; lia]).
  assert (fits 32 (Zlength bs)) as Hf by (unfold fits in *; lia).
  unfold udp_recv_one. rewrite Hpop. cbn [mbind outcome_bind]. rewrite Hrx. unfold udp_recv_to_pkt.
  rewrite Ha, Hr. destruct (0 <? Zlength bs) eqn:E1; zify_bool; [|lia].
  rewrite (wrap_small 32 (Zlength bs)) by done. unfold init_pkt.
  destruct (44 + Zlength bs =? 0) eqn:E2; zify_bool; [lia|].
  lazymatch goal with |- context [set_all ?m p ?l] =>
    destruct (packet_filled (e_mem e) p a bs l) as (_ & Hpay & Hlen' & Hget);
      [try done; try lia..|]; [repeat (apply Forall_cons; split); try done; split; vm_compute; congruence|] end.
  set (m1 := set _ p LEN _) in *. exists m1.
  destruct (add_used m1 vq _ _) as [[r vq'] m'] eqn:Eu. eexists. split_and!; try done.
  all: by apply Hget.
Qed.
End delivery.

(** ** Witnesses: a host with a list of queued datagrams *)

Definition dgram_recv (w : list (list byte)) (n : Z) : result Z (list byte) * list (list byte) :=
  match w with
  | [] => (Err EWOULDBLOCK, [])
  | d :: w => if n <? 0 then (Err EINVAL, w) else (Ok (map (wrap 8) (take (Z.to_nat n) d)), w)
  end.

#[local] Instance dgram_host : Sockets (list (list byte)) := {
  sys_recv w _ n := dgram_recv w n;
  sys_send w _ bs := (Ok (Zlength bs), w);
  sys_connect w _ _ _ := (Ok tt, w);
  sys_bind w _ _ _ := (Ok tt, w);
  sys_listen w _ _ := (Ok tt, w);
  sys_accept w _ := (Err EWOULDBLOCK, w);
  sys_getpeername w _ := (Err EINVAL, w);
  sys_shutdown w _ _ := w;
  sys_socket w _ := (Ok 9, w);
  sys_reuse_port w _ := (Ok tt, w);
  sys_connect_unix w _ _ := (Ok tt, w);
  unix_addr_ok _ := true;
  sys_sendto w _ bs _ := (Ok (Zlength bs), w);
  sys_close w _ := w;
  sys_set_blocking w _ _ := w;
}.

#[local] Instance dgram_host_laws : SocketLaws (list (list byte)).
Proof.
  split.
  - intros w f n bs w'. cbn. unfold dgram_recv. destruct w as [|d w]; [done|]. case_match; [done|].
    intros [= <- _]. zify_bool. rewrite length_map, length_take. split; [lia|].
    apply Forall_map, Forall_true. intros x. by apply wrap_fits.
  - intros w f bs n w' [= <- _]. lia.
Qed.

Definition demo_udp : UdpProxy := mkUdp 1 3 0 1000 9 Idle None false 0 0 0 0.

Lemma udp_recv_terminates_witness :
  is_Some (udp_recv_pkt 3 false (demo_udp, mkEnv ring_mem ring_queue rxq_new, [[1; 2]; [3]])).
Proof.
  apply (udp_recv_terminates (fun w _ => length w)); [|vm_compute; lia].
  intros w f n bs w'. cbn. unfold dgram_recv. destruct w as [|d w]; [done|].
  destruct (n <? 0); [done|]. intros [= _ <-] _. cbn. lia.
Defined.

Lemma datagram_delivered_witness :
  exists m1 t' vq' m', gm_read m1 0x70 2 = Some [1; 2] /\ get m1 demo_pkt TYPE = VSOCK_TYPE_DGRAM /\
    udp_recv_one demo_udp (mkEnv ring_mem ring_queue rxq_new) [[1; 2]; [3]] =
      Ret (Pushed, (t', mkEnv m' vq' rxq_new, [[3]])).
Proof.
  destruct (datagram_delivered demo_udp (mkEnv ring_mem ring_queue rxq_new) [[1; 2]; [3]]
    demo_rx_head (VirtQueue.set_next_avail ring_queue 1) demo_pkt 0x70 [1; 2] [[3]]
    ring_pop ring_packet ring_mapped demo_separate eq_refl)
    as (m1 & t' & Hp & _ & _ & Ht & _ & _ & _ & _ & Hr);
    [split; vm_compute; congruence|reflexivity|discriminate|split; vm_compute; congruence..|].
  destruct (add_used m1 _ _ _) as [[r vq'] m']. exists m1, t', vq', m'.
  split; [exact Hp|]. split; [exact Ht|exact Hr].
Defined.
End VsockUdp.
