(* ===== verification/VsockUnix.v ===== *)
(** * The Unix-socket proxy of the vsock muxer ([devices/src/virtio/vsock/unix.rs])

    [UnixProxy] serves the ports of the IPC port map.  Its struct is the one of
    [TcpProxy] without [parent_id] and [pending_accepts] and with the path of
    the host socket, and the bodies of its flow control, packet and event
    routines are those of [tcp.rs]; they are modelled by lifting the TCP
    definitions along [u_stream].  What differs is written out: construction,
    [connect], and the methods that are [todo!()]. *)

From S2P Require Import Prelude GuestMem VirtQueue DescUtils VsockPacket VsockRxq VsockTcp.
Import VsockPacket VsockRxq VsockTcp.

Module VsockUnix.

Record UnixProxy := mkUnix {
  u_stream : TcpProxy;
  u_path : list byte;
}.

Section unix.
Context {M W : Type} `{GuestMemory M} `{Sockets W}.
Abbreviation Env := (@Env M).
Abbreviation World := (UnixProxy * Env * W)%type.
Abbreviation Stream := (TcpProxy * Env * W)%type.

Definition stream_of (s : World) : Stream := let '(u, e, w) := s in (u_stream u, e, w).

Definition with_stream (path : list byte) (s : Stream) : World :=
  let '(t, e, w) := s in (mkUnix t path, e, w).

(** Lifting of a stream operation. *)
Definition lift_upd {A} (f : Stream -> outcome (A * Stream)) (s : World) : outcome (A * World) :=
  '(a, s') ← f (stream_of s); Ret (a, with_stream (u_path s.1.1) s').

Definition lift_unit (f : Stream -> outcome Stream) (s : World) : outcome World :=
  s' ← f (stream_of s); Ret (with_stream (u_path s.1.1) s').

Definition unix_new (w : W) (id cid local_port control_port : Z) (path : list byte)
    : result ProxyError UnixProxy * W :=
  match sys_socket w UnixStream with
  | (Err e, w) => (Err (CreatingSocket e), w)
  | (Ok fd, w) =>
      let w := sys_set_blocking w fd false in
      match sys_reuse_port w fd with
      | (Err e, w) => (Err (SettingReusePort e), w)
      | (Ok _, w) => (Ok (mkUnix (idle id cid local_port 0 control_port fd) path), w)
      end
  end.

(** [connect] ignores its arguments; [UnixAddr::new(&self.path).unwrap()]. *)
Definition unix_connect (s : World) : outcome (ProxyUpdate * World) :=
  if negb (unix_addr_ok (u_path s.1.1)) then Panic
  else
    lift_upd (fun '(t, e, w) =>
      let '(result, (t, e, w)) :=
        match sys_connect_unix w (fd t) (u_path s.1.1) with
        | (Ok _, w) => (0, switch_to_connected (t, e, w))
        | (Err err, w) =>
            if err =? EINPROGRESS then (0, (set_status t Connecting, e, w)) else (- err, (t, e, w))
        end in
      if is_status (status t) Connecting then
        Ret (mkUpdate false Keep (Some (id t, fd t, EV_IN .| EV_OUT)) None None None, (t, e, w))
      else
        let update := mkUpdate false Keep
          (if is_status (status t) Connected then Some (id t, fd t, EV_IN) else None) None None None in
        s ← push_connect_rsp result (t, e, w);
        Ret (update, s)) s.

Definition unix_confirm_connect (p : VsockPacket) : World -> outcome World :=
  lift_unit (confirm_connect p).

Definition unix_sendmsg (p : VsockPacket) : World -> outcome (ProxyUpdate * World) :=
  lift_upd (sendmsg p).

Definition unix_update_peer_credit (p : VsockPacket) : World -> outcome (ProxyUpdate * World) :=
  lift_upd (fun s => Ret (update_peer_credit p s)).

Definition unix_shutdown (p : VsockPacket) : World -> outcome World :=
  lift_unit (fun s => Ret (shutdown p s)).

Definition unix_release : World -> outcome (ProxyUpdate * World) :=
  lift_upd (fun s => Ret (release s)).

Definition unix_process_event (fuel : nat) (evset : Z) (s : World)
    : option (outcome (ProxyUpdate * World)) :=
  match process_event fuel evset (stream_of s) with
  | None => None
  | Some o => Some ('(u, s') ← o; Ret (u, with_stream (u_path s.1.1) s'))
  end.

(** [getpeername], [sendto_addr], [listen], [accept], [push_op_request],
    [process_op_response], [enqueue_accept] are [todo!()]. *)
Definition todo {A} : World -> outcome A := fun _ => Panic.
End unix.
End VsockUnix.
