(* ===== verification/VsockProxy.v ===== *)
(** * The [Proxy] trait of the vsock muxer ([devices/src/virtio/vsock/proxy.rs])

    [ProxyOps] is the trait, with one instance per implementation and one for
    [Box<dyn Proxy>], which dispatches.  [ProxyLaws] is what the muxer relies
    on; each instance discharges it. *)

From S2P Require Import Prelude GuestMem VirtQueue DescUtils VsockPacket VsockRxq VsockTcp.
From S2P Require Import VsockUdp VsockUnix.
Import VsockPacket VsockRxq VsockTcp.

Module VsockProxy.
Import VsockUdp VsockUnix.

Section proxies.
Context {M W : Type} `{GuestMemory M} `{Sockets W}.
Abbreviation Env := (@Env M).
Abbreviation World P := (P * Env * W)%type.

Class ProxyOps (P : Type) := {
  p_id : P -> Z;
  p_status : P -> ProxyStatus;
  p_fd : P -> Z;
  p_connect : VsockPacket -> TsiConnectReq -> World P -> outcome (ProxyUpdate * World P);
  p_confirm_connect : VsockPacket -> World P -> outcome (World P);
  p_getpeername : VsockPacket -> World P -> outcome (World P);
  p_sendmsg : VsockPacket -> World P -> outcome (ProxyUpdate * World P);
  p_sendto_addr : TsiConnectReq -> World P -> outcome (ProxyUpdate * World P);
  p_sendto_data : VsockPacket -> World P -> outcome (World P);
  p_listen : VsockPacket -> TsiListenReq -> option (gmap Z Z) -> World P ->
    outcome (ProxyUpdate * World P);
  p_accept : TsiAcceptReq -> World P -> outcome (ProxyUpdate * World P);
  p_update_peer_credit : VsockPacket -> World P -> outcome (ProxyUpdate * World P);
  p_push_op_request : World P -> outcome (World P);
  p_process_op_response : VsockPacket -> World P -> outcome (ProxyUpdate * World P);
  p_enqueue_accept : World P -> outcome (World P);
  p_shutdown : VsockPacket -> World P -> outcome (World P);
  p_release : World P -> outcome (ProxyUpdate * World P);
  p_process_event : nat -> Z -> World P -> option (outcome (ProxyUpdate * World P));
}.

(** [sendto_addr] of the TCP proxy and the trait's default methods do nothing. *)
#[export] Instance tcp_proxy : ProxyOps TcpProxy := {
  p_id := id;
  p_status := status;
  p_fd := fd;
  p_connect _ := connect;
  p_confirm_connect := confirm_connect;
  p_getpeername := getpeername;
  p_sendmsg := sendmsg;
  p_sendto_addr _ s := Ret (update_default, s);
  p_sendto_data _ s := Ret s;
  p_listen := listen;
  p_accept := accept;
  p_update_peer_credit p s := Ret (update_peer_credit p s);
  p_push_op_request := push_op_request;
  p_process_op_response p s := Ret (process_op_response p s);
  p_enqueue_accept := enqueue_accept;
  p_shutdown p s := Ret (shutdown p s);
  p_release s := Ret (release s);
  p_process_event := process_event;
}.

#[export] Instance udp_proxy : ProxyOps UdpProxy := {
  p_id := u_id;
  p_status := u_status;
  p_fd := u_fd;
  p_connect := udp_connect;
  p_confirm_connect _ s := Ret s;
  p_getpeername := udp_getpeername;
  p_sendmsg := udp_sendmsg;
  p_sendto_addr := udp_sendto_addr;
  p_sendto_data := udp_sendto_data;
  p_listen _ _ _ s := Ret (update_default, s);
  p_accept _ s := Ret (update_default, s);
  p_update_peer_credit p s := Ret (udp_update_peer_credit p s);
  p_push_op_request s := Ret s;
  p_process_op_response _ s := Ret (update_default, s);
  p_enqueue_accept s := Ret s;
  p_shutdown _ s := Ret s;
  p_release s := Ret (udp_release s);
  p_process_event := udp_process_event;
}.

#[export] Instance unix_proxy : ProxyOps UnixProxy := {
  p_id u := id (u_stream u);
  p_status u := status (u_stream u);
  p_fd u := fd (u_stream u);
  p_connect _ _ := unix_connect;
  p_confirm_connect := unix_confirm_connect;
  p_getpeername _ := todo;
  p_sendmsg := unix_sendmsg;
  p_sendto_addr _ := todo;
  p_sendto_data _ s := Ret s;
  p_listen _ _ _ := todo;
  p_accept _ := todo;
  p_update_peer_credit := unix_update_peer_credit;
  p_push_op_request := todo;
  p_process_op_response _ := todo;
  p_enqueue_accept := todo;
  p_shutdown := unix_shutdown;
  p_release := unix_release;
  p_process_event := unix_process_event;
}.

(** [Box<dyn Proxy>] *)
Inductive DynProxy := PTcp (t : TcpProxy) | PUdp (t : UdpProxy) | PUnix (t : UnixProxy).

Definition box {P} (k : P -> DynProxy) (s : World P) : World DynProxy :=
  let '(t, e, w) := s in (k t, e, w).

Definition on_dyn (f : forall P, ProxyOps P -> World P -> outcome (World P))
    (s : World DynProxy) : outcome (World DynProxy) :=
  let '(d, e, w) := s in
  match d with
  | PTcp t => s ← f _ tcp_proxy (t, e, w); Ret (box PTcp s)
  | PUdp t => s ← f _ udp_proxy (t, e, w); Ret (box PUdp s)
  | PUnix t => s ← f _ unix_proxy (t, e, w); Ret (box PUnix s)
  end.

Definition on_dyn_upd (f : forall P, ProxyOps P -> World P -> outcome (ProxyUpdate * World P))
    (s : World DynProxy) : outcome (ProxyUpdate * World DynProxy) :=
  let '(d, e, w) := s in
  match d with
  | PTcp t => '(u, s) ← f _ tcp_proxy (t, e, w); Ret (u, box PTcp s)
  | PUdp t => '(u, s) ← f _ udp_proxy (t, e, w); Ret (u, box PUdp s)
  | PUnix t => '(u, s) ← f _ unix_proxy (t, e, w); Ret (u, box PUnix s)
  end.

Definition on_dyn_event (fuel : nat) (evset : Z) (s : World DynProxy)
    : option (outcome (ProxyUpdate * World DynProxy)) :=
  let '(d, e, w) := s in
  let run {P} (k : P -> DynProxy) (o : option (outcome (ProxyUpdate * World P))) :=
    match o with
    | None => None
    | Some o => Some ('(u, s) ← o; Ret (u, box k s))
    end in
  match d with
  | PTcp t => run PTcp (p_process_event fuel evset (t, e, w))
  | PUdp t => run PUdp (p_process_event fuel evset (t, e, w))
  | PUnix t => run PUnix (p_process_event fuel evset (t, e, w))
  end.

Definition on_view {A} (f : forall P, ProxyOps P -> P -> A) (d : DynProxy) : A :=
  match d with
  | PTcp t => f _ tcp_proxy t
  | PUdp t => f _ udp_proxy t
  | PUnix t => f _ unix_proxy t
  end.

#[export] Instance dyn_proxy : ProxyOps DynProxy := {
  p_id := on_view (@p_id);
  p_status := on_view (@p_status);
  p_fd := on_view (@p_fd);
  p_connect p r := on_dyn_upd (fun P H => @p_connect P H p r);
  p_confirm_connect p := on_dyn (fun P H => @p_confirm_connect P H p);
  p_getpeername p := on_dyn (fun P H => @p_getpeername P H p);
  p_sendmsg p := on_dyn_upd (fun P H => @p_sendmsg P H p);
  p_sendto_addr r := on_dyn_upd (fun P H => @p_sendto_addr P H r);
  p_sendto_data p := on_dyn (fun P H => @p_sendto_data P H p);
  p_listen p r m := on_dyn_upd (fun P H => @p_listen P H p r m);
  p_accept r := on_dyn_upd (fun P H => @p_accept P H r);
  p_update_peer_credit p := on_dyn_upd (fun P H => @p_update_peer_credit P H p);
  p_push_op_request := on_dyn (fun P H => @p_push_op_request P H);
  p_process_op_response p := on_dyn_upd (fun P H => @p_process_op_response P H p);
  p_enqueue_accept := on_dyn (fun P H => @p_enqueue_accept P H);
  p_shutdown p := on_dyn (fun P H => @p_shutdown P H p);
  p_release := on_dyn_upd (fun P H => @p_release P H);
  p_process_event := on_dyn_event;
}.

(** ** What the muxer relies on *)

Definition same_proxy {P} `{ProxyOps P} (p p' : P) : Prop :=
  p_id p' = p_id p /\ p_fd p' = p_fd p.

(** The update asks to poll only the proxy's own descriptor, under its own id. *)
Definition polls_self {P} `{ProxyOps P} (p : P) (u : ProxyUpdate) : Prop :=
  forall i f ev, polling u = Some (i, f, ev) -> i = p_id p /\ f = p_fd p.

(** An update that keeps the proxy and creates none. *)
Definition plain {P} `{ProxyOps P} (p : P) (u : ProxyUpdate) (p' : P) : Prop :=
  same_proxy p p' /\ remove_proxy u = Keep /\ new_proxy u = None /\ polls_self p u.

Class ProxyLaws (P : Type) `{ProxyOps P} : Prop := {
  law_connect p r s u s' : p_connect p r s = Ret (u, s') -> plain s.1.1 u s'.1.1;
  law_confirm p s s' : p_confirm_connect p s = Ret s' -> same_proxy s.1.1 s'.1.1;
  law_getpeername p s s' : p_getpeername p s = Ret s' -> same_proxy s.1.1 s'.1.1;
  law_sendmsg p s u s' : p_sendmsg p s = Ret (u, s') -> plain s.1.1 u s'.1.1;
  law_sendto_addr r s u s' : p_sendto_addr r s = Ret (u, s') -> plain s.1.1 u s'.1.1;
  law_sendto_data p s s' : p_sendto_data p s = Ret s' -> same_proxy s.1.1 s'.1.1;
  law_listen p r m s u s' : p_listen p r m s = Ret (u, s') -> plain s.1.1 u s'.1.1;
  law_accept r s u s' : p_accept r s = Ret (u, s') -> plain s.1.1 u s'.1.1;
  law_credit p s u s' : p_update_peer_credit p s = Ret (u, s') -> plain s.1.1 u s'.1.1;
  law_op_request s s' : p_push_op_request s = Ret s' -> same_proxy s.1.1 s'.1.1;
  law_op_response p s u s' : p_process_op_response p s = Ret (u, s') -> plain s.1.1 u s'.1.1;
  law_enqueue s s' : p_enqueue_accept s = Ret s' -> same_proxy s.1.1 s'.1.1;
  law_shutdown p s s' : p_shutdown p s = Ret s' -> same_proxy s.1.1 s'.1.1;
  law_release s : exists u, p_release s = Ret (u, s) /\ polling u = None /\ new_proxy u = None /\
    signal_queue u = false /\
    remove_proxy u = if is_status (p_status s.1.1) Listening then Immediate else Deferred;
  law_event n ev s u s' : p_process_event n ev s = Some (Ret (u, s')) ->
    same_proxy s.1.1 s'.1.1 /\ polls_self s.1.1 u;
}.

(** Case analysis of an operation down to its results. *)
Ltac run_proxy :=
  repeat (match goal with
          | H : Ret _ = Ret _ |- _ => injection H as ?; subst
          | H : Some _ = Some _ |- _ => injection H as ?; subst
          | H : Panic = Ret _ |- _ => discriminate H
          | H : Some Panic = Some (Ret _) |- _ => discriminate H
          | H : None = Some _ |- _ => discriminate H
          | H : context [match ?x with _ => _ end] |- _ => destruct x eqn:?
          | H : context [?o ≫= _] |- _ => destruct o eqn:?; cbn [mbind outcome_bind] in H
          end; cbn [mbind outcome_bind] in *; simplify_eq/=).


Ltac split_worlds :=
  repeat match goal with s : (_ * _ * _)%type |- _ => destruct s as [[? ?] ?] end.

(** [solve_law]: after unfolding, every branch of an operation satisfies its
    law by computation. *)
Ltac solve_law :=
  intros; split_worlds; unfold plain, same_proxy, polls_self in *; run_proxy;
  cbn - [Z.land Z.lor] in *; split_and?; intros; run_proxy; naive_solver.

Lemma recv_pkt_same fuel hu s hu' wait s' :
  recv_pkt fuel hu s = Some (Ret (hu', wait, s')) -> same_proxy s.1.1 s'.1.1.
Proof.
  revert hu s. induction fuel as [|fuel IH]; intros hu [[t e] w] Hr; [done|]. cbn [recv_pkt] in Hr.
  destruct (recv_one t e w) as [[r [[t1 e1] w1]]|] eqn:E; [|done].
  assert (same_proxy t t1) as Hs.
  { unfold recv_one, set_rx, set_status in E. clear IH Hr. solve_law. }
  destruct r; simplify_eq/=; [done..|]. apply IH in Hr. unfold same_proxy in *. cbn in *. intuition congruence.
Qed.

Lemma udp_recv_pkt_same fuel hu s hu' wait s' :
  udp_recv_pkt fuel hu s = Some (Ret (hu', wait, s')) -> same_proxy s.1.1 s'.1.1.
Proof.
  revert hu s. induction fuel as [|fuel IH]; intros hu [[t e] w] Hr; [done|]. cbn [udp_recv_pkt] in Hr.
  destruct (udp_recv_one t e w) as [[r [[t1 e1] w1]]|] eqn:E; [|done].
  assert (same_proxy t t1) as Hs.
  { unfold udp_recv_one, u_set_cnt, u_set_status in E. clear IH Hr. solve_law. }
  destruct r; simplify_eq/=; [done..|]. apply IH in Hr. unfold same_proxy in *. cbn in *. intuition congruence.
Qed.

Lemma tcp_event_law n ev (s s' : World TcpProxy) u :
  process_event n ev s = Some (Ret (u, s')) -> same_proxy s.1.1 s'.1.1 /\ polls_self s.1.1 u.
Proof.
  destruct s as [[t e] w]. unfold process_event, process_in_connected, process_out,
    switch_to_connected, push_reset, push_connect_rsp, push. intros Hr.
  run_proxy; try match goal with H : recv_pkt _ _ _ = _ |- _ => apply recv_pkt_same in H end;
    solve_law.
Qed.

#[export] Instance tcp_proxy_laws : ProxyLaws TcpProxy.
Proof.
  split; cbn - [Z.land Z.lor]; unfold connect, confirm_connect, getpeername, sendmsg, listen, accept,
    update_peer_credit, push_op_request, process_op_response, enqueue_accept, shutdown, release,
    switch_to_connected, push_connect_rsp, push_accept_rsp, push.
  14: by eexists.
  14: intros *; apply tcp_event_law.
  all: solve_law.
Qed.

Lemma udp_event_law n ev (s s' : World UdpProxy) u :
  udp_process_event n ev s = Some (Ret (u, s')) -> same_proxy s.1.1 s'.1.1 /\ polls_self s.1.1 u.
Proof.
  destruct s as [[t e] w]. unfold udp_process_event. intros Hr.
  run_proxy; try match goal with H : udp_recv_pkt _ _ _ = _ |- _ => apply udp_recv_pkt_same in H end;
    try destruct (_ && negb _); solve_law.
Qed.

#[export] Instance udp_proxy_laws : ProxyLaws UdpProxy.
Proof.
  split; cbn - [Z.land Z.lor]; unfold udp_connect, udp_getpeername, udp_sendmsg, udp_sendto_addr,
    udp_sendto_data, udp_update_peer_credit, udp_release, udp_push.
  14: by eexists.
  14: intros *; apply udp_event_law.
  all: solve_law.
Qed.

Lemma unix_connect_law s u s' : unix_connect s = Ret (u, s') -> plain s.1.1 u s'.1.1.
Proof.
  unfold unix_connect, lift_upd, switch_to_connected, push_connect_rsp, push. 
  destruct s as [[[t pth] e] w]. cbn. solve_law.
Qed.

(** A lifted stream operation inherits the law of the TCP proxy. *)
Lemma lift_upd_law f (s s' : World UnixProxy) u :
  (forall st u st', f st = Ret (u, st') -> plain st.1.1 u st'.1.1) ->
  lift_upd f s = Ret (u, s') -> plain s.1.1 u s'.1.1.
Proof.
  intros Hf. destruct s as [[[t pth] e] w]. unfold lift_upd; cbn.
  destruct (f (t, e, w)) as [[v [[t1 e1] w1]]|] eqn:E; [|done]. cbn. intros [= <- <-].
  by apply Hf in E.
Qed.

Lemma lift_unit_law f (s s' : World UnixProxy) :
  (forall st st', f st = Ret st' -> same_proxy st.1.1 st'.1.1) ->
  lift_unit f s = Ret s' -> same_proxy s.1.1 s'.1.1.
Proof.
  intros Hf. destruct s as [[[t pth] e] w]. unfold lift_unit; cbn.
  destruct (f (t, e, w)) as [[[t1 e1] w1]|] eqn:E; [|done]. cbn. intros [= <-].
  by apply Hf in E.
Qed.

#[export] Instance unix_proxy_laws : ProxyLaws UnixProxy.
Proof.
  split; try (cbn; done); intros *.
  - apply unix_connect_law.
  - apply lift_unit_law, tcp_proxy_laws.
  - apply lift_upd_law, tcp_proxy_laws.
  - solve_law.
  - apply lift_upd_law, tcp_proxy_laws.
  - apply lift_unit_law, tcp_proxy_laws.
  - destruct s as [[[t pth] e] w]. by eexists.
  - destruct s as [[[t pth] e] w]. cbn [p_process_event unix_proxy]. unfold unix_process_event. cbn [stream_of u_stream].
    destruct (process_event n ev (t, e, w)) as [[[v [[t1 e1] w1]]|]|] eqn:E; [|by cbn..].
    cbn. intros [= <- <-]. by apply tcp_event_law in E.
Qed.

(** Dispatch preserves every law the three implementations share. *)
Lemma on_dyn_law (f : forall P, ProxyOps P -> World P -> outcome (World P)) s s' :
  (forall st st', f _ tcp_proxy st = Ret st' -> same_proxy st.1.1 st'.1.1) ->
  (forall st st', f _ udp_proxy st = Ret st' -> same_proxy st.1.1 st'.1.1) ->
  (forall st st', f _ unix_proxy st = Ret st' -> same_proxy st.1.1 st'.1.1) ->
  on_dyn f s = Ret s' -> same_proxy s.1.1 s'.1.1.
Proof.
  intros H1 H2 H3. destruct s as [[d e] w]. unfold on_dyn.
  destruct d as [t|t|t]; destruct (f _ _ (t, e, w)) as [[[t1 e1] w1]|] eqn:E; try done;
    cbn; intros [= <-]; [by apply H1 in E|by apply H2 in E|by apply H3 in E].
Qed.

Lemma on_dyn_upd_law (f : forall P, ProxyOps P -> World P -> outcome (ProxyUpdate * World P)) s u s' :
  (forall st u st', f _ tcp_proxy st = Ret (u, st') -> plain st.1.1 u st'.1.1) ->
  (forall st u st', f _ udp_proxy st = Ret (u, st') -> plain st.1.1 u st'.1.1) ->
  (forall st u st', f _ unix_proxy st = Ret (u, st') -> plain st.1.1 u st'.1.1) ->
  on_dyn_upd f s = Ret (u, s') -> plain s.1.1 u s'.1.1.
Proof.
  intros H1 H2 H3. destruct s as [[d e] w]. unfold on_dyn_upd.
  destruct d as [t|t|t]; destruct (f _ _ (t, e, w)) as [[v [[t1 e1] w1]]|] eqn:E; try done;
    cbn; intros [= <- <-]; [by apply H1 in E|by apply H2 in E|by apply H3 in E].
Qed.

Lemma dyn_event_law n ev (s s' : World DynProxy) u :
  on_dyn_event n ev s = Some (Ret (u, s')) -> same_proxy s.1.1 s'.1.1 /\ polls_self s.1.1 u.
Proof.
  destruct s as [[d e] w]. unfold on_dyn_event.
  destruct d as [t|t|t]; destruct (p_process_event n ev (t, e, w)) as [[[v [[t1 e1] w1]]|]|] eqn:E;
    try done; cbn; intros [= <- <-]; by apply law_event in E.
Qed.

#[export] Instance dyn_proxy_laws : ProxyLaws DynProxy.
Proof.
  split; cbn [p_connect p_confirm_connect p_getpeername p_sendmsg p_sendto_addr p_sendto_data p_listen
    p_accept p_update_peer_credit p_push_op_request p_process_op_response p_enqueue_accept p_shutdown
    p_process_event dyn_proxy]; intros.
  14: { destruct s as [[[t|t|t] e] w]; cbn; [by eexists..|].
        destruct t. by eexists. }
  14: by eapply dyn_event_law.
  all: first [eapply on_dyn_law | eapply on_dyn_upd_law]; try eassumption; cbv beta; intros;
    lazymatch goal with
    | E : p_connect _ _ _ = _ |- _ => exact (law_connect _ _ _ _ _ E)
    | E : p_confirm_connect _ _ = _ |- _ => exact (law_confirm _ _ _ E)
    | E : p_getpeername _ _ = _ |- _ => exact (law_getpeername _ _ _ E)
    | E : p_sendmsg _ _ = _ |- _ => exact (law_sendmsg _ _ _ _ E)
    | E : p_sendto_addr _ _ = _ |- _ => exact (law_sendto_addr _ _ _ _ E)
    | E : p_sendto_data _ _ = _ |- _ => exact (law_sendto_data _ _ _ E)
    | E : p_listen _ _ _ _ = _ |- _ => exact (law_listen _ _ _ _ _ _ E)
    | E : p_accept _ _ = _ |- _ => exact (law_accept _ _ _ _ E)
    | E : p_update_peer_credit _ _ = _ |- _ => exact (law_credit _ _ _ _ E)
    | E : p_push_op_request _ = _ |- _ => exact (law_op_request _ _ E)
    | E : p_process_op_response _ _ = _ |- _ => exact (law_op_response _ _ _ _ E)
    | E : p_enqueue_accept _ = _ |- _ => exact (law_enqueue _ _ E)
    | E : p_shutdown _ _ = _ |- _ => exact (law_shutdown _ _ _ E)
    end.
Qed.
End proxies.
End VsockProxy.
