(* ===== verification/Reaper.v ===== *)
(** * Delayed removal of released proxies ([devices/src/virtio/vsock/reaper.rs])

    The reaper receives ids of released proxies and removes each from the
    shared proxy map five seconds later.  Instants and durations are
    nanoseconds; [duration_since] saturates at zero.  [Duration::MAX] as a
    timeout is [None]: wait until the next message. *)

From S2P Require Import Prelude.

Module Reaper.

Definition TIMEOUT : Z := 5 * 1000000000.

Section reaper.
Context {P : Type}.

Record ReaperThread := mkReaper {
  proxies : gmap Z P;
  released_map : gmap Z Z;
}.

Definition reaper_new (pm : gmap Z P) : ReaperThread := mkReaper pm ∅.

Definition elapsed (now t : Z) : Z := Z.max 0 (now - t).

(** The loop over [released_map]: the expired ids and the highest age among
    the others. *)
Definition scan_step (now : Z) (acc : list Z * Z) (entry : Z * Z) : list Z * Z :=
  let '(expired, highest) := acc in
  let '(id, t) := entry in
  if TIMEOUT <=? elapsed now t then (expired ++ [id], highest)
  else (expired, if highest <? elapsed now t then elapsed now t else highest).

Definition scan (now : Z) (l : list (Z * Z)) : list Z * Z := foldl (scan_step now) ([], 0) l.

Definition remove_all {V} (ids : list Z) (m : gmap Z V) : gmap Z V :=
  foldl (fun m id => delete id m) m ids.

Definition check_expiration (now : Z) (r : ReaperThread) : outcome (option Z * ReaperThread) :=
  let '(expired, highest) := scan now (map_to_list (released_map r)) in
  let r := match expired with
           | [] => r
           | _ => mkReaper (remove_all expired (proxies r)) (remove_all expired (released_map r))
           end in
  if 0 <? highest then
    let timeout := TIMEOUT - highest in
    if 0 <? timeout then Ret (Some timeout, r) else Panic
  else Ret (None, r).

(** One round of [work]: [msg] is the id received within the timeout, if any,
    with the instant it is recorded at. *)
Definition work_round (now : Z) (msg : option (Z * Z)) (r : ReaperThread)
    : outcome (option Z * ReaperThread) :=
  '(timeout, r) ← check_expiration now r;
  match msg with
  | Some (id, t) => Ret (timeout, mkReaper (proxies r) (<[id := t]> (released_map r)))
  | None => Ret (timeout, r)
  end.

Lemma remove_all_lookup {V} ids (m : gmap Z V) k :
  remove_all ids m !! k = if bool_decide (k ∈ ids) then None else m !! k.
Proof.
  revert m. induction ids as [|i ids IH]; intros m; [done|]. cbn [remove_all foldl].
  unfold remove_all in IH. rewrite IH.
  destruct (decide (k = i)) as [->|Hne].
  - rewrite lookup_delete_eq, (bool_decide_true (i ∈ i :: ids)) by set_solver. by case_match.
  - rewrite lookup_delete_ne by done. by rewrite (bool_decide_ext (k ∈ i :: ids) (k ∈ ids)) by set_solver.
Qed.

(** What the scan finds, for any starting point of the fold. *)
Lemma scan_from_spec now l acc h expired highest :
  0 <= h < TIMEOUT -> foldl (scan_step now) (acc, h) l = (expired, highest) ->
  (forall k, k ∈ expired <-> k ∈ acc \/ exists t, (k, t) ∈ l /\ TIMEOUT <= elapsed now t) /\
  h <= highest < TIMEOUT /\
  (forall k t, (k, t) ∈ l -> elapsed now t < TIMEOUT -> elapsed now t <= highest) /\
  (highest = h \/ exists k t, (k, t) ∈ l /\ elapsed now t = highest).
Proof.
  revert acc h. induction l as [|[id t] l IH]; intros acc h Hh; cbn [foldl].
  { intros [= <- <-]. split_and!; [set_solver|lia|lia|set_solver|by left]. }
  unfold scan_step at 2. destruct (TIMEOUT <=? elapsed now t) eqn:E; zify_bool.
  - intros (H1 & H2 & H3 & H4)%IH; [|done]. split_and!; [|lia|lia|..].
    + intros k. rewrite H1, elem_of_app, list_elem_of_singleton. setoid_rewrite elem_of_cons. naive_solver.
    + intros k t' [[= -> ->]|Hin]%elem_of_cons Hlt; [lia|by eapply H3].
    + destruct H4 as [?|(k & t' & ? & ?)]; [by left|right; exists k, t'; set_solver].
  - assert (0 <= (if h <? elapsed now t then elapsed now t else h) < TIMEOUT) as Hh'.
    { unfold elapsed in *. case_match; zify_bool; lia. }
    intros (H1 & H2 & H3 & H4)%IH; [|done]. split_and!; [|case_match; zify_bool; lia|lia|..].
    + intros k. rewrite H1. setoid_rewrite elem_of_cons. split; [naive_solver|].
      intros [?|(t' & [[= -> ->]|?] & ?)]; [by left|lia|right; eauto].
    + intros k t' [[= -> ->]|Hin]%elem_of_cons Hlt; [case_match; zify_bool; lia|by eapply H3].
    + destruct H4 as [->|(k & t' & ? & ?)]; [|right; exists k, t'; set_solver].
      destruct (h <? elapsed now t) eqn:?; [right; exists id, t; set_solver|by left].
Qed.

Lemma scan_spec now (released : gmap Z Z) expired highest :
  scan now (map_to_list released) = (expired, highest) ->
  0 <= highest < TIMEOUT /\
  (forall k, bool_decide (k ∈ expired) =
     match released !! k with Some t => TIMEOUT <=? elapsed now t | None => false end) /\
  (forall k t, released !! k = Some t -> elapsed now t < TIMEOUT -> elapsed now t <= highest) /\
  (highest = 0 \/ exists k t, released !! k = Some t /\ elapsed now t = highest).
Proof.
  intros Hs. apply scan_from_spec in Hs as (Hex & Hhi & Hmax & Hwit); [|unfold TIMEOUT; lia].
  setoid_rewrite elem_of_map_to_list in Hmax. setoid_rewrite elem_of_map_to_list in Hwit.
  setoid_rewrite elem_of_map_to_list in Hex. split_and!; [lia|lia| |done|done].
  intros k. destruct (released !! k) as [t|] eqn:Ek.
  - destruct (TIMEOUT <=? elapsed now t) eqn:E; zify_bool.
    + apply bool_decide_eq_true, Hex. right. by exists t.
    + apply bool_decide_eq_false. rewrite Hex. intros [?%not_elem_of_nil|(t' & Ht & ?)]; [done|].
      assert (t' = t) by congruence. subst. lia.
  - apply bool_decide_eq_false. rewrite Hex. intros [?%not_elem_of_nil|(t' & Ht & ?)]; congruence.
Qed.

(** Reaping is exact and never panics: exactly the ids released at least five
    seconds ago leave both maps.  The timeout returned is when the next one is
    due: positive, after it some remaining id is five seconds old and before it
    none is. *)
Theorem reap_exact now r :
  exists timeout r', check_expiration now r = Ret (timeout, r') /\
    (forall k, proxies r' !! k =
       match released_map r !! k with
       | Some t => if TIMEOUT <=? elapsed now t then None else proxies r !! k
       | None => proxies r !! k
       end) /\
    (forall k, released_map r' !! k =
       match released_map r !! k with
       | Some t => if TIMEOUT <=? elapsed now t then None else Some t
       | None => None
       end) /\
    (forall d, timeout = Some d -> 0 < d /\
       (exists k t, released_map r' !! k = Some t /\ TIMEOUT <= elapsed (now + d) t) /\
       (forall k t d', released_map r' !! k = Some t -> t <= now -> 0 <= d' < d ->
          elapsed (now + d') t < TIMEOUT)).
Proof.
  unfold check_expiration. destruct (scan now _) as [expired highest] eqn:Hs.
  apply scan_spec in Hs as (Hhi & Hb & Hmax & Hwit).
  set (r' := match expired with [] => r | _ => _ end).
  assert (forall k, proxies r' !! k = if bool_decide (k ∈ expired) then None else proxies r !! k) as Hp.
  { intros k. unfold r'. destruct expired; [done|]. apply remove_all_lookup. }
  assert (forall k, released_map r' !! k = if bool_decide (k ∈ expired) then None else released_map r !! k) as Hr.
  { intros k. unfold r'. destruct expired; [done|]. apply remove_all_lookup. }
  setoid_rewrite Hb in Hp. setoid_rewrite Hb in Hr. clearbody r'.
  exists (if 0 <? highest then Some (TIMEOUT - highest) else None), r'. split_and!.
  - destruct (0 <? highest); [|done]. by destruct (0 <? TIMEOUT - highest) eqn:?; zify_bool; [|lia].
  - intros k. rewrite Hp. by destruct (released_map r !! k).
  - intros k. rewrite Hr. by destruct (released_map r !! k).
  - intros d Hd. destruct (0 <? highest) eqn:E; [|done]. injection Hd as <-. zify_bool.
    split; [lia|]. split.
    + destruct Hwit as [?|(k & t & Hin & Hel)]; [lia|]. exists k, t. rewrite Hr, Hin.
      destruct (TIMEOUT <=? elapsed now t) eqn:?; zify_bool; [lia|].
      split; [done|]. unfold elapsed in *. lia.
    + intros k t d' Hk Ht Hd'. rewrite Hr in Hk. destruct (released_map r !! k) as [t'|] eqn:Ek; [|done].
      destruct (TIMEOUT <=? elapsed now t') eqn:?; [done|]. injection Hk as ->. zify_bool.
      pose proof (Hmax k t Ek ltac:(lia)). unfold elapsed in *. lia.
Qed.

(** A release recorded at the very instant of the next check has age zero: the
    timeout is then infinite and the proxy stays until another one is
    released. *)
Lemma fresh_release_waits_forever now id pm :
  check_expiration now (mkReaper pm {[id := now]}) = Ret (None, mkReaper pm {[id := now]}).
Proof.
  unfold check_expiration. cbn [released_map]. rewrite map_to_list_singleton. cbn. unfold elapsed. by rewrite Z.sub_diag.
Qed.

(** The reaper removes whatever is stored under a released id, also a proxy
    created under the same id in the meantime. *)
Lemma reused_id_reaped now id pm (d : P) t :
  TIMEOUT <= now - t -> exists timeout r',
    check_expiration now (mkReaper (<[id := d]> pm) {[id := t]}) = Ret (timeout, r') /\
    proxies r' !! id = None.
Proof.
  intros Ht. unfold check_expiration. cbn [released_map]. rewrite map_to_list_singleton. cbn [scan foldl scan_step].
  unfold scan. cbn. unfold elapsed. destruct (TIMEOUT <=? Z.max 0 (now - t)) eqn:E; zify_bool; [|lia].
  do 2 eexists. split; [done|]. cbn. by rewrite lookup_delete_eq.
Qed.
End reaper.
End Reaper.
