(* ===== verification/VsockMuxer.v ===== *)
(** * The vsock muxer ([devices/src/virtio/vsock/muxer.rs], [muxer_thread.rs])

    [VsockMuxer] routes guest packets to proxies by the pair of ports;
    [MuxerThread] routes host socket events to them.  Both share the proxy map
    under an [RwLock].  The lock is modelled by the guard the running thread
    already holds: asking for the write lock under a guard never returns, which
    is the outcome [Blocked]. *)

From S2P Require Import Prelude GuestMem VirtQueue DescUtils EventManager VsockPacket VsockRxq.
From S2P Require Import VsockTcp VsockUdp VsockUnix VsockProxy.
Import VsockPacket VsockRxq VsockTcp VsockUdp VsockUnix VsockProxy.
Import EventManager (Epoll, ctl, Add, Delete, EpollEvent, mkEvent, event_default).

Module VsockMuxer.

Definition TSI_PROXY_PORT : Z := 620.
Definition TSI_PROXY_CREATE : Z := 1024.
Definition TSI_CONNECT : Z := 1025.
Definition TSI_GETNAME : Z := 1026.
Definition TSI_SENDTO_ADDR : Z := 1027.
Definition TSI_SENDTO_DATA : Z := 1028.
Definition TSI_LISTEN : Z := 1029.
Definition TSI_ACCEPT : Z := 1030.
Definition TSI_PROXY_RELEASE : Z := 1031.
Definition SOCK_STREAM : Z := 1.
Definition SOCK_DGRAM : Z := 2.
Definition VIRTIO_MMIO_INT_VRING : Z := 1.

(** ** Runs of a thread: a value, a panic, or waiting for ever *)

Inductive run (A : Type) := Done (a : A) | Panicked | Blocked.
Arguments Done {A} _.
Arguments Panicked {A}.
Arguments Blocked {A}.

#[global] Instance run_bind : MBind run := fun A B f r =>
  match r with Done a => f a | Panicked => Panicked | Blocked => Blocked end.

Definition lift {A} (o : outcome A) : run A :=
  match o with Ret a => Done a | Panic => Panicked end.

(** The guard on the proxy map the running thread holds. *)
Inductive guard := NoGuard | ReadGuard | WriteGuard.

Definition write_lock (g : guard) : run unit :=
  match g with NoGuard => Done tt | _ => Blocked end.

(** A second read guard is granted as long as no other thread waits to write. *)
Definition read_lock (g : guard) : run unit :=
  match g with WriteGuard => Blocked | _ => Done tt end.

(** [(peer_port as u64) << 32 | local_port as u64] *)
Definition proxy_id (peer_port local_port : Z) : Z := (peer_port .<< 32) .| local_port.

Section muxer.
Context {M W Ep : Type} `{GuestMemory M} `{Sockets W} `{Epoll Ep}.
Abbreviation Env := (@Env M).
Abbreviation World P := (P * Env * W)%type.

(** [active]: [mem], [queue] and the reaper's sender have been set by
    [activate]; [reaper] is the content of its channel, [reaper_alive] tells
    whether the receiving thread still exists.  [irqs] counts the interrupts
    raised. *)
Record VsockMuxer := mkMuxer {
  mx_cid : Z;
  host_port_map : option (gmap Z Z);
  active : bool;
  env : Env;
  host : W;
  mx_epoll : Ep;
  mx_interrupt_status : Z;
  intc : bool;
  irq_line : option Z;
  irqs : Z;
  proxy_map : gmap Z DynProxy;
  reaper : list Z;
  reaper_alive : bool;
  unix_ipc_port_map : option (gmap Z (list byte));
}.

Definition set_world (m : VsockMuxer) (e : Env) (w : W) (pm : gmap Z DynProxy) : VsockMuxer :=
  mkMuxer (mx_cid m) (host_port_map m) (active m) e w (mx_epoll m) (mx_interrupt_status m) (intc m)
    (irq_line m) (irqs m) pm (reaper m) (reaper_alive m) (unix_ipc_port_map m).
Definition set_epoll (m : VsockMuxer) (ep : Ep) : VsockMuxer :=
  mkMuxer (mx_cid m) (host_port_map m) (active m) (env m) (host m) ep (mx_interrupt_status m) (intc m)
    (irq_line m) (irqs m) (proxy_map m) (reaper m) (reaper_alive m) (unix_ipc_port_map m).
Definition set_irq (m : VsockMuxer) (st n : Z) : VsockMuxer :=
  mkMuxer (mx_cid m) (host_port_map m) (active m) (env m) (host m) (mx_epoll m) st (intc m)
    (irq_line m) n (proxy_map m) (reaper m) (reaper_alive m) (unix_ipc_port_map m).
Definition set_reaper (m : VsockMuxer) (l : list Z) : VsockMuxer :=
  mkMuxer (mx_cid m) (host_port_map m) (active m) (env m) (host m) (mx_epoll m) (mx_interrupt_status m)
    (intc m) (irq_line m) (irqs m) (proxy_map m) l (reaper_alive m) (unix_ipc_port_map m).

Definition mux_new (cid : Z) (hpm : option (gmap Z Z)) (ipc : option (gmap Z (list byte)))
    (mem : M) (queue : VirtQueue.Queue) (w : W) (ep : Ep) : VsockMuxer :=
  mkMuxer cid hpm false (mkEnv mem queue rxq_new) w ep 0 false None 0 ∅ [] false ipc.

(** [activate] stores the memory, the receive queue and the interrupt line and
    starts the two threads. *)
Definition mux_activate (m : VsockMuxer) (mem : M) (queue : VirtQueue.Queue) (ic : bool)
    (line : option Z) : VsockMuxer :=
  mkMuxer (mx_cid m) (host_port_map m) true (mkEnv mem queue (e_rxq (env m))) (host m) (mx_epoll m)
    (mx_interrupt_status m) ic line (irqs m) (proxy_map m) [] true (unix_ipc_port_map m).

Definition has_pending_rx (m : VsockMuxer) : bool := negb (rxq_is_empty (e_rxq (env m))).

(** The map operations drop a displaced proxy, which closes its descriptor. *)
Definition map_insert (m : VsockMuxer) (id : Z) (d : DynProxy) : VsockMuxer :=
  let w := match proxy_map m !! id with
           | Some old => sys_close (host m) (p_fd old)
           | None => host m
           end in
  set_world m (env m) w (<[id := d]> (proxy_map m)).

Definition map_remove (m : VsockMuxer) (id : Z) : VsockMuxer :=
  let w := match proxy_map m !! id with
           | Some old => sys_close (host m) (p_fd old)
           | None => host m
           end in
  set_world m (env m) w (delete id (proxy_map m)).

Definition update_polling (m : VsockMuxer) (id fd evset : Z) : VsockMuxer :=
  let ep := default (mx_epoll m) (ctl (mx_epoll m) Delete fd event_default) in
  let ep := if evset =? EV_EMPTY then ep
            else default ep (ctl ep Add fd (mkEvent evset id)) in
  set_epoll m ep.

(** [interrupt_status.fetch_or], then the interrupt controller or the event
    descriptor (whose errors are only logged). *)
Definition signal (m : VsockMuxer) : run VsockMuxer :=
  let m := set_irq m (mx_interrupt_status m .| VIRTIO_MMIO_INT_VRING) (irqs m) in
  if intc m && bool_decide (irq_line m = None) then Panicked
  else Done (set_irq m (mx_interrupt_status m) (irqs m + 1)).

Definition apply_polling (u : ProxyUpdate) (m : VsockMuxer) : VsockMuxer :=
  match polling u with
  | Some (i, f, ev) => update_polling m i f ev
  | None => m
  end.

(** A failing [send] means the reaper is gone: the proxy is removed at once. *)
Definition apply_removal (g : guard) (id : Z) (u : ProxyUpdate) (m : VsockMuxer) : run VsockMuxer :=
  match remove_proxy u with
  | Keep => Done m
  | Immediate => _ ← write_lock g; Done (map_remove m id)
  | Deferred =>
      if active m then
        if reaper_alive m then Done (set_reaper m (reaper m ++ [id]))
        else _ ← write_lock g; Done (map_remove m id)
      else Done m
  end.

Definition process_proxy_update (g : guard) (id : Z) (u : ProxyUpdate) (m : VsockMuxer)
    : run VsockMuxer :=
  m ← apply_removal g id u (apply_polling u m);
  if signal_queue u then signal m else Done m.

(** Calls on a proxy of the map, which is changed in place. *)
Definition call_upd (f : World DynProxy -> outcome (ProxyUpdate * World DynProxy)) (id : Z)
    (m : VsockMuxer) : run (option ProxyUpdate * VsockMuxer) :=
  match proxy_map m !! id with
  | None => Done (None, m)
  | Some d =>
      '(u, (d, e, w)) ← lift (f (d, env m, host m));
      Done (Some u, set_world m e w (<[id := d]> (proxy_map m)))
  end.

Definition call (f : World DynProxy -> outcome (World DynProxy)) (id : Z) (m : VsockMuxer)
    : run VsockMuxer :=
  match proxy_map m !! id with
  | None => Done m
  | Some d =>
      '(d, e, w) ← lift (f (d, env m, host m));
      Done (set_world m e w (<[id := d]> (proxy_map m)))
  end.

(** Call, then handle the update; [g] is the guard still held then. *)
Definition call_and_update (g : guard) (f : World DynProxy -> outcome (ProxyUpdate * World DynProxy))
    (id : Z) (m : VsockMuxer) : run VsockMuxer :=
  '(u, m) ← call_upd f id m;
  match u with
  | Some u => process_proxy_update g id u m
  | None => Done m
  end.

(** A request parsed from the packet's buffer, if it is long enough. *)
Definition with_request {R} (read : M -> VsockPacket -> outcome (option R)) (p : VsockPacket)
    (m : VsockMuxer) (k : R -> run VsockMuxer) : run VsockMuxer :=
  r ← lift (read (e_mem (env m)) p);
  match r with
  | Some req => k req
  | None => Done m
  end.

(** ** Control requests (datagrams to the TSI ports) *)

Definition insert_created {E} (r : result E DynProxy * W) (id : Z) (m : VsockMuxer) : run VsockMuxer :=
  let '(r, w) := r in
  let m := set_world m (env m) w (proxy_map m) in
  match r with
  | Ok d => Done (map_insert m id d)
  | Err _ => Done m
  end.

Definition process_proxy_create (p : VsockPacket) (m : VsockMuxer) : run VsockMuxer :=
  with_request read_proxy_create p m (fun req =>
    if negb (active m) then Done m
    else
      let id := proxy_id (pc_peer_port req) TSI_PROXY_PORT in
      if pc_type req =? SOCK_STREAM then
        insert_created
          (match new (host m) id (mx_cid m) TSI_PROXY_PORT (pc_peer_port req) (src_port (e_mem (env m)) p) with
           | (Ok t, w) => (Ok (PTcp t), w)
           | (Err e, w) => (Err e, w)
           end) id m
      else if pc_type req =? SOCK_DGRAM then
        insert_created
          (match udp_new (host m) id (mx_cid m) (pc_peer_port req) with
           | (Ok t, w) => (Ok (PUdp t), w)
           | (Err e, w) => (Err e, w)
           end) id m
      else Done m).

Definition process_connect (p : VsockPacket) (m : VsockMuxer) : run VsockMuxer :=
  with_request read_connect_req p m (fun req =>
    call_and_update NoGuard (p_connect p req) (proxy_id (cr_peer_port req) TSI_PROXY_PORT) m).

Definition process_getname (p : VsockPacket) (m : VsockMuxer) : run VsockMuxer :=
  with_request read_getname_req p m (fun req =>
    call (p_getpeername p) (proxy_id (gn_peer_port req) (gn_local_port req)) m).

Definition process_sendto_addr (p : VsockPacket) (m : VsockMuxer) : run VsockMuxer :=
  with_request read_sendto_addr p m (fun req =>
    call_and_update NoGuard (p_sendto_addr req) (proxy_id (cr_peer_port req) TSI_PROXY_PORT) m).

Definition process_sendto_data (p : VsockPacket) (m : VsockMuxer) : run VsockMuxer :=
  call (p_sendto_data p) (proxy_id (src_port (e_mem (env m)) p) TSI_PROXY_PORT) m.

Definition process_listen_request (p : VsockPacket) (m : VsockMuxer) : run VsockMuxer :=
  with_request read_listen_req p m (fun req =>
    call_and_update NoGuard (p_listen p req (host_port_map m))
      (proxy_id (lr_peer_port req) TSI_PROXY_PORT) m).

Definition process_accept_request (p : VsockPacket) (m : VsockMuxer) : run VsockMuxer :=
  with_request read_accept_req p m (fun req =>
    call_and_update NoGuard (p_accept req) (proxy_id (ar_peer_port req) TSI_PROXY_PORT) m).

(** The guard of the lookup lives to the end of the [else] branch, whose log
    message reads the map once more. *)
Definition process_proxy_release (p : VsockPacket) (m : VsockMuxer) : run VsockMuxer :=
  with_request read_release_req p m (fun req =>
    let id := proxy_id (rr_peer_port req) (rr_local_port req) in
    match proxy_map m !! id with
    | Some _ => call_and_update NoGuard p_release id m
    | None => _ ← read_lock ReadGuard; Done m
    end).

(** The read guard lives to the end of the [if let]. *)
Definition process_dgram_rw (p : VsockPacket) (m : VsockMuxer) : run VsockMuxer :=
  call_and_update ReadGuard (p_sendmsg p) (proxy_id (src_port (e_mem (env m)) p) TSI_PROXY_PORT) m.

Definition send_dgram_pkt (p : VsockPacket) (m : VsockMuxer) : run VsockMuxer :=
  let mem := e_mem (env m) in
  if negb (dst_cid mem p =? VSOCK_HOST_CID) then Done m
  else
    let port := dst_port mem p in
    if port =? TSI_PROXY_CREATE then process_proxy_create p m
    else if port =? TSI_CONNECT then process_connect p m
    else if port =? TSI_GETNAME then process_getname p m
    else if port =? TSI_SENDTO_ADDR then process_sendto_addr p m
    else if port =? TSI_SENDTO_DATA then process_sendto_data p m
    else if port =? TSI_LISTEN then process_listen_request p m
    else if port =? TSI_ACCEPT then process_accept_request p m
    else if port =? TSI_PROXY_RELEASE then process_proxy_release p m
    else if op mem p =? VSOCK_OP_RW then process_dgram_rw p m
    else Done m.

(** ** Stream packets *)

Definition packet_id (m : VsockMuxer) (p : VsockPacket) : Z :=
  proxy_id (src_port (e_mem (env m)) p) (dst_port (e_mem (env m)) p).

(** A fresh Unix proxy, connected and confirmed before it enters the map; the
    write guard is held throughout. *)
Definition open_unix (p : VsockPacket) (id : Z) (path : list byte) (m : VsockMuxer) : run VsockMuxer :=
  if negb (active m) then Panicked
  else
    let mem := e_mem (env m) in
    match unix_new (host m) id (mx_cid m) (dst_port mem p) (src_port mem p) path with
    | (Err _, _) => Panicked
    | (Ok u, w) =>
        '(upd, s) ← lift (unix_connect (u, env m, w));
        '(u, e, w) ← lift (unix_confirm_connect p s);
        process_proxy_update WriteGuard id upd
          (map_insert (set_world m e w (proxy_map m)) id (PUnix u))
    end.

Definition process_op_request (p : VsockPacket) (m : VsockMuxer) : run VsockMuxer :=
  let id := packet_id m p in
  match proxy_map m !! id with
  | Some _ => call (p_confirm_connect p) id m
  | None =>
      match unix_ipc_port_map m with
      | Some ipc_map =>
          match ipc_map !! dst_port (e_mem (env m)) p with
          | Some path => open_unix p id path m
          | None => Done m
          end
      | None => Done m
      end
  end.

Definition process_op_response_pkt (p : VsockPacket) (m : VsockMuxer) : run VsockMuxer :=
  let id := packet_id m p in
  '(u, m) ← call_upd (p_process_op_response p) id m;
  match u with
  | None => Done m
  | Some u =>
      m ← (match push_accept u with
           | Some (_, parent) => call p_enqueue_accept parent m
           | None => Done m
           end);
      process_proxy_update NoGuard id u m
  end.

Definition process_op_shutdown (p : VsockPacket) (m : VsockMuxer) : run VsockMuxer :=
  call (p_shutdown p) (packet_id m p) m.

Definition process_op_credit_update (p : VsockPacket) (m : VsockMuxer) : run VsockMuxer :=
  call_and_update NoGuard (p_update_peer_credit p) (packet_id m p) m.

Definition process_stream_rw (p : VsockPacket) (m : VsockMuxer) : run VsockMuxer :=
  let id := packet_id m p in
  let mem := e_mem (env m) in
  match proxy_map m !! id with
  | Some _ => call_and_update ReadGuard (p_sendmsg p) id m
  | None =>
      if active m then
        e ← lift (push_packet (mx_cid m) (Reset (dst_port mem p) (src_port mem p)) (env m));
        Done (set_world m e (host m) (proxy_map m))
      else Done m
  end.

Definition process_stream_rst (p : VsockPacket) (m : VsockMuxer) : run VsockMuxer :=
  call_and_update ReadGuard p_release (packet_id m p) m.

Definition send_stream_pkt (p : VsockPacket) (m : VsockMuxer) : run VsockMuxer :=
  let mem := e_mem (env m) in
  if negb (dst_cid mem p =? VSOCK_HOST_CID) then Done m
  else
    let o := op mem p in
    if o =? VSOCK_OP_REQUEST then process_op_request p m
    else if o =? VSOCK_OP_RESPONSE then process_op_response_pkt p m
    else if o =? VSOCK_OP_SHUTDOWN then process_op_shutdown p m
    else if o =? VSOCK_OP_CREDIT_UPDATE then process_op_credit_update p m
    else if o =? VSOCK_OP_RW then process_stream_rw p m
    else if o =? VSOCK_OP_RST then process_stream_rst p m
    else Done m.

(** ** The muxer thread *)

Definition send_credit_request (rx : MuxerRx) (m : VsockMuxer) : run VsockMuxer :=
  e ← lift (push_packet (mx_cid m) rx (env m));
  Done (set_world m e (host m) (proxy_map m)).

(** [local_port] is the random port drawn for a connection from outside. *)
Definition add_reverse_proxy (local_port id : Z) (np : Z * Z) (m : VsockMuxer) : run VsockMuxer :=
  let '(peer_port, accept_fd) := np in
  let new_id := proxy_id peer_port local_port in
  let m := map_insert m new_id (PTcp (new_reverse new_id (mx_cid m) id local_port peer_port accept_fd)) in
  call p_push_op_request new_id m.

Definition thread_proxy_update (local_port id : Z) (u : ProxyUpdate) (m : VsockMuxer) : run VsockMuxer :=
  let m := apply_polling u m in
  m ← (match push_credit_req u with Some rx => send_credit_request rx m | None => Done m end);
  m ← (match remove_proxy u with
       | Keep => Done m
       | Immediate => Done (map_remove m id)
       | Deferred => if reaper_alive m then Done (set_reaper m (reaper m ++ [id]))
                     else Done (map_remove m id)
       end);
  m ← (match new_proxy u with
       | Some np => add_reverse_proxy local_port id np m
       | None => Done m
       end);
  if signal_queue u || bool_decide (is_Some (new_proxy u)) then signal m else Done m.

(** One event of [work]'s batch; [None] when the receive loop needs more
    fuel. *)
Definition thread_event (fuel : nat) (local_port : Z) (ev : EpollEvent) (m : VsockMuxer)
    : option (run VsockMuxer) :=
  let id := EventManager.data ev in
  match proxy_map m !! id with
  | None => Some (Done m)
  | Some d =>
      match p_process_event fuel (EventManager.events ev) (d, env m, host m) with
      | None => None
      | Some Panic => Some Panicked
      | Some (Ret (u, (d, e, w))) =>
          Some (thread_proxy_update local_port id u (set_world m e w (<[id := d]> (proxy_map m))))
      end
  end.

(** ** Progress: who waits for the lock *)

Lemma lift_not_blocked {A} (o : outcome A) : lift o <> Blocked.
Proof. by destruct o. Qed.

Lemma signal_not_blocked m : signal m <> Blocked.
Proof. unfold signal. by case_match. Qed.

Definition needs_write (u : ProxyUpdate) (m : VsockMuxer) : bool :=
  match remove_proxy u with
  | Keep => false
  | Immediate => true
  | Deferred => active m && negb (reaper_alive m)
  end.

Lemma update_blocked g id u m :
  process_proxy_update g id u m = Blocked <-> g <> NoGuard /\ needs_write u m = true.
Proof.
  unfold process_proxy_update, apply_removal, needs_write.
  assert (active (apply_polling u m) = active m /\ reaper_alive (apply_polling u m) = reaper_alive m)
    as [-> ->] by (unfold apply_polling; by repeat case_match).
  destruct (remove_proxy u), (active m), (reaper_alive m), g; cbn;
    destruct (signal_queue u); cbn; try (pose proof (signal_not_blocked (apply_polling u m)));
    try match goal with |- context [signal ?x] => pose proof (signal_not_blocked x) end;
    naive_solver.
Qed.

Lemma bind_blocked {A B} (r : run A) (k : A -> run B) :
  r ≫= k = Blocked <-> r = Blocked \/ exists a, r = Done a /\ k a = Blocked.
Proof. destruct r; cbn; naive_solver. Qed.

Lemma call_upd_cases f id m :
  match proxy_map m !! id with
  | None => call_upd f id m = Done (None, m)
  | Some d =>
      match f (d, env m, host m) with
      | Ret (u, (d', e, w)) =>
          call_upd f id m = Done (Some u, set_world m e w (<[id := d']> (proxy_map m)))
      | Panic => call_upd f id m = Panicked
      end
  end.
Proof.
  unfold call_upd. destruct (proxy_map m !! id) as [d|]; [|done].
  by destruct (f _) as [[u [[d' e] w]]|].
Qed.

(** A call under a guard blocks only through an update that removes. *)
Lemma call_and_update_blocked g f id m :
  call_and_update g f id m = Blocked <->
  exists d u s, proxy_map m !! id = Some d /\ f (d, env m, host m) = Ret (u, s) /\
    g <> NoGuard /\ needs_write u m = true.
Proof.
  unfold call_and_update. pose proof (call_upd_cases f id m) as Hc.
  destruct (proxy_map m !! id) as [d|] eqn:E.
  2: { rewrite Hc. cbn. naive_solver. }
  destruct (f (d, env m, host m)) as [[u [[d' e] w]]|] eqn:Ef; rewrite Hc; cbn.
  - rewrite update_blocked. change (needs_write u (set_world m e w _)) with (needs_write u m).
    split; [intros ?; by exists d, u, (d', e, w)|]. intros (d1 & u1 & s1 & [= <-] & Hs & ?).
    rewrite Ef in Hs. by injection Hs as <- <-.
  - split; [done|]. intros (d1 & u & s & [= <-] & Hs & _). congruence.
Qed.

Lemma call_not_blocked f id m : call f id m <> Blocked.
Proof.
  unfold call. destruct (proxy_map m !! id) as [d|]; [|done].
  by destruct (f _) as [[[d' e] w]|].
Qed.

Lemma with_request_blocked {R} (read : M -> VsockPacket -> outcome (option R)) p m k :
  with_request read p m k = Blocked -> exists req, k req = Blocked.
Proof.
  unfold with_request. destruct (read _ p) as [[req|]|]; cbn; [by exists req|done..].
Qed.

Lemma open_unix_not_blocked p id path m : open_unix p id path m <> Blocked.
Proof.
  unfold open_unix. destruct (negb _); [done|].
  destruct (unix_new _ _ _ _ _ _) as [[u|?] w]; [|done].
  destruct (unix_connect (u, env m, w)) as [[upd s]|] eqn:Ec; [|done]. cbn.
  apply unix_connect_law in Ec as (_ & Hk & _).
  destruct (unix_confirm_connect p s) as [[[u' e] w']|]; [|done]. cbn.
  rewrite update_blocked. unfold needs_write. rewrite Hk. by intros [_ ?].
Qed.

(** A plain update never needs the write lock. *)
Lemma call_plain_not_blocked g f id m :
  (forall s u s', f s = Ret (u, s') -> plain s.1.1 u s'.1.1) -> call_and_update g f id m <> Blocked.
Proof.
  intros Hf. rewrite call_and_update_blocked. intros (d & u & s & _ & Hs & _ & Hn).
  apply Hf in Hs as (_ & Hk & _). unfold needs_write in Hn. by rewrite Hk in Hn.
Qed.

Lemma call_free_not_blocked f id m : call_and_update NoGuard f id m <> Blocked.
Proof. rewrite call_and_update_blocked. naive_solver. Qed.

(** The second read guard of the log message changes nothing. *)
Lemma release_when_found p m :
  process_proxy_release p m = with_request read_release_req p m (fun req =>
    call_and_update NoGuard p_release (proxy_id (rr_peer_port req) (rr_local_port req)) m).
Proof.
  unfold process_proxy_release, with_request. destruct (read_release_req _ p) as [[req|]|]; [|done..]. cbn.
  unfold call_and_update, call_upd. by destruct (proxy_map m !! _).
Qed.

Lemma dgram_not_blocked p m : send_dgram_pkt p m <> Blocked.
Proof.
  unfold send_dgram_pkt. rewrite release_when_found. destruct (negb _); [done|].
  repeat (case_match; [first [apply call_not_blocked | apply call_plain_not_blocked, law_sendmsg
    | intros [req Hr]%with_request_blocked; revert Hr]|]); try done;
    try apply call_free_not_blocked; try apply call_not_blocked.
  unfold insert_created. by repeat case_match.
Qed.

Lemma op_response_not_blocked p m : process_op_response_pkt p m <> Blocked.
Proof.
  unfold process_op_response_pkt. pose proof (call_upd_cases (p_process_op_response p) (packet_id m p) m) as Hc.
  destruct (proxy_map m !! _) as [d|]; [|by rewrite Hc].
  destruct (p_process_op_response _ _) as [[u [[d' e] w]]|]; rewrite Hc; cbn; [|done].
  destruct (push_accept u) as [[? parent]|]; cbn; rewrite ?bind_blocked.
  - intros [?%call_not_blocked|(m' & _ & [? _]%update_blocked)]; done.
  - intros [? _]%update_blocked. done.
Qed.

Lemma stream_rst_blocked p m :
  (active m = true -> reaper_alive m = true) ->
  process_stream_rst p m = Blocked <->
  exists d, proxy_map m !! packet_id m p = Some d /\ p_status d = Listening.
Proof.
  intros Hal. unfold process_stream_rst. rewrite call_and_update_blocked. split.
  - intros (d & u & s & Hd & Hr & _ & Hn). exists d. split; [done|].
    destruct (law_release (d, env m, host m)) as (u' & Hr' & _ & _ & _ & Hrm).
    rewrite Hr in Hr'. injection Hr' as -> _. unfold needs_write in Hn. rewrite Hrm in Hn.
    cbn [fst] in Hn. destruct (decide (p_status d = Listening)) as [?|Hne]; [done|exfalso].
    rewrite bool_decide_false, andb_true_iff in Hn by done. destruct Hn as [Ha Hn].
    by rewrite (Hal Ha) in Hn.
  - intros (d & Hd & Hs). destruct (law_release (d, env m, host m)) as (u & Hr & _ & _ & _ & Hrm).
    exists d, u, (d, env m, host m). split_and!; try done. unfold needs_write. rewrite Hrm. cbn [fst].
    by rewrite bool_decide_true.
Qed.

(** C31. Progress of the device thread: while the reaper runs, handling a guest
    packet gets stuck on the proxy map's lock in exactly one case, a reset
    for a connection id whose proxy is listening; datagrams (all control
    requests) never get stuck. *)
Theorem stuck_only_on_listening_reset p m :
  (active m = true -> reaper_alive m = true) ->
  send_dgram_pkt p m <> Blocked /\
  (send_stream_pkt p m = Blocked <->
   dst_cid (e_mem (env m)) p = VSOCK_HOST_CID /\ op (e_mem (env m)) p = VSOCK_OP_RST /\
   exists d, proxy_map m !! packet_id m p = Some d /\ p_status d = Listening).
Proof.
  intros Hal. split; [apply dgram_not_blocked|]. unfold send_stream_pkt.
  destruct (dst_cid _ p =? VSOCK_HOST_CID) eqn:Ec; cbn [negb]; zify_bool; [|naive_solver].
  repeat (case_match; zify_bool; [split; [|intros (_ & Ho & _); rewrite Ho in *; discriminate]|]).
  - unfold process_op_request. repeat case_match; try done; try (intros []%call_not_blocked).
    intros []%open_unix_not_blocked.
  - intros []%op_response_not_blocked.
  - intros []%call_not_blocked.
  - intros []%call_free_not_blocked.
  - unfold process_stream_rw. repeat case_match; [intros []%call_plain_not_blocked; apply law_sendmsg|..].
    + by destruct (push_packet _ _ _).
    + done.
  - case_match; zify_bool; [rewrite stream_rst_blocked by done|]; naive_solver.
Qed.

(** ** Routing: which proxies a packet can change *)

(** The map keys are the proxies' own ids. *)
Definition ids_ok (m : VsockMuxer) : Prop := map_Forall (fun k d => p_id d = k) (proxy_map m).

(** A change of the map at [id] only, which keeps [ids_ok]. *)
Definition local_at (id : Z) (m m' : VsockMuxer) : Prop :=
  (forall k, k <> id -> proxy_map m' !! k = proxy_map m !! k) /\ (ids_ok m -> ids_ok m').

Lemma local_refl id m m' : proxy_map m' = proxy_map m -> local_at id m m'.
Proof. unfold local_at, ids_ok. by intros ->. Qed.

Lemma local_trans id m1 m2 m3 : local_at id m1 m2 -> local_at id m2 m3 -> local_at id m1 m3.
Proof. intros [H1a H1b] [H2a H2b]. split; [intros k Hk; by rewrite H2a, H1a|auto]. Qed.

Lemma local_delete id m m' : proxy_map m' = delete id (proxy_map m) -> local_at id m m'.
Proof.
  unfold local_at, ids_ok. intros ->. split.
  - intros k Hk. by apply lookup_delete_ne.
  - intros Hi. by apply map_Forall_delete.
Qed.

Lemma local_insert id m m' d :
  p_id d = id -> proxy_map m' = <[id := d]> (proxy_map m) -> local_at id m m'.
Proof.
  unfold local_at, ids_ok. intros Hd ->. split.
  - intros k Hk. by apply lookup_insert_ne.
  - intros Hi. by apply map_Forall_insert_2.
Qed.

(** Replacing a proxy by a later state of itself. *)
Lemma local_change id m m' d d' :
  proxy_map m !! id = Some d -> same_proxy d d' -> proxy_map m' = <[id := d']> (proxy_map m) ->
  local_at id m m'.
Proof.
  unfold local_at, ids_ok. intros Hd [Hs _] ->. split.
  - intros k Hk. by apply lookup_insert_ne.
  - intros Hi. apply map_Forall_insert_2; [|done]. rewrite Hs. by apply Hi.
Qed.

Lemma map_insert_local id m m' d :
  p_id d = id -> proxy_map m' = proxy_map m -> local_at id m (map_insert m' id d).
Proof. intros Hd Hm. apply local_insert with d; [done|]. cbn. by rewrite Hm. Qed.

Lemma apply_polling_map u m : proxy_map (apply_polling u m) = proxy_map m.
Proof. unfold apply_polling. by repeat case_match. Qed.

Lemma signal_map m m' : signal m = Done m' -> proxy_map m' = proxy_map m.
Proof. unfold signal. case_match; [done|]. by intros [= <-]. Qed.

Lemma update_local g id u m m' : process_proxy_update g id u m = Done m' -> local_at id m m'.
Proof.
  unfold process_proxy_update. destruct (apply_removal g id u _) as [m1| |] eqn:Er; [|done..].
  intros Hs. apply local_trans with m1.
  - unfold apply_removal in Er. repeat case_match; destruct g; simplify_eq/=;
      first [apply local_refl; cbn; by rewrite apply_polling_map
            | apply local_delete; cbn; by rewrite apply_polling_map].
  - apply local_refl. cbn in Hs. case_match; [by apply signal_map|congruence].
Qed.

Lemma call_upd_local f id m u m' :
  (forall s u s', f s = Ret (u, s') -> same_proxy s.1.1 s'.1.1) ->
  call_upd f id m = Done (u, m') -> local_at id m m'.
Proof.
  intros Hf. pose proof (call_upd_cases f id m) as Hc.
  destruct (proxy_map m !! id) as [d|] eqn:Ed; [|rewrite Hc; intros [= _ <-]; by apply local_refl].
  destruct (f _) as [[v [[d' e] w]]|] eqn:Ef; rewrite Hc; [|done]. intros [= _ <-].
  apply (local_change id m _ d d'); [done| |done]. by apply Hf in Ef.
Qed.

Lemma call_local f id m m' :
  (forall s s', f s = Ret s' -> same_proxy s.1.1 s'.1.1) -> call f id m = Done m' -> local_at id m m'.
Proof.
  intros Hf. unfold call. destruct (proxy_map m !! id) as [d|] eqn:Ed.
  2: { intros [= <-]. by apply local_refl. }
  destruct (f _) as [[[d' e] w]|] eqn:Ef; [|done]. cbn. intros [= <-].
  apply (local_change id m _ d d'); [done| |done]. by apply Hf in Ef.
Qed.

Lemma call_and_update_local g f id m m' :
  (forall s u s', f s = Ret (u, s') -> same_proxy s.1.1 s'.1.1) ->
  call_and_update g f id m = Done m' -> local_at id m m'.
Proof.
  intros Hf. unfold call_and_update. destruct (call_upd f id m) as [[u m1]| |] eqn:Ec; [|done..].
  apply call_upd_local in Ec; [|done]. cbn. destruct u as [u|].
  - intros Hu%update_local. by eapply local_trans.
  - by intros [= <-].
Qed.

Lemma plain_same (f : World DynProxy -> outcome (ProxyUpdate * World DynProxy)) :
  (forall s u s', f s = Ret (u, s') -> plain s.1.1 u s'.1.1) ->
  forall s u s', f s = Ret (u, s') -> same_proxy s.1.1 s'.1.1.
Proof. intros Hf s u s' Hs. by apply Hf in Hs as [? _]. Qed.

Lemma release_same (s : World DynProxy) u s' : p_release s = Ret (u, s') -> same_proxy s.1.1 s'.1.1.
Proof. intros Hr. destruct (law_release s) as (u' & Hr' & _). rewrite Hr in Hr'. by injection Hr' as _ ->. Qed.

Lemma with_request_done {R} (read : M -> VsockPacket -> outcome (option R)) p m k m' :
  with_request read p m k = Done m' -> m' = m \/ exists req, k req = Done m'.
Proof.
  unfold with_request. destruct (read _ p) as [[req|]|]; cbn; [by right; exists req|intros [= <-]; by left|done].
Qed.

Lemma open_unix_local p id path m m' : open_unix p id path m = Done m' -> local_at id m m'.
Proof.
  unfold open_unix. destruct (negb _); [done|].
  destruct (unix_new _ _ _ _ _ _) as [[u|?] w] eqn:En; [|done].
  assert (p_id (PUnix u) = id) as Hid.
  { unfold unix_new in En. by repeat case_match; simplify_eq/=. }
  destruct (unix_connect (u, env m, w)) as [[upd s]|] eqn:Ec; [|done]. cbn [mbind run_bind lift].
  apply unix_connect_law in Ec as ([Hc _] & _).
  destruct (unix_confirm_connect p s) as [[[u' e] w']|] eqn:Ef; [|done]. cbn [mbind run_bind lift].
  apply (lift_unit_law (confirm_connect p)) in Ef as [Hf _]; [|apply tcp_proxy_laws].
  intros Hu%update_local. eapply local_trans; [|done]. apply local_insert with (PUnix u'); [|done].
  rewrite <- Hid. cbn in *. congruence.
Qed.

Lemma create_local p m m' :
  process_proxy_create p m = Done m' -> exists id, local_at id m m'.
Proof.
  intros [->|[req Hr]]%with_request_done; [by exists 0; apply local_refl|].
  exists (proxy_id (pc_peer_port req) TSI_PROXY_PORT).
  destruct (negb (active m)); [injection Hr as <-; by apply local_refl|].
  unfold insert_created, new, udp_new in Hr.
  repeat case_match; simplify_eq/=; first [by apply local_refl | by apply (map_insert_local _ m)].
Qed.

(** A datagram changes at most one proxy. *)
Lemma dgram_local p m m' : send_dgram_pkt p m = Done m' -> exists id, local_at id m m'.
Proof.
  unfold send_dgram_pkt. rewrite release_when_found. destruct (negb _); [intros [= <-]; by exists 0; apply local_refl|].
  repeat (case_match; [try (by apply create_local)|]); try (intros [= <-]; by exists 0; apply local_refl).
  all: try (intros [->|[req Hr]]%with_request_done; [by exists 0; apply local_refl|]).
  all: eexists; first [eapply call_local; [|done] | eapply call_and_update_local; [|done]].
  all: first [apply law_getpeername | apply law_sendto_data | exact release_same
    | apply plain_same; first [apply law_connect | apply law_sendto_addr | apply law_listen
                              | apply law_accept | apply law_sendmsg]].
Qed.

(** Accepting a response also reaches the listening proxy it came through. *)
Definition accept_parent (m : VsockMuxer) (p : VsockPacket) (k : Z) : Prop :=
  op (e_mem (env m)) p = VSOCK_OP_RESPONSE /\
  exists t, proxy_map m !! packet_id m p = Some (PTcp t) /\ parent_id t = k.

Lemma op_response_parent p d (e : Env) (w : W) u s :
  p_process_op_response p (d, e, w) = Ret (u, s) ->
  match push_accept u with
  | Some (_, k) => exists t, d = PTcp t /\ parent_id t = k
  | None => True
  end.
Proof. destruct d as [t|t|t]; cbn; [|by intros [= <- _]|done]. intros [= <- _]. cbn. by exists t. Qed.

Lemma op_response_local p m m' :
  op (e_mem (env m)) p = VSOCK_OP_RESPONSE -> process_op_response_pkt p m = Done m' ->
  (forall k, k <> packet_id m p -> ~ accept_parent m p k -> proxy_map m' !! k = proxy_map m !! k) /\
  (ids_ok m -> ids_ok m').
Proof.
  intros Hop. unfold process_op_response_pkt.
  pose proof (call_upd_cases (p_process_op_response p) (packet_id m p) m) as Hc.
  pose proof (call_upd_local (p_process_op_response p) (packet_id m p) m) as Hl.
  destruct (proxy_map m !! _) as [d|] eqn:Ed; [|rewrite Hc; by intros [= <-]].
  destruct (p_process_op_response _ _) as [[u [[d' e] w]]|] eqn:Er; rewrite Hc in *; [|done].
  cbn [mbind run_bind]. set (m1 := set_world _ _ _ _) in *.
  destruct (Hl (Some u) m1) as [Hl1 Hl2]; [apply plain_same, law_op_response|done|].
  apply op_response_parent in Er. destruct (push_accept u) as [[i k]|].
  - destruct (call p_enqueue_accept k m1) as [m2| |] eqn:Ek; [|done..]. cbn [mbind run_bind].
    apply call_local in Ek as [Hk1 Hk2]; [|apply law_enqueue]. intros [Hu1 Hu2]%update_local.
    split; [|auto]. intros j Hj Hp. rewrite Hu1, Hk1, Hl1; try done. intros ->. apply Hp.
    destruct Er as (t & -> & Hpar). split; [done|]. by exists t.
  - cbn [mbind run_bind]. intros [Hu1 Hu2]%update_local. split; [|auto].
    intros j Hj _. by rewrite Hu1, Hl1.
Qed.

Lemma stream_local p m m' :
  send_stream_pkt p m = Done m' ->
  (forall k, k <> packet_id m p -> ~ accept_parent m p k -> proxy_map m' !! k = proxy_map m !! k) /\
  (ids_ok m -> ids_ok m').
Proof.
  assert (forall m', local_at (packet_id m p) m m' ->
    (forall k, k <> packet_id m p -> ~ accept_parent m p k -> proxy_map m' !! k = proxy_map m !! k) /\
    (ids_ok m -> ids_ok m')) as Hloc by (intros m1 [H1' H2']; split; auto).
  unfold send_stream_pkt. destruct (negb _); [intros [= <-]; by apply Hloc, local_refl|].
  case_match; [|case_match; [zify_bool; by apply op_response_local|]]; intros Hs; apply Hloc; revert Hs.
  - unfold process_op_request. repeat case_match; try (intros [= <-]; by apply local_refl).
    + apply call_local, law_confirm.
    + apply open_unix_local.
  - repeat case_match.
    + apply call_local, law_shutdown.
    + apply call_and_update_local, plain_same, law_credit.
    + unfold process_stream_rw. repeat case_match; try (intros [= <-]; by apply local_refl).
      * apply call_and_update_local, plain_same, law_sendmsg.
      * destruct (push_packet _ _ _); [|done]. cbn. intros [= <-]. by apply local_refl.
    + apply call_and_update_local, release_same.
    + intros [= <-]. by apply local_refl.
Qed.

Lemma proxy_id_inj p1 l1 p2 l2 :
  fits 32 l1 -> fits 32 l2 -> proxy_id p1 l1 = proxy_id p2 l2 -> p1 = p2 /\ l1 = l2.
Proof.
  intros H1' H2'. unfold proxy_id. rewrite !Z.shiftl_mul_pow2 by done.
  rewrite !(Z.lor_comm (_ * _)), !lor_mul_pow2 by done. unfold fits in *.
  change (2 ^ 32) with 4294967296 in *. lia.
Qed.

(** ** The muxer as a transition system

    A step is a guest packet, a host socket event, the reaper removing a
    released proxy, or the activation. *)
Inductive mux_step (m : VsockMuxer) : VsockMuxer -> Prop :=
| step_stream p m' : send_stream_pkt p m = Done m' -> mux_step m m'
| step_dgram p m' : send_dgram_pkt p m = Done m' -> mux_step m m'
| step_event fuel port ev m' : thread_event fuel port ev m = Some (Done m') -> mux_step m m'
| step_reap id : mux_step m (map_remove m id)
| step_activate mem queue ic line : mux_step m (mux_activate m mem queue ic line).

Lemma credit_request_map rx m m' : send_credit_request rx m = Done m' -> proxy_map m' = proxy_map m.
Proof. unfold send_credit_request. destruct (push_packet _ _ _); [|done]. by intros [= <-]. Qed.

Lemma reverse_local port id np m m' :
  add_reverse_proxy port id np m = Done m' -> local_at (proxy_id np.1 port) m m'.
Proof.
  destruct np as [pp f]. unfold add_reverse_proxy. intros Hc%call_local; [|apply law_op_request].
  eapply local_trans; [|done]. by apply map_insert_local.
Qed.

Lemma thread_update_ids port id u m m' :
  thread_proxy_update port id u m = Done m' -> ids_ok m -> ids_ok m'.
Proof.
  unfold thread_proxy_update. intros Hr Hi.
  assert (ids_ok (apply_polling u m)) as Hi1 by (unfold ids_ok; by rewrite apply_polling_map).
  destruct (match push_credit_req u with Some _ => _ | None => _ end) as [m1| |] eqn:E1; [|done..].
  assert (ids_ok m1) as Hi2.
  { destruct (push_credit_req u); [|by injection E1 as <-]. apply credit_request_map in E1.
    unfold ids_ok. by rewrite E1. }
  clear E1 Hi1. cbn [mbind run_bind] in Hr.
  destruct (match remove_proxy u with Keep => _ | _ => _ end) as [m2| |] eqn:E2; [|done..].
  assert (ids_ok m2) as Hi3.
  { repeat case_match; simplify_eq/=; try done; by apply map_Forall_delete. }
  clear E2. cbn [mbind run_bind] in Hr.
  destruct (match new_proxy u with Some _ => _ | None => _ end) as [m3| |] eqn:E3; [|done..].
  assert (ids_ok m3) as Hi4.
  { destruct (new_proxy u); [|by injection E3 as <-]. by apply reverse_local in E3 as [_ ?]; auto. }
  clear E3. cbn [mbind run_bind] in Hr. destruct (_ || _); [|by injection Hr as <-].
  apply signal_map in Hr. unfold ids_ok. by rewrite Hr.
Qed.

Lemma step_ids m m' : mux_step m m' -> ids_ok m -> ids_ok m'.
Proof.
  intros [p m1 Hs|p m1 Hs|fuel port ev m1 Hs|id|mem queue ic line] Hi.
  - by apply stream_local in Hs as [_ ?]; auto.
  - apply dgram_local in Hs as [id [_ ?]]; auto.
  - unfold thread_event in Hs. destruct (proxy_map m !! _) as [d|] eqn:Ed; [|by simplify_eq].
    destruct (p_process_event _ _ _) as [[[u [[d' e] w]]|]|] eqn:Ee; [|done..].
    injection Hs as Hs. eapply thread_update_ids; [done|].
    apply law_event in Ee as [Hsame _].
    by apply (local_change (EventManager.data ev) m _ d d').
  - by apply (local_delete id m).
  - done.
Qed.

(** C39. Events find their way back: in every reachable state each proxy carries
    the key it is stored under as its id, so whatever descriptor a proxy asks
    to be polled is its own, and is registered under the key that leads an
    event on it back to this proxy. *)
Theorem events_routed_back cid hpm ipc mem queue w ep m :
  rtc mux_step (mux_new cid hpm ipc mem queue w ep) m ->
  forall k d, proxy_map m !! k = Some d -> p_id d = k /\
    forall fuel evset u s', p_process_event fuel evset (d, env m, host m) = Some (Ret (u, s')) ->
    forall i f ev, polling u = Some (i, f, ev) -> i = k /\ f = p_fd d.
Proof.
  intros Hr. assert (ids_ok m) as Hi.
  { assert (ids_ok (mux_new cid hpm ipc mem queue w ep)) as H0' by apply map_Forall_empty.
    induction Hr as [|x y z Hs _ IH]; [done|]. by apply IH, (step_ids x). }
  intros k d Hd. apply Hi in Hd as Hk. split; [done|].
  intros fuel evset u s' Hp i f ev Hpoll. apply law_event in Hp as [_ Hself].
  rewrite <- Hk. by eapply Hself.
Qed.

(** A stream packet for a connection nobody serves is answered with a reset
    that goes back to its sender, and changes nothing else. *)
Theorem unknown_stream_reset p m e :
  active m = true -> dst_cid (e_mem (env m)) p = VSOCK_HOST_CID -> op (e_mem (env m)) p = VSOCK_OP_RW ->
  proxy_map m !! packet_id m p = None ->
  push_packet (mx_cid m) (Reset (dst_port (e_mem (env m)) p) (src_port (e_mem (env m)) p)) (env m) = Ret e ->
  send_stream_pkt p m = Done (set_world m e (host m) (proxy_map m)).
Proof.
  intros Ha Hc Ho Hn Hp. unfold send_stream_pkt. rewrite Hc, Ho. cbn [negb Z.eqb].
  change (VSOCK_HOST_CID =? VSOCK_HOST_CID) with true. cbn.
  unfold process_stream_rw. by rewrite Hn, Ha, Hp.
Qed.

Section isolation.
Context `{!GuestMemoryLaws M}.

(** C29. Connections are isolated: a stream packet in guest memory changes at most
    the proxy of its own port pair and, when it accepts a connection from
    outside, the listening proxy that connection came through; every other
    connection's proxy is untouched. *)
Theorem connections_isolated p m m' pp lp :
  mapped (e_mem (env m)) p -> fits 32 lp -> send_stream_pkt p m = Done m' ->
  (pp, lp) <> (src_port (e_mem (env m)) p, dst_port (e_mem (env m)) p) ->
  ~ accept_parent m p (proxy_id pp lp) ->
  proxy_map m' !! proxy_id pp lp = proxy_map m !! proxy_id pp lp.
Proof.
  intros Hm Hl Hs Hne Hp. apply stream_local in Hs as [Hs _]. apply Hs; [|done].
  intros E. apply Hne. apply proxy_id_inj in E as [-> ->]; [done..|].
  apply (get_fits _ p DST_PORT Hm).
Qed.
End isolation.

(** ** Guest packets that end the thread

    The methods a Unix proxy does not implement are reachable: an operation
    response for its port pair. *)
Lemma unix_response_panics p m u :
  dst_cid (e_mem (env m)) p = VSOCK_HOST_CID -> op (e_mem (env m)) p = VSOCK_OP_RESPONSE ->
  proxy_map m !! packet_id m p = Some (PUnix u) -> send_stream_pkt p m = Panicked.
Proof.
  intros Hc Ho Hu. unfold send_stream_pkt. rewrite Hc, Ho. cbn.
  unfold process_op_response_pkt, call_upd. by rewrite Hu.
Qed.

(** Asking for the peer name of a UDP proxy that is not connected. *)
Lemma udp_getname_panics p m t req err w :
  read_getname_req (e_mem (env m)) p = Ret (Some req) ->
  proxy_map m !! proxy_id (gn_peer_port req) (gn_local_port req) = Some (PUdp t) ->
  sys_getpeername (host m) (u_fd t) = (Err err, w) -> process_getname p m = Panicked.
Proof.
  intros Hr Hp He. unfold process_getname, with_request. rewrite Hr. cbn. unfold call. rewrite Hp. cbn.
  by rewrite He.
Qed.

Lemma listening_accept fuel evset t (e : Env) (w w' : W) f :
  status t = Listening -> ev_contains evset EV_HANG_UP = false -> ev_contains evset EV_IN = true ->
  sys_accept w (fd t) = (Ok f, w') ->
  p_process_event fuel evset (PTcp t, e, w) =
    Some (Ret (mkUpdate true Keep None (Some (peer_port t, f)) None None, (PTcp t, e, w'))).
Proof.
  intros Hst Hh Hin Hacc. cbn [p_process_event dyn_proxy on_dyn_event tcp_proxy]. unfold process_event.
  rewrite Hh, Hin, Hst, bool_decide_false, (bool_decide_true (Listening = Listening)) by done.
  cbn [orb]. by rewrite Hacc.
Qed.

(** A connection from outside: the listening proxy's event creates a proxy in
    [ReverseInit] under a fresh id, linked to its parent, asks the guest to
    open the connection and raises an interrupt. *)
Theorem reverse_connection_registered fuel port evset m id t f w e :
  proxy_map m !! id = Some (PTcp t) -> status t = Listening ->
  ev_contains evset EV_HANG_UP = false -> ev_contains evset EV_IN = true ->
  sys_accept (host m) (fd t) = (Ok f, w) -> proxy_map m !! proxy_id (peer_port t) port = None ->
  intc m = false ->
  push_packet (mx_cid m) (OpRequest port (peer_port t)) (env m) = Ret e ->
  exists m', thread_event fuel port (mkEvent evset id) m = Some (Done m') /\
    proxy_map m' !! proxy_id (peer_port t) port =
      Some (PTcp (new_reverse (proxy_id (peer_port t) port) (mx_cid m) id port (peer_port t) f)) /\
    proxy_map m' !! id = Some (PTcp t) /\ env m' = e /\
    irqs m' = irqs m + 1 /\ Z.testbit (mx_interrupt_status m') 0 = true.
Proof.
  intros Hd Hst Hh Hin Hacc Hnew Hic Hpush. unfold thread_event. cbn [EventManager.data EventManager.events].
  rewrite Hd, (listening_accept _ _ _ _ _ w f) by done.
  assert (id <> proxy_id (peer_port t) port) as Hne by congruence.
  unfold thread_proxy_update, add_reverse_proxy, call, map_insert, apply_polling.
  cbn [polling push_credit_req remove_proxy new_proxy signal_queue mbind run_bind set_world proxy_map].
  assert (<[id := PTcp t]> (proxy_map m) !! proxy_id (peer_port t) port = None) as -> by
    by rewrite lookup_insert_ne.
  cbn [proxy_map set_world mx_cid env host]. rewrite lookup_insert_eq.
  cbn [p_push_op_request dyn_proxy on_dyn tcp_proxy]. unfold push_op_request, push. cbn [fst new_reverse
    local_port peer_port cid]. rewrite Hpush. cbn. unfold signal. cbn. rewrite Hic. cbn.
  eexists. split; [done|]. cbn. rewrite lookup_insert_eq. split; [done|].
  rewrite !lookup_insert_ne, lookup_insert_eq by done. split_and!; try done.
  rewrite <- Z.bit0_odd, Z.lor_spec. by rewrite orb_true_r.
Qed.
End muxer.

(** ** Witnesses *)

Definition demo_listener : TcpProxy := set_status (idle (proxy_id 1000 620) 3 620 1000 5 9) Listening.

(** The packet of [demo_mem], turned into a reset. *)
Definition rst_mem : FlatMem := set demo_mem demo_pkt OP VSOCK_OP_RST.

Definition demo_mux (mem : FlatMem) (pm : gmap Z DynProxy) : @VsockMuxer FlatMem (list Z) (gset Z) :=
  mkMuxer 3 None true (mkEnv mem ring_queue rxq_new) [] ∅ 0 false None 0 pm [] true None.

Lemma stuck_only_on_listening_reset_witness :
  send_stream_pkt demo_pkt (demo_mux rst_mem {[proxy_id 1000 620 := PTcp demo_listener]}) = Blocked.
Proof.
  apply (stuck_only_on_listening_reset demo_pkt
    (demo_mux rst_mem {[proxy_id 1000 620 := PTcp demo_listener]})); [reflexivity|].
  split; [vm_compute; reflexivity|]. split; [vm_compute; reflexivity|].
  exists (PTcp demo_listener). split; vm_compute; reflexivity.
Defined.

(** A request to create a stream proxy for guest port 1000. *)
Definition create_mem : FlatMem :=
  default demo_mem (gm_write (set demo_mem demo_pkt DST_PORT TSI_PROXY_CREATE) 0x70
    (le_bytes 4 1000 ++ le_bytes 2 SOCK_STREAM)).

Definition created : @VsockMuxer FlatMem (list Z) (gset Z) :=
  match send_dgram_pkt demo_pkt (demo_mux create_mem ∅) with
  | Done m => m
  | _ => demo_mux create_mem ∅
  end.

Lemma created_reached :
  rtc mux_step (mux_new 3 None None demo_mem ring_queue [] ∅) created.
Proof.
  eapply rtc_l; [apply (step_activate _ create_mem ring_queue false None)|].
  apply rtc_once, (step_dgram _ demo_pkt). vm_compute. reflexivity.
Qed.

Lemma events_routed_back_witness :
  exists d, proxy_map created !! proxy_id 1000 620 = Some d /\ p_id d = proxy_id 1000 620.
Proof.
  destruct (proxy_map created !! proxy_id 1000 620) as [d|] eqn:E; [|vm_compute in E; discriminate].
  exists d. split; [reflexivity|].
  exact (proj1 (events_routed_back 3 None None demo_mem ring_queue [] ∅ created created_reached _ d E)).
Defined.

Lemma unknown_stream_reset_witness :
  exists e, push_packet 3 (Reset 620 1000) (mkEnv ring_mem ring_queue rxq_new) = Ret e /\
    send_stream_pkt demo_pkt (demo_mux ring_mem ∅) = Done (set_world (demo_mux ring_mem ∅) e [] ∅).
Proof.
  destruct (push_packet 3 (Reset 620 1000) (mkEnv ring_mem ring_queue rxq_new)) as [e|] eqn:E;
    [|vm_compute in E; discriminate].
  exists e. split; [reflexivity|].
  apply (unknown_stream_reset demo_pkt (demo_mux ring_mem ∅) e); try (vm_compute; reflexivity).
  rewrite <- E. vm_compute. reflexivity.
Defined.

(** Two connections; the packet of [demo_mem] is data for the first. *)
Definition two_proxies : gmap Z DynProxy :=
  {[proxy_id 1000 620 := PTcp demo_proxy; proxy_id 7 620 := PTcp demo_listener]}.

Lemma connections_isolated_witness :
  exists m', send_stream_pkt demo_pkt (demo_mux demo_mem two_proxies) = Done m' /\
    proxy_map m' !! proxy_id 7 620 = Some (PTcp demo_listener).
Proof.
  destruct (send_stream_pkt demo_pkt (demo_mux demo_mem two_proxies)) as [m'| |] eqn:E;
    [|vm_compute in E; discriminate..].
  exists m'. split; [reflexivity|].
  rewrite (connections_isolated demo_pkt (demo_mux demo_mem two_proxies) m' 7 620).
  - vm_compute. reflexivity.
  - exact mapped_demo.
  - split; vm_compute; congruence.
  - exact E.
  - vm_compute. congruence.
  - intros [Hop _]. vm_compute in Hop. discriminate.
Defined.

(** A host whose listening sockets always have a connection waiting. *)
#[local] Instance accepting_host : Sockets unit := {
  sys_recv w _ _ := (Err EWOULDBLOCK, w);
  sys_send w _ bs := (Ok (Zlength bs), w);
  sys_connect w _ _ _ := (Ok tt, w);
  sys_bind w _ _ _ := (Ok tt, w);
  sys_listen w _ _ := (Ok tt, w);
  sys_accept w _ := (Ok 11, w);
  sys_getpeername w _ := (Err EINVAL, w);
  sys_shutdown w _ _ := w;
  sys_socket w _ := (Ok 9, w);
  sys_reuse_port w _ := (Ok tt, w);
  sys_connect_unix w _ _ := (Ok tt, w);
  unix_addr_ok _ := true;
  sys_sendto w _ bs _ := (Ok (Zlength bs), w);
  sys_close w _ := w;
  sys_set_blocking w _ _ := w;
}.

Definition listening_mux : @VsockMuxer FlatMem unit (gset Z) :=
  mkMuxer 3 None true (mkEnv ring_mem ring_queue rxq_new) tt ∅ 0 false None 0
    {[proxy_id 1000 620 := PTcp demo_listener]} [] true None.

Lemma reverse_connection_registered_witness :
  exists m', thread_event 0 2000 (mkEvent EV_IN (proxy_id 1000 620)) listening_mux = Some (Done m') /\
    proxy_map m' !! proxy_id 1000 2000 =
      Some (PTcp (new_reverse (proxy_id 1000 2000) 3 (proxy_id 1000 620) 2000 1000 11)).
Proof.
  destruct (push_packet 3 (OpRequest 2000 1000) (mkEnv ring_mem ring_queue rxq_new)) as [e|] eqn:E;
    [|vm_compute in E; discriminate].
  destruct (reverse_connection_registered 0 2000 EV_IN listening_mux (proxy_id 1000 620) demo_listener
    11 tt e) as (m' & Hm & Hp & _); try (vm_compute; reflexivity); try exact E.
  exists m'. split; [exact Hm|exact Hp].
Defined.
End VsockMuxer.
