(* ===== verification/VsockDevice.v ===== *)
(** * The virtio-vsock device
    ([devices/src/virtio/vsock/device.rs], [event_handler.rs])

    [Vsock] owns the transmit queue and the muxer, and shares the receive queue
    with it; its loops move packets between the queues and the muxer when the
    guest rings a doorbell.  It is an instance of the transport's
    [VirtioDevice] interface. *)

From S2P Require Import Prelude ByteOrder GuestMem VirtQueue Mmio DescUtils EventManager.
From S2P Require Import VsockPacket VsockRxq VsockTcp VsockUdp VsockUnix VsockProxy VsockMuxer.
Import ByteOrder VsockPacket VsockRxq VsockTcp VsockProxy VsockMuxer.
Import VirtQueue (Queue, Queue_new, pop, undo_pop, add_used, avail_idx, next_avail).
Import EventManager (Epoll, EpollEvent, mkEvent).

Module VsockDevice.

Definition RXQ_INDEX : nat := 0.
Definition TXQ_INDEX : nat := 1.
Definition EVQ_INDEX : nat := 2.
Definition NUM_QUEUES : nat := 3.
Definition QUEUE_SIZES : list Z := [256; 256; 256].
Definition VIRTIO_F_VERSION_1 : Z := 32.
Definition VIRTIO_F_IN_ORDER : Z := 35.
Definition VIRTIO_VSOCK_F_DGRAM : Z := 3.
Definition VIRTIO_ID_VSOCK : Z := 19.
Definition AVAIL_FEATURES : Z :=
  (1 .<< VIRTIO_F_VERSION_1) .| (1 .<< VIRTIO_F_IN_ORDER) .| (1 .<< VIRTIO_VSOCK_F_DGRAM).

Section device.
Context {M W Ep : Type} `{GuestMemory M} `{Sockets W} `{Epoll Ep}.
Abbreviation Env := (@Env M).
Abbreviation VsockMuxer := (@VsockMuxer M W Ep).
(** Which event descriptors can be written (activation) and read. *)
Context (activate_evt_ok : bool) (queue_evt_ok : nat -> bool).
(** Their raw descriptors. *)
Context (rx_fd tx_fd ev_fd activate_fd : Z).
Abbreviation EventManager := (@EventManager.EventManager Ep).

Record Vsock := mkVsock {
  v_cid : Z;
  v_muxer : VsockMuxer;
  queue_tx : Queue;
  v_queues : list Queue;
  v_acked_features : Z;
  v_activated : bool;
  v_intc : bool;
  v_irq_line : option Z;
}.

Definition set_mux (v : Vsock) (m : VsockMuxer) (tx : Queue) : Vsock :=
  mkVsock (v_cid v) m tx (v_queues v) (v_acked_features v) (v_activated v) (v_intc v) (v_irq_line v).

(** [new] and [with_queues]: three queues of 256 entries; the muxer starts
    with a clone of the receive queue it will be given on activation. *)
Definition vsock_new (cid : Z) (hpm : option (gmap Z Z)) (ipc : option (gmap Z (list byte)))
    (mem : M) (w : W) (ep : Ep) : Vsock :=
  let queues := map Queue_new QUEUE_SIZES in
  mkVsock cid (mux_new cid hpm ipc mem (Queue_new 256) w ep) (Queue_new 256) queues 0 false false None.

Definition set_irq_line (v : Vsock) (irq : Z) : Vsock :=
  mkVsock (v_cid v) (v_muxer v) (queue_tx v) (v_queues v) (v_acked_features v) (v_activated v)
    (v_intc v) (Some irq).

Definition set_intc (v : Vsock) : Vsock :=
  mkVsock (v_cid v) (v_muxer v) (queue_tx v) (v_queues v) (v_acked_features v) (v_activated v)
    true (v_irq_line v).

(** The interrupt status word is shared with the muxer. *)
Definition signal_used_queue (v : Vsock) : run Vsock :=
  let m := v_muxer v in
  if v_intc v && bool_decide (v_irq_line v = None) then Panicked
  else Done (set_mux v (set_irq m (mx_interrupt_status m .| VIRTIO_MMIO_INT_VRING) (irqs m + 1)) (queue_tx v)).

(** ** Receive path: queued packets into guest buffers *)

(** One round of the loop; [true] when a descriptor was used and the loop
    goes on. *)
Definition rx_round (cid : Z) (e : Env) : outcome (bool * Env) :=
  '(h, vq) ← pop (e_mem e) (e_queue e);
  match h with
  | None => Ret (false, mkEnv (e_mem e) vq (e_rxq e))
  | Some head =>
      let use (n : Z) (e : Env) :=
        let '(_, vq, m) := add_used (e_mem e) (e_queue e) (VirtQueue.index head) n in
        Ret (true, mkEnv m vq (e_rxq e)) in
      match from_rx_virtq_head (e_mem e) head with
      | Ok p =>
          '(r, e) ← muxer_recv_pkt cid (mkEnv (e_mem e) vq (e_rxq e)) p;
          match r with
          | Ok _ => use (44 +[32] pkt_len (e_mem e) p) e
          | Err _ => Ret (false, mkEnv (e_mem e) (undo_pop (e_queue e)) (e_rxq e))
          end
      | Err _ => use 0 (mkEnv (e_mem e) vq (e_rxq e))
      end
  end.

(** [None] is a loop still running after [fuel] rounds. *)
Fixpoint rx_loop (fuel : nat) (cid : Z) (have_used : bool) (e : Env) : option (outcome (bool * Env)) :=
  match fuel with
  | O => None
  | S fuel =>
      match rx_round cid e with
      | Panic => Some Panic
      | Ret (true, e) => rx_loop fuel cid true e
      | Ret (false, e) => Some (Ret (have_used, e))
      end
  end.

(** An inactive device is [unreachable!()]. *)
Definition process_stream_rx (fuel : nat) (v : Vsock) : option (run (bool * Vsock)) :=
  if negb (v_activated v) then Some Panicked
  else
    match rx_loop fuel (mx_cid (v_muxer v)) false (env (v_muxer v)) with
    | None => None
    | Some o =>
        Some ('(hu, e) ← lift o;
              let m := v_muxer v in
              Done (hu, set_mux v (set_world m e (host m) (proxy_map m)) (queue_tx v)))
    end.

(** ** Transmit path: guest packets to the muxer *)

Definition tx_used (v : Vsock) (vq : Queue) (head : VirtQueue.DescriptorChain) : run (bool * Vsock) :=
  let m := v_muxer v in
  let '(_, vq, mem) := add_used (e_mem (env m)) vq (VirtQueue.index head) 0 in
  Done (true, set_mux v (set_world m (mkEnv mem (e_queue (env m)) (e_rxq (env m))) (host m) (proxy_map m)) vq).

Definition tx_round (v : Vsock) : run (bool * Vsock) :=
  let mem := e_mem (env (v_muxer v)) in
  '(h, vq) ← lift (pop mem (queue_tx v));
  match h with
  | None => Done (false, set_mux v (v_muxer v) vq)
  | Some head =>
      match from_tx_virtq_head mem head with
      | Err _ => tx_used v vq head
      | Ok p =>
          m ← (if type_ mem p =? VSOCK_TYPE_DGRAM then send_dgram_pkt p (v_muxer v)
               else send_stream_pkt p (v_muxer v));
          tx_used (set_mux v m vq) vq head
      end
  end.

Fixpoint tx_loop (fuel : nat) (have_used : bool) (v : Vsock) : option (run (bool * Vsock)) :=
  match fuel with
  | O => None
  | S fuel =>
      match tx_round v with
      | Done (true, v) => tx_loop fuel true v
      | Done (false, v) => Some (Done (have_used, v))
      | Panicked => Some Panicked
      | Blocked => Some Blocked
      end
  end.

Definition process_stream_tx (fuel : nat) (v : Vsock) : option (run (bool * Vsock)) :=
  if negb (v_activated v) then Some Panicked else tx_loop fuel false v.

(** ** Event handlers *)

Definition handle_rxq_event (fuel : nat) (event_set : Z) (v : Vsock) : option (run (bool * Vsock)) :=
  if negb (event_set =? EV_IN) then Some (Done (false, v))
  else if negb (queue_evt_ok RXQ_INDEX) then Some (Done (false, v))
  else process_stream_rx fuel v.

(** After transmitting, responses queued meanwhile go out at once. *)
Definition handle_txq_event (fuel : nat) (event_set : Z) (v : Vsock) : option (run (bool * Vsock)) :=
  if negb (event_set =? EV_IN) then Some (Done (false, v))
  else if negb (queue_evt_ok TXQ_INDEX) then Some (Done (false, v))
  else
    match process_stream_tx fuel v with
    | Some (Done (irq, v)) =>
        if has_pending_rx (v_muxer v) then
          match process_stream_rx fuel v with
          | Some (Done (irq', v)) => Some (Done (irq || irq', v))
          | r => r
          end
        else Some (Done (irq, v))
    | r => r
    end.

Definition handle_evq_event (event_set : Z) (v : Vsock) : bool * Vsock := (false, v).

(** The activation event: the device subscribes to its receive and transmit
    descriptors and gives up the activation descriptor.  Failures are logged. *)
Definition handle_activate_event (em : EventManager) : outcome EventManager :=
  match EventManager.subscriber em activate_fd with
  | Err _ => Panic
  | Ok self =>
      let em := snd (EventManager.register em rx_fd (mkEvent EV_IN rx_fd) self) in
      let em := snd (EventManager.register em tx_fd (mkEvent EV_IN tx_fd) self) in
      Ret (snd (EventManager.unregister em activate_fd))
  end.

(** [Subscriber::process] *)
Definition process (fuel : nat) (source event_set : Z) (v : Vsock) (em : EventManager)
    : option (run (Vsock * EventManager)) :=
  if negb (v_activated v) then Some (Done (v, em))
  else
    let r : option (run (bool * Vsock * EventManager)) :=
      let with_em (o : option (run (bool * Vsock))) :=
        match o with
        | None => None
        | Some o => Some ('(irq, v) ← o; Done (irq, v, em))
        end in
      if source =? rx_fd then with_em (handle_rxq_event fuel event_set v)
      else if source =? tx_fd then with_em (handle_txq_event fuel event_set v)
      else if source =? ev_fd then with_em (Some (Done (handle_evq_event event_set v)))
      else if source =? activate_fd then
        Some (em ← lift (handle_activate_event em); Done (false, v, em))
      else Some (Done (false, v, em)) in
    match r with
    | None => None
    | Some (Done (irq, v, em)) =>
        Some (v ← (if (irq : bool) then signal_used_queue v else Done v); Done (v, em))
    | Some Panicked => Some Panicked
    | Some Blocked => Some Blocked
    end.

Definition interest_list : list EpollEvent := [mkEvent EV_IN activate_fd].

(** ** The [VirtioDevice] trait *)

Definition vsock_read_config (v : Vsock) (offset : Z) (data : list byte) : list byte :=
  if (offset =? 0) && (Zlength data =? 8) then write_le_u64 data (v_cid v)
  else if (offset =? 0) && (Zlength data =? 4) then write_le_u32 data (v_cid v .& 0xffffffff)
  else if (offset =? 4) && (Zlength data =? 4) then
    write_le_u32 data ((v_cid v .>> 32) .& 0xffffffff)
  else data.

Definition vsock_activate (v : Vsock) (mem : M) : option Vsock :=
  if negb (length (v_queues v) =? NUM_QUEUES)%nat then None
  else if negb activate_evt_ok then None
  else
    tx ← v_queues v !! TXQ_INDEX;
    rx ← v_queues v !! RXQ_INDEX;
    Some (mkVsock (v_cid v) (mux_activate (v_muxer v) mem rx (v_intc v) (v_irq_line v)) tx (v_queues v)
            (v_acked_features v) true (v_intc v) (v_irq_line v)).

#[export] Instance vsock_virtio : VirtioDevice Vsock M := {
  avail_features _ := AVAIL_FEATURES;
  acked_features := v_acked_features;
  set_acked_features v f :=
    mkVsock (v_cid v) (v_muxer v) (queue_tx v) (v_queues v) f (v_activated v) (v_intc v) (v_irq_line v);
  device_type _ := VIRTIO_ID_VSOCK;
  queues := v_queues;
  set_queues v qs :=
    mkVsock (v_cid v) (v_muxer v) (queue_tx v) qs (v_acked_features v) (v_activated v) (v_intc v) (v_irq_line v);
  interrupt_evt _ := O;
  read_config := vsock_read_config;
  write_config v _ _ := v;
  activate := vsock_activate;
  is_activated := v_activated;
  vd_reset v := (false, v);
  shm_region _ := None;
}.

#[export] Instance vsock_virtio_laws : VirtioDeviceLaws Vsock M.
Proof.
  split; try done. intros v mem v'. cbn. unfold vsock_activate.
  destruct (negb _); [done|]. destruct (negb _); [done|].
  destruct (v_queues v !! TXQ_INDEX); [|done]. destruct (v_queues v !! RXQ_INDEX); [|done].
  cbn. by intros [= <-].
Qed.

(** ** The receive loop *)

Lemma recv_pkt_env cid (e : Env) p r e' :
  muxer_recv_pkt cid e p = Ret (r, e') ->
  e_queue e' = e_queue e /\
  match r with
  | Ok _ => q (e_rxq e') = tail (q (e_rxq e))
  | Err _ => e' = e /\ q (e_rxq e) = []
  end.
Proof.
  unfold muxer_recv_pkt, rxq_is_empty, rxq_pop, rxq_len. destruct (q (e_rxq e)) as [|rx l] eqn:E; cbn.
  - by intros [= <- <-].
  - destruct (rx_to_pkt _ _ _ _); [|done]. cbn. by intros [= <- <-].
Qed.

Lemma rx_round_go cid e e' :
  rx_round cid e = Ret (true, e') ->
  (q (e_rxq e') = q (e_rxq e) \/ q (e_rxq e') = tail (q (e_rxq e))) /\
  exists c vq, pop (e_mem e) (e_queue e) = Ret (Some c, vq) /\ next_avail (e_queue e') = next_avail vq.
Proof.
  unfold rx_round. destruct (pop _ _) as [[[head|] vq]|] eqn:Epop; [|done..]. cbn [mbind outcome_bind].
  destruct (from_rx_virtq_head _ head) as [p|].
  - destruct (muxer_recv_pkt _ _ _) as [[[r|] e1]|] eqn:Er; [|done..]. cbn [mbind outcome_bind].
    apply recv_pkt_env in Er as [Hq Ht]. cbn in Hq, Ht.
    destruct (add_used _ _ _ _) as [[? vq'] m'] eqn:Eu. intros [= <-]. cbn.
    apply VirtQueue.add_used_next_avail in Eu. split; [by right|]. exists head, vq. by rewrite Eu, Hq.
  - cbn. destruct (add_used _ _ _ _) as [[? vq'] m'] eqn:Eu. intros [= <-]. cbn.
    apply VirtQueue.add_used_next_avail in Eu. split; [by left|]. by exists head, vq.
Qed.

Lemma rx_round_stop cid e e' :
  rx_round cid e = Ret (false, e') ->
  e_rxq e' = e_rxq e /\
  (q (e_rxq e') = [] \/ pop (e_mem e') (e_queue e') = Ret (None, e_queue e')).
Proof.
  unfold rx_round. destruct (pop _ _) as [[[head|] vq]|] eqn:Epop; [| |done]; cbn [mbind outcome_bind].
  - destruct (from_rx_virtq_head _ head) as [p|].
    + destruct (muxer_recv_pkt _ _ _) as [[[r|] e1]|] eqn:Er; [| |done]; cbn [mbind outcome_bind].
      * by destruct (add_used _ _ _ _) as [[? ?] ?].
      * apply recv_pkt_env in Er as (_ & -> & Hq). intros [= <-]. cbn. split; [done|by left].
    + by destruct (add_used _ _ _ _) as [[? ?] ?].
  - intros [= <-]. cbn. split; [done|]. right. apply VirtQueue.pop_result in Epop as Hq. by subst vq.
Qed.

(** A driver that leaves its index alone while the device runs: no round
    changes the published index. *)
Definition rx_index_stable (cid : Z) (e : Env) : Prop :=
  forall e1 e2, rtc (fun a b => rx_round cid a = Ret (true, b)) e e1 -> rx_round cid e1 = Ret (true, e2) ->
    avail_idx (e_mem e2) (e_queue e2) = avail_idx (e_mem e1) (e_queue e1).

(** The receive loop terminates, within one round more than the driver has
    published buffers, and delivers all it can: it consumes the queued packets
    from the front, and when it stops either no packet is left or the guest has
    no buffer left. *)
Theorem rx_loop_drains cid fuel hu e :
  rx_index_stable cid e -> VirtQueue.outstanding (e_mem e) (e_queue e) < Z.of_nat fuel ->
  exists o, rx_loop fuel cid hu e = Some o /\
    forall hu' e', o = Ret (hu', e') ->
      (exists k, q (e_rxq e') = drop k (q (e_rxq e))) /\
      (q (e_rxq e') = [] \/ pop (e_mem e') (e_queue e') = Ret (None, e_queue e')).
Proof.
  revert hu e. induction fuel as [|fuel IH]; intros hu e Hst Hf.
  { unfold VirtQueue.outstanding in Hf. case_match; [|lia]. pose proof (wrap_fits 16 (a - next_avail (e_queue e))
      ltac:(lia)) as Hw. unfold fits in Hw. lia. }
  cbn [rx_loop]. destruct (rx_round cid e) as [[[] e1]|] eqn:E; [| |by eexists].
  - apply rx_round_go in E as Hgo. destruct Hgo as (Hq & c & vq & Hp & Hn).
    destruct (VirtQueue.outstanding_pop _ _ _ _ (e_mem e1) (e_queue e1) Hp Hn) as [Ho _].
    { by apply (Hst e e1); [apply rtc_refl|]. }
    destruct (IH true e1) as (o & Hl & Hres).
    { intros e2 e3 Hr. apply Hst. by eapply rtc_l. }
    { lia. }
    exists o. split; [done|]. intros hu' e' Heq. destruct (Hres _ _ Heq) as [[k Hk] Hend].
    split; [|done]. destruct Hq as [Hq|Hq]; rewrite Hk, Hq; [by exists k|].
    exists (S k). destruct (q (e_rxq e)); cbn; by rewrite ?drop_nil.
  - eexists. split; [done|]. intros hu' e' [= _ <-]. apply rx_round_stop in E as [Hr Hend].
    split; [exists O; by rewrite Hr|done].
Qed.

(** ** The transmit loop *)

Lemma tx_round_go v v' :
  tx_round v = Done (true, v') ->
  exists c vq, pop (e_mem (env (v_muxer v))) (queue_tx v) = Ret (Some c, vq) /\
    next_avail (queue_tx v') = next_avail vq.
Proof.
  unfold tx_round. destruct (pop _ _) as [[[head|] vq]|] eqn:Epop; [|done..]. cbn [mbind run_bind lift].
  intros Hr. exists head, vq. split; [done|]. revert Hr. unfold tx_used.
  destruct (from_tx_virtq_head _ head) as [p|].
  - match goal with |- context [?r ≫= _] => destruct r as [m| |] end; [|done..]. cbn [mbind run_bind].
    destruct (add_used _ _ _ _) as [[? ?] ?] eqn:Eu. intros [= <-]. by apply VirtQueue.add_used_next_avail in Eu.
  - destruct (add_used _ _ _ _) as [[? ?] ?] eqn:Eu. intros [= <-]. by apply VirtQueue.add_used_next_avail in Eu.
Qed.

Lemma tx_round_stop v v' :
  tx_round v = Done (false, v') ->
  pop (e_mem (env (v_muxer v'))) (queue_tx v') = Ret (None, queue_tx v').
Proof.
  unfold tx_round, tx_used. destruct (pop _ _) as [[[head|] vq]|] eqn:Epop; [| |done]; cbn [mbind run_bind lift].
  - destruct (from_tx_virtq_head _ head) as [p|].
    + match goal with |- context [?r ≫= _] => destruct r as [m| |] end; [|done..]. cbn. by destruct (add_used _ _ _ _) as [[? ?] ?].
    + by destruct (add_used _ _ _ _) as [[? ?] ?].
  - intros [= <-]. apply VirtQueue.pop_result in Epop as Hq. by subst vq.
Qed.

Definition tx_index_stable (v : Vsock) : Prop :=
  forall v1 v2, rtc (fun a b => tx_round a = Done (true, b)) v v1 -> tx_round v1 = Done (true, v2) ->
    avail_idx (e_mem (env (v_muxer v2))) (queue_tx v2) = avail_idx (e_mem (env (v_muxer v1))) (queue_tx v1).

(** The transmit loop ends within one round more than the driver has published
    chains; unless a packet panics or blocks, it ends because the queue yields
    no further chain: nothing the guest has queued is left behind. *)
Theorem tx_loop_drains fuel hu v :
  tx_index_stable v -> VirtQueue.outstanding (e_mem (env (v_muxer v))) (queue_tx v) < Z.of_nat fuel ->
  exists r, tx_loop fuel hu v = Some r /\
    forall hu' v', r = Done (hu', v') ->
      pop (e_mem (env (v_muxer v'))) (queue_tx v') = Ret (None, queue_tx v').
Proof.
  revert hu v. induction fuel as [|fuel IH]; intros hu v Hst Hf.
  { unfold VirtQueue.outstanding in Hf. case_match; [|lia]. pose proof (wrap_fits 16 (a - next_avail (queue_tx v))
      ltac:(lia)) as Hw. unfold fits in Hw. lia. }
  cbn [tx_loop]. destruct (tx_round v) as [[[] v1]| |] eqn:E; [| |by eexists..].
  - apply tx_round_go in E as Hgo. destruct Hgo as (c & vq & Hp & Hn).
    destruct (VirtQueue.outstanding_pop _ _ _ _ (e_mem (env (v_muxer v1))) (queue_tx v1) Hp Hn) as [Ho _].
    { by apply (Hst v v1); [apply rtc_refl|]. }
    apply IH; [|lia]. intros v2 v3 Hr. apply Hst. by eapply rtc_l.
  - eexists. split; [done|]. intros hu' v' [= _ <-]. by apply tx_round_stop in E.
Qed.

(** ** Configuration and activation *)

(** The guest learns its context id, in one 64-bit or in two 32-bit reads. *)
Theorem config_shows_cid v :
  fits 64 (v_cid v) ->
  le_val (vsock_read_config v 0 (replicate 8 0)) = v_cid v /\
  le_val (vsock_read_config v 0 (replicate 4 0)) +
    2 ^ 32 * le_val (vsock_read_config v 4 (replicate 4 0)) = v_cid v.
Proof.
  intros Hf. unfold vsock_read_config. cbn [Z.eqb andb length replicate Z.of_nat Pos.of_succ_nat Pos.succ
    Pos.eqb]. change 0xffffffff with (Z.ones 32). rewrite !Z.land_ones, Z.shiftr_div_pow2 by done.
  unfold write_le_u64, write_le_u32, write_le, write_array. cbn [length].
  change (Z.of_nat 8 =? 8) with true. change (Z.of_nat 4 =? 8) with false.
  change (Z.of_nat 4 =? 4) with true. cbn iota.
  rewrite !take_ge, !drop_ge, !app_nil_r, !le_val_le_bytes by (rewrite length_le_bytes; cbn; lia).
  change (8 * Z.of_nat 8) with 64. change (8 * Z.of_nat 4) with 32.
  split; [by apply wrap_small|]. unfold wrap. rewrite !Zmod_mod.
  rewrite (Z.mod_small (v_cid v / 2 ^ 32)).
  - pose proof (Z.div_mod (v_cid v) (2 ^ 32) ltac:(lia)). lia.
  - unfold fits in Hf. split; [apply Z.div_pos; lia|]. apply Z.div_lt_upper_bound; lia.
Qed.

(** Activation hands over what the driver programmed: the muxer gets the
    receive queue and the guest memory, the device its transmit queue, and the
    muxer's threads run; with a wrong number of queues nothing happens. *)
Theorem activation_hands_over v mem :
  activate_evt_ok = true ->
  match activate v mem with
  | Some v' => is_activated v' = true /\ v_queues v' = v_queues v /\
      v_queues v !! RXQ_INDEX = Some (e_queue (env (v_muxer v'))) /\
      v_queues v !! TXQ_INDEX = Some (queue_tx v') /\ e_mem (env (v_muxer v')) = mem /\
      active (v_muxer v') = true /\ reaper_alive (v_muxer v') = true /\
      proxy_map (v_muxer v') = proxy_map (v_muxer v)
  | None => length (v_queues v) <> NUM_QUEUES
  end.
Proof.
  intros Hok. cbn [activate vsock_virtio]. unfold vsock_activate. rewrite Hok. cbn [negb].
  destruct (length (v_queues v) =? NUM_QUEUES)%nat eqn:E; cbn [negb].
  - apply Nat.eqb_eq in E. destruct (v_queues v) as [|q0 [|q1 [|q2 []]]] eqn:Eq; try done.
  - by apply Nat.eqb_neq in E.
Qed.

End device.

(** ** Witnesses *)

(** The receive ring of [ring_mem], with a packet waiting. *)
Definition rx_env : @VsockRxq.Env FlatMem := mkEnv ring_mem ring_queue (mkRxq [Reset 1 2] true).

Definition rx_env' : @VsockRxq.Env FlatMem :=
  match rx_round 3 rx_env with Ret (_, e) => e | Panic => rx_env end.

Lemma rx_rounds : rx_round 3 rx_env = Ret (true, rx_env') /\ exists e, rx_round 3 rx_env' = Ret (false, e).
Proof. split; [vm_compute; reflexivity|eexists; vm_compute; reflexivity]. Qed.

Lemma rx_index_stable_demo : rx_index_stable 3 rx_env.
Proof.
  destruct rx_rounds as [H1 [e H2]]. intros e1 e2 Hr Hs.
  destruct (one_step (fun a b => rx_round 3 a = Ret (true, b)) rx_env rx_env' e1 e2) as [-> ->];
    [| |done..|].
  - intros z Hz. rewrite H1 in Hz. congruence.
  - intros z Hz. rewrite H2 in Hz. discriminate Hz.
  - vm_compute. reflexivity.
Qed.

Lemma rx_loop_drains_witness :
  exists e', rx_loop 5 3 false rx_env = Some (Ret (true, e')) /\ q (e_rxq e') = [].
Proof.
  destruct (rx_loop_drains 3 5 false rx_env rx_index_stable_demo) as (o & Ho & Hr);
    [vm_compute; reflexivity|].
  destruct o as [[hu e']|]; [|vm_compute in Ho; discriminate]. exists e'.
  rewrite Ho. destruct (Hr hu e' eq_refl) as [[k Hk] _].
  vm_compute in Ho. injection Ho as <- <-. split; reflexivity.
Defined.

(** A device whose transmit ring holds the chain of [demo_rx_mem] at index 0,
    here not readable, so it is returned unused. *)
Definition demo_vsock : @Vsock FlatMem (list Z) (gset Z) :=
  mkVsock 3 (demo_mux ring_mem ∅) ring_queue (map Queue_new QUEUE_SIZES) 0 true false None.

Definition demo_vsock' : @Vsock FlatMem (list Z) (gset Z) :=
  match tx_round demo_vsock with Done (_, v) => v | _ => demo_vsock end.

Lemma tx_rounds : tx_round demo_vsock = Done (true, demo_vsock') /\
  exists v, tx_round demo_vsock' = Done (false, v).
Proof. split; [vm_compute; reflexivity|eexists; vm_compute; reflexivity]. Qed.

Lemma tx_index_stable_demo : tx_index_stable demo_vsock.
Proof.
  destruct tx_rounds as [H1 [v H2]]. intros v1 v2 Hr Hs.
  destruct (one_step (fun a b => tx_round a = Done (true, b)) demo_vsock demo_vsock' v1 v2) as [-> ->];
    [| |done..|].
  - intros z Hz. rewrite H1 in Hz. congruence.
  - intros z Hz. rewrite H2 in Hz. discriminate Hz.
  - vm_compute. reflexivity.
Qed.

Lemma tx_loop_drains_witness :
  exists v', tx_loop 5 false demo_vsock = Some (Done (true, v')) /\
    pop (e_mem (env (v_muxer v'))) (queue_tx v') = Ret (None, queue_tx v').
Proof.
  destruct (tx_loop_drains 5 false demo_vsock tx_index_stable_demo) as (r & Ho & Hr);
    [vm_compute; reflexivity|].
  destruct r as [[[] v']| |]; [|vm_compute in Ho; discriminate..]. exists v'.
  split; [exact Ho|]. exact (Hr true v' eq_refl).
Defined.

Lemma config_shows_cid_witness : le_val (vsock_read_config demo_vsock 0 (replicate 8 0)) = 3.
Proof. apply (config_shows_cid demo_vsock). split; vm_compute; congruence. Defined.

Lemma activation_hands_over_witness :
  exists v', vsock_activate true demo_vsock ring_mem = Some v' /\ queue_tx v' = Queue_new 256.
Proof.
  pose proof (activation_hands_over true demo_vsock ring_mem eq_refl) as Ha.
  destruct (vsock_activate true demo_vsock ring_mem) as [v'|] eqn:E; [|vm_compute in E; discriminate].
  exists v'. split; [reflexivity|]. cbn [activate vsock_virtio] in Ha. rewrite E in Ha.
  destruct Ha as (_ & _ & _ & Ht & _). 
  change (Some (Queue_new 256) = Some (queue_tx v')) in Ht. congruence.
Defined.
End VsockDevice.
