(* ===== verification/Mptable.v ===== *)
(** * The multiprocessor table ([arch/src/x86_64/mptable.rs])

    The table tells the guest kernel its processors and interrupt routing.  The
    packed C structures of [arch_gen/src/x86/mpspec.rs] are records with their
    byte images.  The theorems show where the table is put, that it lists every
    processor, and that both checksums a kernel verifies are right. *)

From S2P Require Import Prelude GuestMem.

Module Mptable.

Definition MPTABLE_START : Z := 0x9fc00.
Definition MAX_SUPPORTED_CPUS : Z := 254.
Definition SMP_MAGIC_IDENT : list byte := [95; 77; 80; 95].
Definition MPC_SIGNATURE : list byte := [80; 67; 77; 80].
Definition MPC_SPEC : Z := 4.
Definition MPC_OEM : list byte := [70; 67; 32; 32; 32; 32; 32; 32].
Definition MPC_PRODUCT_ID : list byte := replicate 12 48.
Definition BUS_TYPE_ISA : list byte := [73; 83; 65; 32; 32; 32].
Definition IO_APIC_DEFAULT_PHYS_BASE : Z := 0xfec00000.
Definition APIC_DEFAULT_PHYS_BASE : Z := 0xfee00000.
Definition APIC_VERSION : Z := 0x14.
Definition CPU_STEPPING : Z := 0x600.
Definition CPU_FEATURE_APIC : Z := 0x200.
Definition CPU_FEATURE_FPU : Z := 0x001.

Definition MP_PROCESSOR : Z := 0.
Definition MP_BUS : Z := 1.
Definition MP_IOAPIC : Z := 2.
Definition MP_INTSRC : Z := 3.
Definition MP_LINTSRC : Z := 4.
Definition CPU_ENABLED : Z := 1.
Definition CPU_BOOTPROCESSOR : Z := 2.
Definition MPC_APIC_USABLE : Z := 1.
Definition MP_IRQDIR_DEFAULT : Z := 0.
Definition mp_INT : Z := 0.
Definition mp_NMI : Z := 1.
Definition mp_ExtINT : Z := 3.

Inductive Error :=
| NotEnoughMemory | AddressOverflow | Clear | TooManyCpus | WriteMpfIntel | WriteMpcCpu
| WriteMpcIoapic | WriteMpcBus | WriteMpcIntsrc | WriteMpcLintsrc | WriteMpcTable.

(** ** The packed structures *)

Record mpf_intel := { f_signature : list byte; f_physptr : Z; f_length : Z; f_specification : Z; f_checksum : Z }.

(** The five feature bytes stay zero. *)
Definition mpf_intel_bytes (v : mpf_intel) : list byte :=
  f_signature v ++ le_bytes 4 (f_physptr v) ++ le_bytes 1 (f_length v) ++ le_bytes 1 (f_specification v) ++
  le_bytes 1 (f_checksum v) ++ replicate 5 0.

Record mpc_table := {
  t_signature : list byte; t_length : Z; t_spec : Z; t_checksum : Z; t_oem : list byte;
  t_productid : list byte; t_lapic : Z }.

(** [oemptr], [oemsize], [oemcount] and [reserved] stay zero. *)
Definition mpc_table_bytes (v : mpc_table) : list byte :=
  t_signature v ++ le_bytes 2 (t_length v) ++ le_bytes 1 (t_spec v) ++ le_bytes 1 (t_checksum v) ++
  t_oem v ++ t_productid v ++ replicate 8 0 ++ le_bytes 4 (t_lapic v) ++ replicate 4 0.

Definition mpc_cpu_bytes (apicid : Z) : list byte :=
  le_bytes 1 MP_PROCESSOR ++ le_bytes 1 apicid ++ le_bytes 1 APIC_VERSION ++
  le_bytes 1 (CPU_ENABLED .| (if apicid =? 0 then CPU_BOOTPROCESSOR else 0)) ++
  le_bytes 4 CPU_STEPPING ++ le_bytes 4 (CPU_FEATURE_APIC .| CPU_FEATURE_FPU) ++ replicate 8 0.

Definition mpc_bus_bytes : list byte := le_bytes 1 MP_BUS ++ le_bytes 1 0 ++ BUS_TYPE_ISA.

Definition mpc_ioapic_bytes (ioapicid : Z) : list byte :=
  le_bytes 1 MP_IOAPIC ++ le_bytes 1 ioapicid ++ le_bytes 1 APIC_VERSION ++ le_bytes 1 MPC_APIC_USABLE ++
  le_bytes 4 IO_APIC_DEFAULT_PHYS_BASE.

Definition mpc_intsrc_bytes (ioapicid i : Z) : list byte :=
  le_bytes 1 MP_INTSRC ++ le_bytes 1 mp_INT ++ le_bytes 2 MP_IRQDIR_DEFAULT ++ le_bytes 1 0 ++ le_bytes 1 i ++
  le_bytes 1 ioapicid ++ le_bytes 1 i.

Definition mpc_lintsrc_bytes (irqtype destapic destapiclint : Z) : list byte :=
  le_bytes 1 MP_LINTSRC ++ le_bytes 1 irqtype ++ le_bytes 2 MP_IRQDIR_DEFAULT ++ le_bytes 1 0 ++ le_bytes 1 0 ++
  le_bytes 1 destapic ++ le_bytes 1 destapiclint.

(** ** Checksums *)

Definition compute_checksum (v : list byte) : Z := fold_left (fun checksum i => checksum +[8] i) v 0.

Definition mpf_intel_compute_checksum (v : mpf_intel) : Z :=
  let checksum := compute_checksum (mpf_intel_bytes v) -[8] f_checksum v in
  bnot 8 checksum +[8] 1.

Definition compute_mp_size (num_cpus : Z) : Z := 16 + 44 + 20 * num_cpus + 8 + 8 + 8 * 16 + 8 * 2.

(** ** Construction *)

(** The entries after the table header, in the order they are written, each
    with the error its write may give. *)
Definition mp_entries (num_cpus ioapicid : Z) : list (Error * list byte) :=
  map (fun cpu_id => (WriteMpcCpu, mpc_cpu_bytes cpu_id)) (seqZ 0 num_cpus) ++
  [(WriteMpcBus, mpc_bus_bytes); (WriteMpcIoapic, mpc_ioapic_bytes ioapicid)] ++
  map (fun i => (WriteMpcIntsrc, mpc_intsrc_bytes ioapicid i)) (seqZ 0 16) ++
  [(WriteMpcLintsrc, mpc_lintsrc_bytes mp_ExtINT 0 0); (WriteMpcLintsrc, mpc_lintsrc_bytes mp_NMI 0xff 1)].

Section memory.
Context {M : Type} `{GuestMemory M}.

(** One block of the source per entry: write, advance [base_mp], add to the
    running checksum. *)
Fixpoint emit (l : list (Error * list byte)) (m : M) (base checksum : Z) : result Error (M * Z * Z) :=
  match l with
  | [] => Ok (m, base, checksum)
  | (e, bs) :: l =>
      m ← ok_or (gm_write m base bs) e;
      emit l m (base +[64] Zlength bs) (checksum +[8] compute_checksum bs)
  end.

Definition mpf (physptr checksum : Z) : mpf_intel :=
  {| f_signature := SMP_MAGIC_IDENT; f_physptr := physptr; f_length := 1; f_specification := 4;
     f_checksum := checksum |}.

Definition mpc (length checksum : Z) : mpc_table :=
  {| t_signature := MPC_SIGNATURE; t_length := length; t_spec := MPC_SPEC; t_checksum := checksum;
     t_oem := MPC_OEM; t_productid := MPC_PRODUCT_ID; t_lapic := APIC_DEFAULT_PHYS_BASE |}.

Definition setup_mptable (m : M) (num_cpus : Z) : result Error M :=
  if MAX_SUPPORTED_CPUS <? num_cpus then Err TooManyCpus
  else
    let base_mp := MPTABLE_START in
    let mp_size := compute_mp_size num_cpus in
    let ioapicid := num_cpus +[8] 1 in
    end_mp ← ok_or (checked_add 64 base_mp (mp_size - 1)) AddressOverflow;
    if negb (gm_in_range m end_mp) then Err NotEnoughMemory
    else
      m ← ok_or (gm_write m base_mp (replicate (Z.to_nat mp_size) 0)) Clear;
      let physptr := wrap 32 (base_mp + 16) in
      let v := mpf physptr (mpf_intel_compute_checksum (mpf physptr 0)) in
      m ← ok_or (gm_write m base_mp (mpf_intel_bytes v)) WriteMpfIntel;
      let table_base := base_mp +[64] 16 in
      let base_mp := table_base +[64] 44 in
      '(m, table_end, checksum) ← emit (mp_entries num_cpus ioapicid) m base_mp 0;
      let length := wrap 16 (table_end - table_base) in
      let checksum := checksum +[8] compute_checksum (mpc_table_bytes (mpc length 0)) in
      ok_or (gm_write m table_base (mpc_table_bytes (mpc length (bnot 8 checksum +[8] 1)))) WriteMpcTable.
End memory.

(** ** Sums *)

Definition byte_sum (v : list byte) : Z := foldr Z.add 0 v.

Lemma byte_sum_app a b : byte_sum (a ++ b) = byte_sum a + byte_sum b.
Proof. induction a as [|x a IH]; cbn; [done|]. unfold byte_sum in *. lia. Qed.

Lemma checksum_acc v c :
  fits 8 c -> fold_left (fun checksum i => checksum +[8] i) v c = c +[8] byte_sum v.
Proof.
  revert c. induction v as [|b v IH]; intros c Hc; cbn.
  - by rewrite Z.add_0_r, wrap_small.
  - rewrite IH by (apply wrap_fits; lia). rewrite wrap_add_l. f_equal. unfold byte_sum. lia.
Qed.

Lemma checksum_sum v : compute_checksum v = wrap 8 (byte_sum v).
Proof. apply checksum_acc. done. Qed.

(** Adding the two's complement of a sum gives zero. *)
Lemma complement_sum s : wrap 8 (s + (bnot 8 (wrap 8 s) +[8] 1)) = 0.
Proof.
  assert (fits 8 (wrap 8 s)) as Hf by (apply wrap_fits; lia).
  rewrite bnot_sub, wrap_add_r by (done || lia).
  replace (s + (2 ^ 8 - 1 - wrap 8 s + 1)) with (s + 2 ^ 8 - wrap 8 s) by lia.
  rewrite wrap_sub_r. unfold wrap. replace (s + 2 ^ 8 - s) with (1 * 2 ^ 8) by lia. apply Z.mod_mul. done.
Qed.

(** ** Writing consecutive entries *)

Section facts.
Context {M : Type} {GM : GuestMemory M} {GML : GuestMemoryLaws M}.
Implicit Types (m : M) (l : list (Error * list byte)).

Definition blob l : list byte := concat (map snd l).

Lemma emit_spec l m base chk old :
  Forall (fun p => bytes_ok p.2) l -> 0 <= base -> base + Zlength (blob l) < 2 ^ 64 ->
  fits 8 chk -> gm_read m base (length (blob l)) = Some old ->
  exists m', emit l m base chk = Ok (m', base + Zlength (blob l), chk +[8] byte_sum (blob l)) /\
    gm_read m' base (length (blob l)) = Some (blob l) /\
    (forall a n, is_Some (gm_read m' a n) <-> is_Some (gm_read m a n)) /\
    (forall a n, a + Z.of_nat n <= base \/ base + Zlength (blob l) <= a -> gm_read m' a n = gm_read m a n).
Proof.
  intros Hok. revert m base chk old. induction Hok as [|[e bs] l Hbs Hok IH]; intros m base chk old Hb Hlt Hc Hr.
  { exists m. cbn. rewrite !Z.add_0_r, wrap_small by done. split_and!; try done.
    by apply gm_read_length in Hr as Hl; destruct old. }
  cbn [emit blob map concat snd] in *. fold (blob l) in *. rewrite length_app in *.
  destruct (gm_write_total m base bs (slice old 0 (length bs))) as [m1 Hw]; [|done|].
  { rewrite <- (Z.add_0_r base). apply (gm_read_sub _ _ _ _ 0 (length bs) Hr). lia. }
  rewrite Hw. cbn [ok_or mbind result_bind].
  assert (is_Some (gm_read m1 base (length bs + length (blob l)))) as [o1 Ho1]
    by (eapply gm_write_domain; eauto).
  pose proof (gm_read_sub _ _ _ _ (length bs) (length (blob l)) Ho1 ltac:(lia)) as Ho2.
  rewrite (wrap_small 64) by (unfold fits; lia).
  destruct (IH m1 (base + Zlength bs) (chk +[8] compute_checksum bs) _ ltac:(lia) ltac:(lia)
    ltac:(apply wrap_fits; lia) Ho2) as (m' & -> & Hr' & Hdom & Hfr).
  assert (forall a n, is_Some (gm_read m' a n) <-> is_Some (gm_read m a n)) as Hdom'.
  { intros a n. rewrite Hdom. by eapply gm_write_domain. }
  exists m'. split_and!; [| |done|].
  - rewrite checksum_sum, wrap_add_r, wrap_add_l, byte_sum_app. rewrite Nat2Z.inj_add, !Z.add_assoc. done.
  - destruct (proj2 (Hdom' base (length bs + length (blob l))%nat) ltac:(eauto)) as [all Hall].
    rewrite Hall. f_equal. pose proof (gm_read_length _ _ _ _ Hall) as Hal.
    pose proof (gm_read_sub _ _ _ _ 0 (length bs) Hall ltac:(lia)) as H1.
    pose proof (gm_read_sub _ _ _ _ (length bs) (length (blob l)) Hall ltac:(lia)) as H2.
    rewrite Z.add_0_r, Hfr, (gm_write_read _ _ _ _ Hw Hbs) in H1 by lia. rewrite Hr' in H2.
    unfold slice in *. rewrite drop_0 in H1. rewrite (take_ge (drop _ _)) in H2 by (rewrite length_drop; lia).
    rewrite <- (take_drop (length bs) all). congruence.
  - intros a n Hd. rewrite Hfr by lia. apply (gm_write_frame _ _ _ _ _ _ Hw). lia.
Qed.

Lemma mp_entries_ok n io : Forall (fun p => bytes_ok p.2) (mp_entries n io).
Proof.
  assert (forall a b : list byte, bytes_ok a -> bytes_ok b -> bytes_ok (a ++ b)) as Happ
    by (intros; by apply Forall_app).
  assert (forall (e : Error) (f : Z -> list byte) (xs : list Z), (forall x, bytes_ok (f x)) ->
    Forall (fun p : Error * list byte => bytes_ok p.2) (map (fun x => (e, f x)) xs)) as Hmap.
  { intros e f xs Hf. induction xs; cbn; constructor; [apply Hf|done]. }
  unfold mp_entries. apply Forall_app; split; [apply Hmap|]; [|apply Forall_app; split];
    [..|apply Forall_app; split; [apply Hmap|]]; intros;
    repeat (apply Forall_cons; split); try apply Forall_nil; cbn [snd];
    unfold mpc_cpu_bytes, mpc_bus_bytes, mpc_ioapic_bytes, mpc_intsrc_bytes, mpc_lintsrc_bytes;
    repeat apply Happ; try apply le_bytes_ok; try (apply Forall_replicate; done);
    repeat constructor; first [lia | by apply (wrap_fits 8)].
Qed.

Lemma length_mp_entries n io : 0 <= n -> Zlength (blob (mp_entries n io)) = 20 * n + 160.
Proof.
  intros Hn. unfold blob, mp_entries. rewrite !map_app, !map_map, !concat_app, !length_app. cbn [snd].
  assert (forall (f : Z -> list byte) k (xs : list Z), (forall x, length (f x) = k) ->
    length (concat (map f xs)) = (k * length xs)%nat) as Hlen.
  { intros f k xs Hf. induction xs as [|x xs IH]; cbn; [lia|]. rewrite length_app, Hf, IH. lia. }
  rewrite (Hlen _ 20%nat) by done. rewrite (Hlen _ 8%nat) by done. rewrite !length_seqZ.
  change (length (concat (map snd [(WriteMpcBus, _); _]))) with 16%nat.
  change (length (concat (map snd [(WriteMpcLintsrc, _); _]))) with 16%nat. lia.
Qed.

Lemma byte_sum_1 z : byte_sum (le_bytes 1 z) = wrap 8 z.
Proof. unfold byte_sum. simpl. apply Z.add_0_r. Qed.

(** Both structures carry the complement of the sum of their other bytes. *)
Lemma mpf_checksum p :
  byte_sum (mpf_intel_bytes (mpf p (mpf_intel_compute_checksum (mpf p 0)))) mod 256 = 0.
Proof.
  set (c := mpf_intel_compute_checksum (mpf p 0)).
  assert (fits 8 c) as Hc by (apply wrap_fits; lia).
  assert (byte_sum (mpf_intel_bytes (mpf p c)) = byte_sum (mpf_intel_bytes (mpf p 0)) + c) as ->.
  { unfold mpf_intel_bytes, mpf. cbn [f_signature f_physptr f_length f_specification f_checksum].
    rewrite !byte_sum_app, !byte_sum_1, (wrap_small 8 c) by done.
    change (wrap 8 0) with 0. lia. }
  change 256 with (2 ^ 8). fold (wrap 8 (byte_sum (mpf_intel_bytes (mpf p 0)) + c)).
  subst c. unfold mpf_intel_compute_checksum. rewrite checksum_sum. cbn [f_checksum mpf].
  rewrite Z.sub_0_r, wrap_wrap. apply complement_sum.
Qed.

Lemma mpc_checksum len s :
  let c := bnot 8 (wrap 8 (s + byte_sum (mpc_table_bytes (mpc len 0)))) +[8] 1 in
  (byte_sum (mpc_table_bytes (mpc len c)) + s) mod 256 = 0.
Proof.
  intros c. assert (fits 8 c) as Hc by (apply wrap_fits; lia).
  assert (byte_sum (mpc_table_bytes (mpc len c)) = byte_sum (mpc_table_bytes (mpc len 0)) + c) as ->.
  { unfold mpc_table_bytes, mpc. cbn [t_signature t_length t_spec t_checksum t_oem t_productid t_lapic].
    rewrite !byte_sum_app, !byte_sum_1, (wrap_small 8 c) by done.
    change (wrap 8 0) with 0. lia. }
  change 256 with (2 ^ 8). fold (wrap 8 (byte_sum (mpc_table_bytes (mpc len 0)) + c + s)).
  replace (byte_sum (mpc_table_bytes (mpc len 0)) + c + s)
    with (s + byte_sum (mpc_table_bytes (mpc len 0)) + c) by lia. apply complement_sum.
Qed.

Lemma mpf_bytes_ok p c : bytes_ok (mpf_intel_bytes (mpf p c)).
Proof.
  unfold mpf_intel_bytes, mpf, bytes_ok. cbn [f_signature f_physptr f_length f_specification f_checksum].
  rewrite !Forall_app. split_and!; try apply le_bytes_ok; try (apply Forall_replicate; done).
  repeat constructor; lia.
Qed.

Lemma mpc_bytes_ok n c : bytes_ok (mpc_table_bytes (mpc n c)).
Proof.
  unfold mpc_table_bytes, mpc, bytes_ok. cbn [t_signature t_length t_spec t_checksum t_oem t_productid t_lapic].
  rewrite !Forall_app. split_and!; try apply le_bytes_ok; try (apply Forall_replicate; done);
    repeat constructor; lia.
Qed.

Lemma write_in m a n off bs old :
  gm_read m a n = Some old -> 0 <= off -> off + Zlength bs <= Z.of_nat n -> bytes_ok bs ->
  exists m' new, gm_write m (a + off) bs = Some m' /\ gm_read m' a n = Some new.
Proof.
  intros Hr Ho Hle Hb. pose proof (gm_read_sub _ _ _ _ (Z.to_nat off) (length bs) Hr ltac:(lia)) as Hs.
  rewrite Z2Nat.id in Hs by done. destruct (gm_write_total _ _ _ _ Hs Hb) as [m' Hw].
  destruct (proj2 (gm_write_domain _ _ _ _ a n Hw) ltac:(eauto)) as [new Hnew]. eauto.
Qed.

Lemma three_parts m a all x y z :
  gm_read m a (length x + length y + length z) = Some all ->
  gm_read m a (length x) = Some x -> gm_read m (a + Zlength x) (length y) = Some y ->
  gm_read m (a + Zlength x + Zlength y) (length z) = Some z -> all = x ++ y ++ z.
Proof.
  intros Hall Hx Hy Hz. pose proof (gm_read_length _ _ _ _ Hall) as Hl.
  pose proof (gm_read_sub _ _ _ _ 0 (length x) Hall ltac:(lia)) as Sx.
  pose proof (gm_read_sub _ _ _ _ (length x) (length y) Hall ltac:(lia)) as Sy.
  pose proof (gm_read_sub _ _ _ _ (length x + length y) (length z) Hall ltac:(lia)) as Sz.
  rewrite Z.add_0_r, Hx in Sx. rewrite Hy in Sy. rewrite Nat2Z.inj_add, Z.add_assoc, Hz in Sz.
  injection Sx as Sx. injection Sy as Sy. injection Sz as Sz. unfold slice in *. rewrite drop_0 in Sx.
  rewrite (take_ge (drop (_ + _) _)) in Sz by (rewrite length_drop; lia).
  rewrite <- (take_drop (length x) all), <- Sx. f_equal.
  rewrite <- (take_drop (length y) (drop _ all)), <- Sy. f_equal. by rewrite drop_drop.
Qed.

(** The whole construction; [mptable_correct] below states it as the claim. *)
Lemma setup_mptable_spec m n old :
  0 <= n <= MAX_SUPPORTED_CPUS ->
  gm_read m MPTABLE_START (Z.to_nat (compute_mp_size n)) = Some old ->
  gm_in_range m (MPTABLE_START + compute_mp_size n - 1) = true ->
  exists m' fp hdr,
    let entries := blob (mp_entries n (n + 1)) in
    setup_mptable m n = Ok m' /\
    gm_read m' MPTABLE_START (Z.to_nat (compute_mp_size n)) = Some (fp ++ hdr ++ entries) /\
    length fp = 16%nat /\ length hdr = 44%nat /\
    le_val (slice fp 4 4) = MPTABLE_START + 16 /\ byte_sum fp mod 256 = 0 /\
    le_val (slice hdr 4 2) = Zlength (hdr ++ entries) /\ byte_sum (hdr ++ entries) mod 256 = 0 /\
    (forall a k, a + Z.of_nat k <= MPTABLE_START \/ MPTABLE_START + compute_mp_size n <= a ->
       gm_read m' a k = gm_read m a k).
Proof.
  intros Hn Hr Hin. unfold setup_mptable, MAX_SUPPORTED_CPUS in *.
  destruct (254 <? n) eqn:E; [zify_bool; lia|]. clear E.
  assert (compute_mp_size n = 60 + (20 * n + 160)) as Hsz by (unfold compute_mp_size; lia).
  rewrite (wrap_small 8 (n + 1)) by (unfold fits; lia).
  pose proof (length_mp_entries n (n + 1) ltac:(lia)) as Hle. pose proof (mp_entries_ok n (n + 1)) as Hok.
  set (l := mp_entries n (n + 1)) in *. set (sz := compute_mp_size n) in *. unfold MPTABLE_START in *.
  unfold checked_add. destruct (_ <? 2 ^ 64) eqn:E; [|zify_bool; lia]. cbn [ok_or mbind result_bind].
  replace (0x9fc00 + (sz - 1)) with (0x9fc00 + sz - 1) by lia. rewrite Hin. cbn [negb].
  destruct (write_in m 0x9fc00 (Z.to_nat sz) 0 (replicate (Z.to_nat sz) 0) old Hr) as (m1 & o1 & Hw1 & Hr1);
    [lia|rewrite length_replicate; lia|by apply Forall_replicate|].
  rewrite Z.add_0_r in Hw1. rewrite Hw1. cbn [ok_or mbind result_bind].
  change (wrap 32 (0x9fc00 + 16)) with 0x9fc10. set (fp := mpf_intel_bytes (mpf 0x9fc10 _)).
  assert (length fp = 16%nat) as Hfl by reflexivity.
  destruct (write_in m1 0x9fc00 (Z.to_nat sz) 0 fp o1 Hr1) as (m2 & o2 & Hw2 & Hr2);
    [lia|lia|apply mpf_bytes_ok|].
  rewrite Z.add_0_r in Hw2. rewrite Hw2. cbn [ok_or mbind result_bind].
  change (0x9fc00 +[64] 16) with 0x9fc10. change (0x9fc10 +[64] 44) with 0x9fc3c.
  pose proof (gm_read_sub _ _ _ _ 60 (length (blob l)) Hr2 ltac:(lia)) as Hr2'.
  destruct (emit_spec l m2 0x9fc3c 0 _ Hok ltac:(lia) ltac:(lia) ltac:(done) Hr2') as (m3 & -> & Hr3 & Hd3 & Hf3).
  cbn [mbind result_bind]. set (len := wrap 16 _).
  assert (len = 44 + Zlength (blob l)) as Hlen.
  { unfold len. replace (0x9fc3c + Zlength (blob l) - 0x9fc10) with (44 + Zlength (blob l)) by lia.
    apply wrap_small. unfold fits. lia. }
  rewrite checksum_sum, wrap_add_r, wrap_add_l, Z.add_0_l. set (hdr := mpc_table_bytes (mpc len _)).
  assert (length hdr = 44%nat) as Hhl by reflexivity.
  destruct (proj2 (Hd3 0x9fc00 (Z.to_nat sz)) ltac:(eauto)) as [o3 Hr3'].
  destruct (write_in m3 0x9fc00 (Z.to_nat sz) 16 hdr o3 Hr3') as (m4 & o4 & Hw4 & Hr4);
    [lia|lia|apply mpc_bytes_ok|].
  change (0x9fc00 + 16) with 0x9fc10 in Hw4. rewrite Hw4. exists m4, fp, hdr.
  split_and!; [done| |done|done|reflexivity|apply mpf_checksum|..].
  - rewrite Hr4. f_equal. apply (three_parts m4 0x9fc00 o4); [rewrite <- Hr4; f_equal; lia|..].
    + rewrite (gm_write_frame _ _ _ _ _ _ Hw4), Hf3 by lia. apply (gm_write_read _ _ _ _ Hw2), mpf_bytes_ok.
    + apply (gm_write_read _ _ _ _ Hw4), mpc_bytes_ok.
    + rewrite (gm_write_frame _ _ _ _ _ _ Hw4) by lia. by replace (0x9fc00 + 16 + 44) with 0x9fc3c by lia.
  - change (slice hdr 4 2) with (le_bytes 2 len). rewrite le_val_le_bytes, wrap_small, length_app, Hhl, Hlen; [lia|].
    rewrite Hlen. unfold fits. cbn. lia.
  - rewrite byte_sum_app. unfold hdr. rewrite (Z.add_comm _ (byte_sum (blob l))), Z.add_comm. apply mpc_checksum.
  - intros a k Hd. rewrite (gm_write_frame _ _ _ _ _ _ Hw4), Hf3, (gm_write_frame _ _ _ _ _ _ Hw2) by lia.
    apply (gm_write_frame _ _ _ _ _ _ Hw1). rewrite length_replicate. lia.
Qed.

(** The multiprocessor table: for up to 254 processors and mapped low
    memory the construction succeeds; memory then holds, from [MPTABLE_START],
    the floating pointer, whose address field is the address of the table and
    whose bytes sum to zero, and the table: its header, whose length field is
    the length of the table and whose bytes together with those of the entries
    sum to zero, followed by one entry per processor and the fixed entries;
    nothing outside is written. *)
Theorem mptable_correct m n old :
  0 <= n <= MAX_SUPPORTED_CPUS ->
  gm_read m MPTABLE_START (Z.to_nat (compute_mp_size n)) = Some old ->
  gm_in_range m (MPTABLE_START + compute_mp_size n - 1) = true ->
  exists m' fp hdr,
    let entries := blob (mp_entries n (n + 1)) in
    setup_mptable m n = Ok m' /\
    gm_read m' MPTABLE_START (Z.to_nat (compute_mp_size n)) = Some (fp ++ hdr ++ entries) /\
    length fp = 16%nat /\ length hdr = 44%nat /\
    le_val (slice fp 4 4) = MPTABLE_START + 16 /\ byte_sum fp mod 256 = 0 /\
    le_val (slice hdr 4 2) = Zlength (hdr ++ entries) /\ byte_sum (hdr ++ entries) mod 256 = 0 /\
    (forall a k, a + Z.of_nat k <= MPTABLE_START \/ MPTABLE_START + compute_mp_size n <= a ->
       gm_read m' a k = gm_read m a k).
Proof. apply setup_mptable_spec. Qed.
End facts.

(** ** Witness: one processor *)

Definition demo_mem : FlatMem := mkFlat 0x9fc00 (replicate 256 1).

Lemma mptable_correct_witness :
  exists m' fp hdr, setup_mptable demo_mem 1 = Ok m' /\
    gm_read m' MPTABLE_START 240 = Some (fp ++ hdr ++ blob (mp_entries 1 2)) /\ byte_sum fp mod 256 = 0.
Proof.
  destruct (mptable_correct demo_mem 1 (replicate 240 1)) as (m' & fp & hdr & Hs & Hr & _ & _ & _ & Hf & _).
  - vm_compute. split; congruence.
  - vm_compute. reflexivity.
  - vm_compute. reflexivity.
  - exists m', fp, hdr. split; [exact Hs|split; [exact Hr|exact Hf]].
Defined.
End Mptable.
