(* ===== verification/Regs.v ===== *)
(** * Boot registers and tables ([arch/src/x86_64/gdt.rs], [regs.rs],
    [interrupts.rs])

    The initial state of an x86-64 vcpu: segment descriptors, the global
    descriptor table and the page tables in guest memory, control registers and
    the local interrupt controller.  KVM's [set_sregs] and the like are outside
    the repository; the values handed to them are the results.  The theorems
    show that the packed descriptors decode to what was encoded and that the
    page tables, walked as the processor walks them, map the first gigabyte
    onto itself. *)

From S2P Require Import Prelude ByteOrder GuestMem.

Module Regs.

(** ** Segment descriptors ([gdt.rs]) *)

Definition gdt_entry (flags base limit : Z) : Z :=
  ((base .& 0xff000000) .<< (56 - 24)) .| ((flags .& 0x0000f0ff) .<< 40)
  .| ((limit .& 0x000f0000) .<< (48 - 16)) .| ((base .& 0x00ffffff) .<< 16) .| (limit .& 0x0000ffff).

Definition get_base (entry : Z) : Z :=
  ((entry .& 0xff00000000000000) .>> 32) .| ((entry .& 0x000000ff00000000) .>> 16)
  .| ((entry .& 0x00000000ffff0000) .>> 16).

Definition get_limit (entry : Z) : Z :=
  wrap 32 (((entry .& 0x000f000000000000) .>> 32) .| (entry .& 0x000000000000ffff)).

Definition get_g (entry : Z) : Z := wrap 8 ((entry .& 0x0080000000000000) .>> 55).
Definition get_db (entry : Z) : Z := wrap 8 ((entry .& 0x0040000000000000) .>> 54).
Definition get_l (entry : Z) : Z := wrap 8 ((entry .& 0x0020000000000000) .>> 53).
Definition get_avl (entry : Z) : Z := wrap 8 ((entry .& 0x0010000000000000) .>> 52).
Definition get_p (entry : Z) : Z := wrap 8 ((entry .& 0x0000800000000000) .>> 47).
Definition get_dpl (entry : Z) : Z := wrap 8 ((entry .& 0x0000600000000000) .>> 45).
Definition get_s (entry : Z) : Z := wrap 8 ((entry .& 0x0000100000000000) .>> 44).
Definition get_type (entry : Z) : Z := wrap 8 ((entry .& 0x00000f0000000000) .>> 40).

Record kvm_segment := mkSegment {
  base : Z; limit : Z; selector : Z; type_ : Z; present : Z; dpl : Z; db : Z; s : Z; l : Z; g : Z; avl : Z;
  padding : Z; unusable : Z;
}.

Definition kvm_segment_from_gdt (entry table_index : Z) : kvm_segment := {|
  base := get_base entry; limit := get_limit entry; selector := wrap 8 (table_index * 8);
  type_ := get_type entry; present := get_p entry; dpl := get_dpl entry; db := get_db entry; s := get_s entry;
  l := get_l entry; g := get_g entry; avl := get_avl entry; padding := 0;
  unusable := if get_p entry =? 0 then 1 else 0 |}.

(** The encoding of the processor manual: a field of [n] bits from bit [k]. *)
Definition field (k n z : Z) : Z := (z .>> k) .& Z.ones n.

Lemma field_fits k n z : 0 <= n -> fits n (field k n z).
Proof. intros. unfold field. rewrite Z.land_ones by done. apply wrap_fits. done. Qed.

Lemma field_fits_le k n w z : 0 <= n <= w -> fits w (field k n z).
Proof.
  intros Hn. destruct (field_fits k n z) as [Hz Hlt]; [lia|]. split; [done|].
  eapply Z.lt_le_trans; [done|]. apply Z.pow_le_mono_r; lia.
Qed.

(** An extractor against the field it reads. *)
Ltac seg_field w :=
  unfold get_g, get_db, get_l, get_avl, get_p, get_dpl, get_s, get_type, get_limit, gdt_entry;
  apply (fits_bits_eq w); [lia|apply wrap_fits; lia|apply field_fits_le; lia|];
  unfold field;
  repeat match goal with |- context [Z.ones ?k] => let v := eval vm_compute in (Z.ones k) in change (Z.ones k) with v end;
  each_bit ltac:(bit_specs; done).

(** Packing a descriptor and unpacking it again gives back the base, the low
    twenty bits of the limit and every flag. *)
Theorem gdt_roundtrip flags b lim idx :
  fits 16 flags -> fits 32 b -> fits 32 lim -> 0 <= idx < 32 ->
  kvm_segment_from_gdt (gdt_entry flags b lim) idx = {|
    base := b; limit := field 0 20 lim; selector := idx * 8;
    type_ := field 0 4 flags; present := field 7 1 flags; dpl := field 5 2 flags; db := field 14 1 flags;
    s := field 4 1 flags; l := field 13 1 flags; g := field 15 1 flags; avl := field 12 1 flags; padding := 0;
    unusable := if field 7 1 flags =? 0 then 1 else 0 |}.
Proof.
  intros Hf Hb Hl Hi. unfold kvm_segment_from_gdt.
  assert (get_base (gdt_entry flags b lim) = b) as ->.
  { apply (fits_bits_eq 32); [lia| |done|unfold get_base, gdt_entry; each_bit ltac:(bit_specs; done)].
    unfold get_base. apply lor_fits; [lia|apply lor_fits; [lia|..]|].
    all: rewrite Z.shiftr_land; apply land_fits_r; [lia|split; vm_compute; congruence]. }
  assert (get_p (gdt_entry flags b lim) = field 7 1 flags) as -> by seg_field 8.
  f_equal; [seg_field 32|rewrite wrap_small; [done|unfold fits; lia]|seg_field 8..].
Qed.

(** ** Segment and control registers ([regs.rs]) *)

Definition PML4_START : Z := 0x9000.
Definition PDPTE_START : Z := 0xa000.
Definition PDE_START : Z := 0xb000.
Definition BOOT_GDT_OFFSET : Z := 0x500.
Definition BOOT_IDT_OFFSET : Z := 0x520.
Definition BOOT_GDT_MAX : nat := 4.
Definition EFER_LMA : Z := 0x400.
Definition EFER_LME : Z := 0x100.
Definition X86_CR0_PE : Z := 0x1.
Definition X86_CR0_PG : Z := 0x80000000.
Definition X86_CR4_PAE : Z := 0x20.
Definition BOOT_STACK_POINTER : Z := 0x8ff0.
Definition ZERO_PAGE_START : Z := 0x7000.
Definition RESET_VECTOR_SEV_AP : Z := 0xfff3.

Inductive Error := WriteGDT | WriteIDT | WritePDPTEAddress | WritePDEAddress | WritePML4Address.

Record kvm_dtable := mkDt { dt_base : Z; dt_limit : Z }.

(** The fields of [kvm_sregs] the code writes. *)
Record kvm_sregs := mkSregs {
  cs : kvm_segment; ds : kvm_segment; es : kvm_segment; fs : kvm_segment; gs : kvm_segment; ss : kvm_segment;
  tr : kvm_segment; gdt : kvm_dtable; idt : kvm_dtable; cr0 : Z; cr3 : Z; cr4 : Z; efer : Z;
}.

(** The fields of [kvm_regs] the code writes; the others are zero. *)
Record kvm_regs := mkRegs { rflags : Z; rip : Z; rsp : Z; rbp : Z; rsi : Z }.

(** [fcw] and [mxcsr]; the rest of the structure is zero. *)
Definition setup_fpu : Z * Z := (0x37f, 0x1f80).

Definition setup_regs (tee : bool) (boot_ip id : Z) : kvm_regs :=
  if (id =? 0) || negb tee then mkRegs 2 boot_ip BOOT_STACK_POINTER BOOT_STACK_POINTER ZERO_PAGE_START
  else mkRegs 2 RESET_VECTOR_SEV_AP 0 0 0.

Section memory.
Context {M : Type} `{GuestMemory M}.

Fixpoint write_gdt_table (table : list Z) (index : Z) (m : M) : result Error M :=
  match table with
  | [] => Ok m
  | entry :: table =>
      addr ← ok_or (gm_checked_offset m BOOT_GDT_OFFSET (index * 8)) WriteGDT;
      m ← ok_or (gm_write m addr (le_bytes 8 entry)) WriteGDT;
      write_gdt_table table (index + 1) m
  end.

Definition write_idt_value (val : Z) (m : M) : result Error M :=
  ok_or (gm_write m BOOT_IDT_OFFSET (le_bytes 8 val)) WriteIDT.

Definition gdt_table : list Z :=
  [gdt_entry 0 0 0; gdt_entry 0xa09b 0 0xfffff; gdt_entry 0xc093 0 0xfffff; gdt_entry 0x808b 0 0xfffff].

Definition configure_segments_and_sregs (m : M) (sr : kvm_sregs) : result Error (M * kvm_sregs) :=
  let code_seg := kvm_segment_from_gdt (gdt_entry 0xa09b 0 0xfffff) 1 in
  let data_seg := kvm_segment_from_gdt (gdt_entry 0xc093 0 0xfffff) 2 in
  let tss_seg := kvm_segment_from_gdt (gdt_entry 0x808b 0 0xfffff) 3 in
  m ← write_gdt_table gdt_table 0 m;
  m ← write_idt_value 0 m;
  Ok (m, {| cs := code_seg; ds := data_seg; es := data_seg; fs := data_seg; gs := data_seg; ss := data_seg;
            tr := tss_seg; gdt := mkDt BOOT_GDT_OFFSET (8 * 4 - 1); idt := mkDt BOOT_IDT_OFFSET (8 - 1);
            cr0 := cr0 sr .| X86_CR0_PE; cr3 := cr3 sr; cr4 := cr4 sr;
            efer := efer sr .| (EFER_LME .| EFER_LMA) |}).

(** The loop over the 512 two-megabyte entries. *)
Fixpoint write_pdes (fuel : nat) (i : Z) (m : M) : result Error M :=
  match fuel with
  | O => Ok m
  | S fuel =>
      m ← ok_or (gm_write m (PDE_START +[64] wrap 64 (i * 8)) (le_bytes 8 (wrap 64 (wrap 64 (i .<< 21) + 0x83))))
             WritePDEAddress;
      write_pdes fuel (i + 1) m
  end.

Definition setup_page_tables (m : M) (sr : kvm_sregs) : result Error (M * kvm_sregs) :=
  m ← ok_or (gm_write m PML4_START (le_bytes 8 (PDPTE_START .| 0x03))) WritePML4Address;
  m ← ok_or (gm_write m PDPTE_START (le_bytes 8 (PDE_START .| 0x03))) WritePDPTEAddress;
  m ← write_pdes 512 0 m;
  Ok (m, {| cs := cs sr; ds := ds sr; es := es sr; fs := fs sr; gs := gs sr; ss := ss sr; tr := tr sr;
            gdt := gdt sr; idt := idt sr; cr0 := cr0 sr .| X86_CR0_PG; cr3 := PML4_START;
            cr4 := cr4 sr .| X86_CR4_PAE; efer := efer sr |}).

Definition setup_sregs (tee : bool) (m : M) (sr : kvm_sregs) : result Error (M * kvm_sregs) :=
  if negb tee then
    '(m, sr) ← configure_segments_and_sregs m sr;
    setup_page_tables m sr
  else Ok (m, sr).
End memory.

(** ** The processor's page walk *)

Section walk.
Context {M : Type} {GM : GuestMemory M} {GML : GuestMemoryLaws M}.
Implicit Types m : M.

Definition rd64 m (a : Z) : option Z := le_val <$> gm_read m a 8.

(** Four-level translation of the manual, pages of two megabytes only: the
    levels name the next table in bits 12 to 51, a leaf its page in bits 21 to
    51. *)
Definition walk m (cr3 va : Z) : option Z :=
  pml4e ← rd64 m (cr3 + 8 * field 39 9 va);
  if negb (Z.testbit pml4e 0) then None else
  pdpte ← rd64 m ((field 12 40 pml4e .<< 12) + 8 * field 30 9 va);
  if negb (Z.testbit pdpte 0) || Z.testbit pdpte 7 then None else
  pde ← rd64 m ((field 12 40 pdpte .<< 12) + 8 * field 21 9 va);
  if negb (Z.testbit pde 0) || negb (Z.testbit pde 7) then None
  else Some ((field 21 31 pde .<< 21) + va mod 2 ^ 21).

Lemma field_div k n z : 0 <= k -> 0 <= n -> field k n z = z / 2 ^ k mod 2 ^ n.
Proof. intros. unfold field. by rewrite Z.land_ones, Z.shiftr_div_pow2. Qed.

Lemma rd64_written m m' a v : gm_write m a (le_bytes 8 v) = Some m' -> fits 64 v -> rd64 m' a = Some v.
Proof.
  intros Hw Hv. unfold rd64. apply gm_write_read in Hw; [|apply le_bytes_ok].
  rewrite length_le_bytes in Hw. rewrite Hw. cbn [fmap option_fmap option_map].
  f_equal. rewrite le_val_le_bytes. by apply wrap_small.
Qed.

Lemma write_in_range m a n b k :
  is_Some (gm_read m a n) -> a <= b -> b + 8 <= a + Z.of_nat n ->
  exists m', gm_write m b (le_bytes 8 k) = Some m' /\ is_Some (gm_read m' a n) /\
    forall x j, x + Z.of_nat j <= b \/ b + 8 <= x -> gm_read m' x j = gm_read m x j.
Proof.
  intros [old Hr] Hab Hb. pose proof (gm_read_sub _ _ _ _ (Z.to_nat (b - a)) 8 Hr ltac:(lia)) as Hs.
  rewrite Z2Nat.id in Hs by lia. replace (a + (b - a)) with b in Hs by lia.
  destruct (gm_write_total m b (le_bytes 8 k) _ ltac:(rewrite length_le_bytes; exact Hs)) as [m' Hw];
    [apply le_bytes_ok|].
  exists m'. split_and!; [done|eapply gm_write_domain; eauto|].
  intros x j Hx. apply (gm_write_frame _ _ _ _ _ _ Hw). rewrite length_le_bytes. lia.
Qed.

Definition pde (j : Z) : Z := j * 2 ^ 21 + 0x83.

Lemma pde_value j : 0 <= j < 512 -> wrap 64 (wrap 64 (j .<< 21) + 0x83) = pde j /\ fits 64 (pde j).
Proof.
  intros Hj. unfold pde. rewrite Z.shiftl_mul_pow2 by lia.
  assert (fits 64 (j * 2 ^ 21)) by (unfold fits; lia). rewrite (wrap_small 64 (j * _)) by done.
  assert (fits 64 (j * 2 ^ 21 + 0x83)) by (unfold fits; lia). by rewrite wrap_small.
Qed.

(** The flag bits and the page number of an entry. *)
Lemma pde_low j i : 0 <= i < 21 -> Z.testbit (pde j) i = Z.testbit 0x83 i.
Proof.
  intros Hi. unfold pde. rewrite <- (Z.mod_pow2_bits_low _ 21 i) by lia.
  rewrite Z.add_comm, Z_mod_plus_full. apply Z.mod_pow2_bits_low. lia.
Qed.

Lemma pde_page j : 0 <= j < 512 -> field 21 31 (pde j) .<< 21 = j * 2 ^ 21.
Proof.
  intros Hj. rewrite field_div, Z.shiftl_mul_pow2 by lia. unfold pde.
  rewrite Z.div_add_l by lia. change (0x83 / 2 ^ 21) with 0. rewrite Z.add_0_r, Z.mod_small by lia. done.
Qed.

Lemma write_pdes_spec fuel i m :
  0 <= i -> i + Z.of_nat fuel = 512 -> is_Some (gm_read m PML4_START 0x3000) ->
  exists m', write_pdes fuel i m = Ok m' /\
    (forall j, i <= j < 512 -> rd64 m' (PDE_START + 8 * j) = Some (pde j)) /\
    (forall x n, x + Z.of_nat n <= PDE_START + 8 * i -> gm_read m' x n = gm_read m x n).
Proof.
  revert i m. induction fuel as [|fuel IH]; intros i m Hi Hf Hr.
  { exists m. split_and!; [done|lia|done]. }
  cbn [write_pdes]. destruct (pde_value i ltac:(lia)) as [-> Hpf].
  assert (PDE_START +[64] wrap 64 (i * 8) = PDE_START + 8 * i) as ->.
  { unfold PDE_START. rewrite !wrap_small by (rewrite ?wrap_small; unfold fits; lia). lia. }
  destruct (write_in_range m PML4_START 0x3000 (PDE_START + 8 * i) (pde i) Hr) as (m1 & Hw & Hr1 & Hfr);
    [unfold PML4_START, PDE_START; lia..|].
  rewrite Hw. cbn [ok_or mbind result_bind].
  destruct (IH (i + 1) m1 ltac:(lia) ltac:(lia) Hr1) as (m' & -> & Hall & Hfr').
  exists m'. split_and!; [done| |].
  - intros j Hj. destruct (Z.eq_dec j i) as [->|]; [|apply Hall; lia].
    unfold rd64. rewrite Hfr' by lia. by apply (rd64_written m).
  - intros x n Hx. rewrite Hfr', Hfr by lia. done.
Qed.

(** The boot page tables: with the three table pages mapped, the set-up
    succeeds, turns on paging with physical address extension, and every
    address of the first gigabyte is translated to itself. *)
Theorem boot_page_tables_identity m sr :
  is_Some (gm_read m PML4_START 0x3000) ->
  exists m' sr', setup_page_tables m sr = Ok (m', sr') /\
    Z.testbit (cr0 sr') 31 = true /\ Z.testbit (cr4 sr') 5 = true /\
    forall va, 0 <= va < 2 ^ 30 -> walk m' (cr3 sr') va = Some va.
Proof.
  intros Hr. unfold setup_page_tables.
  destruct (write_in_range m PML4_START 0x3000 PML4_START (PDPTE_START .| 3) Hr) as (m1 & Hw1 & Hr1 & _);
    [lia|unfold PML4_START; lia|].
  rewrite Hw1. cbn [ok_or mbind result_bind].
  destruct (write_in_range m1 PML4_START 0x3000 PDPTE_START (PDE_START .| 3) Hr1) as (m2 & Hw2 & Hr2 & Hf2);
    [unfold PML4_START, PDPTE_START; lia..|].
  rewrite Hw2. cbn [ok_or mbind result_bind].
  destruct (write_pdes_spec 512 0 m2 ltac:(lia) ltac:(lia) Hr2) as (m3 & -> & Hpde & Hf3).
  cbn [mbind result_bind]. do 2 eexists. split; [done|]. cbn [cr0 cr3 cr4].
  split; [by rewrite Z.lor_spec, orb_true_r|]. split; [by rewrite Z.lor_spec, orb_true_r|].
  intros va Hva. unfold walk.
  assert (field 39 9 va = 0) as -> by (rewrite field_div by lia; rewrite (Z.div_small va) by lia; done).
  assert (field 30 9 va = 0) as -> by (rewrite field_div by lia; rewrite (Z.div_small va) by lia; done).
  assert (0 <= va / 2 ^ 21 < 512) as Hj.
  { split; [apply Z.div_pos; lia|apply Z.div_lt_upper_bound; lia]. }
  assert (field 21 9 va = va / 2 ^ 21) as -> by (rewrite field_div by lia; apply Z.mod_small; done).
  assert (rd64 m3 PML4_START = Some (PDPTE_START .| 3)) as E1.
  { unfold rd64. rewrite Hf3, Hf2 by (unfold PML4_START, PDPTE_START, PDE_START; lia).
    apply (rd64_written m); [done|split; vm_compute; congruence]. }
  assert (rd64 m3 PDPTE_START = Some (PDE_START .| 3)) as E2.
  { unfold rd64. rewrite Hf3 by (unfold PDPTE_START, PDE_START; lia).
    apply (rd64_written m1); [done|split; vm_compute; congruence]. }
  rewrite Z.mul_0_r, Z.add_0_r, E1. cbn [mbind option_bind].
  change (Z.testbit (PDPTE_START .| 3) 0) with true. cbn [negb].
  change (field 12 40 (PDPTE_START .| 3) .<< 12) with PDPTE_START.
  rewrite Z.add_0_r, E2. cbn [mbind option_bind]. change (Z.testbit (PDE_START .| 3) 0) with true.
  change (Z.testbit (PDE_START .| 3) 7) with false. cbn [negb orb].
  change (field 12 40 (PDE_START .| 3) .<< 12) with PDE_START.
  rewrite Hpde by lia. cbn [mbind option_bind].
  rewrite !pde_low by lia. cbn [negb orb]. rewrite pde_page by done. f_equal.
  pose proof (Z.div_mod va (2 ^ 21) ltac:(lia)). lia.
Qed.
End walk.

(** ** The local interrupt controller ([interrupts.rs])

    [kvm_lapic_state] is an array of 1024 signed bytes. *)

Definition APIC_LVT0 : nat := 0x350.
Definition APIC_LVT1 : nat := 0x360.
Definition APIC_MODE_NMI : Z := 0x4.
Definition APIC_MODE_EXTINT : Z := 0x7.

(** [expect] on a range outside the array panics. *)
Definition get_klapic_reg (regs : list Z) (reg_offset : nat) : outcome Z :=
  if (reg_offset + 4 <=? length regs)%nat
  then Ret (wrap 32 (ByteOrder.read_le_i32 (slice regs reg_offset 4)))
  else Panic.

Definition set_klapic_reg (regs : list Z) (reg_offset : nat) (value : Z) : outcome (list Z) :=
  if (reg_offset + 4 <=? length regs)%nat
  then Ret (splice regs reg_offset (ByteOrder.write_le_i32 (slice regs reg_offset 4) (to_signed 32 value)))
  else Panic.

Definition set_apic_delivery_mode (reg mode : Z) : Z := (reg .& bnot 32 0x700) .| wrap 32 (mode .<< 8).

(** The state handed back to KVM. *)
Definition set_lint (klapic : list Z) : outcome (list Z) :=
  lvt_lint0 ← get_klapic_reg klapic APIC_LVT0;
  klapic ← set_klapic_reg klapic APIC_LVT0 (set_apic_delivery_mode lvt_lint0 APIC_MODE_EXTINT);
  lvt_lint1 ← get_klapic_reg klapic APIC_LVT1;
  set_klapic_reg klapic APIC_LVT1 (set_apic_delivery_mode lvt_lint1 APIC_MODE_NMI).

Lemma delivery_mode_bits reg mode :
  fits 32 reg -> fits 3 mode ->
  field 8 3 (set_apic_delivery_mode reg mode) = mode /\
  forall i, 0 <= i < 32 -> ~ (8 <= i < 11) -> Z.testbit (set_apic_delivery_mode reg mode) i = Z.testbit reg i.
Proof.
  intros Hr Hm. unfold set_apic_delivery_mode, field. split.
  - change (Z.ones 3) with 7. bitwise 3; [apply land_fits_r; [lia|split; vm_compute; congruence]|done].
  - intros i Hi Hn. assert (Z.testbit 0x700 i = false) as Hc.
    { destruct (Z.lt_ge_cases i 8).
      - change 0x700 with (7 * 2 ^ 8). by rewrite Z.mul_pow2_bits_low by lia.
      - apply Z.bits_above_log2; [done|]. change (Z.log2 0x700) with 10. lia. }
    rewrite Z.lor_spec, Z.land_spec, bnot_testbit, Hc, wrap_testbit, Z.shiftl_spec by lia. cbn [negb].
    rewrite andb_true_r. destruct (Z.lt_ge_cases i 8).
    + by rewrite (Z.testbit_neg_r mode), orb_false_r by lia.
    + rewrite (testbit_high 3 mode), orb_false_r by (done || lia). done.
Qed.

Lemma wrap_to_signed w z : 0 < w -> wrap w (to_signed w z) = wrap w z.
Proof.
  intros Hw. unfold to_signed. case_bool; [apply wrap_wrap|]. unfold wrap.
  rewrite <- (Z_mod_plus_full (z mod 2 ^ w - 2 ^ w) 1), Z.mul_1_l, Z.sub_add. apply Zmod_mod.
Qed.

Lemma klapic_written regs off v :
  (off + 4 <= length regs)%nat -> fits 32 v ->
  exists regs', set_klapic_reg regs off v = Ret regs' /\ length regs' = length regs /\
    get_klapic_reg regs' off = Ret v /\
    forall o, (o + 4 <= off \/ off + 4 <= o)%nat -> get_klapic_reg regs' o = get_klapic_reg regs o.
Proof.
  intros Hl Hv. unfold set_klapic_reg, get_klapic_reg.
  destruct (Nat.leb_spec (off + 4) (length regs)); [|lia]. eexists. split; [done|].
  assert (length (slice regs off 4) = 4%nat) as Hs by (unfold slice; rewrite length_take, length_drop; lia).
  set (bs := ByteOrder.write_le_i32 _ _).
  assert (bs = map (to_signed 8) (le_bytes 4 (wrap 32 v))) as Hbs.
  { unfold bs, ByteOrder.write_le_i32. rewrite ByteOrder.write_array_full by (rewrite length_map, length_le_bytes; lia).
    rewrite length_map, length_le_bytes, drop_ge, app_nil_r by lia. by rewrite wrap_to_signed. }
  assert (length bs = 4%nat) as Hbl by by rewrite Hbs, length_map, length_le_bytes.
  rewrite length_splice. split_and!; [done| |].
  - destruct (Nat.leb_spec (off + 4) (length regs)); [|lia]. do 2 f_equal.
    replace 4%nat with (length bs) at 1. rewrite slice_splice_same by lia.
    rewrite Hbs. unfold ByteOrder.read_le_i32. rewrite wrap_to_signed by lia. unfold ByteOrder.read_le.
    rewrite ByteOrder.read_array_full, take_ge by (rewrite !length_map, length_le_bytes; lia).
    rewrite map_map. rewrite (map_ext _ (wrap 8)) by (intros; by apply wrap_to_signed).
    rewrite map_wrap_bytes by apply le_bytes_ok. rewrite le_val_le_bytes.
    change (8 * Z.of_nat 4) with 32. by rewrite !wrap_wrap, wrap_small.
  - intros o Ho. destruct (o + 4 <=? length regs)%nat; [|done]. do 3 f_equal.
    apply slice_splice_disjoint; rewrite Hbl; lia.
Qed.

(** The local interrupt lines: LINT0 is set to external interrupts and LINT1
    to non-maskable ones, and every other bit of the controller's registers is
    kept. *)
Theorem lint_configured regs :
  length regs = 1024%nat -> exists regs' r0 r1 v0 v1,
    set_lint regs = Ret regs' /\
    get_klapic_reg regs APIC_LVT0 = Ret r0 /\ get_klapic_reg regs APIC_LVT1 = Ret r1 /\
    get_klapic_reg regs' APIC_LVT0 = Ret v0 /\ get_klapic_reg regs' APIC_LVT1 = Ret v1 /\
    field 8 3 v0 = APIC_MODE_EXTINT /\ field 8 3 v1 = APIC_MODE_NMI /\
    (forall i, 0 <= i < 32 -> ~ (8 <= i < 11) -> Z.testbit v0 i = Z.testbit r0 i /\ Z.testbit v1 i = Z.testbit r1 i) /\
    (forall o, (o + 4 <= APIC_LVT0 \/ APIC_LVT1 + 4 <= o)%nat -> get_klapic_reg regs' o = get_klapic_reg regs o).
Proof.
  intros Hl. unfold set_lint.
  assert (forall (rs : list Z) o, (o + 4 <= length rs)%nat -> exists r, get_klapic_reg rs o = Ret r /\ fits 32 r) as Hget.
  { intros rs o Ho. unfold get_klapic_reg. destruct (Nat.leb_spec (o + 4) (length rs)); [|lia].
    eexists. split; [done|]. apply wrap_fits. lia. }
  assert (forall r mode, fits 32 r -> fits 3 mode -> fits 32 (set_apic_delivery_mode r mode)) as Hfit.
  { intros r mode Hr Hm. unfold set_apic_delivery_mode.
    apply lor_fits; [lia|apply land_fits; [lia|done]|apply wrap_fits; lia]. }
  assert (fits 3 APIC_MODE_EXTINT /\ fits 3 APIC_MODE_NMI) as [He Hn] by (repeat split; vm_compute; congruence).
  destruct (Hget regs APIC_LVT0) as (r0 & Hr0 & Hf0); [rewrite Hl; unfold APIC_LVT0; lia|].
  destruct (Hget regs APIC_LVT1) as (r1 & Hr1 & Hf1); [rewrite Hl; unfold APIC_LVT1; lia|].
  rewrite Hr0. cbn [mbind outcome_bind].
  destruct (klapic_written regs APIC_LVT0 _ ltac:(rewrite Hl; unfold APIC_LVT0; lia) (Hfit r0 _ Hf0 He))
    as (k1 & -> & Hl1 & Hg1 & Ho1). cbn [mbind outcome_bind].
  rewrite Ho1, Hr1 by (unfold APIC_LVT0, APIC_LVT1; lia). cbn [mbind outcome_bind].
  destruct (klapic_written k1 APIC_LVT1 _ ltac:(rewrite Hl1, Hl; unfold APIC_LVT1; lia) (Hfit r1 _ Hf1 Hn))
    as (k2 & -> & Hl2 & Hg2 & Ho2).
  destruct (delivery_mode_bits r0 APIC_MODE_EXTINT Hf0 He) as [Hm0 Hb0].
  destruct (delivery_mode_bits r1 APIC_MODE_NMI Hf1 Hn) as [Hm1 Hb1].
  eexists k2, r0, r1, _, _. split; [done|]. split_and!; [done|done| |exact Hg2|done|done| |].
  - rewrite Ho2 by (unfold APIC_LVT0, APIC_LVT1; lia). exact Hg1.
  - intros i Hi Hx. split; [by apply Hb0|by apply Hb1].
  - intros o Ho. rewrite Ho2, Ho1 by (unfold APIC_LVT0, APIC_LVT1 in *; lia). done.
Qed.

(** ** Witnesses *)

Lemma gdt_roundtrip_witness : base (kvm_segment_from_gdt (gdt_entry 0xa09b 0x100000 0xfffff) 1) = 0x100000.
Proof. rewrite gdt_roundtrip; [reflexivity|split; vm_compute; congruence..]. Defined.

Definition demo_low : FlatMem := mkFlat 0x9000 (replicate 12288 0).

Definition zero_segment : kvm_segment := mkSegment 0 0 0 0 0 0 0 0 0 0 0 0 0.
Definition zero_sregs : kvm_sregs :=
  mkSregs zero_segment zero_segment zero_segment zero_segment zero_segment zero_segment zero_segment
    (mkDt 0 0) (mkDt 0 0) 0 0 0 0.

Lemma boot_page_tables_identity_witness :
  exists m' sr', setup_page_tables demo_low zero_sregs = Ok (m', sr') /\ walk m' (cr3 sr') 0x12345678 = Some 0x12345678.
Proof.
  destruct (boot_page_tables_identity demo_low zero_sregs) as (m' & sr' & Hs & _ & _ & Hw).
  - exists (replicate 12288 0). vm_compute. reflexivity.
  - exists m', sr'. split; [exact Hs|apply Hw; lia].
Defined.

Lemma lint_configured_witness :
  exists regs' v0, set_lint (replicate 1024 0) = Ret regs' /\ get_klapic_reg regs' APIC_LVT0 = Ret v0 /\
    field 8 3 v0 = 7.
Proof.
  destruct (lint_configured (replicate 1024 0)) as (regs' & r0 & r1 & v0 & v1 & Hs & _ & _ & Hv & _ & Hf & _);
    [reflexivity|].
  exists regs', v0. split; [exact Hs|split; [exact Hv|exact Hf]].
Defined.
End Regs.
