(* ===== verification/Msr.v ===== *)
(** * Model-specific registers ([arch/src/x86_64/msr.rs])

    The registers saved with a vcpu and the values set at boot; the register
    numbers are those of [arch_gen/src/x86/msr_index.rs]. *)

From S2P Require Import Prelude.

Module Msr.

Record MsrRange := mkMsrRange { base : Z; nmsrs : Z }.

Definition contains (r : MsrRange) (msr : Z) : bool := (base r <=? msr) && (msr <? base r +[32] nmsrs r).

Definition APIC_BASE_MSR : Z := 0x800.
Definition APIC_MSR_INDEXES : Z := 0x400.
Definition MSR_KVM_WALL_CLOCK_NEW : Z := 0x4b564d00.
Definition MSR_KVM_SYSTEM_TIME_NEW : Z := 0x4b564d01.
Definition MSR_KVM_ASYNC_PF_EN : Z := 0x4b564d02.
Definition MSR_KVM_STEAL_TIME : Z := 0x4b564d03.
Definition MSR_KVM_PV_EOI_EN : Z := 0x4b564d04.
Definition MSR_IA32_SPEC_CTRL : Z := 0x48.
Definition MSR_IA32_PRED_CMD : Z := 0x49.
Definition MTRR_ENABLE : Z := 0x800.
Definition MTRR_MEM_TYPE_WB : Z := 0x6.

Definition MSR_IA32_P5_MC_ADDR : Z := 0x0.
Definition MSR_IA32_P5_MC_TYPE : Z := 0x1.
Definition MSR_IA32_TSC : Z := 0x10.
Definition MSR_IA32_PLATFORM_ID : Z := 0x17.
Definition MSR_IA32_APICBASE : Z := 0x1b.
Definition MSR_IA32_EBL_CR_POWERON : Z := 0x2a.
Definition MSR_EBC_FREQUENCY_ID : Z := 0x2c.
Definition MSR_SMI_COUNT : Z := 0x34.
Definition MSR_IA32_FEATURE_CONTROL : Z := 0x3a.
Definition MSR_IA32_TSC_ADJUST : Z := 0x3b.
Definition MSR_IA32_UCODE_WRITE : Z := 0x79.
Definition MSR_IA32_UCODE_REV : Z := 0x8b.
Definition MSR_IA32_SMBASE : Z := 0x9e.
Definition MSR_FSB_FREQ : Z := 0xcd.
Definition MSR_PLATFORM_INFO : Z := 0xce.
Definition MSR_PKG_CST_CONFIG_CONTROL : Z := 0xe2.
Definition MSR_IA32_MPERF : Z := 0xe7.
Definition MSR_IA32_APERF : Z := 0xe8.
Definition MSR_MTRRcap : Z := 0xfe.
Definition MSR_IA32_BBL_CR_CTL3 : Z := 0x11e.
Definition MSR_IA32_SYSENTER_CS : Z := 0x174.
Definition MSR_IA32_SYSENTER_ESP : Z := 0x175.
Definition MSR_IA32_SYSENTER_EIP : Z := 0x176.
Definition MSR_IA32_MCG_CAP : Z := 0x179.
Definition MSR_IA32_MCG_STATUS : Z := 0x17a.
Definition MSR_IA32_MCG_CTL : Z := 0x17b.
Definition MSR_IA32_PERF_STATUS : Z := 0x198.
Definition MSR_IA32_MISC_ENABLE : Z := 0x1a0.
Definition MSR_MISC_FEATURE_CONTROL : Z := 0x1a4.
Definition MSR_MISC_PWR_MGMT : Z := 0x1aa.
Definition MSR_TURBO_RATIO_LIMIT : Z := 0x1ad.
Definition MSR_TURBO_RATIO_LIMIT1 : Z := 0x1ae.
Definition MSR_IA32_DEBUGCTLMSR : Z := 0x1d9.
Definition MSR_IA32_LASTBRANCHFROMIP : Z := 0x1db.
Definition MSR_IA32_LASTBRANCHTOIP : Z := 0x1dc.
Definition MSR_IA32_LASTINTFROMIP : Z := 0x1dd.
Definition MSR_IA32_LASTINTTOIP : Z := 0x1de.
Definition MSR_IA32_POWER_CTL : Z := 0x1fc.
Definition MSR_CORE_C3_RESIDENCY : Z := 0x3fc.
Definition MSR_IA32_MC0_CTL : Z := 0x400.
Definition MSR_RAPL_POWER_UNIT : Z := 0x606.
Definition MSR_PKGC3_IRTL : Z := 0x60a.
Definition MSR_PKG_POWER_LIMIT : Z := 0x610.
Definition MSR_PKG_ENERGY_STATUS : Z := 0x611.
Definition MSR_PKG_PERF_STATUS : Z := 0x613.
Definition MSR_PKG_POWER_INFO : Z := 0x614.
Definition MSR_DRAM_POWER_LIMIT : Z := 0x618.
Definition MSR_DRAM_ENERGY_STATUS : Z := 0x619.
Definition MSR_DRAM_PERF_STATUS : Z := 0x61b.
Definition MSR_DRAM_POWER_INFO : Z := 0x61c.
Definition MSR_CONFIG_TDP_NOMINAL : Z := 0x648.
Definition MSR_CONFIG_TDP_LEVEL_1 : Z := 0x649.
Definition MSR_CONFIG_TDP_LEVEL_2 : Z := 0x64a.
Definition MSR_CONFIG_TDP_CONTROL : Z := 0x64b.
Definition MSR_TURBO_ACTIVATION_RATIO : Z := 0x64c.
Definition MSR_IA32_TSCDEADLINE : Z := 0x6e0.
Definition MSR_IA32_BNDCFGS : Z := 0xd90.
Definition MSR_EFER : Z := 0xc0000080.
Definition MSR_STAR : Z := 0xc0000081.
Definition MSR_LSTAR : Z := 0xc0000082.
Definition MSR_CSTAR : Z := 0xc0000083.
Definition MSR_SYSCALL_MASK : Z := 0xc0000084.
Definition MSR_FS_BASE : Z := 0xc0000100.
Definition MSR_GS_BASE : Z := 0xc0000101.
Definition MSR_KERNEL_GS_BASE : Z := 0xc0000102.
Definition MSR_TSC_AUX : Z := 0xc0000103.
Definition MSR_MTRRdefType : Z := 0x2ff.
Definition MSR_IA32_MISC_ENABLE_FAST_STRING : Z := 0x1.

Definition SINGLE_MSR (msr : Z) : MsrRange := mkMsrRange msr 1.
Definition MSR_RANGE (first count : Z) : MsrRange := mkMsrRange first count.

Definition WHITELISTED_MSR_RANGES : list MsrRange := [
  SINGLE_MSR MSR_IA32_P5_MC_ADDR;
  SINGLE_MSR MSR_IA32_P5_MC_TYPE;
  SINGLE_MSR MSR_IA32_TSC;
  SINGLE_MSR MSR_IA32_PLATFORM_ID;
  SINGLE_MSR MSR_IA32_APICBASE;
  SINGLE_MSR MSR_IA32_EBL_CR_POWERON;
  SINGLE_MSR MSR_EBC_FREQUENCY_ID;
  SINGLE_MSR MSR_SMI_COUNT;
  SINGLE_MSR MSR_IA32_FEATURE_CONTROL;
  SINGLE_MSR MSR_IA32_TSC_ADJUST;
  SINGLE_MSR MSR_IA32_SPEC_CTRL;
  SINGLE_MSR MSR_IA32_PRED_CMD;
  SINGLE_MSR MSR_IA32_UCODE_WRITE;
  SINGLE_MSR MSR_IA32_UCODE_REV;
  SINGLE_MSR MSR_IA32_SMBASE;
  SINGLE_MSR MSR_FSB_FREQ;
  SINGLE_MSR MSR_PLATFORM_INFO;
  SINGLE_MSR MSR_PKG_CST_CONFIG_CONTROL;
  SINGLE_MSR MSR_IA32_MPERF;
  SINGLE_MSR MSR_IA32_APERF;
  SINGLE_MSR MSR_MTRRcap;
  SINGLE_MSR MSR_IA32_BBL_CR_CTL3;
  SINGLE_MSR MSR_IA32_SYSENTER_CS;
  SINGLE_MSR MSR_IA32_SYSENTER_ESP;
  SINGLE_MSR MSR_IA32_SYSENTER_EIP;
  SINGLE_MSR MSR_IA32_MCG_CAP;
  SINGLE_MSR MSR_IA32_MCG_STATUS;
  SINGLE_MSR MSR_IA32_MCG_CTL;
  SINGLE_MSR MSR_IA32_PERF_STATUS;
  SINGLE_MSR MSR_IA32_MISC_ENABLE;
  SINGLE_MSR MSR_MISC_FEATURE_CONTROL;
  SINGLE_MSR MSR_MISC_PWR_MGMT;
  SINGLE_MSR MSR_TURBO_RATIO_LIMIT;
  SINGLE_MSR MSR_TURBO_RATIO_LIMIT1;
  SINGLE_MSR MSR_IA32_DEBUGCTLMSR;
  SINGLE_MSR MSR_IA32_LASTBRANCHFROMIP;
  SINGLE_MSR MSR_IA32_LASTBRANCHTOIP;
  SINGLE_MSR MSR_IA32_LASTINTFROMIP;
  SINGLE_MSR MSR_IA32_LASTINTTOIP;
  SINGLE_MSR MSR_IA32_POWER_CTL;
  MSR_RANGE 0x200 0x100;
  MSR_RANGE MSR_CORE_C3_RESIDENCY 3;
  MSR_RANGE MSR_IA32_MC0_CTL 0x80;
  SINGLE_MSR MSR_RAPL_POWER_UNIT;
  MSR_RANGE MSR_PKGC3_IRTL 3;
  SINGLE_MSR MSR_PKG_POWER_LIMIT;
  SINGLE_MSR MSR_PKG_ENERGY_STATUS;
  SINGLE_MSR MSR_PKG_PERF_STATUS;
  SINGLE_MSR MSR_PKG_POWER_INFO;
  SINGLE_MSR MSR_DRAM_POWER_LIMIT;
  SINGLE_MSR MSR_DRAM_ENERGY_STATUS;
  SINGLE_MSR MSR_DRAM_PERF_STATUS;
  SINGLE_MSR MSR_DRAM_POWER_INFO;
  SINGLE_MSR MSR_CONFIG_TDP_NOMINAL;
  SINGLE_MSR MSR_CONFIG_TDP_LEVEL_1;
  SINGLE_MSR MSR_CONFIG_TDP_LEVEL_2;
  SINGLE_MSR MSR_CONFIG_TDP_CONTROL;
  SINGLE_MSR MSR_TURBO_ACTIVATION_RATIO;
  SINGLE_MSR MSR_IA32_TSCDEADLINE;
  MSR_RANGE APIC_BASE_MSR APIC_MSR_INDEXES;
  SINGLE_MSR MSR_IA32_BNDCFGS;
  SINGLE_MSR MSR_KVM_WALL_CLOCK_NEW;
  SINGLE_MSR MSR_KVM_SYSTEM_TIME_NEW;
  SINGLE_MSR MSR_KVM_ASYNC_PF_EN;
  SINGLE_MSR MSR_KVM_STEAL_TIME;
  SINGLE_MSR MSR_KVM_PV_EOI_EN;
  SINGLE_MSR MSR_EFER;
  SINGLE_MSR MSR_STAR;
  SINGLE_MSR MSR_LSTAR;
  SINGLE_MSR MSR_CSTAR;
  SINGLE_MSR MSR_SYSCALL_MASK;
  SINGLE_MSR MSR_FS_BASE;
  SINGLE_MSR MSR_GS_BASE;
  SINGLE_MSR MSR_KERNEL_GS_BASE;
  SINGLE_MSR MSR_TSC_AUX].

Definition msr_should_serialize (index : Z) : bool :=
  if (index =? MSR_IA32_FEATURE_CONTROL) || (index =? MSR_IA32_MCG_CTL) then false
  else existsb (fun range => contains range index) WHITELISTED_MSR_RANGES.

Record kvm_msr_entry := mkEntry { msr_index : Z; data : Z }.

Definition create_boot_msr_entries : list kvm_msr_entry :=
  let msr_entry_default msr := mkEntry msr 0 in
  [msr_entry_default MSR_IA32_SYSENTER_CS; msr_entry_default MSR_IA32_SYSENTER_ESP;
   msr_entry_default MSR_IA32_SYSENTER_EIP; msr_entry_default MSR_STAR; msr_entry_default MSR_CSTAR;
   msr_entry_default MSR_KERNEL_GS_BASE; msr_entry_default MSR_SYSCALL_MASK; msr_entry_default MSR_LSTAR;
   msr_entry_default MSR_IA32_TSC; mkEntry MSR_IA32_MISC_ENABLE MSR_IA32_MISC_ENABLE_FAST_STRING;
   mkEntry MSR_MTRRdefType (MTRR_ENABLE .| MTRR_MEM_TYPE_WB)].

Inductive Error := GetSupportedModelSpecificRegisters | SetModelSpecificRegisters | SetModelSpecificRegistersCount.

(** [set_msrs] is KVM's: it answers how many registers it wrote. *)
Definition setup_msrs (set_msrs : list kvm_msr_entry -> option Z) : result Error unit :=
  let entry_vec := create_boot_msr_entries in
  match set_msrs entry_vec with
  | None => Err SetModelSpecificRegisters
  | Some msrs_written =>
      if negb (wrap 32 msrs_written =? Zlength entry_vec) then Err SetModelSpecificRegistersCount else Ok tt
  end.

(** [get_msr_index_list] is KVM's answer; [retain] keeps the order. *)
Definition supported_guest_msrs (get_msr_index_list : option (list Z)) : result Error (list Z) :=
  msr_list ← ok_or get_msr_index_list GetSupportedModelSpecificRegisters;
  Ok (base.filter (fun msr_index => msr_should_serialize msr_index = true) msr_list).

(** ** The white list as a search structure *)

(** Ascending and disjoint, as the comment on the list says. *)
Fixpoint ascending (l : list MsrRange) (from : Z) : bool :=
  match l with
  | [] => true
  | r :: l => (from <=? base r) && (0 <? nmsrs r) && (base r + nmsrs r <? 2 ^ 32) && ascending l (base r + nmsrs r)
  end.

Lemma whitelist_ascending : ascending WHITELISTED_MSR_RANGES 0 = true.
Proof. vm_compute. reflexivity. Qed.

(** A search that stops at the first range past the index. *)
Fixpoint search (l : list MsrRange) (index : Z) : bool :=
  match l with
  | [] => false
  | r :: l => if index <? base r then false else if index <? base r + nmsrs r then true else search l index
  end.

Lemma search_below l from index : ascending l from = true -> 0 <= index < from -> existsb (fun r => contains r index) l = false.
Proof.
  revert from. induction l as [|r l IH]; intros from Ha Hi; [done|]. cbn in *. zify_bool.
  unfold contains at 1. destruct (base r <=? index) eqn:E; [zify_bool; lia|]. cbn.
  apply (IH (base r + nmsrs r)); [done|lia].
Qed.

Lemma search_equiv l from index :
  ascending l from = true -> 0 <= from -> 0 <= index -> existsb (fun r => contains r index) l = search l index.
Proof.
  revert from. induction l as [|r l IH]; intros from Ha Hf Hi; [done|]. cbn in *. zify_bool.
  unfold contains at 1. rewrite wrap_small by (unfold fits; lia).
  destruct (index <? base r) eqn:E1; zify_bool.
  - replace (base r <=? index) with false by lia. cbn. apply (search_below l (base r + nmsrs r)); [done|lia].
  - replace (base r <=? index) with true by lia. cbn.
    destruct (index <? base r + nmsrs r) eqn:E2; [done|]. cbn. apply (IH (base r + nmsrs r)); [done|lia|done].
Qed.

(** A register is saved exactly when the ordered search of the white list
    finds it and it is not one of the two excluded ones; every register that
    is set at boot is saved. *)
Theorem msr_serialize_correct :
  (forall index, fits 32 index ->
     msr_should_serialize index =
       negb ((index =? MSR_IA32_FEATURE_CONTROL) || (index =? MSR_IA32_MCG_CTL)) &&
       search WHITELISTED_MSR_RANGES index) /\
  Forall (fun e => msr_should_serialize (msr_index e) = true) create_boot_msr_entries.
Proof.
  split.
  - intros index [Hi _]. unfold msr_should_serialize.
    rewrite (search_equiv _ 0 index whitelist_ascending) by lia. by destruct (_ || _).
  - repeat constructor; vm_compute; reflexivity.
Qed.

Lemma msr_serialize_correct_witness :
  msr_should_serialize MSR_EFER = true /\ msr_should_serialize MSR_IA32_MCG_CTL = false /\
  msr_should_serialize 0x300 = false.
Proof.
  destruct msr_serialize_correct as [Hs _].
  rewrite !Hs by (split; vm_compute; congruence). vm_compute. auto.
Defined.
End Msr.
