(* ===== verification/CpuidBits.v ===== *)
(** * Bit ranges of CPUID registers ([cpuid/src/bit_helper.rs], [cpu_leaf.rs])

    Reading and writing a range of bits of a 32-bit register, with the panics
    of the source when a range or a value does not fit.  [get] and [put] are
    the operations without the checks; the lemmas on them ([get_put],
    [get_put_apart], the rewrite database [bits]) reduce every chain of writes
    of the transformers to its effect on each field. *)

From S2P Require Import Prelude.

Module CpuidBits.

Record BitRange := mkRange { msb_index : Z; lsb_index : Z }.

Definition MAX_U32_BIT_INDEX : Z := 31.

Definition is_valid (r : BitRange) : bool :=
  (lsb_index r <=? msb_index r) && (msb_index r <=? MAX_U32_BIT_INDEX).

Definition check (r : BitRange) : outcome unit := if is_valid r then Ret tt else Panic.

(** [((1_u64 << n) - 1) << lsb as u32] for a valid range. *)
Definition mask (r : BitRange) : Z :=
  wrap 32 (wrap 64 (wrap 64 (1 .<< (msb_index r - lsb_index r + 1)) - 1) .<< lsb_index r).

Definition get_mask (r : BitRange) : outcome Z := _ ← check r; Ret (mask r).

Definition read_bit (x pos : Z) : outcome bool :=
  if pos <=? MAX_U32_BIT_INDEX then Ret (0 <? x .& wrap 32 (1 .<< pos)) else Panic.

Definition write_bit (x pos : Z) (val : bool) : outcome Z :=
  if pos <=? MAX_U32_BIT_INDEX then
    let x := x .& bnot 32 (wrap 32 (1 .<< pos)) in
    Ret (x .| wrap 32 (Z.b2z val .<< pos))
  else Panic.

Definition read_bits_in_range (x : Z) (range : BitRange) : outcome Z :=
  _ ← check range; mask ← get_mask range; Ret ((x .& mask) .>> lsb_index range).

Definition write_bits_in_range (x : Z) (range : BitRange) (val : Z) : outcome Z :=
  _ ← check range;
  mask ← get_mask range;
  let max_val := mask .>> lsb_index range in
  if val <=? max_val then Ret ((x .& bnot 32 mask) .| wrap 32 (val .<< lsb_index range)) else Panic.

(** ** Leaves

    Constants are named after their module in [cpu_leaf.rs]. *)

Definition leaf_0x1_LEAF_NUM : Z := 0x1.
Definition EXTENDED_FAMILY_ID_BITRANGE : BitRange := mkRange 27 20.
Definition EXTENDED_PROCESSOR_MODEL_BITRANGE : BitRange := mkRange 19 16.
Definition PROCESSOR_TYPE_BITRANGE : BitRange := mkRange 13 12.
Definition PROCESSOR_FAMILY_BITRANGE : BitRange := mkRange 11 8.
Definition PROCESSOR_MODEL_BITRANGE : BitRange := mkRange 7 4.
Definition STEPPING_BITRANGE : BitRange := mkRange 3 0.
Definition leaf_0x1_APICID_BITRANGE : BitRange := mkRange 31 24.
Definition CPU_COUNT_BITRANGE : BitRange := mkRange 23 16.
Definition CLFLUSH_SIZE_BITRANGE : BitRange := mkRange 15 8.
Definition DTES64_BITINDEX : Z := 2.
Definition MONITOR_BITINDEX : Z := 3.
Definition DS_CPL_SHIFT : Z := 4.
Definition TM2_BITINDEX : Z := 8.
Definition CNXT_ID_BITINDEX : Z := 10.
Definition SDBG_BITINDEX : Z := 11.
Definition FMA_BITINDEX : Z := 12.
Definition XTPR_UPDATE_BITINDEX : Z := 14.
Definition PDCM_BITINDEX : Z := 15.
Definition MOVBE_BITINDEX : Z := 22.
Definition TSC_DEADLINE_TIMER_BITINDEX : Z := 24.
Definition OSXSAVE_BITINDEX : Z := 27.
Definition HYPERVISOR_BITINDEX : Z := 31.
Definition PSN_BITINDEX : Z := 18.
Definition DS_BITINDEX : Z := 21.
Definition ACPI_BITINDEX : Z := 22.
Definition SS_BITINDEX : Z := 27.
Definition HTT_BITINDEX : Z := 28.
Definition TM_BITINDEX : Z := 29.
Definition PBE_BITINDEX : Z := 31.

Definition CACHE_LEVEL_BITRANGE : BitRange := mkRange 7 5.
Definition MAX_CPUS_PER_CORE_BITRANGE : BitRange := mkRange 25 14.
Definition leaf_0x4_LEAF_NUM : Z := 0x4.
Definition MAX_CORES_PER_PACKAGE_BITRANGE : BitRange := mkRange 31 26.

Definition leaf_0x6_LEAF_NUM : Z := 0x6.
Definition TURBO_BOOST_BITINDEX : Z := 1.
Definition EPB_BITINDEX : Z := 3.

Definition leaf_0x7_LEAF_NUM : Z := 0x7.
Definition SGX_BITINDEX : Z := 2.
Definition BMI1_BITINDEX : Z := 3.
Definition HLE_BITINDEX : Z := 4.
Definition AVX2_BITINDEX : Z := 5.
Definition FPDP_BITINDEX : Z := 6.
Definition BMI2_BITINDEX : Z := 8.
Definition INVPCID_BITINDEX : Z := 10.
Definition RTM_BITINDEX : Z := 11.
Definition RDT_M_BITINDEX : Z := 12.
Definition MPX_BITINDEX : Z := 14.
Definition RDT_A_BITINDEX : Z := 15.
Definition AVX512F_BITINDEX : Z := 16.
Definition AVX512DQ_BITINDEX : Z := 17.
Definition RDSEED_BITINDEX : Z := 18.
Definition ADX_BITINDEX : Z := 19.
Definition AVX512IFMA_BITINDEX : Z := 21.
Definition CLFLUSHOPT_BITINDEX : Z := 23.
Definition CLWB_BITINDEX : Z := 24.
Definition PT_BITINDEX : Z := 25.
Definition AVX512PF_BITINDEX : Z := 26.
Definition AVX512ER_BITINDEX : Z := 27.
Definition AVX512CD_BITINDEX : Z := 28.
Definition SHA_BITINDEX : Z := 29.
Definition AVX512BW_BITINDEX : Z := 30.
Definition AVX512VL_BITINDEX : Z := 31.
Definition AVX512_VBMI_BITINDEX : Z := 1.
Definition PKU_BITINDEX : Z := 3.
Definition OSPKE_BITINDEX : Z := 4.
Definition AVX512_VPOPCNTDQ_BITINDEX : Z := 14.
Definition RDPID_BITINDEX : Z := 22.
Definition SGX_LC_BITINDEX : Z := 30.
Definition AVX512_4VNNIW_BITINDEX : Z := 2.
Definition AVX512_4FMAPS_BITINDEX : Z := 3.
Definition ARCH_CAPABILITIES_BITINDEX : Z := 29.

Definition leaf_0xa_LEAF_NUM : Z := 0xa.

Definition leaf_0xb_LEAF_NUM : Z := 0xb.
Definition LEVEL_TYPE_INVALID : Z := 0.
Definition LEVEL_TYPE_THREAD : Z := 1.
Definition LEVEL_TYPE_CORE : Z := 2.
Definition leaf_0xb_APICID_BITRANGE : BitRange := mkRange 4 0.
Definition NUM_LOGICAL_PROCESSORS_BITRANGE : BitRange := mkRange 15 0.
Definition LEVEL_TYPE_BITRANGE : BitRange := mkRange 15 8.
Definition LEVEL_NUMBER_BITRANGE : BitRange := mkRange 7 0.

Definition leaf_0xd_LEAF_NUM : Z := 0xd.
Definition MPX_STATE_BITRANGE : BitRange := mkRange 4 3.
Definition AVX512_STATE_BITRANGE : BitRange := mkRange 7 5.
Definition XSAVEC_SHIFT : Z := 1.
Definition XGETBV_SHIFT : Z := 2.
Definition XSAVES_SHIFT : Z := 3.

Definition leaf_0x80000000_LEAF_NUM : Z := 0x80000000.
Definition LARGEST_EXTENDED_FN_BITRANGE : BitRange := mkRange 31 0.
Definition leaf_0x80000001_LEAF_NUM : Z := 0x80000001.
Definition TOPOEXT_INDEX : Z := 22.
Definition PREFETCH_BITINDEX : Z := 8.
Definition LZCNT_BITINDEX : Z := 5.
Definition PDPE1GB_BITINDEX : Z := 26.
Definition leaf_0x80000008_LEAF_NUM : Z := 0x80000008.
Definition THREAD_ID_SIZE_BITRANGE : BitRange := mkRange 15 12.
Definition NUM_THREADS_BITRANGE : BitRange := mkRange 7 0.
Definition leaf_0x8000001d_LEAF_NUM : Z := 0x8000001d.
Definition leaf_0x8000001e_LEAF_NUM : Z := 0x8000001e.
Definition EXTENDED_APIC_ID_BITRANGE : BitRange := mkRange 31 0.
Definition THREADS_PER_CORE_BITRANGE : BitRange := mkRange 15 8.
Definition CORE_ID_BITRANGE : BitRange := mkRange 7 0.
Definition NODES_PER_PROCESSOR_BITRANGE : BitRange := mkRange 10 8.
Definition NODE_ID_BITRANGE : BitRange := mkRange 7 0.

(** ** Fields without the checks *)

(** Number of bits of a range, and the range in range. *)
Definition width (r : BitRange) : Z := msb_index r - lsb_index r + 1.

Definition valid (r : BitRange) : Prop := 0 <= lsb_index r <= msb_index r /\ msb_index r <= 31.

Definition get (r : BitRange) (x : Z) : Z := (x .& mask r) .>> lsb_index r.

Definition put (r : BitRange) (v x : Z) : Z := (x .& bnot 32 (mask r)) .| wrap 32 (v .<< lsb_index r).

Lemma mask_eq r : valid r -> mask r = Z.ones (width r) .<< lsb_index r.
Proof.
  intros [Hl Hm]. unfold mask, width in *. set (w := msb_index r - lsb_index r + 1).
  assert (1 <= w <= 32 - lsb_index r) as Hw by (subst w; lia).
  assert (0 < 2 ^ w <= 2 ^ 32) as Hp by (split; [apply Z.pow_pos_nonneg; lia|apply Z.pow_le_mono_r; lia]).
  rewrite !Z.shiftl_mul_pow2, Z.mul_1_l, Z.ones_equiv by lia.
  rewrite (wrap_small 64 (2 ^ w)), (wrap_small 64) by (unfold fits; lia). rewrite <- Z.sub_1_r. apply wrap_small.
  unfold fits. pose proof (Z.pow_pos_nonneg 2 (lsb_index r) ltac:(lia) ltac:(lia)).
  split; [nia|]. assert (2 ^ w * 2 ^ lsb_index r <= 2 ^ 32); [|nia].
  rewrite <- Z.pow_add_r by lia. apply Z.pow_le_mono_r; lia.
Qed.

Lemma mask_testbit r i : valid r -> 0 <= i -> Z.testbit (mask r) i = (lsb_index r <=? i) && (i <=? msb_index r).
Proof.
  intros Hv Hi. rewrite mask_eq by done. destruct Hv as [Hl Hm]. destruct (Z.leb_spec (lsb_index r) i).
  - rewrite Z.shiftl_spec by lia. destruct (Z.leb_spec i (msb_index r)); cbn.
    + apply Z.ones_spec_low. unfold width. lia.
    + apply Z.ones_spec_high. unfold width. lia.
  - by rewrite Z.shiftl_spec_low by lia.
Qed.

Lemma is_valid_iff r : 0 <= lsb_index r -> is_valid r = true <-> valid r.
Proof. intros Hl. unfold is_valid, valid, MAX_U32_BIT_INDEX. rewrite andb_true_iff, !Z.leb_le. lia. Qed.

Lemma put_fits r v x : fits 32 x -> fits 32 (put r v x).
Proof. intros Hx. apply lor_fits; [lia|apply land_fits; [lia|done]|apply wrap_fits; lia]. Qed.

Lemma put_testbit r v x i :
  valid r -> fits (width r) v -> 0 <= i < 32 ->
  Z.testbit (put r v x) i =
    if (lsb_index r <=? i) && (i <=? msb_index r) then Z.testbit v (i - lsb_index r) else Z.testbit x i.
Proof.
  intros Hv Hf Hi. unfold put. rewrite Z.lor_spec, Z.land_spec, bnot_testbit, mask_testbit, wrap_testbit, Z.shiftl_spec by (done || lia).
  destruct Hv as [Hl Hm]. destruct (Z.leb_spec (lsb_index r) i); cbn.
  - destruct (Z.leb_spec i (msb_index r)); cbn; [by rewrite andb_false_r|].
    rewrite andb_true_r, (testbit_high (width r) v), orb_false_r; [done|unfold width; lia|done|unfold width; lia].
  - by rewrite andb_true_r, (Z.testbit_neg_r v), orb_false_r by lia.
Qed.

Lemma get_testbit r x i :
  valid r -> 0 <= i -> Z.testbit (get r x) i = Z.testbit x (i + lsb_index r) && (i <? width r).
Proof.
  intros Hv Hi. pose proof Hv as [Hl Hm]. unfold get. rewrite Z.shiftr_spec, Z.land_spec, mask_testbit by (done || lia).
  f_equal. unfold width. destruct (Z.leb_spec (lsb_index r) (i + lsb_index r)); [cbn|lia].
  destruct (Z.leb_spec (i + lsb_index r) (msb_index r)), (Z.ltb_spec i (msb_index r - lsb_index r + 1)); try done; lia.
Qed.

(** What a write leaves in its own range. *)
Lemma get_put r v x : valid r -> fits (width r) v -> get r (put r v x) = v.
Proof.
  intros Hv Hf. pose proof Hv as [Hl Hm]. apply Z.bits_inj'. intros i Hi. rewrite get_testbit by done.
  destruct (Z.ltb_spec i (width r)) as [Hw|Hw]; unfold width in Hw.
  - rewrite put_testbit by (done || lia). replace (lsb_index r <=? i + lsb_index r) with true by lia.
    replace (i + lsb_index r <=? msb_index r) with true by lia. cbn. rewrite andb_true_r. f_equal. lia.
  - rewrite andb_false_r. symmetry. apply (testbit_high (width r)); [unfold width; lia|done|unfold width; lia].
Qed.

Definition apart (r r' : BitRange) : Prop := msb_index r < lsb_index r' \/ msb_index r' < lsb_index r.

(** ... and in the others. *)
Lemma get_put_apart r r' v x :
  valid r -> valid r' -> fits (width r') v -> apart r r' -> get r (put r' v x) = get r x.
Proof.
  intros Hv Hv' Hf Ha. pose proof Hv as [Hl Hm]. apply Z.bits_inj'. intros i Hi. rewrite !get_testbit by done.
  destruct (Z.ltb_spec i (width r)) as [Hw|Hw]; [|by rewrite !andb_false_r]. unfold width in Hw.
  rewrite put_testbit by (done || lia). unfold apart in Ha.
  destruct (Z.leb_spec (lsb_index r') (i + lsb_index r)), (Z.leb_spec (i + lsb_index r) (msb_index r')); cbn; try done; lia.
Qed.

Lemma max_val r : valid r -> mask r .>> lsb_index r = 2 ^ width r - 1.
Proof.
  intros Hv. pose proof Hv as [Hl Hm]. rewrite mask_eq by done. rewrite Z.shiftr_shiftl_l, Z.sub_diag, Z.shiftl_0_r by lia.
  by rewrite Z.ones_equiv, Z.sub_1_r.
Qed.

Lemma write_bits_put r v x : valid r -> fits (width r) v -> write_bits_in_range x r v = Ret (put r v x).
Proof.
  intros Hv [H0 Hf]. assert (is_valid r = true) as Hi by (apply is_valid_iff; [apply Hv|done]).
  unfold write_bits_in_range, get_mask, check. rewrite Hi. cbn [mbind outcome_bind].
  rewrite max_val by done. by destruct (Z.leb_spec v (2 ^ width r - 1)); [|lia].
Qed.

Lemma write_bits_panics r v x : valid r -> 2 ^ width r <= v -> write_bits_in_range x r v = Panic.
Proof.
  intros Hv Hf. assert (is_valid r = true) as Hi by (apply is_valid_iff; [apply Hv|done]).
  unfold write_bits_in_range, get_mask, check. rewrite Hi. cbn [mbind outcome_bind].
  rewrite max_val by done. by destruct (Z.leb_spec v (2 ^ width r - 1)); [lia|].
Qed.

Lemma read_bits_get r x : valid r -> read_bits_in_range x r = Ret (get r x).
Proof.
  intros Hv. assert (is_valid r = true) as Hi by (apply is_valid_iff; [apply Hv|done]).
  unfold read_bits_in_range, get_mask, check. by rewrite Hi.
Qed.

(** A bit is a range of one. *)
Definition bit (pos : Z) : BitRange := mkRange pos pos.

Lemma write_bit_put x pos b : 0 <= pos <= 31 -> write_bit x pos b = Ret (put (bit pos) (Z.b2z b) x).
Proof.
  intros Hp. unfold write_bit, MAX_U32_BIT_INDEX. destruct (Z.leb_spec pos 31); [|lia]. do 2 f_equal. unfold put.
  do 3 f_equal. rewrite mask_eq by (unfold valid, bit; cbn; lia). unfold width, bit. cbn [msb_index lsb_index].
  replace (pos - pos + 1) with 1 by lia. change (Z.ones 1) with 1. apply wrap_small. rewrite Z.shiftl_mul_pow2 by lia. unfold fits.
  pose proof (Z.pow_pos_nonneg 2 pos ltac:(lia) ltac:(lia)). pose proof (Z.pow_lt_mono_r 2 pos 32 ltac:(lia) ltac:(lia) ltac:(lia)). lia.
Qed.

(** Fields of a register: a value that fits is written without a panic, reads
    back, and leaves every other bit of the register as it was; a value that
    does not fit panics. *)
Theorem bit_field_roundtrip r v x :
  valid r -> fits 32 x -> 0 <= v ->
  if v <? 2 ^ width r then
    exists x', write_bits_in_range x r v = Ret x' /\ fits 32 x' /\ read_bits_in_range x' r = Ret v /\
      forall i, 0 <= i < 32 -> i < lsb_index r \/ msb_index r < i -> Z.testbit x' i = Z.testbit x i
  else write_bits_in_range x r v = Panic.
Proof.
  intros Hv Hx H0. destruct (Z.ltb_spec v (2 ^ width r)) as [Hlt|Hge]; [|by apply write_bits_panics].
  exists (put r v x). rewrite write_bits_put, read_bits_get, get_put by done.
  split; [done|]. split; [by apply put_fits|]. split; [done|]. intros i Hi Ho. rewrite put_testbit by done.
  destruct (Z.leb_spec (lsb_index r) i), (Z.leb_spec i (msb_index r)); cbn; try done; lia.
Qed.

Lemma bit_field_roundtrip_witness :
  exists x', write_bits_in_range 0xffffffff (mkRange 7 3) 0x11 = Ret x' /\ read_bits_in_range x' (mkRange 7 3) = Ret 0x11.
Proof.
  destruct (bit_field_roundtrip (mkRange 7 3) 0x11 0xffffffff) as (x' & Hw & _ & Hr & _).
  - split; cbn; lia.
  - split; vm_compute; congruence.
  - lia.
  - exists x'. split; [exact Hw|exact Hr].
Defined.

(** Side conditions on the constant ranges of the leaves. *)
Ltac range_side :=
  first [done | (unfold valid, apart, bit; vm_compute; (repeat split); (first [discriminate | (left; reflexivity) | (right; reflexivity)]))
    | (split; vm_compute; congruence) ].
End CpuidBits.
