(* ===== verification/BrandString.v ===== *)
(** * The processor's brand string ([cpuid/src/brand_string.rs])

    A buffer of twelve 32-bit registers that is also seen as 48 bytes.  The
    host's [cpuid] instruction is a parameter.  The theorems: the search for
    the frequency finds a match of its regular expression exactly when there is
    one; the emulated string is the fixed text, for Intel followed by the
    host's frequency, and zero after it. *)

From S2P Require Import Prelude.

Module BrandString.

Inductive Error := NotSupported | Overflow.

Inductive Reg := EAX | EBX | ECX | EDX.

Definition reg_index (r : Reg) : nat := match r with EAX => 0 | EBX => 1 | ECX => 2 | EDX => 3 end.

(** [CpuidResult] *)
Record CpuidResult := mkCpuid { c_eax : Z; c_ebx : Z; c_ecx : Z; c_edx : Z }.

(** ["GenuineIntel"] and ["AuthenticAMD"]; ["Intel(R) Xeon(R) Processor"] and
    ["AMD EPYC"]; [" @ "] *)
Definition VENDOR_ID_INTEL : list byte := [71; 101; 110; 117; 105; 110; 101; 73; 110; 116; 101; 108].
Definition VENDOR_ID_AMD : list byte := [65; 117; 116; 104; 101; 110; 116; 105; 99; 65; 77; 68].
Definition BRAND_STRING_INTEL : list byte :=
  [73; 110; 116; 101; 108; 40; 82; 41; 32; 88; 101; 111; 110; 40; 82; 41; 32; 80; 114; 111; 99; 101; 115; 115; 111; 114].
Definition BRAND_STRING_AMD : list byte := [65; 77; 68; 32; 69; 80; 89; 67].
Definition at_sign : list byte := [32; 64; 32].

Record BrandString := mkBrand { reg_buf : list Z; len : nat }.

Definition REG_BUF_SIZE : nat := 12.
Definition MAX_LEN : nat := 47.

Definition new : BrandString := mkBrand (replicate REG_BUF_SIZE 0) 0.

Definition as_bytes (b : BrandString) : list byte := concat (map (le_bytes 4) (reg_buf b)).

(** The registers under a byte buffer. *)
Fixpoint regs_of (bs : list byte) : list Z :=
  match bs with
  | b0 :: b1 :: b2 :: b3 :: bs => le_val [b0; b1; b2; b3] :: regs_of bs
  | _ => []
  end.

(** A write through [as_bytes_mut]. *)
Definition write_bytes (b : BrandString) (start : nat) (src : list byte) : BrandString :=
  mkBrand (regs_of (splice (as_bytes b) start src)) (len b).

Definition from_bytes_unchecked (src : list byte) : outcome BrandString :=
  if (length src <=? REG_BUF_SIZE * 4)%nat then Ret (write_bytes (mkBrand (reg_buf new) (length src)) 0 src) else Panic.

(** [leaf - 0x8000_0002] is computed modulo [2^32]. *)
Definition reg_slot (leaf : Z) (reg : Reg) : nat := (Z.to_nat (leaf -[32] 0x80000002) * 4 + reg_index reg)%nat.

Definition get_reg_for_leaf (b : BrandString) (leaf : Z) (reg : Reg) : outcome Z :=
  unwrap (reg_buf b !! reg_slot leaf reg).

Definition set_reg_for_leaf (b : BrandString) (leaf : Z) (reg : Reg) (val : Z) : outcome BrandString :=
  if (reg_slot leaf reg <? length (reg_buf b))%nat
  then Ret (mkBrand (<[reg_slot leaf reg := val]> (reg_buf b)) (len b)) else Panic.

Definition push_bytes (b : BrandString) (src : list byte) : outcome (result Error BrandString) :=
  if (length src + len b <=? MAX_LEN)%nat || (MAX_LEN <? len b)%nat then
    if (len b + length src <=? REG_BUF_SIZE * 4)%nat
    then Ret (Ok (write_bytes (mkBrand (reg_buf b) (len b + length src)) (len b) src))
    else Panic
  else Ret (Err Overflow).

(** The loop that finds the length: the byte before [len] is looked at before
    [len > 0] is tested. *)
Fixpoint trim (bytes : list byte) (len : nat) : outcome nat :=
  match len with
  | O => Panic
  | S n => b ← unwrap (bytes !! n); if b =? 0 then trim bytes n else Ret len
  end.

Section host.
Context (host_cpuid : Z -> CpuidResult).

Definition set_leaf (b : BrandString) (leaf : Z) : outcome BrandString :=
  let regs := host_cpuid leaf in
  b ← set_reg_for_leaf b leaf EAX (c_eax regs);
  b ← set_reg_for_leaf b leaf EBX (c_ebx regs);
  b ← set_reg_for_leaf b leaf ECX (c_ecx regs);
  set_reg_for_leaf b leaf EDX (c_edx regs).

Definition from_host_cpuid : outcome (result Error BrandString) :=
  if c_eax (host_cpuid 0x80000000) <? 0x80000004 then Ret (Err NotSupported)
  else
    b ← set_leaf new 0x80000002;
    b ← set_leaf b 0x80000003;
    b ← set_leaf b 0x80000004;
    len ← trim (as_bytes b) MAX_LEN;
    Ret (Ok (mkBrand (reg_buf b) len)).

(** ** The search for the frequency *)

Inductive Stages :=
| Initial | FoundFreqIntPart | FoundFreqDecimalPoint | FoundFreqDecimalPart | FoundFreqUnitSize | FoundH.

Record Search := mkSearch { stage : Stages; freq_start : nat; decimal_start : nat }.

Definition is_digit (ch : byte) : bool := (48 <=? ch) && (ch <=? 57).

(** ['M'], ['G'], ['T'] *)
Definition is_unit (ch : byte) : bool := (ch =? 77) || (ch =? 71) || (ch =? 84).

(** The machine on the [i]-th byte: its next state, or the end of the match. *)
Definition freq_step (s : Search) (i : nat) (ch : byte) : Search + nat :=
  match stage s with
  | Initial => inl (if is_digit ch then mkSearch FoundFreqIntPart i (decimal_start s) else s)
  | FoundFreqIntPart =>
      inl (if is_digit ch then s
           else mkSearch (if ch =? 46 then FoundFreqDecimalPoint else Initial) (freq_start s) (decimal_start s))
  | FoundFreqDecimalPoint =>
      inl (if is_digit ch then mkSearch FoundFreqDecimalPart (freq_start s) i
           else mkSearch Initial (freq_start s) (decimal_start s))
  | FoundFreqDecimalPart =>
      inl (if is_digit ch then s
           else if ch =? 46 then mkSearch FoundFreqDecimalPoint (decimal_start s) (decimal_start s)
           else mkSearch (if is_unit ch then FoundFreqUnitSize else Initial) (freq_start s) (decimal_start s))
  | FoundFreqUnitSize =>
      inl (if ch =? 72 then mkSearch FoundH (freq_start s) (decimal_start s)
           else if is_digit ch then mkSearch FoundFreqIntPart i (decimal_start s)
           else mkSearch Initial (freq_start s) (decimal_start s))
  | FoundH =>
      if ch =? 122 then inr (i + 1)%nat
      else inl (if is_digit ch then mkSearch FoundFreqIntPart i (decimal_start s)
                else mkSearch Initial (freq_start s) (decimal_start s))
  end.

Fixpoint freq_loop (bytes : list byte) (s : Search) (i : nat) (rest : list byte) : option (list byte) :=
  match rest with
  | [] => None
  | ch :: rest =>
      match freq_step s i ch with
      | inl s => freq_loop bytes s (S i) rest
      | inr freq_end => Some (slice bytes (freq_start s) (freq_end - freq_start s))
      end
  end.

Definition find_in (bytes : list byte) : option (list byte) := freq_loop bytes (mkSearch Initial 0 0) 0 bytes.

Definition find_freq (b : BrandString) : option (list byte) := find_in (as_bytes b).

(** [expect] and [unwrap] on a failed append panic. *)
Definition push_or_panic (b : BrandString) (src : list byte) : outcome BrandString :=
  r ← push_bytes b src; match r with Ok b => Ret b | Err _ => Panic end.

Definition from_vendor_id (vendor_id : list byte) : outcome BrandString :=
  if bool_decide (vendor_id = VENDOR_ID_INTEL) then
    this ← from_bytes_unchecked BRAND_STRING_INTEL;
    host ← from_host_cpuid;
    match host with
    | Err _ => Ret this
    | Ok host_bstr =>
        match find_freq host_bstr with
        | None => Ret this
        | Some freq => this ← push_or_panic this at_sign; push_or_panic this freq
        end
    end
  else if bool_decide (vendor_id = VENDOR_ID_AMD) then from_bytes_unchecked BRAND_STRING_AMD
  else from_bytes_unchecked [].

(** ** The regular expression [[0-9]+\.[0-9]+[MGT]Hz] *)

Definition digits (l : list byte) : Prop := l <> [] /\ Forall (fun c => is_digit c = true) l.

Definition freq (s : list byte) : Prop :=
  exists d e u, s = d ++ [46] ++ e ++ [u; 72; 122] /\ digits d /\ digits e /\ is_unit u = true.

(** What each state says about the bytes read so far. *)
Definition read_so_far (s : Search) (pre : list byte) : Prop :=
  match stage s with
  | Initial => True
  | FoundFreqIntPart => exists p d, pre = p ++ d /\ length p = freq_start s /\ digits d
  | FoundFreqDecimalPoint => exists p d, pre = p ++ d ++ [46] /\ length p = freq_start s /\ digits d
  | FoundFreqDecimalPart => exists p d e, pre = p ++ d ++ [46] ++ e /\ length p = freq_start s /\
      length (p ++ d ++ [46]) = decimal_start s /\ digits d /\ digits e
  | FoundFreqUnitSize => exists p d e u, pre = p ++ d ++ [46] ++ e ++ [u] /\ length p = freq_start s /\
      digits d /\ digits e /\ is_unit u = true
  | FoundH => exists p d e u, pre = p ++ d ++ [46] ++ e ++ [u; 72] /\ length p = freq_start s /\
      digits d /\ digits e /\ is_unit u = true
  end.

Lemma digits_one c : is_digit c = true -> digits [c].
Proof. by repeat constructor. Qed.

Lemma digits_snoc l c : digits l -> is_digit c = true -> digits (l ++ [c]).
Proof. intros [_ Hl] Hc. split; [by destruct l|]. apply Forall_app. by repeat constructor. Qed.

(** Appending a byte at the end of the pieces of a match. *)
Ltac pieces := rewrite <- ?app_assoc; reflexivity.

Lemma freq_step_sound s pre ch s' :
  read_so_far s pre -> freq_step s (length pre) ch = inl s' -> read_so_far s' (pre ++ [ch]).
Proof.
  unfold freq_step, read_so_far. destruct (stage s) eqn:Es; intros Hs Hst.
  - injection Hst as <-. destruct (is_digit ch) eqn:Ed; [|by rewrite Es].
    exists pre, [ch]. split_and!; [done|done|by apply digits_one].
  - destruct Hs as (p & d & -> & Hp & Hd). injection Hst as <-. destruct (is_digit ch) eqn:Ed.
    + rewrite Es. exists p, (d ++ [ch]). split_and!; [pieces|done|by apply digits_snoc].
    + cbn [stage freq_start]. destruct (ch =? 46) eqn:E; [|done]. apply Z.eqb_eq in E as ->. exists p, d. by split_and!; [pieces|..].
  - destruct Hs as (p & d & -> & Hp & Hd). injection Hst as <-. destruct (is_digit ch) eqn:Ed; [|done].
    exists p, d, [ch]. split_and!; [pieces|done|done|done|by apply digits_one].
  - destruct Hs as (p & d & e & -> & Hp & He & Hd & Hde). injection Hst as <-. destruct (is_digit ch) eqn:Ed.
    + rewrite Es. exists p, d, (e ++ [ch]). split_and!; [pieces|done|done|done|by apply digits_snoc].
    + destruct (ch =? 46) eqn:E; cbn [stage freq_start decimal_start].
      * apply Z.eqb_eq in E as ->. exists (p ++ d ++ [46]), e. by split_and!; [pieces|..].
      * destruct (is_unit ch) eqn:Eu; [|done]. exists p, d, e, ch. by split_and!; [pieces|..].
  - destruct Hs as (p & d & e & u & -> & Hp & Hd & He & Hu). injection Hst as <-. destruct (ch =? 72) eqn:E.
    + apply Z.eqb_eq in E as ->. exists p, d, e, u. by split_and!; [pieces|..].
    + destruct (is_digit ch) eqn:Ed; [|done]. eexists _, [ch]. split_and!; [done|done|by apply digits_one].
  - destruct (ch =? 122); [done|]. injection Hst as <-. destruct (is_digit ch) eqn:Ed; [|done].
    eexists _, [ch]. split_and!; [done|done|by apply digits_one].
Qed.

Lemma freq_loop_sound bytes s i rest f :
  bytes = take i bytes ++ rest -> i = length (take i bytes) -> read_so_far s (take i bytes) ->
  freq_loop bytes s i rest = Some f -> exists pre post, bytes = pre ++ f ++ post /\ freq f.
Proof.
  revert s i. induction rest as [|ch rest IH]; intros s i Hb Hi Hs; [done|]. cbn [freq_loop].
  set (pre := take i bytes) in *. assert (take (S i) bytes = pre ++ [ch]) as Ht.
  { rewrite Hb, Hi. replace (S (length pre)) with (length pre + 1)%nat by lia. by rewrite take_app_add. }
  destruct (freq_step s i ch) as [s'|n] eqn:E.
  - rewrite Hi in E. apply IH; rewrite Ht; [by rewrite <- app_assoc|rewrite length_app; cbn; lia|].
    by eapply freq_step_sound.
  - intros [= <-]. unfold freq_step in E. destruct (stage s) eqn:Es; try done.
    destruct (ch =? 122) eqn:Ez; [|done]. apply Z.eqb_eq in Ez as ->. injection E as <-.
    unfold read_so_far in Hs. rewrite Es in Hs. destruct Hs as (p & d & e & u & Hp & Hl & Hd & He & Hu).
    exists p, rest. assert (slice bytes (freq_start s) (i + 1 - freq_start s) = d ++ [46] ++ e ++ [u; 72; 122]) as ->.
    { rewrite Hb, Hp, <- Hl. unfold slice. rewrite <- !app_assoc, drop_app_length.
      rewrite Hp, !length_app in Hi. cbn [length] in Hi.
      replace (d ++ [46] ++ e ++ [u; 72] ++ 122 :: rest) with ((d ++ [46] ++ e ++ [u; 72; 122]) ++ rest)
        by (by rewrite <- !app_assoc).
      rewrite take_app_le by (rewrite !length_app; cbn; lia). apply take_ge. rewrite !length_app. cbn. lia. }
    split; [|by exists d, e, u]. rewrite Hb, Hp. by rewrite <- !app_assoc.
Qed.

(** ** Every match is found *)

(** Digits lead to one of two states and never end the search. *)
Lemma digit_step s i ch : is_digit ch = true ->
  exists s', freq_step s i ch = inl s' /\ (stage s' = FoundFreqIntPart \/ stage s' = FoundFreqDecimalPart) /\
    (stage s = FoundFreqDecimalPoint \/ stage s = FoundFreqDecimalPart -> stage s' = FoundFreqDecimalPart).
Proof.
  intros Hd. assert (48 <= ch <= 57) as Hr by (unfold is_digit in Hd; lia).
  unfold freq_step. rewrite Hd. replace (ch =? 72) with false by lia. replace (ch =? 122) with false by lia.
  destruct (stage s) eqn:Es; eexists; (split; [done|]); cbn; rewrite ?Es; naive_solver.
Qed.

Lemma digits_scanned bytes d s i rest : digits d ->
  exists s', freq_loop bytes s i (d ++ rest) = freq_loop bytes s' (i + length d) rest /\
    (stage s' = FoundFreqIntPart \/ stage s' = FoundFreqDecimalPart) /\
    (stage s = FoundFreqDecimalPoint \/ stage s = FoundFreqDecimalPart -> stage s' = FoundFreqDecimalPart).
Proof.
  intros [Hne Hd]. revert s i Hne. induction Hd as [|c d Hc Hd IH]; intros s i Hne; [done|].
  destruct (digit_step s i c Hc) as (s1 & H1 & Hs1 & Hp1). cbn [app freq_loop]. rewrite H1. destruct d as [|c' d].
  - exists s1. cbn [app length]. by rewrite Nat.add_1_r.
  - destruct (IH s1 (S i)) as (s2 & H2 & Hs2 & Hp2); [done|]. exists s2. split; [|naive_solver].
    rewrite H2. f_equal. cbn [length]. lia.
Qed.

Lemma match_scanned bytes s i f rest : freq f -> is_Some (freq_loop bytes s i (f ++ rest)).
Proof.
  intros (d & e & u & -> & Hd & He & Hu). rewrite <- !app_assoc.
  destruct (digits_scanned bytes d s i ([46] ++ e ++ [u; 72; 122] ++ rest) Hd) as (s1 & -> & H1 & _).
  assert (exists s2, freq_step s1 (i + length d) 46 = inl s2 /\ stage s2 = FoundFreqDecimalPoint) as (s2 & E2 & Hs2)
    by (unfold freq_step; destruct H1 as [-> | ->]; by eexists).
  cbn [app freq_loop]. rewrite E2.
  destruct (digits_scanned bytes e s2 (S (i + length d)) (u :: 72 :: 122 :: rest) He) as (s3 & -> & _ & H3).
  specialize (H3 (or_introl Hs2)). cbn [freq_loop].
  assert (is_digit u = false /\ (u =? 46) = false) as [Hu1 Hu2] by (unfold is_digit, is_unit in *; lia).
  unfold freq_step at 1. rewrite H3, Hu1, Hu2, Hu. cbn. by eexists.
Qed.

(** The search for the frequency: it returns a part of the string that
    matches the regular expression, and it returns one whenever the string has
    such a part. *)
Theorem freq_search_correct bytes :
  (forall f, find_in bytes = Some f -> exists pre post, bytes = pre ++ f ++ post /\ freq f) /\
  (forall pre f post, bytes = pre ++ f ++ post -> freq f -> is_Some (find_in bytes)).
Proof.
  split.
  - intros f. by apply freq_loop_sound.
  - intros pre f post -> Hf. unfold find_in. generalize (pre ++ f ++ post) at 1. intros bytes.
    assert (forall s i, is_Some (freq_loop bytes s i (pre ++ f ++ post))) as Hall; [|apply Hall].
    induction pre as [|c pre IH]; intros s i; [by apply (match_scanned bytes s i f post)|].
    cbn [app freq_loop]. destruct (freq_step s i c); [apply IH|by eexists].
Qed.

(** ** Registers and bytes *)

Lemma bytes_of_regs n bs :
  bytes_ok bs -> length bs = (4 * n)%nat ->
  concat (map (le_bytes 4) (regs_of bs)) = bs /\ length (regs_of bs) = n.
Proof.
  revert bs. induction n as [|n IH]; intros bs Hok Hl; [by destruct bs; split|].
  destruct bs as [|b0 [|b1 [|b2 [|b3 bs]]]]; cbn in Hl; try lia. cbn [regs_of map concat length].
  assert (bytes_ok [b0; b1; b2; b3] /\ bytes_ok bs) as [H4 Hbs] by (apply Forall_app; exact Hok).
  destruct (IH bs Hbs) as [Hc Hn]; [lia|]. split; [|by rewrite Hn].
  by rewrite Hc, (le_bytes_le_val_n 4 [b0; b1; b2; b3]).
Qed.

Lemma as_bytes_ok b : bytes_ok (as_bytes b).
Proof. unfold as_bytes. induction (reg_buf b); cbn; [constructor|]. apply Forall_app. split; [apply le_bytes_ok|done]. Qed.

Lemma length_as_bytes b : length (as_bytes b) = (4 * length (reg_buf b))%nat.
Proof. unfold as_bytes. induction (reg_buf b); cbn; [done|]. rewrite length_app, length_le_bytes. lia. Qed.

(** Text from the start, zero behind it. *)
Definition holds_text (b : BrandString) (t : list byte) : Prop :=
  length (reg_buf b) = REG_BUF_SIZE /\ len b = length t /\ as_bytes b = t ++ replicate (48 - length t) 0.

Lemma write_bytes_spec b start src :
  length (reg_buf b) = REG_BUF_SIZE -> bytes_ok src ->
  as_bytes (write_bytes b start src) = splice (as_bytes b) start src /\ length (reg_buf (write_bytes b start src)) = REG_BUF_SIZE.
Proof.
  intros Hl Hs. apply bytes_of_regs; [apply splice_Forall; [apply as_bytes_ok|done]|].
  by rewrite length_splice, length_as_bytes, Hl.
Qed.

Lemma splice_after (t src : list byte) n :
  (length src <= n)%nat -> splice (t ++ replicate n 0) (length t) src = (t ++ src) ++ replicate (n - length src) 0.
Proof.
  intros Hn. rewrite splice_in by (rewrite length_app, length_replicate; lia).
  rewrite take_app_length, <- drop_drop, drop_app_length, drop_replicate. by rewrite <- app_assoc.
Qed.

Lemma from_bytes_text src : (length src <= 48)%nat -> bytes_ok src ->
  exists b, from_bytes_unchecked src = Ret b /\ holds_text b src.
Proof.
  intros Hl Hs. unfold from_bytes_unchecked, REG_BUF_SIZE. destruct (Nat.leb_spec (length src) (12 * 4)); [|lia].
  eexists. split; [done|]. destruct (write_bytes_spec (mkBrand (reg_buf new) (length src)) 0 src) as [Hb Hr]; [done|done|].
  split; [done|]. split; [done|]. rewrite Hb.
  change (as_bytes _) with ([] ++ replicate 48 0 : list byte). by apply (splice_after [] src 48).
Qed.

Lemma push_text b t src : holds_text b t -> (length t + length src <= MAX_LEN)%nat -> bytes_ok src ->
  exists b', push_or_panic b src = Ret b' /\ holds_text b' (t ++ src).
Proof.
  intros (Hr & Hl & Hb) Hm Hs. unfold MAX_LEN in Hm. unfold push_or_panic, push_bytes, MAX_LEN, REG_BUF_SIZE. rewrite Hl.
  destruct (Nat.leb_spec (length src + length t) 47); [|lia]. cbn [orb].
  destruct (Nat.leb_spec (length t + length src) (12 * 4)); [|lia]. cbn [mbind outcome_bind].
  eexists. split; [done|].
  destruct (write_bytes_spec (mkBrand (reg_buf b) (length t + length src)) (length t) src) as [Hb' Hr']; [done|done|].
  split; [done|]. rewrite length_app. split; [done|]. rewrite Hb'.
  change (as_bytes (mkBrand (reg_buf b) (length t + length src))) with (as_bytes b).
  rewrite Hb, splice_after by lia. do 2 f_equal. lia.
Qed.

(** The tail of the emulated string. *)
Definition host_tail (r : result Error BrandString) : list byte :=
  match r with
  | Ok h => match find_freq h with Some f => at_sign ++ f | None => [] end
  | Err _ => []
  end.

(** The emulated brand string: for an Intel host, when its own string can be
    read and names a frequency of at most 18 characters (or none), the string
    is the fixed text followed by the host's frequency; for AMD it is the fixed
    text, for others it is empty; behind it the buffer is zero. *)
Theorem brand_string_text vendor r :
  from_host_cpuid = Ret r -> (forall h f, r = Ok h -> find_freq h = Some f -> (length f <= 18)%nat) ->
  exists b, from_vendor_id vendor = Ret b /\
    holds_text b (if bool_decide (vendor = VENDOR_ID_INTEL) then BRAND_STRING_INTEL ++ host_tail r
                  else if bool_decide (vendor = VENDOR_ID_AMD) then BRAND_STRING_AMD else []).
Proof.
  intros Hh Hlen. unfold from_vendor_id. assert (forall t : list byte, forallb (fitsb 8) t = true -> bytes_ok t) as Hok.
  { intros t Ht. apply Forall_forall. intros c Hc. apply fitsb_fits. rewrite forallb_forall in Ht. by apply Ht, list_elem_of_In. }
  destruct (bool_decide (vendor = VENDOR_ID_INTEL)).
  - destruct (from_bytes_text BRAND_STRING_INTEL) as (b & -> & Hb); [cbn; lia|by apply Hok|].
    cbn [mbind outcome_bind]. rewrite Hh. cbn [mbind outcome_bind]. destruct r as [h|e]; [|by exists b; rewrite app_nil_r].
    cbn [host_tail]. destruct (find_freq h) as [f|] eqn:Ef; [|by exists b; rewrite app_nil_r].
    destruct (push_text b _ at_sign Hb) as (b1 & -> & Hb1); [vm_compute; lia|by apply Hok|]. cbn [mbind outcome_bind].
    assert (bytes_ok f) as Hf.
    { destruct (freq_loop_sound (as_bytes h) (mkSearch Initial 0 0) 0 (as_bytes h) f) as (pre & post & Hp & _); [done..|]. pose proof (as_bytes_ok h) as Hb8. rewrite Hp in Hb8.
      by apply Forall_app in Hb8 as [_ [Hb8 _]%Forall_app]. }
    destruct (push_text b1 _ f Hb1) as (b2 & -> & Hb2); [specialize (Hlen h f eq_refl Ef); unfold MAX_LEN; cbn; lia|done|].
    exists b2. split; [done|]. by rewrite app_assoc.
  - destruct (bool_decide _); [apply from_bytes_text; [cbn; lia|by apply Hok]|].
    apply from_bytes_text; [cbn; lia|by apply Hok].
Qed.

(** A host whose brand string is all zero panics the length loop. *)
Lemma zero_brand_panics :
  0x80000004 <= c_eax (host_cpuid 0x80000000) ->
  (forall leaf, 0x80000002 <= leaf <= 0x80000004 -> host_cpuid leaf = mkCpuid 0 0 0 0) -> from_host_cpuid = Panic.
Proof.
  intros Hs Hz. unfold from_host_cpuid, set_leaf. rewrite (proj2 (Z.ltb_ge _ _)) by done. rewrite !Hz by lia. reflexivity.
Qed.
End host.

(** ** Witness: a host that names a frequency *)

(** ["2.50GHz"] in the first leaf. *)
Definition demo_host (leaf : Z) : CpuidResult :=
  if leaf =? 0x80000000 then mkCpuid 0x80000008 0 0 0
  else if leaf =? 0x80000002 then mkCpuid (le_val [50; 46; 53; 48]) (le_val [71; 72; 122; 0]) 0 0
  else mkCpuid 0 0 0 0.

Lemma brand_string_text_witness :
  exists b, from_vendor_id demo_host VENDOR_ID_INTEL = Ret b /\
    holds_text b (BRAND_STRING_INTEL ++ at_sign ++ [50; 46; 53; 48; 71; 72; 122]).
Proof.
  apply (brand_string_text demo_host VENDOR_ID_INTEL
    (Ok (mkBrand [le_val [50; 46; 53; 48]; le_val [71; 72; 122; 0]; 0; 0; 0; 0; 0; 0; 0; 0; 0; 0] 7))).
  - vm_compute. reflexivity.
  - intros h f [= <-] Hf. vm_compute in Hf. injection Hf as <-. simpl. lia.
Defined.
End BrandString.
