(* ===== verification/Cpuid.v ===== *)
(** * CPUID leaves offered to the guest ([cpuid/src])

    [lib.rs], [common.rs], [transformer/] and [template/]: the entries KVM
    supports are rewritten for the topology of the machine, per processor and
    vendor, and masked by a feature template; [configure_x86_64] of
    [vmm/src/linux/vstate.rs] runs the two.  The [cpuid] instruction of the host
    and the limit of KVM's entry list are parameters.  The theorems: the number
    of processors per package is the least power of two that holds them; an
    Intel guest sees exactly the topology of its machine; a template removes
    exactly its features. *)

From S2P Require Import Prelude CpuidBits BrandString.

Module Cpuid.
Import CpuidBits.
Import BrandString(CpuidResult, mkCpuid, c_eax, c_ebx, c_ecx, c_edx, VENDOR_ID_INTEL, VENDOR_ID_AMD).

(** [common::Error] and [transformer::Error] *)
Inductive CommonError := InvalidParameters | NotSupported.

Inductive Error := FamError | InternalError (e : CommonError) | VcpuCountOverflow.

(** [kvm_cpuid_entry2] without its padding *)
Record Entry := mkEntry {
  function : Z; index : Z; flags : Z; eax : Z; ebx : Z; ecx : Z; edx : Z }.

Definition set_eax (e : Entry) v := mkEntry (function e) (index e) (flags e) v (ebx e) (ecx e) (edx e).
Definition set_ebx (e : Entry) v := mkEntry (function e) (index e) (flags e) (eax e) v (ecx e) (edx e).
Definition set_ecx (e : Entry) v := mkEntry (function e) (index e) (flags e) (eax e) (ebx e) v (edx e).
Definition set_edx (e : Entry) v := mkEntry (function e) (index e) (flags e) (eax e) (ebx e) (ecx e) v.

Record VmSpec := mkSpec {
  cpu_vendor_id : list byte; cpu_id : Z; cpu_count : Z; ht_enabled : bool;
  brand_string : BrandString.BrandString }.

Definition KVM_CPUID_FLAG_SIGNIFCANT_INDEX : Z := 1.
Definition EBX_CLFLUSH_CACHELINE : Z := 8.
Definition LEAFBH_INDEX1_APICID : Z := 6.
Definition LARGEST_EXTENDED_FN : Z := 0x8000001f.
Definition THREAD_ID_MAX_SIZE : Z := 6.
Definition NODES_PER_PROCESSOR : Z := 0.

Abbreviation bsreg := BrandString.get_reg_for_leaf.

Section host.
Context (host_cpuid : Z -> Z -> CpuidResult) (max_entries : nat).

(** ** [common.rs] *)

Definition get_cpuid (function count : Z) : result CommonError CpuidResult :=
  let max_function := c_eax (host_cpuid (function .& leaf_0x80000000_LEAF_NUM) 0) in
  if max_function <? function then Err InvalidParameters
  else
    let entry := host_cpuid function count in
    if (c_eax entry =? 0) && (c_ebx entry =? 0) && (c_ecx entry =? 0) && (c_edx entry =? 0)
    then Err InvalidParameters else Ok entry.

Definition get_vendor_id : result CommonError (list byte) :=
  match get_cpuid 0 0 with
  | Ok vendor_entry => Ok (le_bytes 4 (c_ebx vendor_entry) ++ le_bytes 4 (c_edx vendor_entry) ++ le_bytes 4 (c_ecx vendor_entry))
  | Err e => Err e
  end.

(** [VmSpec::new] *)
Definition VmSpec_new (cpu_id cpu_count : Z) (ht_enabled : bool) : fallible Error VmSpec :=
  cpu_vendor_id ← Ret (map_err InternalError get_vendor_id);
  brand_string ← succeed (BrandString.from_vendor_id (fun leaf => host_cpuid leaf 0) cpu_vendor_id);
  mret (mkSpec cpu_vendor_id cpu_id cpu_count ht_enabled brand_string).

(** ** [transformer/common.rs] *)

(** At most eight rounds: an eight-bit one shifted eight times is zero. *)
Fixpoint max_cpus_loop (fuel : nat) (max_cpus_per_package cpu_count : Z) : option (result Error Z) :=
  match fuel with
  | O => None
  | S fuel =>
      if max_cpus_per_package <? cpu_count then
        let max_cpus_per_package := wrap 8 (max_cpus_per_package .<< 1) in
        if max_cpus_per_package =? 0 then Some (Err VcpuCountOverflow)
        else max_cpus_loop fuel max_cpus_per_package cpu_count
      else Some (Ok max_cpus_per_package)
  end.

Definition get_max_cpus_per_package (cpu_count : Z) : fallible Error Z :=
  match max_cpus_loop 9 1 cpu_count with Some r => Ret r | None => Panic end.

Definition common_update_feature_info_entry (entry : Entry) (vm_spec : VmSpec) : fallible Error Entry :=
  max_cpus_per_package ← get_max_cpus_per_package (cpu_count vm_spec);
  c ← succeed (write_bit (ecx entry) HYPERVISOR_BITINDEX true);
  b ← succeed (write_bits_in_range (ebx entry) leaf_0x1_APICID_BITRANGE (cpu_id vm_spec));
  b ← succeed (write_bits_in_range b CLFLUSH_SIZE_BITRANGE EBX_CLFLUSH_CACHELINE);
  b ← succeed (write_bits_in_range b CPU_COUNT_BITRANGE max_cpus_per_package);
  d ← succeed (write_bit (edx entry) HTT_BITINDEX (1 <? cpu_count vm_spec));
  mret (set_edx (set_ebx (set_ecx entry c) b) d).

Definition update_brand_string_entry (entry : Entry) (vm_spec : VmSpec) : fallible Error Entry :=
  a ← succeed (bsreg (brand_string vm_spec) (function entry) BrandString.EAX);
  b ← succeed (bsreg (brand_string vm_spec) (function entry) BrandString.EBX);
  c ← succeed (bsreg (brand_string vm_spec) (function entry) BrandString.ECX);
  d ← succeed (bsreg (brand_string vm_spec) (function entry) BrandString.EDX);
  mret (mkEntry (function entry) (index entry) (flags entry) a b c d).

(** More than one processor, and hyper-threads. *)
Definition smt (vm_spec : VmSpec) : bool := (1 <? cpu_count vm_spec) && ht_enabled vm_spec.

Definition update_cache_parameters_entry (entry : Entry) (vm_spec : VmSpec) : fallible Error Entry :=
  level ← succeed (read_bits_in_range (eax entry) CACHE_LEVEL_BITRANGE);
  if (level =? 1) || (level =? 2) then
    a ← succeed (write_bits_in_range (eax entry) MAX_CPUS_PER_CORE_BITRANGE (Z.b2z (smt vm_spec)));
    mret (set_eax entry a)
  else if level =? 3 then
    a ← succeed (write_bits_in_range (eax entry) MAX_CPUS_PER_CORE_BITRANGE (cpu_count vm_spec -[8] 1));
    mret (set_eax entry a)
  else mret entry.

(** The host's entries of a function, pushed until the host has no more; the
    error carries the entries pushed so far. *)
Fixpoint push_host (fuel : nat) (cpuid : list Entry) (function : Z) (use_count : bool) (count : Z) :
    option (result Error unit * list Entry) :=
  match fuel with
  | O => None
  | S fuel =>
      match get_cpuid function count with
      | Err _ => Some (Ok tt, cpuid)
      | Ok entry =>
          if (0 <? count) && negb use_count then Some (Ok tt, cpuid)
          else if (length cpuid <? max_entries)%nat then
            push_host fuel (cpuid ++ [mkEntry function count 0 (c_eax entry) (c_ebx entry) (c_ecx entry) (c_edx entry)])
              function use_count (count +[32] 1)
          else Some (Err FamError, cpuid)
      end
  end.

Definition use_host_cpuid_function (cpuid : list Entry) (fn : Z) (use_count : bool) :
    option (result Error unit * list Entry) :=
  push_host (S max_entries) (List.filter (fun entry => negb (function entry =? fn)) cpuid) fn use_count 0.

(** ** [transformer/mod.rs] *)

Definition EntryTransformerFn : Type := Entry -> VmSpec -> fallible Error Entry.

(** [process_entries]: the entries before a failing one stay rewritten. *)
Fixpoint process_entries (entry_transformer_fn : Z -> option EntryTransformerFn) (cpuid : list Entry) (vm_spec : VmSpec) :
    outcome (result Error unit * list Entry) :=
  match cpuid with
  | [] => Ret (Ok tt, [])
  | entry :: rest =>
      r ← match entry_transformer_fn (function entry) with
          | Some transformer_fn => transformer_fn entry vm_spec
          | None => Ret (Ok entry)
          end;
      match r with
      | Ok entry => '(r, rest) ← process_entries entry_transformer_fn rest vm_spec; Ret (r, entry :: rest)
      | Err e => Ret (Err e, entry :: rest)
      end
  end.

(** ** [transformer/intel.rs] *)

Definition update_feature_info_entry (entry : Entry) (vm_spec : VmSpec) : fallible Error Entry :=
  entry ← common_update_feature_info_entry entry vm_spec;
  c ← succeed (write_bit (ecx entry) TSC_DEADLINE_TIMER_BITINDEX true);
  mret (set_ecx entry c).

Definition update_deterministic_cache_entry (entry : Entry) (vm_spec : VmSpec) : fallible Error Entry :=
  entry ← update_cache_parameters_entry entry vm_spec;
  a ← succeed (write_bits_in_range (eax entry) MAX_CORES_PER_PACKAGE_BITRANGE (cpu_count vm_spec -[8] 1));
  mret (set_eax entry a).

Definition update_power_management_entry (entry : Entry) (vm_spec : VmSpec) : fallible Error Entry :=
  a ← succeed (write_bit (eax entry) TURBO_BOOST_BITINDEX false);
  c ← succeed (write_bit (ecx entry) EPB_BITINDEX false);
  mret (set_ecx (set_eax entry a) c).

Definition update_perf_mon_entry (entry : Entry) (vm_spec : VmSpec) : fallible Error Entry :=
  mret (mkEntry (function entry) (index entry) (flags entry) 0 0 0 0).

Definition update_extended_cache_topology_entry (entry : Entry) (vm_spec : VmSpec) : fallible Error Entry :=
  let entry := mkEntry (function entry) (index entry) (flags entry) 0 0 0 (cpu_id vm_spec) in
  if index entry =? 0 then
    a ← succeed (write_bits_in_range (eax entry) leaf_0xb_APICID_BITRANGE (Z.b2z (smt vm_spec)));
    b ← succeed (write_bits_in_range (ebx entry) NUM_LOGICAL_PROCESSORS_BITRANGE (1 + Z.b2z (smt vm_spec)));
    c ← succeed (write_bits_in_range (ecx entry) LEVEL_TYPE_BITRANGE
                   (if cpu_count vm_spec =? 1 then LEVEL_TYPE_CORE else LEVEL_TYPE_THREAD));
    mret (set_ecx (set_ebx (set_eax entry a) b) c)
  else if index entry =? 1 then
    a ← succeed (write_bits_in_range (eax entry) leaf_0xb_APICID_BITRANGE LEAFBH_INDEX1_APICID);
    c ← succeed (write_bits_in_range (ecx entry) LEVEL_NUMBER_BITRANGE (index entry));
    if cpu_count vm_spec =? 1 then
      c ← succeed (write_bits_in_range c LEVEL_TYPE_BITRANGE LEVEL_TYPE_INVALID);
      mret (set_ecx (set_eax entry a) c)
    else
      b ← succeed (write_bits_in_range (ebx entry) NUM_LOGICAL_PROCESSORS_BITRANGE (cpu_count vm_spec));
      c ← succeed (write_bits_in_range c LEVEL_TYPE_BITRANGE LEVEL_TYPE_CORE);
      mret (set_ecx (set_ebx (set_eax entry a) b) c)
  else mret (set_ecx entry (index entry)).

Definition is_brand_leaf (fn : Z) : bool := (0x80000002 <=? fn) && (fn <=? 0x80000004).

Definition intel_entry_transformer_fn (fn : Z) : option EntryTransformerFn :=
  if fn =? leaf_0x1_LEAF_NUM then Some update_feature_info_entry
  else if fn =? leaf_0x4_LEAF_NUM then Some update_deterministic_cache_entry
  else if fn =? leaf_0x6_LEAF_NUM then Some update_power_management_entry
  else if fn =? leaf_0xa_LEAF_NUM then Some update_perf_mon_entry
  else if fn =? leaf_0xb_LEAF_NUM then Some update_extended_cache_topology_entry
  else if is_brand_leaf fn then Some update_brand_string_entry
  else None.

(** ** [transformer/amd.rs] *)

Definition update_structured_extended_entry (entry : Entry) (vm_spec : VmSpec) : fallible Error Entry :=
  if index entry =? 0 then
    d ← succeed (write_bit (edx entry) ARCH_CAPABILITIES_BITINDEX false);
    mret (set_edx entry d)
  else mret entry.

Definition update_largest_extended_fn_entry (entry : Entry) (vm_spec : VmSpec) : fallible Error Entry :=
  a ← succeed (write_bits_in_range (eax entry) LARGEST_EXTENDED_FN_BITRANGE LARGEST_EXTENDED_FN);
  mret (set_eax entry a).

Definition update_extended_feature_info_entry (entry : Entry) (vm_spec : VmSpec) : fallible Error Entry :=
  c ← succeed (write_bit (ecx entry) TOPOEXT_INDEX true);
  mret (set_ecx entry c).

Definition update_amd_features_entry (entry : Entry) (vm_spec : VmSpec) : fallible Error Entry :=
  c ← succeed (write_bits_in_range (ecx entry) THREAD_ID_SIZE_BITRANGE THREAD_ID_MAX_SIZE);
  c ← succeed (write_bits_in_range c NUM_THREADS_BITRANGE (cpu_count vm_spec -[8] 1));
  mret (set_ecx entry c).

Definition amd_update_extended_cache_topology_entry (entry : Entry) (vm_spec : VmSpec) : fallible Error Entry :=
  update_cache_parameters_entry
    (mkEntry (function entry) (index entry) (flags entry .| KVM_CPUID_FLAG_SIGNIFCANT_INDEX)
       (eax entry) (ebx entry) (ecx entry) (edx entry)) vm_spec.

Definition update_extended_apic_id_entry (entry : Entry) (vm_spec : VmSpec) : fallible Error Entry :=
  let core_id := if ht_enabled vm_spec then cpu_id vm_spec / 2 else cpu_id vm_spec in
  a ← succeed (write_bits_in_range (eax entry) EXTENDED_APIC_ID_BITRANGE (cpu_id vm_spec));
  b ← succeed (write_bits_in_range (ebx entry) CORE_ID_BITRANGE core_id);
  b ← succeed (write_bits_in_range b THREADS_PER_CORE_BITRANGE (Z.b2z (ht_enabled vm_spec)));
  c ← succeed (write_bits_in_range (ecx entry) NODES_PER_PROCESSOR_BITRANGE NODES_PER_PROCESSOR);
  c ← succeed (write_bits_in_range c NODE_ID_BITRANGE 0);
  mret (set_ecx (set_ebx (set_eax entry a) b) c).

Definition amd_entry_transformer_fn (fn : Z) : option EntryTransformerFn :=
  if fn =? leaf_0x1_LEAF_NUM then Some common_update_feature_info_entry
  else if fn =? leaf_0x7_LEAF_NUM then Some update_structured_extended_entry
  else if fn =? leaf_0x80000000_LEAF_NUM then Some update_largest_extended_fn_entry
  else if fn =? leaf_0x80000001_LEAF_NUM then Some update_extended_feature_info_entry
  else if fn =? leaf_0x80000008_LEAF_NUM then Some update_amd_features_entry
  else if fn =? leaf_0x8000001d_LEAF_NUM then Some amd_update_extended_cache_topology_entry
  else if fn =? leaf_0x8000001e_LEAF_NUM then Some update_extended_apic_id_entry
  else if is_brand_leaf fn then Some update_brand_string_entry
  else None.

(** ** [process_cpuid] of the two vendors, [filter_cpuid]

    The outer option is the fuel of [push_host]. *)

Definition intel_process_cpuid (cpuid : list Entry) (vm_spec : VmSpec) : fueled (result Error unit * list Entry) :=
  Some (process_entries intel_entry_transformer_fn cpuid vm_spec).

Definition amd_process_cpuid (cpuid : list Entry) (vm_spec : VmSpec) : fueled (result Error unit * list Entry) :=
  match use_host_cpuid_function cpuid leaf_0x8000001d_LEAF_NUM false with
  | None => None
  | Some (Err e, cpuid) => Some (Ret (Err e, cpuid))
  | Some (Ok _, cpuid) =>
      match use_host_cpuid_function cpuid leaf_0x8000001d_LEAF_NUM true with
      | None => None
      | Some (Err e, cpuid) => Some (Ret (Err e, cpuid))
      | Some (Ok _, cpuid) => Some (process_entries amd_entry_transformer_fn cpuid vm_spec)
      end
  end.

Definition filter_cpuid (kvm_cpuid : list Entry) (vm_spec : VmSpec) : fueled (result Error unit * list Entry) :=
  if bool_decide (cpu_vendor_id vm_spec = VENDOR_ID_INTEL) then intel_process_cpuid kvm_cpuid vm_spec
  else if bool_decide (cpu_vendor_id vm_spec = VENDOR_ID_AMD) then amd_process_cpuid kvm_cpuid vm_spec
  else Some (Ret (Ok tt, kvm_cpuid)).

(** ** [template/t2.rs] and [template/c3.rs] *)

(** A chain of [write_bit(_, false)]. *)
Fixpoint clear_bits (x : Z) (bits : list Z) : outcome Z :=
  match bits with
  | [] => Ret x
  | pos :: bits => x ← write_bit x pos false; clear_bits x bits
  end.

(** A chain of [write_bits_in_range]. *)
Fixpoint write_ranges (x : Z) (l : list (BitRange * Z)) : outcome Z :=
  match l with
  | [] => Ret x
  | (range, v) :: l => x ← write_bits_in_range x range v; write_ranges x l
  end.

Definition t2_signature : list (BitRange * Z) :=
  [(EXTENDED_FAMILY_ID_BITRANGE, 0); (EXTENDED_PROCESSOR_MODEL_BITRANGE, 3); (PROCESSOR_TYPE_BITRANGE, 0);
   (PROCESSOR_FAMILY_BITRANGE, 6); (PROCESSOR_MODEL_BITRANGE, 15); (STEPPING_BITRANGE, 2)].

Definition c3_signature : list (BitRange * Z) :=
  [(EXTENDED_FAMILY_ID_BITRANGE, 0); (EXTENDED_PROCESSOR_MODEL_BITRANGE, 3); (PROCESSOR_TYPE_BITRANGE, 0);
   (PROCESSOR_FAMILY_BITRANGE, 6); (PROCESSOR_MODEL_BITRANGE, 14); (STEPPING_BITRANGE, 4)].

(** Features switched off, by register, in the order of the source. *)
Definition t2_0x1_ecx : list Z :=
  [DTES64_BITINDEX; MONITOR_BITINDEX; DS_CPL_SHIFT; TM2_BITINDEX; CNXT_ID_BITINDEX; SDBG_BITINDEX;
   XTPR_UPDATE_BITINDEX; PDCM_BITINDEX; OSXSAVE_BITINDEX].

Definition c3_0x1_ecx : list Z :=
  [DTES64_BITINDEX; MONITOR_BITINDEX; DS_CPL_SHIFT; TM2_BITINDEX; CNXT_ID_BITINDEX; SDBG_BITINDEX; FMA_BITINDEX;
   XTPR_UPDATE_BITINDEX; PDCM_BITINDEX; MOVBE_BITINDEX; OSXSAVE_BITINDEX].

Definition off_0x1_edx : list Z :=
  [PSN_BITINDEX; DS_BITINDEX; ACPI_BITINDEX; SS_BITINDEX; TM_BITINDEX; PBE_BITINDEX].

Definition t2_0x7_ebx : list Z :=
  [SGX_BITINDEX; HLE_BITINDEX; FPDP_BITINDEX; RTM_BITINDEX; RDT_M_BITINDEX; RDT_A_BITINDEX; MPX_BITINDEX;
   AVX512F_BITINDEX; AVX512DQ_BITINDEX; RDSEED_BITINDEX; ADX_BITINDEX; AVX512IFMA_BITINDEX; CLFLUSHOPT_BITINDEX;
   CLWB_BITINDEX; PT_BITINDEX; AVX512PF_BITINDEX; AVX512ER_BITINDEX; AVX512CD_BITINDEX; SHA_BITINDEX;
   AVX512BW_BITINDEX; AVX512VL_BITINDEX].

Definition c3_0x7_ebx : list Z :=
  [SGX_BITINDEX; BMI1_BITINDEX; HLE_BITINDEX; AVX2_BITINDEX; FPDP_BITINDEX; BMI2_BITINDEX; INVPCID_BITINDEX;
   RTM_BITINDEX; RDT_M_BITINDEX; RDT_A_BITINDEX; MPX_BITINDEX;
   AVX512F_BITINDEX; AVX512DQ_BITINDEX; RDSEED_BITINDEX; ADX_BITINDEX; AVX512IFMA_BITINDEX; CLFLUSHOPT_BITINDEX;
   CLWB_BITINDEX; PT_BITINDEX; AVX512PF_BITINDEX; AVX512ER_BITINDEX; AVX512CD_BITINDEX; SHA_BITINDEX;
   AVX512BW_BITINDEX; AVX512VL_BITINDEX].

Definition off_0x7_ecx : list Z :=
  [AVX512_VBMI_BITINDEX; PKU_BITINDEX; OSPKE_BITINDEX; AVX512_VPOPCNTDQ_BITINDEX; RDPID_BITINDEX; SGX_LC_BITINDEX].

Definition off_0x7_edx : list Z := [AVX512_4VNNIW_BITINDEX; AVX512_4FMAPS_BITINDEX].

Inductive CpuFeaturesTemplate := C3 | T2.

Definition template_update_feature_info_entry (t : CpuFeaturesTemplate) (entry : Entry) (vm_spec : VmSpec) : fallible Error Entry :=
  a ← succeed (write_ranges (eax entry) (match t with T2 => t2_signature | C3 => c3_signature end));
  c ← succeed (clear_bits (ecx entry) (match t with T2 => t2_0x1_ecx | C3 => c3_0x1_ecx end));
  d ← succeed (clear_bits (edx entry) off_0x1_edx);
  mret (set_edx (set_ecx (set_eax entry a) c) d).

Definition template_update_structured_extended_entry (t : CpuFeaturesTemplate) (entry : Entry) (vm_spec : VmSpec) : fallible Error Entry :=
  if index entry =? 0 then
    b ← succeed (clear_bits (ebx entry) (match t with T2 => t2_0x7_ebx | C3 => c3_0x7_ebx end));
    c ← succeed (clear_bits (ecx entry) off_0x7_ecx);
    d ← succeed (clear_bits (edx entry) off_0x7_edx);
    mret (set_edx (set_ecx (set_ebx entry b) c) d)
  else mret entry.

Definition update_xsave_features_entry (entry : Entry) (vm_spec : VmSpec) : fallible Error Entry :=
  entry ← (if index entry =? 0 then
             a ← succeed (write_ranges (eax entry) [(MPX_STATE_BITRANGE, 0); (AVX512_STATE_BITRANGE, 0)]);
             mret (set_eax entry a)
           else mret entry);
  if index entry =? 1 then
    a ← succeed (clear_bits (eax entry) [XSAVEC_SHIFT; XGETBV_SHIFT; XSAVES_SHIFT]);
    mret (set_eax entry a)
  else mret entry.

Definition template_update_extended_feature_info_entry (t : CpuFeaturesTemplate) (entry : Entry) (vm_spec : VmSpec) : fallible Error Entry :=
  c ← succeed (clear_bits (ecx entry) (match t with T2 => [PREFETCH_BITINDEX] | C3 => [PREFETCH_BITINDEX; LZCNT_BITINDEX] end));
  d ← succeed (clear_bits (edx entry) [PDPE1GB_BITINDEX]);
  mret (set_edx (set_ecx entry c) d).

Definition template_entry_transformer_fn (t : CpuFeaturesTemplate) (fn : Z) : option EntryTransformerFn :=
  if fn =? leaf_0x1_LEAF_NUM then Some (template_update_feature_info_entry t)
  else if fn =? leaf_0x7_LEAF_NUM then Some (template_update_structured_extended_entry t)
  else if fn =? leaf_0xd_LEAF_NUM then Some update_xsave_features_entry
  else if fn =? leaf_0x80000001_LEAF_NUM then Some (template_update_extended_feature_info_entry t)
  else None.

Definition set_cpuid_entries (t : CpuFeaturesTemplate) (kvm_cpuid : list Entry) (vm_spec : VmSpec) :
    outcome (result Error unit * list Entry) :=
  process_entries (template_entry_transformer_fn t) kvm_cpuid vm_spec.

(** The leaves a processor gets: the first half of [configure_x86_64]. *)
Definition configure_cpuid (id vcpu_count : Z) (ht_enabled : bool) (cpu_template : option CpuFeaturesTemplate) (cpuid : list Entry) :
    fueled (result Error unit * list Entry) :=
  match VmSpec_new id vcpu_count ht_enabled with
  | Panic => Some Panic
  | Ret (Err e) => Some (Ret (Err e, cpuid))
  | Ret (Ok cpuid_vm_spec) =>
      '(r, cpuid) ← filter_cpuid cpuid cpuid_vm_spec;
      match r, cpu_template with
      | Ok _, Some template => Some (set_cpuid_entries template cpuid cpuid_vm_spec)
      | _, _ => mret (r, cpuid)
      end
  end.

(** ** Fields of a rewritten register *)

(** [x'] shows the fields, and [x] everywhere else. *)
Definition shows (x : Z) (fields : list (BitRange * Z)) (x' : Z) : Prop :=
  Forall (fun '(r, v) => get r x' = v) fields /\
  forall i, 0 <= i < 32 -> Forall (fun '(r, _) => i < lsb_index r \/ msb_index r < i) fields ->
    Z.testbit x' i = Z.testbit x i.

Definition puts (fields : list (BitRange * Z)) (x : Z) : Z := foldl (fun x '(r, v) => put r v x) x fields.

Definition field_ok (f : BitRange * Z) : Prop := valid (fst f) /\ fits (width (fst f)) (snd f).

Fixpoint separate (fields : list (BitRange * Z)) : Prop :=
  match fields with
  | [] => True
  | (r, v) :: fields => field_ok (r, v) /\ Forall (fun '(r', _) => apart r r') fields /\ separate fields
  end.

Lemma get_puts r fields x :
  valid r -> separate fields -> Forall (fun '(r', _) => apart r r') fields -> get r (puts fields x) = get r x.
Proof.
  revert x. induction fields as [|[r' v] fields IH]; intros x Hv Hs Ha; [done|].
  destruct Hs as ([Hr Hf] & _ & Hs), (Forall_cons_1 _ _ _ Ha) as [Ha1 Ha2]. cbn [puts foldl fst snd] in *. fold (puts fields (put r' v x)).
  rewrite IH by done. by apply get_put_apart.
Qed.

Lemma puts_shows fields x : separate fields -> shows x fields (puts fields x).
Proof.
  intros Hs. split.
  - revert x. induction fields as [|[r v] fields IH]; intros x; [done|]. destruct Hs as ([Hr Hf] & Ha & Hs).
    cbn [puts foldl fst snd] in *. fold (puts fields (put r v x)). constructor; [|by apply IH].
    rewrite get_puts by done. by apply get_put.
  - revert x. induction fields as [|[r v] fields IH]; intros x i Hi Ho; [done|]. destruct Hs as ([Hr Hf] & Ha & Hs).
    destruct (Forall_cons_1 _ _ _ Ho) as [Ho1 Ho2]. cbn [puts foldl fst snd] in *. fold (puts fields (put r v x)).
    rewrite IH by done. rewrite put_testbit by done.
    destruct (Z.leb_spec (lsb_index r) i), (Z.leb_spec i (msb_index r)); cbn; try done; lia.
Qed.

Lemma write_ranges_puts fields x : Forall field_ok fields -> write_ranges x fields = Ret (puts fields x).
Proof.
  revert x. induction fields as [|[r v] fields IH]; intros x H; [done|]. inv H. destruct H2 as [Hr Hf].
  cbn [write_ranges puts foldl fst snd] in *. rewrite write_bits_put by done. cbn [mbind outcome_bind]. by apply IH.
Qed.

Definition off (bits : list Z) : list (BitRange * Z) := map (fun p => (bit p, 0)) bits.

Lemma clear_bits_puts bits x : Forall (fun p => 0 <= p <= 31) bits -> clear_bits x bits = Ret (puts (off bits) x).
Proof.
  revert x. induction bits as [|p bits IH]; intros x H; [done|]. inv H.
  cbn [clear_bits off map puts foldl]. rewrite write_bit_put by done. cbn [mbind outcome_bind Z.b2z]. by apply IH.
Qed.

Lemma bit_ok p b : 0 <= p <= 31 -> field_ok (bit p, Z.b2z b).
Proof. intros Hp. unfold field_ok, valid, width, fits, bit. cbn [fst snd msb_index lsb_index]. replace (p - p + 1) with 1 by lia. destruct b; cbn; lia. Qed.

Lemma off_ok bits : Forall (fun p => 0 <= p <= 31) bits -> NoDup bits -> separate (off bits).
Proof.
  intros H Hn. induction Hn as [|p bits Hp Hn IH]; [done|]. inv H. cbn [off map separate].
  split; [by apply (bit_ok p false)|]. split; [|by apply IH].
  apply Forall_forall. intros [r v] (q & [= -> ->] & Hq)%list_elem_of_fmap. unfold apart, bit. cbn.
  destruct (decide (p = q)) as [->|]; [done|lia].
Qed.

(** ** What a table of fields says about every entry *)

Record Row := mkRow {
  w_flags : Z; w_eax : Z * list (BitRange * Z); w_ebx : Z * list (BitRange * Z);
  w_ecx : Z * list (BitRange * Z); w_edx : Z * list (BitRange * Z) }.

Definition keep (x : Z) : Z * list (BitRange * Z) := (x, []).

Definition keeps (e : Entry) : Row := mkRow (flags e) (keep (eax e)) (keep (ebx e)) (keep (ecx e)) (keep (edx e)).

Definition shown (w : Row) (e e' : Entry) : Prop :=
  function e' = function e /\ index e' = index e /\ flags e' = w_flags w /\
  uncurry shows (w_eax w) (eax e') /\ uncurry shows (w_ebx w) (ebx e') /\
  uncurry shows (w_ecx w) (ecx e') /\ uncurry shows (w_edx w) (edx e').

Lemma shows_keep x : shows x [] x.
Proof. by split. Qed.

Lemma shown_keeps e : shown (keeps e) e e.
Proof. repeat split; done. Qed.

(** Entry by entry: an entry without a transformer is kept. *)
Lemma process_entries_shown f table cpuid s :
  (forall e, match f (function e) with
             | Some g => exists e', g e s = Ret (Ok e') /\ shown (table e) e e'
             | None => table e = keeps e
             end) ->
  exists cpuid', process_entries f cpuid s = Ret (Ok tt, cpuid') /\
    Forall2 (fun e e' => shown (table e) e e') cpuid cpuid'.
Proof.
  intros Hf. induction cpuid as [|e cpuid (cpuid' & IH & Hall)]; [by exists []|]. specialize (Hf e). cbn [process_entries].
  destruct (f (function e)) as [g|].
  - destruct Hf as (e' & -> & He). cbn [mbind outcome_bind]. rewrite IH. exists (e' :: cpuid'). split; [done|]. by constructor.
  - cbn [mbind outcome_bind]. rewrite IH. exists (e :: cpuid'). split; [done|]. constructor; [|done]. rewrite Hf. apply shown_keeps.
Qed.

(** ** Topology *)

Record spec_ok (s : VmSpec) : Prop := {
  spec_id : fits 8 (cpu_id s);
  spec_count : 1 <= cpu_count s <= 255;
  spec_brand : length (BrandString.reg_buf (brand_string s)) = BrandString.REG_BUF_SIZE }.

(** The number of addressable processors per package is the least power of
    two that holds them all, and an error when that does not fit a byte. *)
Theorem package_size_least count :
  0 <= count <= 255 ->
  if count <=? 128
  then exists k, get_max_cpus_per_package count = Ret (Ok (2 ^ k)) /\ 0 <= k /\ count <= 2 ^ k /\
         forall j, 0 <= j -> count <= 2 ^ j -> k <= j
  else get_max_cpus_per_package count = Ret (Err VcpuCountOverflow).
Proof.
  intros Hc. assert (get_max_cpus_per_package count =
    if count <=? 128 then Ret (Ok (2 ^ Z.log2_up count)) else Ret (Err VcpuCountOverflow)) as ->.
  { assert (forall n, 0 <= n < 256 -> get_max_cpus_per_package n =
      if n <=? 128 then Ret (Ok (2 ^ Z.log2_up n)) else Ret (Err VcpuCountOverflow)) as Hall; [|apply Hall; lia].
    clear. each_bit ltac:(reflexivity). }
  destruct (Z.leb_spec count 128); [|done]. exists (Z.log2_up count). split; [done|]. split; [apply Z.log2_up_nonneg|].
  destruct (Z.leb_spec count 0); [split; [pose proof (Z.pow_pos_nonneg 2 (Z.log2_up count)); lia|]|].
  - intros j Hj _. rewrite Z.log2_up_eqn0 by lia. done.
  - split; [by apply Z.log2_up_le_pow2|]. intros j Hj. by apply Z.log2_up_le_pow2.
Qed.

Lemma package_size_least_witness : exists k, get_max_cpus_per_package 5 = Ret (Ok (2 ^ k)) /\ 5 <= 2 ^ k.
Proof. destruct (package_size_least 5) as (k & H & _ & Hk & _); [lia|]. exists k. split; [exact H|exact Hk]. Defined.

Lemma max_cpus count : 0 <= count <= 128 -> get_max_cpus_per_package count = Ret (Ok (2 ^ Z.log2_up count)).
Proof. intros Hc. assert (0 <= count < 129) as H by lia. clear Hc. revert count H. each_bit ltac:(reflexivity). Qed.

(** How many processors share a cache of this level, minus one. *)
Definition sharing (s : VmSpec) (x : Z) : list (BitRange * Z) :=
  let level := get CACHE_LEVEL_BITRANGE x in
  if (level =? 1) || (level =? 2) then [(MAX_CPUS_PER_CORE_BITRANGE, Z.b2z (smt s))]
  else if level =? 3 then [(MAX_CPUS_PER_CORE_BITRANGE, cpu_count s - 1)] else [].

Definition brand_row (s : VmSpec) (e : Entry) : Row :=
  let r reg := keep (BrandString.reg_buf (brand_string s) !!! BrandString.reg_slot (function e) reg) in
  mkRow (flags e) (r BrandString.EAX) (r BrandString.EBX) (r BrandString.ECX) (r BrandString.EDX).

Definition feature_row (s : VmSpec) (e : Entry) (extra : list (BitRange * Z)) : Row :=
  mkRow (flags e) (keep (eax e))
    (ebx e, [(leaf_0x1_APICID_BITRANGE, cpu_id s); (CLFLUSH_SIZE_BITRANGE, 8); (CPU_COUNT_BITRANGE, 2 ^ Z.log2_up (cpu_count s))])
    (ecx e, (bit HYPERVISOR_BITINDEX, 1) :: extra) (edx e, [(bit HTT_BITINDEX, Z.b2z (1 <? cpu_count s))]).

Definition topology_row (s : VmSpec) (e : Entry) : Row :=
  if index e =? 0 then
    mkRow (flags e) (0, [(leaf_0xb_APICID_BITRANGE, Z.b2z (smt s))])
      (0, [(NUM_LOGICAL_PROCESSORS_BITRANGE, if smt s then 2 else 1)])
      (0, [(LEVEL_TYPE_BITRANGE, if cpu_count s =? 1 then LEVEL_TYPE_CORE else LEVEL_TYPE_THREAD)]) (keep (cpu_id s))
  else if index e =? 1 then
    mkRow (flags e) (0, [(leaf_0xb_APICID_BITRANGE, 6)])
      (if cpu_count s =? 1 then keep 0 else (0, [(NUM_LOGICAL_PROCESSORS_BITRANGE, cpu_count s)]))
      (0, [(LEVEL_NUMBER_BITRANGE, 1); (LEVEL_TYPE_BITRANGE, if cpu_count s =? 1 then LEVEL_TYPE_INVALID else LEVEL_TYPE_CORE)])
      (keep (cpu_id s))
  else mkRow (flags e) (keep 0) (keep 0) (keep (index e)) (keep (cpu_id s)).

(** The topology an Intel guest sees. *)
Definition intel_row (s : VmSpec) (e : Entry) : Row :=
  if function e =? leaf_0x1_LEAF_NUM then feature_row s e [(bit TSC_DEADLINE_TIMER_BITINDEX, 1)]
  else if function e =? leaf_0x4_LEAF_NUM then
    mkRow (flags e) (eax e, sharing s (eax e) ++ [(MAX_CORES_PER_PACKAGE_BITRANGE, cpu_count s - 1)])
      (keep (ebx e)) (keep (ecx e)) (keep (edx e))
  else if function e =? leaf_0x6_LEAF_NUM then
    mkRow (flags e) (eax e, off [TURBO_BOOST_BITINDEX]) (keep (ebx e)) (ecx e, off [EPB_BITINDEX]) (keep (edx e))
  else if function e =? leaf_0xa_LEAF_NUM then mkRow (flags e) (keep 0) (keep 0) (keep 0) (keep 0)
  else if function e =? leaf_0xb_LEAF_NUM then topology_row s e
  else if is_brand_leaf (function e) then brand_row s e
  else keeps e.

(** Side conditions on the ranges of the tables. *)
Ltac fits_side :=
  lazymatch goal with
  | |- fits (width ?r) ?v =>
      let w := eval vm_compute in (width r) in change (fits w v);
      first [ assumption
            | unfold fits; repeat match goal with |- context [Z.b2z ?b] => destruct b; cbn [Z.b2z] end;
              repeat match goal with |- context [if ?b then _ else _] => destruct b end;
              unfold LEVEL_TYPE_CORE, LEVEL_TYPE_THREAD, LEVEL_TYPE_INVALID, LEAFBH_INDEX1_APICID; lia ]
  end.

Ltac field_side :=
  lazymatch goal with
  | |- valid _ => unfold valid; vm_compute; repeat split; discriminate
  | |- fits (width _) _ => fits_side
  | |- apart _ _ => unfold apart; vm_compute; first [left; reflexivity | right; reflexivity]
  | |- _ <= _ <= _ => vm_compute; split; discriminate
  end.

Ltac separate_side :=
  lazymatch goal with
  | |- separate [] => exact I
  | |- separate (_ :: _) =>
      split; [split; cbn [fst snd]; field_side|split; [repeat (apply Forall_cons_2; [field_side|]); apply Forall_nil_2|separate_side]]
  end.

(** Runs a transformer on an entry. *)
Ltac run_writes :=
  repeat first [ rewrite write_bits_put by field_side | rewrite write_bit_put by field_side
               | rewrite read_bits_get by field_side
               | progress cbn [mbind fallible_bind succeed eax ebx ecx edx set_eax set_ebx set_ecx set_edx function index flags] ].

Ltac show_fields :=
  lazymatch goal with
  | |- shows _ [] _ => apply shows_keep
  | |- shows ?x ?f _ => refine (puts_shows f x _); cbn [off map]; separate_side
  end.

Ltac show_row :=
  eexists; split; [reflexivity|]; do 3 (split; [done|]);
  cbn [uncurry function index flags eax ebx ecx edx w_flags w_eax w_ebx w_ecx w_edx set_eax set_ebx set_ecx set_edx keep fst snd feature_row];
  split; [|split; [|split]].

Section topology.
Context (s : VmSpec) (Hs : spec_ok s).

Lemma package_size_fits : cpu_count s <= 128 -> fits 8 (2 ^ Z.log2_up (cpu_count s)).
Proof.
  destruct Hs as [_ Hn _]. intros Hc. split; [apply Z.pow_nonneg; lia|]. apply Z.pow_lt_mono_r; [lia..|].
  enough (Z.log2_up (cpu_count s) <= 7) by lia. apply Z.log2_up_le_pow2; lia.
Qed.

Lemma feature_run e : cpu_count s <= 128 ->
  common_update_feature_info_entry e s =
    Ret (Ok (mkEntry (function e) (index e) (flags e) (eax e) (puts (snd (w_ebx (feature_row s e []))) (ebx e))
      (put (bit HYPERVISOR_BITINDEX) 1 (ecx e)) (put (bit HTT_BITINDEX) (Z.b2z (1 <? cpu_count s)) (edx e)))).
Proof.
  intros Hc. pose proof Hs as [Hid Hn _]. unfold common_update_feature_info_entry. rewrite max_cpus by lia.
  pose proof (package_size_fits Hc) as Hp. unfold EBX_CLFLUSH_CACHELINE. by run_writes.
Qed.

Lemma feature_entry e : cpu_count s <= 128 ->
  exists e', common_update_feature_info_entry e s = Ret (Ok e') /\ shown (feature_row s e []) e e'.
Proof.
  intros Hc. pose proof Hs as [Hid Hn _]. pose proof (package_size_fits Hc) as Hp. rewrite feature_run by done. show_row; show_fields.
Qed.

Lemma intel_feature_entry e : cpu_count s <= 128 ->
  exists e', update_feature_info_entry e s = Ret (Ok e') /\ shown (feature_row s e [(bit TSC_DEADLINE_TIMER_BITINDEX, 1)]) e e'.
Proof.
  intros Hc. pose proof Hs as [Hid Hn _]. pose proof (package_size_fits Hc) as Hp.
  unfold update_feature_info_entry. rewrite feature_run by done. run_writes. show_row; show_fields.
Qed.

Lemma count_pred : cpu_count s -[8] 1 = cpu_count s - 1.
Proof. destruct Hs as [_ Hn _]. apply wrap_small. unfold fits. lia. Qed.

Lemma cache_entry e :
  update_cache_parameters_entry e s = Ret (Ok (set_eax e (puts (sharing s (eax e)) (eax e)))).
Proof.
  destruct Hs as [Hid Hn _]. unfold update_cache_parameters_entry, sharing. rewrite count_pred. run_writes.
  destruct ((get CACHE_LEVEL_BITRANGE (eax e) =? 1) || (get CACHE_LEVEL_BITRANGE (eax e) =? 2)); [by run_writes|].
  destruct (get CACHE_LEVEL_BITRANGE (eax e) =? 3); [by run_writes|by destruct e].
Qed.

Lemma sharing_separate x : separate (sharing s x).
Proof.
  destruct Hs as [Hid Hn _]. unfold sharing. repeat destruct (_ || _); repeat destruct (_ =? _); separate_side.
Qed.

Lemma brand_entry e : is_brand_leaf (function e) = true ->
  exists e', update_brand_string_entry e s = Ret (Ok e') /\ shown (brand_row s e) e e'.
Proof.
  intros Hb. destruct Hs as [_ _ Hl]. unfold is_brand_leaf in Hb. apply andb_true_iff in Hb as [H2%Z.leb_le H4%Z.leb_le].
  assert (forall reg, bsreg (brand_string s) (function e) reg =
    Ret (BrandString.reg_buf (brand_string s) !!! BrandString.reg_slot (function e) reg)) as Hr.
  { intros reg. unfold BrandString.get_reg_for_leaf. destruct (lookup_lt_is_Some_2 (BrandString.reg_buf (brand_string s))
      (BrandString.reg_slot (function e) reg)) as [v Hv].
    - rewrite Hl. unfold BrandString.reg_slot, BrandString.REG_BUF_SIZE. rewrite wrap_small by (unfold fits; lia).
      destruct reg; cbn [BrandString.reg_index]; lia.
    - by rewrite Hv, (list_lookup_total_correct _ _ _ Hv). }
  unfold update_brand_string_entry. rewrite !Hr. run_writes. unfold brand_row. show_row; show_fields.
Qed.

Lemma extended_topology_entry e : exists e', update_extended_cache_topology_entry e s = Ret (Ok e') /\ shown (topology_row s e) e e'.
Proof.
  destruct Hs as [Hid Hn _]. unfold update_extended_cache_topology_entry, topology_row. cbn [index].
  replace (1 + Z.b2z (smt s)) with (if smt s then 2 else 1) by (by destruct (smt s)).
  destruct (Z.eqb_spec (index e) 0) as [H0|H0]; [run_writes; show_row; show_fields|].
  destruct (Z.eqb_spec (index e) 1) as [H1|H1]; [rewrite H1|run_writes; show_row; show_fields].
  run_writes. destruct (Z.eqb_spec (cpu_count s) 1); run_writes; show_row; show_fields.
Qed.

Lemma deterministic_cache_entry e : cpu_count s <= 64 ->
  exists e', update_deterministic_cache_entry e s = Ret (Ok e') /\
    shown (mkRow (flags e) (eax e, sharing s (eax e) ++ [(MAX_CORES_PER_PACKAGE_BITRANGE, cpu_count s - 1)])
      (keep (ebx e)) (keep (ecx e)) (keep (edx e))) e e'.
Proof.
  intros Hc. pose proof Hs as [Hid Hn _]. unfold update_deterministic_cache_entry. rewrite cache_entry, count_pred.
  run_writes. show_row; try apply shows_keep.
  replace (put MAX_CORES_PER_PACKAGE_BITRANGE (cpu_count s - 1) (puts (sharing s (eax e)) (eax e)))
    with (puts (sharing s (eax e) ++ [(MAX_CORES_PER_PACKAGE_BITRANGE, cpu_count s - 1)]) (eax e))
    by (unfold puts; by rewrite foldl_app).
  apply puts_shows. unfold sharing. repeat destruct (_ || _); repeat destruct (_ =? _); cbn [app]; separate_side.
Qed.

Lemma intel_entry e : cpu_count s <= 64 ->
  match intel_entry_transformer_fn (function e) with
  | Some g => exists e', g e s = Ret (Ok e') /\ shown (intel_row s e) e e'
  | None => intel_row s e = keeps e
  end.
Proof.
  intros Hc. pose proof Hs as [Hid Hn _]. unfold intel_entry_transformer_fn, intel_row.
  destruct (function e =? leaf_0x1_LEAF_NUM); [apply intel_feature_entry; lia|].
  destruct (function e =? leaf_0x4_LEAF_NUM); [by apply deterministic_cache_entry|].
  destruct (function e =? leaf_0x6_LEAF_NUM).
  { unfold update_power_management_entry. run_writes. show_row; show_fields. }
  destruct (function e =? leaf_0xa_LEAF_NUM); [unfold update_perf_mon_entry; show_row; apply shows_keep|].
  destruct (function e =? leaf_0xb_LEAF_NUM); [apply extended_topology_entry|].
  destruct (is_brand_leaf (function e)) eqn:Hb; [by apply brand_entry|done].
Qed.

(** The leaves of an Intel guest of at most 64 processors: every entry shows
    the topology of the table, and every other bit is the host's. *)
Theorem intel_topology cpuid :
  cpu_vendor_id s = VENDOR_ID_INTEL -> cpu_count s <= 64 ->
  exists cpuid', filter_cpuid cpuid s = Some (Ret (Ok tt, cpuid')) /\
    Forall2 (fun e e' => shown (intel_row s e) e e') cpuid cpuid'.
Proof.
  intros Hv Hc. unfold filter_cpuid. rewrite bool_decide_true by done.
  destruct (process_entries_shown intel_entry_transformer_fn (intel_row s) cpuid s) as (cpuid' & H & Hall).
  { intros e. by apply intel_entry. }
  exists cpuid'. split; [unfold intel_process_cpuid; by rewrite H|done].
Qed.

(** Between 65 and 255 processors the cache leaf panics: its field for the
    cores has six bits. *)
Lemma intel_cores_panic e : 64 < cpu_count s -> update_deterministic_cache_entry e s = Panic.
Proof.
  intros Hc. destruct Hs as [Hid Hn _]. unfold update_deterministic_cache_entry. rewrite cache_entry, count_pred. run_writes.
  rewrite write_bits_panics; [done|field_side|]. change (2 ^ width MAX_CORES_PER_PACKAGE_BITRANGE) with 64. lia.
Qed.

(** The topology an AMD guest sees. *)
Definition amd_row (e : Entry) : Row :=
  if function e =? leaf_0x1_LEAF_NUM then feature_row s e []
  else if function e =? leaf_0x7_LEAF_NUM then
    if index e =? 0 then mkRow (flags e) (keep (eax e)) (keep (ebx e)) (keep (ecx e)) (edx e, off [ARCH_CAPABILITIES_BITINDEX])
    else keeps e
  else if function e =? leaf_0x80000000_LEAF_NUM then
    mkRow (flags e) (eax e, [(LARGEST_EXTENDED_FN_BITRANGE, 0x8000001f)]) (keep (ebx e)) (keep (ecx e)) (keep (edx e))
  else if function e =? leaf_0x80000001_LEAF_NUM then
    mkRow (flags e) (keep (eax e)) (keep (ebx e)) (ecx e, [(bit TOPOEXT_INDEX, 1)]) (keep (edx e))
  else if function e =? leaf_0x80000008_LEAF_NUM then
    mkRow (flags e) (keep (eax e)) (keep (ebx e))
      (ecx e, [(THREAD_ID_SIZE_BITRANGE, 6); (NUM_THREADS_BITRANGE, cpu_count s - 1)]) (keep (edx e))
  else if function e =? leaf_0x8000001d_LEAF_NUM then
    mkRow (flags e .| 1) (eax e, sharing s (eax e)) (keep (ebx e)) (keep (ecx e)) (keep (edx e))
  else if function e =? leaf_0x8000001e_LEAF_NUM then
    mkRow (flags e) (eax e, [(EXTENDED_APIC_ID_BITRANGE, cpu_id s)])
      (ebx e, [(CORE_ID_BITRANGE, if ht_enabled s then cpu_id s / 2 else cpu_id s); (THREADS_PER_CORE_BITRANGE, Z.b2z (ht_enabled s))])
      (ecx e, [(NODES_PER_PROCESSOR_BITRANGE, 0); (NODE_ID_BITRANGE, 0)]) (keep (edx e))
  else if is_brand_leaf (function e) then brand_row s e
  else keeps e.

Lemma apic_id_entry e :
  exists e', update_extended_apic_id_entry e s = Ret (Ok e') /\
    shown (mkRow (flags e) (eax e, [(EXTENDED_APIC_ID_BITRANGE, cpu_id s)])
      (ebx e, [(CORE_ID_BITRANGE, if ht_enabled s then cpu_id s / 2 else cpu_id s); (THREADS_PER_CORE_BITRANGE, Z.b2z (ht_enabled s))])
      (ecx e, [(NODES_PER_PROCESSOR_BITRANGE, 0); (NODE_ID_BITRANGE, 0)]) (keep (edx e))) e e'.
Proof.
  destruct Hs as [Hid Hn _]. unfold update_extended_apic_id_entry. unfold fits in Hid.
  assert (0 <= cpu_id s / 2 < 2 ^ 8) as H2 by (split; [apply Z.div_pos|apply Z.div_lt_upper_bound]; lia).
  unfold NODES_PER_PROCESSOR. run_writes. show_row; show_fields.
Qed.

Lemma amd_entry e : cpu_count s <= 128 ->
  match amd_entry_transformer_fn (function e) with
  | Some g => exists e', g e s = Ret (Ok e') /\ shown (amd_row e) e e'
  | None => amd_row e = keeps e
  end.
Proof.
  intros Hc. pose proof Hs as [Hid Hn _]. unfold amd_entry_transformer_fn, amd_row.
  destruct (function e =? leaf_0x1_LEAF_NUM); [by apply feature_entry|].
  destruct (function e =? leaf_0x7_LEAF_NUM).
  { unfold update_structured_extended_entry. destruct (index e =? 0); run_writes; [show_row; show_fields|by exists e; split; [|apply shown_keeps]]. }
  destruct (function e =? leaf_0x80000000_LEAF_NUM); [unfold update_largest_extended_fn_entry, LARGEST_EXTENDED_FN; run_writes; show_row; show_fields|].
  destruct (function e =? leaf_0x80000001_LEAF_NUM); [unfold update_extended_feature_info_entry; run_writes; show_row; show_fields|].
  destruct (function e =? leaf_0x80000008_LEAF_NUM).
  { unfold update_amd_features_entry, THREAD_ID_MAX_SIZE. rewrite count_pred. run_writes. show_row; show_fields. }
  destruct (function e =? leaf_0x8000001d_LEAF_NUM).
  { unfold amd_update_extended_cache_topology_entry. rewrite cache_entry. show_row; try apply shows_keep.
    apply puts_shows, sharing_separate. }
  destruct (function e =? leaf_0x8000001e_LEAF_NUM); [apply apic_id_entry|].
  destruct (is_brand_leaf (function e)) eqn:Hb; [by apply brand_entry|done].
Qed.

(** The entries of a function, as the host answers them. *)
Definition host_entry (fn i : Z) : Entry :=
  let r := host_cpuid fn i in mkEntry fn i 0 (c_eax r) (c_ebx r) (c_ecx r) (c_edx r).

(** The host knows exactly the first [n] sub-leaves of a function. *)
Definition host_leaves (fn : Z) (n : nat) : Prop :=
  (forall i, 0 <= i < Z.of_nat n -> get_cpuid fn i = Ok (host_cpuid fn i)) /\
  get_cpuid fn (Z.of_nat n) = Err InvalidParameters.

Definition others (fn : Z) (cpuid : list Entry) : list Entry := List.filter (fun e => negb (function e =? fn)) cpuid.

Lemma push_host_all fn n fuel cpuid k :
  host_leaves fn (k + n) -> (length cpuid + n <= max_entries)%nat -> Z.of_nat (k + n) < 2 ^ 32 -> (n < fuel)%nat ->
  push_host fuel cpuid fn true (Z.of_nat k) = Some (Ok tt, cpuid ++ map (host_entry fn) (seqZ (Z.of_nat k) (Z.of_nat n))).
Proof.
  revert fuel cpuid k. induction n as [|n IH]; intros fuel cpuid k Hh Hm Hw Hf; (destruct fuel as [|fuel]; [lia|]).
  - destruct Hh as [_ Hh]. rewrite Nat.add_0_r in Hh. cbn [push_host]. rewrite Hh. by rewrite app_nil_r.
  - cbn [push_host]. rewrite (proj1 Hh) by lia. cbn [negb]. rewrite andb_false_r.
    destruct (Nat.ltb_spec (length cpuid) max_entries); [|lia]. rewrite wrap_small by (unfold fits; lia).
    replace (Z.of_nat k + 1) with (Z.of_nat (S k)) by lia. rewrite IH.
    + rewrite (seqZ_cons (Z.of_nat k)) by lia. cbn [map]. rewrite <- app_assoc. cbn [app].
      replace (Z.pred (Z.of_nat (S n))) with (Z.of_nat n) by lia. by replace (Z.succ (Z.of_nat k)) with (Z.of_nat (S k)) by lia.
    + by replace (S k + n)%nat with (k + S n)%nat by lia.
    + rewrite length_app. cbn. lia.
    + lia.
    + lia.
Qed.

Lemma push_host_first fn n fuel cpuid :
  host_leaves fn n -> (length cpuid + n <= max_entries)%nat -> (1 < fuel)%nat ->
  exists new, push_host fuel cpuid fn false 0 = Some (Ok tt, cpuid ++ new) /\ Forall (fun e => function e = fn) new.
Proof.
  intros Hh Hm Hf. destruct fuel as [|[|fuel]]; [lia..|]. cbn [push_host].
  destruct n as [|n]; [destruct Hh as [_ Hh]; change (Z.of_nat 0) with 0 in Hh; rewrite Hh; exists []; by rewrite app_nil_r|].
  rewrite (proj1 Hh) by lia. cbn [Z.ltb Z.compare andb]. destruct (Nat.ltb_spec (length cpuid) max_entries); [|lia].
  change (0 +[32] 1) with 1. eexists [_].
  split; [destruct (get_cpuid fn 1); [|reflexivity]; reflexivity|]. by repeat constructor.
Qed.

Lemma others_app fn l l' : Forall (fun e => function e = fn) l' -> others fn (others fn l ++ l') = others fn l.
Proof.
  intros H. unfold others. rewrite List.filter_app. assert (List.filter (fun e => negb (function e =? fn)) l' = []) as ->.
  { induction H as [|e l' He _ IH]; [done|]. cbn. by rewrite He, Z.eqb_refl. }
  rewrite app_nil_r. induction l as [|e l IH]; [done|]. cbn. destruct (negb (function e =? fn)) eqn:He; cbn; [by rewrite He, IH|done].
Qed.

(** The first of the two replacements an AMD processor's leaves go through
    leaves no trace: the second removes what it added. *)
Lemma first_replacement_dead cpuid fn n use_count :
  host_leaves fn n -> (length (others fn cpuid) + n <= max_entries)%nat -> (0 < max_entries)%nat ->
  exists cpuid1, use_host_cpuid_function cpuid fn false = Some (Ok tt, cpuid1) /\
    use_host_cpuid_function cpuid1 fn use_count = use_host_cpuid_function cpuid fn use_count.
Proof.
  intros Hh Hm Hp. unfold use_host_cpuid_function. fold (others fn cpuid).
  destruct (push_host_first fn n (S max_entries) (others fn cpuid)) as (new & -> & Hn); [done|done|lia|].
  eexists. split; [done|]. fold (others fn (others fn cpuid ++ new)). by rewrite others_app.
Qed.

(** The leaves of an AMD guest of at most 128 processors: the cache topology
    is taken from the host, then every entry shows the table. *)
Theorem amd_topology cpuid n :
  cpu_vendor_id s = VENDOR_ID_AMD -> cpu_count s <= 128 ->
  host_leaves leaf_0x8000001d_LEAF_NUM n -> (length (others leaf_0x8000001d_LEAF_NUM cpuid) + n <= max_entries)%nat ->
  (0 < max_entries)%nat -> Z.of_nat n < 2 ^ 32 ->
  exists cpuid', filter_cpuid cpuid s = Some (Ret (Ok tt, cpuid')) /\
    Forall2 (fun e e' => shown (amd_row e) e e')
      (others leaf_0x8000001d_LEAF_NUM cpuid ++ map (host_entry leaf_0x8000001d_LEAF_NUM) (seqZ 0 (Z.of_nat n))) cpuid'.
Proof.
  intros Hv Hc Hh Hm Hp Hw. unfold filter_cpuid. rewrite bool_decide_false, bool_decide_true by (rewrite Hv; done).
  unfold amd_process_cpuid. destruct (first_replacement_dead cpuid leaf_0x8000001d_LEAF_NUM n true) as (c1 & -> & ->); [done..|].
  unfold use_host_cpuid_function. fold (others leaf_0x8000001d_LEAF_NUM cpuid).
  rewrite (push_host_all leaf_0x8000001d_LEAF_NUM n _ _ 0) by (done || lia).
  destruct (process_entries_shown amd_entry_transformer_fn amd_row
    (others leaf_0x8000001d_LEAF_NUM cpuid ++ map (host_entry leaf_0x8000001d_LEAF_NUM) (seqZ 0 (Z.of_nat n))) s) as (cpuid' & H & Hall).
  { intros e. by apply amd_entry. }
  exists cpuid'. split; [|done]. exact (f_equal Some H).
Qed.
End topology.

(** [VmSpec::new] reads vendor and brand from the host. *)
Lemma VmSpec_new_ok id count ht vendor b :
  get_vendor_id = Ok vendor -> BrandString.from_vendor_id (fun leaf => host_cpuid leaf 0) vendor = Ret b ->
  VmSpec_new id count ht = Ret (Ok (mkSpec vendor id count ht b)).
Proof. intros Hv Hb. unfold VmSpec_new. rewrite Hv. cbn [map_err mbind fallible_bind]. by rewrite Hb. Qed.

(** ** Templates *)

Definition feature_off (t : CpuFeaturesTemplate) (s : VmSpec) (e : Entry) : Row :=
  if function e =? leaf_0x1_LEAF_NUM then
    mkRow (flags e) (eax e, match t with T2 => t2_signature | C3 => c3_signature end) (keep (ebx e))
      (ecx e, off (match t with T2 => t2_0x1_ecx | C3 => c3_0x1_ecx end)) (edx e, off off_0x1_edx)
  else if function e =? leaf_0x7_LEAF_NUM then
    if index e =? 0 then
      mkRow (flags e) (keep (eax e)) (ebx e, off (match t with T2 => t2_0x7_ebx | C3 => c3_0x7_ebx end))
        (ecx e, off off_0x7_ecx) (edx e, off off_0x7_edx)
    else keeps e
  else if function e =? leaf_0xd_LEAF_NUM then
    mkRow (flags e)
      (eax e, if index e =? 0 then [(MPX_STATE_BITRANGE, 0); (AVX512_STATE_BITRANGE, 0)]
              else if index e =? 1 then off [XSAVEC_SHIFT; XGETBV_SHIFT; XSAVES_SHIFT] else [])
      (keep (ebx e)) (keep (ecx e)) (keep (edx e))
  else if function e =? leaf_0x80000001_LEAF_NUM then
    mkRow (flags e) (keep (eax e)) (keep (ebx e))
      (ecx e, off (match t with T2 => [PREFETCH_BITINDEX] | C3 => [PREFETCH_BITINDEX; LZCNT_BITINDEX] end))
      (edx e, off [PDPE1GB_BITINDEX])
  else keeps e.

Lemma clear_shown x bits : Forall (fun p => 0 <= p <= 31) bits -> NoDup bits ->
  exists x', clear_bits x bits = Ret x' /\ shows x (off bits) x'.
Proof. intros H Hn. eexists. split; [by apply clear_bits_puts|]. by apply puts_shows, off_ok. Qed.

Lemma write_shown x fields : separate fields -> exists x', write_ranges x fields = Ret x' /\ shows x fields x'.
Proof.
  intros H. eexists. split; [apply write_ranges_puts|by apply puts_shows].
  induction fields as [|[r v] fields IH]; [done|]. destruct H as (Hf & _ & H). constructor; [done|by apply IH].
Qed.

Ltac bits_side :=
  first [ apply (bool_decide_unpack _); vm_compute; exact I
        | match goal with |- context [match ?t with C3 => _ | T2 => _ end] => destruct t end; bits_side ].

(** Replaces the next register by the one the table describes. *)
Ltac next_register :=
  match goal with
  | |- context [clear_bits ?x ?l] =>
      let H := fresh in destruct (clear_shown x l) as (? & H & ?); [bits_side|bits_side|rewrite H]
  | |- context [write_ranges ?x ?l] =>
      let H := fresh in destruct (write_shown x l) as (? & H & ?);
        [try match goal with |- context [match ?t with C3 => _ | T2 => _ end] => destruct t end;
         unfold t2_signature, c3_signature; separate_side|rewrite H]
  end; cbn [mbind fallible_bind mret fallible_ret succeed eax ebx ecx edx set_eax set_ebx set_ecx set_edx function index flags].

Ltac run_template := repeat next_register; show_row; first [assumption | apply shows_keep].

Lemma template_entry t s e :
  match template_entry_transformer_fn t (function e) with
  | Some g => exists e', g e s = Ret (Ok e') /\ shown (feature_off t s e) e e'
  | None => feature_off t s e = keeps e
  end.
Proof.
  unfold template_entry_transformer_fn, feature_off.
  destruct (function e =? leaf_0x1_LEAF_NUM); [unfold template_update_feature_info_entry; run_template|].
  destruct (function e =? leaf_0x7_LEAF_NUM).
  { unfold template_update_structured_extended_entry. destruct (index e =? 0); [run_template|]. exists e. split; [done|apply shown_keeps]. }
  destruct (function e =? leaf_0xd_LEAF_NUM).
  { unfold update_xsave_features_entry. destruct (Z.eqb_spec (index e) 0) as [H0|H0].
    - next_register. rewrite H0. cbn [Z.eqb Pos.eqb]. run_template.
    - cbn [mbind fallible_bind mret fallible_ret]. destruct (index e =? 1); run_template. }
  destruct (function e =? leaf_0x80000001_LEAF_NUM); [unfold template_update_extended_feature_info_entry; run_template|done].
Qed.

(** A template removes exactly its features, whatever the entries. *)
Theorem template_masks t s cpuid :
  exists cpuid', set_cpuid_entries t cpuid s = Ret (Ok tt, cpuid') /\
    Forall2 (fun e e' => shown (feature_off t s e) e e') cpuid cpuid'.
Proof. apply process_entries_shown. intros e. apply template_entry. Qed.
End host.

(** ** Witnesses *)

(** A host with one sub-leaf of the AMD cache leaf. *)
Definition cpuid_demo_host (fn i : Z) : CpuidResult :=
  if fn =? 0x80000000 then mkCpuid 0x8000001f 0 0 0
  else if (fn =? 0x8000001d) && (i =? 0) then mkCpuid 0x121 0 0 0
  else mkCpuid 0 0 0 0.

Definition demo_spec (vendor : list byte) : VmSpec := mkSpec vendor 3 4 true BrandString.new.

Definition demo_entries : list Entry := [mkEntry 0x1 0 0 0 0 0 0; mkEntry 0x4 3 0 0x63 0 0 0; mkEntry 0x8000001d 5 0 7 7 7 7].

Lemma demo_spec_ok vendor : spec_ok (demo_spec vendor).
Proof. split; [split; vm_compute; congruence|cbn; lia|reflexivity]. Qed.

Lemma intel_topology_witness :
  exists cpuid', filter_cpuid cpuid_demo_host 80 demo_entries (demo_spec VENDOR_ID_INTEL) = Some (Ret (Ok tt, cpuid')) /\
    Forall2 (fun e e' => shown (intel_row (demo_spec VENDOR_ID_INTEL) e) e e') demo_entries cpuid'.
Proof. apply (intel_topology cpuid_demo_host 80 (demo_spec VENDOR_ID_INTEL) (demo_spec_ok _) demo_entries); [reflexivity|cbn; lia]. Defined.

Lemma amd_topology_witness :
  exists cpuid', filter_cpuid cpuid_demo_host 80 demo_entries (demo_spec VENDOR_ID_AMD) = Some (Ret (Ok tt, cpuid')) /\
    length cpuid' = 3%nat.
Proof.
  destruct (amd_topology cpuid_demo_host 80 (demo_spec VENDOR_ID_AMD) (demo_spec_ok _) demo_entries 1) as (c & H & Hall).
  - reflexivity.
  - cbn; lia.
  - split; [|reflexivity]. intros i Hi. assert (i = 0) as -> by lia. reflexivity.
  - vm_compute. lia.
  - lia.
  - lia.
  - exists c. split; [exact H|]. rewrite <- (Forall2_length _ _ _ Hall). reflexivity.
Defined.
End Cpuid.
