(* ===== verification/FuseAbi.v ===== *)
(** * The FUSE protocol ([devices/src/virtio/fs/fuse.rs], [virtio/linux_errno.rs])

    The messages the guest's kernel and the file server exchange, as the
    structures of the source with their bytes in memory: the class [ByteValued]
    (the trait of the same name of [vm-memory], for [repr(C)] structures
    without gaps on a little-endian host) has an instance per structure.  The
    theorem: encoding and decoding are inverse for every structure.  Then the
    option bits, and the translation of error numbers. *)

From S2P Require Import Prelude.

Module FuseAbi.

(** ** Structures in memory

    An array of padding is one field. *)

Class ByteValued (A : Type) := {
  layout : list nat;
  to_fields : A -> list Z;
  of_fields : list Z -> A }.
Arguments layout A {_} : assert.

Class ByteValuedLaws (A : Type) {BV : ByteValued A} := {
  bv_length a : length (to_fields a) = length (layout A);
  bv_of_to a : of_fields (to_fields a) = a;
  bv_to_of l : length l = length (layout A) -> to_fields (of_fields l) = l }.

(** [size_of], [as_slice] and the read of a structure from its bytes. *)
Definition size_of (A : Type) `{ByteValued A} : nat := sum_list (layout A).

Fixpoint emit (ws : list nat) (vs : list Z) : list byte :=
  match ws, vs with
  | w :: ws, v :: vs => le_bytes w v ++ emit ws vs
  | _, _ => []
  end.

Fixpoint parse (ws : list nat) (bs : list byte) : list Z :=
  match ws with
  | [] => []
  | w :: ws => le_val (take w bs) :: parse ws (drop w bs)
  end.

Definition as_slice `{ByteValued A} (a : A) : list byte := emit (layout A) (to_fields a).

Definition from_slice `{ByteValued A} (bs : list byte) : A := of_fields (parse (layout A) bs).

(** Every field has its width. *)
Definition in_range `{ByteValued A} (a : A) : Prop :=
  Forall2 (fun w v => fits (8 * Z.of_nat w) v) (layout A) (to_fields a).

Lemma length_emit ws vs : length ws = length vs -> length (emit ws vs) = sum_list ws.
Proof.
  revert vs. induction ws as [|w ws IH]; intros [|v vs] Hl; try done. cbn in *.
  rewrite length_app, length_le_bytes, IH by lia. done.
Qed.

Lemma emit_ok ws vs : bytes_ok (emit ws vs).
Proof.
  revert vs. induction ws as [|w ws IH]; intros [|v vs]; try constructor.
  apply Forall_app. split; [apply le_bytes_ok|apply IH].
Qed.

Lemma length_parse ws bs : length (parse ws bs) = length ws.
Proof. revert bs. induction ws as [|w ws IH]; intros bs; [done|]. cbn. by rewrite IH. Qed.

Lemma parse_emit ws vs rest :
  Forall2 (fun w v => fits (8 * Z.of_nat w) v) ws vs -> parse ws (emit ws vs ++ rest) = vs.
Proof.
  intros H. revert rest. induction H as [|w v ws vs Hv H IH]; intros rest; [done|]. cbn [emit parse].
  rewrite <- app_assoc, take_app_length', drop_app_length' by (symmetry; apply length_le_bytes).
  rewrite le_val_le_bytes, wrap_small, IH by done. done.
Qed.

Lemma emit_parse ws bs : bytes_ok bs -> length bs = sum_list ws -> emit ws (parse ws bs) = bs.
Proof.
  revert bs. induction ws as [|w ws IH]; intros bs Hb Hl; [by destruct bs|]. cbn in Hl. cbn [emit parse].
  rewrite le_bytes_le_val_n; [|rewrite length_take; lia|by apply Forall_take].
  rewrite IH; [by rewrite take_drop|by apply Forall_drop|rewrite length_drop; lia].
Qed.

Section codec.
Context `{ByteValuedLaws A}.

Lemma length_as_slice (a : A) : length (as_slice a) = size_of A.
Proof. apply length_emit. symmetry. apply bv_length. Qed.

Lemma as_slice_ok (a : A) : bytes_ok (as_slice a).
Proof. apply emit_ok. Qed.

Lemma from_as_slice (a : A) rest : in_range a -> from_slice (as_slice a ++ rest) = a.
Proof. intros Ha. unfold from_slice, as_slice. rewrite parse_emit by done. apply bv_of_to. Qed.

(** Structures and their bytes: what is written is read back, and every
    message of the right size is the image of the structure read from it. *)
Theorem byte_valued_roundtrip :
  (forall a rest, in_range a -> from_slice (as_slice a ++ rest) = a) /\
  (forall a, length (as_slice a) = size_of A) /\
  (forall bs, bytes_ok bs -> length bs = size_of A -> as_slice (from_slice (A := A) bs) = bs).
Proof.
  split; [apply from_as_slice|]. split; [apply length_as_slice|]. intros bs Hb Hl. unfold as_slice, from_slice.
  rewrite bv_to_of by apply length_parse. by apply emit_parse.
Qed.
End codec.

(** Takes a structure and the structures inside it apart. *)
Ltac each_field := intros []; repeat match goal with x : ?T |- _ => lazymatch T with Z => fail | _ => destruct x end end.

Ltac byte_valued :=
  split;
  [ each_field; reflexivity
  | each_field; reflexivity
  | intros l Hl; cbn in Hl; repeat (destruct l as [|? l]; [discriminate Hl|injection Hl as Hl]);
    destruct l; [reflexivity|discriminate Hl] ].

Record Attr := mkAttr {
  attr_ino : Z; attr_size : Z; attr_blocks : Z; attr_atime : Z; attr_mtime : Z; attr_ctime : Z;
  attr_atimensec : Z; attr_mtimensec : Z; attr_ctimensec : Z; attr_mode : Z; attr_nlink : Z; attr_uid : Z;
  attr_gid : Z; attr_rdev : Z; attr_blksize : Z; attr_flags : Z }.

#[export] Instance Attr_bytes : ByteValued Attr := {
  layout := [8; 8; 8; 8; 8; 8; 4; 4; 4; 4; 4; 4; 4; 4; 4; 4]%nat;
  to_fields a := [attr_ino a; attr_size a; attr_blocks a; attr_atime a; attr_mtime a; attr_ctime a; attr_atimensec a;
    attr_mtimensec a; attr_ctimensec a; attr_mode a; attr_nlink a; attr_uid a; attr_gid a; attr_rdev a;
    attr_blksize a; attr_flags a];
  of_fields l := let f n := nth n l 0 in
    (mkAttr (f 0) (f 1) (f 2) (f 3) (f 4) (f 5) (f 6) (f 7) (f 8) (f 9) (f 10) (f 11) (f 12) (f 13) (f 14) (f
    15))%nat }.

#[export] Instance Attr_laws : ByteValuedLaws Attr.
Proof. byte_valued. Qed.

Record Kstatfs := mkKstatfs {
  kstatfs_blocks : Z; kstatfs_bfree : Z; kstatfs_bavail : Z; kstatfs_files : Z; kstatfs_ffree : Z;
  kstatfs_bsize : Z; kstatfs_namelen : Z; kstatfs_frsize : Z; kstatfs_padding : Z; kstatfs_spare : Z }.

#[export] Instance Kstatfs_bytes : ByteValued Kstatfs := {
  layout := [8; 8; 8; 8; 8; 4; 4; 4; 4; 24]%nat;
  to_fields a := [kstatfs_blocks a; kstatfs_bfree a; kstatfs_bavail a; kstatfs_files a; kstatfs_ffree a; kstatfs_bsize a;
    kstatfs_namelen a; kstatfs_frsize a; kstatfs_padding a; kstatfs_spare a];
  of_fields l := let f n := nth n l 0 in
    (mkKstatfs (f 0) (f 1) (f 2) (f 3) (f 4) (f 5) (f 6) (f 7) (f 8) (f 9))%nat }.

#[export] Instance Kstatfs_laws : ByteValuedLaws Kstatfs.
Proof. byte_valued. Qed.

Record EntryOut := mkEntryOut {
  entryOut_nodeid : Z; entryOut_generation : Z; entryOut_entry_valid : Z; entryOut_attr_valid : Z;
  entryOut_entry_valid_nsec : Z; entryOut_attr_valid_nsec : Z; entryOut_attr : Attr }.

#[export] Instance EntryOut_bytes : ByteValued EntryOut := {
  layout := [8; 8; 8; 8; 4; 4]%nat ++ layout Attr;
  to_fields a := [entryOut_nodeid a; entryOut_generation a; entryOut_entry_valid a; entryOut_attr_valid a;
    entryOut_entry_valid_nsec a; entryOut_attr_valid_nsec a] ++ to_fields (entryOut_attr a);
  of_fields l := let f n := nth n l 0 in
    (mkEntryOut (f 0) (f 1) (f 2) (f 3) (f 4) (f 5) (of_fields (drop 6 l)))%nat }.

#[export] Instance EntryOut_laws : ByteValuedLaws EntryOut.
Proof. byte_valued. Qed.

Record ForgetIn := mkForgetIn {
  forgetIn_nlookup : Z }.

#[export] Instance ForgetIn_bytes : ByteValued ForgetIn := {
  layout := [8]%nat;
  to_fields a := [forgetIn_nlookup a];
  of_fields l := let f n := nth n l 0 in
    (mkForgetIn (f 0))%nat }.

#[export] Instance ForgetIn_laws : ByteValuedLaws ForgetIn.
Proof. byte_valued. Qed.

Record ForgetOne := mkForgetOne {
  forgetOne_nodeid : Z; forgetOne_nlookup : Z }.

#[export] Instance ForgetOne_bytes : ByteValued ForgetOne := {
  layout := [8; 8]%nat;
  to_fields a := [forgetOne_nodeid a; forgetOne_nlookup a];
  of_fields l := let f n := nth n l 0 in
    (mkForgetOne (f 0) (f 1))%nat }.

#[export] Instance ForgetOne_laws : ByteValuedLaws ForgetOne.
Proof. byte_valued. Qed.

Record BatchForgetIn := mkBatchForgetIn {
  batchForgetIn_count : Z; batchForgetIn_dummy : Z }.

#[export] Instance BatchForgetIn_bytes : ByteValued BatchForgetIn := {
  layout := [4; 4]%nat;
  to_fields a := [batchForgetIn_count a; batchForgetIn_dummy a];
  of_fields l := let f n := nth n l 0 in
    (mkBatchForgetIn (f 0) (f 1))%nat }.

#[export] Instance BatchForgetIn_laws : ByteValuedLaws BatchForgetIn.
Proof. byte_valued. Qed.

Record GetattrIn := mkGetattrIn {
  getattrIn_flags : Z; getattrIn_dummy : Z; getattrIn_fh : Z }.

#[export] Instance GetattrIn_bytes : ByteValued GetattrIn := {
  layout := [4; 4; 8]%nat;
  to_fields a := [getattrIn_flags a; getattrIn_dummy a; getattrIn_fh a];
  of_fields l := let f n := nth n l 0 in
    (mkGetattrIn (f 0) (f 1) (f 2))%nat }.

#[export] Instance GetattrIn_laws : ByteValuedLaws GetattrIn.
Proof. byte_valued. Qed.

Record AttrOut := mkAttrOut {
  attrOut_attr_valid : Z; attrOut_attr_valid_nsec : Z; attrOut_dummy : Z; attrOut_attr : Attr }.

#[export] Instance AttrOut_bytes : ByteValued AttrOut := {
  layout := [8; 4; 4]%nat ++ layout Attr;
  to_fields a := [attrOut_attr_valid a; attrOut_attr_valid_nsec a; attrOut_dummy a] ++ to_fields (attrOut_attr a);
  of_fields l := let f n := nth n l 0 in
    (mkAttrOut (f 0) (f 1) (f 2) (of_fields (drop 3 l)))%nat }.

#[export] Instance AttrOut_laws : ByteValuedLaws AttrOut.
Proof. byte_valued. Qed.

Record MknodIn := mkMknodIn {
  mknodIn_mode : Z; mknodIn_rdev : Z; mknodIn_umask : Z; mknodIn_padding : Z }.

#[export] Instance MknodIn_bytes : ByteValued MknodIn := {
  layout := [4; 4; 4; 4]%nat;
  to_fields a := [mknodIn_mode a; mknodIn_rdev a; mknodIn_umask a; mknodIn_padding a];
  of_fields l := let f n := nth n l 0 in
    (mkMknodIn (f 0) (f 1) (f 2) (f 3))%nat }.

#[export] Instance MknodIn_laws : ByteValuedLaws MknodIn.
Proof. byte_valued. Qed.

Record MkdirIn := mkMkdirIn {
  mkdirIn_mode : Z; mkdirIn_umask : Z }.

#[export] Instance MkdirIn_bytes : ByteValued MkdirIn := {
  layout := [4; 4]%nat;
  to_fields a := [mkdirIn_mode a; mkdirIn_umask a];
  of_fields l := let f n := nth n l 0 in
    (mkMkdirIn (f 0) (f 1))%nat }.

#[export] Instance MkdirIn_laws : ByteValuedLaws MkdirIn.
Proof. byte_valued. Qed.

Record RenameIn := mkRenameIn {
  renameIn_newdir : Z }.

#[export] Instance RenameIn_bytes : ByteValued RenameIn := {
  layout := [8]%nat;
  to_fields a := [renameIn_newdir a];
  of_fields l := let f n := nth n l 0 in
    (mkRenameIn (f 0))%nat }.

#[export] Instance RenameIn_laws : ByteValuedLaws RenameIn.
Proof. byte_valued. Qed.

Record Rename2In := mkRename2In {
  rename2In_newdir : Z; rename2In_flags : Z; rename2In_padding : Z }.

#[export] Instance Rename2In_bytes : ByteValued Rename2In := {
  layout := [8; 4; 4]%nat;
  to_fields a := [rename2In_newdir a; rename2In_flags a; rename2In_padding a];
  of_fields l := let f n := nth n l 0 in
    (mkRename2In (f 0) (f 1) (f 2))%nat }.

#[export] Instance Rename2In_laws : ByteValuedLaws Rename2In.
Proof. byte_valued. Qed.

Record LinkIn := mkLinkIn {
  linkIn_oldnodeid : Z }.

#[export] Instance LinkIn_bytes : ByteValued LinkIn := {
  layout := [8]%nat;
  to_fields a := [linkIn_oldnodeid a];
  of_fields l := let f n := nth n l 0 in
    (mkLinkIn (f 0))%nat }.

#[export] Instance LinkIn_laws : ByteValuedLaws LinkIn.
Proof. byte_valued. Qed.

Record SetattrIn := mkSetattrIn {
  setattrIn_valid : Z; setattrIn_padding : Z; setattrIn_fh : Z; setattrIn_size : Z; setattrIn_lock_owner : Z;
  setattrIn_atime : Z; setattrIn_mtime : Z; setattrIn_ctime : Z; setattrIn_atimensec : Z;
  setattrIn_mtimensec : Z; setattrIn_ctimensec : Z; setattrIn_mode : Z; setattrIn_unused4 : Z;
  setattrIn_uid : Z; setattrIn_gid : Z; setattrIn_unused5 : Z }.

#[export] Instance SetattrIn_bytes : ByteValued SetattrIn := {
  layout := [4; 4; 8; 8; 8; 8; 8; 8; 4; 4; 4; 4; 4; 4; 4; 4]%nat;
  to_fields a := [setattrIn_valid a; setattrIn_padding a; setattrIn_fh a; setattrIn_size a; setattrIn_lock_owner a;
    setattrIn_atime a; setattrIn_mtime a; setattrIn_ctime a; setattrIn_atimensec a; setattrIn_mtimensec a;
    setattrIn_ctimensec a; setattrIn_mode a; setattrIn_unused4 a; setattrIn_uid a; setattrIn_gid a;
    setattrIn_unused5 a];
  of_fields l := let f n := nth n l 0 in
    (mkSetattrIn (f 0) (f 1) (f 2) (f 3) (f 4) (f 5) (f 6) (f 7) (f 8) (f 9) (f 10) (f 11) (f 12) (f 13) (f 14)
    (f 15))%nat }.

#[export] Instance SetattrIn_laws : ByteValuedLaws SetattrIn.
Proof. byte_valued. Qed.

Record OpenIn := mkOpenIn {
  openIn_flags : Z; openIn_unused : Z }.

#[export] Instance OpenIn_bytes : ByteValued OpenIn := {
  layout := [4; 4]%nat;
  to_fields a := [openIn_flags a; openIn_unused a];
  of_fields l := let f n := nth n l 0 in
    (mkOpenIn (f 0) (f 1))%nat }.

#[export] Instance OpenIn_laws : ByteValuedLaws OpenIn.
Proof. byte_valued. Qed.

Record CreateIn := mkCreateIn {
  createIn_flags : Z; createIn_mode : Z; createIn_umask : Z; createIn_padding : Z }.

#[export] Instance CreateIn_bytes : ByteValued CreateIn := {
  layout := [4; 4; 4; 4]%nat;
  to_fields a := [createIn_flags a; createIn_mode a; createIn_umask a; createIn_padding a];
  of_fields l := let f n := nth n l 0 in
    (mkCreateIn (f 0) (f 1) (f 2) (f 3))%nat }.

#[export] Instance CreateIn_laws : ByteValuedLaws CreateIn.
Proof. byte_valued. Qed.

Record OpenOut := mkOpenOut {
  openOut_fh : Z; openOut_open_flags : Z; openOut_padding : Z }.

#[export] Instance OpenOut_bytes : ByteValued OpenOut := {
  layout := [8; 4; 4]%nat;
  to_fields a := [openOut_fh a; openOut_open_flags a; openOut_padding a];
  of_fields l := let f n := nth n l 0 in
    (mkOpenOut (f 0) (f 1) (f 2))%nat }.

#[export] Instance OpenOut_laws : ByteValuedLaws OpenOut.
Proof. byte_valued. Qed.

Record ReleaseIn := mkReleaseIn {
  releaseIn_fh : Z; releaseIn_flags : Z; releaseIn_release_flags : Z; releaseIn_lock_owner : Z }.

#[export] Instance ReleaseIn_bytes : ByteValued ReleaseIn := {
  layout := [8; 4; 4; 8]%nat;
  to_fields a := [releaseIn_fh a; releaseIn_flags a; releaseIn_release_flags a; releaseIn_lock_owner a];
  of_fields l := let f n := nth n l 0 in
    (mkReleaseIn (f 0) (f 1) (f 2) (f 3))%nat }.

#[export] Instance ReleaseIn_laws : ByteValuedLaws ReleaseIn.
Proof. byte_valued. Qed.

Record FlushIn := mkFlushIn {
  flushIn_fh : Z; flushIn_unused : Z; flushIn_padding : Z; flushIn_lock_owner : Z }.

#[export] Instance FlushIn_bytes : ByteValued FlushIn := {
  layout := [8; 4; 4; 8]%nat;
  to_fields a := [flushIn_fh a; flushIn_unused a; flushIn_padding a; flushIn_lock_owner a];
  of_fields l := let f n := nth n l 0 in
    (mkFlushIn (f 0) (f 1) (f 2) (f 3))%nat }.

#[export] Instance FlushIn_laws : ByteValuedLaws FlushIn.
Proof. byte_valued. Qed.

Record ReadIn := mkReadIn {
  readIn_fh : Z; readIn_offset : Z; readIn_size : Z; readIn_read_flags : Z; readIn_lock_owner : Z;
  readIn_flags : Z; readIn_padding : Z }.

#[export] Instance ReadIn_bytes : ByteValued ReadIn := {
  layout := [8; 8; 4; 4; 8; 4; 4]%nat;
  to_fields a := [readIn_fh a; readIn_offset a; readIn_size a; readIn_read_flags a; readIn_lock_owner a; readIn_flags a;
    readIn_padding a];
  of_fields l := let f n := nth n l 0 in
    (mkReadIn (f 0) (f 1) (f 2) (f 3) (f 4) (f 5) (f 6))%nat }.

#[export] Instance ReadIn_laws : ByteValuedLaws ReadIn.
Proof. byte_valued. Qed.

Record WriteIn := mkWriteIn {
  writeIn_fh : Z; writeIn_offset : Z; writeIn_size : Z; writeIn_write_flags : Z; writeIn_lock_owner : Z;
  writeIn_flags : Z; writeIn_padding : Z }.

#[export] Instance WriteIn_bytes : ByteValued WriteIn := {
  layout := [8; 8; 4; 4; 8; 4; 4]%nat;
  to_fields a := [writeIn_fh a; writeIn_offset a; writeIn_size a; writeIn_write_flags a; writeIn_lock_owner a; writeIn_flags
    a; writeIn_padding a];
  of_fields l := let f n := nth n l 0 in
    (mkWriteIn (f 0) (f 1) (f 2) (f 3) (f 4) (f 5) (f 6))%nat }.

#[export] Instance WriteIn_laws : ByteValuedLaws WriteIn.
Proof. byte_valued. Qed.

Record WriteOut := mkWriteOut {
  writeOut_size : Z; writeOut_padding : Z }.

#[export] Instance WriteOut_bytes : ByteValued WriteOut := {
  layout := [4; 4]%nat;
  to_fields a := [writeOut_size a; writeOut_padding a];
  of_fields l := let f n := nth n l 0 in
    (mkWriteOut (f 0) (f 1))%nat }.

#[export] Instance WriteOut_laws : ByteValuedLaws WriteOut.
Proof. byte_valued. Qed.

Record FsyncIn := mkFsyncIn {
  fsyncIn_fh : Z; fsyncIn_fsync_flags : Z; fsyncIn_padding : Z }.

#[export] Instance FsyncIn_bytes : ByteValued FsyncIn := {
  layout := [8; 4; 4]%nat;
  to_fields a := [fsyncIn_fh a; fsyncIn_fsync_flags a; fsyncIn_padding a];
  of_fields l := let f n := nth n l 0 in
    (mkFsyncIn (f 0) (f 1) (f 2))%nat }.

#[export] Instance FsyncIn_laws : ByteValuedLaws FsyncIn.
Proof. byte_valued. Qed.

Record SetxattrIn := mkSetxattrIn {
  setxattrIn_size : Z; setxattrIn_flags : Z }.

#[export] Instance SetxattrIn_bytes : ByteValued SetxattrIn := {
  layout := [4; 4]%nat;
  to_fields a := [setxattrIn_size a; setxattrIn_flags a];
  of_fields l := let f n := nth n l 0 in
    (mkSetxattrIn (f 0) (f 1))%nat }.

#[export] Instance SetxattrIn_laws : ByteValuedLaws SetxattrIn.
Proof. byte_valued. Qed.

Record GetxattrIn := mkGetxattrIn {
  getxattrIn_size : Z; getxattrIn_padding : Z }.

#[export] Instance GetxattrIn_bytes : ByteValued GetxattrIn := {
  layout := [4; 4]%nat;
  to_fields a := [getxattrIn_size a; getxattrIn_padding a];
  of_fields l := let f n := nth n l 0 in
    (mkGetxattrIn (f 0) (f 1))%nat }.

#[export] Instance GetxattrIn_laws : ByteValuedLaws GetxattrIn.
Proof. byte_valued. Qed.

Record GetxattrOut := mkGetxattrOut {
  getxattrOut_size : Z; getxattrOut_padding : Z }.

#[export] Instance GetxattrOut_bytes : ByteValued GetxattrOut := {
  layout := [4; 4]%nat;
  to_fields a := [getxattrOut_size a; getxattrOut_padding a];
  of_fields l := let f n := nth n l 0 in
    (mkGetxattrOut (f 0) (f 1))%nat }.

#[export] Instance GetxattrOut_laws : ByteValuedLaws GetxattrOut.
Proof. byte_valued. Qed.

Record AccessIn := mkAccessIn {
  accessIn_mask : Z; accessIn_padding : Z }.

#[export] Instance AccessIn_bytes : ByteValued AccessIn := {
  layout := [4; 4]%nat;
  to_fields a := [accessIn_mask a; accessIn_padding a];
  of_fields l := let f n := nth n l 0 in
    (mkAccessIn (f 0) (f 1))%nat }.

#[export] Instance AccessIn_laws : ByteValuedLaws AccessIn.
Proof. byte_valued. Qed.

Record InitInCompat := mkInitInCompat {
  initInCompat_major : Z; initInCompat_minor : Z; initInCompat_max_readahead : Z; initInCompat_flags : Z }.

#[export] Instance InitInCompat_bytes : ByteValued InitInCompat := {
  layout := [4; 4; 4; 4]%nat;
  to_fields a := [initInCompat_major a; initInCompat_minor a; initInCompat_max_readahead a; initInCompat_flags a];
  of_fields l := let f n := nth n l 0 in
    (mkInitInCompat (f 0) (f 1) (f 2) (f 3))%nat }.

#[export] Instance InitInCompat_laws : ByteValuedLaws InitInCompat.
Proof. byte_valued. Qed.

Record InitInExt := mkInitInExt {
  initInExt_flags2 : Z; initInExt_unused : Z }.

#[export] Instance InitInExt_bytes : ByteValued InitInExt := {
  layout := [4; 44]%nat;
  to_fields a := [initInExt_flags2 a; initInExt_unused a];
  of_fields l := let f n := nth n l 0 in
    (mkInitInExt (f 0) (f 1))%nat }.

#[export] Instance InitInExt_laws : ByteValuedLaws InitInExt.
Proof. byte_valued. Qed.

Record InitOut := mkInitOut {
  initOut_major : Z; initOut_minor : Z; initOut_max_readahead : Z; initOut_flags : Z;
  initOut_max_background : Z; initOut_congestion_threshold : Z; initOut_max_write : Z; initOut_time_gran : Z;
  initOut_max_pages : Z; initOut_map_alignment : Z; initOut_flags2 : Z; initOut_unused : Z }.

#[export] Instance InitOut_bytes : ByteValued InitOut := {
  layout := [4; 4; 4; 4; 2; 2; 4; 4; 2; 2; 4; 28]%nat;
  to_fields a := [initOut_major a; initOut_minor a; initOut_max_readahead a; initOut_flags a; initOut_max_background a;
    initOut_congestion_threshold a; initOut_max_write a; initOut_time_gran a; initOut_max_pages a;
    initOut_map_alignment a; initOut_flags2 a; initOut_unused a];
  of_fields l := let f n := nth n l 0 in
    (mkInitOut (f 0) (f 1) (f 2) (f 3) (f 4) (f 5) (f 6) (f 7) (f 8) (f 9) (f 10) (f 11))%nat }.

#[export] Instance InitOut_laws : ByteValuedLaws InitOut.
Proof. byte_valued. Qed.

Record IoctlIn := mkIoctlIn {
  ioctlIn_fh : Z; ioctlIn_flags : Z; ioctlIn_cmd : Z; ioctlIn_arg : Z; ioctlIn_in_size : Z;
  ioctlIn_out_size : Z }.

#[export] Instance IoctlIn_bytes : ByteValued IoctlIn := {
  layout := [8; 4; 4; 8; 4; 4]%nat;
  to_fields a := [ioctlIn_fh a; ioctlIn_flags a; ioctlIn_cmd a; ioctlIn_arg a; ioctlIn_in_size a; ioctlIn_out_size a];
  of_fields l := let f n := nth n l 0 in
    (mkIoctlIn (f 0) (f 1) (f 2) (f 3) (f 4) (f 5))%nat }.

#[export] Instance IoctlIn_laws : ByteValuedLaws IoctlIn.
Proof. byte_valued. Qed.

Record IoctlOut := mkIoctlOut {
  ioctlOut_result : Z; ioctlOut_flags : Z; ioctlOut_in_iovs : Z; ioctlOut_out_iovs : Z }.

#[export] Instance IoctlOut_bytes : ByteValued IoctlOut := {
  layout := [4; 4; 4; 4]%nat;
  to_fields a := [ioctlOut_result a; ioctlOut_flags a; ioctlOut_in_iovs a; ioctlOut_out_iovs a];
  of_fields l := let f n := nth n l 0 in
    (mkIoctlOut (f 0) (f 1) (f 2) (f 3))%nat }.

#[export] Instance IoctlOut_laws : ByteValuedLaws IoctlOut.
Proof. byte_valued. Qed.

Record FallocateIn := mkFallocateIn {
  fallocateIn_fh : Z; fallocateIn_offset : Z; fallocateIn_length : Z; fallocateIn_mode : Z;
  fallocateIn_padding : Z }.

#[export] Instance FallocateIn_bytes : ByteValued FallocateIn := {
  layout := [8; 8; 8; 4; 4]%nat;
  to_fields a := [fallocateIn_fh a; fallocateIn_offset a; fallocateIn_length a; fallocateIn_mode a; fallocateIn_padding a];
  of_fields l := let f n := nth n l 0 in
    (mkFallocateIn (f 0) (f 1) (f 2) (f 3) (f 4))%nat }.

#[export] Instance FallocateIn_laws : ByteValuedLaws FallocateIn.
Proof. byte_valued. Qed.

Record InHeader := mkInHeader {
  inHeader_len : Z; inHeader_opcode : Z; inHeader_unique : Z; inHeader_nodeid : Z; inHeader_uid : Z;
  inHeader_gid : Z; inHeader_pid : Z; inHeader_padding : Z }.

#[export] Instance InHeader_bytes : ByteValued InHeader := {
  layout := [4; 4; 8; 8; 4; 4; 4; 4]%nat;
  to_fields a := [inHeader_len a; inHeader_opcode a; inHeader_unique a; inHeader_nodeid a; inHeader_uid a; inHeader_gid a;
    inHeader_pid a; inHeader_padding a];
  of_fields l := let f n := nth n l 0 in
    (mkInHeader (f 0) (f 1) (f 2) (f 3) (f 4) (f 5) (f 6) (f 7))%nat }.

#[export] Instance InHeader_laws : ByteValuedLaws InHeader.
Proof. byte_valued. Qed.

Record OutHeader := mkOutHeader {
  outHeader_len : Z; outHeader_error : Z; outHeader_unique : Z }.

#[export] Instance OutHeader_bytes : ByteValued OutHeader := {
  layout := [4; 4; 8]%nat;
  to_fields a := [outHeader_len a; outHeader_error a; outHeader_unique a];
  of_fields l := let f n := nth n l 0 in
    (mkOutHeader (f 0) (f 1) (f 2))%nat }.

#[export] Instance OutHeader_laws : ByteValuedLaws OutHeader.
Proof. byte_valued. Qed.

Record Dirent := mkDirent {
  dirent_ino : Z; dirent_off : Z; dirent_namelen : Z; dirent_type : Z }.

#[export] Instance Dirent_bytes : ByteValued Dirent := {
  layout := [8; 8; 4; 4]%nat;
  to_fields a := [dirent_ino a; dirent_off a; dirent_namelen a; dirent_type a];
  of_fields l := let f n := nth n l 0 in
    (mkDirent (f 0) (f 1) (f 2) (f 3))%nat }.

#[export] Instance Dirent_laws : ByteValuedLaws Dirent.
Proof. byte_valued. Qed.

Record LseekIn := mkLseekIn {
  lseekIn_fh : Z; lseekIn_offset : Z; lseekIn_whence : Z; lseekIn_padding : Z }.

#[export] Instance LseekIn_bytes : ByteValued LseekIn := {
  layout := [8; 8; 4; 4]%nat;
  to_fields a := [lseekIn_fh a; lseekIn_offset a; lseekIn_whence a; lseekIn_padding a];
  of_fields l := let f n := nth n l 0 in
    (mkLseekIn (f 0) (f 1) (f 2) (f 3))%nat }.

#[export] Instance LseekIn_laws : ByteValuedLaws LseekIn.
Proof. byte_valued. Qed.

Record LseekOut := mkLseekOut {
  lseekOut_offset : Z }.

#[export] Instance LseekOut_bytes : ByteValued LseekOut := {
  layout := [8]%nat;
  to_fields a := [lseekOut_offset a];
  of_fields l := let f n := nth n l 0 in
    (mkLseekOut (f 0))%nat }.

#[export] Instance LseekOut_laws : ByteValuedLaws LseekOut.
Proof. byte_valued. Qed.

Record CopyfilerangeIn := mkCopyfilerangeIn {
  copyfilerangeIn_fh_in : Z; copyfilerangeIn_off_in : Z; copyfilerangeIn_nodeid_out : Z;
  copyfilerangeIn_fh_out : Z; copyfilerangeIn_off_out : Z; copyfilerangeIn_len : Z;
  copyfilerangeIn_flags : Z }.

#[export] Instance CopyfilerangeIn_bytes : ByteValued CopyfilerangeIn := {
  layout := [8; 8; 8; 8; 8; 8; 8]%nat;
  to_fields a := [copyfilerangeIn_fh_in a; copyfilerangeIn_off_in a; copyfilerangeIn_nodeid_out a; copyfilerangeIn_fh_out a;
    copyfilerangeIn_off_out a; copyfilerangeIn_len a; copyfilerangeIn_flags a];
  of_fields l := let f n := nth n l 0 in
    (mkCopyfilerangeIn (f 0) (f 1) (f 2) (f 3) (f 4) (f 5) (f 6))%nat }.

#[export] Instance CopyfilerangeIn_laws : ByteValuedLaws CopyfilerangeIn.
Proof. byte_valued. Qed.

Record SetupmappingIn := mkSetupmappingIn {
  setupmappingIn_fh : Z; setupmappingIn_foffset : Z; setupmappingIn_len : Z; setupmappingIn_flags : Z;
  setupmappingIn_moffset : Z }.

#[export] Instance SetupmappingIn_bytes : ByteValued SetupmappingIn := {
  layout := [8; 8; 8; 8; 8]%nat;
  to_fields a := [setupmappingIn_fh a; setupmappingIn_foffset a; setupmappingIn_len a; setupmappingIn_flags a;
    setupmappingIn_moffset a];
  of_fields l := let f n := nth n l 0 in
    (mkSetupmappingIn (f 0) (f 1) (f 2) (f 3) (f 4))%nat }.

#[export] Instance SetupmappingIn_laws : ByteValuedLaws SetupmappingIn.
Proof. byte_valued. Qed.

Record RemovemappingIn := mkRemovemappingIn {
  removemappingIn_count : Z }.

#[export] Instance RemovemappingIn_bytes : ByteValued RemovemappingIn := {
  layout := [4]%nat;
  to_fields a := [removemappingIn_count a];
  of_fields l := let f n := nth n l 0 in
    (mkRemovemappingIn (f 0))%nat }.

#[export] Instance RemovemappingIn_laws : ByteValuedLaws RemovemappingIn.
Proof. byte_valued. Qed.

Record RemovemappingOne := mkRemovemappingOne {
  removemappingOne_moffset : Z; removemappingOne_len : Z }.

#[export] Instance RemovemappingOne_bytes : ByteValued RemovemappingOne := {
  layout := [8; 8]%nat;
  to_fields a := [removemappingOne_moffset a; removemappingOne_len a];
  of_fields l := let f n := nth n l 0 in
    (mkRemovemappingOne (f 0) (f 1))%nat }.

#[export] Instance RemovemappingOne_laws : ByteValuedLaws RemovemappingOne.
Proof. byte_valued. Qed.

Record ExtHeader := mkExtHeader {
  extHeader_size : Z; extHeader_ext_type : Z }.

#[export] Instance ExtHeader_bytes : ByteValued ExtHeader := {
  layout := [4; 4]%nat;
  to_fields a := [extHeader_size a; extHeader_ext_type a];
  of_fields l := let f n := nth n l 0 in
    (mkExtHeader (f 0) (f 1))%nat }.

#[export] Instance ExtHeader_laws : ByteValuedLaws ExtHeader.
Proof. byte_valued. Qed.

Record Secctx := mkSecctx {
  secctx_size : Z; secctx_padding : Z }.

#[export] Instance Secctx_bytes : ByteValued Secctx := {
  layout := [4; 4]%nat;
  to_fields a := [secctx_size a; secctx_padding a];
  of_fields l := let f n := nth n l 0 in
    (mkSecctx (f 0) (f 1))%nat }.

#[export] Instance Secctx_laws : ByteValuedLaws Secctx.
Proof. byte_valued. Qed.

(** ** Operations *)

Inductive Opcode :=
  | Lookup | Forget | Getattr | Setattr | Readlink | Symlink | Mknod | Mkdir | Unlink | Rmdir | Rename | Link
  | Open | Read | Write | Statfs | Release | Fsync | Setxattr | Getxattr | Listxattr | Removexattr | Flush
  | Init | Opendir | Readdir | Releasedir | Fsyncdir | Getlk | Setlk | Setlkw | Access | Create | Interrupt
  | Bmap | Destroy | Ioctl | Poll | NotifyReply | BatchForget | Fallocate | Readdirplus | Rename2 | Lseek
  | CopyFileRange | SetupMapping | RemoveMapping.

Definition opcode_num (o : Opcode) : Z :=
  match o with
  | Lookup => 1 | Forget => 2 | Getattr => 3 | Setattr => 4 | Readlink => 5 | Symlink => 6 | Mknod => 8
  | Mkdir => 9 | Unlink => 10 | Rmdir => 11 | Rename => 12 | Link => 13 | Open => 14 | Read => 15 | Write => 16
  | Statfs => 17 | Release => 18 | Fsync => 20 | Setxattr => 21 | Getxattr => 22 | Listxattr => 23
  | Removexattr => 24 | Flush => 25 | Init => 26 | Opendir => 27 | Readdir => 28 | Releasedir => 29
  | Fsyncdir => 30 | Getlk => 31 | Setlk => 32 | Setlkw => 33 | Access => 34 | Create => 35 | Interrupt => 36
  | Bmap => 37 | Destroy => 38 | Ioctl => 39 | Poll => 40 | NotifyReply => 41 | BatchForget => 42
  | Fallocate => 43 | Readdirplus => 44 | Rename2 => 45 | Lseek => 46 | CopyFileRange => 47
  | SetupMapping => 48 | RemoveMapping => 49
  end.

Definition opcodes : list Opcode :=
  [Lookup; Forget; Getattr; Setattr; Readlink; Symlink; Mknod; Mkdir; Unlink; Rmdir; Rename; Link; Open; Read;
   Write; Statfs; Release; Fsync; Setxattr; Getxattr; Listxattr; Removexattr; Flush; Init; Opendir; Readdir;
   Releasedir; Fsyncdir; Getlk; Setlk; Setlkw; Access; Create; Interrupt; Bmap; Destroy; Ioctl; Poll;
   NotifyReply; BatchForget; Fallocate; Readdirplus; Rename2; Lseek; CopyFileRange; SetupMapping; RemoveMapping].

(** The comparisons [x == Opcode::... as u32]. *)
Definition opcode_of (x : Z) : option Opcode := List.find (fun o => x =? opcode_num o) opcodes.

(** ** Option bits *)

Definition ASYNC_READ : Z := 1 .<< 0.
Definition POSIX_LOCKS : Z := 1 .<< 1.
Definition FILE_OPS : Z := 1 .<< 2.
Definition ATOMIC_O_TRUNC : Z := 1 .<< 3.
Definition EXPORT_SUPPORT : Z := 1 .<< 4.
Definition BIG_WRITES : Z := 1 .<< 5.
Definition DONT_MASK : Z := 1 .<< 6.
Definition SPLICE_WRITE : Z := 1 .<< 7.
Definition SPLICE_MOVE : Z := 1 .<< 8.
Definition SPLICE_READ : Z := 1 .<< 9.
Definition FLOCK_LOCKS : Z := 1 .<< 10.
Definition HAS_IOCTL_DIR : Z := 1 .<< 11.
Definition AUTO_INVAL_DATA : Z := 1 .<< 12.
Definition DO_READDIRPLUS : Z := 1 .<< 13.
Definition READDIRPLUS_AUTO : Z := 1 .<< 14.
Definition ASYNC_DIO : Z := 1 .<< 15.
Definition WRITEBACK_CACHE : Z := 1 .<< 16.
Definition NO_OPEN_SUPPORT : Z := 1 .<< 17.
Definition PARALLEL_DIROPS : Z := 1 .<< 18.
Definition HANDLE_KILLPRIV : Z := 1 .<< 19.
Definition POSIX_ACL : Z := 1 .<< 20.
Definition ABORT_ERROR : Z := 1 .<< 21.
Definition MAX_PAGES : Z := 1 .<< 22.
Definition CACHE_SYMLINKS : Z := 1 .<< 23.
Definition NO_OPENDIR_SUPPORT : Z := 1 .<< 24.
Definition EXPLICIT_INVAL_DATA : Z := 1 .<< 25.
Definition MAP_ALIGNMENT : Z := 1 .<< 26.
Definition SUBMOUNTS : Z := 1 .<< 27.
Definition HANDLE_KILLPRIV_V2 : Z := 1 .<< 28.
Definition SETXATTR_EXT : Z := 1 .<< 29.
Definition INIT_EXT : Z := 1 .<< 30.
Definition INIT_RESERVED : Z := 1 .<< 31.
Definition SECURITY_CTX : Z := 1 .<< 32.
Definition HAS_INODE_DAX : Z := 1 .<< 33.
Definition CREATE_SUPP_GROUP : Z := 1 .<< 34.

(** All the bits [FsOptions] names. *)
Definition FsOptions_all : Z :=
  ASYNC_READ .| POSIX_LOCKS .| FILE_OPS .| ATOMIC_O_TRUNC .| EXPORT_SUPPORT .| BIG_WRITES .| DONT_MASK .|
  SPLICE_WRITE .| SPLICE_MOVE .| SPLICE_READ .| FLOCK_LOCKS .| HAS_IOCTL_DIR .| AUTO_INVAL_DATA .|
  DO_READDIRPLUS .| READDIRPLUS_AUTO .| ASYNC_DIO .| WRITEBACK_CACHE .| NO_OPEN_SUPPORT .| PARALLEL_DIROPS .|
  HANDLE_KILLPRIV .| POSIX_ACL .| ABORT_ERROR .| MAX_PAGES .| CACHE_SYMLINKS .| NO_OPENDIR_SUPPORT .|
  EXPLICIT_INVAL_DATA .| SUBMOUNTS .| HANDLE_KILLPRIV_V2 .| SETXATTR_EXT .| INIT_EXT .| INIT_RESERVED .|
  SECURITY_CTX .| HAS_INODE_DAX .| CREATE_SUPP_GROUP.

Definition KERNEL_VERSION : Z := 7.
Definition KERNEL_MINOR_VERSION : Z := 27.
Definition ROOT_ID : Z := 1.
Definition FATTR_MODE : Z := 1.
Definition FATTR_UID : Z := 2.
Definition FATTR_GID : Z := 4.
Definition FATTR_SIZE : Z := 8.
Definition FATTR_ATIME : Z := 16.
Definition FATTR_MTIME : Z := 32.
Definition FATTR_FH : Z := 64.
Definition FATTR_ATIME_NOW : Z := 128.
Definition FATTR_MTIME_NOW : Z := 256.
Definition FATTR_CTIME : Z := 1024.
Definition FOPEN_DIRECT_IO : Z := 1.
Definition FOPEN_KEEP_CACHE : Z := 2.
Definition FOPEN_NONSEEKABLE : Z := 4.
Definition FOPEN_CACHE_DIR : Z := 8.
Definition RELEASE_FLUSH : Z := 1.
Definition RELEASE_FLOCK_UNLOCK : Z := 2.
Definition GETATTR_FH : Z := 1.
Definition WRITE_CACHE : Z := 1.
Definition WRITE_LOCKOWNER : Z := 2.
Definition WRITE_KILL_PRIV : Z := 4.
Definition READ_LOCKOWNER : Z := 2.
Definition ATTR_SUBMOUNT : Z := 1.
Definition MAX_NR_SECCTX : Z := 31.
Definition EXT_SUP_GROUPS : Z := 32.
Definition IOCTL_DIR : Z := 16.

(** ** Error numbers ([linux_errno.rs]) *)

Definition LINUX_EPERM : Z := 1.
Definition LINUX_ENOENT : Z := 2.
Definition LINUX_ESRCH : Z := 3.
Definition LINUX_EINTR : Z := 4.
Definition LINUX_EIO : Z := 5.
Definition LINUX_ENXIO : Z := 6.
Definition LINUX_ENOEXEC : Z := 8.
Definition LINUX_EBADF : Z := 9.
Definition LINUX_ECHILD : Z := 10.
Definition LINUX_EAGAIN : Z := 11.
Definition LINUX_ENOMEM : Z := 12.
Definition LINUX_EACCES : Z := 13.
Definition LINUX_EFAULT : Z := 14.
Definition LINUX_ENOTBLK : Z := 15.
Definition LINUX_EBUSY : Z := 16.
Definition LINUX_EEXIST : Z := 17.
Definition LINUX_EXDEV : Z := 18.
Definition LINUX_ENODEV : Z := 19.
Definition LINUX_ENOTDIR : Z := 20.
Definition LINUX_EISDIR : Z := 21.
Definition LINUX_EINVAL : Z := 22.
Definition LINUX_ENFILE : Z := 23.
Definition LINUX_EMFILE : Z := 24.
Definition LINUX_ENOTTY : Z := 25.
Definition LINUX_ETXTBSY : Z := 26.
Definition LINUX_EFBIG : Z := 27.
Definition LINUX_ENOSPC : Z := 28.
Definition LINUX_ESPIPE : Z := 29.
Definition LINUX_EROFS : Z := 30.
Definition LINUX_EMLINK : Z := 31.
Definition LINUX_EPIPE : Z := 32.
Definition LINUX_EDOM : Z := 33.
Definition LINUX_EDEADLK : Z := 35.
Definition LINUX_ENAMETOOLONG : Z := 36.
Definition LINUX_ENOLCK : Z := 37.
Definition LINUX_ENOSYS : Z := 38.
Definition LINUX_ENOTEMPTY : Z := 39.
Definition LINUX_ELOOP : Z := 40.
Definition LINUX_ENOMSG : Z := 42.
Definition LINUX_EIDRM : Z := 43.
Definition LINUX_ENOSTR : Z := 60.
Definition LINUX_ENODATA : Z := 61.
Definition LINUX_ETIME : Z := 62.
Definition LINUX_ENOSR : Z := 63.
Definition LINUX_EREMOTE : Z := 66.
Definition LINUX_ENOLINK : Z := 67.
Definition LINUX_EPROTO : Z := 71.
Definition LINUX_EMULTIHOP : Z := 72.
Definition LINUX_EBADMSG : Z := 74.
Definition LINUX_EOVERFLOW : Z := 75.
Definition LINUX_EILSEQ : Z := 84.
Definition LINUX_EUSERS : Z := 87.
Definition LINUX_ENOTSOCK : Z := 88.
Definition LINUX_EDESTADDRREQ : Z := 89.
Definition LINUX_EMSGSIZE : Z := 90.
Definition LINUX_EPROTOTYPE : Z := 91.
Definition LINUX_ENOPROTOOPT : Z := 92.
Definition LINUX_EPROTONOSUPPORT : Z := 93.
Definition LINUX_ESOCKTNOSUPPORT : Z := 94.
Definition LINUX_EOPNOTSUPP : Z := 95.
Definition LINUX_EPFNOSUPPORT : Z := 96.
Definition LINUX_EAFNOSUPPORT : Z := 97.
Definition LINUX_EADDRINUSE : Z := 98.
Definition LINUX_EADDRNOTAVAIL : Z := 99.
Definition LINUX_ENETDOWN : Z := 100.
Definition LINUX_ENETUNREACH : Z := 101.
Definition LINUX_ENETRESET : Z := 102.
Definition LINUX_ECONNABORTED : Z := 103.
Definition LINUX_ECONNRESET : Z := 104.
Definition LINUX_ENOBUFS : Z := 105.
Definition LINUX_EISCONN : Z := 106.
Definition LINUX_ENOTCONN : Z := 107.
Definition LINUX_ESHUTDOWN : Z := 108.
Definition LINUX_ETOOMANYREFS : Z := 109.
Definition LINUX_ETIMEDOUT : Z := 110.
Definition LINUX_ECONNREFUSED : Z := 111.
Definition LINUX_EHOSTDOWN : Z := 112.
Definition LINUX_EHOSTUNREACH : Z := 113.
Definition LINUX_EALREADY : Z := 114.
Definition LINUX_EINPROGRESS : Z := 115.
Definition LINUX_ESTALE : Z := 116.
Definition LINUX_EDQUOT : Z := 122.
Definition LINUX_ECANCELED : Z := 125.
Definition LINUX_EOWNERDEAD : Z := 130.
Definition LINUX_ENOTRECOVERABLE : Z := 131.
Definition LINUX_ERANGE : Z := 34.

(** The arms of the match; the left values are those of [libc] on Linux. *)
Definition errno_table : list (Z * Z) :=
  [(1, LINUX_EPERM); (2, LINUX_ENOENT); (3, LINUX_ESRCH); (4, LINUX_EINTR); (5, LINUX_EIO); (6, LINUX_ENXIO);
   (8, LINUX_ENOEXEC); (9, LINUX_EBADF); (10, LINUX_ECHILD); (35, LINUX_EDEADLK); (12, LINUX_ENOMEM);
   (13, LINUX_EACCES); (14, LINUX_EFAULT); (15, LINUX_ENOTBLK); (16, LINUX_EBUSY); (17, LINUX_EEXIST);
   (18, LINUX_EXDEV); (19, LINUX_ENODEV); (20, LINUX_ENOTDIR); (21, LINUX_EISDIR); (22, LINUX_EINVAL);
   (23, LINUX_ENFILE); (24, LINUX_EMFILE); (25, LINUX_ENOTTY); (26, LINUX_ETXTBSY); (27, LINUX_EFBIG);
   (28, LINUX_ENOSPC); (29, LINUX_ESPIPE); (30, LINUX_EROFS); (31, LINUX_EMLINK); (32, LINUX_EPIPE);
   (33, LINUX_EDOM); (11, LINUX_EAGAIN); (115, LINUX_EINPROGRESS); (114, LINUX_EALREADY); (88, LINUX_ENOTSOCK);
   (89, LINUX_EDESTADDRREQ); (90, LINUX_EMSGSIZE); (91, LINUX_EPROTOTYPE); (92, LINUX_ENOPROTOOPT);
   (93, LINUX_EPROTONOSUPPORT); (94, LINUX_ESOCKTNOSUPPORT); (96, LINUX_EPFNOSUPPORT);
   (97, LINUX_EAFNOSUPPORT); (98, LINUX_EADDRINUSE); (99, LINUX_EADDRNOTAVAIL); (100, LINUX_ENETDOWN);
   (101, LINUX_ENETUNREACH); (102, LINUX_ENETRESET); (103, LINUX_ECONNABORTED); (104, LINUX_ECONNRESET);
   (105, LINUX_ENOBUFS); (106, LINUX_EISCONN); (107, LINUX_ENOTCONN); (108, LINUX_ESHUTDOWN);
   (109, LINUX_ETOOMANYREFS); (110, LINUX_ETIMEDOUT); (111, LINUX_ECONNREFUSED); (40, LINUX_ELOOP);
   (36, LINUX_ENAMETOOLONG); (112, LINUX_EHOSTDOWN); (113, LINUX_EHOSTUNREACH); (39, LINUX_ENOTEMPTY);
   (87, LINUX_EUSERS); (122, LINUX_EDQUOT); (116, LINUX_ESTALE); (66, LINUX_EREMOTE); (37, LINUX_ENOLCK);
   (38, LINUX_ENOSYS); (75, LINUX_EOVERFLOW); (125, LINUX_ECANCELED); (43, LINUX_EIDRM); (42, LINUX_ENOMSG);
   (84, LINUX_EILSEQ); (74, LINUX_EBADMSG); (72, LINUX_EMULTIHOP); (61, LINUX_ENODATA); (67, LINUX_ENOLINK);
   (63, LINUX_ENOSR); (60, LINUX_ENOSTR); (71, LINUX_EPROTO); (62, LINUX_ETIME); (95, LINUX_EOPNOTSUPP);
   (131, LINUX_ENOTRECOVERABLE); (130, LINUX_EOWNERDEAD)].

Definition linux_errno_raw (errno : Z) : Z :=
  match List.find (fun '(e, _) => errno =? e) errno_table with Some (_, l) => l | None => LINUX_EIO end.

Definition EIO : Z := 5.

(** [io::Error], by its [raw_os_error]. *)
Abbreviation IoErr := (option Z) (only parsing).

Definition linux_error (e : IoErr) : IoErr := Some (linux_errno_raw (default EIO e)).

(** On a Linux host the translation is the identity on the numbers it knows. *)
Lemma linux_errno_raw_id e : In e (map fst errno_table) -> linux_errno_raw e = e.
Proof.
  assert (forallb (fun e => linux_errno_raw e =? e) (map fst errno_table) = true) as Hall by (vm_compute; reflexivity).
  rewrite forallb_forall in Hall. intros He. by apply Z.eqb_eq, Hall.
Qed.

(** ** Flags and conversions *)

Definition SetattrValid_all : Z :=
  FATTR_MODE .| FATTR_UID .| FATTR_GID .| FATTR_SIZE .| FATTR_ATIME .| FATTR_MTIME .| FATTR_ATIME_NOW
  .| FATTR_MTIME_NOW .| FATTR_CTIME.

(** [from_bits_truncate] and [contains] of the [bitflags] types. *)
Definition from_bits_truncate (all bits : Z) : Z := bits .& all.

Definition contains (flags other : Z) : bool := flags .& other =? other.

(** The fields of [libc]'s [stat64] and [statvfs64] that the server uses. *)
Record stat64 := mkStat {
  st_ino : Z; st_size : Z; st_blocks : Z; st_atime : Z; st_mtime : Z; st_ctime : Z; st_atime_nsec : Z; st_mtime_nsec : Z;
  st_ctime_nsec : Z; st_mode : Z; st_nlink : Z; st_uid : Z; st_gid : Z; st_rdev : Z; st_blksize : Z; st_dev : Z }.

Record statvfs64 := mkStatvfs {
  f_blocks : Z; f_bfree : Z; f_bavail : Z; f_files : Z; f_ffree : Z; f_bsize : Z; f_namemax : Z; f_frsize : Z }.

(** [Attr::with_flags], with its [as] casts. *)
Definition Attr_with_flags (st : stat64) (flags : Z) : Attr :=
  mkAttr (st_ino st) (wrap 64 (st_size st)) (wrap 64 (st_blocks st)) (wrap 64 (st_atime st)) (wrap 64 (st_mtime st))
    (wrap 64 (st_ctime st)) (wrap 32 (st_atime_nsec st)) (wrap 32 (st_mtime_nsec st)) (wrap 32 (st_ctime_nsec st))
    (st_mode st) (wrap 32 (st_nlink st)) (st_uid st) (st_gid st) (wrap 32 (st_rdev st)) (wrap 32 (st_blksize st)) flags.

(** [From<stat64> for Attr] *)
Definition Attr_from (st : stat64) : Attr := Attr_with_flags st 0.

(** [From<statvfs64> for Kstatfs] *)
Definition Kstatfs_from (st : statvfs64) : Kstatfs :=
  mkKstatfs (f_blocks st) (f_bfree st) (f_bavail st) (f_files st) (f_ffree st) (wrap 32 (f_bsize st))
    (wrap 32 (f_namemax st)) (wrap 32 (f_frsize st)) 0 0.

(** [From<SetattrIn> for stat64] *)
Definition stat64_from (sai : SetattrIn) : stat64 :=
  mkStat 0 (to_signed 64 (setattrIn_size sai)) 0 (to_signed 64 (setattrIn_atime sai)) (to_signed 64 (setattrIn_mtime sai))
    (to_signed 64 (setattrIn_ctime sai)) (setattrIn_atimensec sai) (setattrIn_mtimensec sai) (setattrIn_ctimensec sai)
    (setattrIn_mode sai) 0 (setattrIn_uid sai) (setattrIn_gid sai) 0 0 0.

(** [ExtType] and its [TryFrom<u32>] *)
Inductive ExtType := SecCtx (nr_secctx : Z) | SupGroups.

Definition ExtType_try_from (value : Z) : option ExtType :=
  if value <=? MAX_NR_SECCTX then Some (SecCtx value)
  else if value =? EXT_SUP_GROUPS then Some SupGroups
  else None.

Lemma opcode_of_num o : opcode_of (opcode_num o) = Some o.
Proof. by destruct o. Qed.

(** [SetattrIn] and [Attr] speak of the same times and sizes: attributes set
    by the guest and reported back are unchanged. *)
Lemma setattr_attr sai :
  in_range sai -> let a := Attr_from (stat64_from sai) in
  attr_size a = setattrIn_size sai /\ attr_atime a = setattrIn_atime sai /\ attr_mtime a = setattrIn_mtime sai /\
  attr_mode a = setattrIn_mode sai /\ attr_uid a = setattrIn_uid sai /\ attr_gid a = setattrIn_gid sai.
Proof.
  intros Hr. unfold in_range in Hr. cbn in Hr. repeat match goal with H : Forall2 _ (_ :: _) _ |- _ => apply Forall2_cons_1 in H as [? H] end.
  assert (forall z, fits 64 z -> wrap 64 (to_signed 64 z) = z) as Hw.
  { intros z Hz. unfold to_signed. rewrite (wrap_small 64 z) by done. destruct (z <? 2 ^ (64 - 1)); [by apply wrap_small|].
    unfold wrap. rewrite <- (Z.mod_add _ 1) by lia. replace (z - 2 ^ 64 + 1 * 2 ^ 64) with z by lia. by apply wrap_small. }
  cbn. by rewrite !Hw.
Qed.

Lemma byte_valued_roundtrip_witness :
  from_slice (as_slice (mkOutHeader 16 0 7) ++ [1; 2]) = mkOutHeader 16 0 7 /\ length (as_slice (mkOutHeader 16 0 7)) = 16%nat.
Proof.
  destruct (byte_valued_roundtrip (A := OutHeader)) as (H1 & H2 & _). split; [|exact (H2 _)].
  apply H1. unfold in_range. cbn. do 3 (apply Forall2_cons_2; [vm_compute; split; congruence|]). constructor.
Defined.
End FuseAbi.
