(* ===== verification/FsServer.v ===== *)
(** * The file server's message layer ([virtio/fs/server.rs], [filesystem.rs])

    [handle_message] decodes one FUSE request from the readable part of a
    chain, calls the file system and writes the reply into the writable part.
    The trait [FileSystem] is a class with one operation per method; the
    default methods are definitions.  The theorems: every reply is framed by a
    header with its own length and the request's identifier; malformed and
    oversized requests get an error and never reach the file system; directory
    entries parse back and respect the size asked for; the options in use are
    those both sides offer; no message of the guest panics the server when
    the reply has room for a header. *)

From S2P Require Import Prelude GuestMem DescUtils Mmio FuseAbi.

Module FsServer.
Import DescUtils(IoError(..), DescriptorChainConsumer, mkConsumer, buffers, bytes_consumed, available_bytes,
  read_obj, read_exact, write_obj, split_at, contents, flat, slices_ok, total, room, room_slices, room_contents,
  room_nodup, room_consumed, framed, framed_refl, framed_trans, framed_sub, write_obj_room, contents_prefix_framed, contents_flat, split_at_boundary, contents_app,
  contents_app_2, contents_frame, contents_length, read_obj_correct, flat_app, length_flat).
Import FuseAbi.

(** ** [filesystem.rs] *)

Record Duration := mkDuration { as_secs : Z; subsec_nanos : Z }.

Record Entry := mkEntry {
  inode : Z; generation : Z; attr : stat64; attr_flags : Z; attr_timeout : Duration; entry_timeout : Duration }.

(** [From<Entry> for EntryOut] *)
Definition EntryOut_from (entry : Entry) : EntryOut :=
  mkEntryOut (inode entry) (generation entry) (as_secs (entry_timeout entry)) (as_secs (attr_timeout entry))
    (subsec_nanos (entry_timeout entry)) (subsec_nanos (attr_timeout entry))
    (Attr_with_flags (attr entry) (attr_flags entry)).

Record DirEntry := mkDirEntry { ino : Z; offset : Z; type_ : Z; name : list byte }.

Inductive GetxattrReply := Value (v : list byte) | Count (count : Z).

Inductive ListxattrReply := Names (names : list byte) | NamesCount (count : Z).

Record Context := mkContext { uid : Z; gid : Z; pid : Z }.

(** [From<InHeader> for Context] *)
Definition Context_from (source : InHeader) : Context :=
  mkContext (inHeader_uid source) (inHeader_gid source) (to_signed 32 (inHeader_pid source)).

Record SecContext := mkSec { sec_name : list byte; secctx : list byte }.

Record Extensions := mkExt { ext_secctx : option SecContext; sup_gid : option Z }.

Definition Extensions_default : Extensions := mkExt None None.

(** A method: the file system after it, and its [io::Result]. *)
Definition io (F A : Type) : Type := F -> outcome (result IoErr A * F).

(** The reply's cursor and the guest memory a callback of [readdir] writes. *)
Definition Sink (M : Type) : Type := (DescriptorChainConsumer * M)%type.

(** A callback gets an entry and returns the bytes it took. *)
Definition callback (M A : Type) : Type := A -> Sink M -> outcome (result IoErr Z * Sink M).

Class FileSystem (F M : Type) := {
  fs_init : Z -> io F Z;
  fs_destroy : F -> outcome F;
  fs_lookup : Context -> Z -> list byte -> io F Entry;
  fs_forget : Context -> Z -> Z -> F -> outcome F;
  fs_batch_forget : Context -> list (Z * Z) -> F -> outcome F;
  fs_getattr : Context -> Z -> option Z -> io F (stat64 * Duration);
  fs_setattr : Context -> Z -> stat64 -> option Z -> Z -> io F (stat64 * Duration);
  fs_readlink : Context -> Z -> io F (list byte);
  fs_symlink : Context -> list byte -> Z -> list byte -> Extensions -> io F Entry;
  fs_mknod : Context -> Z -> list byte -> Z -> Z -> Z -> Extensions -> io F Entry;
  fs_mkdir : Context -> Z -> list byte -> Z -> Z -> Extensions -> io F Entry;
  fs_unlink : Context -> Z -> list byte -> io F unit;
  fs_rmdir : Context -> Z -> list byte -> io F unit;
  fs_rename : Context -> Z -> list byte -> Z -> list byte -> Z -> io F unit;
  fs_link : Context -> Z -> Z -> list byte -> io F Entry;
  fs_open : Context -> Z -> Z -> io F (option Z * Z);
  fs_create : Context -> Z -> list byte -> Z -> Z -> Z -> Extensions -> io F (Entry * option Z * Z);
  fs_read : Context -> Z -> Z -> DescriptorChainConsumer -> Z -> Z -> option Z -> Z ->
    F -> M -> outcome (result IoErr Z * F * M);
  fs_write : M -> Context -> Z -> Z -> DescriptorChainConsumer -> Z -> Z -> option Z -> bool -> bool -> Z -> io F Z;
  fs_flush : Context -> Z -> Z -> Z -> io F unit;
  fs_fsync : Context -> Z -> bool -> Z -> io F unit;
  fs_fallocate : Context -> Z -> Z -> Z -> Z -> Z -> io F unit;
  fs_release : Context -> Z -> Z -> Z -> bool -> bool -> option Z -> io F unit;
  fs_statfs : Context -> Z -> io F statvfs64;
  fs_setxattr : Context -> Z -> list byte -> list byte -> Z -> io F unit;
  fs_getxattr : Context -> Z -> list byte -> Z -> io F GetxattrReply;
  fs_listxattr : Context -> Z -> Z -> io F ListxattrReply;
  fs_removexattr : Context -> Z -> list byte -> io F unit;
  fs_opendir : Context -> Z -> Z -> io F (option Z * Z);
  fs_readdir : Context -> Z -> Z -> Z -> Z -> callback M DirEntry -> F -> Sink M -> outcome (result IoErr unit * F * Sink M);
  fs_readdirplus : Context -> Z -> Z -> Z -> Z -> callback M (DirEntry * Entry) ->
    F -> Sink M -> outcome (result IoErr unit * F * Sink M);
  fs_fsyncdir : Context -> Z -> bool -> Z -> io F unit;
  fs_releasedir : Context -> Z -> Z -> Z -> io F unit;
  fs_access : Context -> Z -> Z -> io F unit;
  fs_lseek : Context -> Z -> Z -> Z -> Z -> io F Z;
  fs_copyfilerange : Context -> Z -> Z -> Z -> Z -> Z -> Z -> Z -> Z -> io F Z;
  fs_setupmapping : Context -> Z -> Z -> Z -> Z -> Z -> Z -> Z -> Z -> io F unit;
  fs_removemapping : Context -> list RemovemappingOne -> Z -> Z -> io F unit;
  fs_ioctl : Context -> Z -> Z -> Z -> Z -> Z -> Z -> Z -> io F (list byte);
  fs_getlk : io F unit;
  fs_setlk : io F unit;
  fs_setlkw : io F unit;
  fs_bmap : io F unit;
  fs_poll : io F unit;
  fs_notify_reply : io F unit;
}.

(** The default methods: [ENOSYS], and the few with a result. *)
Definition default_enosys {F A} : io F A := fun f => Ret (Err (Some LINUX_ENOSYS), f).

Definition default_batch_forget {F} (forget : Context -> Z -> Z -> F -> outcome F) (ctx : Context) :=
  fix go (requests : list (Z * Z)) (f : F) : outcome F :=
    match requests with
    | [] => Ret f
    | (inode, count) :: requests => f ← forget ctx inode count f; go requests f
    end.

Definition default_open {F} : io F (option Z * Z) := fun f => Ret (Ok (None, 0), f).

Definition default_statfs {F} : io F statvfs64 := fun f => Ret (Ok (mkStatvfs 0 0 0 0 0 512 255 0), f).

(** ** [server.rs] *)

Inductive FsError :=
| DecodeMessage (e : IoErr)
| EncodeMessage (e : IoError)
| MissingExtension
| MissingParameter
| InvalidCString
| InvalidCString2
| InvalidHeaderLength
| InvalidXattrSize (size len : Z).

Definition MAX_BUFFER_SIZE : Z := 1 .<< 20.
Definition BUFFER_HEADER_SIZE : Z := 0x1000.

Definition ENOMEM : Z := 12.
Definition ENOSYS : Z := 38.
Definition EPROTO : Z := 71.
Definition EOVERFLOW : Z := 75.
Definition EINVAL : Z := 22.

Definition einval : IoErr := Some EINVAL.

(** *** Strings in requests *)

(** [CStr::from_bytes_with_nul]: one zero byte, at the end. *)
Definition bytes_to_cstr (buf : list byte) : option (list byte) :=
  match rev buf with
  | 0 :: _ => if existsb (Z.eqb 0) (removelast buf) then None else Some (removelast buf)
  | _ => None
  end.

(** [split_inclusive(|c| *c == 0)], the first part and the rest. *)
Fixpoint split_nul (buf : list byte) : list byte * list byte :=
  match buf with
  | [] => ([], [])
  | c :: buf => if c =? 0 then ([c], buf) else let '(a, b) := split_nul buf in (c :: a, b)
  end.

(** [components.next()] *)
Definition next_component (buf : list byte) : option (list byte * list byte) :=
  match buf with [] => None | _ => Some (split_nul buf) end.

(** *** Extensions *)

Definition take_object (A : Type) `{ByteValued A} (data : list byte) : result FsError (A * list byte) :=
  if (length data <? size_of A)%nat then Err (DecodeMessage einval)
  else Ok (from_slice (take (size_of A) data), drop (size_of A) data).

Definition parse_security_context (nr_secctx : Z) (data : list byte) : result FsError (option SecContext) :=
  if 1 <? nr_secctx then Err (DecodeMessage einval)
  else if nr_secctx =? 0 then Ok None
  else
    '(ctx, data) ← take_object Secctx data;
    if secctx_size ctx =? 0 then Err (DecodeMessage einval)
    else
      '(secctx_name, data) ← ok_or (next_component data) MissingParameter;
      if Zlength data <? secctx_size ctx then Err (DecodeMessage einval)
      else
        match bytes_to_cstr secctx_name with
        | None => Err InvalidCString2
        | Some name => Ok (Some (mkSec name (take (Z.to_nat (secctx_size ctx)) data)))
        end.

(** The loop over the extension blocks; every round consumes a header, so the
    length of the buffer bounds the rounds. *)
Fixpoint extensions_loop (fuel : nat) (options : Z) (buf : list byte) (secctx_received : bool) (extensions : Extensions) :
    fallible FsError (bool * Extensions) :=
  match buf, fuel with
  | [], _ => Ret (Ok (secctx_received, extensions))
  | _, O => Panic
  | _, S fuel =>
      '(extension_header, remaining_bytes) ← Ret (take_object ExtHeader buf);
      extension_size ← Ret (ok_or (checked_sub (extHeader_size extension_header) (Z.of_nat (size_of ExtHeader))) InvalidHeaderLength);
      if Zlength remaining_bytes <? extension_size then Panic
      else
        let current_extension_bytes := take (Z.to_nat extension_size) remaining_bytes in
        let next_extension_bytes := drop (Z.to_nat extension_size) remaining_bytes in
        ext_type ← Ret (ok_or (ExtType_try_from (extHeader_ext_type extension_header)) (DecodeMessage einval));
        match ext_type with
        | SecCtx nr_secctx =>
            if negb (contains options SECURITY_CTX) || secctx_received then Ret (Err (DecodeMessage einval))
            else
              secctx ← Ret (parse_security_context nr_secctx current_extension_bytes);
              extensions_loop fuel options next_extension_bytes true (mkExt secctx (sup_gid extensions))
        | SupGroups => Panic
        end
  end.

Definition get_extensions (options : Z) (skip : nat) (request_bytes : list byte) : fallible FsError Extensions :=
  if negb (contains options SECURITY_CTX || contains options CREATE_SUPP_GROUP) then Ret (Ok Extensions_default)
  else if (length request_bytes <? skip)%nat then Ret (Err (DecodeMessage einval))
  else
    '(secctx_received, extensions) ←
      extensions_loop (length request_bytes) options (drop skip request_bytes) false Extensions_default;
    if contains options SECURITY_CTX && negb secctx_received then Ret (Err MissingExtension)
    else Ret (Ok extensions).

Section server.
Context {F M : Type} `{GuestMemory M} `{FileSystem F M} (page_size : Z).

Record Server := mkServer { fs : F; options : Z }.

Definition new (f : F) : Server := mkServer f 0.

(** A handler: server and guest memory after it, and its [Result]. *)
Definition act (A : Type) : Type := Server * M -> outcome (result FsError A * (Server * M)).

#[local] Instance act_ret : MRet act := fun A a s => Ret (Ok a, s).
#[local] Instance act_bind : MBind act := fun A B f m s =>
  match m s with
  | Ret (Ok a, s) => f a s
  | Ret (Err e, s) => Ret (Err e, s)
  | Panic => Panic
  end.

Definition throw {A} (e : FsError) : act A := fun s => Ret (Err e, s).

Definition lift {A} (m : fallible FsError A) : act A := fun s => r ← m; Ret (r, s).

Definition need {A} (o : option A) (e : FsError) : act A := lift (Ret (ok_or o e)).

(** A call of the file system. *)
Definition call {A} (m : io F A) : act (result IoErr A) := fun '(s, mem) =>
  '(r, f) ← m (fs s); Ret (Ok r, (mkServer f (options s), mem)).

Definition call_quiet (m : F -> outcome F) : act unit := fun '(s, mem) =>
  f ← m (fs s); Ret (Ok tt, (mkServer f (options s), mem)).

Definition get_options : act Z := fun s => Ret (Ok (from_bits_truncate FsOptions_all (options (fst s))), s).

(** *** Decoding *)

(** [io::Error]s of the standard library's loops carry no error number. *)
Definition read_obj (A : Type) `{ByteValued A} (r : DescriptorChainConsumer) : act (A * DescriptorChainConsumer) :=
  fun '(s, mem) =>
    '(res, r) ← DescUtils.read_obj mem r (size_of A);
    Ret (match res with Ok bs => Ok (from_slice bs, r) | Err _ => Err (DecodeMessage None) end, (s, mem)).

Definition read_exact (r : DescriptorChainConsumer) (n : Z) : act (list byte * DescriptorChainConsumer) :=
  fun '(s, mem) =>
    '(res, r) ← DescUtils.read_obj mem r (Z.to_nat n);
    Ret (match res with Ok bs => Ok (bs, r) | Err _ => Err (DecodeMessage None) end, (s, mem)).

(** The header's length without the header and a structure of [size] bytes. *)
Definition remaining_len (in_header : InHeader) (size : nat) : act Z :=
  need (l ← checked_sub (inHeader_len in_header) (Z.of_nat (size_of InHeader)); checked_sub l (Z.of_nat size)) InvalidHeaderLength.

Definition to_cstr (buf : list byte) : act (list byte) := need (bytes_to_cstr buf) InvalidCString.

(** *** Replies *)

(** [write_all], as a handler step. *)
Definition write_all (w : DescriptorChainConsumer) (bs : list byte) : act DescriptorChainConsumer :=
  fun '(s, mem) =>
    '(res, w, mem) ← write_obj mem w bs;
    Ret (match res with Ok _ => Ok w | Err e => Err (EncodeMessage e) end, (s, mem)).

Definition OUT_HEADER : Z := Z.of_nat (size_of OutHeader).

Definition opt_len (o : option (list byte)) : Z := match o with Some bs => Zlength bs | None => 0 end.

Definition write_opt (w : DescriptorChainConsumer) (o : option (list byte)) : act DescriptorChainConsumer :=
  match o with Some bs => write_all w bs | None => mret w end.

Definition reply_ok (out data : option (list byte)) (unique : Z) (w : DescriptorChainConsumer) : act Z :=
  let len := wrap 64 (OUT_HEADER + opt_len out + opt_len data) in
  w ← write_all w (as_slice (mkOutHeader (wrap 32 len) 0 unique));
  w ← write_opt w out;
  w ← write_opt w data;
  mret (bytes_consumed w).

Definition reply_error (e : IoErr) (unique : Z) (w : DescriptorChainConsumer) : act Z :=
  w ← write_all w (as_slice (mkOutHeader (wrap 32 OUT_HEADER) (wrap 32 (- default EIO e)) unique));
  mret (bytes_consumed w).

(** The last step of most handlers. *)
Definition reply {A} (res : result IoErr A) (ok : A -> option (list byte) * option (list byte)) (in_header : InHeader)
    (w : DescriptorChainConsumer) : act Z :=
  match res with
  | Ok a => reply_ok (fst (ok a)) (snd (ok a)) (inHeader_unique in_header) w
  | Err e => reply_error e (inHeader_unique in_header) w
  end.

Definition no_payload {A} (_ : A) : option (list byte) * option (list byte) := (None, None).

Definition obj {A} `{ByteValued A} (a : A) : option (list byte) * option (list byte) := (Some (as_slice a), None).

(** A reply that only says whether the call failed, and is otherwise left out. *)
Definition reply_failure (res : result IoErr unit) (in_header : InHeader) (w : DescriptorChainConsumer) : act Z :=
  match res with Ok _ => mret 0 | Err e => reply_error e (inHeader_unique in_header) w end.

Definition oversized (in_header : InHeader) (w : DescriptorChainConsumer) : act Z :=
  reply_error (linux_error (Some ENOMEM)) (inHeader_unique in_header) w.

(** *** Handlers *)

Definition ctx (h : InHeader) : Context := Context_from h.
Abbreviation nodeid := inHeader_nodeid.

Definition lookup (h : InHeader) (r w : DescriptorChainConsumer) : act Z :=
  namelen ← remaining_len h 0;
  '(buf, _) ← read_exact r namelen;
  name ← to_cstr buf;
  res ← call (fs_lookup (M := M) (ctx h) (nodeid h) name);
  reply res (fun e => obj (EntryOut_from e)) h w.

Definition forget (h : InHeader) (r : DescriptorChainConsumer) : act Z :=
  '(i, _) ← read_obj ForgetIn r;
  _ ← call_quiet (fs_forget (M := M) (ctx h) (nodeid h) (forgetIn_nlookup i));
  mret 0.

Definition attr_out (a : stat64 * Duration) : option (list byte) * option (list byte) :=
  obj (mkAttrOut (as_secs (snd a)) (subsec_nanos (snd a)) 0 (Attr_from (fst a))).

Definition getattr (h : InHeader) (r w : DescriptorChainConsumer) : act Z :=
  '(i, _) ← read_obj GetattrIn r;
  let handle := if negb (getattrIn_flags i .& GETATTR_FH =? 0) then Some (getattrIn_fh i) else None in
  res ← call (fs_getattr (M := M) (ctx h) (nodeid h) handle);
  reply res attr_out h w.

Definition setattr (h : InHeader) (r w : DescriptorChainConsumer) : act Z :=
  '(i, _) ← read_obj SetattrIn r;
  let handle := if negb (setattrIn_valid i .& FATTR_FH =? 0) then Some (setattrIn_fh i) else None in
  let valid := from_bits_truncate SetattrValid_all (setattrIn_valid i) in
  res ← call (fs_setattr (M := M) (ctx h) (nodeid h) (stat64_from i) handle valid);
  reply res attr_out h w.

Definition readlink (h : InHeader) (w : DescriptorChainConsumer) : act Z :=
  res ← call (fs_readlink (M := M) (ctx h) (nodeid h));
  reply res (fun linkname => (None, Some linkname)) h w.

Definition symlink (h : InHeader) (r w : DescriptorChainConsumer) : act Z :=
  len ← remaining_len h 0;
  '(buf, _) ← read_exact r len;
  '(name, rest) ← need (next_component buf) MissingParameter;
  '(linkname, _) ← need (next_component rest) MissingParameter;
  options ← get_options;
  extensions ← lift (get_extensions options (length name + length linkname) buf);
  linkname ← to_cstr linkname;
  name ← to_cstr name;
  res ← call (fs_symlink (M := M) (ctx h) linkname (nodeid h) name extensions);
  reply res (fun e => obj (EntryOut_from e)) h w.

(** What [mknod], [mkdir] and [create] share: the name behind a structure of
    [size] bytes, and the extensions behind the name. *)
Definition name_and_extensions (h : InHeader) (r : DescriptorChainConsumer) (size : nat) : act (list byte * Extensions) :=
  len ← remaining_len h size;
  '(buf, _) ← read_exact r len;
  '(name, _) ← need (next_component buf) MissingParameter;
  options ← get_options;
  extensions ← lift (get_extensions options (length name) buf);
  name ← to_cstr name;
  mret (name, extensions).

Definition mknod (h : InHeader) (r w : DescriptorChainConsumer) : act Z :=
  '(i, r) ← read_obj MknodIn r;
  '(name, extensions) ← name_and_extensions h r (size_of MknodIn);
  res ← call (fs_mknod (M := M) (ctx h) (nodeid h) name (mknodIn_mode i) (mknodIn_rdev i) (mknodIn_umask i) extensions);
  reply res (fun e => obj (EntryOut_from e)) h w.

Definition mkdir (h : InHeader) (r w : DescriptorChainConsumer) : act Z :=
  '(i, r) ← read_obj MkdirIn r;
  '(name, extensions) ← name_and_extensions h r (size_of MkdirIn);
  res ← call (fs_mkdir (M := M) (ctx h) (nodeid h) name (mkdirIn_mode i) (mkdirIn_umask i) extensions);
  reply res (fun e => obj (EntryOut_from e)) h w.

(** The name that is the rest of a request. *)
Definition read_name (h : InHeader) (r : DescriptorChainConsumer) (size : nat) : act (list byte) :=
  namelen ← remaining_len h size;
  '(name, _) ← read_exact r namelen;
  to_cstr name.

Definition unlink (h : InHeader) (r w : DescriptorChainConsumer) : act Z :=
  name ← read_name h r 0;
  res ← call (fs_unlink (M := M) (ctx h) (nodeid h) name);
  reply res no_payload h w.

Definition rmdir (h : InHeader) (r w : DescriptorChainConsumer) : act Z :=
  name ← read_name h r 0;
  res ← call (fs_rmdir (M := M) (ctx h) (nodeid h) name);
  reply res no_payload h w.

(** Two parts of a buffer, the first ending with its first zero byte. *)
Definition split_at_nul (buf : list byte) : act (list byte * list byte) :=
  need (if existsb (Z.eqb 0) buf then Some (split_nul buf) else None) MissingParameter.

Definition do_rename (h : InHeader) (msg_size : nat) (newdir flags : Z) (r w : DescriptorChainConsumer) : act Z :=
  buflen ← remaining_len h msg_size;
  '(buf, _) ← read_exact r buflen;
  '(oldname, newname) ← split_at_nul buf;
  oldname ← to_cstr oldname;
  newname ← to_cstr newname;
  res ← call (fs_rename (M := M) (ctx h) (nodeid h) oldname newdir newname flags);
  reply res no_payload h w.

Definition rename (h : InHeader) (r w : DescriptorChainConsumer) : act Z :=
  '(i, r) ← read_obj RenameIn r;
  do_rename h (size_of RenameIn) (renameIn_newdir i) 0 r w.

(** [libc::RENAME_EXCHANGE | libc::RENAME_NOREPLACE] *)
Definition RENAME_FLAGS : Z := 2 .| 1.

Definition rename2 (h : InHeader) (r w : DescriptorChainConsumer) : act Z :=
  '(i, r) ← read_obj Rename2In r;
  do_rename h (size_of Rename2In) (rename2In_newdir i) (rename2In_flags i .& RENAME_FLAGS) r w.

Definition link (h : InHeader) (r w : DescriptorChainConsumer) : act Z :=
  '(i, r) ← read_obj LinkIn r;
  name ← read_name h r (size_of LinkIn);
  res ← call (fs_link (M := M) (ctx h) (linkIn_oldnodeid i) (nodeid h) name);
  reply res (fun e => obj (EntryOut_from e)) h w.

Definition open_out (handle : option Z) (opts : Z) : OpenOut := mkOpenOut (default 0 handle) opts 0.

Definition open (h : InHeader) (r w : DescriptorChainConsumer) : act Z :=
  '(i, _) ← read_obj OpenIn r;
  res ← call (fs_open (M := M) (ctx h) (nodeid h) (openIn_flags i));
  reply res (fun '(handle, opts) => obj (open_out handle opts)) h w.

(** [w.split_at(size_of::<OutHeader>()).unwrap()]: the part behind the header,
    and what [w] keeps. *)
Definition split_header (w : DescriptorChainConsumer) : act (DescriptorChainConsumer * DescriptorChainConsumer) :=
  fun s =>
    '(r, w) ← split_at w OUT_HEADER;
    match r with Ok data => Ret (Ok (data, w), s) | Err _ => Panic end.

(** The header of a reply whose payload is already in place; its length is the result. *)
Definition reply_sized (count : Z) (h : InHeader) (w : DescriptorChainConsumer) : act Z :=
  let len := wrap 32 (OUT_HEADER +[64] count) in
  _ ← write_all w (as_slice (mkOutHeader len 0 (inHeader_unique h)));
  mret len.

Definition read (h : InHeader) (r w : DescriptorChainConsumer) : act Z :=
  '(i, _) ← read_obj ReadIn r;
  if MAX_BUFFER_SIZE <? readIn_size i then oversized h w
  else
    let owner := if negb (readIn_read_flags i .& READ_LOCKOWNER =? 0) then Some (readIn_lock_owner i) else None in
    '(data_writer, w) ← split_header w;
    res ← (fun '(s, mem) =>
      '(res, f, mem) ← fs_read (ctx h) (nodeid h) (readIn_fh i) data_writer (readIn_size i) (readIn_offset i) owner (readIn_flags i) (fs s) mem;
      Ret (Ok res, (mkServer f (options s), mem)));
    match res with
    | Ok count => reply_sized count h w
    | Err e => reply_error e (inHeader_unique h) w
    end.

Definition write_out (count : Z) : option (list byte) * option (list byte) := obj (mkWriteOut (wrap 32 count) 0).

Definition write (h : InHeader) (r w : DescriptorChainConsumer) : act Z :=
  '(i, r) ← read_obj WriteIn r;
  if MAX_BUFFER_SIZE <? writeIn_size i then oversized h w
  else
    let owner := if negb (writeIn_write_flags i .& WRITE_LOCKOWNER =? 0) then Some (writeIn_lock_owner i) else None in
    let delayed_write := negb (writeIn_write_flags i .& WRITE_CACHE =? 0) in
    let kill_priv := negb (writeIn_write_flags i .& WRITE_KILL_PRIV =? 0) in
    res ← (fun '(s, mem) =>
      call (fs_write mem (ctx h) (nodeid h) (writeIn_fh i) r (writeIn_size i) (writeIn_offset i) owner delayed_write kill_priv (writeIn_flags i)) (s, mem));
    reply res write_out h w.

Definition statfs (h : InHeader) (w : DescriptorChainConsumer) : act Z :=
  res ← call (fs_statfs (M := M) (ctx h) (nodeid h));
  reply res (fun st => obj (Kstatfs_from st)) h w.

Definition release (h : InHeader) (r w : DescriptorChainConsumer) : act Z :=
  '(i, _) ← read_obj ReleaseIn r;
  let flush := negb (releaseIn_release_flags i .& RELEASE_FLUSH =? 0) in
  let flock_release := negb (releaseIn_release_flags i .& RELEASE_FLOCK_UNLOCK =? 0) in
  let lock_owner := if flush || flock_release then Some (releaseIn_lock_owner i) else None in
  res ← call (fs_release (M := M) (ctx h) (nodeid h) (releaseIn_flags i) (releaseIn_fh i) flush flock_release lock_owner);
  reply res no_payload h w.

Definition fsync (h : InHeader) (r w : DescriptorChainConsumer) : act Z :=
  '(i, _) ← read_obj FsyncIn r;
  res ← call (fs_fsync (M := M) (ctx h) (nodeid h) (negb (fsyncIn_fsync_flags i .& 1 =? 0)) (fsyncIn_fh i));
  reply res no_payload h w.

Definition setxattr (h : InHeader) (r w : DescriptorChainConsumer) : act Z :=
  '(i, r) ← read_obj SetxattrIn r;
  len ← remaining_len h (size_of SetxattrIn);
  '(buf, _) ← read_exact r len;
  '(name, value) ← split_at_nul buf;
  if negb (setxattrIn_size i =? wrap 32 (Zlength value)) then throw (InvalidXattrSize (setxattrIn_size i) (Zlength value))
  else
    name ← to_cstr name;
    res ← call (fs_setxattr (M := M) (ctx h) (nodeid h) name value (setxattrIn_flags i));
    reply res no_payload h w.

Definition xattr_out (r : GetxattrReply) : option (list byte) * option (list byte) :=
  match r with
  | Value v => (None, Some v)
  | Count count => obj (mkGetxattrOut count 0)
  end.

Definition list_out (r : ListxattrReply) : option (list byte) * option (list byte) :=
  match r with
  | Names v => (None, Some v)
  | NamesCount count => obj (mkGetxattrOut count 0)
  end.

Definition getxattr (h : InHeader) (r w : DescriptorChainConsumer) : act Z :=
  '(i, r) ← read_obj GetxattrIn r;
  namelen ← remaining_len h (size_of GetxattrIn);
  '(name, _) ← read_exact r namelen;
  if MAX_BUFFER_SIZE <? getxattrIn_size i then oversized h w
  else
    name ← to_cstr name;
    res ← call (fs_getxattr (M := M) (ctx h) (nodeid h) name (getxattrIn_size i));
    reply res xattr_out h w.

Definition listxattr (h : InHeader) (r w : DescriptorChainConsumer) : act Z :=
  '(i, _) ← read_obj GetxattrIn r;
  if MAX_BUFFER_SIZE <? getxattrIn_size i then oversized h w
  else
    res ← call (fs_listxattr (M := M) (ctx h) (nodeid h) (getxattrIn_size i));
    reply res list_out h w.

Definition removexattr (h : InHeader) (r w : DescriptorChainConsumer) : act Z :=
  name ← read_name h r 0;
  res ← call (fs_removexattr (M := M) (ctx h) (nodeid h) name);
  reply res no_payload h w.

Definition flush (h : InHeader) (r w : DescriptorChainConsumer) : act Z :=
  '(i, _) ← read_obj FlushIn r;
  res ← call (fs_flush (M := M) (ctx h) (nodeid h) (flushIn_fh i) (flushIn_lock_owner i));
  reply res no_payload h w.

(** The features of this server; [SECURITY_CTX] is added on macOS only. *)
Definition supported : Z :=
  ASYNC_READ .| PARALLEL_DIROPS .| BIG_WRITES .| AUTO_INVAL_DATA .| HANDLE_KILLPRIV .| ASYNC_DIO .| HAS_IOCTL_DIR
  .| ATOMIC_O_TRUNC .| MAX_PAGES .| SUBMOUNTS .| INIT_EXT.

Definition version_out : InitOut := mkInitOut KERNEL_VERSION KERNEL_MINOR_VERSION 0 0 0 0 0 0 0 0 0 0.

Definition store_options (enabled : Z) : act unit := fun '(s, mem) => Ret (Ok tt, (mkServer (fs s) enabled, mem)).

(** [((MAX_BUFFER_SIZE - 1) / page_size) + 1], with its conversions. *)
Definition max_pages : act Z := fun s =>
  if fitsb 32 page_size && negb (page_size =? 0) then
    let n := (MAX_BUFFER_SIZE - 1) / page_size +[32] 1 in Ret (Ok n, s)
  else Panic.

Definition init_out (max_readahead enabled pages : Z) : InitOut :=
  mkInitOut KERNEL_VERSION KERNEL_MINOR_VERSION max_readahead (wrap 32 enabled) 0xffff (0xffff / 4 * 3) MAX_BUFFER_SIZE 1
    pages 0 (wrap 32 (enabled .>> 32)) 0.

Definition init (h : InHeader) (r w : DescriptorChainConsumer) : act Z :=
  '(i, r) ← read_obj InitInCompat r;
  let options := from_bits_truncate FsOptions_all (initInCompat_flags i) in
  flags2 ← (if contains options INIT_EXT then '(e, _) ← read_obj InitInExt r; mret (initInExt_flags2 e) else mret 0);
  if initInCompat_major i <? KERNEL_VERSION then reply_error (linux_error (Some EPROTO)) (inHeader_unique h) w
  else if KERNEL_VERSION <? initInCompat_major i then reply_ok (Some (as_slice version_out)) None (inHeader_unique h) w
  else if initInCompat_minor i <? KERNEL_MINOR_VERSION then reply_error (linux_error (Some EPROTO)) (inHeader_unique h) w
  else
    let flags_64 := (flags2 .<< 32) .| initInCompat_flags i in
    let capable := from_bits_truncate FsOptions_all flags_64 in
    pages ← max_pages;
    res ← call (fs_init (M := M) capable);
    match res with
    | Ok want =>
        let enabled := capable .& (want .| supported) in
        _ ← store_options enabled;
        if pages <? 2 ^ 16 then
          reply_ok (Some (as_slice (init_out (initInCompat_max_readahead i) enabled pages))) None (inHeader_unique h) w
        else (fun _ => Panic)
    | Err e => reply_error e (inHeader_unique h) w
    end.

Definition opendir (h : InHeader) (r w : DescriptorChainConsumer) : act Z :=
  '(i, _) ← read_obj OpenIn r;
  res ← call (fs_opendir (M := M) (ctx h) (nodeid h) (openIn_flags i));
  reply res (fun '(handle, opts) => obj (open_out handle opts)) h w.

(** *** Directory entries *)

(** [add_dirent]'s writes; the standard library's errors carry no number. *)
Fixpoint write_parts (parts : list (list byte)) (k : Sink M) : outcome (result IoErr unit * Sink M) :=
  match parts with
  | [] => Ret (Ok tt, k)
  | bs :: parts =>
      '(res, w, mem) ← write_obj (snd k) (fst k) bs;
      match res with
      | Ok _ => write_parts parts (w, mem)
      | Err _ => Ret (Err None, (w, mem))
      end
  end.

Definition dirent_len (d : DirEntry) : Z := Z.of_nat (size_of Dirent) + Zlength (name d).

(** [checked_add(7).map(|l| l & !7)] *)
Definition padded (l : Z) : Z := (l + 7) .& bnot 64 7.

Definition entry_len (entry : option Entry) : Z := match entry with Some _ => Z.of_nat (size_of EntryOut) | None => 0 end.

(** The bytes of an entry, in the order of the writes. *)
Definition dirent_parts (d : DirEntry) (entry : option Entry) : list (list byte) :=
  match entry with Some e => [as_slice (EntryOut_from e)] | None => [] end ++
  [as_slice (mkDirent (ino d) (offset d) (wrap 32 (Zlength (name d))) (type_ d)); name d] ++
  if 0 <? padded (dirent_len d) - dirent_len d then [replicate (Z.to_nat (padded (dirent_len d) - dirent_len d)) 0] else [].

(** The name is shorter than [2^32], so the checked additions of the source
    do not overflow. *)
Definition add_dirent (max : Z) (d : DirEntry) (entry : option Entry) (k : Sink M) : outcome (result IoErr Z * Sink M) :=
  if 2 ^ 32 - 1 <? Zlength (name d) then Ret (Err (linux_error (Some EOVERFLOW)), k)
  else
    let total_len := padded (dirent_len d) + entry_len entry in
    if Z.max 0 (max - bytes_consumed (fst k)) <? total_len then Ret (Ok 0, k)
    else
      '(res, k) ← write_parts (dirent_parts d entry) k;
      Ret (match res with Ok _ => Ok total_len | Err e => Err e end, k).

Definition do_readdir (h : InHeader) (r w : DescriptorChainConsumer) (plus : bool) : act Z :=
  '(i, _) ← read_obj ReadIn r;
  if MAX_BUFFER_SIZE <? readIn_size i then oversized h w
  else if available_bytes w <? readIn_size i then oversized h w
  else
    '(cursor, w) ← split_header w;
    '(res, cursor) ← (fun '(s, mem) =>
      '(res, f, (cursor, mem)) ←
        (if plus
         then fs_readdirplus (ctx h) (nodeid h) (readIn_fh i) (readIn_size i) (readIn_offset i)
                (fun '(d, e) => add_dirent (readIn_size i) d (Some e)) (fs s) (cursor, mem)
         else fs_readdir (ctx h) (nodeid h) (readIn_fh i) (readIn_size i) (readIn_offset i)
                (fun d => add_dirent (readIn_size i) d None) (fs s) (cursor, mem));
      Ret (Ok (res, cursor), (mkServer f (options s), mem)));
    match res with
    | Err e => reply_error e (inHeader_unique h) w
    | Ok _ => reply_sized (bytes_consumed cursor) h w
    end.

Definition readdir (h : InHeader) (r w : DescriptorChainConsumer) : act Z := do_readdir h r w false.

Definition readdirplus (h : InHeader) (r w : DescriptorChainConsumer) : act Z := do_readdir h r w true.

Definition releasedir (h : InHeader) (r w : DescriptorChainConsumer) : act Z :=
  '(i, _) ← read_obj ReleaseIn r;
  res ← call (fs_releasedir (M := M) (ctx h) (nodeid h) (releaseIn_flags i) (releaseIn_fh i));
  reply res no_payload h w.

Definition fsyncdir (h : InHeader) (r w : DescriptorChainConsumer) : act Z :=
  '(i, _) ← read_obj FsyncIn r;
  res ← call (fs_fsyncdir (M := M) (ctx h) (nodeid h) (negb (fsyncIn_fsync_flags i .& 1 =? 0)) (fsyncIn_fh i));
  reply res no_payload h w.

Definition getlk (h : InHeader) (w : DescriptorChainConsumer) : act Z :=
  res ← call (fs_getlk (M := M)); reply_failure res h w.

Definition setlk (h : InHeader) (w : DescriptorChainConsumer) : act Z :=
  res ← call (fs_setlk (M := M)); reply_failure res h w.

Definition setlkw (h : InHeader) (w : DescriptorChainConsumer) : act Z :=
  res ← call (fs_setlkw (M := M)); reply_failure res h w.

Definition access (h : InHeader) (r w : DescriptorChainConsumer) : act Z :=
  '(i, _) ← read_obj AccessIn r;
  res ← call (fs_access (M := M) (ctx h) (nodeid h) (accessIn_mask i));
  reply res no_payload h w.

(** The attributes of [create]'s reply are built without the entry's flags. *)
Definition create_out (a : Entry * option Z * Z) : option (list byte) * option (list byte) :=
  let '(entry, handle, opts) := a in
  let entry_out := mkEntryOut (inode entry) (generation entry) (as_secs (entry_timeout entry)) (as_secs (attr_timeout entry))
    (subsec_nanos (entry_timeout entry)) (subsec_nanos (attr_timeout entry)) (Attr_from (attr entry)) in
  (Some (as_slice entry_out), Some (as_slice (open_out handle opts))).

Definition create (h : InHeader) (r w : DescriptorChainConsumer) : act Z :=
  '(i, r) ← read_obj CreateIn r;
  '(name, extensions) ← name_and_extensions h r (size_of CreateIn);
  res ← call (fs_create (M := M) (ctx h) (nodeid h) name (createIn_mode i) (createIn_flags i) (createIn_umask i) extensions);
  reply res create_out h w.

Definition interrupt : act Z := mret 0.

Definition bmap (h : InHeader) (w : DescriptorChainConsumer) : act Z :=
  res ← call (fs_bmap (M := M)); reply_failure res h w.

Definition destroy : act Z := _ ← call_quiet (fs_destroy (M := M)); mret 0.

Definition ioctl (h : InHeader) (r w : DescriptorChainConsumer) : act Z :=
  '(i, _) ← read_obj IoctlIn r;
  res ← call (fs_ioctl (M := M) (ctx h) (nodeid h) (ioctlIn_fh i) (ioctlIn_flags i) (ioctlIn_cmd i) (ioctlIn_arg i)
                (ioctlIn_in_size i) (ioctlIn_out_size i));
  reply res (fun data => (Some (as_slice (mkIoctlOut 0 0 0 0)), Some data)) h w.

Definition poll (h : InHeader) (w : DescriptorChainConsumer) : act Z :=
  res ← call (fs_poll (M := M)); reply_failure res h w.

Definition notify_reply (h : InHeader) (w : DescriptorChainConsumer) : act Z :=
  res ← call (fs_notify_reply (M := M)); reply_failure res h w.

(** [for _ in 0..count { requests.push(r.read_obj()?) }] *)
Fixpoint read_objs (A : Type) `{ByteValued A} (count : nat) (r : DescriptorChainConsumer) : act (list A) :=
  match count with
  | O => mret []
  | S count => '(a, r) ← read_obj A r; rest ← read_objs A count r; mret (a :: rest)
  end.

(** [checked_mul] of a 32-bit count and a small size does not overflow. *)
Definition too_many (count : Z) (size : nat) : bool := MAX_BUFFER_SIZE <? count * Z.of_nat size.

Definition batch_forget (h : InHeader) (r w : DescriptorChainConsumer) : act Z :=
  '(i, r) ← read_obj BatchForgetIn r;
  if too_many (batchForgetIn_count i) (size_of ForgetOne) then oversized h w
  else
    requests ← read_objs ForgetOne (Z.to_nat (batchForgetIn_count i)) r;
    _ ← call_quiet (fs_batch_forget (M := M) (ctx h) (map (fun f => (forgetOne_nodeid f, forgetOne_nlookup f)) requests));
    mret 0.

Definition fallocate (h : InHeader) (r w : DescriptorChainConsumer) : act Z :=
  '(i, _) ← read_obj FallocateIn r;
  res ← call (fs_fallocate (M := M) (ctx h) (nodeid h) (fallocateIn_fh i) (fallocateIn_mode i) (fallocateIn_offset i) (fallocateIn_length i));
  reply res no_payload h w.

Definition lseek (h : InHeader) (r w : DescriptorChainConsumer) : act Z :=
  '(i, _) ← read_obj LseekIn r;
  res ← call (fs_lseek (M := M) (ctx h) (nodeid h) (lseekIn_fh i) (lseekIn_offset i) (lseekIn_whence i));
  reply res (fun offset => obj (mkLseekOut offset)) h w.

Definition copyfilerange (h : InHeader) (r w : DescriptorChainConsumer) : act Z :=
  '(i, _) ← read_obj CopyfilerangeIn r;
  res ← call (fs_copyfilerange (M := M) (ctx h) (nodeid h) (copyfilerangeIn_fh_in i) (copyfilerangeIn_off_in i)
                (copyfilerangeIn_nodeid_out i) (copyfilerangeIn_fh_out i) (copyfilerangeIn_off_out i)
                (copyfilerangeIn_len i) (copyfilerangeIn_flags i));
  reply res write_out h w.

Definition setupmapping (h : InHeader) (r w : DescriptorChainConsumer) (host_shm_base size : Z) : act Z :=
  '(i, _) ← read_obj SetupmappingIn r;
  res ← call (fs_setupmapping (M := M) (ctx h) (nodeid h) (setupmappingIn_fh i) (setupmappingIn_foffset i) (setupmappingIn_len i)
                (setupmappingIn_flags i) (setupmappingIn_moffset i) host_shm_base size);
  reply res no_payload h w.

Definition removemapping (h : InHeader) (r w : DescriptorChainConsumer) (host_shm_base size : Z) : act Z :=
  '(i, r) ← read_obj RemovemappingIn r;
  if too_many (removemappingIn_count i) (size_of RemovemappingOne) then oversized h w
  else
    requests ← read_objs RemovemappingOne (Z.to_nat (removemappingIn_count i)) r;
    res ← call (fs_removemapping (M := M) (ctx h) requests host_shm_base size);
    reply res no_payload h w.

Definition unknown (h : InHeader) (w : DescriptorChainConsumer) : act Z :=
  reply_error (linux_error (Some ENOSYS)) (inHeader_unique h) w.

Definition dispatch (shm_region : option VirtioShmRegion) (h : InHeader) (r w : DescriptorChainConsumer) : act Z :=
  match opcode_of (inHeader_opcode h) with
  | None => unknown h w
  | Some o =>
      match o with
      | Lookup => lookup h r w | Forget => forget h r | Getattr => getattr h r w | Setattr => setattr h r w
      | Readlink => readlink h w | Symlink => symlink h r w | Mknod => mknod h r w | Mkdir => mkdir h r w
      | Unlink => unlink h r w | Rmdir => rmdir h r w | Rename => rename h r w | Link => link h r w
      | Open => open h r w | Read => read h r w | Write => write h r w | Statfs => statfs h w
      | Release => release h r w | Fsync => fsync h r w | Setxattr => setxattr h r w | Getxattr => getxattr h r w
      | Listxattr => listxattr h r w | Removexattr => removexattr h r w | Flush => flush h r w | Init => init h r w
      | Opendir => opendir h r w | Readdir => readdir h r w | Releasedir => releasedir h r w
      | Fsyncdir => fsyncdir h r w | Getlk => getlk h w | Setlk => setlk h w | Setlkw => setlkw h w
      | Access => access h r w | Create => create h r w | Interrupt => interrupt | Bmap => bmap h w
      | Destroy => destroy | Ioctl => ioctl h r w | Poll => poll h w | NotifyReply => notify_reply h w
      | BatchForget => batch_forget h r w | Fallocate => fallocate h r w | Readdirplus => readdirplus h r w
      | Rename2 => rename2 h r w | Lseek => lseek h r w | CopyFileRange => copyfilerange h r w
      | SetupMapping =>
          match shm_region with
          | Some shm => setupmapping h r w (host_addr shm) (shm_size shm)
          | None => unknown h w
          end
      | RemoveMapping =>
          match shm_region with
          | Some shm => removemapping h r w (host_addr shm) (shm_size shm)
          | None => unknown h w
          end
      end
  end.

Definition handle_message (shm_region : option VirtioShmRegion) (r w : DescriptorChainConsumer) : act Z :=
  '(in_header, r) ← read_obj InHeader r;
  if MAX_BUFFER_SIZE + BUFFER_HEADER_SIZE <? inHeader_len in_header then oversized in_header w
  else dispatch shm_region in_header r w.

(** ** What the server asks of a file system

    Its methods return, a read writes guest memory only through the data
    writer, and [readdir] touches the reply only through its callback: an
    invariant of the callback is one of the whole call. *)

Context {GML : GuestMemoryLaws M}.

Definition returns {A} (x : outcome A) : Prop := x <> Panic.

Definition readdir_rule {A} (ok : A -> Prop) (m : callback M A -> F -> Sink M -> outcome (result IoErr unit * F * Sink M)) (f : F) : Prop :=
  forall (I : Sink M -> Prop) cb k,
    (forall a k, ok a -> I k -> exists r k', cb a k = Ret (r, k') /\ I k') -> I k ->
    exists r f' k', m cb f k = Ret (r, f', k') /\ I k'.

Definition xattr_ok (r : GetxattrReply) : Prop := match r with Value v => bytes_ok v | Count _ => True end.

Definition names_ok (r : ListxattrReply) : Prop := match r with Names v => bytes_ok v | NamesCount _ => True end.

(** A method whose result is made of bytes. *)
Definition returns_ok {A} (ok : A -> Prop) (x : outcome (result IoErr A * F)) : Prop :=
  exists r f', x = Ret (r, f') /\ forall a, r = Ok a -> ok a.

(** Options that make the server look for extensions in a request; no
    extension is implemented on Linux. *)
Definition plain_options (o : Z) : Prop := contains o SECURITY_CTX = false /\ contains o CREATE_SUPP_GROUP = false.

Record well_behaved (f : F) : Prop := {
  wb_init c : returns_ok (fun want => want .& (SECURITY_CTX .| CREATE_SUPP_GROUP) = 0) (fs_init (M := M) c f);
  wb_destroy : returns (fs_destroy (M := M) f);
  wb_lookup c p n : returns (fs_lookup (M := M) c p n f);
  wb_forget c i n : returns (fs_forget (M := M) c i n f);
  wb_batch_forget c l : returns (fs_batch_forget (M := M) c l f);
  wb_getattr c i h : returns (fs_getattr (M := M) c i h f);
  wb_setattr c i st h v : returns (fs_setattr (M := M) c i st h v f);
  wb_readlink c i : returns_ok bytes_ok (fs_readlink (M := M) c i f);
  wb_symlink c l p n : returns (fs_symlink (M := M) c l p n Extensions_default f);
  wb_mknod c i n m d u : returns (fs_mknod (M := M) c i n m d u Extensions_default f);
  wb_mkdir c i n m u : returns (fs_mkdir (M := M) c i n m u Extensions_default f);
  wb_unlink c p n : returns (fs_unlink (M := M) c p n f);
  wb_rmdir c p n : returns (fs_rmdir (M := M) c p n f);
  wb_rename c p n q n' fl : returns (fs_rename (M := M) c p n q n' fl f);
  wb_link c i p n : returns (fs_link (M := M) c i p n f);
  wb_open c i fl : returns (fs_open (M := M) c i fl f);
  wb_create c p n m fl u : returns (fs_create (M := M) c p n m fl u Extensions_default f);
  wb_read c i h w sz off o fl m d : room m w d ->
    exists r f' m', fs_read c i h w sz off o fl f m = Ret (r, f', m') /\ framed w m m';
  wb_write m c i h r sz off o d k fl : returns (fs_write m c i h r sz off o d k fl f);
  wb_flush c i h o : returns (fs_flush (M := M) c i h o f);
  wb_fsync c i d h : returns (fs_fsync (M := M) c i d h f);
  wb_fallocate c i h m o l : returns (fs_fallocate (M := M) c i h m o l f);
  wb_release c i fl h a b o : returns (fs_release (M := M) c i fl h a b o f);
  wb_statfs c i : returns (fs_statfs (M := M) c i f);
  wb_setxattr c i n v fl : returns (fs_setxattr (M := M) c i n v fl f);
  wb_getxattr c i n sz : returns_ok xattr_ok (fs_getxattr (M := M) c i n sz f);
  wb_listxattr c i sz : returns_ok names_ok (fs_listxattr (M := M) c i sz f);
  wb_removexattr c i n : returns (fs_removexattr (M := M) c i n f);
  wb_opendir c i fl : returns (fs_opendir (M := M) c i fl f);
  wb_readdir c i h sz off : readdir_rule (fun d => bytes_ok (name d)) (fs_readdir c i h sz off) f;
  wb_readdirplus c i h sz off : readdir_rule (fun de => bytes_ok (name de.1)) (fs_readdirplus c i h sz off) f;
  wb_fsyncdir c i d h : returns (fs_fsyncdir (M := M) c i d h f);
  wb_releasedir c i fl h : returns (fs_releasedir (M := M) c i fl h f);
  wb_access c i m : returns (fs_access (M := M) c i m f);
  wb_lseek c i h o wh : returns (fs_lseek (M := M) c i h o wh f);
  wb_copyfilerange c i h o i' h' o' l fl : returns (fs_copyfilerange (M := M) c i h o i' h' o' l fl f);
  wb_setupmapping c i h fo l fl mo b sz : returns (fs_setupmapping (M := M) c i h fo l fl mo b sz f);
  wb_removemapping c l b sz : returns (fs_removemapping (M := M) c l b sz f);
  wb_ioctl c i h fl cm a x y : returns_ok bytes_ok (fs_ioctl (M := M) c i h fl cm a x y f);
  wb_getlk : returns (fs_getlk (M := M) f);
  wb_setlk : returns (fs_setlk (M := M) f);
  wb_setlkw : returns (fs_setlkw (M := M) f);
  wb_bmap : returns (fs_bmap (M := M) f);
  wb_poll : returns (fs_poll (M := M) f);
  wb_notify_reply : returns (fs_notify_reply (M := M) f);
}.

(** ** Replies

    A message is served: no panic, no memory outside the reply's buffers is
    written, and if it succeeds the buffers begin with a header that carries
    the length reported and the request's identifier, unless the message is
    [quiet] and answered with nothing. *)

Definition out_header (n error unique : Z) : list byte := as_slice (mkOutHeader (wrap 32 n) error unique).

Definition replied (unique n : Z) (w : DescriptorChainConsumer) (m' : M) : Prop :=
  exists error rest, contents m' (buffers w) = Some (out_header n error unique ++ rest).

Definition served (quiet : bool) (unique : Z) (w : DescriptorChainConsumer) (m : M) (x : outcome (result FsError Z * (Server * M))) : Prop :=
  exists r s' m', x = Ret (r, (s', m')) /\ plain_options (options s') /\ framed w m m' /\
    forall n, r = Ok n -> quiet = true /\ n = 0 \/ replied unique n w m'.

Lemma length_out_header n e u : length (out_header n e u) = 16%nat.
Proof. unfold out_header. by rewrite length_as_slice. Qed.

(** [write_all] as a step. *)
Lemma write_all_step s m c buf d :
  room m c d -> bytes_ok buf ->
  exists r m', write_all c buf (s, m) = Ret (r, (s, m')) /\ framed c m m' /\
    forall c', r = Ok c' -> (length buf <= length d)%nat /\ contents m' (buffers c) = Some (buf ++ drop (length buf) d) /\
      flat (buffers c') = drop (length buf) (flat (buffers c)) /\
      bytes_consumed c' = bytes_consumed c + Zlength buf /\ room m' c' (drop (length buf) d).
Proof.
  intros Hr Hb. destruct (write_obj_room m c buf d Hr Hb) as (r & c' & m' & Hw & Hf & Hcase). unfold write_all. rewrite Hw.
  cbn [mbind outcome_bind]. eexists _, m'. split; [reflexivity|]. split; [done|].
  destruct (Nat.leb_spec (length buf) (length d)); [destruct Hcase as (-> & ?)|destruct Hcase as (-> & _); by intros].
  intros c2 [= <-]. done.
Qed.

(** The parts of a reply one after the other: the cursor stays behind what is
    written, so that a later part keeps the earlier ones. *)
Definition write_step (w : DescriptorChainConsumer) (done : list byte) (m : M) (c : DescriptorChainConsumer) : Prop :=
  exists d rest, room m c d /\ flat (buffers c) = drop (length done) (flat (buffers w)) /\
    bytes_consumed c = Zlength done /\ contents m (buffers w) = Some (done ++ rest).

Lemma write_step_next s m w fin c buf :
  slices_ok (buffers w) -> NoDup (flat (buffers w)) -> write_step w fin m c -> bytes_ok buf ->
  exists r m', write_all c buf (s, m) = Ret (r, (s, m')) /\ framed w m m' /\
    forall c', r = Ok c' -> write_step w (fin ++ buf) m' c'.
Proof.
  intros [Hs _] Hnd (d & rest & Hr & Hfl & Hbc & Hc) Hb.
  destruct (write_all_step s m c buf d Hr Hb) as (r & m' & Hw & Hf & Hok). exists r, m'. split; [done|].
  assert (framed w m m') as Hfw by (eapply framed_sub; [|exact Hf]; rewrite Hfl; apply subseteq_drop).
  split; [done|]. intros c' E. destruct (Hok c' E) as (Hle & Hc' & Hfl' & Hbc' & Hr').
  destruct (contents_prefix_framed m m' (buffers w) c (length fin) (fin ++ rest)) as (d' & Hd' & Ht); [done| |done..|].
  { rewrite Hfl. intros x Hx Hin. rewrite <- (take_drop (length fin) (flat (buffers w))), NoDup_app in Hnd.
    destruct Hnd as (_ & Hdis & _). by eapply Hdis. }
  rewrite take_app_length in Ht.
  assert (length fin + length buf <= length d')%nat as Hlen.
  { pose proof (contents_length _ _ _ Hs Hc). pose proof (contents_length _ _ _ Hs Hd').
    pose proof (contents_length _ _ _ (proj1 (room_slices _ _ _ Hr)) (room_contents _ _ _ Hr)) as Hd.
    rewrite <- length_flat in Hd by apply (room_slices _ _ _ Hr). rewrite Hfl, length_drop in Hd.
    rewrite <- length_flat in * by done. rewrite length_app in *. lia. }
  assert (take (length fin + length buf) d' = fin ++ buf) as Hfb.
  { rewrite <- take_take_drop, Ht. f_equal.
    apply contents_flat in Hd', Hc'; [|apply (room_slices _ _ _ Hr)|done].
    rewrite Hfl in Hc'. apply (Forall2_drop _ _ _ (length fin)) in Hd'.
    assert (drop (length fin) d' = buf ++ drop (length buf) d) as ->; [|apply take_app_length].
    revert Hc' Hd'. generalize (drop (length fin) (flat (buffers w))) (drop (length fin) d') (buf ++ drop (length buf) d).
    intros l d1 d2 Ha Hd1. revert d1 Hd1. induction Ha; intros d1 Hd1; inversion Hd1; subst; [done|]. f_equal; [congruence|auto]. }
  exists (drop (length buf) d), (drop (length fin + length buf) d').
  split; [done|]. rewrite length_app, Hfl', Hfl, drop_drop, Hbc', Hbc, <- Hfb, take_drop.
  split_and!; [done|lia|done].
Qed.

Lemma write_step_start m w d : room m w d -> bytes_consumed w = 0 -> write_step w [] m w.
Proof. intros Hr Hb. exists d, d. rewrite drop_0, Hb. split_and!; [done..|apply Hr]. Qed.

Definition writer_ok (m : M) (w : DescriptorChainConsumer) : Prop := (exists d, room m w d) /\ bytes_consumed w = 0.

Lemma served_write q u w m0 s m fin c buf (k : DescriptorChainConsumer -> act Z) :
  slices_ok (buffers w) -> NoDup (flat (buffers w)) -> plain_options (options s) ->
  framed w m0 m -> write_step w fin m c -> bytes_ok buf ->
  (forall m' c', framed w m0 m' -> write_step w (fin ++ buf) m' c' -> served q u w m0 (k c' (s, m'))) ->
  served q u w m0 ((c' ← write_all c buf; k c') (s, m)).
Proof.
  intros Hs Hnd Ho Hf Hst Hb Hk. destruct (write_step_next s m w fin c buf Hs Hnd Hst Hb) as (r & m' & Hw & Hf' & Hok).
  assert (framed w m0 m') as Hfr by by eapply framed_trans. unfold mbind at 1, act_bind. rewrite Hw. destruct r as [c'|e].
  - eapply Hk; [done|]. by apply Hok.
  - exists (Err e), s, m'. by split_and!.
Qed.

Lemma served_write_opt q u w m0 s m fin c o (k : DescriptorChainConsumer -> act Z) :
  slices_ok (buffers w) -> NoDup (flat (buffers w)) -> plain_options (options s) ->
  framed w m0 m -> write_step w fin m c -> bytes_ok (default [] o) ->
  (forall m' c', framed w m0 m' -> write_step w (fin ++ default [] o) m' c' -> served q u w m0 (k c' (s, m'))) ->
  served q u w m0 ((c' ← write_opt c o; k c') (s, m)).
Proof.
  destruct o as [buf|]; [apply served_write|]. intros _ _ _ Hf Hst _ Hk. apply Hk; [done|]. cbn. by rewrite app_nil_r.
Qed.

Lemma served_done q u w m0 s m n e rest c :
  plain_options (options s) -> framed w m0 m -> write_step w (out_header n e u ++ rest) m c ->
  wrap 32 n = wrap 32 (OUT_HEADER + Zlength rest) -> served q u w m0 ((mret (bytes_consumed c) : act Z) (s, m)).
Proof.
  intros Ho Hf (d & rest' & Hr & Hfl & Hbc & Hc) Hn. eexists _, s, m. split; [reflexivity|]. split_and!; [done..|].
  intros n' [= <-]. right. rewrite Hbc. exists e, (rest ++ rest'). rewrite Hc, <- app_assoc. do 2 f_equal.
  rewrite length_app, length_out_header, Nat2Z.inj_add. unfold out_header. do 2 f_equal. exact Hn.
Qed.

Lemma wrap_32_64 n : wrap 32 (wrap 64 n) = wrap 32 n.
Proof. unfold wrap. symmetry. apply Znumtheory.Zmod_div_mod; [lia..|by exists (2 ^ 32)]. Qed.

Definition payload_ok (p : option (list byte) * option (list byte)) : Prop :=
  bytes_ok (default [] p.1) /\ bytes_ok (default [] p.2).

Lemma reply_ok_served q s m m0 w out data u :
  plain_options (options s) -> writer_ok m w -> framed w m0 m ->
  payload_ok (out, data) -> served q u w m0 (reply_ok out data u w (s, m)).
Proof.
  intros Ho [[d Hr] Hb] Hf [Hout Hdata].
  pose proof (room_slices _ _ _ Hr). pose proof (room_nodup _ _ _ Hr).
  unfold reply_ok. eapply served_write; [done..|by eapply write_step_start|apply as_slice_ok|]. intros m1 c1 Hf1 Hs1.
  eapply served_write_opt; [done..|]. intros m2 c2 Hf2 Hs2.
  eapply served_write_opt; [done..|]. intros m3 c3 Hf3 Hs3. rewrite app_nil_l, <- app_assoc in Hs3.
  eapply served_done; [done..|exact Hs3|]. rewrite wrap_32_64. f_equal. rewrite length_app.
  destruct out, data; cbn [default opt_len length]; unfold id; lia.
Qed.

Lemma reply_error_served q s m m0 w e u :
  plain_options (options s) -> writer_ok m w -> framed w m0 m -> served q u w m0 (reply_error e u w (s, m)).
Proof.
  intros Ho [[d Hr] Hb] Hf. pose proof (room_slices _ _ _ Hr). pose proof (room_nodup _ _ _ Hr).
  unfold reply_error. eapply served_write; [done..|by eapply write_step_start|apply as_slice_ok|]. intros m1 c1 Hf1 Hs1.
  eapply (served_done _ _ _ _ _ _ OUT_HEADER _ []); [done..|by rewrite app_nil_r|]. by rewrite Z.add_0_r.
Qed.

(** ** Requests

    Decoding changes nothing; a handler decodes, calls a method and replies. *)

Definition reader_ok (m : M) (r : DescriptorChainConsumer) : Prop :=
  exists d, slices_ok (buffers r) /\ contents m (buffers r) = Some d /\ 0 <= bytes_consumed r /\
    bytes_consumed r + Zlength d < 2 ^ 64.

Definition decodes {A} (x : act A) (s : Server * M) (Q : A -> Prop) : Prop :=
  exists r, x s = Ret (r, s) /\ forall a, r = Ok a -> Q a.

Lemma decodes_bind {A B} (x : act A) (k : A -> act B) s Q R :
  decodes x s Q -> (forall a, Q a -> decodes (k a) s R) -> decodes (x ≫= k) s R.
Proof.
  intros (r & E & Hq) Hk. unfold decodes, mbind, act_bind. rewrite E. destruct r as [a|e]; [by apply Hk, Hq|].
  by exists (Err e).
Qed.

Lemma decodes_mret {A} (a : A) s (Q : A -> Prop) : Q a -> decodes (mret a) s Q.
Proof. intros Hq. exists (Ok a). split; [done|]. by intros ? [= <-]. Qed.

Lemma decodes_need {A} (o : option A) e s (Q : A -> Prop) : (forall a, o = Some a -> Q a) -> decodes (need o e) s Q.
Proof. intros Hq. exists (ok_or o e). split; [done|]. destruct o; [|done]. intros ? [= <-]. by apply Hq. Qed.

Lemma read_obj_readable m r size :
  reader_ok m r -> exists res r', DescUtils.read_obj m r size = Ret (res, r') /\ forall bs, res = Ok bs -> reader_ok m r'.
Proof.
  intros (d & Hs & Hc & Hb & Hl). pose proof (read_obj_correct m r size d Hs Hc Hb Hl) as Hr.
  destruct (Nat.leb_spec size (length d)).
  - destruct Hr as (c' & E & Hc' & Hs' & Hb'). exists (Ok (take size d)), c'. split; [done|]. intros ? _.
    exists (drop size d). rewrite length_drop. split_and!; [done..|lia|lia].
  - destruct Hr as (c' & E). by exists (Err DescUtils.UnexpectedEof), c'.
Qed.

Lemma decodes_read_obj A `{ByteValued A} s m r :
  reader_ok m r -> decodes (read_obj A r) (s, m) (fun p => reader_ok m p.2).
Proof.
  intros Hr. destruct (read_obj_readable m r (size_of A) Hr) as (res & r' & E & Hok). unfold decodes, read_obj. rewrite E.
  eexists. split; [reflexivity|]. destruct res; [|done]. intros ? [= <-]. by eapply Hok.
Qed.

Lemma decodes_read_exact s m r n : reader_ok m r -> decodes (read_exact r n) (s, m) (fun p => reader_ok m p.2).
Proof.
  intros Hr. destruct (read_obj_readable m r (Z.to_nat n) Hr) as (res & r' & E & Hok). unfold decodes, read_exact. rewrite E.
  eexists. split; [reflexivity|]. destruct res; [|done]. intros ? [= <-]. by eapply Hok.
Qed.

Lemma decodes_read_objs A `{ByteValued A} s m n r : reader_ok m r -> decodes (read_objs A n r) (s, m) (fun _ => True).
Proof.
  revert r. induction n as [|n IH]; intros r Hr; [by apply decodes_mret|]. cbn [read_objs].
  eapply decodes_bind; [by apply decodes_read_obj|]. intros [a r'] Hr'. eapply decodes_bind; [by apply IH|]. intros l _.
  by apply decodes_mret.
Qed.

Lemma decodes_remaining_len h n s : decodes (remaining_len h n) s (fun _ => True).
Proof. by apply decodes_need. Qed.

Lemma decodes_to_cstr b s : decodes (to_cstr b) s (fun _ => True).
Proof. by apply decodes_need. Qed.

Lemma decodes_split_at_nul b s : decodes (split_at_nul b) s (fun _ => True).
Proof. by apply decodes_need. Qed.

Lemma decodes_get_options s : plain_options (options (fst s)) -> decodes get_options s plain_options.
Proof.
  intros [H1 H2]. unfold get_options. eexists. split; [reflexivity|]. intros ? [= <-]. unfold plain_options, contains, from_bits_truncate in *.
  by rewrite <- !Z.land_assoc.
Qed.

(** Without the options of extensions, none is looked for. *)
Lemma plain_extensions o skip bs : plain_options o -> get_extensions o skip bs = Ret (Ok Extensions_default).
Proof. intros [H1 H2]. unfold get_extensions. by rewrite H1, H2. Qed.

Lemma decodes_get_extensions o skip bs s :
  plain_options o -> decodes (lift (get_extensions o skip bs)) s (fun e => e = Extensions_default).
Proof. intros Ho. unfold lift. rewrite plain_extensions by done. eexists. split; [reflexivity|]. by intros ? [= <-]. Qed.

Lemma act_step {A B} (x : act A) (k : A -> act B) s a s' : x s = Ret (Ok a, s') -> (x ≫= k) s = k a s'.
Proof. intros E. unfold mbind, act_bind. by rewrite E. Qed.

(** A handler's next step. *)
Section handler.
Context (q : bool) (u : Z) (w : DescriptorChainConsumer) (m : M).

Lemma served_decodes {A} (x : act A) (k : A -> act Z) s Q :
  decodes x (s, m) Q -> plain_options (options s) -> (forall a, Q a -> served q u w m (k a (s, m))) -> served q u w m ((x ≫= k) (s, m)).
Proof.
  intros (r & E & Hq) Ho Hk. unfold mbind, act_bind. rewrite E. destruct r as [a|e]; [by apply Hk, Hq|].
  exists (Err e), s, m. split_and!; [done..|apply framed_refl|done].
Qed.

Lemma served_call {A} (x : io F A) (k : result IoErr A -> act Z) s ok :
  returns_ok ok (x (fs s)) ->
  (forall r f', (forall a, r = Ok a -> ok a) -> served q u w m (k r (mkServer f' (options s), m))) ->
  served q u w m ((call x ≫= k) (s, m)).
Proof. intros (r & f' & E & Hok) Hk. unfold mbind, act_bind, call. rewrite E. cbn [mbind outcome_bind]. by apply Hk. Qed.

Lemma returns_any {A} (x : outcome (result IoErr A * F)) : returns x -> returns_ok (fun _ => True) x.
Proof. intros Hx. destruct x as [[r f']|]; [|done]. by exists r, f'. Qed.

Lemma served_mret_0 s : q = true -> plain_options (options s) -> served q u w m ((mret 0 : act Z) (s, m)).
Proof. intros Hq Ho. exists (Ok 0), s, m. split_and!; [done..|apply framed_refl|]. intros n [= <-]. by left. Qed.

Lemma served_throw s e : plain_options (options s) -> served q u w m (throw e (s, m)).
Proof. intros Ho. exists (Err e), s, m. split_and!; [done..|apply framed_refl|done]. Qed.
End handler.

Lemma reply_served {A} q s m m0 w h (res : result IoErr A) ok :
  plain_options (options s) -> writer_ok m w -> framed w m0 m ->
  (forall a, res = Ok a -> payload_ok (ok a)) -> served q (inHeader_unique h) w m0 (reply res ok h w (s, m)).
Proof.
  intros Ho Hw Hf Hok. destruct res as [a|e]; cbn [reply]; [|by apply reply_error_served].
  apply reply_ok_served; [done..|]. specialize (Hok a eq_refl). by destruct (ok a).
Qed.

Lemma reply_failure_served s m w h res :
  plain_options (options s) -> writer_ok m w -> served true (inHeader_unique h) w m (reply_failure res h w (s, m)).
Proof.
  intros Ho Hw. destruct res; cbn [reply_failure]; [by apply served_mret_0|]. apply reply_error_served; [done..|apply framed_refl].
Qed.

Lemma oversized_served q s m m0 w h :
  plain_options (options s) -> writer_ok m w -> framed w m0 m -> served q (inHeader_unique h) w m0 (oversized h w (s, m)).
Proof. intros. unfold oversized. by apply reply_error_served. Qed.

Lemma unknown_served q s m m0 w h :
  plain_options (options s) -> writer_ok m w -> framed w m0 m -> served q (inHeader_unique h) w m0 (unknown h w (s, m)).
Proof. intros. unfold unknown. by apply reply_error_served. Qed.

Lemma obj_ok {A} `{ByteValued A} (a : A) : payload_ok (obj a).
Proof. split; [apply as_slice_ok|constructor]. Qed.

Lemma no_payload_ok {A} (a : A) : payload_ok (no_payload a).
Proof. split; constructor. Qed.

Lemma xattr_out_ok r : xattr_ok r -> payload_ok (xattr_out r).
Proof. destruct r; [split; [constructor|done]|intros; apply obj_ok]. Qed.

Lemma list_out_ok r : names_ok r -> payload_ok (list_out r).
Proof. destruct r; [split; [constructor|done]|intros; apply obj_ok]. Qed.

Lemma create_out_ok a : payload_ok (create_out a).
Proof. destruct a as [[e o] opts]. split; apply as_slice_ok. Qed.

(** [name_and_extensions] with plain options: no extension. *)
Lemma decodes_name_and_extensions s m h r n :
  plain_options (options s) -> reader_ok m r -> decodes (name_and_extensions h r n) (s, m) (fun p => p.2 = Extensions_default).
Proof.
  intros Ho Hr. unfold name_and_extensions. eapply decodes_bind; [apply decodes_remaining_len|intros len _].
  eapply decodes_bind; [by apply decodes_read_exact|intros [buf r'] _].
  eapply decodes_bind; [by apply (decodes_need _ _ _ (fun _ => True))|intros [n' rest] _].
  eapply decodes_bind; [by apply decodes_get_options|intros o Hpo].
  eapply decodes_bind; [by apply decodes_get_extensions|intros e ->].
  eapply decodes_bind; [by apply decodes_to_cstr|intros n2 _]. by apply decodes_mret.
Qed.

Lemma decodes_read_name s m h r n : reader_ok m r -> decodes (read_name h r n) (s, m) (fun _ => True).
Proof.
  intros Hr. unfold read_name. eapply decodes_bind; [apply decodes_remaining_len|intros len _].
  eapply decodes_bind; [by apply decodes_read_exact|intros [buf r'] _]. by apply decodes_to_cstr.
Qed.

Ltac decode_rule :=
  first
  [ apply decodes_read_obj | apply decodes_read_exact | apply decodes_remaining_len | apply decodes_to_cstr
  | apply decodes_split_at_nul | apply decodes_name_and_extensions | apply decodes_read_name | apply decodes_get_options
  | apply decodes_get_extensions | apply decodes_read_objs | apply (decodes_need _ _ _ (fun _ => True)) ].

Ltac payload :=
  intros; try apply create_out_ok; repeat case_match;
  first [apply obj_ok | apply no_payload_ok | apply xattr_out_ok; by auto | apply list_out_ok; by auto | split; first [apply as_slice_ok | by constructor | by auto]].

(** One step of a handler: a decoding step, a call of a method (its promise is
    a field of [well_behaved]) or the reply. *)
Ltac serve :=
  repeat first
  [ eapply served_decodes;
    [decode_rule; solve [eauto]|assumption
    |let a := fresh "a" in let E := fresh "E" in intros a E; cbv beta in E;
     lazymatch type of a with prod _ _ => destruct a; cbn [snd] in E | _ => idtac end; subst]
  | eapply served_call;
    [first [apply returns_any; match goal with W : well_behaved _ |- _ => apply W end
           |match goal with W : well_behaved _ |- _ => apply W end]|intros ? ? ?]
  | lazymatch goal with
    | |- served _ _ _ _ ((if ?b then _ else _) _) => destruct b
    | |- served _ _ _ _ (oversized _ _ _) => apply oversized_served; [assumption|assumption|apply framed_refl]
    | |- served _ _ _ _ (unknown _ _ _) => apply unknown_served; [assumption|assumption|apply framed_refl]
    | |- served _ _ _ _ (reply _ _ _ _ _) => apply reply_served; [assumption|assumption|apply framed_refl|payload]
    | |- served _ _ _ _ (reply_failure _ _ _ _) => apply reply_failure_served; assumption
    | |- served _ _ _ _ (reply_error _ _ _ _) => apply reply_error_served; [assumption|assumption|apply framed_refl]
    | |- served _ _ _ _ (throw _ _) => apply served_throw; assumption
    | |- served _ _ _ _ (mret 0 _) => apply served_mret_0; [reflexivity|assumption]
    end ].

Section handlers.
Context (s : Server) (m : M) (h : InHeader) (r w : DescriptorChainConsumer).
Context (Ho : plain_options (options s)) (Hwb : well_behaved (fs s)) (Hr : reader_ok m r) (Hw : writer_ok m w).

Lemma served_call_quiet q u f (k : unit -> act Z) :
  returns (f (fs s)) -> (forall f', served q u w m (k tt (mkServer f' (options s), m))) ->
  served q u w m ((call_quiet f ≫= k) (s, m)).
Proof.
  intros Hf Hk. unfold mbind at 1, act_bind, call_quiet. destruct (f (fs s)) as [f'|]; [|done]. cbn [mbind outcome_bind]. apply Hk.
Qed.

Lemma forget_served : served true (inHeader_unique h) w m (forget h r (s, m)).
Proof. unfold forget. serve. apply served_call_quiet; [apply Hwb|intros f']. serve. Qed.

Lemma batch_forget_served : served true (inHeader_unique h) w m (batch_forget h r w (s, m)).
Proof.
  unfold batch_forget. serve.
  apply served_call_quiet; [apply Hwb|intros f']. serve.
Qed.

Lemma destroy_served u : served true u w m (destroy (s, m)).
Proof. apply served_call_quiet; [apply Hwb|intros f']. serve. Qed.

Lemma removemapping_served q base size : served q (inHeader_unique h) w m (removemapping h r w base size (s, m)).
Proof. unfold removemapping. serve. Qed.

Lemma max_pages_ok st : 4096 <= page_size < 2 ^ 32 -> exists n, max_pages st = Ret (Ok n, st) /\ (n <? 2 ^ 16) = true.
Proof.
  intros Hp. unfold max_pages. replace (fitsb 32 page_size) with true by (symmetry; apply fitsb_fits; unfold fits; lia).
  destruct (page_size =? 0) eqn:E; [zify_bool; lia|]. eexists. split; [reflexivity|]. apply Z.ltb_lt.
  assert (0 <= (MAX_BUFFER_SIZE - 1) / page_size <= 256) as Hd.
  { change MAX_BUFFER_SIZE with 1048576. split; [apply Z.div_pos; lia|]. apply Z.div_le_upper_bound; lia. }
  rewrite wrap_small by (unfold fits; lia). lia.
Qed.

(** The options in use never ask for extensions. *)
Lemma enabled_plain capable want :
  want .& (SECURITY_CTX .| CREATE_SUPP_GROUP) = 0 -> plain_options (capable .& (want .| supported)).
Proof.
  rewrite Z.land_lor_distr_r. intros [H1 H2]%Z.lor_eq_0_iff. unfold plain_options, contains.
  split; rewrite <- Z.land_assoc, Z.land_lor_distr_l, ?H1, ?H2; apply Z.eqb_neq; vm_compute (_ .& _) at 2; by rewrite Z.land_0_r.
Qed.

Lemma decodes_flags2 (b : bool) st r' :
  reader_ok m r' ->
  decodes (if b then '(e, _) ← read_obj InitInExt r'; mret (initInExt_flags2 e) else mret 0) (st, m) (fun _ => True).
Proof.
  intros Hr'. destruct b; [|by apply decodes_mret]. eapply decodes_bind; [by apply decodes_read_obj|]. intros [e r2] _.
  by apply decodes_mret.
Qed.

Lemma init_served q : 4096 <= page_size < 2 ^ 32 -> served q (inHeader_unique h) w m (init h r w (s, m)).
Proof.
  intros Hp. unfold init. serve. eapply served_decodes; [by apply decodes_flags2|assumption|intros flags2 _]. serve.
  - apply reply_ok_served; [done..|apply framed_refl|]. split; [apply as_slice_ok|constructor].
  - destruct (max_pages_ok (s, m) Hp) as (n & E1 & E2). unfold mbind at 1, act_bind. rewrite E1.
    eapply served_call; [apply Hwb|]. intros res f' Hres. destruct res as [want|e]; [|serve].
    unfold mbind, act_bind, store_options. cbn [fs options fst snd]. rewrite E2.
    apply reply_ok_served; [by apply enabled_plain, Hres|done|apply framed_refl|]. split; [apply as_slice_ok|constructor].
Qed.

(** The header has buffers of its own, as drivers lay a chain out. *)
Definition header_apart (c : DescriptorChainConsumer) : Prop := exists k, total (take k (buffers c)) = OUT_HEADER.

(** The part behind the header and the part with it. *)
Lemma split_header_ok :
  header_apart w ->
  exists d k dd dk, split_header w (s, m) = Ret (Ok (d, k), (s, m)) /\ buffers w = buffers k ++ buffers d /\
    bytes_consumed k = 0 /\ bytes_consumed d = 0 /\ room m d dd /\ room m k dk /\ length dk = 16%nat.
Proof.
  intros [i Hi]. destruct Hw as [[dw [[Hs Hl] Hnd Hc [Hb1 Hb2]]] Hb].
  destruct (split_at_boundary w i Hs) as (keep & data & E & Ew & Ht). rewrite Hi in E, Ht. rewrite Hb in E.
  rewrite Ew in Hs, Hnd, Hc, Hl. apply Forall_app in Hs as [Hs1 Hs2]. rewrite flat_app in Hnd, Hl.
  apply NoDup_app in Hnd as (Hnd1 & _ & Hnd2). apply contents_app in Hc as (dk & dd & Hk & Hd & ->).
  rewrite !length_app in *.
  exists (mkConsumer data 0), (mkConsumer keep 0), dd, dk. unfold split_header. rewrite E.
  split_and!; [done..| | |].
  - split; [split; [done|]|done|done|]; cbn [buffers bytes_consumed]; lia.
  - split; [split; [done|]|done|done|]; cbn [buffers bytes_consumed]; lia.
  - apply contents_length in Hk; [|done]. rewrite Ht in Hk. change OUT_HEADER with 16 in Hk. lia.
Qed.

(** The header of a reply whose payload is written first. *)
Lemma served_header q u st m' k d dk n e (f : DescriptorChainConsumer -> act Z) :
  plain_options (options st) -> buffers w = buffers k ++ buffers d -> room m k dk -> length dk = 16%nat ->
  bytes_consumed k = 0 -> framed d m m' -> (forall c', bytes_consumed c' = OUT_HEADER -> f c' = mret n) ->
  served q u w m ((c' ← write_all k (out_header n e u); f c') (st, m')).
Proof.
  intros Ho' Ew Hk Hdk Hbk Hf Hfn. destruct Hw as [[dw Hrw] _].
  assert (room m' k dk) as Hk'.
  { destruct Hk as [Hs Hnd Hc Hb]. split; [done..| |done]. rewrite <- Hc. apply contents_frame. intros a j Hx. apply Hf.
    intros x Hi Hin. pose proof (room_nodup _ _ _ Hrw) as Hn. rewrite Ew, flat_app, NoDup_app in Hn.
    destruct Hn as (_ & Hdis & _). by eapply Hdis; [apply Hx|]. }
  destruct (write_all_step st m' k (out_header n e u) dk Hk' (as_slice_ok _)) as (rs & m2 & Hwr & Hf2 & Hok).
  assert (framed w m m2) as Hfw.
  { eapply framed_trans; [eapply (framed_sub w d); [|exact Hf]|eapply (framed_sub w k); [|exact Hf2]];
      rewrite Ew, flat_app; set_solver. }
  unfold mbind at 1, act_bind. rewrite Hwr. destruct rs as [c'|er]; [|by exists (Err er), st, m2; split_and!].
  destruct (Hok c' eq_refl) as (_ & Hc2 & _ & Hbc & _). rewrite length_out_header, Hbk in Hbc.
  rewrite (Hfn c') by done. exists (Ok n), st, m2. split_and!; [done..|]. intros n' [= <-]. right.
  rewrite length_out_header, drop_ge, app_nil_r in Hc2 by lia.
  destruct (contents_prefix_framed m m2 (buffers w) w 0 dw) as (d2 & Hd2 & _); [apply Hrw| |done|apply Hrw|].
  { intros x _. rewrite take_0. apply not_elem_of_nil. }
  rewrite Ew in Hd2. apply contents_app in Hd2 as (d21 & d22 & H1 & H2 & ->). exists e, d22.
  assert (d21 = out_header n e u) as -> by congruence. rewrite Ew. by apply contents_app_2.
Qed.

Lemma reply_sized_served q st m' k d dk count :
  plain_options (options st) -> buffers w = buffers k ++ buffers d -> room m k dk -> length dk = 16%nat ->
  bytes_consumed k = 0 -> framed d m m' -> served q (inHeader_unique h) w m (reply_sized count h k (st, m')).
Proof.
  intros. unfold reply_sized. set (len := wrap 32 _).
  assert (len = wrap 32 len) as E by (unfold len; by rewrite wrap_wrap). rewrite E at 1. by eapply served_header.
Qed.

Lemma reply_error_served_apart q st m' k d dk e :
  plain_options (options st) -> buffers w = buffers k ++ buffers d -> room m k dk -> length dk = 16%nat ->
  bytes_consumed k = 0 -> framed d m m' -> served q (inHeader_unique h) w m (reply_error e (inHeader_unique h) k (st, m')).
Proof. intros. unfold reply_error. eapply served_header; [done..|]. by intros c' ->. Qed.

Lemma read_served q : header_apart w -> served q (inHeader_unique h) w m (read h r w (s, m)).
Proof.
  intros Ha. destruct (split_header_ok Ha) as (d & k & dd & dk & E & Ew & Hbk & Hbd & Hd & Hk & Hl).
  unfold read. eapply served_decodes; [by apply decodes_read_obj|assumption|intros [a r'] _].
  cbv beta iota. case_match; [serve|]. erewrite act_step; [|exact E].
  destruct (wb_read _ Hwb (ctx h) (nodeid h) (readIn_fh a) d (readIn_size a) (readIn_offset a)
    (if negb (readIn_read_flags a .& READ_LOCKOWNER =? 0) then Some (readIn_lock_owner a) else None) (readIn_flags a) m dd Hd)
    as (res & f' & m' & Er & Hf).
  erewrite act_step; [|cbv beta iota; rewrite Er; reflexivity]. destruct res as [count|e].
  - by eapply reply_sized_served.
  - by eapply reply_error_served_apart.
Qed.

(** Entries stay in the data part. *)
Definition sink_ok (d : DescriptorChainConsumer) (k : Sink M) : Prop :=
  (exists dd, room k.2 k.1 dd) /\ flat (buffers k.1) ⊆ flat (buffers d) /\ framed d m k.2.

Lemma write_parts_ok d parts k :
  Forall bytes_ok parts -> sink_ok d k -> exists rs k', write_parts parts k = Ret (rs, k') /\ sink_ok d k'.
Proof.
  intros Hp. revert k. induction Hp as [|bs parts Hb _ IH]; intros [c mc] Hk; [by exists (Ok tt), (c, mc)|].
  cbn [write_parts fst snd]. pose proof Hk as ([dc Hr'] & Hsub & Hf). cbn [fst snd] in *.
  destruct (write_obj_room mc c bs dc Hr' Hb) as (rs & c' & m' & -> & Hf' & Hcase). cbn [mbind outcome_bind].
  assert ((exists dd, room m' c' dd) /\ flat (buffers c') ⊆ flat (buffers c)) as [Hr2 Hs2].
  { destruct (_ <=? _)%nat; [|apply Hcase]. destruct Hcase as (_ & _ & Hfl & _ & ?). split; [eauto|]. rewrite Hfl. apply subseteq_drop. }
  assert (sink_ok d (c', m')) as Hk'.
  { split_and!; [done|by etrans|]. eapply framed_trans; [exact Hf|]. by eapply framed_sub. }
  destruct rs as [[]|e]; [by apply IH|by exists (Err None), (c', m')].
Qed.

Lemma dirent_parts_ok d entry : bytes_ok (name d) -> Forall bytes_ok (dirent_parts d entry).
Proof.
  intros Hn. unfold dirent_parts. apply Forall_app. split; [destruct entry; [apply Forall_singleton, as_slice_ok|constructor]|].
  rewrite <- app_comm_cons. apply Forall_cons. split; [apply as_slice_ok|]. apply Forall_cons. split; [done|].
  case_match; [|constructor]. apply Forall_singleton, Forall_replicate. by unfold fits.
Qed.

Lemma add_dirent_ok d max de entry k :
  bytes_ok (name de) -> sink_ok d k -> exists rs k', add_dirent max de entry k = Ret (rs, k') /\ sink_ok d k'.
Proof.
  intros Hn Hk. unfold add_dirent. case_match; [by do 2 eexists|]. case_match; [by do 2 eexists|].
  destruct (write_parts_ok d (dirent_parts de entry) k (dirent_parts_ok _ _ Hn) Hk) as (rs & k' & -> & ?).
  cbn [mbind outcome_bind]. by do 2 eexists.
Qed.

Lemma do_readdir_served q plus : header_apart w -> served q (inHeader_unique h) w m (do_readdir h r w plus (s, m)).
Proof.
  intros Ha. destruct (split_header_ok Ha) as (d & k & dd & dk & E & Ew & Hbk & Hbd & Hd & Hk & Hl).
  unfold do_readdir. eapply served_decodes; [by apply decodes_read_obj|assumption|intros [a r'] _].
  cbv beta iota. case_match; [serve|]. case_match; [serve|]. erewrite act_step; [|exact E].
  assert (sink_ok d (d, m)) as Hsk by (split_and!; [eauto|done|apply framed_refl]).
  assert (exists res f' k', (if plus
    then fs_readdirplus (ctx h) (nodeid h) (readIn_fh a) (readIn_size a) (readIn_offset a)
           (fun '(de, e) => add_dirent (readIn_size a) de (Some e)) (fs s) (d, m)
    else fs_readdir (ctx h) (nodeid h) (readIn_fh a) (readIn_size a) (readIn_offset a)
           (fun de => add_dirent (readIn_size a) de None) (fs s) (d, m)) = Ret (res, f', k') /\ sink_ok d k')
    as (res & f' & [c m'] & Er & Hsk').
  { destruct plus; [apply (wb_readdirplus _ Hwb)|apply (wb_readdir _ Hwb)]; try done.
    - intros [de e] k' Hde Hk'. by apply add_dirent_ok.
    - intros de k' Hde Hk'. by apply add_dirent_ok. }
  erewrite act_step; [|etrans; [exact (f_equal (mbind _) Er)|reflexivity]]. destruct Hsk' as (_ & _ & Hf). cbn [snd] in Hf.
  destruct res as [[]|e].
  - by eapply reply_sized_served.
  - by eapply reply_error_served_apart.
Qed.

(** The requests that have no reply, or only one that reports a failure. *)
Definition quiet (h : InHeader) : bool :=
  match opcode_of (inHeader_opcode h) with
  | Some (Forget | BatchForget | Interrupt | Destroy | Getlk | Setlk | Setlkw | Bmap | Poll | NotifyReply) => true
  | _ => false
  end.

(** The requests whose reply is written behind its header first. *)
Definition splits_reply (h : InHeader) : bool :=
  match opcode_of (inHeader_opcode h) with Some (Read | Readdir | Readdirplus) => true | _ => false end.

Lemma dispatch_served shm :
  4096 <= page_size < 2 ^ 32 -> header_apart w \/ splits_reply h = false -> served (quiet h) (inHeader_unique h) w m (dispatch shm h r w (s, m)).
Proof.
  intros Hp Ha. unfold dispatch, quiet. unfold splits_reply in Ha. destruct (opcode_of (inHeader_opcode h)) as [o|]; [|serve].
  destruct o; try (destruct Ha as [Ha|]; [|discriminate]);
    first [ by apply read_served | by apply do_readdir_served | by apply init_served | by apply forget_served
          | by apply batch_forget_served | by apply destroy_served | idtac ];
    unfold lookup, getattr, setattr, readlink, symlink, mknod, mkdir, unlink, rmdir, rename, rename2, do_rename, link,
      open, write, statfs, release, fsync, setxattr, getxattr, listxattr, removexattr, flush, opendir, releasedir,
      fsyncdir, getlk, setlk, setlkw, access, create, interrupt, bmap, ioctl, poll, notify_reply, fallocate, lseek,
      copyfilerange; serve.
  all: destruct shm; [first [unfold setupmapping|unfold removemapping]|]; serve.
Qed.
End handlers.

(** The reading of a structure at the front of a request. *)
Lemma read_obj_front A `{ByteValued A} s m r d :
  reader_ok m r -> contents m (buffers r) = Some d ->
  exists r', read_obj A r (s, m) = (if (size_of A <=? length d)%nat
    then Ret (Ok (from_slice (take (size_of A) d), r'), (s, m)) else Ret (Err (DecodeMessage None), (s, m))) /\
    ((size_of A <= length d)%nat -> reader_ok m r' /\ contents m (buffers r') = Some (drop (size_of A) d)).
Proof.
  intros (d' & Hs & Hc & Hb & Hl) Hd. rewrite Hd in Hc. injection Hc as <-.
  pose proof (read_obj_correct m r (size_of A) d Hs Hd Hb Hl) as Hr. unfold read_obj.
  destruct (Nat.leb_spec (size_of A) (length d)).
  - destruct Hr as (c' & E & Hc' & Hs' & Hb'). exists c'. rewrite E. split; [done|]. intros _. split; [|done].
    exists (drop (size_of A) d). rewrite length_drop. split_and!; [done..|lia|lia].
  - destruct Hr as (c' & E). exists c'. rewrite E. split; [done|lia].
Qed.

(** The header of a request. *)
Definition header_of (d : list byte) : InHeader := from_slice (take (size_of InHeader) d).

Lemma handle_message_served shm s m r w d :
  4096 <= page_size < 2 ^ 32 -> plain_options (options s) -> well_behaved (fs s) ->
  reader_ok m r -> contents m (buffers r) = Some d -> writer_ok m w -> header_apart w \/ splits_reply (header_of d) = false ->
  served (quiet (header_of d)) (inHeader_unique (header_of d)) w m (handle_message shm r w (s, m)).
Proof.
  intros Hp Ho Hwb Hr Hd Hw Ha. destruct (read_obj_front InHeader s m r d Hr Hd) as (r' & E & Hr').
  unfold handle_message. destruct (Nat.leb_spec (size_of InHeader) (length d)) as [Hle|Hgt].
  - erewrite act_step; [|exact E]. destruct (Hr' Hle) as [Hr2 _]. case_match; [serve|].
    by apply dispatch_served.
  - unfold mbind, act_bind. rewrite E. exists (Err (DecodeMessage None)), s, m. split_and!; [done..|apply framed_refl|done].
Qed.

(** C4. Serving a message.  From a request area in guest memory and a reply area
    in guest memory of which no byte is used twice, whatever the message says,
    the server does not panic, changes no memory outside the reply area, and
    either reports an error, or leaves in the reply area a reply that begins
    with a header holding the reply's length and the request's identifier; only
    the forgets, interrupts, destroy and the requests that report no more than
    failures (locks, bmap, poll, notify-reply) may be left without a reply.  A
    read or a listing, whose reply is written behind its header first, needs a
    reply area that has the header in buffers of its own.  A message shorter
    than a header is an error and changes nothing. *)
Theorem message_served shm s m r w d :
  4096 <= page_size < 2 ^ 32 -> plain_options (options s) -> well_behaved (fs s) ->
  reader_ok m r -> contents m (buffers r) = Some d -> writer_ok m w -> header_apart w \/ splits_reply (header_of d) = false ->
  served (quiet (header_of d)) (inHeader_unique (header_of d)) w m (handle_message shm r w (s, m)) /\
  ((length d < size_of InHeader)%nat -> handle_message shm r w (s, m) = Ret (Err (DecodeMessage None), (s, m))).
Proof.
  intros Hp Ho Hwb Hr Hd Hw Ha. split; [by apply handle_message_served|]. intros Hl.
  destruct (read_obj_front InHeader s m r d Hr Hd) as (r' & E & _). unfold handle_message, mbind, act_bind.
  rewrite (proj2 (Nat.leb_gt _ _) Hl) in E. by rewrite E.
Qed.

(** ** Names in requests *)

Lemma existsb_zero (l : list byte) : existsb (Z.eqb 0) l = false <-> 0 ∉ l.
Proof.
  induction l as [|x l IH]; [split; [intros _; apply not_elem_of_nil|done]|]. cbn [existsb]. rewrite orb_false_iff, IH, not_elem_of_cons.
  rewrite Z.eqb_neq. done.
Qed.

(** A C string is a name without zero bytes and its terminator. *)
Lemma bytes_to_cstr_spec buf n : bytes_to_cstr buf = Some n <-> buf = n ++ [0] /\ 0 ∉ n.
Proof.
  unfold bytes_to_cstr. destruct buf as [|x l _] using rev_ind; [split; [done|intros [E _]; by destruct n]|].
  rewrite rev_app_distr, removelast_last. cbn [rev app]. split.
  - destruct x; [|done..]. case_match eqn:E; [done|]. intros [= <-]. split; [done|]. by apply existsb_zero.
  - intros [E Hn]. apply app_inj_tail in E as [-> ->]. apply existsb_zero in Hn. by rewrite Hn.
Qed.

Lemma split_nul_spec n rest : 0 ∉ n -> split_nul (n ++ 0 :: rest) = (n ++ [0], rest).
Proof.
  induction n as [|x n IH]; intros Hn; [done|]. apply not_elem_of_cons in Hn as [Hx Hn]. cbn [app split_nul].
  destruct (x =? 0) eqn:E; [zify_bool; by destruct Hx|]. by rewrite IH.
Qed.

(** The rest of a request of known length, as [read_exact] reads it. *)
Lemma read_exact_front s m r d n :
  reader_ok m r -> contents m (buffers r) = Some d -> (n <= length d)%nat ->
  exists r', read_exact r (Z.of_nat n) (s, m) = Ret (Ok (take n d, r'), (s, m)).
Proof.
  intros (d' & Hs & Hc & Hb & Hl) Hd Hn. rewrite Hd in Hc. injection Hc as <-.
  pose proof (read_obj_correct m r n d Hs Hd Hb Hl) as Hr. destruct (Nat.leb_spec n (length d)); [|lia].
  destruct Hr as (r' & E & _). exists r'. unfold read_exact. rewrite Nat2Z.id, E. done.
Qed.

Lemma remaining_len_exact h size n st :
  inHeader_len h = Z.of_nat (size_of InHeader + size + n) -> remaining_len h size st = Ret (Ok (Z.of_nat n), st).
Proof.
  intros Hl. unfold remaining_len, need, lift, checked_sub. rewrite Hl. cbn [mbind outcome_bind].
  rewrite (proj2 (Z.leb_le _ _)) by lia. cbn [mbind option_bind]. rewrite (proj2 (Z.leb_le _ _)) by lia. cbn. do 3 f_equal. lia.
Qed.

Lemma to_cstr_ok n st : 0 ∉ n -> to_cstr (n ++ [0]) st = Ret (Ok n, st).
Proof. intros Hn. unfold to_cstr, need, lift. by rewrite (proj2 (bytes_to_cstr_spec _ _) (conj eq_refl Hn)). Qed.

(** The names of a rename request reach the file system. *)
Theorem rename_names s m h size newdir fl r w old new rest :
  reader_ok m r -> contents m (buffers r) = Some (old ++ 0 :: new ++ 0 :: rest) -> 0 ∉ old -> 0 ∉ new ->
  inHeader_len h = Z.of_nat (size_of InHeader + size + (length old + length new + 2)) ->
  do_rename h size newdir fl r w (s, m) =
  (res ← call (fs_rename (M := M) (ctx h) (inHeader_nodeid h) old newdir new fl); reply res no_payload h w) (s, m).
Proof.
  intros Hr Hd Ho Hn Hl. unfold do_rename. erewrite act_step; [|by apply remaining_len_exact].
  destruct (read_exact_front s m r _ (length old + length new + 2) Hr Hd) as [r' E].
  { repeat (rewrite length_app || cbn [length]). lia. }
  assert (take (length old + length new + 2) (old ++ 0 :: new ++ 0 :: rest) = old ++ 0 :: new ++ [0]) as Ht.
  { rewrite take_app_ge by lia. f_equal. replace (length old + length new + 2 - length old)%nat with (S (length new + 1)) by lia.
    cbn [take]. f_equal. rewrite take_app_ge by lia. f_equal. by replace (length new + 1 - length new)%nat with 1%nat by lia. }
  rewrite Ht in E. erewrite act_step; [|exact E]. cbv beta iota.
  assert (existsb (Z.eqb 0) (old ++ 0 :: new ++ [0]) = true) as Hz by (rewrite existsb_app; cbn; by rewrite orb_true_r).
  erewrite act_step; [|unfold split_at_nul, need, lift; rewrite Hz, split_nul_spec by done; reflexivity].
  cbv beta iota. rewrite (act_step _ _ _ _ _ (to_cstr_ok old _ Ho)), (act_step _ _ _ _ _ (to_cstr_ok new _ Hn)). done.
Qed.

(** Names that reach the file system are C strings: no request makes it see
    a name with a zero byte, or a name the request did not delimit. *)
Theorem read_name_faithful s m h r size d :
  reader_ok m r -> contents m (buffers r) = Some d ->
  exists res, read_name h r size (s, m) = Ret (res, (s, m)) /\
    forall n, res = Ok n -> 0 ∉ n /\ exists rest, d = n ++ 0 :: rest /\
      inHeader_len h = Z.of_nat (size_of InHeader + size + length n + 1).
Proof.
  intros Hr Hd. unfold read_name. unfold mbind at 1, act_bind at 1, remaining_len, need, lift. cbn [mbind outcome_bind].
  destruct (checked_sub (inHeader_len h) _) as [l1|] eqn:E1; cbn [mbind option_bind ok_or]; [|by eexists].
  destruct (checked_sub l1 _) as [l|] eqn:E2; cbn [ok_or]; [|by eexists].
  apply checked_sub_Some in E1 as [-> H1], E2 as [-> H2]. set (l := _ - _ - _) in *.
  assert (0 <= l) as Hl0 by lia. destruct (Nat.leb_spec (Z.to_nat l) (length d)) as [Hle|Hgt].
  - destruct (read_exact_front s m r d (Z.to_nat l) Hr Hd Hle) as [r' E]. rewrite Z2Nat.id in E by done.
    erewrite act_step; [|exact E]. unfold to_cstr, need, lift. cbn [mbind outcome_bind].
    destruct (bytes_to_cstr _) as [n|] eqn:En; cbn [ok_or]; [|by eexists]. eexists. split; [reflexivity|]. intros ? [= <-].
    apply bytes_to_cstr_spec in En as [En Hn]. split; [done|]. exists (drop (Z.to_nat l) d). split.
    + rewrite <- (take_drop (Z.to_nat l) d) at 1. by rewrite En, <- app_assoc.
    + apply (f_equal length) in En. rewrite length_take, length_app in En. cbn [length] in En. lia.
  - destruct Hr as (d' & Hs & Hc & Hb & Hlt). rewrite Hd in Hc. injection Hc as <-.
    pose proof (read_obj_correct m r (Z.to_nat l) d Hs Hd Hb Hlt) as Hro.
    destruct (Nat.leb_spec (Z.to_nat l) (length d)); [lia|]. destruct Hro as [r' E].
    unfold mbind, act_bind, read_exact. rewrite E. cbn. by eexists.
Qed.

(** An error reply in a writer with room for it. *)
Lemma reply_error_result s m w dw err u :
  room m w dw -> (16 <= length dw)%nat -> bytes_consumed w = 0 -> linux_errno_raw err = err ->
  exists m' rest, reply_error (linux_error (Some err)) u w (s, m) = Ret (Ok 16, (s, m')) /\ framed w m m' /\
    contents m' (buffers w) = Some (out_header 16 (wrap 32 (- err)) u ++ rest).
Proof.
  intros Hrw Hdw Hb He. unfold reply_error. change (default EIO (linux_error (Some err))) with (linux_errno_raw err).
  rewrite He. set (hd := as_slice _).
  destruct (write_obj_room m w hd dw Hrw (as_slice_ok _)) as (rs & c' & m' & Hw & Hf & Hc).
  assert (length hd = 16%nat) as Hlh by (unfold hd; by rewrite length_as_slice). rewrite Hlh in Hc.
  destruct (Nat.leb_spec 16 (length dw)); [|lia]. destruct Hc as (-> & Hc & _ & Hbc & _). rewrite Hb in Hbc.
  exists m', (drop 16 dw). split_and!; [|done..]. erewrite act_step; [|unfold write_all; rewrite Hw; reflexivity].
  rewrite Hbc. done.
Qed.

(** Requests the server rejects itself: the file system and the options
    are untouched, and the guest gets the error number. *)
Theorem rejected_untouched shm s m r w d dw e :
  reader_ok m r -> contents m (buffers r) = Some d -> (size_of InHeader <= length d)%nat ->
  room m w dw -> (16 <= length dw)%nat -> bytes_consumed w = 0 ->
  let h := from_slice (take (size_of InHeader) d) in
  MAX_BUFFER_SIZE + BUFFER_HEADER_SIZE < inHeader_len h /\ e = ENOMEM \/
  inHeader_len h <= MAX_BUFFER_SIZE + BUFFER_HEADER_SIZE /\ opcode_of (inHeader_opcode h) = None /\ e = ENOSYS ->
  exists m' rest, handle_message shm r w (s, m) = Ret (Ok 16, (s, m')) /\ framed w m m' /\
    contents m' (buffers w) = Some (out_header 16 (wrap 32 (- e)) (inHeader_unique h) ++ rest).
Proof.
  intros Hr Hd Hle Hrw Hdw Hb h Hcase. destruct (read_obj_front InHeader s m r d Hr Hd) as (r' & E & _).
  unfold handle_message. destruct (Nat.leb_spec (size_of InHeader) (length d)) as [_|]; [|lia].
  erewrite act_step; [|exact E]. cbv beta iota. fold h.
  destruct Hcase as [[Hlen ->]|(Hlen & Hop & ->)].
  - rewrite (proj2 (Z.ltb_lt _ _)) by done. unfold oversized. exact (reply_error_result s m w dw ENOMEM _ Hrw Hdw Hb eq_refl).
  - rewrite (proj2 (Z.ltb_ge _ _)) by done. unfold dispatch. rewrite Hop. unfold unknown.
    exact (reply_error_result s m w dw ENOSYS _ Hrw Hdw Hb eq_refl).
Qed.

(** A read whose chain has no writable part is not an error of the message
    but the end of the server's thread. *)
Lemma empty_writer_panics b st : split_header (mkConsumer [] b) st = Panic.
Proof. done. Qed.

(** ** Directory entries

    A reader takes an entry apart by its own [namelen] and steps to the next
    multiple of eight. *)

Definition dirent_bytes (d : DirEntry) : list byte := concat (dirent_parts d None).

Fixpoint parse_dirents (fuel : nat) (bs : list byte) : list DirEntry :=
  match bs, fuel with
  | [], _ | _, O => []
  | _, S fuel =>
      let h : Dirent := from_slice (take (size_of Dirent) bs) in
      let n := Z.to_nat (dirent_namelen h) in
      mkDirEntry (dirent_ino h) (dirent_off h) (dirent_type h) (take n (drop (size_of Dirent) bs)) ::
      parse_dirents fuel (drop (8 * ((size_of Dirent + n + 7) / 8)) bs)
  end.

(** The fields of an entry have their widths. *)
Definition dirent_ok (d : DirEntry) : Prop :=
  fits 64 (ino d) /\ fits 64 (offset d) /\ fits 32 (type_ d) /\ fits 32 (Zlength (name d)) /\ bytes_ok (name d).

Lemma padded_spec l : 0 <= l < 2 ^ 63 -> padded l = (l + 7) / 8 * 8 /\ l <= padded l < l + 8.
Proof.
  intros Hl. unfold padded. rewrite land_bnot by (unfold fits; lia).
  assert (Z.ldiff (l + 7) (Z.ones 3) = (l + 7) / 8 * 8) as E.
  { rewrite Z.ldiff_ones_r, Z.shiftl_mul_pow2, Z.shiftr_div_pow2 by lia. done. }
  change (Z.ones 3) with 7 in E. rewrite E. split; [done|].
  pose proof (Z.div_mod (l + 7) 8 ltac:(lia)). pose proof (Z.mod_pos_bound (l + 7) 8 ltac:(lia)). lia.
Qed.

Lemma dirent_bytes_spec d :
  fits 32 (Zlength (name d)) ->
  exists pad, dirent_bytes d = as_slice (mkDirent (ino d) (offset d) (Zlength (name d)) (type_ d)) ++ name d ++ pad /\
    Zlength (dirent_bytes d) = padded (dirent_len d).
Proof.
  intros Hn. unfold dirent_bytes, dirent_parts. rewrite (wrap_small 32) by done. cbn [app concat].
  assert (0 <= dirent_len d < 2 ^ 63) as Hl by (unfold dirent_len, fits in *; cbn; lia).
  pose proof (padded_spec _ Hl) as [_ Hp]. set (pad := padded _ - dirent_len d) in *.
  exists (replicate (Z.to_nat pad) 0).
  assert (dirent_len d = 24 + Zlength (name d)) as Hd by (unfold dirent_len; cbn; lia).
  destruct (0 <? pad) eqn:E; zify_bool; cbn [concat]; rewrite ?app_nil_r.
  - split; [done|]. rewrite !length_app, length_as_slice, length_replicate. change (size_of Dirent) with 24%nat. lia.
  - replace pad with 0 by lia. split; [by rewrite app_nil_r|]. rewrite !length_app, length_as_slice.
    change (size_of Dirent) with 24%nat. lia.
Qed.

Lemma parse_dirents_S fuel bs hd :
  bs <> [] -> from_slice (take (size_of Dirent) bs) = hd ->
  parse_dirents (S fuel) bs =
    mkDirEntry (dirent_ino hd) (dirent_off hd) (dirent_type hd) (take (Z.to_nat (dirent_namelen hd)) (drop (size_of Dirent) bs)) ::
    parse_dirents fuel (drop (8 * ((size_of Dirent + Z.to_nat (dirent_namelen hd) + 7) / 8)) bs).
Proof. intros Hne <-. by destruct bs. Qed.

(** Entries written one after the other parse back. *)
Lemma parse_dirents_concat ds fuel :
  Forall dirent_ok ds -> (length ds <= fuel)%nat -> parse_dirents fuel (concat (map dirent_bytes ds)) = ds.
Proof.
  intros Hok. revert fuel. induction Hok as [|d ds (Hi & Hoff & Ht & Hn & Hb) Hok IH]; intros fuel Hf; [by destruct fuel|].
  destruct fuel as [|fuel]; [cbn in Hf; lia|]. cbn [map concat].
  destruct (dirent_bytes_spec d Hn) as (pad & E & Hl). set (hd := mkDirent _ _ _ _) in E.
  assert (length (as_slice hd) = size_of Dirent) as Hlh by by rewrite length_as_slice.
  rewrite (parse_dirents_S _ _ hd).
  - cbn [hd dirent_ino dirent_off dirent_type dirent_namelen]. rewrite Nat2Z.id. f_equal.
    + rewrite E, <- app_assoc, drop_app_length', <- app_assoc, take_app_length by done. by destruct d.
    + rewrite drop_app_length'; [apply IH; cbn in Hf; lia|]. apply Nat2Z.inj. rewrite Hl.
      rewrite (proj1 (padded_spec (dirent_len d) ltac:(unfold dirent_len, fits in *; cbn; lia))). unfold dirent_len.
      rewrite Nat2Z.inj_mul, Nat2Z.inj_div, !Nat2Z.inj_add. rewrite Z.mul_comm. done.
  - intros Hnil. apply (f_equal length) in Hnil. rewrite E, !length_app, Hlh in Hnil. cbn in Hnil. lia.
  - rewrite E, <- app_assoc, take_app_length', <- (app_nil_r (as_slice hd)) by done. apply from_as_slice. unfold in_range. cbn.
    do 4 (apply Forall2_cons_2; [done|]). constructor.
Qed.

(** A file system that offers its entries in order until one is refused. *)
Fixpoint offer (max : Z) (ds : list DirEntry) (k : Sink M) : outcome (result IoErr unit * Sink M) :=
  match ds with
  | [] => Ret (Ok tt, k)
  | d :: ds =>
      '(r, k) ← add_dirent max d None k;
      match r with
      | Ok n => if n =? 0 then Ret (Ok tt, k) else offer max ds k
      | Err e => Ret (Err e, k)
      end
  end.

(** The parts of an entry, after what is written already. *)
Lemma write_parts_step w (fin : list byte) parts k :
  slices_ok (buffers w) -> NoDup (flat (buffers w)) -> write_step w fin k.2 k.1 -> Forall bytes_ok parts ->
  (exists dw, contents k.2 (buffers w) = Some dw /\ (length fin + length (concat parts) <= length dw)%nat) -> F ->
  exists k', write_parts parts k = Ret (Ok tt, k') /\ write_step w (fin ++ concat parts) k'.2 k'.1 /\ framed w k.2 k'.2.
Proof.
  intros Hs Hnd Hst Hp Hd f. revert fin k Hst Hd. induction Hp as [|bs parts Hb Hp IH]; intros fin [c m] Hst (dw & Hdw & Hle).
  { exists (c, m). cbn. rewrite app_nil_r. done. }
  cbn [write_parts fst snd concat] in *. rewrite length_app in Hle.
  destruct (write_step_next (mkServer f 0) m w fin c bs Hs Hnd Hst Hb) as (r & m' & Hw & Hf & Hok).
  assert (exists c', write_obj m c bs = Ret (Ok tt, c', m') /\ r = Ok c') as (c' & Hwo & ->).
  { destruct Hst as (d & rest & Hr & Hfl & Hbc & Hc). destruct (write_obj_room m c bs d Hr Hb) as (r2 & c2 & m2 & E & _ & Hcase).
    assert (length bs <= length d)%nat as Hbd.
    { pose proof (contents_length _ _ _ (proj1 Hs) Hdw). pose proof (length_flat _ (proj1 Hs)).
      destruct Hr as [[Hs' _] _ Hc' _]. pose proof (contents_length _ _ _ Hs' Hc'). pose proof (length_flat _ Hs') as Hlf.
      rewrite Hfl, length_drop in Hlf. lia. }
    destruct (Nat.leb_spec (length bs) (length d)); [|lia]. destruct Hcase as (-> & _). exists c2.
    unfold write_all in Hw. rewrite E in Hw. by injection Hw as <- <-. }
  rewrite Hwo. cbn [mbind outcome_bind]. specialize (Hok c' eq_refl).
  destruct Hok as (d' & rest' & Hr' & Hfl' & Hbc' & Hc').
  destruct (IH (fin ++ bs) (c', m')) as (k' & -> & Hst' & Hf').
  - by exists d', rest'.
  - eexists. split; [exact Hc'|]. apply contents_length in Hc' as Hl'; [|apply Hs].
    apply contents_length in Hdw; [|apply Hs]. rewrite !length_app in *. lia.
  - exists k'. rewrite app_assoc. split_and!; [done..|by eapply framed_trans].
Qed.

(** An entry that fits is appended; one that does not changes nothing. *)
Lemma add_dirent_step w (fin : list byte) max d k :
  F -> slices_ok (buffers w) -> NoDup (flat (buffers w)) -> dirent_ok d -> write_step w fin k.2 k.1 ->
  (exists dw, contents k.2 (buffers w) = Some dw /\ max <= Zlength dw) ->
  if max <? Zlength fin + Zlength (dirent_bytes d) then add_dirent max d None k = Ret (Ok 0, k)
  else exists k', add_dirent max d None k = Ret (Ok (Zlength (dirent_bytes d)), k') /\
    write_step w (fin ++ dirent_bytes d) k'.2 k'.1 /\ framed w k.2 k'.2.
Proof.
  intros f Hs Hnd (Hi & Hoff & Ht & Hn & Hb) Hst (dw & Hdw & Hmax).
  destruct (dirent_bytes_spec d Hn) as (pad & E & Hl). unfold add_dirent.
  assert (Zlength (name d) <= 2 ^ 32 - 1) as Hn2 by (unfold fits in Hn; lia). rewrite (proj2 (Z.ltb_ge _ _) Hn2).
  cbn [entry_len]. rewrite Z.add_0_r, <- Hl. pose proof Hst as (? & ? & ? & ? & Hbc & ?). rewrite Hbc.
  assert (0 < Zlength (dirent_bytes d)) as Hpos by (rewrite E, !length_app, length_as_slice; change (size_of Dirent) with 24%nat; lia).
  destruct (max <? _) eqn:Ec; zify_bool.
  - by rewrite (proj2 (Z.ltb_lt _ _)) by lia.
  - rewrite (proj2 (Z.ltb_ge _ _)) by lia.
    destruct (write_parts_step w fin (dirent_parts d None) k Hs Hnd Hst (dirent_parts_ok _ _ Hb)) as (k' & -> & Hst' & Hf); [|exact f|].
    { exists dw. split; [done|]. fold (dirent_bytes d). lia. }
    exists k'. cbn [mbind outcome_bind]. by rewrite Hl.
Qed.

Lemma offer_step w max ds fin k :
  F -> slices_ok (buffers w) -> NoDup (flat (buffers w)) -> Forall dirent_ok ds -> max <= total (buffers w) ->
  write_step w fin k.2 k.1 -> Zlength fin <= max ->
  exists ds1 ds2 k', offer max ds k = Ret (Ok tt, k') /\ ds = ds1 ++ ds2 /\ framed w k.2 k'.2 /\
    write_step w (fin ++ concat (map dirent_bytes ds1)) k'.2 k'.1 /\
    Zlength (fin ++ concat (map dirent_bytes ds1)) <= max /\
    forall d, head ds2 = Some d -> max < Zlength (fin ++ concat (map dirent_bytes ds1)) + Zlength (dirent_bytes d).
Proof.
  intros f Hs Hnd Hok Hmax. revert fin k. induction Hok as [|d ds Hd Hok IH]; intros fin k Hst Hfin.
  { exists [], [], k. cbn [map concat]. rewrite !app_nil_r. split_and!; done || apply framed_refl. }
  pose proof (add_dirent_step w fin max d k f Hs Hnd Hd Hst) as Hstep. cbn [offer].
  destruct (max <? _) eqn:Ec.
  - rewrite Hstep.
    + cbn [mbind outcome_bind Z.eqb]. exists [], (d :: ds), k. cbn [map concat app]. rewrite !app_nil_r.
      split_and!; [done|done|apply framed_refl|done|done|]. intros ? [= <-]. by zify_bool.
    + destruct Hst as (? & ? & ? & ? & ? & Hc). eexists. split; [exact Hc|]. by rewrite (contents_length _ _ _ (proj1 Hs) Hc).
  - destruct Hstep as (k1 & -> & Hst1 & Hf1).
    { destruct Hst as (? & ? & ? & ? & ? & Hc). eexists. split; [exact Hc|]. by rewrite (contents_length _ _ _ (proj1 Hs) Hc). }
    destruct (dirent_bytes_spec d) as (pad & E & _); [apply Hd|].
    assert (0 < Zlength (dirent_bytes d)) as Hpos by (rewrite E, !length_app, length_as_slice; change (size_of Dirent) with 24%nat; lia).
    cbn [mbind outcome_bind]. rewrite (proj2 (Z.eqb_neq _ _)) by lia. zify_bool.
    destruct (IH (fin ++ dirent_bytes d) k1 Hst1) as (ds1 & ds2 & k' & -> & -> & Hf & Hst' & Hb & Hh); [rewrite length_app; lia|].
    rewrite <- app_assoc in Hst', Hb, Hh. exists (d :: ds1), ds2, k'. split_and!; [done..| |done|done|done].
    by eapply framed_trans.
Qed.

(** C5. A directory listing: the entries written are a prefix of those offered,
    as many as fit in the size the guest asked for, and parse back to it. *)
Theorem listing_roundtrip w m dw max ds :
  F -> room m w dw -> bytes_consumed w = 0 -> 0 <= max <= Zlength dw -> Forall dirent_ok ds ->
  exists ds1 ds2 w' m' bs rest, offer max ds (w, m) = Ret (Ok tt, (w', m')) /\ framed w m m' /\
    contents m' (buffers w) = Some (bs ++ rest) /\ bytes_consumed w' = Zlength bs /\ Zlength bs <= max /\
    ds = ds1 ++ ds2 /\ parse_dirents (length ds1) bs = ds1 /\
    forall d, head ds2 = Some d -> max < Zlength bs + Zlength (dirent_bytes d).
Proof.
  intros f Hr Hb Hmax Hok. pose proof (contents_length _ _ _ (proj1 (room_slices _ _ _ Hr)) (room_contents _ _ _ Hr)) as Hl.
  destruct (offer_step w max ds [] (w, m) f (room_slices _ _ _ Hr) (room_nodup _ _ _ Hr) Hok) as (ds1 & ds2 & [w' m'] & E & -> & Hf & Hst & Hle & Hh);
    [lia|by eapply write_step_start|cbn; lia|].
  destruct Hst as (d & rest & _ & _ & Hbc & Hc). exists ds1, ds2, w', m', (concat (map dirent_bytes ds1)), rest.
  split_and!; try done. apply parse_dirents_concat; [by apply Forall_app in Hok as [? _]|done].
Qed.
End server.

(** ** Instances

    A file system of default methods over a flat memory. *)

#[local] Instance demo_fs : FileSystem unit FlatMem := {
  fs_init _ f := Ret (Ok 0, f);
  fs_destroy f := Ret f;
  fs_lookup _ _ _ := default_enosys;
  fs_forget _ _ _ f := Ret f;
  fs_batch_forget c := default_batch_forget (fun _ _ _ f => Ret f) c;
  fs_getattr _ _ _ := default_enosys;
  fs_setattr _ _ _ _ _ := default_enosys;
  fs_readlink _ _ := default_enosys;
  fs_symlink _ _ _ _ _ := default_enosys;
  fs_mknod _ _ _ _ _ _ _ := default_enosys;
  fs_mkdir _ _ _ _ _ _ := default_enosys;
  fs_unlink _ _ _ := default_enosys;
  fs_rmdir _ _ _ := default_enosys;
  fs_rename _ _ _ _ _ _ f := Ret (Ok tt, f);
  fs_link _ _ _ _ := default_enosys;
  fs_open _ _ _ := default_open;
  fs_create _ _ _ _ _ _ _ := default_enosys;
  fs_read _ _ _ _ _ _ _ _ f m := Ret (Err (Some LINUX_ENOSYS), f, m);
  fs_write _ _ _ _ _ _ _ _ _ _ _ := default_enosys;
  fs_flush _ _ _ _ := default_enosys;
  fs_fsync _ _ _ _ := default_enosys;
  fs_fallocate _ _ _ _ _ _ := default_enosys;
  fs_release _ _ _ _ _ _ _ := default_enosys;
  fs_statfs _ _ := default_statfs;
  fs_setxattr _ _ _ _ _ := default_enosys;
  fs_getxattr _ _ _ _ := default_enosys;
  fs_listxattr _ _ _ := default_enosys;
  fs_removexattr _ _ _ := default_enosys;
  fs_opendir _ _ _ := default_open;
  fs_readdir _ _ _ _ _ _ f k := Ret (Err (Some LINUX_ENOSYS), f, k);
  fs_readdirplus _ _ _ _ _ _ f k := Ret (Err (Some LINUX_ENOSYS), f, k);
  fs_fsyncdir _ _ _ _ := default_enosys;
  fs_releasedir _ _ _ _ := default_enosys;
  fs_access _ _ _ := default_enosys;
  fs_lseek _ _ _ _ _ := default_enosys;
  fs_copyfilerange _ _ _ _ _ _ _ _ _ := default_enosys;
  fs_setupmapping _ _ _ _ _ _ _ _ _ := default_enosys;
  fs_removemapping _ _ _ _ := default_enosys;
  fs_ioctl _ _ _ _ _ _ _ _ := default_enosys;
  fs_getlk := default_enosys;
  fs_setlk := default_enosys;
  fs_setlkw := default_enosys;
  fs_bmap := default_enosys;
  fs_poll := default_enosys;
  fs_notify_reply := default_enosys;
}.

Lemma demo_fs_well_behaved : well_behaved (F := unit) (M := FlatMem) tt.
Proof.
  constructor; try (intros; unfold returns; cbn; discriminate); try (intros; eexists _, _; split; [reflexivity|discriminate]).
  - intros c. eexists _, _. split; [reflexivity|]. by intros ? [= <-].
  - intros c l. cbn. induction l as [|[i n] l IH]; [discriminate|exact IH].
  - intros. eexists _, _, _. split; [reflexivity|apply framed_refl].
  - intros c i h sz off I cb k _ Hk. by eexists _, _, _.
  - intros c i h sz off I cb k _ Hk. by eexists _, _, _.
Qed.

(** A request of [op] with [body] at address 0, and a reply area of a header
    and 64 bytes at 0x80. *)
Definition demo_request (op : Z) (body : list byte) : list byte :=
  as_slice (mkInHeader (40 + Zlength body) op 7 1 0 0 0 0) ++ body.

Definition demo_mem (op : Z) (body : list byte) : FlatMem :=
  mkFlat 0 (demo_request op body ++ replicate (256 - length (demo_request op body)) 0).

Definition demo_reader (from len : Z) : DescriptorChainConsumer := mkConsumer [DescUtils.mkVS from len] 0.
Definition demo_writer : DescriptorChainConsumer := mkConsumer [DescUtils.mkVS 0x80 16; DescUtils.mkVS 0x90 64] 0.
Definition demo_data : DescriptorChainConsumer := mkConsumer [DescUtils.mkVS 0x90 64] 0.
Definition demo_server : @Server unit := mkServer tt 0.

Lemma message_served_witness :
  let m := demo_mem 1 [97; 0] in
  exists d, contents m (buffers (demo_reader 0 42)) = Some d /\
    inHeader_unique (from_slice (take (size_of InHeader) d)) = 7 /\
    served false 7 demo_writer m (handle_message 4096 None (demo_reader 0 42) demo_writer (demo_server, m)).
Proof.
  intros m. exists (demo_request 1 [97; 0]). split; [reflexivity|]. split; [reflexivity|].
  refine (proj1 (message_served 4096 None demo_server m (demo_reader 0 42) demo_writer (demo_request 1 [97; 0]) _ _ demo_fs_well_behaved _ _ _ _)).
  - lia.
  - split; reflexivity.
  - eexists. split; [apply DescUtils.slices_ok_demo; reflexivity|]. split; [reflexivity|]. vm_compute. by split.
  - reflexivity.
  - split; [|reflexivity]. eexists. split; [apply DescUtils.slices_ok_demo; reflexivity|apply (bool_decide_unpack _); vm_compute; exact I|vm_compute; reflexivity|vm_compute; by split].
  - left. exists 1%nat. reflexivity.
Defined.

#[local] Existing Instance act_bind.

(** A rename of [a] to [b]; the reader is behind the header and [RenameIn]. *)
Lemma rename_names_witness :
  let m := demo_mem 12 (as_slice (mkRenameIn 9) ++ [97; 0; 98; 0]) in
  do_rename (mkInHeader 52 12 7 1 0 0 0 0) (size_of RenameIn) 9 0 (demo_reader 48 4) demo_writer (demo_server, m) =
  (res ← call (fs_rename (M := FlatMem) (mkContext 0 0 0) 1 [97] 9 [98] 0);
   reply res no_payload (mkInHeader 52 12 7 1 0 0 0 0) demo_writer) (demo_server, m).
Proof.
  intros m. refine (rename_names demo_server m (mkInHeader 52 12 7 1 0 0 0 0) (size_of RenameIn) 9 0 (demo_reader 48 4) demo_writer [97] [98] [] _ _ _ _ _).
  - eexists. split; [apply DescUtils.slices_ok_demo; reflexivity|]. split; [reflexivity|]. vm_compute. by split.
  - reflexivity.
  - apply (bool_decide_unpack _). vm_compute. exact I.
  - apply (bool_decide_unpack _). vm_compute. exact I.
  - reflexivity.
Defined.

Lemma read_name_faithful_witness :
  let m := demo_mem 10 [97; 0] in
  exists res, read_name (mkInHeader 42 10 7 1 0 0 0 0) (demo_reader 40 2) 0 (demo_server, m) = Ret (res, (demo_server, m)) /\
    forall n, res = Ok n -> 0 ∉ n /\ exists rest, [97; 0] = n ++ 0 :: rest /\ 42 = 40 + Zlength n + 1.
Proof.
  intros m. destruct (read_name_faithful demo_server m (mkInHeader 42 10 7 1 0 0 0 0) (demo_reader 40 2) 0 [97; 0]) as (res & E & Hn).
  - eexists. split; [apply DescUtils.slices_ok_demo; reflexivity|]. split; [reflexivity|]. vm_compute. by split.
  - reflexivity.
  - exists res. split; [exact E|]. intros n En. destruct (Hn n En) as (H0 & rest & Hd & Hl). split; [exact H0|].
    exists rest. split; [exact Hd|]. cbn in Hl. lia.
Defined.

(** Operation 7 does not exist. *)
Lemma rejected_untouched_witness :
  let m := demo_mem 7 [] in
  exists m' rest, handle_message 4096 None (demo_reader 0 40) demo_writer (demo_server, m) = Ret (Ok 16, (demo_server, m')) /\
    contents m' (buffers demo_writer) = Some (out_header 16 (2 ^ 32 - 38) 7 ++ rest).
Proof.
  intros m.
  destruct (rejected_untouched 4096 None demo_server m (demo_reader 0 40) demo_writer (demo_request 7 []) (replicate 80 0) 38)
    as (m' & rest & E & _ & Hc).
  - eexists. split; [apply DescUtils.slices_ok_demo; reflexivity|]. split; [reflexivity|]. vm_compute. by split.
  - reflexivity.
  - vm_compute. lia.
  - split; [apply DescUtils.slices_ok_demo; reflexivity|apply (bool_decide_unpack _); vm_compute; exact I|vm_compute; reflexivity|vm_compute; by split].
  - vm_compute. lia.
  - reflexivity.
  - right. split; [vm_compute; discriminate|]. split; reflexivity.
  - exists m', rest. split; [exact E|exact Hc].
Defined.

Lemma listing_roundtrip_witness :
  exists ds1 ds2 w' m' bs rest,
    offer 64 [mkDirEntry 5 1 8 [97; 98]; mkDirEntry 6 2 4 [99]; mkDirEntry 7 3 4 [100]] (demo_data, demo_mem 28 [])
    = Ret (Ok tt, (w', m')) /\
    contents m' (buffers demo_data) = Some (bs ++ rest) /\ Zlength bs <= 64 /\ parse_dirents (length ds1) bs = ds1 /\
    [mkDirEntry 5 1 8 [97; 98]; mkDirEntry 6 2 4 [99]; mkDirEntry 7 3 4 [100]] = ds1 ++ ds2.
Proof.
  destruct (listing_roundtrip (F := unit) demo_data (demo_mem 28 []) (replicate 64 0) 64
    [mkDirEntry 5 1 8 [97; 98]; mkDirEntry 6 2 4 [99]; mkDirEntry 7 3 4 [100]] tt)
    as (ds1 & ds2 & w' & m' & bs & rest & E & _ & Hc & _ & Hl & Hds & Hp & _).
  - split; [apply DescUtils.slices_ok_demo; reflexivity|apply (bool_decide_unpack _); vm_compute; exact I|vm_compute; reflexivity|vm_compute; by split].
  - reflexivity.
  - rewrite length_replicate. lia.
  - repeat constructor; vm_compute; congruence.
  - exists ds1, ds2, w', m', bs, rest. auto.
Defined.
End FsServer.
