(* ===== verification/FsInvariant.v ===== *)
(** * Invariants of a file system behind the message layer

    A request reaches the file system through one handler of [FsServer], which
    calls one method.  Hence a predicate every method keeps is kept by every
    message, and by every sequence of messages, whatever the guest writes into
    its memory before, between and after them. *)

From S2P Require Import Prelude Format GuestMem DescUtils Mmio FuseAbi FsServer.

Module FsInvariant.
Import FuseAbi FsServer.

Section invariant.
Context {F M : Type} `{GuestMemory M} {FS : FileSystem F M} (page_size : Z) (I : F -> Prop).

#[local] Existing Instance FsServer.act_ret.
#[local] Existing Instance FsServer.act_bind.

Definition keeps_io {A} (m : io F A) : Prop := forall f r f', I f -> m f = Ret (r, f') -> I f'.

Definition keeps_quiet (m : F -> outcome F) : Prop := forall f f', I f -> m f = Ret f' -> I f'.

Definition keeps_readdir {A} (m : callback M A -> F -> Sink M -> outcome (result IoErr unit * F * Sink M)) : Prop :=
  forall cb f k r f' k', I f -> m cb f k = Ret (r, f', k') -> I f'.

Record respects : Prop := {
  keep_init n : keeps_io (fs_init (M := M) n);
  keep_destroy : keeps_quiet (fs_destroy (M := M));
  keep_lookup c p n : keeps_io (fs_lookup (M := M) c p n);
  keep_forget c i n : keeps_quiet (fs_forget (M := M) c i n);
  keep_batch_forget c l : keeps_quiet (fs_batch_forget (M := M) c l);
  keep_getattr c i h : keeps_io (fs_getattr (M := M) c i h);
  keep_setattr c i a h v : keeps_io (fs_setattr (M := M) c i a h v);
  keep_readlink c i : keeps_io (fs_readlink (M := M) c i);
  keep_symlink c l p n e : keeps_io (fs_symlink (M := M) c l p n e);
  keep_mknod c p n m d u e : keeps_io (fs_mknod (M := M) c p n m d u e);
  keep_mkdir c p n m u e : keeps_io (fs_mkdir (M := M) c p n m u e);
  keep_unlink c p n : keeps_io (fs_unlink (M := M) c p n);
  keep_rmdir c p n : keeps_io (fs_rmdir (M := M) c p n);
  keep_rename c p n q o fl : keeps_io (fs_rename (M := M) c p n q o fl);
  keep_link c i p n : keeps_io (fs_link (M := M) c i p n);
  keep_open c i fl : keeps_io (fs_open (M := M) c i fl);
  keep_create c p n m fl u e : keeps_io (fs_create (M := M) c p n m fl u e);
  keep_read c i h w n off o fl f m r f' m' : I f -> fs_read (M := M) c i h w n off o fl f m = Ret (r, f', m') -> I f';
  keep_write m c i h r n off o d k fl : keeps_io (fs_write (M := M) m c i h r n off o d k fl);
  keep_flush c i h o : keeps_io (fs_flush (M := M) c i h o);
  keep_fsync c i d h : keeps_io (fs_fsync (M := M) c i d h);
  keep_fallocate c i h m o l : keeps_io (fs_fallocate (M := M) c i h m o l);
  keep_release c i fl h f u o : keeps_io (fs_release (M := M) c i fl h f u o);
  keep_statfs c i : keeps_io (fs_statfs (M := M) c i);
  keep_setxattr c i n v fl : keeps_io (fs_setxattr (M := M) c i n v fl);
  keep_getxattr c i n s : keeps_io (fs_getxattr (M := M) c i n s);
  keep_listxattr c i s : keeps_io (fs_listxattr (M := M) c i s);
  keep_removexattr c i n : keeps_io (fs_removexattr (M := M) c i n);
  keep_opendir c i fl : keeps_io (fs_opendir (M := M) c i fl);
  keep_readdir c i h n off : keeps_readdir (fs_readdir (M := M) c i h n off);
  keep_readdirplus c i h n off : keeps_readdir (fs_readdirplus (M := M) c i h n off);
  keep_fsyncdir c i d h : keeps_io (fs_fsyncdir (M := M) c i d h);
  keep_releasedir c i fl h : keeps_io (fs_releasedir (M := M) c i fl h);
  keep_access c i m : keeps_io (fs_access (M := M) c i m);
  keep_lseek c i h o w : keeps_io (fs_lseek (M := M) c i h o w);
  keep_copyfilerange c i h o i' h' o' l fl : keeps_io (fs_copyfilerange (M := M) c i h o i' h' o' l fl);
  keep_removemapping c l b s : keeps_io (fs_removemapping (M := M) c l b s);
  keep_ioctl c i h fl cm a s o : keeps_io (fs_ioctl (M := M) c i h fl cm a s o);
  keep_getlk : keeps_io (fs_getlk (M := M));
  keep_setlk : keeps_io (fs_setlk (M := M));
  keep_setlkw : keeps_io (fs_setlkw (M := M));
  keep_bmap : keeps_io (fs_bmap (M := M));
  keep_poll : keeps_io (fs_poll (M := M));
  keep_notify_reply : keeps_io (fs_notify_reply (M := M));
}.

(** ** Handlers *)

Abbreviation St := (@Server F * M)%type.

Definition keeps {A} (x : act A) : Prop := forall (s : St) r (s' : St), I (fs (fst s)) -> x s = Ret (r, s') -> I (fs (fst s')).

Lemma keeps_mret {A} (a : A) : keeps (mret a).
Proof. by intros s r s' Hs [= _ <-]. Qed.

Lemma keeps_bind {A B} (x : act A) (f : A -> act B) : keeps x -> (forall a, keeps (f a)) -> keeps (x ≫= f).
Proof.
  intros Hx Hf s r s' Hs. unfold mbind, act_bind. destruct (x s) as [[[a|e] s1]|] eqn:E; [| |done].
  - apply Hf. by apply (Hx _ _ _ Hs E).
  - intros [= _ <-]. by apply (Hx _ _ _ Hs E).
Qed.

Lemma keeps_throw {A} e : keeps (throw e : act A).
Proof. by intros s r s' Hs [= _ <-]. Qed.

Lemma keeps_panic {A} : keeps ((fun _ => Panic) : act A).
Proof. by intros s r s'. Qed.

Lemma keeps_lift {A} (m : fallible FsError A) : keeps (lift m).
Proof. intros s r s' Hs. unfold lift. destruct m; [|done]. by intros [= _ <-]. Qed.

Lemma keeps_get_options : keeps get_options.
Proof. by intros s r s' Hs [= _ <-]. Qed.

Lemma keeps_store_options n : keeps (store_options n).
Proof. by intros [s m] r s' Hs [= _ <-]. Qed.

Lemma keeps_max_pages : keeps (max_pages page_size).
Proof. intros s r s' Hs. unfold max_pages. case_match; [|done]. by intros [= _ <-]. Qed.

Lemma keeps_call {A} (m : io F A) : keeps_io m -> keeps (call m).
Proof. intros Hm [s mem] r s' Hs. cbn. destruct (m (fs s)) as [[a f]|] eqn:E; [|done]. intros [= _ <-]. by apply (Hm _ _ _ Hs E). Qed.

Lemma keeps_call_quiet m : keeps_quiet m -> keeps (call_quiet m).
Proof. intros Hm [s mem] r s' Hs. cbn. destruct (m (fs s)) as [f|] eqn:E; [|done]. intros [= _ <-]. by apply (Hm _ _ Hs E). Qed.

Lemma keeps_read_obj A `{ByteValued A} r : keeps (read_obj A r).
Proof. intros [s mem] x s' Hs. cbn. destruct (DescUtils.read_obj _ _ _) as [[]|]; [|done]. by intros [= _ <-]. Qed.

Lemma keeps_read_exact r n : keeps (read_exact r n).
Proof. intros [s mem] x s' Hs. cbn. destruct (DescUtils.read_obj _ _ _) as [[]|]; [|done]. by intros [= _ <-]. Qed.

Lemma keeps_write_all w bs : keeps (write_all w bs).
Proof. intros [s mem] x s' Hs. cbn. destruct (DescUtils.write_obj _ _ _) as [[[]]|]; [|done]. by intros [= _ <-]. Qed.

Lemma keeps_split_header w : keeps (split_header w).
Proof. intros s x s' Hs. unfold split_header. destruct (DescUtils.split_at _ _) as [[[] ?]|]; [|done..]. by intros [= _ <-]. Qed.

#[local] Hint Resolve keeps_mret keeps_throw keeps_panic keeps_lift keeps_get_options keeps_store_options keeps_max_pages
  keeps_read_obj keeps_read_exact keeps_write_all keeps_split_header : keeps.

(** Through a handler: its steps, and the branches of its pure code. *)
Ltac keep :=
  repeat first
    [ progress intros
    | progress cbv zeta
    | solve [eauto with keeps nocore]
    | apply keeps_bind
    | apply keeps_call
    | apply keeps_call_quiet
    | lazymatch goal with |- keeps (match ?x with _ => _ end) => destruct x end ].

Lemma keeps_write_opt w o : keeps (write_opt w o).
Proof. unfold write_opt. keep. Qed.
#[local] Hint Resolve keeps_write_opt : keeps.

Lemma keeps_reply_ok out data u w : keeps (reply_ok out data u w).
Proof. unfold reply_ok. keep. Qed.

Lemma keeps_reply_error e u w : keeps (reply_error e u w).
Proof. unfold reply_error. keep. Qed.
#[local] Hint Resolve keeps_reply_ok keeps_reply_error : keeps.

Lemma keeps_reply {A} (res : result IoErr A) ok h w : keeps (reply res ok h w).
Proof. unfold reply. keep. Qed.

Lemma keeps_reply_failure res h w : keeps (reply_failure res h w).
Proof. unfold reply_failure. keep. Qed.

Lemma keeps_reply_sized n h w : keeps (reply_sized n h w).
Proof. unfold reply_sized. keep. Qed.

Lemma keeps_oversized h w : keeps (oversized h w).
Proof. unfold oversized. keep. Qed.
#[local] Hint Resolve keeps_reply keeps_reply_failure keeps_reply_sized keeps_oversized : keeps.

Lemma keeps_remaining_len h n : keeps (remaining_len h n).
Proof. unfold remaining_len, need. keep. Qed.

Lemma keeps_need {A} (o : option A) e : keeps (need o e).
Proof. unfold need. keep. Qed.

Lemma keeps_to_cstr b : keeps (to_cstr b).
Proof. unfold to_cstr, need. keep. Qed.

Lemma keeps_split_at_nul b : keeps (split_at_nul b).
Proof. unfold split_at_nul, need. keep. Qed.
#[local] Hint Resolve keeps_remaining_len keeps_need keeps_to_cstr keeps_split_at_nul : keeps.

Lemma keeps_name_and_extensions h r n : keeps (name_and_extensions h r n).
Proof. unfold name_and_extensions. keep. Qed.

Lemma keeps_read_name h r n : keeps (read_name h r n).
Proof. unfold read_name. keep. Qed.

Lemma keeps_read_objs A `{ByteValued A} n r : keeps (read_objs A n r).
Proof. revert r. induction n as [|n IH]; intros r; cbn [read_objs]; keep. Qed.
#[local] Hint Resolve keeps_name_and_extensions keeps_read_name keeps_read_objs : keeps.

Context (Hr : respects).

Lemma keeps_read h r w : keeps (read h r w).
Proof.
  unfold read. keep. intros [s mem] x s' Hs. cbn. destruct (fs_read _ _ _ _ _ _ _ _ _ _) as [[[]]|] eqn:E; [|done].
  intros [= _ <-]. by apply (keep_read Hr _ _ _ _ _ _ _ _ _ _ _ _ _ Hs E).
Qed.

Lemma keeps_write h r w : keeps (write h r w).
Proof. unfold write. keep. intros [s mem]. apply keeps_call, keep_write, Hr. Qed.

Lemma keeps_do_readdir h r w plus : keeps (do_readdir h r w plus).
Proof.
  unfold do_readdir. keep. intros [s mem] x s' Hs. cbn. destruct plus.
  - destruct (fs_readdirplus _ _ _ _ _ _ _ _) as [[[? ?] []]|] eqn:E; [|done].
    intros [= _ <-]. by apply (keep_readdirplus Hr _ _ _ _ _ _ _ _ _ _ _ Hs E).
  - destruct (fs_readdir _ _ _ _ _ _ _ _) as [[[? ?] []]|] eqn:E; [|done].
    intros [= _ <-]. by apply (keep_readdir Hr _ _ _ _ _ _ _ _ _ _ _ Hs E).
Qed.
#[local] Hint Resolve keeps_read keeps_write keeps_do_readdir : keeps.

(** A mapping is set up only with a window of shared memory. *)
Definition mappings_kept (shm : option VirtioShmRegion) : Prop :=
  forall c i h fo l fl mo b s, shm = None \/ keeps_io (fs_setupmapping (M := M) c i h fo l fl mo b s).

Lemma dispatch_keeps shm h r w : mappings_kept shm -> keeps (dispatch page_size shm h r w).
Proof.
  intros Hm. unfold dispatch. destruct (opcode_of _) as [[]|];
    unfold unknown, lookup, forget, getattr, setattr, readlink, symlink, mknod, mkdir, unlink, rmdir, rename, rename2, do_rename, link, open,
      statfs, release, fsync, setxattr, getxattr, listxattr, removexattr, flush, init, opendir, readdir, readdirplus, releasedir,
      fsyncdir, getlk, setlk, setlkw, access, create, interrupt, bmap, destroy, ioctl, poll, notify_reply, batch_forget, fallocate,
      lseek, copyfilerange, setupmapping, removemapping;
    keep; try (destruct Hr; by eauto 2).
  edestruct Hm as [[=]|Hk]; exact Hk.
Qed.

Lemma handle_message_keeps shm r w : mappings_kept shm -> keeps (handle_message page_size shm r w).
Proof. intros Hm. unfold handle_message. pose proof (dispatch_keeps shm). keep. Qed.

(** ** Sequences of messages *)

(** Between two messages the guest may write its memory. *)
Definition message (shm : option VirtioShmRegion) (s s' : St) : Prop :=
  exists mem r w res, handle_message page_size shm r w (fst s, mem) = Ret (res, s').

Lemma messages_keep shm s s' : mappings_kept shm -> rtc (message shm) s s' -> I (fs (fst s)) -> I (fs (fst s')).
Proof.
  intros Hm. induction 1 as [|s s1 s' (mem & r & w & res & E) _ IH]; [done|]. intros Hs. apply IH.
  by apply (handle_message_keeps shm r w Hm (fst s, mem) res s1 Hs E).
Qed.
End invariant.
End FsInvariant.
