(* ===== verification/FsDevice.v ===== *)
(** * The file-system device and its worker ([virtio/fs/device.rs], [worker.rs])

    The worker pops one request chain after the other, gives readable and
    writable part to the message layer and returns the chain with length 0.
    Host file system, interrupt event and guest memory are parameters.  The
    theorems: a request with a well-formed reply area is served and returned
    whatever it says; the loop ends and empties the queue; chains that do not
    lie in guest memory stop the thread. *)

From S2P Require Import Prelude GuestMem VirtQueue DescUtils Mmio FuseAbi FsServer.

Module FsDevice.
Import VirtQueue FuseAbi.
Import DescUtils(DescriptorChainConsumer, mkConsumer, buffers, bytes_consumed, Reader_new, Writer_new, slices_ok, contents, framed,
  framed_refl, framed_trans, room, room_slices, room_contents, flat).
Import FsServer(FileSystem, Server, mkServer, fs, options, FsError, handle_message, plain_options, well_behaved, header_apart, served, replied,
  reader_ok, writer_ok, quiet, splits_reply, header_of, handle_message_served).

Definition VIRTIO_MMIO_INT_VRING : Z := 1.
Definition VIRTIO_F_VERSION_1 : Z := 32.
Definition VIRTIO_RING_F_EVENT_IDX : Z := 29.
Definition VIRTIO_ID_FS : Z := 26.
Definition NUM_QUEUES : nat := 2.
Definition QUEUE_SIZES : list Z := replicate NUM_QUEUES 1024.
Definition HPQ_INDEX : nat := 0.
Definition REQ_INDEX : nat := 1.

(** ** The worker *)

Section worker.
Context {F M : Type} `{GuestMemory M} `{FileSystem F M} (page_size : Z).

(** Whether the n-th write of the interrupt event succeeds. *)
Context (irq_ok : nat -> bool).

Record FsWorker := mkWorker {
  queues : list Queue;
  interrupt_status : Z;
  irqs : nat;
  intc : bool;
  irq_line : option Z;
  mem : M;
  shm_region : option VirtioShmRegion;
  server : @Server F }.

(** [FsWorker::new] and [Server::new]. *)
Definition new (qs : list Queue) (status : Z) (intc : bool) (irq : option Z) (m : M) (shm : option VirtioShmRegion) (f : F) : FsWorker :=
  mkWorker qs status 0 intc irq m shm (FsServer.new f).

Definition set_queue (w : FsWorker) (i : nat) (q : Queue) (m : M) : FsWorker :=
  mkWorker (<[i := q]> (queues w)) (interrupt_status w) (irqs w) (intc w) (irq_line w) m (shm_region w) (server w).

Definition set_server (w : FsWorker) (s : @Server F) (m : M) : FsWorker :=
  mkWorker (queues w) (interrupt_status w) (irqs w) (intc w) (irq_line w) m (shm_region w) s.

Definition interrupted (w : FsWorker) (n : nat) : FsWorker :=
  mkWorker (queues w) (interrupt_status w .| VIRTIO_MMIO_INT_VRING) n (intc w) (irq_line w) (mem w) (shm_region w) (server w).

(** The interrupt; a failed write of the event is logged. *)
Definition signal (w : FsWorker) : outcome FsWorker :=
  if intc w then _ ← unwrap (irq_line w); Ret (interrupted w (S (irqs w)))
  else if irq_ok (irqs w) then Ret (interrupted w (S (irqs w)))
  else Ret (interrupted w (irqs w)).

(** The chain goes back with length 0, whatever the reply's length is. *)
Definition complete (w : FsWorker) (i : nat) (q : Queue) (head : DescriptorChain) : outcome FsWorker :=
  let '(_, q, m) := add_used (mem w) q (VirtQueue.index head) 0 in
  let '(needs, q) := needs_notification m q in
  let w := set_queue w i q m in
  match needs with
  | Err _ => Panic
  | Ok true => signal w
  | Ok false => Ret w
  end.

(** One round of [process_queue]; errors of a message are only logged. *)
Definition process_round (i : nat) (w : FsWorker) : outcome (bool * FsWorker) :=
  q ← unwrap (queues w !! i);
  '(h, q) ← pop (mem w) q;
  match h with
  | None => Ret (false, set_queue w i q (mem w))
  | Some head =>
      reader ← Reader_new (mem w) head;
      match reader with
      | Err _ => Panic
      | Ok reader =>
          writer ← Writer_new (mem w) head;
          match writer with
          | Err _ => Panic
          | Ok writer =>
              '(_, (s, m)) ← handle_message page_size (shm_region w) reader writer (server w, mem w);
              w ← complete (set_server w s m) i q head;
              Ret (true, w)
          end
      end
  end.

(** [None] is a loop still running after [fuel] rounds. *)
Definition process_queue (i : nat) : nat -> FsWorker -> option (outcome FsWorker) := round_loop (process_round i).

Fixpoint handle_loop (fuel : nat) (i : nat) (w : FsWorker) : option (outcome FsWorker) :=
  match fuel with
  | O => None
  | S fuel =>
      match queues w !! i with
      | None => Some Panic
      | Some q =>
          match disable_notification (mem w) q with
          | Err _ => Some Panic
          | Ok m =>
              match process_queue i (S fuel) (set_queue w i q m) with
              | None => None
              | Some Panic => Some Panic
              | Some (Ret w) =>
                  match queues w !! i with
                  | None => Some Panic
                  | Some q =>
                      match enable_notification (mem w) q with
                      | Err _ => Some Panic
                      | Ok (again, m) =>
                          let w := set_queue w i q m in
                          if again then handle_loop fuel i w else Some (Ret w)
                      end
                  end
              end
          end
      end
  end.

(** [handle_event]; a queue event that cannot be read is logged. *)
Definition handle_event (fuel : nat) (i : nat) (w : FsWorker) : option (outcome FsWorker) := handle_loop fuel i w.

Inductive source := HpqEv | ReqEv | StopEv | OtherEv.

Definition EV_IN : Z := 1.

(** One event of [work]; [false]: the thread returns. *)
Definition work_event (fuel : nat) (src : source) (event_set : Z) (w : FsWorker) : option (outcome (bool * FsWorker)) :=
  if negb (event_set =? EV_IN) then Some (Ret (true, w))
  else
    match src with
    | HpqEv => o ← handle_event fuel HPQ_INDEX w; Some (w ← o; Ret (true, w))
    | ReqEv => o ← handle_event fuel REQ_INDEX w; Some (w ← o; Ret (true, w))
    | StopEv => Some (Ret (false, w))
    | OtherEv => Some (Ret (true, w))
    end.

(** ** The device *)

(** [VirtioFsConfig], [repr(C, packed)]: the tag, padded with zero bytes. *)
Record VirtioFsConfig := mkConfig { tag : list byte; num_request_queues : Z }.

Definition config_bytes (c : VirtioFsConfig) : list byte := tag c ++ le_bytes 4 (num_request_queues c).

Record Fs := mkFs {
  dev_queues : list Queue; avail_features : Z; acked_features : Z; dev_interrupt_status : Z; dev_intc : bool;
  dev_irq_line : option Z; device_state : option M; config : VirtioFsConfig; dev_shm_region : option VirtioShmRegion;
  (** whether the worker thread runs *)
  worker_thread : bool }.

(** [config.tag[..tag.len()].copy_from_slice(tag)] *)
Definition config_tag (fs_id : list byte) : outcome (list byte) :=
  if (length fs_id <=? 36)%nat then Ret (splice (replicate 36 0) 0 fs_id) else Panic.

Definition with_queues (fs_id : list byte) (qs : list Queue) : outcome Fs :=
  t ← config_tag fs_id;
  Ret (mkFs qs ((1 .<< VIRTIO_F_VERSION_1) .| (1 .<< VIRTIO_RING_F_EVENT_IDX)) 0 0 false None None (mkConfig t 1) None false).

Definition fs_new (fs_id : list byte) : outcome Fs := with_queues fs_id (map Queue_new QUEUE_SIZES).

Definition set_intc (d : Fs) : Fs :=
  mkFs (dev_queues d) (avail_features d) (acked_features d) (dev_interrupt_status d) true (dev_irq_line d) (device_state d)
    (config d) (dev_shm_region d) (worker_thread d).

Definition set_shm_region (d : Fs) (shm : VirtioShmRegion) : Fs :=
  mkFs (dev_queues d) (avail_features d) (acked_features d) (dev_interrupt_status d) (dev_intc d) (dev_irq_line d) (device_state d)
    (config d) (Some shm) (worker_thread d).

Definition set_acked_features (d : Fs) (f : Z) : Fs :=
  mkFs (dev_queues d) (avail_features d) f (dev_interrupt_status d) (dev_intc d) (dev_irq_line d) (device_state d)
    (config d) (dev_shm_region d) (worker_thread d).

Definition set_irq_line (d : Fs) (irq : Z) : Fs :=
  mkFs (dev_queues d) (avail_features d) (acked_features d) (dev_interrupt_status d) (dev_intc d) (Some irq) (device_state d)
    (config d) (dev_shm_region d) (worker_thread d).

Definition read_config (d : Fs) (offset : Z) (data : list byte) : list byte :=
  config_read (config_bytes (config d)) offset data.

(** [activate]; [f]: the file system [PassthroughFs::new] opens, [None] if it fails. *)
Definition activate (d : Fs) (m : M) (f : option F) : outcome (Fs * FsWorker) :=
  if worker_thread d then Panic
  else
    let event_idx := negb (acked_features d .& (1 .<< VIRTIO_RING_F_EVENT_IDX) =? 0) in
    hpq ← unwrap (dev_queues d !! HPQ_INDEX);
    req ← unwrap (<[HPQ_INDEX := set_event_idx hpq event_idx]> (dev_queues d) !! REQ_INDEX);
    let qs := <[REQ_INDEX := set_event_idx req event_idx]> (<[HPQ_INDEX := set_event_idx hpq event_idx]> (dev_queues d)) in
    f ← unwrap f;
    Ret (mkFs qs (avail_features d) (acked_features d) (dev_interrupt_status d) (dev_intc d) (dev_irq_line d) (Some m)
           (config d) (dev_shm_region d) true,
         new qs (dev_interrupt_status d) (dev_intc d) (dev_irq_line d) m (dev_shm_region d) f).

Definition is_activated (d : Fs) : bool := match device_state d with Some _ => true | None => false end.

(** [reset]: the worker is told to stop and joined. *)
Definition reset (d : Fs) : bool * Fs :=
  (true, mkFs (dev_queues d) (avail_features d) (acked_features d) (dev_interrupt_status d) (dev_intc d) (dev_irq_line d) None
           (config d) (dev_shm_region d) false).

(** ** Serving a queue *)

Context {GML : GuestMemoryLaws M}.

Definition queue_view (i : nat) (w : FsWorker) : M * Queue := (mem w, default (Queue_new 0) (queues w !! i)).

Lemma signal_queues w w' : signal w = Ret w' -> queues w' = queues w.
Proof.
  unfold signal. destruct (intc w); [destruct (irq_line w); [|done]; by intros [= <-]|].
  destruct (irq_ok (irqs w)); by intros [= <-].
Qed.

Lemma needs_notification_next_avail m q n q' : needs_notification m q = (n, q') -> next_avail q' = next_avail q.
Proof. unfold needs_notification. repeat case_match; by intros [= <- <-]. Qed.

Lemma fs_complete_next_avail w i q head w' :
  (i < length (queues w))%nat -> complete w i q head = Ret w' ->
  length (queues w') = length (queues w) /\ exists q', queues w' !! i = Some q' /\ next_avail q' = next_avail q.
Proof.
  intros Hi. unfold complete. destruct (add_used _ _ _ _) as [[r q1] m] eqn:Ea.
  destruct (needs_notification m q1) as [needs q2] eqn:En. apply add_used_next_avail in Ea. apply needs_notification_next_avail in En.
  assert (queues (set_queue w i q2 m) !! i = Some q2) as Hq by (cbn; by rewrite list_lookup_insert_eq).
  assert (length (queues (set_queue w i q2 m)) = length (queues w)) as Hl by (cbn; by rewrite length_insert).
  destruct needs as [[]|e]; [|intros [= <-]|done].
  - intros Hs%signal_queues. rewrite Hs. split; [done|]. exists q2. split; [done|congruence].
  - split; [done|]. exists q2. split; [done|congruence].
Qed.

Lemma fs_process_round_pops i : pops_one (process_round i) (queue_view i).
Proof.
  intros w b w'. unfold process_round, queue_view. destruct (queues w !! i) as [q|] eqn:Eq; [|done].
  cbn [unwrap mbind outcome_bind default fst snd]. apply lookup_lt_Some in Eq as Hi.
  destruct (pop (mem w) q) as [[[head|] q1]|] eqn:Ep; cbn [mbind outcome_bind]; [|..|done].
  - destruct (Reader_new _ _) as [[rd|]|]; cbn [mbind outcome_bind]; [|done..].
    destruct (Writer_new _ _) as [[wr|]|]; cbn [mbind outcome_bind]; [|done..].
    destruct (handle_message _ _ _ _ _) as [[r [s m]]|]; cbn [mbind outcome_bind]; [|done].
    destruct (complete _ _ _ _) as [w2|] eqn:Ec; cbn [mbind outcome_bind]; [|done]. intros [= <- <-].
    apply fs_complete_next_avail in Ec as (_ & q' & Hq' & Hn); [|done]. exists head, q1. by rewrite Hq'.
  - apply pop_result in Ep as Hq. subst q1. intros [= <- <-].
    split; [|done]. unfold set_queue. rewrite list_insert_id by done. by destruct w.
Qed.

(** The worker's loop over a queue ends within one round more than there
    are published requests, whatever they say, and leaves none. *)
Theorem fs_queue_drains fuel i w :
  index_kept (process_round i) (queue_view i) w -> outstanding (mem w) (queue_view i w).2 < Z.of_nat fuel ->
  exists o, process_queue i fuel w = Some o /\
    forall w', o = Ret w' -> pop (mem w') (queue_view i w').2 = Ret (None, (queue_view i w').2).
Proof. apply (round_loop_drains _ _ fuel w (fs_process_round_pops i)). Qed.

(** What completing a chain does: the used element, and the interrupt. *)
Lemma fs_complete_effect w i q head w' :
  complete w i q head = Ret w' ->
  mem w' = (add_used (mem w) q (VirtQueue.index head) 0).2 /\ server w' = server w /\
  exists q', queues w' = <[i := q']> (queues w) /\ next_avail q' = next_avail q.
Proof.
  unfold complete. destruct (add_used _ _ _ _) as [[r q1] m] eqn:Ea. destruct (needs_notification m q1) as [needs q2] eqn:En.
  apply add_used_next_avail in Ea. apply needs_notification_next_avail in En.
  assert (forall w1, signal (set_queue w i q2 m) = Ret w1 -> w1 = interrupted (set_queue w i q2 m) (irqs w1)) as Hs.
  { intros w1. unfold signal. destruct (intc _); [destruct (irq_line _); [|done]|destruct (irq_ok _)]; by intros [= <-]. }
  destruct needs as [[]|e]; [intros ->%Hs|intros [= <-]|done]; cbn; (split_and!; [done..|]); exists q2; split; congruence.
Qed.

(** C8. One request, from the ring to the reply: when its buffers lie in guest
    memory and no byte of the writable part is used twice (a read or a listing
    also has the reply's header in buffers of its own), then whatever the
    request says, the round hands exactly its readable and writable part to the
    message layer, which does not panic; it keeps the server and the memory the
    message layer leaves, where nothing outside the writable part has changed
    and a reply begins with its header; and it returns the chain: the used
    element with the chain's index is written and nothing else. *)
Theorem fs_request_served i w q q' a head rd wr :
  4096 <= page_size < 2 ^ 32 -> plain_options (options (server w)) -> well_behaved (fs (server w)) ->
  queues w !! i = Some q -> checked_new (mem w) (q_desc_table q) (size q) a = Some head -> pop (mem w) q = Ret (Some head, q') ->
  Reader_new (mem w) head = Ret (Ok rd) -> Writer_new (mem w) head = Ret (Ok wr) -> NoDup (flat (buffers wr)) ->
  (forall d, contents (mem w) (buffers rd) = Some d -> header_apart wr \/ splits_reply (header_of d) = false) ->
  exists d r s m', contents (mem w) (buffers rd) = Some d /\
    handle_message page_size (shm_region w) rd wr (server w, mem w) = Ret (r, (s, m')) /\
    plain_options (options s) /\ framed wr (mem w) m' /\
    (forall n, r = Ok n -> quiet (header_of d) = true /\ n = 0 \/ replied (inHeader_unique (header_of d)) n wr m') /\
    process_round i w = (w' ← complete (set_server w s m') i q' head; Ret (true, w')) /\
    forall b w', process_round i w = Ret (b, w') ->
      b = true /\ server w' = s /\ mem w' = (add_used m' q' (VirtQueue.index head) 0).2 /\
      exists q2, queues w' = <[i := q2]> (queues w) /\ next_avail q2 = next_avail q'.
Proof.
  intros Hp Ho Hwb Hq Hhead Hpop Hrd Hwr Hnd Ha.
  destruct (DescUtils.reader_writer_new _ _ _ _ _ Hhead) as [(r1 & E1 & H1) (r2 & E2 & H2)].
  rewrite Hrd in E1. injection E1 as <-. rewrite Hwr in E2. injection E2 as <-.
  destruct (H1 rd eq_refl) as (_ & Hb1 & Hs1 & [d Hd]), (H2 wr eq_refl) as (_ & Hb2 & Hs2 & [dw Hdw]).
  pose proof (DescUtils.contents_length _ _ _ (proj1 Hs1) Hd) as Hl1. pose proof (DescUtils.contents_length _ _ _ (proj1 Hs2) Hdw) as Hl2.
  rewrite <- DescUtils.length_flat in Hl1, Hl2 by (apply Hs1 || apply Hs2). destruct Hs1 as [Hf1 Hlt1], Hs2 as [Hf2 Hlt2].
  destruct (handle_message_served page_size (shm_region w) (server w) (mem w) rd wr d Hp Ho Hwb) as (r & s & m' & E & Ho' & Hf & Hn); [|done| |by apply Ha|].
  { exists d. rewrite Hb1. split_and!; [done..|lia|lia]. }
  { split; [|done]. exists dw. split; [done..|]. rewrite Hb2. lia. }
  assert (process_round i w = (w' ← complete (set_server w s m') i q' head; Ret (true, w'))) as Hround.
  { unfold process_round. rewrite Hq. cbn [unwrap mbind outcome_bind]. rewrite Hpop. cbn [mbind outcome_bind].
    rewrite Hrd. cbn [mbind outcome_bind]. rewrite Hwr. cbn [mbind outcome_bind]. by rewrite E. }
  exists d, r, s, m'. split_and!; [done..|]. intros b w'. rewrite Hround. destruct (complete _ _ _ _) as [w1|] eqn:Ec; [|done].
  intros [= <- <-]. apply fs_complete_effect in Ec as (H3 & H4 & H5). by split_and!.
Qed.

(** A chain with a buffer outside guest memory stops the thread. *)
Lemma fs_unreadable_chain_panics i w q q' head e :
  queues w !! i = Some q -> pop (mem w) q = Ret (Some head, q') -> Reader_new (mem w) head = Ret (Err e) ->
  process_round i w = Panic.
Proof.
  intros Hq Hpop Hrd. unfold process_round. rewrite Hq. cbn [unwrap mbind outcome_bind]. rewrite Hpop. cbn [mbind outcome_bind].
  by rewrite Hrd.
Qed.

(** The device panics on a tag that does not fit, and only then. *)
Lemma fs_new_tag fs_id : fs_new fs_id = Panic <-> (36 < length fs_id)%nat.
Proof. unfold fs_new, with_queues, config_tag. destruct (Nat.leb_spec (length fs_id) 36); cbn; (split; [done || lia|lia || done]). Qed.

(** A second activation without a reset panics; after a reset the device can
    be activated again, on the same queues, with a file system of its own and
    no options negotiated. *)
Theorem fs_reset_activate d m f d1 w1 :
  activate d m (Some f) = Ret (d1, w1) ->
  fst (reset d1) = true /\ is_activated (snd (reset d1)) = false /\ activate d1 m (Some f) = Panic /\
  forall m2 f2, exists d2 w2, activate (snd (reset d1)) m2 (Some f2) = Ret (d2, w2) /\ is_activated d2 = true /\
    queues w2 = queues w1 /\ mem w2 = m2 /\ fs (server w2) = f2 /\ options (server w2) = 0 /\ shm_region w2 = shm_region w1.
Proof.
  unfold activate. destruct (worker_thread d); [done|].
  set (ev := negb _). destruct (dev_queues d !! HPQ_INDEX) as [hpq|] eqn:Eh; [|done]. cbn [unwrap mbind outcome_bind].
  destruct (_ !! REQ_INDEX) as [req|] eqn:Er; [|done]. cbn [unwrap mbind outcome_bind]. intros [= <- <-].
  split_and!; [done..|]. intros m2 f2. cbn [reset snd worker_thread dev_queues acked_features]. fold ev.
  destruct (dev_queues d) as [|q0 [|q1 qs]]; [done..|]. cbn in *. injection Eh as ->. injection Er as ->.
  eexists _, _. split; [reflexivity|]. split_and!; done.
Qed.
End worker.

(** ** Instances

    A lookup of [a] in the request queue: three descriptors for request,
    header and reply. *)

#[local] Existing Instance FsServer.demo_fs.

Definition demo_mem : FlatMem := mkFlat 0
  (le_bytes 8 512 ++ le_bytes 4 42 ++ le_bytes 2 1 ++ le_bytes 2 1 ++
   le_bytes 8 640 ++ le_bytes 4 16 ++ le_bytes 2 3 ++ le_bytes 2 2 ++
   le_bytes 8 656 ++ le_bytes 4 128 ++ le_bytes 2 2 ++ le_bytes 2 0 ++ replicate 16 0 ++
   le_bytes 2 0 ++ le_bytes 2 1 ++ replicate 60 0 ++ replicate 384 0 ++
   FsServer.demo_request 1 [97; 0] ++ replicate 470 0).

Definition demo_queue : Queue := {|
  max_size := 4; size := 4; ready := true; q_desc_table := 0; avail_ring := 64; used_ring := 128;
  next_avail := 0; next_used := 0; event_idx_enabled := false; num_added := 0 |}.

Definition demo_worker : @FsWorker unit FlatMem := new [Queue_new 4; demo_queue] 0 false None demo_mem None tt.

Definition yes : nat -> bool := fun _ => true.

Definition demo_head : DescriptorChain := {|
  desc_table := 0; queue_size := 4; ttl := 4; index := 0; addr := 512; len := 42; flags := 1; next := 1 |}.

Definition demo_worker' : @FsWorker unit FlatMem :=
  match process_round 4096 yes 1 demo_worker with Ret (_, w) => w | Panic => demo_worker end.

Lemma fs_demo_rounds : process_round 4096 yes 1 demo_worker = Ret (true, demo_worker') /\
  exists w, process_round 4096 yes 1 demo_worker' = Ret (false, w).
Proof. split; [vm_compute; reflexivity|eexists; vm_compute; reflexivity]. Qed.

Lemma fs_demo_index_kept : index_kept (process_round 4096 yes 1) (queue_view 1) demo_worker.
Proof.
  destruct fs_demo_rounds as [H1 [w H2]]. intros w1 w2 Hr Hs.
  destruct (one_step (fun a b => process_round 4096 yes 1 a = Ret (true, b)) demo_worker demo_worker' w1 w2)
    as [-> ->]; [| |done..|].
  - intros z Hz. rewrite H1 in Hz. congruence.
  - intros z Hz. rewrite H2 in Hz. discriminate Hz.
  - vm_compute. reflexivity.
Qed.

Lemma fs_queue_drains_witness :
  exists w', process_queue 4096 yes 1 3 demo_worker = Some (Ret w') /\
    pop (mem w') (queue_view 1 w').2 = Ret (None, (queue_view 1 w').2).
Proof.
  destruct (fs_queue_drains 4096 yes 3 1 demo_worker fs_demo_index_kept) as (o & Ho & Hr); [vm_compute; reflexivity|].
  destruct o as [w'|]; [|vm_compute in Ho; discriminate]. exists w'. split; [exact Ho|exact (Hr w' eq_refl)].
Defined.

Lemma fs_request_served_witness :
  exists r s m', handle_message 4096 None (mkConsumer [DescUtils.mkVS 512 42] 0) (mkConsumer [DescUtils.mkVS 640 16; DescUtils.mkVS 656 128] 0)
      (server demo_worker, demo_mem) = Ret (r, (s, m')) /\
    process_round 4096 yes 1 demo_worker = (w' ← complete yes (set_server demo_worker s m') 1
      (set_next_avail demo_queue 1) demo_head; Ret (true, w')).
Proof.
  destruct (fs_request_served 4096 yes 1 demo_worker demo_queue (set_next_avail demo_queue 1) 0 demo_head
    (mkConsumer [DescUtils.mkVS 512 42] 0) (mkConsumer [DescUtils.mkVS 640 16; DescUtils.mkVS 656 128] 0))
    as (d & r & s & m' & _ & E1 & _ & _ & _ & E2 & _).
  - lia.
  - split; reflexivity.
  - exact FsServer.demo_fs_well_behaved.
  - reflexivity.
  - vm_compute. reflexivity.
  - vm_compute. reflexivity.
  - vm_compute. reflexivity.
  - vm_compute. reflexivity.
  - apply (bool_decide_unpack _). vm_compute. exact I.
  - intros d _. left. exists 1%nat. reflexivity.
  - exists r, s, m'. split; [exact E1|exact E2].
Defined.

Definition demo_fs_device : @Fs FlatMem :=
  mkFs (map Queue_new QUEUE_SIZES) 0x120000000 0 0 false None None (mkConfig (replicate 36 0) 1) None false.

Lemma fs_reset_activate_witness :
  exists d1 w1, activate demo_fs_device demo_mem (Some tt) = Ret (d1, w1) /\
    exists d2 w2, activate (snd (reset d1)) demo_mem (Some tt) = Ret (d2, w2) /\ is_activated d2 = true.
Proof.
  destruct (activate demo_fs_device demo_mem (Some tt)) as [[d1 w1]|] eqn:E; [|discriminate E].
  exists d1, w1. split; [reflexivity|].
  destruct (fs_reset_activate demo_fs_device demo_mem tt d1 w1 E) as (_ & _ & _ & Hact).
  destruct (Hact demo_mem tt) as (d2 & w2 & E2 & Ha & _). exists d2, w2. split; [exact E2|exact Ha].
Defined.
End FsDevice.
