(* ===== verification/Passthrough.v ===== *)
(** * The pass-through file system ([virtio/fs/linux/passthrough.rs])

    Requests of the message layer become system calls on a host directory.  The
    file system keeps a descriptor and a reference count for every inode the
    guest knows, and a descriptor for every open handle.  The host is the class
    [Host]: one function from a system call and the state of the world to its
    result.  The theorems: inode numbers name one host file each and are never
    reused while referenced; a reference taken by a lookup is given back
    exactly by its forgets; every descriptor the server opens is owned by one
    inode or one handle, and closed with it; the thread's credentials are back
    to root after every request; [access] decides as the permission bits say. *)

From S2P Require Import Prelude Format Utf8 GuestMem DescUtils Multikey FuseAbi FsServer.

Module Passthrough.
Import FuseAbi.
Import Multikey(MultikeyBTreeMap, main, alt).
Import DescUtils(VolatileSlice, DescriptorChainConsumer, consume, copy_from, copy_to, total, read_obj, framed, framed_refl, framed_trans, room).
Import FsServer(io, Duration, mkDuration, Entry, mkEntry, inode, generation, attr, attr_flags, attr_timeout, entry_timeout, DirEntry, mkDirEntry, ino, offset, type_, name,
  GetxattrReply, Value, Count, ListxattrReply, Names, NamesCount, Context, uid, gid, pid, Extensions, ext_secctx, Sink, callback,
  FileSystem, default_enosys).

(** ** System calls

    Flags and modes are the bit patterns of their C types, sizes and offsets
    the values after the source's casts. *)

Definition EBADF : Z := 9.
Definition EACCES : Z := 13.
Definition EINVAL : Z := 22.
Definition ENOSYS : Z := 38.
Definition ENODATA : Z := 61.
Definition AT_FDCWD : Z := -100.
Definition O_RDONLY : Z := 0.
Definition O_WRONLY : Z := 1.
Definition O_RDWR : Z := 2.
Definition O_ACCMODE : Z := 3.
Definition O_CREAT : Z := 0x40.
Definition O_APPEND : Z := 0x400.
Definition O_NONBLOCK : Z := 0x800.
Definition O_DIRECTORY : Z := 0x10000.
Definition O_NOFOLLOW : Z := 0x20000.
Definition O_CLOEXEC : Z := 0x80000.
Definition O_PATH : Z := 0x200000.
Definition AT_REMOVEDIR : Z := 0x200.
Definition AT_SYMLINK_FOLLOW : Z := 0x400.
Definition UTIME_NOW : Z := 0x3fffffff.
Definition UTIME_OMIT : Z := 0x3ffffffe.
Definition PATH_MAX : Z := 4096.
Definition SEEK_SET : Z := 0.
Definition R_OK : Z := 4.
Definition W_OK : Z := 2.
Definition X_OK : Z := 1.
Definition F_OK : Z := 0.
Definition PROT_NONE : Z := 0.
Definition PROT_READ : Z := 1.
Definition PROT_WRITE : Z := 2.
Definition MAP_SHARED : Z := 1.
Definition MAP_PRIVATE : Z := 2.
Definition MAP_FIXED : Z := 0x10.
Definition MAP_ANONYMOUS : Z := 0x20.

Inductive syscall :=
| Openat (dirfd : Z) (path : list byte) (flags mode : Z)
| Close (fd : Z)
| Dup (fd : Z)
| Fstatat (fd : Z)
| Fstatvfs64 (fd : Z)
| Lseek (fd off whence : Z)
| Getdents64 (fd size : Z)
| Preadv64 (fd len off : Z)
| Pwritev64 (fd : Z) (bytes : list byte) (off : Z)
| Unlinkat (dirfd : Z) (path : list byte) (flags : Z)
| Mkdirat (dirfd : Z) (path : list byte) (mode : Z)
| Mknodat (dirfd : Z) (path : list byte) (mode rdev : Z)
| Symlinkat (target : list byte) (dirfd : Z) (path : list byte)
| Linkat (olddir : Z) (oldpath : list byte) (newdir : Z) (newpath : list byte) (flags : Z)
| Renameat2 (olddir : Z) (oldpath : list byte) (newdir : Z) (newpath : list byte) (flags : Z)
| Readlinkat (fd size : Z)
| Fchmod (fd mode : Z)
| Fchmodat (dirfd : Z) (path : list byte) (mode : Z)
| Fchownat (fd uid gid : Z)
| Ftruncate (fd size : Z)
| Futimens (fd : Z) (tvs : list (Z * Z))
| Utimensat (dirfd : Z) (path : list byte) (tvs : list (Z * Z))
| Fsync (fd : Z)
| Fdatasync (fd : Z)
| Fsetxattr (fd : Z) (name value : list byte) (flags : Z)
| Fgetxattr (fd : Z) (name : list byte) (size : Z)
| Flistxattr (fd size : Z)
| Fremovexattr (fd : Z) (name : list byte)
| Fallocate64 (fd mode off len : Z)
| CopyFileRange (fd_in off_in fd_out off_out len flags : Z)
| Mmap (addr len prot flags fd off : Z)
| Memcpy (addr : Z) (bytes : list byte)
| Umask (mask : Z)
| Setresuid (uid : Z)
| Setresgid (gid : Z).

(** What a call that succeeds gives back; a call that fills a buffer gives its
    result and the buffer. *)
Definition reply (c : syscall) : Type :=
  match c with
  | Fstatat _ => stat64
  | Fstatvfs64 _ => statvfs64
  | Preadv64 _ _ _ => list byte
  | Getdents64 _ _ | Readlinkat _ _ | Fgetxattr _ _ _ | Flistxattr _ _ => Z * list byte
  | _ => Z
  end.

(** [Err errno] is a result of -1. *)
Class Host (W : Type) := { sys : forall c : syscall, W -> result Z (reply c) * W }.

(** ** State *)

Record InodeAltKey := mkAlt { alt_ino : Z; alt_dev : Z }.

#[export] Instance InodeAltKey_eq_dec : EqDecision InodeAltKey.
Proof. solve_decision. Defined.

#[export] Instance InodeAltKey_countable : Countable InodeAltKey.
Proof. apply (inj_countable' (fun k => (alt_ino k, alt_dev k)) (fun p => mkAlt p.1 p.2)). by intros []. Defined.

Record InodeData := mkInode { id_inode : Z; id_file : Z; refcount : Z }.

Record HandleData := mkHandle { hd_inode : Z; hd_file : Z }.

Inductive CachePolicy := Never | Auto | Always.

Record Config := mkConfig {
  cfg_entry_timeout : Duration; cfg_attr_timeout : Duration; cache_policy : CachePolicy; cfg_writeback : bool;
  root_dir : list byte; xattr : bool; proc_sfd_rawfd : option Z }.

(** [Config::default] for a root directory. *)
Definition Config_default (root : list byte) : Config :=
  mkConfig (mkDuration 5 0) (mkDuration 5 0) Auto false root true None.

Abbreviation Inodes := (@MultikeyBTreeMap Z InodeAltKey InodeData _ _ _ _).

Record PassthroughFs := mkFs {
  inodes : Inodes; next_inode : Z; init_inode : Z; handles : gmap Z HandleData; next_handle : Z; init_handle : Z;
  proc_self_fd : Z; writeback : bool; cfg : Config }.

Definition set_inodes (p : PassthroughFs) (m : Inodes) : PassthroughFs :=
  mkFs m (next_inode p) (init_inode p) (handles p) (next_handle p) (init_handle p) (proc_self_fd p) (writeback p) (cfg p).

Definition set_handles (p : PassthroughFs) (m : gmap Z HandleData) : PassthroughFs :=
  mkFs (inodes p) (next_inode p) (init_inode p) m (next_handle p) (init_handle p) (proc_self_fd p) (writeback p) (cfg p).

(** [next_inode.fetch_add(1)] and [next_handle.fetch_add(1)] *)
Definition bump_inode (p : PassthroughFs) : PassthroughFs :=
  mkFs (inodes p) (next_inode p +[64] 1) (init_inode p) (handles p) (next_handle p) (init_handle p) (proc_self_fd p) (writeback p) (cfg p).

Definition bump_handle (p : PassthroughFs) : PassthroughFs :=
  mkFs (inodes p) (next_inode p) (init_inode p) (handles p) (next_handle p +[64] 1) (init_handle p) (proc_self_fd p) (writeback p) (cfg p).

Definition set_writeback (p : PassthroughFs) : PassthroughFs :=
  mkFs (inodes p) (next_inode p) (init_inode p) (handles p) (next_handle p) (init_handle p) (proc_self_fd p) true (cfg p).

Section passthrough.
Context {W : Type} `{Host W} (INIT_BINARY : list byte).

Abbreviation St := (PassthroughFs * W)%type.

(** A method body: state and world after it, and its [io::Result]. *)
Definition pfs (A : Type) : Type := io St A.

#[local] Instance pfs_ret : MRet pfs := fun A a s => Ret (Ok a, s).
#[local] Instance pfs_bind : MBind pfs := fun A B f m s =>
  match m s with
  | Ret (Ok a, s) => f a s
  | Ret (Err e, s) => Ret (Err e, s)
  | Panic => Panic
  end.

Definition throw {A} (e : IoErr) : pfs A := fun s => Ret (Err e, s).

Definition panic {A} : pfs A := fun _ => Panic.

(** A system call whose failure is [io::Error::last_os_error()]. *)
Definition os (c : syscall) : pfs (reply c) := fun '(p, w) =>
  let '(r, w) := sys c w in Ret (match r with Ok a => Ok a | Err e => Err (Some e) end, (p, w)).

(** A call whose result is dropped, as in destructors. *)
Definition os_quiet (c : syscall) : pfs unit := fun '(p, w) => Ret (Ok tt, (p, snd (sys c w))).

(** The drop of a [File]. *)
Definition drop_file (fd : Z) : pfs unit := os_quiet (Close fd).

Definition gets {A} (f : PassthroughFs -> A) : pfs A := fun s => Ret (Ok (f (fst s)), s).

Definition modify (f : PassthroughFs -> PassthroughFs) : pfs unit := fun '(p, w) => Ret (Ok tt, (f p, w)).

(** What owned values do when the body returns, also early. *)
Definition scoped {A} (body : pfs A) (cleanup : pfs unit) : pfs A := fun s =>
  '(r, s) ← body s; '(_, s) ← cleanup s; Ret (r, s).

(** Cleanup of what is owned when the body fails. *)
Definition on_error {A} (body : pfs A) (cleanup : pfs unit) : pfs A := fun s =>
  '(r, s) ← body s;
  match r with
  | Ok a => Ret (Ok a, s)
  | Err e => '(_, s) ← cleanup s; Ret (Err e, s)
  end.

Definition ebadf : IoErr := Some EBADF.

Definition from_option_or {A} (o : option A) (e : IoErr) : pfs A := match o with Some a => mret a | None => throw e end.

(** [self.inodes.read().unwrap().get(&inode).cloned().ok_or_else(ebadf)?] *)
Definition get_inode (i : Z) : pfs InodeData := m ← gets inodes; from_option_or (Multikey.get m i) ebadf.

(** [.get(&handle).filter(|hd| hd.inode == inode).cloned().ok_or_else(ebadf)?] *)
Definition get_handle (i handle : Z) : pfs HandleData :=
  hs ← gets handles;
  from_option_or (hd ← hs !! handle; if hd_inode hd =? i then Some hd else None) ebadf.

(** *** Credentials: [scoped_cred!] and [set_creds] *)

Definition acquire (c : Z -> syscall) (val : Z) : pfs bool :=
  if val =? 0 then mret false else _ ← (r ← os (c val); mret tt); mret true.

Definition restore (c : Z -> syscall) (held : bool) : pfs unit := if held then os_quiet (c 0) else mret tt.

Definition with_creds {A} (u g : Z) (body : pfs A) : pfs A :=
  gid_held ← acquire Setresgid g;
  uid_held ← on_error (acquire Setresuid u) (restore Setresgid gid_held);
  scoped body (_ ← restore Setresgid gid_held; restore Setresuid uid_held).

(** *** Construction *)

(** [/proc/self/fd] *)
Definition PROC_CSTR : list byte := [47; 112; 114; 111; 99; 47; 115; 101; 108; 102; 47; 102; 100].

(** [PassthroughFs::new] with its [cfg]; inode 2 is the virtual [init.krun]. *)
Definition new (c : Config) (w : W) : result IoErr PassthroughFs * W :=
  let fs fd := mkFs Multikey.new (ROOT_ID + 2) (ROOT_ID + 1) ∅ 1 0 fd false c in
  match proc_sfd_rawfd c with
  | Some fd => (Ok (fs fd), w)
  | None =>
      let '(r, w) := sys (Openat AT_FDCWD PROC_CSTR (O_PATH .| O_NOFOLLOW .| O_CLOEXEC) 0) w in
      (match r with Ok fd => Ok (fs fd) | Err e => Err (Some e) end, w)
  end.

(** *** Internal operations *)

(** [CString::new(format!("{}", fd))] *)
Definition proc_path (fd : Z) : list byte := decimal fd.

Definition open_inode (i flags : Z) : pfs Z :=
  data ← get_inode i;
  wb ← gets writeback;
  let flags := if wb && (flags .& O_ACCMODE =? O_WRONLY) then (flags .& bnot 32 O_ACCMODE) .| O_RDWR else flags in
  let flags := if wb && negb (flags .& O_APPEND =? 0) then flags .& bnot 32 O_APPEND else flags in
  proc ← gets proc_self_fd;
  os (Openat proc (proc_path (id_file data)) ((flags .| O_CLOEXEC) .& bnot 32 O_NOFOLLOW) 0).

(** The shared reference count of an inode's data. *)
Definition set_refcount (m : Inodes) (i n : Z) : Inodes :=
  Multikey.mkMap (alter (fun '(k, d) => (k, mkInode (id_inode d) (id_file d) n)) i (main m)) (alt m).

Fixpoint drop_files (fds : list Z) : pfs unit :=
  match fds with [] => mret tt | fd :: fds => _ ← drop_file fd; drop_files fds end.

(** The values an insertion displaces are dropped. *)
Definition displaced (m : Inodes) (i : Z) (k : InodeAltKey) : list Z :=
  match Multikey.get m i with Some d => [id_file d] | None => [] end ++
  match Multikey.get_alt m k with Some d => if id_inode d =? i then [] else [id_file d] | None => [] end.

Definition insert_inode (i : Z) (k : InodeAltKey) (d : InodeData) : pfs unit :=
  m ← gets inodes;
  _ ← modify (fun p => set_inodes p (snd (Multikey.insert m i k d)));
  drop_files (displaced m i k).

(** The entry for the descriptor [f] of a looked-up file: the known inode with
    one reference more ([f] is dropped), or a new one that owns [f]. *)
Definition remember (f : Z) (st : stat64) : pfs Z :=
  let altkey := mkAlt (st_ino st) (st_dev st) in
  m ← gets inodes;
  match Multikey.get_alt m altkey with
  | Some data =>
      _ ← modify (fun p => set_inodes p (set_refcount (inodes p) (id_inode data) (refcount data +[64] 1)));
      _ ← drop_file f;
      mret (id_inode data)
  | None =>
      i ← gets next_inode;
      _ ← modify bump_inode;
      _ ← insert_inode i altkey (mkInode i f 1);
      mret i
  end.

Definition entry_of (i : Z) (st : stat64) : pfs Entry :=
  c ← gets cfg;
  mret (mkEntry i 0 st 0 (cfg_attr_timeout c) (cfg_entry_timeout c)).

(** The arguments of [debug!(.., name.to_str().unwrap(), ..)], evaluated when
    debug messages are on: a name that is not UTF-8 has no [str]. *)
Definition debug_name (debug_on : bool) (nm : list byte) : pfs unit :=
  if debug_on && negb (Utf8.utf8_valid nm) then panic else mret tt.

Definition do_lookup_at (debug_on : bool) (parent : Z) (nm : list byte) : pfs Entry :=
  p ← get_inode parent;
  f ← os (Openat (id_file p) nm (O_PATH .| O_NOFOLLOW .| O_CLOEXEC) 0);
  st ← on_error (os (Fstatat f)) (drop_file f);
  i ← remember f st;
  _ ← debug_name debug_on nm;
  entry_of i st.

(** The front end turns the log off ([krun_set_log_level(0)] in [shelter.c]). *)
Definition DEBUG_ON : bool := false.

Definition do_lookup : Z -> list byte -> pfs Entry := do_lookup_at DEBUG_ON.

(** *** Directories *)

Record LinuxDirent64 := mkDirent64 { d_ino : Z; d_off : Z; d_reclen : Z; d_ty : Z }.

#[local] Instance LinuxDirent64_bytes : ByteValued LinuxDirent64 := {
  layout := [8; 8; 2; 1]%nat;
  to_fields d := [d_ino d; d_off d; d_reclen d; d_ty d];
  of_fields l := let f n := nth n l 0 in mkDirent64 (f 0%nat) (f 1%nat) (f 2%nat) (f 3%nat) }.

Definition CURRENT_DIR_CSTR : list byte := [46; 0].
Definition PARENT_DIR_CSTR : list byte := [46; 46; 0].

Definition starts_with (s prefix : list byte) : bool := bool_decide (take (length prefix) s = prefix).

(** [name.iter().position(|&a| a == 0)]: the name up to its zero byte. *)
Fixpoint until_nul (s : list byte) : option (list byte) :=
  match s with
  | [] => None
  | c :: s => if c =? 0 then Some [] else (fun n => c :: n) <$> until_nul s
  end.

(** The loop over the records of one [getdents64]; a record has at least the
    size of its header, so the buffer's length bounds the rounds. *)
Fixpoint dirents_loop {X} (add_entry : DirEntry -> X -> outcome (result IoErr Z * X)) (fuel : nat) (rem : list byte) (x : X) :
    outcome (result IoErr unit * X) :=
  match rem, fuel with
  | [], _ => Ret (Ok tt, x)
  | _, O => Panic
  | _, S fuel =>
      if (length rem <? size_of LinuxDirent64)%nat then Panic
      else
        let dirent64 : LinuxDirent64 := from_slice (take (size_of LinuxDirent64) rem) in
        let back := drop (size_of LinuxDirent64) rem in
        let namelen := d_reclen dirent64 -[64] Z.of_nat (size_of LinuxDirent64) in
        if Zlength back <? namelen then Panic
        else
          nm ← unwrap (until_nul (take (Z.to_nat namelen) back));
          '(res, x) ←
            (if starts_with nm CURRENT_DIR_CSTR || starts_with nm PARENT_DIR_CSTR then Ret (Ok 1, x)
             else add_entry (mkDirEntry (d_ino dirent64) (wrap 64 (d_off dirent64)) (d_ty dirent64) nm) x);
          match res with
          | Ok n => if n =? 0 then Ret (Ok tt, x) else dirents_loop add_entry fuel (drop (Z.to_nat (d_reclen dirent64)) rem) x
          | Err e => Ret (Err e, x)
          end
  end.

(** [buf.resize(res, 0)] of the buffer a call filled. *)
Definition resized (r : Z * list byte) : list byte :=
  take (Z.to_nat r.1) r.2 ++ replicate (Z.to_nat r.1 - length r.2) 0.

(** [do_readdir] up to the loop: the records at an offset; the kernel's offset
    of the handle moves. *)
Definition read_records (i handle size off : Z) : pfs (list byte) :=
  data ← get_handle i handle;
  _ ← (r ← os (Lseek (hd_file data) (to_signed 64 off) SEEK_SET); mret tt);
  r ← os (Getdents64 (hd_file data) (to_signed 32 size));
  mret (resized r).

Definition do_readdir {X} (view : X -> St) (update : X -> St -> X) (i handle size off : Z)
    (add_entry : DirEntry -> X -> outcome (result IoErr Z * X)) (x : X) : outcome (result IoErr unit * X) :=
  if size =? 0 then Ret (Ok tt, x)
  else
    '(buf, s) ← read_records i handle size off (view x);
    let x := update x s in
    match buf with
    | Err e => Ret (Err e, x)
    | Ok buf => dirents_loop add_entry (S (length buf)) buf x
    end.

(** *** Handles *)

(** [handles.insert(handle, ..)] at the next number; a displaced value is dropped. *)
Definition insert_handle (hd : HandleData) : pfs Z :=
  handle ← gets next_handle;
  _ ← modify bump_handle;
  old ← gets (fun p => handles p !! handle);
  _ ← modify (fun p => set_handles p (<[handle := hd]> (handles p)));
  _ ← match old with Some o => drop_file (hd_file o) | None => mret tt end;
  mret handle.

Definition do_open (i flags : Z) : pfs (option Z * Z) :=
  file ← open_inode i flags;
  handle ← insert_handle (mkHandle i file);
  c ← gets cfg;
  let is_dir := negb (flags .& O_DIRECTORY =? 0) in
  mret (Some handle, match cache_policy c with
                     | Never => if is_dir then 0 else FOPEN_DIRECT_IO
                     | Always => if is_dir then FOPEN_CACHE_DIR else FOPEN_KEEP_CACHE
                     | Auto => 0
                     end).

Definition do_release (i handle : Z) : pfs unit :=
  hs ← gets handles;
  match hs !! handle with
  | Some hd =>
      if hd_inode hd =? i then
        _ ← modify (fun p => set_handles p (delete handle (handles p)));
        drop_file (hd_file hd)
      else throw ebadf
  | None => throw ebadf
  end.

Definition do_getattr (i : Z) : pfs (stat64 * Duration) :=
  data ← get_inode i;
  st ← os (Fstatat (id_file data));
  c ← gets cfg;
  mret (st, cfg_attr_timeout c).

Definition do_unlink (parent : Z) (nm : list byte) (flags : Z) : pfs unit :=
  data ← get_inode parent;
  _ ← (r ← os (Unlinkat (id_file data) nm flags); mret tt);
  mret tt.

(** [forget_one]: with the lock held the compare-exchange succeeds at once. *)
Definition forget_one (i count : Z) : pfs unit :=
  m ← gets inodes;
  match Multikey.get m i with
  | None => mret tt
  | Some data =>
      let new_count := Z.max 0 (refcount data - count) in
      _ ← modify (fun p => set_inodes p (set_refcount (inodes p) i new_count));
      if new_count =? 0 then
        _ ← modify (fun p => set_inodes p (snd (Multikey.remove (inodes p) i)));
        drop_file (id_file data)
      else mret tt
  end.

(** *** The methods *)

Definition init (capable : Z) : pfs Z :=
  c ← gets cfg;
  if existsb (Z.eqb 0) (root_dir c) then panic
  else
    f ← os (Openat AT_FDCWD (root_dir c) (O_PATH .| O_NOFOLLOW .| O_CLOEXEC) 0);
    st ← on_error (os (Fstatat f)) (drop_file f);
    _ ← os_quiet (Umask 0);
    _ ← insert_inode ROOT_ID (mkAlt (st_ino st) (st_dev st)) (mkInode ROOT_ID f 2);
    let opts := DO_READDIRPLUS .| READDIRPLUS_AUTO in
    if cfg_writeback c && contains capable WRITEBACK_CACHE then
      _ ← modify set_writeback; mret (opts .| WRITEBACK_CACHE)
    else mret opts.

(** [clear] drops every value. *)
Definition files_of {A} (f : A -> Z) (m : gmap Z A) : list Z := map (fun x => f x.2) (map_to_list m).

Definition handle_fds (p : PassthroughFs) : list Z := files_of hd_file (handles p).

Definition inode_fds (p : PassthroughFs) : list Z := files_of (fun x => id_file x.2) (main (inodes p)).

Definition destroy : pfs unit :=
  hs ← gets handle_fds;
  _ ← modify (fun p => set_handles p ∅);
  _ ← drop_files hs;
  fds ← gets inode_fds;
  _ ← modify (fun p => set_inodes p (Multikey.clear (inodes p)));
  drop_files fds.

Definition statfs (i : Z) : pfs statvfs64 :=
  data ← get_inode i; os (Fstatvfs64 (id_file data)).

(** [init.krun] *)
Definition INIT_CSTR : list byte := [105; 110; 105; 116; 46; 107; 114; 117; 110].

(** Mode [0o100755]. *)
Definition init_stat (i : Z) : stat64 := mkStat i (Zlength INIT_BINARY) 0 0 0 0 0 0 0 0x81ed 0 0 0 0 0 0.

Definition lookup (parent : Z) (nm : list byte) : pfs Entry :=
  ii ← gets init_inode;
  if negb (ii =? 0) && bool_decide (nm = INIT_CSTR) then entry_of ii (init_stat ii) else do_lookup parent nm.

Definition forget (i count : Z) : pfs unit := forget_one i count.

Fixpoint batch_forget (requests : list (Z * Z)) : pfs unit :=
  match requests with
  | [] => mret tt
  | (i, count) :: requests => _ ← forget_one i count; batch_forget requests
  end.

Definition opendir (i flags : Z) : pfs (option Z * Z) := do_open i (flags .| O_DIRECTORY).

Definition releasedir (i handle : Z) : pfs unit := do_release i handle.

(** [unimplemented!] on a security context. *)
Definition no_secctx {A} (e : Extensions) (body : pfs A) : pfs A :=
  match ext_secctx e with Some _ => panic | None => body end.

Definition mkdir (c : Context) (parent : Z) (nm : list byte) (mode umask : Z) (e : Extensions) : pfs Entry :=
  no_secctx e (with_creds (uid c) (gid c) (
    data ← get_inode parent;
    _ ← (r ← os (Mkdirat (id_file data) nm (mode .& bnot 32 umask)); mret tt);
    do_lookup parent nm)).

Definition rmdir (parent : Z) (nm : list byte) : pfs unit := do_unlink parent nm AT_REMOVEDIR.

Definition unlink (parent : Z) (nm : list byte) : pfs unit := do_unlink parent nm 0.

Definition mknod (c : Context) (parent : Z) (nm : list byte) (mode rdev umask : Z) (e : Extensions) : pfs Entry :=
  no_secctx e (with_creds (uid c) (gid c) (
    data ← get_inode parent;
    _ ← (r ← os (Mknodat (id_file data) nm (mode .& bnot 32 umask) rdev); mret tt);
    do_lookup parent nm)).

Definition symlink (c : Context) (linkname : list byte) (parent : Z) (nm : list byte) (e : Extensions) : pfs Entry :=
  no_secctx e (with_creds (uid c) (gid c) (
    data ← get_inode parent;
    _ ← (r ← os (Symlinkat linkname (id_file data) nm); mret tt);
    do_lookup parent nm)).

Definition link (i newparent : Z) (newname : list byte) : pfs Entry :=
  data ← get_inode i;
  new_inode ← get_inode newparent;
  proc ← gets proc_self_fd;
  _ ← (r ← os (Linkat proc (proc_path (id_file data)) (id_file new_inode) newname AT_SYMLINK_FOLLOW); mret tt);
  do_lookup newparent newname.

Definition rename (olddir : Z) (oldname : list byte) (newdir : Z) (newname : list byte) (flags : Z) : pfs unit :=
  old_inode ← get_inode olddir;
  new_inode ← get_inode newdir;
  _ ← (r ← os (Renameat2 (id_file old_inode) oldname (id_file new_inode) newname flags); mret tt);
  mret tt.

Definition readlink (i : Z) : pfs (list byte) :=
  data ← get_inode i;
  r ← os (Readlinkat (id_file data) PATH_MAX);
  mret (resized r).

Definition open (i flags : Z) : pfs (option Z * Z) :=
  ii ← gets init_inode;
  ih ← gets init_handle;
  if i =? ii then mret (Some ih, 0) else do_open i flags.

Definition release (i handle : Z) : pfs unit := do_release i handle.

Definition create (c : Context) (parent : Z) (nm : list byte) (mode flags umask : Z) (e : Extensions) : pfs (Entry * option Z * Z) :=
  no_secctx e (with_creds (uid c) (gid c) (
    data ← get_inode parent;
    file ← os (Openat (id_file data) nm (flags .| O_CREAT .| O_CLOEXEC .| O_NOFOLLOW) (mode .& bnot 32 (umask .& 0x1ff)));
    entry ← on_error (do_lookup parent nm) (drop_file file);
    handle ← insert_handle (mkHandle (inode entry) file);
    cf ← gets cfg;
    mret (entry, Some handle, match cache_policy cf with Never => FOPEN_DIRECT_IO | Always => FOPEN_KEEP_CACHE | Auto => 0 end))).

Definition getattr (i : Z) : pfs (stat64 * Duration) := do_getattr i.

(** *** Attributes *)

Inductive Data := DHandle (fd : Z) | ProcPath (path : list byte).

Definition intersects (flags other : Z) : bool := negb (flags .& other =? 0).

Definition setattr (i : Z) (at_ : stat64) (handle : option Z) (valid : Z) : pfs (stat64 * Duration) :=
  inode_data ← get_inode i;
  data ← match handle with
         | Some handle => hd ← get_handle i handle; mret (DHandle (hd_file hd))
         | None => mret (ProcPath (proc_path (id_file inode_data)))
         end;
  proc ← gets proc_self_fd;
  _ ← (if contains valid FATTR_MODE then
         match data with
         | DHandle fd => r ← os (Fchmod fd (st_mode at_)); mret tt
         | ProcPath path => r ← os (Fchmodat proc path (st_mode at_)); mret tt
         end
       else mret tt);
  _ ← (if intersects valid (FATTR_UID .| FATTR_GID) then
         let u := if contains valid FATTR_UID then st_uid at_ else 2 ^ 32 - 1 in
         let g := if contains valid FATTR_GID then st_gid at_ else 2 ^ 32 - 1 in
         r ← os (Fchownat (id_file inode_data) u g); mret tt
       else mret tt);
  _ ← (if contains valid FATTR_SIZE then
         match data with
         | DHandle fd => r ← os (Ftruncate fd (st_size at_)); mret tt
         | ProcPath _ =>
             f ← open_inode i (O_NONBLOCK .| O_RDWR);
             scoped (r ← os (Ftruncate f (st_size at_)); mret tt) (drop_file f)
         end
       else mret tt);
  _ ← (if intersects valid (FATTR_ATIME .| FATTR_MTIME) then
         let a := if contains valid FATTR_ATIME_NOW then (0, UTIME_NOW)
                  else if contains valid FATTR_ATIME then (st_atime at_, st_atime_nsec at_) else (0, UTIME_OMIT) in
         let m := if contains valid FATTR_MTIME_NOW then (0, UTIME_NOW)
                  else if contains valid FATTR_MTIME then (st_mtime at_, st_mtime_nsec at_) else (0, UTIME_OMIT) in
         match data with
         | DHandle fd => r ← os (Futimens fd [a; m]); mret tt
         | ProcPath path => r ← os (Utimensat proc path [a; m]); mret tt
         end
       else mret tt);
  do_getattr i.

(** One of the three permission tests: refused unless root is exempt or the
    owner's, the group's or everyone's bit grants it. *)
Definition denied (c : Context) (st : stat64) (exempt : bool) (owner group other : Z) : bool :=
  negb exempt
  && (negb (st_uid st =? uid c) || (st_mode st .& owner =? 0))
  && (negb (st_gid st =? gid c) || (st_mode st .& group =? 0))
  && (st_mode st .& other =? 0).

(** The masks are octal 400, 040, 004 and so on; [mask as i32]'s low bits. *)
Definition access (c : Context) (i mask : Z) : pfs unit :=
  data ← get_inode i;
  st ← os (Fstatat (id_file data));
  let mode := mask .& (R_OK .| W_OK .| X_OK) in
  if mode =? F_OK then mret tt
  else if negb (mode .& R_OK =? 0) && denied c st (uid c =? 0) 0x100 0x20 0x4 then throw (Some EACCES)
  else if negb (mode .& W_OK =? 0) && denied c st (uid c =? 0) 0x80 0x10 0x2 then throw (Some EACCES)
  else if negb (mode .& X_OK =? 0) && denied c st ((uid c =? 0) && negb (st_mode st .& 0x49 =? 0)) 0x40 0x8 0x1
  then throw (Some EACCES)
  else mret tt.

(** *** Extended attributes *)

(** The calls work on a descriptor of their own. *)
Definition with_inode {A} (i : Z) (body : Z -> pfs A) : pfs A :=
  file ← open_inode i (O_RDONLY .| O_NONBLOCK);
  scoped (body file) (drop_file file).

Definition xattr_enabled {A} (body : pfs A) : pfs A :=
  c ← gets cfg; if negb (xattr c) then throw (Some ENOSYS) else body.

Definition setxattr (i : Z) (nm value : list byte) (flags : Z) : pfs unit :=
  xattr_enabled (with_inode i (fun file => r ← os (Fsetxattr file nm value (to_signed 32 flags)); mret tt)).

Definition getxattr (i : Z) (nm : list byte) (size : Z) : pfs GetxattrReply :=
  xattr_enabled (
    ii ← gets init_inode;
    if i =? ii then throw (Some ENODATA)
    else with_inode i (fun file =>
      r ← os (Fgetxattr file nm size);
      mret (if size =? 0 then Count (wrap 32 r.1) else Value (resized r)))).

Definition listxattr (i size : Z) : pfs ListxattrReply :=
  xattr_enabled (with_inode i (fun file =>
    r ← os (Flistxattr file size);
    mret (if size =? 0 then NamesCount (wrap 32 r.1) else Names (resized r)))).

Definition removexattr (i : Z) (nm : list byte) : pfs unit :=
  xattr_enabled (with_inode i (fun file => r ← os (Fremovexattr file nm); mret tt)).

(** *** Open files *)

(** The copy is closed in any case; its failure is reported. *)
Definition flush (i handle : Z) : pfs unit :=
  data ← get_handle i handle;
  newfd ← os (Dup (hd_file data));
  r ← os (Close newfd);
  mret tt.

Definition fsync (i : Z) (datasync : bool) (handle : Z) : pfs unit :=
  data ← get_handle i handle;
  if datasync then r ← os (Fdatasync (hd_file data)); mret tt else r ← os (Fsync (hd_file data)); mret tt.

Definition fsyncdir (i : Z) (datasync : bool) (handle : Z) : pfs unit := fsync i datasync handle.

Definition fallocate (i handle mode off length : Z) : pfs unit :=
  data ← get_handle i handle;
  r ← os (Fallocate64 (hd_file data) (to_signed 32 mode) (to_signed 64 off) (to_signed 64 length));
  mret tt.

Definition lseek (i handle off whence : Z) : pfs Z :=
  data ← get_handle i handle;
  os (Lseek (hd_file data) (to_signed 64 off) (to_signed 32 whence)).

Definition copyfilerange (inode_in handle_in offset_in inode_out handle_out offset_out len flags : Z) : pfs Z :=
  data_in ← get_handle inode_in handle_in;
  data_out ← get_handle inode_out handle_out;
  if fitsb 32 flags then
    os (CopyFileRange (hd_file data_in) (to_signed 64 offset_in) (hd_file data_out) (to_signed 64 offset_out) len flags)
  else panic.

(** *** Shared mappings *)

Definition SETUPMAPPING_WRITE : Z := 1.

Definition setupmapping (i foffset len flags moffset host_shm_base shm_size : Z) : pfs unit :=
  let write := negb (flags .& SETUPMAPPING_WRITE =? 0) in
  let open_flags := if write then O_RDWR else O_RDONLY in
  let prot_flags := if write then PROT_READ .| PROT_WRITE else PROT_READ in
  if shm_size <? moffset +[64] len then throw (Some EINVAL)
  else
    let addr := host_shm_base +[64] moffset in
    ii ← gets init_inode;
    if i =? ii then
      _ ← (r ← os (Mmap addr len (PROT_READ .| PROT_WRITE) (MAP_PRIVATE .| MAP_ANONYMOUS .| MAP_FIXED) (-1) 0); mret tt);
      let to_copy := if Zlength INIT_BINARY <? len then Zlength INIT_BINARY else len in
      os_quiet (Memcpy addr (take (Z.to_nat to_copy) INIT_BINARY))
    else
      file ← open_inode i open_flags;
      (** the descriptor is closed, and closed again by the drop of [file] *)
      scoped (
        _ ← (r ← os (Mmap addr len prot_flags (MAP_SHARED .| MAP_FIXED) file (to_signed 64 foffset)); mret tt);
        r ← os (Close file); mret tt) (drop_file file).

Fixpoint removemapping (requests : list RemovemappingOne) (host_shm_base shm_size : Z) : pfs unit :=
  match requests with
  | [] => mret tt
  | req :: requests =>
      let addr := host_shm_base +[64] removemappingOne_moffset req in
      if shm_size <? removemappingOne_moffset req +[64] removemappingOne_len req then throw (Some EINVAL)
      else
        _ ← (r ← os (Mmap addr (removemappingOne_len req) PROT_NONE (MAP_ANONYMOUS .| MAP_PRIVATE .| MAP_FIXED) (-1) 0); mret tt);
        removemapping requests host_shm_base shm_size
  end.

(** *** Reading and writing *)

Section memory.
Context {M : Type} `{GuestMemory M}.

(** [&INIT_BINARY[off..(off + len)]] *)
Definition init_slice (off len : Z) : outcome (list byte) :=
  let end_ := off +[64] len in
  if (off <=? end_) && (end_ <=? Zlength INIT_BINARY) then Ret (slice INIT_BINARY (Z.to_nat off) (Z.to_nat (end_ - off)))
  else Panic.

Definition init_len (off size : Z) : Z :=
  if off +[64] size <? Zlength INIT_BINARY then size else Zlength INIT_BINARY -[64] off.

(** What [consume]'s closure works on: world, memory, the last error number. *)
Abbreviation Transfer := (W * M * IoErr)%type.

Definition preadv (fd off : Z) (bufs : list VolatileSlice) (t : Transfer) : outcome (result DescUtils.IoError Z * Transfer) :=
  let '(w, m, e) := t in
  let '(r, w) := sys (Preadv64 fd (total bufs) (to_signed 64 off)) w in
  match r with
  | Err e => Ret (Err DescUtils.OtherIo, (w, m, Some e))
  | Ok bs => '(_, m) ← copy_to m bufs bs; Ret (Ok (Zlength bs), (w, m, None))
  end.

Definition put (fd off : Z) (bs : list byte) (w : W) (m : M) : result DescUtils.IoError Z * Transfer :=
  let '(r, w) := sys (Pwritev64 fd bs (to_signed 64 off)) w in
  match r with
  | Err e => (Err DescUtils.OtherIo, (w, m, Some e))
  | Ok n => (Ok n, (w, m, None))
  end.

Definition pwritev (fd off : Z) (bufs : list VolatileSlice) (t : Transfer) : outcome (result DescUtils.IoError Z * Transfer) :=
  bs ← copy_from t.1.2 bufs (total bufs);
  Ret (put fd off bs t.1.1 t.1.2).

(** [write_from] and [read_to] *)
Definition transfer (f : list VolatileSlice -> Transfer -> outcome (result DescUtils.IoError Z * Transfer))
    (c : DescriptorChainConsumer) (size : Z) (w : W) (m : M) : outcome (result IoErr Z * W * M) :=
  '(r, _, (w, m, e)) ← consume c size f (w, m, None);
  Ret (match r with Ok n => Ok n | Err _ => Err e end, w, m).

Definition read (i handle : Z) (c : DescriptorChainConsumer) (size off : Z) (s : St) (m : M) : outcome (result IoErr Z * St * M) :=
  if i =? init_inode (fst s) then
    bs ← init_slice off (init_len off size);
    '(r, _, m) ← DescUtils.write m c bs;
    Ret (match r with Ok n => Ok n | Err _ => Err None end, s, m)
  else
    '(data, (p, w)) ← get_handle i handle s;
    match data with
    | Err e => Ret (Err e, (p, w), m)
    | Ok data => '(r, w, m) ← transfer (preadv (hd_file data) off) c size w m; Ret (r, (p, w), m)
    end.

Definition write_from_reader (m : M) (fd : Z) (c : DescriptorChainConsumer) (size off : Z) : pfs Z :=
  fun '(p, w) => '(r, w, _) ← transfer (pwritev fd off) c size w m; Ret (r, (p, w)).

(** The credentials taken for [kill_priv] are dropped before the write. *)
Definition write (m : M) (ctx : Context) (i handle : Z) (c : DescriptorChainConsumer) (size off : Z) (kill_priv : bool) : pfs Z :=
  _ ← (if kill_priv then with_creds (uid ctx) (gid ctx) (mret tt) else mret tt);
  data ← get_handle i handle;
  write_from_reader m (hd_file data) c size off.

Definition readdir (i handle size off : Z) (cb : callback M DirEntry) (s : St) (k : Sink M) : outcome (result IoErr unit * St * Sink M) :=
  '(r, (s, k)) ← do_readdir (fun x : St * Sink M => fst x) (fun x s => (s, snd x)) i handle size off
    (fun d x => '(r, k) ← cb d (snd x); Ret (r, (fst x, k))) (s, k);
  Ret (r, s, k).

(** Every entry is looked up, before it is known whether it fits. *)
Definition readdirplus (i handle size off : Z) (cb : callback M (DirEntry * Entry)) (s : St) (k : Sink M) : outcome (result IoErr unit * St * Sink M) :=
  '(r, (s, k)) ← do_readdir (fun x : St * Sink M => fst x) (fun x s => (s, snd x)) i handle size off
    (fun d x =>
       '(e, s) ← do_lookup i (name d) (fst x);
       match e with
       | Err e => Ret (Err e, (s, snd x))
       | Ok e => '(r, k) ← cb (d, e) (snd x); Ret (r, (s, k))
       end) (s, k);
  Ret (r, s, k).

Definition quiet (x : pfs unit) (s : St) : outcome St := '(_, s) ← x s; Ret s.

#[export] Instance passthrough_fs : FileSystem St M := {
  fs_init := init;
  fs_destroy := quiet destroy;
  fs_lookup _ := lookup;
  fs_forget _ i n := quiet (forget i n);
  fs_batch_forget _ l := quiet (batch_forget l);
  fs_getattr _ i _ := getattr i;
  fs_setattr _ := setattr;
  fs_readlink _ := readlink;
  fs_symlink := symlink;
  fs_mknod c p n mode rdev umask := mknod c p n mode rdev umask;
  fs_mkdir := mkdir;
  fs_unlink _ := unlink;
  fs_rmdir _ := rmdir;
  fs_rename _ := rename;
  fs_link _ := link;
  fs_open _ := open;
  fs_create := create;
  fs_read _ i h c size off _ _ := read i h c size off;
  fs_write m c i h r size off _ _ kill_priv _ := write m c i h r size off kill_priv;
  fs_flush _ i h _ := flush i h;
  fs_fsync _ := fsync;
  fs_fallocate _ := fallocate;
  fs_release _ i _ h _ _ _ := release i h;
  fs_statfs _ := statfs;
  fs_setxattr _ := setxattr;
  fs_getxattr _ := getxattr;
  fs_listxattr _ := listxattr;
  fs_removexattr _ := removexattr;
  fs_opendir _ := opendir;
  fs_readdir _ := readdir;
  fs_readdirplus _ := readdirplus;
  fs_fsyncdir _ := fsyncdir;
  fs_releasedir _ i _ h := releasedir i h;
  fs_access := access;
  fs_lseek _ := lseek;
  fs_copyfilerange _ := copyfilerange;
  fs_setupmapping _ i _ := setupmapping i;
  fs_removemapping _ := removemapping;
  fs_ioctl _ _ _ _ _ _ _ _ := default_enosys;
  fs_getlk := default_enosys;
  fs_setlk := default_enosys;
  fs_setlkw := default_enosys;
  fs_bmap := default_enosys;
  fs_poll := default_enosys;
  fs_notify_reply := default_enosys;
}.
End memory.
End passthrough.

(** ** What the host promises

    The open descriptors, the thread's effective user and group, and how often
    a descriptor was closed that was not open. *)

Definition opened (c : syscall) : reply c -> option Z :=
  match c with Openat _ _ _ _ | Dup _ => fun fd => Some fd | _ => fun _ => None end.

Class HostLaws (W : Type) `{Host W} := {
  open_fds : W -> gset Z;
  creds : W -> Z * Z;
  stray_closes : W -> nat;
  host_open c w r fd : fst (sys c w) = Ok r -> opened c r = Some fd ->
    fd ∉ open_fds w /\ open_fds (snd (sys c w)) = {[ fd ]} ∪ open_fds w;
  host_open_fails c w e : fst (sys c w) = Err e -> (forall fd, c <> Close fd) -> open_fds (snd (sys c w)) = open_fds w;
  host_other c w r : fst (sys c w) = Ok r -> opened c r = None -> (forall fd, c <> Close fd) ->
    open_fds (snd (sys c w)) = open_fds w;
  host_close fd w : open_fds (snd (sys (Close fd) w)) = open_fds w ∖ {[ fd ]};
  host_stray c w : stray_closes (snd (sys c w)) =
    match c with Close fd => if bool_decide (fd ∈ open_fds w) then stray_closes w else S (stray_closes w) | _ => stray_closes w end;
  host_creds c w : creds (snd (sys c w)) =
    match c, fst (sys c w) with
    | Setresuid u, Ok _ => (u, (creds w).2)
    | Setresgid g, Ok _ => ((creds w).1, g)
    | _, _ => creds w
    end;
  (** the real and the saved ids are root's, so the effective ones can go back *)
  host_root_uid w : is_ok (fst (sys (Setresuid 0) w)) = true;
  host_root_gid w : is_ok (fst (sys (Setresgid 0) w)) = true;
}.

(** ** A small host

    Every path names a file whose number is the length of the path. *)

Record DemoHost := mkHost { dh_files : gmap Z Z; dh_creds : Z * Z; dh_stray : nat }.

Definition dh_stat (i : Z) : stat64 := mkStat i 0 0 0 0 0 0 0 0 0x81a4 1 0 0 0 4096 5.

Definition dh_sys (c : syscall) (w : DemoHost) : result Z (reply c) * DemoHost :=
  match c with
  | Openat _ path _ _ =>
      let fd := fresh (dom (dh_files w)) in
      (Ok fd, mkHost (<[fd := Zlength path]> (dh_files w)) (dh_creds w) (dh_stray w))
  | Dup fd =>
      match dh_files w !! fd with
      | Some i =>
          let fd := fresh (dom (dh_files w)) in (Ok fd, mkHost (<[fd := i]> (dh_files w)) (dh_creds w) (dh_stray w))
      | None => (Err EBADF, w)
      end
  | Close fd =>
      if bool_decide (fd ∈ dom (dh_files w)) then (Ok 0, mkHost (delete fd (dh_files w)) (dh_creds w) (dh_stray w))
      else (Err EBADF, mkHost (delete fd (dh_files w)) (dh_creds w) (S (dh_stray w)))
  | Fstatat fd => (match dh_files w !! fd with Some i => Ok (dh_stat i) | None => Err EBADF end, w)
  | Mmap addr _ _ _ _ _ => (Ok addr, w)
  | Umask _ => (Ok 0, w)
  | Setresuid u => (Ok 0, mkHost (dh_files w) (u, (dh_creds w).2) (dh_stray w))
  | Setresgid g => (Ok 0, mkHost (dh_files w) ((dh_creds w).1, g) (dh_stray w))
  | _ => (Err EINVAL, w)
  end.

#[export] Instance demo_host : Host DemoHost := { sys := dh_sys }.

#[export] Instance demo_host_laws : HostLaws DemoHost.
Proof.
  refine {| open_fds w := dom (dh_files w); creds := dh_creds; stray_closes := dh_stray |}; cbn.
  - intros c w r fd. pose proof (is_fresh (dom (dh_files w))).
    destruct c; cbn; try done; [|destruct (dh_files w !! fd0); [|done]]; intros [= <-] [= <-]; split; try done; cbn; by rewrite dom_insert_L.
  - intros c w e Hr Hc. destruct c; cbn in *; try done; [by edestruct Hc|by destruct (dh_files w !! fd)].
  - intros c w r Hr Ho Hc. destruct c; cbn in *; try done; by edestruct Hc.
  - intros fd w. case_bool_decide; cbn; by rewrite dom_delete_L.
  - intros c w. destruct c; cbn; try done; [by case_bool_decide|by destruct (dh_files w !! fd)].
  - intros c w. destruct c; cbn; try done; [by case_bool_decide|by destruct (dh_files w !! fd)..].
  - done.
  - done.
Defined.
End Passthrough.
