(* ===== verification/PassthroughOwn.v ===== *)
(** * Who owns a host descriptor

    The pass-through file system keeps every descriptor it opens either in the
    inode table or in the handle table, closes it when the entry goes, and
    never closes another one; its thread is root again after every request.
    The invariant [inv] says so of a state and of the world, with the list of
    the descriptors a running method holds itself; the rules for [runs] carry
    it through the bodies of the methods. *)

From S2P Require Import Prelude Format GuestMem DescUtils Multikey FuseAbi FsServer FsInvariant Passthrough.

(** Rules for the calls of a body, for [own]. *)
Create HintDb own discriminated.

Module PassthroughOwn.
Import FuseAbi FsServer Passthrough.
Import Multikey(main, alt, one_to_one).

(** ** The descriptors of a table *)

Section files.
Context {A : Type} (f : A -> Z).
Implicit Types (m : gmap Z A).

Lemma files_of_empty : files_of f ∅ = [].
Proof. unfold files_of. by rewrite map_to_list_empty. Qed.

Lemma files_of_insert m i x : m !! i = None -> files_of f (<[i := x]> m) ≡ₚ f x :: files_of f m.
Proof. intros Hi. unfold files_of. by rewrite map_to_list_insert. Qed.

Lemma files_of_delete m i x : m !! i = Some x -> files_of f m ≡ₚ f x :: files_of f (delete i m).
Proof. intros Hi. rewrite <- files_of_insert by apply lookup_delete_eq. by rewrite insert_delete_id. Qed.

Lemma files_of_delete_None m i : m !! i = None -> files_of f (delete i m) ≡ₚ files_of f m.
Proof. intros Hi. by rewrite delete_id. Qed.

(** What an insertion displaces. *)
Lemma files_of_replace m i x :
  f x :: files_of f m ≡ₚ match m !! i with Some y => [f y] | None => [] end ++ files_of f (<[i := x]> m).
Proof.
  destruct (m !! i) as [y|] eqn:E; cbn [app]; [|by rewrite files_of_insert].
  rewrite (files_of_delete m i y) by done. rewrite <- insert_delete_eq, files_of_insert by apply lookup_delete_eq.
  constructor.
Qed.

Lemma files_of_alter m i (g : A -> A) : (forall x, f (g x) = f x) -> files_of f (alter g i m) ≡ₚ files_of f m.
Proof.
  intros Hg. destruct (m !! i) as [x|] eqn:E.
  - rewrite (files_of_delete m i x) by done.
    rewrite (files_of_delete (alter g i m) i (g x)) by (by rewrite lookup_alter_eq, E).
    by rewrite delete_alter_eq, Hg.
  - by rewrite alter_id by (intros ? ; rewrite E; done).
Qed.
End files.

(** ** The invariant *)

Section own.
Context {W : Type} `{HostLaws W} (INIT_BINARY : list byte).
Context (base : gset Z) (stray : nat).

#[local] Existing Instance Passthrough.pfs_ret.
#[local] Existing Instance Passthrough.pfs_bind.

Abbreviation St := (PassthroughFs * W)%type.

(** The tables agree, and an entry knows its own number. *)
Record tables_ok (m : Inodes) : Prop := {
  tables_one : one_to_one m;
  tables_id i k d : main m !! i = Some (k, d) -> id_inode d = i }.

Definition owned (p : PassthroughFs) : list Z := inode_fds p ++ handle_fds p.

(** [L] are the descriptors a method holds, [base] those of other owners
    (among them [proc_self_fd]), [c] the credentials of the thread. *)
Record inv (c : Z * Z) (L : list Z) (s : St) : Prop := {
  inv_tables : tables_ok (inodes (fst s));
  inv_nodup : NoDup (L ++ owned (fst s));
  inv_base fd : fd ∈ L ++ owned (fst s) -> fd ∉ base;
  inv_open : open_fds (snd s) = base ∪ list_to_set (L ++ owned (fst s));
  inv_creds : creds (snd s) = c;
  inv_stray : stray_closes (snd s) = stray }.

(** A body that returns, holds [R] of its result after success, [E] after an error. *)
Definition runs_at {A} (c : Z * Z) (s : St) (x : pfs A) (R : A -> list Z) (E : list Z) : Prop :=
  exists r s', x s = Ret (r, s') /\ inv c match r with Ok a => R a | Err _ => E end s'.

Definition runs {A} (c : Z * Z) (L : list Z) (x : pfs A) (R : A -> list Z) (E : list Z) : Prop :=
  forall s, inv c L s -> runs_at c s x R E.

(** Who holds a descriptor does not matter to the world. *)
Lemma inv_perm c L L' p p' w :
  tables_ok (inodes p') -> L ++ owned p ≡ₚ L' ++ owned p' -> inv c L (p, w) -> inv c L' (p', w).
Proof.
  intros Ht Hp []; cbn [fst snd] in *. split; cbn [fst snd]; try done.
  - by rewrite <- Hp.
  - intros fd. rewrite <- Hp. apply inv_base0.
  - rewrite inv_open0. f_equal. apply list_to_set_perm_L. done.
Qed.
(** ** Rules *)

Lemma runs_mret {A} c L (a : A) E : runs c L (mret a : pfs A) (fun _ => L) E.
Proof. intros s Hi. by exists (Ok a), s. Qed.

Lemma runs_throw {A} c L e (R : A -> list Z) : runs c L (throw e) R L.
Proof. intros s Hi. by exists (Err e), s. Qed.

Lemma runs_bind {A B} c L (x : pfs A) (f : A -> pfs B) R R' E :
  runs c L x R E -> (forall a, runs c (R a) (f a) R' E) -> runs c L (x ≫= f) R' E.
Proof.
  intros Hx Hf s Hi. destruct (Hx s Hi) as (r & s' & Ex & Hi'). unfold runs_at, mbind, pfs_bind. rewrite Ex.
  destruct r as [a|e]; [by apply Hf|]. by exists (Err e), s'.
Qed.

Lemma runs_gets {A} c L (f : PassthroughFs -> A) E : runs c L (gets f) (fun _ => L) E.
Proof. intros s Hi. by exists (Ok (f s.1)), s. Qed.

Lemma runs_from_option {A} c L (o : option A) e : runs c L (from_option_or o e) (fun _ => L) L.
Proof. destruct o; [apply runs_mret|apply runs_throw]. Qed.

Lemma runs_if {A} c L (b : bool) (x y : pfs A) R E : runs c L x R E -> runs c L y R E -> runs c L (if b then x else y) R E.
Proof. by destruct b. Qed.

(** A call that closes nothing and changes no credentials. *)
Definition plain (k : syscall) : bool := match k with Close _ | Setresuid _ | Setresgid _ => false | _ => true end.

Lemma plain_close k fd : plain k = true -> k <> Close fd.
Proof. by intros ? ->. Qed.

(** What a call does to the invariant, by what it opens. *)
Lemma inv_sys c L k p w :
  inv c L (p, w) -> (forall fd, k <> Close fd) ->
  inv (creds (snd (sys k w)))
    (match fst (sys k w) with Ok r => match opened k r with Some fd => fd :: L | None => L end | Err _ => L end)
    (p, snd (sys k w)).
Proof.
  intros Hi Hc.
  assert (stray_closes (snd (sys k w)) = stray) as Es.
  { destruct Hi. rewrite host_stray. destruct k; try done. by edestruct Hc. }
  destruct (fst (sys k w)) as [r|e] eqn:Er; [destruct (opened k r) as [fd|] eqn:Eo|].
  - destruct (host_open _ _ _ _ Er Eo) as [Hn Ho], Hi; cbn [fst snd] in *. rewrite inv_open0 in *.
    assert (fd ∉ base /\ fd ∉ L ++ owned p) as [? ?] by set_solver.
    split; cbn [fst snd app]; try done; [by constructor| |rewrite Ho; set_solver].
    intros fd' [->|]%elem_of_cons; [done|by apply inv_base0].
  - pose proof (host_other _ _ _ Er Eo Hc) as Ho. destruct Hi; split; cbn [fst snd] in *; rewrite ?Ho; done.
  - pose proof (host_open_fails _ _ _ Er Hc) as Ho. destruct Hi; split; cbn [fst snd] in *; rewrite ?Ho; done.
Qed.

Lemma inv_plain c L k p w :
  inv c L (p, w) -> plain k = true ->
  inv c (match fst (sys k w) with Ok r => match opened k r with Some fd => fd :: L | None => L end | Err _ => L end)
    (p, snd (sys k w)).
Proof.
  intros Hi Hk. pose proof (inv_sys _ _ k _ _ Hi (fun fd => plain_close k fd Hk)) as Hs.
  destruct Hi. cbn [snd] in *. rewrite host_creds in Hs. destruct k; by rewrite <- inv_creds0.
Qed.

Lemma runs_os c L k :
  plain k = true ->
  runs c L (os k) (fun r => match opened k r with Some fd => fd :: L | None => L end) L.
Proof.
  intros Hk [p w] Hi. pose proof (inv_plain _ _ k _ _ Hi Hk) as Hs. unfold runs_at, os.
  destruct (sys k w) as [[r|e] w']; eauto.
Qed.

Lemma runs_os_quiet c L k E :
  plain k = true -> (forall r, opened k r = None) -> runs c L (os_quiet k) (fun _ => L) E.
Proof.
  intros Hk Ho [p w] Hi. pose proof (inv_plain _ _ k _ _ Hi Hk) as Hs. unfold runs_at, os_quiet.
  eexists (Ok tt), _; split; [done|]. destruct (sys k w) as [[r|e] w']; [|done]. cbn [fst] in Hs. by rewrite Ho in Hs.
Qed.

Lemma inv_close c L fd p w : inv c (fd :: L) (p, w) -> inv c L (p, snd (sys (Close fd) w)).
Proof.
  intros []; cbn [fst snd app] in *. apply NoDup_cons in inv_nodup0 as [Hn Hd].
  assert (fd ∉ base) as Hb by (apply inv_base0; set_solver).
  split; cbn [fst snd]; try done.
  - intros fd' Hfd. apply inv_base0. set_solver.
  - rewrite host_close, inv_open0. set_solver.
  - rewrite host_creds. by destruct (fst (sys (Close fd) w)).
  - rewrite host_stray, bool_decide_true; [done|]. rewrite inv_open0. set_solver.
Qed.

Lemma runs_close c L fd : runs c (fd :: L) (os (Close fd)) (fun _ => L) L.
Proof.
  intros [p w] Hi. pose proof (inv_close _ _ _ _ _ Hi) as Hc. unfold runs_at, os.
  destruct (sys (Close fd) w) as [[r|e] w']; eauto.
Qed.

Lemma runs_drop_file c L fd E : runs c (fd :: L) (drop_file fd) (fun _ => L) E.
Proof. intros [p w] Hi. eexists (Ok tt), _; split; [done|]. by apply inv_close. Qed.

Lemma runs_drop_files c L fds E : runs c (fds ++ L) (drop_files fds) (fun _ => L) E.
Proof.
  induction fds as [|fd fds IH]; [apply runs_mret|]. cbn [drop_files app].
  eapply runs_bind; [apply runs_drop_file|]. intros []. apply IH.
Qed.

Lemma runs_on_error {A} c L (body : pfs A) cl R L' E :
  runs c L body R L' -> runs c L' cl (fun _ => E) E -> runs c L (on_error body cl) R E.
Proof.
  intros Hb Hc s Hi. destruct (Hb s Hi) as (r & s' & Eb & Hi'). unfold runs_at, on_error. rewrite Eb. cbn.
  destruct r as [a|e]; [by exists (Ok a), s'|]. destruct (Hc s' Hi') as (r & s'' & Ec & Hi''). rewrite Ec.
  exists (Err e), s''. split; [done|]. by destruct r.
Qed.

Lemma runs_scoped {A} c L (body : pfs A) cl R L' R' E :
  runs c L body R L' -> (forall a, runs c (R a) cl (fun _ => R' a) (R' a)) -> runs c L' cl (fun _ => E) E ->
  runs c L (scoped body cl) R' E.
Proof.
  intros Hb Ho Hc s Hi. destruct (Hb s Hi) as (r & s' & Eb & Hi'). unfold runs_at, scoped. rewrite Eb. cbn.
  destruct r as [a|e].
  - destruct (Ho a s' Hi') as (r & s'' & Ec & Hi''). rewrite Ec. exists (Ok a), s''. split; [done|]. by destruct r.
  - destruct (Hc s' Hi') as (r & s'' & Ec & Hi''). rewrite Ec. exists (Err e), s''. split; [done|]. by destruct r.
Qed.
(** *** Credentials *)

(** The call [k] sets one half of the credentials. *)
Definition sets (k : Z -> syscall) (upd : Z -> Z * Z -> Z * Z) : Prop :=
  (forall v fd, k v <> Close fd) /\ (forall v r, opened (k v) r = None) /\
  (forall v w, creds (snd (sys (k v) w)) = match fst (sys (k v) w) with Ok _ => upd v (creds w) | Err _ => creds w end) /\
  (forall w, is_ok (fst (sys (k 0) w)) = true).

Definition upd_uid (u : Z) (c : Z * Z) : Z * Z := (u, c.2).

Definition upd_gid (g : Z) (c : Z * Z) : Z * Z := (c.1, g).

Lemma sets_uid : sets Setresuid upd_uid.
Proof. split_and!; try done; [intros v w; apply (host_creds (Setresuid v))|apply host_root_uid]. Qed.

Lemma sets_gid : sets Setresgid upd_gid.
Proof. split_and!; try done; [intros v w; apply (host_creds (Setresgid v))|apply host_root_gid]. Qed.

Lemma inv_sets k upd c L v p w :
  sets k upd -> inv c L (p, w) -> inv (match fst (sys (k v) w) with Ok _ => upd v c | Err _ => c end) L (p, snd (sys (k v) w)).
Proof.
  intros (Hc & Ho & Hs & _) Hi. pose proof (inv_sys _ _ (k v) _ _ Hi (Hc v)) as Hi'.
  rewrite Hs in Hi'. destruct Hi. cbn [snd] in *. rewrite inv_creds0 in Hi'.
  destruct (fst (sys (k v) w)); [by rewrite Ho in Hi'|done].
Qed.

Lemma acquire_inv k upd c L v s :
  sets k upd -> inv c L s -> exists r s', acquire k v s = Ret (r, s') /\
    inv match r with Ok true => upd v c | _ => c end L s'.
Proof.
  intros Hk Hi. unfold acquire. destruct (v =? 0); [by exists (Ok false), s|].
  destruct s as [p w]. pose proof (inv_sets _ _ _ _ v _ _ Hk Hi) as Hs.
  unfold mbind, pfs_bind, os. destruct (sys (k v) w) as [[r|e] w']; [by exists (Ok true), (p, w')|].
  by exists (Err (Some e)), (p, w').
Qed.

Lemma restore_inv k upd c L (held : bool) s :
  sets k upd -> inv c L s -> exists s', restore k held s = Ret (Ok tt, s') /\ inv (if held then upd 0 c else c) L s'.
Proof.
  intros Hk Hi. destruct held; [|by exists s]. destruct s as [p w]. eexists; split; [done|].
  pose proof (inv_sets _ _ _ _ 0 _ _ Hk Hi) as Hs. destruct Hk as (_ & _ & _ & Hr).
  specialize (Hr w). by destruct (fst (sys (k 0) w)).
Qed.

(** The thread is root before and after, whatever happens in between. *)
Lemma runs_with_creds {A} u g L (body : pfs A) R :
  (forall c, runs c L body R L) -> runs (0, 0) L (with_creds u g body) R L.
Proof.
  intros Hb s Hi. unfold runs_at, with_creds, mbind, pfs_bind.
  destruct (acquire_inv _ _ _ _ g _ sets_gid Hi) as (rg & s1 & -> & H1).
  destruct rg as [hg|e]; [|by exists (Err e), s1].
  set (c1 := if hg then upd_gid g (0, 0) else (0, 0)) in *.
  assert (inv c1 L s1) as H1' by (by destruct hg). clear H1.
  destruct (acquire_inv _ _ _ _ u _ sets_uid H1') as (ru & s2 & Eu & H2). unfold on_error. rewrite Eu. cbn.
  assert (forall c, (c = c1 \/ c = upd_uid u c1) -> (if hg then upd_gid 0 c else c) = (c.1, 0)) as Hback.
  { unfold c1. by destruct hg; intros c [-> | ->]. }
  destruct ru as [hu|e]; cbn.
  - set (c2 := if hu then upd_uid u c1 else c1) in *. assert (inv c2 L s2) as H2' by (by destruct hu).
    unfold scoped, mbind, pfs_bind. destruct (Hb c2 s2 H2') as (r & s3 & -> & H3). cbn.
    destruct (restore_inv _ _ _ _ hg _ sets_gid H3) as (s4 & -> & H4). rewrite Hback in H4 by (destruct hu; auto).
    destruct (restore_inv _ _ _ _ hu _ sets_uid H4) as (s5 & -> & H5). cbn. exists r, s5. split; [done|].
    enough ((if hu then upd_uid 0 (c2.1, 0) else (c2.1, 0)) = (0, 0)) as <- by done.
    unfold c2, c1. by destruct hu, hg.
  - destruct (restore_inv _ _ _ _ hg _ sets_gid H2) as (s3 & -> & H3). cbn. exists (Err e), s3. split; [done|].
    rewrite Hback in H3 by auto. enough ((c1.1, 0) = (0, 0)) as <- by done. unfold c1. by destruct hg.
Qed.
(** *** The tables *)

Abbreviation file_of := (fun x : InodeAltKey * InodeData => id_file x.2).

Lemma insert_tables m i k d : tables_ok m -> id_inode d = i -> tables_ok (snd (Multikey.insert m i k d)).
Proof.
  intros [Ho Hid] Hd. split; [by apply Multikey.insert_one_to_one|]. intros j k' d'.
  rewrite Multikey.insert_main_lookup. repeat case_bool_decide; naive_solver.
Qed.

Lemma insert_files m i k d :
  tables_ok m -> id_file d :: files_of file_of (main m) ≡ₚ
    displaced m i k ++ files_of file_of (main (snd (Multikey.insert m i k d))).
Proof.
  intros [Ho Hid]. rewrite Multikey.insert_main. unfold displaced, Multikey.get_alt, Multikey.get.
  pose proof (files_of_replace file_of (main m) i (k, d)) as Hr. cbn [snd] in Hr.
  destruct (alt m !! k) as [o|] eqn:Ea.
  - apply Ho in Ea as [w Hw]. rewrite Hw. cbn [fmap option_fmap option_map snd]. rewrite (Hid _ _ _ Hw).
    destruct (o =? i) eqn:Eo.
    + apply Z.eqb_eq in Eo as ->. rewrite Hw in *. rewrite app_nil_r, insert_delete_eq. exact Hr.
    + apply Z.eqb_neq in Eo. rewrite (files_of_delete file_of (main m) o (k, w)) by done. cbn [snd].
      rewrite perm_swap, (files_of_replace file_of (delete o (main m)) i (k, d)), lookup_delete_ne by done.
      rewrite <- app_assoc, Permutation_middle. destruct (main m !! i) as [[]|]; done.
  - rewrite app_nil_r. destruct (main m !! i) as [[]|]; exact Hr.
Qed.

Lemma refcount_tables m i n : tables_ok m -> tables_ok (set_refcount m i n).
Proof.
  intros [Ho Hid]. split.
  - intros k1 k2. cbn. rewrite (Ho k1 k2). destruct (decide (i = k1)) as [<-|Hne].
    + rewrite lookup_alter_eq. destruct (main m !! i) as [[k d]|]; cbn; naive_solver.
    + by rewrite lookup_alter_ne.
  - intros j k d. cbn. destruct (decide (i = j)) as [<-|Hne].
    + rewrite lookup_alter_eq. destruct (main m !! i) as [[k' d']|] eqn:E; cbn; [|done].
      intros [= <- <-]. by apply (Hid _ _ _ E).
    + rewrite lookup_alter_ne by done. apply Hid.
Qed.

Lemma refcount_files m i n : files_of file_of (main (set_refcount m i n)) ≡ₚ files_of file_of (main m).
Proof. apply files_of_alter. by intros [k d]. Qed.

Lemma remove_tables m i : tables_ok m -> tables_ok (snd (Multikey.remove m i)).
Proof.
  intros [Ho Hid]. split; [by apply Multikey.remove_one_to_one|]. unfold Multikey.remove.
  destruct (main m !! i) as [[k d]|]; [|done]. intros j k' d'. cbn. rewrite lookup_delete_Some. intros [_ Hj]. by eapply Hid.
Qed.

Lemma remove_files m i d :
  Multikey.get m i = Some d ->
  files_of file_of (main m) ≡ₚ id_file d :: files_of file_of (main (snd (Multikey.remove m i))).
Proof.
  unfold Multikey.get, Multikey.remove. destruct (main m !! i) as [[k d']|] eqn:E; [|done]. intros [= <-]. cbn.
  by apply (files_of_delete file_of (main m) i (k, d')).
Qed.

(** A body that looks at the state first, or changes it first. *)
Lemma runs_gets_at {A B} c s (f : PassthroughFs -> A) (k : A -> pfs B) R E :
  runs_at c s (k (f (fst s))) R E -> runs_at c s (a ← gets f; k a) R E.
Proof. done. Qed.

Lemma runs_modify_at {B} c L p w g (k : unit -> pfs B) R E :
  inv c L (g p, w) -> runs c L (k tt) R E -> runs_at c (p, w) (a ← modify g; k a) R E.
Proof. intros Hi Hk. exact (Hk _ Hi). Qed.

Lemma runs_insert_inode c L i k d E :
  id_inode d = i -> runs c (id_file d :: L) (insert_inode i k d) (fun _ => L) E.
Proof.
  intros Hd [p w] Hi. pose proof (inv_tables _ _ _ Hi) as Ht. apply runs_gets_at.
  eapply (runs_modify_at _ (displaced (inodes p) i k ++ L)); [|apply runs_drop_files].
  eapply inv_perm; [by apply insert_tables| |exact Hi]. unfold owned, inode_fds. cbn [inodes set_inodes handle_fds handles].
  rewrite <- app_comm_cons, (app_assoc L), (Permutation_app_comm L), <- app_assoc, app_comm_cons.
  rewrite (insert_files _ i k d) by done. rewrite <- !app_assoc. f_equiv. rewrite !app_assoc. f_equiv; [apply Permutation_app_comm|done].
Qed.

Lemma runs_remember c L f st E : runs c (f :: L) (remember f st) (fun _ => L) E.
Proof.
  intros [p w] Hi. apply runs_gets_at. cbn [fst]. destruct (Multikey.get_alt (inodes p) _) as [d|].
  - eapply (runs_modify_at _ (f :: L)).
    + eapply inv_perm; [apply refcount_tables, (inv_tables _ _ _ Hi)| |exact Hi].
      unfold owned, inode_fds. cbn [inodes set_inodes handle_fds handles]. by rewrite refcount_files.
    + eapply runs_bind; [apply runs_drop_file|]. intros []. apply runs_mret.
  - apply runs_gets_at. eapply (runs_modify_at _ (f :: L)); [apply (inv_perm _ (f :: L) _ p); [apply (inv_tables _ _ _ Hi)|done|exact Hi]|].
    eapply runs_bind; [by apply (runs_insert_inode _ _ _ _ (mkInode (next_inode p) f 1))|]. intros []. apply runs_mret.
Qed.

Lemma runs_forget_one c L i n E : runs c L (forget_one i n) (fun _ => L) E.
Proof.
  intros [p w] Hi. apply runs_gets_at. cbn [fst]. destruct (Multikey.get (inodes p) i) as [d|] eqn:Eg; [|by apply runs_mret].
  pose proof (inv_tables _ _ _ Hi) as Ht.
  cbv zeta. set (m := set_refcount (inodes p) i (Z.max 0 (refcount d - n))).
  assert (inv c L (set_inodes p m, w)) as Hm.
  { eapply inv_perm; [apply refcount_tables, Ht| |exact Hi].
    unfold owned, inode_fds. cbn [inodes set_inodes handle_fds handles]. unfold m; by rewrite refcount_files. }
  case_match; [|by apply (runs_modify_at _ L); [|apply runs_mret]].
  change (runs_at c (set_inodes p m, w) (_ ← modify (fun p => set_inodes p (snd (Multikey.remove (inodes p) i))); drop_file (id_file d)) (fun _ => L) E).
  eapply (runs_modify_at _ (id_file d :: L)); [|apply runs_drop_file].
  eapply inv_perm; [apply remove_tables, refcount_tables, Ht| |exact Hm].
  unfold owned, inode_fds. cbn [inodes set_inodes handle_fds handles].
  assert (exists d', Multikey.get m i = Some d' /\ id_file d' = id_file d) as (d' & Eg' & <-).
  { unfold Multikey.get, m, set_refcount in *. cbn. rewrite lookup_alter_eq. destruct (main (inodes p) !! i) as [[]|]; [|done].
    cbn in *. simplify_eq. by eexists. }
  rewrite (remove_files m i d' Eg'). symmetry. apply Permutation_middle.
Qed.

Lemma runs_insert_handle c L hd E : runs c (hd_file hd :: L) (insert_handle hd) (fun _ => L) E.
Proof.
  intros [p w] Hi. apply runs_gets_at. cbn [fst]. generalize (next_handle p). intros h.
  apply (runs_modify_at _ (hd_file hd :: L)); [by apply (inv_perm _ (hd_file hd :: L) _ p); [apply (inv_tables _ _ _ Hi)| |]|].
  clear p w Hi. intros [p w] Hi. apply runs_gets_at. cbn [fst].
  set (old := match handles p !! h with Some o => [hd_file o] | None => [] end).
  apply (runs_modify_at _ (old ++ L)).
  - eapply inv_perm; [apply (inv_tables _ _ _ Hi)| |exact Hi].
    unfold owned, inode_fds, handle_fds. cbn [inodes set_handles handles].
    rewrite <- app_comm_cons, (app_assoc L), Permutation_middle, (files_of_replace hd_file (handles p) h hd). fold old.
    by rewrite !(app_assoc _ old), (Permutation_app_comm _ old), <- !app_assoc.
  - apply (runs_bind _ _ _ _ (fun _ => L)); [|intros []; apply runs_mret].
    unfold old. destruct (handles p !! h); [apply runs_drop_file|apply runs_mret].
Qed.

Lemma runs_do_release c L i h : runs c L (do_release i h) (fun _ => L) L.
Proof.
  intros [p w] Hi. apply runs_gets_at. cbn [fst]. destruct (handles p !! h) as [hd|] eqn:Eh; [|by apply runs_throw].
  destruct (hd_inode hd =? i); [|by apply runs_throw].
  apply (runs_modify_at _ (hd_file hd :: L)); [|apply runs_drop_file].
  eapply inv_perm; [apply (inv_tables _ _ _ Hi)| |exact Hi].
  unfold owned, inode_fds, handle_fds. cbn [inodes set_handles handles].
  by rewrite (files_of_delete hd_file _ _ _ Eh), <- !Permutation_middle.
Qed.

Lemma runs_destroy c L E : runs c L destroy (fun _ => L) E.
Proof.
  intros [p w] Hi. apply runs_gets_at. cbn [fst].
  apply (runs_modify_at _ (handle_fds p ++ L)).
  - eapply inv_perm; [apply (inv_tables _ _ _ Hi)| |exact Hi].
    unfold owned, inode_fds, handle_fds. cbn [inodes set_handles handles].
    rewrite files_of_empty, app_nil_r, !app_assoc. rewrite (Permutation_app_comm _ (files_of hd_file _)). by rewrite app_assoc.
  - eapply runs_bind; [apply runs_drop_files|]. intros []. clear p w Hi. intros [p w] Hi. apply runs_gets_at. cbn [fst].
    apply (runs_modify_at _ (inode_fds p ++ L)); [|apply runs_drop_files].
    eapply inv_perm; [|  |exact Hi].
    + split; [apply Multikey.one_to_one_new|done].
    + unfold owned, inode_fds. cbn [inodes set_inodes Multikey.clear main handle_fds handles].
      rewrite files_of_empty. cbn [app]. rewrite !app_assoc. f_equiv; [apply Permutation_app_comm|done].
Qed.

(** *** The methods *)

Lemma runs_scoped_drop {A} c L fd (body : pfs A) :
  runs c (fd :: L) body (fun _ => fd :: L) (fd :: L) -> runs c (fd :: L) (scoped body (drop_file fd)) (fun _ => L) L.
Proof. intros Hb. eapply runs_scoped; [exact Hb|intros a|]; apply runs_drop_file. Qed.

Lemma runs_on_error_drop {A} c L fd (body : pfs A) :
  runs c (fd :: L) body (fun _ => fd :: L) (fd :: L) -> runs c (fd :: L) (on_error body (drop_file fd)) (fun _ => fd :: L) L.
Proof. intros Hb. eapply runs_on_error; [exact Hb|apply runs_drop_file]. Qed.

(** One step through a body, by the rule of its first action. *)
Ltac own_step :=
  cbv zeta; cbn [opened];
  lazymatch goal with
  | |- forall _, _ => intros ?
  | |- runs _ _ (mret _) _ _ => apply runs_mret
  | |- runs _ _ (throw _) _ _ => apply runs_throw
  | |- runs _ _ (gets _) _ _ => apply runs_gets
  | |- runs _ _ (from_option_or _ _) _ _ => apply runs_from_option
  | |- runs _ _ (os (Close _)) _ _ => apply runs_close
  | |- runs _ _ (os ?k) _ _ => apply (runs_os _ _ k); reflexivity
  | |- runs _ _ (os_quiet ?k) _ _ => apply (runs_os_quiet _ _ k); reflexivity
  | |- runs _ _ (scoped _ (drop_file _)) _ _ => apply runs_scoped_drop
  | |- runs _ _ (on_error _ (drop_file _)) _ _ => apply runs_on_error_drop
  | |- runs _ _ (if _ then _ else _) _ _ => apply runs_if
  | |- runs _ _ (match ?x with _ => _ end) _ _ => destruct x
  | |- runs _ _ (with_creds _ _ _) _ _ => apply runs_with_creds
  | |- runs _ _ (_ ≫= _) _ _ => eapply runs_bind
  | |- runs _ _ _ _ _ => solve [eauto with own nocore]
  end.

Ltac own := repeat own_step.

Lemma runs_set_writeback c L E : runs c L (modify set_writeback) (fun _ => L) E.
Proof. intros [p w] Hi. eexists (Ok tt), _; split; [done|]. by apply (inv_perm _ L _ p); [apply (inv_tables _ _ _ Hi)| |]. Qed.

Lemma runs_get_inode c L i : runs c L (get_inode i) (fun _ => L) L.
Proof. unfold get_inode. own. Qed.

Lemma runs_get_handle c L i h : runs c L (get_handle i h) (fun _ => L) L.
Proof. unfold get_handle. own. Qed.

Lemma runs_entry_of c L i st E : runs c L (entry_of i st) (fun _ => L) E.
Proof. unfold entry_of. own. Qed.

Lemma runs_new_handle c L i fd E : runs c (fd :: L) (insert_handle (mkHandle i fd)) (fun _ => L) E.
Proof. apply (runs_insert_handle c L (mkHandle i fd)). Qed.

Lemma runs_new_inode c L i k fd n E : runs c (fd :: L) (insert_inode i k (mkInode i fd n)) (fun _ => L) E.
Proof. by apply (runs_insert_inode c L i k (mkInode i fd n)). Qed.
#[local] Hint Resolve runs_set_writeback runs_get_inode runs_get_handle runs_entry_of runs_new_inode runs_remember runs_forget_one
  runs_new_handle runs_do_release runs_destroy runs_drop_file : own.

Lemma runs_open_inode c L i flags : runs c L (open_inode i flags) (fun fd => fd :: L) L.
Proof. unfold open_inode. own. Qed.

Lemma runs_do_lookup c L parent nm : runs c L (do_lookup parent nm) (fun _ => L) L.
Proof. unfold do_lookup, do_lookup_at, debug_name. cbn [DEBUG_ON andb]. own. Qed.
#[local] Hint Resolve runs_open_inode runs_do_lookup : own.

Lemma runs_do_open c L i flags : runs c L (do_open i flags) (fun _ => L) L.
Proof. unfold do_open. own. Qed.
#[local] Hint Resolve runs_do_open : own.

Lemma runs_opendir c L i flags : runs c L (opendir i flags) (fun _ => L) L.
Proof. unfold opendir. own. Qed.
#[local] Hint Resolve runs_opendir : own.

Lemma runs_do_getattr c L i : runs c L (do_getattr i) (fun _ => L) L.
Proof. unfold do_getattr. own. Qed.
#[local] Hint Resolve runs_do_getattr : own.

Lemma runs_do_unlink c L parent nm flags : runs c L (do_unlink parent nm flags) (fun _ => L) L.
Proof. unfold do_unlink. own. Qed.
#[local] Hint Resolve runs_do_unlink : own.

Lemma runs_statfs c L i : runs c L (statfs i) (fun _ => L) L.
Proof. unfold statfs. own. Qed.
#[local] Hint Resolve runs_statfs : own.

Lemma runs_lookup c L parent nm : runs c L (Passthrough.lookup INIT_BINARY parent nm) (fun _ => L) L.
Proof. unfold lookup. own. Qed.
#[local] Hint Resolve runs_lookup : own.

Lemma runs_batch_forget c L l E : runs c L (batch_forget l) (fun _ => L) E.
Proof. induction l as [|[i n] l IH]; cbn [batch_forget]; own. Qed.
#[local] Hint Resolve runs_batch_forget : own.

Lemma runs_link c L i np nm : runs c L (link i np nm) (fun _ => L) L.
Proof. unfold link. own. Qed.
#[local] Hint Resolve runs_link : own.

Lemma runs_rename c L od on nd nn flags : runs c L (rename od on nd nn flags) (fun _ => L) L.
Proof. unfold rename. own. Qed.
#[local] Hint Resolve runs_rename : own.

Lemma runs_readlink c L i : runs c L (readlink i) (fun _ => L) L.
Proof. unfold readlink. own. Qed.
#[local] Hint Resolve runs_readlink : own.

Lemma runs_open c L i flags : runs c L (open i flags) (fun _ => L) L.
Proof. unfold open. own. Qed.
#[local] Hint Resolve runs_open : own.

Lemma runs_setattr c L i at_ h v : runs c L (setattr i at_ h v) (fun _ => L) L.
Proof. unfold setattr. own. Qed.
#[local] Hint Resolve runs_setattr : own.

Lemma runs_access c L ctx i mask : runs c L (access ctx i mask) (fun _ => L) L.
Proof. unfold access. own. Qed.
#[local] Hint Resolve runs_access : own.

Lemma runs_setxattr c L i nm v flags : runs c L (setxattr i nm v flags) (fun _ => L) L.
Proof. unfold setxattr, xattr_enabled, with_inode. own. Qed.
#[local] Hint Resolve runs_setxattr : own.

Lemma runs_getxattr c L i nm size : runs c L (getxattr i nm size) (fun _ => L) L.
Proof. unfold getxattr, xattr_enabled, with_inode. own. Qed.
#[local] Hint Resolve runs_getxattr : own.

Lemma runs_listxattr c L i size : runs c L (listxattr i size) (fun _ => L) L.
Proof. unfold listxattr, xattr_enabled, with_inode. own. Qed.
#[local] Hint Resolve runs_listxattr : own.

Lemma runs_removexattr c L i nm : runs c L (removexattr i nm) (fun _ => L) L.
Proof. unfold removexattr, xattr_enabled, with_inode. own. Qed.
#[local] Hint Resolve runs_removexattr : own.

Lemma runs_flush c L i h : runs c L (flush i h) (fun _ => L) L.
Proof. unfold flush. own. Qed.
#[local] Hint Resolve runs_flush : own.

Lemma runs_fsync c L i d h : runs c L (fsync i d h) (fun _ => L) L.
Proof. unfold fsync. own. Qed.
#[local] Hint Resolve runs_fsync : own.

Lemma runs_fallocate c L i h mode off len : runs c L (fallocate i h mode off len) (fun _ => L) L.
Proof. unfold fallocate. own. Qed.
#[local] Hint Resolve runs_fallocate : own.

Lemma runs_lseek c L i h off wh : runs c L (lseek i h off wh) (fun _ => L) L.
Proof. unfold lseek. own. Qed.
#[local] Hint Resolve runs_lseek : own.

Lemma runs_read_records c L i h size off : runs c L (read_records i h size off) (fun _ => L) L.
Proof. unfold read_records. own. Qed.
#[local] Hint Resolve runs_read_records : own.

Lemma runs_removemapping c L l base_ size : runs c L (removemapping l base_ size) (fun _ => L) L.
Proof. induction l as [|req l IH]; cbn [removemapping]; own. Qed.
#[local] Hint Resolve runs_removemapping : own.

(** *** With the caller's credentials *)

Lemma runs_no_secctx {A} c L e (body : pfs A) R E : ext_secctx e = None -> runs c L body R E -> runs c L (no_secctx e body) R E.
Proof. intros He. unfold no_secctx. by rewrite He. Qed.
#[local] Hint Resolve runs_no_secctx : own.

Lemma runs_mkdir ctx p nm mode um e L : ext_secctx e = None -> runs (0, 0) L (mkdir ctx p nm mode um e) (fun _ => L) L.
Proof. intros He. apply runs_no_secctx; [done|]. own. Qed.

Lemma runs_mknod ctx p nm mode d um e L : ext_secctx e = None -> runs (0, 0) L (mknod ctx p nm mode d um e) (fun _ => L) L.
Proof. intros He. apply runs_no_secctx; [done|]. own. Qed.

Lemma runs_symlink ctx ln p nm e L : ext_secctx e = None -> runs (0, 0) L (symlink ctx ln p nm e) (fun _ => L) L.
Proof. intros He. apply runs_no_secctx; [done|]. own. Qed.

Lemma runs_create ctx p nm mode fl um e L : ext_secctx e = None -> runs (0, 0) L (create ctx p nm mode fl um e) (fun _ => L) L.
Proof. intros He. apply runs_no_secctx; [done|]. own. Qed.

Lemma runs_init c L n s :
  inv c L s -> existsb (Z.eqb 0) (root_dir (cfg (fst s))) = false -> runs_at c s (init n) (fun _ => L) L.
Proof.
  intros Hi Hr. apply runs_gets_at. rewrite Hr. generalize (cfg (fst s)). intros cf. revert s Hi Hr.
  enough (runs c L (f ← os (Openat AT_FDCWD (root_dir cf) (O_PATH .| O_NOFOLLOW .| O_CLOEXEC) 0);
    st ← on_error (os (Fstatat f)) (drop_file f);
    _ ← os_quiet (Umask 0);
    _ ← insert_inode ROOT_ID (mkAlt (st_ino st) (st_dev st)) (mkInode ROOT_ID f 2);
    let opts := DO_READDIRPLUS .| READDIRPLUS_AUTO in
    if cfg_writeback cf && contains n WRITEBACK_CACHE then
      _ ← modify set_writeback; mret (opts .| WRITEBACK_CACHE)
    else mret opts) (fun _ => L) L) as Hb by (intros s Hi _; by apply Hb).
  own.
Qed.

Lemma runs_copyfilerange c L i h off i' h' off' len fl :
  fitsb 32 fl = true -> runs c L (copyfilerange i h off i' h' off' len fl) (fun _ => L) L.
Proof. intros Hf. unfold copyfilerange. rewrite Hf. own. Qed.

(** *** Data and listings

    These pass guest memory, or a listing's reply, through the state of the
    method; the rest of the state goes through system calls only. *)

Section memory.
Context {M : Type} `{GuestMemory M}.

Lemma consume_keeps {X} (P : X -> Prop) c count f x r c' x' :
  (forall bufs x r x', P x -> f bufs x = Ret (r, x') -> P x') -> P x -> DescUtils.consume c count f x = Ret (r, c', x') -> P x'.
Proof.
  intros Hf Hx. unfold DescUtils.consume. destruct (DescUtils.gather _ _ _) as [|b bs]; [by intros [= _ _ <-]|].
  cbn. destruct (f (b :: bs) x) as [[[n|e] x1]|] eqn:E; [|by intros [= _ _ <-]; eapply Hf|done]. cbn.
  destruct (checked_add 64 _ n); [|by intros [= _ _ <-]; eapply Hf]. cbn.
  destruct (DescUtils.skip_bytes _ _); [|done]. by intros [= _ _ <-]; eapply Hf.
Qed.

Lemma transfer_keeps (P : W -> Prop) f c size w (m : M) r w' m' :
  (forall bufs w m e r w' m' e', P w -> f bufs (w, m, e) = Ret (r, (w', m' : M, e')) -> P w') -> P w ->
  transfer f c size w m = Ret (r, w', m') -> P w'.
Proof.
  intros Hf Hw. unfold transfer. destruct (DescUtils.consume _ _ _ _) as [[[r1 c1] [[w1 m1] e1]]|] eqn:E; [|done].
  cbn. intros [= _ <- _]. change (P (w1, m1, e1).1.1).
  apply (consume_keeps (fun t : W * M * IoErr => P (fst (fst t))) c size f (w, m, None) r1 c1 (w1, m1, e1)); [|exact Hw|exact E].
  intros bufs [[w2 m2] e2] r2 [[w3 m3] e3]. apply Hf.
Qed.

Lemma inv_other c L k p w : inv c L (p, w) -> plain k = true -> (forall r, opened k r = None) -> inv c L (p, snd (sys k w)).
Proof.
  intros Hi Hk Ho. pose proof (inv_plain _ _ k _ _ Hi Hk) as Hs. destruct (fst (sys k w)); [by rewrite Ho in Hs|done].
Qed.

Lemma preadv_keeps c L p fd off bufs w (m : M) e r w' m' e' :
  inv c L (p, w) -> preadv fd off bufs (w, m, e) = Ret (r, (w', m', e')) -> inv c L (p, w').
Proof.
  intros Hi. pose proof (inv_other _ _ (Preadv64 fd (DescUtils.total bufs) (to_signed 64 off)) _ _ Hi eq_refl ltac:(done)) as Hs.
  unfold preadv. destruct (sys _ w) as [[bs|er] w1]; [|by intros [= _ <- _ _]].
  cbn. destruct (DescUtils.copy_to _ _ _) as [[? ?]|]; [|done]. by intros [= _ <- _ _].
Qed.

Lemma pwritev_keeps c L p fd off bufs w (m : M) e r w' m' e' :
  inv c L (p, w) -> pwritev fd off bufs (w, m, e) = Ret (r, (w', m', e')) -> inv c L (p, w').
Proof.
  intros Hi. unfold pwritev. destruct (DescUtils.copy_from _ _ _) as [bs|]; [|done]. cbn. unfold put.
  pose proof (inv_other _ _ (Pwritev64 fd bs (to_signed 64 off)) _ _ Hi eq_refl ltac:(done)) as Hs.
  destruct (sys _ w) as [[n|er] w1]; by intros [= _ <- _ _].
Qed.

(** From [runs] to what a method that returned has kept. *)
Lemma runs_keeps {A} c L (x : pfs A) : runs c L x (fun _ => L) L -> FsInvariant.keeps_io (inv c L) x.
Proof. intros Hx s r s' Hi E. destruct (Hx s Hi) as (r' & s1 & E' & Hi'). rewrite E in E'. simplify_eq. by destruct r'. Qed.

Lemma read_keeps i h k size off s (m : M) r s' m' :
  inv (0, 0) [] s -> Passthrough.read INIT_BINARY i h k size off s m = Ret (r, s', m') -> inv (0, 0) [] s'.
Proof.
  intros Hi. unfold Passthrough.read. destruct (i =? _).
  { cbn. destruct (init_slice _ _ _) as [bs|]; [|done]. cbn. destruct (DescUtils.write _ _ _) as [[[? ?] ?]|]; [|done]. by intros [= _ <- _]. }
  pose proof (runs_keeps _ _ _ (runs_get_handle (0, 0) [] i h)) as Hk.
  destruct (get_handle i h s) as [[data [p w]]|] eqn:E; [|done]. apply (Hk _ _ _ Hi) in E. cbn.
  destruct data as [d|e]; [|by intros [= _ <- _]].
  destruct (transfer _ _ _ _ _) as [[[r1 w1] m1]|] eqn:Et; [|done]. intros [= _ <- _].
  eapply (transfer_keeps (fun w => inv (0, 0) [] (p, w))); [|exact E|exact Et].
  intros. by eapply preadv_keeps.
Qed.

Lemma runs_write_creds ctx (kill : bool) :
  runs (0, 0) [] (if kill then with_creds (uid ctx) (gid ctx) (mret tt) else mret tt) (fun _ => []) [].
Proof. own. Qed.

Lemma write_keeps (m : M) ctx i h k size off kill : FsInvariant.keeps_io (inv (0, 0) []) (Passthrough.write m ctx i h k size off kill).
Proof.
  intros s r s' Hi. unfold Passthrough.write, mbind, pfs_bind.
  destruct (runs_write_creds ctx kill s Hi) as (r1 & s1 & -> & Hi1). destruct r1 as [[]|e]; [|by intros [= _ <-]].
  destruct (runs_get_handle (0, 0) [] i h s1 Hi1) as (r2 & [p w] & -> & Hi2). destruct r2 as [d|e]; [|by intros [= _ <-]].
  unfold write_from_reader. destruct (transfer _ _ _ _ _) as [[[r3 w3] m3]|] eqn:Et; [|done]. cbn. intros [= _ <-].
  eapply (transfer_keeps (fun w => inv (0, 0) [] (p, w))); [|exact Hi2|exact Et].
  intros. by eapply pwritev_keeps.
Qed.

Lemma dirents_loop_keeps {X} (P : X -> Prop) add fuel rem x r x' :
  (forall d x r x', P x -> add d x = Ret (r, x') -> P x') -> P x -> dirents_loop add fuel rem x = Ret (r, x') -> P x'.
Proof.
  intros Ha. revert rem x. induction fuel as [|fuel IH]; intros [|b rem] x Hx; cbn [dirents_loop]; try by intros [= _ <-].
  destruct (_ <? _)%nat; [done|]. cbv zeta. destruct (_ <? _); [done|].
  set (d := from_slice _). destruct (until_nul _) as [nm|]; cbn [unwrap mbind outcome_bind]; [|done].
  destruct (_ || _).
  - cbn. by apply IH.
  - destruct (add _ x) as [[[n|e] x1]|] eqn:E; cbn; [|intros [= _ <-]; by eapply Ha|done].
    assert (P x1) by by eapply Ha. destruct (n =? 0); [by intros [= _ <-]|by apply IH].
Qed.

Lemma do_readdir_keeps {X} (view : X -> St) update i h size off add (x : X) r x' c :
  (forall x s, view (update x s) = s) ->
  (forall d x r x', inv c [] (view x) -> add d x = Ret (r, x') -> inv c [] (view x')) ->
  inv c [] (view x) -> do_readdir view update i h size off add x = Ret (r, x') -> inv c [] (view x').
Proof.
  intros Hv Ha Hx. unfold do_readdir. destruct (size =? 0); [by intros [= _ <-]|].
  destruct (runs_read_records c [] i h size off (view x) Hx) as (r1 & s1 & -> & Hi1). cbv beta iota zeta delta [mbind outcome_bind].
  destruct r1 as [buf|e]; [|intros [= _ <-]; by rewrite Hv].
  apply (dirents_loop_keeps (fun x => inv c [] (view x)) add); [exact Ha|]. by rewrite Hv.
Qed.

Lemma readdir_keeps i h size off : FsInvariant.keeps_readdir (M := M) (inv (0, 0) []) (Passthrough.readdir i h size off).
Proof.
  intros cb s k r s' k' Hi. unfold Passthrough.readdir. destruct (do_readdir _ _ _ _ _ _ _ _) as [[r1 [s1 k1]]|] eqn:E; [|done].
  intros [= _ <- _].
  apply do_readdir_keeps with (c := (0, 0)) in E; [exact E|done| |exact Hi]. cbn. intros d [s2 k2] r2 [s3 k3] Hi2. cbn.
  destruct (cb d k2) as [[? ?]|]; [|done]. by intros [= _ <- _].
Qed.

Lemma readdirplus_keeps i h size off : FsInvariant.keeps_readdir (M := M) (inv (0, 0) []) (Passthrough.readdirplus i h size off).
Proof.
  intros cb s k r s' k' Hi. unfold Passthrough.readdirplus. destruct (do_readdir _ _ _ _ _ _ _ _) as [[r1 [s1 k1]]|] eqn:E; [|done].
  intros [= _ <- _].
  apply do_readdir_keeps with (c := (0, 0)) in E; [exact E|done| |exact Hi]. cbn. intros d [s2 k2] r2 [s3 k3] Hi2. cbn.
  destruct (runs_do_lookup (0, 0) [] i (name d) s2 Hi2) as (re & s4 & -> & Hi4). cbn.
  destruct re as [e|e]; [|by intros [= _ <- _]]. cbn. destruct (cb _ _) as [[? ?]|]; [|done]. by intros [= _ <- _].
Qed.

Lemma secctx_keeps {A} c L e (body : pfs A) : runs c L body (fun _ => L) L -> FsInvariant.keeps_io (inv c L) (no_secctx e body).
Proof. intros Hb. unfold no_secctx. destruct (ext_secctx e); [done|by apply runs_keeps]. Qed.

Lemma init_keeps n : FsInvariant.keeps_io (inv (0, 0) []) (init n).
Proof.
  intros s r s' Hi E. destruct (existsb (Z.eqb 0) (root_dir (cfg (fst s)))) eqn:Hz.
  - unfold init, mbind, pfs_bind, gets in E. by rewrite Hz in E.
  - destruct (runs_init _ _ n s Hi Hz) as (r1 & s1 & E1 & Hi1). rewrite E in E1. simplify_eq. by destruct r1.
Qed.

Lemma copyfilerange_keeps i h off i' h' off' len fl : FsInvariant.keeps_io (inv (0, 0) []) (copyfilerange i h off i' h' off' len fl).
Proof.
  destruct (fitsb 32 fl) eqn:Hf; [by apply runs_keeps, runs_copyfilerange|].
  intros s r s' Hi. unfold copyfilerange, mbind, pfs_bind. rewrite Hf.
  destruct (runs_get_handle (0, 0) [] i h s Hi) as (r1 & s1 & -> & Hi1). destruct r1 as [d|e]; [|by intros [= _ <-]].
  destruct (runs_get_handle (0, 0) [] i' h' s1 Hi1) as (r2 & s2 & -> & Hi2). destruct r2 as [d'|e]; [done|by intros [= _ <-]].
Qed.

Lemma quiet_keeps c L (x : pfs unit) : runs c L x (fun _ => L) L -> FsInvariant.keeps_quiet (inv c L) (quiet x).
Proof. intros Hx s s' Hi. unfold quiet. destruct (Hx s Hi) as (r & s1 & -> & Hi1). intros [= <-]. by destruct r. Qed.

#[local] Existing Instance Passthrough.passthrough_fs.

(** Every method but [setupmapping]. *)
Lemma passthrough_respects : FsInvariant.respects (M := M) (FS := passthrough_fs INIT_BINARY) (inv (0, 0) []).
Proof.
  split; intros;
    try solve [ apply runs_keeps; cbn; unfold unlink, rmdir, opendir, releasedir, release, fsyncdir, getattr; auto with own nocore
              | apply quiet_keeps; cbn; unfold forget; auto with own nocore
              | apply secctx_keeps; own
              | by intros ? ? ? ? [= _ <-] ].
  - apply init_keeps.
  - match goal with E : _ = Ret _, Hi : inv _ _ _ |- _ => exact (read_keeps _ _ _ _ _ _ _ _ _ _ Hi E) end.
  - apply write_keeps.
  - apply readdir_keeps.
  - apply readdirplus_keeps.
  - apply copyfilerange_keeps.
Qed.
End memory.

(** [setupmapping] closes the descriptor of the mapped file by itself and
    again by the drop of its owner, so every mapping of a file closes a number
    that may be another thread's file by then. *)
Lemma setupmapping_closes_twice c i fo len fl mo b size p w s' :
  inv c [] (p, w) -> i <> init_inode p ->
  setupmapping INIT_BINARY i fo len fl mo b size (p, w) = Ret (Ok tt, s') -> stray_closes (snd s') = S stray.
Proof.
  intros Hi Hne. unfold setupmapping. cbv zeta. destruct (size <? _); [done|].
  unfold mbind, pfs_bind, gets. cbn [fst]. rewrite (proj2 (Z.eqb_neq _ _) Hne).
  destruct (runs_open_inode c [] i (if negb (fl .& SETUPMAPPING_WRITE =? 0) then O_RDWR else O_RDONLY) (p, w) Hi) as (r & [p1 w1] & -> & Hi1).
  destruct r as [fd|e]; [|done]. unfold scoped, os.
  match goal with |- context [sys (Mmap ?a ?b ?c ?d ?e ?f) w1] => set (k := Mmap a b c d e f) in * end.
  pose proof (inv_plain _ _ k _ _ Hi1 eq_refl) as Hi2. cbn [opened k] in Hi2.
  assert (inv c [fd] (p1, snd (sys k w1))) as Hi3 by (by destruct (fst (sys k w1))). clear Hi2.
  destruct (sys k w1) as [[r|e] w2]; cbn in *; [|by destruct (sys (Close fd) w2)].
  pose proof (inv_close _ _ _ _ _ Hi3) as Hi4. destruct (sys (Close fd) w2) as [[r'|e] w3] eqn:E3; cbn in *; [|done].
  intros [= <-]. cbn. pose proof (host_stray (Close fd) w3) as Hs. cbv beta iota in Hs. rewrite bool_decide_false in Hs.
  - etrans; [exact Hs|]. f_equal. apply (inv_stray _ _ _ Hi4).
  - pose proof (host_close fd w2) as Hc. rewrite E3 in Hc. cbn in Hc. rewrite Hc. set_solver.
Qed.

(** ** Beginning and end *)

Lemma drop_files_state fds p w : exists w', drop_files fds (p, w) = Ret (Ok tt, (p, w')).
Proof. revert w. induction fds as [|fd fds IH]; intros w; [by eexists|]. apply IH. Qed.

(** [destroy] leaves both tables empty, and every descriptor of theirs closed. *)
Lemma destroy_all c s :
  inv c [] s -> exists p' w', destroy s = Ret (Ok tt, (p', w')) /\ owned p' = [] /\ open_fds w' = base.
Proof.
  intros Hi. destruct (runs_destroy c [] [] s Hi) as (r & s1 & E & Hi1).
  destruct s as [p w]. unfold destroy, mbind, pfs_bind, gets, modify in *. cbn [fst] in *.
  destruct (drop_files_state (handle_fds p) (set_handles p ∅) w) as [w1 E1]. rewrite E1 in *. cbn [fst] in *.
  set (p2 := set_inodes _ _) in *. destruct (drop_files_state (inode_fds (set_handles p ∅)) p2 w1) as [w2 E2]. rewrite E2 in *.
  injection E as <- <-. exists p2, w2. destruct Hi1. cbn [fst snd app] in *.
  assert (owned p2 = []) as Ho by (unfold owned, inode_fds, handle_fds; cbn; by rewrite !files_of_empty).
  split_and!; [done..|]. rewrite inv_open0, Ho. cbn. set_solver.
Qed.

Lemma inv_start p w :
  inodes p = Multikey.new -> handles p = ∅ -> base = open_fds w -> stray = stray_closes w -> inv (creds w) [] (p, w).
Proof.
  intros Hn Hh -> ->. assert (owned p = []) as Ho by (unfold owned, inode_fds, handle_fds; rewrite Hn, Hh; cbn; by rewrite !files_of_empty).
  split; cbn [fst snd app]; rewrite ?Ho; try done.
  - rewrite Hn. split; [apply Multikey.one_to_one_new|done].
  - constructor.
  - by intros fd ?%elem_of_nil.
  - set_solver.
Qed.
End own.

(** ** Theorems *)

Section theorems.
Context {W M : Type} `{HostLaws W} `{GuestMemory M} (INIT_BINARY : list byte) (page_size : Z).
#[local] Existing Instance Passthrough.passthrough_fs.

Lemma new_state c w fs w0 :
  new c w = (Ok fs, w0) ->
  inodes fs = Multikey.new /\ handles fs = ∅ /\ creds w0 = creds w /\ stray_closes w0 = stray_closes w.
Proof.
  unfold new. destruct (proc_sfd_rawfd c) as [fd|]; [by intros [= <- <-]|].
  pose proof (host_creds (Openat AT_FDCWD PROC_CSTR (O_PATH .| O_NOFOLLOW .| O_CLOEXEC) 0) w) as Hc.
  pose proof (host_stray (Openat AT_FDCWD PROC_CSTR (O_PATH .| O_NOFOLLOW .| O_CLOEXEC) 0) w) as Hs.
  destruct (sys _ w) as [[fd|e] w1]; [|done]. by intros [= <- <-].
Qed.

(** C6. The descriptors of the pass-through file system.  However the guest
    asks, request after request and with any contents of its memory, as long
    as the device has no window of shared memory: the server's thread is root
    between two requests, the descriptors open besides those of the start are
    exactly those of the known inodes and of the open handles, each owned
    once, none was closed that was not open, and [destroy] returns with all of
    them closed. *)
Theorem descriptors_owned c w fs w0 (m m' : M) s' :
  creds w = (0, 0) -> new c w = (Ok fs, w0) ->
  rtc (FsInvariant.message (FS := passthrough_fs INIT_BINARY) page_size None) (FsServer.new (fs, w0), m) (s', m') ->
  let '(p, w') := FsServer.fs s' in
  creds w' = (0, 0) /\ stray_closes w' = stray_closes w /\
  NoDup (owned p) /\ (forall fd, fd ∈ owned p -> fd ∉ open_fds w0) /\
  open_fds w' = open_fds w0 ∪ list_to_set (owned p) /\
  exists p2 w2, destroy (p, w') = Ret (Ok tt, (p2, w2)) /\ owned p2 = [] /\ open_fds w2 = open_fds w0.
Proof.
  intros Hc Hn Hm. destruct (new_state _ _ _ _ Hn) as (Hi & Hh & Hc0 & Hs0).
  assert (inv (open_fds w0) (stray_closes w) (creds w0) [] (fs, w0)) as Hw0 by (by apply inv_start).
  rewrite Hc0, Hc in Hw0.
  assert (inv (open_fds w0) (stray_closes w) (0, 0) [] (FsServer.fs s')) as Hw1.
  { apply (FsInvariant.messages_keep page_size _ (passthrough_respects INIT_BINARY _ _) None _ _ ltac:(by left) Hm Hw0). }
  destruct (FsServer.fs s') as [p w']. pose proof (destroy_all _ _ _ _ Hw1) as Hd. destruct Hw1. by split_and!.
Qed.
End theorems.

(** ** A run on the small host

    Initialise, look up two names of one file, open the root. *)

Definition demo_config : Config := Config_default [47].

Definition demo_memory (op : Z) (body : list byte) : FlatMem :=
  let request := demo_request op body in mkFlat 0 (request ++ replicate (512 - length request) 0).

Definition demo_chain (from len : Z) : DescUtils.DescriptorChainConsumer := DescUtils.mkConsumer [DescUtils.mkVS from len] 0.

Definition demo_messages : list (Z * list byte) :=
  [(26, as_slice (mkInitInCompat 7 KERNEL_MINOR_VERSION 0 0)); (1, [97; 98; 0]); (1, [99; 100; 0]); (14, as_slice (mkOpenIn 0 0))].

#[local] Existing Instance Passthrough.passthrough_fs.

Abbreviation demo_state := (@FsServer.Server (PassthroughFs * DemoHost) * FlatMem)%type.

Fixpoint serve (l : list (Z * list byte)) (s : demo_state) : outcome demo_state :=
  match l with
  | [] => Ret s
  | (op, body) :: l =>
      '(_, s) ← FsServer.handle_message (H0 := passthrough_fs [1; 2; 3]) 4096 None (demo_chain 0 (40 + Zlength body)) (demo_chain 0x80 256)
                  (fst s, demo_memory op body);
      serve l s
  end.

Lemma serve_messages l s s' : serve l s = Ret s' -> rtc (FsInvariant.message (FS := passthrough_fs [1; 2; 3]) 4096 None) s s'.
Proof.
  revert s. induction l as [|[op body] l IH]; intros s; cbn [serve]; [by intros [= ->]|].
  destruct (FsServer.handle_message _ _ _ _ _) as [[r s1]|] eqn:E; [|done]. intros Hs.
  eapply rtc_l; [by eexists _, _, _, _|]. by apply IH.
Qed.

Definition demo_world : DemoHost := mkHost {[ 0 := 0 ]} (0, 0) 0.

Definition demo_start : PassthroughFs * DemoHost :=
  match new demo_config demo_world with (Ok fs, w) => (fs, w) | (Err _, w) => (mkFs Multikey.new 0 0 ∅ 0 0 0 false demo_config, w) end.

Definition demo_end : demo_state :=
  match serve demo_messages (FsServer.new demo_start, demo_memory 0 []) with Ret s => s | Panic => (FsServer.new demo_start, demo_memory 0 []) end.

Lemma descriptors_owned_witness :
  let '(p, w) := FsServer.fs (fst demo_end) in
  length (owned p) = 3%nat /\ open_fds w = open_fds (snd demo_start) ∪ list_to_set (owned p) /\ stray_closes w = 0%nat.
Proof.
  assert (rtc (FsInvariant.message (FS := passthrough_fs [1; 2; 3]) 4096 None) (FsServer.new demo_start, demo_memory 0 []) demo_end) as Hm.
  { apply (serve_messages demo_messages). vm_compute. reflexivity. }
  pose proof (descriptors_owned [1; 2; 3] 4096 demo_config demo_world (fst demo_start) (snd demo_start) (demo_memory 0 []) (snd demo_end) (fst demo_end)
    eq_refl eq_refl Hm) as Hd.
  assert (length (owned (fst (FsServer.fs (fst demo_end)))) = 3%nat) as Hl by (vm_compute; reflexivity).
  destruct (FsServer.fs (fst demo_end)) as [p w]. destruct Hd as (_ & Hs & _ & _ & Ho & _). by split_and!.
Defined.
End PassthroughOwn.
