(* ===== verification/PassthroughSpec.v ===== *)
(** * What the pass-through file system promises

    The reference counts follow the guest's ledger of lookups and forgets; a
    handle is good from its opening to its release, for its own inode only;
    [access] answers by the permission bits; a directory's records reach the
    message layer one by one, in order. *)

From S2P Require Import Prelude Format Utf8 GuestMem DescUtils Multikey FuseAbi FsServer FsInvariant Passthrough PassthroughOwn.

Module PassthroughSpec.
Import FuseAbi FsServer Passthrough.
Import Multikey(main, alt, one_to_one, get, get_alt).
Import PassthroughOwn(tables_ok, tables_one, tables_id).

Section spec.
Context {W : Type} `{Host W} (INIT_BINARY : list byte).

Abbreviation St := (PassthroughFs * W)%type.

#[local] Existing Instance Passthrough.pfs_ret.
#[local] Existing Instance Passthrough.pfs_bind.

Implicit Types (m : Inodes).

(** ** Reference counts *)

Definition refs (p : PassthroughFs) (i : Z) : Z := match get (inodes p) i with Some d => refcount d | None => 0 end.

(** A sound table: every entry is referenced, and numbered below the next number. *)
Record sound (p : PassthroughFs) : Prop := {
  sound_tables : tables_ok (inodes p);
  sound_next : 0 <= next_inode p;
  sound_entry i d : get (inodes p) i = Some d -> 1 <= refcount d /\ i < next_inode p }.

(** What the guest knows of an inode changes by what it is told and what it
    gives back. *)
Inductive event := Looked (i : Z) | Forgot (i n : Z).

Definition ledger (f : Z -> Z) (e : event) : Z -> Z := fun j =>
  match e with
  | Looked i => if j =? i then f j + 1 else f j
  | Forgot i n => if j =? i then Z.max 0 (f j - n) else f j
  end.

Lemma get_set_refcount m i n j :
  get (set_refcount m i n) j =
    if j =? i then (fun d => mkInode (id_inode d) (id_file d) n) <$> get m j else get m j.
Proof.
  unfold get, set_refcount. cbn. destruct (Z.eqb_spec j i) as [->|Hne].
  - rewrite lookup_alter_eq. by destruct (main m !! i) as [[]|].
  - by rewrite lookup_alter_ne.
Qed.

Lemma get_remove m i j : get (snd (Multikey.remove m i)) j = if j =? i then None else get m j.
Proof.
  unfold get, Multikey.remove. destruct (Z.eqb_spec j i) as [->|Hne].
  - destruct (main m !! i) as [[k d]|] eqn:E; cbn; [by rewrite lookup_delete_eq|by rewrite E].
  - destruct (main m !! i) as [[k d]|] eqn:E; cbn; [by rewrite lookup_delete_ne|done].
Qed.

Lemma get_insert_new m i k d j :
  get_alt m k = None -> tables_ok m -> get (snd (Multikey.insert m i k d)) j = if j =? i then Some d else get m j.
Proof.
  intros Hk Ht. unfold get. rewrite Multikey.insert_main_lookup. destruct (Z.eqb_spec j i) as [->|Hne].
  - by rewrite bool_decide_true.
  - rewrite bool_decide_false by done. rewrite bool_decide_false; [done|]. intros Ha.
    unfold get_alt, get in Hk. rewrite Ha in Hk. apply (tables_one _ Ht) in Ha as [w Hw]. by rewrite Hw in Hk.
Qed.

Lemma get_alt_get m k d : tables_ok m -> get_alt m k = Some d -> get m (id_inode d) = Some d.
Proof.
  intros Ht. unfold get_alt, get. destruct (alt m !! k) as [o|]; [|done].
  destruct (main m !! o) as [[k' d']|] eqn:E; [|done]. intros [= <-]. by rewrite (tables_id _ Ht _ _ _ E), E.
Qed.

Lemma drop_file_at fd p w : drop_file fd (p, w) = Ret (Ok tt, (p, snd (sys (Close fd) w))).
Proof. done. Qed.

(** [remember] never fails: the known inode of the file, or the next number. *)
Lemma remember_spec f st p w :
  sound p -> (forall i, refs p i + 1 < 2 ^ 64) -> next_inode p + 1 < 2 ^ 64 ->
  exists i p' w', remember f st (p, w) = Ret (Ok i, (p', w')) /\ sound p' /\
    i = match get_alt (inodes p) (mkAlt (st_ino st) (st_dev st)) with Some d => id_inode d | None => next_inode p end /\
    (forall j, refs p' j = ledger (refs p) (Looked i) j) /\
    next_inode p <= next_inode p' <= next_inode p + 1 /\ handles p' = handles p /\ cfg p' = cfg p.
Proof.
  intros [Ht H0 He] Hb Hn. unfold remember, mbind, pfs_bind, gets, modify. cbn [fst].
  destruct (get_alt _ _) as [d|] eqn:Ea.
  - pose proof (get_alt_get _ _ _ Ht Ea) as Eg. destruct (He _ _ Eg) as [Hd Hi].
    pose proof (Hb (id_inode d)) as Hbd. unfold refs in Hbd. rewrite Eg in Hbd.
    rewrite wrap_small by (unfold fits; lia). rewrite drop_file_at. eexists _, _, _. split; [reflexivity|]. cbn [next_inode set_inodes handles cfg].
    split_and!; try done; try lia.
    + split; [by apply PassthroughOwn.refcount_tables|done|]. cbn [inodes set_inodes next_inode]. intros j dj. rewrite get_set_refcount.
      destruct (Z.eqb_spec j (id_inode d)) as [->|]; [|apply He]. rewrite Eg. intros [= <-]. cbn. lia.
    + intros j. unfold refs, ledger. cbn [inodes set_inodes]. rewrite get_set_refcount.
      destruct (Z.eqb_spec j (id_inode d)) as [->|]; [|done]. by rewrite Eg.
  - cbn [inodes bump_inode]. unfold insert_inode, mbind, pfs_bind, gets, modify. cbn [fst inodes bump_inode].
    destruct (PassthroughOwn.drop_files_state (displaced (inodes p) (next_inode p) (mkAlt (st_ino st) (st_dev st)))
      (set_inodes (bump_inode p) (snd (Multikey.insert (inodes p) (next_inode p) (mkAlt (st_ino st) (st_dev st)) (mkInode (next_inode p) f 1)))) w)
      as [w' ->].
    assert (get (inodes p) (next_inode p) = None) as Hfresh.
    { destruct (get (inodes p) (next_inode p)) as [d|] eqn:E; [|done]. apply He in E. lia. }
    eexists _, _, _. split; [reflexivity|]. cbn [next_inode set_inodes bump_inode handles cfg].
    rewrite wrap_small by (unfold fits; lia). split_and!; try done; try lia.
    + split; [by apply PassthroughOwn.insert_tables| |]; cbn [inodes set_inodes next_inode bump_inode]; rewrite ?wrap_small by (unfold fits; lia); [lia|].
      intros j dj. rewrite get_insert_new by done.
      destruct (Z.eqb_spec j (next_inode p)) as [->|]; [intros [= <-]; cbn; lia|].
      intros Ej%He. lia.
    + intros j. unfold refs, ledger. cbn [inodes set_inodes]. rewrite get_insert_new by done.
      destruct (Z.eqb_spec j (next_inode p)) as [->|]; [by rewrite Hfresh|done].
Qed.

Lemma os_at c p w : exists r, os c (p, w) = Ret (r, (p, snd (sys c w))).
Proof. unfold os. destruct (sys c w) as [[a|e] w']; by eexists. Qed.

(** A lookup that fails leaves the tables; one that succeeds is a reference more. *)
Lemma do_lookup_spec parent nm p w :
  sound p -> (forall i, refs p i + 1 < 2 ^ 64) -> next_inode p + 1 < 2 ^ 64 ->
  exists r p' w', do_lookup parent nm (p, w) = Ret (r, (p', w')) /\ sound p' /\
    (forall j, refs p' j = match r with Ok e => ledger (refs p) (Looked (inode e)) j | Err _ => refs p j end) /\
    next_inode p <= next_inode p' <= next_inode p + 1.
Proof.
  intros Hs Hb Hn. unfold do_lookup, do_lookup_at, get_inode, mbind, pfs_bind, gets. cbn [fst].
  assert (forall (e : IoErr) w', exists r p1 w1, (Ret (Err e, (p, w')) : outcome (result IoErr Entry * St)) = Ret (r, (p1, w1)) /\ sound p1 /\
    (forall j, refs p1 j = match r with Ok e => ledger (refs p) (Looked (inode e)) j | Err _ => refs p j end) /\
    next_inode p <= next_inode p1 <= next_inode p + 1) as Herr.
  { intros e w'. exists (Err e), p, w'. split_and!; done || lia. }
  destruct (get (inodes p) parent) as [d|]; cbn; [|apply Herr].
  match goal with |- context [sys ?k w] => destruct (sys k w) as [[f|e] w1] end; [|apply Herr].
  unfold on_error, mbind, outcome_bind, os. destruct (sys (Fstatat f) w1) as [[st|e] w2]; [|apply Herr].
  destruct (remember_spec f st p w2 Hs Hb Hn) as (i & p' & w' & -> & Hs' & _ & Hr & Hn' & _). cbn.
  by eexists _, _, _.
Qed.

(** A forget takes as much away as there is, and with the last reference the entry. *)
Lemma forget_one_spec i n p w :
  sound p -> 0 <= n ->
  exists p' w', forget_one i n (p, w) = Ret (Ok tt, (p', w')) /\ sound p' /\
    (forall j, refs p' j = ledger (refs p) (Forgot i n) j) /\ next_inode p' = next_inode p.
Proof.
  intros Hs Hn. pose proof Hs as [Ht H0 He]. unfold forget_one, mbind, pfs_bind, gets, modify. cbn [fst].
  destruct (get (inodes p) i) as [d|] eqn:Eg.
  2:{ eexists _, _. split_and!; [reflexivity|done| |done]. intros j. unfold refs, ledger.
      destruct (Z.eqb_spec j i) as [->|]; [rewrite Eg; lia|done]. }
  destruct (He _ _ Eg) as [Hd Hi]. set (n' := Z.max 0 (refcount d - n)). cbn [inodes set_inodes].
  destruct (Z.eqb_spec n' 0) as [Hz|Hz].
  - rewrite drop_file_at. eexists _, _. split; [reflexivity|]. cbn [next_inode set_inodes]. split_and!; [|intros j|done].
    + split; [by apply PassthroughOwn.remove_tables, PassthroughOwn.refcount_tables|done|]. cbn [inodes set_inodes next_inode]. intros j dj.
      rewrite get_remove, get_set_refcount. destruct (Z.eqb_spec j i); [done|apply He].
    + unfold refs, ledger. cbn [inodes set_inodes]. rewrite get_remove, get_set_refcount.
      destruct (Z.eqb_spec j i) as [->|]; [rewrite Eg; lia|done].
  - eexists _, _. split; [reflexivity|]. cbn [next_inode set_inodes]. split_and!; [|intros j|done].
    + split; [by apply PassthroughOwn.refcount_tables|done|]. cbn [inodes set_inodes next_inode]. intros j dj. rewrite get_set_refcount.
      destruct (Z.eqb_spec j i) as [->|]; [|apply He]. rewrite Eg. intros [= <-]. cbn. split; [|done]. unfold n' in *. lia.
    + unfold refs, ledger. cbn [inodes set_inodes]. rewrite get_set_refcount.
      destruct (Z.eqb_spec j i) as [->|]; [by rewrite Eg|done].
Qed.

(** A history of lookups and forgets, and what the guest learns from it. *)
Inductive op := OLookup (parent : Z) (nm : list byte) | OForget (i n : Z).

Definition perform (o : op) (s : St) : outcome (list event * St) :=
  match o with
  | OLookup parent nm => '(r, s) ← do_lookup parent nm s; Ret (match r with Ok e => [Looked (inode e)] | Err _ => [] end, s)
  | OForget i n => '(_, s) ← forget_one i n s; Ret ([Forgot i n], s)
  end.

Fixpoint history (l : list op) (s : St) : outcome (list event * St) :=
  match l with
  | [] => Ret ([], s)
  | o :: l => '(e, s) ← perform o s; '(es, s) ← history l s; Ret (e ++ es, s)
  end.

Definition op_ok (o : op) : Prop := match o with OForget _ n => 0 <= n | _ => True end.

(** C7. The counts are the guest's ledger: after any history of lookups and
    forgets that cannot exhaust 64-bit numbers, an inode's count is what the
    guest was given less what it gave back, never below zero, and the inode
    has an entry, with its descriptor, exactly while its count is positive. *)
Theorem references_counted l p w n :
  sound p -> Forall op_ok l -> (forall i, refs p i + Z.of_nat (length l) <= n) -> next_inode p + Z.of_nat (length l) <= n -> n < 2 ^ 64 ->
  exists es p' w', history l (p, w) = Ret (es, (p', w')) /\
    (forall i, refs p' i = foldl ledger (refs p) es i) /\
    (forall i, is_Some (get (inodes p') i) <-> 0 < refs p' i) /\ sound p'.
Proof.
  intros Hs Hl Hr Hn Hb. revert p w Hs Hr Hn. induction Hl as [|o l Ho _ IH]; intros p w Hs Hr Hn.
  - exists [], p, w. split_and!; try done. intros i. unfold refs. destruct (get _ _) as [d|] eqn:E.
    + destruct (sound_entry _ Hs _ _ E). split; [lia|by eexists].
    + split; [by intros []|lia].
  - cbn [length] in *. assert (exists e p1 w1, perform o (p, w) = Ret (e, (p1, w1)) /\ sound p1 /\
      (forall j, refs p1 j = foldl ledger (refs p) e j) /\ (forall j, refs p1 j <= refs p j + 1) /\ next_inode p1 <= next_inode p + 1) as
      (e & p1 & w1 & E & Hs1 & Hr1 & Hb1 & Hn1).
    { unfold perform. destruct o as [parent nm|i k].
      - destruct (do_lookup_spec parent nm p w Hs) as (r & p1 & w1 & -> & Hs1 & Hr1 & Hn1); [intros i; specialize (Hr i); lia|lia|].
        eexists _, p1, w1. split; [reflexivity|]. split; [done|]. split; [intros j; rewrite Hr1; by destruct r|]. split; [|lia].
        intros j. rewrite Hr1. destruct r; cbn [ledger]; [case_match|]; lia.
      - destruct (forget_one_spec i k p w Hs Ho) as (p1 & w1 & -> & Hs1 & Hr1 & Hn1).
        eexists _, p1, w1. split; [reflexivity|]. split; [done|]. split; [by intros j; rewrite Hr1|]. split; [|lia].
        intros j. rewrite Hr1. cbn [ledger op_ok] in *. assert (0 <= refs p j); [|case_match; lia].
        unfold refs. destruct (get _ _) as [d|] eqn:Ed; [|done]. apply (sound_entry _ Hs) in Ed. lia. }
    cbn [history]. rewrite E. cbn [mbind outcome_bind].
    destruct (IH p1 w1 Hs1) as (es & p2 & w2 & -> & Hr2 & Ht2 & Hs2); [intros i; specialize (Hr i); specialize (Hb1 i); lia|lia|].
    exists (e ++ es), p2, w2. split; [reflexivity|]. split; [|done]. intros i. rewrite Hr2, foldl_app.
    revert Hr1. generalize (foldl ledger (refs p) e) (refs p1). clear. revert i.
    induction es as [|x es IH] using rev_ind; intros i g f Hf; cbn; [apply Hf|].
    rewrite !foldl_app. cbn. unfold ledger at 1 3. destruct x; by rewrite (IH _ _ _ Hf).
Qed.

(** ** Handles *)

(** The next handle number is free, as it is until 2^64 handles were opened. *)
Definition fresh_handle (p : PassthroughFs) : Prop := handles p !! next_handle p = None.

(** Opening and releasing: a successful open gives a handle that no one had,
    for a descriptor of the inode; it is good for this inode alone, another
    inode's release of it is refused and changes nothing, and its own release
    closes the descriptor and leaves the handles as they were before. *)
Theorem open_release_roundtrip i flags p w h opts p1 w1 :
  fresh_handle p ->
  do_open i flags (p, w) = Ret (Ok (h, opts), (p1, w1)) ->
  exists fd, h = Some (next_handle p) /\ inodes p1 = inodes p /\
    get_handle i (next_handle p) (p1, w1) = Ret (Ok (mkHandle i fd), (p1, w1)) /\
    (forall j, j <> i -> do_release j (next_handle p) (p1, w1) = Ret (Err (Some EBADF), (p1, w1))) /\
    exists p2, do_release i (next_handle p) (p1, w1) = Ret (Ok tt, (p2, snd (sys (Close fd) w1))) /\ handles p2 = handles p /\ inodes p2 = inodes p.
Proof.
  unfold fresh_handle. intros Hh. unfold do_open, mbind, pfs_bind.
  assert (forall r s, open_inode i flags (p, w) = Ret (r, s) -> fst s = p) as Hopen.
  { intros r s. unfold open_inode, get_inode, mbind, pfs_bind, gets. cbn [fst]. destruct (get _ _); cbn; [|by intros [= _ <-]].
    match goal with |- context [sys ?k w] => destruct (sys k w) as [[f|e] w2] end; by intros [= _ <-]. }
  destruct (open_inode i flags (p, w)) as [[[fd|e] [p0 w0]]|]; [|done..]. specialize (Hopen _ _ eq_refl). cbn in Hopen. subst p0.
  unfold insert_handle, mbind, pfs_bind, gets, modify. cbn [fst]. cbn [handles bump_handle]. rewrite Hh.
  intros E. cbn in E. injection E as <- <- <- <-. exists fd. cbn [inodes set_handles bump_handle].
  unfold get_handle, do_release, mbind, pfs_bind, gets, modify. cbn [fst handles set_handles]. rewrite lookup_insert_eq. cbn [hd_inode].
  split_and!; [done..| | |].
  - cbn. by rewrite Z.eqb_refl.
  - intros j Hj. by rewrite (proj2 (Z.eqb_neq _ _)).
  - rewrite Z.eqb_refl. eexists. split; [reflexivity|]. cbn [handles inodes set_handles bump_handle]. split; [|done].
    by rewrite delete_insert_id.
Qed.

(** ** Permissions *)

(** A class of users grants [bit] (4 read, 2 write, 1 execute). *)
Definition grants (ctx : Context) (st : stat64) (bit : Z) : bool :=
  (st_uid st =? uid ctx) && negb (st_mode st .& (bit * 64) =? 0)
  || (st_gid st =? gid ctx) && negb (st_mode st .& (bit * 8) =? 0)
  || negb (st_mode st .& bit =? 0).

(** Root needs no read or write bit, and some execute bit. *)
Definition allowed (ctx : Context) (st : stat64) (bit : Z) : bool :=
  (uid ctx =? 0) && (negb (bit =? X_OK) || negb (st_mode st .& 0x49 =? 0)) || grants ctx st bit.

Lemma denied_allowed ctx st exempt bit owner group :
  owner = bit * 64 -> group = bit * 8 -> denied ctx st exempt owner group bit = negb (exempt || grants ctx st bit).
Proof.
  intros -> ->. unfold denied, grants. by destruct exempt, (st_uid st =? uid ctx), (st_gid st =? gid ctx), (_ =? 0), (_ =? 0), (_ =? 0).
Qed.

(** [access]: for a known inode whose attributes the host gives, the answer is
    success exactly when every requested permission is allowed, otherwise
    [EACCES]; the state does not change. *)
Theorem access_decides ctx i mask p w d st w1 :
  get (inodes p) i = Some d -> sys (Fstatat (id_file d)) w = (Ok st, w1) ->
  access ctx i mask (p, w) =
    Ret (if forallb (fun bit => (mask .& 7 .& bit =? 0) || allowed ctx st bit) [R_OK; W_OK; X_OK] then Ok tt else Err (Some EACCES), (p, w1)).
Proof.
  intros Hg Hs. unfold access, get_inode, mbind, pfs_bind, gets. cbn [fst]. rewrite Hg. cbn [from_option_or]. unfold mret, pfs_ret, os. rewrite Hs.
  change (R_OK .| W_OK .| X_OK) with 7. unfold forallb, allowed. rewrite !denied_allowed by done.
  change (R_OK =? X_OK) with false. change (W_OK =? X_OK) with false. change (X_OK =? X_OK) with true. cbn [negb orb].
  set (mode := mask .& 7). unfold F_OK, R_OK, W_OK, X_OK. destruct (Z.eqb_spec mode 0) as [->|Hne]; [done|].
  destruct (uid ctx =? 0), (st_mode st .& 73 =? 0), (grants ctx st 4), (grants ctx st 2), (grants ctx st 1),
    (mode .& 4 =? 0), (mode .& 2 =? 0), (mode .& 1 =? 0); reflexivity.
Qed.

(** The classes are not exclusive: an owner without a permission has it when
    everyone has. *)
Lemma owner_falls_through ctx st : st_mode st = 0x81c7 - 0x1c0 -> allowed ctx st R_OK = true.
Proof. intros Hm. unfold allowed, grants. rewrite Hm. cbn. by rewrite !orb_true_r. Qed.
End spec.

(** ** Directories *)

#[local] Existing Instance Passthrough.LinuxDirent64_bytes.

#[local] Instance LinuxDirent64_laws : ByteValuedLaws LinuxDirent64.
Proof. split; [done|by intros []|]. intros l Hl. by repeat (destruct l as [|? l]; try discriminate Hl). Qed.

(** A record as [getdents64] writes it: a header, the name, its zero byte, and
    what the kernel pads it with. *)
Definition reclen (d : DirEntry) (pad : list byte) : Z := 19 + Zlength (name d) + 1 + Zlength pad.

Definition record_bytes (d : DirEntry) (pad : list byte) : list byte :=
  as_slice (mkDirent64 (ino d) (offset d) (reclen d pad) (type_ d)) ++ name d ++ 0 :: pad.

Definition record_ok (r : DirEntry * list byte) : Prop :=
  fits 64 (ino r.1) /\ fits 64 (offset r.1) /\ fits 16 (reclen r.1 r.2) /\ fits 8 (type_ r.1) /\ 0 ∉ name r.1.

(** Every entry is offered, in order, until one is refused or fails. *)
Fixpoint offer_all {X} (add_entry : DirEntry -> X -> outcome (result IoErr Z * X)) (ds : list DirEntry) (x : X) : outcome (result IoErr unit * X) :=
  match ds with
  | [] => Ret (Ok tt, x)
  | d :: ds =>
      '(r, x) ← add_entry d x;
      match r with
      | Ok n => if n =? 0 then Ret (Ok tt, x) else offer_all add_entry ds x
      | Err e => Ret (Err e, x)
      end
  end.

Lemma until_nul_spec nm rest : 0 ∉ nm -> until_nul (nm ++ 0 :: rest) = Some nm.
Proof.
  induction nm as [|c nm IH]; intros Hn; [done|]. cbn. destruct (Z.eqb_spec c 0) as [->|]; [set_solver|].
  rewrite IH by set_solver. done.
Qed.

(** The names that are to be left out end in a zero byte, and none here does. *)
Lemma never_skipped nm : 0 ∉ nm -> starts_with nm CURRENT_DIR_CSTR || starts_with nm PARENT_DIR_CSTR = false.
Proof.
  intros Hn. unfold starts_with. apply orb_false_intro; apply bool_decide_eq_false_2; intros E; apply Hn.
  - rewrite <- (take_drop (length CURRENT_DIR_CSTR) nm), E. set_solver.
  - rewrite <- (take_drop (length PARENT_DIR_CSTR) nm), E. set_solver.
Qed.

Lemma length_record d pad : Zlength (record_bytes d pad) = reclen d pad.
Proof. unfold record_bytes, reclen. rewrite !length_app, length_as_slice. cbn [length]. change (size_of LinuxDirent64) with 19%nat. lia. Qed.

Lemma dirents_step {X} (add : DirEntry -> X -> outcome (result IoErr Z * X)) d pad rest fuel x :
  record_ok (d, pad) ->
  dirents_loop add (S fuel) (record_bytes d pad ++ rest) x =
    ('(r, x) ← add d x;
     match r with
     | Ok n => if n =? 0 then Ret (Ok tt, x) else dirents_loop add fuel rest x
     | Err e => Ret (Err e, x)
     end).
Proof.
  intros (Hi & Ho & Hr & Ht & Hn). cbn [fst snd] in *.
  pose proof (length_record d pad) as Hl. set (hd := mkDirent64 (ino d) (offset d) (reclen d pad) (type_ d)).
  assert (length (as_slice hd) = size_of LinuxDirent64) as Hlh by apply length_as_slice.
  assert (19 < reclen d pad) as H19 by (unfold reclen; lia).
  assert (record_bytes d pad ++ rest = as_slice hd ++ ((name d ++ 0 :: pad) ++ rest)) as E by (unfold record_bytes; by rewrite <- app_assoc).
  assert (Zlength (record_bytes d pad ++ rest) = reclen d pad + Zlength rest) as Hlr by (rewrite length_app; lia).
  remember (record_bytes d pad ++ rest) as rem eqn:Er. destruct rem as [|b bs]; [cbn in Hlr; lia|]. cbn [dirents_loop].
  rewrite (proj2 (Nat.ltb_ge _ _)) by (change (size_of LinuxDirent64) with 19%nat; lia).
  rewrite E, take_app_length', drop_app_length' by done. cbv zeta.
  assert (from_slice (as_slice hd) = hd) as ->.
  { rewrite <- (app_nil_r (as_slice hd)). apply from_as_slice. unfold in_range. cbn. do 4 (apply Forall2_cons_2; [done|]). constructor. }
  cbn [d_ino d_off d_reclen d_ty hd]. change (Z.of_nat (size_of LinuxDirent64)) with 19.
  rewrite (wrap_small 64) by (unfold fits in *; lia).
  assert (reclen d pad - 19 = Zlength (name d ++ 0 :: pad)) as Hnl by (unfold reclen; rewrite length_app; cbn [length]; lia).
  rewrite (proj2 (Z.ltb_ge _ _)) by (rewrite length_app; lia).
  rewrite Hnl, Nat2Z.id, take_app_length, until_nul_spec by done. cbn [unwrap mbind outcome_bind].
  rewrite never_skipped, (wrap_small 64) by done. destruct d as [i o t nm]. cbn [ino offset type_ name].
  destruct (add _ x) as [[[n|e] x']|]; cbn [mbind outcome_bind]; [|done..]. destruct (n =? 0); [done|]. f_equal.
  etrans; [apply (f_equal (fun l => drop _ l)); symmetry; exact E|]. rewrite Er. apply drop_app_length'. lia.
Qed.

(** The loop of [do_readdir] over a buffer of well-formed records: it needs no
    more rounds than it has, and offers every record as an entry, in order,
    until the callback refuses one or fails.  The records of [.] and [..] are
    among them, though the source means to leave them out. *)
Theorem readdir_offers_all {X} (add : DirEntry -> X -> outcome (result IoErr Z * X)) rs x :
  Forall record_ok rs ->
  let buf := concat (map (fun r => record_bytes r.1 r.2) rs) in
  dirents_loop add (S (length buf)) buf x = offer_all add (map fst rs) x.
Proof.
  intros Hok buf. assert (length rs < S (length buf))%nat as Hf.
  { unfold buf. clear. induction rs as [|[d pad] rs IH]; cbn [map concat length fst snd]; [lia|]. rewrite length_app. pose proof (length_record d pad).
    unfold reclen in *. lia. }
  unfold buf at 2. clearbody buf. revert x Hf. generalize (S (length buf)). clear buf. intros fuel x Hf.
  revert fuel x Hf. induction Hok as [|[d pad] rs Hr _ IH]; intros fuel x Hf; [by destruct fuel|].
  destruct fuel as [|fuel]; [cbn in Hf; lia|]. cbn [map concat fst snd]. rewrite dirents_step by done. cbn [offer_all].
  destruct (add d x) as [[[n|e] x']|]; [|done..]. cbn. destruct (n =? 0); [done|]. apply IH. cbn in Hf. lia.
Qed.

(** ** Requests that end the server's thread *)

Section panics.
Context {W M : Type} `{Host W} `{GuestMemory M} (INIT_BINARY : list byte).

(** A read of [init.krun] from behind its end. *)
Lemma init_read_panics h c size off p w (m : M) :
  Zlength INIT_BINARY < off -> off < 2 ^ 63 -> 0 <= size < 2 ^ 32 ->
  Passthrough.read INIT_BINARY (init_inode p) h c size off (p, w) m = Panic.
Proof.
  intros Ho Hb Hs. unfold Passthrough.read. cbn [fst]. rewrite Z.eqb_refl. unfold init_len, init_slice.
  rewrite (wrap_small 64 (off + size)) by (unfold fits; lia). rewrite (proj2 (Z.ltb_ge _ _)) by lia.
  set (n := Zlength INIT_BINARY) in *. rewrite wrap_add_r. replace (off + (n - off)) with n by lia.
  rewrite (wrap_small 64 n) by (unfold fits; lia). rewrite (proj2 (Z.leb_gt _ _)) by lia. done.
Qed.

(** With debug messages on, the lookup of a file whose name is not UTF-8. *)
Lemma debug_lookup_panics parent nm p w d f w1 st w2 :
  Utf8.utf8_valid nm = false -> get (inodes p) parent = Some d ->
  sys (Openat (id_file d) nm (O_PATH .| O_NOFOLLOW .| O_CLOEXEC) 0) w = (Ok f, w1) ->
  sys (Fstatat f) w1 = (Ok st, w2) -> sound p -> (forall i, refs p i + 1 < 2 ^ 64) -> next_inode p + 1 < 2 ^ 64 ->
  do_lookup_at true parent nm (p, w) = Panic.
Proof.
  intros Hu Hg Ho Hf Hs Hb Hn. unfold do_lookup_at, get_inode, mbind, pfs_bind, gets. cbn [fst].
  rewrite Hg. cbn. rewrite Ho. unfold on_error, mbind, outcome_bind, os. rewrite Hf.
  destruct (remember_spec f st p w2 Hs Hb Hn) as (i & p' & w' & -> & _). cbn.
  unfold debug_name. by rewrite Hu.
Qed.

(** A copy between two open handles with flags of more than 32 bits. *)
Lemma copyfilerange_flags_panic i h d off i' h' d' off' len fl (p : PassthroughFs) (w : W) :
  handles p !! h = Some d -> hd_inode d = i -> handles p !! h' = Some d' -> hd_inode d' = i' -> 2 ^ 32 <= fl ->
  copyfilerange i h off i' h' off' len fl (p, w) = Panic.
Proof.
  intros Hd <- Hd' <- Hf.
  assert (forall h d, handles p !! h = Some d -> get_handle (hd_inode d) h (p, w) = Ret (Ok d, (p, w))) as Hg.
  { intros k e He. unfold get_handle, mbind, pfs_bind, gets. cbn [fst]. rewrite He. cbn. by rewrite Z.eqb_refl. }
  unfold copyfilerange, mbind, pfs_bind. rewrite (Hg _ _ Hd), (Hg _ _ Hd'). unfold fitsb.
  rewrite (proj2 (Z.ltb_ge fl _)) by lia. by rewrite andb_false_r.
Qed.
End panics.

(** ** On the small host *)

(** A state that knows the root as inode 1 and inode 3 for the file of names
    of two letters. *)
Definition demo_fs : PassthroughFs * DemoHost :=
  match init 0 PassthroughOwn.demo_start with
  | Ret (_, s) => match do_lookup 1 [97; 98] s with Ret (_, s) => s | Panic => s end
  | Panic => PassthroughOwn.demo_start
  end.

Definition demo_tables : Inodes :=
  Multikey.mkMap {[ 1 := (mkAlt 1 5, mkInode 1 2 2); 3 := (mkAlt 2 5, mkInode 3 3 1) ]} {[ mkAlt 1 5 := 1; mkAlt 2 5 := 3 ]}.

Lemma demo_fs_inodes : inodes (fst demo_fs) = demo_tables /\ next_inode (fst demo_fs) = 4.
Proof. split; vm_compute; reflexivity. Qed.

Lemma demo_sound : sound (fst demo_fs).
Proof.
  destruct demo_fs_inodes as [E En].
  split; [rewrite E; split|by rewrite En|].
  - intros k1 k2. unfold demo_tables. cbn [main alt]. split.
    + rewrite lookup_insert_Some, lookup_singleton_Some. intros [[<- <-]|[_ [<- <-]]]; eexists; vm_compute; reflexivity.
    + intros [v Hv]. rewrite lookup_insert_Some, lookup_singleton_Some in Hv. destruct Hv as [[<- [= <- <-]]|[_ [<- [= <- <-]]]]; vm_compute; reflexivity.
  - intros i k d. unfold demo_tables. cbn [main]. rewrite lookup_insert_Some, lookup_singleton_Some.
    by intros [[<- [= <- <-]]|[_ [<- [= <- <-]]]].
  - intros i d. rewrite E, En. unfold get, demo_tables. cbn [main]. destruct (decide (i = 1)) as [->|]; [|destruct (decide (i = 3)) as [->|]].
    + vm_compute. by intros [= <-].
    + vm_compute. by intros [= <-].
    + rewrite lookup_insert_ne, lookup_singleton_ne by done. done.
Qed.

(** Two more names of the file, then three forgets of one reference each. *)
Lemma references_counted_witness :
  exists p' w', history [OLookup 1 [99; 100]; OLookup 1 [101; 102]; OForget 3 1; OForget 3 2] demo_fs =
    Ret ([Looked 3; Looked 3; Forgot 3 1; Forgot 3 2], (p', w')) /\ refs p' 3 = 0 /\ get (inodes p') 3 = None /\ refs p' 1 = 2.
Proof.
  pose proof (references_counted [OLookup 1 [99; 100]; OLookup 1 [101; 102]; OForget 3 1; OForget 3 2] (fst demo_fs) (snd demo_fs) 100) as Ht.
  destruct demo_fs_inodes as [E En].
  destruct Ht as (es & p' & w' & Eh & Hr & Hp & _); [apply demo_sound|repeat constructor; cbn; lia| |rewrite En; cbn; lia|lia|].
  { intros i. unfold refs, get. rewrite E. cbn [main demo_tables]. destruct (decide (i = 1)) as [->|]; [|destruct (decide (i = 3)) as [->|]].
    - vm_compute. discriminate.
    - vm_compute. discriminate.
    - rewrite lookup_insert_ne, lookup_singleton_ne by done. cbn. lia. }
  assert (es = [Looked 3; Looked 3; Forgot 3 1; Forgot 3 2]) as ->.
  { revert Eh. vm_compute. by intros [= <- _ _]. }
  exists p', w'. rewrite <- surjective_pairing in Eh. split; [exact Eh|].
  assert (forall i, refs (fst demo_fs) i = match get demo_tables i with Some d => refcount d | None => 0 end) as Hd by (intros i; unfold refs; by rewrite E).
  assert (refs p' 3 = 0) as H3 by (rewrite Hr; cbn [foldl ledger]; rewrite Hd; reflexivity).
  split; [done|]. split; [|rewrite Hr; cbn [foldl ledger]; rewrite Hd; reflexivity].
  specialize (Hp 3). destruct (get (inodes p') 3); [|done]. destruct Hp as [Hp _]. rewrite H3 in Hp.
  exfalso. apply (Z.lt_irrefl 0), Hp. by eexists.
Defined.

Lemma open_release_roundtrip_witness :
  exists p1 w1 p2 w2, do_open 3 0 demo_fs = Ret (Ok (Some 1, 0), (p1, w1)) /\
    do_release 1 1 (p1, w1) = Ret (Err (Some EBADF), (p1, w1)) /\ do_release 3 1 (p1, w1) = Ret (Ok tt, (p2, w2)) /\ handles p2 = ∅.
Proof.
  destruct (do_open 3 0 demo_fs) as [[[[h o]|e] [p1 w1]]|] eqn:E; [|by vm_compute in E..].
  destruct (open_release_roundtrip 3 0 (fst demo_fs) (snd demo_fs) h o p1 w1) as (fd & -> & _ & _ & Hj & p2 & E2 & Hh & _).
  - vm_compute. reflexivity.
  - rewrite <- surjective_pairing. exact E.
  - assert (next_handle (fst demo_fs) = 1) as En by (vm_compute; reflexivity). rewrite En in *.
    assert (o = 0) as -> by (vm_compute in E; by injection E as <- _ _).
    exists p1, w1, p2, (snd (sys (Close fd) w1)). split_and!; [done|by apply Hj|done|]. rewrite Hh. vm_compute. reflexivity.
Defined.

(** Mode 0644 of user 0: another user may read, and not write. *)
Lemma access_decides_witness :
  exists w', access (mkContext 1000 1000 0) 3 4 demo_fs = Ret (Ok tt, (fst demo_fs, w')) /\
    access (mkContext 1000 1000 0) 3 6 demo_fs = Ret (Err (Some EACCES), (fst demo_fs, w')).
Proof.
  destruct (get (inodes (fst demo_fs)) 3) as [d|] eqn:Eg; [|by vm_compute in Eg].
  destruct (sys (Fstatat (id_file d)) (snd demo_fs)) as [[st|e] w'] eqn:Es.
  - exists w'. rewrite (surjective_pairing demo_fs). rewrite !(access_decides _ _ _ _ _ _ _ _ Eg Es).
    assert (st = dh_stat 2) as ->; [|split; reflexivity].
    revert Es. replace d with (mkInode 3 3 1) by (vm_compute in Eg; by injection Eg). vm_compute. by intros [= <- _].
  - revert Es. replace d with (mkInode 3 3 1) by (vm_compute in Eg; by injection Eg). vm_compute. discriminate.
Defined.

(** A directory of [.] and [ab]: both are offered. *)
Lemma readdir_offers_all_witness :
  let rs := [(mkDirEntry 1 1 4 [46], []); (mkDirEntry 2 2 8 [97; 98], [0; 0])] in
  let buf := concat (map (fun r => record_bytes r.1 r.2) rs) in
  dirents_loop (fun d l => Ret (Ok 1, l ++ [name d])) (S (length buf)) buf [] = Ret (Ok tt, [[46]; [97; 98]]).
Proof.
  intros rs buf. unfold buf. rewrite (readdir_offers_all (fun d l => Ret (Ok 1, l ++ [name d])) rs []); [reflexivity|].
  unfold rs. apply Forall_cons. split; [|apply Forall_cons; split; [|constructor]];
    unfold record_ok, fits, reclen; cbn; split_and!; solve [lia|set_solver].
Defined.
End PassthroughSpec.
