(* ===== verification/Arch.v ===== *)
(** * Memory layout and boot parameters of x86-64 ([arch/src/lib.rs],
    [arch/src/x86_64/mod.rs], [layout.rs])

    Where guest RAM, the hole for the kernel image, the hole for devices and
    the shared-memory area lie, and the zero page that tells the guest kernel
    about them.  The page size ([sysconf]) is a parameter.  Both builds are
    modelled: the plain one and the one for confidential guests ([tee]). *)

From S2P Require Import Prelude GuestMem Mptable.

Module Arch.

Definition PAGE_SIZE : Z := 4096.
Definition EBDA_START : Z := 0x9fc00.
Definition RESET_VECTOR : Z := 0xfff0.
Definition BIOS_START : Z := 0xffff0000.
Definition BIOS_SIZE : Z := 65536.
Definition FIRST_ADDR_PAST_32BITS : Z := 1 .<< 32.
Definition MEM_32BIT_GAP_SIZE : Z := 768 .<< 20.
Definition MMIO_MEM_START : Z := FIRST_ADDR_PAST_32BITS - MEM_32BIT_GAP_SIZE.

Definition CMDLINE_START : Z := 0x20000.
Definition CMDLINE_MAX_SIZE : Z := 0x10000.
Definition HIMEM_START : Z := 0x00100000.
Definition IRQ_BASE : Z := 5.
Definition IRQ_MAX : Z := 15.
Definition ZERO_PAGE_START : Z := 0x7000.

Definition round_up (size align : Z) : Z :=
  let page_mask := align -[64] 1 in
  (size +[64] page_mask) .& bnot 64 page_mask.

Definition round_down (size align : Z) : Z := size .& bnot 64 (align -[64] 1).

Record ArchMemoryInfo := mkInfo { ram_last_addr : Z; shm_start_addr : Z; page_size : Z }.

(** A region: guest address and length. *)
Definition Region : Type := Z * Z.

Definition arch_memory_regions (page_size size kernel_load_addr kernel_size : Z)
    : outcome (ArchMemoryInfo * list Region) :=
  let size := round_up size page_size in
  let kernel_end := kernel_load_addr +[64] kernel_size in
  if size <? kernel_end then Panic
  else
    let '(ram_last_addr, shm_start_addr, regions) :=
      let low :=
        (kernel_end +[64] size, FIRST_ADDR_PAST_32BITS, [(0, kernel_load_addr); (kernel_end, size)]) in
      match checked_sub size MMIO_MEM_START with
      | None => low
      | Some remaining =>
          if remaining =? 0 then low
          else
            let ram_last_addr := FIRST_ADDR_PAST_32BITS +[64] remaining in
            (ram_last_addr, wrap 64 (wrap 64 (ram_last_addr / 0x40000000 + 1) * 0x40000000),
             [(0, kernel_load_addr); (kernel_end, MMIO_MEM_START -[64] kernel_end);
              (FIRST_ADDR_PAST_32BITS, remaining)])
      end in
    Ret (mkInfo ram_last_addr shm_start_addr page_size, regions).

Definition arch_memory_regions_tee (page_size size kernel_load_addr kernel_size : Z)
    : outcome (ArchMemoryInfo * list Region) :=
  let size := round_up size page_size in
  if size <? kernel_load_addr +[64] kernel_size then Panic
  else
    let '(ram_last_addr, regions) :=
      let low := (size, [(0, size); (BIOS_START, BIOS_SIZE)]) in
      match checked_sub size MMIO_MEM_START with
      | None => low
      | Some remaining =>
          if remaining =? 0 then low
          else (FIRST_ADDR_PAST_32BITS +[64] remaining,
                [(0, MMIO_MEM_START); (BIOS_START, BIOS_SIZE); (FIRST_ADDR_PAST_32BITS, remaining)])
      end in
    Ret (mkInfo ram_last_addr 0 page_size, regions).

Definition get_kernel_start : Z := HIMEM_START.

(** ** Boot parameters *)

Inductive Error :=
| E820Configuration | MpTableSetup (e : Mptable.Error) | ZeroPageSetup | InitrdAddress.

Definition KERNEL_BOOT_FLAG_MAGIC : Z := 0xaa55.
Definition KERNEL_HDR_MAGIC : Z := 0x53726448.
Definition KERNEL_LOADER_OTHER : Z := 0xff.
Definition KERNEL_MIN_ALIGNMENT_BYTES : Z := 0x01000000.
Definition E820_RAM : Z := 1.
Definition E820_MAP_LEN : nat := 128.

Record e820entry := mkE820 { e_addr : Z; e_size : Z; e_type : Z }.

(** The fields of [boot_params] and of its [hdr] the code assigns; all others
    keep their default, zero.  [e820] holds the first [e820_entries] entries of
    the map. *)
Record boot_params := mkParams {
  syssize : Z; boot_flag : Z; header : Z; type_of_loader : Z; ramdisk_image : Z; ramdisk_size : Z;
  cmd_line_ptr : Z; kernel_alignment : Z; cmdline_size : Z; e820 : list e820entry;
}.

Definition e820entry_bytes (e : e820entry) : list byte :=
  le_bytes 8 (e_addr e) ++ le_bytes 8 (e_size e) ++ le_bytes 4 (e_type e).

(** The 119 bytes of [setup_header]. *)
Definition setup_header_bytes (p : boot_params) : list byte :=
  replicate 3 0 ++ le_bytes 4 (syssize p) ++ replicate 6 0 ++ le_bytes 2 (boot_flag p) ++ replicate 2 0 ++
  le_bytes 4 (header p) ++ replicate 10 0 ++ le_bytes 1 (type_of_loader p) ++ replicate 7 0 ++
  le_bytes 4 (ramdisk_image p) ++ le_bytes 4 (ramdisk_size p) ++ replicate 8 0 ++
  le_bytes 4 (cmd_line_ptr p) ++ replicate 4 0 ++ le_bytes 4 (kernel_alignment p) ++ replicate 4 0 ++
  le_bytes 4 (cmdline_size p) ++ replicate 44 0.

(** The 4096 bytes of [boot_params]: the entry count at 488, the header at 497,
    the map at 720. *)
Definition boot_params_bytes (p : boot_params) : list byte :=
  replicate 488 0 ++ le_bytes 1 (Zlength (e820 p)) ++ replicate 8 0 ++ setup_header_bytes p ++ replicate 104 0 ++
  concat (map e820entry_bytes (e820 p)) ++ replicate (20 * (E820_MAP_LEN - length (e820 p))) 0 ++ replicate 816 0.

Definition with_e820 (p : boot_params) (l : list e820entry) : boot_params :=
  mkParams (syssize p) (boot_flag p) (header p) (type_of_loader p) (ramdisk_image p) (ramdisk_size p)
    (cmd_line_ptr p) (kernel_alignment p) (cmdline_size p) l.

Definition add_e820_entry (p : boot_params) (addr size mem_type : Z) : result Error boot_params :=
  if (E820_MAP_LEN <=? length (e820 p))%nat then Err E820Configuration
  else Ok (with_e820 p (e820 p ++ [mkE820 addr size mem_type])).

Record InitrdConfig := mkInitrd { address : Z; size : Z }.

Section memory.
Context {M : Type} `{GuestMemory M}.

Definition initrd_load_addr (m : M) (initrd_size : Z) : result Error Z :=
  '(_, lowmem_size) ← ok_or (gm_find_region m 0) InitrdAddress;
  if lowmem_size <? initrd_size then Err InitrdAddress
  else Ok ((lowmem_size - initrd_size) .& bnot 64 (PAGE_SIZE - 1)).

(** The map, by the end of RAM. *)
Definition add_e820_map (params : boot_params) (last_addr : Z) : result Error boot_params :=
  params ← add_e820_entry params 0 EBDA_START E820_RAM;
  if last_addr <? MMIO_MEM_START then
    add_e820_entry params HIMEM_START ((last_addr -[64] HIMEM_START) +[64] 1) E820_RAM
  else
    params ← add_e820_entry params HIMEM_START (MMIO_MEM_START -[64] HIMEM_START) E820_RAM;
    if FIRST_ADDR_PAST_32BITS <? last_addr then
      add_e820_entry params FIRST_ADDR_PAST_32BITS ((last_addr -[64] FIRST_ADDR_PAST_32BITS) +[64] 1) E820_RAM
    else Ok params.

Definition base_params (tee : bool) (cmdline_addr cmdline_sz : Z) (initrd : option InitrdConfig) (num_cpus : Z)
    : boot_params :=
  mkParams (if tee then num_cpus else 0) KERNEL_BOOT_FLAG_MAGIC KERNEL_HDR_MAGIC KERNEL_LOADER_OTHER
    (match initrd with Some i => wrap 32 (address i) | None => 0 end)
    (match initrd with Some i => wrap 32 (size i) | None => 0 end)
    (wrap 32 cmdline_addr) KERNEL_MIN_ALIGNMENT_BYTES (wrap 32 cmdline_sz) [].

Definition configure_system (tee : bool) (m : M) (info : ArchMemoryInfo) (cmdline_addr cmdline_sz : Z)
    (initrd : option InitrdConfig) (num_cpus : Z) : result Error M :=
  m ← (if tee then Ok m else map_err MpTableSetup (Mptable.setup_mptable m num_cpus));
  params ← add_e820_map (base_params tee cmdline_addr cmdline_sz initrd num_cpus) (ram_last_addr info);
  ok_or (gm_write m ZERO_PAGE_START (boot_params_bytes params)) ZeroPageSetup.
End memory.

(** ** Rounding *)

Lemma round_up_spec size k :
  0 <= k < 64 -> 0 <= size -> size + 2 ^ k < 2 ^ 64 ->
  round_up size (2 ^ k) mod 2 ^ k = 0 /\ size <= round_up size (2 ^ k) < size + 2 ^ k /\
  round_up size (2 ^ k) < 2 ^ 64.
Proof.
  intros Hk Hs Hlt. unfold round_up. pose proof (pow2_pos k ltac:(lia)).
  assert (2 ^ k <= 2 ^ 63) by (apply Z.pow_le_mono_r; lia).
  rewrite (wrap_small 64 (2 ^ k - 1)) by (unfold fits; lia).
  rewrite wrap_small by (unfold fits; lia).
  rewrite land_bnot by (unfold fits; lia). replace (2 ^ k - 1) with (Z.ones k) by (rewrite Z.ones_equiv; lia).
  rewrite Z.ldiff_ones_r, Z.shiftl_mul_pow2, Z.shiftr_div_pow2 by lia. rewrite Z.ones_equiv.
  pose proof (Z.div_mod (size + Z.pred (2 ^ k)) (2 ^ k) ltac:(lia)).
  pose proof (Z.mod_pos_bound (size + Z.pred (2 ^ k)) (2 ^ k) ltac:(lia)).
  split; [apply Z.mod_mul; lia|]. lia.
Qed.

(** ** The layout *)

(** Ascending and disjoint, from an address on. *)
Fixpoint ascending (lo : Z) (rs : list Region) : Prop :=
  match rs with
  | [] => True
  | (a, n) :: rs => lo <= a /\ 0 <= n /\ ascending (a + n) rs
  end.

(** No byte of the region lies in [[lo, hi)]. *)
Definition avoids (lo hi : Z) (r : Region) : Prop := r.1 + r.2 <= lo \/ hi <= r.1.

Definition ends_by (hi : Z) (r : Region) : Prop := r.1 + r.2 <= hi.

Lemma layout_cases page_size k size kload ksize :
  0 <= k < 32 -> page_size = 2 ^ k -> 0 <= size < 2 ^ 62 -> 0 <= kload -> 0 <= ksize ->
  kload + ksize <= MMIO_MEM_START -> kload + ksize <= round_up size page_size ->
  let size' := round_up size page_size in
  size <= size' < 2 ^ 62 + 2 ^ 32 /\
  (size' <= MMIO_MEM_START ->
   arch_memory_regions page_size size kload ksize =
     Ret (mkInfo (kload + ksize + size') FIRST_ADDR_PAST_32BITS page_size, [(0, kload); (kload + ksize, size')])) /\
  (MMIO_MEM_START < size' ->
   arch_memory_regions page_size size kload ksize =
     Ret (mkInfo (2 ^ 32 + (size' - MMIO_MEM_START))
            (((2 ^ 32 + (size' - MMIO_MEM_START)) / 0x40000000 + 1) * 0x40000000) page_size,
          [(0, kload); (kload + ksize, MMIO_MEM_START - (kload + ksize));
           (FIRST_ADDR_PAST_32BITS, size' - MMIO_MEM_START)])).
Proof.
  intros Hk -> Hs Hl Hz Hend Hfit size'. assert (2 ^ k <= 2 ^ 32) as Hk32 by (apply Z.pow_le_mono_r; lia).
  destruct (round_up_spec size k) as (_ & Hr & _); [lia|lia|lia|]. fold size' in Hr, Hfit. split; [lia|].
  change MMIO_MEM_START with 0xd0000000 in *. unfold arch_memory_regions. fold size'.
  change MMIO_MEM_START with 0xd0000000. change FIRST_ADDR_PAST_32BITS with (2 ^ 32).
  rewrite (wrap_small 64 (kload + ksize)) by (unfold fits; lia).
  destruct (size' <? kload + ksize) eqn:E; [zify_bool; lia|]. unfold checked_sub. split; intros Hc.
  - rewrite (wrap_small 64) by (unfold fits; lia). destruct (_ <=? size') eqn:E1; [|done]. zify_bool.
    destruct (_ =? 0) eqn:E2; [done|]. zify_bool. lia.
  - destruct (_ <=? size') eqn:E1; [|zify_bool; lia]. destruct (_ =? 0) eqn:E2; [zify_bool; lia|].
    rewrite (wrap_small 64 (2 ^ 32 + _)) by (unfold fits; lia).
    rewrite (wrap_small 64 (0xd0000000 - _)) by (unfold fits; lia).
    set (r := 2 ^ 32 + (size' - 0xd0000000)).
    assert (0 <= r / 0x40000000 <= 2 ^ 34) as Hd.
    { split; [apply Z.div_pos; lia|]. apply Z.div_le_upper_bound; lia. }
    rewrite (wrap_small 64 (r / _ + 1)) by (unfold fits; lia).
    rewrite (wrap_small 64 (_ * 0x40000000)); [done|]. unfold fits.
    pose proof (Z.div_mod r 0x40000000 ltac:(lia)). pose proof (Z.mod_pos_bound r 0x40000000 ltac:(lia)). lia.
Qed.

(** The layout as the users of the regions need it. *)
Lemma layout_ok page_size k size kload ksize :
  0 <= k < 32 -> page_size = 2 ^ k -> 0 <= size < 2 ^ 62 -> 0 <= kload -> 0 <= ksize ->
  kload + ksize <= MMIO_MEM_START -> kload + ksize <= round_up size page_size ->
  exists info rs, arch_memory_regions page_size size kload ksize = Ret (info, rs) /\
    ascending 0 rs /\ Forall (avoids kload (kload + ksize)) rs /\ Forall (ends_by (ram_last_addr info)) rs /\
    (kload + ksize + round_up size page_size <= MMIO_MEM_START \/ MMIO_MEM_START < round_up size page_size ->
     Forall (avoids MMIO_MEM_START FIRST_ADDR_PAST_32BITS) rs /\
     ram_last_addr info <= shm_start_addr info /\ FIRST_ADDR_PAST_32BITS <= shm_start_addr info < 2 ^ 63).
Proof.
  intros Hk Hp Hs Hl Hz Hend Hfit.
  destruct (layout_cases page_size k size kload ksize Hk Hp Hs Hl Hz Hend Hfit) as (Hr & Hlow & Hhigh).
  set (size' := round_up size page_size) in *. change MMIO_MEM_START with 0xd0000000 in *.
  change FIRST_ADDR_PAST_32BITS with (2 ^ 32) in *. unfold avoids, ends_by.
  destruct (Z.le_gt_cases size' 0xd0000000) as [Hc|Hc].
  - do 2 eexists. split; [by apply Hlow|]. cbn [ascending ram_last_addr shm_start_addr].
    rewrite !Forall_cons, !Forall_nil. cbn [fst snd]. lia.
  - do 2 eexists. split; [apply Hhigh; lia|]. cbn [ascending ram_last_addr shm_start_addr].
    rewrite !Forall_cons, !Forall_nil. cbn [fst snd].
    set (r := 2 ^ 32 + (size' - 0xd0000000)).
    pose proof (Z.div_mod r 0x40000000 ltac:(lia)). pose proof (Z.mod_pos_bound r 0x40000000 ltac:(lia)). lia.
Qed.

(** The memory layout: RAM regions are ascending and disjoint and leave the
    hole for the kernel image free.  When the guest's memory together with the
    kernel ends below the device hole, or is larger than the memory below it,
    no RAM lies in the device hole and the shared-memory area starts after all
    RAM. *)
Theorem memory_layout page_size k size kload ksize :
  0 <= k < 32 -> page_size = 2 ^ k -> 0 <= size < 2 ^ 62 -> 0 <= kload -> 0 <= ksize ->
  kload + ksize <= MMIO_MEM_START -> kload + ksize <= round_up size page_size ->
  exists info rs, arch_memory_regions page_size size kload ksize = Ret (info, rs) /\
    ascending 0 rs /\ Forall (avoids kload (kload + ksize)) rs /\ Forall (ends_by (ram_last_addr info)) rs /\
    (kload + ksize + round_up size page_size <= MMIO_MEM_START \/ MMIO_MEM_START < round_up size page_size ->
     Forall (avoids MMIO_MEM_START FIRST_ADDR_PAST_32BITS) rs /\
     ram_last_addr info <= shm_start_addr info /\ FIRST_ADDR_PAST_32BITS <= shm_start_addr info < 2 ^ 63).
Proof. apply layout_ok. Qed.

(** Otherwise RAM reaches into the device hole: 3300 MiB of guest memory and a
    kernel of 30 MiB at 16 MiB. *)
Lemma ram_in_device_hole :
  exists info rs r, arch_memory_regions 4096 (3300 * 2 ^ 20) 0x1000000 0x1e00000 = Ret (info, rs) /\ r ∈ rs /\
    r.1 < MMIO_MEM_START < r.1 + r.2.
Proof.
  do 3 eexists. split; [vm_compute; reflexivity|]. split; [right; left|vm_compute; split; reflexivity].
Qed.

(** ** The memory map handed to the guest *)

(** The map for RAM that ends at [last]. *)
Definition e820_entries (last : Z) : list e820entry :=
  mkE820 0 EBDA_START E820_RAM ::
  (if last <? MMIO_MEM_START then [mkE820 HIMEM_START (last - HIMEM_START + 1) E820_RAM]
   else mkE820 HIMEM_START (MMIO_MEM_START - HIMEM_START) E820_RAM ::
        (if FIRST_ADDR_PAST_32BITS <? last
         then [mkE820 FIRST_ADDR_PAST_32BITS (last - FIRST_ADDR_PAST_32BITS + 1) E820_RAM] else [])).

Lemma add_e820_map_entries p last :
  e820 p = [] -> HIMEM_START <= last -> last + 1 < 2 ^ 64 ->
  add_e820_map p last = Ok (with_e820 p (e820_entries last)).
Proof.
  intros Hp Hlo Hhi. unfold add_e820_map, add_e820_entry, e820_entries. rewrite Hp.
  change HIMEM_START with 0x100000 in *. change MMIO_MEM_START with 0xd0000000 in *.
  change FIRST_ADDR_PAST_32BITS with (2 ^ 32) in *.
  cbn [length E820_MAP_LEN Nat.leb mbind result_bind e820 app with_e820].
  change HIMEM_START with 0x100000. change MMIO_MEM_START with 0xd0000000.
  change FIRST_ADDR_PAST_32BITS with (2 ^ 32).
  destruct (last <? 0xd0000000) eqn:E1; zify_bool.
  - rewrite (wrap_small 64 (last - _)) by (unfold fits; lia). by rewrite wrap_small by (unfold fits; lia).
  - cbn [length E820_MAP_LEN Nat.leb mbind result_bind e820 app with_e820].
    rewrite (wrap_small 64 (0xd0000000 - 0x100000)) by (unfold fits; lia).
    destruct (2 ^ 32 <? last) eqn:E2; zify_bool; [|done].
    rewrite (wrap_small 64 (last - _)) by (unfold fits; lia). by rewrite wrap_small by (unfold fits; lia).
Qed.

Definition inside (x : Z) (r : Region) : Prop := r.1 <= x < r.1 + r.2.

Definition claimed (p : boot_params) (x : Z) : Prop :=
  exists e, e ∈ e820 p /\ e_addr e <= x < e_addr e + e_size e.

(** The memory map against the layout: above the first megabyte it claims
    exactly the bytes that are RAM or belong to the kernel image, and one byte
    more: the one at [ram_last_addr], which is past the end of the last RAM
    region. *)
Theorem e820_map_exact page_size k size kload ksize p x :
  0 <= k < 32 -> page_size = 2 ^ k -> 0 <= size < 2 ^ 62 -> 0 <= kload -> 0 <= ksize ->
  kload + ksize <= MMIO_MEM_START -> kload + ksize <= round_up size page_size ->
  kload + ksize + round_up size page_size < MMIO_MEM_START \/ MMIO_MEM_START < round_up size page_size ->
  HIMEM_START <= round_up size page_size -> e820 p = [] -> HIMEM_START <= x ->
  exists info rs p', arch_memory_regions page_size size kload ksize = Ret (info, rs) /\
    add_e820_map p (ram_last_addr info) = Ok p' /\
    (claimed p' x <->
       Exists (inside x) rs \/ kload <= x < kload + ksize \/ x = ram_last_addr info).
Proof.
  intros Hk Hp Hs Hl Hz Hend Hfit Hcase Hmin He Hx.
  destruct (layout_cases page_size k size kload ksize Hk Hp Hs Hl Hz Hend Hfit) as (Hr & Hlow & Hhigh).
  set (size' := round_up size page_size) in *. change MMIO_MEM_START with 0xd0000000 in *.
  change HIMEM_START with 0x100000 in *.
  assert (exists info rs, arch_memory_regions page_size size kload ksize = Ret (info, rs) /\
    0x100000 <= ram_last_addr info < 2 ^ 63 /\ kload + ksize <= ram_last_addr info /\
    (ram_last_addr info < 0xd0000000 /\ (Exists (inside x) rs <-> x < kload \/ kload + ksize <= x < ram_last_addr info) \/
     2 ^ 32 < ram_last_addr info /\
     (Exists (inside x) rs <-> x < kload \/ kload + ksize <= x < 0xd0000000 \/ 2 ^ 32 <= x < ram_last_addr info)))
    as (info & rs & Hrs & Hlast & Hkl & Hex).
  { change FIRST_ADDR_PAST_32BITS with (2 ^ 32) in *. destruct (Z.le_gt_cases size' 0xd0000000) as [Hc|Hc].
    - do 2 eexists. split; [by apply Hlow|]. cbn [ram_last_addr]. split; [lia|]. split; [lia|]. left. split; [lia|].
      rewrite !Exists_cons, Exists_nil. unfold inside. cbn [fst snd]. lia.
    - do 2 eexists. split; [apply Hhigh; lia|]. cbn [ram_last_addr]. split; [lia|]. split; [lia|]. right. split; [lia|].
      rewrite !Exists_cons, Exists_nil. unfold inside. cbn [fst snd]. lia. }
  exists info, rs. eexists. split; [done|].
  split; [apply add_e820_map_entries; [done|change HIMEM_START with 0x100000; lia|lia]|].
  unfold claimed, e820_entries. cbn [e820 with_e820].
  change MMIO_MEM_START with 0xd0000000. change HIMEM_START with 0x100000. change EBDA_START with 0x9fc00.
  change FIRST_ADDR_PAST_32BITS with (2 ^ 32).
  assert (forall l, (exists e, e ∈ l /\ e_addr e <= x < e_addr e + e_size e) <->
    Exists (fun e => e_addr e <= x < e_addr e + e_size e) l) as -> by (intros; by rewrite Exists_exists; naive_solver).
  destruct Hex as [[Hlt ->]|[Hgt ->]].
  - destruct (_ <? 0xd0000000) eqn:E1; [|zify_bool; lia].
    rewrite !Exists_cons, Exists_nil. cbn [e_addr e_size]. lia.
  - destruct (_ <? 0xd0000000) eqn:E1; [zify_bool; lia|]. destruct (2 ^ 32 <? _) eqn:E2; [|zify_bool; lia].
    rewrite !Exists_cons, Exists_nil. cbn [e_addr e_size]. lia.
Qed.

(** ** Reading the zero page as the boot protocol says *)

Definition le_at (bs : list byte) (off n : nat) : Z := le_val (slice bs off n).

Fixpoint parse_e820 (bs : list byte) (off n : nat) : list e820entry :=
  match n with
  | O => []
  | S n => mkE820 (le_at bs off 8) (le_at bs (off + 8) 8) (le_at bs (off + 16) 4) :: parse_e820 bs (off + 20) n
  end.

Definition parse_params (bs : list byte) : boot_params :=
  mkParams (le_at bs 0x1f4 4) (le_at bs 0x1fe 2) (le_at bs 0x202 4) (le_at bs 0x210 1) (le_at bs 0x218 4)
    (le_at bs 0x21c 4) (le_at bs 0x228 4) (le_at bs 0x230 4) (le_at bs 0x238 4)
    (parse_e820 bs 0x2d0 (Z.to_nat (le_at bs 0x1e8 1))).

Definition entry_ok (e : e820entry) : Prop := fits 64 (e_addr e) /\ fits 64 (e_size e) /\ fits 32 (e_type e).

Record params_ok (p : boot_params) : Prop := {
  po_fields : Forall (fits 32) [syssize p; header p; ramdisk_image p; ramdisk_size p; cmd_line_ptr p;
                                kernel_alignment p; cmdline_size p];
  po_flag : fits 16 (boot_flag p);
  po_loader : fits 8 (type_of_loader p);
  po_map : Forall entry_ok (e820 p) /\ (length (e820 p) <= E820_MAP_LEN)%nat;
}.

Lemma le_at_app pre k z post off :
  off = length pre -> fits (8 * Z.of_nat k) z -> le_at (pre ++ le_bytes k z ++ post) off k = z.
Proof.
  intros -> Hz. unfold le_at, slice. rewrite drop_app_length, take_app_length' by by rewrite length_le_bytes.
  rewrite le_val_le_bytes. by apply wrap_small.
Qed.

Lemma parse_e820_correct pre l post :
  Forall entry_ok l ->
  parse_e820 (pre ++ concat (map e820entry_bytes l) ++ post) (length pre) (length l) = l.
Proof.
  intros Hl. revert pre. induction Hl as [|e l (Ha & Hs & Ht) Hl IH]; intros pre; [done|].
  cbn [map concat length parse_e820].
  assert (forall bs, bs = pre ++ (e820entry_bytes e ++ concat (map e820entry_bytes l)) ++ post ->
    le_at bs (length pre) 8 = e_addr e /\ le_at bs (length pre + 8) 8 = e_size e /\
    le_at bs (length pre + 16) 4 = e_type e) as Hf.
  { intros bs ->. unfold e820entry_bytes. rewrite <- !app_assoc. split; [by apply le_at_app|]. split.
    - rewrite (app_assoc pre). apply le_at_app; [by rewrite length_app, length_le_bytes|done].
    - rewrite (app_assoc pre), (app_assoc (pre ++ _)). apply le_at_app; [|done].
      rewrite !length_app, !length_le_bytes. lia. }
  destruct (Hf _ eq_refl) as (-> & -> & ->). f_equal; [by destruct e|].
  replace (length pre + 20)%nat with (length (pre ++ e820entry_bytes e)) 
    by (unfold e820entry_bytes; rewrite !length_app, !length_le_bytes; lia).
  rewrite <- app_assoc, app_assoc. apply IH.
Qed.

(** The zero page, cut where a field starts. *)
Lemma boot_params_parts p :
  boot_params_bytes p =
  (replicate 488 0 ++ le_bytes 1 (Zlength (e820 p)) ++ replicate 8 0 ++ setup_header_bytes p ++ replicate 104 0) ++
  concat (map e820entry_bytes (e820 p)) ++ (replicate (20 * (E820_MAP_LEN - length (e820 p))) 0 ++ replicate 816 0).
Proof. unfold boot_params_bytes. by rewrite <- !app_assoc. Qed.

Lemma length_boot_params p : (length (e820 p) <= E820_MAP_LEN)%nat -> length (boot_params_bytes p) = 4096%nat.
Proof.
  intros Hl. rewrite boot_params_parts. unfold E820_MAP_LEN in *.
  assert (length (concat (map e820entry_bytes (e820 p))) = 20 * length (e820 p))%nat as Hc.
  { induction (e820 p) as [|e l IH]; [done|]. cbn [map concat length]. rewrite length_app, IH by (cbn in Hl; lia).
    unfold e820entry_bytes. rewrite !length_app, !length_le_bytes. lia. }
  rewrite !length_app, Hc, !length_replicate.
  change (length (setup_header_bytes p)) with 119%nat. rewrite length_le_bytes. lia.
Qed.

Lemma boot_params_bytes_ok p : bytes_ok (boot_params_bytes p).
Proof.
  unfold boot_params_bytes, setup_header_bytes, bytes_ok.
  rewrite !Forall_app. repeat split; try apply le_bytes_ok; try by apply Forall_replicate.
  apply Forall_concat, Forall_map, Forall_forall. intros e _. unfold e820entry_bytes.
  rewrite !Forall_app. repeat split; apply le_bytes_ok.
Qed.

Lemma parse_boot_params p : params_ok p -> parse_params (boot_params_bytes p) = p.
Proof.
  intros [Hf Hflag Hload [He Hl]]. rewrite !Forall_cons in Hf. destruct Hf as (H1 & H2 & H3 & H4 & H5 & H6 & H7 & _).
  unfold parse_params. unfold E820_MAP_LEN in Hl.
  assert (le_at (boot_params_bytes p) 0x1e8 1 = Zlength (e820 p)) as ->.
  { unfold boot_params_bytes. apply le_at_app; [by rewrite length_replicate|]. unfold fits. lia. }
  rewrite Nat2Z.id.
  assert (parse_e820 (boot_params_bytes p) 0x2d0 (length (e820 p)) = e820 p) as ->.
  { rewrite boot_params_parts.
    by apply (parse_e820_correct (replicate 488 0 ++ le_bytes 1 (Zlength (e820 p)) ++ replicate 8 0 ++ 
                                  setup_header_bytes p ++ replicate 104 0)). }
  assert (forall off k z, slice (boot_params_bytes p) off k = le_bytes k z -> fits (8 * Z.of_nat k) z ->
    le_at (boot_params_bytes p) off k = z) as Hh.
  { intros off k z Heq Hz. unfold le_at. rewrite Heq, le_val_le_bytes. by apply wrap_small. }
  destruct p. cbn [Arch.syssize Arch.boot_flag Arch.header Arch.type_of_loader Arch.ramdisk_image Arch.ramdisk_size
    Arch.cmd_line_ptr Arch.kernel_alignment Arch.cmdline_size Arch.e820] in *.
  f_equal; apply Hh; try done; reflexivity.
Qed.

Section system.
Context {M : Type} `{GuestMemoryLaws M}.

Lemma base_params_ok tee cmdline_addr cmdline_sz initrd n :
  0 <= n <= 255 -> params_ok (base_params tee cmdline_addr cmdline_sz initrd n).
Proof.
  intros Hn. split; unfold fits; cbn [base_params syssize header ramdisk_image ramdisk_size cmd_line_ptr
    kernel_alignment cmdline_size boot_flag type_of_loader e820]; [|done|done|split; [done|apply Nat.le_0_l]].
  rewrite !Forall_cons, Forall_nil. destruct tee, initrd; repeat split;
    try apply wrap_fits; try done; try lia.
Qed.

Lemma e820_entries_ok last :
  HIMEM_START <= last -> last + 1 < 2 ^ 64 ->
  Forall entry_ok (e820_entries last) /\ (length (e820_entries last) <= E820_MAP_LEN)%nat.
Proof.
  intros Hlo Hhi. change HIMEM_START with 0x100000 in *. unfold e820_entries.
  destruct (last <? _) eqn:E; [|destruct (_ <? last) eqn:E2]; zify_bool;
    (split; [|unfold E820_MAP_LEN; cbn; lia]); rewrite ?Forall_cons, ?Forall_nil; unfold entry_ok, fits; cbn [e_addr e_size e_type];
    change HIMEM_START with 0x100000; change MMIO_MEM_START with 0xd0000000 in *; change EBDA_START with 0x9fc00;
    change E820_RAM with 1; change FIRST_ADDR_PAST_32BITS with (2 ^ 32) in *; lia.
Qed.

(** Configuring the system: for up to 254 processors and mapped low memory
    it succeeds, and the guest that reads the zero page by the boot protocol
    finds the command line, the initial RAM disk (addresses and sizes cut to 32
    bits) and the memory map for the end of RAM; memory between the zero page
    and the multiprocessor table is untouched. *)
Theorem zero_page_configured m info cmdline_addr cmdline_sz initrd n old mp :
  0 <= n <= Mptable.MAX_SUPPORTED_CPUS -> HIMEM_START <= ram_last_addr info -> ram_last_addr info + 1 < 2 ^ 64 ->
  gm_read m ZERO_PAGE_START 4096 = Some old ->
  gm_read m Mptable.MPTABLE_START (Z.to_nat (Mptable.compute_mp_size n)) = Some mp ->
  gm_in_range m (Mptable.MPTABLE_START + Mptable.compute_mp_size n - 1) = true ->
  exists m' page, configure_system false m info cmdline_addr cmdline_sz initrd n = Ok m' /\
    gm_read m' ZERO_PAGE_START 4096 = Some page /\
    parse_params page =
      with_e820 (base_params false cmdline_addr cmdline_sz initrd n) (e820_entries (ram_last_addr info)) /\
    (forall a k, ZERO_PAGE_START + 4096 <= a -> a + Z.of_nat k <= Mptable.MPTABLE_START ->
       gm_read m' a k = gm_read m a k).
Proof.
  intros Hn Hlo Hhi Hz Hmp Hin. unfold configure_system.
  destruct (Mptable.setup_mptable_spec m n mp Hn Hmp Hin) as (m1 & fp & hdr & -> & _ & _ & _ & _ & _ & _ & _ & Hfr).
  cbn [map_err mbind result_bind]. rewrite add_e820_map_entries by done. cbn [mbind result_bind].
  set (p := with_e820 _ _). assert (params_ok p) as Hp.
  { destruct (base_params_ok false cmdline_addr cmdline_sz initrd n) as [Ha Hb Hc _];
      [unfold Mptable.MAX_SUPPORTED_CPUS in *; lia|].
    split; [exact Ha|exact Hb|exact Hc|by apply e820_entries_ok]. }
  pose proof (length_boot_params p (proj2 (po_map _ Hp))) as Hlen.
  assert (gm_read m1 ZERO_PAGE_START (length (boot_params_bytes p)) = Some old) as Hz1.
  { rewrite Hlen, Hfr; [done|]. left. done. }
  destruct (gm_write_total _ _ _ _ Hz1 (boot_params_bytes_ok p)) as [m2 Hw]. rewrite Hw.
  exists m2, (boot_params_bytes p). split; [done|]. split.
  - rewrite <- Hlen. apply (gm_write_read _ _ _ _ Hw), boot_params_bytes_ok.
  - split; [by apply parse_boot_params|]. intros a k Ha Hk.
    rewrite (gm_write_frame _ _ _ _ _ _ Hw) by (rewrite Hlen; lia). apply Hfr. by left.
Qed.
End system.

(** ** Witnesses: a guest of 4 GiB with a 32 MiB kernel at 16 MiB *)

Definition demo_size : Z := 4 * 2 ^ 30.

Lemma memory_layout_witness :
  exists info rs, arch_memory_regions 4096 demo_size 0x1000000 0x2000000 = Ret (info, rs) /\ ascending 0 rs.
Proof.
  destruct (memory_layout 4096 12 demo_size 0x1000000 0x2000000) as (info & rs & Hr & Ha & _);
    try (vm_compute; intuition congruence).
  exists info, rs. split; [exact Hr|exact Ha].
Defined.

Lemma e820_map_exact_witness :
  exists info rs p', arch_memory_regions 4096 demo_size 0x1000000 0x2000000 = Ret (info, rs) /\
    add_e820_map (base_params false 0 0 None 1) (ram_last_addr info) = Ok p' /\
    (claimed p' 0x130000000 <->
       Exists (inside 0x130000000) rs \/ 0x1000000 <= 0x130000000 < 0x3000000 \/ 0x130000000 = ram_last_addr info).
Proof.
  apply (e820_map_exact 4096 12 demo_size 0x1000000 0x2000000 (base_params false 0 0 None 1) 0x130000000);
    vm_compute; intuition congruence.
Defined.

Lemma zero_page_configured_witness :
  exists m' page,
    configure_system false (zero_mem (Z.to_nat 0xa0000)) (mkInfo 0x130000000 0 4096) CMDLINE_START 64 None 2 = Ok m' /\
    gm_read m' ZERO_PAGE_START 4096 = Some page /\ cmd_line_ptr (parse_params page) = CMDLINE_START.
Proof.
  destruct (zero_page_configured (zero_mem (Z.to_nat 0xa0000)) (mkInfo 0x130000000 0 4096) CMDLINE_START 64 None 2
    (replicate 4096 0) (replicate (Z.to_nat (Mptable.compute_mp_size 2)) 0)) as (m' & page & Hc & Hr & Hp & _).
  - vm_compute. split; congruence.
  - vm_compute. congruence.
  - vm_compute. congruence.
  - apply zero_mem_read; rewrite ?Z2Nat.id; unfold ZERO_PAGE_START; lia.
  - apply zero_mem_read; rewrite ?Z2Nat.id; unfold Mptable.MPTABLE_START, Mptable.compute_mp_size; lia.
  - apply zero_mem_in_range. rewrite Z2Nat.id; unfold Mptable.MPTABLE_START, Mptable.compute_mp_size; lia.
  - exists m', page. split; [exact Hc|]. split; [exact Hr|]. rewrite Hp. reflexivity.
Defined.
End Arch.
