(* ===== verification/Console.v ===== *)
(** * The console device
    ([devices/src/virtio/console/]: [device.rs], [console_control.rs],
    [port_queue_mapping.rs], [irq_signaler.rs], [port.rs], [event_handler.rs])

    The device has a control queue pair and one queue pair for each port.  The
    guest sends commands on the control transmit queue; the answers wait in
    [ConsoleControl] until the guest publishes buffers on the control receive
    queue.  A port that the guest opens gets its queues copied into two threads
    (module [ConsolePort]).  The theorems: ports and queues correspond one to
    one; every message is delivered once, in order, whole; the commands have
    the answers of the protocol; the loops end. *)

From S2P Require Import Prelude GuestMem VirtQueue FuseAbi.

Module Console.
Import VirtQueue.
Import FuseAbi(ByteValued, ByteValuedLaws, as_slice, from_slice, size_of, length_as_slice, as_slice_ok, from_as_slice, in_range).

(** ** Queues and ports *)

Inductive QueueDirection := Rx | Tx.

Definition port_id_to_queue_idx (queue_direction : QueueDirection) (port_id : nat) : nat :=
  match queue_direction, port_id with
  | Rx, O => 0
  | Rx, _ => 2 + 2 * port_id
  | Tx, O => 1
  | Tx, _ => 2 + 2 * port_id + 1
  end.

Definition queue_idx_to_port_id (queue_index : nat) : outcome (QueueDirection * nat) :=
  port_id ← match queue_index with
            | 0%nat | 1%nat => Ret 0%nat
            | 2%nat | 3%nat => Panic
            | _ => Ret (queue_index / 2 - 1)%nat
            end;
  Ret (if (queue_index mod 2 =? 0)%nat then Rx else Tx, port_id).

Definition num_queues (num_ports : nat) : nat := 2 + 2 * num_ports.

Lemma port_of_queue i : (4 <= i)%nat -> queue_idx_to_port_id i = Ret (if (i mod 2 =? 0)%nat then Rx else Tx, (i / 2 - 1)%nat).
Proof. do 4 (destruct i; [lia|]). done. Qed.

(** The queues of the ports are all queues but 2 and 3, each of one port and
    one direction; the device has at least one port. *)
Theorem queue_port_bijection n :
  (0 < n)%nat ->
  (forall d p, (p < n)%nat -> (port_id_to_queue_idx d p < num_queues n)%nat /\
     queue_idx_to_port_id (port_id_to_queue_idx d p) = Ret (d, p)) /\
  (forall i d p, (i < num_queues n)%nat -> queue_idx_to_port_id i = Ret (d, p) ->
     (p < n)%nat /\ port_id_to_queue_idx d p = i) /\
  (forall i, queue_idx_to_port_id i = Panic <-> i = 2%nat \/ i = 3%nat).
Proof.
  intros Hn. unfold num_queues. split_and!.
  - intros d [|p] Hp; destruct d; (split; [cbn; lia|]); try reflexivity.
    + unfold port_id_to_queue_idx, queue_idx_to_port_id. replace (2 + 2 * S p)%nat with (2 * S (S p))%nat by lia.
      rewrite Nat.mul_comm, Nat.div_mul, Nat.Div0.mod_mul by lia. done.
    + unfold port_id_to_queue_idx, queue_idx_to_port_id. replace (2 + 2 * S p + 1)%nat with (1 + S (S p) * 2)%nat by lia.
      rewrite Nat.div_add, Nat.Div0.mod_add by lia. done.
  - intros i d p Hi. destruct (decide (4 <= i)%nat) as [H4|H4].
    + rewrite port_of_queue by done. pose proof (Nat.div_mod_eq i 2) as Hj. pose proof (Nat.mod_upper_bound i 2 ltac:(lia)).
      remember (i / 2 - 1)%nat as k eqn:Ek. assert (i mod 2 = 0 \/ i mod 2 = 1)%nat as [E|E] by lia; rewrite E in *; cbn [Nat.eqb];
        intros [= <- <-]; (split; [lia|]); unfold port_id_to_queue_idx; destruct k; lia.
    + destruct i as [|[|[|[|i]]]]; [cbn; intros [= <- <-]; split; [lia|done]..|by cbn|by cbn|lia].
  - intros i. destruct i as [|[|[|[|i]]]]; cbn; (split; [|intros []]); try done; try lia; by auto.
Qed.

Lemma queue_port_bijection_witness :
  queue_idx_to_port_id (port_id_to_queue_idx Tx 3) = Ret (Tx, 3%nat) /\ queue_idx_to_port_id 2 = Panic.
Proof.
  destruct (queue_port_bijection 4) as (H1 & _ & H3); [lia|]. split; [apply H1; lia|]. apply H3. by left.
Defined.

(** ** Messages for the driver *)

Definition VIRTIO_CONSOLE_DEVICE_READY : Z := 0.
Definition VIRTIO_CONSOLE_PORT_ADD : Z := 1.
Definition VIRTIO_CONSOLE_PORT_READY : Z := 3.
Definition VIRTIO_CONSOLE_CONSOLE_PORT : Z := 4.
Definition VIRTIO_CONSOLE_RESIZE : Z := 5.
Definition VIRTIO_CONSOLE_PORT_OPEN : Z := 6.
Definition VIRTIO_CONSOLE_PORT_NAME : Z := 7.

Record VirtioConsoleControl := mkControl { id : Z; event : Z; value : Z }.

#[export] Instance VirtioConsoleControl_bytes : ByteValued VirtioConsoleControl := {
  layout := [4; 2; 2]%nat;
  to_fields c := [id c; event c; value c];
  of_fields l := let f n := nth n l 0 in mkControl (f 0%nat) (f 1%nat) (f 2%nat) }.

#[export] Instance VirtioConsoleControl_laws : ByteValuedLaws VirtioConsoleControl.
Proof. split; [done|by intros []|]. intros l Hl. by repeat (destruct l as [|? l]; try discriminate Hl). Qed.

Record VirtioConsoleResize := mkResize { rows : Z; cols : Z }.

#[export] Instance VirtioConsoleResize_bytes : ByteValued VirtioConsoleResize := {
  layout := [2; 2]%nat;
  to_fields c := [rows c; cols c];
  of_fields l := let f n := nth n l 0 in mkResize (f 0%nat) (f 1%nat) }.

Inductive Payload := PControl (msg : VirtioConsoleControl) | PBytes (bs : list byte).

Definition deref (p : Payload) : list byte := match p with PControl msg => as_slice msg | PBytes bs => bs end.

(** The messages that wait, and the counter of the event that announces them. *)
Record ConsoleControl := mkQueueControl { queue : list Payload; queue_evt : Z }.

Definition ConsoleControl_new : ConsoleControl := mkQueueControl [] 0.

Definition push (c : ConsoleControl) (p : Payload) : ConsoleControl := mkQueueControl (queue c ++ [p]) (queue_evt c + 1).

Definition push_msg (c : ConsoleControl) (msg : VirtioConsoleControl) : ConsoleControl := push c (PControl msg).

Definition push_vec (c : ConsoleControl) (buf : list byte) : ConsoleControl := push c (PBytes buf).

Definition mark_console_port (c : ConsoleControl) (port_id : Z) : ConsoleControl :=
  push_msg c (mkControl port_id VIRTIO_CONSOLE_CONSOLE_PORT 1).

Definition console_resize (c : ConsoleControl) (port_id : Z) (new_size : VirtioConsoleResize) : ConsoleControl :=
  push_vec c (as_slice (mkControl port_id VIRTIO_CONSOLE_RESIZE 0) ++ as_slice new_size).

Definition port_add (c : ConsoleControl) (port_id : Z) : ConsoleControl :=
  push_msg c (mkControl port_id VIRTIO_CONSOLE_PORT_ADD 0).

Definition port_open (c : ConsoleControl) (port_id : Z) (open : bool) : ConsoleControl :=
  push_msg c (mkControl port_id VIRTIO_CONSOLE_PORT_OPEN (if open then 1 else 0)).

Definition port_name (c : ConsoleControl) (port_id : Z) (name : list byte) : ConsoleControl :=
  push_vec c (as_slice (mkControl port_id VIRTIO_CONSOLE_PORT_NAME 1) ++ name).

Definition queue_pop (c : ConsoleControl) : option Payload * ConsoleControl :=
  match queue c with [] => (None, c) | p :: l => (Some p, mkQueueControl l (queue_evt c)) end.

(** ** Interrupts *)

Definition VIRTIO_MMIO_INT_VRING : Z := 1.
Definition VIRTIO_MMIO_INT_CONFIG : Z := 2.

(** [irqs] counts the interrupts raised, through the event or the controller. *)
Record IRQSignaler := mkIrq { interrupt_status : Z; irqs : nat; intc : bool; irq_line : option Z }.

Definition IRQSignaler_new : IRQSignaler := mkIrq 0 0 false None.

Definition signal_used_queue (i : IRQSignaler) : outcome IRQSignaler :=
  let i := mkIrq (interrupt_status i .| VIRTIO_MMIO_INT_VRING) (irqs i) (intc i) (irq_line i) in
  _ ← (if intc i then _ ← unwrap (irq_line i); Ret tt else Ret tt);
  Ret (mkIrq (interrupt_status i) (S (irqs i)) (intc i) (irq_line i)).

Definition signal_config_update (i : IRQSignaler) : IRQSignaler :=
  mkIrq (interrupt_status i .| VIRTIO_MMIO_INT_CONFIG) (S (irqs i)) (intc i) (irq_line i).

Definition set_intc (i : IRQSignaler) : IRQSignaler := mkIrq (interrupt_status i) (irqs i) true (irq_line i).

Definition set_irq_line (i : IRQSignaler) (irq : Z) : IRQSignaler := mkIrq (interrupt_status i) (irqs i) (intc i) (Some irq).

(** ** Ports *)

Inductive PortDescription :=
| DConsole (input output : bool)
| DInputPipe (name : list byte)
| DOutputPipe (name : list byte).

(** A thread: the copy of the queue it started with, and how often it was
    unparked. *)
Record Thread := mkThread { th_queue : Queue; unparks : nat }.

Inductive PortState := Inactive | Active (stop : bool) (rx_thread tx_thread : option Thread).

Record Port := mkPort {
  port_id : Z; name : list byte; represents_console : bool; state : PortState; input : bool; output : bool }.

Definition set_state (p : Port) (s : PortState) : Port :=
  mkPort (port_id p) (name p) (represents_console p) s (input p) (output p).

Definition Port_new (port_id : Z) (description : PortDescription) : outcome Port :=
  match description with
  | DConsole input output => if input && output then Ret (mkPort port_id [] true Inactive true true) else Panic
  | DInputPipe name => Ret (mkPort port_id name false Inactive true false)
  | DOutputPipe name => Ret (mkPort port_id name false Inactive false true)
  end.

Definition is_console (p : Port) : bool := represents_console p.

Definition unpark (t : option Thread) : option Thread := (fun t => mkThread (th_queue t) (S (unparks t))) <$> t.

Definition notify_rx (p : Port) : Port :=
  match state p with Active stop rx tx => set_state p (Active stop (unpark rx) tx) | Inactive => p end.

Definition notify_tx (p : Port) : Port :=
  match state p with Active stop rx tx => set_state p (Active stop rx (unpark tx)) | Inactive => p end.

(** The threads are told to stop and joined. *)
Definition shutdown (p : Port) : Port :=
  match state p with Active _ _ _ => set_state p (Active true None None) | Inactive => p end.

Definition start (p : Port) (rx_queue tx_queue : Queue) : Port :=
  let p := match state p with Active _ _ _ => shutdown p | Inactive => p end in
  set_state p (Active false (if input p then Some (mkThread rx_queue 0) else None) (if output p then Some (mkThread tx_queue 0) else None)).

(** ** The device *)

Definition CONTROL_RXQ_INDEX : nat := 2.
Definition CONTROL_TXQ_INDEX : nat := 3.
Definition QUEUE_SIZE : Z := 32.
Definition VIRTIO_CONSOLE_F_SIZE : Z := 0.
Definition VIRTIO_CONSOLE_F_MULTIPORT : Z := 1.
Definition VIRTIO_F_VERSION_1 : Z := 32.
Definition VIRTIO_ID_CONSOLE : Z := 3.

Definition AVAIL_FEATURES : Z :=
  (1 .<< VIRTIO_CONSOLE_F_SIZE) .| (1 .<< VIRTIO_CONSOLE_F_MULTIPORT) .| (1 .<< VIRTIO_F_VERSION_1).

Record VirtioConsoleConfig := mkConfig { cfg_cols : Z; cfg_rows : Z; max_nr_ports : Z; emerg_wr : Z }.

#[export] Instance VirtioConsoleConfig_bytes : ByteValued VirtioConsoleConfig := {
  layout := [2; 2; 4; 4]%nat;
  to_fields c := [cfg_cols c; cfg_rows c; max_nr_ports c; emerg_wr c];
  of_fields l := let f n := nth n l 0 in mkConfig (f 0%nat) (f 1%nat) (f 2%nat) (f 3%nat) }.

(** [get_win_size], from the result of the ioctl. *)
Definition get_win_size (ws : option (Z * Z)) : Z * Z := default (0, 0) ws.

Section device.
Context {M : Type} `{GuestMemory M}.

Record Console := mkConsole {
  device_state : option M; irq : IRQSignaler; control : ConsoleControl; ports : list Port; queues : list Queue;
  acked_features : Z; config : VirtioConsoleConfig; activate_evt : Z; queues_registered : bool }.

Definition with_queue (d : Console) (i : nat) (q : Queue) (m : M) (c : ConsoleControl) : Console :=
  mkConsole (Some m) (irq d) c (ports d) (<[i := q]> (queues d)) (acked_features d) (config d) (activate_evt d) (queues_registered d).

Definition with_irq (d : Console) (i : IRQSignaler) : Console :=
  mkConsole (device_state d) i (control d) (ports d) (queues d) (acked_features d) (config d) (activate_evt d) (queues_registered d).

Definition with_control (d : Console) (c : ConsoleControl) : Console :=
  mkConsole (device_state d) (irq d) c (ports d) (queues d) (acked_features d) (config d) (activate_evt d) (queues_registered d).

Definition with_ports (d : Console) (l : list Port) : Console :=
  mkConsole (device_state d) (irq d) (control d) l (queues d) (acked_features d) (config d) (activate_evt d) (queues_registered d).

Definition is_console_description (p : PortDescription) : bool := match p with DConsole _ _ => true | _ => false end.

Fixpoint new_ports (i : Z) (l : list PortDescription) : outcome (list Port) :=
  match l with
  | [] => Ret []
  | d :: l => p ← Port_new i d; ps ← new_ports (i + 1) l; Ret (p :: ps)
  end.

(** The events of the device could be created. *)
Definition Console_new (descriptions : list PortDescription) (ws : option (Z * Z)) : outcome Console :=
  match descriptions with
  | [] => Panic
  | d :: _ =>
      if is_console_description d then
        let n := num_queues (length descriptions) in
        let '(cols, rows) := get_win_size ws in
        ps ← new_ports 0 descriptions;
        Ret (mkConsole None IRQSignaler_new ConsoleControl_new ps (replicate n (Queue_new QUEUE_SIZE)) 0
               (mkConfig cols rows (wrap 32 (Zlength descriptions)) 0) 0 false)
      else Panic
  end.

Definition avail_features : Z := AVAIL_FEATURES.

Definition set_acked_features (d : Console) (f : Z) : Console :=
  mkConsole (device_state d) (irq d) (control d) (ports d) (queues d) f (config d) (activate_evt d) (queues_registered d).

Definition update_console_size (d : Console) (cols rows : Z) : Console :=
  with_control d (console_resize (control d) 0 (mkResize rows cols)).

(** *** [Bytes::write]: as much as the memory behind the address holds *)

Fixpoint write_pieces (fuel : nat) (m : M) (a : Z) (bs : list byte) (n : Z) : Z * M :=
  match fuel, gm_find_region m a with
  | S fuel, Some (start, len) =>
      let k := Z.min (start + len - a) (Zlength bs) in
      match gm_write m a (take (Z.to_nat k) bs) with
      | Some m => if k =? Zlength bs then (n + k, m) else write_pieces fuel m (a + k) (drop (Z.to_nat k) bs) (n + k)
      | None => (n, m)
      end
  | _, _ => (n, m)
  end.

Definition mem_write (m : M) (a : Z) (bs : list byte) : result unit (Z * M) :=
  match gm_find_region m a with
  | None => Err tt
  | Some _ => Ok (write_pieces (S (length bs)) m a bs 0)
  end.

(** *** [process_control_rx] *)

Record Ctl := mkCtl { c_mem : M; c_queue : Queue; c_control : ConsoleControl; raise_irq : bool }.

Definition control_rx_round (w : Ctl) : outcome (bool * Ctl) :=
  '(head, q) ← pop (c_mem w) (c_queue w);
  match head with
  | None => Ret (false, mkCtl (c_mem w) q (c_control w) (raise_irq w))
  | Some head =>
      match queue_pop (c_control w) with
      | (Some buf, c) =>
          match mem_write (c_mem w) (addr head) (deref buf) with
          | Ok (n, m) =>
              let '(_, q, m) := add_used m q (index head) (wrap 32 n) in
              Ret (true, mkCtl m q c true)
          | Err _ => Ret (true, mkCtl (c_mem w) q c (raise_irq w))
          end
      | (None, c) => Ret (false, mkCtl (c_mem w) (undo_pop q) c (raise_irq w))
      end
  end.

Definition process_control_rx (fuel : nat) (d : Console) : option (outcome (bool * Console)) :=
  match device_state d, queues d !! CONTROL_RXQ_INDEX with
  | Some m, Some q =>
      match round_loop control_rx_round fuel (mkCtl m q (control d) false) with
      | None => None
      | Some Panic => Some Panic
      | Some (Ret w) => Some (Ret (raise_irq w, with_queue d CONTROL_RXQ_INDEX (c_queue w) (c_mem w) (c_control w)))
      end
  | _, _ => Some Panic
  end.

(** *** [process_control_tx] *)

(** [for port_id in 0..self.ports.len()] *)
Fixpoint announce (c : ConsoleControl) (i : Z) (n : nat) : ConsoleControl :=
  match n with O => c | S n => announce (port_add c (wrap 32 i)) (i + 1) n end.

(** What one command does: the messages it queues, and whether it starts a
    port ([ports_to_start]). *)
Definition handle_command (win : option (Z * Z)) (ps : list Port) (c : ConsoleControl) (cmd : VirtioConsoleControl) : outcome (ConsoleControl * option nat) :=
  if event cmd =? VIRTIO_CONSOLE_DEVICE_READY then Ret (announce c 0 (length ps), None)
  else if event cmd =? VIRTIO_CONSOLE_PORT_READY then
    if negb (value cmd =? 1) then Ret (c, None)
    else
      p ← unwrap (ps !! Z.to_nat (id cmd));
      let c :=
        if is_console p then
          let '(cols, rows) := get_win_size win in
          console_resize (port_open (mark_console_port c (id cmd)) (id cmd) true) (id cmd) (mkResize rows cols)
        else port_open c (id cmd) true in
      Ret (match name p with [] => c | n => port_name c (id cmd) n end, None)
  else if event cmd =? VIRTIO_CONSOLE_PORT_OPEN then
    Ret (c, if value cmd =? 1 then Some (Z.to_nat (id cmd)) else None)
  else Ret (c, None).

Record CtlTx := mkTx { t_mem : M; t_queue : Queue; t_control : ConsoleControl; t_irq : bool; ports_to_start : list nat }.

Definition control_tx_round (win : option (Z * Z)) (ps : list Port) (w : CtlTx) : outcome (bool * CtlTx) :=
  '(head, q) ← pop (t_mem w) (t_queue w);
  match head with
  | None => Ret (false, mkTx (t_mem w) q (t_control w) (t_irq w) (ports_to_start w))
  | Some head =>
      match gm_read (t_mem w) (addr head) (size_of VirtioConsoleControl) with
      | None => Ret (true, mkTx (t_mem w) q (t_control w) true (ports_to_start w))
      | Some bs =>
          let '(_, q, m) := add_used (t_mem w) q (index head) (Z.of_nat (size_of VirtioConsoleControl)) in
          '(c, started) ← handle_command win ps (t_control w) (from_slice bs);
          Ret (true, mkTx m q c true (ports_to_start w ++ match started with Some i => [i] | None => [] end))
      end
  end.

(** The ports' queues are copied out of the device. *)
Fixpoint start_ports (qs : list Queue) (l : list nat) (ps : list Port) : outcome (list Port) :=
  match l with
  | [] => Ret ps
  | i :: l =>
      p ← unwrap (ps !! i);
      rx ← unwrap (qs !! port_id_to_queue_idx Rx i);
      tx ← unwrap (qs !! port_id_to_queue_idx Tx i);
      start_ports qs l (<[i := start p rx tx]> ps)
  end.

Definition process_control_tx (fuel : nat) (win : option (Z * Z)) (d : Console) : option (outcome (bool * Console)) :=
  match device_state d, queues d !! CONTROL_TXQ_INDEX with
  | Some m, Some q =>
      match round_loop (control_tx_round win (ports d)) fuel (mkTx m q (control d) false []) with
      | None => None
      | Some Panic => Some Panic
      | Some (Ret w) =>
          let d := with_queue d CONTROL_TXQ_INDEX (t_queue w) (t_mem w) (t_control w) in
          Some (ps ← start_ports (queues d) (ports_to_start w) (ports d); Ret (t_irq w, with_ports d ps))
      end
  | _, _ => Some Panic
  end.

(** *** The device trait *)

Definition read_config (d : Console) (offset : Z) (data : list byte) : list byte :=
  let bytes := as_slice (config d) in
  if Zlength bytes <=? offset then data
  else match checked_add 64 offset (Zlength data) with
       | Some e => let part := slice bytes (Z.to_nat offset) (Z.to_nat (Z.min e (Zlength bytes) - offset)) in part ++ drop (length part) data
       | None => data
       end.

Definition activate (d : Console) (m : M) (activate_ok : bool) : result unit Console :=
  if activate_ok then
    Ok (mkConsole (Some m) (irq d) (control d) (ports d) (queues d) (acked_features d) (config d) (activate_evt d + 1) (queues_registered d))
  else Err tt.

Definition is_activated (d : Console) : bool := match device_state d with Some _ => true | None => false end.

Definition reset (d : Console) : bool * Console := (true, with_ports d (map shutdown (ports d))).

Definition on_vmm_exit (d : Console) : Console := snd (reset d).

(** *** Events *)

Inductive source := QueueEv (i : nat) | ControlEv | ActivateEv | SigwinchEv | OtherEv.

Definition EV_IN : Z := 1.

(** [read_queue_event]; [read_ok]: the event could be read. *)
Definition read_queue_event (event_set : Z) (read_ok : bool) : bool := (event_set =? EV_IN) && read_ok.

Definition notify_port_queue_event (d : Console) (i : nat) : outcome Console :=
  '(dir, p) ← queue_idx_to_port_id i;
  port ← unwrap (ports d !! p);
  Ret (with_ports d (<[p := match dir with Rx => notify_rx port | Tx => notify_tx port end]> (ports d))).

(** The queue events are registered with the event manager, and the activation
    event is not any more. *)
Definition handle_activate_event (d : Console) : Console :=
  mkConsole (device_state d) (irq d) (control d) (ports d) (queues d) (acked_features d) (config d) 0 true.

Definition raise (x : option (outcome (bool * Console))) : option (outcome Console) :=
  match x with
  | None => None
  | Some Panic => Some Panic
  | Some (Ret (raise_irq, d)) => Some (if raise_irq : bool then i ← signal_used_queue (irq d); Ret (with_irq d i) else Ret d)
  end.

Definition process (fuel : nat) (win : option (Z * Z)) (d : Console) (src : source) (event_set : Z) (read_ok : bool) : option (outcome Console) :=
  if is_activated d then
    raise
      match src with
      | QueueEv i =>
          if (i =? CONTROL_TXQ_INDEX)%nat then
            if read_queue_event event_set read_ok then process_control_tx fuel win d else Some (Ret (false, d))
          else if (i =? CONTROL_RXQ_INDEX)%nat then Some (Ret (read_queue_event event_set read_ok, d))
          else Some (d ← notify_port_queue_event d i; Ret (read_queue_event event_set read_ok, d))
      | ControlEv =>
          let c := if read_ok then mkQueueControl (queue (control d)) 0 else control d in
          process_control_rx fuel (with_control d c)
      | ActivateEv => Some (Ret (false, handle_activate_event d))
      | SigwinchEv => let '(cols, rows) := get_win_size win in Some (Ret (false, update_console_size d cols rows))
      | OtherEv => Some (Ret (false, d))
      end
  else Some (Ret d).

(** ** Delivery of messages *)

Context `{!GuestMemoryLaws M}.

(** A write that one region holds is one write. *)
Lemma mem_write_whole m a bs start len :
  gm_find_region m a = Some (start, len) -> a + Zlength bs <= start + len -> bytes_ok bs ->
  exists m', mem_write m a bs = Ok (Zlength bs, m') /\ gm_write m a bs = Some m'.
Proof.
  intros Hr Hl Hb. destruct (gm_region_read m a start len (length bs) Hr Hl) as [old Ho].
  destruct (gm_write_total m a bs old Ho Hb) as [m' Hw]. exists m'. split; [|done].
  unfold mem_write. cbn [write_pieces]. rewrite Hr. rewrite Z.min_r by lia. rewrite Nat2Z.id, take_ge, Hw by done.
  by rewrite Z.eqb_refl.
Qed.

(** One message: written whole to the driver's next buffer, the chain is
    returned once with its length, and the message is gone from the queue. *)
Theorem control_message_delivered w hd c lg p rest start ln :
  pending (c_mem w) (c_queue w) hd c -> used_log (c_mem w) (c_queue w) lg -> Zlength lg < size (c_queue w) ->
  queue (c_control w) = p :: rest -> bytes_ok (deref p) -> Zlength (deref p) < 2 ^ 32 ->
  gm_find_region (c_mem w) (addr c) = Some (start, ln) -> addr c + Zlength (deref p) <= start + ln ->
  addr c + Zlength (deref p) <= used_ring (c_queue w) \/ used_ring (c_queue w) + (6 + 8 * size (c_queue w)) <= addr c ->
  exists w', control_rx_round w = Ret (true, w') /\
    gm_read (c_mem w') (addr c) (length (deref p)) = Some (deref p) /\
    used_log (c_mem w') (c_queue w') (lg ++ [(hd, Zlength (deref p))]) /\
    queue (c_control w') = rest /\ raise_irq w' = true /\ next_avail (c_queue w') = next_avail (c_queue w) +[16] 1 /\
    (forall a k, a + Z.of_nat k <= addr c \/ addr c + Zlength (deref p) <= a ->
       a + Z.of_nat k <= used_ring (c_queue w) \/ used_ring (c_queue w) + (6 + 8 * size (c_queue w)) <= a ->
       gm_read (c_mem w') a k = gm_read (c_mem w) a k).
Proof.
  intros Hp Hlog Hlg Hq Hb Hlen Hreg Hfit Hap. unfold control_rx_round. rewrite (pending_pop _ _ _ _ Hp). cbn [mbind outcome_bind].
  unfold queue_pop. rewrite Hq. destruct (mem_write_whole _ _ _ _ _ Hreg Hfit Hb) as (m1 & -> & Hw).
  destruct (pending_complete _ _ _ _ lg m1 (Zlength (deref p)) Hp Hlog Hlg) as (q2 & m2 & Hadd & Hlog2 & Hn & _ & Hfr).
  { unfold fits. lia. }
  { intros a k Hak. apply (gm_write_frame _ _ _ _ _ _ Hw). lia. }
  rewrite (wrap_small 32) by (unfold fits; lia). rewrite Hadd. eexists. split; [done|]. cbn [c_mem c_queue c_control raise_irq queue].
  split_and!; try done.
  - rewrite Hfr by lia. by apply (gm_write_read _ _ _ _ Hw).
  - intros a k Ha1 Ha2. rewrite Hfr by done. by apply (gm_write_frame _ _ _ _ _ _ Hw).
Qed.

Lemma control_rx_round_step w b w' :
  control_rx_round w = Ret (b, w') ->
  if b then exists p, queue (c_control w) = p :: queue (c_control w')
  else queue (c_control w') = queue (c_control w) /\
    (queue (c_control w) = [] \/ pop (c_mem w') (c_queue w') = Ret (None, c_queue w')).
Proof.
  unfold control_rx_round. destruct (pop _ _) as [[[head|] q]|] eqn:Ep; cbn [mbind outcome_bind]; [| |done].
  - unfold queue_pop. destruct (queue (c_control w)) as [|p rest] eqn:Eq.
    + intros [= <- <-]. cbn. split; [done|by left].
    + destruct (mem_write _ _ _) as [[n m]|]; [destruct (add_used _ _ _ _) as [[? ?] ?]|]; intros [= <- <-]; cbn; by exists p.
  - apply pop_result in Ep as Hq. subst q. intros [= <- <-]. cbn. split; [done|by right].
Qed.

(** The control receive loop takes no more rounds than there are messages and
    one; what it leaves in the queue are the last of them, and none is left
    while the driver has a buffer. *)
Theorem control_rx_drains fuel w :
  (length (queue (c_control w)) < fuel)%nat ->
  exists o, round_loop control_rx_round fuel w = Some o /\
    forall w', o = Ret w' -> suffix (queue (c_control w')) (queue (c_control w)) /\
      (queue (c_control w') = [] \/ pop (c_mem w') (c_queue w') = Ret (None, c_queue w')).
Proof.
  revert w. induction fuel as [|fuel IH]; intros w Hf; [lia|]. cbn [round_loop].
  destruct (control_rx_round w) as [[[] w1]|] eqn:E; [| |by eexists].
  - pose proof (control_rx_round_step _ _ _ E) as [p Hq]. destruct (IH w1) as (o & Ho & Hw); [rewrite Hq in Hf; cbn in Hf; lia|].
    exists o. split; [done|]. intros w' ->. destruct (Hw w' eq_refl) as [Hs Hr]. split; [|done].
    rewrite Hq. by apply suffix_cons_r.
  - eexists. split; [done|]. intros w' [= <-]. pose proof (control_rx_round_step _ _ _ E) as [Hq Hr]. rewrite Hq. split; [done|].
    exact Hr.
Qed.

(** ** The protocol of the ports *)

Ltac width := unfold fits; first [lia | done | by vm_compute].

(** What a driver learns of a port from the messages. *)
Record View := mkView { v_console : bool; v_open : bool; v_name : list byte }.

Definition driver (t : gmap Z View) (msg : list byte) : gmap Z View :=
  let c : VirtioConsoleControl := from_slice (take 8 msg) in
  if event c =? VIRTIO_CONSOLE_PORT_ADD then <[id c := mkView false false []]> t
  else if event c =? VIRTIO_CONSOLE_CONSOLE_PORT then alter (fun v => mkView true (v_open v) (v_name v)) (id c) t
  else if event c =? VIRTIO_CONSOLE_PORT_OPEN then alter (fun v => mkView (v_console v) (value c =? 1) (v_name v)) (id c) t
  else if event c =? VIRTIO_CONSOLE_PORT_NAME then alter (fun v => mkView (v_console v) (v_open v) (drop 8 msg)) (id c) t
  else t.

Definition learned (t : gmap Z View) (c : ConsoleControl) : gmap Z View := foldl driver t (map deref (queue c)).

Lemma learned_push t c p : learned t (push c p) = driver (learned t c) (deref p).
Proof. unfold learned, push. cbn [queue]. by rewrite map_app, foldl_app. Qed.

Lemma driver_control t i e v rest :
  fits 32 i -> fits 16 e -> fits 16 v ->
  driver t (as_slice (mkControl i e v) ++ rest) =
    if e =? VIRTIO_CONSOLE_PORT_ADD then <[i := mkView false false []]> t
    else if e =? VIRTIO_CONSOLE_CONSOLE_PORT then alter (fun w => mkView true (v_open w) (v_name w)) i t
    else if e =? VIRTIO_CONSOLE_PORT_OPEN then alter (fun w => mkView (v_console w) (v =? 1) (v_name w)) i t
    else if e =? VIRTIO_CONSOLE_PORT_NAME then alter (fun w => mkView (v_console w) (v_open w) rest) i t
    else t.
Proof.
  intros Hi He Hv. unfold driver.
  assert (length (as_slice (mkControl i e v)) = 8%nat) as Hl by (by rewrite length_as_slice).
  rewrite take_app_length', drop_app_length' by done.
  assert (from_slice (as_slice (mkControl i e v)) = mkControl i e v) as ->.
  { rewrite <- (app_nil_r (as_slice _)). apply from_as_slice. unfold in_range. cbn. do 3 (apply Forall2_cons_2; [done|]). constructor. }
  done.
Qed.

Lemma driver_msg t i e v : fits 32 i -> fits 16 e -> fits 16 v ->
  driver t (as_slice (mkControl i e v)) = driver t (as_slice (mkControl i e v) ++ []).
Proof. by rewrite app_nil_r. Qed.

Lemma announce_learned n i c t j :
  0 <= i -> i + Z.of_nat n <= 2 ^ 32 ->
  learned t (announce c i n) !! j = if (i <=? j) && (j <? i + Z.of_nat n) then Some (mkView false false []) else learned t c !! j.
Proof.
  revert i c. induction n as [|n IH]; intros i c Hi Hn; cbn [announce].
  - destruct (Z.leb_spec i j), (Z.ltb_spec j (i + Z.of_nat 0)); try lia; done.
  - rewrite IH by lia. unfold port_add, push_msg. rewrite learned_push. cbn [deref].
    rewrite (wrap_small 32) by (unfold fits; lia). rewrite driver_msg, driver_control by width. cbn.
    destruct (decide (j = i)) as [->|Hne].
    + rewrite lookup_insert_eq. by destruct (Z.leb_spec (i + 1) i), (Z.leb_spec i i), (Z.ltb_spec i (i + Z.of_nat (S n))); try lia.
    + rewrite lookup_insert_ne by done.
      by destruct (Z.leb_spec (i + 1) j), (Z.ltb_spec j (i + 1 + Z.of_nat n)), (Z.leb_spec i j), (Z.ltb_spec j (i + Z.of_nat (S n))); try lia.
Qed.

(** A port is ready: the driver knows that it is open, whether it is a console,
    and its name. *)
Lemma port_ready_learned win ps c t i p v :
  ps !! i = Some p -> Z.of_nat i < 2 ^ 32 -> 0 <= (get_win_size win).1 < 2 ^ 16 -> 0 <= (get_win_size win).2 < 2 ^ 16 ->
  learned t c !! Z.of_nat i = Some v -> v_console v && negb (is_console p) = false -> (name p = [] -> v_name v = []) ->
  exists c', handle_command win ps c (mkControl (Z.of_nat i) VIRTIO_CONSOLE_PORT_READY 1) = Ret (c', None) /\
    learned t c' = <[Z.of_nat i := mkView (is_console p) true (name p)]> (learned t c).
Proof.
  intros Hp Hi Hw1 Hw2 Hv Hvc Hvn. unfold handle_command. cbn [event value id]. change (VIRTIO_CONSOLE_PORT_READY =? _) with false at 1.
  change (VIRTIO_CONSOLE_PORT_READY =? VIRTIO_CONSOLE_PORT_READY) with true. cbn [negb Z.eqb Pos.eqb].
  rewrite Nat2Z.id, Hp. cbn [unwrap mbind outcome_bind]. destruct (get_win_size win) as [cols rows]. cbn [fst snd] in *.
  eexists. split; [reflexivity|].
  assert (forall c, learned t (port_open c (Z.of_nat i) true) = alter (fun w => mkView (v_console w) true (v_name w)) (Z.of_nat i) (learned t c)) as Hopen.
  { intros c0. unfold port_open, push_msg. rewrite learned_push. cbn [deref]. by rewrite driver_msg, driver_control by width. }
  assert (forall c, learned t (console_resize c (Z.of_nat i) (mkResize rows cols)) = learned t c) as Hsize.
  { intros c0. unfold console_resize, push_vec. rewrite learned_push. cbn [deref]. by rewrite driver_control by width. }
  assert (forall c, learned t (mark_console_port c (Z.of_nat i)) = alter (fun w => mkView true (v_open w) (v_name w)) (Z.of_nat i) (learned t c)) as Hmark.
  { intros c0. unfold mark_console_port, push_msg. rewrite learned_push. cbn [deref]. by rewrite driver_msg, driver_control by width. }
  assert (forall c n, learned t (port_name c (Z.of_nat i) n) = alter (fun w => mkView (v_console w) (v_open w) n) (Z.of_nat i) (learned t c)) as Hname.
  { intros c0 n. unfold port_name, push_vec. rewrite learned_push. cbn [deref]. by rewrite driver_control by width. }
  apply map_eq. intros j. destruct (decide (j = Z.of_nat i)) as [->|Hne].
  - rewrite lookup_insert_eq. destruct (name p) as [|b n] eqn:En, (is_console p) eqn:Ec;
      rewrite ?Hname, ?Hsize, ?Hopen, ?Hmark, ?lookup_alter_eq, Hv; cbn; rewrite ?Hvn by done; try done;
      by rewrite andb_true_r in Hvc; rewrite Hvc.
  - rewrite lookup_insert_ne by done. destruct (name p) as [|b n] eqn:En, (is_console p) eqn:Ec;
      by rewrite ?Hname, ?Hsize, ?Hopen, ?Hmark, ?lookup_alter_ne.
Qed.

(** The commands of a driver, one after the other. *)
Fixpoint commands (win : option (Z * Z)) (ps : list Port) (c : ConsoleControl) (l : list VirtioConsoleControl) : outcome ConsoleControl :=
  match l with
  | [] => Ret c
  | cmd :: l => '(c, _) ← handle_command win ps c cmd; commands win ps c l
  end.

Definition ready_commands (l : list nat) : list VirtioConsoleControl :=
  mkControl 0 VIRTIO_CONSOLE_DEVICE_READY 1 :: map (fun i => mkControl (Z.of_nat i) VIRTIO_CONSOLE_PORT_READY 1) l.

(** A port as the driver should see it, when it has reported [seen] as ready. *)
Definition port_view (ps : list Port) (seen : list nat) (j : Z) : option View :=
  if j <? 0 then None
  else (fun p => if bool_decide (Z.to_nat j ∈ seen) then mkView (is_console p) true (name p) else mkView false false []) <$> ps !! Z.to_nat j.

Lemma ready_ports_learned win ps l seen c :
  Zlength ps < 2 ^ 32 -> 0 <= (get_win_size win).1 < 2 ^ 16 -> 0 <= (get_win_size win).2 < 2 ^ 16 ->
  Forall (fun i => (i < length ps)%nat) l -> (forall j, learned ∅ c !! j = port_view ps seen j) ->
  exists c', commands win ps c (map (fun i => mkControl (Z.of_nat i) VIRTIO_CONSOLE_PORT_READY 1) l) = Ret c' /\
    forall j, learned ∅ c' !! j = port_view ps (seen ++ l) j.
Proof.
  intros Hps Hw1 Hw2 Hl. revert seen c. induction Hl as [|i l Hi _ IH]; intros seen c Hc.
  { exists c. split; [done|]. intros j. by rewrite app_nil_r. }
  destruct (lookup_lt_is_Some_2 ps i Hi) as [p Hp]. cbn [map commands].
  assert (port_view ps seen (Z.of_nat i) = Some (if bool_decide (i ∈ seen) then mkView (is_console p) true (name p) else mkView false false [])) as Hv.
  { unfold port_view. rewrite (proj2 (Z.ltb_ge _ _)) by lia. by rewrite Nat2Z.id, Hp. }
  destruct (port_ready_learned win ps c ∅ i p (if bool_decide (i ∈ seen) then mkView (is_console p) true (name p) else mkView false false []))
    as (c1 & -> & Hc1); [done|lia|done|done|by rewrite Hc| |by case_bool_decide|].
  { case_bool_decide; [|done]. cbn. by destruct (is_console p). }
  cbn [mbind outcome_bind]. replace (seen ++ i :: l) with ((seen ++ [i]) ++ l) by by rewrite <- app_assoc. apply IH.
  intros j. rewrite Hc1. destruct (decide (j = Z.of_nat i)) as [->|Hne].
  - rewrite lookup_insert_eq. unfold port_view. rewrite (proj2 (Z.ltb_ge _ _)), Nat2Z.id, Hp by lia. cbn.
    by rewrite bool_decide_true by set_solver.
  - rewrite lookup_insert_ne, Hc by done. unfold port_view. destruct (Z.ltb_spec j 0); [done|].
    destruct (ps !! Z.to_nat j); [|done]. cbn. f_equal. assert (Z.to_nat j <> i) by lia.
    rewrite (bool_decide_ext (Z.to_nat j ∈ seen ++ [i]) (Z.to_nat j ∈ seen)) by set_solver. done.
Qed.

(** C10. The handshake: a driver that says it is ready, and then that some ports
    are, in any order, learns from the messages exactly the ports of the
    device; those it named are open, a console when they are one, and have
    their name. *)
Theorem handshake_announces_ports win ps l :
  Zlength ps < 2 ^ 32 -> 0 <= (get_win_size win).1 < 2 ^ 16 -> 0 <= (get_win_size win).2 < 2 ^ 16 ->
  Forall (fun i => (i < length ps)%nat) l ->
  exists c, commands win ps ConsoleControl_new (ready_commands l) = Ret c /\ forall j, learned ∅ c !! j = port_view ps l j.
Proof.
  intros Hps Hw1 Hw2 Hl. unfold ready_commands. cbn [commands]. unfold handle_command at 1. cbn [event].
  change (VIRTIO_CONSOLE_DEVICE_READY =? VIRTIO_CONSOLE_DEVICE_READY) with true. cbn [mbind outcome_bind].
  apply (ready_ports_learned win ps l []); [done..|]. intros j. rewrite announce_learned by lia. unfold port_view.
  destruct (Z.ltb_spec j 0).
  - rewrite (proj2 (Z.leb_gt _ _)) by lia. done.
  - rewrite (proj2 (Z.leb_le _ _)) by lia. cbn [andb]. destruct (Z.ltb_spec j (0 + Z.of_nat (length ps))).
    + destruct (lookup_lt_is_Some_2 ps (Z.to_nat j)) as [p Hp]; [lia|]. rewrite Hp. cbn. by rewrite bool_decide_false by set_solver.
    + rewrite lookup_ge_None_2 by lia. done.
Qed.

(** ** Requests of the guest that go wrong *)

(** A command for a port that does not exist. *)
Lemma bad_port_panics win ps c i : (length ps <= Z.to_nat i)%nat -> handle_command win ps c (mkControl i VIRTIO_CONSOLE_PORT_READY 1) = Panic.
Proof. intros Hi. unfold handle_command. cbn. by rewrite lookup_ge_None_2. Qed.

(** New buffers for messages do not fetch the messages that wait. *)
Lemma control_rxq_event_ignored fuel win d ev ok d' :
  is_activated d = true -> process fuel win d (QueueEv CONTROL_RXQ_INDEX) ev ok = Some (Ret d') ->
  control d' = control d /\ queues d' = queues d /\ device_state d' = device_state d.
Proof.
  unfold process. intros ->. cbn [Nat.eqb CONTROL_RXQ_INDEX CONTROL_TXQ_INDEX raise]. destruct (read_queue_event _ _); [|by intros [= <-]].
  cbn. unfold signal_used_queue. destruct (intc (irq d)); cbn; [destruct (irq_line (irq d)); cbn; [|done]|]; by intros [= <-].
Qed.

(** A port that is opened again gets the device's copy of its queues, at the
    position they had when the device was activated, however far the threads
    of the first opening came. *)
Lemma reopened_port_rewinds p rx tx : input p = true -> state (start p rx tx) = Active false (Some (mkThread rx 0)) (if output p then Some (mkThread tx 0) else None).
Proof. intros Hi. unfold start, shutdown. destruct (state p); cbn; by rewrite Hi. Qed.

(** ** The transmit loop *)

Lemma control_tx_round_pops win ps : pops_one (control_tx_round win ps) (fun w => (t_mem w, t_queue w)).
Proof.
  intros w b w'. unfold control_tx_round. cbn [fst snd]. destruct (pop _ _) as [[[head|] q]|] eqn:Ep; cbn [mbind outcome_bind]; [| |done].
  - destruct (gm_read _ _ _); [|intros [= <- <-]; by exists head, q].
    destruct (add_used _ _ _ _) as [[r q2] m2] eqn:Ea. destruct (handle_command _ _ _ _) as [[c s]|]; cbn [mbind outcome_bind]; [|done].
    intros [= <- <-]. exists head, q. split; [done|]. cbn. by eapply add_used_next_avail.
  - apply pop_result in Ep as Hq. subst q. intros [= <- <-]. split; [by destruct w|done].
Qed.

(** The command loop ends within one round more than there are published
    commands and leaves none. *)
Theorem control_tx_drains win ps fuel w :
  index_kept (control_tx_round win ps) (fun w => (t_mem w, t_queue w)) w -> outstanding (t_mem w) (t_queue w) < Z.of_nat fuel ->
  exists o, round_loop (control_tx_round win ps) fuel w = Some o /\
    forall w', o = Ret w' -> pop (t_mem w') (t_queue w') = Ret (None, t_queue w').
Proof. apply (round_loop_drains _ _ fuel w (control_tx_round_pops win ps)). Qed.
End device.

(** ** Witnesses *)

(** Descriptor 0 at 0 with a buffer of 64 bytes at 192, the available ring at
    64 with entry 0 published, the used ring at 128. *)
Definition demo_mem : FlatMem := mkFlat 0
  (le_bytes 8 192 ++ le_bytes 4 64 ++ le_bytes 2 2 ++ le_bytes 2 0 ++ replicate 48 0 ++
   le_bytes 2 0 ++ le_bytes 2 1 ++ replicate 60 0 ++ replicate 128 0).

Definition demo_queue : Queue := {|
  max_size := 4; size := 4; ready := true; q_desc_table := 0; avail_ring := 64; used_ring := 128;
  next_avail := 0; next_used := 0; event_idx_enabled := false; num_added := 0 |}.

Definition demo_head : DescriptorChain := {|
  desc_table := 0; queue_size := 4; ttl := 4; index := 0; addr := 192; len := 64; flags := 2; next := 0 |}.

Lemma console_demo_pending : pending demo_mem demo_queue 0 demo_head.
Proof.
  assert (avail_ok demo_mem demo_queue) as Ha.
  { split; try (simpl; lia); try done; try (split; vm_compute; congruence); vm_compute; by eexists. }
  assert (used_ok demo_mem demo_queue) as Hu.
  { split; try (simpl; lia); try done; try (split; vm_compute; congruence);
      try (split; [simpl; lia|by exists 16384]); vm_compute; by eexists. }
  split; [exact Ha|exact Hu| | | |done]; try (vm_compute; reflexivity). exists 1. vm_compute. split; congruence.
Qed.

Definition demo_ctl : Ctl (M := FlatMem) := mkCtl demo_mem demo_queue (port_name (port_add ConsoleControl_new 0) 0 [97]) false.

Lemma control_message_delivered_witness :
  exists w', control_rx_round demo_ctl = Ret (true, w') /\ gm_read (c_mem w') 192 8 = Some [0; 0; 0; 0; 1; 0; 0; 0] /\
    length (queue (c_control w')) = 1%nat.
Proof.
  destruct (control_message_delivered demo_ctl 0 demo_head [] (PControl (mkControl 0 1 0)) [PBytes [0; 0; 0; 0; 7; 0; 1; 0; 97]] 0 256
    console_demo_pending) as (w' & E & Hr & _ & Hq & _).
  - intros k e Hk. discriminate Hk.
  - vm_compute. reflexivity.
  - vm_compute. reflexivity.
  - apply as_slice_ok.
  - vm_compute. reflexivity.
  - vm_compute. reflexivity.
  - vm_compute. congruence.
  - right. vm_compute. congruence.
  - exists w'. split; [exact E|]. split; [exact Hr|]. rewrite Hq. reflexivity.
Defined.

(** One buffer for two messages: one is delivered, one waits. *)
Lemma control_rx_drains_witness :
  exists w', round_loop control_rx_round 3 demo_ctl = Some (Ret w') /\ length (queue (c_control w')) = 1%nat /\
    pop (c_mem w') (c_queue w') = Ret (None, c_queue w').
Proof.
  destruct (control_rx_drains 3 demo_ctl) as (o & Eo & Hw); [vm_compute; lia|].
  assert (exists w', o = Ret w' /\ length (queue (c_control w')) = 1%nat) as (w' & -> & Hl).
  { revert Eo. vm_compute. intros [= <-]. eexists. split; reflexivity. }
  exists w'. split; [exact Eo|]. split; [exact Hl|]. destruct (Hw w' eq_refl) as [_ [Hn|Hn]]; [|exact Hn].
  rewrite Hn in Hl. discriminate Hl.
Defined.

Definition demo_ports : list Port :=
  [mkPort 0 [] true Inactive true true; mkPort 1 [107] false Inactive false true; mkPort 2 [108] false Inactive true false].

Lemma handshake_announces_ports_witness :
  exists c, commands (Some (80, 25)) demo_ports ConsoleControl_new (ready_commands [1; 0]%nat) = Ret c /\
    learned ∅ c !! 0 = Some (mkView true true []) /\ learned ∅ c !! 1 = Some (mkView false true [107]) /\
    learned ∅ c !! 2 = Some (mkView false false []) /\ learned ∅ c !! 3 = None.
Proof.
  destruct (handshake_announces_ports (Some (80, 25)) demo_ports [1; 0]%nat) as (c & E & Hc).
  - vm_compute. reflexivity.
  - vm_compute. split; congruence.
  - vm_compute. split; congruence.
  - repeat constructor.
  - exists c. split; [exact E|]. rewrite !Hc. vm_compute. split_and!; reflexivity.
Defined.
End Console.
