(* ===== verification/ConsolePort.v ===== *)
(** * The port threads of the console
    ([devices/src/virtio/console/]: [process_rx.rs], [process_tx.rs],
    [port_io.rs])

    A port that is open has a thread for its input and one for its output,
    each with its own copy of the queue.  The host side of a port is an
    interface, [PortInput] and [PortOutput]; the log sink, the interrupt key,
    the empty input and the file descriptors of [port_io.rs] are its
    instances.  A thread runs in turns: what the driver has written and whether
    the thread was told to stop come from outside before each turn.  The
    theorems: output leaves in order and whole, whatever the sink's rhythm;
    input reaches the driver's buffer and its length the used ring; the log
    keeps every byte and stays small; which threads can be stopped. *)

From S2P Require Import Prelude Utf8 GuestMem VirtQueue FuseAbi Console.

Module ConsolePort.
Import VirtQueue.
Import Console(ConsoleControl, IRQSignaler, signal_used_queue, port_open).

(** ** The host side of a port *)

(** The count that is returned and the bytes that are stored. *)
Inductive IoRead := Read (n : Z) (bs : list byte) | ReadWouldBlock | ReadFailed.

Inductive IoWrite := Wrote (n : Z) | WriteWouldBlock | WriteFailed.

Class PortInput (I : Type) := {
  read_volatile : I -> nat -> IoRead * I;
  wait_until_readable : I -> I }.

Class PortOutput (O : Type) := {
  write_volatile : O -> list byte -> IoWrite * O;
  wait_until_writable : O -> O }.

(** What the theorems use of an input: it delivers a stream of bytes into every
    buffer that is not empty. *)
Class PortInputLaws (I : Type) `{PortInput I} := {
  stream : I -> list byte;
  read_stream i n k bs i' : (0 < n)%nat -> read_volatile i n = (Read k bs, i') ->
    stream i = bs ++ stream i' /\ (length bs <= n)%nat /\ bytes_ok bs /\ k = Zlength bs;
  read_blocks i n i' : read_volatile i n = (ReadWouldBlock, i') -> stream i' = stream i;
  wait_stream i : stream (wait_until_readable i) = stream i;
  read_never_fails i n i' : read_volatile i n <> (ReadFailed, i') }.

(** What the theorems use of an output: what it accepts is appended to what it
    has, it makes progress, and it blocks a bounded number of times. *)
Class PortOutputLaws (O : Type) `{PortOutput O} := {
  written : O -> list byte;
  blocks : O -> nat;
  write_takes o bs n o' : write_volatile o bs = (Wrote n, o') ->
    0 <= n <= Zlength bs /\ (bs <> [] -> 0 < n) /\ written o' = written o ++ take (Z.to_nat n) bs /\ (blocks o' <= blocks o)%nat;
  write_blocks o bs o' : write_volatile o bs = (WriteWouldBlock, o') ->
    written (wait_until_writable o') = written o /\ (blocks (wait_until_writable o') < blocks o)%nat;
  write_never_fails o bs o' : write_volatile o bs <> (WriteFailed, o') }.

(** *** The log as a sink *)

(** A line, or what the buffer held when it grew too long. *)
Inductive LogLine := Line (bs : list byte) | MissingNewline (bs : list byte).

(** [logged]: what [log!] was given, [drained]: the bytes that have left the
    buffer; both are histories. *)
Record PortOutputLog := mkLog { buf : list byte; logged : list LogLine; drained : list byte }.

Definition FORCE_FLUSH_TRESHOLD : nat := 512.

Definition PortOutputLog_new : PortOutputLog := mkLog [] [] [].

Definition force_flush (l : PortOutputLog) : PortOutputLog :=
  mkLog [] (logged l ++ [MissingNewline (Utf8.from_utf8_lossy (buf l))]) (drained l ++ buf l).

(** The loop over the buffer [b]: [l] is what is left of it from [i] on. *)
Fixpoint log_lines (b : list byte) (start i : nat) (l : list byte) (out : list LogLine) : nat * list LogLine :=
  match l with
  | [] => (start, out)
  | ch :: l =>
      if ch =? 10 then log_lines b (S i) (S i) l (out ++ [Line (Utf8.from_utf8_lossy (slice b start (i - start)))])
      else log_lines b start (S i) l out
  end.

Definition log_write (l : PortOutputLog) (bs : list byte) : PortOutputLog :=
  let b := buf l ++ bs in
  let '(start, out) := log_lines b 0 0 b (logged l) in
  let l := mkLog (drop start b) out (drained l ++ take start b) in
  if (FORCE_FLUSH_TRESHOLD <? length (buf l))%nat then force_flush l else l.

#[export] Instance PortOutputLog_output : PortOutput PortOutputLog := {
  write_volatile l bs := (Wrote (Zlength bs), log_write l bs);
  wait_until_writable l := l }.

(** *** The interrupt key and the empty input *)

(** The counter of the event. *)
Record PortInputSigInt := mkSigInt { sigint_evt : Z }.

#[export] Instance PortInputSigInt_input : PortInput PortInputSigInt := {
  read_volatile i n := if sigint_evt i =? 0 then (ReadWouldBlock, i) else (Read 1 (take n [3]), mkSigInt 0);
  wait_until_readable i := i }.

Record PortInputEmpty := mkEmpty {}.

#[export] Instance PortInputEmpty_input : PortInput PortInputEmpty := {
  read_volatile i n := (Read 0 [], i);
  wait_until_readable i := i }.

(** *** File descriptors *)

(** The system calls on descriptors; an error is its number. *)
Class HostFds (F : Type) := {
  sys_read : F -> Z -> nat -> result Z (list byte) * F;
  sys_write : F -> Z -> list byte -> result Z Z * F;
  sys_poll : F -> list Z -> F;
  sys_dup : F -> Z -> result Z Z * F;
  sys_getfl : F -> Z -> result Z Z;
  sys_setfl : F -> Z -> Z -> result Z unit * F }.

Definition EWOULDBLOCK : Z := 11.
Definition O_NONBLOCK : Z := 2048.
Definition STDIN_FILENO : Z := 0.
Definition STDOUT_FILENO : Z := 1.
Definition STDERR_FILENO : Z := 2.

(** A port on a descriptor, and the host it is a descriptor of. *)
Record PortInputFd (F : Type) := mkInputFd { in_fd : Z; in_host : F }.
Record PortOutputFd (F : Type) := mkOutputFd { out_fd : Z; out_host : F }.
Arguments mkInputFd {F} _ _.
Arguments in_fd {F} _.
Arguments in_host {F} _.
Arguments mkOutputFd {F} _ _.
Arguments out_fd {F} _.
Arguments out_host {F} _.

#[export] Instance PortInputFd_input {F} `{HostFds F} : PortInput (PortInputFd F) := {
  read_volatile i n :=
    let '(r, h) := sys_read (in_host i) (in_fd i) n in
    (match r with
     | Ok bs => Read (Zlength bs) bs
     | Err e => if e =? EWOULDBLOCK then ReadWouldBlock else ReadFailed
     end, mkInputFd (in_fd i) h);
  wait_until_readable i := mkInputFd (in_fd i) (sys_poll (in_host i) [in_fd i]) }.

#[export] Instance PortOutputFd_output {F} `{HostFds F} : PortOutput (PortOutputFd F) := {
  write_volatile o bs :=
    let '(r, h) := sys_write (out_host o) (out_fd o) bs in
    (match r with
     | Ok n => Wrote n
     | Err e => if e =? EWOULDBLOCK then WriteWouldBlock else WriteFailed
     end, mkOutputFd (out_fd o) h);
  wait_until_writable o := mkOutputFd (out_fd o) (sys_poll (out_host o) [out_fd o]) }.

Definition dup_raw_fd_into_owned {F} `{HostFds F} (h : F) (fd : Z) : result Z Z * F := sys_dup h fd.

Definition make_non_blocking {F} `{HostFds F} (h : F) (fd : Z) : result Z unit * F :=
  match sys_getfl h fd with
  | Err e => (Err e, h)
  | Ok flags => sys_setfl h fd (flags .| O_NONBLOCK)
  end.

Definition dup_non_blocking {F} `{HostFds F} (h : F) (fd : Z) : result Z Z * F :=
  match dup_raw_fd_into_owned h fd with
  | (Err e, h) => (Err e, h)
  | (Ok fd, h) =>
      match make_non_blocking h fd with
      | (Err e, h) => (Err e, h)
      | (Ok _, h) => (Ok fd, h)
      end
  end.

Definition output_to_raw_fd_dup {F} `{HostFds F} (h : F) (fd : Z) : result Z (PortOutputFd F) :=
  match dup_non_blocking h fd with (Err e, _) => Err e | (Ok fd, h) => Ok (mkOutputFd fd h) end.

Definition stdin {F} `{HostFds F} (h : F) : result Z (PortInputFd F) :=
  match dup_non_blocking h STDIN_FILENO with (Err e, _) => Err e | (Ok fd, h) => Ok (mkInputFd fd h) end.

Definition stdout {F} `{HostFds F} (h : F) : result Z (PortOutputFd F) := output_to_raw_fd_dup h STDOUT_FILENO.

Definition stderr {F} `{HostFds F} (h : F) : result Z (PortOutputFd F) := output_to_raw_fd_dup h STDERR_FILENO.

Definition output_file {F} `{HostFds F} (h : F) (file : Z) : result Z (PortOutputFd F) := output_to_raw_fd_dup h file.

Definition input_empty : PortInputEmpty := mkEmpty.

Definition output_to_log_as_err : PortOutputLog := PortOutputLog_new.

(** ** [GuestMemory::try_access] of vm-memory

    The regions of guest memory from an address on are handed to [f], until
    [count] bytes are done, [f] has none or fails, or no region is left. *)
Section access.
Context {St : Type} (region : Z -> option (Z * Z)) (f : St -> Z -> Z -> fueled (result unit Z * St)).

Fixpoint access_loop (fuel : nat) (count a cur total : Z) (s : St) : fueled (result unit Z * St) :=
  match fuel with
  | O => None
  | S fuel =>
      match region cur with
      | None => Some (Ret (if total =? 0 then Err tt else Ok total, s))
      | Some (start, size) =>
          '(r, s) ← f s cur (Z.min (start + size - cur) (count -[64] total));
          match r with
          | Err e => Some (Ret (Err e, s))
          | Ok n =>
              if n =? 0 then Some (Ret (Ok total, s))
              else
                let total := total + n in
                if total =? count then Some (Ret (Ok total, s))
                else if wrap 64 (cur + n) =? 0 then access_loop fuel count a 0 total s
                else if cur + n <? 2 ^ 64 then access_loop fuel count a (cur + n) total s
                else Some Panic
          end
      end
  end.

Definition try_access (count a : Z) (s : St) : fueled (result unit Z * St) :=
  access_loop (S (Z.to_nat count)) count a a 0 s.
End access.

(** ** The output thread *)

Section tx.
Context {M : Type} `{GuestMemory M} {Out : Type} `{PortOutput Out}.

(** One piece of a buffer, until the sink takes some of it; [patience] bounds
    the waits. *)
Fixpoint write_piece (patience : nat) (src : list byte) (s : Out * IRQSignaler) : fueled (result unit Z * (Out * IRQSignaler)) :=
  match patience with
  | O => None
  | S patience =>
      match write_volatile s.1 src with
      | (Wrote n, o) => Some (Ret (Ok n, (o, s.2)))
      | (WriteFailed, o) => Some (Ret (Err tt, (o, s.2)))
      | (WriteWouldBlock, o) =>
          match signal_used_queue s.2 with
          | Panic => Some Panic
          | Ret irq => write_piece patience src (wait_until_writable o, irq)
          end
      end
  end.

Definition write_desc_to_output (patience : nat) (m : M) (d : DescriptorChain) (s : Out * IRQSignaler) : fueled (result unit Z * (Out * IRQSignaler)) :=
  try_access (gm_find_region m)
    (fun s a n => match gm_read m a (Z.to_nat n) with Some src => write_piece patience src s | None => Some Panic end)
    (len d) (addr d) s.

(** The loop over the readable descriptors of a chain. *)
Fixpoint write_chain (patience : nat) (m : M) (l : list DescriptorChain) (s : Out * IRQSignaler) (bytes_written : Z) : fueled (Z * (Out * IRQSignaler)) :=
  match l with
  | [] => Some (Ret (bytes_written, s))
  | d :: l =>
      '(r, s) ← write_desc_to_output patience m d s;
      match r with
      | Err _ => write_chain patience m l s bytes_written
      | Ok n =>
          if n =? 0 then Some (Ret (bytes_written, s))
          else if n =? len d then write_chain patience m l s (bytes_written +[64] n)
          else Some Panic
      end
  end.

Record TxThread := mkTxThread { tx_mem : M; tx_queue : Queue; tx_irq : IRQSignaler; tx_output : Out }.

(** What a turn of a thread ends with: it goes on, it is parked, or it has
    returned. *)
Inductive next := Running | Parked | Exited.

(** [process_tx] from one look at the queue to the next. *)
Definition tx_turn (patience : nat) (t : TxThread) : fueled (next * TxThread) :=
  match pop (tx_mem t) (tx_queue t) with
  | Panic => Some Panic
  | Ret (None, q) =>
      match signal_used_queue (tx_irq t) with
      | Panic => Some Panic
      | Ret irq => Some (Ret (Parked, mkTxThread (tx_mem t) q irq (tx_output t)))
      end
  | Ret (Some head, q) =>
      '(bytes_written, s) ← write_chain patience (tx_mem t) (readable (tx_mem t) head) (tx_output t, tx_irq t) 0;
      if bytes_written =? 0 then Some (Ret (Running, mkTxThread (tx_mem t) (undo_pop q) s.2 s.1))
      else
        let '(_, q, m) := add_used (tx_mem t) q (index head) (wrap 32 bytes_written) in
        Some (Ret (Running, mkTxThread m q s.2 s.1))
  end.

(** What happens outside while a thread is parked: the driver's memory, and
    whether [stop] is set when the thread is unparked. *)
Record Wake := mkWake { stop : bool; mem_then : M }.

(** The thread over the times it is unparked; at the end of the list it stays
    parked. *)
Fixpoint process_tx (fuel patience : nat) (wakes : list Wake) (t : TxThread) : fueled (next * TxThread) :=
  match fuel with
  | O => None
  | S fuel =>
      '(nx, t) ← tx_turn patience t;
      match nx, wakes with
      | Parked, [] => Some (Ret (Parked, t))
      | Parked, w :: wakes =>
          if stop w then Some (Ret (Exited, t))
          else process_tx fuel patience wakes (mkTxThread (mem_then w) (tx_queue t) (tx_irq t) (tx_output t))
      | _, _ => process_tx fuel patience wakes t
      end
  end.
End tx.
Arguments TxThread : clear implicits.
Arguments Wake : clear implicits.

(** ** The input thread *)

Section rx.
Context {M : Type} `{GuestMemory M} {Inp : Type} `{PortInput Inp}.

Record RxThread := mkRxThread {
  rx_mem : M; rx_queue : Queue; rx_irq : IRQSignaler; rx_input : Inp; rx_control : ConsoleControl; eof : bool }.

Definition rx_read (t : RxThread) (m : M) (i : Inp) (e : bool) : RxThread :=
  mkRxThread m (rx_queue t) (rx_irq t) i (rx_control t) e.

(** One piece of a buffer, read from the input straight into guest memory. *)
Definition read_piece (t : RxThread) (a n : Z) : fueled (result unit Z * RxThread) :=
  match read_volatile (rx_input t) (Z.to_nat n) with
  | (Read k bs, i) =>
      let e := if k =? 0 then true else eof t in
      match bs with
      | [] => Some (Ret (Ok k, rx_read t (rx_mem t) i e))
      | _ =>
          match gm_write (rx_mem t) a bs with
          | Some m => Some (Ret (Ok k, rx_read t m i e))
          | None => Some Panic
          end
      end
  | (ReadWouldBlock, i) => Some (Ret (Ok 0, rx_read t (rx_mem t) i (eof t)))
  | (ReadFailed, i) => Some (Ret (Err tt, rx_read t (rx_mem t) i (eof t)))
  end.

Definition read_to_desc (d : DescriptorChain) (t : RxThread) : fueled (result unit Z * RxThread) :=
  try_access (gm_find_region (rx_mem t)) read_piece (len d) (addr d) t.

(** The loop over the writable descriptors; the iterator reads a descriptor
    when the one before it is handed out. *)
Fixpoint read_chain (fuel : nat) (skipping : bool) (t : RxThread) (it : option DescriptorChain) (bytes_read : Z) : fueled (Z * RxThread) :=
  match fuel with
  | O => Some (Ret (bytes_read, t))
  | S fuel =>
      match desc_iter_next (rx_mem t) it with
      | (None, _) => Some (Ret (bytes_read, t))
      | (Some d, it) =>
          if skipping && is_read_only d then read_chain fuel true t it bytes_read
          else
            '(r, t) ← read_to_desc d t;
            match r with
            | Err _ => read_chain fuel false t it bytes_read
            | Ok n => if n =? 0 then Some (Ret (bytes_read, t)) else read_chain fuel false t it (bytes_read +[64] n)
            end
      end
  end.

Definition rx_signal (t : RxThread) : outcome RxThread :=
  irq ← signal_used_queue (rx_irq t);
  Ret (mkRxThread (rx_mem t) (rx_queue t) irq (rx_input t) (rx_control t) (eof t)).

Definition rx_set (t : RxThread) (m : M) (q : Queue) (c : ConsoleControl) : RxThread :=
  mkRxThread m q (rx_irq t) (rx_input t) c (eof t).

(** [process_rx] from one look at the queue to the next; [stop] is read at the
    end of a turn that took a chain. *)
Definition rx_turn (port_id : Z) (stop : bool) (t : RxThread) : fueled (next * RxThread) :=
  match pop (rx_mem t) (rx_queue t) with
  | Panic => Some Panic
  | Ret (None, q) => match rx_signal t with Panic => Some Panic | Ret t => Some (Ret (Parked, t)) end
  | Ret (Some head, q) =>
      '(bytes_read, t) ← read_chain (Z.to_nat (Z.max 1 (ttl head))) true (rx_set t (rx_mem t) q (rx_control t)) (Some head) 0;
      let t :=
        if bytes_read =? 0 then t
        else let '(_, q, m) := add_used (rx_mem t) (rx_queue t) (index head) (wrap 32 bytes_read) in rx_set t m q (rx_control t) in
      if eof t then
        match rx_signal t with
        | Panic => Some Panic
        | Ret t => Some (Ret (Exited, rx_set t (rx_mem t) (rx_queue t) (port_open (rx_control t) port_id false)))
        end
      else
        match (if bytes_read =? 0 then rx_signal (rx_set t (rx_mem t) (undo_pop (rx_queue t)) (rx_control t)) else Ret t) with
        | Panic => Some Panic
        | Ret t =>
            let i := if bytes_read =? 0 then wait_until_readable (rx_input t) else rx_input t in
            Some (Ret (if stop then Exited else Running, rx_read t (rx_mem t) i (eof t)))
        end
  end.

(** The thread over its turns: [stop] as a turn finds it, and the memory after
    it. *)
Fixpoint process_rx (port_id : Z) (turns : list (Wake M)) (t : RxThread) : fueled (next * RxThread) :=
  match turns with
  | [] => Some (Ret (Running, t))
  | w :: turns =>
      '(nx, t) ← rx_turn port_id (stop w) t;
      match nx with
      | Exited => Some (Ret (Exited, t))
      | _ => process_rx port_id turns (rx_set t (mem_then w) (rx_queue t) (rx_control t))
      end
  end.
End rx.
Arguments RxThread : clear implicits.

(** ** The log *)

(** A piece of the output and the text it is logged as. *)
Definition render (l : LogLine) : list byte := match l with Line bs => bs ++ [10] | MissingNewline bs => bs end.

Definition shown (l : LogLine) : LogLine :=
  match l with
  | Line bs => Line (Utf8.from_utf8_lossy bs)
  | MissingNewline bs => MissingNewline (Utf8.from_utf8_lossy bs)
  end.

Definition log_bytes (l : PortOutputLog) : list byte := drained l ++ buf l.

Definition no_newline (bs : list byte) : Prop := Forall (fun b => b <> 10) bs.

Definition piece_ok (p : LogLine) : Prop :=
  match p with Line bs => no_newline bs | MissingNewline bs => no_newline bs /\ (FORCE_FLUSH_TRESHOLD < length bs)%nat end.

(** What the loop has taken and where the next line starts. *)
Lemma log_lines_spec b start i l out :
  drop i b = l -> (start <= i)%nat -> no_newline (slice b start (i - start)) ->
  let '(s, ls) := log_lines b start i l out in
  exists pieces, ls = out ++ map shown pieces /\ take s b = take start b ++ concat (map render pieces) /\ no_newline (drop s b) /\
    Forall piece_ok pieces.
Proof.
  revert start i out. induction l as [|ch l IH]; intros start i out Hl Hi Hn; cbn [log_lines].
  - exists []. split_and!; [by rewrite app_nil_r..| |constructor]. unfold slice in Hn. rewrite take_ge in Hn; [done|].
    rewrite length_drop. apply (f_equal length) in Hl. rewrite length_drop in Hl. cbn in Hl. lia.
  - assert (b !! i = Some ch) as Hb by (rewrite <- (Nat.add_0_r i), <- lookup_drop, Hl; done).
    assert (drop (S i) b = l) as Hl' by (rewrite <- Nat.add_1_r, <- drop_drop, Hl; done).
    assert (slice b start (S i - start) = slice b start (i - start) ++ [ch]) as Hs.
    { unfold slice. replace (S i - start)%nat with (S (i - start))%nat by lia. apply take_S_r. rewrite lookup_drop.
      by replace (start + (i - start))%nat with i by lia. }
    destruct (Z.eqb_spec ch 10) as [->|Hne].
    + specialize (IH (S i) (S i) (out ++ [Line (Utf8.from_utf8_lossy (slice b start (i - start)))]) Hl' ltac:(lia)).
      destruct (log_lines _ _ _ _ _) as [s ls]. destruct IH as (pieces & -> & Ht & Hd & Hp).
      { unfold slice. rewrite Nat.sub_diag. constructor. }
      exists (Line (slice b start (i - start)) :: pieces). split_and!; [by rewrite <- app_assoc| |done|by constructor].
      rewrite Ht. cbn [map concat render]. rewrite app_assoc. f_equal. rewrite <- Hs. unfold slice.
      rewrite take_take_drop. f_equal. lia.
    + apply (IH start (S i) out Hl'); [lia|]. rewrite Hs. apply Forall_app. split; [done|by constructor].
Qed.

(** One write: nothing is lost, and the buffer has neither a newline nor more
    than 512 bytes. *)
Lemma log_write_spec l bs :
  let l' := log_write l bs in
  log_bytes l' = log_bytes l ++ bs /\ no_newline (buf l') /\ (length (buf l') <= FORCE_FLUSH_TRESHOLD)%nat /\
  exists pieces, logged l' = logged l ++ map shown pieces /\ drained l' = drained l ++ concat (map render pieces) /\ Forall piece_ok pieces.
Proof.
  cbn. unfold log_write, log_bytes. pose proof (log_lines_spec (buf l ++ bs) 0 0 (buf l ++ bs) (logged l) (drop_0 _) ltac:(lia)) as Hs.
  destruct (log_lines _ _ _ _ _) as [s ls]. destruct Hs as (pieces & -> & Ht & Hn & Hp); [constructor|]. rewrite take_0, app_nil_l in Ht.
  assert ((drained l ++ take s (buf l ++ bs)) ++ drop s (buf l ++ bs) = (drained l ++ buf l) ++ bs) as Hall
    by by rewrite <- !app_assoc, take_drop.
  cbn [buf logged drained]. destruct (Nat.ltb_spec FORCE_FLUSH_TRESHOLD (length (drop s (buf l ++ bs)))) as [Hlt|Hlt]; cbn [force_flush buf logged drained].
  - split_and!; [by rewrite app_nil_r|constructor|cbn; lia|]. exists (pieces ++ [MissingNewline (drop s (buf l ++ bs))]).
    rewrite !map_app, concat_app, !app_assoc, Ht. cbn [map concat render]. rewrite app_nil_r. split_and!; [done..|].
    apply Forall_app. split; [done|]. by constructor.
  - split_and!; [done..|]. exists pieces. by rewrite Ht.
Qed.

(** C11. The log keeps every byte: the pieces that have been logged, followed by
    what is in the buffer, are what was written.  A piece is a line without its
    newline, or, only when a line has grown longer than 512 bytes, its beginning;
    it is logged as [String::from_utf8_lossy] reads it, which for well-formed
    text is the piece itself.  The buffer holds no newline and at most 512 bytes,
    so its size is bounded whatever the guest prints. *)
Theorem log_keeps_bytes (writes : list (list byte)) :
  let l := foldl log_write PortOutputLog_new writes in
  no_newline (buf l) /\ (length (buf l) <= FORCE_FLUSH_TRESHOLD)%nat /\
  exists pieces, concat (map render pieces) ++ buf l = concat writes /\ logged l = map shown pieces /\ Forall piece_ok pieces /\
    Forall (fun p => forall bs, (p = Line bs \/ p = MissingNewline bs) -> Utf8.utf8_valid bs = true -> shown p = p) pieces.
Proof.
  cbn zeta. set (l := foldl _ _ _).
  assert (log_bytes l = concat writes /\ no_newline (buf l) /\ (length (buf l) <= FORCE_FLUSH_TRESHOLD)%nat /\
    exists pieces, logged l = map shown pieces /\ drained l = concat (map render pieces) /\ Forall piece_ok pieces) as (Hb & Hn & Hl & pieces & E1 & E2 & Hp).
  { subst l. induction writes as [|bs writes IH] using rev_ind.
    { cbn. split_and!; [done|constructor|lia|by exists []]. }
    rewrite foldl_app, concat_app. cbn [foldl concat]. rewrite app_nil_r. destruct IH as (<- & _ & _ & pieces & E1 & E2 & Hp).
    destruct (log_write_spec (foldl log_write PortOutputLog_new writes) bs) as (Hb & Hn & Hlen & new & E3 & E4 & Hnew).
    split_and!; [done..|]. exists (pieces ++ new). rewrite E3, E4, E1, E2, !map_app, concat_app. split_and!; [done..|]. apply Forall_app. by split. }
  split_and!; [done..|]. exists pieces. rewrite <- Hb, <- E2. split_and!; [done..|]. apply Forall_forall. intros p _ bs [-> | ->] Hv; cbn;
    by rewrite Utf8.lossy_valid.
Qed.

(** A character that the forced flush cuts in two is logged as two
    replacements, although the text is well-formed. *)
Lemma log_cuts_character :
  let writes := [replicate 512 65 ++ [0xc3]; [0xa9; 10]] in
  Utf8.utf8_valid (concat writes) = true /\
  logged (foldl log_write PortOutputLog_new writes) = [MissingNewline (replicate 512 65 ++ Utf8.REPLACEMENT); Line Utf8.REPLACEMENT].
Proof. split; vm_compute; reflexivity. Qed.

#[export] Program Instance PortOutputLog_laws : PortOutputLaws PortOutputLog := {
  written := log_bytes;
  blocks l := 0%nat }.
Next Obligation.
  intros o bs n o' [= <- <-]. split_and!; [lia|lia| | |done].
  - destruct bs; [done|]. cbn. lia.
  - rewrite Nat2Z.id, firstn_all. apply (log_write_spec o bs).
Qed.
Next Obligation. done. Qed.
Next Obligation. done. Qed.

#[export] Program Instance PortInputSigInt_laws : PortInputLaws PortInputSigInt := {
  stream i := if sigint_evt i =? 0 then [] else [3] }.
Next Obligation.
  intros i n k bs i' Hn. cbn. case_bool; [done|]. intros [= <- <- <-]. destruct n; [lia|]. cbn.
  rewrite take_nil. split_and!; [done|cbn; lia| |done]. constructor; [|constructor]. unfold fits. lia.
Qed.
Next Obligation. intros i n i'. cbn. destruct (sigint_evt i =? 0) eqn:E; [|done]. intros [= <-]. by rewrite E. Qed.
Next Obligation. done. Qed.
Next Obligation. intros i n i'. cbn. by case_bool. Qed.

#[export] Program Instance PortInputEmpty_laws : PortInputLaws PortInputEmpty := { stream i := [] }.
Next Obligation. intros [] n k bs [] Hn [= <- <-]. split_and!; [done|cbn; lia|constructor|done]. Qed.
Next Obligation. done. Qed.
Next Obligation. done. Qed.
Next Obligation. done. Qed.

(** ** What is moved over the regions of a buffer *)

(** A buffer of guest memory with contents [bs], over one or more regions. *)
Record mapped {M} `{GuestMemory M} (m : M) (d : DescriptorChain) (bs : list byte) : Prop := {
  mp_read : gm_read m (addr d) (Z.to_nat (len d)) = Some bs;
  mp_range : forall k, 0 <= k < len d -> gm_in_range m (addr d + k) = true;
  mp_addr : 0 <= addr d;
  mp_end : addr d + len d <= 2 ^ 64;
  mp_len : 0 < len d < 2 ^ 32 }.

Section pieces.
Context {M : Type} `{GuestMemory M} `{!GuestMemoryLaws M} {St : Type}.

Lemma in_range_find m a : gm_in_range m a = true -> exists start size, gm_find_region m a = Some (start, size) /\ start <= a < start + size.
Proof. intros [[s l] E]%gm_in_range_region. exists s, l. split; [done|]. by eapply gm_find_region_spec. Qed.

Lemma mapped_total m l srcs :
  Forall2 (mapped m) l srcs -> Zlength (concat srcs) = total_len l /\ 0 <= total_len l /\ (l <> [] -> 0 < total_len l).
Proof.
  induction 1 as [|d src l srcs Hd Hm (IH & IH0 & _)]; [done|]. cbn. fold (total_len l). rewrite length_app.
  pose proof (gm_read_length _ _ _ _ (mp_read _ _ _ Hd)). pose proof (mp_len _ _ _ Hd). split_and!; lia.
Qed.

(** [try_access] over a mapped buffer, when every piece that is offered makes
    progress or ends the access: [P] relates what is done to the state, and [Q]
    to the state after a piece that ends it. *)
Lemma access_loop_pieces (f : St -> Z -> Z -> fueled (result unit Z * St)) (P Q : Z -> St -> Prop) m a count :
  0 <= a -> a + count <= 2 ^ 64 -> 0 < count < 2 ^ 32 -> (forall k, 0 <= k < count -> gm_in_range m (a + k) = true) ->
  (forall s total n, P total s -> 0 <= total -> 0 < n -> total + n <= count -> exists k s', f s (a + total) n = Some (Ret (Ok k, s')) /\
     0 <= k <= n /\ if k =? 0 then Q total s' else P (total + k) s') ->
  forall fuel total s, P total s -> 0 <= total < count -> (Z.to_nat (count - total) < fuel)%nat ->
  exists k s', access_loop (gm_find_region m) f fuel count a (a + total) total s = Some (Ret (Ok k, s')) /\
    0 <= k <= count /\ (k = count /\ P k s' \/ k < count /\ Q k s').
Proof.
  intros Ha Hend Hc Hr Hf fuel. induction fuel as [|fuel IH]; intros total s HP Ht Hfu; [lia|].
  cbn [access_loop]. destruct (in_range_find m (a + total)) as (start & size & -> & Hs); [apply Hr; lia|].
  rewrite (wrap_small 64) by (unfold fits; lia). set (n := Z.min _ _).
  destruct (Hf s total n HP) as (k & s1 & Ef & Hk & HP1); [lia..|]. rewrite Ef. cbn [mbind fueled_bind].
  destruct (Z.eqb_spec k 0) as [->|Hk0].
  - exists total, s1. split_and!; try done; [lia..|]. right. split; [lia|done].
  - destruct (Z.eqb_spec (total + k) count) as [<-|Hne].
    + exists (total + k), s1. split_and!; try done; [lia..|]. by left.
    + destruct (Z.eqb_spec (wrap 64 (a + total + k)) 0) as [H0|_].
      { rewrite (wrap_small 64) in H0 by (unfold fits; lia). lia. }
      rewrite (proj2 (Z.ltb_lt _ _)) by lia. rewrite <- Z.add_assoc. apply IH; [done|lia|lia].
Qed.
End pieces.

(** ** Output *)

Section tx_proofs.
Context {M : Type} `{GuestMemory M} `{!GuestMemoryLaws M} {Out : Type} `{PortOutput Out} `{!PortOutputLaws Out}.

(** The interrupt can be raised. *)
Definition wired (i : IRQSignaler) : Prop := Console.intc i = true -> Console.irq_line i <> None.

Lemma wired_signal i : wired i -> exists i', signal_used_queue i = Ret i' /\ wired i'.
Proof.
  unfold wired, signal_used_queue. destruct i as [st n [] [l|]]; cbn; intros Hw; try (by specialize (Hw eq_refl)); by eexists.
Qed.

Lemma write_piece_takes patience src (s : Out * IRQSignaler) :
  (blocks s.1 < patience)%nat -> wired s.2 -> src <> [] ->
  exists n s', write_piece patience src s = Some (Ret (Ok n, s')) /\ 0 < n <= Zlength src /\
    written s'.1 = written s.1 ++ take (Z.to_nat n) src /\ (blocks s'.1 <= blocks s.1)%nat /\ wired s'.2.
Proof.
  revert s. induction patience as [|patience IH]; intros s Hb Hw Hs; [lia|]. cbn [write_piece].
  destruct (write_volatile s.1 src) as [[n| |] o] eqn:E.
  - apply write_takes in E as (Hn & Hp & Hwr & Hbl). specialize (Hp Hs). exists n, (o, s.2). split_and!; try done; lia.
  - apply write_blocks in E as [Hwr Hbl]. destruct (wired_signal _ Hw) as (i & -> & Hi).
    destruct (IH (wait_until_writable o, i)) as (n & s' & -> & Hn & Hwr' & Hb' & Hw'); cbn in *; [lia|done|done|].
    exists n, s'. split_and!; try done; [lia..| |lia]. by rewrite Hwr', Hwr.
  - by apply write_never_fails in E.
Qed.

(** A descriptor is written whole. *)
Lemma write_desc_whole patience m d src (s : Out * IRQSignaler) :
  mapped m d src -> (blocks s.1 < patience)%nat -> wired s.2 ->
  exists s', write_desc_to_output patience m d s = Some (Ret (Ok (len d), s')) /\
    written s'.1 = written s.1 ++ src /\ (blocks s'.1 <= blocks s.1)%nat /\ wired s'.2.
Proof.
  intros [Hr Hin Ha He Hl] Hb Hw. unfold write_desc_to_output, try_access. pose proof (gm_read_length _ _ _ _ Hr) as Hlen.
  edestruct (access_loop_pieces
    (fun s a n => match gm_read m a (Z.to_nat n) with Some src => write_piece patience src s | None => Some Panic end)
    (fun k (s' : Out * IRQSignaler) => 0 <= k <= len d /\ written s'.1 = written s.1 ++ take (Z.to_nat k) src /\ (blocks s'.1 <= blocks s.1)%nat /\ wired s'.2)
    (fun _ _ => False) m (addr d) (len d) Ha He Hl Hin) with (fuel := S (Z.to_nat (len d))) (total := 0) (s := s)
    as (k & s' & E & Hk & [[-> (_ & Hwr & Hbl & Hwi)]|[_ []]]).
  - intros s1 total n (_ & Hwr1 & Hb1 & Hw1) Ht Hn Htn.
    pose proof (gm_read_sub _ _ _ _ (Z.to_nat total) (Z.to_nat n) Hr ltac:(lia)) as Hsub. rewrite Z2Nat.id in Hsub by lia. rewrite Hsub.
    assert (length (slice src (Z.to_nat total) (Z.to_nat n)) = Z.to_nat n) as Hsl by (rewrite length_slice; lia).
    destruct (write_piece_takes patience (slice src (Z.to_nat total) (Z.to_nat n)) s1) as (k & s2 & -> & Hk & Hwr2 & Hb2 & Hw2);
      [lia|done|intros Hnil; rewrite Hnil in Hsl; cbn in Hsl; lia|]. exists k, s2. rewrite (proj2 (Z.eqb_neq k 0)) by lia. split_and!; try done; try lia.
    rewrite Hwr2, Hwr1, <- app_assoc. f_equal. unfold slice. rewrite take_take, Nat.min_l by lia.
    replace (Z.to_nat (total + k)) with (Z.to_nat total + Z.to_nat k)%nat by lia. by rewrite take_take_drop.
  - split_and!; try lia; [by rewrite app_nil_r|done].
  - lia.
  - lia.
  - rewrite Z.add_0_r in E. exists s'. split_and!; try done. rewrite Hwr. f_equal. apply take_ge. lia.
Qed.

Lemma write_chain_whole patience m l srcs (s : Out * IRQSignaler) z :
  Forall2 (mapped m) l srcs -> (blocks s.1 < patience)%nat -> wired s.2 -> 0 <= z -> z + total_len l < 2 ^ 64 ->
  exists s', write_chain patience m l s z = Some (Ret (z + total_len l, s')) /\
    written s'.1 = written s.1 ++ concat srcs /\ wired s'.2.
Proof.
  intros Hm. revert s z. induction Hm as [|d src l srcs Hd Hm IH]; intros s z Hb Hw Hz Ht; cbn [write_chain total_len foldr concat].
  { exists s. by rewrite Z.add_0_r, app_nil_r. }
  fold (total_len l) in *. cbn in Ht. fold (total_len l) in Ht.
  destruct (mapped_total _ _ _ Hm) as (_ & Hl0 & _).
  pose proof (mp_len _ _ _ Hd) as Hdl. destruct (write_desc_whole patience m d src s Hd Hb Hw) as (s1 & -> & Hwr & Hbl & Hwi). cbn [mbind fueled_bind].
  rewrite (proj2 (Z.eqb_neq _ _)), Z.eqb_refl, (wrap_small 64) by (unfold fits; lia).
  destruct (IH s1 (z + len d)) as (s2 & -> & Hwr2 & Hw2); [lia|done|lia|lia|].
  exists s2. split_and!; [by rewrite Z.add_assoc|by rewrite Hwr2, Hwr, app_assoc|done].
Qed.

(** C9. Output leaves whole and in order: a published chain whose readable buffers
    are mapped is written to the sink byte for byte, however often the sink
    takes only a part or makes the thread wait; the chain is then returned once
    with its length, and nothing else in guest memory changes. *)
Theorem tx_chain_sent patience (t : TxThread M Out) hd c lg srcs :
  pending (tx_mem t) (tx_queue t) hd c -> used_log (tx_mem t) (tx_queue t) lg -> Zlength lg < size (tx_queue t) ->
  Forall2 (mapped (tx_mem t)) (readable (tx_mem t) c) srcs -> readable (tx_mem t) c <> [] ->
  total_len (readable (tx_mem t) c) < 2 ^ 32 ->
  (blocks (tx_output t) < patience)%nat -> wired (tx_irq t) ->
  exists t', tx_turn patience t = Some (Ret (Running, t')) /\
    written (tx_output t') = written (tx_output t) ++ concat srcs /\
    used_log (tx_mem t') (tx_queue t') (lg ++ [(hd, Zlength (concat srcs))]) /\
    next_avail (tx_queue t') = next_avail (tx_queue t) +[16] 1 /\ wired (tx_irq t') /\
    (forall a k, a + Z.of_nat k <= used_ring (tx_queue t) \/ used_ring (tx_queue t) + (6 + 8 * size (tx_queue t)) <= a ->
       gm_read (tx_mem t') a k = gm_read (tx_mem t) a k).
Proof.
  intros Hp Hlog Hlg Hm Hne Htot Hb Hw. unfold tx_turn. rewrite (pending_pop _ _ _ _ Hp).
  set (l := readable _ c) in *.
  destruct (write_chain_whole patience (tx_mem t) l srcs (tx_output t, tx_irq t) 0) as (s & -> & Hwr & Hwi); [done..|lia|lia|]. cbn [mbind fueled_bind].
  destruct (mapped_total _ _ _ Hm) as (-> & _ & Hpos). specialize (Hpos Hne).
  rewrite Z.add_0_l, (proj2 (Z.eqb_neq _ _)), (wrap_small 32) by (unfold fits; lia).
  destruct (pending_complete _ _ _ _ lg (tx_mem t) (total_len l) Hp Hlog Hlg) as (q2 & m2 & -> & Hlog2 & Hn & _ & Hfr); [unfold fits; lia|done|].
  eexists. split; [done|]. cbn. by split_and!.
Qed.

(** A stopped output thread leaves nothing behind: it returns only when no
    chain is published. *)
Theorem tx_exits_flushed fuel patience wakes (t t' : TxThread M Out) :
  process_tx fuel patience wakes t = Some (Ret (Exited, t')) -> pop (tx_mem t') (tx_queue t') = Ret (None, tx_queue t').
Proof.
  assert (forall t1 t2, tx_turn patience t1 = Some (Ret (Exited, t2)) -> False) as Hx.
  { intros t1 t2. unfold tx_turn. destruct (pop _ _) as [[[h|] q]|]; [| |done].
    - destruct (write_chain _ _ _ _ _) as [[[n s]|]|]; cbn [mbind fueled_bind]; [|done|done]. case_bool; [done|].
      by destruct (add_used _ _ _ _) as [[? ?] ?].
    - by destruct (signal_used_queue _). }
  revert wakes t. induction fuel as [|fuel IH]; intros wakes t; [done|]. cbn [process_tx].
  destruct (tx_turn patience t) as [[[nx t1]|]|] eqn:E; cbn [mbind fueled_bind]; [|done|done].
  destruct nx; [by apply IH| |by apply Hx in E]. destruct wakes as [|w wakes]; [done|].
  destruct (stop w); [|by apply IH]. intros [= <-]. revert E. unfold tx_turn.
  destruct (pop (tx_mem t) (tx_queue t)) as [[[h|] q]|] eqn:Ep; [| |done].
  - destruct (write_chain _ _ _ _ _) as [[[n s]|]|]; cbn [mbind fueled_bind]; [|done|done]. case_bool; [done|].
    by destruct (add_used _ _ _ _) as [[? ?] ?].
  - destruct (signal_used_queue _); [|done]. intros [= <-]. cbn. apply pop_result in Ep as Hq. by subst q.
Qed.

(** A chain without a readable buffer is put back and taken again for ever. *)
Lemma unreadable_output_spins patience (t : TxThread M Out) hd c :
  pending (tx_mem t) (tx_queue t) hd c -> readable (tx_mem t) c = [] ->
  forall fuel wakes, process_tx fuel patience wakes t = None.
Proof.
  intros Hp Hl fuel. assert (tx_turn patience t = Some (Ret (Running, t))) as E.
  { unfold tx_turn. rewrite (pending_pop _ _ _ _ Hp), Hl. cbn. rewrite undo_set_next_avail by (try done; apply Hp).
    by destruct t. }
  induction fuel as [|fuel IH]; intros wakes; [done|]. cbn [process_tx]. rewrite E. cbn. destruct wakes; apply IH.
Qed.
End tx_proofs.

(** ** Input *)

Section rx_proofs.
Context {M : Type} `{GuestMemory M} `{!GuestMemoryLaws M} {Inp : Type} `{PortInput Inp} `{!PortInputLaws Inp}.

(** What reading into a buffer of [room] bytes gets from the input: the bytes of
    one read after the other, each into some of the room that is left, until
    [Some true] a read finds the end of the input, or [Some false] one would
    block. *)
Inductive got (i : Inp) (room : Z) : list byte -> option bool -> Inp -> Prop :=
| got_nothing : got i room [] None i
| got_bytes bs i1 n bs2 i2 : got i room bs None i1 -> 0 < n <= room - Zlength bs -> bs2 <> [] ->
    read_volatile i1 (Z.to_nat n) = (Read (Zlength bs2) bs2, i2) -> got i room (bs ++ bs2) None i2
| got_end bs i1 n i2 : got i room bs None i1 -> 0 < n <= room - Zlength bs ->
    read_volatile i1 (Z.to_nat n) = (Read 0 [], i2) -> got i room bs (Some true) i2
| got_block bs i1 n i2 : got i room bs None i1 -> 0 < n <= room - Zlength bs ->
    read_volatile i1 (Z.to_nat n) = (ReadWouldBlock, i2) -> got i room bs (Some false) i2.

(** The state after [bs] was read to [a], from [t]. *)
Record reached (t : RxThread M Inp) (a room : Z) (bs : list byte) (ended : option bool) (t' : RxThread M Inp) : Prop := {
  rd_got : got (rx_input t) room bs ended (rx_input t');
  rd_eof : eof t' = eof t || default false ended;
  rd_stream : stream (rx_input t) = bs ++ stream (rx_input t');
  rd_bytes : bytes_ok bs;
  rd_read : gm_read (rx_mem t') a (length bs) = Some bs;
  rd_frame : forall b k, b + Z.of_nat k <= a \/ a + Zlength bs <= b -> gm_read (rx_mem t') b k = gm_read (rx_mem t) b k;
  rd_domain : forall b k, is_Some (gm_read (rx_mem t') b k) <-> is_Some (gm_read (rx_mem t) b k);
  rd_rest : rx_queue t' = rx_queue t /\ rx_irq t' = rx_irq t /\ rx_control t' = rx_control t;
  rd_none : bs = [] -> rx_mem t' = rx_mem t }.

(** One piece. *)
Lemma read_piece_reached t a room n bs t' :
  reached t a room bs None t' -> 0 < n -> Zlength bs + n <= room -> is_Some (gm_read (rx_mem t) a (length bs + Z.to_nat n)) ->
  exists k t2 bs2 ended, read_piece t' (a + Zlength bs) n = Some (Ret (Ok k, t2)) /\ 0 <= k <= n /\ k = Zlength bs2 /\
    reached t a room (bs ++ bs2) ended t2 /\ (ended = None <-> k <> 0).
Proof.
  intros [Hg Heof Hst Hb Hr Hf Hd (Hq & Hi & Hc) Hno] Hn Hroom Hm. rewrite orb_false_r in Heof. unfold read_piece.
  destruct (read_volatile (rx_input t') (Z.to_nat n)) as [[k bs2| |] i] eqn:E.
  - pose proof E as E'. apply read_stream in E' as (Hs & Hl & Hb2 & ->); [|lia]. destruct bs2 as [|b bs2].
    + exists 0, (rx_read t' (rx_mem t') i true), [], (Some true). rewrite app_nil_r. cbn in *. split_and!; try done; try lia.
      split; cbn; try done; [by eapply got_end; [| |exact E]; [|lia]|by rewrite orb_true_r|by rewrite Hst, Hs].
    + set (bs3 := b :: bs2) in *. assert (0 < Zlength bs3) as Hp by (cbn; lia).
      assert (is_Some (gm_read (rx_mem t) (a + Zlength bs) (length bs3))) as Ho.
      { destruct Hm as [old Hm]. rewrite (gm_read_sub _ _ _ _ _ _ Hm) by lia. by eexists. }
      apply Hd in Ho as [old Ho]. destruct (gm_write_total (rx_mem t') (a + Zlength bs) bs3 old Ho Hb2) as [m Hw]. rewrite Hw.
      exists (Zlength bs3), (rx_read t' m i (eof t')), bs3, None. rewrite (proj2 (Z.eqb_neq _ _)) by lia. split_and!; try done; try lia.
      split; cbn [rx_mem rx_input rx_queue rx_irq rx_control rx_read eof default]; try done.
      * eapply got_bytes; [exact Hg| |done|exact E]. lia.
      * by rewrite orb_false_r.
      * by rewrite Hst, Hs, app_assoc.
      * by apply Forall_app.
      * apply (gm_write_append (rx_mem t')); try done. apply Hd. destruct Hm as [old' Hm].
        pose proof (gm_read_sub _ _ _ _ 0 (length bs + length bs3) Hm ltac:(lia)) as Hs'. rewrite Z.add_0_r in Hs'. by eexists.
      * intros b' k Hk. rewrite length_app in Hk. rewrite (gm_write_frame _ _ _ _ _ _ Hw) by lia. apply Hf. lia.
      * intros b' k. rewrite (gm_write_domain _ _ _ _ b' k Hw). apply Hd.
      * by intros [_ ?]%app_nil.
  - pose proof E as E'. apply read_blocks in E'. exists 0, (rx_read t' (rx_mem t') i (eof t')), [], (Some false). rewrite app_nil_r.
    split_and!; try done; try lia. split; cbn; try done; [by eapply got_block; [| |exact E]; [|lia]|by rewrite orb_false_r|by rewrite E'].
  - by apply read_never_fails in E.
Qed.

(** A buffer: what is read into it is the next part of the stream. *)
Lemma read_desc_reached t d old :
  mapped (rx_mem t) d old ->
  exists t' bs ended, read_to_desc d t = Some (Ret (Ok (Zlength bs), t')) /\ Zlength bs <= len d /\ reached t (addr d) (len d) bs ended t' /\
    (ended = None -> Zlength bs = len d).
Proof.
  intros [Hr Hin Ha He Hl]. unfold read_to_desc, try_access.
  edestruct (access_loop_pieces read_piece (fun k t' => exists bs, k = Zlength bs /\ reached t (addr d) (len d) bs None t')
    (fun k t' => exists bs b, k = Zlength bs /\ reached t (addr d) (len d) bs (Some b) t') (rx_mem t) (addr d) (len d) Ha He Hl Hin)
    with (fuel := S (Z.to_nat (len d))) (total := 0) (s := t) as (k & t' & E & Hk & Hend).
  - intros s total n (bs & -> & Hre) _ Hn Htn. destruct (read_piece_reached t (addr d) (len d) n bs s Hre Hn Htn) as (k & t2 & bs2 & ended & E & Hk & -> & Hre2 & He2).
    + pose proof (gm_read_sub _ _ _ _ 0 (length bs + Z.to_nat n) Hr ltac:(lia)) as Hs. rewrite Z.add_0_r in Hs. by eexists.
    + exists (Zlength bs2), t2. split_and!; try done; try lia. destruct (Z.eqb_spec (Zlength bs2) 0) as [E0|E0].
      * destruct ended as [b|]; [|by destruct (proj1 He2 eq_refl)]. destruct bs2; [|cbn in E0; lia]. exists bs, b. by rewrite app_nil_r in Hre2.
      * rewrite (proj2 He2 E0) in Hre2. exists (bs ++ bs2). split; [rewrite length_app; lia|done].
  - exists []. split; [done|]. split; try done; [constructor|by rewrite orb_false_r|constructor|].
    pose proof (gm_read_sub _ _ _ _ 0 0 Hr ltac:(lia)) as Hs. by rewrite Z.add_0_r in Hs.
  - lia.
  - lia.
  - rewrite Z.add_0_r in E. destruct Hend as [[-> (bs & Hbs & Hre)]|[Hlt (bs & b & -> & Hre)]].
    + exists t', bs, None. rewrite <- Hbs. split_and!; try done; lia.
    + exists t', bs, (Some b). split_and!; try done; lia.
Qed.

(** C12. Input reaches the driver: a turn with a published buffer reads from the
    input until the buffer is full, the input has ended or a read would block,
    and stores what it got, which is the next part of the input's stream, at the
    start of the buffer, unchanged; when there was any, the chain is returned
    once with its length, and when there was none (and no end) the chain stays
    published and the thread waits for the input.  Nothing else in guest memory
    changes.  The thread ends when a read has found the end of the input, of
    which the driver is told, or when it was stopped. *)
Theorem rx_input_delivered port_id stop (t : RxThread M Inp) hd c lg old :
  pending (rx_mem t) (rx_queue t) hd c -> used_log (rx_mem t) (rx_queue t) lg -> Zlength lg < size (rx_queue t) ->
  is_read_only c = false -> has_next c = false -> mapped (rx_mem t) c old -> wired (rx_irq t) ->
  addr c + len c <= used_ring (rx_queue t) \/ used_ring (rx_queue t) + (6 + 8 * size (rx_queue t)) <= addr c ->
  exists nx t' bs ended i, rx_turn port_id stop t = Some (Ret (nx, t')) /\
    got (rx_input t) (len c) bs ended i /\ (ended = None -> Zlength bs = len c) /\ eof t' = eof t || default false ended /\
    rx_input t' = (if decide (bs = []) then if eof t' then i else wait_until_readable i else i) /\
    stream (rx_input t) = bs ++ stream (rx_input t') /\ Zlength bs <= len c /\
    gm_read (rx_mem t') (addr c) (length bs) = Some bs /\
    (if decide (bs = []) then rx_mem t' = rx_mem t /\ (eof t' = false -> rx_queue t' = rx_queue t)
     else used_log (rx_mem t') (rx_queue t') (lg ++ [(hd, Zlength bs)]) /\ next_avail (rx_queue t') = next_avail (rx_queue t) +[16] 1) /\
    nx = (if eof t' || stop then Exited else Running) /\
    rx_control t' = (if eof t' then port_open (rx_control t) port_id false else rx_control t) /\
    (forall a k, a + Z.of_nat k <= addr c \/ addr c + Zlength bs <= a ->
       a + Z.of_nat k <= used_ring (rx_queue t) \/ used_ring (rx_queue t) + (6 + 8 * size (rx_queue t)) <= a ->
       gm_read (rx_mem t') a k = gm_read (rx_mem t) a k).
Proof.
  intros Hp Hlog Hlg Hro Hnx Hm Hw Hap. unfold rx_turn. rewrite (pending_pop _ _ _ _ Hp).
  set (q1 := set_next_avail _ _). set (t1 := rx_set t (rx_mem t) q1 (rx_control t)).
  destruct (read_desc_reached t1 c old Hm) as (t2 & bs & ended & E & Hle & Hre & Hfull).
  assert (read_chain (Z.to_nat (Z.max 1 (ttl c))) true t1 (Some c) 0 = Some (Ret (Zlength bs, t2))) as ->.
  { destruct (Z.to_nat (Z.max 1 (ttl c))) as [|n] eqn:En; [lia|]. cbn [read_chain desc_iter_next]. rewrite Hro, andb_false_r.
    unfold next_descriptor. rewrite Hnx, E. cbn [mbind fueled_bind]. destruct (Z.eqb_spec (Zlength bs) 0) as [E0|E0]; [by rewrite E0|].
    pose proof (mp_len _ _ _ Hm). rewrite Z.add_0_l, (wrap_small 64) by (unfold fits; lia). by destruct n. }
  cbn [mbind fueled_bind]. destruct Hre as [Hg Heof Hst Hb Hr Hf _ (Hq & Hi & Hc) Hno]. cbn [rx_input rx_queue rx_irq rx_control rx_set t1 rx_mem eof] in *.
  pose proof (mp_len _ _ _ Hm) as Hml.
  assert (forall tx : RxThread M Inp, rx_irq tx = rx_irq t -> exists i, rx_signal tx = Ret (mkRxThread (rx_mem tx) (rx_queue tx) i (rx_input tx) (rx_control tx) (eof tx))) as Hsig.
  { intros tx Htx. unfold rx_signal. rewrite Htx. destruct (wired_signal _ Hw) as (i & -> & _). by exists i. }
  destruct bs as [|b bs'].
  - replace (Zlength (@nil Z) =? 0) with true by done. specialize (Hno eq_refl). rewrite Hno in Hr, Hf. destruct (eof t2) eqn:Eo.
    + destruct (Hsig t2 Hi) as [i ->]. do 2 eexists. exists [], ended, (rx_input t2). split; [done|]. cbn [rx_set rx_input rx_mem rx_queue rx_control eof].
      rewrite !decide_True by done. rewrite Eo, Hc, Hno. split_and!; done || lia.
    + destruct (Hsig (rx_set t2 (rx_mem t2) (undo_pop (rx_queue t2)) (rx_control t2)) Hi) as [i ->].
      do 2 eexists. exists [], ended, (rx_input t2). split; [done|]. cbn [rx_set rx_read rx_input rx_mem rx_queue rx_control eof].
      rewrite !decide_True by done. rewrite wait_stream, Eo, Hc, Hq, Hno.
      split_and!; try done. intros _. apply undo_set_next_avail; [apply Hp|done].
  - set (bs := b :: bs') in *. assert (0 < Zlength bs) as Hpos by (cbn; lia). rewrite (proj2 (Z.eqb_neq _ _)) by lia.
    destruct (pending_complete _ _ _ _ lg (rx_mem t2) (Zlength bs) Hp Hlog Hlg) as (q2 & m2 & Hadd & Hlog2 & Hn & _ & Hfr).
    { unfold fits. lia. }
    { intros a k Hak. apply Hf. lia. }
    rewrite (wrap_small 32), Hq by (unfold fits; lia). fold q1 in Hadd. rewrite Hadd. cbn [eof rx_set]. destruct (eof t2) eqn:Eo.
    + destruct (Hsig (rx_set t2 m2 q2 (rx_control t2)) Hi) as [i ->]. do 2 eexists. exists bs, ended, (rx_input t2). split; [done|].
      cbn [rx_set rx_input rx_mem rx_queue rx_control eof].
      rewrite !decide_False by done. rewrite Eo, Hc, Hfr by lia. split_and!; try done.
      intros a k Ha1 Ha2. rewrite Hfr by done. by apply Hf.
    + do 2 eexists. exists bs, ended, (rx_input t2). split; [done|]. cbn [rx_set rx_read rx_input rx_mem rx_queue rx_control eof].
      rewrite !decide_False by done. rewrite Hc, Hfr by lia. split_and!; try done.
      intros a k Ha1 Ha2. rewrite Hfr by done. by apply Hf.
Qed.

(** A thread that waits for buffers cannot be stopped: while the driver
    publishes none, no request to stop ends it. *)
Lemma parked_input_never_stops port_id turns (t : RxThread M Inp) :
  wired (rx_irq t) -> pop (rx_mem t) (rx_queue t) = Ret (None, rx_queue t) ->
  Forall (fun w => pop (mem_then w) (rx_queue t) = Ret (None, rx_queue t)) turns ->
  exists t', process_rx port_id turns t = Some (Ret (Running, t')).
Proof.
  intros Hw Hp Ht. revert t Hw Hp Ht. induction turns as [|w turns IH]; intros t Hw Hp Ht; [by eexists|].
  apply Forall_cons in Ht as [Hw1 Ht]. cbn [process_rx]. unfold rx_turn. rewrite Hp. unfold rx_signal.
  destruct (wired_signal _ Hw) as (i & -> & Hi). cbn. apply IH; cbn; done.
Qed.

(** An empty buffer is taken for the end of the input, when reading nothing
    gives nothing: the port is closed. *)
Lemma empty_buffer_closes_port port_id stop (t : RxThread M Inp) hd c start size i :
  pending (rx_mem t) (rx_queue t) hd c -> is_read_only c = false -> len c = 0 -> wired (rx_irq t) ->
  gm_find_region (rx_mem t) (addr c) = Some (start, size) -> read_volatile (rx_input t) 0 = (Read 0 [], i) ->
  exists t', rx_turn port_id stop t = Some (Ret (Exited, t')) /\ rx_control t' = port_open (rx_control t) port_id false.
Proof.
  intros Hp Hro Hl Hw Hreg Hread. apply gm_find_region_spec in Hreg as Hs. unfold rx_turn. rewrite (pending_pop _ _ _ _ Hp).
  set (q1 := set_next_avail _ _). set (t1 := rx_set t (rx_mem t) q1 (rx_control t)).
  assert (read_to_desc c t1 = Some (Ret (Ok 0, rx_read t1 (rx_mem t) i true))) as E.
  { unfold read_to_desc, try_access. rewrite Hl. cbn [Z.to_nat access_loop]. change (rx_mem t1) with (rx_mem t). rewrite Hreg.
    replace (Z.min (start + size - addr c) (0 -[64] 0)) with 0 by (rewrite (wrap_small 64) by (unfold fits; lia); lia).
    unfold read_piece. change (Z.to_nat 0) with 0%nat. change (rx_input t1) with (rx_input t). by rewrite Hread. }
  destruct (Z.to_nat (Z.max 1 (ttl c))) as [|n] eqn:En; [lia|]. cbn [read_chain desc_iter_next]. rewrite Hro, andb_false_r, E.
  cbn - [signal_used_queue]. unfold rx_signal. cbn - [signal_used_queue]. destruct (wired_signal _ Hw) as (j & -> & _). cbn. eexists. split; done.
Qed.
End rx_proofs.

(** ** Witnesses *)

(** Descriptor 0 at 0 with a buffer of 3 bytes at 192, the available ring at 64
    with entry 0 published, the used ring at 128. *)
Definition port_mem (flags : Z) : FlatMem := mkFlat 0
  (le_bytes 8 192 ++ le_bytes 4 3 ++ le_bytes 2 flags ++ le_bytes 2 0 ++ replicate 48 0 ++
   le_bytes 2 0 ++ le_bytes 2 1 ++ replicate 60 0 ++ replicate 64 0 ++ [104; 105; 10] ++ replicate 61 0).

Definition port_queue : Queue := {|
  max_size := 4; size := 4; ready := true; q_desc_table := 0; avail_ring := 64; used_ring := 128;
  next_avail := 0; next_used := 0; event_idx_enabled := false; num_added := 0 |}.

Definition port_head (flags : Z) : DescriptorChain := {|
  desc_table := 0; queue_size := 4; ttl := 4; index := 0; addr := 192; len := 3; flags := flags; VirtQueue.next := 0 |}.

Lemma port_pending flags : flags = 0 \/ flags = 2 -> pending (port_mem flags) port_queue 0 (port_head flags).
Proof.
  intros Hf. assert (avail_ok (port_mem flags) port_queue) as Ha.
  { destruct Hf as [-> | ->]; split; try (simpl; lia); try done; try (split; vm_compute; congruence); vm_compute; by eexists. }
  assert (used_ok (port_mem flags) port_queue) as Hu.
  { destruct Hf as [-> | ->]; split; try (simpl; lia); try done; try (split; vm_compute; congruence);
      try (split; [simpl; lia|by exists 16384]); vm_compute; by eexists. }
  destruct Hf as [-> | ->]; (split; [exact Ha|exact Hu| | | |done]); try (vm_compute; reflexivity); exists 1; vm_compute; split; congruence.
Qed.

Lemma port_mapped flags : flags = 0 \/ flags = 2 -> mapped (port_mem flags) (port_head flags) [104; 105; 10].
Proof.
  intros Hf. split; [by destruct Hf as [-> | ->]| |cbn; lia|cbn; lia|cbn; lia].
  intros k Hk. cbn in Hk. assert (k = 0 \/ k = 1 \/ k = 2) as Hk' by lia. by destruct Hf as [-> | ->], Hk' as [-> | [-> | ->]].
Qed.

Definition port_tx : TxThread FlatMem PortOutputLog := mkTxThread (port_mem 0) port_queue Console.IRQSignaler_new PortOutputLog_new.

Lemma tx_chain_sent_witness :
  exists t', tx_turn 1 port_tx = Some (Ret (Running, t')) /\ log_bytes (tx_output t') = [104; 105; 10].
Proof.
  destruct (tx_chain_sent 1 port_tx 0 (port_head 0) [] [[104; 105; 10]] (port_pending 0 (or_introl eq_refl))) as (t' & E & Hw & _).
  - intros k e Hk. discriminate Hk.
  - vm_compute. reflexivity.
  - constructor; [|constructor]. exact (port_mapped 0 (or_introl eq_refl)).
  - discriminate.
  - vm_compute. reflexivity.
  - apply Nat.lt_0_1.
  - intros Hi. discriminate Hi.
  - exists t'. split; [exact E|exact Hw].
Defined.

Lemma tx_exits_flushed_witness :
  exists t', process_tx 3 1 [mkWake true (port_mem 0)] port_tx = Some (Ret (Exited, t')) /\ pop (tx_mem t') (tx_queue t') = Ret (None, tx_queue t').
Proof.
  assert (exists t', process_tx 3 1 [mkWake true (port_mem 0)] port_tx = Some (Ret (Exited, t'))) as [t' E] by (vm_compute; eexists; reflexivity).
  exists t'. split; [exact E|]. exact (tx_exits_flushed 3 1 [mkWake true (port_mem 0)] port_tx t' E).
Defined.

Definition port_rx : RxThread FlatMem PortInputSigInt :=
  mkRxThread (port_mem 2) port_queue Console.IRQSignaler_new (mkSigInt 1) Console.ConsoleControl_new false.

(** The interrupt key arrives as one byte. *)
Lemma rx_input_delivered_witness :
  exists nx t' bs, rx_turn 0 false port_rx = Some (Ret (nx, t')) /\ [3] = bs ++ stream (rx_input t') /\
    gm_read (rx_mem t') 192 (length bs) = Some bs.
Proof.
  destruct (rx_input_delivered 0 false port_rx 0 (port_head 2) [] [104; 105; 10] (port_pending 2 (or_intror eq_refl)))
    as (nx & t' & bs & ended & i & E & _ & _ & _ & _ & Hs & _ & Hr & _).
  - intros k e Hk. discriminate Hk.
  - vm_compute. reflexivity.
  - reflexivity.
  - reflexivity.
  - exact (port_mapped 2 (or_intror eq_refl)).
  - intros Hi. discriminate Hi.
  - right. vm_compute. congruence.
  - exists nx, t', bs. split; [exact E|]. split; [exact Hs|exact Hr].
Defined.
End ConsolePort.
