(* ===== verification/Rng.v ===== *)
(** * The entropy device ([devices/src/virtio/rng/device.rs], [event_handler.rs])

    The device fills the buffers of every published chain with random bytes.
    The operating system's generator is a parameter: from its state and a
    length it gives the bytes and the next state.  The theorems: a chain of
    mapped buffers is filled and returned with the right length, the loop ends
    when every buffer is mapped, and never ends when one is not. *)

From S2P Require Import Prelude GuestMem VirtQueue.

Module Rng.
Import VirtQueue.

Definition REQ_INDEX : nat := 0.
Definition VIRTIO_MMIO_INT_VRING : Z := 1.
Definition VIRTIO_F_VERSION_1 : Z := 32.
Definition VIRTIO_ID_RNG : Z := 4.
Definition NUM_QUEUES : nat := 1.
Definition QUEUE_SIZES : list Z := replicate NUM_QUEUES 256.
Definition AVAIL_FEATURES : Z := 1 .<< VIRTIO_F_VERSION_1.

Section device.
Context {M R : Type} `{GuestMemory M}.

(** [OsRng.fill_bytes] *)
Context (fill_bytes : R -> nat -> list byte * R).

Record Rng := mkRng {
  queues : list Queue; acked_features : Z; interrupt_status : Z; device_state : option M;
  intc : bool; irq_line : option Z; os_rng : R;
}.

Definition rng_new (r : R) : Rng := mkRng (map Queue_new QUEUE_SIZES) 0 0 None false None r.

Definition avail_features : Z := AVAIL_FEATURES.

Definition set_acked_features (d : Rng) (f : Z) : Rng :=
  mkRng (queues d) f (interrupt_status d) (device_state d) (intc d) (irq_line d) (os_rng d).

Definition set_irq_line (d : Rng) (irq : Z) : Rng :=
  mkRng (queues d) (acked_features d) (interrupt_status d) (device_state d) (intc d) (Some irq) (os_rng d).

(** [activate_ok]: the activation event could be written. *)
Definition activate (d : Rng) (m : M) (activate_ok : bool) : result unit Rng :=
  if negb (length (queues d) =? NUM_QUEUES)%nat then Err tt
  else if negb activate_ok then Err tt
  else Ok (mkRng (queues d) (acked_features d) (interrupt_status d) (Some m) (intc d) (irq_line d) (os_rng d)).

Definition is_activated (d : Rng) : bool := match device_state d with Some _ => true | None => false end.

(** [Rng::reset] keeps everything and reports success. *)
Definition reset (d : Rng) : bool * Rng := (true, d).

(** [signal_used_queue]; [evt_ok]: the interrupt event could be written. *)
Definition signal_used_queue (d : Rng) (evt_ok : bool) : outcome (bool * Rng) :=
  let d := mkRng (queues d) (acked_features d) (interrupt_status d .| VIRTIO_MMIO_INT_VRING) (device_state d)
             (intc d) (irq_line d) (os_rng d) in
  if intc d then _ ← unwrap (irq_line d); Ret (true, d) else Ret (evt_ok, d).

(** What the loop works on. *)
Record Work := mkWork { mem : M; queue : Queue; src : R }.

(** The loop over the descriptors of a chain.  The iterator reads a descriptor
    when the one before it is handed out, from memory as it is then.  [fuel]
    bounds the calls of [next]. *)
Fixpoint fill_chain (fuel : nat) (w : Work) (it : option DescriptorChain) (written : Z) : Work * Z :=
  match fuel with
  | O => (w, written)
  | S fuel =>
      match desc_iter_next (mem w) it with
      | (None, _) => (w, written)
      | (Some desc, it) =>
          let '(rand_bytes, r) := fill_bytes (src w) (Z.to_nat (len desc)) in
          match gm_write (mem w) (addr desc) rand_bytes with
          | None => (mkWork (mem w) (go_to_previous_position (queue w)) r, written)
          | Some m => fill_chain fuel (mkWork m (queue w) r) it (written +[32] len desc)
          end
      end
  end.

(** One round of [process_req]. *)
Definition req_round (w : Work) : outcome (bool * Work) :=
  '(head, q) ← pop (mem w) (queue w);
  match head with
  | None => Ret (false, mkWork (mem w) q (src w))
  | Some head =>
      let '(w, written) :=
        fill_chain (Z.to_nat (Z.max 1 (ttl head))) (mkWork (mem w) q (src w)) (Some head) 0 in
      let '(_, q, m) := add_used (mem w) (queue w) (index head) written in
      Ret (true, mkWork m q (src w))
  end.

(** [process_req]: the loop, and whether it served anything. *)
Definition process_req (fuel : nat) (d : Rng) : option (outcome (bool * Rng)) :=
  match device_state d, queues d !! REQ_INDEX with
  | Some m, Some q =>
      let w := mkWork m q (os_rng d) in
      let have_used := match req_round w with Ret (b, _) => b | Panic => false end in
      match round_loop req_round fuel w with
      | None => None
      | Some Panic => Some Panic
      | Some (Ret w) =>
          Some (Ret (have_used,
            mkRng (<[REQ_INDEX := queue w]> (queues d)) (acked_features d) (interrupt_status d) (Some (mem w)) (intc d)
              (irq_line d) (src w)))
      end
  | _, _ => Some Panic
  end.

(** [handle_req_event]; [is_in]: the event set is [IN]; [read_ok]: the queue
    event could be read. *)
Definition handle_req_event (fuel : nat) (d : Rng) (is_in read_ok evt_ok : bool) : option (outcome Rng) :=
  if negb is_in then Some (Ret d)
  else if negb read_ok then Some (Ret d)
  else
    match process_req fuel d with
    | None => None
    | Some Panic => Some Panic
    | Some (Ret (false, d)) => Some (Ret d)
    | Some (Ret (true, d)) =>
        Some ('(ok, d) ← signal_used_queue d evt_ok; if ok : bool then Ret d else Panic)
    end.

(** ** Filling a chain *)

Context `{!GuestMemoryLaws M}.

(** The generator delivers what it is asked for. *)
Hypothesis fill_bytes_spec : forall r n bs r', fill_bytes r n = (bs, r') -> length bs = n /\ bytes_ok bs.

(** The bytes for a list of buffers, drawn one after the other. *)
Fixpoint draw (r : R) (l : list DescriptorChain) : list (list byte) * R :=
  match l with
  | [] => ([], r)
  | d :: l =>
      let '(bs, r) := fill_bytes r (Z.to_nat (len d)) in
      let '(bss, r) := draw r l in (bs :: bss, r)
  end.

Lemma fill_chain_spec fuel w c written l dt qs :
  l = desc_iter_collect fuel (mem w) (Some c) -> desc_table c = dt -> queue_size c = qs -> 0 <= next c ->
  Forall (buffer_ok (mem w) dt qs) l -> buffers_apart l ->
  exists m, fill_chain fuel w (Some c) written =
      (mkWork m (queue w) (draw (src w) l).2, match l with [] => written | _ => wrap 32 (written + total_len l) end) /\
    Forall2 (fun d bs => gm_read m (addr d) (Z.to_nat (len d)) = Some bs) l (draw (src w) l).1 /\
    (forall a k, Forall (fun d => a + Z.of_nat k <= addr d \/ addr d + len d <= a) l -> gm_read m a k = gm_read (mem w) a k) /\
    (forall a k, is_Some (gm_read m a k) <-> is_Some (gm_read (mem w) a k)).
Proof.
  intros -> Hdt Hqs. revert w c written Hdt Hqs. induction fuel as [|fuel IH]; intros w c written Hdt Hqs Hn Hok Hap.
  { exists (mem w). cbn. split_and!; [by destruct w|constructor|done|done]. }
  cbn [fill_chain desc_iter_collect desc_iter_next] in *. set (l := desc_iter_collect fuel (mem w) _) in *.
  apply Forall_cons in Hok as [Hc Hl]. destruct Hap as [Hapc Hapl]. cbn [draw total_len foldr].
  destruct (fill_bytes (src w) (Z.to_nat (len c))) as [bs r] eqn:Ef.
  destruct (fill_bytes_spec _ _ _ _ Ef) as [Hbl Hbok]. destruct Hc as [[old Hold] Hlen Htab].
  destruct (gm_write_total (mem w) (addr c) bs old) as [m1 Hm1]; [by rewrite Hbl|done|]. rewrite Hm1.
  pose proof (gm_write_read _ _ _ _ Hm1 Hbok) as Hrd. rewrite Hbl in Hrd.
  assert (Zlength bs = len c) as Hzl by (rewrite Hbl; lia).
  assert (Hdom := fun a k => gm_write_domain _ _ _ _ a k Hm1).
  destruct (desc_iter_frame fuel _ _ _ _ c dt qs Hm1 ltac:(by rewrite Hzl) Hdt Hqs Hn) as [Hnx Hfr].
  destruct (next_descriptor (mem w) c) as [c'|] eqn:En.
  2: { exists m1. subst l. assert (desc_iter_collect fuel (mem w) None = []) as -> by by destruct fuel.
       assert (forall z, fill_chain fuel (mkWork m1 (queue w) r) None z = (mkWork m1 (queue w) r, z)) as -> by by destruct fuel.
       cbn. rewrite Z.add_0_r. split_and!; [done|by repeat constructor| |done].
       intros a k [Hf _]%Forall_cons. apply (gm_write_frame _ _ _ _ _ _ Hm1). rewrite Hzl. lia. }
  apply next_descriptor_Some in En as Hnd. destruct Hnd as (_ & _ & _ & _ & _ & Hq' & Hd').
  apply next_descriptor_nonneg in En as [Hn' _].
  rewrite Hnx in Hfr. destruct (IH (mkWork m1 (queue w) r) c' (written +[32] len c)) as (m & Hfill & Hcont & Hframe & Hd);
    cbn [mem queue src]; rewrite ?Hfr; fold l; try congruence; try done.
  { eapply Forall_impl; [exact Hl|]. intros d [Hm ? ?]. split; try done. by apply Hdom. }
  cbn [mem queue src] in *. rewrite Hfr in *. fold l in Hfill, Hcont, Hframe.
  exists m. rewrite Hfill. destruct (draw r l) as [bss r'] eqn:Edr. cbn [fst snd]. split_and!.
  - f_equal. rewrite Z.add_assoc. fold (total_len l). destruct l; [cbn; by rewrite Z.add_0_r|]. by rewrite wrap_add_l.
  - constructor; [|done]. rewrite <- Hrd. apply Hframe. eapply Forall_impl; [exact Hapc|].
    intros d Hda. unfold buffer_apart in Hda. cbn. lia.
  - intros a k [Hc' Hl']%Forall_cons. rewrite Hframe by done. apply (gm_write_frame _ _ _ _ _ _ Hm1). rewrite Hzl. lia.
  - intros a k. by rewrite Hd.
Qed.

(** A request for entropy: when the driver's chain consists of mapped
    buffers apart from each other, from the descriptor table and from the used
    ring, every buffer is filled with the next bytes of the generator, the
    chain is returned once with the number of bytes (modulo 2^32), and the
    device moves on to the next entry. *)
Theorem rng_request_served w hd c lg :
  pending (mem w) (queue w) hd c ->
  Forall (buffer_ok (mem w) (q_desc_table (queue w)) (size (queue w))) (into_iter (mem w) c) ->
  buffers_apart (into_iter (mem w) c) ->
  Forall (fun d => addr d + len d <= used_ring (queue w) \/
            used_ring (queue w) + (6 + 8 * size (queue w)) <= addr d) (into_iter (mem w) c) ->
  used_log (mem w) (queue w) lg -> Zlength lg < size (queue w) ->
  exists w', req_round w = Ret (true, w') /\
    Forall2 (fun d bs => gm_read (mem w') (addr d) (Z.to_nat (len d)) = Some bs)
      (into_iter (mem w) c) (draw (src w) (into_iter (mem w) c)).1 /\
    used_log (mem w') (queue w') (lg ++ [(hd, wrap 32 (total_len (into_iter (mem w) c)))]) /\
    next_avail (queue w') = next_avail (queue w) +[16] 1.
Proof.
  intros Hp Hok Hap Hur Hlog Hl. unfold req_round. rewrite (pending_pop _ _ _ _ Hp). cbn [mbind outcome_bind].
  destruct Hp as [Ha Hu _ _ Hc Hh]. apply checked_new_Some in Hc as Hcs.
  destruct Hcs as (Hlt & Hi & Hq & Httl & Hdt & _). apply checked_new_fields in Hc as (_ & _ & [Hn _]).
  set (q1 := set_next_avail _ _). unfold into_iter in *. rewrite Httl in *.
  destruct (fill_chain_spec (Z.to_nat (Z.max 1 (size (queue w)))) (mkWork (mem w) q1 (src w)) c 0 _ _ _ eq_refl Hdt Hq Hn Hok Hap)
    as (m1 & Hfill & Hcont & Hframe & Hdom). cbn [mem queue src] in *. rewrite Hfill. clear Hfill.
  set (l := desc_iter_collect _ _ _) in *.
  assert (l <> []) as Hne. { pose proof (ao_size _ _ Ha). subst l. by destruct (Z.to_nat _) eqn:E; [lia|]. }
  set (len := match l with [] => 0 | _ => _ end).
  assert (len = wrap 32 (total_len l)) as -> by (subst len; by destruct l).
  destruct (used_ring_frame (mem w) m1 q1 lg) as [Hu1 Hlog1]; [destruct Hu; by split|done| |].
  { intros a k Hak. apply Hframe. eapply Forall_impl; [exact Hur|]. cbn in *. lia. }
  destruct (add_used_effect m1 q1 (index c) (wrap 32 (total_len l)) Hu1) as (m2 & m3 & H2 & H3 & Hadd);
    [cbn; lia|by apply wrap_fits|]. cbn [mem queue]. rewrite Hadd. eexists. split; [done|]. cbn [mem queue]. split_and!.
  - apply Forall2_same_length_lookup_2; [by apply Forall2_length in Hcont|].
    intros i d bs Hd Hb. rewrite (add_used_frame m1 q1 m2 m3 (index c) (wrap 32 (total_len l)) Hu1 H2 H3).
    + by eapply Forall2_lookup_lr in Hcont.
    + rewrite Forall_forall in Hur, Hok. apply list_elem_of_lookup_2 in Hd.
      pose proof (Hur _ Hd). pose proof (bo_len _ _ _ _ (Hok _ Hd)). cbn in *. lia.
  - rewrite <- Hi. eapply (add_used_log m1 q1); try done; [cbn; lia|apply (ao_small _ _) in Ha; cbn; lia|by apply wrap_fits].
  - done.
Qed.

Lemma unmapped_write_fails m a bs : gm_read m a (length bs) = None -> bytes_ok bs -> gm_write m a bs = None.
Proof.
  intros Hr Hb. destruct (gm_write m a bs) as [m'|] eqn:E; [|done].
  pose proof (gm_write_read _ _ _ _ E Hb) as Hw.
  destruct (proj1 (gm_write_domain _ _ _ _ a (length bs) E)) as [? ?]; [by eauto|congruence].
Qed.

(** One round on a chain whose first buffer is not mapped: the chain is
    returned empty and becomes the next one again. *)
Lemma unmapped_round w hd c :
  pending (mem w) (queue w) hd c -> gm_read (mem w) (addr c) (Z.to_nat (len c)) = None ->
  avail_ring (queue w) + (6 + 2 * size (queue w)) <= used_ring (queue w) ->
  q_desc_table (queue w) + 16 * size (queue w) <= used_ring (queue w) ->
  exists w', req_round w = Ret (true, w') /\ pending (mem w') (queue w') hd c /\
    gm_read (mem w') (addr c) (Z.to_nat (len c)) = None /\
    avail_ring (queue w') = avail_ring (queue w) /\ used_ring (queue w') = used_ring (queue w) /\
    q_desc_table (queue w') = q_desc_table (queue w) /\ size (queue w') = size (queue w).
Proof.
  intros Hp Hun Hav Htab. unfold req_round. rewrite (pending_pop _ _ _ _ Hp). cbn [mbind outcome_bind].
  destruct Hp as [Ha Hu Hix Hsl Hc Hh]. apply checked_new_Some in Hc as Hcs.
  destruct Hcs as (Hlt & Hi & Hq & Httl & Hdt & _). set (q1 := set_next_avail _ _).
  destruct (Z.to_nat (Z.max 1 (ttl c))) as [|n] eqn:En; [lia|]. cbn [fill_chain desc_iter_next mem src].
  destruct (fill_bytes (src w) (Z.to_nat (len c))) as [bs r] eqn:Ef.
  destruct (fill_bytes_spec _ _ _ _ Ef) as [Hbl Hbok].
  rewrite unmapped_write_fails by (try done; by rewrite Hbl). cbn [mem queue].
  assert (go_to_previous_position q1 = queue w) as ->.
  { change (undo_pop (set_next_avail (queue w) (next_avail (queue w) +[16] 1)) = queue w).
    apply undo_set_next_avail; [apply Ha|done]. }
  destruct (add_used_effect (mem w) (queue w) (index c) 0 Hu) as (m2 & m3 & H2 & H3 & Hadd); [lia|done|].
  rewrite Hadd. eexists. split; [done|]. cbn [mem queue].
  assert (forall a k, a + Z.of_nat k <= used_ring (queue w) -> gm_read m3 a k = gm_read (mem w) a k) as Hfr.
  { intros a k Hak. apply (add_used_frame (mem w) (queue w) m2 m3 (index c) 0 Hu H2 H3). by left. }
  pose proof (gm_store16_write _ _ _ _ H3) as H3w.
  destruct (avail_ring_frame (mem w) m3 (queue w) Ha) as (Ha' & Hi' & Hs'); [intros a k Hak; apply Hfr; lia|].
  split; [|split_and!; try done].
  - split; cbn [mem queue]; [by destruct Ha'|by eapply add_used_ok'| | | |done].
    + destruct Hix as (avail & Hai & Hne). exists avail. split; [|done]. rewrite <- Hai, <- Hi'. done.
    + rewrite <- Hsl, <- Hs'. done.
    + rewrite <- Hc. cbn. unfold checked_new. destruct (_ <=? hd); [done|].
      rewrite (gm_write_offset _ _ _ _ _ _ H3w), (gm_write_offset _ _ _ _ _ _ H2).
      destruct (gm_checked_offset (mem w) _ _) as [h|] eqn:Eh; [|done]. cbn [mbind option_bind].
      rewrite (gm_write_offset _ _ _ _ _ _ H3w), (gm_write_offset _ _ _ _ _ _ H2).
      apply gm_checked_offset_spec in Eh as (-> & _). by rewrite Hfr by lia.
  - destruct (gm_read m3 (addr c) (Z.to_nat (len c))) as [x|] eqn:Ex; [|done]. exfalso.
    assert (is_Some (gm_read (mem w) (addr c) (Z.to_nat (len c)))) as [? ?]; [|congruence].
    apply (gm_write_domain _ _ _ _ _ _ H2), (gm_write_domain _ _ _ _ _ _ H3w). by eauto.
Qed.

(** A buffer that is not mapped stops the device for good: the chain is put
    back and returned, over and over, so the request loop never ends. *)
Theorem unmapped_buffer_spins w hd c fuel :
  pending (mem w) (queue w) hd c -> gm_read (mem w) (addr c) (Z.to_nat (len c)) = None ->
  avail_ring (queue w) + (6 + 2 * size (queue w)) <= used_ring (queue w) ->
  q_desc_table (queue w) + 16 * size (queue w) <= used_ring (queue w) ->
  round_loop req_round fuel w = None.
Proof.
  revert w. induction fuel as [|fuel IH]; intros w Hp Hun Hav Htab; [done|]. cbn [round_loop].
  destruct (unmapped_round w hd c Hp Hun Hav Htab) as (w' & -> & Hp' & Hun' & E1 & E2 & E3 & E4).
  apply IH; [done|done| |]; rewrite ?E1, ?E2, ?E3, ?E4; done.
Qed.
End device.

(** ** Witnesses: one descriptor, its buffer mapped or not *)

(** Descriptor 0 at 0, the available ring at 64 with entry 0 published, the
    used ring at 128. *)
Definition demo_mem (buffer : Z) : FlatMem := mkFlat 0
  (le_bytes 8 buffer ++ le_bytes 4 4 ++ le_bytes 2 2 ++ le_bytes 2 0 ++ replicate 48 0 ++
   le_bytes 2 0 ++ le_bytes 2 1 ++ replicate 60 0 ++ replicate 128 0).

Definition demo_queue : Queue := {|
  max_size := 4; size := 4; ready := true; q_desc_table := 0; avail_ring := 64; used_ring := 128;
  next_avail := 0; next_used := 0; event_idx_enabled := false; num_added := 0 |}.

Definition demo_fill (r : Z) (n : nat) : list byte * Z := (replicate n 7, r + 1).

Lemma demo_fill_spec r n bs r' : demo_fill r n = (bs, r') -> length bs = n /\ bytes_ok bs.
Proof. intros [= <- <-]. rewrite length_replicate. split; [done|]. by apply Forall_replicate. Qed.

Definition demo_work (buffer : Z) : Work (M := FlatMem) (R := Z) := mkWork (demo_mem buffer) demo_queue 0.

Definition demo_chain (buffer : Z) : DescriptorChain := {|
  desc_table := 0; queue_size := 4; ttl := 4; index := 0; addr := buffer; len := 4; flags := 2; next := 0 |}.

Lemma demo_pending buffer : buffer = 240 \/ buffer = 4096 -> pending (demo_mem buffer) demo_queue 0 (demo_chain buffer).
Proof.
  intros Hb. assert (avail_ok (demo_mem buffer) demo_queue) as Ha.
  { destruct Hb as [-> | ->]; split; try (simpl; lia); try done; try (split; vm_compute; congruence);
      vm_compute; by eexists. }
  assert (used_ok (demo_mem buffer) demo_queue) as Hu.
  { destruct Hb as [-> | ->]; split; try (simpl; lia); try done; try (split; vm_compute; congruence);
      try (split; [simpl; lia|by exists 16384]); vm_compute; by eexists. }
  destruct Hb as [-> | ->]; (split; [exact Ha|exact Hu| | | |done]);
    try (vm_compute; reflexivity); exists 1; vm_compute; split; congruence.
Qed.

Lemma rng_request_served_witness :
  exists w', req_round demo_fill (demo_work 240) = Ret (true, w') /\ gm_read (mem w') 240 4 = Some [7; 7; 7; 7].
Proof.
  destruct (rng_request_served demo_fill demo_fill_spec (demo_work 240) 0 (demo_chain 240) [] (demo_pending 240 (or_introl eq_refl)))
    as (w' & Hr & Hc & _).
  - constructor; [|constructor]. split; vm_compute; [eauto|congruence|right; congruence].
  - split; [constructor|exact I].
  - constructor; [|constructor]. vm_compute. right. congruence.
  - intros k e Hk. discriminate Hk.
  - vm_compute. reflexivity.
  - exists w'. split; [exact Hr|]. apply (Forall2_cons_1 _ _ _ _ _ Hc).
Defined.

Lemma unmapped_buffer_spins_witness : round_loop (req_round demo_fill) 5 (demo_work 4096) = None.
Proof.
  apply (unmapped_buffer_spins demo_fill demo_fill_spec (demo_work 4096) 0 (demo_chain 4096) 5
    (demo_pending 4096 (or_intror eq_refl))).
  - vm_compute. reflexivity.
  - vm_compute. congruence.
  - vm_compute. congruence.
Defined.
End Rng.
