(* ===== verification/Balloon.v ===== *)
(** * The balloon device ([devices/src/virtio/balloon/device.rs],
      [event_handler.rs])

    Only free-page reporting does anything: the driver lists pages it does not
    use and the device tells the host to drop them ([madvise] with
    [MADV_DONTNEED]).  Where a guest address lies in the host's address space
    is the interface [HostMapping]; the calls to [madvise] are a log.  The other
    queues are only emptied of their events. *)

From S2P Require Import Prelude GuestMem VirtQueue.

(** [get_host_address] *)
Class HostMapping (M : Type) := gm_host : M -> Z -> option Z.

(** A region is mapped in one piece; addresses outside all regions have no
    host address; writing memory moves nothing. *)
Class HostMappingLaws (M : Type) `{GuestMemory M, !HostMapping M} : Prop := {
  gm_host_region m a s l : gm_find_region m a = Some (s, l) ->
    exists h, forall b, s <= b < s + l -> gm_host m b = Some (h + (b - s));
  gm_host_none m a : gm_find_region m a = None -> gm_host m a = None;
  gm_host_write m a bs m' : gm_write m a bs = Some m' -> gm_host m' = gm_host m;
}.

Module Balloon.
Import VirtQueue.

Definition IFQ_INDEX : nat := 0.
Definition DFQ_INDEX : nat := 1.
Definition STQ_INDEX : nat := 2.
Definition PHQ_INDEX : nat := 3.
Definition FRQ_INDEX : nat := 4.
Definition VIRTIO_MMIO_INT_VRING : Z := 1.
Definition VIRTIO_F_VERSION_1 : Z := 32.
Definition VIRTIO_ID_BALLOON : Z := 5.
Definition VIRTIO_BALLOON_F_STATS_VQ : Z := 1.
Definition VIRTIO_BALLOON_F_FREE_PAGE_HINT : Z := 3.
Definition VIRTIO_BALLOON_F_REPORTING : Z := 5.
Definition NUM_QUEUES : nat := 5.
Definition QUEUE_SIZES : list Z := replicate NUM_QUEUES 256.
Definition AVAIL_FEATURES : Z :=
  (1 .<< VIRTIO_F_VERSION_1) .| (1 .<< VIRTIO_BALLOON_F_STATS_VQ) .|
  (1 .<< VIRTIO_BALLOON_F_FREE_PAGE_HINT) .| (1 .<< VIRTIO_BALLOON_F_REPORTING).

Record VirtioBalloonConfig := mkConfig {
  num_pages : Z; actual : Z; free_page_report_cmd_id : Z; poison_val : Z;
}.

Definition config_bytes (c : VirtioBalloonConfig) : list byte :=
  le_bytes 4 (num_pages c) ++ le_bytes 4 (actual c) ++ le_bytes 4 (free_page_report_cmd_id c) ++
  le_bytes 4 (poison_val c).

Section device.
Context {M : Type} `{GuestMemory M, !HostMapping M}.

Record Balloon := mkBalloon {
  queues : list Queue; acked_features : Z; interrupt_status : Z; device_state : option M; config : VirtioBalloonConfig;
  intc : bool; irq_line : option Z; released : list (Z * Z);
}.

Definition balloon_new : Balloon :=
  mkBalloon (map Queue_new QUEUE_SIZES) 0 0 None (mkConfig 0 0 0 0) false None [].

Definition read_config (d : Balloon) (offset : Z) (data : list byte) : list byte :=
  config_read (config_bytes (config d)) offset data.

Definition activate (d : Balloon) (m : M) (activate_ok : bool) : result unit Balloon :=
  if negb (length (queues d) =? NUM_QUEUES)%nat then Err tt
  else if negb activate_ok then Err tt
  else Ok (mkBalloon (queues d) (acked_features d) (interrupt_status d) (Some m) (config d) (intc d) (irq_line d)
             (released d)).

Definition is_activated (d : Balloon) : bool := match device_state d with Some _ => true | None => false end.

Definition signal_used_queue (d : Balloon) (evt_ok : bool) : outcome (bool * Balloon) :=
  let d := mkBalloon (queues d) (acked_features d) (interrupt_status d .| VIRTIO_MMIO_INT_VRING) (device_state d)
             (config d) (intc d) (irq_line d) (released d) in
  if intc d then _ ← unwrap (irq_line d); Ret (true, d) else Ret (evt_ok, d).

(** What the loop works on; [log] are the ranges given to [madvise]. *)
Record Work := mkWork { mem : M; queue : Queue; log : list (Z * Z) }.

Fixpoint release (m : M) (l : list DescriptorChain) (log : list (Z * Z)) : outcome (list (Z * Z)) :=
  match l with
  | [] => Ret log
  | desc :: l =>
      host_addr ← unwrap (gm_host m (addr desc));
      release m l (log ++ [(host_addr, len desc)])
  end.

(** One round of [process_frq]. *)
Definition frq_round (w : Work) : outcome (bool * Work) :=
  '(head, q) ← pop (mem w) (queue w);
  match head with
  | None => Ret (false, mkWork (mem w) q (log w))
  | Some head =>
      log ← release (mem w) (into_iter (mem w) head) (log w);
      let '(_, q, m) := add_used (mem w) q (index head) 0 in
      Ret (true, mkWork m q log)
  end.

Definition process_frq (fuel : nat) (d : Balloon) : option (outcome (bool * Balloon)) :=
  match device_state d, queues d !! FRQ_INDEX with
  | Some m, Some q =>
      let w := mkWork m q (released d) in
      let have_used := match frq_round w with Ret (b, _) => b | Panic => false end in
      match round_loop frq_round fuel w with
      | None => None
      | Some Panic => Some Panic
      | Some (Ret w) =>
          Some (Ret (have_used,
            mkBalloon (<[FRQ_INDEX := queue w]> (queues d)) (acked_features d) (interrupt_status d) (Some (mem w))
              (config d) (intc d) (irq_line d) (log w)))
      end
  | _, _ => Some Panic
  end.

Definition handle_frq_event (fuel : nat) (d : Balloon) (is_in read_ok evt_ok : bool) : option (outcome Balloon) :=
  if negb is_in then Some (Ret d)
  else if negb read_ok then Some (Ret d)
  else
    match process_frq fuel d with
    | None => None
    | Some Panic => Some Panic
    | Some (Ret (false, d)) => Some (Ret d)
    | Some (Ret (true, d)) =>
        Some ('(ok, d) ← signal_used_queue d evt_ok; if ok : bool then Ret d else Panic)
    end.

(** ** Facts *)

Context `{!GuestMemoryLaws M, !HostMappingLaws M}.

Definition view (w : Work) : M * Queue := (mem w, queue w).

Lemma frq_round_pops : pops_one frq_round view.
Proof.
  intros w b w'. unfold frq_round, view. destruct (pop (mem w) (queue w)) as [[[c|] q]|] eqn:Ep;
    cbn [mbind outcome_bind]; [| |done].
  - destruct (release _ _ _) as [lg|]; cbn [mbind outcome_bind]; [|done].
    destruct (add_used _ _ _ _) as [[r q'] m] eqn:Ea. intros [= <- <-]. exists c, q. split; [done|].
    by apply add_used_next_avail in Ea.
  - apply pop_result in Ep as Hq. subst q. intros [= <- <-]. cbn. split; [by destruct w|done].
Qed.

(** Free-page reporting terminates within one round more than the driver
    has published reports, and stops only when no chain is left (or panics on a
    report the host mapping does not know). *)
Theorem frq_drains fuel w :
  index_kept frq_round view w -> outstanding (mem w) (queue w) < Z.of_nat fuel ->
  exists o, round_loop frq_round fuel w = Some o /\
    forall w', o = Ret w' -> pop (mem w') (queue w') = Ret (None, queue w').
Proof. apply (round_loop_drains _ _ fuel w frq_round_pops). Qed.

(** The host range of a guest range. *)
Definition host_range (m : M) (d : DescriptorChain) : Z * Z := (default 0 (gm_host m (addr d)), len d).

Lemma release_mapped m l lg :
  Forall (fun d => gm_in_range m (addr d) = true) l -> release m l lg = Ret (lg ++ map (host_range m) l).
Proof.
  revert lg. induction l as [|d l IH]; intros lg Hl; cbn [release map]; [by rewrite app_nil_r|].
  apply Forall_cons in Hl as [Hd Hl]. apply gm_in_range_region in Hd as [[s n] Hr].
  destruct (gm_host_region m (addr d) s n Hr) as [h Hh]. pose proof (gm_find_region_spec _ _ _ _ Hr) as Hb.
  unfold host_range at 1. rewrite (Hh _ Hb). cbn [unwrap mbind outcome_bind default].
  rewrite IH by done. by rewrite <- app_assoc.
Qed.

(** A report whose pages start inside guest memory is carried out: each
    range goes to the host at its own address and with its length, and when it
    ends inside the region it starts in it stays inside the region's host
    memory; the chain is returned once and no guest memory outside the used
    ring changes. *)
Theorem report_released w avail hd c lg :
  avail_ok (mem w) (queue w) -> used_ok (mem w) (queue w) -> avail_idx (mem w) (queue w) = Ok avail ->
  avail <> next_avail (queue w) -> avail_slot (mem w) (queue w) (next_avail (queue w)) = Some hd -> 0 <= hd ->
  checked_new (mem w) (q_desc_table (queue w)) (size (queue w)) hd = Some c ->
  Forall (fun d => gm_in_range (mem w) (addr d) = true) (into_iter (mem w) c) ->
  used_log (mem w) (queue w) lg -> Zlength lg < size (queue w) ->
  exists w', frq_round w = Ret (true, w') /\
    log w' = log w ++ map (host_range (mem w)) (into_iter (mem w) c) /\
    (forall d s n, d ∈ into_iter (mem w) c -> gm_find_region (mem w) (addr d) = Some (s, n) ->
       exists h, (forall b, s <= b < s + n -> gm_host (mem w) b = Some (h + (b - s))) /\
         host_range (mem w) d = (h + (addr d - s), len d)) /\
    used_log (mem w') (queue w') (lg ++ [(hd, 0)]) /\
    (forall a k, a + Z.of_nat k <= used_ring (queue w) \/ used_ring (queue w) + (6 + 8 * size (queue w)) <= a ->
       gm_read (mem w') a k = gm_read (mem w) a k).
Proof.
  intros Ha Hu Hi Hne Hs Hh Hc Hin Hlog Hl. unfold frq_round. rewrite (pop_exact _ _ avail hd Ha Hi Hs), Hc.
  apply Z.eqb_neq in Hne. rewrite Hne. cbn [mbind outcome_bind]. rewrite release_mapped by done.
  cbn [mbind outcome_bind]. apply checked_new_Some in Hc as (Hlt & Hix & _).
  set (q1 := set_next_avail _ _). assert (used_ok (mem w) q1) as Hu1 by (destruct Hu; by split).
  destruct (add_used_effect (mem w) q1 (index c) 0 Hu1) as (m2 & m3 & H2 & H3 & Hadd); [cbn; lia|done|].
  rewrite Hadd. eexists. split; [done|]. cbn [mem queue log]. split; [done|]. split_and!.
  - intros d s n Hd Hr. destruct (gm_host_region _ _ _ _ Hr) as [h Hm]. exists h. split; [done|].
    unfold host_range. rewrite (Hm (addr d)); [done|]. by apply gm_find_region_spec in Hr.
  - rewrite <- Hix. eapply (add_used_log (mem w) q1); try done; [cbn; lia|apply (ao_small _ _) in Ha; cbn; lia].
  - intros a k Hak. by apply (add_used_frame (mem w) q1 m2 m3 (index c) 0 Hu1 H2 H3).
Qed.

(** A report outside guest memory panics the device. *)
Lemma unmapped_report_panics m d l lg : gm_find_region m (addr d) = None -> release m (d :: l) lg = Panic.
Proof. intros Hr. cbn [release]. by rewrite (gm_host_none _ _ Hr). Qed.
End device.

(** ** A concrete mapping, and witnesses *)

Definition HOST_BASE : Z := 0x7f0000000000.

#[global] Instance flat_host : HostMapping FlatMem :=
  fun m a => if fm_in_range m a then Some (HOST_BASE + (a - fm_start m)) else None.

#[global] Instance flat_host_laws : HostMappingLaws FlatMem.
Proof.
  split.
  - intros m a s l Hr. cbn in Hr. unfold fm_find_region in Hr. destruct (fm_in_range m a) eqn:E; [|done].
    injection Hr as <- <-. exists HOST_BASE. intros b Hb. unfold gm_host, flat_host, fm_in_range in *.
    destruct (fm_wf m); [|done]. cbn [andb] in *.
    replace (fm_start m <=? b) with true by lia. by replace (b <? _) with true by lia.
  - intros m a Hr. cbn in Hr. unfold fm_find_region in Hr. unfold gm_host, flat_host. by destruct (fm_in_range m a).
  - intros m a bs m' Hw. unfold gm_host, flat_host.
    assert (fm_in_range m' = fm_in_range m) as -> by exact (proj1 (gm_write_range m m' a bs Hw)).
    apply fm_write_Some in Hw as (_ & _ & _ & _ & ->). done.
Qed.

(** Descriptor 0 reports [n] bytes at 240; memory ends at 256. *)
Definition demo_mem (n : Z) : FlatMem := mkFlat 0
  (le_bytes 8 240 ++ le_bytes 4 n ++ le_bytes 2 2 ++ le_bytes 2 0 ++ replicate 48 0 ++
   le_bytes 2 0 ++ le_bytes 2 1 ++ replicate 60 0 ++ replicate 128 0).

Definition demo_queue : Queue := {|
  max_size := 4; size := 4; ready := true; q_desc_table := 0; avail_ring := 64; used_ring := 128;
  next_avail := 0; next_used := 0; event_idx_enabled := false; num_added := 0 |}.

Definition demo_work (n : Z) : Work (M := FlatMem) := mkWork (demo_mem n) demo_queue [].

Lemma report_demo_avail_ok : avail_ok (demo_mem 16) demo_queue.
Proof. split; try (simpl; lia); try done; try (split; vm_compute; congruence); vm_compute; by eexists. Qed.

Lemma report_demo_used_ok : used_ok (demo_mem 16) demo_queue.
Proof.
  split; try (simpl; lia); try done; try (split; vm_compute; congruence);
    try (split; [simpl; lia|by exists 16384]); vm_compute; by eexists.
Qed.

(** The length of a report is not compared with the region: a report that
    starts in the last 16 bytes of a region may name a page, and host memory
    after the region is dropped. *)
Lemma report_past_region :
  exists w', frq_round (demo_work 4096) = Ret (true, w') /\ log w' = [(HOST_BASE + 240, 4096)] /\
    gm_find_region (demo_mem 4096) 240 = Some (0, 256).
Proof. eexists. split; [vm_compute; reflexivity|]. split; vm_compute; reflexivity. Qed.

Lemma report_released_witness :
  exists w', frq_round (demo_work 16) = Ret (true, w') /\ log w' = [(HOST_BASE + 240, 16)].
Proof.
  destruct (report_released (demo_work 16) 1 0
    {| desc_table := 0; queue_size := 4; ttl := 4; index := 0; addr := 240; len := 16; flags := 2; next := 0 |} []
    report_demo_avail_ok report_demo_used_ok) as (w' & Hr & Hl & _).
  - vm_compute. reflexivity.
  - vm_compute. congruence.
  - vm_compute. reflexivity.
  - lia.
  - vm_compute. reflexivity.
  - constructor; [vm_compute; reflexivity|constructor].
  - intros k e Hk. discriminate Hk.
  - vm_compute. reflexivity.
  - exists w'. split; [exact Hr|]. rewrite Hl. vm_compute. reflexivity.
Defined.

Definition demo_work' : Work (M := FlatMem) :=
  match frq_round (demo_work 16) with Ret (_, w) => w | Panic => demo_work 16 end.

Lemma report_demo_rounds :
  frq_round (demo_work 16) = Ret (true, demo_work') /\ exists w, frq_round demo_work' = Ret (false, w).
Proof. split; [vm_compute; reflexivity|]. eexists. vm_compute. reflexivity. Qed.

Lemma demo_index_kept : index_kept frq_round view (demo_work 16).
Proof.
  destruct report_demo_rounds as [H1 [b H2]]. intros w1 w2 Hr Hs.
  destruct (one_step (fun a b => frq_round a = Ret (true, b)) (demo_work 16) demo_work' w1 w2) as [-> ->]; [| |done..|].
  - intros z Hz. rewrite H1 in Hz. congruence.
  - intros z Hz. rewrite H2 in Hz. discriminate Hz.
  - vm_compute. reflexivity.
Qed.

Lemma frq_drains_witness : exists o, round_loop frq_round 2 (demo_work 16) = Some o.
Proof.
  destruct (frq_drains 2 (demo_work 16) demo_index_kept) as (o & Ho & _); [vm_compute; reflexivity|].
  exists o. exact Ho.
Defined.
End Balloon.
