(* ===== verification/Shm.v ===== *)
(** * Guest address space: RAM and shared-memory windows
      ([vmm/src/device_manager/shm.rs], [create_guest_memory] in
      [vmm/src/builder.rs])

    [ShmManager] hands out windows of guest address space above RAM to the
    file-system devices and the GPU; [create_guest_memory] puts the RAM regions
    of [Arch] and these windows into one memory.  The order in which a
    [HashMap] is iterated is not specified, so it is an argument. *)

From S2P Require Import Prelude Arch.

Module Shm.
Import Arch.

Inductive Error := DuplicatedGpuRegion | OutOfSpace.

Record ShmRegion := mkShm { guest_addr : Z; size : Z }.

Record ShmManager := mkManager {
  next_guest_addr : Z; page_size : Z; fs_regions : gmap Z ShmRegion; gpu_region : option ShmRegion;
}.

Definition new (info : ArchMemoryInfo) : ShmManager :=
  mkManager (shm_start_addr info) (Arch.page_size info) ∅ None.

Definition as_pair (r : ShmRegion) : Region := (guest_addr r, size r).

(** [order] is the iteration order of [fs_regions]. *)
Definition regions (order : list (Z * ShmRegion)) (m : ShmManager) : list Region :=
  map (fun region => as_pair region.2) order ++
  match gpu_region m with Some region => [as_pair region] | None => [] end.

Definition fs_region (m : ShmManager) (index : Z) : option ShmRegion := fs_regions m !! index.

Definition create_region (m : ShmManager) (sz : Z) : result Error (ShmManager * ShmRegion) :=
  let sz := round_up sz (page_size m) in
  let region := mkShm (next_guest_addr m) sz in
  match checked_add 64 (next_guest_addr m) sz with
  | Some addr => Ok (mkManager addr (page_size m) (fs_regions m) (gpu_region m), region)
  | None => Err OutOfSpace
  end.

Definition create_gpu_region (m : ShmManager) (sz : Z) : result Error ShmManager :=
  match gpu_region m with
  | Some _ => Err DuplicatedGpuRegion
  | None =>
      '(m, region) ← create_region m sz;
      Ok (mkManager (next_guest_addr m) (page_size m) (fs_regions m) (Some region))
  end.

Definition create_fs_region (m : ShmManager) (index sz : Z) : result Error ShmManager :=
  '(m, region) ← create_region m sz;
  Ok (mkManager (next_guest_addr m) (page_size m) (<[index := region]> (fs_regions m)) (gpu_region m)).

(** The part of [VmResources] that matters here: each file-system device's
    [shm_size], and the GPU's flags and size. *)
Record VmResources := mkResources {
  fs : list (option Z); gpu_virgl_flags : option Z; gpu_shm_size : option Z;
}.

Fixpoint create_fs_regions (m : ShmManager) (index : Z) (l : list (option Z)) : result Error ShmManager :=
  match l with
  | [] => Ok m
  | None :: l => create_fs_regions m (index + 1) l
  | Some shm_size :: l => m ← create_fs_region m index shm_size; create_fs_regions m (index + 1) l
  end.

Definition create_windows (m : ShmManager) (r : VmResources) : result Error ShmManager :=
  m ← create_fs_regions m 0 (fs r);
  match gpu_virgl_flags r with
  | Some _ => create_gpu_region m (default (1 .<< 33) (gpu_shm_size r))
  | None => Ok m
  end.

(** The ranges [create_guest_memory] maps, for a memory size in MiB; mapping
    them and loading the payload is up to [vm-memory]. *)
Definition guest_ranges (order : ShmManager -> list (Z * ShmRegion)) (page_size mem_size kload ksize : Z)
    (r : VmResources) : outcome (result Error (ArchMemoryInfo * ShmManager * list Region)) :=
  let mem_size := wrap 64 (mem_size .<< 20) in
  '(info, rs) ← arch_memory_regions page_size mem_size kload ksize;
  Ret ('(m) ← create_windows (new info) r; Ok (info, m, rs ++ regions (order m) m)).

(** ** The windows are disjoint *)

Definition apart (r s : Region) : Prop := r.1 + r.2 <= s.1 \/ s.1 + s.2 <= r.1.

(** Every two different places of a list are related. *)
Fixpoint pairwise (l : list Region) : Prop :=
  match l with
  | [] => True
  | x :: l => Forall (apart x) l /\ pairwise l
  end.

Lemma apart_sym r s : apart r s -> apart s r.
Proof. unfold apart. tauto. Qed.

#[global] Instance pairwise_perm : Proper (Permutation ==> iff) pairwise.
Proof.
  enough (forall l l', l ≡ₚ l' -> pairwise l -> pairwise l') as Himp by (split; by apply Himp).
  induction 1 as [|x l l' Hp IH|x y l|]; cbn [pairwise]; [done| | |by auto].
  - intros [Hx Hl]. split; [by rewrite <- Hp|by apply IH].
  - rewrite !Forall_cons. intros ([Hxy Hy] & Hx & Hl). by apply apart_sym in Hxy.
Qed.

Lemma pairwise_app l l' :
  pairwise (l ++ l') <-> pairwise l /\ pairwise l' /\ Forall (fun r => Forall (apart r) l') l.
Proof. induction l as [|x l IH]; cbn; [naive_solver|]. rewrite Forall_app, IH, Forall_cons. naive_solver. Qed.

(** The region lies in [[lo, hi)]. *)
Definition within (lo hi : Z) (r : Region) : Prop := lo <= r.1 /\ 0 <= r.2 /\ r.1 + r.2 <= hi.

(** The windows in iteration order of the model's map. *)
Definition windows (m : ShmManager) : list Region := regions (map_to_list (fs_regions m)) m.

Lemma regions_order order m : order ≡ₚ map_to_list (fs_regions m) -> regions order m ≡ₚ windows m.
Proof. intros Hp. unfold windows, regions. by rewrite Hp. Qed.

Record shm_ok (lo : Z) (m : ShmManager) : Prop := {
  so_next : lo <= next_guest_addr m < 2 ^ 64;
  so_within : Forall (within lo (next_guest_addr m)) (windows m);
  so_apart : pairwise (windows m);
}.

Lemma round_up_fits x a : fits 64 (round_up x a).
Proof. apply land_fits; [lia|by apply wrap_fits]. Qed.

Lemma create_region_spec lo m sz m' r :
  shm_ok lo m -> create_region m sz = Ok (m', r) ->
  guest_addr r = next_guest_addr m /\ size r = round_up sz (page_size m) /\ 0 <= size r /\
  m' = mkManager (next_guest_addr m + size r) (page_size m) (fs_regions m) (gpu_region m) /\
  next_guest_addr m + size r < 2 ^ 64.
Proof.
  intros Hm. unfold create_region, checked_add. pose proof (round_up_fits sz (page_size m)) as [Hr _].
  destruct (_ <? 2 ^ 64) eqn:E; [|done]. zify_bool. intros [= <- <-].
  cbn [guest_addr size]. by split_and!.
Qed.

(** A new window, next to those handed out before. *)
Lemma add_window lo m m' r :
  shm_ok lo m -> r = (next_guest_addr m, r.2) -> 0 <= r.2 -> windows m' ≡ₚ r :: windows m ->
  next_guest_addr m' = next_guest_addr m + r.2 -> next_guest_addr m' < 2 ^ 64 -> shm_ok lo m'.
Proof.
  intros [Hn Hw Ha] Hr Hs Hp Hn' Hb. rewrite Hr in Hp. split; [lia| |].
  - rewrite Hp. constructor; [unfold within; cbn; lia|]. eapply Forall_impl; [exact Hw|].
    unfold within. cbn. lia.
  - rewrite Hp. split; [|done]. eapply Forall_impl; [exact Hw|]. unfold within, apart. cbn. lia.
Qed.

Lemma create_gpu_ok lo m sz m' : shm_ok lo m -> create_gpu_region m sz = Ok m' -> shm_ok lo m'.
Proof.
  intros Hm. unfold create_gpu_region. destruct (gpu_region m) eqn:Eg; [done|].
  destruct (create_region m sz) as [[m1 r]|] eqn:E; [|done]. cbn [mbind result_bind]. intros [= <-].
  destruct (create_region_spec _ _ _ _ _ Hm E) as (Ha & _ & Hs & -> & Hb).
  apply (add_window lo m _ (as_pair r)); cbn; try done; [unfold as_pair; cbn; by rewrite Ha|].
  unfold windows, regions. cbn. rewrite Eg. rewrite app_nil_r. by rewrite Permutation_app_comm.
Qed.

(** ** Windows of the file-system devices *)

Definition indices_below (n : Z) (m : ShmManager) : Prop := forall k, is_Some (fs_regions m !! k) -> k < n.

Lemma create_fs_ok lo m index sz m' :
  shm_ok lo m -> indices_below index m -> create_fs_region m index sz = Ok m' ->
  shm_ok lo m' /\ indices_below (index + 1) m'.
Proof.
  intros Hm Hi. unfold create_fs_region. destruct (create_region m sz) as [[m1 r]|] eqn:E; [|done].
  cbn [mbind result_bind]. intros [= <-]. destruct (create_region_spec _ _ _ _ _ Hm E) as (Ha & _ & Hs & -> & Hb).
  cbn [fs_regions gpu_region next_guest_addr page_size]. split.
  - apply (add_window lo m _ (as_pair r)); cbn; try done; [unfold as_pair; cbn; by rewrite Ha|].
    unfold windows, regions. cbn. rewrite map_to_list_insert; [done|].
    destruct (fs_regions m !! index) eqn:El; [|done]. exfalso. specialize (Hi index ltac:(eauto)). lia.
  - intros k [x Hx]. cbn in Hx. apply lookup_insert_Some in Hx as [[<- _]|[_ Hx]]; [lia|].
    specialize (Hi k ltac:(eauto)). lia.
Qed.

Lemma create_fs_regions_ok lo l m index m' :
  shm_ok lo m -> indices_below index m -> create_fs_regions m index l = Ok m' -> shm_ok lo m'.
Proof.
  revert m index. induction l as [|[sz|] l IH]; intros m index Hm Hi; cbn [create_fs_regions]; [by intros [= <-]| |].
  - destruct (create_fs_region m index sz) as [m1|] eqn:E; [|done]. cbn [mbind result_bind].
    destruct (create_fs_ok _ _ _ _ _ Hm Hi E) as [H1 H2]. by apply IH.
  - apply IH; [done|]. intros k Hk. specialize (Hi k Hk). lia.
Qed.

Lemma create_windows_ok info r m :
  0 <= shm_start_addr info < 2 ^ 64 -> create_windows (new info) r = Ok m -> shm_ok (shm_start_addr info) m.
Proof.
  intros Hs. unfold create_windows.
  assert (shm_ok (shm_start_addr info) (new info)) as H0.
  { assert (windows (new info) = []) as Hw by done. split; rewrite ?Hw; [cbn; lia|constructor|done]. }
  destruct (create_fs_regions _ _ _) as [m1|] eqn:E; [|done]. cbn [mbind result_bind].
  apply create_fs_regions_ok with (lo := shm_start_addr info) in E; [|done|].
  - destruct (gpu_virgl_flags r); [by apply create_gpu_ok|by intros [= <-]].
  - intros k [x Hx]. unfold new in Hx. cbn in Hx. by rewrite lookup_empty in Hx.
Qed.

Lemma ascending_pairwise lo rs : ascending lo rs -> pairwise rs /\ Forall (fun r => lo <= r.1 /\ 0 <= r.2) rs.
Proof.
  revert lo. induction rs as [|[a n] rs IH]; intros lo; [done|]. cbn [ascending]. intros (Ha & Hn & Hr).
  destruct (IH _ Hr) as [Hp Hf]. split.
  - split; [|done]. eapply Forall_impl; [exact Hf|]. unfold apart. cbn. intros r Hr'. left. lia.
  - constructor; [cbn; lia|]. eapply Forall_impl; [exact Hf|]. cbn. lia.
Qed.

(** The guest address space: in whatever order the windows are listed, no
    two of the ranges that make up guest memory overlap, the RAM regions leave
    out the kernel image, and nothing lies in the device hole.  (Sizes as in
    the layout theorem: memory and kernel end below the hole, or memory is
    larger than what fits below it.) *)
Theorem address_space_disjoint order page_sz k mib kload ksize r info m ranges :
  0 <= k < 32 -> page_sz = 2 ^ k -> 0 <= mib < 2 ^ 42 -> 0 <= kload -> 0 <= ksize ->
  let sz := round_up (mib * 2 ^ 20) page_sz in
  kload + ksize <= MMIO_MEM_START -> kload + ksize <= sz ->
  kload + ksize + sz <= MMIO_MEM_START \/ MMIO_MEM_START < sz ->
  (forall m, order m ≡ₚ map_to_list (fs_regions m)) ->
  guest_ranges order page_sz mib kload ksize r = Ret (Ok (info, m, ranges)) ->
  pairwise ranges /\ Forall (avoids kload (kload + ksize)) ranges /\
  Forall (avoids MMIO_MEM_START FIRST_ADDR_PAST_32BITS) ranges.
Proof.
  intros Hk Hp Hm Hl Hz sz Hend Hfit Hcase Hord. unfold guest_ranges.
  rewrite (Z.shiftl_mul_pow2 mib) by lia. rewrite (wrap_small 64 (mib * 2 ^ 20)) by (unfold fits; lia).
  destruct (layout_ok page_sz k (mib * 2 ^ 20) kload ksize Hk Hp ltac:(lia) Hl Hz Hend Hfit)
    as (info' & rs & -> & Hasc & Hker & Hends & Hhole).
  destruct (Hhole Hcase) as (Hmmio & Hlast & Hshm). cbn [mbind outcome_bind]. clear Hhole.
  destruct (create_windows (new info') r) as [m'|] eqn:E; [|done]. cbn [mbind result_bind].
  intros [= <- <- <-]. apply create_windows_ok in E as [_ Hw Ha];
    [|change FIRST_ADDR_PAST_32BITS with (2 ^ 32) in Hshm; lia].
  rewrite <- (regions_order (order m') m' (Hord m')) in Hw, Ha.
  apply ascending_pairwise in Hasc as [Hrs Hpos].
  change MMIO_MEM_START with 0xd0000000 in *. change FIRST_ADDR_PAST_32BITS with (2 ^ 32) in *.
  unfold within, avoids, ends_by in *. rewrite pairwise_app, !Forall_app. split_and!; try done.
  - eapply Forall_impl; [exact Hends|]. intros x Hx. eapply Forall_impl; [exact Hw|].
    intros y Hy. cbn in Hx, Hy |- *. left. lia.
  - eapply Forall_impl; [exact Hw|]. cbn. lia.
  - eapply Forall_impl; [exact Hw|]. cbn. lia.
Qed.

(** The order matters to [vm-memory], which accepts ranges in ascending order
    only: with two windows one iteration order is ascending, the other is not. *)
Lemma window_order_matters :
  exists m a b, create_windows (new (mkInfo 0 FIRST_ADDR_PAST_32BITS 4096))
      (mkResources [Some 0x1000; Some 0x1000] None None) = Ok m /\
    [a; b] ≡ₚ map_to_list (fs_regions m) /\
    ascending 0 (regions [a; b] m) /\ ~ ascending 0 (regions [b; a] m).
Proof.
  eexists. exists (0, mkShm (2 ^ 32) 0x1000), (1, mkShm (2 ^ 32 + 0x1000) 0x1000). split; [reflexivity|].
  cbn [fs_regions]. split.
  - vm_compute. first [reflexivity|apply Permutation_swap].
  - cbn. lia.
Qed.

(** ** Witness: 4 GiB of RAM, one file-system window of 512 MiB, a GPU *)

Definition demo_order (m : ShmManager) : list (Z * ShmRegion) := map_to_list (fs_regions m).

Definition demo_resources : VmResources := mkResources [Some (2 ^ 29); None] (Some 0) None.

Lemma address_space_disjoint_witness :
  exists info m ranges,
    guest_ranges demo_order 4096 4096 0x1000000 0x2000000 demo_resources = Ret (Ok (info, m, ranges)) /\
    length ranges = 5%nat /\ pairwise ranges.
Proof.
  do 3 eexists. split; [vm_compute; reflexivity|]. split; [reflexivity|].
  eapply (address_space_disjoint demo_order 4096 12 4096 0x1000000 0x2000000 demo_resources).
  - vm_compute. split; congruence.
  - reflexivity.
  - vm_compute. split; congruence.
  - lia.
  - lia.
  - vm_compute. congruence.
  - vm_compute. congruence.
  - right. vm_compute. reflexivity.
  - intros m. unfold demo_order. reflexivity.
  - vm_compute. reflexivity.
Defined.
End Shm.
