(* ===== verification/MmioManager.v ===== *)
(** * Attaching devices ([vmm/src/device_manager/kvm/mmio.rs],
      [device_manager/legacy.rs], [attach_mmio_device] in [vmm/src/builder.rs])

    The manager gives each virtio device a page of the device hole and an
    interrupt line, registers the device's queue events and interrupt event
    with KVM, puts the device on the bus and names it on the kernel command
    line.  KVM is the interface [Kvm]: what a registration means to the guest is
    stated by [KvmLaws].  Devices are handles, as on the bus. *)

From S2P Require Import Prelude Format Bus Cmdline Arch.

(** [VmFd]: registration of events.  [signalled v a d] is the event a guest
    store of [d] at [a] signals, [irq_sources v irq] are the events that raise
    the line. *)
Class Kvm (V E : Type) := {
  register_ioevent : V -> E -> Z -> Z -> option V;
  register_irqfd : V -> E -> Z -> option V;
  signalled : V -> Z -> Z -> option E;
  irq_sources : V -> Z -> list E;
}.

Class KvmLaws (V E : Type) `{Kvm V E} : Prop := {
  register_ioevent_signalled v e a d v' : register_ioevent v e a d = Some v' ->
    forall a' d', signalled v' a' d' = if (a' =? a) && (d' =? d) then Some e else signalled v a' d';
  register_ioevent_irq v e a d v' : register_ioevent v e a d = Some v' -> irq_sources v' = irq_sources v;
  register_irqfd_sources v e irq v' : register_irqfd v e irq = Some v' ->
    forall irq', irq_sources v' irq' = if irq' =? irq then e :: irq_sources v irq else irq_sources v irq';
  register_irqfd_signalled v e irq v' : register_irqfd v e irq = Some v' -> signalled v' = signalled v;
}.

Module MmioManager.
Import Arch.

Inductive DeviceType := Virtio (type_id : Z).

#[global] Instance DeviceType_eq_dec : EqDecision DeviceType.
Proof. solve_decision. Defined.

#[global] Instance DeviceType_countable : Countable DeviceType :=
  inj_countable' (fun '(Virtio n) => n) Virtio (fun '(Virtio n) => eq_refl).

Inductive Error :=
| BusError (e : Bus.Error) | CmdlineError (e : Cmdline.Error) | EventFdError | IrqsExhausted
| RegisterIoEvent | RegisterIrqFd | DeviceNotFound | UpdateFailed.

Definition MMIO_LEN : Z := 0x1000.

Definition NOTIFY_REG_OFFSET : Z := 0x50.

Record MMIODeviceInfo := mkDevInfo { addr : Z; dev_irq : Z; dev_len : Z }.

Record MMIODeviceManager := mkMgr {
  bus : Bus.Bus; mmio_base : Z; irq : Z; last_irq : Z;
  id_to_dev_info : gmap (DeviceType * list Z) MMIODeviceInfo;
}.

Definition new (mmio_base : Z) (irq_interval : Z * Z) : MMIODeviceManager :=
  mkMgr Bus.new mmio_base irq_interval.1 irq_interval.2 ∅.

(** "virtio_mmio.device" *)
Definition device_key : list Z :=
  [118; 105; 114; 116; 105; 111; 95; 109; 109; 105; 111; 46; 100; 101; 118; 105; 99; 101].

(** [format!("{}K@0x{:08x}:{}", MMIO_LEN / 1024, mmio_base, irq)] *)
Definition device_arg (base irq : Z) : list Z :=
  decimal (MMIO_LEN / 1024) ++ [75; 64; 48; 120] ++ pad 8 (hex base) ++ [58] ++ decimal irq.

Definition get_device (self : MMIODeviceManager) (device_type : DeviceType) (device_id : list Z) : option nat :=
  match id_to_dev_info self !! (device_type, device_id) with
  | Some dev_info => snd <$> Bus.get_device (bus self) (addr dev_info)
  | None => None
  end.

Definition add_device_to_cmdline (cmdline : Cmdline.Cmdline) (base irq : Z)
    : outcome (result Error unit * Cmdline.Cmdline) :=
  '(r, c) ← Cmdline.insert cmdline device_key (device_arg base irq);
  Ret (map_err CmdlineError r, c).

Section kvm.
Context {V E : Type} `{Kvm V E}.

(** What the manager asks a device (behind its handle) for. *)
Context (queue_events : nat -> list E) (interrupt_evt : nat -> E) (device_type : nat -> Z).

(** The loop over the queue events; registrations made before a failure stay. *)
Fixpoint register_queue_events (v : V) (base i : Z) (evts : list E) : V * bool :=
  match evts with
  | [] => (v, true)
  | queue_evt :: evts =>
      match register_ioevent v queue_evt (base +[64] NOTIFY_REG_OFFSET) (wrap 32 i) with
      | Some v => register_queue_events v base (i + 1) evts
      | None => (v, false)
      end
  end.

Definition register_mmio_device (self : MMIODeviceManager) (v : V) (mmio_device : nat) (type_id : Z)
    (device_id : list Z) : V * MMIODeviceManager * result Error (Z * Z) :=
  if last_irq self <? irq self then (v, self, Err IrqsExhausted)
  else
    match register_queue_events v (mmio_base self) 0 (queue_events mmio_device) with
    | (v, false) => (v, self, Err RegisterIoEvent)
    | (v, true) =>
        match register_irqfd v (interrupt_evt mmio_device) (irq self) with
        | None => (v, self, Err RegisterIrqFd)
        | Some v =>
            match Bus.insert (bus self) mmio_device (mmio_base self) MMIO_LEN with
            | (Err e, b) =>
                (v, mkMgr b (mmio_base self) (irq self) (last_irq self) (id_to_dev_info self), Err (BusError e))
            | (Ok _, b) =>
                (v, mkMgr b (mmio_base self +[64] MMIO_LEN) (irq self +[32] 1) (last_irq self)
                      (<[(Virtio type_id, device_id) := mkDevInfo (mmio_base self) (irq self) MMIO_LEN]>
                         (id_to_dev_info self)),
                 Ok (mmio_base self, irq self))
            end
        end
    end.

(** The parts of [Vmm] involved. *)
Record Vmm := mkVmm { mmio_device_manager : MMIODeviceManager; vm : V; kernel_cmdline : Cmdline.Cmdline }.

Definition attach_mmio_device (vmm : Vmm) (id : list Z) (device : nat) : outcome (Vmm * result Error unit) :=
  match register_mmio_device (mmio_device_manager vmm) (vm vmm) device (device_type device) id with
  | (v, mgr, Err e) => Ret (mkVmm mgr v (kernel_cmdline vmm), Err e)
  | (v, mgr, Ok (base, irq)) =>
      '(r, c) ← add_device_to_cmdline (kernel_cmdline vmm) base irq;
      Ret (mkVmm mgr v c, r)
  end.

(** A group of devices, attached one after the other up to the first error, as
    in [attach_block_devices] and its siblings. *)
Fixpoint attach_all (vmm : Vmm) (l : list (list Z * nat)) : outcome (Vmm * result Error unit) :=
  match l with
  | [] => Ret (vmm, Ok tt)
  | (id, device) :: l =>
      '(vmm, r) ← attach_mmio_device vmm id device;
      match r with Ok _ => attach_all vmm l | Err e => Ret (vmm, Err e) end
  end.

(** ** What attaching achieves *)

Context `{!KvmLaws V E}.

Lemma register_queue_events_spec evts v base i v' :
  0 <= base -> base + NOTIFY_REG_OFFSET < 2 ^ 64 -> 0 <= i -> i + Zlength evts <= 2 ^ 32 ->
  register_queue_events v base i evts = (v', true) ->
  (forall j e, evts !! j = Some e -> signalled v' (base + NOTIFY_REG_OFFSET) (i + Z.of_nat j) = Some e) /\
  (forall a d, a <> base + NOTIFY_REG_OFFSET \/ d < i -> signalled v' a d = signalled v a d) /\
  irq_sources v' = irq_sources v.
Proof.
  intros Hb Hhi. revert v i. induction evts as [|e evts IH]; intros v i Hi Hlen; cbn [register_queue_events].
  { intros [= <-]. split_and!; [by intros ??|done|done]. }
  cbn [length] in Hlen. unfold NOTIFY_REG_OFFSET in *.
  rewrite (wrap_small 64), (wrap_small 32) by (unfold fits; lia).
  destruct (register_ioevent v e (base + 0x50) i) as [v1|] eqn:E1; [|done]. intros Hr.
  destruct (IH v1 (i + 1) ltac:(lia) ltac:(lia) Hr) as (Hs & Hf & Hq).
  pose proof (register_ioevent_signalled _ _ _ _ _ E1) as Hs1. split_and!.
  - intros [|j] e' Hj; cbn in Hj.
    + injection Hj as ->. rewrite Z.add_0_r, Hf by lia. rewrite Hs1, !Z.eqb_refl. done.
    + replace (i + Z.of_nat (S j)) with (i + 1 + Z.of_nat j) by lia. by apply Hs.
  - intros a d Had. rewrite Hf by lia. rewrite Hs1. destruct (a =? base + 0x50) eqn:Ea, (d =? i) eqn:Ed; try done.
    zify_bool. lia.
  - rewrite Hq. by eapply register_ioevent_irq.
Qed.

Definition base_of (base0 : Z) (k : nat) : Z := base0 + MMIO_LEN * Z.of_nat k.

(** The option the [k]-th device gets on the command line. *)
Definition device_option (base0 irq0 : Z) (k : nat) : list Z :=
  Cmdline.SPACE :: device_key ++ [Cmdline.EQUALS] ++ device_arg (base_of base0 k) (irq0 + Z.of_nat k).

(** The names the manager knows: the last device of a type and name. *)
Definition known (base0 irq0 : Z) (l : list (list Z * nat)) (infos : gmap (DeviceType * list Z) MMIODeviceInfo)
    : Prop :=
  forall ty id info, infos !! (ty, id) = Some info <->
    exists k d, l !! k = Some d /\ ty = Virtio (device_type d.2) /\ id = d.1 /\
      info = mkDevInfo (base_of base0 k) (irq0 + Z.of_nat k) MMIO_LEN /\
      (forall k' d', (k < k')%nat -> l !! k' = Some d' -> (device_type d'.2, d'.1) <> (device_type d.2, d.1)).

(** [l] has been attached to the initial machine [vmm0]. *)
Record wired (vmm0 : Vmm) (l : list (list Z * nat)) (vmm : Vmm) : Prop := {
  w_base : mmio_base (mmio_device_manager vmm) = base_of (mmio_base (mmio_device_manager vmm0)) (length l);
  w_irq : irq (mmio_device_manager vmm) = irq (mmio_device_manager vmm0) + Zlength l;
  w_last : last_irq (mmio_device_manager vmm) = last_irq (mmio_device_manager vmm0);
  w_count : irq (mmio_device_manager vmm0) + Zlength l <= last_irq (mmio_device_manager vmm0) + 1;
  w_bus : Bus.bus_ok (bus (mmio_device_manager vmm));
  w_ranges x : x ∈ bus (mmio_device_manager vmm) <->
    exists k d, l !! k = Some d /\
      x = (Bus.mkRange (base_of (mmio_base (mmio_device_manager vmm0)) k) MMIO_LEN, d.2);
  w_notify k d i e : l !! k = Some d -> queue_events d.2 !! i = Some e ->
    signalled (vm vmm) (base_of (mmio_base (mmio_device_manager vmm0)) k + NOTIFY_REG_OFFSET) (Z.of_nat i) = Some e;
  w_lines k d : l !! k = Some d ->
    irq_sources (vm vmm) (irq (mmio_device_manager vmm0) + Z.of_nat k) =
      interrupt_evt d.2 :: irq_sources (vm vmm0) (irq (mmio_device_manager vmm0) + Z.of_nat k);
  w_free j : irq (mmio_device_manager vmm0) + Zlength l <= j -> irq_sources (vm vmm) j = irq_sources (vm vmm0) j;
  w_known : known (mmio_base (mmio_device_manager vmm0)) (irq (mmio_device_manager vmm0)) l
    (id_to_dev_info (mmio_device_manager vmm));
  w_cmdline : Cmdline.wf (kernel_cmdline vmm) /\
    Cmdline.line (kernel_cmdline vmm) = Cmdline.line (kernel_cmdline vmm0) ++
      concat (map (device_option (mmio_base (mmio_device_manager vmm0)) (irq (mmio_device_manager vmm0))) (seq 0 (length l)));
}.

Lemma wired_nil mgr v c :
  bus mgr = [] -> id_to_dev_info mgr = ∅ -> irq mgr <= last_irq mgr + 1 -> Cmdline.wf c ->
  wired (mkVmm mgr v c) [] (mkVmm mgr v c).
Proof.
  intros Hb Hi Hl Hc. split; cbn [mmio_device_manager vm kernel_cmdline length]; try done; try lia.
  - unfold base_of. lia.
  - by rewrite Hb.
  - intros x. rewrite Hb. split; [by intros ?%elem_of_nil|by intros (k & d & ? & _)].
  - intros ty id info. rewrite Hi, lookup_empty. split; [done|by intros (k & d & ? & _)].
  - by rewrite app_nil_r.
Qed.

(** A successful registration, taken apart. *)
Lemma register_ok self v d type_id id v' self' r :
  register_mmio_device self v d type_id id = (v', self', Ok r) ->
  irq self <= last_irq self /\ r = (mmio_base self, irq self) /\
  exists v1 b, register_queue_events v (mmio_base self) 0 (queue_events d) = (v1, true) /\
    register_irqfd v1 (interrupt_evt d) (irq self) = Some v' /\
    Bus.insert (bus self) d (mmio_base self) MMIO_LEN = (Ok tt, b) /\
    self' = mkMgr b (mmio_base self +[64] MMIO_LEN) (irq self +[32] 1) (last_irq self)
      (<[(Virtio type_id, id) := mkDevInfo (mmio_base self) (irq self) MMIO_LEN]> (id_to_dev_info self)).
Proof.
  unfold register_mmio_device. destruct (_ <? _) eqn:E1; [done|]. zify_bool.
  destruct (register_queue_events _ _ _ _) as [v1 []] eqn:E2; [|done].
  destruct (register_irqfd _ _ _) as [v2|] eqn:E3; [|done].
  destruct (Bus.insert _ _ _ _) as [[[]|] b] eqn:E4; [|done]. intros [= <- <- <-].
  split; [done|]. split; [done|]. by exists v1, b.
Qed.

Lemma device_arg_length base irq : Zlength (device_arg base irq) < 2 ^ 60.
Proof.
  unfold device_arg. rewrite !length_app, length_pad. unfold decimal, hex.
  pose proof (length_fmt_digits 10 20 (MMIO_LEN / 1024) []). pose proof (length_fmt_digits 10 20 irq []).
  pose proof (length_fmt_digits 16 16 base []). cbn [length] in *. lia.
Qed.

Lemma add_to_cmdline_ok c base irq c' :
  Cmdline.wf c -> Cmdline.line c <> [] -> add_device_to_cmdline c base irq = Ret (Ok tt, c') ->
  Cmdline.wf c' /\
  Cmdline.line c' = Cmdline.line c ++ Cmdline.SPACE :: device_key ++ [Cmdline.EQUALS] ++ device_arg base irq.
Proof.
  intros Hwf Hne. unfold add_device_to_cmdline.
  destruct (Cmdline.kv_insert_cases c device_key (device_arg base irq) Hwf ltac:(cbn; lia) (device_arg_length base irq))
    as (r & c1 & -> & Hwf1 & _ & Hok & _).
  cbn [mbind outcome_bind]. destruct r as [[]|]; [|done]. intros [= <-]. split; [done|].
  rewrite Hok by done. cbn [Cmdline.line]. unfold Cmdline.separator. by destruct (Cmdline.line c).
Qed.

Lemma lookup_snoc_cases {A} (l : list A) x k y :
  (l ++ [x]) !! k = Some y <-> l !! k = Some y \/ k = length l /\ y = x.
Proof.
  rewrite lookup_app_Some, list_lookup_singleton_Some. split.
  - intros [?|[? [? ->]]]; [by left|right; split; [lia|done]].
  - intros [?|[-> ->]]; [by left|right]. split; [lia|]. split; [lia|done].
Qed.

(** The map from names to places after one more device: the last of equal
    names wins. *)
Lemma known_snoc base0 irq0 l d infos :
  known base0 irq0 l infos ->
  known base0 irq0 (l ++ [d])
    (<[(Virtio (device_type d.2), d.1) := mkDevInfo (base_of base0 (length l)) (irq0 + Zlength l) MMIO_LEN]> infos).
Proof.
  intros Hk ty id info. rewrite lookup_insert_Some, (Hk ty id info). setoid_rewrite lookup_snoc_cases. split.
  - intros [[[= <- <-] <-]|[Hne (k & d' & Hl & -> & -> & -> & Hlast)]].
    + exists (length l), d. split_and!; try done; [by right|]. intros k' d' Hlt [Hl|[-> ->]]; [|lia].
      apply lookup_lt_Some in Hl. lia.
    + exists k, d'. split_and!; try done; [by left|]. intros k' d'' Hlt [Hl'|[-> ->]]; [by eauto|]. congruence.
  - intros (k & d' & [Hl|[-> ->]] & -> & -> & -> & Hlast); [right|left; done]. split.
    + intros [= Ht Hi]. eapply (Hlast (length l) d); [by eapply lookup_lt_Some|by right|]. by rewrite Ht, Hi.
    + exists k, d'. split_and!; try done. intros k' d'' Hlt Hl'. eapply Hlast; [done|by left].
Qed.

Lemma attach_step vmm0 l vmm id d vmm' :
  0 <= mmio_base (mmio_device_manager vmm0) ->
  base_of (mmio_base (mmio_device_manager vmm0)) (S (length l)) < 2 ^ 64 ->
  0 <= irq (mmio_device_manager vmm0) -> last_irq (mmio_device_manager vmm0) < 2 ^ 32 - 1 ->
  Zlength (queue_events d) <= 2 ^ 32 -> Cmdline.line (kernel_cmdline vmm0) <> [] ->
  wired vmm0 l vmm -> attach_mmio_device vmm id d = Ret (vmm', Ok tt) -> wired vmm0 (l ++ [(id, d)]) vmm'.
Proof.
  destruct vmm0 as [mgr0 v0 c0], vmm as [mgr v c]. cbn [mmio_device_manager vm kernel_cmdline].
  intros Hb0 Hb64 Hi0 Hl32 Hq Hne W. unfold attach_mmio_device. cbn [mmio_device_manager vm kernel_cmdline].
  destruct (register_mmio_device mgr v d (device_type d) id) as [[v' mgr'] [[base ir]|]] eqn:Er; [|done].
  destruct (register_ok _ _ _ _ _ _ _ _ Er) as (Hir & [= -> ->] & v1 & b & Hreg & Hfd & Hins & ->). clear Er.
  destruct (add_device_to_cmdline c (mmio_base mgr) (irq mgr)) as [[[[]|] c']|] eqn:Ec; [|done|done].
  cbn [mbind outcome_bind]. intros [= <-]. pose proof W as [B I L C Hbus Hr Hn Hlin Hfree Hkn [Hwf Hline]].
  cbn [mmio_device_manager vm kernel_cmdline] in *. rewrite B, I in *.
  unfold base_of, MMIO_LEN in Hb64. unfold NOTIFY_REG_OFFSET in *.
  destruct (add_to_cmdline_ok _ _ _ _ Hwf ltac:(rewrite Hline; by destruct (Cmdline.line c0)) Ec) as [Hwf' Hline'].
  destruct (register_queue_events_spec (queue_events d) v (base_of (mmio_base mgr0) (length l)) 0 v1)
    as (Hs & Hf & Hirq); [unfold base_of, MMIO_LEN, NOTIFY_REG_OFFSET; lia..|done|].
  pose proof (register_irqfd_sources _ _ _ _ Hfd) as Hsrc. pose proof (register_irqfd_signalled _ _ _ _ Hfd) as Hsig.
  destruct (Bus.insert_cases (bus mgr) d (base_of (mmio_base mgr0) (length l)) MMIO_LEN Hbus)
    as [(_ & _ & b' & Hins' & Hok' & Hin)|[_ Hins']];
    [unfold base_of, MMIO_LEN; lia|unfold MMIO_LEN; lia|unfold base_of, MMIO_LEN; lia| |congruence].
  assert (b' = b) as -> by congruence.
  split; cbn [mmio_device_manager vm kernel_cmdline mmio_base irq last_irq bus id_to_dev_info];
    rewrite ?length_app; cbn [length].
  - unfold base_of, MMIO_LEN. rewrite wrap_small by (unfold fits; lia). lia.
  - rewrite wrap_small by (unfold fits; lia). lia.
  - done.
  - lia.
  - done.
  - intros x. rewrite Hin, Hr. setoid_rewrite lookup_snoc_cases. naive_solver.
  - intros k dd i e [Hl|[-> ->]]%lookup_snoc_cases He; rewrite Hsig; cbn [snd] in *; [|by apply (Hs i)].
    rewrite Hf; [by eapply Hn|]. apply lookup_lt_Some in Hl. left. unfold base_of, MMIO_LEN. lia.
  - intros k dd [Hl|[-> ->]]%lookup_snoc_cases; rewrite Hsrc; cbn [snd].
    + apply lookup_lt_Some in Hl as Hlt. destruct (_ =? _) eqn:Ek; [zify_bool; lia|]. rewrite Hirq. by apply Hlin.
    + rewrite Z.eqb_refl, Hirq, Hfree by lia. done.
  - intros j Hj. rewrite Hsrc. destruct (_ =? _) eqn:Ej; [zify_bool; lia|]. rewrite Hirq. apply Hfree. lia.
  - apply (known_snoc (mmio_base mgr0) (irq mgr0) l (id, d)). apply Hkn.
  - split; [done|]. rewrite Hline', Hline, Nat.add_1_r, seq_S, map_app, concat_app, <- app_assoc.
    cbn [map concat]. rewrite app_nil_r. done.
Qed.

Lemma attach_all_wired vmm0 l done_ vmm vmm' :
  0 <= mmio_base (mmio_device_manager vmm0) ->
  base_of (mmio_base (mmio_device_manager vmm0)) (length done_ + length l) < 2 ^ 64 ->
  0 <= irq (mmio_device_manager vmm0) -> last_irq (mmio_device_manager vmm0) < 2 ^ 32 - 1 ->
  Forall (fun d => Zlength (queue_events d.2) <= 2 ^ 32) l -> Cmdline.line (kernel_cmdline vmm0) <> [] ->
  wired vmm0 done_ vmm -> attach_all vmm l = Ret (vmm', Ok tt) -> wired vmm0 (done_ ++ l) vmm'.
Proof.
  intros Hb Hb64 Hi Hl Hq Hne. revert done_ vmm Hb64.
  induction Hq as [|[id d] l Hd Hq IH]; intros dn vmm Hb64 W; cbn [attach_all].
  { intros [= <-]. by rewrite app_nil_r. }
  destruct (attach_mmio_device vmm id d) as [[vmm1 [[]|]]|] eqn:Ea; [|done..]. cbn [mbind outcome_bind]. intros Hall.
  change ((id, d) :: l) with ([(id, d)] ++ l). rewrite app_assoc. unfold base_of, MMIO_LEN in *.
  cbn [length snd] in *. apply (IH _ vmm1); [rewrite length_app; cbn; lia| |done].
  eapply attach_step; try done. unfold base_of, MMIO_LEN. lia.
Qed.

(** C37. Wiring: when a group of devices is attached to a fresh machine,
    there are no more of them than interrupt lines; every access to the page of
    the [k]-th device reaches that device, storing a queue's index in its
    notify register signals exactly the event of that queue, its interrupt
    event raises its own line and no other device's does, looking it up by its
    type and name finds it, and the command line ends with one entry per
    device, in order. *)
Theorem devices_wired base lo hi v c l vmm :
  0 <= base -> base_of base (length l) < 2 ^ 64 -> 0 <= lo <= hi -> hi < 2 ^ 32 - 1 -> Cmdline.wf c ->
  Cmdline.line c <> [] -> Forall (fun d => Zlength (queue_events d.2) <= 2 ^ 32) l ->
  NoDup (map (fun d => (device_type d.2, d.1)) l) ->
  attach_all (mkVmm (new base (lo, hi)) v c) l = Ret (vmm, Ok tt) ->
  Zlength l <= hi - lo + 1 /\
  (forall k d, l !! k = Some d ->
     (forall off, 0 <= off < MMIO_LEN ->
        Bus.get_device (bus (mmio_device_manager vmm)) (base_of base k + off) = Some (off, d.2)) /\
     (forall i e, queue_events d.2 !! i = Some e ->
        signalled (vm vmm) (base_of base k + NOTIFY_REG_OFFSET) (Z.of_nat i) = Some e) /\
     irq_sources (vm vmm) (lo + Z.of_nat k) = interrupt_evt d.2 :: irq_sources v (lo + Z.of_nat k) /\
     get_device (mmio_device_manager vmm) (Virtio (device_type d.2)) d.1 = Some d.2) /\
  Cmdline.line (kernel_cmdline vmm) =
    Cmdline.line c ++ concat (map (device_option base lo) (seq 0 (length l))).
Proof.
  intros Hb Hb64 Hlo Hhi Hwf Hne Hq Hnd Hall.
  assert (wired (mkVmm (new base (lo, hi)) v c) [] (mkVmm (new base (lo, hi)) v c)) as W0
    by (apply wired_nil; cbn; try done; lia).
  assert (wired (mkVmm (new base (lo, hi)) v c) l vmm) as W.
  { apply (attach_all_wired _ l [] (mkVmm (new base (lo, hi)) v c)); try done; cbn; lia. }
  clear Hall W0. destruct W as [B I L C Hbus Hr Hn Hlin Hfree Hkn [_ Hline]].
  cbn [mmio_device_manager vm kernel_cmdline new mmio_base irq last_irq fst snd] in *. assert (forall k d off, l !! k = Some d -> 0 <= off < MMIO_LEN ->
    Bus.get_device (bus (mmio_device_manager vmm)) (base_of base k + off) = Some (off, d.2)) as Hdev.
  { intros k d off Hk Hoff. apply Bus.get_device_covers; [done|].
    exists (Bus.mkRange (base_of base k) MMIO_LEN, d.2). unfold Bus.covers. cbn. split_and!; [|lia|lia|lia|done].
    apply Hr. by exists k, d. }
  split; [lia|]. split; [|done]. intros k d Hk. split_and!.
  - intros off. by apply Hdev.
  - intros i e. by apply Hn.
  - by apply Hlin.
  - unfold get_device.
    assert (id_to_dev_info (mmio_device_manager vmm) !! (Virtio (device_type d.2), d.1) =
      Some (mkDevInfo (base_of base k) (lo + Z.of_nat k) MMIO_LEN)) as ->.
    { apply Hkn. exists k, d. split_and!; try done. intros k' d' Hlt Hk' Heq.
      assert (k = k'); [|lia]. eapply NoDup_lookup; [exact Hnd| |]; rewrite list_lookup_fmap.
      - by rewrite Hk.
      - rewrite Hk'. cbn. by rewrite Heq. }
    cbn [addr]. rewrite <- (Z.add_0_r (base_of base k)), (Hdev k d 0) by (try done; unfold MMIO_LEN; lia). done.
Qed.
End kvm.

(** ** The command-line entry, as the guest kernel reads it *)

(** [<size>K@0x<address>:<line>] *)
Definition parse_device_arg (s : list Z) : option (Z * Z * Z) :=
  let '(size, rest) := Cmdline.split_first 75 s in
  match rest with
  | Some (64 :: 48 :: 120 :: rest) =>
      let '(address, line) := Cmdline.split_first 58 rest in
      line ← line; Some (read_digits 10 size * 1024, read_digits 16 address, read_digits 10 line)
  | _ => None
  end.

(** The entry a device gets on the command line reads back as the size of
    its page, its address and its interrupt line. *)
Theorem device_arg_roundtrip base irq :
  fits 64 base -> fits 32 irq -> parse_device_arg (device_arg base irq) = Some (MMIO_LEN, base, irq).
Proof.
  intros Hb Hi. unfold device_arg, parse_device_arg. change (MMIO_LEN / 1024) with 4.
  change (decimal 4 ++ [75; 64; 48; 120] ++ pad 8 (hex base) ++ [58] ++ decimal irq)
    with ([52] ++ 75 :: 64 :: 48 :: 120 :: (pad 8 (hex base) ++ 58 :: decimal irq)).
  rewrite Cmdline.split_first_app by by apply (alnum_not_in _ [52]); [repeat constructor; unfold alnum; lia|unfold alnum; lia].
  rewrite Cmdline.split_first_app by (apply alnum_not_in; [apply pad_hex_alnum|unfold alnum; lia]).
  cbn [mbind option_bind]. rewrite read_digits_pad, hex_read, decimal_read by (try done; unfold fits in *; lia). done.
Qed.

(** ** A concrete KVM *)

Record KvmLog := mkLog { ioevents : gmap (Z * Z) nat; irqfds : gmap Z (list nat) }.

#[global] Instance log_kvm : Kvm KvmLog nat := {|
  register_ioevent v e a d :=
    match ioevents v !! (a, d) with
    | Some _ => None
    | None => Some (mkLog (<[(a, d) := e]> (ioevents v)) (irqfds v))
    end;
  register_irqfd v e irq := Some (mkLog (ioevents v) (<[irq := e :: default [] (irqfds v !! irq)]> (irqfds v)));
  signalled v a d := ioevents v !! (a, d);
  irq_sources v irq := default [] (irqfds v !! irq);
|}.

#[global] Instance log_kvm_laws : KvmLaws KvmLog nat.
Proof.
  split; cbn.
  - intros v e a d v'. destruct (ioevents v !! (a, d)); [done|]. intros [= <-] a' d'. cbn.
    destruct (a' =? a) eqn:Ea, (d' =? d) eqn:Ed; zify_bool; subst;
      [by rewrite lookup_insert_eq|by rewrite lookup_insert_ne by congruence..].
  - intros v e a d v'. destruct (ioevents v !! (a, d)); [done|]. by intros [= <-].
  - intros v e irq v' [= <-] irq'. cbn. destruct (irq' =? irq) eqn:Ei; zify_bool; subst.
    + by rewrite lookup_insert_eq.
    + by rewrite lookup_insert_ne by congruence.
  - by intros v e irq v' [= <-].
Qed.

(** ** Witnesses: two devices of two queues each *)

Definition demo_events (d : nat) : list nat := [10 * d; 10 * d + 1]%nat.
Definition demo_irq (d : nat) : nat := (10 * d + 9)%nat.
Definition demo_type (d : nat) : Z := Z.of_nat d + 1.
Definition demo_cmdline : Cmdline.Cmdline := Cmdline.mkCmdline [114; 111] 200.
Definition demo_devices : list (list Z * nat) := [([97], 0%nat); ([98], 1%nat)].
Definition demo_vmm : Vmm (V := KvmLog) := mkVmm (new MMIO_MEM_START (IRQ_BASE, IRQ_MAX)) (mkLog ∅ ∅) demo_cmdline.

Lemma devices_wired_witness :
  exists vmm, attach_all demo_events demo_irq demo_type demo_vmm demo_devices = Ret (vmm, Ok tt) /\
    Bus.get_device (bus (mmio_device_manager vmm)) (MMIO_MEM_START + 0x1008) = Some (8, 1%nat) /\
    signalled (vm vmm) (MMIO_MEM_START + 0x1050) 1 = Some 11%nat.
Proof.
  destruct (attach_all demo_events demo_irq demo_type demo_vmm demo_devices) as [[vmm [[]|]]|] eqn:E;
    [|exfalso; revert E; vm_compute; congruence..].
  destruct (devices_wired demo_events demo_irq demo_type MMIO_MEM_START IRQ_BASE IRQ_MAX (mkLog ∅ ∅) demo_cmdline
    demo_devices vmm) as (_ & Hw & _).
  - vm_compute. congruence.
  - vm_compute. congruence.
  - vm_compute. split; congruence.
  - vm_compute. congruence.
  - split; [repeat constructor; lia|cbn; lia].
  - vm_compute. congruence.
  - repeat constructor; vm_compute; congruence.
  - cbn. apply NoDup_cons. split; [by intros [[=]|?%elem_of_nil]%elem_of_cons|apply NoDup_singleton].
  - exact E.
  - exists vmm. split; [reflexivity|]. destruct (Hw 1%nat ([98], 1%nat) eq_refl) as (Hd & Hs & _). split.
    + exact (Hd 8 ltac:(vm_compute; split; congruence)).
    + exact (Hs 1%nat 11%nat eq_refl).
Defined.

Lemma device_arg_roundtrip_witness :
  parse_device_arg (device_arg MMIO_MEM_START IRQ_BASE) = Some (MMIO_LEN, MMIO_MEM_START, IRQ_BASE).
Proof. apply device_arg_roundtrip; split; vm_compute; congruence. Defined.
End MmioManager.

(** ** The port I/O manager ([device_manager/legacy.rs]) *)

Module PortManager.

Inductive PortError := PortBusError (e : Bus.Error) | PortEventFd.

(** [com1], [i8042] are handles of devices made elsewhere; [sinks] are the
    handles of the three serial ports [register_devices] makes. *)
Record PortIODeviceManager := mkPorts { io_bus : Bus.Bus; stdio_serial : option nat; i8042 : nat }.

(** [evt] tells for each event descriptor made or cloned, in order, whether
    that succeeds. *)
Definition ports_new (serial : option nat) (dev : nat) (evt : nat -> bool) : result PortError PortIODeviceManager :=
  if evt 0%nat && evt 1%nat && evt 2%nat && evt 3%nat then Ok (mkPorts Bus.new serial dev) else Err PortEventFd.

Definition insert_device (m : PortIODeviceManager) (h : nat) (base len : Z)
    : PortIODeviceManager * result PortError unit :=
  let '(r, b) := Bus.insert (io_bus m) h base len in
  (mkPorts b (stdio_serial m) (i8042 m), map_err PortBusError r).

(** A sink needs a clone of an event descriptor first. *)
Definition insert_sink (m : PortIODeviceManager) (ok : bool) (h : nat) (base : Z)
    : PortIODeviceManager * result PortError unit :=
  if ok then insert_device m h base 0x8 else (m, Err PortEventFd).

Definition then_ (p : PortIODeviceManager * result PortError unit)
    (f : PortIODeviceManager -> PortIODeviceManager * result PortError unit)
    : PortIODeviceManager * result PortError unit :=
  match p with (m, Ok _) => f m | (m, Err e) => (m, Err e) end.

Definition register_devices (m : PortIODeviceManager) (sinks : nat * nat * nat) (evt : nat -> bool)
    : PortIODeviceManager * result PortError unit :=
  let '(com2, com3, com4) := sinks in
  let p := match stdio_serial m with
           | Some serial => insert_device m serial 0x3f8 0x8
           | None => (m, Ok tt)
           end in
  then_ p (fun m =>
  then_ (insert_sink m (evt 0%nat) com2 0x2f8) (fun m =>
  then_ (insert_sink m (evt 1%nat) com3 0x3e8) (fun m =>
  then_ (insert_sink m (evt 2%nat) com4 0x2e8) (fun m =>
  insert_device m (i8042 m) 0x060 0x5)))).

(** Which device answers a port. *)
Definition port_owner (serial : option nat) (dev com2 com3 com4 : nat) (port : Z) : option (Z * nat) :=
  if (0x60 <=? port) && (port <? 0x65) then Some (port - 0x60, dev)
  else if (0x2e8 <=? port) && (port <? 0x2f0) then Some (port - 0x2e8, com4)
  else if (0x2f8 <=? port) && (port <? 0x300) then Some (port - 0x2f8, com2)
  else if (0x3e8 <=? port) && (port <? 0x3f0) then Some (port - 0x3e8, com3)
  else if (0x3f8 <=? port) && (port <? 0x400) then (fun h => (port - 0x3f8, h)) <$> serial
  else None.

(** Port decoding: registering the legacy devices on a fresh bus succeeds
    when the event descriptors do, and afterwards each port belongs to the
    device of the PC's port map, with the offset from the device's base: the
    keyboard controller at 0x60-0x64, the serial ports at 0x3f8 (when there is
    one), 0x2f8, 0x3e8 and 0x2e8; no other port has an owner. *)
Theorem port_map_decoded serial dev com2 com3 com4 port :
  exists m, register_devices (mkPorts Bus.new serial dev) (com2, com3, com4) (fun _ => true) = (m, Ok tt) /\
    Bus.get_device (io_bus m) port = port_owner serial dev com2 com3 com4 port.
Proof.
  destruct serial as [serial|]; (eexists; split; [vm_compute; reflexivity|]);
    cbn [io_bus]; unfold Bus.get_device, Bus.first_before, port_owner; cbn [rev app List.find Bus.r_start];
    repeat (case_match; try discriminate; simplify_eq; zify_bool); try done; try lia;
    repeat f_equal; lia.
Qed.
End PortManager.
