(* ===== verification/Vcpu.v ===== *)
(** * The virtual processor thread ([vmm/src/linux/vstate.rs], [utils/src/sm.rs])

    A virtual processor runs the guest in [KVM_RUN], serves the guest's device
    accesses through the buses, and is paused and resumed by events that
    another thread puts into a channel and announces with a signal.

    [run_emulation], [running], [paused] and [exit] are the code's functions;
    what [KVM_RUN] returns is an argument.  A function yields what it does after
    its last receive as a [Plan]: the answers it sends, the exit event it
    writes, and the next state.  [step] interleaves the thread with the
    controlling thread and with the delivery of signals before every receive,
    every action of a plan and every entry to [KVM_RUN]: the signal handler
    sets [immediate_exit] and throws the thread out of [KVM_RUN]; [KVM_RUN]
    returns at once when the flag is set.  The handler finds the thread's
    [Vcpu] through thread-local storage, which is set up before the controlling
    thread gets the handle.  The controlling thread may drop its handle, which
    closes both channels one after the other. *)

From S2P Require Import Prelude Bus.

Module Vcpu.

Definition FC_EXIT_CODE_OK : Z := 0.
Definition FC_EXIT_CODE_GENERIC_ERROR : Z := 1.
Definition EINTR : Z := 4.
Definition EAGAIN : Z := 11.

Inductive VcpuEvent := Pause | Resume.

Inductive VcpuResponse := Paused | Resumed | Exited (code : Z).

Inductive VcpuEmulation := Handled | Interrupted | Stopped.

(** The exits the code tells apart; [OtherExit] is every other one. *)
Inductive VcpuExit :=
| IoIn (addr : Z) (data : list byte) | IoOut (addr : Z) (data : list byte)
| MmioRead (addr : Z) (data : list byte) | MmioWrite (addr : Z) (data : list byte)
| Hlt | Shutdown | FailEntry (reason cpu : Z) | InternalError | OtherExit.

Inductive Error := VcpuUnhandledKvmExit.

(** [StateMachine<Vcpu>]: the next handler, or the end. *)
Inductive State := AtPaused | AtRunning | AtExited.

(** [events] and [responses] are the two channels; a channel is open while the
    other side holds its end.  [responses] keeps everything sent. *)
Record Vcpu := mkVcpu {
  io_bus : Bus.Bus; mmio_bus : option Bus.Bus; immediate_exit : bool;
  events : list VcpuEvent; events_open : bool; responses : list VcpuResponse; responses_open : bool; exit_evt : Z;
}.

Definition set_mmio_bus (v : Vcpu) (b : Bus.Bus) : Vcpu :=
  mkVcpu (io_bus v) (Some b) (immediate_exit v) (events v) (events_open v) (responses v) (responses_open v) (exit_evt v).

Definition set_kvm_immediate_exit (v : Vcpu) (b : bool) : Vcpu :=
  mkVcpu (io_bus v) (mmio_bus v) b (events v) (events_open v) (responses v) (responses_open v) (exit_evt v).

Definition set_events (v : Vcpu) (l : list VcpuEvent) : Vcpu :=
  mkVcpu (io_bus v) (mmio_bus v) (immediate_exit v) l (events_open v) (responses v) (responses_open v) (exit_evt v).

(** [response_sender.send(..).expect(..)] *)
Definition respond (v : Vcpu) (r : VcpuResponse) : outcome Vcpu :=
  if responses_open v then
    Ret (mkVcpu (io_bus v) (mmio_bus v) (immediate_exit v) (events v) (events_open v) (responses v ++ [r])
           (responses_open v) (exit_evt v))
  else Panic.

(** ** Progress under fairness

    [rank] says how far a state of [P] is from [G], and [helper] who brings it
    nearer: every step keeps [P] at no greater rank or ends in [G], a step of the
    helper lowers the rank, and the helper can always move. *)
Section progress.
Context {W R : Type} (step : R -> W -> W -> Prop) (helper : nat -> R) (tr : nat -> W).
Context (P G : W -> Prop) (rank : W -> nat).
Hypothesis moves : forall n, tr (S n) = tr n \/ exists r, step r (tr n) (tr (S n)).
Hypothesis fairly : forall k n, exists m, (n <= m)%nat /\ (step (helper k) (tr m) (tr (S m)) \/ ~ exists w', step (helper k) (tr m) w').
Hypothesis nearer : forall r w w', P w -> step r w w' -> G w' \/ P w' /\ (rank w' < rank w \/ rank w' = rank w /\ r <> helper (rank w))%nat.
Hypothesis able : forall w, P w -> exists w', step (helper (rank w)) w w'.

(** Until the helper moves. *)
Lemma lasts n d :
  P (tr n) -> (exists m, (n <= m)%nat /\ (G (tr m) \/ P (tr m) /\ (rank (tr m) < rank (tr n))%nat)) \/
    P (tr (n + d)%nat) /\ rank (tr (n + d)%nat) = rank (tr n).
Proof.
  intros Hp. induction d as [|d IH]; [right; by rewrite Nat.add_0_r|]. destruct IH as [IH|[Hd He]]; [by left|].
  rewrite Nat.add_succ_r. destruct (moves (n + d)) as [-> |[r Hs]]; [by right|].
  destruct (nearer r _ _ Hd Hs) as [Hg|[Hq [Hlt|[Heq _]]]].
  - left. exists (S (n + d)). split; [lia|by left].
  - left. exists (S (n + d)). split; [lia|right]. split; [done|lia].
  - right. split; [done|lia].
Qed.

Lemma leads_to n : P (tr n) -> exists m, (n <= m)%nat /\ G (tr m).
Proof.
  remember (rank (tr n)) as k eqn:Ek. revert n Ek. induction k as [k IH] using (well_founded_ind lt_wf). intros n Ek Hp.
  assert (forall m, (n <= m)%nat -> P (tr m) -> (rank (tr m) < rank (tr n))%nat -> exists m', (n <= m')%nat /\ G (tr m')) as Hless.
  { intros m Hm Hpm Hr. destruct (IH (rank (tr m))) with m as (m' & Hm' & Hg); [lia|done|done|]. exists m'. split; [lia|done]. }
  destruct (fairly k n) as (m & Hm & Hf). replace m with (n + (m - n))%nat in * by lia.
  destruct (lasts n (m - n) Hp) as [(m' & Hm' & [Hg|[Hq Hr]])|[Hq Hr]]; [by exists m'|by apply (Hless m')|].
  destruct Hf as [Hs|Hn]; [|exfalso; apply Hn; rewrite Ek, <- Hr; by apply able].
  destruct (nearer _ _ _ Hq Hs) as [Hg|[Hq' [Hlt|[_ Hne]]]].
  - exists (S (n + (m - n))). split; [lia|done].
  - apply (Hless (S (n + (m - n)))); [lia|done|lia].
  - destruct Hne. by rewrite Hr, Ek.
Qed.
End progress.

Section devices.
Context {D : Type} `{Bus.BusDevice D}.

(** Whether writing the exit event succeeds. *)
Context (exit_ok : bool).

(** The effect of one return from [KVM_RUN]: devices, the bytes handed back to
    the guest, and the verdict. *)
Definition run_emulation (v : Vcpu) (st : nat -> D) (run : result Z VcpuExit)
    : Vcpu * (nat -> D) * list byte * result Error VcpuEmulation :=
  match run with
  | Ok (IoIn addr data) =>
      let '(_, st, data) := Bus.read (io_bus v) st 0 addr data in (v, st, data, Ok Handled)
  | Ok (IoOut addr data) =>
      let '(_, st) := Bus.write (io_bus v) st 0 addr data in (v, st, [], Ok Handled)
  | Ok (MmioRead addr data) =>
      match mmio_bus v with
      | Some b => let '(_, st, data) := Bus.read b st 0 addr data in (v, st, data, Ok Handled)
      | None => (v, st, data, Ok Handled)
      end
  | Ok (MmioWrite addr data) =>
      match mmio_bus v with
      | Some b => let '(_, st) := Bus.write b st 0 addr data in (v, st, [], Ok Handled)
      | None => (v, st, [], Ok Handled)
      end
  | Ok Hlt | Ok Shutdown => (v, st, [], Ok Stopped)
  | Ok (FailEntry _ _) | Ok InternalError | Ok OtherExit => (v, st, [], Err VcpuUnhandledKvmExit)
  | Err e =>
      if e =? EAGAIN then (v, st, [], Ok Handled)
      else if e =? EINTR then (set_kvm_immediate_exit v false, st, [], Ok Interrupted)
      else (v, st, [], Err VcpuUnhandledKvmExit)
  end.

(** The operations on channels and event descriptors between which the thread
    can be overtaken. *)
Inductive Action := Respond (r : VcpuResponse) | WriteExitEvt.

Definition Plan : Type := list Action * State.

Definition act (v : Vcpu) (a : Action) : outcome Vcpu :=
  match a with
  | Respond r => respond v r
  | WriteExitEvt =>
      Ret (mkVcpu (io_bus v) (mmio_bus v) (immediate_exit v) (events v) (events_open v) (responses v) (responses_open v)
             (if exit_ok then exit_evt v +[64] 1 else exit_evt v))
  end.

(** What a plan comes to when nothing comes between. *)
Fixpoint perform (v : Vcpu) (todo : list Action) : outcome Vcpu :=
  match todo with [] => Ret v | a :: todo => v ← act v a; perform v todo end.

(** [exit]: the response goes out before the event is signalled. *)
Definition exit (exit_code : Z) : Plan := ([Respond (Exited exit_code); WriteExitEvt], AtExited).

(** The part of [running] after the loop: at most one event is taken. *)
Definition check_events (v : Vcpu) : Vcpu * Plan :=
  match events v with
  | Pause :: l => (set_events v l, ([Respond Paused], AtPaused))
  | Resume :: l => (set_events v l, ([Respond Resumed], AtRunning))
  | [] => (v, if events_open v then ([], AtRunning) else exit FC_EXIT_CODE_GENERIC_ERROR)
  end.

(** [running], with the successive results of [KVM_RUN]; [None]: the loop has
    used them all up and still runs. *)
Fixpoint running (v : Vcpu) (st : nat -> D) (runs : list (result Z VcpuExit)) : option (Vcpu * Plan * (nat -> D)) :=
  match runs with
  | [] => None
  | run :: runs =>
      let '(v, st, _, r) := run_emulation v st run in
      match r with
      | Ok Handled => running v st runs
      | Ok Interrupted => Some (check_events v, st)
      | Ok Stopped => Some (v, exit FC_EXIT_CODE_OK, st)
      | Err _ => Some (v, exit FC_EXIT_CODE_GENERIC_ERROR, st)
      end
  end.

(** [paused]; [None] while the receive blocks. *)
Definition paused (v : Vcpu) : option (Vcpu * Plan) :=
  match events v with
  | Resume :: l => Some (set_events v l, ([Respond Resumed], AtRunning))
  | Pause :: l => Some (set_events v l, ([], AtPaused))
  | [] => if events_open v then None else Some (v, exit FC_EXIT_CODE_GENERIC_ERROR)
  end.

(** ** The threads together *)

(** Where the processor thread is; the loop of [running] is cut at the points
    where another thread makes a difference. *)
Inductive Pc :=
| InPaused  (** about to receive an event *)
| BeforeRun  (** about to call [KVM_RUN] *)
| InGuest  (** in [KVM_RUN] *)
| AfterEintr  (** [KVM_RUN] has returned [EINTR] *)
| AtCheck  (** out of the loop *)
| Doing (todo : list Action) (next : State)  (** carrying out a plan *)
| InExited
| Panicked.

(** The controlling thread: in [send_event], waiting for the answer, dropping
    the two ends of its handle. *)
Inductive Sender := Idle | Sending | Waiting | Closing | Gone | Crashed.

(** Whether it waits for the answer of an event before it does anything else,
    for ever or until a timeout, as [resume_vcpus] does. *)
Inductive Policy := SendOnly | AwaitAnswer | AwaitOrGiveUp.

(** [sent] and [ran] are histories: the events sent, and the results of
    [KVM_RUN] with the latest first. *)
Record World := mkWorld {
  vcpu : Vcpu; devs : nat -> D; pc : Pc; signals : nat; sender : Sender; seen : nat;
  sent : list VcpuEvent; ran : list (result Z VcpuExit);
}.

Definition move (w : World) (v : Vcpu) (p : Pc) : World :=
  mkWorld v (devs w) p (signals w) (sender w) (seen w) (sent w) (ran w).

Definition set_control (w : World) (v : Vcpu) (n : nat) (s : Sender) (k : nat) (l : list VcpuEvent) : World :=
  mkWorld v (devs w) (pc w) n s k l (ran w).

(** [StateMachine::run] calls the handler of the next state. *)
Definition goto (s : State) : Pc :=
  match s with AtPaused => InPaused | AtRunning => BeforeRun | AtExited => InExited end.

Definition settle (p : Plan) : Pc := match p.1 with [] => goto p.2 | _ => Doing p.1 p.2 end.

(** The thread after the result of [KVM_RUN] is handled. *)
Definition after_run (w : World) (run : result Z VcpuExit) : World :=
  let '(v, st, _, r) := run_emulation (vcpu w) (devs w) run in
  mkWorld v st
    match r with
    | Ok Handled => BeforeRun
    | Ok Interrupted => AtCheck
    | Ok Stopped => settle (exit FC_EXIT_CODE_OK)
    | Err _ => settle (exit FC_EXIT_CODE_GENERIC_ERROR)
    end (signals w) (sender w) (seen w) (sent w) (run :: ran w).

(** Who takes a step: the processor thread outside the guest, the guest with
    the kernel, signal delivery, the controlling thread inside [send_event], and
    the controlling thread where it has a choice. *)
Inductive Role := Cpu | Guest | Signal | Control | Choice.

Inductive vstep : Role -> World -> World -> Prop :=
| v_paused w v p : pc w = InPaused -> paused (vcpu w) = Some (v, p) -> vstep Cpu w (move w v (settle p))
| v_enter w : pc w = BeforeRun -> immediate_exit (vcpu w) = false -> vstep Cpu w (move w (vcpu w) InGuest)
| v_refused w : pc w = BeforeRun -> immediate_exit (vcpu w) = true -> vstep Cpu w (move w (vcpu w) AfterEintr)
| v_return w run : pc w = InGuest -> run <> Err EINTR -> vstep Guest w (after_run w run)
| v_eintr w : pc w = AfterEintr -> vstep Cpu w (after_run w (Err EINTR))
| v_check w v p : pc w = AtCheck -> check_events (vcpu w) = (v, p) -> vstep Cpu w (move w v (settle p))
| v_act w a todo next v : pc w = Doing (a :: todo) next -> act (vcpu w) a = Ret v ->
    vstep Cpu w (move w v (settle (todo, next)))
| v_panic w a todo next : pc w = Doing (a :: todo) next -> act (vcpu w) a = Panic ->
    vstep Cpu w (move w (vcpu w) Panicked)
| v_signal w n : signals w = S n ->
    vstep Signal w (mkWorld (set_kvm_immediate_exit (vcpu w) true) (devs w) (match pc w with InGuest => AfterEintr | p => p end)
                      n (sender w) (seen w) (sent w) (ran w)).

(** [send_event] puts the event into the channel, which panics when the
    processor thread is gone, and raises the signal. *)
Inductive sstep (policy : Policy) : Role -> World -> World -> Prop :=
| s_send w e : sender w = Idle -> pc w <> Panicked ->
    sstep policy Choice w (set_control w (set_events (vcpu w) (events (vcpu w) ++ [e])) (signals w) Sending (seen w) (sent w ++ [e]))
| s_send_closed w : sender w = Idle -> pc w = Panicked ->
    sstep policy Choice w (set_control w (vcpu w) (signals w) Crashed (seen w) (sent w))
| s_kill w : sender w = Sending ->
    sstep policy Control w
      (set_control w (vcpu w) (S (signals w)) (match policy with SendOnly => Idle | _ => Waiting end) (seen w) (sent w))
| s_answer w r : sender w = Waiting -> responses (vcpu w) !! seen w = Some r ->
    sstep policy Choice w (set_control w (vcpu w) (signals w) Idle (S (seen w)) (sent w))
| s_timeout w : policy = AwaitOrGiveUp -> sender w = Waiting ->
    sstep policy Choice w (set_control w (vcpu w) (signals w) Idle (seen w) (sent w))
| s_drop_events w : sender w = Idle ->
    sstep policy Choice w
      (set_control w (mkVcpu (io_bus (vcpu w)) (mmio_bus (vcpu w)) (immediate_exit (vcpu w)) (events (vcpu w)) false
                        (responses (vcpu w)) (responses_open (vcpu w)) (exit_evt (vcpu w))) (signals w) Closing (seen w) (sent w))
| s_drop_responses w : sender w = Closing ->
    sstep policy Choice w
      (set_control w (mkVcpu (io_bus (vcpu w)) (mmio_bus (vcpu w)) (immediate_exit (vcpu w)) (events (vcpu w)) (events_open (vcpu w))
                        (responses (vcpu w)) false (exit_evt (vcpu w))) (signals w) Gone (seen w) (sent w)).

Definition step (policy : Policy) (r : Role) (w w' : World) : Prop := vstep r w w' \/ sstep policy r w w'.

Definition steps (policy : Policy) : World -> World -> Prop := rtc (fun w w' => exists r, step policy r w w').

Definition started (io : Bus.Bus) (mmio : option Bus.Bus) (st : nat -> D) : World :=
  mkWorld (mkVcpu io mmio false [] true [] true 0) st InPaused 0 Idle 0 [] [].

(** ** Leaving *)

Definition is_exited (r : VcpuResponse) : Prop := match r with Exited _ => True | _ => False end.

(** The guest has halted or shut down. *)
Definition guest_stopped (l : list (result Z VcpuExit)) : bool :=
  match l with (Ok Hlt | Ok Shutdown) :: _ => true | _ => false end.

(** What makes the thread leave. *)
Definition fatal (run : result Z VcpuExit) : bool :=
  match run with
  | Ok (IoIn _ _) | Ok (IoOut _ _) | Ok (MmioRead _ _) | Ok (MmioWrite _ _) => false
  | Err e => negb ((e =? EAGAIN) || (e =? EINTR))
  | Ok _ => true
  end.

Definition exit_code (l : list (result Z VcpuExit)) : Z :=
  if guest_stopped l then FC_EXIT_CODE_OK else FC_EXIT_CODE_GENERIC_ERROR.

Definition silent (w : World) : Prop := Forall (fun r => ~ is_exited r) (responses (vcpu w)) /\ exit_evt (vcpu w) = 0.

Definition reported (w : World) (evt : Z) : Prop :=
  exists l, responses (vcpu w) = l ++ [Exited (exit_code (ran w))] /\ Forall (fun r => ~ is_exited r) l /\ exit_evt (vcpu w) = evt.

(** What the place of the thread says of its answers. *)
Definition place_ok (w : World) : Prop :=
  match pc w with
  | InPaused | BeforeRun | InGuest | AfterEintr | AtCheck => silent w /\ guest_stopped (ran w) = false
  | Doing [Respond Paused] AtPaused | Doing [Respond Resumed] AtRunning => silent w /\ guest_stopped (ran w) = false
  | Doing [Respond (Exited code); WriteExitEvt] AtExited => silent w /\ code = exit_code (ran w)
  | Doing [WriteExitEvt] AtExited => reported w 0
  | Doing _ _ => False
  | InExited => reported w (if exit_ok then 1 else 0)
  | Panicked => silent w /\ responses_open (vcpu w) = false
  end.

Record left_ok (w : World) : Prop := {
  lo_place : place_ok w;
  lo_responses : responses_open (vcpu w) = false -> sender w = Gone;
  lo_events : events_open (vcpu w) = false -> sender w = Closing \/ sender w = Gone;
  lo_sender : sender w <> Crashed;
}.

(** What [run_emulation] leaves alone. *)
Lemma run_emulation_frame v st run v' st' d r :
  run_emulation v st run = (v', st', d, r) ->
  v' = set_kvm_immediate_exit v (match run with Err e => if e =? EINTR then false else immediate_exit v
                                 | _ => immediate_exit v end) /\
  (r = Ok Interrupted <-> run = Err EINTR) /\ (r = Ok Stopped <-> guest_stopped [run] = true) /\
  (fatal run = false <-> r = Ok Handled \/ r = Ok Interrupted).
Proof.
  assert (v = set_kvm_immediate_exit v (immediate_exit v)) as Hv by by destruct v.
  unfold run_emulation, fatal. destruct run as [[]|e]; repeat case_match; intros [= <- <- <- <-]; unfold EAGAIN, EINTR in *; zify_bool; subst;
    split_and!; try done; split; try done; try (by intros [?|?]); try (by auto); try (by intros [= ->]); lia.
Qed.

Lemma after_run_place w run : silent w -> place_ok (after_run w run).
Proof.
  intros Hs. unfold after_run. destruct (run_emulation (vcpu w) (devs w) run) as [[[v st] d] r] eqn:E.
  apply run_emulation_frame in E as (-> & _ & Hg & _). unfold place_ok. destruct r as [[]|]; cbn.
  1,2: split; [exact Hs|]; change (guest_stopped [run] = false); apply not_true_iff_false; rewrite <- Hg; done.
  - split; [exact Hs|]. unfold exit_code. change (guest_stopped (run :: ran w)) with (guest_stopped [run]). by rewrite (proj1 Hg).
  - split; [exact Hs|]. unfold exit_code. change (guest_stopped (run :: ran w)) with (guest_stopped [run]).
    destruct (guest_stopped [run]) eqn:Es; [by pose proof (proj2 Hg eq_refl)|done].
Qed.

Lemma act_place w a todo next :
  pc w = Doing (a :: todo) next -> place_ok w ->
  match act (vcpu w) a with
  | Ret v => place_ok (move w v (settle (todo, next))) /\ events_open v = events_open (vcpu w) /\ responses_open v = responses_open (vcpu w)
  | Panic => place_ok (move w (vcpu w) Panicked)
  end.
Proof.
  intros Hp. unfold place_ok at 1. rewrite Hp. destruct a as [[]|].
  - destruct todo; [|done]. destruct next; try done. intros [[Hf Hz] Hr]. cbn. unfold respond. destruct (responses_open _) eqn:Ho; [|by cbn].
    split; [|by cbn]. cbn. split; [|done]. split; cbn; [|done]. apply Forall_app. split; [done|]. constructor; [by intros ?|constructor].
  - destruct todo; [|done]. destruct next; try done. intros [[Hf Hz] Hr]. cbn. unfold respond. destruct (responses_open _) eqn:Ho; [|by cbn].
    split; [|by cbn]. cbn. split; [|done]. split; cbn; [|done]. apply Forall_app. split; [done|]. constructor; [by intros ?|constructor].
  - destruct todo as [|[] []]; try done. destruct next; try done. intros [[Hf Hz] ->]. cbn. unfold respond.
    destruct (responses_open _) eqn:Ho; [|by cbn]. split; [|by cbn]. cbn. by exists (responses (vcpu w)).
  - destruct todo; [|done]. destruct next; try done. intros (l & Hl & Hf & Hz). cbn. split; [|done]. exists l. cbn.
    split; [done|]. split; [done|]. rewrite Hz. by destruct exit_ok.
Qed.

Lemma check_place w v p :
  place_ok w -> pc w = AtCheck -> check_events (vcpu w) = (v, p) ->
  place_ok (move w v (settle p)) /\ events_open v = events_open (vcpu w) /\ responses_open v = responses_open (vcpu w).
Proof.
  unfold place_ok at 1. intros Hw Hp. rewrite Hp in Hw. destruct Hw as [Hs Hg]. unfold check_events.
  destruct (events (vcpu w)) as [|[] l]; [destruct (events_open (vcpu w)) eqn:Eo|..]; intros [= <- <-]; cbn; rewrite ?Eo; try done.
  split; [|done]. split; [exact Hs|]. unfold exit_code. by rewrite Hg.
Qed.

Lemma paused_place w v p :
  place_ok w -> pc w = InPaused -> paused (vcpu w) = Some (v, p) ->
  place_ok (move w v (settle p)) /\ events_open v = events_open (vcpu w) /\ responses_open v = responses_open (vcpu w).
Proof.
  unfold place_ok at 1. intros Hw Hp. rewrite Hp in Hw. destruct Hw as [Hs Hg]. unfold paused.
  destruct (events (vcpu w)) as [|[] l]; [destruct (events_open (vcpu w)) eqn:Eo; [done|]|..]; intros [= <- <-]; cbn; rewrite ?Eo; try done.
  split; [|done]. split; [exact Hs|]. unfold exit_code. by rewrite Hg.
Qed.

Lemma after_run_left_ok w run : silent w -> left_ok w -> left_ok (after_run w run).
Proof.
  intros Hs [_ Hr He Hc]. split; [by apply after_run_place|..]; unfold after_run;
    destruct (run_emulation (vcpu w) (devs w) run) as [[[v st] d] r] eqn:E; apply run_emulation_frame in E as (-> & _); cbn; done.
Qed.

Lemma step_left_ok policy r w w' : left_ok w -> step policy r w w' -> left_ok w'.
Proof.
  intros Hw Hs. pose proof Hw as [Hp Hr He Hc]. destruct Hs as [Hs|Hs].
  - destruct Hs as [w v p E1 E2|w E1 E2|w E1 E2|w run E1 E2|w E1|w v p E1 E2|w a todo next v E1 E2|w a todo next E1 E2|w n E1].
    + destruct (paused_place w v p) as (Hv & E3 & E4); [done..|]. by split; cbn; rewrite ?E3, ?E4.
    + split; try done. unfold place_ok in *. by rewrite E1 in Hp.
    + split; try done. unfold place_ok in *. by rewrite E1 in Hp.
    + apply after_run_left_ok; [|done]. unfold place_ok in Hp. rewrite E1 in Hp. apply Hp.
    + apply after_run_left_ok; [|done]. unfold place_ok in Hp. rewrite E1 in Hp. apply Hp.
    + destruct (check_place w v p) as (Hv & E3 & E4); [done..|]. by split; cbn; rewrite ?E3, ?E4.
    + pose proof (act_place w a todo next E1 Hp) as Ha. rewrite E2 in Ha. destruct Ha as (Hv & E3 & E4). by split; cbn; rewrite ?E3, ?E4.
    + pose proof (act_place w a todo next E1 Hp) as Ha. rewrite E2 in Ha. by split.
    + split; cbn; try done. unfold place_ok in *. cbn. by destruct (pc w) as [| | | | | [|[[]|] [|[] []]] [] | |].
  - destruct Hs as [w e E1 E2|w E1 E2|w E1|w x E1 E2|w E1 E2|w E1|w E1]; split; cbn; try done; rewrite ?E1 in *.
    all: try (intros Ho; by (specialize (Hr Ho) || specialize (He Ho); destruct He)).
    all: try (unfold place_ok in *; by destruct (pc w)).
    + unfold place_ok in Hp. rewrite E2 in Hp. by specialize (Hr (proj2 Hp)).
    + by destruct policy.
    + rewrite E2 in Hr. intros Ho. by specialize (Hr Ho).
    + rewrite E2 in He. intros Ho. by destruct (He Ho).
    + by left.
    + unfold place_ok in *. cbn. destruct (pc w); first [exact Hp|by destruct Hp].
    + by right.
Qed.



(** ** Every event is taken once, in order, and answered

    The documented machine of two states: what an event does and what answer it
    gets. *)
Definition react (s : State) (e : VcpuEvent) : State * list VcpuResponse :=
  match s, e with
  | AtPaused, Pause => (AtPaused, [])
  | AtPaused, Resume | AtRunning, Resume => (AtRunning, [Resumed])
  | AtRunning, Pause => (AtPaused, [Paused])
  | AtExited, _ => (AtExited, [])
  end.

Fixpoint reacts (s : State) (es : list VcpuEvent) : State * list VcpuResponse :=
  match es with [] => (s, []) | e :: es => let '(s, r) := react s e in let '(s', rs) := reacts s es in (s', r ++ rs) end.

Lemma reacts_snoc s es e : reacts s (es ++ [e]) =
  ((react (reacts s es).1 e).1, (reacts s es).2 ++ (react (reacts s es).1 e).2).
Proof.
  revert s. induction es as [|e' es IH]; intros s; cbn; [by destruct (react s e); rewrite app_nil_r|].
  destruct (react s e') as [s' r]. rewrite IH. destruct (reacts s' es) as [s'' rs]. cbn. by rewrite app_assoc.
Qed.

(** The answer that is about to be sent. *)
Definition in_flight (p : Pc) : list VcpuResponse := match p with Doing (Respond r :: _) _ => [r] | _ => [] end.

(** The state the thread is in, between its exit and the others. *)
Definition going (p : Pc) : option State :=
  match p with
  | InPaused => Some AtPaused
  | BeforeRun | InGuest | AfterEintr | AtCheck => Some AtRunning
  | Doing _ AtPaused => Some AtPaused | Doing _ AtRunning => Some AtRunning
  | Doing _ AtExited | InExited | Panicked => None
  end.

(** The events taken so far have been answered as the machine says. *)
Definition answered_so_far (w : World) : Prop :=
  forall s, going (pc w) = Some s ->
  exists taken, sent w = taken ++ events (vcpu w) /\ reacts AtPaused taken = (s, responses (vcpu w) ++ in_flight (pc w)).

Lemma after_run_answered w run : going (pc w) = Some AtRunning -> in_flight (pc w) = [] -> answered_so_far w -> answered_so_far (after_run w run).
Proof.
  intros Hp Hi Ha. destruct (Ha _ Hp) as (t & Ht & Hr). rewrite Hi in Hr. unfold after_run.
  destruct (run_emulation (vcpu w) (devs w) run) as [[[v st] d] r] eqn:E. apply run_emulation_frame in E as (-> & _).
  intros s Hg. exists t. split; [done|]. cbn in *. destruct r as [[]|]; cbn in *; try done; by injection Hg as <-.
Qed.

Lemma step_answered policy r w w' : left_ok w -> answered_so_far w -> step policy r w w' -> answered_so_far w'.
Proof.
  intros Hl Ha [Hs|Hs].
  - destruct Hs as [w v p E1 E2|w E1 E2|w E1 E2|w run E1 E2|w E1|w v p E1 E2|w a todo next v E1 E2|w a todo next E1 E2|w n E1].
    + destruct (Ha AtPaused) as (t & Ht & Hr); [by rewrite E1|]. rewrite E1 in Hr. unfold paused in E2.
      destruct (events (vcpu w)) as [|e l] eqn:El; [destruct (events_open (vcpu w)); [done|]; by injection E2 as <- <-|].
      intros s Hg. exists (t ++ [e]). destruct e; injection E2 as <- <-; cbn in *; injection Hg as <-; rewrite reacts_snoc, Hr, Ht, <- app_assoc; cbn;
        by rewrite ?app_nil_r.
    + intros s Hg. destruct (Ha s) as (t & Ht & Hr); [by rewrite E1|]. rewrite E1 in Hr. by exists t.
    + intros s Hg. destruct (Ha s) as (t & Ht & Hr); [by rewrite E1|]. rewrite E1 in Hr. by exists t.
    + apply after_run_answered; by rewrite ?E1.
    + apply after_run_answered; by rewrite ?E1.
    + destruct (Ha AtRunning) as (t & Ht & Hr); [by rewrite E1|]. rewrite E1 in Hr. unfold check_events in E2.
      destruct (events (vcpu w)) as [|e l] eqn:El.
      * destruct (events_open (vcpu w)); injection E2 as <- <-; intros s Hg; [|done]. injection Hg as <-. exists t. cbn. by rewrite El.
      * intros s Hg. exists (t ++ [e]). destruct e; injection E2 as <- <-; cbn in *; injection Hg as <-;
          rewrite reacts_snoc, Hr, Ht, <- app_assoc; cbn; by rewrite ?app_nil_r.
    + pose proof (lo_place _ Hl) as Hp. unfold place_ok in Hp. rewrite E1 in Hp. intros s Hg.
      assert (going (pc w) = Some s) as Hg' by (rewrite E1; destruct a as [[]|], todo as [|[] []], next; done).
      destruct (Ha _ Hg') as (t & Ht & Hr). rewrite E1 in Hr. exists t.
      destruct a as [[]|], todo as [|[] []], next; try done; cbn in E2; unfold respond in E2; destruct (responses_open (vcpu w)); try done;
        injection E2 as <-; cbn in *; by rewrite app_nil_r.
    + done.
    + intros s Hg. destruct (Ha s) as (t & Ht & Hr); [by destruct (pc w)|]. exists t. split; [done|]. by destruct (pc w).
  - destruct Hs as [w e E1 E2|w E1 E2|w E1|w x E1 E2|w E1 E2|w E1|w E1]; intros s Hg; destruct (Ha s Hg) as (t & Ht & Hr); exists t; split; cbn; try done.
    by rewrite Ht, app_assoc.
Qed.

(** ** No event is overlooked *)

Definition busy (s : Sender) : nat := match s with Sending | Waiting => 1 | _ => 0 end.

(** At most one event is outstanding, and while it is and the thread runs the
    guest, something is under way that stops the guest. *)
Record kick_ok (w : World) : Prop := {
  ko_count : going (pc w) <> None ->
    (seen w <= length (responses (vcpu w)))%nat /\
    (length (events (vcpu w)) + length (in_flight (pc w)) + length (responses (vcpu w)) <= seen w + busy (sender w))%nat;
  ko_guest : pc w = InGuest -> immediate_exit (vcpu w) = false;
  ko_kick : events (vcpu w) <> [] -> pc w = BeforeRun \/ pc w = InGuest ->
    immediate_exit (vcpu w) = true \/ (0 < signals w)%nat \/ sender w = Sending;
}.

Lemma after_run_kick_ok w run :
  kick_ok w -> going (pc w) = Some AtRunning -> in_flight (pc w) = [] -> (pc w = InGuest <-> run <> Err EINTR) -> kick_ok (after_run w run).
Proof.
  intros [Hc Hg Hk] Hp Hi Hrun. unfold after_run. destruct (run_emulation (vcpu w) (devs w) run) as [[[v st] d] r] eqn:E.
  apply run_emulation_frame in E as (-> & Hr & _ & _). set (b := match run with Ok _ => _ | Err e => _ end).
  assert (run <> Err EINTR -> b = immediate_exit (vcpu w)) as Hb.
  { intros Hn. unfold b. destruct run as [|e]; [done|]. destruct (Z.eqb_spec e EINTR); [congruence|done]. }
  rewrite Hp, Hi in Hc. specialize (Hc ltac:(done)). destruct r as [[]|]; split; cbn; try done; try by intros _ [?|?].
  assert (run <> Err EINTR) as Hn by (intros ?; assert (Ok (E := Error) Handled = Ok Interrupted) by (by apply Hr); done).
  intros He _. rewrite Hb by done. apply Hk; [done|]. right. by apply Hrun.
Qed.

Lemma step_kick_ok r w w' : left_ok w -> kick_ok w -> step AwaitAnswer r w w' -> kick_ok w'.
Proof.
  intros Hl Hw [Hs|Hs].
  - pose proof Hw as [Hc Hg Hk].
    destruct Hs as [w v p E1 E2|w E1 E2|w E1 E2|w run E1 E2|w E1|w v p E1 E2|w a todo next v E1 E2|w a todo next E1 E2|w n E1].
    + rewrite E1 in Hc. specialize (Hc ltac:(done)). unfold paused in E2.
      destruct (events (vcpu w)) as [|[] l] eqn:El; [destruct (events_open (vcpu w)); [done|]|..]; injection E2 as <- <-; split; cbn in *;
        try done; try (by intros _ [?|?]); lia.
    + rewrite E1 in Hc, Hk. split; cbn; [by intros _; apply Hc|done|]. intros Hn _. apply Hk; [done|by left].
    + rewrite E1 in Hc. split; cbn; [by intros _; apply Hc|done|by intros _ [?|?]].
    + apply after_run_kick_ok; by rewrite ?E1.
    + apply after_run_kick_ok; by rewrite ?E1.
    + rewrite E1 in Hc. specialize (Hc ltac:(done)). unfold check_events in E2.
      destruct (events (vcpu w)) as [|[] l] eqn:El; [destruct (events_open (vcpu w))|..]; injection E2 as <- <-; split; cbn in *;
        rewrite ?El; try done; try (by intros _ [?|?]); lia.
    + pose proof (lo_place _ Hl) as Hp. unfold place_ok in Hp. rewrite E1 in Hp, Hc.
      destruct a as [[]|], todo as [|[] []], next; try done; cbn in E2; unfold respond in E2; destruct (responses_open (vcpu w)); try done;
        injection E2 as <-; cbn in *; try specialize (Hc ltac:(done)); split; cbn; rewrite ?length_app; cbn; try done; try (by intros _ [?|?]); try lia.
      intros He _. destruct (events (vcpu w)); [done|]. cbn in Hc. destruct (sender w); cbn in Hc; lia.
    + by split; cbn; try intros _ [?|?].
    + split; cbn; [by destruct (pc w)|by destruct (pc w)|by left].
  - destruct Hw as [Hc Hg Hk]. destruct Hs as [w e E1 E2|w E1 E2|w E1|w x E1 E2|w E1 E2|w E1|w E1]; rewrite ?E1 in *; split; cbn in *; try done.
    + rewrite length_app. cbn. intros Hp. specialize (Hc Hp). lia.
    + by right; right.
    + rewrite E2. by intros _ [?|?].
    + right. left. lia.
    + intros Hp. specialize (Hc Hp). apply lookup_lt_Some in E2. lia.
    + intros Hn Hp. destruct (Hk Hn Hp) as [?|[?|?]]; [by left|by right; left|done].
    + intros Hn Hp. destruct (Hk Hn Hp) as [?|[?|?]]; [by left|by right; left|done].
    + intros Hn Hp. destruct (Hk Hn Hp) as [?|[?|?]]; [by left|by right; left|done].
Qed.

Record sound (w : World) : Prop := { so_left : left_ok w; so_answered : answered_so_far w; so_kick : kick_ok w }.

Lemma started_sound io mmio st : sound (started io mmio st).
Proof.
  split; [split; cbn; try done; by repeat split; constructor| |split; cbn; [lia|done|done]].
  intros s [= <-]. by exists [].
Qed.

Lemma step_sound r w w' : step AwaitAnswer r w w' -> sound w -> sound w'.
Proof. intros Hs [H1 H2 H3]. split; [by eapply step_left_ok|by eapply step_answered|by eapply step_kick_ok]. Qed.

(** An event waits in the channel or is taken and not answered yet. *)
Definition owing (l : list VcpuEvent) (w : World) : Prop :=
  sound w /\ going (pc w) <> None /\ sent w = l /\ (events (vcpu w) <> [] \/ in_flight (pc w) <> []).

(** All of [l] is taken and answered as the machine says, and the processor is
    in the state that follows; or it has begun to leave. *)
Definition caught_up (l : list VcpuEvent) (w : World) : Prop :=
  sent w = l /\ events (vcpu w) = [] /\ pc w = goto (reacts AtPaused l).1 /\ responses (vcpu w) = (reacts AtPaused l).2.

Definition leaving (w : World) : Prop :=
  pc w = Doing (exit (exit_code (ran w))).1 AtExited /\ exists run l, ran w = run :: l /\ fatal run = true.

(** How far the processor is from its answer, and who has to move. *)
Definition distance (w : World) : nat :=
  match pc w with
  | Doing _ _ => 1
  | InPaused | AtCheck => 2
  | AfterEintr => 3
  | BeforeRun => if immediate_exit (vcpu w) then 4 else if decide (signals w = 0)%nat then 6 else 5
  | InGuest => if decide (signals w = 0)%nat then 6 else 5
  | InExited | Panicked => 0
  end.

Definition mover (n : nat) : Role := match n with 6%nat => Control | 5%nat => Signal | _ => Cpu end.

Lemma owing_busy l w : owing l w -> busy (sender w) = 1%nat /\ responses_open (vcpu w) = true /\
  (length (events (vcpu w)) + length (in_flight (pc w)) = 1)%nat /\ responses (vcpu w) !! seen w = None.
Proof.
  intros ([Hl _ [Hc _ _]] & Hg & _ & Hn). destruct (Hc Hg) as [H1 H2].
  assert (1 <= length (events (vcpu w)) + length (in_flight (pc w)))%nat as H3.
  { destruct Hn as [Hn|Hn]; [destruct (events (vcpu w))|destruct (in_flight (pc w))]; cbn; try done; lia. }
  assert (busy (sender w) <= 1)%nat by (destruct (sender w); cbn; lia).
  split; [lia|]. split; [|split; [lia|apply lookup_ge_None; lia]].
  destruct (responses_open (vcpu w)) eqn:E; [done|]. rewrite (lo_responses _ Hl E) in H2. cbn in H2. lia.
Qed.

Lemma sound_caught_up l w :
  sound w -> sent w = l -> events (vcpu w) = [] -> (exists s, going (pc w) = Some s /\ pc w = goto s) -> caught_up l w.
Proof.
  intros [_ Ha _] Hl He (s & Hg & Hp). destruct (Ha s Hg) as (t & Ht & Hr). rewrite He, app_nil_r in Ht.
  assert (in_flight (pc w) = []) as Hi by (rewrite Hp; by destruct s). rewrite Hi, app_nil_r in Hr.
  unfold caught_up. rewrite <- Hl, Ht, Hr. done.
Qed.

Lemma owing_place l w : owing l w -> exists s, going (pc w) = Some s /\
  (in_flight (pc w) = [] /\ (exists e, events (vcpu w) = [e]) /\ pc w <> Panicked /\ (forall todo next, pc w <> Doing todo next) \/
   exists r, pc w = Doing [Respond r] s /\ events (vcpu w) = [] /\ s <> AtExited).
Proof.
  intros Hw. pose proof (owing_busy _ _ Hw) as (_ & _ & Hn & _). destruct Hw as ([Hl _ _] & Hg & _ & _).
  pose proof (lo_place _ Hl) as Hp. unfold place_ok in Hp. destruct (pc w) as [| | | | |[|[[]|] [|[] []]] []| |] eqn:Epc; try done; cbn in *.
  all: eexists; split; [done|]; destruct (events (vcpu w)) as [|e [|]]; cbn in Hn; try lia.
  all: first [left; by eauto|right; by eauto].
Qed.

(** Each step answers, or brings the answer nearer, or leaves the distance and
    is not the step of the one who has to move. *)
Lemma owing_step l r w w' :
  owing l w -> step AwaitAnswer r w w' ->
  (caught_up l w' \/ leaving w') \/ owing l w' /\ (distance w' < distance w \/ distance w' = distance w /\ r <> mover (distance w))%nat.
Proof.
  intros Hw Hs. pose proof (owing_busy _ _ Hw) as (Hb & Ho & Hn & Hx). pose proof (owing_place _ _ Hw) as (s & Hgs & Hpl).
  pose proof Hw as (Hsd & Hg & Hl & Hev). pose proof (step_sound _ _ _ Hs Hsd) as Hsd'.
  pose proof (lo_place _ (so_left _ Hsd)) as Hpk. pose proof (lo_place _ (so_left _ Hsd')) as Hpk'.
  destruct Hs as [Hs|Hs].
  - destruct Hs as [w v p E1 E2|w E1 E2|w E1 E2|w run E1 E2|w E1|w v p E1 E2|w a todo next v E1 E2|w a todo next E1 E2|w n E1].
    + destruct Hpl as [(_ & (e & He) & _ & _)|(x & Hd & _)]; [|congruence]. unfold paused in E2. rewrite He in E2.
      destruct e; injection E2 as <- <-.
      * left. left. apply sound_caught_up; [done|done|done|]. by exists AtPaused.
      * right. split; [|left; unfold distance; rewrite E1; cbn; lia]. split; [done|]. split; [done|]. split; [done|]. by right.
    + right. split; [|right]. { split; [done|]. split; [done|]. split; [done|]. left. rewrite E1 in Hev. by destruct Hev. }
      unfold distance. rewrite E1. cbn. rewrite E2. by destruct (decide (signals w = 0)%nat).
    + right. split; [|left]. { split; [done|]. split; [done|]. split; [done|]. left. rewrite E1 in Hev. by destruct Hev. }
      unfold distance. rewrite E1. cbn. rewrite E2. lia.
    + rewrite E1 in Hev. destruct Hev as [Hev|]; [|done]. revert Hsd' Hpk'. unfold after_run.
      destruct (run_emulation (vcpu w) (devs w) run) as [[[v st] d] x] eqn:E. apply run_emulation_frame in E as (-> & Hi & _ & Hf).
      intros Hsd' Hpk'. destruct x as [[]|].
      * right. split; [split; [done|]; split; [done|]; split; [done|]; by left|]. right. split; [|unfold distance; rewrite E1; by destruct (decide _)].
        unfold distance. rewrite E1. cbn.
        assert (run <> Err EINTR) as Hn' by done. destruct run as [|e]; [|destruct (Z.eqb_spec e EINTR); [congruence|]];
          rewrite (ko_guest _ (so_kick _ Hsd) E1); by destruct (decide _).
      * by destruct (proj1 Hi eq_refl).
      * left. right. split; [|exists run, (ran w); split; [done|]; destruct (fatal run); [done|]; by destruct (proj1 Hf eq_refl)].
        cbn. cbn in Hpk'. by destruct Hpk' as [_ ->].
      * left. right. split; [|exists run, (ran w); split; [done|]; destruct (fatal run); [done|]; by destruct (proj1 Hf eq_refl)].
        cbn. cbn in Hpk'. by destruct Hpk' as [_ ->].
    + rewrite E1 in Hev. destruct Hev as [Hev|]; [|done]. revert Hsd' Hpk'. unfold after_run.
      destruct (run_emulation (vcpu w) (devs w) (Err EINTR)) as [[[v st] d] x] eqn:E. apply run_emulation_frame in E as (-> & Hi & _ & Hf).
      rewrite (proj2 Hi eq_refl). intros Hsd' Hpk'. right. split; [split; [done|]; split; [done|]; split; [done|]; by left|].
      left. unfold distance. rewrite E1. cbn. lia.
    + destruct Hpl as [(_ & (e & He) & _ & _)|(x & Hd & _)]; [|congruence]. unfold check_events in E2. rewrite He in E2.
      right. destruct e; injection E2 as <- <-.
      all: split; [split; [done|]; split; [done|]; split; [done|]; by right|]; left; unfold distance; rewrite E1; cbn; lia.
    + destruct Hpl as [(_ & _ & _ & Hd)|(x & Hd & He & Hs)]; [by destruct (Hd _ _ E1)|]. rewrite E1 in Hd. injection Hd as -> -> ->.
      left. left. cbn in E2. unfold respond in E2. rewrite Ho in E2. injection E2 as <-. apply sound_caught_up; [done|done|done|].
      exists s. split; [|done]. by destruct s.
    + destruct Hpl as [(_ & _ & _ & Hd)|(x & Hd & He & Hs)]; [by destruct (Hd _ _ E1)|]. rewrite E1 in Hd. injection Hd as -> -> ->.
      cbn in E2. unfold respond in E2. by rewrite Ho in E2.
    + right. split.
      * split; [done|]. cbn. split; [by destruct (pc w)|]. split; [done|]. destruct Hev as [Hev|Hev]; [by left|right]. by destruct (pc w).
      * unfold distance. cbn. rewrite E1. destruct (decide (S n = 0)%nat); [lia|].
        destruct (pc w); cbn; try (by right); [destruct (immediate_exit (vcpu w)); [by right|left; lia]|left; lia].
  - destruct Hs as [w e E1 E2|w E1 E2|w E1|w x E1 E2|w E1 E2|w E1|w E1]; try (rewrite E1 in Hb; done); try congruence.
    right. split; [split; [done|]; by split|]. unfold distance. cbn. destruct (decide (S (signals w) = 0)%nat); [lia|]. destruct (pc w); try (by right).
    + destruct (immediate_exit (vcpu w)); [by right|]. destruct (decide (signals w = 0)%nat); [left; lia|by right].
    + destruct (decide (signals w = 0)%nat); [left; lia|by right].
Qed.

Lemma owing_enabled l w : owing l w -> exists w', step AwaitAnswer (mover (distance w)) w w'.
Proof.
  intros Hw. pose proof (owing_busy _ _ Hw) as (Hb & Ho & Hn & Hx). pose proof (owing_place _ _ Hw) as (s & Hgs & Hpl).
  destruct Hpl as [(_ & (e & He) & Hnp & Hnd)|(r & Hd & _)].
  - destruct Hw as (Hsd & Hg & _ & _). unfold distance. destruct (pc w) eqn:Ep; try done.
    + destruct (paused (vcpu w)) as [[v p]|] eqn:E; [eexists; left; by eapply v_paused|]. unfold paused in E. rewrite He in E. by destruct e.
    + destruct (immediate_exit (vcpu w)) eqn:Ei; [eexists; left; by apply v_refused|]. destruct (decide (signals w = 0)%nat) as [Hz|Hz].
      * destruct (ko_kick _ (so_kick _ Hsd)) as [?|[?|?]]; [by rewrite He|by left|congruence|lia|]. eexists. right. by apply s_kill.
      * destruct (signals w) as [|n] eqn:En; [done|]. eexists. left. by eapply v_signal.
    + destruct (decide (signals w = 0)%nat) as [Hz|Hz].
      * destruct (ko_kick _ (so_kick _ Hsd)) as [Hi|[?|?]]; [by rewrite He|by right| |lia|].
        { by rewrite (ko_guest _ (so_kick _ Hsd) Ep) in Hi. }
        eexists. right. by apply s_kill.
      * destruct (signals w) as [|n] eqn:En; [done|]. eexists. left. by eapply v_signal.
    + eexists. left. by apply v_eintr.
    + destruct (check_events (vcpu w)) as [v p] eqn:E. eexists. left. by eapply v_check.
    + by destruct (Hnd todo next).
  - unfold distance. rewrite Hd. eexists. left. eapply v_act; [done|]. cbn. unfold respond. by rewrite Ho.
Qed.

(** An execution of the threads: at each moment one of them takes a step or
    nothing happens. *)
Definition execution (tr : nat -> World) : Prop :=
  forall n, tr (S n) = tr n \/ exists r, step AwaitAnswer r (tr n) (tr (S n)).

(** Who can move for ever does move. *)
Definition fair (tr : nat -> World) (r : Role) : Prop :=
  forall n, exists m, (n <= m)%nat /\ (step AwaitAnswer r (tr m) (tr (S m)) \/ ~ exists w', step AwaitAnswer r (tr m) w').

Lemma execution_sound tr io mmio st n : tr 0%nat = started io mmio st -> execution tr -> sound (tr n).
Proof.
  intros H0 Ht. induction n as [|n IH]; [rewrite H0; apply started_sound|].
  destruct (Ht n) as [-> |[r Hs]]; [done|]. by eapply step_sound.
Qed.

(** C36. No event is lost or overlooked, in every execution with a controlling
    thread that waits for each answer before it goes on.  At every moment the
    events sent are those taken, in order, followed by those in the channel,
    and the answers so far are those the machine of paused and running gives to
    the events taken.  If the processor thread outside the guest, the delivery
    of signals and [send_event] do not stall for ever, an event in the channel
    is answered sooner or later, however long the guest would have run, and the
    processor is then paused or running as the event says; or the thread has
    begun to leave in the meantime, since the guest has halted or failed. *)
Theorem event_answered tr io mmio st n :
  tr 0%nat = started io mmio st -> execution tr -> fair tr Cpu -> fair tr Signal -> fair tr Control ->
  answered_so_far (tr n) /\
  (going (pc (tr n)) <> None -> events (vcpu (tr n)) <> [] ->
   exists m, (n <= m)%nat /\ (caught_up (sent (tr n)) (tr m) \/ leaving (tr m))).
Proof.
  intros H0 Ht F1 F2 F3. pose proof (execution_sound tr io mmio st n H0 Ht) as Hn. split; [by apply Hn|]. intros Hg He.
  apply (leads_to (step AwaitAnswer) mover tr (owing (sent (tr n))) (fun w => caught_up (sent (tr n)) w \/ leaving w) distance).
  - exact Ht.
  - intros k. destruct k as [|[|[|[|[|[|[|k]]]]]]]; done.
  - intros k r. apply owing_step.
  - intros k. apply owing_enabled.
  - split; [done|]. split; [done|]. split; [done|by left].
Qed.

(** Without waiting, two signals can be delivered before the thread looks at
    its channel, which it does once per interruption: the second event is then
    in the channel of a processor in the guest with nothing to wake it. *)
Ltac hop tac := eapply rtc_l; [eexists; tac|]; cbn.

Lemma second_event_overlooked io mmio st :
  exists w, steps SendOnly (started io mmio st) w /\
    pc w = InGuest /\ events (vcpu w) = [Pause] /\ signals w = 0%nat /\ immediate_exit (vcpu w) = false /\
    sender w = Idle.
Proof.
  eexists. split.
  - unfold steps, started.
    hop ltac:(right; by apply (s_send SendOnly _ Resume)). hop ltac:(right; by apply s_kill).
    hop ltac:(left; by eapply v_signal). hop ltac:(left; by eapply v_paused). hop ltac:(left; by eapply v_act).
    hop ltac:(left; by eapply v_refused). hop ltac:(left; by eapply v_eintr).
    hop ltac:(left; by eapply v_check). hop ltac:(left; by eapply v_enter).
    hop ltac:(right; by apply (s_send SendOnly _ Resume)). hop ltac:(right; by apply s_kill).
    hop ltac:(right; by apply (s_send SendOnly _ Pause)). hop ltac:(right; by apply s_kill).
    hop ltac:(left; by eapply v_signal). hop ltac:(left; by eapply v_signal).
    hop ltac:(left; by eapply v_eintr). hop ltac:(left; by eapply v_check). hop ltac:(left; by eapply v_act).
    hop ltac:(left; by eapply v_enter). apply rtc_refl.
  - done.
Qed.

(** When the controlling side drops its handle, the end that takes the answers
    goes with it: the path for that case panics instead of leaving. *)
Lemma disconnected_panics policy io mmio st :
  exists w, steps policy (started io mmio st) w /\ pc w = Panicked /\ exit_evt (vcpu w) = 0.
Proof.
  eexists. split.
  - unfold steps, started.
    hop ltac:(right; by apply s_drop_events). hop ltac:(right; by apply s_drop_responses).
    hop ltac:(left; by eapply v_paused). hop ltac:(left; by eapply v_panic). apply rtc_refl.
  - done.
Qed.

(** With nothing in between, the steps of the thread are the function. *)
Lemma running_steps policy w runs v p st :
  pc w = BeforeRun -> immediate_exit (vcpu w) = false -> Forall (fun r => r <> Err EINTR) runs ->
  running (vcpu w) (devs w) runs = Some (v, p, st) ->
  exists w', steps policy w w' /\ vcpu w' = v /\ devs w' = st /\ pc w' = settle p.
Proof.
  revert w. induction runs as [|run runs IH]; intros w Hp Hi Hf; [done|]. inversion Hf as [|? ? Hr Hf']; subst. cbn.
  destruct (run_emulation (vcpu w) (devs w) run) as [[[v1 st1] d] x] eqn:E. pose proof E as E'. apply run_emulation_frame in E' as (-> & Hx & _ & _).
  intros Hrun. set (w1 := move w (vcpu w) InGuest).
  assert (steps policy w (after_run w1 run)) as H1.
  { eapply rtc_l; [eexists; left; by apply v_enter|]. apply rtc_once. eexists. left. by apply v_return. }
  assert (vcpu (after_run w1 run) = set_kvm_immediate_exit (vcpu w) (match run with Err e => if e =? EINTR then false else immediate_exit (vcpu w) | _ => immediate_exit (vcpu w) end) /\ devs (after_run w1 run) = st1) as [Hv1 Hd1]
    by (unfold after_run; cbn; by rewrite E).
  destruct x as [[]|].
  - destruct (IH (after_run w1 run)) as (w' & H2 & H3); [..|exists w'; split; [by etransitivity|done]]; rewrite ?Hv1, ?Hd1; try done.
    + unfold after_run. cbn. by rewrite E.
    + cbn. destruct run as [|e]; [done|]. by destruct (e =? EINTR).
  - by destruct (proj1 Hx eq_refl).
  - exists (after_run w1 run). injection Hrun as <- <- <-. split; [done|]. split; [done|]. split; [done|]. unfold after_run. cbn. by rewrite E.
  - exists (after_run w1 run). injection Hrun as <- <- <-. split; [done|]. split; [done|]. split; [done|]. unfold after_run. cbn. by rewrite E.
Qed.

(** ** Device accesses *)

(** A device access of the guest reaches the device that owns the address
    on the right bus, at the offset from the device's base, and no other; an
    access nobody owns changes nothing and returns the buffer as it was; either
    way the guest goes on. *)
Theorem exit_dispatched v st b addr data :
  Bus.bus_ok b -> mmio_bus v = Some b ->
  exists st1 st2 d,
    run_emulation v st (Ok (MmioWrite addr data)) = (v, st1, [], Ok Handled) /\
    run_emulation v st (Ok (MmioRead addr data)) = (v, st2, d, Ok Handled) /\
    (forall x, x ∈ b -> Bus.covers x addr ->
       st1 = <[x.2 := Bus.bd_write (st x.2) 0 (addr - Bus.r_start x.1) data]> st /\
       (st2, d) = (<[x.2 := (Bus.bd_read (st x.2) 0 (addr - Bus.r_start x.1) data).1]> st,
                   (Bus.bd_read (st x.2) 0 (addr - Bus.r_start x.1) data).2)) /\
    ((forall x, x ∈ b -> ~ Bus.covers x addr) -> st1 = st /\ st2 = st /\ d = data).
Proof.
  intros Hok Hb. unfold run_emulation. rewrite Hb. unfold Bus.write, Bus.read.
  destruct (Bus.get_device b addr) as [[off h]|] eqn:E.
  - apply Bus.get_device_covers in E as (x & Hx & Hc & -> & ->); [|done].
    destruct (Bus.bd_read (st x.2) 0 (addr - Bus.r_start x.1) data) as [d' out] eqn:Er.
    do 3 eexists. split; [done|]. split; [done|]. split.
    + intros y Hy Hcy. assert (y = x) as -> by (by eapply Bus.bus_ok_disjoint). by rewrite Er.
    + intros Hno. by destruct (Hno x Hx).
  - rewrite Bus.get_device_None in E by done. do 3 eexists. split; [done|]. split; [done|]. split; [|done].
    intros x Hx Hc. by destruct (E x Hx).
Qed.
End devices.

(** ** Witnesses: no devices; a processor that is resumed and answers *)

#[local] Instance unit_device : Bus.BusDevice unit :=
  {| Bus.bd_read d _ _ data := (d, data); Bus.bd_write d _ _ _ := d |}.

Definition demo_start : World (D := unit) := started [] None (fun _ => tt).

Definition demo_world (imm : bool) (es : list VcpuEvent) (rs : list VcpuResponse) (p : Pc) (n : nat) (s : Sender) (k : nat)
    (sn : list VcpuEvent) (rn : list (result Z VcpuExit)) : World (D := unit) :=
  mkWorld (mkVcpu [] None imm es true rs true 0) (fun _ => tt) p n s k sn rn.

(** The processor is resumed, the controlling thread reads the answer, the
    signal finds the processor before it enters the guest, and there it stays. *)
Definition demo_list : list (World (D := unit)) :=
  [ demo_start;
    demo_world false [Resume] [] InPaused 0 Sending 0 [Resume] [];
    demo_world false [Resume] [] InPaused 1 Waiting 0 [Resume] [];
    demo_world false [] [] (Doing [Respond Resumed] AtRunning) 1 Waiting 0 [Resume] [];
    demo_world false [] [Resumed] BeforeRun 1 Waiting 0 [Resume] [];
    demo_world false [] [Resumed] BeforeRun 1 Idle 1 [Resume] [];
    demo_world true [] [Resumed] BeforeRun 0 Idle 1 [Resume] [];
    demo_world true [] [Resumed] AfterEintr 0 Idle 1 [Resume] [];
    demo_world false [] [Resumed] AtCheck 0 Idle 1 [Resume] [Err EINTR];
    demo_world false [] [Resumed] BeforeRun 0 Idle 1 [Resume] [Err EINTR] ].

Definition demo_end : World (D := unit) := demo_world false [] [Resumed] InGuest 0 Idle 1 [Resume] [Err EINTR].

Definition demo_trace (n : nat) : World (D := unit) := nth n demo_list demo_end.

Lemma demo_trace_end n : (10 <= n)%nat -> demo_trace n = demo_end.
Proof. intros Hn. unfold demo_trace. apply nth_overflow. cbn. lia. Qed.

Lemma demo_execution : execution true demo_trace.
Proof.
  intros n. destruct (decide (10 <= n)%nat) as [Hn|Hn]; [left; rewrite !demo_trace_end by lia; done|right].
  destruct n as [|[|[|[|[|[|[|[|[|[|n]]]]]]]]]]; [..|lia]; cbn.
  - exists Choice. right. by apply (s_send AwaitAnswer demo_start Resume).
  - exists Control. right. by apply (s_kill AwaitAnswer (demo_world false [Resume] [] InPaused 0 Sending 0 [Resume] [])).
  - exists Cpu. left. exact (v_paused true (demo_world false [Resume] [] InPaused 1 Waiting 0 [Resume] []) (mkVcpu [] None false [] true [] true 0) ([Respond Resumed], AtRunning) eq_refl eq_refl).
  - exists Cpu. left. exact (v_act true (demo_world false [] [] (Doing [Respond Resumed] AtRunning) 1 Waiting 0 [Resume] []) (Respond Resumed) [] AtRunning (mkVcpu [] None false [] true [Resumed] true 0) eq_refl eq_refl).
  - exists Choice. right. by eapply (s_answer AwaitAnswer (demo_world false [] [Resumed] BeforeRun 1 Waiting 0 [Resume] [])).
  - exists Signal. left. by eapply (v_signal true (demo_world false [] [Resumed] BeforeRun 1 Idle 1 [Resume] [])).
  - exists Cpu. left. by eapply (v_refused true (demo_world true [] [Resumed] BeforeRun 0 Idle 1 [Resume] [])).
  - exists Cpu. left. by eapply (v_eintr true (demo_world true [] [Resumed] AfterEintr 0 Idle 1 [Resume] [])).
  - exists Cpu. left. exact (v_check true (demo_world false [] [Resumed] AtCheck 0 Idle 1 [Resume] [Err EINTR]) (mkVcpu [] None false [] true [Resumed] true 0) ([], AtRunning) eq_refl eq_refl).
  - exists Cpu. left. by eapply (v_enter true (demo_world false [] [Resumed] BeforeRun 0 Idle 1 [Resume] [Err EINTR])).
Qed.

(** In the end only the guest and the controlling thread's choices are left. *)
Lemma demo_fair r : r = Cpu \/ r = Signal \/ r = Control -> fair true demo_trace r.
Proof.
  intros Hr n. exists (n + 10)%nat. split; [lia|]. right. rewrite demo_trace_end by lia. intros (w' & [Hs|Hs]).
  - inversion Hs; subst; try done; by destruct Hr as [|[]].
  - inversion Hs; subst; try done; by destruct Hr as [|[]].
Qed.



Lemma event_answered_witness :
  exists m, (1 <= m)%nat /\ (caught_up [Resume] (demo_trace m) \/ leaving (demo_trace m)).
Proof.
  destruct (event_answered true demo_trace [] None (fun _ => tt) 1 eq_refl demo_execution) as [_ H].
  - apply demo_fair. by left.
  - apply demo_fair. by right; left.
  - apply demo_fair. by right; right.
  - apply H; vm_compute; congruence.
Defined.

Definition demo_bus : Bus.Bus := [(Bus.mkRange 0x1000 0x10, 3%nat)].

Lemma exit_dispatched_witness :
  exists st1 : nat -> unit, run_emulation (mkVcpu [] (Some demo_bus) false [] true [] true 0) (fun _ => tt)
    (Ok (MmioWrite 0x1004 [7])) = (mkVcpu [] (Some demo_bus) false [] true [] true 0, st1, [], Ok Handled).
Proof.
  destruct (exit_dispatched (mkVcpu [] (Some demo_bus) false [] true [] true 0) (fun _ => tt) demo_bus 0x1004 [7])
    as (st1 & st2 & d & Hw & _).
  - split; [vm_compute; intuition congruence|]. split; [apply Forall_nil; exact I|exact I].
  - reflexivity.
  - exists st1. exact Hw.
Defined.
End Vcpu.
