(* ===== verification/Gic.v ===== *)
(** * The emulated interrupt controller ([devices/src/legacy/gic.rs])

    A GICv2 distributor and the processors' interrupt queues, used where the
    hypervisor has no interrupt controller of its own.  Each processor has a
    queue of pending lines and is running or waiting for an interrupt; posting
    a line wakes a waiting processor and asks a running one to leave the guest.
    Every operation on a processor's record is one step (it holds the record's
    lock).  Wake-ups, exit requests and timer unmaskings are logs; whether the
    calls behind them succeed is a parameter. *)

From S2P Require Import Prelude.

Module Gic.

Definition IRQ_NUM : Z := 64.
Definition MAX_CPUS : Z := 8.
Definition GTIMER_VIRT : Z := 11.
Definition GIC_V2_DIST_SIZE : Z := 0x1000.
Definition GIC_V2_CPU_SIZE : Z := 0x2000.

Inductive VcpuStatus := Running | Waiting.

Record VcpuInfo := mkInfo { status : VcpuStatus; pending_irqs : list Z; wfe_sender : bool }.

(** [Gic] with its [VcpuList]. *)
Record Gic := mkGic {
  cpu_size : Z; ctlr : Z; irq_cfg : list Z; vcpus : list VcpuInfo; vcpu_count : Z; irq_target : list Z; vtimer_irq : Z;
  wakes : list Z; exits : list Z; unmasked : list Z;
}.

Definition set_vcpus (g : Gic) (l : list VcpuInfo) (w e : list Z) : Gic :=
  mkGic (cpu_size g) (ctlr g) (irq_cfg g) l (vcpu_count g) (irq_target g) (vtimer_irq g) w e (unmasked g).

Definition set_regs (g : Gic) (c : Z) (cfg target : list Z) : Gic :=
  mkGic (cpu_size g) c cfg (vcpus g) (vcpu_count g) target (vtimer_irq g) (wakes g) (exits g) (unmasked g).

(** [VcpuList::new] and [Gic::new] *)
Definition new : Gic :=
  mkGic GIC_V2_CPU_SIZE 0 (replicate (Z.to_nat IRQ_NUM) 0)
    (replicate (Z.to_nat MAX_CPUS) (mkInfo Running [] false)) 0 (replicate (Z.to_nat IRQ_NUM) 0) (GTIMER_VIRT + 16)
    [] [] [].

Definition add_vcpu (g : Gic) : Gic :=
  mkGic (cpu_size g) (ctlr g) (irq_cfg g) (vcpus g) (vcpu_count g +[8] 1) (irq_target g) (vtimer_irq g) (wakes g)
    (exits g) (unmasked g).

Section calls.
(** Do the wake-up, the exit request and the timer call of a processor succeed? *)
Context (send_ok exit_ok mask_ok : Z -> bool).

Definition set_irq_common (g : Gic) (vcpuid irq_line : Z) : outcome Gic :=
  match vcpus g !! Z.to_nat vcpuid with
  | None => Panic
  | Some v =>
      let pending := pending_irqs v ++ [irq_line] in
      match status v with
      | Waiting =>
          if wfe_sender v && send_ok vcpuid then
            Ret (set_vcpus g (<[Z.to_nat vcpuid := mkInfo Running pending (wfe_sender v)]> (vcpus g))
                   (wakes g ++ [vcpuid]) (exits g))
          else Panic
      | Running =>
          if exit_ok vcpuid then
            Ret (set_vcpus g (<[Z.to_nat vcpuid := mkInfo Running pending (wfe_sender v)]> (vcpus g)) (wakes g)
                   (exits g ++ [vcpuid]))
          else Panic
      end
  end.

Definition set_vtimer_irq (g : Gic) (vcpuid : Z) : outcome Gic :=
  if vcpuid <? MAX_CPUS then set_irq_common g (wrap 8 vcpuid) (vtimer_irq g) else Panic.

Definition with_vcpu {A} (g : Gic) (vcpuid : Z) (f : VcpuInfo -> VcpuInfo * A) : outcome (Gic * A) :=
  match vcpus g !! Z.to_nat vcpuid with
  | None => Panic
  | Some v => let '(v, a) := f v in Ret (set_vcpus g (<[Z.to_nat vcpuid := v]> (vcpus g)) (wakes g) (exits g), a)
  end.

Definition register (g : Gic) (vcpuid : Z) : outcome (Gic * unit) :=
  if vcpuid <? MAX_CPUS then with_vcpu g vcpuid (fun v => (mkInfo (status v) (pending_irqs v) true, tt)) else Panic.

Definition should_wait (g : Gic) (vcpuid : Z) : outcome (Gic * bool) :=
  if vcpuid <? MAX_CPUS then
    with_vcpu g vcpuid (fun v =>
      match pending_irqs v with [] => (mkInfo Waiting [] (wfe_sender v), true) | _ => (v, false) end)
  else Panic.

Definition has_pending_irq (g : Gic) (vcpuid : Z) : outcome (Gic * bool) :=
  if vcpuid <? MAX_CPUS then
    with_vcpu g vcpuid (fun v => (v, match pending_irqs v with [] => false | _ => true end))
  else Panic.

Definition get_pending_irq (g : Gic) (vcpuid : Z) : outcome (Gic * Z) :=
  with_vcpu g vcpuid (fun v =>
    match pending_irqs v with
    | [] => (v, 1023)
    | irq :: l => (mkInfo (status v) l (wfe_sender v), irq)
    end).

Definition set_sgi_irq (g : Gic) (vcpuid irq_line : Z) : outcome Gic :=
  if irq_line <? 16 then set_irq_common g vcpuid irq_line else Panic.

(** [for cpu in l { if p cpu { post } }] *)
Fixpoint post_all (post : Gic -> Z -> outcome Gic) (p : Z -> bool) (l : list Z) (g : Gic) : outcome Gic :=
  match l with
  | [] => Ret g
  | cpu :: l => g ← (if p cpu then post g cpu else Ret g); post_all post p l g
  end.

(** [set_irq]; the [u8] mask [1 << vcpuid] shifts modulo 8. *)
Definition set_irq (g : Gic) (irq_line : Z) : outcome Gic :=
  match irq_target g !! Z.to_nat irq_line with
  | None => if 0 <? vcpu_count g then Panic else Ret g
  | Some target =>
      post_all (fun g cpu => set_irq_common g cpu irq_line)
        (fun vcpuid => negb (target .& wrap 8 (1 .<< (vcpuid mod 8)) =? 0)) (seqZ 0 (vcpu_count g)) g
  end.

(** ** Registers of the distributor *)

(** The value gathered from [l], entry [i] at bit [2 * (15 - i)]. *)
Definition pack_cfg (l : list Z) : Z :=
  foldr Z.lor 0 (imap (fun i c => c .<< ((15 - Z.of_nat i) * 2)) l).

Definition handle_dist_read32 (g : Gic) (vcpuid offset : Z) : outcome Z :=
  if offset =? 0x0 then Ret (ctlr g)
  else if offset =? 0x4 then Ret (IRQ_NUM / 32 - 1)
  else if (0x800 <=? offset) && (offset <=? 0x8c1) then Ret (wrap 32 (1 .<< (vcpuid mod 32)))
  else if (0xc00 <=? offset) && (offset <=? 0xf00) then
    let first_irq := Z.to_nat ((offset - 0xc00) * 4) in
    let l := take 16 (drop first_irq (irq_cfg g)) in
    if (length l =? 16)%nat then Ret (pack_cfg l) else Panic
  else Ret 0.

(** [for i in 0..=n { a[first + i] = f(i) }] on an array. *)
Fixpoint store_all (f : Z -> Z) (first : Z) (l : list Z) (a : list Z) : outcome (list Z) :=
  match l with
  | [] => Ret a
  | i :: l =>
      if (Z.to_nat (first + i) <? length a)%nat then store_all f first l (<[Z.to_nat (first + i) := f i]> a) else Panic
  end.

Definition handle_dist_write32 (g : Gic) (vcpuid offset val : Z) : outcome Gic :=
  if offset =? 0x0 then Ret (set_regs g val (irq_cfg g) (irq_target g))
  else if (0x800 <=? offset) && (offset <=? 0xbf8) then
    t ← store_all (fun i => (val .>> ((3 - i) * 8)) .& 0xf) (offset - 0x800) (seqZ 0 4) (irq_target g);
    Ret (set_regs g (ctlr g) (irq_cfg g) t)
  else if (0xc00 <=? offset) && (offset <=? 0xeff) then
    c ← store_all (fun i => (val .>> ((15 - i) * 2)) .& 0x3) ((offset - 0xc00) * 4) (seqZ 0 16) (irq_cfg g);
    Ret (set_regs g (ctlr g) c (irq_target g))
  else if offset =? 0xf00 then
    let irq := val .& 0xf in
    let filter := val .& 0x3000000 in
    if filter =? 1 then
      post_all (fun g cpu => set_sgi_irq g cpu irq) (fun cpu => negb (cpu =? wrap 8 vcpuid)) (seqZ 0 (vcpu_count g)) g
    else if filter =? 2 then set_sgi_irq g (wrap 8 vcpuid) irq
    else
      let target_cpus := (val .& 0xff0000) .>> 16 in
      post_all (fun g cpu => set_sgi_irq g cpu irq)
        (fun vcpuid => negb (target_cpus .& wrap 32 (1 .<< (vcpuid mod 32)) =? 0)) (seqZ 0 (vcpu_count g)) g
  else Ret g.

(** ** Registers of the processor interface *)

Definition handle_cpu_read32 (g : Gic) (vcpuid offset : Z) : outcome (Gic * Z) :=
  if vcpuid <? MAX_CPUS then
    if offset =? 0xc then get_pending_irq g (wrap 8 vcpuid) else Ret (g, 0)
  else Panic.

Definition handle_cpu_write32 (g : Gic) (vcpuid offset val : Z) : outcome Gic :=
  if offset =? 0x10 then
    let irq := val .& 0x3ff in
    if (irq <? IRQ_NUM) && (irq =? vtimer_irq g) then
      if mask_ok vcpuid then
        Ret (mkGic (cpu_size g) (ctlr g) (irq_cfg g) (vcpus g) (vcpu_count g) (irq_target g) (vtimer_irq g) (wakes g)
               (exits g) (unmasked g ++ [vcpuid]))
      else Panic
    else Ret g
  else Ret g.

(** [BusDevice::read]; accesses of one and two bytes leave the data alone. *)
Definition read (g : Gic) (vcpuid offset : Z) (data : list byte) : outcome (Gic * list byte) :=
  match length data with
  | 1%nat | 2%nat => Ret (g, data)
  | 4%nat =>
      if cpu_size g <=? offset then
        v ← handle_dist_read32 g vcpuid (offset - cpu_size g); Ret (g, le_bytes 4 v)
      else '(g, v) ← handle_cpu_read32 g vcpuid offset; Ret (g, le_bytes 4 v)
  | _ => Panic
  end.

Definition write (g : Gic) (vcpuid offset : Z) (data : list byte) : outcome Gic :=
  match length data with
  | 1%nat | 2%nat => Ret g
  | 4%nat =>
      if cpu_size g <=? offset then handle_dist_write32 g vcpuid (offset - cpu_size g) (le_val data)
      else handle_cpu_write32 g vcpuid offset (le_val data)
  | _ => Panic
  end.

(** ** Posting a line *)

(** What a processor's record becomes. *)
Definition posted (irq : Z) (v : VcpuInfo) : VcpuInfo := mkInfo Running (pending_irqs v ++ [irq]) (wfe_sender v).

Definition is_waiting (v : VcpuInfo) : bool := match status v with Waiting => true | Running => false end.

(** The call that tells the processor about the line succeeds. *)
Definition deliverable (g : Gic) (cpu : Z) : Prop :=
  match vcpus g !! Z.to_nat cpu with
  | Some v => (if is_waiting v then wfe_sender v && send_ok cpu else exit_ok cpu) = true
  | None => False
  end.

Definition waiting_in (g : Gic) (cpu : Z) : bool :=
  match vcpus g !! Z.to_nat cpu with Some v => is_waiting v | None => false end.

Lemma set_irq_common_spec g cpu irq :
  deliverable g cpu ->
  exists g', set_irq_common g cpu irq = Ret g' /\
    vcpus g' = alter (posted irq) (Z.to_nat cpu) (vcpus g) /\ vcpu_count g' = vcpu_count g /\
    wakes g' = wakes g ++ (if waiting_in g cpu then [cpu] else []) /\
    exits g' = exits g ++ (if waiting_in g cpu then [] else [cpu]).
Proof.
  unfold deliverable, set_irq_common, waiting_in. destruct (vcpus g !! Z.to_nat cpu) as [v|] eqn:E; [|done].
  unfold is_waiting. destruct (status v) eqn:Es; intros ->; eexists; (split; [done|]); cbn;
    rewrite ?app_nil_r; split_and!; try done; apply list_eq; intros j;
    (destruct (decide (j = Z.to_nat cpu)) as [->|Hj];
      [rewrite list_lookup_alter_eq, E, list_lookup_insert_eq by (by eapply lookup_lt_Some); done
      |by rewrite list_lookup_alter_ne, list_lookup_insert_ne by done]).
Qed.

Lemma post_all_spec irq p l g :
  NoDup l -> Forall (fun cpu => 0 <= cpu) l -> (forall cpu, cpu ∈ l -> p cpu = true -> deliverable g cpu) ->
  exists g', post_all (fun g cpu => set_irq_common g cpu irq) p l g = Ret g' /\
    (forall i, vcpus g' !! i =
       if bool_decide (Z.of_nat i ∈ l) && p (Z.of_nat i) then posted irq <$> vcpus g !! i else vcpus g !! i) /\
    wakes g' = wakes g ++ List.filter (fun cpu => p cpu && waiting_in g cpu) l /\
    exits g' = exits g ++ List.filter (fun cpu => p cpu && negb (waiting_in g cpu)) l.
Proof.
  revert g. induction l as [|cpu l IH]; intros g Hnd Hpos Hd.
  { exists g. cbn. rewrite !app_nil_r. done. }
  apply NoDup_cons in Hnd as [Hni Hnd]. apply Forall_cons in Hpos as [Hc Hpos]. cbn [post_all List.filter].
  assert (forall i, bool_decide (Z.of_nat i ∈ cpu :: l) = bool_decide (Z.of_nat i = cpu) || bool_decide (Z.of_nat i ∈ l)) as Hin.
  { intros i. rewrite (bool_decide_ext (Z.of_nat i ∈ cpu :: l) (Z.of_nat i = cpu \/ Z.of_nat i ∈ l)) by apply elem_of_cons.
    apply bool_decide_or. }
  destruct (p cpu) eqn:Ep.
  - destruct (set_irq_common_spec g cpu irq) as (g1 & -> & Hv & _ & Hw & He); [apply Hd; [left|done]|].
    cbn [mbind outcome_bind]. assert (forall c, c ∈ l -> vcpus g1 !! Z.to_nat c = vcpus g !! Z.to_nat c) as Hsame.
    { intros c Hcl. rewrite Hv, list_lookup_alter_ne; [done|]. intros Heq. apply Hni.
      rewrite Forall_forall in Hpos. assert (c = cpu) as <- by (specialize (Hpos c Hcl); lia). done. }
    destruct (IH g1 Hnd Hpos) as (g' & -> & Hv' & Hw' & He').
    { intros c Hcl Hpc. unfold deliverable. rewrite Hsame by done. apply (Hd c); [by right|done]. }
    assert (forall c, c ∈ l -> waiting_in g1 c = waiting_in g c) as Hwi
      by (intros c Hcl; unfold waiting_in; by rewrite Hsame).
    exists g'. split; [done|]. split_and!.
    + intros i. rewrite Hv', Hin, Hv. destruct (decide (Z.of_nat i = cpu)) as [<-|Hne].
      * rewrite (bool_decide_false (_ ∈ l)), (bool_decide_true (_ = _)) by done. cbn [orb andb]. rewrite Ep.
        by rewrite Nat2Z.id, list_lookup_alter_eq.
      * rewrite (bool_decide_false (_ = cpu)) by done. cbn [orb]. by rewrite list_lookup_alter_ne by lia.
    + rewrite Hw', Hw, <- app_assoc. f_equal. cbn [andb]. destruct (waiting_in g cpu); cbn [app]; [f_equal|];
        apply filter_ext_in; intros c Hcl%list_elem_of_In; by rewrite Hwi.
    + rewrite He', He, <- app_assoc. f_equal. cbn [andb]. destruct (waiting_in g cpu); cbn [negb app]; [|f_equal];
        apply filter_ext_in; intros c Hcl%list_elem_of_In; by rewrite Hwi.
  - cbn [mbind outcome_bind andb]. destruct (IH g Hnd Hpos) as (g' & -> & Hv' & Hw' & He').
    { intros c Hcl. apply Hd. by right. }
    exists g'. split; [done|]. split_and!; [|done|done]. intros i. rewrite Hv', Hin.
    destruct (decide (Z.of_nat i = cpu)) as [<-|Hne]; [by rewrite Ep, !andb_false_r|].
    by rewrite (bool_decide_false (_ = cpu)).
Qed.

Lemma seqZ_cpus n : NoDup (seqZ 0 n) /\ Forall (fun cpu => 0 <= cpu) (seqZ 0 n).
Proof. split; [apply NoDup_seqZ|]. apply Forall_forall. intros x Hx%elem_of_seqZ. lia. Qed.

(** Which processors a line is posted to. *)
Definition routed (g g' : Gic) (irq : Z) (to : Z -> bool) : Prop :=
  (forall i, vcpus g' !! i =
     if (Z.of_nat i <? vcpu_count g) && to (Z.of_nat i) then posted irq <$> vcpus g !! i else vcpus g !! i) /\
  wakes g' = wakes g ++ List.filter (fun cpu => to cpu && waiting_in g cpu) (seqZ 0 (vcpu_count g)) /\
  exits g' = exits g ++ List.filter (fun cpu => to cpu && negb (waiting_in g cpu)) (seqZ 0 (vcpu_count g)).

Lemma post_all_routed g irq p to :
  (forall cpu, 0 <= cpu < vcpu_count g -> p cpu = to cpu) ->
  (forall cpu, 0 <= cpu < vcpu_count g -> to cpu = true -> deliverable g cpu) ->
  exists g', post_all (fun g cpu => set_irq_common g cpu irq) p (seqZ 0 (vcpu_count g)) g = Ret g' /\ routed g g' irq to.
Proof.
  intros Hp Hd. destruct (seqZ_cpus (vcpu_count g)) as [Hnd Hpos].
  destruct (post_all_spec irq p (seqZ 0 (vcpu_count g)) g Hnd Hpos) as (g' & -> & Hv & Hw & He).
  { intros cpu Hc%elem_of_seqZ Hpc. apply Hd; [lia|]. by rewrite <- Hp by lia. }
  exists g'. split; [done|]. split_and!.
  - intros i. rewrite Hv. destruct (Z.of_nat i <? vcpu_count g) eqn:E; zify_bool.
    + rewrite bool_decide_true by (apply elem_of_seqZ; lia). rewrite Hp by lia. done.
    + by rewrite bool_decide_false by (rewrite elem_of_seqZ; lia).
  - rewrite Hw. f_equal. apply filter_ext_in. intros c Hc%list_elem_of_In%elem_of_seqZ. by rewrite Hp by lia.
  - rewrite He. f_equal. apply filter_ext_in. intros c Hc%list_elem_of_In%elem_of_seqZ. by rewrite Hp by lia.
Qed.

Lemma mask_bit w t cpu : 0 <= w -> 0 <= cpu < w -> negb (t .& wrap w (1 .<< (cpu mod w)) =? 0) = Z.testbit t cpu.
Proof.
  intros Hw Hc. rewrite Z.mod_small, Z.shiftl_1_l by lia. rewrite wrap_small.
  - rewrite land_bit by lia. apply negb_involutive.
  - split; [apply Z.pow_nonneg; lia|]. apply Z.pow_lt_mono_r; lia.
Qed.

(** Routing of a device's line: it is appended to the queue of exactly the
    processors in its target mask, once each; those that waited are woken and
    the others asked to leave the guest; nothing else changes. *)
Theorem irq_routed g irq_line target :
  irq_target g !! Z.to_nat irq_line = Some target -> 0 <= vcpu_count g <= MAX_CPUS ->
  (forall cpu, 0 <= cpu < vcpu_count g -> Z.testbit target cpu = true -> deliverable g cpu) ->
  exists g', set_irq g irq_line = Ret g' /\ routed g g' irq_line (Z.testbit target).
Proof.
  intros Ht Hn Hd. unfold set_irq, MAX_CPUS in *. rewrite Ht. apply post_all_routed; [|done].
  intros cpu Hc. apply (mask_bit 8); lia.
Qed.

Lemma post_all_ext f h p l g : (forall g c, f g c = h g c) -> post_all f p l g = post_all h p l g.
Proof.
  intros Hfh. revert g. induction l as [|c l IH]; intros g; [done|]. cbn [post_all]. rewrite Hfh.
  destruct (if p c then h g c else Ret g); [apply IH|done].
Qed.

(** Software-generated interrupts: a write to the register posts line
    [val & 15] to exactly the processors in the target list, bits 16 to 23,
    whatever the filter in bits 24 and 25 says: the two other modes the
    architecture defines (all but the sender, the sender only) are never
    taken. *)
Theorem sgi_by_target_list g vcpuid val :
  fits 32 val -> 0 <= vcpu_count g <= MAX_CPUS ->
  (forall cpu, 0 <= cpu < vcpu_count g -> Z.testbit val (16 + cpu) = true -> deliverable g cpu) ->
  exists g', handle_dist_write32 g vcpuid 0xf00 val = Ret g' /\
    routed g g' (val .& 0xf) (fun cpu => Z.testbit val (16 + cpu)).
Proof.
  intros Hv Hn Hd. unfold handle_dist_write32. cbn [Z.eqb Z.leb Pos.compare Pos.compare_cont andb Z.compare Pos.eqb].
  assert (val .& 0x3000000 =? 1 = false) as ->.
  { apply Z.eqb_neq. intros E. apply (f_equal (fun z => Z.testbit z 0)) in E. rewrite Z.land_spec in E.
    by rewrite andb_false_r in E. }
  assert (val .& 0x3000000 =? 2 = false) as ->.
  { apply Z.eqb_neq. intros E. apply (f_equal (fun z => Z.testbit z 1)) in E. rewrite Z.land_spec in E.
    by rewrite andb_false_r in E. }
  assert (val .& 0xf < 16) as Hirq by (apply (land_fits_r 4); [lia|done]).
  rewrite (post_all_ext _ (fun g cpu => set_irq_common g cpu (val .& 0xf))).
  2: { intros g0 c. unfold set_sgi_irq. by destruct (_ <? 16) eqn:E; [|zify_bool; lia]. }
  apply post_all_routed; [|done]. intros cpu Hc. unfold MAX_CPUS in Hn. rewrite (mask_bit 32) by lia.
  rewrite Z.shiftr_spec, Z.land_spec by lia. rewrite Z.add_comm.
  assert (Z.testbit 0xff0000 (16 + cpu) = true) as ->; [|by rewrite andb_true_r].
  assert (cpu = 0 \/ cpu = 1 \/ cpu = 2 \/ cpu = 3 \/ cpu = 4 \/ cpu = 5 \/ cpu = 6 \/ cpu = 7) as H8 by lia.
  repeat destruct H8 as [->|H8]; [done..|by subst].
Qed.

(** ** Waiting processors *)

(** A step of any thread. *)
Inductive step : Gic -> Gic -> Prop :=
| st_write g vcpuid offset data g' : write g vcpuid offset data = Ret g' -> step g g'
| st_read g vcpuid offset data g' d : read g vcpuid offset data = Ret (g', d) -> step g g'
| st_irq g irq g' : set_irq g irq = Ret g' -> step g g'
| st_vtimer g vcpuid g' : set_vtimer_irq g vcpuid = Ret g' -> step g g'
| st_register g vcpuid g' : register g vcpuid = Ret (g', tt) -> step g g'
| st_wait g vcpuid g' b : should_wait g vcpuid = Ret (g', b) -> step g g'
| st_pending g vcpuid g' b : has_pending_irq g vcpuid = Ret (g', b) -> step g g'
| st_add g : step g (add_vcpu g).

Definition idle_ok (v : VcpuInfo) : Prop := status v = Waiting -> pending_irqs v = [].

Definition waiting_idle (g : Gic) : Prop := Forall idle_ok (vcpus g).

Lemma with_vcpu_idle {A} g cpu (f : VcpuInfo -> VcpuInfo * A) g' a :
  (forall v, idle_ok v -> idle_ok (f v).1) -> waiting_idle g -> with_vcpu g cpu f = Ret (g', a) -> waiting_idle g'.
Proof.
  intros Hf Hg. unfold with_vcpu. destruct (vcpus g !! Z.to_nat cpu) as [v|] eqn:E; [|done].
  destruct (f v) as [v' x] eqn:Ef. intros [= <- <-]. unfold waiting_idle. cbn. apply Forall_insert; [done|].
  specialize (Hf v). rewrite Ef in Hf. apply Hf. by eapply Forall_lookup_1.
Qed.

Lemma set_irq_common_idle g cpu irq g' : waiting_idle g -> set_irq_common g cpu irq = Ret g' -> waiting_idle g'.
Proof.
  intros Hg. unfold set_irq_common. destruct (vcpus g !! Z.to_nat cpu) as [v|]; [|done].
  destruct (status v); [destruct (exit_ok cpu)|destruct (wfe_sender v && send_ok cpu)]; intros [= <-];
    by apply Forall_insert.
Qed.

Lemma post_all_idle f p l g g' :
  (forall g c g', waiting_idle g -> f g c = Ret g' -> waiting_idle g') -> waiting_idle g ->
  post_all f p l g = Ret g' -> waiting_idle g'.
Proof.
  intros Hf. revert g. induction l as [|c l IH]; intros g Hg; cbn [post_all]; [by intros [= <-]|].
  destruct (if p c then f g c else Ret g) as [g1|] eqn:E; [|done]. cbn [mbind outcome_bind].
  apply IH. destruct (p c); [by eapply Hf|by injection E as <-].
Qed.

Lemma set_sgi_idle g cpu irq g' : waiting_idle g -> set_sgi_irq g cpu irq = Ret g' -> waiting_idle g'.
Proof. unfold set_sgi_irq. destruct (irq <? 16); [apply set_irq_common_idle|done]. Qed.

Lemma dist_write_idle g cpu off val g' : waiting_idle g -> handle_dist_write32 g cpu off val = Ret g' -> waiting_idle g'.
Proof.
  intros Hg. unfold handle_dist_write32. repeat case_match; try (by intros [= <-]);
    try (eapply post_all_idle; [|done]; intros ? ? ?; apply set_sgi_idle); try by apply set_sgi_idle.
  - destruct (store_all _ _ _ _); cbn [mbind outcome_bind]; [by intros [= <-]|done].
  - destruct (store_all _ _ _ _); cbn [mbind outcome_bind]; [by intros [= <-]|done].
Qed.

Lemma get_pending_idle g cpu g' x : waiting_idle g -> get_pending_irq g cpu = Ret (g', x) -> waiting_idle g'.
Proof.
  apply with_vcpu_idle. intros v Hv. unfold idle_ok in *.
  destruct (pending_irqs v) as [|irq l] eqn:E; cbn; [by rewrite E|]. intros Hs. by specialize (Hv Hs).
Qed.

Lemma step_idle g g' : waiting_idle g -> step g g' -> waiting_idle g'.
Proof.
  intros Hg Hs. destruct Hs as [g c off data g' Hw|g c off data g' d Hr|g irq g' Hi|g c g' Hi|g c g' Hi|g c g' b Hi|g c g' b Hi|g].
  - revert Hw. unfold write. destruct (length data) as [|[|[|[|[|]]]]]; try done; [by intros [= <-]..|].
    destruct (_ <=? _); [by apply dist_write_idle|]. unfold handle_cpu_write32.
    repeat case_match; by intros [= <-].
  - revert Hr. unfold read. destruct (length data) as [|[|[|[|[|]]]]]; try done; [by intros [= <- <-]..|].
    destruct (_ <=? _).
    + destruct (handle_dist_read32 _ _ _); cbn [mbind outcome_bind]; [by intros [= <- <-]|done].
    + unfold handle_cpu_read32. destruct (c <? MAX_CPUS); [|done]. destruct (off =? 0xc); [|by intros [= <- <-]].
      destruct (get_pending_irq g (wrap 8 c)) as [[g1 x]|] eqn:E; cbn [mbind outcome_bind]; [|done].
      intros [= <- <-]. by eapply get_pending_idle.
  - revert Hi. unfold set_irq. destruct (irq_target g !! _); [|destruct (0 <? _); [done|by intros [= <-]]].
    eapply post_all_idle; [|done]. intros ? ? ?. apply set_irq_common_idle.
  - revert Hi. unfold set_vtimer_irq. destruct (_ <? _); [by apply set_irq_common_idle|done].
  - revert Hi. unfold register. destruct (_ <? _); [|done]. by apply with_vcpu_idle.
  - revert Hi. unfold should_wait. destruct (_ <? _); [|done]. apply with_vcpu_idle; [|done]. intros v Hv.
    destruct (pending_irqs v) eqn:E; [by intros _|exact Hv].
  - revert Hi. unfold has_pending_irq. destruct (_ <? _); [|done]. by apply with_vcpu_idle.
  - exact Hg.
Qed.

(** No interrupt is slept through: in every sequence of steps of devices,
    timers and processors, a processor that waits has no line pending.  So a
    line posted to it finds it waiting and wakes it ([irq_routed]), and one
    posted before it asked to wait made [should_wait] refuse. *)
Theorem waiting_is_idle g i v :
  rtc step new g -> vcpus g !! i = Some v -> status v = Waiting -> pending_irqs v = [].
Proof.
  intros Hr Hi. assert (waiting_idle g) as Hg; [|by apply (Forall_lookup_1 _ _ _ _ Hg Hi)].
  assert (waiting_idle new) as H0 by (by apply Forall_replicate).
  induction Hr as [|x y z Hs _ IH]; [done|]. apply IH; [done|by eapply step_idle].
Qed.

(** ** Configuration registers *)

Lemma store_all_spec f first l a :
  0 <= first -> Forall (fun i => 0 <= i) l -> NoDup l -> Forall (fun i => first + i < Zlength a) l ->
  exists a', store_all f first l a = Ret a' /\ length a' = length a /\
    forall j, a' !! j = if bool_decide (Z.of_nat j - first ∈ l) then Some (f (Z.of_nat j - first)) else a !! j.
Proof.
  intros Hfirst. revert a. induction l as [|i l IH]; intros a Hpos Hnd Hb; [by exists a|].
  apply Forall_cons in Hpos as [Hi Hpos]. apply Forall_cons in Hb as [Hib Hb]. apply NoDup_cons in Hnd as [Hni Hnd].
  cbn [store_all]. destruct (_ <? length a)%nat eqn:E; [|apply Nat.ltb_ge in E; lia].
  destruct (IH (<[Z.to_nat (first + i):=f i]> a)) as (a' & -> & Hl & Hlk); [done|done|by rewrite length_insert|].
  exists a'. split; [done|]. rewrite Hl, length_insert. split; [done|]. intros j. rewrite Hlk.
  destruct (decide (Z.of_nat j - first = i)) as [Hj|Hj].
  - rewrite (bool_decide_false (_ ∈ l)) by (by rewrite Hj). rewrite (bool_decide_true (_ ∈ i :: l)) by (rewrite Hj; left).
    rewrite Hj. replace (Z.to_nat (first + i)) with j by lia. rewrite list_lookup_insert_eq; [done|lia].
  - rewrite (bool_decide_ext (_ ∈ i :: l) (Z.of_nat j - first ∈ l)) by (rewrite elem_of_cons; tauto).
    destruct (bool_decide _); [done|]. by rewrite list_lookup_insert_ne by lia.
Qed.

(** Two more bits of [v], put above the lower ones. *)
Lemma two_bits v k k' : 0 <= k -> k' = k + 2 -> (((v .>> k) .& 3) .<< k) .| (v mod 2 ^ k) = v mod 2 ^ k'.
Proof.
  intros Hk ->. change 3 with (Z.ones 2). rewrite Z.land_ones, Z.shiftr_div_pow2, Z.shiftl_mul_pow2 by lia.
  apply Z.bits_inj'. intros i Hi. rewrite Z.lor_spec. destruct (Z.lt_ge_cases i k).
  - rewrite Z.mul_pow2_bits_low, !Z.mod_pow2_bits_low by lia. done.
  - rewrite Z.mul_pow2_bits, (Z.mod_pow2_bits_high v k i) by lia. rewrite orb_false_r.
    destruct (Z.lt_ge_cases i (k + 2)).
    + rewrite !Z.mod_pow2_bits_low, Z.div_pow2_bits by lia. f_equal. lia.
    + by rewrite !Z.mod_pow2_bits_high by lia.
Qed.

Lemma pack_cfg_bits val :
  fits 32 val -> pack_cfg (map (fun i => (val .>> ((15 - i) * 2)) .& 0x3) (seqZ 0 16)) = val.
Proof.
  intros Hv. change (seqZ 0 16) with [0; 1; 2; 3; 4; 5; 6; 7; 8; 9; 10; 11; 12; 13; 14; 15].
  unfold pack_cfg. cbn [map imap compose foldr].
  assert (forall x, Z.lor x 0 = Z.lor x (val mod 2 ^ 0)) as -> by (intros; by rewrite Z.pow_0_r, Z.mod_1_r).
  repeat match goal with
  | |- context [Z.lor (Z.shiftl (Z.land (Z.shiftr val ?a) 3) ?b) (val mod 2 ^ ?c)] =>
      let k' := eval vm_compute in (c + 2) in
      change (Z.lor (Z.shiftl (Z.land (Z.shiftr val a) 3) b) (val mod 2 ^ c))
        with (Z.lor (Z.shiftl (Z.land (Z.shiftr val c) 3) c) (val mod 2 ^ c));
      rewrite (two_bits val c k') by lia
  end.
  by apply wrap_small.
Qed.

(** The trigger configuration reads back: a word written to one of the four
    configuration registers succeeds, changes only the sixteen lines of that
    register, and a later read returns it. *)
Theorem irq_cfg_roundtrip g vcpuid vcpuid' k val :
  length (irq_cfg g) = Z.to_nat IRQ_NUM -> 0 <= k < 4 -> fits 32 val ->
  exists g', handle_dist_write32 g vcpuid (0xc00 + 4 * k) val = Ret g' /\
    handle_dist_read32 g' vcpuid' (0xc00 + 4 * k) = Ret val /\
    (forall j, Z.of_nat j < 16 * k \/ 16 * k + 16 <= Z.of_nat j -> irq_cfg g' !! j = irq_cfg g !! j) /\
    irq_target g' = irq_target g /\ vcpus g' = vcpus g.
Proof.
  intros Hl Hk Hv. unfold handle_dist_write32, handle_dist_read32. unfold IRQ_NUM in Hl.
  replace (0xc00 + 4 * k =? 0) with false by lia. replace (0xc00 + 4 * k =? 4) with false by lia.
  replace (0xc00 + 4 * k <=? 0xbf8) with false by lia. replace (0xc00 + 4 * k <=? 0x8c1) with false by lia.
  rewrite !andb_false_r. replace (0xc00 <=? 0xc00 + 4 * k) with true by lia.
  replace (0xc00 + 4 * k <=? 0xeff) with true by lia. replace (0xc00 + 4 * k <=? 0xf00) with true by lia. cbn [andb].
  set (f := fun i : Z => (val .>> ((15 - i) * 2)) .& 0x3). replace ((0xc00 + 4 * k - 0xc00) * 4) with (16 * k) by lia.
  destruct (store_all_spec f (16 * k) (seqZ 0 16) (irq_cfg g)) as (c & -> & Hlc & Hc); [lia|apply seqZ_cpus|apply seqZ_cpus| |].
  { apply Forall_forall. intros x Hx%elem_of_seqZ. lia. }
  cbn [mbind outcome_bind]. eexists. split; [done|]. cbn [irq_cfg set_regs].
  assert (take 16 (drop (Z.to_nat (16 * k)) c) = map f (seqZ 0 16)) as ->.
  { apply list_eq. intros j. destruct (decide (j < 16)%nat) as [Hj|Hj].
    - rewrite lookup_take_lt, lookup_drop, Hc by done. rewrite bool_decide_true by (apply elem_of_seqZ; lia).
      rewrite list_lookup_fmap, lookup_seqZ_lt by lia. cbn. do 2 f_equal. lia.
    - rewrite !lookup_ge_None_2; [done|rewrite length_map, length_seqZ; lia|rewrite length_take; lia]. }
  rewrite length_map, length_seqZ. cbn [Nat.eqb Z.to_nat Pos.to_nat Pos.iter_op Nat.add].
  split_and!; try done.
  - change (Pos.to_nat 16 =? 16)%nat with true. cbv iota. f_equal. by apply pack_cfg_bits.
  - intros j Hj. rewrite Hc. by rewrite bool_decide_false by (rewrite elem_of_seqZ; lia).
Qed.

(** ** Departures from the architecture *)

(** The target register of a line is read from the wrong byte: the byte for
    line 32, the lowest of the word, is stored for line 35. *)
Lemma target_byte_reversed g vcpuid :
  irq_target g = replicate (Z.to_nat IRQ_NUM) 0 ->
  exists g', handle_dist_write32 g vcpuid 0x820 0x1 = Ret g' /\
    irq_target g' !! 32%nat = Some 0 /\ irq_target g' !! 35%nat = Some 1.
Proof. intros Ht. unfold handle_dist_write32. cbn. rewrite Ht. eexists. split; [vm_compute; reflexivity|]. done. Qed.

(** Registers of lines the controller does not have panic the device. *)
Lemma high_line_panics g vcpuid val :
  length (irq_target g) = Z.to_nat IRQ_NUM -> length (irq_cfg g) = Z.to_nat IRQ_NUM ->
  handle_dist_write32 g vcpuid 0x840 val = Panic /\ handle_dist_write32 g vcpuid 0xc10 val = Panic /\
  handle_dist_read32 g vcpuid 0xc10 = Panic.
Proof.
  intros Ht Hc. unfold handle_dist_write32, handle_dist_read32.
  cbn [Z.leb Z.eqb Z.compare Pos.compare Pos.compare_cont Pos.eqb andb].
  change (seqZ 0 4) with [0; 1; 2; 3].
  change (seqZ 0 16) with [0; 1; 2; 3; 4; 5; 6; 7; 8; 9; 10; 11; 12; 13; 14; 15]. cbn [store_all].
  rewrite Ht, Hc. split; [done|]. split; [done|]. rewrite length_take, length_drop, Hc. done.
Qed.
End calls.

(** ** Witnesses: two processors, the second waiting *)

Definition always (_ : Z) : bool := true.

Definition demo : Gic :=
  mkGic GIC_V2_CPU_SIZE 0 (replicate 64 0) [mkInfo Running [] true; mkInfo Waiting [] true] 2
    (<[40%nat := 3]> (replicate 64 0)) 27 [] [] [].

Lemma demo_deliverable cpu : 0 <= cpu < 2 -> deliverable always always demo cpu.
Proof. intros Hc. assert (cpu = 0 \/ cpu = 1) as [-> | ->] by lia; reflexivity. Qed.

Lemma irq_routed_witness :
  exists g', set_irq always always demo 40 = Ret g' /\ wakes g' = [1] /\ exits g' = [0].
Proof.
  destruct (irq_routed always always demo 40 3) as (g' & Hs & _ & Hw & He).
  - reflexivity.
  - vm_compute. split; congruence.
  - intros cpu Hc _. apply demo_deliverable. exact Hc.
  - exists g'. split; [exact Hs|]. split; [rewrite Hw; reflexivity|rewrite He; reflexivity].
Defined.

(** "All but the sender" from processor 0, with an empty target list: nobody. *)
Lemma sgi_by_target_list_witness :
  exists g', handle_dist_write32 always always demo 0 0xf00 0x1000005 = Ret g' /\ wakes g' = [] /\ exits g' = [].
Proof.
  destruct (sgi_by_target_list always always demo 0 0x1000005) as (g' & Hs & _ & Hw & He).
  - split; vm_compute; congruence.
  - vm_compute. split; congruence.
  - intros cpu Hc _. apply demo_deliverable. exact Hc.
  - exists g'. split; [exact Hs|]. split; [rewrite Hw; reflexivity|rewrite He; reflexivity].
Defined.

Definition parked : Gic :=
  mkGic GIC_V2_CPU_SIZE 0 (replicate 64 0)
    (<[1%nat := mkInfo Waiting [] false]> (replicate 8 (mkInfo Running [] false))) 0 (replicate 64 0) 27 [] [] [].

Lemma waiting_is_idle_witness : pending_irqs (mkInfo Waiting [] false) = [].
Proof.
  apply (waiting_is_idle always always always parked 1%nat).
  - apply rtc_once. apply (st_wait always always always new 1 _ true). reflexivity.
  - reflexivity.
  - reflexivity.
Defined.

Lemma irq_cfg_roundtrip_witness :
  exists g', handle_dist_write32 always always demo 0 0xc08 0xdeadbeef = Ret g' /\
    handle_dist_read32 g' 1 0xc08 = Ret 0xdeadbeef.
Proof.
  destruct (irq_cfg_roundtrip always always always demo 0 1 2 0xdeadbeef) as (g' & Hw & Hr & _).
  - reflexivity.
  - lia.
  - split; vm_compute; congruence.
  - exists g'. split; [exact Hw|exact Hr].
Defined.
End Gic.
