(* ===== verification/SndAbi.v ===== *)
(** * Messages of the sound device ([devices/src/virtio/snd/virtio_sound.rs])

    Constants and structures of the virtio sound protocol, with their bytes in
    guest memory as instances of [ByteValued]. *)

From S2P Require Import Prelude FuseAbi.

Module SndAbi.
Import FuseAbi(ByteValued, ByteValuedLaws, layout, to_fields, of_fields, bv_length, bv_of_to, bv_to_of, size_of, as_slice, from_slice).

Definition VIRTIO_SND_R_JACK_INFO : Z := 1.
Definition VIRTIO_SND_R_JACK_REMAP : Z := 2.
Definition VIRTIO_SND_R_PCM_INFO : Z := 0x0100.
Definition VIRTIO_SND_R_PCM_SET_PARAMS : Z := 0x0101.
Definition VIRTIO_SND_R_PCM_PREPARE : Z := 0x0102.
Definition VIRTIO_SND_R_PCM_RELEASE : Z := 0x0103.
Definition VIRTIO_SND_R_PCM_START : Z := 0x0104.
Definition VIRTIO_SND_R_PCM_STOP : Z := 0x0105.
Definition VIRTIO_SND_R_CHMAP_INFO : Z := 0x0200.
Definition VIRTIO_SND_S_OK : Z := 0x8000.
Definition VIRTIO_SND_S_BAD_MSG : Z := 0x8001.
Definition VIRTIO_SND_S_NOT_SUPP : Z := 0x8002.
Definition VIRTIO_SND_S_IO_ERR : Z := 0x8003.
Definition VIRTIO_SND_D_OUTPUT : Z := 0.
Definition VIRTIO_SND_D_INPUT : Z := 1.
Definition VIRTIO_SND_PCM_FMT_IMA_ADPCM : Z := 0.
Definition VIRTIO_SND_PCM_FMT_MU_LAW : Z := 1.
Definition VIRTIO_SND_PCM_FMT_A_LAW : Z := 2.
Definition VIRTIO_SND_PCM_FMT_S8 : Z := 3.
Definition VIRTIO_SND_PCM_FMT_U8 : Z := 4.
Definition VIRTIO_SND_PCM_FMT_S16 : Z := 5.
Definition VIRTIO_SND_PCM_FMT_U16 : Z := 6.
Definition VIRTIO_SND_PCM_FMT_S18_3 : Z := 7.
Definition VIRTIO_SND_PCM_FMT_U18_3 : Z := 8.
Definition VIRTIO_SND_PCM_FMT_S20_3 : Z := 9.
Definition VIRTIO_SND_PCM_FMT_U20_3 : Z := 10.
Definition VIRTIO_SND_PCM_FMT_S24_3 : Z := 11.
Definition VIRTIO_SND_PCM_FMT_U24_3 : Z := 12.
Definition VIRTIO_SND_PCM_FMT_S20 : Z := 13.
Definition VIRTIO_SND_PCM_FMT_U20 : Z := 14.
Definition VIRTIO_SND_PCM_FMT_S24 : Z := 15.
Definition VIRTIO_SND_PCM_FMT_U24 : Z := 16.
Definition VIRTIO_SND_PCM_FMT_S32 : Z := 17.
Definition VIRTIO_SND_PCM_FMT_U32 : Z := 18.
Definition VIRTIO_SND_PCM_FMT_FLOAT : Z := 19.
Definition VIRTIO_SND_PCM_FMT_FLOAT64 : Z := 20.
Definition VIRTIO_SND_PCM_FMT_DSD_U8 : Z := 21.
Definition VIRTIO_SND_PCM_FMT_DSD_U16 : Z := 22.
Definition VIRTIO_SND_PCM_FMT_DSD_U32 : Z := 23.
Definition VIRTIO_SND_PCM_FMT_IEC958_SUBFRAME : Z := 24.
Definition VIRTIO_SND_PCM_RATE_5512 : Z := 0.
Definition VIRTIO_SND_PCM_RATE_8000 : Z := 1.
Definition VIRTIO_SND_PCM_RATE_11025 : Z := 2.
Definition VIRTIO_SND_PCM_RATE_16000 : Z := 3.
Definition VIRTIO_SND_PCM_RATE_22050 : Z := 4.
Definition VIRTIO_SND_PCM_RATE_32000 : Z := 5.
Definition VIRTIO_SND_PCM_RATE_44100 : Z := 6.
Definition VIRTIO_SND_PCM_RATE_48000 : Z := 7.
Definition VIRTIO_SND_PCM_RATE_64000 : Z := 8.
Definition VIRTIO_SND_PCM_RATE_88200 : Z := 9.
Definition VIRTIO_SND_PCM_RATE_96000 : Z := 10.
Definition VIRTIO_SND_PCM_RATE_176400 : Z := 11.
Definition VIRTIO_SND_PCM_RATE_192000 : Z := 12.
Definition VIRTIO_SND_PCM_RATE_384000 : Z := 13.
Definition VIRTIO_SND_CHMAP_NONE : Z := 0.
Definition VIRTIO_SND_CHMAP_FL : Z := 3.
Definition VIRTIO_SND_CHMAP_FR : Z := 4.
Definition VIRTIO_SND_CHMAP_MAX_SIZE : nat := 18.

(** ** Structures

    A structure inside another is written out field by field; padding is one
    field. *)

Record VirtioSoundConfig := mkConfig { jacks : Z; streams : Z; chmaps : Z }.

#[export] Instance VirtioSoundConfig_bytes : ByteValued VirtioSoundConfig := {
  layout := [4; 4; 4]%nat;
  to_fields a := [jacks a; streams a; chmaps a];
  of_fields l := let f n := nth n l 0 in mkConfig (f 0%nat) (f 1%nat) (f 2%nat) }.
#[export] Instance VirtioSoundConfig_laws : ByteValuedLaws VirtioSoundConfig.
Proof. FuseAbi.byte_valued. Qed.

Record VirtioSoundHeader := mkHeader { code : Z }.

#[export] Instance VirtioSoundHeader_bytes : ByteValued VirtioSoundHeader := {
  layout := [4]%nat;
  to_fields a := [code a];
  of_fields l := let f n := nth n l 0 in mkHeader (f 0%nat) }.
#[export] Instance VirtioSoundHeader_laws : ByteValuedLaws VirtioSoundHeader.
Proof. FuseAbi.byte_valued. Qed.

Record VirtioSoundQueryInfo := mkQuery { q_code : Z; start_id : Z; count : Z; q_size : Z }.

#[export] Instance VirtioSoundQueryInfo_bytes : ByteValued VirtioSoundQueryInfo := {
  layout := [4; 4; 4; 4]%nat;
  to_fields a := [q_code a; start_id a; count a; q_size a];
  of_fields l := let f n := nth n l 0 in mkQuery (f 0%nat) (f 1%nat) (f 2%nat) (f 3%nat) }.
#[export] Instance VirtioSoundQueryInfo_laws : ByteValuedLaws VirtioSoundQueryInfo.
Proof. FuseAbi.byte_valued. Qed.

Record VirtioSoundJackInfo := mkJack { jack_hda_fn_nid : Z; jack_feature : Z; hda_reg_defconf : Z; hda_reg_caps : Z; connected : Z; jack_padding : Z }.

#[export] Instance VirtioSoundJackInfo_bytes : ByteValued VirtioSoundJackInfo := {
  layout := [4; 4; 4; 4; 1; 7]%nat;
  to_fields a := [jack_hda_fn_nid a; jack_feature a; hda_reg_defconf a; hda_reg_caps a; connected a; jack_padding a];
  of_fields l := let f n := nth n l 0 in mkJack (f 0%nat) (f 1%nat) (f 2%nat) (f 3%nat) (f 4%nat) (f 5%nat) }.
#[export] Instance VirtioSoundJackInfo_laws : ByteValuedLaws VirtioSoundJackInfo.
Proof. FuseAbi.byte_valued. Qed.

Record VirtioSoundPcmHeader := mkPcmHeader { ph_code : Z; ph_stream_id : Z }.

#[export] Instance VirtioSoundPcmHeader_bytes : ByteValued VirtioSoundPcmHeader := {
  layout := [4; 4]%nat;
  to_fields a := [ph_code a; ph_stream_id a];
  of_fields l := let f n := nth n l 0 in mkPcmHeader (f 0%nat) (f 1%nat) }.
#[export] Instance VirtioSoundPcmHeader_laws : ByteValuedLaws VirtioSoundPcmHeader.
Proof. FuseAbi.byte_valued. Qed.

Record VirtioSoundPcmInfo := mkPcmInfo { pi_hda_fn_nid : Z; pi_features : Z; pi_formats : Z; pi_rates : Z; pi_direction : Z; pi_channels_min : Z; pi_channels_max : Z; pi_padding : Z }.

#[export] Instance VirtioSoundPcmInfo_bytes : ByteValued VirtioSoundPcmInfo := {
  layout := [4; 4; 8; 8; 1; 1; 1; 5]%nat;
  to_fields a := [pi_hda_fn_nid a; pi_features a; pi_formats a; pi_rates a; pi_direction a; pi_channels_min a; pi_channels_max a; pi_padding a];
  of_fields l := let f n := nth n l 0 in mkPcmInfo (f 0%nat) (f 1%nat) (f 2%nat) (f 3%nat) (f 4%nat) (f 5%nat) (f 6%nat) (f 7%nat) }.
#[export] Instance VirtioSoundPcmInfo_laws : ByteValuedLaws VirtioSoundPcmInfo.
Proof. FuseAbi.byte_valued. Qed.

Record VirtioSndPcmSetParams := mkSetParams { sp_code : Z; sp_stream_id : Z; sp_buffer_bytes : Z; sp_period_bytes : Z; sp_features : Z; sp_channels : Z; sp_format : Z; sp_rate : Z; sp_padding : Z }.

#[export] Instance VirtioSndPcmSetParams_bytes : ByteValued VirtioSndPcmSetParams := {
  layout := [4; 4; 4; 4; 4; 1; 1; 1; 1]%nat;
  to_fields a := [sp_code a; sp_stream_id a; sp_buffer_bytes a; sp_period_bytes a; sp_features a; sp_channels a; sp_format a; sp_rate a; sp_padding a];
  of_fields l := let f n := nth n l 0 in mkSetParams (f 0%nat) (f 1%nat) (f 2%nat) (f 3%nat) (f 4%nat) (f 5%nat) (f 6%nat) (f 7%nat) (f 8%nat) }.
#[export] Instance VirtioSndPcmSetParams_laws : ByteValuedLaws VirtioSndPcmSetParams.
Proof. FuseAbi.byte_valued. Qed.

Record VirtioSoundPcmXfer := mkXfer { x_stream_id : Z }.

#[export] Instance VirtioSoundPcmXfer_bytes : ByteValued VirtioSoundPcmXfer := {
  layout := [4]%nat;
  to_fields a := [x_stream_id a];
  of_fields l := let f n := nth n l 0 in mkXfer (f 0%nat) }.
#[export] Instance VirtioSoundPcmXfer_laws : ByteValuedLaws VirtioSoundPcmXfer.
Proof. FuseAbi.byte_valued. Qed.

Record VirtioSoundPcmStatus := mkStatus { st_status : Z; st_latency_bytes : Z }.

#[export] Instance VirtioSoundPcmStatus_bytes : ByteValued VirtioSoundPcmStatus := {
  layout := [4; 4]%nat;
  to_fields a := [st_status a; st_latency_bytes a];
  of_fields l := let f n := nth n l 0 in mkStatus (f 0%nat) (f 1%nat) }.
#[export] Instance VirtioSoundPcmStatus_laws : ByteValuedLaws VirtioSoundPcmStatus.
Proof. FuseAbi.byte_valued. Qed.

(** The channel map has a list of positions, one byte each. *)
Record VirtioSoundChmapInfo := mkChmap { cm_hda_fn_nid : Z; cm_direction : Z; cm_channels : Z; positions : list Z }.

Definition chmap_slice (c : VirtioSoundChmapInfo) : list byte :=
  le_bytes 4 (cm_hda_fn_nid c) ++ le_bytes 1 (cm_direction c) ++ le_bytes 1 (cm_channels c) ++ flat_map (le_bytes 1) (positions c).

(** ** Message kinds *)

Inductive ControlMessageKind :=
| JackInfo | JackRemap | PcmInfo | PcmSetParams | PcmPrepare | PcmRelease | PcmStart | PcmStop | ChmapInfo.

Definition kind_try_from (val : Z) : option ControlMessageKind :=
  if val =? VIRTIO_SND_R_JACK_INFO then Some JackInfo
  else if val =? VIRTIO_SND_R_JACK_REMAP then Some JackRemap
  else if val =? VIRTIO_SND_R_PCM_INFO then Some PcmInfo
  else if val =? VIRTIO_SND_R_PCM_SET_PARAMS then Some PcmSetParams
  else if val =? VIRTIO_SND_R_PCM_PREPARE then Some PcmPrepare
  else if val =? VIRTIO_SND_R_PCM_RELEASE then Some PcmRelease
  else if val =? VIRTIO_SND_R_PCM_START then Some PcmStart
  else if val =? VIRTIO_SND_R_PCM_STOP then Some PcmStop
  else if val =? VIRTIO_SND_R_CHMAP_INFO then Some ChmapInfo
  else None.
End SndAbi.
