(* ===== verification/Snd.v ===== *)
(** * The sound device ([devices/src/virtio/snd/])

    The worker of the device ([worker.rs]) with its PCM streams ([stream.rs]),
    the messages of the data queues ([mod.rs]), the PipeWire back end
    ([audio_backends/pipewire.rs]) as far as it is this program's code, and the
    device ([device.rs]).  A message of a data queue is answered when the last
    of its buffers is dropped; the reference count of its [Arc] is a field.
    Calls of the PipeWire library succeed or fail as the parameter [pw_ok] says;
    a connected stream is the configuration it was connected with.  The
    theorems: the life cycle of a stream and when the worker panics; in every
    reachable state a prepared stream is connected and every buffer has its
    message; what is played and captured. *)

From S2P Require Import Prelude GuestMem VirtQueue FuseAbi ConsolePort SndAbi.

Module Snd.
Import VirtQueue SndAbi.
Import FuseAbi(size_of, as_slice, from_slice).
Import ConsolePort(try_access, access_loop_pieces).

Definition NUM_QUEUES : nat := 4.
Definition QUEUE_SIZES : list Z := replicate NUM_QUEUES 256.
Definition CTL_INDEX : nat := 0.
Definition EVT_INDEX : nat := 1.
Definition TXQ_INDEX : nat := 2.
Definition RXQ_INDEX : nat := 3.
Definition QUEUE_INDEXES : list nat := [CTL_INDEX; EVT_INDEX; TXQ_INDEX; RXQ_INDEX].
Definition VIRTIO_MMIO_INT_VRING : Z := 1.
Definition VIRTIO_F_VERSION_1 : Z := 32.
Definition VIRTIO_ID_SND : Z := 25.
Definition VIRTIO_RING_F_EVENT_IDX : Z := 29.
Definition AVAIL_FEATURES : Z := 1 .<< VIRTIO_F_VERSION_1.

Definition SUPPORTED_FORMATS : Z :=
  (1 .<< VIRTIO_SND_PCM_FMT_U8) .| (1 .<< VIRTIO_SND_PCM_FMT_S16) .| (1 .<< VIRTIO_SND_PCM_FMT_S24) .| (1 .<< VIRTIO_SND_PCM_FMT_S32).

Definition SUPPORTED_RATES : Z :=
  (1 .<< VIRTIO_SND_PCM_RATE_8000) .| (1 .<< VIRTIO_SND_PCM_RATE_11025) .| (1 .<< VIRTIO_SND_PCM_RATE_16000)
  .| (1 .<< VIRTIO_SND_PCM_RATE_22050) .| (1 .<< VIRTIO_SND_PCM_RATE_32000) .| (1 .<< VIRTIO_SND_PCM_RATE_44100)
  .| (1 .<< VIRTIO_SND_PCM_RATE_48000).

(** ** Streams *)

Inductive Direction := Output | Input.

Definition direction_code (d : Direction) : Z := match d with Output => VIRTIO_SND_D_OUTPUT | Input => VIRTIO_SND_D_INPUT end.

Definition direction_try_from (val : Z) : option Direction :=
  if val =? VIRTIO_SND_D_OUTPUT then Some Output else if val =? VIRTIO_SND_D_INPUT then Some Input else None.

Inductive PCMState := SetParameters | Prepare | Release | Start | Stop.

#[export] Instance PCMState_eq_dec : EqDecision PCMState.
Proof. solve_decision. Defined.

Inductive StreamError :=
| InvalidState (state : PCMState)
| InvalidStateTransition (from to : PCMState)
| CouldNotDisconnectStream.

(** The macro [set_new_state]. *)
Definition set_new_state (new_state : PCMState) (valid_source_states : list PCMState) (s : PCMState) : result StreamError PCMState :=
  if bool_decide (s ∈ valid_source_states) then Ok new_state else Err (InvalidStateTransition s new_state).

Definition state_set_parameters : PCMState -> result StreamError PCMState := set_new_state SetParameters [SetParameters; Prepare; Release].
Definition state_prepare : PCMState -> result StreamError PCMState := set_new_state Prepare [SetParameters; Prepare; Release].
Definition state_start : PCMState -> result StreamError PCMState := set_new_state Start [Prepare; Stop].
Definition state_stop : PCMState -> result StreamError PCMState := set_new_state Stop [Start].
Definition state_release : PCMState -> result StreamError PCMState := set_new_state Release [Prepare; Stop].

Record PcmParams := mkParams {
  buffer_bytes : Z; period_bytes : Z; features : Z; channels : Z; format : Z; rate : Z }.

Definition PcmParams_default : PcmParams := mkParams 8192 4096 0 1 VIRTIO_SND_PCM_FMT_S16 VIRTIO_SND_PCM_RATE_44100.

(** A buffer of a data message; [message] names the shared [IOMessage]. *)
Record Buffer := mkBuffer { data_descriptor : Descriptor; pos : Z; message : nat; buf_direction : Direction }.

Definition Buffer_new (d : Descriptor) (message : nat) (direction : Direction) : Buffer := mkBuffer d 0 message direction.

Definition desc_len (b : Buffer) : Z := d_len (data_descriptor b).

Definition set_pos (b : Buffer) (p : Z) : Buffer := mkBuffer (data_descriptor b) p (message b) (buf_direction b).

Record Stream := mkStream {
  id : Z; params : PcmParams; formats : Z; rates : Z; direction : Direction; channels_min : Z; channels_max : Z;
  state : PCMState; buffers : list Buffer }.

Definition Stream_default : Stream := mkStream 0 PcmParams_default SUPPORTED_FORMATS SUPPORTED_RATES Output 1 6 SetParameters [].

Definition set_state (s : Stream) (st : PCMState) : Stream :=
  mkStream (id s) (params s) (formats s) (rates s) (direction s) (channels_min s) (channels_max s) st (buffers s).

Definition set_params (s : Stream) (p : PcmParams) : Stream :=
  mkStream (id s) p (formats s) (rates s) (direction s) (channels_min s) (channels_max s) (state s) (buffers s).

Definition set_buffers (s : Stream) (l : list Buffer) : Stream :=
  mkStream (id s) (params s) (formats s) (rates s) (direction s) (channels_min s) (channels_max s) (state s) l.

(** [1_u64 << format]: the release build takes the amount modulo 64. *)
Definition supports_format (s : Stream) (format : Z) : bool := negb (formats s .& (1 .<< (format mod 64)) =? 0).

Definition supports_rate (s : Stream) (rate : Z) : bool := negb (rates s .& (1 .<< (rate mod 64)) =? 0).

(** ** Errors *)

Inductive SndError :=
| DescriptorReadFailed
| DescriptorWriteFailed
| UnexpectedAudioBackendConfiguration
| UnexpectedWriteOnlyDescriptor (index : Z)
| UnexpectedReadableDescriptor (index : Z)
| UnexpectedDescriptorCount (n : nat)
| UnexpectedDescriptorSize (expected found : Z)
| FromStream (e : StreamError)
| StreamWithIdNotFound (id : Z)
| ChannelNotSupported (n : Z).

(** ** The PipeWire back end's data *)

Inductive Channel := UNKNOWN | MONO | FL | FR | FC | LFE | RL | RR | RC.

Inductive AudioFormat :=
| ULAW | ALAW | S8 | U8 | S16 | U16 | S18_LE | U18_LE | S20_LE | U20_LE | S24_LE | U24_LE | S20 | U20 | S24 | U24 | S32 | U32 | F32 | F64
| FORMAT_UNKNOWN.

(** [position] of a stream: the channels in use, the other slots of 64 unknown. *)
Definition channel_positions (n : Z) : option (list Channel) :=
  let fill l := l ++ replicate (64 - length l) UNKNOWN in
  if n =? 6 then Some (fill [FL; FR; FC; LFE; RL; RR])
  else if n =? 5 then Some (fill [FL; FR; FC; LFE; RC])
  else if n =? 4 then Some (fill [FL; FR; FC; RC])
  else if n =? 3 then Some (fill [FL; FR; LFE])
  else if n =? 2 then Some (fill [FL; FR])
  else if n =? 1 then Some (fill [MONO])
  else None.

Definition spa_format (f : Z) : AudioFormat :=
  if f =? VIRTIO_SND_PCM_FMT_MU_LAW then ULAW else if f =? VIRTIO_SND_PCM_FMT_A_LAW then ALAW
  else if f =? VIRTIO_SND_PCM_FMT_S8 then S8 else if f =? VIRTIO_SND_PCM_FMT_U8 then U8
  else if f =? VIRTIO_SND_PCM_FMT_S16 then S16 else if f =? VIRTIO_SND_PCM_FMT_U16 then U16
  else if f =? VIRTIO_SND_PCM_FMT_S18_3 then S18_LE else if f =? VIRTIO_SND_PCM_FMT_U18_3 then U18_LE
  else if f =? VIRTIO_SND_PCM_FMT_S20_3 then S20_LE else if f =? VIRTIO_SND_PCM_FMT_U20_3 then U20_LE
  else if f =? VIRTIO_SND_PCM_FMT_S24_3 then S24_LE else if f =? VIRTIO_SND_PCM_FMT_U24_3 then U24_LE
  else if f =? VIRTIO_SND_PCM_FMT_S20 then S20 else if f =? VIRTIO_SND_PCM_FMT_U20 then U20
  else if f =? VIRTIO_SND_PCM_FMT_S24 then S24 else if f =? VIRTIO_SND_PCM_FMT_U24 then U24
  else if f =? VIRTIO_SND_PCM_FMT_S32 then S32 else if f =? VIRTIO_SND_PCM_FMT_U32 then U32
  else if f =? VIRTIO_SND_PCM_FMT_FLOAT then F32 else if f =? VIRTIO_SND_PCM_FMT_FLOAT64 then F64
  else FORMAT_UNKNOWN.

Definition pcm_rate (r : Z) : Z :=
  if r =? VIRTIO_SND_PCM_RATE_5512 then 5512 else if r =? VIRTIO_SND_PCM_RATE_8000 then 8000
  else if r =? VIRTIO_SND_PCM_RATE_11025 then 11025 else if r =? VIRTIO_SND_PCM_RATE_16000 then 16000
  else if r =? VIRTIO_SND_PCM_RATE_22050 then 22050 else if r =? VIRTIO_SND_PCM_RATE_32000 then 32000
  else if r =? VIRTIO_SND_PCM_RATE_44100 then 44100 else if r =? VIRTIO_SND_PCM_RATE_48000 then 48000
  else if r =? VIRTIO_SND_PCM_RATE_64000 then 64000 else if r =? VIRTIO_SND_PCM_RATE_88200 then 88200
  else if r =? VIRTIO_SND_PCM_RATE_96000 then 96000 else if r =? VIRTIO_SND_PCM_RATE_176400 then 176400
  else if r =? VIRTIO_SND_PCM_RATE_192000 then 192000 else if r =? VIRTIO_SND_PCM_RATE_384000 then 384000
  else 44100.

(** [spa_audio_info_raw] as the back end fills it. *)
Record AudioInfo := mkInfo { ai_format : AudioFormat; ai_rate : Z; ai_channels : Z; ai_position : list Channel }.

(** A connected PipeWire stream: the format it was connected with, its
    direction, and whether it is active. *)
Record PwStream := mkPw { pw_format : AudioFormat; pw_rate : Z; pw_channels : Z; pw_position : list Channel; pw_direction : Direction; pw_active : bool }.

Section worker.
Context {M : Type} `{GuestMemory M}.

(** Whether the n-th write of the interrupt event, and the n-th call of the
    PipeWire library, succeeds. *)
Context (irq_ok pw_ok : nat -> bool).

(** [vring]: the index of the queue; [refs]: the strong count of the [Arc]. *)
Record IOMessage := mkMessage {
  status : Z; used_len : Z; latency_bytes : Z; head_index : Z; response_descriptor : Descriptor; vring : nat; refs : nat }.

(** The interrupt of the device. *)
Record Irq := mkIrq { interrupt_status : Z; irqs : nat; intc : bool; irq_line : option Z }.

(** [stream_hash]: the connected streams (the map of listeners has the same
    keys); [pw_calls]: calls of the library so far. *)
Record PwBackend := mkBackend { stream_hash : gmap Z PwStream; pw_calls : nat }.

Record SndWorker := mkWorker {
  vrings : list Queue;
  mem : M;
  irq : Irq;
  streams : list Stream;
  jacks : list VirtioSoundJackInfo;
  chmaps : list VirtioSoundChmapInfo;
  messages : gmap nat IOMessage;
  next_message : nat;
  audio_backend : PwBackend }.

Definition set_vring (w : SndWorker) (i : nat) (q : Queue) (m : M) : SndWorker :=
  mkWorker (<[i := q]> (vrings w)) m (irq w) (streams w) (jacks w) (chmaps w) (messages w) (next_message w) (audio_backend w).

Definition set_mem (w : SndWorker) (m : M) : SndWorker :=
  mkWorker (vrings w) m (irq w) (streams w) (jacks w) (chmaps w) (messages w) (next_message w) (audio_backend w).

Definition set_irq (w : SndWorker) (i : Irq) : SndWorker :=
  mkWorker (vrings w) (mem w) i (streams w) (jacks w) (chmaps w) (messages w) (next_message w) (audio_backend w).

Definition set_streams (w : SndWorker) (l : list Stream) : SndWorker :=
  mkWorker (vrings w) (mem w) (irq w) l (jacks w) (chmaps w) (messages w) (next_message w) (audio_backend w).

Definition set_messages (w : SndWorker) (ms : gmap nat IOMessage) : SndWorker :=
  mkWorker (vrings w) (mem w) (irq w) (streams w) (jacks w) (chmaps w) ms (next_message w) (audio_backend w).

Definition set_backend (w : SndWorker) (b : PwBackend) : SndWorker :=
  mkWorker (vrings w) (mem w) (irq w) (streams w) (jacks w) (chmaps w) (messages w) (next_message w) b.

(** [SndWorker::new] *)
Definition new (qs : list Queue) (i : Irq) (m : M) : outcome SndWorker :=
  let positions := [VIRTIO_SND_CHMAP_FL; VIRTIO_SND_CHMAP_FR] ++ replicate (VIRTIO_SND_CHMAP_MAX_SIZE - 2) VIRTIO_SND_CHMAP_NONE in
  let chmap d := mkChmap 0 d 2 positions in
  let stream i d := mkStream i PcmParams_default SUPPORTED_FORMATS SUPPORTED_RATES d 1 6 SetParameters [] in
  vs ← unwrap (mapM (fun idx => qs !! idx) QUEUE_INDEXES);
  Ret (mkWorker vs m i [stream 0 Output; stream 1 Input] [] [chmap VIRTIO_SND_D_OUTPUT; chmap VIRTIO_SND_D_INPUT] ∅ 0 (mkBackend ∅ 0)).

(** [Vring::signal_used_queue]; a failed write of the event is logged. *)
Definition signal_used_queue (w : SndWorker) : outcome SndWorker :=
  let i := irq w in
  let raised n := set_irq w (mkIrq (interrupt_status i .| VIRTIO_MMIO_INT_VRING) n (intc i) (irq_line i)) in
  if intc i then _ ← unwrap (irq_line i); Ret (raised (S (irqs i)))
  else Ret (raised (if irq_ok (irqs i) then S (irqs i) else irqs i)).

(** ** The end of a message *)

(** [IOMessage::drop]: the status goes to the response descriptor and the chain
    back to the driver. *)
Definition drop_message (w : SndWorker) (msg : IOMessage) : outcome SndWorker :=
  match gm_write (mem w) (d_addr (response_descriptor msg)) (as_slice (mkStatus (status msg) (latency_bytes msg))) with
  | None => Ret w
  | Some m =>
      q ← unwrap (vrings w !! vring msg);
      let '(_, q, m) := add_used m q (head_index msg) (8 +[32] used_len msg) in
      signal_used_queue (set_vring w (vring msg) q m)
  end.

(** The drop of one reference to a message. *)
Definition drop_ref (w : SndWorker) (k : nat) : outcome SndWorker :=
  match messages w !! k with
  | None => Ret w
  | Some msg =>
      if (refs msg <=? 1)%nat then drop_message (set_messages w (delete k (messages w))) msg
      else
        Ret (set_messages w (<[k := mkMessage (status msg) (used_len msg) (latency_bytes msg) (head_index msg) (response_descriptor msg)
                                      (vring msg) (refs msg - 1)]> (messages w)))
  end.

(** [Buffer::drop], then the drop of its fields. *)
Definition drop_buffer (w : SndWorker) (b : Buffer) : outcome SndWorker :=
  let count msg :=
    match buf_direction b with
    | Input =>
        let n := Z.min (wrap 32 (pos b)) (desc_len b) in
        mkMessage (status msg) (used_len msg +[32] n) (latency_bytes msg +[32] n) (head_index msg) (response_descriptor msg) (vring msg) (refs msg)
    | Output =>
        mkMessage (status msg) (used_len msg) (latency_bytes msg +[32] desc_len b) (head_index msg) (response_descriptor msg) (vring msg) (refs msg)
    end in
  drop_ref (set_messages w (alter count (message b) (messages w))) (message b).

Fixpoint drop_buffers (w : SndWorker) (l : list Buffer) : outcome SndWorker :=
  match l with
  | [] => Ret w
  | b :: l => w ← drop_buffer w b; drop_buffers w l
  end.

(** ** The PipeWire back end *)

Definition call_pw (b : PwBackend) : bool * PwBackend := (pw_ok (pw_calls b), mkBackend (stream_hash b) (S (pw_calls b))).

Definition update_stream (w : SndWorker) (i : nat) (f : Stream -> Stream) : SndWorker := set_streams w (alter f i (streams w)).

(** [write] and [read] of the back end only look at the state. *)
Definition pw_write (w : SndWorker) (stream_id : Z) : outcome (result SndError unit) :=
  s ← unwrap (streams w !! Z.to_nat stream_id);
  match state s with
  | Start | Prepare => Ret (Ok tt)
  | st => Ret (Err (FromStream (InvalidState st)))
  end.

Definition pw_set_parameters (w : SndWorker) (stream_id : Z) (request : VirtioSndPcmSetParams) : result SndError unit * SndWorker :=
  match streams w !! Z.to_nat stream_id with
  | None => (Err (StreamWithIdNotFound stream_id), w)
  | Some st =>
      match state_set_parameters (state st) with
      | Err e => (Err (FromStream e), w)
      | Ok new_state =>
          let st := set_state st new_state in
          if negb (supports_format st (sp_format request)) || negb (supports_rate st (sp_rate request))
          then (Err UnexpectedAudioBackendConfiguration, set_streams w (<[Z.to_nat stream_id := st]> (streams w)))
          else
            let p := mkParams (sp_buffer_bytes request) (sp_period_bytes request) (sp_features request) (sp_channels request)
                       (sp_format request) (sp_rate request) in
            (Ok tt, set_streams w (<[Z.to_nat stream_id := set_params st p]> (streams w)))
      end
  end.

(** The change of state every other request starts with. *)
Definition pw_transition (w : SndWorker) (stream_id : Z) (f : PCMState -> result StreamError PCMState) : result SndError (Stream * SndWorker) :=
  match streams w !! Z.to_nat stream_id with
  | None => Err (StreamWithIdNotFound stream_id)
  | Some st =>
      match f (state st) with
      | Err e => Err (FromStream e)
      | Ok new_state =>
          let st := set_state st new_state in Ok (st, set_streams w (<[Z.to_nat stream_id := st]> (streams w)))
      end
  end.

Definition audio_info (p : PcmParams) (position : list Channel) : AudioInfo :=
  mkInfo (spa_format (format p)) (pcm_rate (rate p)) (channels p) position.

(** [prepare]: an old stream is disconnected, a new one created, given a
    listener and connected. *)
Definition pw_prepare (w : SndWorker) (stream_id : Z) : outcome (result SndError unit * SndWorker) :=
  match pw_transition w stream_id state_prepare with
  | Err e => Ret (Err e, w)
  | Ok (st, w) =>
      let b := audio_backend w in
      let '(disconnected, b) :=
        match stream_hash b !! stream_id with
        | Some _ => call_pw (mkBackend (delete stream_id (stream_hash b)) (pw_calls b))
        | None => (true, b)
        end in
      if negb disconnected then Ret (Err (FromStream CouldNotDisconnectStream), set_backend w b)
      else
        match channel_positions (channels (params st)) with
        | None => Ret (Err (ChannelNotSupported (channels (params st))), set_backend w b)
        | Some position =>
            let info := audio_info (params st) position in
            let '(created, b) := call_pw b in
            let '(registered, b) := call_pw b in
            let '(connected, b) := call_pw b in
            if created && registered && connected then
              let stream := mkPw S16 (ai_rate info) (ai_channels info) (ai_position info) (direction st) false in
              Ret (Ok tt, set_backend w (mkBackend (<[stream_id := stream]> (stream_hash b)) (pw_calls b)))
            else Panic
        end
  end.

(** [release]: the stream is disconnected and its buffers are dropped. *)
Definition pw_release (w : SndWorker) (stream_id : Z) : outcome (result SndError unit * SndWorker) :=
  match pw_transition w stream_id state_release with
  | Err e => Ret (Err e, w)
  | Ok (st, w) =>
      let b := audio_backend w in
      _ ← unwrap (stream_hash b !! stream_id);
      let '(disconnected, b) := call_pw b in
      if negb disconnected then Panic
      else
        let w := set_streams (set_backend w b) (<[Z.to_nat stream_id := set_buffers st []]> (streams w)) in
        w ← drop_buffers w (buffers st);
        Ret (Ok tt, set_backend w (mkBackend (delete stream_id (stream_hash b)) (pw_calls b)))
  end.

(** [start] and [stop] differ in the state and in [set_active]. *)
Definition pw_set_active (active : bool) (f : PCMState -> result StreamError PCMState) (w : SndWorker) (stream_id : Z)
    : outcome (result SndError unit * SndWorker) :=
  match pw_transition w stream_id f with
  | Err e => Ret (Err e, w)
  | Ok (_, w) =>
      let b := audio_backend w in
      s ← unwrap (stream_hash b !! stream_id);
      let '(ok, b) := call_pw b in
      if ok then
        let s := mkPw (pw_format s) (pw_rate s) (pw_channels s) (pw_position s) (pw_direction s) active in
        Ret (Ok tt, set_backend w (mkBackend (<[stream_id := s]> (stream_hash b)) (pw_calls b)))
      else Panic
  end.

Definition pw_start : SndWorker -> Z -> outcome (result SndError unit * SndWorker) := pw_set_active true state_start.
Definition pw_stop : SndWorker -> Z -> outcome (result SndError unit * SndWorker) := pw_set_active false state_stop.

(** *** The callbacks of the PipeWire thread *)

(** One region's share of [mem.read], added to what was read before. *)
Definition read_share (m : M) (got : list byte) (a n : Z) : fueled (result unit Z * list byte) :=
  match gm_read m a (Z.to_nat n) with Some bs => Some (Ret (Ok n, got ++ bs)) | None => Some (Ret (Err tt, got)) end.

(** [mem.read]: the bytes that could be read. *)
Definition mem_read (m : M) (a n : Z) : fueled (result unit (list byte)) :=
  '(r, got) ← try_access (gm_find_region m) (read_share m) n a [];
  match r with Ok _ => Some (Ret (Ok got)) | Err e => Some (Ret (Err e)) end.

(** One region's share of [mem.write]: the memory, and the bytes still to be
    written. *)
Definition write_share (s : M * list byte) (a n : Z) : fueled (result unit Z * (M * list byte)) :=
  match gm_write s.1 a (take (Z.to_nat n) s.2) with
  | Some m => Some (Ret (Ok n, (m, drop (Z.to_nat n) s.2)))
  | None => Some (Ret (Err tt, s))
  end.

(** [mem.write]: how many bytes could be written. *)
Definition mem_write (m : M) (a : Z) (bs : list byte) : fueled (result unit Z * M) :=
  '(r, s) ← try_access (gm_find_region m) write_share (Z.of_nat (length bs)) a (m, bs);
  Some (Ret (r, s.1)).

(** [Buffer::read_output] into a slice of [n] bytes. *)
Definition read_output (m : M) (b : Buffer) (n : Z) : fueled (result SndError (list byte)) :=
  match checked_add 64 (d_addr (data_descriptor b)) (pos b) with
  | None => Some Panic
  | Some a => r ← mem_read m a n; Some (Ret (match r with Ok bs => Ok bs | Err _ => Err DescriptorReadFailed end))
  end.

(** [Buffer::write_input] *)
Definition write_input (m : M) (b : Buffer) (bs : list byte) : fueled (result SndError Z * (Buffer * M)) :=
  if desc_len b <=? wrap 32 (pos b) then Some (Ret (Ok 0, (b, m)))
  else
    match checked_add 64 (d_addr (data_descriptor b)) (pos b) with
    | None => Some Panic
    | Some a =>
        '(r, m') ← mem_write m a bs;
        match r with
        | Ok n => Some (Ret (Ok (wrap 32 n), (set_pos b (pos b +[64] n), m')))
        | Err _ => Some (Ret (Err DescriptorWriteFailed, (b, m)))
        end
    end.

Definition front (w : SndWorker) (i : nat) : option Buffer := s ← streams w !! i; head (buffers s).

Definition set_front (w : SndWorker) (i : nat) (b : Buffer) : SndWorker :=
  update_stream w i (fun s => set_buffers s (match buffers s with [] => [] | _ :: l => b :: l end)).

(** [pop_front]; the buffer is dropped. *)
Definition pop_front (w : SndWorker) (i : nat) : outcome SndWorker :=
  match front w i with
  | None => Ret w
  | Some b => drop_buffer (update_stream w i (fun s => set_buffers s (tail (buffers s)))) b
  end.

(** The loop of the capture callback over [n_samples] captured bytes. *)
Fixpoint capture (fuel : nat) (w : SndWorker) (i : nat) (slice : list byte) : fueled SndWorker :=
  match fuel with
  | O => None
  | S fuel =>
      match slice with
      | [] => Some (Ret w)
      | _ =>
          match front w i with
          | None => Some (Ret w)
          | Some b =>
              let avail := Z.max 0 (desc_len b - pos b) in
              let n_bytes := Z.min (Z.of_nat (length slice)) avail in
              '(r, (b, m)) ← write_input (mem w) b (take (Z.to_nat n_bytes) slice);
              match r with
              | Err _ => Some Panic
              | Ok n =>
                  let w := set_front (set_mem w m) i b in
                  if n =? 0 then Some (Ret w)
                  else if desc_len b <=? pos b then w ← Some (pop_front w i); capture fuel w i (drop (Z.to_nat n_bytes) slice)
                  else capture fuel w i (drop (Z.to_nat n_bytes) slice)
              end
          end
      end
  end.

(** The capture callback; [None] is a stream that does not exist. *)
Definition process_input (w : SndWorker) (i : nat) (slice : list byte) : fueled SndWorker :=
  match streams w !! i with None => Some Panic | Some _ => capture (S (length slice)) w i slice end.

(** The playback callback fills a slice of PipeWire and says how much of it
    counts; [None]: no buffer is queued and the chunk is left alone. *)
Definition process_output (w : SndWorker) (i : nat) (slice : list byte) : fueled (option (list byte) * SndWorker) :=
  match streams w !! i with
  | None => Some Panic
  | Some _ =>
      match front w i with
      | None => Some (Ret (None, w))
      | Some b =>
          let avail := Z.max 0 (desc_len b - pos b) in
          let n_bytes := Z.min (Z.of_nat (length slice)) avail in
          if avail =? 0 then Some (Ret (Some (replicate (Z.to_nat n_bytes) 0), w))
          else
            r ← read_output (mem w) b n_bytes;
            match r with
            | Err _ => Some Panic
            | Ok bs =>
                let b := set_pos b (pos b + n_bytes) in
                let w := set_front w i b in
                let chunk := bs ++ drop (length bs) (take (Z.to_nat n_bytes) slice) in
                w ← Some (if desc_len b <=? pos b then pop_front w i else Ret w);
                Some (Ret (Some chunk, w))
            end
      end
  end.

(** ** Control messages *)

(** A structure read from a descriptor. *)
Definition read_obj (A : Type) `{FuseAbi.ByteValued A} (w : SndWorker) (d : DescriptorChain) : result SndError A :=
  match gm_read (mem w) (addr d) (size_of A) with
  | Some bs => Ok (from_slice bs)
  | None => Err DescriptorReadFailed
  end.

Definition pcm_info (s : Stream) : VirtioSoundPcmInfo :=
  mkPcmInfo 0 (features (params s)) (formats s) (rates s) (direction_code (direction s)) (channels_min s) (channels_max s) 0.

(** The branches for jacks, streams and channel maps, which differ only in
    what they list: status, used length and memory. *)
Definition query_info (w : SndWorker) (descriptors : list DescriptorChain) (items : list (list byte)) : result SndError (Z * Z * M) :=
  match descriptors with
  | [desc_request; _; desc_response] =>
      if negb (is_write_only desc_response) then Err (UnexpectedReadableDescriptor 2)
      else
        request ← read_obj VirtioSoundQueryInfo w desc_request;
        let n := Z.of_nat (length items) in
        if (n <=? start_id request) || (n <? start_id request + count request) then Ok (VIRTIO_SND_S_BAD_MSG, 0, mem w)
        else
          let buf := concat (take (Z.to_nat (count request)) (drop (Z.to_nat (start_id request)) items)) in
          match gm_write (mem w) (addr desc_response) buf with
          | None => Err DescriptorWriteFailed
          | Some m => Ok (VIRTIO_SND_S_OK, len desc_response, m)
          end
  | _ => Err (UnexpectedDescriptorCount (length descriptors))
  end.

(** The answer to an error of the back end. *)
Definition set_parameters_code (e : SndError) : Z :=
  match e with
  | FromStream _ | StreamWithIdNotFound _ => VIRTIO_SND_S_BAD_MSG
  | UnexpectedAudioBackendConfiguration => VIRTIO_SND_S_NOT_SUPP
  | _ => VIRTIO_SND_S_IO_ERR
  end.

Definition release_code (e : SndError) : Z :=
  match e with FromStream _ | StreamWithIdNotFound _ => VIRTIO_SND_S_BAD_MSG | _ => VIRTIO_SND_S_IO_ERR end.

(** A request on one stream: refused for a stream that does not exist. *)
Definition on_stream (w : SndWorker) (desc_request : DescriptorChain) (f : Z -> outcome (Z * SndWorker)) : outcome (result SndError (Z * Z * SndWorker)) :=
  match read_obj VirtioSoundPcmHeader w desc_request with
  | Err e => Ret (Err e)
  | Ok request =>
      if Z.of_nat (length (streams w)) <=? ph_stream_id request then Ret (Ok (VIRTIO_SND_S_BAD_MSG, 0, w))
      else '(c, w) ← f (ph_stream_id request); Ret (Ok (c, 0, w))
  end.

(** [unwrap] of the back end's result. *)
Definition must (f : Z -> outcome (result SndError unit * SndWorker)) (stream_id : Z) : outcome (Z * SndWorker) :=
  '(r, w) ← f stream_id; match r with Ok _ => Ret (VIRTIO_SND_S_OK, w) | Err _ => Panic end.

Definition release_or_code (w : SndWorker) (stream_id : Z) : outcome (Z * SndWorker) :=
  '(r, w) ← pw_release w stream_id; Ret (match r with Ok _ => VIRTIO_SND_S_OK | Err e => release_code e end, w).

(** What a kind of message does: status, used length, and the new state. *)
Definition control (w : SndWorker) (code : ControlMessageKind) (descriptors : list DescriptorChain) (desc_request : DescriptorChain)
    : outcome (result SndError (Z * Z * SndWorker)) :=
  let info items := match query_info w descriptors items with Ok (c, n, m) => Ok (c, n, set_mem w m) | Err e => Err e end in
  match code with
  | ChmapInfo => Ret (info (chmap_slice <$> chmaps w))
  | JackInfo => Ret (info (as_slice <$> jacks w))
  | JackRemap => Ret (Ok (VIRTIO_SND_S_NOT_SUPP, 0, w))
  | PcmInfo => Ret (info ((fun s => as_slice (pcm_info s)) <$> streams w))
  | PcmSetParams =>
      match read_obj VirtioSndPcmSetParams w desc_request with
      | Err e => Ret (Err e)
      | Ok request =>
          if Z.of_nat (length (streams w)) <=? sp_stream_id request then Ret (Ok (VIRTIO_SND_S_BAD_MSG, 0, w))
          else
            let '(r, w) := pw_set_parameters w (sp_stream_id request) request in
            Ret (Ok (match r with Ok _ => VIRTIO_SND_S_OK | Err e => set_parameters_code e end, 0, w))
      end
  | PcmPrepare => on_stream w desc_request (must (pw_prepare w))
  | PcmRelease => on_stream w desc_request (release_or_code w)
  | PcmStart => on_stream w desc_request (must (pw_start w))
  | PcmStop => on_stream w desc_request (must (pw_stop w))
  end.

Definition process_ctl (w : SndWorker) (i : nat) (head : DescriptorChain) : outcome (result SndError unit * SndWorker) :=
  let descriptors := into_iter (mem w) head in
  match descriptors with
  | desc_request :: desc_hdr :: _ =>
      if is_write_only desc_request then Ret (Err (UnexpectedWriteOnlyDescriptor 0), w)
      else
        match read_obj VirtioSoundHeader w desc_request with
        | Err e => Ret (Err e, w)
        | Ok request =>
            if negb (is_write_only desc_hdr) then Ret (Err (UnexpectedReadableDescriptor 1), w)
            else
              kind ← unwrap (kind_try_from (code request));
              r ← control w kind descriptors desc_request;
              match r with
              | Err e => Ret (Err e, w)
              | Ok (resp, used_len, w) =>
                  m ← unwrap (gm_write (mem w) (addr desc_hdr) (as_slice (mkHeader resp)));
                  q ← unwrap (vrings w !! i);
                  let '(_, q, m) := add_used m q (VirtQueue.index head) used_len in
                  Ret (Ok tt, set_vring w i q m)
              end
        end
  | _ => Ret (Err (UnexpectedDescriptorCount (length descriptors)), w)
  end.

Definition process_evt (w : SndWorker) : outcome (result SndError unit * SndWorker) := Ret (Ok tt, w).

(** ** Data messages *)

Inductive IoState := Ready | WaitingBufferForStreamId (stream_id : Z) | IoDone.

(** The loop over the descriptors: the error that ended it, the buffers not yet
    handed to a stream, and the streams named ([n]: how many descriptors; [k]:
    the message). *)
Fixpoint io_loop (dir : Direction) (n k : nat) (l : list DescriptorChain) (st : IoState) (bufs : list Buffer) (ids : list Z) (w : SndWorker)
    : outcome (option SndError * list Buffer * list Z * SndWorker) :=
  match l with
  | [] => Ret (None, bufs, ids, w)
  | d :: l =>
      match st with
      | IoDone => Ret (Some (UnexpectedDescriptorCount n), bufs, ids, w)
      | Ready =>
          if match dir with Output => is_write_only d | Input => false end then
            if negb (len d =? 8) then Ret (Some (UnexpectedDescriptorSize 8 (len d)), bufs, ids, w)
            else io_loop dir n k l IoDone bufs ids w
          else if negb (len d =? 4) then Ret (Some (UnexpectedDescriptorSize 4 (len d)), bufs, ids, w)
          else
            match read_obj VirtioSoundPcmXfer w d with
            | Err e => Ret (Some e, bufs, ids, w)
            | Ok xfer => io_loop dir n k l (WaitingBufferForStreamId (x_stream_id xfer)) bufs [x_stream_id xfer] w
            end
      | WaitingBufferForStreamId stream_id =>
          if len d =? 8 then
            _ ← unwrap (streams w !! Z.to_nat stream_id);
            io_loop dir n k l IoDone [] ids (update_stream w (Z.to_nat stream_id) (fun s => set_buffers s (buffers s ++ bufs)))
          else if len d =? 4 then
            s ← unwrap (streams w !! Z.to_nat stream_id);
            Ret (Some (UnexpectedDescriptorSize (period_bytes (params s)) (len d)), bufs, ids, w)
          else
            let hold msg := mkMessage (status msg) (used_len msg) (latency_bytes msg) (head_index msg) (response_descriptor msg) (vring msg) (S (refs msg)) in
            io_loop dir n k l st (bufs ++ [Buffer_new (descriptor d) k dir]) ids (set_messages w (alter hold k (messages w)))
      end
  end.

(** [b.write(id).unwrap()] for every stream named. *)
Fixpoint write_all (w : SndWorker) (ids : list Z) : outcome unit :=
  match ids with
  | [] => Ret tt
  | i :: ids => r ← pw_write w i; match r with Ok _ => write_all w ids | Err _ => Panic end
  end.

(** The locals are dropped at the end: the message, then the buffers no stream
    took over. *)
Definition process_io (w : SndWorker) (i : nat) (desc_chain : DescriptorChain) (dir : Direction) : outcome (result SndError unit * SndWorker) :=
  let descriptors := into_iter (mem w) desc_chain in
  match last descriptors with
  | None => Ret (Err (UnexpectedDescriptorCount 0), w)
  | Some d =>
      let k := next_message w in
      let msg := mkMessage VIRTIO_SND_S_OK 0 0 (VirtQueue.index desc_chain) (descriptor d) i 1 in
      let w := mkWorker (vrings w) (mem w) (irq w) (streams w) (jacks w) (chmaps w) (<[k := msg]> (messages w)) (S k) (audio_backend w) in
      '(e, bufs, ids, w) ← io_loop dir (length descriptors) k descriptors Ready [] [] w;
      _ ← (match e with None => write_all w ids | Some _ => Ret tt end);
      w ← drop_ref w k;
      w ← drop_buffers w bufs;
      Ret (match e with None => Ok tt | Some e => Err e end, w)
  end.

(** ** The queues *)

(** One round of [process_queue]; an error is logged. *)
Definition process_round (i : nat) (w : SndWorker) : outcome (bool * SndWorker) :=
  q ← unwrap (vrings w !! i);
  '(h, q) ← pop (mem w) q;
  let w := set_vring w i q (mem w) in
  match h with
  | None => Ret (false, w)
  | Some head =>
      '(_, w) ←
        (if (i =? CTL_INDEX)%nat then process_ctl w i head
         else if (i =? EVT_INDEX)%nat then process_evt w
         else if (i =? RXQ_INDEX)%nat then process_io w i head Input
         else if (i =? TXQ_INDEX)%nat then process_io w i head Output
         else Panic);
      q ← unwrap (vrings w !! i);
      let '(needs, q) := needs_notification (mem w) q in
      let w := set_vring w i q (mem w) in
      match needs with
      | Err _ => Panic
      | Ok true => w ← signal_used_queue w; Ret (true, w)
      | Ok false => Ret (true, w)
      end
  end.

(** [None] is a loop still running after [fuel] rounds. *)
Definition process_queue (i : nat) : nat -> SndWorker -> option (outcome SndWorker) := round_loop (process_round i).

(** [handle_event]; a queue event that cannot be read is logged. *)
Fixpoint handle_event (fuel : nat) (i : nat) (w : SndWorker) : fueled SndWorker :=
  match fuel with
  | O => None
  | S fuel =>
      q ← Some (unwrap (vrings w !! i));
      match disable_notification (mem w) q with
      | Err _ => Some Panic
      | Ok m =>
          w ← process_queue i (S fuel) (set_vring w i q m);
          q ← Some (unwrap (vrings w !! i));
          match enable_notification (mem w) q with
          | Err _ => Some Panic
          | Ok (again, m) =>
              let w := set_vring w i q m in
              if again then handle_event fuel i w else Some (Ret w)
          end
      end
  end.

(** An event of [work]: a queue's, the stop event's, or another one. *)
Inductive source := QueueEv (i : nat) | StopEv | OtherEv.

Definition EV_IN : Z := 1.

(** [false]: the thread returns. *)
Definition work_event (fuel : nat) (src : source) (event_set : Z) (w : SndWorker) : fueled (bool * SndWorker) :=
  if negb (event_set =? EV_IN) then Some (Ret (true, w))
  else
    match src with
    | QueueEv i => if (i <? length QUEUE_INDEXES)%nat then w ← handle_event fuel i w; Some (Ret (true, w)) else Some (Ret (true, w))
    | StopEv => Some (Ret (false, w))
    | OtherEv => Some (Ret (true, w))
    end.

(** ** The device *)

Record SndDev := mkSnd {
  dev_queues : list Queue; avail_features : Z; acked_features : Z; dev_irq : Irq; device_state : option M;
  (** whether the worker thread runs *)
  worker_thread : bool }.

Definition with_queues (qs : list Queue) : SndDev := mkSnd qs AVAIL_FEATURES 0 (mkIrq 0 0 false None) None false.

Definition snd_new : SndDev := with_queues (map Queue_new QUEUE_SIZES).

Definition set_intc (d : SndDev) : SndDev :=
  let i := dev_irq d in
  mkSnd (dev_queues d) (avail_features d) (acked_features d) (mkIrq (interrupt_status i) (irqs i) true (irq_line i)) (device_state d) (worker_thread d).

Definition set_acked_features (d : SndDev) (f : Z) : SndDev :=
  mkSnd (dev_queues d) (avail_features d) f (dev_irq d) (device_state d) (worker_thread d).

Definition set_irq_line (d : SndDev) (line : Z) : SndDev :=
  let i := dev_irq d in
  mkSnd (dev_queues d) (avail_features d) (acked_features d) (mkIrq (interrupt_status i) (irqs i) (intc i) (Some line)) (device_state d) (worker_thread d).

Definition read_config (d : SndDev) (offset : Z) (data : list byte) : list byte :=
  config_read (as_slice (mkConfig 0 2 1)) offset data.

(** [activate]; [evt_ok]: the activation event could be written. *)
Definition activate (d : SndDev) (m : M) (evt_ok : bool) : outcome (result unit SndWorker * SndDev) :=
  if worker_thread d then Panic
  else if negb (length (dev_queues d) =? NUM_QUEUES)%nat then Ret (Err tt, d)
  else
    let event_idx := negb (acked_features d .& (1 .<< VIRTIO_RING_F_EVENT_IDX) =? 0) in
    let qs := (fun q => set_event_idx q event_idx) <$> dev_queues d in
    w ← new qs (dev_irq d) m;
    let d := mkSnd qs (avail_features d) (acked_features d) (dev_irq d) (device_state d) true in
    if evt_ok then Ret (Ok w, mkSnd qs (avail_features d) (acked_features d) (dev_irq d) (Some m) true)
    else Ret (Err tt, d).

Definition is_activated (d : SndDev) : bool := match device_state d with Some _ => true | None => false end.

(** [reset]: the worker is told to stop and joined. *)
Definition reset (d : SndDev) : bool * SndDev :=
  (true, mkSnd (dev_queues d) (avail_features d) (acked_features d) (dev_irq d) None false).


(** ** References to messages *)

Definition occ (k : nat) (l : list nat) : nat := count_occ Nat.eq_dec l k.

(** Every message has as many references as the list has occurrences, and
    every occurrence has its message. *)
Definition counted (ms : gmap nat IOMessage) (l : list nat) : Prop :=
  (forall k msg, ms !! k = Some msg -> refs msg = occ k l /\ (0 < refs msg)%nat) /\ (forall k, k ∈ l -> is_Some (ms !! k)).

Definition refs_of (ss : list Stream) : list nat := concat ((fun s => message <$> buffers s) <$> ss).

Lemma occ_perm k l l' : l ≡ₚ l' -> occ k l = occ k l'.
Proof. intros P. unfold occ. apply (Permutation_count_occ Nat.eq_dec), P. Qed.

Lemma counted_perm ms l l' : l ≡ₚ l' -> counted ms l -> counted ms l'.
Proof.
  intros P [H1 H2]. split; [|intros k Hk; apply H2; by rewrite P]. intros k msg E. rewrite <- (occ_perm k l l' P). by apply H1.
Qed.

#[local] Instance counted_proper ms : Proper ((≡ₚ) ==> iff) (counted ms).
Proof. intros l l' P. split; by apply counted_perm. Qed.

Lemma occ_cons k j l : occ k (j :: l) = if decide (j = k) then S (occ k l) else occ k l.
Proof. unfold occ. cbn. destruct (Nat.eq_dec j k), (decide (j = k)); done. Qed.

Lemma occ_pos k l : k ∈ l -> (0 < occ k l)%nat.
Proof. intros Hk. apply list_elem_of_In, (count_occ_In Nat.eq_dec) in Hk. unfold occ. lia. Qed.

(** What dropping references leaves alone. *)
Record kept (w w' : SndWorker) : Prop := {
  kp_streams : streams w' = streams w;
  kp_jacks : jacks w' = jacks w;
  kp_chmaps : chmaps w' = chmaps w;
  kp_next : next_message w' = next_message w;
  kp_backend : audio_backend w' = audio_backend w;
  kp_vrings : length (vrings w') = length (vrings w) }.

Lemma kept_refl w : kept w w.
Proof. by split. Qed.

Lemma kept_trans w1 w2 w3 : kept w1 w2 -> kept w2 w3 -> kept w1 w3.
Proof. intros [] []. split; congruence. Qed.

Lemma signal_kept w w' : signal_used_queue w = Ret w' -> kept w w' /\ messages w' = messages w.
Proof. unfold signal_used_queue. destruct (intc (irq w)); [destruct (irq_line (irq w)); [|done]|]; by intros [= <-]. Qed.

Lemma set_vring_kept w i q m : kept w (set_vring w i q m).
Proof. split; try done. cbn. by rewrite length_insert. Qed.

Lemma drop_message_kept w msg w' : drop_message w msg = Ret w' -> kept w w' /\ messages w' = messages w.
Proof.
  unfold drop_message. destruct (gm_write _ _ _) as [m|]; [|by intros [= <-]]. destruct (vrings w !! vring msg) as [q|]; cbn; [|done].
  destruct (add_used m q _ _) as [[r q1] m1]. intros [Hk Hm]%signal_kept. split; [|done]. eapply kept_trans; [apply set_vring_kept|done].
Qed.

Lemma drop_ref_counted w k l w' :
  counted (messages w) (k :: l) -> drop_ref w k = Ret w' -> kept w w' /\ counted (messages w') l /\
  (forall j, (messages w !! j = None -> messages w' !! j = None)) /\
  (forall j msg', messages w' !! j = Some msg' -> exists msg, messages w !! j = Some msg /\ vring msg' = vring msg).
Proof.
  intros [Hc Hin]. unfold drop_ref. destruct (Hin k ltac:(by left)) as [msg Em]. rewrite Em.
  destruct (Hc _ _ Em) as [Hr Hp]. rewrite occ_cons, decide_True in Hr by done.
  assert (forall j msg', messages w !! j = Some msg' -> j <> k -> refs msg' = occ j l /\ (0 < refs msg')%nat) as Hothers.
  { intros j msg' Ej Hne. specialize (Hc _ _ Ej). by rewrite occ_cons, decide_False in Hc by done. }
  destruct (Nat.leb_spec (refs msg) 1) as [Hle|Hlt].
  - intros [Hk Hm]%drop_message_kept. rewrite Hm. cbn. split; [|split; [|split]].
    + destruct Hk. by split.
    + split.
      * intros j msg' Ej. apply lookup_delete_Some in Ej as [Hne Ej]. by apply Hothers.
      * intros j Hj. assert (j <> k) as Hne by (intros ->; apply occ_pos in Hj; lia). rewrite lookup_delete_ne by done. apply Hin. by right.
    + intros j Ej. rewrite lookup_delete. by case_decide.
    + intros j msg' Ej. apply lookup_delete_Some in Ej as [_ Ej]. by eexists.
  - intros [= <-]. cbn. split; [by split|]. split; [|split].
    + split.
      * intros j msg' Ej. rewrite lookup_insert in Ej. case_decide; [|by apply Hothers]. injection Ej as <-. subst j. cbn. lia.
      * intros j Hj. rewrite lookup_insert. case_decide; [done|]. apply Hin. by right.
    + intros j Ej. rewrite lookup_insert. case_decide; [congruence|done].
    + intros j msg' Ej. rewrite lookup_insert in Ej. case_decide; [|by eexists]. injection Ej as <-. subst. by eexists.
Qed.

(** Dropping references never makes messages, and changes no other message's
    queue. *)
Record dropped (w w' : SndWorker) : Prop := {
  dr_kept : kept w w';
  dr_none j : messages w !! j = None -> messages w' !! j = None;
  dr_vring j msg' : messages w' !! j = Some msg' -> exists msg, messages w !! j = Some msg /\ vring msg' = vring msg }.

Lemma dropped_refl w : dropped w w.
Proof. split; [apply kept_refl|done|by eexists]. Qed.

Lemma dropped_trans w1 w2 w3 : dropped w1 w2 -> dropped w2 w3 -> dropped w1 w3.
Proof.
  intros [K1 N1 V1] [K2 N2 V2]. split; [by eapply kept_trans|auto|]. intros j msg E. destruct (V2 _ _ E) as (m2 & E2 & ->). eauto.
Qed.

Lemma drop_buffer_counted w b l w' :
  counted (messages w) (message b :: l) -> drop_buffer w b = Ret w' -> dropped w w' /\ counted (messages w') l.
Proof.
  intros Hc. unfold drop_buffer. set (f := fun msg : IOMessage => _). set (w1 := set_messages w _). intros E.
  assert (forall msg, refs (f msg) = refs msg /\ vring (f msg) = vring msg) as Hf by (intros msg; unfold f; by destruct (buf_direction b)).
  assert (counted (messages w1) (message b :: l)) as Hc1.
  { destruct Hc as [H1 H2]. split; cbn.
    - intros k msg Ek. apply lookup_alter_Some in Ek as [(<- & msg0 & Ek & ->)|(Hne & Ek)]; [|by apply H1]. destruct (Hf msg0) as [-> _]. by apply H1.
    - intros k Hk. destruct (H2 k Hk) as [msg Ek]. rewrite lookup_alter. case_decide; [subst; rewrite Ek; by eexists|by eexists]. }
  destruct (drop_ref_counted _ _ _ _ Hc1 E) as (Hk & Hc' & Hn & Hv). split; [|done]. split.
  - destruct Hk. by split.
  - intros j Ej. apply Hn. cbn. rewrite lookup_alter. case_decide; [|done]. subst. by rewrite Ej.
  - intros j msg' Ej. destruct (Hv _ _ Ej) as (msg & Em & ->). cbn in Em. apply lookup_alter_Some in Em as [(<- & msg0 & Em & ->)|(_ & Em)]; [|by eexists].
    exists msg0. split; [done|]. apply Hf.
Qed.

Lemma drop_buffers_counted bs w l w' :
  counted (messages w) ((message <$> bs) ++ l) -> drop_buffers w bs = Ret w' -> dropped w w' /\ counted (messages w') l.
Proof.
  revert w. induction bs as [|b bs IH]; intros w Hc; cbn [drop_buffers]; [intros [= <-]; split; [apply dropped_refl|done]|].
  destruct (drop_buffer w b) as [w1|] eqn:E1; [|done]. cbn. intros E2. destruct (drop_buffer_counted _ _ _ _ Hc E1) as [Hd Hc1].
  destruct (IH _ Hc1 E2) as [Hd2 Hc2]. split; [by eapply dropped_trans|done].
Qed.

(** ** The invariant of the worker *)

(** Prepared, running and stopped streams have a connected stream. *)
Definition active_state (s : PCMState) : bool := match s with Prepare | Start | Stop => true | _ => false end.

(** [ext]: references held by locals of a running function. *)
Record worker_ok (w : SndWorker) (ext : list nat) : Prop := {
  wo_streams : exists s0 s1, streams w = [s0; s1] /\ direction s0 = Output /\ direction s1 = Input;
  wo_vrings : length (vrings w) = 4%nat;
  wo_connected i s : streams w !! i = Some s -> active_state (state s) = true -> is_Some (stream_hash (audio_backend w) !! Z.of_nat i);
  wo_counted : counted (messages w) (refs_of (streams w) ++ ext);
  wo_fresh k : (next_message w <= k)%nat -> messages w !! k = None;
  wo_vring k msg : messages w !! k = Some msg -> (vring msg < 4)%nat }.

Lemma dropped_ok w w' ext ext' :
  worker_ok w ext -> dropped w w' -> counted (messages w') (refs_of (streams w') ++ ext') -> worker_ok w' ext'.
Proof.
  intros [H1 H2 H3 H4 H5 H6] [[K1 K2 K3 K4 K5 K6] N V] Hc. rewrite K1 in Hc. split; rewrite ?K1, ?K4, ?K5.
  - done.
  - congruence.
  - done.
  - done.
  - auto.
  - intros k msg Ek. destruct (V _ _ Ek) as (msg0 & E0 & ->). eauto.
Qed.

Lemma same_parts_ok w w' ext :
  worker_ok w ext -> streams w' = streams w -> messages w' = messages w -> next_message w' = next_message w ->
  audio_backend w' = audio_backend w -> length (vrings w') = length (vrings w) -> worker_ok w' ext.
Proof. intros [H1 H2 H3 H4 H5 H6] E1 E2 E3 E4 E5. split; rewrite ?E1, ?E2, ?E3, ?E4, ?E5; done. Qed.

Lemma kept_ok w w' ext : worker_ok w ext -> kept w w' -> messages w' = messages w -> worker_ok w' ext.
Proof. intros Hok [] Hm. by eapply same_parts_ok. Qed.

(** *** One stream is changed *)

Lemma refs_of_split ss i s : ss !! i = Some s -> exists l1 l2, refs_of ss = l1 ++ (message <$> buffers s) ++ l2 /\
  forall s', refs_of (<[i := s']> ss) = l1 ++ (message <$> buffers s') ++ l2.
Proof.
  intros Hi. exists (refs_of (take i ss)), (refs_of (drop (S i) ss)). unfold refs_of.
  assert (i < length ss)%nat as Hl by (by eapply lookup_lt_Some). split.
  - transitivity (concat ((fun s => message <$> buffers s) <$> (take i ss ++ s :: drop (S i) ss))); [by rewrite take_drop_middle|].
    by rewrite fmap_app, concat_app.
  - intros s'. rewrite insert_take_drop by done. by rewrite fmap_app, concat_app.
Qed.

Lemma insert_streams_ok (ss : list Stream) i s s' :
  (exists s0 s1, ss = [s0; s1] /\ direction s0 = Output /\ direction s1 = Input) ->
  ss !! i = Some s -> direction s' = direction s ->
  exists s0 s1, <[i := s']> ss = [s0; s1] /\ direction s0 = Output /\ direction s1 = Input.
Proof.
  intros (s0 & s1 & -> & H0 & H1) Hi Hd. destruct i as [|[|i]]; cbn in *; [injection Hi as ->|injection Hi as ->|done].
  - exists s', s1. split_and!; [done|congruence|done].
  - exists s0, s'. split_and!; [done|done|congruence].
Qed.

Lemma set_stream_ok w ext ext' i s s' :
  worker_ok w ext -> streams w !! i = Some s -> direction s' = direction s ->
  (active_state (state s') = true -> is_Some (stream_hash (audio_backend w) !! Z.of_nat i)) ->
  (message <$> buffers s) ++ ext ≡ₚ (message <$> buffers s') ++ ext' ->
  worker_ok (set_streams w (<[i := s']> (streams w))) ext'.
Proof.
  intros [H1 H2 H3 H4 H5 H6] Hi Hd Ha Hp. split; cbn - [refs_of]; try done.
  - by eapply insert_streams_ok.
  - intros j t Hj. apply list_lookup_insert_Some in Hj as [(<- & <- & _)|[_ Hj]]; [done|by apply H3].
  - destruct (refs_of_split _ _ _ Hi) as (l1 & l2 & E & E'). rewrite E'. rewrite E in H4. revert H4. apply counted_perm.
    rewrite <- !(assoc_L (++)). apply Permutation_app_head. rewrite (Permutation_app_comm l2 ext), (Permutation_app_comm l2 ext').
    rewrite !(assoc_L (++)). by apply Permutation_app_tail.
Qed.

Lemma pw_transition_ok w ext i f st w' :
  worker_ok w ext -> 0 <= i -> pw_transition w i f = Ok (st, w') ->
  exists s s', streams w !! Z.to_nat i = Some s /\ f (state s) = Ok s' /\ st = set_state s s' /\
    w' = set_streams w (<[Z.to_nat i := st]> (streams w)).
Proof.
  intros Hok Hi. unfold pw_transition. destruct (streams w !! Z.to_nat i) as [s|] eqn:Es; [|done].
  destruct (f (state s)) as [s'|e] eqn:Ef; [|done]. intros [= <- <-]. by exists s, s'.
Qed.

Lemma set_backend_ok w b ext :
  worker_ok w ext -> (forall i s, streams w !! i = Some s -> active_state (state s) = true -> is_Some (stream_hash b !! Z.of_nat i)) ->
  worker_ok (set_backend w b) ext.
Proof. intros [H1 H2 H3 H4 H5 H6] Hb. by split. Qed.

Lemma set_parameters_ok w ext i req r w' :
  worker_ok w ext -> 0 <= i -> pw_set_parameters w i req = (r, w') -> worker_ok w' ext.
Proof.
  intros Hok Hi. unfold pw_set_parameters. destruct (streams w !! Z.to_nat i) as [s|] eqn:Es; [|by intros [= _ <-]].
  unfold state_set_parameters, set_new_state. case_bool_decide; [|by intros [= _ <-]].
  destruct (_ || _); intros [= _ <-]; by eapply set_stream_ok.
Qed.

(** Inserting a connected stream keeps what was connected. *)
Lemma connect_ok w i k p :
  (forall j s, streams w !! j = Some s -> active_state (state s) = true -> j = Z.to_nat i \/ is_Some (stream_hash (audio_backend w) !! Z.of_nat j)) ->
  0 <= i ->
  forall j s, streams w !! j = Some s -> active_state (state s) = true -> is_Some (stream_hash (mkBackend (<[i := p]> (stream_hash (audio_backend w))) k) !! Z.of_nat j).
Proof.
  intros Hw Hi j s Hj Ha. cbn. rewrite lookup_insert. case_decide as Hd; [done|]. destruct (Hw j s Hj Ha) as [->|]; [|done]. by rewrite Z2Nat.id in Hd.
Qed.

Lemma pw_prepare_ok w ext i w' :
  worker_ok w ext -> 0 <= i -> pw_prepare w i = Ret (Ok tt, w') -> worker_ok w' ext.
Proof.
  intros Hok Hi. unfold pw_prepare. destruct (pw_transition w i state_prepare) as [[st w1]|e] eqn:Et; [|done].
  destruct (pw_transition_ok _ _ _ _ _ _ Hok Hi Et) as (s & s' & Es & Ef & -> & ->).
  set (ob := match stream_hash _ !! i with Some _ => _ | None => _ end).
  destruct ob as [disc b1] eqn:Eb. subst ob. destruct disc; cbn [negb]; [|done].
  destruct (channel_positions _) as [position|]; [|done]. unfold call_pw. cbn.
  destruct (_ && _); [|done]. intros [= <-].
  assert (forall j t, streams w !! j = Some t -> j <> Z.to_nat i -> active_state (state t) = true ->
    is_Some (stream_hash b1 !! Z.of_nat j)) as Hb1.
  { intros j t Hj Hne Ha. pose proof (wo_connected _ _ Hok _ _ Hj Ha) as Hc. cbn in Eb.
    destruct (stream_hash (audio_backend w) !! i); [injection Eb as _ <-|by injection Eb as <-]. cbn. rewrite lookup_delete_ne; [done|lia]. }
  destruct Hok as [H1 H2 H3 H4 H5 H6]. split; cbn - [refs_of]; try done.
  - by eapply insert_streams_ok.
  - intros j t Hj Ha. rewrite lookup_insert. case_decide as Hd; [done|]. apply list_lookup_insert_Some in Hj as [(<- & _)|[Hne Hj]]; [lia|].
    by eapply Hb1.
  - destruct (refs_of_split _ _ _ Es) as (l1 & l2 & E & E'). rewrite E'. cbn. by rewrite E in H4.
Qed.

Lemma set_active_ok w ext i active f new src w' :
  worker_ok w ext -> 0 <= i -> f = set_new_state new src -> (forall s, s ∈ src -> active_state s = true) ->
  pw_set_active active f w i = Ret (Ok tt, w') -> worker_ok w' ext.
Proof.
  intros Hok Hi -> Hsrc. unfold pw_set_active. destruct (pw_transition w i _) as [[st w1]|e] eqn:Et; [|done].
  destruct (pw_transition_ok _ _ _ _ _ _ Hok Hi Et) as (s & s' & Es & Ef & -> & ->). unfold set_new_state in Ef.
  case_bool_decide as Hin; [|done]. injection Ef as <-. cbn [set_streams audio_backend].
  destruct (stream_hash (audio_backend w) !! i) as [p|] eqn:Eh; cbn; [|done]. destruct (pw_ok _); [|done]. intros [= <-].
  apply (set_backend_ok (set_streams w _)).
  - eapply set_stream_ok; [done..| |done]. intros _. rewrite Z2Nat.id by done. by eexists.
  - cbn. intros j t Hj Ha. rewrite lookup_insert. case_decide as Hd; [done|].
    apply list_lookup_insert_Some in Hj as [(<- & _)|[Hne Hj]]; [lia|]. by eapply (wo_connected _ _ Hok).
Qed.

Lemma pw_release_ok w ext i w' :
  worker_ok w ext -> 0 <= i -> pw_release w i = Ret (Ok tt, w') -> worker_ok w' ext.
Proof.
  intros Hok Hi. unfold pw_release. destruct (pw_transition w i state_release) as [[st w1]|e] eqn:Et; [|done].
  destruct (pw_transition_ok _ _ _ _ _ _ Hok Hi Et) as (s & s' & Es & Ef & -> & ->). unfold state_release, set_new_state in Ef.
  case_bool_decide as Hin; [|done]. injection Ef as <-. cbn [set_streams audio_backend].
  destruct (stream_hash (audio_backend w) !! i) as [p|] eqn:Eh; cbn; [|done]. destruct (pw_ok _); cbn; [|done].
  set (w1 := set_streams _ _). set (w2 := set_streams (set_backend w (mkBackend (stream_hash (audio_backend w)) (S (pw_calls (audio_backend w)))))
    (<[Z.to_nat i := set_buffers (set_state s Release) []]> (streams w))).
  assert (w1 = w2) as -> by (subst w1 w2; cbn; by rewrite list_insert_insert_eq).
  destruct (drop_buffers w2 (buffers s)) as [w3|] eqn:Ed; cbn; [|done]. intros [= <-].
  assert (worker_ok w2 ((message <$> buffers s) ++ ext)) as Hok2.
  { subst w2. apply (set_stream_ok (set_backend w (mkBackend (stream_hash (audio_backend w)) (S (pw_calls (audio_backend w))))) ext _ (Z.to_nat i) s); try done.
    apply set_backend_ok; [done|]. apply (wo_connected _ _ Hok). }
  pose proof (wo_counted _ _ Hok2) as Hc. assert (counted (messages w2) ((message <$> buffers s) ++ refs_of (streams w2) ++ ext)) as Hc2.
  { revert Hc. apply counted_perm. rewrite !(assoc_L (++)). apply Permutation_app_tail, Permutation_app_comm. }
  destruct (drop_buffers_counted _ _ _ _ Hc2 Ed) as [Hd Hc3]. pose proof (kp_streams _ _ (dr_kept _ _ Hd)) as Hst.
  apply (set_backend_ok w3).
  - eapply dropped_ok; [exact Hok2|done|]. by rewrite Hst.
  - rewrite Hst. subst w2. cbn. intros j t Hj Ha. apply list_lookup_insert_Some in Hj as [(<- & <- & _)|[Hne Hj]]; [done|].
    rewrite lookup_delete_ne by lia. by eapply (wo_connected _ _ Hok).
Qed.

Context {GML : GuestMemoryLaws M}.

(** *** The guest's messages *)

Lemma parse_nonneg ws bs : bytes_ok bs -> Forall (fun z => 0 <= z) (FuseAbi.parse ws bs).
Proof.
  revert bs. induction ws as [|n ws IH]; intros bs Hb; cbn; [constructor|]. constructor; [|apply IH; by apply Forall_drop].
  by apply (le_val_bound (take n bs) (Forall_take _ _ _ Hb)).
Qed.

Lemma nth_nonneg l n : Forall (fun z => 0 <= z) l -> 0 <= nth n l 0.
Proof. intros Hl. revert n. induction Hl; intros []; cbn; try lia; auto. Qed.

Lemma read_header_nonneg w d r : read_obj VirtioSoundPcmHeader w d = Ok r -> 0 <= ph_stream_id r.
Proof.
  unfold read_obj. destruct (gm_read _ _ _) as [bs|] eqn:E; [|done]. intros [= <-]. apply gm_read_bytes in E. exact (nth_nonneg _ 1 (parse_nonneg (FuseAbi.layout VirtioSoundPcmHeader) bs E)).
Qed.

Lemma read_params_nonneg w d r : read_obj VirtioSndPcmSetParams w d = Ok r -> 0 <= sp_stream_id r.
Proof.
  unfold read_obj. destruct (gm_read _ _ _) as [bs|] eqn:E; [|done]. intros [= <-]. apply gm_read_bytes in E. exact (nth_nonneg _ 1 (parse_nonneg (FuseAbi.layout VirtioSndPcmSetParams) bs E)).
Qed.

Lemma read_xfer_nonneg w d r : read_obj VirtioSoundPcmXfer w d = Ok r -> 0 <= x_stream_id r.
Proof.
  unfold read_obj. destruct (gm_read _ _ _) as [bs|] eqn:E; [|done]. intros [= <-]. apply gm_read_bytes in E. exact (nth_nonneg _ 0 (parse_nonneg (FuseAbi.layout VirtioSoundPcmXfer) bs E)).
Qed.

Lemma set_mem_ok w m ext : worker_ok w ext -> worker_ok (set_mem w m) ext.
Proof. intros Hok. by eapply same_parts_ok. Qed.

Lemma set_vring_ok w i q m ext : worker_ok w ext -> worker_ok (set_vring w i q m) ext.
Proof. intros Hok. eapply kept_ok; [done|apply set_vring_kept|done]. Qed.

Lemma signal_ok w w' ext : worker_ok w ext -> signal_used_queue w = Ret w' -> worker_ok w' ext.
Proof. intros Hok [Hk Hm]%signal_kept. by eapply kept_ok. Qed.

Lemma on_stream_ok w ext d f code n w' :
  worker_ok w ext -> (forall i c w1, 0 <= i -> f i = Ret (c, w1) -> worker_ok w1 ext) ->
  on_stream w d f = Ret (Ok (code, n, w')) -> worker_ok w' ext.
Proof.
  intros Hok Hf. unfold on_stream. destruct (read_obj VirtioSoundPcmHeader w d) as [req|] eqn:Er; [|done].
  destruct (_ <=? _); [by intros [= <- <- <-]|]. destruct (f _) as [[c w1]|] eqn:Ef; cbn; [|done]. intros [= <- <- <-].
  eapply Hf; [|done]. by eapply read_header_nonneg.
Qed.

Lemma must_ok f ext i c w1 : (forall w1, f i = Ret (Ok tt, w1) -> worker_ok w1 ext) -> must f i = Ret (c, w1) -> worker_ok w1 ext.
Proof. intros Hf. unfold must. destruct (f i) as [[[[]|e] w2]|] eqn:Eg; cbn; [|done..]. intros [= <- <-]. by apply Hf. Qed.

Lemma release_or_code_ok w ext i c w1 : worker_ok w ext -> 0 <= i -> release_or_code w i = Ret (c, w1) -> worker_ok w1 ext.
Proof.
  intros Hok Hi. unfold release_or_code. destruct (pw_release w i) as [[r w2]|] eqn:Er; cbn; [|done]. intros [= _ <-].
  destruct r as [[]|e]; [by eapply pw_release_ok|].
  assert (w2 = w) as ->; [|done]. unfold pw_release in Er. destruct (pw_transition w i _) as [[st w3]|]; [|by injection Er].
  destruct (stream_hash _ !! i); cbn in Er; [|done]. destruct (pw_ok _); cbn in Er; [|done]. by destruct (drop_buffers _ _).
Qed.

Lemma control_ok w ext kind ds d code n w' :
  worker_ok w ext -> control w kind ds d = Ret (Ok (code, n, w')) -> worker_ok w' ext.
Proof.
  intros Hok. unfold control.
  assert (forall items, match query_info w ds items with Ok (c, n, m) => Ok (c, n, set_mem w m) | Err e => Err e end = Ok (code, n, w') -> worker_ok w' ext) as Hinfo.
  { intros items. destruct (query_info w ds items) as [[[c k] m]|]; intros [= <- <- <-]. by apply set_mem_ok. }
  destruct kind.
  - intros [= E]. by eapply Hinfo.
  - by intros [= <- <- <-].
  - intros [= E]. by eapply Hinfo.
  - destruct (read_obj VirtioSndPcmSetParams w d) as [req|] eqn:Er; [|done]. apply read_params_nonneg in Er. destruct (_ <=? _); [by intros [= <- <- <-]|].
    destruct (pw_set_parameters w _ req) as [r w1] eqn:Ep. intros [= _ <- <-]. by eapply set_parameters_ok.
  - apply on_stream_ok; [done|]. intros i c w1 Hi. apply must_ok. intros w2. by apply pw_prepare_ok.
  - apply on_stream_ok; [done|]. intros i c w1 Hi. by apply release_or_code_ok.
  - apply on_stream_ok; [done|]. intros i c w1 Hi. apply must_ok. intros w2. eapply set_active_ok; [done..|].
    intros s [->|[->|[]%not_elem_of_nil]%elem_of_cons]%elem_of_cons; done.
  - apply on_stream_ok; [done|]. intros i c w1 Hi. apply must_ok. intros w2. eapply set_active_ok; [done..|].
    intros s [->|[]%not_elem_of_nil]%elem_of_cons; done.
  - intros [= E]. by eapply Hinfo.
Qed.

Lemma process_ctl_ok w ext i head r w' : worker_ok w ext -> process_ctl w i head = Ret (r, w') -> worker_ok w' ext.
Proof.
  intros Hok. unfold process_ctl. destruct (into_iter _ _) as [|dr [|dh ds]]; [by intros [= _ <-]..|].
  destruct (is_write_only dr); [by intros [= _ <-]|]. destruct (read_obj VirtioSoundHeader w dr) as [req|]; [|by intros [= _ <-]].
  destruct (is_write_only dh); cbn [negb]; [|by intros [= _ <-]]. destruct (kind_try_from _) as [kind|]; cbn [unwrap mbind outcome_bind]; [|done].
  destruct (control w kind _ dr) as [[[[resp n] w1]|e]|] eqn:Ec; cbn [mbind outcome_bind]; [|by intros [= _ <-]|done].
  apply (control_ok _ _ _ _ _ _ _ _ Hok) in Ec. destruct (gm_write _ _ _) as [m|]; cbn [unwrap mbind outcome_bind]; [|done].
  destruct (vrings w1 !! i) as [q|]; cbn [unwrap mbind outcome_bind]; [|done]. destruct (add_used _ _ _ _) as [[r1 q1] m1]. intros [= _ <-]. by apply set_vring_ok.
Qed.

(** *** Data messages *)

Lemma write_all_ret w ids : write_all w ids = Panic \/ write_all w ids = Ret tt.
Proof.
  induction ids as [|i ids IH]; cbn; [by right|]. destruct (pw_write w i) as [[|]|]; cbn; [done|by left|by left].
Qed.

Lemma alter_insert {A} (f : A -> A) (l : list A) i x : l !! i = Some x -> alter f i l = <[i := f x]> l.
Proof. revert i. induction l as [|y l IH]; intros [|i] Hi; cbn in *; try done; [by injection Hi as ->|]. f_equal. by apply IH. Qed.

(** One more reference to a message. *)
Definition hold (msg : IOMessage) : IOMessage :=
  mkMessage (status msg) (used_len msg) (latency_bytes msg) (head_index msg) (response_descriptor msg) (vring msg) (S (refs msg)).

Lemma hold_counted ms k l : k ∈ l -> counted ms l -> counted (alter hold k ms) (k :: l).
Proof.
  intros Hk [C1 C2]. split.
  - intros j msg Ej. rewrite occ_cons. apply lookup_alter_Some in Ej as [(<- & m0 & Ej & ->)|(Hne & Ej)]; destruct (C1 _ _ Ej) as [Hr Hp].
    + rewrite decide_True by done. cbn. lia.
    + by rewrite decide_False.
  - intros j Hj. assert (j ∈ l) as Hjl by (apply elem_of_cons in Hj as [->|]; done). destruct (C2 j Hjl) as [msg Em].
    rewrite lookup_alter. case_decide; [subst; rewrite Em|]; by eexists.
Qed.

Lemma io_loop_ok dir n k l st bufs ids w e bufs' ids' w' :
  worker_ok w (k :: (message <$> bufs)) -> (forall i, st = WaitingBufferForStreamId i -> 0 <= i) ->
  io_loop dir n k l st bufs ids w = Ret (e, bufs', ids', w') ->
  worker_ok w' (k :: (message <$> bufs')).
Proof.
  revert st bufs ids w. induction l as [|d l IH]; intros st bufs ids w Hok Hst; cbn [io_loop]; [by intros [= <- <- <- <-]|].
  destruct st as [|sid|].
  - destruct (match dir with Output => _ | Input => _ end).
    + destruct (negb _); [by intros [= <- <- <- <-]|]. by apply IH.
    + destruct (negb _); [by intros [= <- <- <- <-]|]. destruct (read_obj VirtioSoundPcmXfer w d) as [x|] eqn:Ex; [|by intros [= <- <- <- <-]].
      apply read_xfer_nonneg in Ex. apply IH; [done|]. by intros i [= <-].
  - specialize (Hst sid eq_refl). destruct (len d =? 8).
    + destruct (streams w !! Z.to_nat sid) as [s|] eqn:Es; cbn [unwrap mbind outcome_bind]; [|done]. apply IH; [|done].
      assert (update_stream w (Z.to_nat sid) (fun s => set_buffers s (buffers s ++ bufs)) =
              set_streams w (<[Z.to_nat sid := set_buffers s (buffers s ++ bufs)]> (streams w))) as -> by (unfold update_stream; by rewrite (alter_insert _ _ _ s)).
      eapply set_stream_ok; [done..| |].
      * cbn. intros Ha. by eapply (wo_connected _ _ Hok).
      * cbn. rewrite fmap_app. solve_Permutation.
    + destruct (len d =? 4).
      * destruct (streams w !! Z.to_nat sid); cbn [unwrap mbind outcome_bind]; [|done]. by intros [= <- <- <- <-].
      * apply IH; [|by intros i [= <-]]. destruct Hok as [H1 H2 H3 H4 H5 H6]. split; cbn - [refs_of]; try done.
        -- apply (hold_counted _ k) in H4; [|apply elem_of_app; right; by left]. revert H4. apply counted_perm. rewrite fmap_app. cbn - [refs_of]. solve_Permutation.
        -- intros j Hj. rewrite lookup_alter. case_decide; [subst; by rewrite H5|auto].
        -- intros j msg Ej. apply lookup_alter_Some in Ej as [(<- & m0 & Ej & ->)|(Hne & Ej)]; [by apply (H6 _ _ Ej)|eauto].
  - by intros [= <- <- <- <-].
Qed.

Lemma process_io_ok w i head dir r w' :
  worker_ok w [] -> (i < 4)%nat -> process_io w i head dir = Ret (r, w') -> worker_ok w' [].
Proof.
  intros Hok Hi. unfold process_io. destruct (last _) as [d|]; [|by intros [= _ <-]].
  set (k := next_message w). set (msg := mkMessage _ _ _ _ _ _ _). set (w1 := mkWorker _ _ _ _ _ _ _ _ _).
  pose proof (wo_fresh _ _ Hok k ltac:(done)) as Hk.
  assert (worker_ok w1 (k :: (message <$> []))) as Hok1.
  { destruct Hok as [H1 H2 H3 [C1 C2] H5 H6]. split; try done.
    - rewrite app_nil_r in C1, C2. cbn - [refs_of]. split.
      + intros j m Ej. assert (occ j (refs_of (streams w) ++ [k]) = (occ j (refs_of (streams w)) + if decide (k = j) then 1 else 0)%nat) as ->.
        { unfold occ. rewrite count_occ_app. cbn. destruct (Nat.eq_dec k j), (decide (k = j)); done. }
        apply lookup_insert_Some in Ej as [[<- <-]|[Hne Ej]].
        * rewrite decide_True by done. cbn. split; [|lia]. assert (occ k (refs_of (streams w)) = 0%nat) as ->; [|done].
          destruct (occ k _) eqn:E0; [done|]. assert (k ∈ refs_of (streams w)) as Hin.
          { apply list_elem_of_In, (count_occ_In Nat.eq_dec). unfold occ in E0. lia. }
          apply C2 in Hin as [? ?]. congruence.
        * rewrite decide_False, Nat.add_0_r by done. by apply C1.
      + intros j Hj. rewrite lookup_insert. case_decide as Hd; [done|]. apply C2.
        apply elem_of_app in Hj as [|Hj]; [done|]. apply list_elem_of_singleton in Hj as ->. done.
    - intros j Hj. cbn in *. rewrite lookup_insert_ne by (unfold k; lia). apply H5. unfold k in Hj. lia.
    - intros j m Ej. cbn in Ej. apply lookup_insert_Some in Ej as [[<- <-]|[_ Ej]]; [done|eauto]. }
  destruct (io_loop dir _ k _ Ready [] [] w1) as [[[[e bufs] ids] w2]|] eqn:El; cbn [mbind outcome_bind]; [|done].
  apply io_loop_ok in El as Hok2; [|done|done].
  assert ((match e with None => write_all w2 ids | Some _ => Ret tt end) = Panic \/ (match e with None => write_all w2 ids | Some _ => Ret tt end) = Ret tt)
    as [->| ->] by (destruct e; [by right|apply write_all_ret]); cbn [mbind outcome_bind]; [done|].
  destruct (drop_ref w2 k) as [w3|] eqn:E3; cbn [mbind outcome_bind]; [|done].
  destruct (drop_buffers w3 bufs) as [w4|] eqn:E4; cbn [mbind outcome_bind]; [|done]. intros [= _ <-].
  pose proof (wo_counted _ _ Hok2) as Hc. assert (counted (messages w2) (k :: (message <$> bufs) ++ refs_of (streams w2))) as Hc2.
  { revert Hc. apply counted_perm. solve_Permutation. }
  destruct (drop_ref_counted _ _ _ _ Hc2 E3) as (Hk3 & Hc3 & Hn3 & Hv3).
  destruct (drop_buffers_counted _ _ _ _ Hc3 E4) as [Hd4 Hc4].
  assert (dropped w2 w4) as Hd by (eapply dropped_trans; [|exact Hd4]; by split).
  eapply dropped_ok; [exact Hok2|exact Hd|]. rewrite (kp_streams _ _ (dr_kept _ _ Hd)). by rewrite app_nil_r.
Qed.

Lemma process_round_ok w i b w' : worker_ok w [] -> process_round i w = Ret (b, w') -> worker_ok w' [].
Proof.
  intros Hok. unfold process_round. destruct (vrings w !! i) as [q|] eqn:Eq; cbn [unwrap mbind outcome_bind]; [|done].
  apply lookup_lt_Some in Eq as Hi. rewrite (wo_vrings _ _ Hok) in Hi.
  destruct (pop (mem w) q) as [[[head|] q1]|]; cbn [mbind outcome_bind]; [|intros [= _ <-]; by apply set_vring_ok|done].
  assert (worker_ok (set_vring w i q1 (mem w)) []) as Hok1 by by apply set_vring_ok.
  set (o := if (i =? CTL_INDEX)%nat then _ else _).
  assert (forall r w1, o = Ret (r, w1) -> worker_ok w1 []) as Ho.
  { intros r w1. subst o. repeat case_match; try done; [by apply process_ctl_ok|by intros [= _ <-]|by apply process_io_ok|by apply process_io_ok]. }
  destruct o as [[r w1]|]; cbn [mbind outcome_bind]; [|done]. specialize (Ho r w1 eq_refl).
  destruct (vrings w1 !! i) as [q2|]; cbn [unwrap mbind outcome_bind]; [|done]. destruct (needs_notification _ q2) as [needs q3].
  assert (worker_ok (set_vring w1 i q3 (mem w1)) []) as Hok3 by by apply set_vring_ok.
  destruct needs as [[]|]; [|by intros [= _ <-]|done]. destruct (signal_used_queue _) as [w4|] eqn:Es; cbn; [|done]. intros [= _ <-].
  by eapply signal_ok.
Qed.

(** *** The PipeWire thread *)

Lemma set_front_ok w i b b' ext :
  worker_ok w ext -> front w i = Some b -> message b' = message b -> worker_ok (set_front w i b') ext.
Proof.
  intros Hok Hf Hm. unfold front in Hf. destruct (streams w !! i) as [s|] eqn:Es; [|done]. cbn in Hf.
  destruct (buffers s) as [|b0 l] eqn:Eb; [done|]. injection Hf as ->. unfold set_front, update_stream. rewrite (alter_insert _ _ _ s Es), Eb.
  eapply set_stream_ok; [done..| |].
  - cbn. intros Ha. by eapply (wo_connected _ _ Hok).
  - rewrite Eb. cbn. by rewrite Hm.
Qed.

Lemma pop_front_ok w i w' : worker_ok w [] -> pop_front w i = Ret w' -> worker_ok w' [].
Proof.
  intros Hok. unfold pop_front. destruct (front w i) as [b|] eqn:Ef; [|by intros [= <-]]. unfold front in Ef.
  destruct (streams w !! i) as [s|] eqn:Es; [|done]. cbn in Ef. destruct (buffers s) as [|b0 l] eqn:Eb; [done|]. injection Ef as ->.
  unfold update_stream. rewrite (alter_insert _ _ _ s Es), Eb. cbn [tail]. set (w1 := set_streams _ _). intros E.
  assert (worker_ok w1 [message b]) as Hok1.
  { subst w1. eapply set_stream_ok; [done..| |].
    - cbn. intros Ha. by eapply (wo_connected _ _ Hok).
    - rewrite Eb. cbn. solve_Permutation. }
  pose proof (wo_counted _ _ Hok1) as Hc. rewrite (Permutation_app_comm _ [_]) in Hc.
  destruct (drop_buffer_counted _ _ _ _ Hc E) as [Hd Hc']. eapply dropped_ok; [exact Hok1|done|].
  rewrite (kp_streams _ _ (dr_kept _ _ Hd)). by rewrite app_nil_r.
Qed.

Lemma write_input_message m b bs r b' m' : write_input m b bs = Some (Ret (r, (b', m'))) -> message b' = message b.
Proof.
  unfold write_input. destruct (_ <=? _); [by intros [= _ <- _]|]. destruct (checked_add 64 _ _); [|done].
  destruct (mem_write _ _ _) as [[[r1 m1]|]|]; cbn; [|done..]. destruct r1; by intros [= _ <- _].
Qed.

Lemma front_set_mem w m i : front (set_mem w m) i = front w i.
Proof. done. Qed.

Lemma capture_ok fuel w i slice w' : worker_ok w [] -> capture fuel w i slice = Some (Ret w') -> worker_ok w' [].
Proof.
  revert w slice. induction fuel as [|fuel IH]; intros w slice Hok; cbn [capture]; [done|].
  destruct slice as [|c slice]; [by intros [= <-]|]. destruct (front w i) as [b|] eqn:Ef; [|by intros [= <-]].
  set (n := Z.min _ _). destruct (write_input _ _ _) as [[[r [b' m]]|]|] eqn:Ew; cbn [mbind fueled_bind]; [|done..].
  apply write_input_message in Ew. destruct r as [k|]; [|done].
  assert (worker_ok (set_front (set_mem w m) i b') []) as Hok1 by (eapply set_front_ok; [by apply set_mem_ok|done|done]).
  destruct (k =? 0); [by intros [= <-]|]. destruct (_ <=? _); [|by apply IH].
  destruct (pop_front _ i) as [w2|] eqn:Ep; cbn [mbind fueled_bind]; [|done]. apply IH. by eapply pop_front_ok.
Qed.

Lemma process_input_ok w i slice w' : worker_ok w [] -> process_input w i slice = Some (Ret w') -> worker_ok w' [].
Proof. intros Hok. unfold process_input. destruct (streams w !! i); [|done]. by apply capture_ok. Qed.

Lemma process_output_ok w i slice c w' : worker_ok w [] -> process_output w i slice = Some (Ret (c, w')) -> worker_ok w' [].
Proof.
  intros Hok. unfold process_output. destruct (streams w !! i); [|done]. destruct (front w i) as [b|] eqn:Ef; [|by intros [= _ <-]].
  destruct (_ =? 0); [by intros [= _ <-]|]. destruct (read_output _ _ _) as [[[bs|]|]|]; cbn [mbind fueled_bind]; [|done..].
  set (b' := set_pos _ _). assert (worker_ok (set_front w i b') []) as Hok1 by by eapply set_front_ok.
  destruct (_ <=? _); cbn; [|by intros [= _ <-]]. destruct (pop_front _ i) as [w2|] eqn:Ep; cbn; [|done]. intros [= _ <-]. by eapply pop_front_ok.
Qed.

(** *** What the two threads can reach *)

(** The worker serves a chain or stops or allows notifications of a queue; the
    PipeWire thread calls back; the driver writes its memory. *)
Inductive reach : SndWorker -> Prop :=
| reach_new qs i m w : new qs i m = Ret w -> reach w
| reach_round w i b w' : reach w -> process_round i w = Ret (b, w') -> reach w'
| reach_notification w i q m : reach w -> vrings w !! i = Some q -> reach (set_vring w i q m)
| reach_input w i slice w' : reach w -> process_input w i slice = Some (Ret w') -> reach w'
| reach_output w i slice c w' : reach w -> process_output w i slice = Some (Ret (c, w')) -> reach w'
| reach_driver w m : reach w -> reach (set_mem w m).

Lemma new_ok qs i m w : new qs i m = Ret w -> worker_ok w [].
Proof.
  unfold new. destruct (mapM _ _) as [vs|] eqn:Ev; cbn [unwrap mbind outcome_bind]; [|done]. intros [= <-]. split; cbn.
  - by do 2 eexists.
  - by apply mapM_Some_1, Forall2_length in Ev.
  - intros [|[|j]] s; cbn; [by intros [= <-]|by intros [= <-]|done].
  - split; [by intros ? ?; rewrite lookup_empty|by intros ? []%not_elem_of_nil].
  - done.
  - intros ? ?. by rewrite lookup_empty.
Qed.

(** C13. In every state the two threads reach, whatever the driver sends and writes:
    there are the two streams with their directions; a stream that is prepared,
    running or stopped has its connected PipeWire stream, so no release, start
    or stop fails to find it; every queued buffer has its message, every
    message is referred to by exactly the queued buffers it counts, and a
    message whose buffers are gone has been answered. *)
Theorem stream_invariant w : reach w -> worker_ok w [].
Proof.
  induction 1 as [qs i m w E|w i b w' _ IH E|w i q m _ IH E|w i slice w' _ IH E|w i slice c w' _ IH E|w m _ IH].
  - by eapply new_ok.
  - by eapply process_round_ok.
  - by apply set_vring_ok.
  - by eapply process_input_ok.
  - by eapply process_output_ok.
  - by apply set_mem_ok.
Qed.

(** ** The life cycle of a stream *)




(** The interrupt can be raised. *)
Definition wired (i : Irq) : Prop := intc i = true -> irq_line i <> None.

Lemma snd_wired_signal w : wired (irq w) -> exists w', signal_used_queue w = Ret w' /\ wired (irq w').
Proof.
  unfold wired, signal_used_queue. destruct (irq w) as [st n [] [l|]]; cbn; intros Hw; try (by specialize (Hw eq_refl)); by eexists.
Qed.

Lemma drop_message_total w msg :
  wired (irq w) -> (vring msg < length (vrings w))%nat -> exists w', drop_message w msg = Ret w' /\ wired (irq w').
Proof.
  intros Hw Hv. unfold drop_message. destruct (gm_write _ _ _) as [m|]; [|by eexists].
  destruct (lookup_lt_is_Some_2 _ _ Hv) as [q ->]. cbn. destruct (add_used m q _ _) as [[r q1] m1]. by apply snd_wired_signal.
Qed.

Lemma drop_ref_total w k :
  wired (irq w) -> (forall k msg, messages w !! k = Some msg -> (vring msg < length (vrings w))%nat) ->
  exists w', drop_ref w k = Ret w' /\ wired (irq w').
Proof.
  intros Hw Hv. unfold drop_ref. destruct (messages w !! k) as [msg|] eqn:E; [|by eexists]. destruct (_ <=? _)%nat; [|by eexists].
  apply drop_message_total; [done|]. by apply (Hv k).
Qed.

Lemma drop_buffers_total bs w l :
  wired (irq w) -> counted (messages w) ((message <$> bs) ++ l) ->
  (forall k msg, messages w !! k = Some msg -> (vring msg < length (vrings w))%nat) -> exists w', drop_buffers w bs = Ret w' /\ wired (irq w').
Proof.
  revert w. induction bs as [|b bs IH]; intros w Hw Hc Hv; [by eexists|]. cbn [drop_buffers].
  assert (exists w1, drop_buffer w b = Ret w1 /\ wired (irq w1)) as (w1 & E1 & Hw1).
  { unfold drop_buffer. apply drop_ref_total; [done|]. cbn. intros k msg Ek.
    apply lookup_alter_Some in Ek as [(<- & m0 & Ek & ->)|(_ & Ek)]; [|eauto]. destruct (buf_direction b); cbn; eauto. }
  rewrite E1. cbn. destruct (drop_buffer_counted _ _ _ _ Hc E1) as [[Hk _ Hr] Hc1]. apply IH; [done|done|].
  intros k msg Ek. destruct (Hr _ _ Ek) as (m0 & E0 & ->). rewrite (kp_vrings _ _ Hk). eauto.
Qed.








Section working.
Hypothesis pw_works : forall n, pw_ok n = true.



End working.




(** ** Sound data *)

(** A range of guest memory, over one or more regions, with its contents. *)
Record data_at (m : M) (a : Z) (bs : list byte) : Prop := {
  da_read : gm_read m a (length bs) = Some bs;
  da_range : forall k, 0 <= k < Z.of_nat (length bs) -> gm_in_range m (a + k) = true;
  da_addr : 0 <= a;
  da_end : a + Z.of_nat (length bs) <= 2 ^ 64;
  da_len : 0 < Z.of_nat (length bs) < 2 ^ 32 }.

Lemma data_at_take m a bs n : data_at m a bs -> (0 < n <= length bs)%nat -> data_at m a (take n bs).
Proof.
  intros [Hr Hin Ha He Hl] Hn. assert (length (take n bs) = n) as Hlen by (rewrite length_take; lia). split; rewrite ?Hlen; try lia.
  - pose proof (gm_read_sub _ _ _ _ 0 n Hr ltac:(lia)) as Hs. unfold slice in Hs. by rewrite Z.add_0_r, drop_0 in Hs.
  - intros k Hk. apply Hin. lia.
Qed.

Lemma mem_read_mapped m a bs : data_at m a bs -> mem_read m a (Z.of_nat (length bs)) = Some (Ret (Ok bs)).
Proof.
  intros [Hr Hin Ha He Hl]. unfold mem_read, try_access.
  destruct (access_loop_pieces (read_share m) (fun k got => 0 <= k <= Z.of_nat (length bs) /\ got = take (Z.to_nat k) bs) (fun _ _ => False) m a (Z.of_nat (length bs)) Ha He Hl Hin)
    with (fuel := S (Z.to_nat (Z.of_nat (length bs)))) (total := 0) (s := @nil byte) as (k & s' & E & _ & [[-> [_ ->]]|[_ []]]).
  - intros s total n [_ ->] Ht Hn Htn. unfold read_share.
    pose proof (gm_read_sub _ _ _ _ (Z.to_nat total) (Z.to_nat n) Hr ltac:(lia)) as Hs. rewrite Z2Nat.id in Hs by lia. rewrite Hs.
    exists n. eexists. split; [done|]. split; [lia|]. rewrite (proj2 (Z.eqb_neq n 0)) by lia. split; [lia|]. unfold slice.
    replace (Z.to_nat (total + n)) with (Z.to_nat total + Z.to_nat n)%nat by lia. by rewrite take_take_drop.
  - split; [lia|done].
  - lia.
  - lia.
  - rewrite Z.add_0_r in E. rewrite E. cbn. rewrite take_ge by lia. done.
Qed.

(** What the callback leaves at the front of the queue. *)
Definition advanced (w w' : SndWorker) (i : nat) (b : Buffer) : Prop :=
  if desc_len b <=? pos b then dropped (update_stream w i (fun s => set_buffers s (tail (buffers s)))) w'
  else w' = set_front w i b.

(** C15. Playback.  A slice of PipeWire gets exactly the next bytes of the first
    queued buffer, as guest memory holds them then, as many as the slice or the
    buffer has left; the buffer keeps its place until it is used up, and then
    only it leaves the queue. *)
Theorem playback_exact w i slice b data :
  worker_ok w [] -> wired (irq w) -> front w i = Some b -> slice <> [] ->
  data_at (mem w) (d_addr (data_descriptor b) + pos b) data -> 0 <= pos b -> desc_len b = pos b + Z.of_nat (length data) -> desc_len b < 2 ^ 32 ->
  0 <= d_addr (data_descriptor b) ->
  let n := Nat.min (length slice) (length data) in
  exists w', process_output w i slice = Some (Ret (Some (take n data), w')) /\ advanced w w' i (set_pos b (pos b + Z.of_nat n)) /\ worker_ok w' [].
Proof.
  intros Hok Hw Hf Hsl Hd Hp0 Hp Hlt Ha0 n.
  assert (exists s, streams w !! i = Some s) as [s Es] by (unfold front in Hf; destruct (streams w !! i); [by eexists|done]).
  assert (0 < n)%nat as Hn by (pose proof (da_len _ _ _ Hd); unfold n; destruct slice; [done|]; cbn [length]; lia).
  assert (forall c w', process_output w i slice = Some (Ret (c, w')) -> worker_ok w' []) as Hpost by (intros c w'; by apply process_output_ok).
  unfold process_output in *. rewrite Es, Hf in *.
  replace (Z.max 0 (desc_len b - pos b)) with (Z.of_nat (length data)) in * by lia.
  replace (Z.min (Z.of_nat (length slice)) (Z.of_nat (length data))) with (Z.of_nat n) in * by (unfold n; lia).
  rewrite (proj2 (Z.eqb_neq (Z.of_nat (length data)) 0)) in * by (pose proof (da_len _ _ _ Hd); lia).
  assert (read_output (mem w) b (Z.of_nat n) = Some (Ret (Ok (take n data)))) as Er.
  { unfold read_output, checked_add. pose proof (da_end _ _ _ Hd) as He. pose proof (da_len _ _ _ Hd).
    rewrite (proj2 (Z.ltb_lt _ _)) by lia. assert (length (take n data) = n) as Hlen by (rewrite length_take; lia).
    pose proof (mem_read_mapped (mem w) _ _ (data_at_take _ _ _ n Hd ltac:(lia))) as E. rewrite Hlen in E. by rewrite E. }
  rewrite Er in *. cbn [mbind fueled_bind] in *.
  assert (take n data ++ drop (length (take n data)) (take (Z.to_nat (Z.of_nat n)) slice) = take n data) as Hch.
  { rewrite Nat2Z.id, drop_ge; [by rewrite app_nil_r|]. rewrite !length_take. lia. }
  rewrite Hch in *. set (b' := set_pos b _) in *. unfold advanced. destruct (desc_len b' <=? pos b') eqn:Eb.
  - unfold front in Hf. rewrite Es in Hf. cbn in Hf. destruct (buffers s) as [|b0 l] eqn:Ebs; [done|]. injection Hf as ->.
    assert (front (set_front w i b') i = Some b') as Hfr.
    { unfold front, set_front, update_stream. cbn. rewrite (alter_insert _ _ _ s Es), Ebs. rewrite list_lookup_insert_eq; [done|]. by eapply lookup_lt_Some. }
    unfold pop_front in *. rewrite Hfr in *.
    assert (update_stream (set_front w i b') i (fun s => set_buffers s (tail (buffers s))) = update_stream w i (fun s => set_buffers s (tail (buffers s)))) as Hup.
    { unfold set_front, update_stream. cbn. f_equal. rewrite !(alter_insert _ _ _ _ Es). rewrite (alter_insert _ _ i (set_buffers s (b' :: l))).
      - rewrite list_insert_insert_eq, Ebs. done.
      - rewrite Ebs. apply list_lookup_insert_eq. by eapply lookup_lt_Some. }
    rewrite Hup in *. set (w1 := update_stream w i _) in *.
    assert (counted (messages w1) (message b' :: refs_of (streams w1))) as Hc.
    { subst w1. unfold update_stream. cbn - [refs_of]. rewrite (alter_insert _ _ _ _ Es). destruct (refs_of_split _ _ _ Es) as (l1 & l2 & E1 & E2).
      rewrite E2, Ebs. cbn. pose proof (wo_counted _ _ Hok) as Hc. rewrite E1, Ebs in Hc. cbn in Hc. revert Hc. apply counted_perm. solve_Permutation. }
    destruct (drop_buffers_total [b'] w1 (refs_of (streams w1))) as (w' & E & _); [done|done| |].
    { intros k msg Ek. cbn in Ek |- *. rewrite (wo_vrings _ _ Hok). by eapply (wo_vring _ _ Hok). }
    cbn [drop_buffers] in E. destruct (drop_buffer w1 b') as [w2|] eqn:Ed; [|done]. cbn in E. injection E as <-. destruct (drop_buffer_counted w1 b' (refs_of (streams w1)) w2 Hc Ed) as [Hdr _].
    exists w2. split_and!; [by cbn|done|]. apply (Hpost (Some (take n data))). by cbn.
  - eexists. split_and!; [done|done|by eapply Hpost].
Qed.

(** The memory once the first [k] bytes are written. *)
Record wrote (m : M) (a : Z) (bs : list byte) (k : Z) (s : M * list byte) : Prop := {
  wr_bound : 0 <= k <= Z.of_nat (length bs);
  wr_rest : s.2 = drop (Z.to_nat k) bs;
  wr_read : gm_read s.1 a (Z.to_nat k) = Some (take (Z.to_nat k) bs);
  wr_frame b n : b + Z.of_nat n <= a \/ a + Z.of_nat (length bs) <= b -> gm_read s.1 b n = gm_read m b n;
  wr_domain b n : is_Some (gm_read s.1 b n) <-> is_Some (gm_read m b n) }.

Lemma write_share_wrote m a bs old s total n :
  data_at m a old -> length old = length bs -> bytes_ok bs -> wrote m a bs total s -> 0 < n -> total + n <= Z.of_nat (length bs) ->
  exists s', write_share s (a + total) n = Some (Ret (Ok n, s')) /\ wrote m a bs (total + n) s'.
Proof.
  intros Hd Hlen Hb [Hbd Hre Hr Hf Hdom] Hn Htn. unfold write_share. rewrite Hre. set (piece := take (Z.to_nat n) _).
  assert (length piece = Z.to_nat n) as Hp by (subst piece; rewrite length_take, length_drop; lia).
  assert (bytes_ok piece) as Hbp by (subst piece; by apply Forall_take, Forall_drop).
  assert (is_Some (gm_read s.1 (a + total) (length piece))) as [o Ho].
  { apply Hdom. pose proof (gm_read_sub _ _ _ _ (Z.to_nat total) (length piece) (da_read _ _ _ Hd) ltac:(lia)) as Hs. rewrite Z2Nat.id in Hs by lia. by eexists. }
  destruct (gm_write_total _ _ _ _ Ho Hbp) as [m' Hw]. rewrite Hw. eexists. split; [done|].
  assert (length (take (Z.to_nat total) bs) = Z.to_nat total) as Htk by (rewrite length_take; lia). split; cbn; [lia| | | |].
  - rewrite drop_drop. f_equal. lia.
  - replace (Z.to_nat (total + n)) with (length (take (Z.to_nat total) bs ++ piece)) by (rewrite length_app; lia).
    assert (take (length (take (Z.to_nat total) bs ++ piece)) bs = take (Z.to_nat total) bs ++ piece) as ->.
    { rewrite length_app, Htk, Hp. subst piece. by rewrite take_take_drop. }
    apply (gm_write_append s.1); try done.
    + apply Hdom. pose proof (gm_read_sub _ _ _ _ 0 (Z.to_nat total + length piece) (da_read _ _ _ Hd) ltac:(lia)) as Hs. rewrite Z.add_0_r in Hs.
      rewrite Htk. by eexists.
    + by rewrite Htk.
    + by rewrite Htk, Z2Nat.id by lia.
  - intros b k Hk. rewrite (gm_write_frame _ _ _ _ _ _ Hw) by lia. by apply Hf.
  - intros b k. rewrite (gm_write_domain _ _ _ _ b k Hw). apply Hdom.
Qed.

Lemma mem_write_mapped m a bs old :
  data_at m a old -> length old = length bs -> bytes_ok bs ->
  exists m', mem_write m a bs = Some (Ret (Ok (Z.of_nat (length bs)), m')) /\ gm_read m' a (length bs) = Some bs /\
    forall b n, b + Z.of_nat n <= a \/ a + Z.of_nat (length bs) <= b -> gm_read m' b n = gm_read m b n.
Proof.
  intros Hd Hlen Hb. pose proof Hd as [Hr Hin Ha He Hl]. rewrite Hlen in *. unfold mem_write, try_access.
  destruct (access_loop_pieces write_share (wrote m a bs) (fun _ _ => False) m a (Z.of_nat (length bs)) Ha He Hl Hin)
    with (fuel := S (Z.to_nat (Z.of_nat (length bs)))) (total := 0) (s := (m, bs)) as (k & s' & E & _ & [[-> Hw]|[_ []]]).
  - intros s total n Hw _ Hn Htn. destruct (write_share_wrote m a bs old s total n) as (s' & E & Hw'); try done.
    exists n, s'. rewrite (proj2 (Z.eqb_neq n 0)) by lia. split_and!; try done; lia.
  - split; cbn; try done; [lia|]. pose proof (gm_read_sub _ _ _ _ 0 0 Hr ltac:(lia)) as Hs. by rewrite Z.add_0_r in Hs.
  - lia.
  - lia.
  - rewrite Z.add_0_r in E. rewrite E. cbn. eexists. split; [done|]. destruct Hw as [_ _ Hrd Hfr _]. rewrite Nat2Z.id, take_ge in Hrd by lia. done.
Qed.

(** Capture.  What PipeWire recorded, up to what the first queued buffer has
    left, is stored behind what the buffer already holds, nothing else in the
    guest's memory changes, and the buffer keeps its place with its position
    advanced. *)
Theorem capture_exact w i slice b old :
  worker_ok w [] -> front w i = Some b -> slice <> [] -> bytes_ok slice ->
  data_at (mem w) (d_addr (data_descriptor b) + pos b) old -> 0 <= pos b -> 0 <= d_addr (data_descriptor b) ->
  desc_len b = pos b + Z.of_nat (length old) -> desc_len b < 2 ^ 32 -> (length slice < length old)%nat ->
  exists w', process_input w i slice = Some (Ret w') /\ worker_ok w' [] /\
    gm_read (mem w') (d_addr (data_descriptor b) + pos b) (length slice) = Some slice /\
    front w' i = Some (set_pos b (pos b + Z.of_nat (length slice))) /\
    (forall a n, a + Z.of_nat n <= d_addr (data_descriptor b) + pos b \/ d_addr (data_descriptor b) + pos b + Z.of_nat (length slice) <= a ->
       gm_read (mem w') a n = gm_read (mem w) a n) /\
    irqs (irq w') = irqs (irq w) /\ vrings w' = vrings w.
Proof.
  intros Hok Hf Hsl Hb Hd Hp0 Ha0 Hlen Hlt Hle.
  assert (forall w', process_input w i slice = Some (Ret w') -> worker_ok w' []) as Hpost by (intros w'; by apply process_input_ok).
  assert (exists s l, streams w !! i = Some s /\ buffers s = b :: l) as (s & l & Es & Ebs).
  { unfold front in Hf. destruct (streams w !! i) as [s|]; [|done]. cbn in Hf. destruct (buffers s) as [|b0 l] eqn:E; [done|]. injection Hf as ->. by exists s, l. }
  assert (0 < Z.of_nat (length slice)) as Hn by (destruct slice; [done|cbn [length]; lia]).
  assert (data_at (mem w) (d_addr (data_descriptor b) + pos b) (take (length slice) old)) as Hdt by (apply data_at_take; [done|lia]).
  destruct (mem_write_mapped (mem w) _ slice _ Hdt) as (m' & Em & Hrd & Hfr); [rewrite length_take; lia|done|].
  assert (write_input (mem w) b slice = Some (Ret (Ok (Z.of_nat (length slice)), (set_pos b (pos b + Z.of_nat (length slice)), m')))) as Ew.
  { unfold write_input. rewrite (wrap_small 32) by (unfold fits; lia). rewrite (proj2 (Z.leb_gt _ _)) by lia. unfold checked_add.
    pose proof (da_end _ _ _ Hd). rewrite (proj2 (Z.ltb_lt _ _)) by lia. rewrite Em. cbn.
    rewrite !wrap_small by (unfold fits; lia). done. }
  unfold process_input in *. rewrite Es in *. cbn [capture] in *. destruct slice as [|c slice']; [done|]. set (slice := c :: slice') in *.
  rewrite Hf in *. replace (Z.min (Z.of_nat (length slice)) (Z.max 0 (desc_len b - pos b))) with (Z.of_nat (length slice)) in * by lia.
  rewrite Nat2Z.id, (take_ge slice), Ew in * by lia. cbn [mbind fueled_bind] in *. rewrite (proj2 (Z.eqb_neq _ 0)) in * by lia.
  set (b' := set_pos b _) in *. assert (desc_len b' <=? pos b' = false) as Eb by (change (desc_len b <=? pos b + Z.of_nat (length slice) = false); apply Z.leb_gt; lia).
  rewrite Eb, drop_ge in * by lia. set (w1 := set_front (set_mem w m') i b') in *.
  assert (capture (length slice) w1 i [] = Some (Ret w1)) as Ec by done. rewrite Ec in *.
  exists w1. split_and!; try done; [by apply Hpost|]. subst w1. unfold front, set_front, update_stream. cbn. rewrite (alter_insert _ _ _ s Es), Ebs.
  rewrite list_lookup_insert_eq; [done|]. by eapply lookup_lt_Some.
Qed.

(** ** Queries *)

Lemma chmap_slice_bytes c : bytes_ok (chmap_slice c).
Proof.
  unfold chmap_slice. repeat (apply Forall_app; split); try apply le_bytes_ok. induction (positions c); [constructor|].
  apply Forall_app. split; [apply le_bytes_ok|done].
Qed.

(** The answer to a query of jacks, streams or channel maps: exactly the items
    asked for, at the start of the response buffer, or BAD_MSG when the range
    is not there.  How long the driver's buffer is is not looked at. *)
Theorem info_reply w d0 d1 d2 items rq :
  is_write_only d2 = true -> read_obj VirtioSoundQueryInfo w d0 = Ok rq -> 0 <= start_id rq -> 0 <= count rq ->
  Forall bytes_ok items ->
  let n := Z.of_nat (length items) in
  let reply := concat (take (Z.to_nat (count rq)) (drop (Z.to_nat (start_id rq)) items)) in
  match query_info w [d0; d1; d2] items with
  | Ok (c, used, m) =>
      if bool_decide (start_id rq < n /\ start_id rq + count rq <= n)
      then c = VIRTIO_SND_S_OK /\ used = len d2 /\ gm_read m (addr d2) (length reply) = Some reply /\
           (forall a k, a + Z.of_nat k <= addr d2 \/ addr d2 + Z.of_nat (length reply) <= a -> gm_read m a k = gm_read (mem w) a k)
      else c = VIRTIO_SND_S_BAD_MSG /\ used = 0 /\ m = mem w
  | Err e => e = DescriptorWriteFailed /\ gm_read (mem w) (addr d2) (length reply) = None
  end.
Proof.
  intros Hwo Hr Hs Hc Hb n reply. unfold query_info. rewrite Hwo, Hr. cbn [negb mbind result_bind].
  assert (bytes_ok reply) as Hbr.
  { subst reply. apply Forall_concat. by apply Forall_take, Forall_drop. }
  fold n reply. case_bool_decide as Hd.
  - rewrite (proj2 (Z.leb_gt _ _)), (proj2 (Z.ltb_ge _ _)) by lia. cbn. destruct (gm_write (mem w) (addr d2) reply) as [m|] eqn:Ew.
    + split_and!; try done; [by eapply gm_write_read|]. intros a k Hk. by eapply gm_write_frame.
    + split; [done|]. destruct (gm_read _ _ _) as [o|] eqn:Eo; [|done]. destruct (gm_write_total _ _ _ _ Eo Hbr). congruence.
  - destruct (Z.leb_spec n (start_id rq)), (Z.ltb_spec n (start_id rq + count rq)); cbn; try done. lia.
Qed.
End worker.

(** ** Witnesses: one stream is prepared and played *)

(** The control queue at 0 holds a prepare request for a stream, its queue at
    128 a message of six bytes for it. *)
Definition demo_mem (dir : Direction) : FlatMem := mkFlat 0
  (le_bytes 8 400 ++ le_bytes 4 8 ++ le_bytes 2 1 ++ le_bytes 2 1 ++
   le_bytes 8 408 ++ le_bytes 4 4 ++ le_bytes 2 2 ++ le_bytes 2 0 ++ replicate 32 0 ++
   le_bytes 2 0 ++ le_bytes 2 1 ++ replicate 12 0 ++ replicate 48 0 ++
   le_bytes 8 416 ++ le_bytes 4 4 ++ le_bytes 2 1 ++ le_bytes 2 1 ++
   le_bytes 8 432 ++ le_bytes 4 6 ++ le_bytes 2 (match dir with Output => 1 | Input => 3 end) ++ le_bytes 2 2 ++
   le_bytes 8 424 ++ le_bytes 4 8 ++ le_bytes 2 2 ++ le_bytes 2 0 ++ replicate 16 0 ++
   le_bytes 2 0 ++ le_bytes 2 1 ++ replicate 12 0 ++ replicate 48 0 ++ replicate 144 0 ++
   as_slice (mkPcmHeader VIRTIO_SND_R_PCM_PREPARE (direction_code dir)) ++ replicate 8 0 ++ le_bytes 4 (direction_code dir) ++ replicate 12 0 ++ [1; 2; 3; 4; 5; 6] ++ replicate 10 0).

Definition demo_queue (base : Z) : Queue := {|
  max_size := 4; size := 4; ready := true; q_desc_table := base; avail_ring := base + 64; used_ring := base + 80;
  next_avail := 0; next_used := 0; event_idx_enabled := false; num_added := 0 |}.

Definition demo_ok (n : nat) : bool := true.

Definition demo_queues (dir : Direction) : list Queue :=
  match dir with Output => [demo_queue 0; Queue_new 256; demo_queue 128; Queue_new 256] | Input => [demo_queue 0; Queue_new 256; Queue_new 256; demo_queue 128] end.

Definition demo_new (dir : Direction) : SndWorker (M := FlatMem) :=
  match new (demo_queues dir) (mkIrq 0 0 false None) (demo_mem dir) with
  | Ret w => w
  | Panic => mkWorker [] (demo_mem dir) (mkIrq 0 0 false None) [] [] [] ∅ 0 (mkBackend ∅ 0)
  end.

Definition demo_round (i : nat) (w : SndWorker (M := FlatMem)) : SndWorker :=
  match process_round demo_ok demo_ok i w with Ret (_, w) => w | Panic => w end.

Definition demo_prepared (dir : Direction) : SndWorker (M := FlatMem) := demo_round CTL_INDEX (demo_new dir).
Definition demo_queued (dir : Direction) : SndWorker (M := FlatMem) :=
  demo_round (match dir with Output => TXQ_INDEX | Input => RXQ_INDEX end) (demo_prepared dir).

Example demo_prepared_state : state <$> streams (demo_prepared Output) = [Prepare; SetParameters].
Proof. vm_compute. reflexivity. Qed.

Lemma demo_reach : reach demo_ok demo_ok (demo_queued Output).
Proof.
  apply (reach_round demo_ok demo_ok (demo_prepared Output) TXQ_INDEX true).
  - apply (reach_round demo_ok demo_ok (demo_new Output) CTL_INDEX true).
    + apply (reach_new _ _ (demo_queues Output) (mkIrq 0 0 false None) (demo_mem Output)). vm_compute. reflexivity.
    + vm_compute. reflexivity.
  - vm_compute. reflexivity.
Qed.

Lemma stream_invariant_witness :
  worker_ok (demo_queued Output) [] /\ length (buffers <$> streams (demo_queued Output)) = 2%nat /\ is_Some (messages (demo_queued Output) !! 0%nat).
Proof.
  split; [exact (stream_invariant demo_ok demo_ok (demo_queued Output) demo_reach)|]. split; [reflexivity|]. vm_compute. by eexists.
Defined.

Lemma demo_new_ok dir : worker_ok (demo_new dir) [].
Proof. apply (new_ok (demo_queues dir) (mkIrq 0 0 false None) (demo_mem dir)). by destruct dir; vm_compute. Qed.

Lemma demo_prepared_ok dir : worker_ok (demo_prepared dir) [].
Proof. apply (process_round_ok demo_ok demo_ok (demo_new dir) CTL_INDEX true (demo_prepared dir) (demo_new_ok dir)). by destruct dir; vm_compute. Qed.

Lemma demo_queued_ok dir : worker_ok (demo_queued dir) [].
Proof.
  apply (process_round_ok demo_ok demo_ok (demo_prepared dir) (match dir with Output => TXQ_INDEX | Input => RXQ_INDEX end) true (demo_queued dir) (demo_prepared_ok dir)).
  by destruct dir; vm_compute.
Qed.



Definition demo_buffer : Buffer := mkBuffer (mkDescriptor 432 6 1 2) 0 0 Output.

Lemma demo_data dir : data_at (mem (demo_queued dir)) 432 [1; 2; 3; 4; 5; 6].
Proof.
  assert (forall k, 0 <= k < 6 -> gm_in_range (mem (demo_queued dir)) (432 + k) = true) as Hin.
  { intros k Hk. assert (k = 0 \/ k = 1 \/ k = 2 \/ k = 3 \/ k = 4 \/ k = 5) as Hc by lia.
    destruct dir, Hc as [->|[->|[->|[->|[->| ->]]]]]; vm_compute; reflexivity. }
  split; [by destruct dir; vm_compute|exact Hin|vm_compute; congruence..|split; vm_compute; reflexivity].
Qed.

(** Four of the six bytes are played first; the buffer stays for the rest. *)
Lemma playback_exact_witness :
  exists w', process_output demo_ok (demo_queued Output) 0 [9; 9; 9; 9] = Some (Ret (Some [1; 2; 3; 4], w')) /\ front w' 0 = Some (set_pos demo_buffer 4).
Proof.
  destruct (playback_exact demo_ok (demo_queued Output) 0 [9; 9; 9; 9] demo_buffer [1; 2; 3; 4; 5; 6]) as (w' & E & Ha & _);
    [exact (demo_queued_ok Output)|vm_compute; discriminate|vm_compute; reflexivity|discriminate|change (data_at (mem (demo_queued Output)) (432 + 0) [1; 2; 3; 4; 5; 6]); exact (demo_data Output)|vm_compute; congruence|vm_compute; reflexivity|vm_compute; reflexivity|vm_compute; congruence|].
  exists w'. split; [exact E|]. cbn in Ha. unfold advanced in Ha. cbn in Ha. rewrite Ha. vm_compute. reflexivity.
Defined.

(** Four bytes are captured into a buffer of six. *)
Lemma capture_exact_witness :
  exists w', process_input demo_ok (demo_queued Input) 1 [7; 8; 9; 10] = Some (Ret w') /\ gm_read (mem w') 432 4 = Some [7; 8; 9; 10].
Proof.
  destruct (capture_exact demo_ok (demo_queued Input) 1 [7; 8; 9; 10] (mkBuffer (mkDescriptor 432 6 3 2) 0 0 Input) [1; 2; 3; 4; 5; 6])
    as (w' & E & _ & Hr & _);
    [exact (demo_queued_ok Input)|vm_compute; reflexivity|discriminate|repeat constructor; lia
    |change (data_at (mem (demo_queued Input)) (432 + 0) [1; 2; 3; 4; 5; 6]); exact (demo_data Input)
    |vm_compute; congruence|vm_compute; congruence|vm_compute; reflexivity|vm_compute; reflexivity|cbn; lia|].
  exists w'. split; [exact E|exact Hr].
Defined.

(** Both channel maps into a buffer of 4 bytes: 48 bytes are written. *)
Definition demo_asked : SndWorker (M := FlatMem) :=
  set_mem (demo_new Output) (mkFlat 0 (as_slice (mkQuery VIRTIO_SND_R_CHMAP_INFO 0 2 24) ++ replicate 100 0)).
Definition demo_ask (i : nat) : DescriptorChain :=
  match i with O => mkChain 0 4 4 0 0 16 1 1 | 1%nat => mkChain 0 4 3 1 16 4 3 2 | _ => mkChain 0 4 2 2 20 4 2 0 end.

Lemma info_reply_witness : exists m,
  query_info demo_asked [demo_ask 0; demo_ask 1; demo_ask 2] (chmap_slice <$> chmaps demo_asked) = Ok (VIRTIO_SND_S_OK, 4, m) /\
  gm_read m 20 48 = Some (concat (chmap_slice <$> chmaps demo_asked)).
Proof.
  assert (read_obj VirtioSoundQueryInfo demo_asked (demo_ask 0) = Ok (mkQuery VIRTIO_SND_R_CHMAP_INFO 0 2 24)) as Hr by (vm_compute; reflexivity).
  assert (Forall bytes_ok (chmap_slice <$> chmaps demo_asked)) as Hb by (apply Forall_fmap, Forall_true; exact chmap_slice_bytes).
  pose proof (info_reply demo_asked (demo_ask 0) (demo_ask 1) (demo_ask 2) (chmap_slice <$> chmaps demo_asked) _
    eq_refl Hr ltac:(vm_compute; congruence) ltac:(vm_compute; congruence) Hb) as Hi.
  cbv zeta in Hi. destruct (query_info _ _ _) as [[[c used] m]|e] eqn:E; [|vm_compute in E; discriminate E].
  rewrite bool_decide_true in Hi by (vm_compute; split; congruence). destruct Hi as (-> & -> & Hm & _). exists m. split; [reflexivity|exact Hm].
Defined.
End Snd.
