(* ===== verification/Rtc.v ===== *)
(** * The PL031 real-time clock ([devices/src/legacy/rtc_pl031.rs])

    The clock of aarch64 guests.  The host's clocks are arguments: the wall
    clock when the device is made, and the monotonic clock in nanoseconds at
    every access.  The theorems: no access panics, and the time the guest reads
    is the time it set plus the seconds that have passed. *)

From S2P Require Import Prelude ByteOrder.

Module Rtc.
Import ByteOrder.

Definition RTCDR : Z := 0x0.
Definition RTCMR : Z := 0x4.
Definition RTCLR : Z := 0x8.
Definition RTCCR : Z := 0xc.
Definition RTCIMSC : Z := 0x10.
Definition RTCRIS : Z := 0x14.
Definition RTCMIS : Z := 0x18.
Definition RTCICR : Z := 0x1c.
Definition PL031_ID : list Z := [0x31; 0x10; 0x14; 0x00; 0x0d; 0xf0; 0x05; 0xb1].
Definition AMBA_ID_LOW : Z := 0xFE0.
Definition AMBA_ID_HIGH : Z := 0x1000.
Definition NANOS_PER_SECOND : Z := 1000000000.

Inductive Error := BadWriteOffset (o : Z) | InterruptFailure.

(** [interrupt_evt] counts what was written to the interrupt event. *)
Record RTC := mkRTC {
  previous_now : Z; tick_offset : Z; match_value : Z; load : Z; imsc : Z; ris : Z; interrupt_evt : Z }.

(** [get_time(Real) as i64] is [real], [Instant::now()] is [now]. *)
Definition RTC_new (real now : Z) : RTC := mkRTC now (to_signed 64 (wrap 64 real)) 0 0 0 0 0.

(** [seconds_to_nanoseconds] *)
Definition seconds_to_nanoseconds (value : Z) : option Z :=
  let v := value * NANOS_PER_SECOND in
  if (- 2 ^ 63 <=? v) && (v <? 2 ^ 63) then Some v else None.

Definition trigger_interrupt (r : RTC) (evt_ok : bool) : result Error RTC :=
  if evt_ok then Ok (mkRTC (previous_now r) (tick_offset r) (match_value r) (load r) (imsc r) (ris r) (interrupt_evt r + 1))
  else Err InterruptFailure.

Definition get_time (r : RTC) (now : Z) : Z :=
  let ts := tick_offset r + (now - previous_now r) in
  wrap 32 (Z.quot ts NANOS_PER_SECOND).

(** The state is changed also when the interrupt event cannot be written. *)
Definition handle_write (r : RTC) (now : Z) (evt_ok : bool) (offset val : Z) : outcome (result Error unit * RTC) :=
  let trigger r := match trigger_interrupt r evt_ok with Ok r => Ret (Ok tt, r) | Err e => Ret (Err e, r) end in
  if offset =? RTCMR then Ret (Ok tt, mkRTC (previous_now r) (tick_offset r) val (load r) (imsc r) (ris r) (interrupt_evt r))
  else if offset =? RTCLR then
    t ← unwrap (seconds_to_nanoseconds val);
    Ret (Ok tt, mkRTC now t (match_value r) val (imsc r) (ris r) (interrupt_evt r))
  else if offset =? RTCIMSC then
    trigger (mkRTC (previous_now r) (tick_offset r) (match_value r) (load r) (val .& 1) (ris r) (interrupt_evt r))
  else if offset =? RTCICR then
    trigger (mkRTC (previous_now r) (tick_offset r) (match_value r) (load r) (imsc r) 0 (interrupt_evt r))
  else if offset =? RTCCR then Ret (Ok tt, r)
  else Ret (Err (BadWriteOffset offset), r).

(** The value of a register; [None] when there is none at the offset. *)
Definition register (r : RTC) (now offset : Z) : outcome (option Z) :=
  if (AMBA_ID_LOW <=? offset) && (offset <? AMBA_ID_HIGH) then
    v ← unwrap (PL031_ID !! Z.to_nat ((offset - AMBA_ID_LOW) .>> 2)); Ret (Some v)
  else
    Ret (if offset =? RTCDR then Some (get_time r now)
         else if offset =? RTCMR then Some (match_value r)
         else if offset =? RTCLR then Some (load r)
         else if offset =? RTCCR then Some 1
         else if offset =? RTCIMSC then Some (imsc r)
         else if offset =? RTCRIS then Some (ris r)
         else if offset =? RTCMIS then Some (ris r .& imsc r)
         else None).

Definition read (r : RTC) (now offset : Z) (data : list byte) : outcome (list byte) :=
  v ← register r now offset;
  Ret (match v with Some v => if (length data <=? 4)%nat then write_le_u32 data v else data | None => data end).

Definition write (r : RTC) (now : Z) (evt_ok : bool) (offset : Z) (data : list byte) : outcome RTC :=
  if (length data <=? 4)%nat then '(_, r) ← handle_write r now evt_ok offset (read_le_u32 data); Ret r else Ret r.

(** ** Theorems *)

Lemma id_in_range offset : AMBA_ID_LOW <= offset < AMBA_ID_HIGH -> is_Some (PL031_ID !! Z.to_nat ((offset - AMBA_ID_LOW) .>> 2)).
Proof.
  intros Ho. apply lookup_lt_is_Some_2. unfold AMBA_ID_LOW, AMBA_ID_HIGH in *. rewrite Z.shiftr_div_pow2 by lia.
  change (length PL031_ID) with 8%nat. change (2 ^ 2) with 4.
  assert ((offset - 4064) / 4 < 8) by (apply Z.div_lt_upper_bound; lia). assert (0 <= (offset - 4064) / 4) by (apply Z.div_pos; lia). lia.
Qed.

Lemma seconds_fit v : fits 32 v -> seconds_to_nanoseconds v = Some (v * NANOS_PER_SECOND).
Proof. unfold fits, seconds_to_nanoseconds, NANOS_PER_SECOND. intros Hv. change (2 ^ 32) with 4294967296 in Hv. change (2 ^ 63) with 9223372036854775808.
  by rewrite (proj2 (Z.leb_le _ _)), (proj2 (Z.ltb_lt _ _)) by lia. Qed.

(** No access of the guest panics, whatever the offset and the data. *)
Theorem rtc_never_panics r now evt_ok offset data :
  bytes_ok data -> read r now offset data <> Panic /\ write r now evt_ok offset data <> Panic.
Proof.
  intros Hd. split.
  - unfold read, register. destruct (Z.leb_spec AMBA_ID_LOW offset); cbn [andb]; [|done].
    destruct (Z.ltb_spec offset AMBA_ID_HIGH); [|done]. destruct (id_in_range offset) as [v ->]; done.
  - unfold write, handle_write. destruct (_ <=? 4)%nat; [|done]. rewrite seconds_fit by (by apply (read_le_fits 4)).
    unfold trigger_interrupt. repeat (case_bool; [by destruct evt_ok|]). done.
Qed.

Lemma rtc_never_panics_witness :
  read (RTC_new 5 0) 0 0xFFC [0; 0; 0; 0] <> Panic /\ write (RTC_new 5 0) 0 true RTCLR [1; 2; 3; 4] <> Panic.
Proof.
  split.
  - apply (rtc_never_panics (RTC_new 5 0) 0 true 0xFFC [0; 0; 0; 0]). by repeat constructor.
  - apply (rtc_never_panics (RTC_new 5 0) 0 true RTCLR [1; 2; 3; 4]). by repeat constructor.
Defined.

(** The clock keeps the time the guest set: a read of the data register [dt]
    nanoseconds after seconds were loaded gives those seconds and the whole
    seconds of [dt], modulo 2^32, whatever else was written in between. *)
Theorem rtc_keeps_time r t0 evt_ok data r1 (ws : list (Z * bool * Z * list byte)) r2 dt :
  bytes_ok data -> length data = 4%nat -> 0 <= dt -> write r t0 evt_ok RTCLR data = Ret r1 ->
  Forall (fun '(_, _, offset, _) => offset <> RTCLR) ws ->
  foldl (fun o '(now, ok, offset, bs) => r ← o; write r now ok offset bs) (Ret r1) ws = Ret r2 ->
  read r2 (t0 + dt) RTCDR [0; 0; 0; 0] = Ret (le_bytes 4 (wrap 32 (le_val data + dt / NANOS_PER_SECOND))).
Proof.
  intros Hd Hl Hdt Hw Hws Hf.
  assert (forall ws r1 r2, Forall (fun '(_, _, offset, _) => offset <> RTCLR) ws ->
    foldl (fun o '(now, ok, offset, bs) => r ← o; write r now ok offset bs) (Ret r1) ws = Ret r2 ->
    previous_now r2 = previous_now r1 /\ tick_offset r2 = tick_offset r1) as Hkeep.
  { clear. intros ws. induction ws as [|[[[now ok] off] bs] ws IH]; intros r1 r2 Hws; cbn [foldl].
    - by intros [= <-].
    - apply Forall_cons in Hws as [Ho Hws]. cbn [mbind outcome_bind]. destruct (write r1 now ok off bs) as [r|] eqn:E.
      + intros Hf. destruct (IH r r2 Hws Hf) as [-> ->]. revert E. unfold write, handle_write, trigger_interrupt.
        destruct (_ <=? 4)%nat; [|by intros [= <-]]. rewrite (proj2 (Z.eqb_neq off RTCLR)) by done.
        repeat (case_bool; [destruct ok; cbn; by intros [= <-]|]). cbn. by intros [= <-].
      + intros Hf. exfalso. clear -Hf. induction ws as [|[[[? ?] ?] ?] ws IH]; cbn in Hf; [done|by apply IH]. }
  destruct (Hkeep ws r1 r2 Hws Hf) as [Hp Ht]. revert Hw. unfold write, handle_write. rewrite Hl. cbn [Nat.leb].
  change (RTCLR =? RTCMR) with false. change (RTCLR =? RTCLR) with true. cbn [mbind outcome_bind].
  unfold read_le_u32, read_le. rewrite read_array_full, take_ge by lia.
  pose proof (le_val_bound data Hd) as Hb. rewrite Hl in Hb. rewrite seconds_fit by (unfold fits; lia). cbn [unwrap mbind outcome_bind].
  intros [= <-]. cbn [previous_now tick_offset] in Hp, Ht.
  unfold read, register. change ((AMBA_ID_LOW <=? RTCDR) && _) with false. change (RTCDR =? RTCDR) with true. cbn [mbind outcome_bind length Nat.leb].
  unfold get_time. rewrite Hp, Ht. f_equal. unfold write_le_u32, write_le, write_array. cbn [length drop]. rewrite length_le_bytes.
  rewrite take_ge by (rewrite length_le_bytes; lia). cbn [drop]. rewrite app_nil_r. f_equal.
  replace (le_val data * NANOS_PER_SECOND + (t0 + dt - t0)) with (dt + le_val data * NANOS_PER_SECOND) by lia.
  unfold NANOS_PER_SECOND. rewrite Z.quot_div_nonneg, Z.div_add by lia. by rewrite Z.add_comm.
Qed.

Lemma rtc_keeps_time_witness :
  read (mkRTC 7 (100 * NANOS_PER_SECOND) 0 100 1 0 1) (7 + 2500000000) RTCDR [0; 0; 0; 0] = Ret (le_bytes 4 102).
Proof.
  apply (rtc_keeps_time (RTC_new 5 0) 7 true [100; 0; 0; 0] (mkRTC 7 (100 * NANOS_PER_SECOND) 0 100 0 0 0)
    [(9, true, RTCIMSC, [1; 0; 0; 0])] (mkRTC 7 (100 * NANOS_PER_SECOND) 0 100 1 0 1) 2500000000).
  - by repeat constructor.
  - reflexivity.
  - lia.
  - vm_compute. reflexivity.
  - constructor; [discriminate|constructor].
  - vm_compute. reflexivity.
Defined.

(** The alarm never fires: no write sets the raw interrupt status. *)
Lemma alarm_never_set r now evt_ok offset data r' : ris r = 0 -> write r now evt_ok offset data = Ret r' -> ris r' = 0.
Proof.
  intros Hr. unfold write, handle_write, trigger_interrupt. destruct (_ <=? 4)%nat; [|by intros [= <-]].
  case_bool; [by intros [= <-]|]. case_bool; [destruct (seconds_to_nanoseconds _); cbn; [by intros [= <-]|done]|].
  do 2 (case_bool; [destruct evt_ok; cbn; by intros [= <-]|]). case_bool; cbn; by intros [= <-].
Qed.
End Rtc.
