(* ===== verification/Gpio.v ===== *)
(** * The PL061 general-purpose input/output device
    ([devices/src/legacy/aarch64/gpio.rs])

    On aarch64 a request to shut down reaches the guest as a press of the
    restart key on a GPIO line.  The theorems: a write of the data register
    changes exactly the output lines of its mask; the guest sees the key once;
    every register keeps to its eight bits. *)

From S2P Require Import Prelude ByteOrder.

Module Gpio.
Import ByteOrder.

Definition OFS_DATA : Z := 0x400.
Definition GPIODIR : Z := 0x400.
Definition GPIOIS : Z := 0x404.
Definition GPIOIBE : Z := 0x408.
Definition GPIOIEV : Z := 0x40c.
Definition GPIOIE : Z := 0x410.
Definition GPIORIE : Z := 0x414.
Definition GPIOMIS : Z := 0x418.
Definition GPIOIC : Z := 0x41c.
Definition GPIOAFSEL : Z := 0x420.
Definition GPIO_ID : list Z := [0x61; 0x10; 0x14; 0x00; 0x0d; 0xf0; 0x05; 0xb1].
Definition GPIO_ID_LOW : Z := 0xfe0.
Definition GPIO_ID_HIGH : Z := 0x1000.

Inductive Error := BadWriteOffset (o : Z).

(** [irqs] counts the interrupts raised, through the controller or the event. *)
Record Gpio := mkGpio {
  data : Z; dir : Z; isense : Z; ibe : Z; iev : Z; im : Z; istate : Z; afsel : Z;
  intc : bool; irq_line : option Z; irqs : nat }.

Definition Gpio_new : Gpio := mkGpio 0 0 0 0 0 0 0 0 false None 0.

Definition set_intc (g : Gpio) : Gpio :=
  mkGpio (data g) (dir g) (isense g) (ibe g) (iev g) (im g) (istate g) (afsel g) true (irq_line g) (irqs g).

Definition set_irq_line (g : Gpio) (irq : Z) : Gpio :=
  mkGpio (data g) (dir g) (isense g) (ibe g) (iev g) (im g) (istate g) (afsel g) (intc g) (Some irq) (irqs g).

Definition handle_write (g : Gpio) (offset val : Z) : result Error Gpio :=
  let '(mkGpio data dir isense ibe iev im istate afsel intc line irqs) := g in
  if offset <? OFS_DATA then
    let mask := wrap 32 (offset .>> 2) .& dir in
    Ok (mkGpio ((data .& bnot 32 mask) .| (val .& mask)) dir isense ibe iev im istate afsel intc line irqs)
  else if offset =? GPIODIR then Ok (mkGpio data (val .& 0xff) isense ibe iev im istate afsel intc line irqs)
  else if offset =? GPIOIS then Ok (mkGpio data dir (val .& 0xff) ibe iev im istate afsel intc line irqs)
  else if offset =? GPIOIBE then Ok (mkGpio data dir isense (val .& 0xff) iev im istate afsel intc line irqs)
  else if offset =? GPIOIEV then Ok (mkGpio data dir isense ibe (val .& 0xff) im istate afsel intc line irqs)
  else if offset =? GPIOIE then Ok (mkGpio data dir isense ibe iev (val .& 0xff) istate afsel intc line irqs)
  else if offset =? GPIOIC then Ok (mkGpio data dir isense ibe iev im (istate .& bnot 32 val) afsel intc line irqs)
  else if offset =? GPIOAFSEL then Ok (mkGpio data dir isense ibe iev im istate (val .& 0xff) intc line irqs)
  else Err (BadWriteOffset offset).

(** A failed write of the interrupt event is only logged; [evt_ok] tells. *)
Definition trigger_gpio_interrupt (g : Gpio) (evt_ok : bool) : outcome Gpio :=
  raised ← (if intc g then _ ← unwrap (irq_line g); Ret true else Ret evt_ok);
  Ret (mkGpio (data g) (dir g) (isense g) (ibe g) (iev g) (im g) (istate g) (afsel g) (intc g) (irq_line g)
         (if raised : bool then S (irqs g) else irqs g)).

Definition trigger_restart_key (g : Gpio) (evt_ok press : bool) : outcome Gpio :=
  trigger_gpio_interrupt
    (mkGpio (if press then 0x8 else 0) (dir g) (isense g) (ibe g) (iev g) (im g) 0x8 (afsel g) (intc g) (irq_line g) (irqs g)) evt_ok.

(** The value read, when the offset has one, and the device after it. *)
Definition read_value (g : Gpio) (evt_ok : bool) (offset : Z) : outcome (option Z * Gpio) :=
  if (GPIO_ID_LOW <=? offset) && (offset <? GPIO_ID_HIGH) then
    v ← unwrap (GPIO_ID !! Z.to_nat ((offset - GPIO_ID_LOW) .>> 2)); Ret (Some v, g)
  else if offset <? OFS_DATA then
    let value := data g .& wrap 32 (offset .>> 2) in
    if negb (value =? 0) then g ← trigger_restart_key g evt_ok false; Ret (Some value, g) else Ret (Some value, g)
  else
    Ret (if offset =? GPIODIR then Some (dir g)
         else if offset =? GPIOIS then Some (isense g)
         else if offset =? GPIOIBE then Some (ibe g)
         else if offset =? GPIOIEV then Some (iev g)
         else if offset =? GPIOIE then Some (im g)
         else if offset =? GPIORIE then Some (istate g)
         else if offset =? GPIOMIS then Some (istate g .& im g)
         else if offset =? GPIOAFSEL then Some (afsel g)
         else None, g).

Definition read (g : Gpio) (evt_ok : bool) (offset : Z) (buf : list byte) : outcome (list byte * Gpio) :=
  '(v, g) ← read_value g evt_ok offset;
  Ret (match v with Some v => if (length buf <=? 4)%nat then write_le_u32 buf v else buf | None => buf end, g).

Definition write (g : Gpio) (offset : Z) (buf : list byte) : Gpio :=
  if (length buf <=? 4)%nat then match handle_write g offset (read_le_u32 buf) with Ok g => g | Err _ => g end else g.

(** The event of a request to shut down. *)
Definition process (g : Gpio) (evt_ok is_shutdown : bool) : outcome Gpio :=
  if is_shutdown then trigger_restart_key g evt_ok true else Ret g.

(** ** Theorems *)

(** A write to the data register changes exactly the lines that the address
    selects and that are outputs, and no other register. *)
Theorem masked_write g offset val g' i :
  0 <= offset < OFS_DATA -> 0 <= i < 32 -> handle_write g offset val = Ok g' ->
  Z.testbit (data g') i = (if Z.testbit offset (i + 2) && Z.testbit (dir g) i then Z.testbit val i else Z.testbit (data g) i) /\
  (dir g', isense g', ibe g', iev g', im g', istate g', afsel g', irqs g') = (dir g, isense g, ibe g, iev g, im g, istate g, afsel g, irqs g).
Proof.
  intros [Ho1 Ho2] Hi. unfold handle_write. destruct g as [d dr is_ ib ie m st af ic li n].
  rewrite (proj2 (Z.ltb_lt _ _)) by done. intros [= <-]. cbn [data dir isense ibe iev im istate afsel irqs]. split; [|done].
  rewrite Z.lor_spec, !Z.land_spec, bnot_testbit, Z.land_spec, wrap_testbit, Z.shiftr_spec by lia.
  by destruct (Z.testbit d i), (Z.testbit offset (i + 2)), (Z.testbit dr i), (Z.testbit val i).
Qed.

Lemma masked_write_witness : exists g', handle_write (mkGpio 0x88 0x0f 0 0 0 0 0 0 false None 0) 0x24 0xff = Ok g' /\
  Z.testbit (data g') 0 = true /\ Z.testbit (data g') 1 = false /\ Z.testbit (data g') 7 = true.
Proof.
  assert (exists g', handle_write (mkGpio 0x88 0x0f 0 0 0 0 0 0 false None 0) 0x24 0xff = Ok g') as [g' E] by (eexists; vm_compute; reflexivity).
  exists g'. split; [exact E|].
  split_and!; [rewrite (proj1 (masked_write _ 0x24 0xff g' 0 ltac:(unfold OFS_DATA; lia) ltac:(lia) E))
              |rewrite (proj1 (masked_write _ 0x24 0xff g' 1 ltac:(unfold OFS_DATA; lia) ltac:(lia) E))
              |rewrite (proj1 (masked_write _ 0x24 0xff g' 7 ltac:(unfold OFS_DATA; lia) ltac:(lia) E))]; vm_compute; reflexivity.
Defined.

(** What the guest and the host do with the device. *)
Inductive action := GuestRead (offset : Z) (buf : list byte) | GuestWrite (offset : Z) (buf : list byte) | HostEvent (is_shutdown : bool).

Definition act (g : Gpio) (a : action) : outcome Gpio :=
  match a with
  | GuestRead offset buf => '(_, g) ← read g true offset buf; Ret g
  | GuestWrite offset buf => Ret (write g offset buf)
  | HostEvent is_shutdown => process g true is_shutdown
  end.

Definition act_ok (a : action) : Prop :=
  match a with GuestRead offset buf | GuestWrite offset buf => 0 <= offset /\ bytes_ok buf | HostEvent _ => True end.

(** Every register holds eight bits, and the interrupt can be raised. *)
Record eight_bits (g : Gpio) : Prop := {
  eb_data : fits 8 (data g); eb_dir : fits 8 (dir g); eb_isense : fits 8 (isense g); eb_ibe : fits 8 (ibe g); eb_iev : fits 8 (iev g);
  eb_im : fits 8 (im g); eb_istate : fits 8 (istate g); eb_afsel : fits 8 (afsel g);
  eb_wired : intc g = true -> irq_line g <> None }.

Lemma land_ff_fits v : fits 8 (v .& 0xff).
Proof. apply land_fits_r; [lia|]. unfold fits. lia. Qed.
#[local] Hint Resolve land_ff_fits : core.

Lemma trigger_eight_bits g ok press : eight_bits g -> exists g', trigger_restart_key g ok press = Ret g' /\ eight_bits g' /\
  data g' = (if press then 8 else 0) /\ istate g' = 8.
Proof.
  intros []. unfold trigger_restart_key, trigger_gpio_interrupt. cbn [intc irq_line].
  destruct (intc g); [destruct (irq_line g); [|by destruct eb_wired0]|]; cbn; eexists; (split; [done|]); (split; [|done]);
    split; cbn; try done; destruct press; unfold fits; lia.
Qed.

Lemma write_eight_bits g offset val g' : 0 <= offset -> fits 32 val -> eight_bits g -> handle_write g offset val = Ok g' -> eight_bits g'.
Proof.
  intros Ho Hv [Hd ? ? ? ? ? Hst ? ?]. unfold handle_write. destruct g as [d dr is_ ib ie m st af ic li n]. cbn in *.
  case_bool; [|repeat (case_bool; [intros [= <-]; split; cbn; auto|]); [|done]].
  - intros [= <-]. split; cbn; auto. apply lor_fits; [lia|apply land_fits; [lia|done]|].
    apply land_fits_r; [lia|]. by apply land_fits_r; [lia|].
  - by apply land_fits; [lia|].
Qed.

(** From the start on, whatever the guest does at whatever offsets: nothing
    panics and every register keeps to its eight bits. *)
Theorem gpio_invariant (l : list action) :
  Forall act_ok l -> exists g, foldl (fun o a => g ← o; act g a) (Ret Gpio_new) l = Ret g /\ eight_bits g.
Proof.
  induction l as [|a l IH] using rev_ind; intros Hl.
  { exists Gpio_new. split; [done|]. split; cbn; done || (unfold fits; lia). }
  apply Forall_app in Hl as [Hl Ha]. apply Forall_inv in Ha. destruct (IH Hl) as (g & E & Hg). rewrite foldl_app, E. cbn [foldl mbind outcome_bind].
  destruct a as [offset buf|offset buf|sd]; cbn [act act_ok] in *.
  - unfold read, read_value. destruct (Z.leb_spec GPIO_ID_LOW offset), (Z.ltb_spec offset GPIO_ID_HIGH); cbn [andb].
    + assert (is_Some (GPIO_ID !! Z.to_nat ((offset - GPIO_ID_LOW) .>> 2))) as [v ->].
      { apply lookup_lt_is_Some_2. unfold GPIO_ID_LOW, GPIO_ID_HIGH in *. rewrite Z.shiftr_div_pow2 by lia.
        change (length GPIO_ID) with 8%nat. change (2 ^ 2) with 4.
        assert ((offset - 4064) / 4 < 8) by (apply Z.div_lt_upper_bound; lia). assert (0 <= (offset - 4064) / 4) by (apply Z.div_pos; lia). lia. }
      by exists g.
    + unfold GPIO_ID_LOW, OFS_DATA in *. rewrite (proj2 (Z.ltb_ge _ _)) by lia. by exists g.
    + destruct (offset <? OFS_DATA); [|by exists g]. destruct (negb _); [|by exists g].
      destruct (trigger_eight_bits g true false Hg) as (g' & -> & Hg' & _). by exists g'.
    + destruct (offset <? OFS_DATA); [|by exists g]. destruct (negb _); [|by exists g].
      destruct (trigger_eight_bits g true false Hg) as (g' & -> & Hg' & _). by exists g'.
  - destruct Ha as [Ho Hb]. eexists. split; [done|]. unfold write. destruct (_ <=? 4)%nat; [|done].
    destruct (handle_write g offset (read_le_u32 buf)) as [g'|] eqn:Ew; [|done].
    eapply write_eight_bits; [done|by apply (read_le_fits 4)|done|exact Ew].
  - destruct sd; cbn [process]; [|by exists g]. destruct (trigger_eight_bits g true true Hg) as (g' & -> & Hg' & _). by exists g'.
Qed.

Lemma gpio_invariant_witness :
  exists g, foldl (fun o a => g ← o; act g a) (Ret Gpio_new) [GuestWrite GPIOIE [8]; HostEvent true; GuestRead 0x20 [0; 0; 0; 0]] = Ret g /\ eight_bits g.
Proof.
  apply gpio_invariant. constructor; [split; [vm_compute; congruence|by repeat constructor]|].
  constructor; [exact I|]. constructor; [split; [lia|by repeat constructor]|]. constructor.
Defined.

(** A request to shut down is seen once: the press raises an interrupt, the
    first read of the key's line gives it and raises the interrupt of the
    release, and a second read gives nothing. *)
Theorem restart_key_seen_once g :
  eight_bits g -> exists g1 g2, process g true true = Ret g1 /\ irqs g1 = S (irqs g) /\
    read g1 true 0x20 [0; 0; 0; 0] = Ret ([8; 0; 0; 0], g2) /\ irqs g2 = S (irqs g1) /\
    read g2 true 0x20 [0; 0; 0; 0] = Ret ([0; 0; 0; 0], g2).
Proof.
  intros [_ _ _ _ _ _ _ _ Hw]. unfold process, trigger_restart_key, trigger_gpio_interrupt. cbn [intc irq_line irqs data dir isense ibe iev im istate afsel].
  destruct (intc g) eqn:Ei; [destruct (irq_line g) as [line|] eqn:El; [|by destruct Hw]|]; cbn [unwrap mbind outcome_bind].
  - do 2 eexists. split; [done|]. split; [done|]. split; [reflexivity|]. split; done.
  - do 2 eexists. split; [done|]. split; [done|]. split; [reflexivity|]. split; done.
Qed.

Lemma restart_key_seen_once_witness :
  exists g1 g2, process Gpio_new true true = Ret g1 /\ read g1 true 0x20 [0; 0; 0; 0] = Ret ([8; 0; 0; 0], g2) /\ irqs g2 = 2%nat.
Proof.
  destruct (restart_key_seen_once Gpio_new) as (g1 & g2 & E1 & H1 & E2 & H2 & _).
  - split; cbn; try (unfold fits; lia); discriminate.
  - exists g1, g2. split; [exact E1|]. split; [exact E2|]. rewrite H2, H1. reflexivity.
Defined.

(** The release clears the guest's own output lines. *)
Lemma release_clears_outputs g ok g' : trigger_restart_key g ok false = Ret g' -> data g' = 0.
Proof. unfold trigger_restart_key, trigger_gpio_interrupt. cbn. destruct (intc g); [destruct (irq_line g)|]; cbn; try done; by intros [= <-]. Qed.
End Gpio.
