(* ===== verification/Pl011.v ===== *)
(** * The PL011 serial port ([devices/src/legacy/aarch64/serial.rs])

    The serial port of aarch64 guests.  The sink and the interrupt event are
    parameters that tell whether a write fails; the log of the sink is kept in
    [out].  The theorems: input is read by a polling guest in order, once and
    whole; output leaves in order; no access inside the device's page panics
    (with debug logging off). *)

From S2P Require Import Prelude ByteOrder.

Module Pl011.
Import ByteOrder.

Definition UARTDR : Z := 0.
Definition UARTRSR_UARTECR : Z := 1.
Definition UARTFR : Z := 6.
Definition UARTILPR : Z := 8.
Definition UARTIBRD : Z := 9.
Definition UARTFBRD : Z := 10.
Definition UARTLCR_H : Z := 11.
Definition UARTCR : Z := 12.
Definition UARTIFLS : Z := 13.
Definition UARTIMSC : Z := 14.
Definition UARTRIS : Z := 15.
Definition UARTMIS : Z := 16.
Definition UARTICR : Z := 17.
Definition UARTDMACR : Z := 18.
Definition UARTDEBUG : Z := 0x3c0.
Definition PL011_INT_TX : Z := 0x20.
Definition PL011_INT_RX : Z := 0x10.
Definition PL011_FLAG_RXFF : Z := 0x40.
Definition PL011_FLAG_RXFE : Z := 0x10.
Definition PL011_ID : list Z := [0x11; 0x10; 0x14; 0x00; 0x0d; 0xf0; 0x05; 0xb1].
Definition AMBA_ID_LOW : Z := 0x3f8.
Definition AMBA_ID_HIGH : Z := 0x401.

Inductive Error := BadWriteOffset (o : Z) | DmaNotImplemented | InterruptFailure | WriteAllFailure | FlushFailure.

(** [out] is what the sink was given, when there is one; [irqs] counts the
    interrupts raised, through the controller or the event. *)
Record Serial := mkSerial {
  flags : Z; lcr : Z; rsr : Z; cr : Z; dmacr : Z; debug : Z; int_enabled : Z;
  int_level : Z; read_fifo : list byte; ilpr : Z; ibrd : Z; fbrd : Z; ifl : Z; read_count : Z;
  read_trigger : Z; out : option (list byte); input : bool; intc : bool; irq_line : option Z; irqs : nat }.

(** What the outside decides: whether writes to the sink and the interrupt event
    succeed, and whether debug messages are formatted. *)
Record Env := mkEnv { write_ok : bool; flush_ok : bool; evt_ok : bool; debug_on : bool }.

Definition set_flags (s : Serial) (v : Z) : Serial :=
  mkSerial v (lcr s) (rsr s) (cr s) (dmacr s) (debug s) (int_enabled s) (int_level s) (read_fifo s) (ilpr s) (ibrd s) (fbrd s) (ifl s) (read_count s) (read_trigger s) (out s) (input s) (intc s) (irq_line s) (irqs s).
Definition set_lcr (s : Serial) (v : Z) : Serial :=
  mkSerial (flags s) v (rsr s) (cr s) (dmacr s) (debug s) (int_enabled s) (int_level s) (read_fifo s) (ilpr s) (ibrd s) (fbrd s) (ifl s) (read_count s) (read_trigger s) (out s) (input s) (intc s) (irq_line s) (irqs s).
Definition set_rsr (s : Serial) (v : Z) : Serial :=
  mkSerial (flags s) (lcr s) v (cr s) (dmacr s) (debug s) (int_enabled s) (int_level s) (read_fifo s) (ilpr s) (ibrd s) (fbrd s) (ifl s) (read_count s) (read_trigger s) (out s) (input s) (intc s) (irq_line s) (irqs s).
Definition set_cr (s : Serial) (v : Z) : Serial :=
  mkSerial (flags s) (lcr s) (rsr s) v (dmacr s) (debug s) (int_enabled s) (int_level s) (read_fifo s) (ilpr s) (ibrd s) (fbrd s) (ifl s) (read_count s) (read_trigger s) (out s) (input s) (intc s) (irq_line s) (irqs s).
Definition set_dmacr (s : Serial) (v : Z) : Serial :=
  mkSerial (flags s) (lcr s) (rsr s) (cr s) v (debug s) (int_enabled s) (int_level s) (read_fifo s) (ilpr s) (ibrd s) (fbrd s) (ifl s) (read_count s) (read_trigger s) (out s) (input s) (intc s) (irq_line s) (irqs s).
Definition set_debug (s : Serial) (v : Z) : Serial :=
  mkSerial (flags s) (lcr s) (rsr s) (cr s) (dmacr s) v (int_enabled s) (int_level s) (read_fifo s) (ilpr s) (ibrd s) (fbrd s) (ifl s) (read_count s) (read_trigger s) (out s) (input s) (intc s) (irq_line s) (irqs s).
Definition set_int_enabled (s : Serial) (v : Z) : Serial :=
  mkSerial (flags s) (lcr s) (rsr s) (cr s) (dmacr s) (debug s) v (int_level s) (read_fifo s) (ilpr s) (ibrd s) (fbrd s) (ifl s) (read_count s) (read_trigger s) (out s) (input s) (intc s) (irq_line s) (irqs s).
Definition set_int_level (s : Serial) (v : Z) : Serial :=
  mkSerial (flags s) (lcr s) (rsr s) (cr s) (dmacr s) (debug s) (int_enabled s) v (read_fifo s) (ilpr s) (ibrd s) (fbrd s) (ifl s) (read_count s) (read_trigger s) (out s) (input s) (intc s) (irq_line s) (irqs s).
Definition set_ilpr (s : Serial) (v : Z) : Serial :=
  mkSerial (flags s) (lcr s) (rsr s) (cr s) (dmacr s) (debug s) (int_enabled s) (int_level s) (read_fifo s) v (ibrd s) (fbrd s) (ifl s) (read_count s) (read_trigger s) (out s) (input s) (intc s) (irq_line s) (irqs s).
Definition set_ibrd (s : Serial) (v : Z) : Serial :=
  mkSerial (flags s) (lcr s) (rsr s) (cr s) (dmacr s) (debug s) (int_enabled s) (int_level s) (read_fifo s) (ilpr s) v (fbrd s) (ifl s) (read_count s) (read_trigger s) (out s) (input s) (intc s) (irq_line s) (irqs s).
Definition set_fbrd (s : Serial) (v : Z) : Serial :=
  mkSerial (flags s) (lcr s) (rsr s) (cr s) (dmacr s) (debug s) (int_enabled s) (int_level s) (read_fifo s) (ilpr s) (ibrd s) v (ifl s) (read_count s) (read_trigger s) (out s) (input s) (intc s) (irq_line s) (irqs s).
Definition set_ifl (s : Serial) (v : Z) : Serial :=
  mkSerial (flags s) (lcr s) (rsr s) (cr s) (dmacr s) (debug s) (int_enabled s) (int_level s) (read_fifo s) (ilpr s) (ibrd s) (fbrd s) v (read_count s) (read_trigger s) (out s) (input s) (intc s) (irq_line s) (irqs s).
Definition set_read_count (s : Serial) (v : Z) : Serial :=
  mkSerial (flags s) (lcr s) (rsr s) (cr s) (dmacr s) (debug s) (int_enabled s) (int_level s) (read_fifo s) (ilpr s) (ibrd s) (fbrd s) (ifl s) v (read_trigger s) (out s) (input s) (intc s) (irq_line s) (irqs s).
Definition set_read_trigger (s : Serial) (v : Z) : Serial :=
  mkSerial (flags s) (lcr s) (rsr s) (cr s) (dmacr s) (debug s) (int_enabled s) (int_level s) (read_fifo s) (ilpr s) (ibrd s) (fbrd s) (ifl s) (read_count s) v (out s) (input s) (intc s) (irq_line s) (irqs s).
Definition set_fifo (s : Serial) (l : list byte) : Serial :=
  mkSerial (flags s) (lcr s) (rsr s) (cr s) (dmacr s) (debug s) (int_enabled s) (int_level s) l (ilpr s) (ibrd s) (fbrd s) (ifl s) (read_count s) (read_trigger s) (out s) (input s) (intc s) (irq_line s) (irqs s).
Definition set_out (s : Serial) (l : option (list byte)) : Serial :=
  mkSerial (flags s) (lcr s) (rsr s) (cr s) (dmacr s) (debug s) (int_enabled s) (int_level s) (read_fifo s) (ilpr s) (ibrd s) (fbrd s) (ifl s) (read_count s) (read_trigger s) l (input s) (intc s) (irq_line s) (irqs s).
Definition count_irq (s : Serial)  : Serial :=
  mkSerial (flags s) (lcr s) (rsr s) (cr s) (dmacr s) (debug s) (int_enabled s) (int_level s) (read_fifo s) (ilpr s) (ibrd s) (fbrd s) (ifl s) (read_count s) (read_trigger s) (out s) (input s) (intc s) (irq_line s) (S (irqs s)).

Definition set_intc (s : Serial)  : Serial :=
  mkSerial (flags s) (lcr s) (rsr s) (cr s) (dmacr s) (debug s) (int_enabled s) (int_level s) (read_fifo s) (ilpr s) (ibrd s) (fbrd s) (ifl s) (read_count s) (read_trigger s) (out s) (input s) true (irq_line s) (irqs s).

Definition set_irq_line (s : Serial) (irq : Z) : Serial :=
  mkSerial (flags s) (lcr s) (rsr s) (cr s) (dmacr s) (debug s) (int_enabled s) (int_level s) (read_fifo s) (ilpr s) (ibrd s) (fbrd s) (ifl s) (read_count s) (read_trigger s) (out s) (input s) (intc s) (Some irq) (irqs s).

Definition Serial_new (out input : bool) : Serial :=
  mkSerial 0x90 0 0 0x300 0 0 0 0 [] 0 0 0 0x12 0 1 (if out then Some [] else None) input false None 0.

Definition new_in_out : Serial := Serial_new true true.

Definition new_out : Serial := Serial_new true false.

Definition new_sink : Serial := Serial_new false false.

Definition trigger_interrupt (e : Env) (s : Serial) : outcome (bool * Serial) :=
  if intc s then _ ← unwrap (irq_line s); Ret (true, count_irq s)
  else Ret (evt_ok e, if evt_ok e then count_irq s else s).

(** The result tells whether the interrupt could be raised. *)
Definition queue_input_bytes (e : Env) (s : Serial) (c : list byte) : outcome (bool * Serial) :=
  let s := set_fifo s (read_fifo s ++ c) in
  let s := set_read_count s (read_count s +[32] wrap 32 (Zlength c)) in
  let s := set_flags s (flags s .& bnot 32 PL011_FLAG_RXFE) in
  let s := if (lcr s .& 0x10 =? 0) || (read_count s =? 16) then set_flags s (flags s .| PL011_FLAG_RXFF) else s in
  if read_trigger s <=? read_count s then trigger_interrupt e (set_int_level s (int_level s .| PL011_INT_RX)) else Ret (true, s).

Definition flush_output (e : Env) (s : Serial) : bool := match out s with Some _ => flush_ok e | None => true end.

Definition pl011_get_baudrate (s : Serial) : outcome Z :=
  if fbrd s =? 0 then Ret 0
  else
    let d := wrap 32 (ibrd s .<< 6) +[32] fbrd s in
    if d =? 0 then Panic else Ret (wrap 32 ((24000000 / d) .<< 2)).

Definition pl011_trace_baudrate_change (e : Env) (s : Serial) : outcome unit :=
  if debug_on e then _ ← pl011_get_baudrate s; Ret tt else Ret tt.

Definition pl011_set_read_trigger (s : Serial) : Serial := set_read_trigger s 1.

(** [trigger_interrupt] as the last action of a write. *)
Definition trigger (e : Env) (s : Serial) : outcome (result Error unit * Serial) :=
  '(ok, s) ← trigger_interrupt e s; Ret (if ok : bool then Ok tt else Err InterruptFailure, s).

Definition handle_write (e : Env) (s : Serial) (offset val : Z) : outcome (result Error unit * Serial) :=
  let r := offset .>> 2 in
  if r =? UARTDR then
    let s := set_int_level s (int_level s .| PL011_INT_TX) in
    match out s with
    | None => Ret (Ok tt, s)
    | Some l =>
        if negb (write_ok e) then Ret (Err WriteAllFailure, s)
        else let s := set_out s (Some (l ++ [wrap 8 val])) in Ret (if flush_ok e then Ok tt else Err FlushFailure, s)
    end
  else if r =? UARTRSR_UARTECR then Ret (Ok tt, set_rsr s 0)
  else if r =? UARTFR then Ret (Ok tt, s)
  else if r =? UARTILPR then Ret (Ok tt, set_ilpr s val)
  else if r =? UARTIBRD then let s := set_ibrd s val in _ ← pl011_trace_baudrate_change e s; Ret (Ok tt, s)
  else if r =? UARTFBRD then let s := set_fbrd s val in _ ← pl011_trace_baudrate_change e s; Ret (Ok tt, s)
  else if r =? UARTLCR_H then
    let s := if Z.lxor (lcr s) val .& 0x10 =? 0 then s else set_read_count s 0 in
    Ret (Ok tt, pl011_set_read_trigger (set_lcr s val))
  else if r =? UARTCR then Ret (Ok tt, set_cr s val)
  else if r =? UARTIFLS then Ret (Ok tt, pl011_set_read_trigger (set_ifl s val))
  else if r =? UARTIMSC then trigger e (set_int_enabled s val)
  else if r =? UARTICR then trigger e (set_int_level s (int_level s .& bnot 32 val))
  else if r =? UARTDMACR then Ret (if val .& 3 =? 0 then Ok tt else Err DmaNotImplemented, set_dmacr s val)
  else if r =? UARTDEBUG then Ret (Ok tt, set_debug s val)
  else Ret (Err (BadWriteOffset r), s).

(** A read of the data register. *)
Definition read_data (s : Serial) : Z * Serial :=
  let s := set_flags s (flags s .& bnot 32 PL011_FLAG_RXFF) in
  let c := default 0 (head (read_fifo s)) in
  let s := set_fifo s (tail (read_fifo s)) in
  let s := if 0 <? read_count s then set_read_count s (read_count s - 1) else s in
  let s := if read_count s =? 0 then set_flags s (flags s .| PL011_FLAG_RXFE) else s in
  let s := if read_count s =? read_trigger s -[32] 1 then set_int_level s (int_level s .& bnot 32 PL011_INT_RX) else s in
  (c, set_rsr s (c .>> 8)).

(** The value read, when the offset has one, and the port after it. *)
Definition read_value (s : Serial) (offset : Z) : outcome (option Z * Serial) :=
  let r := offset .>> 2 in
  if (AMBA_ID_LOW <=? r) && (r <? AMBA_ID_HIGH) then
    v ← unwrap (PL011_ID !! Z.to_nat ((offset - 0xfe0) .>> 2)); Ret (Some v, s)
  else if r =? UARTDR then let '(c, s) := read_data s in Ret (Some c, s)
  else
    Ret (if r =? UARTRSR_UARTECR then Some (rsr s)
         else if r =? UARTFR then Some (flags s)
         else if r =? UARTILPR then Some (ilpr s)
         else if r =? UARTIBRD then Some (ibrd s)
         else if r =? UARTFBRD then Some (fbrd s)
         else if r =? UARTLCR_H then Some (lcr s)
         else if r =? UARTCR then Some (cr s)
         else if r =? UARTIFLS then Some (ifl s)
         else if r =? UARTIMSC then Some (int_enabled s)
         else if r =? UARTRIS then Some (int_level s)
         else if r =? UARTMIS then Some (int_level s .& int_enabled s)
         else if r =? UARTDMACR then Some (dmacr s)
         else if r =? UARTDEBUG then Some (debug s)
         else None, s).

Definition read (s : Serial) (offset : Z) (data : list byte) : outcome (list byte * Serial) :=
  '(v, s) ← read_value s offset;
  Ret (match v with Some v => if (length data <=? 4)%nat then write_le_u32 data v else data | None => data end, s).

Definition write (e : Env) (s : Serial) (offset : Z) (data : list byte) : outcome Serial :=
  if (length data <=? 4)%nat then '(_, s) ← handle_write e s offset (read_le_u32 data); Ret s else Ret s.

(** An event of the input: [event_set] is contained in [IN], the event is the
    input's, and what a read of it into 32 bytes gives. *)
Definition process (e : Env) (s : Serial) (supported is_input : bool) (rd : option (list byte)) : outcome Serial :=
  if negb supported then Ret s
  else if input s && is_input then
    match rd with Some bs => '(_, s) ← queue_input_bytes e s bs; Ret s | None => Ret s end
  else Ret s.

(** ** Input *)

Definition wired (s : Serial) : Prop := intc s = true -> irq_line s <> None.

(** The counter and the flag agree with the queue. *)
Record fifo_ok (s : Serial) : Prop := {
  fo_count : read_count s = Zlength (read_fifo s);
  fo_trigger : read_trigger s = 1;
  fo_empty : Z.testbit (flags s) 4 = bool_decide (read_fifo s = []);
  fo_small : Zlength (read_fifo s) < 2 ^ 32;
  fo_wired : wired s }.

Lemma trigger_state e s : wired s -> exists ok s', trigger_interrupt e s = Ret (ok, s') /\ (s' = s \/ s' = count_irq s).
Proof.
  unfold wired, trigger_interrupt. intros Hw. destruct (intc s).
  - destruct (irq_line s); [|by destruct Hw]. cbn. eauto.
  - destruct (evt_ok e); eauto.
Qed.

Lemma testbit_clear f m i : 0 <= i < 32 -> Z.testbit (f .& bnot 32 m) i = Z.testbit f i && negb (Z.testbit m i).
Proof. intros Hi. by rewrite Z.land_spec, bnot_testbit. Qed.

Lemma queue_fifo e s c :
  fifo_ok s -> c <> [] -> Zlength (read_fifo s ++ c) < 2 ^ 32 ->
  exists ok s', queue_input_bytes e s c = Ret (ok, s') /\ fifo_ok s' /\ read_fifo s' = read_fifo s ++ c /\ Z.testbit (int_level s') 4 = true.
Proof.
  intros [Hc Ht He Hs Hw] Hne Hl. unfold queue_input_bytes. cbn [lcr read_count flags read_trigger read_fifo set_fifo set_read_count set_flags set_int_level].
  rewrite length_app in Hl. assert (0 < Zlength c) by (destruct c; [done|cbn; lia]).
  rewrite (wrap_small 32 (Zlength c)), (wrap_small 32) by (unfold fits; lia).
  set (s1 := if (lcr s .& 16 =? 0) || _ then _ else _).
  assert (fifo_ok s1 /\ read_fifo s1 = read_fifo s ++ c) as [Hok Hf].
  { subst s1.
    case_bool; (split; [|done]); split; cbn [read_count read_fifo read_trigger flags set_fifo set_read_count set_flags]; try done;
      try (rewrite length_app; lia).
    - rewrite Z.lor_spec, testbit_clear by lia. rewrite bool_decide_eq_false_2 by (by intros [_ ?]%app_nil). by rewrite andb_false_r.
    - rewrite testbit_clear by lia. rewrite bool_decide_eq_false_2 by (by intros [_ ?]%app_nil). by rewrite andb_false_r. }
  destruct Hok as [Hc1 Ht1 He1 Hs1 Hw1]. rewrite Ht1, Hc1, Hf, length_app, (proj2 (Z.leb_le _ _)) by lia.
  destruct (trigger_state e (set_int_level s1 (int_level s1 .| PL011_INT_RX)) Hw1) as (ok & s2 & -> & Hs2).
  exists ok, s2. split; [done|].
  destruct Hs2 as [-> | ->]; (split; [by split|split; [exact Hf|]]); cbn [int_level set_int_level count_irq]; rewrite Z.lor_spec; by rewrite orb_true_r.
Qed.

(** A guest that polls: while the flag register does not say "empty", it reads
    a byte. *)
Fixpoint poll (fuel : nat) (s : Serial) : option (outcome (list byte * Serial)) :=
  match fuel with
  | O => None
  | S fuel =>
      match read s 0x18 [0; 0; 0; 0] with
      | Panic => Some Panic
      | Ret (fr, s) =>
          if Z.testbit (le_val fr) 4 then Some (Ret ([], s))
          else
            match read s 0 [0] with
            | Panic => Some Panic
            | Ret (d, s) =>
                match poll fuel s with
                | Some (Ret (ds, s)) => Some (Ret (d ++ ds, s))
                | r => r
                end
            end
      end
  end.

Lemma read_data_fifo s b l :
  fifo_ok s -> read_fifo s = b :: l -> fits 8 b ->
  exists s', read_data s = (b, s') /\ fifo_ok s' /\ read_fifo s' = l.
Proof.
  intros [Hc Ht He Hs Hw] Hf Hb. unfold read_data. rewrite Hf in Hc, He, Hs.
  cbn [read_count flags set_flags set_fifo set_read_count read_trigger read_fifo]. rewrite Hc, Hf. cbn [head tail default]. rewrite (proj2 (Z.ltb_lt _ _)) by (cbn; lia).
  assert (Z.of_nat (length (b :: l)) - 1 = Zlength l) as -> by (cbn; lia). cbn [read_count set_read_count].
  assert (1 -[32] 1 = 0) as H1 by done.
  destruct (Z.eqb_spec (Zlength l) 0) as [H0|H0]; cbn [read_count set_read_count set_flags read_trigger set_fifo];
    rewrite Ht, H1; [rewrite (proj2 (Z.eqb_eq _ _)) by done|rewrite (proj2 (Z.eqb_neq _ _)) by done];
    eexists; (split; [done|]); (split; [|done]); split; cbn [read_count set_read_count set_flags read_trigger set_fifo set_rsr set_int_level flags read_fifo]; try done.
  - rewrite Z.lor_spec, orb_true_r. symmetry. apply bool_decide_eq_true_2. by destruct l.
  - cbn in Hs. lia.
  - rewrite testbit_clear, He by lia. symmetry. rewrite bool_decide_eq_false_2 by (by destruct l). by rewrite bool_decide_eq_false_2.
  - cbn in Hs. lia.
Qed.

Lemma flags_bit f : Z.testbit (le_val (le_bytes 4 f)) 4 = Z.testbit f 4.
Proof. rewrite le_val_le_bytes. apply Z.mod_pow2_bits_low. lia. Qed.

Lemma poll_drains s fuel :
  fifo_ok s -> bytes_ok (read_fifo s) -> (length (read_fifo s) < fuel)%nat ->
  exists s', poll fuel s = Some (Ret (read_fifo s, s')) /\ fifo_ok s' /\ read_fifo s' = [].
Proof.
  remember (read_fifo s) as l eqn:El. revert s El fuel. induction l as [|b l IH]; intros s El [|fuel] Hok Hb Hf; try (cbn in Hf; lia); cbn [poll].
  - assert (read s 0x18 [0; 0; 0; 0] = Ret (le_bytes 4 (flags s), s)) as -> by done. rewrite flags_bit, (fo_empty s Hok), <- El.
    rewrite bool_decide_eq_true_2 by done. by exists s.
  - assert (read s 0x18 [0; 0; 0; 0] = Ret (le_bytes 4 (flags s), s)) as -> by done. rewrite flags_bit, (fo_empty s Hok), <- El.
    rewrite bool_decide_eq_false_2 by done. apply Forall_cons in Hb as [Hb Hl].
    destruct (read_data_fifo s b l Hok (eq_sym El) Hb) as (s1 & E & Hok1 & Hf1).
    assert (read s 0 [0] = Ret ([b], s1)) as ->.
    { unfold read, read_value. change (0 .>> 2) with 0. change ((AMBA_ID_LOW <=? 0) && _) with false. change (0 =? UARTDR) with true.
      rewrite E. cbn [mbind outcome_bind length Nat.leb]. unfold write_le_u32, write_le, write_array. cbn [length drop].
      change (Ret ([b mod 256], s1) = Ret ([b], s1)). rewrite Z.mod_small by (unfold fits in Hb; lia). done. }
    cbn in Hf. destruct (IH s1 (eq_sym Hf1) fuel Hok1 Hl) as (s2 & -> & Hok2 & Hf2); [lia|]. by exists s2.
Qed.

(** Input is read in order, once and whole: what the host queues, in pieces, is
    exactly what a polling guest then reads, and the queue is empty again. *)
Theorem input_read_in_order e s cs fuel :
  fifo_ok s -> read_fifo s = [] -> Forall (fun c => c <> [] /\ bytes_ok c) cs -> Zlength (concat cs) < 2 ^ 32 -> (length (concat cs) < fuel)%nat ->
  exists s1 s2, foldl (fun o c => s ← o; '(_, s) ← queue_input_bytes e s c; Ret s) (Ret s) cs = Ret s1 /\
    poll fuel s1 = Some (Ret (concat cs, s2)) /\ read_fifo s2 = [] /\ fifo_ok s2.
Proof.
  intros Hok Hf Hcs Hl Hfu.
  assert (exists s1, foldl (fun o c => s ← o; '(_, s) ← queue_input_bytes e s c; Ret s) (Ret s) cs = Ret s1 /\
    fifo_ok s1 /\ read_fifo s1 = concat cs) as (s1 & E & Hok1 & Hf1).
  { clear fuel Hfu. revert Hl Hcs. induction cs as [|c cs IH] using rev_ind; intros Hl Hcs; [by exists s|].
    rewrite concat_app in *. cbn [concat] in *. rewrite app_nil_r in *. apply Forall_app in Hcs as [Hcs Hc]. apply Forall_inv in Hc as [Hne _].
    rewrite length_app in Hl. destruct IH as (s1 & E & Hok1 & Hf1); [lia|done|]. rewrite foldl_app, E. cbn [foldl mbind outcome_bind].
    destruct (queue_fifo e s1 c Hok1 Hne) as (ok & s2 & -> & Hok2 & Hf2 & _); [rewrite Hf1, length_app; lia|].
    exists s2. by rewrite Hf2, Hf1. }
  destruct (poll_drains s1 fuel Hok1) as (s2 & E2 & Hok2 & Hf2).
  - rewrite Hf1. clear -Hcs. induction Hcs as [|c cs [_ Hc] _ IH]; [constructor|]. by apply Forall_app.
  - by rewrite Hf1.
  - exists s1, s2. by rewrite E2, Hf1.
Qed.

Lemma input_read_in_order_witness :
  exists s1 s2, foldl (fun o c => s ← o; '(_, s) ← queue_input_bytes (mkEnv true true true false) s c; Ret s) (Ret new_in_out) [[104; 105]; [10]] = Ret s1 /\
    poll 4 s1 = Some (Ret ([104; 105; 10], s2)) /\ read_fifo s2 = [].
Proof.
  destruct (input_read_in_order (mkEnv true true true false) new_in_out [[104; 105]; [10]] 4) as (s1 & s2 & E1 & E2 & Hf & _).
  - split; try reflexivity. discriminate.
  - reflexivity.
  - constructor; [split; [discriminate|by repeat constructor]|]. constructor; [split; [discriminate|by repeat constructor]|]. constructor.
  - vm_compute. reflexivity.
  - vm_compute. lia.
  - exists s1, s2. split; [exact E1|]. split; [exact E2|exact Hf].
Defined.

(** ** Output and panics *)

(** Output leaves in order: the low bytes written to the data register are
    appended to the sink, while it takes them. *)
Theorem output_in_order e s l (ws : list (list byte)) :
  write_ok e = true -> out s = Some l -> Forall (fun w => (0 < length w <= 4)%nat /\ bytes_ok w) ws ->
  exists s', foldl (fun o w => s ← o; write e s 0 w) (Ret s) ws = Ret s' /\ out s' = Some (l ++ map (fun w => default 0 (head w)) ws) /\
    read_fifo s' = read_fifo s.
Proof.
  intros He Ho Hws. revert s l Ho. induction Hws as [|w ws [Hw Hb] Hws IH]; intros s l Ho; cbn [foldl].
  { exists s. by rewrite app_nil_r. }
  cbn [mbind outcome_bind]. assert (write e s 0 w = Ret (set_out (set_int_level s (int_level s .| PL011_INT_TX)) (Some (l ++ [default 0 (head w)])))) as ->.
  { unfold write, handle_write. rewrite (proj2 (Nat.leb_le _ _)) by lia. change (0 .>> 2 =? UARTDR) with true. cbn iota.
    cbn [out set_int_level]. rewrite Ho, He. cbn [negb mbind outcome_bind]. do 4 f_equal.
    destruct w as [|b w]; [cbn in Hw; lia|]. apply Forall_cons in Hb as [Hb _]. unfold read_le_u32, read_le, read_array. cbn [take app le_val head default].
    unfold fits in Hb. set (x := le_val _). unfold wrap. change (2 ^ 8) with 256 in *. replace (b + 256 * x) with (b + x * 256) by lia.
    rewrite Z.mod_add by lia. by rewrite Z.mod_small. }
  destruct (IH (set_out (set_int_level s (int_level s .| PL011_INT_TX)) (Some (l ++ [default 0 (head w)]))) _ eq_refl) as (s' & -> & Hs' & Hf).
  exists s'. split; [done|]. split; [by rewrite Hs', <- app_assoc|done].
Qed.

Lemma output_in_order_witness :
  exists s', foldl (fun o w => s ← o; write (mkEnv true true true false) s 0 w) (Ret new_out) [[104; 0; 0; 0]; [105]] = Ret s' /\ out s' = Some [104; 105].
Proof.
  destruct (output_in_order (mkEnv true true true false) new_out [] [[104; 0; 0; 0]; [105]]) as (s' & E & Ho & _).
  - reflexivity.
  - reflexivity.
  - repeat constructor; cbn; lia.
  - exists s'. split; [exact E|exact Ho].
Defined.

Ltac reg := match goal with |- context [?o .>> 2 =? ?r] => destruct (o .>> 2 =? r) end.

(** No access inside the device's page panics, when debug messages are off and
    the interrupt is connected. *)
Theorem pl011_never_panics e s offset data :
  wired s -> debug_on e = false -> 0 <= offset < 0x1000 -> read s offset data <> Panic /\ write e s offset data <> Panic.
Proof.
  intros Hw Hd Ho. split.
  - unfold read, read_value. destruct (Z.leb_spec AMBA_ID_LOW (offset .>> 2)) as [Hl|]; cbn [andb].
    + assert (offset .>> 2 < 0x400) as Hr by (rewrite Z.shiftr_div_pow2 by lia; apply Z.div_lt_upper_bound; lia).
      unfold AMBA_ID_LOW, AMBA_ID_HIGH in *. rewrite (proj2 (Z.ltb_lt _ _)) by lia.
      rewrite Z.shiftr_div_pow2 in * by lia. change (2 ^ 2) with 4 in *.
      assert (is_Some (PL011_ID !! Z.to_nat ((offset - 0xfe0) / 4))) as [v ->]; [|done].
      apply lookup_lt_is_Some_2. change (length PL011_ID) with 8%nat.
      replace (offset - 0xfe0) with (offset + (-1016) * 4) by lia. rewrite Z.div_add by lia. lia.
    + reg; [|done]. by destruct (read_data s).
  - unfold write, handle_write, trigger, pl011_trace_baudrate_change. rewrite Hd. destruct (_ <=? 4)%nat; [|done].
    reg; [cbn [out set_int_level]; destruct (out s); [|done]; by destruct (write_ok e)|].
    do 8 (reg; [done|]).
    reg; [destruct (trigger_state e (set_int_enabled s (read_le_u32 data))) as (ok & s' & -> & _); done|].
    reg; [destruct (trigger_state e (set_int_level s (int_level s .& bnot 32 (read_le_u32 data)))) as (ok & s' & -> & _); done|].
    by repeat (reg; [done|]).
Qed.

Lemma pl011_never_panics_witness :
  read new_in_out 0xffc [0; 0; 0; 0] <> Panic /\ write (mkEnv true true true false) new_in_out 0x24 [1; 2; 3; 4] <> Panic.
Proof.
  split.
  - apply (pl011_never_panics (mkEnv true true true false) new_in_out 0xffc [0; 0; 0; 0]); [discriminate|reflexivity|lia].
  - apply (pl011_never_panics (mkEnv true true true false) new_in_out 0x24 [1; 2; 3; 4]); [discriminate|reflexivity|lia].
Defined.

(** ** What goes wrong *)

(** The baud rate of a divisor that wraps to zero, computed for a debug message. *)
Lemma zero_divisor_panics s : ibrd s = 2 ^ 26 - 1 -> handle_write (mkEnv true true true true) s (UARTFBRD * 4) 64 = Panic.
Proof.
  intros Hi. unfold handle_write. change (UARTFBRD * 4 .>> 2) with UARTFBRD. cbn [Z.eqb UARTFBRD]. cbn. unfold pl011_get_baudrate. cbn [fbrd ibrd set_fbrd].
  by rewrite Hi.
Qed.

(** The end of the input is announced to the guest as a byte to read. *)
Lemma end_of_input_reads_zero e s :
  fifo_ok s -> read_fifo s = [] -> input s = true -> exists s', process e s true true (Some []) = Ret s' /\ Z.testbit (flags s') 4 = false /\
    (read_data s').1 = 0.
Proof.
  intros [Hc Ht He Hs Hw] Hf Hi. unfold process, queue_input_bytes. rewrite Hi. cbn [negb andb]. rewrite Hf.
  cbn [app read_count set_read_count set_fifo read_trigger flags set_flags lcr]. rewrite Hc, Hf. change (Zlength (@nil Z) +[32] wrap 32 (Zlength (@nil Z))) with 0.
  destruct ((lcr s .& 16 =? 0) || _); cbn [read_trigger read_count set_flags set_read_count set_fifo]; rewrite Ht;
    cbn [Z.leb Z.compare mbind outcome_bind]; eexists; (split; [done|]);
    cbn [flags set_flags set_read_count set_fifo read_fifo]; rewrite ?Z.lor_spec, testbit_clear, andb_false_r by lia; done.
Qed.

(** Switching the FIFO clears its count but not its bytes. *)
Lemma fifo_reset_keeps_bytes e s val : lcr s = 0 -> Z.testbit val 4 = true -> 0 <= val -> exists s',
  handle_write e s (UARTLCR_H * 4) val = Ret (Ok tt, s') /\ read_count s' = 0 /\ read_fifo s' = read_fifo s.
Proof.
  intros Hl Hv H0. unfold handle_write. change (UARTLCR_H * 4 .>> 2) with UARTLCR_H. cbn [Z.eqb UARTLCR_H]. cbn. rewrite Hl, Z.lxor_0_l.
  change 16 with (2 ^ 4). rewrite land_bit, Hv by lia. cbn. by eexists.
Qed.
End Pl011.
