(* ===== verification/Smbios.v ===== *)
(** * The SMBIOS tables ([smbios/src/lib.rs], [smbios/src/table.rs])

    The tables a guest's firmware interface reports: an entry point and, behind
    it, the structures for the BIOS, the system, the OEM strings and the end,
    each with its strings.  They are written object by object into guest
    memory.  The theorems: the tables are written where and as long as the entry
    point says, its checksum is right, and a parser of the format reads back the
    structures and their strings. *)

From S2P Require Import Prelude GuestMem.

Module Smbios.

Inductive Error := SmBiosOverflow | NotEnoughMemory | WriteSmbiosEp | WriteData | OEMStringsOverflow.

Definition SM3_ANCHOR : list byte := [95; 83; 77; 51; 95].
Definition BIOS_INFORMATION : Z := 0.
Definition SYSTEM_INFORMATION : Z := 1.
Definition OEM_STRINGS : Z := 11.
Definition END_OF_TABLE : Z := 127.
Definition TYPE_0_HANDLE : Z := 0.
Definition TYPE_1_HANDLE : Z := 0x100.
Definition TYPE_11_HANDLE : Z := 0xe00.
Definition TYPE_127_HANDLE : Z := 0x7f00.
Definition CHARACTERISTICS_NOT_SUPPORTED : Z := 1 .<< 3.
Definition TARGETED_CONTENT_DISTRIBUTION : Z := 1 .<< 2.
Definition UEFI : Z := 1 .<< 3.
Definition IS_VIRTUAL_MACHINE : Z := 1 .<< 4.
Definition POWER_SWITCH : Z := 6.

(** ** The structures and their bytes *)

Record Entrypoint30 := mkEntry {
  anchor : list byte; checksum : Z; ep_length : Z; major_version : Z; minor_version : Z; docrev : Z; revision : Z; reserved : Z;
  table_max_size : Z; table_addr : Z }.

Definition entry_bytes (e : Entrypoint30) : list byte :=
  anchor e ++ [checksum e; ep_length e; major_version e; minor_version e; docrev e; revision e; reserved e] ++
  le_bytes 4 (table_max_size e) ++ le_bytes 8 (table_addr e).

(** [mem::size_of::<Entrypoint30>()] *)
Definition ENTRY_SIZE : Z := 24.

Definition compute_checksum (e : Entrypoint30) : Z :=
  let sum := foldl (fun c i => c +[8] i) 0 (entry_bytes e) in
  bnot 8 sum +[8] 1.

Definition Entrypoint30_new (table_max_size table_addr : Z) : Entrypoint30 :=
  let e c := mkEntry SM3_ANCHOR c ENTRY_SIZE 3 0 0 1 0 table_max_size table_addr in
  e (compute_checksum (e 0)).

(** [BiosInfo::new], as the bytes of the structure. *)
Definition BiosInfo_new (vendor_str_idx version_str_idx release_date_str_idx : Z) : list byte :=
  [BIOS_INFORMATION; 24] ++ le_bytes 2 TYPE_0_HANDLE ++ [vendor_str_idx; version_str_idx] ++ le_bytes 2 0 ++
  [release_date_str_idx; 0] ++ le_bytes 8 CHARACTERISTICS_NOT_SUPPORTED ++
  [0; TARGETED_CONTENT_DISTRIBUTION .| UEFI .| IS_VIRTUAL_MACHINE; 0; 0; 0xFF; 0xFF].

Definition SystemInfo_new (manufacturer_str_idx product_name_str_idx : Z) : list byte :=
  [SYSTEM_INFORMATION; 27] ++ le_bytes 2 TYPE_1_HANDLE ++ [manufacturer_str_idx; product_name_str_idx; 0; 0] ++
  replicate 16 0 ++ [POWER_SWITCH; 0; 0].

Definition OemStrings_new (count : Z) : list byte := [OEM_STRINGS; 5] ++ le_bytes 2 TYPE_11_HANDLE ++ [count].

Definition EndOfTable_new : list byte := [END_OF_TABLE; 4] ++ le_bytes 2 TYPE_127_HANDLE.

Definition LIBKRUN : list byte := [108; 105; 98; 107; 114; 117; 110].
Definition VERSION_0 : list byte := [48].
Definition RELEASE_DATE : list byte := [48; 49; 47; 48; 53; 47; 50; 48; 50; 52].
Definition MANUFACTURER : list byte := [76; 105; 98; 107; 114; 117; 110].
Definition PRODUCT_NAME : list byte := LIBKRUN ++ [32; 86; 105; 114; 116; 117; 97; 108; 32; 77; 97; 99; 104; 105; 110; 101].

(** ** Writing *)

Section memory.
Context {M : Type} `{GuestMemory M}.

(** The memory is returned with the next address. *)
Definition write_obj (m : M) (val : list byte) (curptr : Z) : result Error (M * Z) :=
  match gm_write m curptr val with
  | None => Err WriteData
  | Some m => match checked_add 64 curptr (Zlength val) with Some next => Ok (m, next) | None => Err NotEnoughMemory end
  end.

Fixpoint write_chars (m : M) (val : list byte) (curptr : Z) : result Error (M * Z) :=
  match val with
  | [] => Ok (m, curptr)
  | c :: val => '(m, curptr) ← write_obj m [c] curptr; write_chars m val curptr
  end.

Definition write_string (m : M) (val : list byte) (curptr : Z) : result Error (M * Z) :=
  '(m, curptr) ← write_chars m val curptr;
  write_obj m [0] curptr.

Fixpoint write_strings (m : M) (l : list (list byte)) (curptr : Z) : result Error (M * Z) :=
  match l with
  | [] => Ok (m, curptr)
  | s :: l => '(m, curptr) ← write_string m s curptr; write_strings m l curptr
  end.

Definition write_type_0_table (m : M) (current : Z) : result Error (M * Z) :=
  '(m, current) ← write_obj m (BiosInfo_new 1 2 3) current;
  '(m, current) ← write_string m LIBKRUN current;
  '(m, current) ← write_string m VERSION_0 current;
  '(m, current) ← write_string m RELEASE_DATE current;
  write_obj m [0] current.

Definition write_type_1_table (m : M) (current : Z) : result Error (M * Z) :=
  '(m, current) ← write_obj m (SystemInfo_new 1 2) current;
  '(m, current) ← write_string m MANUFACTURER current;
  '(m, current) ← write_string m PRODUCT_NAME current;
  write_obj m [0] current.

Definition write_type_11_table (m : M) (current : Z) (oem_strings : option (list (list byte))) : result Error (M * Z) :=
  match oem_strings with
  | None => Ok (m, current)
  | Some l =>
      if 2 ^ 8 <=? Zlength l then Err OEMStringsOverflow
      else
        '(m, current) ← write_obj m (OemStrings_new (Zlength l)) current;
        '(m, current) ← write_strings m l current;
        write_obj m [0] current
  end.

Definition write_end_of_table (m : M) (current : Z) : result Error (M * Z) :=
  '(m, current) ← write_obj m EndOfTable_new current;
  '(m, current) ← write_obj m [0] current;
  write_obj m [0] current.

Definition write_entry_point (m : M) (start_addr current : Z) : result Error (Z * M) :=
  table_addr ← ok_or (checked_add 64 start_addr ENTRY_SIZE) NotEnoughMemory;
  let size := wrap 64 (current - table_addr) in
  if 2 ^ 32 <=? size then Err SmBiosOverflow
  else
    match gm_write m start_addr (entry_bytes (Entrypoint30_new size table_addr)) with
    | None => Err WriteSmbiosEp
    | Some m => Ok (ENTRY_SIZE + size, m)
    end.

Definition setup_smbios (m : M) (start_addr : Z) (oem_strings : option (list (list byte))) : result Error (Z * M) :=
  table_starting_addr ← ok_or (checked_add 64 start_addr ENTRY_SIZE) NotEnoughMemory;
  '(m, next) ← write_type_0_table m table_starting_addr;
  '(m, next) ← write_type_1_table m next;
  '(m, next) ← write_type_11_table m next oem_strings;
  '(m, next) ← write_end_of_table m next;
  write_entry_point m start_addr next.

(** ** What is written *)

Definition string_set (l : list (list byte)) : list byte := concat (map (fun s => s ++ [0]) l) ++ [0].

Definition bios_table : list byte := BiosInfo_new 1 2 3 ++ string_set [LIBKRUN; VERSION_0; RELEASE_DATE].
Definition system_table : list byte := SystemInfo_new 1 2 ++ string_set [MANUFACTURER; PRODUCT_NAME].
Definition oem_table (o : option (list (list byte))) : list byte :=
  match o with None => [] | Some l => OemStrings_new (Zlength l) ++ string_set l end.
Definition end_table : list byte := EndOfTable_new ++ [0; 0].

Definition table_bytes (o : option (list (list byte))) : list byte := bios_table ++ system_table ++ oem_table o ++ end_table.

Context `{!GuestMemoryLaws M}.

Section emit.
Context (m0 : M) (base : Z) (room : nat).
Hypothesis Hbase : 0 <= base.
Hypothesis Hroom : is_Some (gm_read m0 base room).
Hypothesis Hend : base + Z.of_nat room < 2 ^ 64.

(** [bs] has been written from [base] on, and nothing else. *)
Record emitted (m : M) (bs : list byte) : Prop := {
  em_read : gm_read m base (length bs) = Some bs;
  em_frame : forall a k, a + Z.of_nat k <= base \/ base + Zlength bs <= a -> gm_read m a k = gm_read m0 a k;
  em_domain : forall a k, is_Some (gm_read m a k) <-> is_Some (gm_read m0 a k) }.

(** A writer that appends [v]. *)
Definition emits (f : M -> Z -> result Error (M * Z)) (v : list byte) : Prop := forall m bs,
  emitted m bs -> (length (bs ++ v) <= room)%nat ->
  exists m', f m (base + Zlength bs) = Ok (m', base + Zlength (bs ++ v)) /\ emitted m' (bs ++ v).

Lemma emits_obj v : bytes_ok v -> emits (fun m a => write_obj m v a) v.
Proof.
  intros Hv m bs [Hr Hf Hd] Hl. unfold write_obj. destruct Hroom as [old Hold].
  assert (is_Some (gm_read m0 (base + Zlength bs) (length v))) as Hs.
  { rewrite length_app in Hl. rewrite (gm_read_sub _ _ _ _ (length bs) (length v) Hold) by lia. by eexists. }
  apply Hd in Hs as [o Ho]. destruct (gm_write_total m (base + Zlength bs) v o Ho Hv) as [m' Hw]. rewrite Hw.
  rewrite length_app in *. unfold checked_add. rewrite (proj2 (Z.ltb_lt _ _)) by lia. exists m'. split; [do 2 f_equal; lia|].
  split.
  - apply (gm_write_append m); try done. apply Hd.
    pose proof (gm_read_sub _ _ _ _ 0 (length bs + length v) Hold ltac:(lia)) as E. rewrite Z.add_0_r in E. by eexists.
  - intros a k Ha. rewrite length_app in Ha. rewrite (gm_write_frame _ _ _ _ _ _ Hw) by lia. apply Hf. lia.
  - intros a k. rewrite (gm_write_domain _ _ _ _ a k Hw). apply Hd.
Qed.

Lemma emits_bind f g v w : emits f v -> emits g w -> emits (fun m a => '(m, a) ← f m a; g m a) (v ++ w).
Proof.
  intros Hf Hg m bs He Hl. rewrite app_assoc in *. destruct (Hf m bs He) as (m1 & E1 & He1); [rewrite length_app in Hl; lia|].
  rewrite E1. cbn [mbind result_bind]. by apply Hg.
Qed.

Lemma emits_chars v : bytes_ok v -> emits (fun m a => write_chars m v a) v.
Proof.
  induction 1 as [|c v Hc Hv IH].
  - intros m bs He _. exists m. by rewrite app_nil_r.
  - change (c :: v) with ([c] ++ v) at 2. apply (emits_bind (fun m a => write_obj m [c] a)); [|done]. apply emits_obj. by constructor.
Qed.

Lemma zero_ok : bytes_ok [0].
Proof. constructor; [unfold fits; lia|constructor]. Qed.

Lemma emits_string v : bytes_ok v -> emits (fun m a => write_string m v a) (v ++ [0]).
Proof. intros Hv. apply (emits_bind (fun m a => write_chars m v a)); [by apply emits_chars|apply emits_obj, zero_ok]. Qed.

Lemma emits_strings l : Forall bytes_ok l -> emits (fun m a => write_strings m l a) (concat (map (fun s => s ++ [0]) l)).
Proof.
  induction 1 as [|v l Hv Hl IH].
  - intros m bs He _. exists m. by rewrite app_nil_r.
  - apply (emits_bind (fun m a => write_string m v a)); [by apply emits_string|done].
Qed.

Ltac bytes := by repeat constructor.

Lemma emits_type_0 : emits write_type_0_table bios_table.
Proof.
  unfold bios_table, string_set.
  apply (emits_bind (fun m a => write_obj m _ a)); [apply emits_obj; bytes|].
  change (concat _ ++ [0]) with ((LIBKRUN ++ [0]) ++ (VERSION_0 ++ [0]) ++ (RELEASE_DATE ++ [0]) ++ [0]).
  apply (emits_bind (fun m a => write_string m _ a)); [apply emits_string; bytes|].
  apply (emits_bind (fun m a => write_string m _ a)); [apply emits_string; bytes|].
  apply (emits_bind (fun m a => write_string m _ a)); [apply emits_string; bytes|].
  apply emits_obj, zero_ok.
Qed.

Lemma emits_type_1 : emits write_type_1_table system_table.
Proof.
  unfold system_table, string_set.
  apply (emits_bind (fun m a => write_obj m _ a)); [apply emits_obj; bytes|].
  change (concat _ ++ [0]) with ((MANUFACTURER ++ [0]) ++ (PRODUCT_NAME ++ [0]) ++ [0]).
  apply (emits_bind (fun m a => write_string m _ a)); [apply emits_string; bytes|].
  apply (emits_bind (fun m a => write_string m _ a)); [apply emits_string; bytes|].
  apply emits_obj, zero_ok.
Qed.

Lemma emits_type_11 o :
  (forall l, o = Some l -> Zlength l < 2 ^ 8 /\ Forall bytes_ok l) -> emits (fun m a => write_type_11_table m a o) (oem_table o).
Proof.
  destruct o as [l|]; intros Ho.
  - destruct (Ho l eq_refl) as [Hl Hb]. unfold write_type_11_table, oem_table, string_set. rewrite (proj2 (Z.leb_gt _ _)) by lia.
    apply (emits_bind (fun m a => write_obj m _ a)); [apply emits_obj|].
    + unfold OemStrings_new. apply Forall_app. split; [bytes|]. apply Forall_app. split; [bytes|]. constructor; [unfold fits; lia|constructor].
    + apply (emits_bind (fun m a => write_strings m l a)); [by apply emits_strings|apply emits_obj, zero_ok].
  - intros m bs He _. exists m. by rewrite app_nil_r.
Qed.

Lemma emits_end : emits write_end_of_table end_table.
Proof.
  unfold end_table. apply (emits_bind (fun m a => write_obj m _ a)); [apply emits_obj; bytes|].
  change [0; 0] with ([0] ++ [0]). apply (emits_bind (fun m a => write_obj m [0] a)); apply emits_obj, zero_ok.
Qed.
End emit.

(** ** The checksum *)

Lemma foldl_sum l c : foldl (fun c i => c +[8] i) c l = match l with [] => c | _ => wrap 8 (c + foldr Z.add 0 l) end.
Proof.
  revert c. induction l as [|x l IH]; intros c; [done|]. cbn [foldl foldr]. rewrite IH. destruct l as [|y l]; [by rewrite Z.add_0_r|].
  by rewrite wrap_add_l, Z.add_assoc.
Qed.

(** The checksum makes the bytes of the entry point sum to zero. *)
Lemma entry_checksum size a : foldl (fun c i => c +[8] i) 0 (entry_bytes (Entrypoint30_new size a)) = 0.
Proof.
  unfold Entrypoint30_new, compute_checksum, entry_bytes. rewrite !foldl_sum.
  cbn [anchor checksum ep_length major_version minor_version docrev revision reserved table_max_size table_addr app SM3_ANCHOR foldr].
  rewrite !foldr_app. set (x := foldr Z.add _ (le_bytes 4 size)). rewrite !Z.add_0_l.
  match goal with |- context [bnot 8 (wrap 8 ?e)] => replace e with (429 + x) by (unfold ENTRY_SIZE; lia) end.
  rewrite bnot_sub by (try lia; apply wrap_fits; lia). set (c := _ +[8] 1).
  match goal with |- wrap 8 ?e = 0 => replace e with (429 + x + c) by (unfold ENTRY_SIZE; lia) end.
  subst c. rewrite wrap_add_r. unfold wrap. change (2 ^ 8) with 256.
  replace (429 + x + (256 - 1 - (429 + x) mod 256 + 1)) with ((429 + x) - (429 + x) mod 256 + 1 * 256) by lia.
  rewrite Z.mod_add, Zminus_mod_idemp_r, Z.sub_diag by lia. done.
Qed.

Lemma emits_all m0 base room o :
  0 <= base -> is_Some (gm_read m0 base room) -> base + Z.of_nat room < 2 ^ 64 ->
  (forall l, o = Some l -> Zlength l < 2 ^ 8 /\ Forall bytes_ok l) ->
  emits m0 base room
    (fun m a => '(m, a) ← write_type_0_table m a; '(m, a) ← write_type_1_table m a; '(m, a) ← write_type_11_table m a o; write_end_of_table m a)
    (table_bytes o).
Proof.
  intros Hb Hr He Ho. unfold table_bytes.
  apply (emits_bind _ _ _ write_type_0_table); [by apply emits_type_0|].
  apply (emits_bind _ _ _ write_type_1_table); [by apply emits_type_1|].
  apply (emits_bind _ _ _ (fun m a => write_type_11_table m a o)); [by apply emits_type_11|by apply emits_end].
Qed.

Lemma entry_length size a : length (entry_bytes (Entrypoint30_new size a)) = 24%nat.
Proof. done. Qed.

Lemma entry_ok size a : bytes_ok (entry_bytes (Entrypoint30_new size a)).
Proof.
  unfold entry_bytes, Entrypoint30_new. cbn [anchor checksum ep_length major_version minor_version docrev revision reserved table_max_size table_addr].
  apply Forall_app. split; [by repeat constructor|]. apply Forall_app. split; [|apply Forall_app; split; apply le_bytes_ok].
  constructor; [apply wrap_fits; lia|]. unfold ENTRY_SIZE. repeat (constructor; [unfold fits; lia|]). constructor.
Qed.
End memory.

(** ** Reading the tables *)

(** Up to two zero bytes in a row, as readers of SMBIOS tables look for the
    end of a structure's strings. *)
Fixpoint walk (l : list byte) : option (list byte * list byte) :=
  match l with
  | a :: (b :: r) as t =>
      if (a =? 0) && (b =? 0) then Some ([], r)
      else match walk t with Some (x, r) => Some (a :: x, r) | None => None end
  | _ => None
  end.

Fixpoint split0 (l : list byte) : list (list byte) :=
  match l with
  | [] => [[]]
  | a :: l => if a =? 0 then [] :: split0 l else match split0 l with s :: ss => (a :: s) :: ss | [] => [] end
  end.

(** A structure: its type, its handle, its bytes and its strings. *)
Record Structure := mkStructure { s_type : Z; s_handle : Z; s_bytes : list byte; s_strings : list (list byte) }.

Definition parse_structure (l : list byte) : option (Structure * list byte) :=
  match l with
  | ty :: ln :: h0 :: h1 :: _ =>
      let n := Z.to_nat ln in
      match walk (drop n l) with
      | Some (x, r) => Some (mkStructure ty (le_val [h0; h1]) (take n l) (match x with [] => [] | _ => split0 x end), r)
      | None => None
      end
  | _ => None
  end.

(** The structures up to the end of the table. *)
Fixpoint parse (fuel : nat) (l : list byte) : option (list Structure) :=
  match fuel with
  | O => None
  | S fuel =>
      match parse_structure l with
      | None => None
      | Some (s, r) =>
          if s_type s =? 127 then Some [s]
          else match parse fuel r with Some ss => Some (s :: ss) | None => None end
      end
  end.

Definition good_string (s : list byte) : Prop := s <> [] /\ Forall (fun b => b <> 0) s.

Lemma walk_string s t : Forall (fun b => b <> 0) s -> t <> [] -> walk (s ++ t) = match walk t with Some (x, r) => Some (s ++ x, r) | None => None end.
Proof.
  intros Hs Ht. induction Hs as [|a s Ha Hs IH]; [cbn; by destruct (walk t) as [[? ?]|]|].
  cbn [app walk]. destruct (s ++ t) as [|b u] eqn:E; [by apply app_nil in E as [_ ?]|].
  rewrite (proj2 (Z.eqb_neq _ _)) by done. cbn [andb]. rewrite IH. by destruct (walk t) as [[? ?]|].
Qed.

Lemma walk_zero b t : b <> 0 -> walk (0 :: b :: t) = match walk (b :: t) with Some (x, r) => Some (0 :: x, r) | None => None end.
Proof. intros Hb. cbn [walk]. by rewrite (proj2 (Z.eqb_neq b 0)), andb_false_r. Qed.

Fixpoint join0 (l : list (list byte)) : list byte :=
  match l with [] => [] | s :: l => match l with [] => s | _ => s ++ 0 :: join0 l end end.

Lemma walk_set l rest : l <> [] -> Forall good_string l -> walk (string_set l ++ rest) = Some (join0 l, rest).
Proof.
  unfold string_set. intros Hne Hl. induction Hl as [|s l [Hs0 Hs] Hl IH]; [done|]. cbn [map concat]. rewrite <- !app_assoc.
  rewrite walk_string by done. destruct l as [|s2 l].
  - cbn. by rewrite app_nil_r.
  - specialize (IH ltac:(done)). rewrite <- app_assoc in IH. apply Forall_inv in Hl as [Hs2 Hz2]. destruct s2 as [|b s2]; [done|]. apply Forall_inv in Hz2.
    set (u := concat (map (fun s => s ++ [0]) ((b :: s2) :: l)) ++ [0] ++ rest) in *.
    assert (exists t, u = b :: t) as [t Et] by by eexists. change (walk ([0] ++ u)) with (walk (0 :: u)). clearbody u.
    rewrite Et in *. rewrite walk_zero, IH by done. done.
Qed.

Lemma split0_string s : Forall (fun b => b <> 0) s -> split0 s = [s].
Proof. induction 1 as [|a s Ha Hs IH]; [done|]. cbn. by rewrite (proj2 (Z.eqb_neq _ _)), IH by done. Qed.

Lemma split0_app s t : Forall (fun b => b <> 0) s -> split0 (s ++ 0 :: t) = s :: split0 t.
Proof. induction 1 as [|a s Ha Hs IH]; [done|]. cbn. by rewrite (proj2 (Z.eqb_neq _ _)), IH by done. Qed.

Lemma split0_join l : l <> [] -> Forall good_string l -> split0 (join0 l) = l /\ join0 l <> [].
Proof.
  intros Hne Hl. induction Hl as [|s l [Hs0 Hs] Hl IH]; [done|]. cbn [join0]. destruct l as [|s2 l].
  - split; [by apply split0_string|done].
  - destruct IH as [IH _]; [done|]. split; [by rewrite split0_app, IH|]. by intros [? _]%app_nil.
Qed.

Lemma parse_set ty ln h0 h1 body l rest :
  length (ty :: ln :: h0 :: h1 :: body) = Z.to_nat ln -> l <> [] -> Forall good_string l ->
  parse_structure ((ty :: ln :: h0 :: h1 :: body) ++ string_set l ++ rest) = Some (mkStructure ty (le_val [h0; h1]) (ty :: ln :: h0 :: h1 :: body) l, rest).
Proof.
  intros Hln Hne Hl. cbn [app]. unfold parse_structure.
  change (ty :: ln :: h0 :: h1 :: body ++ string_set l ++ rest) with ((ty :: ln :: h0 :: h1 :: body) ++ string_set l ++ rest).
  rewrite drop_app_length', take_app_length' by done. rewrite walk_set by done. destruct (split0_join l Hne Hl) as [Es Hj].
  destruct (join0 l); [done|]. by rewrite Es.
Qed.

Lemma constant_strings_good : Forall good_string [LIBKRUN; VERSION_0; RELEASE_DATE] /\ Forall good_string [MANUFACTURER; PRODUCT_NAME].
Proof. split; repeat (constructor; [split; [done|by repeat constructor]|]); constructor. Qed.

(** What a reader of the tables finds. *)
Definition structures (o : option (list (list byte))) : list Structure :=
  [mkStructure 0 0 (BiosInfo_new 1 2 3) [LIBKRUN; VERSION_0; RELEASE_DATE]; mkStructure 1 0x100 (SystemInfo_new 1 2) [MANUFACTURER; PRODUCT_NAME]] ++
  match o with None => [] | Some l => [mkStructure 11 0xe00 (OemStrings_new (Zlength l)) l] end ++
  [mkStructure 127 0x7f00 EndOfTable_new []].

Lemma parse_tables o :
  (forall l, o = Some l -> l <> [] /\ Forall good_string l) -> parse 4 (table_bytes o) = Some (structures o).
Proof.
  intros Ho. destruct constant_strings_good as [G0 G1]. unfold table_bytes, bios_table, system_table, structures. rewrite <- !app_assoc. cbn [parse].
  pose proof (fun r => parse_set 0 24 0 0 (drop 4 (BiosInfo_new 1 2 3)) [LIBKRUN; VERSION_0; RELEASE_DATE] r eq_refl ltac:(done) G0) as P0.
  pose proof (fun r => parse_set 1 27 0 1 (drop 4 (SystemInfo_new 1 2)) [MANUFACTURER; PRODUCT_NAME] r eq_refl ltac:(done) G1) as P1.
  change (0 :: 24 :: 0 :: 0 :: _) with (BiosInfo_new 1 2 3) in P0. change (1 :: 27 :: 0 :: 1 :: _) with (SystemInfo_new 1 2) in P1.
  rewrite P0. cbn [s_type Z.eqb]. rewrite P1. cbn [s_type Z.eqb].
  destruct o as [l|]; [|reflexivity]. destruct (Ho l eq_refl) as [Hne Hl]. unfold oem_table. rewrite <- app_assoc.
  pose proof (fun r => parse_set 11 5 0 14 [Zlength l] l r eq_refl Hne Hl) as P2. change [11; 5; 0; 14; Zlength l] with (OemStrings_new (Zlength l)) in P2.
  rewrite P2. reflexivity.
Qed.

(** C21. The tables are written and can be read back: for up to 255 OEM strings that
    are not empty and hold no zero byte, the entry point at the start has a sum
    of zero and names the address and the length of the tables behind it; the
    tables parse as the structures for BIOS, system, OEM strings and end, each
    with its strings; the length returned is that of both; and no other byte of
    guest memory changes. *)
Theorem smbios_readable {M} `{GuestMemory M} `{!GuestMemoryLaws M} (m : M) start o :
  0 <= start -> is_Some (gm_read m start (24 + length (table_bytes o))) -> start + 24 + Zlength (table_bytes o) < 2 ^ 64 ->
  Zlength (table_bytes o) < 2 ^ 32 ->
  (forall l, o = Some l -> l <> [] /\ Zlength l < 2 ^ 8 /\ Forall (fun s => bytes_ok s /\ good_string s) l) ->
  exists m' ep tables, setup_smbios m start o = Ok (24 + Zlength tables, m') /\
    gm_read m' start 24 = Some (entry_bytes ep) /\ foldl (fun c i => c +[8] i) 0 (entry_bytes ep) = 0 /\
    Smbios.table_addr ep = start + 24 /\ table_max_size ep = Zlength tables /\
    gm_read m' (start + 24) (length tables) = Some tables /\ parse 4 tables = Some (structures o) /\
    (forall a k, a + Z.of_nat k <= start \/ start + 24 + Zlength tables <= a -> gm_read m' a k = gm_read m a k).
Proof.
  intros Hs [old Hold] Hend Hsz Ho. pose proof (gm_read_sub _ _ _ _ 24 (length (table_bytes o)) Hold ltac:(lia)) as Hroom.
  change (start + Z.of_nat 24) with (start + 24) in Hroom.
  destruct (emits_all m (start + 24) (length (table_bytes o)) o) with (m := m) (bs := @nil Z) as (m1 & E & [Hr Hf Hd]).
  - lia.
  - by rewrite Hroom.
  - lia.
  - intros l Hl. destruct (Ho l Hl) as (_ & Hn & Hg). split; [done|]. eapply Forall_impl; [exact Hg|]. by intros x [? ?].
  - split; try done. pose proof (gm_read_sub _ _ _ _ 24 0 Hold ltac:(lia)) as E0. done.
  - done.
  - cbn [app length Z.of_nat] in *. rewrite Z.add_0_r in E. unfold setup_smbios, checked_add, ENTRY_SIZE. rewrite (proj2 (Z.ltb_lt _ _)) by lia.
    cbn [ok_or mbind result_bind]. revert E. destruct (write_type_0_table _ _) as [[ma a1]|]; cbn [mbind result_bind]; [|done].
    destruct (write_type_1_table _ _) as [[mb a2]|]; cbn [mbind result_bind]; [|done].
    destruct (write_type_11_table _ _ _) as [[mc a3]|]; cbn [mbind result_bind]; [|done]. intros ->. cbn [mbind result_bind].
    unfold write_entry_point, checked_add, ENTRY_SIZE. rewrite (proj2 (Z.ltb_lt _ _)) by lia. cbn [ok_or mbind result_bind].
    replace (start + 24 + Zlength (table_bytes o) - (start + 24)) with (Zlength (table_bytes o)) by lia.
    rewrite (wrap_small 64) by (unfold fits; lia). rewrite (proj2 (Z.leb_gt _ _)) by lia.
    set (ep := Entrypoint30_new (Zlength (table_bytes o)) (start + 24)). destruct (proj2 (Hd start 24%nat)) as [o24 Ho24].
    { pose proof (gm_read_sub _ _ _ _ 0 24 Hold ltac:(lia)) as E0. rewrite Z.add_0_r in E0. by eexists. }
    pose proof (entry_ok (Zlength (table_bytes o)) (start + 24)) as Hok. fold ep in Hok.
    destruct (gm_write_total m1 start (entry_bytes ep) o24 Ho24 Hok) as [m2 Hw]. rewrite Hw.
    exists m2, ep, (table_bytes o). split_and!; try done.
    + apply (gm_write_read _ _ _ _ Hw Hok).
    + apply entry_checksum.
    + rewrite (gm_write_frame _ _ _ _ _ _ Hw); [done|]. right. subst ep. rewrite entry_length. lia.
    + apply parse_tables. intros l Hl. destruct (Ho l Hl) as (Hne & _ & Hg). split; [done|]. eapply Forall_impl; [exact Hg|]. by intros x [_ ?].
    + intros a k Ha. rewrite (gm_write_frame _ _ _ _ _ _ Hw) by (subst ep; rewrite entry_length; lia). apply Hf. lia.
Qed.

Lemma smbios_readable_witness :
  exists m' ep tables, setup_smbios (mkFlat 0 (replicate 300 0)) 64 (Some [[97; 98]]) = Ok (24 + Zlength tables, m') /\
    gm_read m' 64 24 = Some (entry_bytes ep) /\ parse 4 tables = Some (structures (Some [[97; 98]])).
Proof.
  destruct (smbios_readable (mkFlat 0 (replicate 300 0)) 64 (Some [[97; 98]])) as (m' & ep & tables & E & Hr & _ & _ & _ & _ & Hp & _).
  - lia.
  - vm_compute. eexists. reflexivity.
  - vm_compute. reflexivity.
  - vm_compute. reflexivity.
  - intros l [= <-]. split; [discriminate|]. split; [vm_compute; reflexivity|]. constructor; [|constructor].
    split; [by repeat constructor|]. split; [discriminate|by repeat constructor].
  - exists m', ep, tables. split; [exact E|]. split; [exact Hr|exact Hp].
Defined.

(** ** Strings that break the tables *)

(** More than 255 OEM strings are refused. *)
Lemma too_many_strings {M} `{GuestMemory M} (m : M) a l : 2 ^ 8 <= Zlength l -> write_type_11_table m a (Some l) = Err OEMStringsOverflow.
Proof. intros Hl. unfold write_type_11_table. by rewrite (proj2 (Z.leb_le _ _)). Qed.

(** An empty OEM string ends the strings of its structure: what follows is
    read as the next structure. *)
Lemma empty_string_misread : parse 4 (table_bytes (Some [[97]; []; [127; 4; 98; 99]])) =
  Some (take 2 (structures None) ++ [mkStructure 11 0xe00 (OemStrings_new 3) [[97]]; mkStructure 127 25442 [127; 4; 98; 99] []]).
Proof. reflexivity. Qed.
End Smbios.
