(* ===== verification/Resources.v ===== *)
(** * The configuration of a microVM
    ([vmm/src/resources.rs], [vmm/src/vmm_config/])

    What the C API collects before the machine is built: processors and memory,
    boot source, kernel bundle, and the devices.  Whether a device can be
    created is a parameter; the configuration it was created from stands for
    it.  Texts are lists of code points.  The theorems: every accepted machine
    configuration is usable, a refused one changes nothing; network interfaces
    keep distinct names and the last configuration of each; a kernel bundle is
    accepted exactly when it is aligned. *)

From S2P Require Import Prelude GuestMem VirtQueue DescUtils Block CpuidBits BrandString Cpuid.

Module Resources.
Import Cpuid(CpuFeaturesTemplate).
Import Block(CacheType).

Definition text : Type := list Z.

(** ** Machine configuration *)

Inductive VmConfigError := InvalidVcpuCount | InvalidMemorySize.

Record VmConfig := mkVmConfig {
  vcpu_count : option Z; mem_size_mib : option Z; ht_enabled : option bool; cpu_template : option CpuFeaturesTemplate }.

Definition VmConfig_default : VmConfig := mkVmConfig (Some 1) (Some 128) (Some false) None.

Record VcpuConfig := mkVcpuConfig { vc_count : Z; vc_ht : bool; vc_template : option CpuFeaturesTemplate }.

(** ** Boot source and kernel *)

Record BootSourceConfig := mkBootSource { kernel_cmdline_prolog : option text; kernel_cmdline_epilog : option text }.

Record KernelBundle := mkBundle { host_addr : Z; guest_addr : Z; entry_addr : Z; kb_size : Z }.

Inductive KernelBundleError := InvalidGuestAddress | InvalidHostAddress | InvalidSize.

(** ** Devices *)

Record FsDeviceConfig := mkFs { fs_id : text; shared_dir : text; shm_size : option Z }.

Record BlockDeviceConfig := mkBlock { block_id : text; cache_type : CacheType; disk_image_path : text; is_disk_read_only : bool }.

Record VsockDeviceConfig := mkVsock {
  vsock_id : text; guest_cid : Z; host_port_map : option (gmap Z Z); unix_ipc_port_map : option (gmap Z text) }.

Inductive VirtioNetBackend := BackendPasst (fd : Z) | BackendGvproxy (path : text).

Record NetworkInterfaceConfig := mkNet { iface_id : text; backend : VirtioNetBackend; net_mac : list byte }.

Record VmResources := mkResources {
  vm_config : VmConfig; boot_config : BootSourceConfig; kernel_bundle : option KernelBundle; fs : list FsDeviceConfig;
  vsock : option VsockDeviceConfig; block : list BlockDeviceConfig; net_devices : list NetworkInterfaceConfig;
  gpu_virgl_flags : option Z; gpu_shm_size : option Z; snd_device : bool; console_output : option text;
  smbios_oem_strings : option (list text) }.

Definition VmResources_default : VmResources :=
  mkResources VmConfig_default (mkBootSource None None) None [] None [] [] None None false None None.

(** *** Updates of one part *)

Definition with_vm_config (r : VmResources) (c : VmConfig) : VmResources :=
  mkResources c (boot_config r) (kernel_bundle r) (fs r) (vsock r) (block r) (net_devices r) (gpu_virgl_flags r) (gpu_shm_size r)
    (snd_device r) (console_output r) (smbios_oem_strings r).

Definition with_net_devices (r : VmResources) (l : list NetworkInterfaceConfig) : VmResources :=
  mkResources (vm_config r) (boot_config r) (kernel_bundle r) (fs r) (vsock r) (block r) l (gpu_virgl_flags r) (gpu_shm_size r)
    (snd_device r) (console_output r) (smbios_oem_strings r).

Definition set_smbios_oem_strings (r : VmResources) (o : option (list text)) : VmResources :=
  mkResources (vm_config r) (boot_config r) (kernel_bundle r) (fs r) (vsock r) (block r) (net_devices r) (gpu_virgl_flags r) (gpu_shm_size r)
    (snd_device r) (console_output r) o.

(** ** Operations *)

Definition vcpu_config (r : VmResources) : outcome VcpuConfig :=
  n ← unwrap (vcpu_count (vm_config r));
  ht ← unwrap (ht_enabled (vm_config r));
  Ret (mkVcpuConfig n ht (cpu_template (vm_config r))).

(** [unwrap_or_else] with an [unwrap] inside. *)
Definition or_own {A} (o own : option A) : outcome A := match o with Some a => Ret a | None => unwrap own end.

Definition set_vm_config (r : VmResources) (c : VmConfig) : outcome (result VmConfigError unit * VmResources) :=
  if match vcpu_count c with Some n => n =? 0 | None => false end then Ret (Err InvalidVcpuCount, r)
  else if match mem_size_mib c with Some n => n =? 0 | None => false end then Ret (Err InvalidMemorySize, r)
  else
    ht ← or_own (ht_enabled c) (ht_enabled (vm_config r));
    n ← or_own (vcpu_count c) (vcpu_count (vm_config r));
    if ht && (1 <? n) && (n mod 2 =? 1) then Ret (Err InvalidVcpuCount, r)
    else
      Ret (Ok tt, with_vm_config r (mkVmConfig (Some n)
                    (match mem_size_mib c with Some s => Some s | None => mem_size_mib (vm_config r) end) (Some ht)
                    (match cpu_template c with Some t => Some t | None => cpu_template (vm_config r) end))).

Definition set_boot_source (r : VmResources) (b : BootSourceConfig) : VmResources :=
  mkResources (vm_config r) b (kernel_bundle r) (fs r) (vsock r) (block r) (net_devices r) (gpu_virgl_flags r) (gpu_shm_size r)
    (snd_device r) (console_output r) (smbios_oem_strings r).

Definition set_kernel_bundle (page_size : Z) (r : VmResources) (k : KernelBundle) : result KernelBundleError VmResources :=
  let mask := page_size -[64] 1 in
  if (host_addr k =? 0) || negb (host_addr k .& mask =? 0) then Err InvalidHostAddress
  else if negb (guest_addr k .& mask =? 0) then Err InvalidGuestAddress
  else if negb (kb_size k .& mask =? 0) then Err InvalidSize
  else Ok (mkResources (vm_config r) (boot_config r) (Some k) (fs r) (vsock r) (block r) (net_devices r) (gpu_virgl_flags r) (gpu_shm_size r)
             (snd_device r) (console_output r) (smbios_oem_strings r)).

Definition add_fs_device (r : VmResources) (c : FsDeviceConfig) : VmResources :=
  mkResources (vm_config r) (boot_config r) (kernel_bundle r) (fs r ++ [c]) (vsock r) (block r) (net_devices r) (gpu_virgl_flags r) (gpu_shm_size r)
    (snd_device r) (console_output r) (smbios_oem_strings r).

(** [BlockBuilder::insert]; [create_ok]: the image could be opened. *)
Definition add_block_device (create_ok : BlockDeviceConfig -> bool) (r : VmResources) (c : BlockDeviceConfig) : result unit VmResources :=
  if create_ok c then
    Ok (mkResources (vm_config r) (boot_config r) (kernel_bundle r) (fs r) (vsock r) (block r ++ [c]) (net_devices r) (gpu_virgl_flags r)
          (gpu_shm_size r) (snd_device r) (console_output r) (smbios_oem_strings r))
  else Err tt.

(** [VsockBuilder::insert] *)
Definition set_vsock_device (create_ok : VsockDeviceConfig -> bool) (r : VmResources) (c : VsockDeviceConfig) : result unit VmResources :=
  if create_ok c then
    Ok (mkResources (vm_config r) (boot_config r) (kernel_bundle r) (fs r) (Some c) (block r) (net_devices r) (gpu_virgl_flags r)
          (gpu_shm_size r) (snd_device r) (console_output r) (smbios_oem_strings r))
  else Err tt.

Definition set_gpu_virgl_flags (r : VmResources) (f : Z) : VmResources :=
  mkResources (vm_config r) (boot_config r) (kernel_bundle r) (fs r) (vsock r) (block r) (net_devices r) (Some f) (gpu_shm_size r)
    (snd_device r) (console_output r) (smbios_oem_strings r).

Definition set_gpu_shm_size (r : VmResources) (n : Z) : VmResources :=
  mkResources (vm_config r) (boot_config r) (kernel_bundle r) (fs r) (vsock r) (block r) (net_devices r) (gpu_virgl_flags r) (Some n)
    (snd_device r) (console_output r) (smbios_oem_strings r).

Definition set_snd_device (r : VmResources) (enabled : bool) : VmResources :=
  mkResources (vm_config r) (boot_config r) (kernel_bundle r) (fs r) (vsock r) (block r) (net_devices r) (gpu_virgl_flags r) (gpu_shm_size r)
    enabled (console_output r) (smbios_oem_strings r).

Definition set_console_output (r : VmResources) (p : text) : VmResources :=
  mkResources (vm_config r) (boot_config r) (kernel_bundle r) (fs r) (vsock r) (block r) (net_devices r) (gpu_virgl_flags r) (gpu_shm_size r)
    (snd_device r) (Some p) (smbios_oem_strings r).

(** [Iter::position] *)
Fixpoint position {A} (p : A -> bool) (l : list A) : option nat :=
  match l with [] => None | x :: l => if p x then Some 0%nat else S <$> position p l end.

(** [Vec::swap_remove] at an index in range: the last element takes the place. *)
Definition swap_remove {A} (l : list A) (i : nat) : list A :=
  match last l with
  | None => l
  | Some x => if (S i =? length l)%nat then removelast l else removelast (<[i := x]> l)
  end.

(** [NetBuilder::build]: an interface of the same name is removed first. *)
Definition net_build (create_ok : NetworkInterfaceConfig -> bool) (l : list NetworkInterfaceConfig) (c : NetworkInterfaceConfig)
    : bool * list NetworkInterfaceConfig :=
  let l := match position (fun n => bool_decide (iface_id n = iface_id c)) l with Some i => swap_remove l i | None => l end in
  if create_ok c then (true, l ++ [c]) else (false, l).

Definition add_network_interface (create_ok : NetworkInterfaceConfig -> bool) (r : VmResources) (c : NetworkInterfaceConfig) : bool * VmResources :=
  let '(ok, l) := net_build create_ok (net_devices r) c in (ok, with_net_devices r l).

(** ** Machine configurations *)

(** A configuration the machine can be built from. *)
Record config_ok (c : VmConfig) : Prop := {
  co_vcpus : exists n, vcpu_count c = Some n /\ 0 < n < 256;
  co_memory : exists n, mem_size_mib c = Some n /\ 0 < n;
  co_ht : exists ht, ht_enabled c = Some ht /\ (ht = true -> forall n, vcpu_count c = Some n -> n = 1 \/ n mod 2 = 0) }.

(** The fields of a request fit their types. *)
Definition request_ok (c : VmConfig) : Prop :=
  (forall n, vcpu_count c = Some n -> fits 8 n) /\ (forall n, mem_size_mib c = Some n -> fits 64 n).

Lemma set_vm_config_keeps r c :
  config_ok (vm_config r) -> request_ok c ->
  exists res r', set_vm_config r c = Ret (res, r') /\ config_ok (vm_config r') /\ r' = with_vm_config r (vm_config r').
Proof.
  intros Hok [Hn Hm]. pose proof Hok as [(n0 & En & Hn0) (m0 & Em & Hm0) (b0 & Eb & Hb0)].
  assert (r = with_vm_config r (vm_config r)) as Er by by destruct r.
  unfold set_vm_config. destruct (match vcpu_count c with Some n => n =? 0 | None => false end) eqn:Ez; [by do 2 eexists|].
  destruct (match mem_size_mib c with Some n => n =? 0 | None => false end) eqn:Ey; [by do 2 eexists|].
  assert (exists ht, or_own (ht_enabled c) (ht_enabled (vm_config r)) = Ret ht) as [ht ->] by (unfold or_own; rewrite Eb; destruct (ht_enabled c); by eexists).
  assert (exists n, or_own (vcpu_count c) (vcpu_count (vm_config r)) = Ret n /\ 0 < n < 256) as (n & -> & Hn').
  { unfold or_own. rewrite En. destruct (vcpu_count c) as [k|]; [|by exists n0]. exists k. split; [done|]. specialize (Hn k eq_refl). apply Z.eqb_neq in Ez. unfold fits in Hn. lia. }
  cbn [mbind outcome_bind]. destruct (ht && (1 <? n) && (n mod 2 =? 1)) eqn:Eo; [by do 2 eexists|]. do 2 eexists. split; [done|]. cbn. split; [|done]. split; cbn.
  - by exists n.
  - destruct (mem_size_mib c) as [k|]; [|by exists m0]. exists k. split; [done|]. specialize (Hm k eq_refl). apply Z.eqb_neq in Ey. unfold fits in Hm. lia.
  - exists ht. split; [done|]. intros -> k [= <-]. cbn in Eo. destruct (Z.ltb_spec 1 n); cbn in Eo; [|lia]. apply Z.eqb_neq in Eo. pose proof (Z.mod_pos_bound n 2). lia.
Qed.

(** Setting a configuration never panics; it is refused for no processors, no
    memory, or an odd number of hyperthreads above one, and then changes
    nothing; an accepted one takes the given fields, keeps the others, and is
    usable again. *)
Theorem set_vm_config_correct r c :
  config_ok (vm_config r) -> request_ok c ->
  exists res r', set_vm_config r c = Ret (res, r') /\ config_ok (vm_config r') /\
    match res with
    | Err _ => r' = r
    | Ok _ => r' = with_vm_config r (vm_config r') /\
        (forall n, vcpu_count c = Some n -> vcpu_count (vm_config r') = Some n) /\
        (forall n, mem_size_mib c = Some n -> mem_size_mib (vm_config r') = Some n) /\
        (forall b, ht_enabled c = Some b -> ht_enabled (vm_config r') = Some b) /\
        (vcpu_count c = None -> vcpu_count (vm_config r') = vcpu_count (vm_config r)) /\
        (mem_size_mib c = None -> mem_size_mib (vm_config r') = mem_size_mib (vm_config r)) /\
        (ht_enabled c = None -> ht_enabled (vm_config r') = ht_enabled (vm_config r))
    end /\
    (res = Ok tt <-> vcpu_count c <> Some 0 /\ mem_size_mib c <> Some 0 /\
       ~ (default true (match ht_enabled c with Some b => Some b | None => ht_enabled (vm_config r) end) = true /\
          1 < default 0 (match vcpu_count c with Some n => Some n | None => vcpu_count (vm_config r) end) /\
          default 0 (match vcpu_count c with Some n => Some n | None => vcpu_count (vm_config r) end) mod 2 = 1)).
Proof.
  intros Hok [Hn Hm]. pose proof Hok as [(n0 & En & Hn0) (m0 & Em & Hm0) (b0 & Eb & Hb0)]. unfold set_vm_config.
  destruct (match vcpu_count c with Some n => n =? 0 | None => false end) eqn:Ez.
  { exists (Err InvalidVcpuCount), r. split_and!; try done. split; [done|]. intros (H0 & _). exfalso. destruct (vcpu_count c); [|done]. apply Z.eqb_eq in Ez as ->. done. }
  destruct (match mem_size_mib c with Some n => n =? 0 | None => false end) eqn:Ey.
  { exists (Err InvalidMemorySize), r. split_and!; try done. split; [done|]. intros (_ & H0 & _). exfalso. destruct (mem_size_mib c); [|done]. apply Z.eqb_eq in Ey as ->. done. }
  set (ht := default true (match ht_enabled c with Some b => Some b | None => ht_enabled (vm_config r) end)).
  set (n := default 0 (match vcpu_count c with Some n => Some n | None => vcpu_count (vm_config r) end)).
  assert (or_own (ht_enabled c) (ht_enabled (vm_config r)) = Ret ht) as -> by (subst ht; rewrite Eb; by destruct (ht_enabled c)).
  assert (or_own (vcpu_count c) (vcpu_count (vm_config r)) = Ret n) as -> by (subst n; rewrite En; by destruct (vcpu_count c)).
  cbn [mbind outcome_bind]. assert (0 < n < 256) as Hn'.
  { subst n. rewrite En. destruct (vcpu_count c) as [k|]; [|done]. cbn. specialize (Hn k eq_refl). apply Z.eqb_neq in Ez. unfold fits in Hn. lia. }
  assert (vcpu_count c <> Some 0 /\ mem_size_mib c <> Some 0) as [G1 G2] by (split; intros G; rewrite G in *; done).
  destruct (ht && (1 <? n) && (n mod 2 =? 1)) eqn:Eo.
  - apply andb_true_iff in Eo as [[Eh E1%Z.ltb_lt]%andb_true_iff E2%Z.eqb_eq]. exists (Err InvalidVcpuCount), r. split_and!; try done.
    split; [done|]. intros (_ & _ & []). done.
  - do 2 eexists. split; [done|]. cbn [vm_config with_vm_config vcpu_count mem_size_mib ht_enabled]. split_and!.
    + split; cbn.
      * by exists n.
      * destruct (mem_size_mib c) as [k|]; [|by exists m0]. exists k. split; [done|]. specialize (Hm k eq_refl). apply Z.eqb_neq in Ey. unfold fits in Hm. lia.
      * exists ht. split; [done|]. intros -> k [= <-]. cbn [andb] in Eo. apply andb_false_iff in Eo as [E1%Z.ltb_ge|E1%Z.eqb_neq]; [lia|].
        pose proof (Z.mod_pos_bound n 2 ltac:(lia)). lia.
    + done.
    + intros k Hk. subst n. by rewrite Hk.
    + intros k Hk. by rewrite Hk.
    + intros k Hk. subst ht. by rewrite Hk.
    + intros Hk. subst n. by rewrite Hk, En.
    + intros Hk. by rewrite Hk.
    + intros Hk. subst ht. by rewrite Hk, Eb.
    + split; [|done]. intros _. split_and!; [done..|]. intros (H1 & H2 & H3). rewrite H1, H3 in Eo. rewrite (proj2 (Z.ltb_lt _ _)) in Eo by done. done.
Qed.

Lemma VmConfig_default_ok : config_ok VmConfig_default.
Proof. split; cbn; [exists 1; split; [done|lia]|exists 128; split; [done|lia]|by exists false]. Qed.

Lemma set_vm_config_correct_witness :
  exists r', set_vm_config VmResources_default (mkVmConfig (Some 4) (Some 2048) (Some true) None) = Ret (Ok tt, r') /\ config_ok (vm_config r').
Proof.
  destruct (set_vm_config_correct VmResources_default (mkVmConfig (Some 4) (Some 2048) (Some true) None)) as (res & r' & E & Hok & _).
  - exact VmConfig_default_ok.
  - split; cbn; intros n [= <-]; split; lia.
  - assert (res = Ok tt) as -> by (revert E; vm_compute; by intros [= <- _]). exists r'. split; [exact E|exact Hok].
Defined.

Lemma vcpu_config_total r : config_ok (vm_config r) -> exists c, vcpu_config r = Ret c.
Proof. intros [(n & En & _) _ (b & Eb & _)]. unfold vcpu_config. rewrite En, Eb. by eexists. Qed.

(** ** Network interfaces *)

Lemma position_cases {A} (p : A -> bool) l :
  match position p l with
  | Some i => exists x, l !! i = Some x /\ p x = true
  | None => Forall (fun x => p x = false) l
  end.
Proof.
  induction l as [|x l IH]; cbn; [constructor|]. destruct (p x) eqn:E; [by exists x|].
  destruct (position p l); cbn; [done|by constructor].
Qed.

Lemma swap_remove_perm {A} (l : list A) i x : l !! i = Some x -> l ≡ₚ x :: swap_remove l i.
Proof.
  intros Hi. unfold swap_remove. destruct (last l) as [y|] eqn:El; [|by apply last_None in El as ->].
  apply last_Some in El as [k ->]. rewrite length_app. cbn [length]. apply lookup_lt_Some in Hi as Hl. rewrite length_app in Hl. cbn in Hl.
  destruct (Nat.eqb_spec (S i) (length k + 1)) as [E|E].
  - rewrite lookup_app_r in Hi by lia. replace (i - length k)%nat with 0%nat in Hi by lia. injection Hi as ->.
    rewrite removelast_last. apply Permutation_app_comm.
  - rewrite lookup_app_l in Hi by lia. rewrite insert_app_l, removelast_last by lia.
    rewrite <- (take_drop_middle k i x Hi) at 1 2. rewrite insert_app_r_alt by (rewrite length_take; lia).
    rewrite length_take, Nat.min_l, Nat.sub_diag by lia. cbn. rewrite <- app_assoc. cbn.
    rewrite <- Permutation_middle. constructor. apply Permutation_app_head. apply Permutation_app_comm.
Qed.

(** The interfaces keep distinct names: building one replaces the interface of
    the same name, if there was one, and leaves the others. *)
Theorem net_build_correct create_ok l c l' :
  NoDup (iface_id <$> l) -> net_build create_ok l c = (true, l') ->
  NoDup (iface_id <$> l') /\ forall n, n ∈ l' <-> n = c \/ (n ∈ l /\ iface_id n <> iface_id c).
Proof.
  unfold net_build. intros Hnd. set (k := match position _ _ with Some i => _ | None => _ end). destruct (create_ok c); [|done]. intros [= <-].
  assert (NoDup (iface_id <$> k) /\ forall n, n ∈ k <-> n ∈ l /\ iface_id n <> iface_id c) as [Hk Hin].
  { subst k. pose proof (position_cases (fun n => bool_decide (iface_id n = iface_id c)) l) as Hp. destruct (position _ l) as [i|].
    - destruct Hp as (x & Hi & Hx%bool_decide_eq_true). pose proof (swap_remove_perm l i x Hi) as P. set (k := swap_remove l i) in *. clearbody k.
      rewrite P in Hnd. rewrite fmap_cons in Hnd. apply NoDup_cons in Hnd as [Hx' Hnd]. split; [done|]. intros n. rewrite P, elem_of_cons. split.
      + intros Hn. split; [by right|]. intros E. apply Hx'. rewrite Hx, <- E. by apply list_elem_of_fmap_2.
      + intros [[->|Hn] Hne]; [by rewrite Hx in Hne|done].
    - split; [done|]. rewrite Forall_forall in Hp. intros n. split; [|by intros []]. intros Hn. split; [done|]. by apply (bool_decide_eq_false_1 _), Hp. }
  split.
  - rewrite fmap_app. apply NoDup_app. split_and!; [done| |apply NoDup_singleton].
    intros y (n & -> & Hn)%list_elem_of_fmap. cbn. rewrite list_elem_of_singleton. by apply Hin in Hn as [_ ?].
  - intros n. rewrite elem_of_app, list_elem_of_singleton, Hin. tauto.
Qed.

Lemma two_names : NoDup (iface_id <$> [mkNet [101] (BackendPasst 3) []; mkNet [102] (BackendPasst 4) []]).
Proof. cbn. apply NoDup_cons. split; [|apply NoDup_singleton]. by intros [=]%list_elem_of_singleton. Qed.

Lemma net_build_correct_witness :
  exists l', net_build (fun _ => true) [mkNet [101] (BackendPasst 3) []; mkNet [102] (BackendPasst 4) []] (mkNet [101] (BackendPasst 5) []) = (true, l') /\
    NoDup (iface_id <$> l') /\ mkNet [102] (BackendPasst 4) [] ∈ l'.
Proof.
  destruct (net_build (fun _ => true) [mkNet [101] (BackendPasst 3) []; mkNet [102] (BackendPasst 4) []] (mkNet [101] (BackendPasst 5) [])) as [b l'] eqn:E.
  assert (b = true) as -> by (revert E; vm_compute; by intros [= <- _]).
  destruct (net_build_correct _ _ _ _ two_names E) as [H1 H2].
  exists l'. split; [reflexivity|]. split; [exact H1|]. apply H2. right. split; [set_solver|discriminate].
Defined.

(** ** Kernel bundles *)

(** A bundle is accepted exactly when its host address is not null and all of
    host address, guest address and size are multiples of the page size. *)
Theorem kernel_bundle_aligned k r b :
  0 <= k < 64 -> 0 <= host_addr b -> 0 <= guest_addr b -> 0 <= kb_size b ->
  (exists r', set_kernel_bundle (2 ^ k) r b = Ok r') <->
  host_addr b <> 0 /\ host_addr b mod 2 ^ k = 0 /\ guest_addr b mod 2 ^ k = 0 /\ kb_size b mod 2 ^ k = 0.
Proof.
  intros Hk H1 H2 H3. unfold set_kernel_bundle. pose proof (pow2_pos k ltac:(lia)). assert (2 ^ k < 2 ^ 64) by (apply Z.pow_lt_mono_r; lia).
  rewrite (wrap_small 64) by (unfold fits; lia).
  rewrite <- !(land_ones_0 _ k) by lia. destruct (Z.eqb_spec (host_addr b) 0); cbn [orb].
  { split; [by intros []|by intros []]. }
  destruct (Z.eqb_spec (host_addr b .& (2 ^ k - 1)) 0); cbn [negb]; [|by split; [intros []|intros (_ & ? & _)]].
  destruct (Z.eqb_spec (guest_addr b .& (2 ^ k - 1)) 0); cbn [negb]; [|by split; [intros []|intros (_ & _ & ? & _)]].
  destruct (Z.eqb_spec (kb_size b .& (2 ^ k - 1)) 0); cbn [negb]; [|by split; [intros []|intros (_ & _ & _ & ?)]].
  split; [done|by eexists].
Qed.

Lemma kernel_bundle_aligned_witness : exists r', set_kernel_bundle (2 ^ 12) VmResources_default (mkBundle 4096 0x1000000 0x1000000 8192) = Ok r'.
Proof.
  apply (kernel_bundle_aligned 12 VmResources_default (mkBundle 4096 0x1000000 0x1000000 8192)); cbn; try lia. split_and!; [discriminate|reflexivity..].
Defined.

(** A bundle of size zero is accepted. *)
Lemma empty_bundle_accepted r h : h <> 0 -> h .& 4095 = 0 -> exists r', set_kernel_bundle 4096 r (mkBundle h 0 0 0) = Ok r'.
Proof. intros Hh Ha. unfold set_kernel_bundle. cbn [host_addr guest_addr kb_size]. change (4096 -[64] 1) with 4095. rewrite (proj2 (Z.eqb_neq _ _)), Ha by done. by eexists. Qed.
End Resources.
