(* ===== verification/CApi.v ===== *)
(** * The C interface of the library ([libkrun/src/lib.rs])

    The table of configuration contexts and every exported function, as a
    function from the library's state to its return value and new state, up to
    the point where [krun_start_enter] hands the collected resources to the
    builder.  A C string is what [CStr::to_str] makes of it, an array of C
    strings the strings before its null pointer.  The firmware library, the host's
    environment and whether devices can be created are the class [Host]; so are
    the features the library was built with.  The theorems: calls touch only
    the context they name and a refused call changes nothing; contexts stay
    well-formed and no valid call panics; identifiers are not reused; port maps
    are read exactly; arguments come back from the command line. *)

From stdpp Require Import strings.
From S2P Require Import Prelude Format GuestMem VirtQueue DescUtils Block CpuidBits BrandString Cpuid Resources.

Module CApi.
Import Resources.
Import Block(Writeback).

Definition chars (s : string) : text := (fun a => Z.of_N (Ascii.N_of_ascii a)) <$> String.list_ascii_of_string s.
Arguments chars s%_string.

Definition KRUNFW_MIN_VERSION : Z := 4.
Definition KRUN_SUCCESS : Z := 0.
Definition MAX_ARGS : nat := 4096.
Definition INIT_PATH : text := chars "/init.krun".
Definition DEFAULT_KERNEL_CMDLINE : text :=
  chars "reboot=k panic=-1 panic_print=0 nomodule console=hvc0 rootfstype=virtiofs rw quiet no-kvmapf".

Definition ENOENT : Z := 2.
Definition EINVAL : Z := 22.
Definition ENOTSUP : Z := 95.

(** ** Contexts *)

Inductive NetworkConfig :=
| Tsi (port_map : option (gmap Z Z))
| VirtioNetPasst (fd : Z)
| VirtioNetGvproxy (path : text).

Record ContextConfig := mkContext {
  vmr : VmResources;
  workdir : option text;
  exec_path : option text;
  env : option text;
  args : option text;
  rlimits : option text;
  net_cfg : NetworkConfig;
  mac : option (list byte);
  block_cfgs : list BlockDeviceConfig;
  root_block_cfg : option BlockDeviceConfig;
  data_block_cfg : option BlockDeviceConfig;
  ipc_port_map : option (gmap Z text);
  shutdown_efd : option Z;
  cc_virgl_flags : option Z;
  cc_shm_size : option Z;
  enable_snd : bool;
  cc_console_output : option text }.

Definition ContextConfig_default : ContextConfig :=
  mkContext VmResources_default None None None None None (Tsi None) None [] None None None None None None false None.

Definition with_vmr (c : ContextConfig) (r : VmResources) : ContextConfig :=
  mkContext r (workdir c) (exec_path c) (env c) (args c) (rlimits c) (net_cfg c) (mac c) (block_cfgs c) (root_block_cfg c)
    (data_block_cfg c) (ipc_port_map c) (shutdown_efd c) (cc_virgl_flags c) (cc_shm_size c) (enable_snd c) (cc_console_output c).

Definition set_workdir (c : ContextConfig) (t : text) : ContextConfig :=
  mkContext (vmr c) (Some t) (exec_path c) (env c) (args c) (rlimits c) (net_cfg c) (mac c) (block_cfgs c) (root_block_cfg c)
    (data_block_cfg c) (ipc_port_map c) (shutdown_efd c) (cc_virgl_flags c) (cc_shm_size c) (enable_snd c) (cc_console_output c).

Definition set_exec_path (c : ContextConfig) (t : text) : ContextConfig :=
  mkContext (vmr c) (workdir c) (Some t) (env c) (args c) (rlimits c) (net_cfg c) (mac c) (block_cfgs c) (root_block_cfg c)
    (data_block_cfg c) (ipc_port_map c) (shutdown_efd c) (cc_virgl_flags c) (cc_shm_size c) (enable_snd c) (cc_console_output c).

Definition set_env (c : ContextConfig) (t : text) : ContextConfig :=
  mkContext (vmr c) (workdir c) (exec_path c) (Some t) (args c) (rlimits c) (net_cfg c) (mac c) (block_cfgs c) (root_block_cfg c)
    (data_block_cfg c) (ipc_port_map c) (shutdown_efd c) (cc_virgl_flags c) (cc_shm_size c) (enable_snd c) (cc_console_output c).

Definition set_args (c : ContextConfig) (t : text) : ContextConfig :=
  mkContext (vmr c) (workdir c) (exec_path c) (env c) (Some t) (rlimits c) (net_cfg c) (mac c) (block_cfgs c) (root_block_cfg c)
    (data_block_cfg c) (ipc_port_map c) (shutdown_efd c) (cc_virgl_flags c) (cc_shm_size c) (enable_snd c) (cc_console_output c).

Definition set_rlimits (c : ContextConfig) (t : text) : ContextConfig :=
  mkContext (vmr c) (workdir c) (exec_path c) (env c) (args c) (Some t) (net_cfg c) (mac c) (block_cfgs c) (root_block_cfg c)
    (data_block_cfg c) (ipc_port_map c) (shutdown_efd c) (cc_virgl_flags c) (cc_shm_size c) (enable_snd c) (cc_console_output c).

Definition set_net_cfg (c : ContextConfig) (n : NetworkConfig) : ContextConfig :=
  mkContext (vmr c) (workdir c) (exec_path c) (env c) (args c) (rlimits c) n (mac c) (block_cfgs c) (root_block_cfg c)
    (data_block_cfg c) (ipc_port_map c) (shutdown_efd c) (cc_virgl_flags c) (cc_shm_size c) (enable_snd c) (cc_console_output c).

Definition set_net_mac (c : ContextConfig) (m : list byte) : ContextConfig :=
  mkContext (vmr c) (workdir c) (exec_path c) (env c) (args c) (rlimits c) (net_cfg c) (Some m) (block_cfgs c) (root_block_cfg c)
    (data_block_cfg c) (ipc_port_map c) (shutdown_efd c) (cc_virgl_flags c) (cc_shm_size c) (enable_snd c) (cc_console_output c).

Definition add_block_cfg (c : ContextConfig) (b : BlockDeviceConfig) : ContextConfig :=
  mkContext (vmr c) (workdir c) (exec_path c) (env c) (args c) (rlimits c) (net_cfg c) (mac c) (block_cfgs c ++ [b])
    (root_block_cfg c) (data_block_cfg c) (ipc_port_map c) (shutdown_efd c) (cc_virgl_flags c) (cc_shm_size c) (enable_snd c)
    (cc_console_output c).

Definition set_root_block_cfg (c : ContextConfig) (b : BlockDeviceConfig) : ContextConfig :=
  mkContext (vmr c) (workdir c) (exec_path c) (env c) (args c) (rlimits c) (net_cfg c) (mac c) (block_cfgs c) (Some b)
    (data_block_cfg c) (ipc_port_map c) (shutdown_efd c) (cc_virgl_flags c) (cc_shm_size c) (enable_snd c) (cc_console_output c).

Definition set_data_block_cfg (c : ContextConfig) (b : BlockDeviceConfig) : ContextConfig :=
  mkContext (vmr c) (workdir c) (exec_path c) (env c) (args c) (rlimits c) (net_cfg c) (mac c) (block_cfgs c) (root_block_cfg c)
    (Some b) (ipc_port_map c) (shutdown_efd c) (cc_virgl_flags c) (cc_shm_size c) (enable_snd c) (cc_console_output c).

Definition set_ipc_port_map (c : ContextConfig) (m : gmap Z text) : ContextConfig :=
  mkContext (vmr c) (workdir c) (exec_path c) (env c) (args c) (rlimits c) (net_cfg c) (mac c) (block_cfgs c) (root_block_cfg c)
    (data_block_cfg c) (Some m) (shutdown_efd c) (cc_virgl_flags c) (cc_shm_size c) (enable_snd c) (cc_console_output c).

Definition set_virgl_flags (c : ContextConfig) (f : Z) : ContextConfig :=
  mkContext (vmr c) (workdir c) (exec_path c) (env c) (args c) (rlimits c) (net_cfg c) (mac c) (block_cfgs c) (root_block_cfg c)
    (data_block_cfg c) (ipc_port_map c) (shutdown_efd c) (Some f) (cc_shm_size c) (enable_snd c) (cc_console_output c).

Definition set_shm_size (c : ContextConfig) (n : Z) : ContextConfig :=
  mkContext (vmr c) (workdir c) (exec_path c) (env c) (args c) (rlimits c) (net_cfg c) (mac c) (block_cfgs c) (root_block_cfg c)
    (data_block_cfg c) (ipc_port_map c) (shutdown_efd c) (cc_virgl_flags c) (Some n) (enable_snd c) (cc_console_output c).

Definition with_snd (c : ContextConfig) (b : bool) : ContextConfig :=
  mkContext (vmr c) (workdir c) (exec_path c) (env c) (args c) (rlimits c) (net_cfg c) (mac c) (block_cfgs c) (root_block_cfg c)
    (data_block_cfg c) (ipc_port_map c) (shutdown_efd c) (cc_virgl_flags c) (cc_shm_size c) b (cc_console_output c).

Definition with_console (c : ContextConfig) (p : text) : ContextConfig :=
  mkContext (vmr c) (workdir c) (exec_path c) (env c) (args c) (rlimits c) (net_cfg c) (mac c) (block_cfgs c) (root_block_cfg c)
    (data_block_cfg c) (ipc_port_map c) (shutdown_efd c) (cc_virgl_flags c) (cc_shm_size c) (enable_snd c) (Some p).

Definition get_workdir (c : ContextConfig) : text :=
  match workdir c with Some t => chars "KRUN_WORKDIR=" ++ t | None => [] end.

Definition get_exec_path (c : ContextConfig) : text :=
  match exec_path c with Some t => chars "KRUN_INIT=" ++ t | None => [] end.

Definition get_env (c : ContextConfig) : text := default [] (env c).

Definition get_args (c : ContextConfig) : text := default [] (args c).

Definition get_rlimits (c : ContextConfig) : text :=
  match rlimits c with Some t => chars "KRUN_RLIMITS=" ++ t | None => [] end.

Definition get_block_cfg (c : ContextConfig) : list BlockDeviceConfig :=
  match block_cfgs c with
  | [] => omap id [root_block_cfg c; data_block_cfg c]
  | l => l
  end.

Definition set_port_map (c : ContextConfig) (m : gmap Z Z) : option ContextConfig :=
  match net_cfg c with
  | Tsi _ => Some (set_net_cfg c (Tsi (Some m)))
  | VirtioNetPasst _ | VirtioNetGvproxy _ => None
  end.

Definition add_vsock_port (c : ContextConfig) (port : Z) (filepath : text) : ContextConfig :=
  match ipc_port_map c with
  | Some m => set_ipc_port_map c (<[port := filepath]> m)
  | None => set_ipc_port_map c {[port := filepath]}
  end.

(** ** C arguments *)

(** What [CStr::from_ptr(p).to_str()] gives: [None] when not UTF-8. *)
Definition cstr : Type := option text.

(** The strings of an array up to the null pointer, at most [MAX_ARGS]. *)
Definition str_vec (a : list cstr) : option (list text) := mapM id (take MAX_ARGS a).

Fixpoint join (sep : text) (l : list text) : text :=
  match l with
  | [] => []
  | [s] => s
  | s :: l => s ++ sep ++ join sep l
  end.

Definition quote (s : text) : text := [34] ++ s ++ [34].

Definition collapse_str_array (a : list cstr) : option text := l ← str_vec a; Some (join [32] (quote <$> l)).

(** [str::split] at a character. *)
Fixpoint split (ch : Z) (s : text) : list text :=
  match s with
  | [] => [[]]
  | c :: s =>
      if c =? ch then [] :: split ch s
      else match split ch s with p :: ps => (c :: p) :: ps | [] => [[c]] end
  end.

(** [u16::from_str]: an optional plus sign and at least one digit. *)
Fixpoint parse_digits (n : Z) (s : text) : option Z :=
  match s with
  | [] => Some n
  | c :: s =>
      if (48 <=? c) && (c <=? 57) then
        let n := n * 10 + (c - 48) in
        if n <? 2 ^ 16 then parse_digits n s else None
      else None
  end.

Definition parse_u16 (s : text) : option Z :=
  match s with
  | [] => None
  | c :: s' => if c =? 43 then match s' with [] => None | _ => parse_digits 0 s' end else parse_digits 0 s
  end.

(** ** The library *)

(** What the library runs on and was built with.  [krunfw_kernel]: the address,
    guest address, entry and size [krunfw_get_kernel] reports; [vars]: the
    variables [env::vars] yields, [None] for one that is not Unicode, which it
    panics on. *)
Class Host := {
  feature_net : bool;
  feature_blk : bool;
  feature_snd : bool;
  krunfw_version : Z;
  krunfw_kernel : KernelBundle;
  page_size : Z;
  vars : list (option (text * text));
  event_manager_ok : bool;
  block_ok : BlockDeviceConfig -> bool;
  vsock_ok : VsockDeviceConfig -> bool;
  net_ok : NetworkInterfaceConfig -> bool }.

(** [CTX_MAP], [CTX_IDS], and the filter of the logger once it is installed
    ([env_logger] panics when it is installed twice). *)
Record Lib := mkLib { ctx_map : gmap Z ContextConfig; ctx_ids : Z; logger : option text }.

Definition Lib_start : Lib := mkLib ∅ 0 None.

(** The lookup every function does: [-ENOENT] for an unknown context. *)
Definition with_ctx (ctx_id : Z) (f : ContextConfig -> outcome (Z * ContextConfig)) (l : Lib) : outcome (Z * Lib) :=
  match ctx_map l !! ctx_id with
  | Some c => '(rc, c) ← f c; Ret (rc, mkLib (<[ctx_id := c]> (ctx_map l)) (ctx_ids l) (logger l))
  | None => Ret (- ENOENT, l)
  end.

(** A function that only stores something in the context. *)
Definition update_ctx (ctx_id : Z) (f : ContextConfig -> ContextConfig) : Lib -> outcome (Z * Lib) :=
  with_ctx ctx_id (fun c => Ret (KRUN_SUCCESS, f c)).

Definition log_level (level : Z) : text :=
  if level =? 0 then chars "off" else if level =? 1 then chars "error" else if level =? 2 then chars "warn"
  else if level =? 3 then chars "info" else if level =? 4 then chars "debug" else chars "trace".

(** [std::env::var], when the value is Unicode. *)
Definition env_var `{Host} (name : text) : option text :=
  head (omap (fun kv => '(k, v) ← kv; if decide (k = name) then Some v else None) vars).

(** The filter is that of the environment, and the level only its default
    ([Env::default().default_filter_or] of [env_logger]). *)
Definition krun_set_log_level `{Host} (level : Z) (l : Lib) : outcome (Z * Lib) :=
  match logger l with
  | Some _ => Panic
  | None => Ret (KRUN_SUCCESS, mkLib (ctx_map l) (ctx_ids l) (Some (default (log_level level) (env_var (chars "RUST_LOG")))))
  end.

Section Api.
Context {H : Host}.

Definition krun_create_ctx (l : Lib) : outcome (Z * Lib) :=
  if krunfw_version <? KRUNFW_MIN_VERSION then Ret (- EINVAL, l)
  else
    match set_kernel_bundle page_size VmResources_default krunfw_kernel with
    | Err _ => Panic
    | Ok r =>
        let ctx_id := ctx_ids l in
        let ids := to_signed 32 (wrap 32 (ctx_id + 1)) in
        if (ctx_id =? 2 ^ 31 - 1) || bool_decide (is_Some (ctx_map l !! wrap 32 ctx_id)) then Panic
        else Ret (ctx_id, mkLib (<[wrap 32 ctx_id := with_vmr ContextConfig_default r]> (ctx_map l)) ids (logger l))
    end.

Definition krun_free_ctx (ctx_id : Z) (l : Lib) : outcome (Z * Lib) :=
  match ctx_map l !! ctx_id with
  | Some _ => Ret (KRUN_SUCCESS, mkLib (delete ctx_id (ctx_map l)) (ctx_ids l) (logger l))
  | None => Ret (- ENOENT, l)
  end.

Definition krun_set_vm_config (ctx_id num_vcpus ram_mib : Z) : Lib -> outcome (Z * Lib) :=
  with_ctx ctx_id (fun c =>
    '(res, r) ← set_vm_config (vmr c) (mkVmConfig (Some num_vcpus) (Some ram_mib) (Some false) None);
    Ret (match res with Ok _ => KRUN_SUCCESS | Err _ => - EINVAL end, with_vmr c r)).

(** *** File systems and disks *)

Definition krun_set_root (ctx_id : Z) (c_root_path : cstr) (l : Lib) : outcome (Z * Lib) :=
  match c_root_path with
  | None => Ret (- EINVAL, l)
  | Some root => update_ctx ctx_id (fun c => with_vmr c (add_fs_device (vmr c) (mkFs (chars "/dev/root") root (Some (1 .<< 29))))) l
  end.

Definition krun_add_virtiofs (ctx_id : Z) (c_tag c_path : cstr) (l : Lib) : outcome (Z * Lib) :=
  match c_tag, c_path with
  | Some tag, Some path => update_ctx ctx_id (fun c => with_vmr c (add_fs_device (vmr c) (mkFs tag path None))) l
  | _, _ => Ret (- EINVAL, l)
  end.

Definition krun_add_virtiofs2 (ctx_id : Z) (c_tag c_path : cstr) (shm_size : Z) (l : Lib) : outcome (Z * Lib) :=
  match c_tag, c_path with
  | Some tag, Some path => update_ctx ctx_id (fun c => with_vmr c (add_fs_device (vmr c) (mkFs tag path (Some shm_size)))) l
  | _, _ => Ret (- EINVAL, l)
  end.

Definition krun_set_mapped_volumes (ctx_id : Z) (l : Lib) : outcome (Z * Lib) := Ret (- EINVAL, l).

Definition krun_add_disk (ctx_id : Z) (c_block_id c_disk_path : cstr) (read_only : bool) (l : Lib) : outcome (Z * Lib) :=
  match c_disk_path, c_block_id with
  | Some disk_path, Some block_id => update_ctx ctx_id (fun c => add_block_cfg c (mkBlock block_id Writeback disk_path read_only)) l
  | _, _ => Ret (- EINVAL, l)
  end.

Definition krun_set_root_disk (ctx_id : Z) (c_disk_path : cstr) (l : Lib) : outcome (Z * Lib) :=
  match c_disk_path with
  | Some disk_path => update_ctx ctx_id (fun c => set_root_block_cfg c (mkBlock (chars "root") Writeback disk_path false)) l
  | None => Ret (- EINVAL, l)
  end.

Definition krun_set_data_disk (ctx_id : Z) (c_disk_path : cstr) (l : Lib) : outcome (Z * Lib) :=
  match c_disk_path with
  | Some disk_path => update_ctx ctx_id (fun c => set_data_block_cfg c (mkBlock (chars "data") Writeback disk_path false)) l
  | None => Ret (- EINVAL, l)
  end.

(** *** Network *)

Definition krun_set_passt_fd (ctx_id fd : Z) (l : Lib) : outcome (Z * Lib) :=
  if fd <? 0 then Ret (- EINVAL, l)
  else if negb feature_net then Ret (- ENOTSUP, l)
  else update_ctx ctx_id (fun c => set_net_cfg c (VirtioNetPasst fd)) l.

Definition krun_set_gvproxy_path (ctx_id : Z) (c_path : cstr) (l : Lib) : outcome (Z * Lib) :=
  match c_path with
  | Some path => update_ctx ctx_id (fun c => set_net_cfg c (VirtioNetGvproxy path)) l
  | None => Ret (- EINVAL, l)
  end.

(** [c_mac]: the six bytes read. *)
Definition krun_set_net_mac (ctx_id : Z) (c_mac : list byte) (l : Lib) : outcome (Z * Lib) :=
  if negb feature_net then Ret (- ENOTSUP, l) else update_ctx ctx_id (fun c => set_net_mac c c_mac) l.

Fixpoint port_items (port_map : gmap Z Z) (items : list cstr) : option (gmap Z Z) :=
  match items with
  | [] => Some port_map
  | item :: items =>
      s ← item;
      match split 58 s with
      | [h; g] =>
          host_port ← parse_u16 h;
          guest_port ← parse_u16 g;
          if bool_decide (is_Some (port_map !! guest_port)) then None
          else if existsb (fun e => e.2 =? host_port) (map_to_list port_map) then None
          else port_items (<[guest_port := host_port]> port_map) items
      | _ => None
      end
  end.

Definition krun_set_port_map (ctx_id : Z) (c_port_map : list cstr) (l : Lib) : outcome (Z * Lib) :=
  match port_items ∅ (take MAX_ARGS c_port_map) with
  | None => Ret (- EINVAL, l)
  | Some port_map =>
      with_ctx ctx_id (fun c =>
        match set_port_map c port_map with Some c => Ret (KRUN_SUCCESS, c) | None => Ret (- ENOTSUP, c) end) l
  end.

Definition krun_add_vsock_port (ctx_id port : Z) (c_filepath : cstr) (l : Lib) : outcome (Z * Lib) :=
  match c_filepath with
  | Some filepath => update_ctx ctx_id (fun c => add_vsock_port c port filepath) l
  | None => Ret (- EINVAL, l)
  end.

(** *** The process to run *)

Definition krun_set_rlimits (ctx_id : Z) (c_rlimits : option (list cstr)) (l : Lib) : outcome (Z * Lib) :=
  match c_rlimits with
  | None => Ret (- EINVAL, l)
  | Some a =>
      match str_vec a with
      | None => Ret (- EINVAL, l)
      | Some strvec => update_ctx ctx_id (fun c => set_rlimits c (quote (join [44] strvec))) l
      end
  end.

Definition krun_set_workdir (ctx_id : Z) (c_workdir_path : cstr) (l : Lib) : outcome (Z * Lib) :=
  match c_workdir_path with
  | Some workdir_path => update_ctx ctx_id (fun c => set_workdir c workdir_path) l
  | None => Ret (- EINVAL, l)
  end.

(** All of [env::vars()]; [None]: one is not Unicode. *)
Definition all_vars : option (list (text * text)) := mapM id vars.

(** [env::vars().map(format).collect()] *)
Definition host_env : outcome text :=
  match all_vars with
  | None => Panic
  | Some l => Ret (concat ((fun kv => [32] ++ kv.1 ++ [61] ++ quote kv.2) <$> l))
  end.

(** The environment of a call: the given array, or the host's variables. *)
Definition env_text (c_envp : option (list cstr)) : outcome (option text) :=
  match c_envp with
  | Some a => Ret (collapse_str_array a)
  | None => e ← host_env; Ret (Some e)
  end.

Definition krun_set_exec (ctx_id : Z) (c_exec_path : cstr) (c_argv c_envp : option (list cstr)) (l : Lib) : outcome (Z * Lib) :=
  match c_exec_path with
  | None => Ret (- EINVAL, l)
  | Some path =>
      match match c_argv with Some a => collapse_str_array a | None => Some [] end with
      | None => Ret (- EINVAL, l)
      | Some a =>
          e ← env_text c_envp;
          match e with
          | None => Ret (- EINVAL, l)
          | Some e => update_ctx ctx_id (fun c => set_args (set_env (set_exec_path c path) e) a) l
          end
      end
  end.

Definition krun_set_env (ctx_id : Z) (c_envp : option (list cstr)) (l : Lib) : outcome (Z * Lib) :=
  e ← env_text c_envp;
  match e with
  | None => Ret (- EINVAL, l)
  | Some e => update_ctx ctx_id (fun c => set_env c e) l
  end.

(** *** Other devices *)

Definition krun_set_gpu_options (ctx_id virgl_flags : Z) : Lib -> outcome (Z * Lib) :=
  update_ctx ctx_id (fun c => set_virgl_flags c virgl_flags).

Definition krun_set_gpu_options2 (ctx_id virgl_flags shm_size : Z) : Lib -> outcome (Z * Lib) :=
  update_ctx ctx_id (fun c => set_shm_size (set_virgl_flags c virgl_flags) shm_size).

Definition krun_set_snd_device (ctx_id : Z) (enable : bool) : Lib -> outcome (Z * Lib) :=
  update_ctx ctx_id (fun c => with_snd c enable).

Definition krun_get_shutdown_eventfd (ctx_id : Z) : Lib -> outcome (Z * Lib) :=
  with_ctx ctx_id (fun c => Ret (match shutdown_efd c with Some fd => fd | None => - EINVAL end, c)).

Definition krun_set_console_output (ctx_id : Z) (c_filepath : cstr) (l : Lib) : outcome (Z * Lib) :=
  match c_filepath with
  | None => Ret (- EINVAL, l)
  | Some filepath =>
      with_ctx ctx_id (fun c =>
        match cc_console_output c with
        | Some _ => Ret (- EINVAL, c)
        | None => Ret (KRUN_SUCCESS, with_console c filepath)
        end) l
  end.

Definition krun_set_smbios_oem_strings (ctx_id : Z) (oem_strings : option (list cstr)) (l : Lib) : outcome (Z * Lib) :=
  match oem_strings with
  | None => Ret (- EINVAL, l)
  | Some a =>
      match str_vec a with
      | None => Ret (- EINVAL, l)
      | Some strings =>
          update_ctx ctx_id (fun c =>
            with_vmr c (set_smbios_oem_strings (vmr c) (match strings with [] => None | _ => Some strings end))) l
      end
  end.

(** *** Starting *)

Definition create_virtio_net (c : ContextConfig) (backend : VirtioNetBackend) : outcome ContextConfig :=
  let mac := default [0x5a; 0x94; 0xef; 0xe4; 0x0c; 0xee] (mac c) in
  let '(ok, r) := add_network_interface net_ok (vmr c) (mkNet (chars "eth0") backend mac) in
  if ok then Ret (with_vmr c r) else Panic.

Fixpoint add_blocks (r : VmResources) (l : list BlockDeviceConfig) : result unit VmResources :=
  match l with
  | [] => Ok r
  | b :: l => match add_block_device block_ok r b with Ok r => add_blocks r l | Err e => Err e end
  end.

Definition boot_source (c : ContextConfig) : BootSourceConfig :=
  mkBootSource
    (Some (DEFAULT_KERNEL_CMDLINE ++ chars " init=" ++ INIT_PATH ++ [32] ++ get_exec_path c ++ [32] ++ get_workdir c ++ [32]
             ++ get_rlimits c ++ [32] ++ get_env c))
    (Some (chars " -- " ++ get_args c)).

(** The vsock device, if one is configured. *)
Definition vsock_config (c : ContextConfig) : option VsockDeviceConfig :=
  match net_cfg c, ipc_port_map c with
  | Tsi port_map, ipc => Some (mkVsock (chars "vsock0") 3 port_map ipc)
  | _, Some m => Some (mkVsock (chars "vsock0") 3 None (Some m))
  | _, None => None
  end.

Definition add_network (c : ContextConfig) : outcome ContextConfig :=
  match net_cfg c with
  | Tsi _ => Ret c
  | VirtioNetPasst fd => if feature_net then create_virtio_net c (BackendPasst fd) else Ret c
  | VirtioNetGvproxy path => if feature_net then create_virtio_net c (BackendGvproxy path) else Ret c
  end.

Definition add_vsock (c : ContextConfig) : outcome ContextConfig :=
  match vsock_config c with
  | None => Ret c
  | Some v => match set_vsock_device vsock_ok (vmr c) v with Ok r => Ret (with_vmr c r) | Err _ => Panic end
  end.

(** What [krun_start_enter] does to a context it took out of the table, before
    [build_microvm]. *)
Definition configure (c : ContextConfig) : outcome (option VmResources) :=
  match (if feature_blk then add_blocks (vmr c) (get_block_cfg c) else Ok (vmr c)) with
  | Err _ => Ret None
  | Ok r =>
      let c := with_vmr c (set_boot_source r (boot_source c)) in
      c ← add_network c;
      c ← add_vsock c;
      let r := vmr c in
      let r := match cc_virgl_flags c with Some f => set_gpu_virgl_flags r f | None => r end in
      let r := match cc_shm_size c with Some n => set_gpu_shm_size r n | None => r end in
      let r := if feature_snd then set_snd_device r (enable_snd c) else r in
      let r := match cc_console_output c with Some p => set_console_output r p | None => r end in
      Ret (Some r)
  end.

(** A call returns, or goes on to build and run the machine. *)
Inductive Done := Returned (rc : Z) | Building (r : VmResources) (shutdown : option Z).

Definition krun_start_enter (ctx_id : Z) (l : Lib) : outcome (Done * Lib) :=
  if negb event_manager_ok then Ret (Returned (- EINVAL), l)
  else
    match ctx_map l !! ctx_id with
    | None => Ret (Returned (- ENOENT), l)
    | Some c =>
        let l := mkLib (delete ctx_id (ctx_map l)) (ctx_ids l) (logger l) in
        r ← configure c;
        match r with
        | None => Ret (Returned (- EINVAL), l)
        | Some r => Ret (Building r (shutdown_efd c), l)
        end
    end.

(** ** Calls *)

Inductive call :=
| SetLogLevel (level : Z)
| CreateCtx
| FreeCtx (id : Z)
| SetVmConfig (id num_vcpus ram_mib : Z)
| SetRoot (id : Z) (path : cstr)
| AddVirtiofs (id : Z) (tag path : cstr)
| AddVirtiofs2 (id : Z) (tag path : cstr) (shm_size : Z)
| SetMappedVolumes (id : Z)
| AddDisk (id : Z) (block_id path : cstr) (read_only : bool)
| SetRootDisk (id : Z) (path : cstr)
| SetDataDisk (id : Z) (path : cstr)
| SetPasstFd (id fd : Z)
| SetGvproxyPath (id : Z) (path : cstr)
| SetNetMac (id : Z) (mac : list byte)
| SetPortMap (id : Z) (items : list cstr)
| AddVsockPort (id port : Z) (path : cstr)
| SetRlimits (id : Z) (items : option (list cstr))
| SetWorkdir (id : Z) (path : cstr)
| SetExec (id : Z) (path : cstr) (argv envp : option (list cstr))
| SetEnv (id : Z) (envp : option (list cstr))
| SetGpuOptions (id flags : Z)
| SetGpuOptions2 (id flags shm_size : Z)
| SetSndDevice (id : Z) (enable : bool)
| GetShutdownEventfd (id : Z)
| SetConsoleOutput (id : Z) (path : cstr)
| SetSmbiosOemStrings (id : Z) (items : option (list cstr))
| StartEnter (id : Z).

(** The context a call names. *)
Definition names (c : call) : option Z :=
  match c with
  | SetLogLevel _ | CreateCtx => None
  | FreeCtx i | SetVmConfig i _ _ | SetRoot i _ | AddVirtiofs i _ _ | AddVirtiofs2 i _ _ _ | SetMappedVolumes i | AddDisk i _ _ _
  | SetRootDisk i _ | SetDataDisk i _ | SetPasstFd i _ | SetGvproxyPath i _ | SetNetMac i _ | SetPortMap i _ | AddVsockPort i _ _
  | SetRlimits i _ | SetWorkdir i _ | SetExec i _ _ _ | SetEnv i _ | SetGpuOptions i _ | SetGpuOptions2 i _ _ | SetSndDevice i _
  | GetShutdownEventfd i | SetConsoleOutput i _ | SetSmbiosOemStrings i _ | StartEnter i => Some i
  end.

(** The function a configuration call runs. *)
Definition setter (c : call) : Lib -> outcome (Z * Lib) :=
  match c with
  | SetLogLevel n => krun_set_log_level n
  | CreateCtx => krun_create_ctx
  | FreeCtx i => krun_free_ctx i
  | SetVmConfig i n m => krun_set_vm_config i n m
  | SetRoot i p => krun_set_root i p
  | AddVirtiofs i t p => krun_add_virtiofs i t p
  | AddVirtiofs2 i t p n => krun_add_virtiofs2 i t p n
  | SetMappedVolumes i => krun_set_mapped_volumes i
  | AddDisk i b p r => krun_add_disk i b p r
  | SetRootDisk i p => krun_set_root_disk i p
  | SetDataDisk i p => krun_set_data_disk i p
  | SetPasstFd i f => krun_set_passt_fd i f
  | SetGvproxyPath i p => krun_set_gvproxy_path i p
  | SetNetMac i m => krun_set_net_mac i m
  | SetPortMap i a => krun_set_port_map i a
  | AddVsockPort i n p => krun_add_vsock_port i n p
  | SetRlimits i a => krun_set_rlimits i a
  | SetWorkdir i p => krun_set_workdir i p
  | SetExec i p a e => krun_set_exec i p a e
  | SetEnv i e => krun_set_env i e
  | SetGpuOptions i f => krun_set_gpu_options i f
  | SetGpuOptions2 i f n => krun_set_gpu_options2 i f n
  | SetSndDevice i b => krun_set_snd_device i b
  | GetShutdownEventfd i => krun_get_shutdown_eventfd i
  | SetConsoleOutput i p => krun_set_console_output i p
  | SetSmbiosOemStrings i a => krun_set_smbios_oem_strings i a
  | StartEnter _ => fun l => Ret (0, l)
  end.

Definition exec (c : call) (l : Lib) : outcome (Done * Lib) :=
  match c with
  | StartEnter i => krun_start_enter i l
  | _ => '(rc, l) ← setter c l; Ret (Returned rc, l)
  end.

(** ** Well-formed contexts *)

Definition one_to_one (m : gmap Z Z) : Prop := forall g1 g2 h, m !! g1 = Some h -> m !! g2 = Some h -> g1 = g2.

Definition ports_ok (p : option (gmap Z Z)) : Prop := forall m, p = Some m -> one_to_one m /\ forall g h, m !! g = Some h -> fits 16 g /\ fits 16 h.

Record ctx_ok (c : ContextConfig) : Prop := {
  ck_vm : config_ok (vm_config (vmr c));
  ck_kernel : kernel_bundle (vmr c) = Some krunfw_kernel;
  ck_empty : vsock (vmr c) = None /\ block (vmr c) = [] /\ net_devices (vmr c) = [];
  ck_ports : forall p, net_cfg c = Tsi p -> ports_ok p;
  ck_mac : forall m, mac c = Some m -> length m = 6%nat }.

Record lib_ok (l : Lib) : Prop := {
  lk_ids : 0 <= ctx_ids l < 2 ^ 31;
  lk_ctx i c : ctx_map l !! i = Some c -> 0 <= i < ctx_ids l /\ ctx_ok c }.

(** The arguments fit their C types, and the function is in the build. *)
Definition call_ok (c : call) : Prop :=
  match c with
  | SetVmConfig _ n m => fits 8 n /\ fits 32 m
  | SetNetMac _ m => length m = 6%nat
  | AddDisk _ _ _ _ | SetRootDisk _ _ | SetDataDisk _ _ => feature_blk = true
  | _ => True
  end.

(** What is handed to the builder. *)
Record machine_ok (r : VmResources) : Prop := {
  mk_vm : config_ok (vm_config r);
  mk_kernel : kernel_bundle r = Some krunfw_kernel;
  mk_boot : exists p e, boot_config r = mkBootSource (Some p) (Some e);
  mk_net : net_devices r = [] \/ exists n, net_devices r = [n] /\ iface_id n = chars "eth0" /\ length (net_mac n) = 6%nat /\
             forall v, vsock r = Some v -> host_port_map v = None;
  mk_ports v : vsock r = Some v -> guest_cid v = 3 /\ ports_ok (host_port_map v) }.

(** Why a call panics. *)
Definition panics (c : call) (l : Lib) : Prop :=
  match c with
  | SetLogLevel _ => logger l <> None
  | CreateCtx => (exists e, set_kernel_bundle page_size VmResources_default krunfw_kernel = Err e) \/ ctx_ids l = 2 ^ 31 - 1
  | SetExec _ _ _ None | SetEnv _ None => all_vars = None
  | StartEnter i => exists c, ctx_map l !! i = Some c /\
      ((exists v, vsock_config c = Some v /\ vsock_ok v = false) \/ (feature_net = true /\ exists n, net_ok n = false))
  | _ => False
  end.

(** ** Port maps *)

Lemma parse_digits_fits n s k : 0 <= n < 2 ^ 16 -> parse_digits n s = Some k -> fits 16 k.
Proof.
  revert n. induction s as [|c s IH]; intros n Hn; cbn; [intros [= <-]; done|].
  destruct ((48 <=? c) && (c <=? 57)) eqn:Ec; [|done]. apply andb_true_iff in Ec as [?%Z.leb_le ?%Z.leb_le].
  destruct (n * 10 + (c - 48) <? 2 ^ 16) eqn:E; [|done]. apply Z.ltb_lt in E. apply IH. lia.
Qed.

Lemma parse_u16_fits s k : parse_u16 s = Some k -> fits 16 k.
Proof.
  unfold parse_u16. destruct s as [|c s]; [done|]. destruct (c =? 43); [destruct s; [done|]|]; by apply parse_digits_fits.
Qed.

Lemma existsb_false_map (m : gmap Z Z) h : existsb (fun e => e.2 =? h) (map_to_list m) = false -> forall g, m !! g <> Some h.
Proof.
  intros E g Hg. apply elem_of_map_to_list in Hg. assert (existsb (fun e => e.2 =? h) (map_to_list m) = true) as E'; [|congruence].
  apply existsb_exists. exists (g, h). split; [by apply list_elem_of_In|]. apply Z.eqb_refl.
Qed.

Lemma port_items_ok m items m' : ports_ok (Some m) -> port_items m items = Some m' -> ports_ok (Some m').
Proof.
  revert m. induction items as [|[s|] items IH]; intros m Hm; cbn; [by intros [= <-]| |done].
  destruct (split 58 s) as [|h [|g [|]]]; [done..| |done]. destruct (parse_u16 h) as [hp|] eqn:Eh; [|done].
  destruct (parse_u16 g) as [gp|] eqn:Eg; [|done]. cbn. case_bool_decide as Hg; [done|]. destruct (existsb _ _) eqn:Ex; [done|].
  apply IH. intros ? [= <-]. destruct (Hm m eq_refl) as [H1 H2]. apply eq_None_not_Some in Hg. pose proof (existsb_false_map _ _ Ex) as Hh. split.
  - intros g1 g2 k. rewrite !lookup_insert. repeat case_decide; subst; try done; [intros [= <-] E|intros E [= <-]|apply H1]; by destruct (Hh _ E).
  - intros g1 k. rewrite lookup_insert. case_decide; [|apply H2]. intros [= <-]. subst. split; eapply parse_u16_fits; eauto.
Qed.

(** ** Configuration calls *)

(** What a call does to the context it names. *)
Definition step_ok (c : call) (cc : ContextConfig) (r : outcome (Z * ContextConfig)) : Prop :=
  (forall rc cc', r = Ret (rc, cc') -> (rc < 0 -> cc' = cc) /\ (call_ok c -> ctx_ok cc -> ctx_ok cc')) /\
  (call_ok c -> ctx_ok cc -> r <> Panic).

Definition on_ctx (i : Z) (l : Lib) (r : outcome (Z * ContextConfig)) : outcome (Z * Lib) :=
  '(rc, c) ← r; Ret (rc, mkLib (<[i := c]> (ctx_map l)) (ctx_ids l) (logger l)).

(** A configuration call is refused and changes nothing, or acts on its
    context alone, or panics on the host's environment. *)
Inductive setter_does (c : call) (i : Z) (l : Lib) : outcome (Z * Lib) -> Prop :=
| does_refuse rc : rc < 0 -> setter_does c i l (Ret (rc, l))
| does_panic : panics c l -> setter_does c i l Panic
| does_act cc r : ctx_map l !! i = Some cc -> step_ok c cc r -> setter_does c i l (on_ctx i l r).

Lemma with_ctx_does c i f l : (forall cc, step_ok c cc (f cc)) -> setter_does c i l (with_ctx i f l).
Proof. intros Hf. unfold with_ctx. destruct (ctx_map l !! i) as [cc|] eqn:E; [by apply (does_act _ _ _ cc (f cc))|by constructor]. Qed.

Lemma update_ctx_does c i f l : (forall cc, call_ok c -> ctx_ok cc -> ctx_ok (f cc)) -> setter_does c i l (update_ctx i f l).
Proof.
  intros Hf. apply with_ctx_does. intros cc. split; [|done]. intros rc cc' [= <- <-]. split; [unfold KRUN_SUCCESS; lia|apply Hf].
Qed.

Lemma env_text_does c i e f l :
  (all_vars = None -> e = None -> panics c l) -> (forall t, setter_does c i l (f t)) ->
  setter_does c i l (x ← env_text e; f x).
Proof.
  intros Hp Hf. destruct e as [a|]; [apply (Hf (collapse_str_array a))|]. unfold env_text, host_env.
  destruct (all_vars) as [kvs|] eqn:E; [apply (Hf (Some _))|]. constructor. by apply Hp.
Qed.


Lemma set_vm_config_does i n m cc :
  step_ok (SetVmConfig i n m) cc
    ('(res, r) ← set_vm_config (vmr cc) (mkVmConfig (Some n) (Some m) (Some false) None);
     Ret (match res with Ok _ => KRUN_SUCCESS | Err _ => - EINVAL end, with_vmr cc r)).
Proof.
  assert (call_ok (SetVmConfig i n m) -> request_ok (mkVmConfig (Some n) (Some m) (Some false) None)) as Hr.
  { intros [Hn Hm]. split; intros k [= <-]; [done|]. unfold fits in *. cbn in *. lia. }
  split.
  - intros rc cc' E. destruct (set_vm_config (vmr cc) _) as [[res r]|] eqn:Es; [|done]. cbn in E. injection E as <- <-. split.
    + intros Hneg. destruct res; [done|]. unfold set_vm_config in Es. repeat case_match; cbn in Es; simplify_eq; try done; by destruct cc.
    + intros Hc%Hr [V K E P M]. destruct (set_vm_config_keeps (vmr cc) _ V Hc) as (res' & r' & Es' & Hok & Hw). rewrite Es in Es'. injection Es' as <- <-.
      rewrite Hw. split; cbn; done.
  - intros Hc%Hr [V K E P M]. destruct (set_vm_config_keeps (vmr cc) _ V Hc) as (res' & r' & -> & _). done.
Qed.

Ltac refuse_none := match goal with |- context [match ?x with Some _ => _ | None => _ end] => destruct x; [|by constructor] end.
Ltac update := apply update_ctx_does; intros ? ? []; split; cbn in *; auto; try discriminate.

Lemma setter_cases c i l :
  names c = Some i -> c <> FreeCtx i -> c <> StartEnter i -> setter_does c i l (setter c l).
Proof.
  intros Hn Hf Hs. destruct c; cbn in Hn; try done; injection Hn as ->; try done; cbn [setter].
  - apply with_ctx_does. intros cc. apply set_vm_config_does.
  - unfold krun_set_root. refuse_none. update.
  - unfold krun_add_virtiofs. do 2 refuse_none. update.
  - unfold krun_add_virtiofs2. do 2 refuse_none. update.
  - by constructor.
  - unfold krun_add_disk. do 2 refuse_none. update.
  - unfold krun_set_root_disk. refuse_none. update.
  - unfold krun_set_data_disk. refuse_none. update.
  - unfold krun_set_passt_fd. destruct (fd <? 0); [by constructor|]. destruct feature_net; [|by constructor]. update.
  - unfold krun_set_gvproxy_path. refuse_none. update.
  - unfold krun_set_net_mac. destruct feature_net; [|by constructor]. update. by intros ? [= <-].
  - unfold krun_set_port_map. destruct (port_items ∅ _) as [m|] eqn:E; [|by constructor]. apply with_ctx_does. intros cc.
    assert (ports_ok (Some m)) as Hm by (eapply port_items_ok; [|exact E]; intros ? [= <-]; split; [by intros ? ? ?; rewrite lookup_empty|done]).
    unfold set_port_map. split; [|intros _ _; by destruct (net_cfg cc)].
    intros rc cc' Er. destruct (net_cfg cc); injection Er as <- <-; (split; [done|]); [|done..].
    intros _ []; split; cbn; auto. intros p [= <-]. done.
  - unfold krun_add_vsock_port. refuse_none. update; unfold add_vsock_port; case_match; auto.
  - unfold krun_set_rlimits. do 2 refuse_none. update.
  - unfold krun_set_workdir. refuse_none. update.
  - unfold krun_set_exec. refuse_none. refuse_none. apply env_text_does; [by intros ? ->|]. intros [tx|]; [|by constructor]. update.
  - unfold krun_set_env. apply env_text_does; [by intros ? ->|]. intros [tx|]; [|by constructor]. update.
  - update.
  - update.
  - update.
  - apply with_ctx_does. intros cc. split; [|done]. by intros rc cc' [= <- <-].
  - unfold krun_set_console_output. refuse_none. apply with_ctx_does. intros cc.
    split; [|intros _ _; by destruct (cc_console_output cc)].
    intros rc cc' Er. destruct (cc_console_output cc); injection Er as <- <-; (split; [done|]); [done|]. intros _ []; split; cbn; auto.
  - unfold krun_set_smbios_oem_strings. do 2 refuse_none. update.
Qed.

(** ** Starting *)

(** The network interface a context asks for. *)
Definition net_plan (c : ContextConfig) : list NetworkInterfaceConfig :=
  let eth0 b := mkNet (chars "eth0") b (default [0x5a; 0x94; 0xef; 0xe4; 0x0c; 0xee] (mac c)) in
  match net_cfg c with
  | Tsi _ => []
  | VirtioNetPasst fd => if feature_net then [eth0 (BackendPasst fd)] else []
  | VirtioNetGvproxy path => if feature_net then [eth0 (BackendGvproxy path)] else []
  end.

Definition block_plan (c : ContextConfig) : list BlockDeviceConfig := if feature_blk then get_block_cfg c else [].

Definition or_else {A} (a b : option A) : option A := match a with Some _ => a | None => b end.

(** The resources of a context's machine. *)
Definition plan (c : ContextConfig) : VmResources :=
  let r := vmr c in
  mkResources (vm_config r) (boot_source c) (kernel_bundle r) (fs r) (vsock_config c) (block_plan c) (net_plan c)
    (or_else (cc_virgl_flags c) (gpu_virgl_flags r)) (or_else (cc_shm_size c) (gpu_shm_size r))
    (if feature_snd then enable_snd c else snd_device r) (or_else (cc_console_output c) (console_output r)) (smbios_oem_strings r).

Lemma add_blocks_spec r l :
  add_blocks r l =
    if forallb block_ok l
    then Ok (mkResources (vm_config r) (boot_config r) (kernel_bundle r) (fs r) (vsock r) (block r ++ l) (net_devices r) (gpu_virgl_flags r)
               (gpu_shm_size r) (snd_device r) (console_output r) (smbios_oem_strings r))
    else Err tt.
Proof.
  revert r. induction l as [|b l IH]; intros r; cbn [add_blocks forallb]; [rewrite app_nil_r; by destruct r|].
  unfold add_block_device. destruct (block_ok b); cbn [andb]; [|done]. rewrite IH. cbn. by rewrite <- app_assoc.
Qed.

Lemma with_vmr_twice c r r' : with_vmr (with_vmr c r) r' = with_vmr c r'.
Proof. done. Qed.

Lemma with_vmr_same c : with_vmr c (vmr c) = c.
Proof. by destruct c. Qed.

Definition with_vsock (r : VmResources) (v : option VsockDeviceConfig) : VmResources :=
  mkResources (vm_config r) (boot_config r) (kernel_bundle r) (fs r) v (block r) (net_devices r) (gpu_virgl_flags r) (gpu_shm_size r)
    (snd_device r) (console_output r) (smbios_oem_strings r).

Lemma add_network_spec c :
  net_devices (vmr c) = [] ->
  add_network c = if forallb net_ok (net_plan c) then Ret (with_vmr c (with_net_devices (vmr c) (net_plan c))) else Panic.
Proof.
  intros En. assert (with_vmr c (with_net_devices (vmr c) []) = c) as Es by (destruct c as [r]; cbn in *; rewrite <- En; by destruct r).
  unfold add_network, net_plan, create_virtio_net, add_network_interface, net_build. rewrite En. cbn [position app].
  destruct (net_cfg c), feature_net; cbn [forallb andb]; rewrite ?Es; try done; by destruct (net_ok _).
Qed.

Lemma add_vsock_spec c :
  vsock (vmr c) = None ->
  add_vsock c = if forallb vsock_ok (option_list (vsock_config c)) then Ret (with_vmr c (with_vsock (vmr c) (vsock_config c))) else Panic.
Proof.
  intros Ev. unfold add_vsock, set_vsock_device. destruct (vsock_config c) as [v|]; cbn; [by destruct (vsock_ok v)|].
  destruct c as [r]; cbn in *. rewrite <- Ev. by destruct r.
Qed.

Lemma configure_plan c :
  ctx_ok c ->
  configure c =
    if negb (forallb block_ok (block_plan c)) then Ret None
    else if forallb net_ok (net_plan c) && forallb vsock_ok (option_list (vsock_config c)) then Ret (Some (plan c))
    else Panic.
Proof.
  intros [_ _ (Ev & Eb & En) _ _].
  assert ((if feature_blk then add_blocks (vmr c) (get_block_cfg c) else Ok (vmr c)) =
          add_blocks (vmr c) (block_plan c)) as Ea by (unfold block_plan; by destruct feature_blk).
  unfold configure. rewrite Ea, add_blocks_spec, Eb. cbn [app]. destruct (forallb block_ok (block_plan c)); cbn [negb]; [|done].
  rewrite add_network_spec by done. change (net_plan (with_vmr c ?r)) with (net_plan c).
  destruct (forallb net_ok (net_plan c)); [|done]. cbn [andb mbind outcome_bind].
  rewrite add_vsock_spec by done. change (vsock_config (with_vmr c ?r)) with (vsock_config c).
  destruct (forallb vsock_ok _); [|done]. cbn. unfold plan, or_else.
  by destruct (cc_virgl_flags c), (cc_shm_size c), feature_snd, (cc_console_output c).
Qed.

(** ** The invariant of the library *)

Lemma plan_ok c : ctx_ok c -> machine_ok (plan c).
Proof.
  intros [V K E P M]. split; cbn; [done|done|by do 2 eexists| |].
  - unfold net_plan, vsock_config. destruct (net_cfg c) as [p|fd|path]; [by left|..]; (destruct feature_net; [right|by left]);
      (eexists; split_and!; [done|done| |]; [|intros v Hv; destruct (ipc_port_map c); by simplify_eq]);
      cbn; destruct (mac c) as [m|] eqn:Em; cbn; [by apply M|done..|by apply M|done].
  - intros v Hv. unfold vsock_config in Hv. destruct (net_cfg c) as [p|fd|path] eqn:En; [injection Hv as <-; split; [done|]; by apply P|..];
      destruct (ipc_port_map c); simplify_eq; (split; [done|]; by intros ?).
Qed.

Lemma setter_invariant c i l :
  lib_ok l -> call_ok c -> setter_does c i l (setter c l) ->
  match setter c l with Ret (rc, l') => lib_ok l' /\ ctx_ids l' = ctx_ids l | Panic => panics c l end.
Proof.
  intros [Hi Hc] Hok Hd. destruct Hd as [rc Hrc|Hp|cc r Hcc [Hr Hn]]; [done|done|].
  destruct (Hc _ _ Hcc) as [Hlt Hcok]. destruct r as [[rc cc']|]; [|by destruct (Hn Hok Hcok)].
  destruct (Hr _ _ eq_refl) as [_ Hs]. cbn. split; [|done]. split; [done|]. intros j c'. cbn. rewrite lookup_insert.
  case_decide; [|apply Hc]. subst. intros [= <-]. auto.
Qed.

Lemma create_cases l :
  0 <= ctx_ids l < 2 ^ 31 ->
  krun_create_ctx l = Panic /\ (panics CreateCtx l \/ is_Some (ctx_map l !! ctx_ids l)) \/
  krun_create_ctx l = Ret (- EINVAL, l) \/
  exists c, ctx_ok c /\ ctx_map l !! ctx_ids l = None /\ ctx_ids l + 1 < 2 ^ 31 /\
    krun_create_ctx l = Ret (ctx_ids l, mkLib (<[ctx_ids l := c]> (ctx_map l)) (ctx_ids l + 1) (logger l)).
Proof.
  intros Hi. unfold krun_create_ctx. destruct (krunfw_version <? _); [by right; left|].
  destruct (set_kernel_bundle page_size VmResources_default krunfw_kernel) as [r|e] eqn:Er; [|left; split; [done|]; left; left; by exists e].
  rewrite (wrap_small 32) by (unfold fits; lia). destruct (Z.eqb_spec (ctx_ids l) (2 ^ 31 - 1)) as [E|E]; cbn [orb]; [left; split; [done|]; left; by right|].
  case_bool_decide as Hs; [left; split; [done|by right]|]. right. right. exists (with_vmr ContextConfig_default r).
  rewrite (wrap_small 32) by (unfold fits; lia). unfold to_signed. rewrite (wrap_small 32) by (unfold fits; lia).
  rewrite (proj2 (Z.ltb_lt _ _)) by (cbn; lia). split_and!; [|by apply eq_None_not_Some|lia|done].
  unfold set_kernel_bundle in Er. repeat case_match; simplify_eq. split; cbn; try done.
  - apply VmConfig_default_ok.
  - intros p [= <-]. by intros ?.
Qed.

Lemma Lib_start_ok : lib_ok Lib_start.
Proof. split; cbn; [lia|]. intros i c. by rewrite lookup_empty. Qed.

Lemma exec_invariant c l :
  lib_ok l -> call_ok c ->
  match exec c l with
  | Ret (d, l') => lib_ok l' /\ forall r efd, d = Building r efd -> machine_ok r
  | Panic => panics c l
  end.
Proof.
  intros Hl Hok. pose proof Hl as [Hi Hc].
  assert (forall P : Prop, match setter c l with Ret (rc, l') => lib_ok l' /\ ctx_ids l' = ctx_ids l | Panic => P end ->
    match ('(rc, l') ← setter c l; Ret (Returned rc, l')) with
    | Ret (d, l') => lib_ok l' /\ forall r efd, d = Building r efd -> machine_ok r
    | Panic => P end) as Hret.
  { intros P. destruct (setter c l) as [[rc l']|]; cbn; [|done]. intros [Hl' _]. by split. }
  destruct c; try (apply Hret; eapply setter_invariant, setter_cases; done).
  - cbn. unfold krun_set_log_level. destruct (logger l) eqn:E; cbn; [done|]. split; [by split|done].
  - cbn [exec setter]. destruct (create_cases l Hi) as [[-> [|[c Hn]]]|[->|(c & Hcok & Hn & Hlt & ->)]]; cbn; [done| |done|].
    + apply Hc in Hn as [? _]. lia.
    + split; [|done]. split; cbn; [lia|]. intros j c'. rewrite lookup_insert. case_decide; [intros [= <-]; subst; split; [lia|done]|].
      intros Hj. apply Hc in Hj as [? ?]. split; [lia|done].
  - cbn. unfold krun_free_ctx. destruct (ctx_map l !! id) eqn:E; cbn; [|done]. split; [|done]. split; [done|]. intros j c'. cbn.
    rewrite lookup_delete. case_decide; [done|apply Hc].
  - cbn. unfold krun_start_enter. destruct event_manager_ok; cbn [negb]; [|done]. destruct (ctx_map l !! id) as [c|] eqn:E; [|done].
    destruct (Hc _ _ E) as [_ Hcok]. rewrite configure_plan by done.
    assert (lib_ok (mkLib (delete id (ctx_map l)) (ctx_ids l) (logger l))) as Hl'.
    { split; [done|]. intros j c'. cbn. rewrite lookup_delete. case_decide; [done|apply Hc]. }
    destruct (negb _); cbn; [done|]. destruct (forallb net_ok (net_plan c)) eqn:En; cbn.
    + destruct (vsock_config c) as [v|] eqn:Ev; cbn; [destruct (vsock_ok v) eqn:Evo; cbn|].
      * split; [done|]. intros r efd [= <- <-]. by apply plan_ok.
      * exists c. split; [done|]. left. by exists v.
      * split; [done|]. intros r efd [= <- <-]. by apply plan_ok.
    + exists c. split; [done|]. right. unfold net_plan in En. destruct (net_cfg c), feature_net; cbn in En; try done; (split; [done|]);
        rewrite andb_true_r in En; by eexists.
Qed.

(** ** Isolation *)

Lemma on_ctx_same i l cc : ctx_map l !! i = Some cc -> mkLib (<[i := cc]> (ctx_map l)) (ctx_ids l) (logger l) = l.
Proof. intros E. destruct l. cbn in *. by rewrite insert_id. Qed.

(** What a finished call may have done. *)
Record isolated (c : call) (l : Lib) (d : Done) (l' : Lib) : Prop := {
  iso_others j : names c <> Some j -> (c = CreateCtx -> d <> Returned j) -> ctx_map l' !! j = ctx_map l !! j;
  iso_failed rc : d = Returned rc -> rc < 0 ->
    l' = l \/ exists i, c = StartEnter i /\ l' = mkLib (delete i (ctx_map l)) (ctx_ids l) (logger l);
  iso_unknown i : names c = Some i -> ctx_map l !! i = None -> l' = l /\ exists rc, d = Returned rc /\ rc < 0;
  iso_started i : c = StartEnter i -> event_manager_ok = true -> ctx_map l' !! i = None }.

Lemma setter_isolated c i rc l l' :
  names c = Some i -> (forall j, c <> StartEnter j) -> c <> CreateCtx -> setter_does c i l (Ret (rc, l')) -> isolated c l (Returned rc) l'.
Proof.
  intros Hn Hs Hcr Hd. inversion Hd as [k Hk Ek| |cc r Hcc [Hr _] Er]; subst.
  - split; [done|by left|intros; split; [done|by eexists]|by intros j []%Hs].
  - destruct r as [[rc' cc']|]; [|done]. cbn in Er. injection Er as -> <-. destruct (Hr _ _ eq_refl) as [Hneg _]. split.
    + intros j Hj _. cbn. rewrite lookup_insert_ne; [done|]. intros ->. done.
    + intros ? [= <-] Hlt. left. rewrite (Hneg Hlt). by apply on_ctx_same.
    + intros j Hj Hj'. rewrite Hn in Hj. injection Hj as <-. congruence.
    + by intros j []%Hs.
Qed.

(** C23. A call touches only the context it names, or the new one it returns.  A
    call that fails changes nothing, with one exception: a start that gets as
    far as the configuration has taken its context out of the table, and keeps
    it out when the configuration fails.  A call on an unknown context fails and
    changes nothing; and a started context is gone. *)
Theorem calls_isolated c l d l' : 0 <= ctx_ids l < 2 ^ 31 -> exec c l = Ret (d, l') -> isolated c l d l'.
Proof.
  intros Hi E.
  assert ((forall i, c <> StartEnter i) -> exists rc, setter c l = Ret (rc, l') /\ d = Returned rc) as Hset.
  { intros Hs. destruct c; try (by destruct (Hs id)); cbn [exec] in E; destruct (setter _ l) as [[rc l1]|]; try done; injection E as <- <-; by eexists. }
  destruct c; try (destruct Hset as (rc & Es & ->); [done|]; eapply setter_isolated; [done..|]; rewrite <- Es; by apply setter_cases).
  - destruct Hset as (rc & Es & ->); [done|]. cbn in Es. unfold krun_set_log_level in Es. destruct (logger l); [done|]. injection Es as <- <-.
    split; [done| |done|done]. intros ? [= <-]. unfold KRUN_SUCCESS. lia.
  - destruct Hset as (rc & Es & ->); [done|]. cbn in Es. destruct (create_cases l Hi) as [[E2 _]|[E2|(c & _ & Hn & _ & E2)]]; rewrite E2 in Es;
      [done|injection Es as <- <-; split; [done|by left|done|done]|injection Es as <- <-]. split; [|intros ? [= <-]; lia|done|done].
    intros j _ Hj. cbn. rewrite lookup_insert_ne; [done|]. intros <-. by apply Hj.
  - destruct Hset as (rc & Es & ->); [done|]. cbn in Es. unfold krun_free_ctx in Es. destruct (ctx_map l !! id) eqn:Ei; injection Es as <- <-.
    + split; [|intros ? [= <-]; unfold KRUN_SUCCESS; lia|intros j [= <-]; congruence|done]. intros j Hj _. cbn. rewrite lookup_delete_ne; [done|]. by intros ->.
    + split; [done|by left|intros; split; [done|by eexists]|done].
  - clear Hset. cbn in E. unfold krun_start_enter in E. destruct event_manager_ok eqn:Em; cbn [negb] in E.
    2: { injection E as <- <-. split; [done|by left|intros; split; [done|by eexists]|by rewrite Em]. }
    destruct (ctx_map l !! id) as [cc|] eqn:Ei; [|injection E as <- <-; split; [done|by left|intros; split; [done|by eexists]|by intros j [= <-]]].
    assert (l' = mkLib (delete id (ctx_map l)) (ctx_ids l) (logger l)) as -> by (destruct (configure cc) as [[r|]|]; by simplify_eq/=).
    split; cbn.
    + intros j Hj _. rewrite lookup_delete_ne; [done|]. by intros ->.
    + intros ? _ _. right. by exists id.
    + intros j [= <-]. congruence.
    + intros j [= <-] _. by rewrite lookup_delete_eq.
Qed.

(** ** Identifiers *)

Fixpoint run (cs : list call) (l : Lib) : outcome (list (call * Done) * Lib) :=
  match cs with
  | [] => Ret ([], l)
  | c :: cs => '(d, l) ← exec c l; '(ds, l) ← run cs l; Ret ((c, d) :: ds, l)
  end.

(** The identifiers successful creations returned. *)
Definition created (ds : list (call * Done)) : list Z :=
  omap (fun e => match e with (CreateCtx, Returned i) => if 0 <=? i then Some i else None | _ => None end) ds.

Lemma exec_ids c l d l' :
  lib_ok l -> call_ok c -> exec c l = Ret (d, l') ->
  ctx_ids l' = ctx_ids l /\ created [(c, d)] = [] \/ ctx_ids l' = ctx_ids l + 1 /\ created [(c, d)] = [ctx_ids l].
Proof.
  intros Hl Hok E. pose proof Hl as [Hi _].
  assert (forall i, names c = Some i -> c <> FreeCtx i -> (forall j, c <> StartEnter j) -> ctx_ids l' = ctx_ids l) as Hset.
  { intros i Hn Hf Hs. pose proof (setter_invariant c i l Hl Hok (setter_cases _ _ _ Hn Hf (Hs i))) as Hinv.
    destruct c; try (by destruct (Hs id)); cbn [exec] in E; destruct (setter _ l) as [[rc l1]|]; try done; destruct Hinv as [_ Hinv]; by injection E as <- <-. }
  destruct c; try (left; split; [by eapply Hset|done]); cbn in E.
  - left. unfold krun_set_log_level in E. destruct (logger l); [done|]. by injection E as <- <-.
  - destruct (create_cases l Hi) as [[E' _]|[E'|(c & _ & Hn & _ & E')]]; rewrite E' in E; [done|by left; injection E as <- <-|right].
    injection E as <- <-. split; [done|]. cbn. by rewrite (proj2 (Z.leb_le 0 (ctx_ids l))) by lia.
  - left. unfold krun_free_ctx in E. destruct (ctx_map l !! id); by injection E as <- <-.
  - left. split; [|done]. unfold krun_start_enter in E. destruct (negb _); [by injection E as <- <-|]. destruct (ctx_map l !! id); [|by injection E as <- <-].
    destruct (configure _) as [[r|]|]; by simplify_eq/=.
Qed.

Lemma run_invariant cs l ds l' :
  lib_ok l -> Forall call_ok cs -> run cs l = Ret (ds, l') ->
  lib_ok l' /\ ctx_ids l <= ctx_ids l' /\ created ds = seqZ (ctx_ids l) (ctx_ids l' - ctx_ids l) /\
  Forall (fun e => forall r efd, e.2 = Building r efd -> machine_ok r) ds.
Proof.
  revert l ds. induction cs as [|c cs IH]; intros l ds Hl Hok E; cbn [run] in E.
  - injection E as <- <-. split_and!; [done|lia|by rewrite Z.sub_diag|constructor].
  - inv Hok. pose proof (exec_invariant c l Hl ltac:(done)) as Hinv.
    destruct (exec c l) as [[d l1]|] eqn:Ec; [|done]. cbn in E. destruct (run cs l1) as [[ds1 l2]|] eqn:Er; [|done]. cbn in E. injection E as <- <-.
    destruct Hinv as [Hl1 Hm]. destruct (IH _ _ Hl1 ltac:(done) Er) as (Hl2 & Hle & Hcr & Hf).
    assert (created ((c, d) :: ds1) = created [(c, d)] ++ created ds1) as -> by (change ((c, d) :: ds1) with ([(c, d)] ++ ds1); apply omap_app).
    rewrite Hcr. destruct (exec_ids _ _ _ _ Hl ltac:(eassumption) Ec) as [[E1 ->]|[E1 ->]]; rewrite E1 in *; split_and!; try done; try lia; try (by constructor).
    rewrite (seqZ_cons (ctx_ids l)) by lia. cbn. do 2 f_equal; lia.
Qed.

(** C22. In every state a program can reach, whatever it calls with arguments of the
    right types: every context is well-formed, identifiers stay ahead of those
    in use, what [krun_start_enter] hands to the builder is a complete machine
    (usable processors and memory, the firmware's kernel, a command line, and
    either port forwarding over vsock or one network interface), and a call
    panics only for a second logger, bad firmware, exhausted identifiers, a
    non-Unicode host environment, or a device that cannot be created. *)
Theorem library_invariant cs ds l c :
  Forall call_ok cs -> run cs Lib_start = Ret (ds, l) -> call_ok c ->
  lib_ok l /\ Forall (fun e => forall r efd, e.2 = Building r efd -> machine_ok r) ds /\ (exec c l = Panic -> panics c l).
Proof.
  intros Hcs E Hok. destruct (run_invariant _ _ _ _ Lib_start_ok Hcs E) as (Hl & _ & _ & Hm). split_and!; [done..|].
  intros Ec. pose proof (exec_invariant c l Hl Hok) as Hp. by rewrite Ec in Hp.
Qed.

(** Identifiers are never reused: over any sequence of calls the successful
    creations return consecutive ones, also after contexts are freed. *)
Theorem ids_never_reused cs ds l :
  Forall call_ok cs -> run cs Lib_start = Ret (ds, l) -> created ds = seqZ 0 (ctx_ids l).
Proof. intros Hcs E. destruct (run_invariant _ _ _ _ Lib_start_ok Hcs E) as (_ & _ & -> & _). cbn. f_equal. lia. Qed.

(** ** Port maps are read exactly *)

(** How a program writes a pair of ports. *)
Definition port_text (hg : Z * Z) : cstr := Some (decimal hg.1 ++ [58] ++ decimal hg.2).

Definition decimal_digit (c : Z) : Prop := exists d, 0 <= d < 10 /\ c = digit d.

Lemma read_from_le s n : 0 <= n -> Forall decimal_digit s -> n <= fold_left (fun z c => z * 10 + digit_value c) s n.
Proof.
  revert n. induction s as [|c s IH]; intros n Hn Hs; cbn; [lia|]. inversion Hs as [|? ? (d & Hd & ->) Hs']; subst.
  rewrite digit_value_digit by lia. etrans; [|apply IH; [lia|done]]. lia.
Qed.

Lemma parse_digits_read s n :
  0 <= n -> Forall decimal_digit s -> fold_left (fun z c => z * 10 + digit_value c) s n < 2 ^ 16 ->
  parse_digits n s = Some (fold_left (fun z c => z * 10 + digit_value c) s n).
Proof.
  revert n. induction s as [|c s IH]; intros n Hn Hs Hlt; [done|]. inversion Hs as [|? ? (d & Hd & ->) Hs']; subst. cbn in *.
  rewrite digit_value_digit in * by lia. assert (digit d = 48 + d) as Hdig by (unfold digit; by rewrite (proj2 (Z.ltb_lt d 10)) by lia).
  rewrite Hdig, (proj2 (Z.leb_le 48 _)), (proj2 (Z.leb_le _ 57)) by lia. cbn. replace (48 + d - 48) with d by lia.
  pose proof (read_from_le s (n * 10 + d) ltac:(lia) Hs'). rewrite (proj2 (Z.ltb_lt _ _)) by (cbn; lia). apply IH; [lia|done|done].
Qed.

Lemma parse_decimal z : fits 16 z -> parse_u16 (decimal z) = Some z.
Proof.
  intros Hz. unfold fits in Hz. destruct (fmt_digits_read 10 20 z []) as (s & Hs & Hr & Hd & Hne); [lia|cbn in *; lia|lia|].
  unfold decimal. rewrite Hs, app_nil_r. unfold read_digits in Hr. destruct s as [|c s]; [done|].
  assert (c =? 43 = false) as Hc.
  { inversion Hd as [|? ? (d & Hd0 & ->)]; subst. unfold digit. rewrite (proj2 (Z.ltb_lt d 10)) by lia. apply Z.eqb_neq. lia. }
  unfold parse_u16. rewrite Hc, parse_digits_read; [by rewrite Hr|lia|done|rewrite Hr; cbn in *; lia].
Qed.

Lemma split_none ch s : ch ∉ s -> split ch s = [s].
Proof.
  induction s as [|c s IH]; [done|]. intros [Hc Hs]%not_elem_of_cons. cbn. rewrite (proj2 (Z.eqb_neq c ch)) by done. by rewrite IH.
Qed.

Lemma split_at ch s t : ch ∉ s -> split ch (s ++ [ch] ++ t) = s :: split ch t.
Proof.
  induction s as [|c s IH]; [intros _; cbn; by rewrite Z.eqb_refl|]. intros [Hc Hs]%not_elem_of_cons. cbn.
  rewrite (proj2 (Z.eqb_neq c ch)) by done. cbn in IH. by rewrite IH.
Qed.

Lemma split_port h g : split 58 (decimal h ++ [58] ++ decimal g) = [decimal h; decimal g].
Proof.
  assert (forall z, 58 ∉ decimal z) as Hn by (intros z; apply alnum_not_in; [apply decimal_alnum|unfold alnum; lia]).
  by rewrite split_at, split_none.
Qed.

Lemma port_step m h g items :
  fits 16 h -> fits 16 g ->
  port_items m (port_text (h, g) :: items) =
    if bool_decide (is_Some (m !! g)) then None
    else if existsb (fun e => e.2 =? h) (map_to_list m) then None else port_items (<[g := h]> m) items.
Proof. intros Hh Hg. cbn [port_items port_text fst snd mbind option_bind]. by rewrite split_port, !parse_decimal. Qed.

Lemma existsb_map_spec (m : gmap Z Z) h : existsb (fun e => e.2 =? h) (map_to_list m) = false <-> forall g, m !! g <> Some h.
Proof.
  split; [apply existsb_false_map|]. intros Hm. destruct (existsb _ _) eqn:E; [|done]. apply existsb_exists in E as ([g k] & Hin & Hk%Z.eqb_eq).
  cbn in Hk. subst. apply list_elem_of_In, elem_of_map_to_list in Hin. by destruct (Hm g).
Qed.

(** The ports of a list are new to a map. *)
Definition new_to (m : gmap Z Z) (ports : list (Z * Z)) : Prop :=
  forall h g, (h, g) ∈ ports -> m !! g = None /\ forall k, m !! k <> Some h.

Definition distinct_ports (ports : list (Z * Z)) : Prop := NoDup ports.*1 /\ NoDup ports.*2.

Definition ports_fit (ports : list (Z * Z)) : Prop := Forall (fun e => fits 16 e.1 /\ fits 16 e.2) ports.

Lemma port_items_read ports m m' :
  ports_fit ports -> port_items m (port_text <$> ports) = Some m' ->
  new_to m ports /\ distinct_ports ports /\ forall g h, m' !! g = Some h <-> m !! g = Some h \/ (h, g) ∈ ports.
Proof.
  revert m. induction ports as [|[h g] ports IH]; intros m Hf E.
  { injection E as <-. split_and!; [by intros ? ? ?%not_elem_of_nil|split; constructor|]. intros g h. rewrite elem_of_nil. tauto. }
  inversion Hf as [|? ? [Hh Hg] Hf']; subst. cbn [fmap list_fmap] in E. rewrite port_step in E by done.
  case_bool_decide as Hs; [done|]. apply eq_None_not_Some in Hs. destruct (existsb _ _) eqn:Ex; [done|]. rewrite existsb_map_spec in Ex.
  destruct (IH _ Hf' E) as (Hn & [H1 H2] & Hm).
  assert (forall h' g', (h', g') ∈ ports -> g' <> g /\ h' <> h) as Hd.
  { intros h' g' Hin. destruct (Hn _ _ Hin) as [Ha Hb]. split; intros ->; [by rewrite lookup_insert_eq in Ha|]. apply (Hb g). by rewrite lookup_insert_eq. }
  split_and!.
  - intros h' g' [[= -> ->]|Hin]%elem_of_cons; [done|]. destruct (Hn _ _ Hin) as [Ha Hb]. destruct (Hd _ _ Hin) as [Hg' Hh'].
    rewrite lookup_insert_ne in Ha by done. split; [done|]. intros k Hk. destruct (decide (k = g)) as [->|]; [congruence|].
    apply (Hb k). by rewrite lookup_insert_ne.
  - split; cbn; apply NoDup_cons; (split; [|done]); intros ([h' g'] & Heq & Hin)%list_elem_of_fmap; cbn in Heq; subst; by destruct (Hd _ _ Hin).
  - intros g' h'. rewrite Hm, elem_of_cons, lookup_insert. case_decide as Hg'; [subst|split; [tauto|]; intros [?|[[= -> ->]|?]]; by auto].
    rewrite Hs. split; [intros [[= ->]|]; auto|]. intros [?|[[= ->]|]]; [done|by left|by right].
Qed.

Lemma port_items_total ports m :
  ports_fit ports -> new_to m ports -> distinct_ports ports -> is_Some (port_items m (port_text <$> ports)).
Proof.
  revert m. induction ports as [|[h g] ports IH]; intros m Hf Hn [H1 H2]; [by eexists|]. inversion Hf as [|? ? [Hh Hg] Hf']; subst.
  cbn [fmap list_fmap fst snd] in *. apply NoDup_cons in H1 as [H1 H1'], H2 as [H2 H2']. rewrite port_step by done.
  destruct (Hn h g ltac:(by left)) as [Ha Hb]. rewrite Ha. rewrite bool_decide_false by (by intros [? ?]).
  rewrite (proj2 (existsb_map_spec m h)) by done. apply IH; [done| |by split].
  intros h' g' Hin. destruct (Hn h' g' ltac:(by right)) as [Ha' Hb'].
  assert (g' <> g) by (intros ->; apply H2; by apply (list_elem_of_fmap_2 snd) in Hin).
  assert (h' <> h) by (intros ->; apply H1; by apply (list_elem_of_fmap_2 fst) in Hin).
  rewrite lookup_insert_ne by done. split; [done|]. intros k. rewrite lookup_insert. case_decide; [congruence|apply Hb'].
Qed.

(** C25. A list of host:guest pairs is accepted exactly when no host port and no
    guest port occurs twice, and then the context forwards exactly these; a
    refused list changes nothing. *)
Theorem port_map_exact i l c p ports :
  ctx_map l !! i = Some c -> net_cfg c = Tsi p -> ports_fit ports -> (length ports <= MAX_ARGS)%nat ->
  (distinct_ports ports -> exists m, krun_set_port_map i (port_text <$> ports) l =
       Ret (KRUN_SUCCESS, mkLib (<[i := set_net_cfg c (Tsi (Some m))]> (ctx_map l)) (ctx_ids l) (logger l)) /\
       forall g h, m !! g = Some h <-> (h, g) ∈ ports) /\
  (~ distinct_ports ports -> krun_set_port_map i (port_text <$> ports) l = Ret (- EINVAL, l)).
Proof.
  intros Hc Hp Hf Hlen. unfold krun_set_port_map. rewrite take_ge by (by rewrite length_fmap).
  destruct (port_items ∅ (port_text <$> ports)) as [m|] eqn:E.
  - destruct (port_items_read _ _ _ Hf E) as (_ & Hd & Hm). split; [|done]. intros _. exists m. split.
    + unfold with_ctx. rewrite Hc. unfold set_port_map. by rewrite Hp.
    + intros g h. rewrite Hm, lookup_empty. split; [by intros []|by right].
  - split; [|done]. intros Hd. destruct (port_items_total ports ∅ Hf) as [m Em]; [|done|by rewrite E in Em].
    intros h g _. split; [done|]. intros k. by rewrite lookup_empty.
Qed.

(** ** Arguments come back from the command line *)

(** What a reader of quoted words sees. *)
Fixpoint quoted (inside : bool) (cur s : text) : list text :=
  match s with
  | [] => []
  | c :: s =>
      if inside then if c =? 34 then cur :: quoted false [] s else quoted true (cur ++ [c]) s
      else if c =? 34 then quoted true [] s else quoted false cur s
  end.

Definition quoted_words (s : text) : list text := quoted false [] s.

Definition no_quote (s : text) : Prop := 34 ∉ s.

Lemma quoted_inside s cur t : no_quote s -> quoted true cur (s ++ 34 :: t) = (cur ++ s) :: quoted false [] t.
Proof.
  revert cur. induction s as [|c s IH]; intros cur; [cbn; by rewrite app_nil_r|]. intros [Hc Hs]%not_elem_of_cons. cbn.
  rewrite (proj2 (Z.eqb_neq c 34)) by done. rewrite IH by done. by rewrite <- app_assoc.
Qed.

Lemma quoted_quote s t : no_quote s -> quoted_words (quote s ++ t) = s :: quoted_words t.
Proof. intros Hs. unfold quoted_words, quote. cbn. rewrite <- app_assoc. cbn. by rewrite quoted_inside. Qed.

Lemma quoted_join l : Forall no_quote l -> quoted_words (join [32] (quote <$> l)) = l.
Proof.
  induction l as [|s l IH]; [done|]. intros Hl. inversion Hl; subst. destruct l as [|s' l].
  - cbn [fmap list_fmap join]. rewrite <- (app_nil_r (quote s)), quoted_quote by done. done.
  - change (join [32] (quote <$> s :: s' :: l)) with (quote s ++ [32] ++ join [32] (quote <$> s' :: l)). rewrite quoted_quote by done.
    f_equal. by apply IH.
Qed.

Lemma str_vec_all (l : list text) : (length l <= MAX_ARGS)%nat -> str_vec (Some <$> l) = Some l.
Proof.
  intros Hl. unfold str_vec. rewrite take_ge by (by rewrite length_fmap). clear Hl. induction l as [|s l IH]; [done|].
  cbn in *. by rewrite IH.
Qed.

(** C24. The program, its arguments and its environment, set by [krun_set_exec],
    are on the command line of the machine that is started: when none of them
    holds a double quote, which the code does not escape, and there are not more
    than [MAX_ARGS] of either, a reader of quoted words gets back exactly the
    arguments after the double dash and exactly the variables at the end of the
    first part. *)
Theorem exec_roundtrip i l c path a e r efd l2 :
  ctx_map l !! i = Some c -> ctx_ok c -> (length a <= MAX_ARGS)%nat -> (length e <= MAX_ARGS)%nat -> Forall no_quote a -> Forall no_quote e ->
  forall l1, krun_set_exec i (Some path) (Some (Some <$> a)) (Some (Some <$> e)) l = Ret (KRUN_SUCCESS, l1) ->
  krun_start_enter i l1 = Ret (Building r efd, l2) ->
  exists opts vs args, boot_config r = mkBootSource
      (Some (DEFAULT_KERNEL_CMDLINE ++ chars " init=/init.krun KRUN_INIT=" ++ path ++ [32] ++ opts ++ [32] ++ vs)) (Some (chars " -- " ++ args)) /\
    quoted_words args = a /\ quoted_words vs = e.
Proof.
  intros Hc Hok Ha He Hqa Hqe l1 E1 E2. unfold krun_set_exec, env_text, collapse_str_array in E1. rewrite !str_vec_all in E1 by done.
  cbn [mbind option_bind outcome_bind] in E1. unfold update_ctx, with_ctx in E1. rewrite Hc in E1. cbn in E1. injection E1 as <-.
  unfold krun_start_enter in E2. destruct (negb event_manager_ok); [done|]. cbn [ctx_map] in E2. rewrite lookup_insert_eq in E2.
  set (c' := set_args _ _) in *. assert (ctx_ok c') as Hok' by (destruct Hok; split; done). rewrite configure_plan in E2 by done.
  destruct (negb _); [done|]. destruct (_ && _); [|done]. cbn in E2. injection E2 as <- _ _.
  exists (get_workdir c' ++ [32] ++ get_rlimits c'), (join [32] (quote <$> e)), (join [32] (quote <$> a)).
  split; [|by rewrite !quoted_join]. cbn [plan boot_config]. unfold boot_source. f_equal. f_equal. rewrite <- !app_assoc. done.
Qed.

(** Starting a context takes it out of the table and hands over exactly the
    planned resources: its disks in order, its network interface or port
    forwarding, and the rest as set.  A disk that cannot be opened makes the
    call fail, the context being gone; a network interface or vsock device that
    cannot be created panics. *)
Theorem start_plan i l c :
  event_manager_ok = true -> ctx_map l !! i = Some c -> ctx_ok c ->
  let l' := mkLib (delete i (ctx_map l)) (ctx_ids l) (logger l) in
  krun_start_enter i l =
    if negb (forallb block_ok (block_plan c)) then Ret (Returned (- EINVAL), l')
    else if forallb net_ok (net_plan c) && forallb vsock_ok (option_list (vsock_config c)) then Ret (Building (plan c) (shutdown_efd c), l')
    else Panic.
Proof.
  intros Hem Hc Hok. unfold krun_start_enter. rewrite Hem, Hc, configure_plan by done. cbn [negb].
  destruct (negb _); [done|]. by destruct (_ && _).
Qed.

(** ** What the interface lets through *)

(** A quote in an argument is not escaped: two argument lists, one line. *)
Lemma quotes_not_escaped s t : collapse_str_array [Some (s ++ [34; 32; 34] ++ t)] = collapse_str_array [Some s; Some t].
Proof. unfold collapse_str_array, str_vec. cbn. unfold quote. cbn. f_equal. f_equal. rewrite <- !app_assoc. done. Qed.

(** Without the network feature a gvproxy path is accepted all the same, and
    the machine is started without any network. *)
Lemma gvproxy_without_net i l c path :
  feature_net = false -> ctx_map l !! i = Some c -> ipc_port_map c = None ->
  exists c', krun_set_gvproxy_path i (Some path) l = Ret (KRUN_SUCCESS, mkLib (<[i := c']> (ctx_map l)) (ctx_ids l) (logger l)) /\
    net_devices (plan c') = [] /\ vsock (plan c') = None.
Proof.
  intros Hf Hc Hi. unfold krun_set_gvproxy_path, update_ctx, with_ctx. rewrite Hc. cbn. eexists. split; [done|].
  unfold net_plan, vsock_config. cbn. by rewrite Hf, Hi.
Qed.

(** Setting the log level a second time panics. *)
Lemma second_logger_panics n m l : logger l = None -> ('(_, l) ← krun_set_log_level n l; krun_set_log_level m l) = Panic.
Proof. intros Hl. unfold krun_set_log_level. by rewrite Hl. Qed.
End Api.

(** ** Concrete runs *)

(** A host with every feature where everything can be created. *)
Definition sample_host : Host := {|
  feature_net := true; feature_blk := true; feature_snd := true; krunfw_version := 4; krunfw_kernel := mkBundle 4096 0x1000000 0x1000000 8192;
  page_size := 4096; vars := []; event_manager_ok := true; block_ok := fun _ => true; vsock_ok := fun _ => true; net_ok := fun _ => true |}.
#[local] Existing Instance sample_host.

Definition sample_run : list call :=
  [CreateCtx; SetVmConfig 0 2 512; CreateCtx; SetNetMac 0 [1; 2; 3; 4; 5; 6]; SetPasstFd 0 7; SetExec 0 (Some (chars "/bin/sh")) (Some []) (Some []);
   StartEnter 0; CreateCtx].

Definition state_of {A} (o : outcome (A * Lib)) : Lib := match o with Ret (_, l) => l | Panic => Lib_start end.
Definition value_of {A} (d : A) (o : outcome (A * Lib)) : A := match o with Ret (a, _) => a | Panic => d end.

Lemma sample_run_ret : run sample_run Lib_start = Ret (value_of [] (run sample_run Lib_start), state_of (run sample_run Lib_start)).
Proof. vm_compute. reflexivity. Qed.

Lemma sample_run_ok : Forall call_ok sample_run.
Proof. repeat constructor; cbn; lia. Qed.

Lemma library_invariant_witness :
  lib_ok (state_of (run sample_run Lib_start)) /\
  Forall (fun e => forall r efd, e.2 = Building r efd -> machine_ok r) (value_of [] (run sample_run Lib_start)).
Proof.
  destruct (library_invariant _ _ _ (FreeCtx 1) sample_run_ok sample_run_ret I) as (H1 & H2 & _). exact (conj H1 H2).
Defined.

Lemma ids_never_reused_witness : created (value_of [] (run sample_run Lib_start)) = [0; 1; 2].
Proof. rewrite (ids_never_reused _ _ _ sample_run_ok sample_run_ret). vm_compute. reflexivity. Defined.

Definition one_ctx : Lib := state_of (krun_create_ctx Lib_start).

Definition ctx0 : ContextConfig := default ContextConfig_default (ctx_map one_ctx !! 0).

Lemma one_ctx_at : ctx_map one_ctx !! 0 = Some ctx0.
Proof. vm_compute. reflexivity. Qed.

Lemma one_ctx_ok : lib_ok one_ctx.
Proof.
  destruct (run_invariant [CreateCtx] Lib_start [(CreateCtx, Returned 0)] one_ctx Lib_start_ok ltac:(by repeat constructor) ltac:(vm_compute; reflexivity)) as [H _].
  exact H.
Qed.

Lemma ctx0_ok : ctx_ok ctx0.
Proof. apply (lk_ctx _ one_ctx_ok 0), one_ctx_at. Qed.

Lemma calls_isolated_witness :
  exists l', exec (SetWorkdir 0 (Some (chars "/tmp"))) one_ctx = Ret (Returned 0, l') /\ l' <> one_ctx /\
    forall j, j <> 0 -> ctx_map l' !! j = ctx_map one_ctx !! j.
Proof.
  set (l' := state_of (exec (SetWorkdir 0 (Some (chars "/tmp"))) one_ctx)).
  assert (exec (SetWorkdir 0 (Some (chars "/tmp"))) one_ctx = Ret (Returned 0, l')) as E by (vm_compute; reflexivity).
  exists l'. split; [exact E|]. split; [by vm_compute|]. intros j Hj.
  apply (iso_others _ _ _ _ (calls_isolated _ _ _ _ (lk_ids _ one_ctx_ok) E)); [by intros [=]|done].
Defined.

Lemma start_plan_witness : krun_start_enter 0 one_ctx = Ret (Building (plan ctx0) None, mkLib ∅ 1 None).
Proof. rewrite (start_plan (H := sample_host) 0 one_ctx ctx0 eq_refl one_ctx_at ctx0_ok). vm_compute. reflexivity. Defined.

Lemma port_map_exact_witness :
  exists m, krun_set_port_map 0 (port_text <$> [(8080, 80); (2222, 22)]) one_ctx = Ret (KRUN_SUCCESS, mkLib {[0 := set_net_cfg ctx0 (Tsi (Some m))]} 1 None) /\
    m !! 80 = Some 8080 /\ m !! 22 = Some 2222.
Proof.
  destruct (port_map_exact 0 one_ctx ctx0 None [(8080, 80); (2222, 22)] one_ctx_at ltac:(vm_compute; reflexivity)) as [Hd _].
  - repeat constructor; cbn; lia.
  - cbn. unfold MAX_ARGS. lia.
  - destruct Hd as (m & E & Hm).
    + split; cbn; apply NoDup_cons; (split; [|apply NoDup_singleton]); by intros [=]%list_elem_of_singleton.
    + exists m. split; [rewrite E; f_equal; f_equal; vm_compute; reflexivity|]. split; apply Hm; [left|right; left].
Defined.

Lemma exec_roundtrip_witness :
  exists r opts vs args, boot_config r = mkBootSource
      (Some (DEFAULT_KERNEL_CMDLINE ++ chars " init=/init.krun KRUN_INIT=" ++ chars "/bin/sh" ++ [32] ++ opts ++ [32] ++ vs)) (Some (chars " -- " ++ args)) /\
    quoted_words args = [chars "-c"; chars "echo hi"] /\ quoted_words vs = [chars "HOME=/root"].
Proof.
  set (l1 := state_of (krun_set_exec 0 (Some (chars "/bin/sh")) (Some (Some <$> [chars "-c"; chars "echo hi"])) (Some (Some <$> [chars "HOME=/root"])) one_ctx)).
  destruct (krun_start_enter 0 l1) as [[[|r efd] l2]|] eqn:E2; [by vm_compute in E2| |by vm_compute in E2].
  exists r. eapply (exec_roundtrip 0 one_ctx ctx0 (chars "/bin/sh") [chars "-c"; chars "echo hi"] [chars "HOME=/root"] r efd l2 one_ctx_at ctx0_ok); [| | | | |exact E2].
  - cbn. unfold MAX_ARGS. lia.
  - cbn. unfold MAX_ARGS. lia.
  - repeat constructor; unfold no_quote; vm_compute; intros Hin; repeat (apply elem_of_cons in Hin as [Hin|Hin]; [done|]); by apply not_elem_of_nil in Hin.
  - repeat constructor; unfold no_quote; vm_compute; intros Hin; repeat (apply elem_of_cons in Hin as [Hin|Hin]; [done|]); by apply not_elem_of_nil in Hin.
  - vm_compute. reflexivity.
Defined.
End CApi.
