(* ===== verification/Rutabaga.v ===== *)
(** * The graphics library's bookkeeping ([rutabaga_gfx/src/rutabaga_core.rs])

    [Rutabaga]: which resources and contexts exist, which component a request
    goes to, and the capability sets, over the class [Graphics] of the
    components behind it (the C libraries, the cross-domain component, and the
    2D component of [rutabaga_2d.rs], whose transfers are in [Rutabaga2d]).
    Structures of [rutabaga_utils.rs].  The theorems: identifiers stay unique
    and known, requests go to the component that owns the resource, a failing
    request changes no table. *)

From stdpp Require Import strings.
From S2P Require Import Prelude.

Module Rutabaga.

Definition RUTABAGA_DEFAULT_WIDTH : Z := 1280.
Definition RUTABAGA_DEFAULT_HEIGHT : Z := 1024.
Definition RUTABAGA_PIPE_TEXTURE_2D : Z := 2.
Definition RUTABAGA_PIPE_BIND_RENDER_TARGET : Z := 2.
Definition RUTABAGA_BLOB_FLAG_USE_SHAREABLE : Z := 0x0002.
Definition RUTABAGA_BLOB_FLAG_USE_CROSS_DEVICE : Z := 0x0004.
Definition RUTABAGA_CONTEXT_INIT_CAPSET_ID_MASK : Z := 0x00ff.
Definition RUTABAGA_FLAG_INFO_RING_IDX : Z := 1 .<< 1.
Definition RUTABAGA_MAP_CACHE_MASK : Z := 0x0f.
Definition RUTABAGA_MAP_ACCESS_MASK : Z := 0xf0.
Definition RUTABAGA_MAP_ACCESS_READ : Z := 0x10.
Definition RUTABAGA_MAP_ACCESS_WRITE : Z := 0x20.
Definition RUTABAGA_MAP_ACCESS_RW : Z := 0x30.
Definition RUTABAGA_CAPSET_VIRGL : Z := 1.
Definition RUTABAGA_CAPSET_VIRGL2 : Z := 2.
Definition RUTABAGA_CAPSET_GFXSTREAM_VULKAN : Z := 3.
Definition RUTABAGA_CAPSET_VENUS : Z := 4.
Definition RUTABAGA_CAPSET_CROSS_DOMAIN : Z := 5.
Definition RUTABAGA_CAPSET_DRM : Z := 6.
Definition RUTABAGA_CAPSET_GFXSTREAM_MAGMA : Z := 7.
Definition RUTABAGA_CAPSET_GFXSTREAM_GLES : Z := 8.
Definition RUTABAGA_CAPSET_GFXSTREAM_COMPOSER : Z := 9.
Definition RUTABAGA_MEM_HANDLE_TYPE_OPAQUE_FD : Z := 0x0001.
Definition RUTABAGA_MEM_HANDLE_TYPE_SHM : Z := 0x0004.

(** Errors; what a message would show of one is left out, and errors of the
    system and of the C libraries are one constructor each. *)
Inductive RutabagaError :=
| AlreadyInUse
| CheckedArithmetic
| CheckedRange
| ComponentError (code : Z)
| Invalid2DInfo
| InvalidCapset
| InvalidCommandBuffer
| InvalidCommandSize (n : Z)
| InvalidComponent
| InvalidContextId
| InvalidCrossDomainChannel
| InvalidCrossDomainItemId
| InvalidCrossDomainItemType
| InvalidCrossDomainState
| InvalidGrallocBackend
| InvalidGrallocDimensions
| InvalidGrallocDrmFormat
| InvalidGrallocGpuType
| InvalidGrallocNumberOfPlanes
| InvalidIovec
| InvalidResourceId
| InvalidRutabagaBuild
| InvalidRutabagaHandle
| InvalidVulkanInfo
| IoError
| MappingFailed (code : Z)
| NixError (errno : Z)
| NulError
| SpecViolation
| TryFromIntError
| Unsupported
| Utf8Error.

Definition RutabagaResult : Type -> Type := result RutabagaError.

Record RutabagaIovec := mkIovec { base : Z; iov_len : Z }.

Record ResourceCreate3D := mkCreate3D {
  target : Z; format : Z; bind : Z; width : Z; height : Z; depth : Z; array_size : Z; last_level : Z; nr_samples : Z; flags : Z }.

Record ResourceCreateBlob := mkCreateBlob { cb_blob_mem : Z; cb_blob_flags : Z; blob_id : Z; cb_size : Z }.

Record RutabagaMapping := mkMapping { ptr : Z; mapping_size : Z }.

(** The four strides and offsets are lists of four. *)
Record Resource3DInfo := mkInfo3D {
  i3_width : Z; i3_height : Z; drm_fourcc : Z; strides : list Z; offsets : list Z; modifier : Z }.

Record VulkanInfo := mkVulkan { memory_idx : Z; device_uuid : list byte; driver_uuid : list byte }.

Record RutabagaFence := mkFence { f_flags : Z; fence_id : Z; f_ctx_id : Z; ring_idx : Z }.

Record Transfer3D := mkTransfer {
  t_x : Z; t_y : Z; t_z : Z; t_w : Z; t_h : Z; t_d : Z; level : Z; stride : Z; layer_stride : Z; t_offset : Z }.

Definition new_2d (x y w h : Z) : Transfer3D := mkTransfer x y 0 w h 1 0 0 0 0.

Definition is_empty (t : Transfer3D) : bool := (t_w t =? 0) || (t_h t =? 0) || (t_d t =? 0).

(** An owned descriptor with what it is; [strong]: the count of its [Arc]. *)
Record RutabagaHandle := mkHandle { os_handle : Z; handle_type : Z }.
Record ArcHandle := mkArc { arc_handle : RutabagaHandle; strong : nat }.

Inductive RutabagaComponentType := Rutabaga2D | VirglRenderer | Gfxstream | CrossDomain.

#[export] Instance ComponentType_eq_dec : EqDecision RutabagaComponentType.
Proof. solve_decision. Defined.

Definition component_bit (t : RutabagaComponentType) : Z :=
  match t with Rutabaga2D => 0 | VirglRenderer => 1 | Gfxstream => 2 | CrossDomain => 3 end.

Record Rutabaga2DInfo := mkInfo2D { i2_width : Z; i2_height : Z; host_mem : list byte }.

Record RutabagaResource := mkResource {
  resource_id : Z; handle : option ArcHandle; blob : bool; blob_mem : Z; blob_flags : Z; map_info : option Z;
  info_2d : option Rutabaga2DInfo; info_3d : option Resource3DInfo; vulkan_info : option VulkanInfo;
  backing_iovecs : option (list RutabagaIovec); component_mask : Z; size : Z; mapping : option RutabagaMapping }.

Definition set_handle (r : RutabagaResource) (h : option ArcHandle) : RutabagaResource :=
  mkResource (resource_id r) h (blob r) (blob_mem r) (blob_flags r) (map_info r) (info_2d r) (info_3d r) (vulkan_info r)
    (backing_iovecs r) (component_mask r) (size r) (mapping r).

Definition set_info_2d (r : RutabagaResource) (i : option Rutabaga2DInfo) : RutabagaResource :=
  mkResource (resource_id r) (handle r) (blob r) (blob_mem r) (blob_flags r) (map_info r) i (info_3d r) (vulkan_info r)
    (backing_iovecs r) (component_mask r) (size r) (mapping r).

Definition set_backing (r : RutabagaResource) (v : option (list RutabagaIovec)) : RutabagaResource :=
  mkResource (resource_id r) (handle r) (blob r) (blob_mem r) (blob_flags r) (map_info r) (info_2d r) (info_3d r) (vulkan_info r)
    v (component_mask r) (size r) (mapping r).

Definition set_mapping (r : RutabagaResource) (m : option RutabagaMapping) : RutabagaResource :=
  mkResource (resource_id r) (handle r) (blob r) (blob_mem r) (blob_flags r) (map_info r) (info_2d r) (info_3d r) (vulkan_info r)
    (backing_iovecs r) (component_mask r) (size r) m.

(** What a resource is unless its component says otherwise: the body of
    [RutabagaComponent::create_3d]. *)
Definition default_resource (id : Z) : RutabagaResource := mkResource id None false 0 0 None None None None None 0 0 None.

(** ** Capability sets *)

Record RutabagaCapsetInfo := mkCapset { capset_id : Z; component : RutabagaComponentType; name : string }.

Definition RUTABAGA_CAPSETS : list RutabagaCapsetInfo := [
  mkCapset RUTABAGA_CAPSET_VIRGL VirglRenderer "virgl";
  mkCapset RUTABAGA_CAPSET_VIRGL2 VirglRenderer "virgl2";
  mkCapset RUTABAGA_CAPSET_GFXSTREAM_VULKAN Gfxstream "gfxstream-vulkan";
  mkCapset RUTABAGA_CAPSET_VENUS VirglRenderer "venus";
  mkCapset RUTABAGA_CAPSET_CROSS_DOMAIN CrossDomain "cross-domain";
  mkCapset RUTABAGA_CAPSET_DRM VirglRenderer "drm";
  mkCapset RUTABAGA_CAPSET_GFXSTREAM_MAGMA Gfxstream "gfxstream-magma";
  mkCapset RUTABAGA_CAPSET_GFXSTREAM_GLES Gfxstream "gfxstream-gles";
  mkCapset RUTABAGA_CAPSET_GFXSTREAM_COMPOSER Gfxstream "gfxstream-composer" ].

Definition calculate_capset_mask (context_names : list string) : Z :=
  foldl (fun mask n => match list_find (fun c => name c = n) RUTABAGA_CAPSETS with Some (_, c) => mask .| (1 .<< capset_id c) | None => mask end)
    0 context_names.

Definition calculate_capset_names (capset_mask : Z) : list string :=
  name <$> filter (fun c => (capset_mask .& (1 .<< capset_id c)) <> 0) RUTABAGA_CAPSETS.

(** [count_ones] and [trailing_zeros] of a byte. *)
Definition count_ones (m : Z) : nat := length (filter (fun i => Z.testbit m i = true) (seqZ 0 8)).
Definition trailing_zeros (m : Z) : option Z := head (filter (fun i => Z.testbit m i = true) (seqZ 0 8)).

Definition calculate_component (component_mask : Z) : RutabagaResult RutabagaComponentType :=
  if negb (count_ones component_mask =? 1)%nat then Err SpecViolation
  else
    match trailing_zeros component_mask with
    | Some 0 => Ok Rutabaga2D
    | Some 1 => Ok VirglRenderer
    | Some 2 => Ok Gfxstream
    | Some 3 => Ok CrossDomain
    | _ => Err InvalidComponent
    end.

(** ** The components

    [G]: the state of the libraries behind the components.  A context is known
    to its component under its identifier; the methods take [&self] where the
    libraries keep their state to themselves, so every one may change [G]. *)
Class Graphics (G : Type) := {
  c_get_capset_info : RutabagaComponentType -> Z -> G -> Z * Z;
  c_get_capset : RutabagaComponentType -> Z -> Z -> G -> list byte;
  c_force_ctx_0 : RutabagaComponentType -> G -> G;
  c_create_fence : RutabagaComponentType -> RutabagaFence -> G -> RutabagaResult unit * list RutabagaFence * G;
  c_create_3d : RutabagaComponentType -> Z -> ResourceCreate3D -> G -> RutabagaResult RutabagaResource * G;
  c_attach_backing : RutabagaComponentType -> Z -> list RutabagaIovec -> G -> RutabagaResult (list RutabagaIovec) * G;
  c_detach_backing : RutabagaComponentType -> Z -> G -> G;
  c_unref_resource : RutabagaComponentType -> Z -> G -> G;
  c_transfer_write : RutabagaComponentType -> Z -> RutabagaResource -> Transfer3D -> G -> RutabagaResult unit * RutabagaResource * G;
  c_transfer_read : RutabagaComponentType -> Z -> RutabagaResource -> Transfer3D -> option (list byte) -> G ->
    RutabagaResult unit * RutabagaResource * option (list byte) * G;
  c_resource_flush : RutabagaComponentType -> RutabagaResource -> G -> RutabagaResult unit * RutabagaResource * G;
  c_create_blob : RutabagaComponentType -> Z -> Z -> ResourceCreateBlob -> option (list RutabagaIovec) -> option RutabagaHandle -> G ->
    RutabagaResult RutabagaResource * G;
  c_resource_map : RutabagaComponentType -> Z -> Z -> Z -> Z -> Z -> G -> RutabagaResult unit * G;
  c_map : RutabagaComponentType -> Z -> G -> RutabagaResult RutabagaMapping * G;
  c_unmap : RutabagaComponentType -> Z -> G -> RutabagaResult unit * G;
  c_export_fence : RutabagaComponentType -> Z -> G -> RutabagaResult RutabagaHandle * G;
  c_create_context : RutabagaComponentType -> Z -> Z -> option string -> G -> RutabagaResult unit * G;
  (** dropping a context *)
  x_drop : RutabagaComponentType -> Z -> G -> G;
  x_create_blob : RutabagaComponentType -> Z -> Z -> ResourceCreateBlob -> option RutabagaHandle -> G -> RutabagaResult RutabagaResource * G;
  x_submit_cmd : RutabagaComponentType -> Z -> list byte -> list Z -> G -> RutabagaResult unit * G;
  x_attach : RutabagaComponentType -> Z -> RutabagaResource -> G -> RutabagaResource * G;
  x_detach : RutabagaComponentType -> Z -> RutabagaResource -> G -> G;
  x_create_fence : RutabagaComponentType -> Z -> RutabagaFence -> G -> RutabagaResult unit * list RutabagaFence * G;
  (** [try_clone] of a descriptor and [MemoryMapping::from_safe_descriptor] *)
  os_try_clone : Z -> G -> option Z * G;
  os_map : Z -> Z -> Z -> G -> RutabagaResult RutabagaMapping * G }.

Section rutabaga.
Context {G : Type} `{Graphics G}.

(** [contexts]: the component of every context; [components]: those that were
    built. *)
Record Rutabaga := mkRutabaga {
  resources : gmap Z RutabagaResource;
  contexts : gmap Z RutabagaComponentType;
  components : list RutabagaComponentType;
  default_component : RutabagaComponentType;
  capset_info : list RutabagaCapsetInfo;
  gfx : G }.

Definition set_resources (r : Rutabaga) (m : gmap Z RutabagaResource) (g : G) : Rutabaga :=
  mkRutabaga m (contexts r) (components r) (default_component r) (capset_info r) g.

Definition set_contexts (r : Rutabaga) (m : gmap Z RutabagaComponentType) (g : G) : Rutabaga :=
  mkRutabaga (resources r) m (components r) (default_component r) (capset_info r) g.

Definition set_gfx (r : Rutabaga) (g : G) : Rutabaga := set_resources r (resources r) g.

(** [self.components.get(&t)] *)
Definition get_component (r : Rutabaga) (t : RutabagaComponentType) : RutabagaResult RutabagaComponentType :=
  if bool_decide (t ∈ components r) then Ok t else Err InvalidComponent.

Definition get_resource (r : Rutabaga) (id : Z) : RutabagaResult RutabagaResource :=
  match resources r !! id with Some x => Ok x | None => Err InvalidResourceId end.

Definition get_context (r : Rutabaga) (id : Z) : RutabagaResult RutabagaComponentType :=
  match contexts r !! id with Some x => Ok x | None => Err InvalidContextId end.

(** A [?] on a lookup in a method that changes the state. *)
Definition try_in {A B} (r : Rutabaga) (o : RutabagaResult A) (f : A -> RutabagaResult B * Rutabaga) : RutabagaResult B * Rutabaga :=
  match o with Ok a => f a | Err e => (Err e, r) end.

Definition capset_id_to_component_type (r : Rutabaga) (capset : Z) : RutabagaResult RutabagaComponentType :=
  match list_find (fun c => capset_id c = capset) (capset_info r) with Some (_, c) => Ok (component c) | None => Err InvalidCapset end.

Definition capset_index_to_component_info (r : Rutabaga) (index : Z) : RutabagaResult RutabagaCapsetInfo :=
  match capset_info r !! Z.to_nat index with Some c => Ok c | None => Err InvalidCapset end.

Definition get_capset_info (r : Rutabaga) (index : Z) : RutabagaResult (Z * Z * Z) :=
  info ← capset_index_to_component_info r index;
  t ← get_component r (component info);
  let '(version, sz) := c_get_capset_info t (capset_id info) (gfx r) in
  Ok (capset_id info, version, sz).

(** The component of a capability set, the default one for an unknown set. *)
Definition component_of_capset (r : Rutabaga) (capset : Z) : RutabagaComponentType :=
  match capset_id_to_component_type r capset with Ok t => t | Err _ => default_component r end.

Definition get_capset (r : Rutabaga) (capset version : Z) : RutabagaResult (list byte) :=
  t ← get_component r (component_of_capset r capset);
  Ok (c_get_capset t capset version (gfx r)).

Definition get_num_capsets (r : Rutabaga) : Z := wrap 32 (Z.of_nat (length (capset_info r))).

Definition force_ctx_0 (r : Rutabaga) : Rutabaga :=
  match get_component r (default_component r) with Ok t => set_gfx r (c_force_ctx_0 t (gfx r)) | Err _ => r end.

(** Also the fences that were signalled before the call returned. *)
Definition create_fence (r : Rutabaga) (fence : RutabagaFence) : RutabagaResult unit * list RutabagaFence * Rutabaga :=
  if negb (f_flags fence .& RUTABAGA_FLAG_INFO_RING_IDX =? 0) then
    match get_context r (f_ctx_id fence) with
    | Err e => (Err e, [], r)
    | Ok t => let '(res, done, g) := x_create_fence t (f_ctx_id fence) fence (gfx r) in (res, done, set_gfx r g)
    end
  else
    match get_component r (default_component r) with
    | Err e => (Err e, [], r)
    | Ok t => let '(res, done, g) := c_create_fence t fence (gfx r) in (res, done, set_gfx r g)
    end.

Definition resource_create_3d (r : Rutabaga) (id : Z) (create : ResourceCreate3D) : RutabagaResult unit * Rutabaga :=
  try_in r (get_component r (default_component r)) (fun t =>
    match resources r !! id with
    | Some _ => (Err InvalidResourceId, r)
    | None =>
        let '(res, g) := c_create_3d t id create (gfx r) in
        match res with
        | Ok x => (Ok tt, set_resources r (<[id := x]> (resources r)) g)
        | Err e => (Err e, set_gfx r g)
        end
    end).

Definition attach_backing (r : Rutabaga) (id : Z) (vecs : list RutabagaIovec) : RutabagaResult unit * Rutabaga :=
  try_in r (get_component r (default_component r)) (fun t =>
    try_in r (get_resource r id) (fun x =>
      let '(res, g) := c_attach_backing t id vecs (gfx r) in
      match res with
      | Ok vecs => (Ok tt, set_resources r (<[id := set_backing x (Some vecs)]> (resources r)) g)
      | Err e => (Err e, set_gfx r g)
      end)).

Definition detach_backing (r : Rutabaga) (id : Z) : RutabagaResult unit * Rutabaga :=
  try_in r (get_component r (default_component r)) (fun t =>
    try_in r (get_resource r id) (fun x =>
      (Ok tt, set_resources r (<[id := set_backing x None]> (resources r)) (c_detach_backing t id (gfx r))))).

Definition unref_resource (r : Rutabaga) (id : Z) : RutabagaResult unit * Rutabaga :=
  try_in r (get_component r (default_component r)) (fun t =>
    try_in r (get_resource r id) (fun _ => (Ok tt, set_resources r (delete id (resources r)) (c_unref_resource t id (gfx r))))).

Definition transfer_write (r : Rutabaga) (ctx id : Z) (t3 : Transfer3D) : RutabagaResult unit * Rutabaga :=
  try_in r (get_component r (default_component r)) (fun t =>
    try_in r (get_resource r id) (fun x =>
      let '(res, x, g) := c_transfer_write t ctx x t3 (gfx r) in (res, set_resources r (<[id := x]> (resources r)) g))).

Definition transfer_read (r : Rutabaga) (ctx id : Z) (t3 : Transfer3D) (buf : option (list byte)) :
    RutabagaResult (option (list byte)) * Rutabaga :=
  try_in r (get_component r (default_component r)) (fun t =>
    try_in r (get_resource r id) (fun x =>
      let '(res, x, buf, g) := c_transfer_read t ctx x t3 buf (gfx r) in
      (match res with Ok _ => Ok buf | Err e => Err e end, set_resources r (<[id := x]> (resources r)) g))).

Definition resource_flush (r : Rutabaga) (id : Z) : RutabagaResult unit * Rutabaga :=
  try_in r (match get_component r (default_component r) with Ok t => Ok t | Err _ => Err Unsupported end) (fun t =>
    try_in r (get_resource r id) (fun x =>
      let '(res, x, g) := c_resource_flush t x (gfx r) in (res, set_resources r (<[id := x]> (resources r)) g))).

Definition resource_create_blob (r : Rutabaga) (ctx_id id : Z) (create : ResourceCreateBlob) (iovecs : option (list RutabagaIovec))
    (hnd : option RutabagaHandle) : RutabagaResult unit * Rutabaga :=
  match resources r !! id with
  | Some _ => (Err InvalidResourceId, r)
  | None =>
      try_in r (get_component r (default_component r)) (fun t =>
        try_in r (if 0 <? ctx_id then
                    ctx ← get_context r ctx_id; Ok (if decide (ctx = CrossDomain) then Some ctx else None)
                  else Ok None) (fun context =>
          let '(res, g) := match context with
                           | Some ctx => x_create_blob ctx ctx_id id create hnd (gfx r)
                           | None => c_create_blob t ctx_id id create iovecs hnd (gfx r)
                           end in
          match res with
          | Ok x => (Ok tt, set_resources r (<[id := x]> (resources r)) g)
          | Err e => (Err e, set_gfx r g)
          end))
  end.

Definition resource_map (r : Rutabaga) (id addr sz prot flags : Z) : RutabagaResult unit * Rutabaga :=
  try_in r (get_resource r id) (fun x =>
    try_in r (calculate_component (component_mask x)) (fun ct =>
      if decide (ct = CrossDomain) then (Ok tt, set_resources r (<[id := set_mapping x None]> (resources r)) (gfx r))
      else
        try_in r (get_component r ct) (fun t =>
          let '(res, g) := c_resource_map t id addr sz prot flags (gfx r) in (res, set_gfx r g)))).

(** [handle.try_clone] *)
Definition try_clone (hnd : RutabagaHandle) (g : G) : RutabagaResult RutabagaHandle * G :=
  let '(o, g) := os_try_clone (os_handle hnd) g in
  (match o with Some fd => Ok (mkHandle fd (handle_type hnd)) | None => Err InvalidRutabagaHandle end, g).

(** An error after [handle.take()] leaves the resource without its handle. *)
Definition map (r : Rutabaga) (id : Z) : RutabagaResult RutabagaMapping * Rutabaga :=
  try_in r (get_resource r id) (fun x =>
    try_in r (calculate_component (component_mask x)) (fun ct =>
      if decide (ct = CrossDomain) then
        match handle x with
        | None => (Err SpecViolation, r)
        | Some hnd =>
            let taken g := set_resources r (<[id := set_handle x None]> (resources r)) g in
            if negb (handle_type (arc_handle hnd) =? RUTABAGA_MEM_HANDLE_TYPE_SHM) then (Err SpecViolation, taken (gfx r))
            else
              let '(clone, g) := try_clone (arc_handle hnd) (gfx r) in
              match clone, map_info x with
              | Err e, _ => (Err e, taken g)
              | Ok _, None => (Err SpecViolation, taken g)
              | Ok clone, Some info =>
                  let '(res, g) := os_map (os_handle clone) (size x) info g in
                  match res with
                  | Err e => (Err e, taken g)
                  | Ok m => (Ok m, set_resources r (<[id := set_mapping x (Some m)]> (resources r)) g)
                  end
              end
        end
      else
        try_in r (get_component r ct) (fun t => let '(res, g) := c_map t id (gfx r) in (res, set_gfx r g)))).

Definition unmap (r : Rutabaga) (id : Z) : RutabagaResult unit * Rutabaga :=
  try_in r (get_resource r id) (fun x =>
    try_in r (calculate_component (component_mask x)) (fun ct =>
      if decide (ct = CrossDomain) then (Ok tt, set_resources r (<[id := set_mapping x None]> (resources r)) (gfx r))
      else
        try_in r (get_component r ct) (fun t => let '(res, g) := c_unmap t id (gfx r) in (res, set_gfx r g)))).

Definition get_map_info (r : Rutabaga) (id : Z) : RutabagaResult Z :=
  x ← get_resource r id; match map_info x with Some i => Ok i | None => Err SpecViolation end.

Definition get_vulkan_info (r : Rutabaga) (id : Z) : RutabagaResult VulkanInfo :=
  x ← get_resource r id; match vulkan_info x with Some i => Ok i | None => Err InvalidVulkanInfo end.

Definition query (r : Rutabaga) (id : Z) : RutabagaResult Resource3DInfo :=
  x ← get_resource r id; match info_3d x with Some i => Ok i | None => Err SpecViolation end.

(** A shareable resource keeps its handle unless the copy fails; another gives
    it away, or loses it when it is still referred to elsewhere. *)
Definition export_blob (r : Rutabaga) (id : Z) : RutabagaResult RutabagaHandle * Rutabaga :=
  try_in r (get_resource r id) (fun x =>
    let share_mask := RUTABAGA_BLOB_FLAG_USE_SHAREABLE .| RUTABAGA_BLOB_FLAG_USE_CROSS_DEVICE in
    let shareable := negb (blob_flags x .& share_mask =? 0) || negb (blob x) in
    let taken g := set_resources r (<[id := set_handle x None]> (resources r)) g in
    match handle x with
    | None => (Err InvalidRutabagaHandle, taken (gfx r))
    | Some hnd =>
        if shareable then
          let '(clone, g) := try_clone (arc_handle hnd) (gfx r) in
          match clone with
          | Err e => (Err e, taken g)
          | Ok c => (Ok c, set_gfx r g)
          end
        else if (strong hnd =? 1)%nat then (Ok (arc_handle hnd), taken (gfx r))
        else (Err InvalidRutabagaHandle, taken (gfx r))
    end).

Definition export_fence (r : Rutabaga) (fence : Z) : RutabagaResult RutabagaHandle * Rutabaga :=
  try_in r (get_component r (default_component r)) (fun t => let '(res, g) := c_export_fence t fence (gfx r) in (res, set_gfx r g)).

Definition create_context (r : Rutabaga) (ctx_id context_init : Z) (context_name : option string) : RutabagaResult unit * Rutabaga :=
  let capset := context_init .& RUTABAGA_CONTEXT_INIT_CAPSET_ID_MASK in
  try_in r (get_component r (component_of_capset r capset)) (fun t =>
    match contexts r !! ctx_id with
    | Some _ => (Err InvalidContextId, r)
    | None =>
        let '(res, g) := c_create_context t ctx_id context_init context_name (gfx r) in
        match res with
        | Ok _ => (Ok tt, set_contexts r (<[ctx_id := t]> (contexts r)) g)
        | Err e => (Err e, set_gfx r g)
        end
    end).

Definition destroy_context (r : Rutabaga) (ctx_id : Z) : RutabagaResult unit * Rutabaga :=
  try_in r (get_context r ctx_id) (fun t => (Ok tt, set_contexts r (delete ctx_id (contexts r)) (x_drop t ctx_id (gfx r)))).

Definition context_attach_resource (r : Rutabaga) (ctx_id id : Z) : RutabagaResult unit * Rutabaga :=
  try_in r (get_context r ctx_id) (fun t =>
    try_in r (get_resource r id) (fun x =>
      let '(x, g) := x_attach t ctx_id x (gfx r) in (Ok tt, set_resources r (<[id := x]> (resources r)) g))).

Definition context_detach_resource (r : Rutabaga) (ctx_id id : Z) : RutabagaResult unit * Rutabaga :=
  try_in r (get_context r ctx_id) (fun t =>
    try_in r (get_resource r id) (fun x => (Ok tt, set_gfx r (x_detach t ctx_id x (gfx r))))).

Definition submit_command (r : Rutabaga) (ctx_id : Z) (commands : list byte) (fence_ids : list Z) : RutabagaResult unit * Rutabaga :=
  try_in r (get_context r ctx_id) (fun t =>
    let '(res, g) := x_submit_cmd t ctx_id commands fence_ids (gfx r) in (res, set_gfx r g)).

(** ** Building

    [feature]: whether a component is compiled in; [init]: whether its library
    starts. *)
Record RutabagaBuilder := mkBuilder {
  display_width : Z; display_height : Z; b_default_component : RutabagaComponentType; virglrenderer_flags : Z; capset_mask : Z }.

Definition RutabagaBuilder_new (default : RutabagaComponentType) (virgl_flags capset_mask : Z) : RutabagaBuilder :=
  mkBuilder RUTABAGA_DEFAULT_WIDTH RUTABAGA_DEFAULT_HEIGHT default virgl_flags capset_mask.

Definition capset_enabled (b : RutabagaBuilder) (id : Z) : bool := negb (capset_mask b .& (1 .<< id) =? 0).

Definition push_capset (b : RutabagaBuilder) (id : Z) (l : list RutabagaCapsetInfo) : list RutabagaCapsetInfo :=
  match list_find (fun c => capset_id c = id) RUTABAGA_CAPSETS with
  | Some (_, c) => if (capset_mask b =? 0) || capset_enabled b (capset_id c) then l ++ [c] else l
  | None => l
  end.

Definition push_capsets (b : RutabagaBuilder) (ids : list Z) : list RutabagaCapsetInfo := fold_left (fun l id => push_capset b id l) ids [].

(** The component a mask of capability sets asks for. *)
Definition built_default (b : RutabagaBuilder) : RutabagaComponentType :=
  if capset_mask b =? 0 then b_default_component b
  else if existsb (capset_enabled b) [RUTABAGA_CAPSET_GFXSTREAM_VULKAN; RUTABAGA_CAPSET_GFXSTREAM_MAGMA; RUTABAGA_CAPSET_GFXSTREAM_GLES; RUTABAGA_CAPSET_GFXSTREAM_COMPOSER]
  then Gfxstream
  else if existsb (capset_enabled b) [RUTABAGA_CAPSET_VIRGL2; RUTABAGA_CAPSET_VENUS; RUTABAGA_CAPSET_DRM] then VirglRenderer
  else CrossDomain.

Definition build (b : RutabagaBuilder) (feature : RutabagaComponentType -> bool) (init : RutabagaComponentType -> RutabagaResult unit) (g : G)
    : RutabagaResult Rutabaga :=
  let d := built_default b in
  let make comps capsets := Ok (mkRutabaga ∅ ∅ comps d capsets g) in
  match d with
  | Rutabaga2D => _ ← init Rutabaga2D; make [Rutabaga2D] []
  | VirglRenderer =>
      if negb (feature VirglRenderer) then Err InvalidRutabagaBuild
      else
        _ ← init VirglRenderer; _ ← init CrossDomain;
        make [VirglRenderer; CrossDomain]
          (push_capsets b [RUTABAGA_CAPSET_VIRGL; RUTABAGA_CAPSET_VIRGL2; RUTABAGA_CAPSET_VENUS; RUTABAGA_CAPSET_DRM; RUTABAGA_CAPSET_CROSS_DOMAIN])
  | Gfxstream =>
      if negb (feature Gfxstream) then Err InvalidRutabagaBuild
      else
        _ ← init Gfxstream; _ ← init CrossDomain;
        make [Gfxstream; CrossDomain]
          (push_capsets b [RUTABAGA_CAPSET_GFXSTREAM_VULKAN; RUTABAGA_CAPSET_GFXSTREAM_MAGMA; RUTABAGA_CAPSET_GFXSTREAM_GLES;
                 RUTABAGA_CAPSET_GFXSTREAM_COMPOSER; RUTABAGA_CAPSET_CROSS_DOMAIN])
  | CrossDomain => _ ← init CrossDomain; make [CrossDomain] (push_capsets b [RUTABAGA_CAPSET_CROSS_DOMAIN])
  end.

(** ** Requests *)

Inductive request :=
| Create3d (id : Z) (create : ResourceCreate3D)
| CreateBlob (ctx_id id : Z) (create : ResourceCreateBlob) (iovecs : option (list RutabagaIovec)) (hnd : option RutabagaHandle)
| Unref (id : Z)
| Attach (id : Z) (vecs : list RutabagaIovec)
| Detach (id : Z)
| TransferWrite (ctx_id id : Z) (t : Transfer3D)
| TransferRead (ctx_id id : Z) (t : Transfer3D) (buf : option (list byte))
| Flush (id : Z)
| MapAt (id addr sz prot flags : Z)
| Map (id : Z)
| Unmap (id : Z)
| Export (id : Z)
| ExportFence (fence : Z)
| CreateContext (ctx_id context_init : Z) (context_name : option string)
| DestroyContext (ctx_id : Z)
| AttachResource (ctx_id id : Z)
| DetachResource (ctx_id id : Z)
| Submit (ctx_id : Z) (commands : list byte) (fence_ids : list Z)
| Fence (fence : RutabagaFence)
| ForceCtx0.

Definition is_ok {A} (r : RutabagaResult A) : bool := match r with Ok _ => true | Err _ => false end.

(** Whether the request succeeds, and the state after it. *)
Definition exec (r : Rutabaga) (q : request) : bool * Rutabaga :=
  let done {A} (p : RutabagaResult A * Rutabaga) := (is_ok (fst p), snd p) in
  match q with
  | Create3d id c => done (resource_create_3d r id c)
  | CreateBlob ctx id c v h => done (resource_create_blob r ctx id c v h)
  | Unref id => done (unref_resource r id)
  | Attach id v => done (attach_backing r id v)
  | Detach id => done (detach_backing r id)
  | TransferWrite ctx id t => done (transfer_write r ctx id t)
  | TransferRead ctx id t buf => done (transfer_read r ctx id t buf)
  | Flush id => done (resource_flush r id)
  | MapAt id addr sz prot flags => done (resource_map r id addr sz prot flags)
  | Map id => done (map r id)
  | Unmap id => done (unmap r id)
  | Export id => done (export_blob r id)
  | ExportFence f => done (export_fence r f)
  | CreateContext ctx init nm => done (create_context r ctx init nm)
  | DestroyContext ctx => done (destroy_context r ctx)
  | AttachResource ctx id => done (context_attach_resource r ctx id)
  | DetachResource ctx id => done (context_detach_resource r ctx id)
  | Submit ctx c f => done (submit_command r ctx c f)
  | Fence f => let '(res, _, r) := create_fence r f in (is_ok res, r)
  | ForceCtx0 => (true, force_ctx_0 r)
  end.

(** ** What a request means for the tables *)

(** The identifiers in use, and the component of every context. *)
Definition tables (r : Rutabaga) : gset Z * gmap Z RutabagaComponentType := (dom (resources r), contexts r).

(** What a successful request needs. *)
Definition needs (r : Rutabaga) (q : request) : Prop :=
  let '(ids, ctxs) := tables r in
  match q with
  | Create3d id _ => id ∉ ids
  | CreateBlob ctx id _ _ _ => id ∉ ids /\ (0 < ctx -> is_Some (ctxs !! ctx))
  | Unref id | Attach id _ | Detach id | TransferWrite _ id _ | TransferRead _ id _ _ | Flush id | MapAt id _ _ _ _ | Map id | Unmap id | Export id => id ∈ ids
  | CreateContext ctx _ _ => ctxs !! ctx = None
  | DestroyContext ctx | Submit ctx _ _ => is_Some (ctxs !! ctx)
  | AttachResource ctx id | DetachResource ctx id => is_Some (ctxs !! ctx) /\ id ∈ ids
  | Fence f => (f_flags f .& RUTABAGA_FLAG_INFO_RING_IDX) <> 0 -> is_Some (ctxs !! f_ctx_id f)
  | ExportFence _ | ForceCtx0 => True
  end.

(** What it does to them. *)
Definition effect (r : Rutabaga) (q : request) : gset Z * gmap Z RutabagaComponentType :=
  let '(ids, ctxs) := tables r in
  match q with
  | Create3d id _ | CreateBlob _ id _ _ _ => ({[id]} ∪ ids, ctxs)
  | Unref id => (ids ∖ {[id]}, ctxs)
  | CreateContext ctx init _ => (ids, <[ctx := component_of_capset r (init .& RUTABAGA_CONTEXT_INIT_CAPSET_ID_MASK)]> ctxs)
  | DestroyContext ctx => (ids, delete ctx ctxs)
  | _ => (ids, ctxs)
  end.

(** The components and capability sets never change. *)
Definition same_build (r r' : Rutabaga) : Prop :=
  components r' = components r /\ default_component r' = default_component r /\ capset_info r' = capset_info r.

(** Every context has a component that was built, and so has every capability
    set that is offered. *)
Record well_built (r : Rutabaga) : Prop := {
  wb_default : default_component r ∈ components r;
  wb_contexts i t : contexts r !! i = Some t -> t ∈ components r;
  wb_capsets c : c ∈ capset_info r -> component c ∈ components r }.

Lemma dom_known (m : gmap Z RutabagaResource) id a x : m !! id = Some a -> dom (<[id := x]> m) = dom m.
Proof. intros E. rewrite dom_insert_L. apply elem_of_dom_2 in E. set_solver. Qed.

(** The outcome of an operation satisfies [P]. *)
Definition post {A} (P : bool -> Rutabaga -> Prop) (p : RutabagaResult A * Rutabaga) : Prop := P (is_ok (fst p)) (snd p).

Lemma post_try {A B} P r (o : RutabagaResult A) (f : A -> RutabagaResult B * Rutabaga) :
  (forall a, o = Ok a -> post P (f a)) -> P false r -> post P (try_in r o f).
Proof. intros Hf He. unfold try_in. destruct o; [by apply Hf|done]. Qed.

Lemma get_resource_ok r id x : get_resource r id = Ok x -> resources r !! id = Some x.
Proof. unfold get_resource. destruct (resources r !! id); congruence. Qed.

Lemma get_context_ok r id t : get_context r id = Ok t -> contexts r !! id = Some t.
Proof. unfold get_context. destruct (contexts r !! id); congruence. Qed.

Lemma get_component_ok r t t' : get_component r t = Ok t' -> t' = t /\ t ∈ components r.
Proof. unfold get_component. case_bool_decide; [|done]. by intros [= ->]. Qed.

Definition follows (r : Rutabaga) (q : request) (ok : bool) (r' : Rutabaga) : Prop :=
  same_build r r' /\ (if ok then needs r q /\ tables r' = effect r q else tables r' = tables r).

(** Takes an operation apart: every lookup, test and answer of a component. *)
Ltac operation :=
  repeat match goal with
  | |- post _ (try_in _ _ _) => apply post_try; [intros ? ?|]
  | |- post _ (_, _) => unfold post; cbn [fst snd is_ok]
  | |- post _ (match ?e with _ => _ end) => destruct e eqn:?
  | |- context [is_ok (match ?e with _ => _ end)] => destruct e; cbn [is_ok]
  | |- context [is_ok ?res] => is_var res; destruct res; cbn [is_ok]
  | H : get_resource _ _ = Ok _ |- _ => apply get_resource_ok in H
  | H : get_context _ _ = Ok _ |- _ => apply get_context_ok in H
  | H : get_component _ _ = Ok _ |- _ => apply get_component_ok in H as [-> ?]
  end.

(** Closes a case in which the tables are as they should be. *)
Ltac settle :=
  split; [done|]; unfold needs, effect, tables; cbn - [dom];
  repeat match goal with
  | E : resources ?r !! ?i = Some ?x |- _ => rewrite ?(dom_known (resources r) i x) by exact E; apply elem_of_dom_2 in E
  | E : resources ?r !! ?i = None |- _ => apply not_elem_of_dom_2 in E
  end; rewrite ?dom_insert_L, ?dom_delete_L; eauto 6.

Lemma follows_Create3d r id c : post (follows r (Create3d id c)) (resource_create_3d r id c).
Proof. unfold resource_create_3d, try_clone; operation; settle. Qed.

Lemma follows_CreateBlob r ctx id c v h : post (follows r (CreateBlob ctx id c v h)) (resource_create_blob r ctx id c v h).
Proof.
  unfold resource_create_blob; operation; settle;
    (split; [split; [done|]|done]); intros Hc; destruct (Z.ltb_spec 0 ctx); try lia;
    match goal with E : mbind _ _ = Ok _ |- _ => unfold get_context in E; destruct (contexts r !! ctx); [by eexists|discriminate E] end.
Qed.

Lemma follows_Unref r id : post (follows r (Unref id)) (unref_resource r id).
Proof. unfold unref_resource, try_clone; operation; settle. Qed.

Lemma follows_Attach r id v : post (follows r (Attach id v)) (attach_backing r id v).
Proof. unfold attach_backing, try_clone; operation; settle. Qed.

Lemma follows_Detach r id : post (follows r (Detach id)) (detach_backing r id).
Proof. unfold detach_backing, try_clone; operation; settle. Qed.

Lemma follows_TransferWrite r ctx id t : post (follows r (TransferWrite ctx id t)) (transfer_write r ctx id t).
Proof. unfold transfer_write, try_clone; operation; settle. Qed.

Lemma follows_TransferRead r ctx id t b : post (follows r (TransferRead ctx id t b)) (transfer_read r ctx id t b).
Proof. unfold transfer_read, try_clone; operation; settle. Qed.

Lemma follows_Flush r id : post (follows r (Flush id)) (resource_flush r id).
Proof. unfold resource_flush, try_clone; operation; settle. Qed.

Lemma follows_MapAt r id a z p f : post (follows r (MapAt id a z p f)) (resource_map r id a z p f).
Proof. unfold resource_map, try_clone; operation; settle. Qed.

Lemma follows_Map r id : post (follows r (Map id)) (map r id).
Proof. unfold map, try_clone; operation; settle. Qed.

Lemma follows_Unmap r id : post (follows r (Unmap id)) (unmap r id).
Proof. unfold unmap, try_clone; operation; settle. Qed.

Lemma follows_Export r id : post (follows r (Export id)) (export_blob r id).
Proof. unfold export_blob, try_clone; operation; settle. Qed.

Lemma follows_ExportFence r f : post (follows r (ExportFence f)) (export_fence r f).
Proof. unfold export_fence, try_clone; operation; settle. Qed.

Lemma follows_CreateContext r ctx i n : post (follows r (CreateContext ctx i n)) (create_context r ctx i n).
Proof. unfold create_context, try_clone; operation; settle. Qed.

Lemma follows_DestroyContext r ctx : post (follows r (DestroyContext ctx)) (destroy_context r ctx).
Proof. unfold destroy_context, try_clone; operation; settle. Qed.

Lemma follows_AttachResource r ctx id : post (follows r (AttachResource ctx id)) (context_attach_resource r ctx id).
Proof. unfold context_attach_resource, try_clone; operation; settle. Qed.

Lemma follows_DetachResource r ctx id : post (follows r (DetachResource ctx id)) (context_detach_resource r ctx id).
Proof. unfold context_detach_resource, try_clone; operation; settle. Qed.

Lemma follows_Submit r ctx c f : post (follows r (Submit ctx c f)) (submit_command r ctx c f).
Proof. unfold submit_command, try_clone; operation; settle. Qed.

Lemma follows_Fence r f : follows r (Fence f) (is_ok (create_fence r f).1.1) (create_fence r f).2.
Proof.
  unfold create_fence, get_context, get_component. destruct (Z.eqb_spec (f_flags f .& RUTABAGA_FLAG_INFO_RING_IDX) 0); cbn [negb].
  - case_bool_decide; [|by settle]. destruct (c_create_fence _ _ _) as [[[] ?] ?]; cbn; settle; (split; [|done]); congruence.
  - destruct (contexts r !! _) eqn:E; [|by settle]. destruct (x_create_fence _ _ _ _) as [[[] ?] ?]; cbn; settle. 
Qed.

Lemma exec_follows r q : follows r q (exec r q).1 (exec r q).2.
Proof.
  destruct q; cbn [exec];
    [apply follows_Create3d|apply follows_CreateBlob|apply follows_Unref|apply follows_Attach|apply follows_Detach|apply follows_TransferWrite
    |apply follows_TransferRead|apply follows_Flush|apply follows_MapAt|apply follows_Map|apply follows_Unmap|apply follows_Export|apply follows_ExportFence
    |apply follows_CreateContext|apply follows_DestroyContext|apply follows_AttachResource|apply follows_DetachResource|apply follows_Submit| |].
  - pose proof (follows_Fence r fence) as Hf. by destruct (create_fence r fence) as [[res dn] r'].
  - unfold force_ctx_0. destruct (get_component _ _); by split_and!.
Qed.

(** C19. The tables follow the requests: a request succeeds only when the
    identifiers it names are known, or for a creation unknown; then it has
    exactly the effect it should; a failing request leaves both tables as they
    are, whatever the components answer. *)
Theorem tables_follow r q :
  let '(ok, r') := exec r q in
  same_build r r' /\ (if ok then needs r q /\ tables r' = effect r q else tables r' = tables r).
Proof. pose proof (exec_follows r q). by destruct (exec r q). Qed.

Lemma component_built r capset : well_built r -> component_of_capset r capset ∈ components r.
Proof.
  intros [Hd _ Hc]. unfold component_of_capset, capset_id_to_component_type. destruct (list_find _ _) as [[i c]|] eqn:E; [|done].
  apply list_find_Some in E as (El & _ & _). apply Hc. by eapply list_elem_of_lookup_2.
Qed.

(** Requests keep every context with a component that was built. *)
Lemma follows_well_built r q ok r' : follows r q ok r' -> well_built r -> well_built r'.
Proof.
  intros [(Ec & Ed & Ei) Ht] Hw.
  assert (contexts r' = contexts r \/ (exists i t, t ∈ components r /\ contexts r' = <[i := t]> (contexts r)) \/ exists i, contexts r' = delete i (contexts r)) as Hx.
  { destruct ok; [destruct Ht as [_ Ht]|by left; injection Ht]. unfold tables, effect, tables in Ht. cbn in Ht.
    destruct q; injection Ht as _ E; try (by left); right; [left|right; by eexists]. do 2 eexists. split; [|exact E]. by apply component_built. }
  destruct Hw as [H1 H2 H3]. split; rewrite ?Ec, ?Ed, ?Ei; try done. intros i t. destruct Hx as [->|[(j & t' & Ht' & ->)|[j ->]]].
  - apply H2.
  - intros [[<- <-]|[_ E]]%lookup_insert_Some; [done|by eapply H2].
  - intros [_ E]%lookup_delete_Some. by eapply H2.
Qed.

(** The last reference to a known resource can always be dropped. *)
Lemma unref_known r id : well_built r -> is_Some (resources r !! id) -> fst (unref_resource r id) = Ok tt.
Proof.
  intros Hw [x Hx]. unfold unref_resource, try_in, get_component, get_resource. rewrite bool_decide_true by apply Hw. by rewrite Hx.
Qed.

(** ** Building *)

Lemma push_capset_in b id l c : c ∈ push_capset b id l -> c ∈ l \/ c ∈ RUTABAGA_CAPSETS /\ capset_id c = id.
Proof.
  unfold push_capset. destruct (list_find _ _) as [[i c']|] eqn:E; [|by left]. apply list_find_Some in E as (El & Ei & _).
  destruct (_ || _); [|by left]. intros [Hc| ->%list_elem_of_singleton]%elem_of_app; [by left|right]. split; [by eapply list_elem_of_lookup_2|done].
Qed.

Lemma push_capsets_in b ids c : c ∈ push_capsets b ids -> c ∈ RUTABAGA_CAPSETS /\ capset_id c ∈ ids.
Proof.
  unfold push_capsets. assert (forall l, c ∈ fold_left (fun l id => push_capset b id l) ids l -> c ∈ l \/ c ∈ RUTABAGA_CAPSETS /\ capset_id c ∈ ids) as Hg.
  { induction ids as [|i ids IH]; intros l; cbn; [by left|]. intros [Hc|[Hc Hi]]%IH.
    - apply push_capset_in in Hc as [Hc|[Hc <-]]; [by left|]. right. split; [done|by left].
    - right. split; [done|by right]. }
  by intros [[]%not_elem_of_nil|]%Hg.
Qed.

(** A new library: its default component is the one the capability mask asks
    for, and is built; only capability sets of built components are offered;
    there are no resources and no contexts. *)
Lemma build_well_built b feature init g r :
  build b feature init g = Ok r -> well_built r /\ default_component r = built_default b /\ tables r = (∅, ∅).
Proof.
  assert (forall c t (ids : list Z), c ∈ RUTABAGA_CAPSETS /\ capset_id c ∈ ids ->
    Forall (fun c => capset_id c ∈ ids -> component c = t \/ component c = CrossDomain) RUTABAGA_CAPSETS -> component c = t \/ component c = CrossDomain) as Hcap.
  { intros c t ids [Hc Hi] Hall. rewrite Forall_forall in Hall. by apply Hall. }
  unfold build. destruct (built_default b) eqn:Ed.
  - destruct (init Rutabaga2D); [|done]. intros [= <-]. split_and!; [|done|done]. split; cbn; [by left|done|by intros ? ?%not_elem_of_nil].
  - destruct (feature VirglRenderer); [|done]. cbn [negb]. destruct (init VirglRenderer); [|done]. destruct (init CrossDomain); [|done]. intros [= <-].
    split_and!; [|done|done]. split; cbn - [push_capsets]; [by left|done|].
    intros c Hc%push_capsets_in. destruct (Hcap c VirglRenderer _ Hc) as [->| ->]; [|by left|right; by left].
    repeat (constructor; [vm_compute; try (by left); try (by right); set_solver|]). constructor.
  - destruct (feature Gfxstream); [|done]. cbn [negb]. destruct (init Gfxstream); [|done]. destruct (init CrossDomain); [|done]. intros [= <-].
    split_and!; [|done|done]. split; cbn - [push_capsets]; [by left|done|].
    intros c Hc%push_capsets_in. destruct (Hcap c Gfxstream _ Hc) as [->| ->]; [|by left|right; by left].
    repeat (constructor; [vm_compute; try (by left); try (by right); set_solver|]). constructor.
  - destruct (init CrossDomain); [|done]. intros [= <-]. split_and!; [|done|done]. split; cbn - [push_capsets]; [by left|done|].
    intros c Hc%push_capsets_in. destruct (Hcap c CrossDomain _ Hc) as [->| ->]; [|by left|by left].
    repeat (constructor; [vm_compute; try (by left); try (by right); set_solver|]). constructor.
Qed.

(** A cross-domain resource whose handle is no shared memory loses it when it
    is mapped, and can never be exported afterwards. *)
Lemma map_loses_handle r id x hnd :
  resources r !! id = Some x -> component_mask x = 8 -> handle x = Some hnd -> handle_type (arc_handle hnd) <> RUTABAGA_MEM_HANDLE_TYPE_SHM ->
  fst (map r id) = Err SpecViolation /\ resources (snd (map r id)) = <[id := set_handle x None]> (resources r) /\
  fst (export_blob (snd (map r id)) id) = Err InvalidRutabagaHandle.
Proof.
  intros Er Em Eh Ht. assert (map r id = (Err SpecViolation, set_resources r (<[id := set_handle x None]> (resources r)) (gfx r))) as ->.
  { unfold map, get_resource, try_in. rewrite Er, Em, Eh. cbn - [decide]. apply Z.eqb_neq in Ht. rewrite Ht. done. }
  cbn. split_and!; [done|done|]. unfold export_blob, get_resource, try_in. cbn. by rewrite lookup_insert_eq.
Qed.
End rutabaga.
End Rutabaga.
