(* ===== verification/Rutabaga2d.v ===== *)
(** * The 2D component of the graphics library ([rutabaga_gfx/src/rutabaga_2d.rs])

    [transfer_2d] copies a rectangle between a resource and memory that is
    scattered over slices; [Rutabaga2D] is the component that keeps its
    resources in host memory.  The theorems: the copy equals the row-by-row
    copy from the slices joined together; in a library with this component only,
    an image is created, backed and uploaded; what an empty slice and a failed
    transfer do. *)

From S2P Require Import Prelude Rutabaga.

Module Rutabaga2d.
Import Rutabaga.

(** ** [transfer_2d] *)

(** The macros [checked_arithmetic] and [checked_range]. *)
Definition arith (o : option Z) : RutabagaResult Z := match o with Some z => Ok z | None => Err CheckedArithmetic end.

Definition checked_mul (bits a b : Z) : option Z := if a * b <? 2 ^ bits then Some (a * b) else None.

Definition check_le (a b : Z) : RutabagaResult unit := if a <=? b then Ok tt else Err CheckedRange.

(** [slice.get(a..b)], and the copy into [slice.get_mut(a..b)]. *)
Definition get_range (l : list byte) (a b : Z) : RutabagaResult (list byte) :=
  if (a <=? b) && (b <=? Z.of_nat (length l)) then Ok (slice l (Z.to_nat a) (Z.to_nat (b - a))) else Err InvalidIovec.

Definition copy_range (l : list byte) (a b : Z) (bs : list byte) : RutabagaResult (list byte) :=
  if (a <=? b) && (b <=? Z.of_nat (length l)) then Ok (take (Z.to_nat a) l ++ bs ++ drop (Z.to_nat b) l) else Err InvalidIovec.

(** The rectangle, in bytes: its width and height, and where its rows start. *)
Record Geometry := mkGeometry { rect_w : Z; rect_h : Z; dst_stride : Z; dst_start : Z; src_stride : Z; src_start : Z }.

Definition bytes_per_pixel : Z := 4.

(** One turn of the loop, on the slice that starts at [start]: whether the next
    slice and the next line follow, and the destination. *)
Definition transfer_line (g : Geometry) (src : list byte) (start height : Z) (dst : list byte) : RutabagaResult (bool * bool * list byte) :=
  src_end_offset ← arith (checked_add 64 start (Z.of_nat (length src)));
  vertical ← arith (checked_mul 64 height (src_stride g));
  horizontal ← arith (checked_mul 64 (rect_w g) bytes_per_pixel);
  line_start ← arith (checked_add 64 (src_start g) vertical);
  line_end ← arith (checked_add 64 line_start horizontal);
  let copy_start := Z.max line_start start in
  let copy_end := Z.min line_end src_end_offset in
  if copy_start <? copy_end then
    let copyable := copy_end - copy_start in
    let within := copy_start - start in
    let '(next_src, next_line) :=
      match line_end ?= src_end_offset with Gt => (true, false) | Eq => (true, true) | Lt => (false, true) end in
    piece ← get_range src within (within +[64] copyable);
    dst_vertical ← arith (checked_mul 64 height (dst_stride g));
    dst_line ← arith (checked_add 64 dst_vertical (copy_start - line_start));
    dst_off ← arith (checked_add 64 (dst_start g) dst_line);
    dst ← copy_range dst dst_off (dst_off +[64] copyable) piece;
    Ok (next_src, next_line, dst)
  else if start <=? line_start then Ok (true, false, dst)
  else Ok (false, true, dst).

(** The loop; what was written before an error stays. *)
Fixpoint transfer_lines (fuel : nat) (g : Geometry) (srcs : list (list byte)) (start height : Z) (dst : list byte) : option (RutabagaResult unit * list byte) :=
  match srcs with
  | [] => Some (Ok tt, dst)
  | src :: rest =>
      if rect_h g <=? height then Some (Ok tt, dst)
      else
        match fuel with
        | O => None
        | S fuel =>
            match transfer_line g src start height dst with
            | Err e => Some (Err e, dst)
            | Ok (next_src, next_line, dst) =>
                let height' := if next_line then height + 1 else height in
                if next_src then
                  match checked_add 64 start (Z.of_nat (length src)) with
                  | None => Some (Err CheckedArithmetic, dst)
                  | Some start => transfer_lines fuel g rest start height' dst
                  end
                else transfer_lines fuel g srcs start height' dst
            end
        end
  end.

(** A turn leaves a slice or a line behind, so this many are enough. *)
Definition turns (h : Z) (srcs : list (list byte)) : nat := Z.to_nat h + length srcs.

Definition transfer_2d (resource_w resource_h rect_x rect_y rect_w rect_h dst_stride dst_offset : Z) (dst : list byte)
    (src_stride src_offset : Z) (srcs : list (list byte)) : option (RutabagaResult unit * list byte) :=
  if (rect_w =? 0) || (rect_h =? 0) then Some (Ok tt, dst)
  else
    match (x_end ← arith (checked_add 32 rect_x rect_w); _ ← check_le x_end resource_w;
           y_end ← arith (checked_add 32 rect_y rect_h); check_le y_end resource_h) with
    | Err e => Some (Err e, dst)
    | Ok _ =>
        let g := mkGeometry rect_w rect_h dst_stride (wrap 64 (dst_offset + rect_y * dst_stride + rect_x * bytes_per_pixel))
                   src_stride (wrap 64 (src_offset + rect_y * src_stride + rect_x * bytes_per_pixel)) in
        transfer_lines (turns rect_h srcs) g srcs 0 0 dst
    end.

(** The loop always ends. *)
Lemma transfer_lines_total g fuel srcs start height dst :
  (Z.to_nat (rect_h g - height) + length srcs <= fuel)%nat -> is_Some (transfer_lines fuel g srcs start height dst).
Proof.
  revert srcs start height dst. induction fuel as [|fuel IH]; intros srcs start height dst Hf; destruct srcs as [|src rest]; cbn in *; try by eexists.
  { lia. }
  destruct (Z.leb_spec (rect_h g) height); [by eexists|].
  destruct (transfer_line g src start height dst) as [[[ns nl] dst']|e] eqn:El; [|by eexists].
  assert (ns = true \/ nl = true) as Hprog.
  { unfold transfer_line in El. repeat match type of El with
    | mbind _ ?e = _ => destruct e; [cbn [mbind result_bind] in El|discriminate El]
    | (if ?e then _ else _) = _ => destruct e
    | (let '(_, _) := ?e in _) = _ => destruct e as [? ?] eqn:?
    end; simplify_eq; eauto; repeat case_match; simplify_eq; eauto. }
  destruct ns; [destruct (checked_add _ _ _); [|by eexists]|]; apply IH; cbn [length]; destruct nl; cbn in *; lia.
Qed.

Lemma transfer_2d_total rw rh x y w h ds d dst ss so srcs : is_Some (transfer_2d rw rh x y w h ds d dst ss so srcs).
Proof.
  unfold transfer_2d. destruct (_ || _); [by eexists|]. destruct (mbind _ _); [|by eexists]. apply transfer_lines_total. cbn. unfold turns. lia.
Qed.

(** ** The row-by-row copy *)

(** [bs] over [l] from [a] on. *)
Definition put (l : list byte) (a : nat) (bs : list byte) : list byte := take a l ++ bs ++ drop (a + length bs) l.

Definition row_bytes (g : Geometry) : nat := Z.to_nat (rect_w g * bytes_per_pixel).
Definition src_row (g : Geometry) (r : nat) : nat := Z.to_nat (src_start g) + r * Z.to_nat (src_stride g).
Definition dst_row (g : Geometry) (r : nat) : nat := Z.to_nat (dst_start g) + r * Z.to_nat (dst_stride g).

(** What row [r] holds: as much of it as the source reaches. *)
Definition row (g : Geometry) (s : list byte) (r : nat) : list byte := take (row_bytes g) (drop (src_row g r) s).

Definition copy_rows (g : Geometry) (n : nat) (s dst : list byte) : list byte :=
  foldl (fun l r => put l (dst_row g r) (row g s r)) dst (seq 0 n).

Lemma put_nil l a : put l a [] = l.
Proof. unfold put. cbn. rewrite Nat.add_0_r. apply take_drop. Qed.

Lemma length_put l a bs : (a + length bs <= length l)%nat -> length (put l a bs) = length l.
Proof. intros Hl. unfold put. rewrite !length_app, length_take, length_drop. lia. Qed.

Lemma put_put l a x y : (a + length x + length y <= length l)%nat -> put (put l a x) (a + length x) y = put l a (x ++ y).
Proof.
  intros Hl. unfold put. assert (length (take a l) = a) as Ha by (rewrite length_take; lia).
  replace (take (a + length x) (take a l ++ x ++ drop (a + length x) l)) with (take a l ++ x).
  2: { rewrite (assoc_L (++)), take_app_length'; [done|]. rewrite length_app. lia. }
  replace (drop (a + length x + length y) (take a l ++ x ++ drop (a + length x) l)) with (drop (a + length (x ++ y)) l).
  2: { rewrite (assoc_L (++)), drop_app_ge by (rewrite length_app; lia). rewrite drop_drop, !length_app, Ha. f_equal. lia. }
  by rewrite <- !(assoc_L (++)).
Qed.

Lemma copy_rows_S g n s dst : copy_rows g (S n) s dst = put (copy_rows g n s dst) (dst_row g n) (row g s n).
Proof. unfold copy_rows. by rewrite seq_S, foldl_app. Qed.

Lemma length_row g s r : (length (row g s r) <= row_bytes g)%nat.
Proof. unfold row. rewrite length_take. lia. Qed.

(** A rectangle whose rows do not run into each other at the source and which
    the destination and 64-bit offsets have room for. *)
Record fits_rows (g : Geometry) (n : nat) (s dst : list byte) : Prop := {
  fr_sign : 0 < rect_w g /\ 0 <= dst_stride g /\ 0 <= dst_start g /\ 0 <= src_start g /\ rect_h g = Z.of_nat n;
  fr_apart : rect_w g * bytes_per_pixel <= src_stride g;
  fr_src : src_start g + Z.of_nat n * src_stride g + rect_w g * bytes_per_pixel < 2 ^ 64 /\ Z.of_nat (length s) < 2 ^ 64;
  fr_dst : forall r, (r < n)%nat -> (dst_row g r + row_bytes g <= length dst)%nat;
  fr_dst64 : Z.of_nat (length dst) < 2 ^ 64 }.

Lemma length_copy_rows g n s dst k : fits_rows g n s dst -> (k <= n)%nat -> length (copy_rows g k s dst) = length dst.
Proof.
  intros Hf. induction k as [|k IH]; intros Hk; [done|]. rewrite copy_rows_S, length_put; [apply IH; lia|].
  rewrite IH by lia. pose proof (fr_dst _ _ _ _ Hf k ltac:(lia)). pose proof (length_row g s k). lia.
Qed.

(** Where the loop stands: the slices before [start] are used up, the lines
    before [h] are copied, and of line [h] what lies before [start]. *)
Record stands (g : Geometry) (n : nat) (s dst : list byte) (srcs : list (list byte)) (start h : nat) (d : list byte) : Prop := {
  st_start : (start <= length s)%nat;
  st_srcs : drop start s = concat srcs;
  st_height : (h <= n)%nat;
  st_line : (start < src_row g h + row_bytes g)%nat /\ (h = n -> (start <= src_row g h)%nat);
  st_done : d = put (copy_rows g h s dst) (dst_row g h) (take (start - src_row g h) (row g s h)) }.

Lemma arith_add a b : a + b < 2 ^ 64 -> arith (checked_add 64 a b) = Ok (a + b).
Proof. intros Hl. unfold checked_add. by rewrite (proj2 (Z.ltb_lt _ _) Hl). Qed.

Lemma arith_mul a b : a * b < 2 ^ 64 -> arith (checked_mul 64 a b) = Ok (a * b).
Proof. intros Hl. unfold checked_mul. by rewrite (proj2 (Z.ltb_lt _ _) Hl). Qed.

Lemma get_range_ok l a n : (a + n <= length l)%nat -> get_range l (Z.of_nat a) (Z.of_nat a + Z.of_nat n) = Ok (slice l a n).
Proof.
  intros Hl. unfold get_range. rewrite (proj2 (Z.leb_le _ _)), (proj2 (Z.leb_le _ _)) by lia. cbn. rewrite Nat2Z.id. do 2 f_equal. lia.
Qed.

Lemma copy_range_ok l a bs : (a + length bs <= length l)%nat -> copy_range l (Z.of_nat a) (Z.of_nat a + Z.of_nat (length bs)) bs = Ok (put l a bs).
Proof.
  intros Hl. unfold copy_range. rewrite (proj2 (Z.leb_le _ _)), (proj2 (Z.leb_le _ _)) by lia. cbn. rewrite Nat2Z.id. unfold put. do 4 f_equal. lia.
Qed.

Section copying.
Context (g : Geometry) (n : nat) (s dst : list byte) (Hf : fits_rows g n s dst).

Lemma row_bytes_pos : (0 < row_bytes g)%nat.
Proof. unfold row_bytes, bytes_per_pixel. destruct (fr_sign _ _ _ _ Hf). lia. Qed.

Lemma next_row h : (src_row g h + row_bytes g <= src_row g (S h))%nat.
Proof. unfold src_row, row_bytes. destruct (fr_sign _ _ _ _ Hf) as (? & ? & ? & ? & ?). pose proof (fr_apart _ _ _ _ Hf). unfold bytes_per_pixel in *. lia. Qed.

Lemma line_done srcs start h d :
  (start <= length s)%nat -> drop start s = concat srcs -> (h < n)%nat -> (start <= src_row g h + row_bytes g)%nat ->
  d = put (copy_rows g h s dst) (dst_row g h) (row g s h) -> stands g n s dst srcs start (S h) d.
Proof.
  intros Hs Hd Hh Hst ->. pose proof (next_row h). pose proof row_bytes_pos. split; try done; try lia.
  rewrite copy_rows_S. replace (start - src_row g (S h))%nat with 0%nat by lia. by rewrite take_0, put_nil.
Qed.

(** The offsets of a line. *)
Lemma line_offsets h : (h < n)%nat ->
  src_start g + Z.of_nat h * src_stride g = Z.of_nat (src_row g h) /\ rect_w g * bytes_per_pixel = Z.of_nat (row_bytes g) /\
  dst_start g + Z.of_nat h * dst_stride g = Z.of_nat (dst_row g h) /\ 0 <= Z.of_nat h * dst_stride g /\
  Z.of_nat (src_row g h) + Z.of_nat (row_bytes g) < 2 ^ 64.
Proof.
  intros Hh. destruct (fr_sign _ _ _ _ Hf) as (Hw & Hds & Hd0 & Hs0 & _). destruct (fr_src _ _ _ _ Hf) as [Hb _]. pose proof (fr_apart _ _ _ _ Hf) as Ha.
  unfold src_row, dst_row, row_bytes, bytes_per_pixel in *. assert (Z.of_nat h * src_stride g <= Z.of_nat n * src_stride g) by nia.
  rewrite !Nat2Z.inj_add, !Nat2Z.inj_mul, !Z2Nat.id by lia. repeat split; lia.
Qed.

(** One turn on a slice that is not empty. *)
Lemma transfer_line_stands src rest start h d :
  stands g n s dst (src :: rest) start h d -> (h < n)%nat -> src <> [] ->
  exists next_src next_line d', transfer_line g src (Z.of_nat start) (Z.of_nat h) d = Ok (next_src, next_line, d') /\
    stands g n s dst (if next_src then rest else src :: rest) (if next_src then start + length src else start) (if next_line then S h else h) d' /\
    (next_src = true \/ next_line = true).
Proof.
  intros [Hs Hc Hhn [Hl _] Hd] Hh Hne. destruct (line_offsets h Hh) as (E1 & E2 & E3 & E4 & Hb). pose proof row_bytes_pos as HW.
  destruct (fr_src _ _ _ _ Hf) as [_ Hs64]. pose proof (fr_dst64 _ _ _ _ Hf) as Hd64. pose proof (fr_dst _ _ _ _ Hf h Hh) as Hdr.
  assert (start + length src <= length s)%nat as Hse.
  { apply (f_equal length) in Hc. cbn in Hc. rewrite length_drop, length_app in Hc. lia. }
  assert (0 < length src)%nat as Hl0 by (destruct src; [done|cbn; lia]).
  assert (drop (start + length src) s = concat rest) as Hrest by (rewrite <- drop_drop, Hc; cbn; by rewrite drop_app_length).
  assert (src = slice s start (length src)) as Hsrc by (unfold slice; rewrite Hc; cbn; by rewrite take_app_length).
  assert (length d = length dst) as Hld.
  { rewrite Hd, length_put; rewrite (length_copy_rows g n) by (done || lia); [done|]. rewrite length_take. pose proof (length_row g s h). lia. }
  assert (0 <= dst_stride g /\ 0 <= dst_start g /\ 0 <= src_start g) as (Hds & Hd0 & Hss0) by (destruct (fr_sign _ _ _ _ Hf); lia).
  unfold transfer_line. rewrite (arith_add (Z.of_nat start)), (arith_mul (Z.of_nat h) (src_stride g)), (arith_mul (rect_w g)) by lia. cbn [mbind result_bind].
  rewrite (arith_add (src_start g)), E1, E2 by lia. cbn [mbind result_bind]. rewrite arith_add by lia. cbn [mbind result_bind].
  set (ls := src_row g h) in *. set (W := row_bytes g) in *. set (cs := Nat.max ls start). set (ce := Nat.min (ls + W) (start + length src)).
  replace (Z.max _ _) with (Z.of_nat cs) by (subst cs; lia). replace (Z.min _ _) with (Z.of_nat ce) by (subst ce; lia).
  destruct (Z.ltb_spec (Z.of_nat cs) (Z.of_nat ce)) as [Hlt|Hge].
  - set (p0 := take (start - ls) (row g s h)) in *. set (piece := slice s cs (ce - cs)).
    assert (length (row g s h) = Nat.min W (length s - ls)) as Hlr by (unfold row; rewrite length_take, length_drop; done).
    assert (length p0 = cs - ls)%nat as Hp0 by (subst p0; rewrite length_take, Hlr; subst cs; lia).
    assert (length piece = ce - cs)%nat as Hlp by (subst piece; unfold slice; rewrite length_take, length_drop; subst ce; lia).
    assert (get_range src (Z.of_nat cs - Z.of_nat start) (Z.of_nat cs - Z.of_nat start +[64] (Z.of_nat ce - Z.of_nat cs)) = Ok piece) as Eg.
    { rewrite wrap_small by (unfold fits; subst cs ce; lia). replace (Z.of_nat cs - Z.of_nat start) with (Z.of_nat (cs - start)) by (subst cs; lia).
      replace (Z.of_nat ce - Z.of_nat cs) with (Z.of_nat (ce - cs)) by lia. rewrite get_range_ok by (subst cs ce; lia). subst piece. rewrite Hsrc. unfold slice.
      rewrite skipn_firstn_comm, take_take, drop_drop. replace (Nat.min _ _) with (ce - cs)%nat by (subst cs ce; lia). do 3 f_equal. subst cs; lia. }
    rewrite Eg. cbn [mbind result_bind].
    assert (put d (dst_row g h + (cs - ls)) piece = put (copy_rows g h s dst) (dst_row g h) (take (ce - ls) (row g s h))) as Ep.
    { rewrite Hd, <- Hp0, put_put.
      - f_equal. subst p0 piece. unfold row, slice. fold ls W. rewrite !take_take.
        replace (Nat.min (start - ls) W) with (cs - ls)%nat by (subst cs; lia). replace (Nat.min (ce - ls) W) with (cs - ls + (ce - cs))%nat by (subst cs ce; lia).
        replace (drop cs s) with (drop (cs - ls) (drop ls s)) by (rewrite drop_drop; f_equal; subst cs; lia). apply take_take_drop.
      - rewrite (length_copy_rows g n) by (done || lia). fold W in Hdr. rewrite Hp0, Hlp. subst cs ce. lia. }
    assert (copy_range d (Z.of_nat (dst_row g h) + (Z.of_nat cs - Z.of_nat ls)) (Z.of_nat (dst_row g h) + (Z.of_nat cs - Z.of_nat ls) +[64] (Z.of_nat ce - Z.of_nat cs)) piece =
      Ok (put d (dst_row g h + (cs - ls)) piece)) as Ec.
    { fold W in Hdr. rewrite wrap_small by (unfold fits; subst cs ce; lia).
      replace (Z.of_nat (dst_row g h) + (Z.of_nat cs - Z.of_nat ls)) with (Z.of_nat (dst_row g h + (cs - ls))) by (subst cs; lia).
      replace (Z.of_nat ce - Z.of_nat cs) with (Z.of_nat (length piece)) by lia. apply copy_range_ok. rewrite Hld, Hlp. subst cs ce. lia. }
    fold W in Hdr.
    destruct (match (_ ?= _) with Eq => _ | _ => _ end) as [next_src next_line] eqn:Ecmp.
    rewrite arith_mul by lia. cbn [mbind result_bind]. rewrite arith_add by (subst cs; lia). cbn [mbind result_bind]. rewrite arith_add by (subst cs; lia). cbn [mbind result_bind].
    replace (dst_start g + (Z.of_nat h * dst_stride g + (Z.of_nat cs - Z.of_nat ls))) with (Z.of_nat (dst_row g h) + (Z.of_nat cs - Z.of_nat ls)) by lia.
    rewrite Ec. cbn [mbind result_bind]. exists next_src, next_line. eexists. split; [done|]. rewrite Ep.
    destruct (Z.compare_spec (Z.of_nat ls + Z.of_nat W) (Z.of_nat start + Z.of_nat (length src))) as [Heq|Hlt'|Hgt]; injection Ecmp as <- <-.
    + split; [|by left]. apply line_done; try done; [fold ls W; lia|]. f_equal. rewrite take_ge; [done|]. rewrite Hlr. subst ce. lia.
    + split; [|by right]. apply line_done; try done; [fold ls W; lia|]. f_equal. rewrite take_ge; [done|]. rewrite Hlr. subst ce. lia.
    + split; [|by left]. split; try done; [fold ls W; lia|]. fold ls. do 2 f_equal. subst ce. lia.
  - assert (start + length src <= ls)%nat as Hle by (subst cs ce; lia). rewrite (proj2 (Z.leb_le _ _)) by lia. exists true, false, d. split; [done|]. split; [|by left].
    split; try done; [fold ls W; lia|]. fold ls. rewrite Hd. do 2 f_equal. fold ls. lia.
Qed.
End copying.

Lemma rows_past_end g n s dst h k :
  fits_rows g n s dst -> (length s <= src_row g h + row_bytes g)%nat -> copy_rows g (S h + k) s dst = copy_rows g (S h) s dst.
Proof.
  intros Hf Hs. induction k as [|k IH]; [by rewrite Nat.add_0_r|]. rewrite Nat.add_succ_r, copy_rows_S, IH.
  assert (row g s (S h + k) = []) as ->; [|apply put_nil]. unfold row. rewrite drop_ge; [apply take_nil|].
  pose proof (next_row g n s dst Hf h). unfold src_row in *. nia.
Qed.

Lemma stands_end g n s dst start h d : fits_rows g n s dst -> stands g n s dst [] start h d -> d = copy_rows g n s dst.
Proof.
  intros Hf [Hs Hd Hn [Hl Hln] ->]. assert (start = length s) as ->.
  { apply (f_equal length) in Hd. cbn in Hd. rewrite length_drop in Hd. lia. }
  destruct (decide (h = n)) as [->|].
  - specialize (Hln eq_refl). replace (length s - src_row g n)%nat with 0%nat by lia. by rewrite take_0, put_nil.
  - rewrite take_ge.
    + rewrite <- copy_rows_S. replace n with (S h + (n - S h))%nat by lia. symmetry. apply (rows_past_end g n); [done|lia].
    + unfold row. rewrite length_take, length_drop. lia.
Qed.

Lemma transfer_lines_exact g n s dst fuel srcs start h d :
  fits_rows g n s dst -> Forall (.≠ []) srcs -> stands g n s dst srcs start h d -> (n - h + length srcs <= fuel)%nat ->
  transfer_lines fuel g srcs (Z.of_nat start) (Z.of_nat h) d = Some (Ok tt, copy_rows g n s dst).
Proof.
  intros Hf. revert srcs start h d. induction fuel as [|fuel IH]; intros srcs start h d Hne Hst Hfu.
  - destruct srcs; cbn in *; [|lia]. by rewrite (stands_end g n s dst start h d).
  - destruct srcs as [|src rest]; cbn [transfer_lines]; [by rewrite (stands_end g n s dst start h d)|].
    destruct (fr_sign _ _ _ _ Hf) as (_ & _ & _ & _ & ->). destruct (Z.leb_spec (Z.of_nat n) (Z.of_nat h)) as [Hge|Hlt].
    + assert (h = n) as -> by (pose proof (st_height _ _ _ _ _ _ _ _ Hst); lia). destruct (st_line _ _ _ _ _ _ _ _ Hst) as [_ Hl]. specialize (Hl eq_refl).
      rewrite (st_done _ _ _ _ _ _ _ _ Hst). replace (start - src_row g n)%nat with 0%nat by lia. by rewrite take_0, put_nil.
    + apply Forall_cons in Hne as [Hne0 Hne]. destruct (transfer_line_stands g n s dst Hf src rest start h d Hst ltac:(lia) Hne0) as (ns & nl & d' & E & Hst' & Hprog).
      rewrite E. replace (if nl then Z.of_nat h + 1 else Z.of_nat h) with (Z.of_nat (if nl then S h else h)) by (destruct nl; lia).
      cbn [length] in Hfu. destruct ns.
      * destruct (fr_src _ _ _ _ Hf) as [_ Hs]. pose proof (st_start _ _ _ _ _ _ _ _ Hst'). unfold checked_add. rewrite (proj2 (Z.ltb_lt _ _)) by lia.
        rewrite <- Nat2Z.inj_add. apply IH; [done|done|]. destruct nl; lia.
      * destruct nl; [|by destruct Hprog]. apply IH; [by constructor|done|cbn [length]; lia].
Qed.

(** The geometry of a transfer. *)
Definition geometry (rect_x rect_y rect_w rect_h dst_stride dst_offset src_stride src_offset : Z) : Geometry :=
  mkGeometry rect_w rect_h dst_stride (wrap 64 (dst_offset + rect_y * dst_stride + rect_x * bytes_per_pixel))
    src_stride (wrap 64 (src_offset + rect_y * src_stride + rect_x * bytes_per_pixel)).

(** C18. A transfer of a rectangle inside the resource, from slices none of which is
    empty, is the row-by-row copy from the slices joined together: every row
    goes to its place in the destination, as far as the slices reach, however
    they cut the rows, and nothing else of the destination changes. *)
Theorem transfer_2d_exact rw rh x y w h ds doff dst ss soff srcs :
  0 <= x -> 0 <= y -> 0 < w -> 0 < h -> x + w <= rw < 2 ^ 32 -> y + h <= rh < 2 ^ 32 -> Forall (.≠ []) srcs ->
  let g := geometry x y w h ds doff ss soff in
  fits_rows g (Z.to_nat h) (concat srcs) dst ->
  transfer_2d rw rh x y w h ds doff dst ss soff srcs = Some (Ok tt, copy_rows g (Z.to_nat h) (concat srcs) dst).
Proof.
  intros Hx Hy Hw Hh Hrw Hrh Hne g Hf. unfold transfer_2d. rewrite !(proj2 (Z.eqb_neq _ 0)) by lia. cbn [orb].
  unfold checked_add. rewrite !(proj2 (Z.ltb_lt _ _)) by lia. cbn [arith mbind result_bind]. unfold check_le. rewrite !(proj2 (Z.leb_le _ _)) by lia. cbn [mbind result_bind].
  fold (geometry x y w h ds doff ss soff). fold g. apply (transfer_lines_exact g (Z.to_nat h) (concat srcs) dst _ srcs 0 0); [done|done| |].
  - pose proof (row_bytes_pos g _ _ _ Hf). split; try done; [lia|lia|lia|]. cbn. unfold copy_rows. cbn. by rewrite put_nil.
  - unfold turns. lia.
Qed.

(** ** The component *)

(** [host]: the bytes behind an iovec. *)
Section component.
Context (host : RutabagaIovec -> list byte).

Definition resource_bpp : Z := 4.

Definition create_3d (id : Z) (create : ResourceCreate3D) : RutabagaResult RutabagaResource :=
  let stride := wrap 32 (resource_bpp * width create) in
  let sz := stride * height create in
  let info := mkInfo2D (width create) (height create) (replicate (Z.to_nat sz) 0) in
  Ok (mkResource id None false 0 0 None (Some info) None None None (1 .<< component_bit Rutabaga2D) sz None).

(** The first component of [transfer_2d], which always answers
    ([transfer_2d_total]). *)
Definition answer (o : option (RutabagaResult unit * list byte)) (l : list byte) : RutabagaResult unit * list byte := default (Ok tt, l) o.

(** What [take] took comes back only when the transfer succeeds. *)
Definition transfer_write (r : RutabagaResource) (t : Transfer3D) : RutabagaResult unit * RutabagaResource :=
  if is_empty t then (Ok tt, r)
  else
    match info_2d r, backing_iovecs r with
    | None, _ => (Err Invalid2DInfo, r)
    | Some _, None => (Err InvalidIovec, set_info_2d r None)
    | Some i, Some iovecs =>
        let stride := wrap 32 (resource_bpp * i2_width i) in
        let '(res, mem) := answer (transfer_2d (i2_width i) (i2_height i) (t_x t) (t_y t) (t_w t) (t_h t) stride 0 (host_mem i)
                             stride (t_offset t) (host <$> iovecs)) (host_mem i) in
        match res with
        | Err e => (Err e, set_backing (set_info_2d r None) None)
        | Ok _ => (Ok tt, set_backing (set_info_2d r (Some (mkInfo2D (i2_width i) (i2_height i) mem))) (Some iovecs))
        end
    end.

Definition transfer_read (r : RutabagaResource) (t : Transfer3D) (buf : option (list byte)) :
    RutabagaResult unit * RutabagaResource * option (list byte) :=
  match info_2d r, buf with
  | None, _ => (Err Invalid2DInfo, r, buf)
  | Some _, None => (Err SpecViolation, set_info_2d r None, None)
  | Some i, Some dst =>
      let '(res, dst) := answer (transfer_2d (i2_width i) (i2_height i) (t_x t) (t_y t) (t_w t) (t_h t) (stride t) 0 dst
                           (wrap 32 (resource_bpp * i2_width i)) 0 [host_mem i]) dst in
      match res with
      | Err e => (Err e, set_info_2d r None, Some dst)
      | Ok _ => (Ok tt, r, Some dst)
      end
  end.

(** A resource of the component with its memory. *)
Record sized (r : RutabagaResource) (w h : Z) (mem : list byte) : Prop := {
  sz_info : info_2d r = Some (mkInfo2D w h mem);
  sz_bounds : 0 < w /\ 4 * w < 2 ^ 32 /\ 0 <= h < 2 ^ 32;
  sz_mem : Z.of_nat (length mem) = 4 * w * h }.

Lemma create_3d_sized id c r :
  0 < width c -> 4 * width c < 2 ^ 32 -> 0 <= height c < 2 ^ 32 -> create_3d id c = Ok r ->
  sized r (width c) (height c) (replicate (Z.to_nat (4 * width c * height c)) 0) /\ backing_iovecs r = None.
Proof.
  intros Hw Hw4 Hh [= <-]. split; [|done]. split; cbn; [|done|rewrite length_replicate; lia].
  unfold resource_bpp. rewrite (wrap_small 32) by (unfold fits; lia). done.
Qed.

(** A transfer into a well-sized resource succeeds and copies the rectangle row
    by row from its backing; the resource keeps its size and its backing. *)
Lemma write_2d_sized r w h mem t iovecs :
  sized r w h mem -> backing_iovecs r = Some iovecs -> Forall (fun v => host v <> []) iovecs ->
  0 <= t_x t -> 0 <= t_y t -> 0 < t_w t -> 0 < t_h t -> t_d t <> 0 -> t_x t + t_w t <= w -> t_y t + t_h t <= h ->
  0 <= t_offset t -> t_offset t + 4 * w * (h + 1) < 2 ^ 64 -> Z.of_nat (length (concat (host <$> iovecs))) < 2 ^ 64 ->
  let mem' := copy_rows (geometry (t_x t) (t_y t) (t_w t) (t_h t) (4 * w) 0 (4 * w) (t_offset t)) (Z.to_nat (t_h t)) (concat (host <$> iovecs)) mem in
  exists r', transfer_write r t = (Ok tt, r') /\ sized r' w h mem' /\ backing_iovecs r' = Some iovecs.
Proof.
  intros [Hi (Hw & Hw4 & Hh) Hm] Hv Hne Hx Hy Htw Hth Htd Hxw Hyh Ho Ho64 Hs64 mem'.
  set (g := geometry _ _ _ _ _ _ _ _) in mem'. set (s := concat (host <$> iovecs)) in *.
  assert (dst_start g = t_y t * (4 * w) + t_x t * 4 /\ src_start g = t_offset t + t_y t * (4 * w) + t_x t * 4) as [Ed Es].
  { unfold g, geometry, bytes_per_pixel. cbn. rewrite !wrap_small by (unfold fits; nia). split; lia. }
  assert (fits_rows g (Z.to_nat (t_h t)) s mem) as Hf.
  { split.
    - rewrite Ed, Es. cbn. repeat split; nia.
    - cbn. unfold bytes_per_pixel. lia.
    - split; [|done]. rewrite Es. cbn. unfold bytes_per_pixel. rewrite Z2Nat.id by lia. nia.
    - intros k Hk. unfold dst_row, row_bytes. rewrite Ed. cbn. unfold bytes_per_pixel. apply Nat2Z.inj_le. rewrite !Nat2Z.inj_add, Nat2Z.inj_mul, !Z2Nat.id, Hm by nia.
      assert (Z.of_nat k + 1 <= t_h t) by lia. nia.
    - rewrite Hm. nia. }
  unfold transfer_write. unfold is_empty. rewrite !(proj2 (Z.eqb_neq _ 0)) by lia. cbn [orb]. rewrite Hi, Hv. cbn [i2_width i2_height host_mem].
  unfold resource_bpp. rewrite (wrap_small 32) by (unfold fits; lia). rewrite transfer_2d_exact; try done; try lia; [|by apply Forall_fmap]. cbn [answer default from_option].
  eexists. split; [done|]. split; [|done]. split; cbn; [done|done|]. subst mem'. etransitivity; [apply f_equal; apply (length_copy_rows g (Z.to_nat (t_h t))); first done; lia|done].
Qed.

(** A refused transfer loses the resource: without backing, or outside the
    resource, the error leaves it without its memory, and every later transfer
    fails. *)
Lemma refused_transfer_loses_resource r t t' e :
  fst (transfer_write r t) = Err e -> is_empty t' = false -> fst (transfer_write (snd (transfer_write r t)) t') = Err Invalid2DInfo.
Proof.
  unfold transfer_write at 1 3. destruct (is_empty t); [done|]. destruct (info_2d r) as [i|] eqn:Ei; [|intros _ Ht'; cbn; unfold transfer_write; by rewrite Ht', Ei].
  destruct (backing_iovecs r); [|intros _ Ht'; cbn; unfold transfer_write; by rewrite Ht'].
  destruct (answer _ _) as [[]]; [done|]. intros _ Ht'. cbn. unfold transfer_write. by rewrite Ht'.
Qed.
(** ** The library with this component only

    The methods the component does not have are the trait's defaults; the
    descriptor's copy and its mapping are the operating system's. *)
Context (clone : Z -> option Z) (map_memory : Z -> Z -> Z -> RutabagaResult RutabagaMapping).

#[local] Instance Rutabaga2D_methods : Graphics unit := {
  c_get_capset_info _ _ _ := (0, 0);
  c_get_capset _ _ _ _ := [];
  c_force_ctx_0 _ g := g;
  c_create_fence _ fence g := (Ok tt, [fence], g);
  c_create_3d _ id create g := (create_3d id create, g);
  c_attach_backing _ _ v g := (Ok v, g);
  c_detach_backing _ _ g := g;
  c_unref_resource _ _ g := g;
  c_transfer_write _ _ r t g := (transfer_write r t, g);
  c_transfer_read _ _ r t b g := (transfer_read r t b, g);
  c_resource_flush _ r g := (Err Unsupported, r, g);
  c_create_blob _ _ _ _ _ _ g := (Err Unsupported, g);
  c_resource_map _ _ _ _ _ _ g := (Err Unsupported, g);
  c_map _ _ g := (Err Unsupported, g);
  c_unmap _ _ g := (Err Unsupported, g);
  c_export_fence _ _ g := (Err Unsupported, g);
  c_create_context _ _ _ _ g := (Err Unsupported, g);
  x_drop _ _ g := g;
  x_create_blob _ _ _ _ _ g := (Err Unsupported, g);
  x_submit_cmd _ _ _ _ g := (Err Unsupported, g);
  x_attach _ _ r g := (r, g);
  x_detach _ _ _ g := g;
  x_create_fence _ _ _ g := (Err Unsupported, [], g);
  os_try_clone fd g := (clone fd, g);
  os_map fd sz prot g := (map_memory fd sz prot, g) }.

(** From a new 2D library: a resource is created, gets the guest's memory as
    backing, and a rectangle is uploaded.  Every request succeeds, and the
    resource then holds the rectangle's rows on a black image. *)
Theorem image_uploaded b feature init r id c iovecs ctx t :
  build b feature init tt = Ok r -> default_component r = Rutabaga2D ->
  0 < width c -> 4 * width c < 2 ^ 32 -> 0 <= height c < 2 ^ 32 -> Forall (fun v => host v <> []) iovecs ->
  0 <= t_x t -> 0 <= t_y t -> 0 < t_w t -> 0 < t_h t -> t_d t <> 0 -> t_x t + t_w t <= width c -> t_y t + t_h t <= height c ->
  0 <= t_offset t -> t_offset t + 4 * width c * (height c + 1) < 2 ^ 64 -> Z.of_nat (length (concat (host <$> iovecs))) < 2 ^ 64 ->
  let '(ok1, r1) := exec r (Create3d id c) in
  let '(ok2, r2) := exec r1 (Attach id iovecs) in
  let '(ok3, r3) := exec r2 (TransferWrite ctx id t) in
  ok1 = true /\ ok2 = true /\ ok3 = true /\
  exists x, resources r3 !! id = Some x /\
    sized x (width c) (height c) (copy_rows (geometry (t_x t) (t_y t) (t_w t) (t_h t) (4 * width c) 0 (4 * width c) (t_offset t)) (Z.to_nat (t_h t))
      (concat (host <$> iovecs)) (replicate (Z.to_nat (4 * width c * height c)) 0)).
Proof.
  intros Hb Hd Hw Hw4 Hh Hne Hx Hy Htw Hth Htd Hxw Hyh Ho Ho64 Hs64. apply build_well_built in Hb as (Hwb & _ & Ht). injection Ht as Ht _.
  assert (resources r = ∅) as Hr by (by apply dom_empty_iff_L). pose proof (wb_default _ Hwb) as Hdc. rewrite Hd in Hdc.
  unfold exec at 1, resource_create_3d, get_component. rewrite Hd, bool_decide_true by done. cbn [try_in]. rewrite Hr, lookup_empty. cbn [c_create_3d Rutabaga2D_methods].
  destruct (create_3d id c) as [x|] eqn:Ec; [|done]. cbn [fst snd is_ok].
  destruct (create_3d_sized id c x Hw Hw4 Hh Ec) as [Hsz _].
  unfold exec at 1, attach_backing, get_component, get_resource. cbn [default_component components resources set_resources]. rewrite Hd, bool_decide_true by done. cbn [try_in]. rewrite lookup_insert_eq. cbn [c_attach_backing Rutabaga2D_methods try_in fst snd is_ok].
  unfold exec, Rutabaga.transfer_write, get_component, get_resource. cbn [default_component components resources set_resources]. rewrite Hd, bool_decide_true by done. cbn [try_in]. rewrite lookup_insert_eq. cbn [c_transfer_write Rutabaga2D_methods try_in].
  set (y := set_backing x (Some iovecs)).
  assert (sized y (width c) (height c) (replicate (Z.to_nat (4 * width c * height c)) 0)) as Hy' by (destruct Hsz; by split).
  destruct (write_2d_sized y (width c) (height c) _ t iovecs Hy' eq_refl Hne Hx Hy Htw Hth Htd Hxw Hyh Ho Ho64 Hs64) as (z & -> & Hz & _).
  cbn [fst snd is_ok resources set_resources]. split_and!; [done..|]. exists z. rewrite lookup_insert_eq. split; [done|exact Hz].
Qed.
End component.

(** An empty slice inside a line makes the loop skip the rest of that line. *)
Lemma empty_slice_skips_line :
  transfer_2d 2 1 0 0 2 1 8 0 (replicate 8 0) 8 0 [[1; 2; 3; 4]; []; [5; 6; 7; 8]] = Some (Ok tt, [1; 2; 3; 4; 0; 0; 0; 0]) /\
  transfer_2d 2 1 0 0 2 1 8 0 (replicate 8 0) 8 0 [[1; 2; 3; 4]; [5; 6; 7; 8]] = Some (Ok tt, [1; 2; 3; 4; 5; 6; 7; 8]).
Proof. by vm_compute. Qed.

(** ** Witnesses *)

(** A column of a 2 by 2 resource, from slices that cut its pixels. *)
Lemma transfer_2d_exact_witness :
  transfer_2d 2 2 1 0 1 2 8 0 (replicate 16 0) 8 0 [[0; 1; 2; 3; 4; 5]; [6; 7; 8]; [9; 10; 11; 12; 13; 14; 15]] =
    Some (Ok tt, [0; 0; 0; 0; 4; 5; 6; 7; 0; 0; 0; 0; 12; 13; 14; 15]).
Proof.
  refine (transfer_2d_exact 2 2 1 0 1 2 8 0 (replicate 16 0) 8 0 [[0; 1; 2; 3; 4; 5]; [6; 7; 8]; [9; 10; 11; 12; 13; 14; 15]] _ _ _ _ _ _ _ _); try lia.
  - repeat constructor; discriminate.
  - split; try (vm_compute; repeat split; congruence). intros [|[|r]] Hr; [vm_compute; lia|vm_compute; lia|cbn in Hr; lia].
Defined.

Definition demo_host (v : RutabagaIovec) : list byte := take (Z.to_nat (iov_len v)) (seqZ (base v) 100).

Definition demo_library : Rutabaga (G := unit) := mkRutabaga ∅ ∅ [Rutabaga2D] Rutabaga2D [] tt.

Definition demo_create : ResourceCreate3D := mkCreate3D 2 1 2 2 2 1 1 0 0 0.

(** The second row of a 2 by 2 resource, from two pieces of guest memory. *)
Lemma image_uploaded_witness : exists (r : Rutabaga (G := unit)) x, resources r !! 1 = Some x /\
  info_2d x = Some (mkInfo2D 2 2 [0; 0; 0; 0; 0; 0; 0; 0; 8; 9; 10; 11; 12; 13; 14; 15]).
Proof.
  pose proof (image_uploaded demo_host Some (fun _ _ _ => Err NulError) (RutabagaBuilder_new Rutabaga2D 0 0) (fun _ => false) (fun _ => Ok tt)
    demo_library 1 demo_create [mkIovec 0 6; mkIovec 6 10] 0 (new_2d 0 1 2 1)) as Hi.
  destruct (exec demo_library (Create3d 1 demo_create)) as [ok1 r1] in Hi. destruct (exec r1 (Attach 1 [mkIovec 0 6; mkIovec 6 10])) as [ok2 r2] in Hi.
  destruct (exec r2 (TransferWrite 0 1 (new_2d 0 1 2 1))) as [ok3 r3] in Hi.
  destruct Hi as (_ & _ & _ & x & Hx & Hs); try (cbn; lia); try reflexivity.
  - apply Forall_cons_2; [vm_compute; discriminate|]. apply Forall_cons_2; [vm_compute; discriminate|apply Forall_nil_2].
  - exists r3, x. split; [exact Hx|]. rewrite (sz_info _ _ _ _ Hs). vm_compute. reflexivity.
Defined.
End Rutabaga2d.
