(* ===== verification/GpuAbi.v ===== *)
(** * Messages of the graphics device ([devices/src/virtio/gpu/protocol.rs])

    Constants and structures of the virtio graphics protocol, with their bytes
    in guest memory as instances of [ByteValued]; the commands a request is
    decoded to, and the responses with their encoding.  The theorems: a
    command's bytes decode to it and every other request is refused without a
    panic; a response that fits is written whole with its length, one that does
    not changes nothing outside the writable part of the chain. *)

From S2P Require Import Prelude GuestMem DescUtils FuseAbi Rutabaga.

Module GpuAbi.
Import FuseAbi(ByteValued, ByteValuedLaws, layout, to_fields, of_fields, bv_length, bv_of_to, bv_to_of, size_of, as_slice, from_slice,
  in_range, length_as_slice, as_slice_ok, from_as_slice).
Import DescUtils(DescriptorChainConsumer, mkConsumer, buffers, bytes_consumed, available_bytes, read_obj, write_obj, write_all, IoError, UnexpectedEof, WriteZero,
  slices_ok, contents, framed, framed_refl, framed_trans, room, flat).

Ltac byte_valued := FuseAbi.byte_valued.

Definition VIRTIO_GPU_UNDEFINED : Z := 0x0.
Definition VIRTIO_GPU_CMD_GET_DISPLAY_INFO : Z := 0x100.
Definition VIRTIO_GPU_CMD_RESOURCE_CREATE_2D : Z := 0x101.
Definition VIRTIO_GPU_CMD_RESOURCE_UNREF : Z := 0x102.
Definition VIRTIO_GPU_CMD_SET_SCANOUT : Z := 0x103.
Definition VIRTIO_GPU_CMD_RESOURCE_FLUSH : Z := 0x104.
Definition VIRTIO_GPU_CMD_TRANSFER_TO_HOST_2D : Z := 0x105.
Definition VIRTIO_GPU_CMD_RESOURCE_ATTACH_BACKING : Z := 0x106.
Definition VIRTIO_GPU_CMD_RESOURCE_DETACH_BACKING : Z := 0x107.
Definition VIRTIO_GPU_CMD_GET_CAPSET_INFO : Z := 0x108.
Definition VIRTIO_GPU_CMD_GET_CAPSET : Z := 0x109.
Definition VIRTIO_GPU_CMD_GET_EDID : Z := 0x10a.
Definition VIRTIO_GPU_CMD_RESOURCE_ASSIGN_UUID : Z := 0x10b.
Definition VIRTIO_GPU_CMD_RESOURCE_CREATE_BLOB : Z := 0x10c.
Definition VIRTIO_GPU_CMD_SET_SCANOUT_BLOB : Z := 0x10d.
Definition VIRTIO_GPU_CMD_CTX_CREATE : Z := 0x200.
Definition VIRTIO_GPU_CMD_CTX_DESTROY : Z := 0x201.
Definition VIRTIO_GPU_CMD_CTX_ATTACH_RESOURCE : Z := 0x202.
Definition VIRTIO_GPU_CMD_CTX_DETACH_RESOURCE : Z := 0x203.
Definition VIRTIO_GPU_CMD_RESOURCE_CREATE_3D : Z := 0x204.
Definition VIRTIO_GPU_CMD_TRANSFER_TO_HOST_3D : Z := 0x205.
Definition VIRTIO_GPU_CMD_TRANSFER_FROM_HOST_3D : Z := 0x206.
Definition VIRTIO_GPU_CMD_SUBMIT_3D : Z := 0x207.
Definition VIRTIO_GPU_CMD_RESOURCE_MAP_BLOB : Z := 0x208.
Definition VIRTIO_GPU_CMD_RESOURCE_UNMAP_BLOB : Z := 0x209.
Definition VIRTIO_GPU_CMD_UPDATE_CURSOR : Z := 0x300.
Definition VIRTIO_GPU_CMD_MOVE_CURSOR : Z := 0x301.
Definition VIRTIO_GPU_RESP_OK_NODATA : Z := 0x1100.
Definition VIRTIO_GPU_RESP_OK_DISPLAY_INFO : Z := 0x1101.
Definition VIRTIO_GPU_RESP_OK_CAPSET_INFO : Z := 0x1102.
Definition VIRTIO_GPU_RESP_OK_CAPSET : Z := 0x1103.
Definition VIRTIO_GPU_RESP_OK_EDID : Z := 0x1104.
Definition VIRTIO_GPU_RESP_OK_RESOURCE_UUID : Z := 0x1105.
Definition VIRTIO_GPU_RESP_OK_MAP_INFO : Z := 0x1106.
Definition VIRTIO_GPU_RESP_OK_RESOURCE_PLANE_INFO : Z := 0x11FF.
Definition VIRTIO_GPU_RESP_ERR_UNSPEC : Z := 0x1200.
Definition VIRTIO_GPU_RESP_ERR_OUT_OF_MEMORY : Z := 0x1201.
Definition VIRTIO_GPU_RESP_ERR_INVALID_SCANOUT_ID : Z := 0x1202.
Definition VIRTIO_GPU_RESP_ERR_INVALID_RESOURCE_ID : Z := 0x1203.
Definition VIRTIO_GPU_RESP_ERR_INVALID_CONTEXT_ID : Z := 0x1204.
Definition VIRTIO_GPU_RESP_ERR_INVALID_PARAMETER : Z := 0x1205.
Definition VIRTIO_GPU_BLOB_MEM_GUEST : Z := 0x0001.
Definition VIRTIO_GPU_BLOB_MEM_HOST3D : Z := 0x0002.
Definition VIRTIO_GPU_BLOB_MEM_HOST3D_GUEST : Z := 0x0003.
Definition VIRTIO_GPU_BLOB_FLAG_USE_MAPPABLE : Z := 0x0001.
Definition VIRTIO_GPU_BLOB_FLAG_USE_SHAREABLE : Z := 0x0002.
Definition VIRTIO_GPU_BLOB_FLAG_USE_CROSS_DEVICE : Z := 0x0004.
Definition VIRTIO_GPU_BLOB_FLAG_CREATE_GUEST_HANDLE : Z := 0x0008.
Definition VIRTIO_GPU_SHM_ID_NONE : Z := 0x0000.
Definition VIRTIO_GPU_SHM_ID_HOST_VISIBLE : Z := 0x0001.
Definition VIRTIO_GPU_FLAG_FENCE : Z := 1 .<< 0.
Definition VIRTIO_GPU_FLAG_INFO_RING_IDX : Z := 1 .<< 1.
Definition VIRTIO_GPU_MAX_SCANOUTS : nat := 16.
Definition VIRTIO_GPU_RESOURCE_FLAG_Y_0_TOP : Z := 1 .<< 0.
Definition VIRTIO_GPU_CONTEXT_INIT_CAPSET_ID_MASK : Z := 1 .<< 0.
Definition VIRTIO_GPU_CAPSET_VIRGL : Z := 1.
Definition VIRTIO_GPU_CAPSET_VIRGL2 : Z := 2.
Definition VIRTIO_GPU_CAPSET_GFXSTREAM : Z := 3.
Definition VIRTIO_GPU_CAPSET_VENUS : Z := 4.
Definition VIRTIO_GPU_CAPSET_CROSS_DOMAIN : Z := 5.
Definition PLANE_INFO_MAX_COUNT : nat := 4.
Definition VIRTIO_GPU_EVENT_DISPLAY : Z := 1 .<< 0.
Definition VIRTIO_GPU_FORMAT_B8G8R8A8_UNORM : Z := 1.
Definition VIRTIO_GPU_FORMAT_B8G8R8X8_UNORM : Z := 2.
Definition VIRTIO_GPU_FORMAT_A8R8G8B8_UNORM : Z := 3.
Definition VIRTIO_GPU_FORMAT_X8R8G8B8_UNORM : Z := 4.
Definition VIRTIO_GPU_FORMAT_R8G8B8A8_UNORM : Z := 67.
Definition VIRTIO_GPU_FORMAT_X8B8G8R8_UNORM : Z := 68.
Definition VIRTIO_GPU_FORMAT_A8B8G8R8_UNORM : Z := 121.
Definition VIRTIO_GPU_FORMAT_R8G8B8X8_UNORM : Z := 134.

(** Four words. *)
Record u32x4 := quad { q0 : Z; q1 : Z; q2 : Z; q3 : Z }.

#[export] Instance u32x4_bytes : ByteValued u32x4 := {
  layout := [4; 4; 4; 4]%nat;
  to_fields a := [q0 a; q1 a; q2 a; q3 a];
  of_fields l := let f n := nth n l 0 in (quad (f 0) (f 1) (f 2) (f 3))%nat }.
#[export] Instance u32x4_laws : ByteValuedLaws u32x4.
Proof. byte_valued. Qed.

Record virtio_gpu_ctrl_hdr := mk_ctrl_hdr { ctrl_hdr_type : Z; ctrl_hdr_flags : Z; ctrl_hdr_fence_id : Z;
  ctrl_hdr_ctx_id : Z; ctrl_hdr_ring_idx : Z; ctrl_hdr_padding : Z }.

#[export] Instance virtio_gpu_ctrl_hdr_bytes : ByteValued virtio_gpu_ctrl_hdr := {
  layout := ([4; 4; 8; 4; 1; 3])%nat;
  to_fields a := [ctrl_hdr_type a; ctrl_hdr_flags a; ctrl_hdr_fence_id a; ctrl_hdr_ctx_id a; ctrl_hdr_ring_idx a; ctrl_hdr_padding
    a];
  of_fields l := let f n := nth n l 0 in (mk_ctrl_hdr (f 0) (f 1) (f 2) (f 3) (f 4) (f 5))%nat }.
#[export] Instance virtio_gpu_ctrl_hdr_laws : ByteValuedLaws virtio_gpu_ctrl_hdr.
Proof. byte_valued. Qed.

Record virtio_gpu_cursor_pos := mk_cursor_pos { cursor_pos_scanout_id : Z; cursor_pos_x : Z; cursor_pos_y : Z;
  cursor_pos_padding : Z }.

#[export] Instance virtio_gpu_cursor_pos_bytes : ByteValued virtio_gpu_cursor_pos := {
  layout := ([4; 4; 4; 4])%nat;
  to_fields a := [cursor_pos_scanout_id a; cursor_pos_x a; cursor_pos_y a; cursor_pos_padding a];
  of_fields l := let f n := nth n l 0 in (mk_cursor_pos (f 0) (f 1) (f 2) (f 3))%nat }.
#[export] Instance virtio_gpu_cursor_pos_laws : ByteValuedLaws virtio_gpu_cursor_pos.
Proof. byte_valued. Qed.

Record virtio_gpu_update_cursor := mk_update_cursor { update_cursor_pos : virtio_gpu_cursor_pos;
  update_cursor_resource_id : Z; update_cursor_hot_x : Z; update_cursor_hot_y : Z; update_cursor_padding : Z }.

#[export] Instance virtio_gpu_update_cursor_bytes : ByteValued virtio_gpu_update_cursor := {
  layout := (layout virtio_gpu_cursor_pos ++ [4; 4; 4; 4])%nat;
  to_fields a := to_fields (update_cursor_pos a) ++ [update_cursor_resource_id a; update_cursor_hot_x a; update_cursor_hot_y a;
    update_cursor_padding a];
  of_fields l := let f n := nth n l 0 in (mk_update_cursor (of_fields (take 4 (drop 0 l))) (f 4) (f 5) (f 6) (f 7))%nat }.
#[export] Instance virtio_gpu_update_cursor_laws : ByteValuedLaws virtio_gpu_update_cursor.
Proof. byte_valued. Qed.

Record virtio_gpu_rect := mk_rect { rect_x : Z; rect_y : Z; rect_width : Z; rect_height : Z }.

#[export] Instance virtio_gpu_rect_bytes : ByteValued virtio_gpu_rect := {
  layout := ([4; 4; 4; 4])%nat;
  to_fields a := [rect_x a; rect_y a; rect_width a; rect_height a];
  of_fields l := let f n := nth n l 0 in (mk_rect (f 0) (f 1) (f 2) (f 3))%nat }.
#[export] Instance virtio_gpu_rect_laws : ByteValuedLaws virtio_gpu_rect.
Proof. byte_valued. Qed.

Record virtio_gpu_resource_unref := mk_resource_unref { resource_unref_resource_id : Z; resource_unref_padding : Z
  }.

#[export] Instance virtio_gpu_resource_unref_bytes : ByteValued virtio_gpu_resource_unref := {
  layout := ([4; 4])%nat;
  to_fields a := [resource_unref_resource_id a; resource_unref_padding a];
  of_fields l := let f n := nth n l 0 in (mk_resource_unref (f 0) (f 1))%nat }.
#[export] Instance virtio_gpu_resource_unref_laws : ByteValuedLaws virtio_gpu_resource_unref.
Proof. byte_valued. Qed.

Record virtio_gpu_resource_create_2d := mk_resource_create_2d { resource_create_2d_resource_id : Z;
  resource_create_2d_format : Z; resource_create_2d_width : Z; resource_create_2d_height : Z }.

#[export] Instance virtio_gpu_resource_create_2d_bytes : ByteValued virtio_gpu_resource_create_2d := {
  layout := ([4; 4; 4; 4])%nat;
  to_fields a := [resource_create_2d_resource_id a; resource_create_2d_format a; resource_create_2d_width a;
    resource_create_2d_height a];
  of_fields l := let f n := nth n l 0 in (mk_resource_create_2d (f 0) (f 1) (f 2) (f 3))%nat }.
#[export] Instance virtio_gpu_resource_create_2d_laws : ByteValuedLaws virtio_gpu_resource_create_2d.
Proof. byte_valued. Qed.

Record virtio_gpu_set_scanout := mk_set_scanout { set_scanout_r : virtio_gpu_rect; set_scanout_scanout_id : Z;
  set_scanout_resource_id : Z }.

#[export] Instance virtio_gpu_set_scanout_bytes : ByteValued virtio_gpu_set_scanout := {
  layout := (layout virtio_gpu_rect ++ [4; 4])%nat;
  to_fields a := to_fields (set_scanout_r a) ++ [set_scanout_scanout_id a; set_scanout_resource_id a];
  of_fields l := let f n := nth n l 0 in (mk_set_scanout (of_fields (take 4 (drop 0 l))) (f 4) (f 5))%nat }.
#[export] Instance virtio_gpu_set_scanout_laws : ByteValuedLaws virtio_gpu_set_scanout.
Proof. byte_valued. Qed.

Record virtio_gpu_resource_flush := mk_resource_flush { resource_flush_r : virtio_gpu_rect;
  resource_flush_resource_id : Z; resource_flush_padding : Z }.

#[export] Instance virtio_gpu_resource_flush_bytes : ByteValued virtio_gpu_resource_flush := {
  layout := (layout virtio_gpu_rect ++ [4; 4])%nat;
  to_fields a := to_fields (resource_flush_r a) ++ [resource_flush_resource_id a; resource_flush_padding a];
  of_fields l := let f n := nth n l 0 in (mk_resource_flush (of_fields (take 4 (drop 0 l))) (f 4) (f 5))%nat }.
#[export] Instance virtio_gpu_resource_flush_laws : ByteValuedLaws virtio_gpu_resource_flush.
Proof. byte_valued. Qed.

Record virtio_gpu_transfer_to_host_2d := mk_transfer_to_host_2d { transfer_to_host_2d_r : virtio_gpu_rect;
  transfer_to_host_2d_offset : Z; transfer_to_host_2d_resource_id : Z; transfer_to_host_2d_padding : Z }.

#[export] Instance virtio_gpu_transfer_to_host_2d_bytes : ByteValued virtio_gpu_transfer_to_host_2d := {
  layout := (layout virtio_gpu_rect ++ [8; 4; 4])%nat;
  to_fields a := to_fields (transfer_to_host_2d_r a) ++ [transfer_to_host_2d_offset a; transfer_to_host_2d_resource_id a;
    transfer_to_host_2d_padding a];
  of_fields l := let f n := nth n l 0 in (mk_transfer_to_host_2d (of_fields (take 4 (drop 0 l))) (f 4) (f 5) (f 6))%nat }.
#[export] Instance virtio_gpu_transfer_to_host_2d_laws : ByteValuedLaws virtio_gpu_transfer_to_host_2d.
Proof. byte_valued. Qed.

Record virtio_gpu_mem_entry := mk_mem_entry { mem_entry_addr : Z; mem_entry_length : Z; mem_entry_padding : Z }.

#[export] Instance virtio_gpu_mem_entry_bytes : ByteValued virtio_gpu_mem_entry := {
  layout := ([8; 4; 4])%nat;
  to_fields a := [mem_entry_addr a; mem_entry_length a; mem_entry_padding a];
  of_fields l := let f n := nth n l 0 in (mk_mem_entry (f 0) (f 1) (f 2))%nat }.
#[export] Instance virtio_gpu_mem_entry_laws : ByteValuedLaws virtio_gpu_mem_entry.
Proof. byte_valued. Qed.

Record virtio_gpu_resource_attach_backing := mk_resource_attach_backing { resource_attach_backing_resource_id : Z;
  resource_attach_backing_nr_entries : Z }.

#[export] Instance virtio_gpu_resource_attach_backing_bytes : ByteValued virtio_gpu_resource_attach_backing := {
  layout := ([4; 4])%nat;
  to_fields a := [resource_attach_backing_resource_id a; resource_attach_backing_nr_entries a];
  of_fields l := let f n := nth n l 0 in (mk_resource_attach_backing (f 0) (f 1))%nat }.
#[export] Instance virtio_gpu_resource_attach_backing_laws : ByteValuedLaws virtio_gpu_resource_attach_backing.
Proof. byte_valued. Qed.

Record virtio_gpu_resource_detach_backing := mk_resource_detach_backing { resource_detach_backing_resource_id : Z;
  resource_detach_backing_padding : Z }.

#[export] Instance virtio_gpu_resource_detach_backing_bytes : ByteValued virtio_gpu_resource_detach_backing := {
  layout := ([4; 4])%nat;
  to_fields a := [resource_detach_backing_resource_id a; resource_detach_backing_padding a];
  of_fields l := let f n := nth n l 0 in (mk_resource_detach_backing (f 0) (f 1))%nat }.
#[export] Instance virtio_gpu_resource_detach_backing_laws : ByteValuedLaws virtio_gpu_resource_detach_backing.
Proof. byte_valued. Qed.

Record virtio_gpu_display_one := mk_display_one { display_one_r : virtio_gpu_rect; display_one_enabled : Z;
  display_one_flags : Z }.

#[export] Instance virtio_gpu_display_one_bytes : ByteValued virtio_gpu_display_one := {
  layout := (layout virtio_gpu_rect ++ [4; 4])%nat;
  to_fields a := to_fields (display_one_r a) ++ [display_one_enabled a; display_one_flags a];
  of_fields l := let f n := nth n l 0 in (mk_display_one (of_fields (take 4 (drop 0 l))) (f 4) (f 5))%nat }.
#[export] Instance virtio_gpu_display_one_laws : ByteValuedLaws virtio_gpu_display_one.
Proof. byte_valued. Qed.

Record virtio_gpu_box := mk_box { box_x : Z; box_y : Z; box_z : Z; box_w : Z; box_h : Z; box_d : Z }.

#[export] Instance virtio_gpu_box_bytes : ByteValued virtio_gpu_box := {
  layout := ([4; 4; 4; 4; 4; 4])%nat;
  to_fields a := [box_x a; box_y a; box_z a; box_w a; box_h a; box_d a];
  of_fields l := let f n := nth n l 0 in (mk_box (f 0) (f 1) (f 2) (f 3) (f 4) (f 5))%nat }.
#[export] Instance virtio_gpu_box_laws : ByteValuedLaws virtio_gpu_box.
Proof. byte_valued. Qed.

Record virtio_gpu_transfer_host_3d := mk_transfer_host_3d { transfer_host_3d_box : virtio_gpu_box;
  transfer_host_3d_offset : Z; transfer_host_3d_resource_id : Z; transfer_host_3d_level : Z; transfer_host_3d_stride
  : Z; transfer_host_3d_layer_stride : Z }.

#[export] Instance virtio_gpu_transfer_host_3d_bytes : ByteValued virtio_gpu_transfer_host_3d := {
  layout := (layout virtio_gpu_box ++ [8; 4; 4; 4; 4])%nat;
  to_fields a := to_fields (transfer_host_3d_box a) ++ [transfer_host_3d_offset a; transfer_host_3d_resource_id a;
    transfer_host_3d_level a; transfer_host_3d_stride a; transfer_host_3d_layer_stride a];
  of_fields l := let f n := nth n l 0 in (mk_transfer_host_3d (of_fields (take 6 (drop 0 l))) (f 6) (f 7) (f 8) (f 9) (f 10))%nat }.
#[export] Instance virtio_gpu_transfer_host_3d_laws : ByteValuedLaws virtio_gpu_transfer_host_3d.
Proof. byte_valued. Qed.

Record virtio_gpu_resource_create_3d := mk_resource_create_3d { resource_create_3d_resource_id : Z;
  resource_create_3d_target : Z; resource_create_3d_format : Z; resource_create_3d_bind : Z; resource_create_3d_width
  : Z; resource_create_3d_height : Z; resource_create_3d_depth : Z; resource_create_3d_array_size : Z;
  resource_create_3d_last_level : Z; resource_create_3d_nr_samples : Z; resource_create_3d_flags : Z;
  resource_create_3d_padding : Z }.

#[export] Instance virtio_gpu_resource_create_3d_bytes : ByteValued virtio_gpu_resource_create_3d := {
  layout := ([4; 4; 4; 4; 4; 4; 4; 4; 4; 4; 4; 4])%nat;
  to_fields a := [resource_create_3d_resource_id a; resource_create_3d_target a; resource_create_3d_format a;
    resource_create_3d_bind a; resource_create_3d_width a; resource_create_3d_height a; resource_create_3d_depth a;
    resource_create_3d_array_size a; resource_create_3d_last_level a; resource_create_3d_nr_samples a;
    resource_create_3d_flags a; resource_create_3d_padding a];
  of_fields l := let f n := nth n l 0 in (mk_resource_create_3d (f 0) (f 1) (f 2) (f 3) (f 4) (f 5) (f 6) (f 7) (f 8) (f 9) (f 10) (f 11))%nat }.
#[export] Instance virtio_gpu_resource_create_3d_laws : ByteValuedLaws virtio_gpu_resource_create_3d.
Proof. byte_valued. Qed.

Record virtio_gpu_ctx_create := mk_ctx_create { ctx_create_nlen : Z; ctx_create_context_init : Z;
  ctx_create_debug_name : Z }.

#[export] Instance virtio_gpu_ctx_create_bytes : ByteValued virtio_gpu_ctx_create := {
  layout := ([4; 4; 64])%nat;
  to_fields a := [ctx_create_nlen a; ctx_create_context_init a; ctx_create_debug_name a];
  of_fields l := let f n := nth n l 0 in (mk_ctx_create (f 0) (f 1) (f 2))%nat }.
#[export] Instance virtio_gpu_ctx_create_laws : ByteValuedLaws virtio_gpu_ctx_create.
Proof. byte_valued. Qed.

Inductive virtio_gpu_ctx_destroy := mk_ctx_destroy.

#[export] Instance virtio_gpu_ctx_destroy_bytes : ByteValued virtio_gpu_ctx_destroy := {
  layout := ([])%nat;
  to_fields a := [];
  of_fields l := (mk_ctx_destroy )%nat }.
#[export] Instance virtio_gpu_ctx_destroy_laws : ByteValuedLaws virtio_gpu_ctx_destroy.
Proof. byte_valued. Qed.

Record virtio_gpu_ctx_resource := mk_ctx_resource { ctx_resource_resource_id : Z; ctx_resource_padding : Z }.

#[export] Instance virtio_gpu_ctx_resource_bytes : ByteValued virtio_gpu_ctx_resource := {
  layout := ([4; 4])%nat;
  to_fields a := [ctx_resource_resource_id a; ctx_resource_padding a];
  of_fields l := let f n := nth n l 0 in (mk_ctx_resource (f 0) (f 1))%nat }.
#[export] Instance virtio_gpu_ctx_resource_laws : ByteValuedLaws virtio_gpu_ctx_resource.
Proof. byte_valued. Qed.

Record virtio_gpu_cmd_submit := mk_cmd_submit { cmd_submit_size : Z; cmd_submit_num_in_fences : Z }.

#[export] Instance virtio_gpu_cmd_submit_bytes : ByteValued virtio_gpu_cmd_submit := {
  layout := ([4; 4])%nat;
  to_fields a := [cmd_submit_size a; cmd_submit_num_in_fences a];
  of_fields l := let f n := nth n l 0 in (mk_cmd_submit (f 0) (f 1))%nat }.
#[export] Instance virtio_gpu_cmd_submit_laws : ByteValuedLaws virtio_gpu_cmd_submit.
Proof. byte_valued. Qed.

Record virtio_gpu_get_capset_info := mk_get_capset_info { get_capset_info_capset_index : Z; get_capset_info_padding
  : Z }.

#[export] Instance virtio_gpu_get_capset_info_bytes : ByteValued virtio_gpu_get_capset_info := {
  layout := ([4; 4])%nat;
  to_fields a := [get_capset_info_capset_index a; get_capset_info_padding a];
  of_fields l := let f n := nth n l 0 in (mk_get_capset_info (f 0) (f 1))%nat }.
#[export] Instance virtio_gpu_get_capset_info_laws : ByteValuedLaws virtio_gpu_get_capset_info.
Proof. byte_valued. Qed.

Record virtio_gpu_resp_capset_info := mk_resp_capset_info { resp_capset_info_hdr : virtio_gpu_ctrl_hdr;
  resp_capset_info_capset_id : Z; resp_capset_info_capset_max_version : Z; resp_capset_info_capset_max_size : Z;
  resp_capset_info_padding : Z }.

#[export] Instance virtio_gpu_resp_capset_info_bytes : ByteValued virtio_gpu_resp_capset_info := {
  layout := (layout virtio_gpu_ctrl_hdr ++ [4; 4; 4; 4])%nat;
  to_fields a := to_fields (resp_capset_info_hdr a) ++ [resp_capset_info_capset_id a; resp_capset_info_capset_max_version a;
    resp_capset_info_capset_max_size a; resp_capset_info_padding a];
  of_fields l := let f n := nth n l 0 in (mk_resp_capset_info (of_fields (take 6 (drop 0 l))) (f 6) (f 7) (f 8) (f 9))%nat }.
#[export] Instance virtio_gpu_resp_capset_info_laws : ByteValuedLaws virtio_gpu_resp_capset_info.
Proof. byte_valued. Qed.

Record virtio_gpu_get_capset := mk_get_capset { get_capset_capset_id : Z; get_capset_capset_version : Z }.

#[export] Instance virtio_gpu_get_capset_bytes : ByteValued virtio_gpu_get_capset := {
  layout := ([4; 4])%nat;
  to_fields a := [get_capset_capset_id a; get_capset_capset_version a];
  of_fields l := let f n := nth n l 0 in (mk_get_capset (f 0) (f 1))%nat }.
#[export] Instance virtio_gpu_get_capset_laws : ByteValuedLaws virtio_gpu_get_capset.
Proof. byte_valued. Qed.

Record virtio_gpu_resp_resource_plane_info := mk_resp_resource_plane_info { resp_resource_plane_info_hdr :
  virtio_gpu_ctrl_hdr; resp_resource_plane_info_count : Z; resp_resource_plane_info_padding : Z;
  resp_resource_plane_info_format_modifier : Z; resp_resource_plane_info_strides : u32x4;
  resp_resource_plane_info_offsets : u32x4 }.

#[export] Instance virtio_gpu_resp_resource_plane_info_bytes : ByteValued virtio_gpu_resp_resource_plane_info := {
  layout := (layout virtio_gpu_ctrl_hdr ++ [4; 4; 8] ++ layout u32x4 ++ layout u32x4)%nat;
  to_fields a := to_fields (resp_resource_plane_info_hdr a) ++ [resp_resource_plane_info_count a; resp_resource_plane_info_padding
    a; resp_resource_plane_info_format_modifier a] ++ to_fields (resp_resource_plane_info_strides a) ++ to_fields
    (resp_resource_plane_info_offsets a);
  of_fields l := let f n := nth n l 0 in (mk_resp_resource_plane_info (of_fields (take 6 (drop 0 l))) (f 6) (f 7) (f 8) (of_fields (take 4 (drop 9 l)))
    (of_fields (take 4 (drop 13 l))))%nat }.
#[export] Instance virtio_gpu_resp_resource_plane_info_laws : ByteValuedLaws virtio_gpu_resp_resource_plane_info.
Proof. byte_valued. Qed.

Record virtio_gpu_resource_create_blob := mk_resource_create_blob { resource_create_blob_resource_id : Z;
  resource_create_blob_blob_mem : Z; resource_create_blob_blob_flags : Z; resource_create_blob_nr_entries : Z;
  resource_create_blob_blob_id : Z; resource_create_blob_size : Z }.

#[export] Instance virtio_gpu_resource_create_blob_bytes : ByteValued virtio_gpu_resource_create_blob := {
  layout := ([4; 4; 4; 4; 8; 8])%nat;
  to_fields a := [resource_create_blob_resource_id a; resource_create_blob_blob_mem a; resource_create_blob_blob_flags a;
    resource_create_blob_nr_entries a; resource_create_blob_blob_id a; resource_create_blob_size a];
  of_fields l := let f n := nth n l 0 in (mk_resource_create_blob (f 0) (f 1) (f 2) (f 3) (f 4) (f 5))%nat }.
#[export] Instance virtio_gpu_resource_create_blob_laws : ByteValuedLaws virtio_gpu_resource_create_blob.
Proof. byte_valued. Qed.

Record virtio_gpu_resource_map_blob := mk_resource_map_blob { resource_map_blob_resource_id : Z;
  resource_map_blob_padding : Z; resource_map_blob_offset : Z }.

#[export] Instance virtio_gpu_resource_map_blob_bytes : ByteValued virtio_gpu_resource_map_blob := {
  layout := ([4; 4; 8])%nat;
  to_fields a := [resource_map_blob_resource_id a; resource_map_blob_padding a; resource_map_blob_offset a];
  of_fields l := let f n := nth n l 0 in (mk_resource_map_blob (f 0) (f 1) (f 2))%nat }.
#[export] Instance virtio_gpu_resource_map_blob_laws : ByteValuedLaws virtio_gpu_resource_map_blob.
Proof. byte_valued. Qed.

Record virtio_gpu_resource_unmap_blob := mk_resource_unmap_blob { resource_unmap_blob_resource_id : Z;
  resource_unmap_blob_padding : Z }.

#[export] Instance virtio_gpu_resource_unmap_blob_bytes : ByteValued virtio_gpu_resource_unmap_blob := {
  layout := ([4; 4])%nat;
  to_fields a := [resource_unmap_blob_resource_id a; resource_unmap_blob_padding a];
  of_fields l := let f n := nth n l 0 in (mk_resource_unmap_blob (f 0) (f 1))%nat }.
#[export] Instance virtio_gpu_resource_unmap_blob_laws : ByteValuedLaws virtio_gpu_resource_unmap_blob.
Proof. byte_valued. Qed.

Record virtio_gpu_resp_map_info := mk_resp_map_info { resp_map_info_hdr : virtio_gpu_ctrl_hdr;
  resp_map_info_map_info : Z; resp_map_info_padding : Z }.

#[export] Instance virtio_gpu_resp_map_info_bytes : ByteValued virtio_gpu_resp_map_info := {
  layout := (layout virtio_gpu_ctrl_hdr ++ [4; 4])%nat;
  to_fields a := to_fields (resp_map_info_hdr a) ++ [resp_map_info_map_info a; resp_map_info_padding a];
  of_fields l := let f n := nth n l 0 in (mk_resp_map_info (of_fields (take 6 (drop 0 l))) (f 6) (f 7))%nat }.
#[export] Instance virtio_gpu_resp_map_info_laws : ByteValuedLaws virtio_gpu_resp_map_info.
Proof. byte_valued. Qed.

Record virtio_gpu_resource_assign_uuid := mk_resource_assign_uuid { resource_assign_uuid_resource_id : Z;
  resource_assign_uuid_padding : Z }.

#[export] Instance virtio_gpu_resource_assign_uuid_bytes : ByteValued virtio_gpu_resource_assign_uuid := {
  layout := ([4; 4])%nat;
  to_fields a := [resource_assign_uuid_resource_id a; resource_assign_uuid_padding a];
  of_fields l := let f n := nth n l 0 in (mk_resource_assign_uuid (f 0) (f 1))%nat }.
#[export] Instance virtio_gpu_resource_assign_uuid_laws : ByteValuedLaws virtio_gpu_resource_assign_uuid.
Proof. byte_valued. Qed.

Record virtio_gpu_resp_resource_uuid := mk_resp_resource_uuid { resp_resource_uuid_hdr : virtio_gpu_ctrl_hdr;
  resp_resource_uuid_uuid : Z }.

#[export] Instance virtio_gpu_resp_resource_uuid_bytes : ByteValued virtio_gpu_resp_resource_uuid := {
  layout := (layout virtio_gpu_ctrl_hdr ++ [16])%nat;
  to_fields a := to_fields (resp_resource_uuid_hdr a) ++ [resp_resource_uuid_uuid a];
  of_fields l := let f n := nth n l 0 in (mk_resp_resource_uuid (of_fields (take 6 (drop 0 l))) (f 6))%nat }.
#[export] Instance virtio_gpu_resp_resource_uuid_laws : ByteValuedLaws virtio_gpu_resp_resource_uuid.
Proof. byte_valued. Qed.

Record virtio_gpu_set_scanout_blob := mk_set_scanout_blob { set_scanout_blob_r : virtio_gpu_rect;
  set_scanout_blob_scanout_id : Z; set_scanout_blob_resource_id : Z; set_scanout_blob_width : Z;
  set_scanout_blob_height : Z; set_scanout_blob_format : Z; set_scanout_blob_padding : Z; set_scanout_blob_strides :
  u32x4; set_scanout_blob_offsets : u32x4 }.

#[export] Instance virtio_gpu_set_scanout_blob_bytes : ByteValued virtio_gpu_set_scanout_blob := {
  layout := (layout virtio_gpu_rect ++ [4; 4; 4; 4; 4; 4] ++ layout u32x4 ++ layout u32x4)%nat;
  to_fields a := to_fields (set_scanout_blob_r a) ++ [set_scanout_blob_scanout_id a; set_scanout_blob_resource_id a;
    set_scanout_blob_width a; set_scanout_blob_height a; set_scanout_blob_format a; set_scanout_blob_padding a] ++
    to_fields (set_scanout_blob_strides a) ++ to_fields (set_scanout_blob_offsets a);
  of_fields l := let f n := nth n l 0 in (mk_set_scanout_blob (of_fields (take 4 (drop 0 l))) (f 4) (f 5) (f 6) (f 7) (f 8) (f 9) (of_fields (take 4 (drop
    10 l))) (of_fields (take 4 (drop 14 l))))%nat }.
#[export] Instance virtio_gpu_set_scanout_blob_laws : ByteValuedLaws virtio_gpu_set_scanout_blob.
Proof. byte_valued. Qed.


(** ** Commands *)

Inductive GpuCommand :=
| GetDisplayInfo (info : virtio_gpu_ctrl_hdr)
| ResourceCreate2d (info : virtio_gpu_resource_create_2d)
| ResourceUnref (info : virtio_gpu_resource_unref)
| SetScanout (info : virtio_gpu_set_scanout)
| SetScanoutBlob (info : virtio_gpu_set_scanout_blob)
| ResourceFlush (info : virtio_gpu_resource_flush)
| TransferToHost2d (info : virtio_gpu_transfer_to_host_2d)
| ResourceAttachBacking (info : virtio_gpu_resource_attach_backing)
| ResourceDetachBacking (info : virtio_gpu_resource_detach_backing)
| GetCapsetInfo (info : virtio_gpu_get_capset_info)
| GetCapset (info : virtio_gpu_get_capset)
| CtxCreate (info : virtio_gpu_ctx_create)
| CtxDestroy (info : virtio_gpu_ctx_destroy)
| CtxAttachResource (info : virtio_gpu_ctx_resource)
| CtxDetachResource (info : virtio_gpu_ctx_resource)
| ResourceCreate3d (info : virtio_gpu_resource_create_3d)
| TransferToHost3d (info : virtio_gpu_transfer_host_3d)
| TransferFromHost3d (info : virtio_gpu_transfer_host_3d)
| CmdSubmit3d (info : virtio_gpu_cmd_submit)
| ResourceCreateBlob (info : virtio_gpu_resource_create_blob)
| ResourceMapBlob (info : virtio_gpu_resource_map_blob)
| ResourceUnmapBlob (info : virtio_gpu_resource_unmap_blob)
| UpdateCursor (info : virtio_gpu_update_cursor)
| MoveCursor (info : virtio_gpu_update_cursor)
| ResourceAssignUuid (info : virtio_gpu_resource_assign_uuid).

Inductive GpuCommandDecodeError := InvalidType (t : Z) | DecodeIO (e : IoError).

Section decode.
Context {M : Type} `{GuestMemory M} (m : M).

(** [cmd.read_obj()] of a structure. *)
Definition read_struct {A B} `{ByteValued A} (f : A -> B) (c : DescriptorChainConsumer) : outcome (result GpuCommandDecodeError B * DescriptorChainConsumer) :=
  '(r, c) ← read_obj m c (size_of A);
  Ret (match r with Ok bs => Ok (f (from_slice bs)) | Err e => Err (DecodeIO e) end, c).

Definition decode_command (t : Z) (c : DescriptorChainConsumer) : outcome (result GpuCommandDecodeError GpuCommand * DescriptorChainConsumer) :=
  if t =? VIRTIO_GPU_CMD_GET_DISPLAY_INFO then read_struct GetDisplayInfo c
  else if t =? VIRTIO_GPU_CMD_RESOURCE_CREATE_2D then read_struct ResourceCreate2d c
  else if t =? VIRTIO_GPU_CMD_RESOURCE_UNREF then read_struct ResourceUnref c
  else if t =? VIRTIO_GPU_CMD_SET_SCANOUT then read_struct SetScanout c
  else if t =? VIRTIO_GPU_CMD_SET_SCANOUT_BLOB then read_struct SetScanoutBlob c
  else if t =? VIRTIO_GPU_CMD_RESOURCE_FLUSH then read_struct ResourceFlush c
  else if t =? VIRTIO_GPU_CMD_TRANSFER_TO_HOST_2D then read_struct TransferToHost2d c
  else if t =? VIRTIO_GPU_CMD_RESOURCE_ATTACH_BACKING then read_struct ResourceAttachBacking c
  else if t =? VIRTIO_GPU_CMD_RESOURCE_DETACH_BACKING then read_struct ResourceDetachBacking c
  else if t =? VIRTIO_GPU_CMD_GET_CAPSET_INFO then read_struct GetCapsetInfo c
  else if t =? VIRTIO_GPU_CMD_GET_CAPSET then read_struct GetCapset c
  else if t =? VIRTIO_GPU_CMD_CTX_CREATE then read_struct CtxCreate c
  else if t =? VIRTIO_GPU_CMD_CTX_DESTROY then read_struct CtxDestroy c
  else if t =? VIRTIO_GPU_CMD_CTX_ATTACH_RESOURCE then read_struct CtxAttachResource c
  else if t =? VIRTIO_GPU_CMD_CTX_DETACH_RESOURCE then read_struct CtxDetachResource c
  else if t =? VIRTIO_GPU_CMD_RESOURCE_CREATE_3D then read_struct ResourceCreate3d c
  else if t =? VIRTIO_GPU_CMD_TRANSFER_TO_HOST_3D then read_struct TransferToHost3d c
  else if t =? VIRTIO_GPU_CMD_TRANSFER_FROM_HOST_3D then read_struct TransferFromHost3d c
  else if t =? VIRTIO_GPU_CMD_SUBMIT_3D then read_struct CmdSubmit3d c
  else if t =? VIRTIO_GPU_CMD_RESOURCE_CREATE_BLOB then read_struct ResourceCreateBlob c
  else if t =? VIRTIO_GPU_CMD_RESOURCE_MAP_BLOB then read_struct ResourceMapBlob c
  else if t =? VIRTIO_GPU_CMD_RESOURCE_UNMAP_BLOB then read_struct ResourceUnmapBlob c
  else if t =? VIRTIO_GPU_CMD_UPDATE_CURSOR then read_struct UpdateCursor c
  else if t =? VIRTIO_GPU_CMD_MOVE_CURSOR then read_struct MoveCursor c
  else if t =? VIRTIO_GPU_CMD_RESOURCE_ASSIGN_UUID then read_struct ResourceAssignUuid c
  else Ret (Err (InvalidType t), c).

Definition decode (c : DescriptorChainConsumer) : outcome (result GpuCommandDecodeError (virtio_gpu_ctrl_hdr * GpuCommand) * DescriptorChainConsumer) :=
  '(r, c) ← read_struct (fun h : virtio_gpu_ctrl_hdr => h) c;
  match r with
  | Err e => Ret (Err e, c)
  | Ok hdr =>
      '(r, c) ← decode_command (ctrl_hdr_type hdr) c;
      Ret (match r with Ok cmd => Ok (hdr, cmd) | Err e => Err e end, c)
  end.
End decode.

(** ** Responses *)

Record GpuResponsePlaneInfo := mkPlane { stride : Z; offset : Z }.

Inductive GpuResponse :=
| OkNoData
| OkDisplayInfo (info : list (Z * Z * bool))
| OkCapsetInfo (capset_id version size : Z)
| OkCapset (data : list byte)
| OkResourcePlaneInfo (format_modifier : Z) (plane_info : list GpuResponsePlaneInfo)
| OkResourceUuid (uuid : list byte)
| OkMapInfo (map_info : Z)
| ErrUnspec
| ErrRutabaga (e : Rutabaga.RutabagaError)
| ErrScanout (num_scanouts : Z)
| ErrOutOfMemory
| ErrInvalidScanoutId
| ErrInvalidResourceId
| ErrInvalidContextId
| ErrInvalidParameter.

Inductive GpuResponseEncodeError := EncodeIO (e : IoError) | TooManyDisplays (n : nat) | TooManyPlanes (n : nat).

Definition VirtioGpuResult : Type := result GpuResponse GpuResponse.

Definition get_type (r : GpuResponse) : Z :=
  match r with
  | OkNoData => VIRTIO_GPU_RESP_OK_NODATA
  | OkDisplayInfo _ => VIRTIO_GPU_RESP_OK_DISPLAY_INFO
  | OkCapsetInfo _ _ _ => VIRTIO_GPU_RESP_OK_CAPSET_INFO
  | OkCapset _ => VIRTIO_GPU_RESP_OK_CAPSET
  | OkResourcePlaneInfo _ _ => VIRTIO_GPU_RESP_OK_RESOURCE_PLANE_INFO
  | OkResourceUuid _ => VIRTIO_GPU_RESP_OK_RESOURCE_UUID
  | OkMapInfo _ => VIRTIO_GPU_RESP_OK_MAP_INFO
  | ErrUnspec | ErrRutabaga _ | ErrScanout _ => VIRTIO_GPU_RESP_ERR_UNSPEC
  | ErrOutOfMemory => VIRTIO_GPU_RESP_ERR_OUT_OF_MEMORY
  | ErrInvalidScanoutId => VIRTIO_GPU_RESP_ERR_INVALID_SCANOUT_ID
  | ErrInvalidResourceId => VIRTIO_GPU_RESP_ERR_INVALID_RESOURCE_ID
  | ErrInvalidContextId => VIRTIO_GPU_RESP_ERR_INVALID_CONTEXT_ID
  | ErrInvalidParameter => VIRTIO_GPU_RESP_ERR_INVALID_PARAMETER
  end.

Definition set_type (h : virtio_gpu_ctrl_hdr) (t : Z) : virtio_gpu_ctrl_hdr :=
  mk_ctrl_hdr t (ctrl_hdr_flags h) (ctrl_hdr_fence_id h) (ctrl_hdr_ctx_id h) (ctrl_hdr_ring_idx h) (ctrl_hdr_padding h).

(** [virtio_gpu_resp_display_info]: the modes given, then disabled ones. *)
Definition display_bytes (hdr : virtio_gpu_ctrl_hdr) (info : list (Z * Z * bool)) : list byte :=
  let mode w h e := mk_display_one (mk_rect 0 0 w h) e 0 in
  as_slice hdr ++ concat (as_slice <$> ((fun '(w, h, e) => mode w h (if e : bool then 1 else 0)) <$> info) ++ replicate (VIRTIO_GPU_MAX_SCANOUTS - length info) (mode 0 0 0)).

(** The first four of a list, filled up with zeros. *)
Definition four (l : list Z) : u32x4 := let f n := nth n l 0 in quad (f 0%nat) (f 1%nat) (f 2%nat) (f 3%nat).

Definition plane_struct (hdr : virtio_gpu_ctrl_hdr) (format_modifier : Z) (plane_info : list GpuResponsePlaneInfo) : virtio_gpu_resp_resource_plane_info :=
  mk_resp_resource_plane_info hdr (wrap 32 (Z.of_nat (length plane_info))) 0 format_modifier (four (stride <$> plane_info)) (four (offset <$> plane_info)).

Section encode.
Context {M : Type} `{GuestMemory M}.

(** [resp.write_obj(..)?] and the length answered after it. *)
Definition send (bs : list byte) (c : DescriptorChainConsumer) (m : M) : outcome (result GpuResponseEncodeError Z * DescriptorChainConsumer * M) :=
  '(r, c, m) ← write_obj m c bs;
  Ret (match r with Ok _ => Ok (Zlength bs) | Err e => Err (EncodeIO e) end, c, m).

Definition encode (r : GpuResponse) (flags fence_id ctx_id ring_idx : Z) (c : DescriptorChainConsumer) (m : M)
    : outcome (result GpuResponseEncodeError Z * DescriptorChainConsumer * M) :=
  let hdr := mk_ctrl_hdr (get_type r) flags fence_id ctx_id ring_idx 0 in
  '(len, c, m) ← match r with
    | OkDisplayInfo info =>
        if (VIRTIO_GPU_MAX_SCANOUTS <? length info)%nat then Ret (Err (TooManyDisplays (length info)), c, m)
        else send (display_bytes hdr info) c m
    | OkCapsetInfo id version size => send (as_slice (mk_resp_capset_info hdr id version size 0)) c m
    | OkCapset data =>
        '(r, c, m) ← send (as_slice hdr) c m;
        match r with
        | Err e => Ret (Err e, c, m)
        | Ok n =>
            '(r, c, m) ← write_all (length data) m c data;
            Ret (match r with Ok _ => Ok (n + Zlength data) | Err e => Err (EncodeIO e) end, c, m)
        end
    | OkResourcePlaneInfo modifier planes =>
        if (PLANE_INFO_MAX_COUNT <? length planes)%nat then Ret (Err (TooManyPlanes (length planes)), c, m)
        else
          let info := plane_struct hdr modifier planes in
          if Z.of_nat (size_of virtio_gpu_resp_resource_plane_info) <=? available_bytes c then send (as_slice info) c m
          else send (as_slice (set_type hdr VIRTIO_GPU_RESP_OK_NODATA)) c m
    | OkResourceUuid uuid => send (as_slice (mk_resp_resource_uuid hdr (le_val uuid))) c m
    | OkMapInfo info => send (as_slice (mk_resp_map_info hdr info 0)) c m
    | _ => send (as_slice hdr) c m
    end;
  Ret (match len with Ok n => Ok (wrap 32 n) | Err e => Err e end, c, m).
End encode.

(** ** Commands and their bytes *)

(** The type of a command, and its structure's bytes. *)
Definition command_type (c : GpuCommand) : Z :=
  match c with
  | GetDisplayInfo _ => VIRTIO_GPU_CMD_GET_DISPLAY_INFO
  | ResourceCreate2d _ => VIRTIO_GPU_CMD_RESOURCE_CREATE_2D
  | ResourceUnref _ => VIRTIO_GPU_CMD_RESOURCE_UNREF
  | SetScanout _ => VIRTIO_GPU_CMD_SET_SCANOUT
  | SetScanoutBlob _ => VIRTIO_GPU_CMD_SET_SCANOUT_BLOB
  | ResourceFlush _ => VIRTIO_GPU_CMD_RESOURCE_FLUSH
  | TransferToHost2d _ => VIRTIO_GPU_CMD_TRANSFER_TO_HOST_2D
  | ResourceAttachBacking _ => VIRTIO_GPU_CMD_RESOURCE_ATTACH_BACKING
  | ResourceDetachBacking _ => VIRTIO_GPU_CMD_RESOURCE_DETACH_BACKING
  | GetCapsetInfo _ => VIRTIO_GPU_CMD_GET_CAPSET_INFO
  | GetCapset _ => VIRTIO_GPU_CMD_GET_CAPSET
  | CtxCreate _ => VIRTIO_GPU_CMD_CTX_CREATE
  | CtxDestroy _ => VIRTIO_GPU_CMD_CTX_DESTROY
  | CtxAttachResource _ => VIRTIO_GPU_CMD_CTX_ATTACH_RESOURCE
  | CtxDetachResource _ => VIRTIO_GPU_CMD_CTX_DETACH_RESOURCE
  | ResourceCreate3d _ => VIRTIO_GPU_CMD_RESOURCE_CREATE_3D
  | TransferToHost3d _ => VIRTIO_GPU_CMD_TRANSFER_TO_HOST_3D
  | TransferFromHost3d _ => VIRTIO_GPU_CMD_TRANSFER_FROM_HOST_3D
  | CmdSubmit3d _ => VIRTIO_GPU_CMD_SUBMIT_3D
  | ResourceCreateBlob _ => VIRTIO_GPU_CMD_RESOURCE_CREATE_BLOB
  | ResourceMapBlob _ => VIRTIO_GPU_CMD_RESOURCE_MAP_BLOB
  | ResourceUnmapBlob _ => VIRTIO_GPU_CMD_RESOURCE_UNMAP_BLOB
  | UpdateCursor _ => VIRTIO_GPU_CMD_UPDATE_CURSOR
  | MoveCursor _ => VIRTIO_GPU_CMD_MOVE_CURSOR
  | ResourceAssignUuid _ => VIRTIO_GPU_CMD_RESOURCE_ASSIGN_UUID
  end.

(** [f] of the structure in a command. *)
Definition of_payload {R} (f : forall A, ByteValued A -> A -> R) (c : GpuCommand) : R :=
  match c with
  | GetDisplayInfo i => f _ _ i | ResourceCreate2d i => f _ _ i | ResourceUnref i => f _ _ i | SetScanout i => f _ _ i
  | SetScanoutBlob i => f _ _ i | ResourceFlush i => f _ _ i | TransferToHost2d i => f _ _ i | ResourceAttachBacking i => f _ _ i
  | ResourceDetachBacking i => f _ _ i | GetCapsetInfo i => f _ _ i | GetCapset i => f _ _ i | CtxCreate i => f _ _ i
  | CtxDestroy i => f _ _ i | CtxAttachResource i => f _ _ i | CtxDetachResource i => f _ _ i | ResourceCreate3d i => f _ _ i
  | TransferToHost3d i => f _ _ i | TransferFromHost3d i => f _ _ i | CmdSubmit3d i => f _ _ i | ResourceCreateBlob i => f _ _ i
  | ResourceMapBlob i => f _ _ i | ResourceUnmapBlob i => f _ _ i | UpdateCursor i => f _ _ i | MoveCursor i => f _ _ i
  | ResourceAssignUuid i => f _ _ i
  end.

Definition payload : GpuCommand -> list byte := of_payload (fun A _ i => as_slice i).
Definition payload_in_range : GpuCommand -> Prop := of_payload (fun A _ i => in_range i).

Definition command_types : list Z := [0x100; 0x101; 0x102; 0x103; 0x104; 0x105; 0x106; 0x107; 0x108; 0x109; 0x10b; 0x10c; 0x10d;
  0x200; 0x201; 0x202; 0x203; 0x204; 0x205; 0x206; 0x207; 0x208; 0x209; 0x300; 0x301].

Section decoding.
Context {M : Type} `{GuestMemoryLaws M}.

(** What a reader still holds. *)
Definition holds (m : M) (c : DescriptorChainConsumer) (d : list byte) : Prop :=
  slices_ok (buffers c) /\ contents m (buffers c) = Some d /\ 0 <= bytes_consumed c /\ bytes_consumed c + Zlength d < 2 ^ 64.

Lemma read_struct_holds {A B} `{ByteValuedLaws A} (f : A -> B) m c d :
  holds m c d ->
  if (size_of A <=? length d)%nat
  then exists c', read_struct m f c = Ret (Ok (f (from_slice (take (size_of A) d))), c') /\ holds m c' (drop (size_of A) d)
  else exists c', read_struct m f c = Ret (Err (DecodeIO UnexpectedEof), c').
Proof.
  intros (Hs & Hd & Hn & Hl). unfold read_struct. pose proof (DescUtils.read_obj_correct m c (size_of A) d Hs Hd Hn Hl) as Hr.
  destruct (Nat.leb_spec (size_of A) (length d)) as [Hle|Hgt].
  - destruct Hr as (c' & -> & Hc & Hs' & Hb). exists c'. split; [done|]. split_and!; [done..|lia|]. rewrite length_drop. lia.
  - destruct Hr as (c' & ->). by exists c'.
Qed.

Lemma read_struct_exact {A B} `{ByteValuedLaws A} (f : A -> B) m c (a : A) rest :
  in_range a -> holds m c (as_slice a ++ rest) -> exists c', read_struct m f c = Ret (Ok (f a), c') /\ holds m c' rest.
Proof.
  intros Ha Hc. apply (read_struct_holds f) in Hc. rewrite length_app, length_as_slice in Hc.
  rewrite (proj2 (Nat.leb_le _ _)) in Hc by lia. destruct Hc as (c' & E & Hc). exists c'.
  rewrite take_app_length' in E by (symmetry; apply length_as_slice). rewrite drop_app_length' in Hc by (symmetry; apply length_as_slice).
  rewrite <- (app_nil_r (as_slice a)), from_as_slice in E by done. done.
Qed.

(** Either the structure, or an error. *)
Lemma read_struct_total {A B} `{ByteValuedLaws A} (f : A -> B) m c d :
  holds m c d -> exists r c', read_struct m f c = Ret (r, c').
Proof. intros Hc. apply (read_struct_holds f) in Hc. destruct (_ <=? _)%nat; destruct Hc as (c' & -> & _) || destruct Hc as (c' & ->); eauto. Qed.

Lemma decode_command_exact m c cmd rest :
  payload_in_range cmd -> holds m c (payload cmd ++ rest) -> exists c', decode_command m (command_type cmd) c = Ret (Ok cmd, c') /\ holds m c' rest.
Proof. destruct cmd; apply read_struct_exact. Qed.

(** Every type but those of the commands is refused. *)
Lemma decode_command_other m c t : t ∉ command_types -> decode_command m t c = Ret (Err (InvalidType t), c).
Proof.
  intros Ht. unfold decode_command.
  repeat match goal with |- context [t =? ?k] => destruct (Z.eqb_spec t k) as [E|_]; [destruct Ht; rewrite E; apply (bool_decide_unpack _); vm_compute; exact I|] end.
  done.
Qed.

Lemma decode_command_total m c d t : holds m c d -> exists r c', decode_command m t c = Ret (r, c').
Proof. intros Hc. unfold decode_command. repeat (destruct (_ =? _); [by eapply read_struct_total|]). eauto. Qed.

(** A request in guest memory is decoded without a panic: to its header and
    its command when it is one, with the reader left behind the command's
    structure; a header of another type, a short header and a short structure
    are errors. *)
Theorem decode_exact m c d :
  holds m c d ->
  (exists r c', decode m c = Ret (r, c')) /\
  (forall h cmd rest, d = as_slice h ++ payload cmd ++ rest -> in_range h -> payload_in_range cmd -> ctrl_hdr_type h = command_type cmd ->
     exists c', decode m c = Ret (Ok (h, cmd), c') /\ holds m c' rest) /\
  (forall h rest, d = as_slice h ++ rest -> in_range h -> ctrl_hdr_type h ∉ command_types ->
     exists c', decode m c = Ret (Err (InvalidType (ctrl_hdr_type h)), c')) /\
  ((length d < size_of virtio_gpu_ctrl_hdr)%nat -> exists c', decode m c = Ret (Err (DecodeIO UnexpectedEof), c')).
Proof.
  intros Hc. unfold decode. split_and!.
  - pose proof (read_struct_holds (fun h : virtio_gpu_ctrl_hdr => h) m c d Hc) as Hr. destruct (_ <=? _)%nat.
    + destruct Hr as (c1 & -> & Hc1). cbn [mbind outcome_bind]. destruct (decode_command_total m c1 _ (ctrl_hdr_type (from_slice (take (size_of virtio_gpu_ctrl_hdr) d))) Hc1) as (r & c2 & ->). cbn. eauto.
    + destruct Hr as (c1 & ->). cbn. eauto.
  - intros h cmd rest -> Hh Hp Ht. destruct (read_struct_exact (fun h : virtio_gpu_ctrl_hdr => h) m c h _ Hh Hc) as (c1 & -> & Hc1).
    cbn [mbind outcome_bind]. rewrite Ht. destruct (decode_command_exact m c1 cmd rest Hp Hc1) as (c2 & -> & Hc2). cbn. eauto.
  - intros h rest -> Hh Ht. destruct (read_struct_exact (fun h : virtio_gpu_ctrl_hdr => h) m c h _ Hh Hc) as (c1 & -> & Hc1).
    cbn [mbind outcome_bind]. rewrite decode_command_other by done. cbn. eauto.
  - intros Hl. pose proof (read_struct_holds (fun h : virtio_gpu_ctrl_hdr => h) m c d Hc) as Hr.
    rewrite (proj2 (Nat.leb_gt _ _)) in Hr by done. destruct Hr as (c1 & ->). cbn. eauto.
Qed.

(** A request for the display information that is only a header, as the
    protocol has it, is refused: the code reads a second header. *)
Lemma bare_display_info_refused m c h :
  holds m c (as_slice h) -> in_range h -> ctrl_hdr_type h = VIRTIO_GPU_CMD_GET_DISPLAY_INFO ->
  exists c', decode m c = Ret (Err (DecodeIO UnexpectedEof), c').
Proof.
  intros Hc Hh Ht. rewrite <- (app_nil_r (as_slice h)) in Hc. unfold decode.
  destruct (read_struct_exact (fun h : virtio_gpu_ctrl_hdr => h) m c h [] Hh Hc) as (c1 & -> & Hc1). cbn [mbind outcome_bind]. rewrite Ht. cbn [decode_command Z.eqb].
  apply (read_struct_holds GetDisplayInfo) in Hc1. cbn [length Nat.leb size_of] in Hc1. destruct Hc1 as (c2 & E).
  unfold decode_command. rewrite Z.eqb_refl, E. cbn. eauto.
Qed.
End decoding.

(** ** Responses and their bytes *)

(** What a response writes into a chain with [avail] bytes. *)
Definition response_bytes (r : GpuResponse) (hdr : virtio_gpu_ctrl_hdr) (avail : nat) : list byte :=
  match r with
  | OkDisplayInfo info => display_bytes hdr info
  | OkCapsetInfo id version size => as_slice (mk_resp_capset_info hdr id version size 0)
  | OkCapset data => as_slice hdr ++ data
  | OkResourcePlaneInfo modifier planes =>
      if (size_of virtio_gpu_resp_resource_plane_info <=? avail)%nat then as_slice (plane_struct hdr modifier planes)
      else as_slice (set_type hdr VIRTIO_GPU_RESP_OK_NODATA)
  | OkResourceUuid uuid => as_slice (mk_resp_resource_uuid hdr (le_val uuid))
  | OkMapInfo info => as_slice (mk_resp_map_info hdr info 0)
  | _ => as_slice hdr
  end.

(** Not more displays or planes than there are places for. *)
Definition well_formed (r : GpuResponse) : bool :=
  match r with
  | OkDisplayInfo info => (length info <=? VIRTIO_GPU_MAX_SCANOUTS)%nat
  | OkResourcePlaneInfo _ planes => (length planes <=? PLANE_INFO_MAX_COUNT)%nat
  | _ => true
  end.

Section encoding.
Context {M : Type} `{GuestMemoryLaws M}.

Lemma bytes_ok_concat (l : list (list byte)) : Forall bytes_ok l -> bytes_ok (concat l).
Proof. induction 1; [constructor|]. by apply Forall_app. Qed.

Lemma display_bytes_ok hdr info : bytes_ok (display_bytes hdr info).
Proof. apply Forall_app. split; [apply as_slice_ok|]. apply bytes_ok_concat, Forall_fmap, Forall_true. intros x. apply as_slice_ok. Qed.

Lemma room_available m c d : room m c d -> available_bytes c = Zlength d.
Proof.
  intros Hr. rewrite DescUtils.available_bytes_total; [symmetry; apply (DescUtils.contents_length m); apply Hr|apply Hr].
Qed.

(** One structure: written whole, or an error. *)
Lemma send_room m c bs d :
  room m c d -> bytes_ok bs ->
  exists r c' m', send bs c m = Ret (r, c', m') /\ framed c m m' /\
    if (length bs <=? length d)%nat
    then r = Ok (Zlength bs) /\ contents m' (buffers c) = Some (bs ++ drop (length bs) d) /\
      flat (buffers c') = drop (length bs) (flat (buffers c)) /\ room m' c' (drop (length bs) d)
    else r = Err (EncodeIO WriteZero).
Proof.
  intros Hr Hb. unfold send. destruct (DescUtils.write_obj_room m c bs d Hr Hb) as (r & c' & m' & -> & Hf & Hc). cbn [mbind outcome_bind].
  destruct (_ <=? _)%nat.
  - destruct Hc as (-> & Hc & Hfl & _ & Hr'). by do 3 eexists.
  - destruct Hc as (-> & _). by do 3 eexists.
Qed.

(** What a later write into the rest of a chain leaves of an earlier one. *)
Lemma prefix_kept m m' c c' x d' :
  NoDup (flat (buffers c)) -> Forall (fun vs => 0 <= DescUtils.vs_len vs) (buffers c) -> contents m (buffers c) = Some (x ++ d') -> flat (buffers c') = drop (length x) (flat (buffers c)) ->
  Forall (fun vs => 0 <= DescUtils.vs_len vs) (buffers c') ->
  framed c' m m' -> forall y, contents m' (buffers c') = Some y -> contents m' (buffers c) = Some (x ++ y).
Proof.
  intros Hnd Hs Hc Hfl Hfo Hf y Hy.
  destruct (DescUtils.contents_prefix_framed m m' (buffers c) c' (length x) (x ++ d')) as (e & He & Ht); [done| |done..|].
  { rewrite Hfl. intros a Ha Hin. rewrite <- (take_drop (length x) (flat (buffers c))), NoDup_app in Hnd.
    destruct Hnd as (_ & Hdis & _). by eapply Hdis. }
  rewrite take_app_length in Ht. rewrite He. f_equal. rewrite <- (take_drop (length x) e), Ht. f_equal.
  apply DescUtils.contents_flat in He, Hy; [|done..]. rewrite Hfl in Hy. apply (Forall2_drop _ _ _ (length x)) in He.
  remember (drop (length x) (flat (buffers c))) as fl eqn:E. remember (drop (length x) e) as ee eqn:Ee. clear - He Hy. revert y Hy.
  induction He; intros z Hz; inversion Hz; subst; [done|]. f_equal; [congruence|auto].
Qed.

(** The response in the chain: exactly its bytes, with their length as the
    answer, when it is well-formed and the writable part has room; otherwise an
    error.  Nothing outside the writable part changes. *)
Theorem encode_exact m c d r flags fence_id ctx_id ring_idx :
  room m c d -> 
  let bs := response_bytes r (mk_ctrl_hdr (get_type r) flags fence_id ctx_id ring_idx 0) (length d) in
  (forall data, r = OkCapset data -> bytes_ok data) ->
  exists res c' m', encode r flags fence_id ctx_id ring_idx c m = Ret (res, c', m') /\ framed c m m' /\
    if well_formed r && (length bs <=? length d)%nat
    then res = Ok (wrap 32 (Zlength bs)) /\ contents m' (buffers c) = Some (bs ++ drop (length bs) d)
    else exists e, res = Err e.
Proof.
  intros Hr bs Hcap. set (hdr := mk_ctrl_hdr _ _ _ _ _ _) in bs.
  assert (forall b : list byte, bytes_ok b -> exists res c' m',
    ('(len, c, m) ← send b c m; Ret (match len with Ok n => Ok (wrap 32 n) | Err e => Err e end, c, m)) = Ret (res, c', m') /\ framed c m m' /\
    if (length b <=? length d)%nat then res = Ok (wrap 32 (Zlength b)) /\ contents m' (buffers c) = Some (b ++ drop (length b) d) else exists e, res = Err e) as Hone.
  { intros b Hb. destruct (send_room m c b d Hr Hb) as (s & c' & m' & -> & Hf & Hs). cbn [mbind outcome_bind]. do 3 eexists. split; [done|]. split; [done|].
    destruct (_ <=? _)%nat; [destruct Hs as (-> & Hs & _); done|subst; eauto]. }
  unfold encode. fold hdr. destruct r; cbn [well_formed andb response_bytes] in *; try (apply Hone; apply as_slice_ok).
  - destruct (Nat.ltb_spec VIRTIO_GPU_MAX_SCANOUTS (length info)) as [Hlt|Hge].
    + rewrite (proj2 (Nat.leb_gt _ _)) by lia. cbn [mbind outcome_bind andb]. do 3 eexists. split; [done|]. split; [apply framed_refl|eauto].
    + rewrite (proj2 (Nat.leb_le _ _)) by lia. apply Hone, display_bytes_ok.
  - destruct (send_room m c (as_slice hdr) d Hr (as_slice_ok _)) as (s & c1 & m1 & -> & Hf1 & Hs). cbn [mbind outcome_bind]. subst bs. rewrite length_app in *.
    destruct (Nat.leb_spec (length (as_slice hdr)) (length d)) as [Hle|Hgt].
    + destruct Hs as (-> & Hc1 & Hfl & Hr1). specialize (Hcap _ eq_refl).
      destruct (DescUtils.write_obj_room m1 c1 data _ Hr1 Hcap) as (s & c2 & m2 & E & Hf2 & Hs). unfold write_obj in E. rewrite E. cbn [mbind outcome_bind].
      assert (framed c m m2) as Hf by (eapply framed_trans; [exact Hf1|eapply DescUtils.framed_sub; [|exact Hf2]; rewrite Hfl; apply subseteq_drop]).
      rewrite length_drop in Hs. destruct (Nat.leb_spec (length data) (length d - length (as_slice hdr))) as [Hle2|Hgt2].
      * rewrite (proj2 (Nat.leb_le _ _)) by lia. destruct Hs as (-> & Hc2 & _). do 3 eexists. split; [done|]. split; [done|]. split; [f_equal; f_equal; lia|].
        rewrite drop_drop in Hc2. rewrite <- (assoc_L (++)). eapply (prefix_kept m1); [apply Hr|apply Hr|exact Hc1|exact Hfl|apply Hr1|exact Hf2|exact Hc2].
      * rewrite (proj2 (Nat.leb_gt _ _)) by lia. destruct Hs as (-> & _). do 3 eexists. split; [done|]. split; [done|eauto].
    + rewrite (proj2 (Nat.leb_gt _ _)) by lia. subst s. do 3 eexists. split; [done|]. split; [done|eauto].
  - destruct (Nat.ltb_spec PLANE_INFO_MAX_COUNT (length plane_info)) as [Hlt|Hge].
    + rewrite (proj2 (Nat.leb_gt _ _)) by lia. cbn [mbind outcome_bind andb]. do 3 eexists. split; [done|]. split; [apply framed_refl|eauto].
    + rewrite (proj2 (Nat.leb_le _ _)) by lia. cbn [andb]. rewrite (room_available m c d) by done. subst bs.
      destruct (Nat.leb_spec (size_of virtio_gpu_resp_resource_plane_info) (length d)).
      * rewrite (proj2 (Z.leb_le _ _)) by lia. apply Hone, as_slice_ok.
      * rewrite (proj2 (Z.leb_gt _ _)) by lia. apply Hone, as_slice_ok.
Qed.
End encoding.

(** ** Witnesses: a request to drop a resource, and the answer behind it *)

Definition demo_hdr (t : Z) : virtio_gpu_ctrl_hdr := mk_ctrl_hdr t 1 7 3 0 0.
Definition demo_command : GpuCommand := ResourceUnref (mk_resource_unref 5 0).
Definition demo_request : list byte := as_slice (demo_hdr VIRTIO_GPU_CMD_RESOURCE_UNREF) ++ payload demo_command.
Definition demo_mem : FlatMem := mkFlat 0 (demo_request ++ replicate 32 0).
Definition demo_reader : DescriptorChainConsumer := mkConsumer [DescUtils.mkVS 0 32] 0.
Definition demo_writer : DescriptorChainConsumer := mkConsumer [DescUtils.mkVS 32 20; DescUtils.mkVS 52 12] 0.

Lemma decode_exact_witness : exists c',
  decode demo_mem demo_reader = Ret (Ok (demo_hdr VIRTIO_GPU_CMD_RESOURCE_UNREF, demo_command), c') /\ holds demo_mem c' [].
Proof.
  destruct (decode_exact demo_mem demo_reader demo_request) as (_ & Hd & _).
  - split; [apply DescUtils.slices_ok_demo; reflexivity|]. split; [reflexivity|]. split; vm_compute; congruence.
  - apply (Hd (demo_hdr VIRTIO_GPU_CMD_RESOURCE_UNREF) demo_command []); [reflexivity|..|reflexivity].
    + repeat (constructor; [vm_compute; split; congruence|]). constructor.
    + repeat (constructor; [vm_compute; split; congruence|]). constructor.
Defined.

Lemma encode_exact_witness : exists c' m',
  encode (OkMapInfo 3) 1 7 3 0 demo_writer demo_mem = Ret (Ok 32, c', m') /\
  contents m' (buffers demo_writer) = Some (as_slice (mk_resp_map_info (demo_hdr VIRTIO_GPU_RESP_OK_MAP_INFO) 3 0)).
Proof.
  destruct (encode_exact demo_mem demo_writer (replicate 32 0) (OkMapInfo 3) 1 7 3 0) as (res & c' & m' & E & _ & Hc).
  - split; [apply DescUtils.slices_ok_demo; reflexivity|apply (bool_decide_unpack _); vm_compute; exact I|reflexivity|cbn; lia].
  - discriminate.
  - destruct Hc as [-> Hc]. exists c', m'. split; [exact E|]. rewrite Hc. reflexivity.
Defined.
End GpuAbi.
