(* ===== verification/Gpu.v ===== *)
(** * The graphics device ([devices/src/virtio/gpu/])

    The worker pops commands of the control queue, runs them on the graphics
    library ([Rutabaga]) and answers; the answer to a fenced command waits until
    the library reports the fence, from a thread of its own.  Linux hosts, for
    both ways of mapping blobs.  Host mappings, the interrupt event and the
    library are parameters.  The theorems: in every interleaving a popped chain
    is in the worker's hands, waiting for a fence that is still to come, or
    returned, exactly one of these and once; a finished fence releases every
    chain that waits for it; the device's and the library's tables of resources
    agree; where mappings lie. *)

From stdpp Require Import strings.
From S2P Require Import Prelude Utf8 GuestMem VirtQueue DescUtils Mmio FuseAbi Rutabaga GpuAbi.

Module Gpu.
Import VirtQueue GpuAbi.
Import DescUtils(DescriptorChainConsumer, mkConsumer, buffers, bytes_consumed, available_bytes, read_obj, Reader_new, Writer_new).
Import FuseAbi(size_of, from_slice).
Import Rutabaga(Graphics, RutabagaResult, RutabagaError, ResourceCreate3D, mkCreate3D, mkCreateBlob, cb_blob_mem, cb_blob_flags, cb_size,
  RutabagaIovec, mkIovec, Transfer3D, mkTransfer, RutabagaFence, mkFence, f_flags, f_ctx_id, ring_idx, fence_id).

Definition GPU_DEV_ID : string := "virtio_gpu".
Definition NUM_QUEUES : nat := 2.
Definition QUEUE_SIZES : list Z := replicate NUM_QUEUES 256.
Definition CTL_INDEX : nat := 0.
Definition CUR_INDEX : nat := 1.
Definition VIRTIO_F_VERSION_1 : Z := 32.
Definition VIRTIO_ID_GPU : Z := 16.
Definition VIRTIO_GPU_F_VIRGL : Z := 0.
Definition VIRTIO_GPU_F_RESOURCE_UUID : Z := 2.
Definition VIRTIO_GPU_F_RESOURCE_BLOB : Z := 3.
Definition VIRTIO_GPU_F_CONTEXT_INIT : Z := 4.
Definition AVAIL_FEATURES : Z :=
  (1 .<< VIRTIO_F_VERSION_1) .| (1 .<< VIRTIO_GPU_F_VIRGL) .| (1 .<< VIRTIO_GPU_F_RESOURCE_UUID) .| (1 .<< VIRTIO_GPU_F_RESOURCE_BLOB)
    .| (1 .<< VIRTIO_GPU_F_CONTEXT_INIT).
Definition VIRTIO_MMIO_INT_VRING : Z := 1.
Definition PROT_READ : Z := 1.
Definition PROT_WRITE : Z := 2.
Definition MAP_SHARED_FIXED : Z := 0x11.
Definition MAP_ANONYMOUS_FIXED : Z := 0x32.

(** [String::from_utf8]; a string is the list of its bytes. *)
Definition from_utf8 (bs : list byte) : option string :=
  if Utf8.utf8_valid bs then Some (String.string_of_list_ascii ((fun b => Ascii.ascii_of_N (Z.to_N b)) <$> bs)) else None.

(** ** State *)

Inductive VirtioGpuRing := Global | ContextSpecific (ctx_id ring_idx : Z).

#[export] Instance VirtioGpuRing_eq_dec : EqDecision VirtioGpuRing.
Proof. solve_decision. Defined.

#[export] Instance VirtioGpuRing_countable : Countable VirtioGpuRing.
Proof.
  refine (inj_countable' (fun r => match r with Global => None | ContextSpecific c i => Some (c, i) end)
    (fun o => match o with None => Global | Some (c, i) => ContextSpecific c i end) _). by intros [].
Defined.

Record FenceDescriptor := mkDesc { ring : VirtioGpuRing; d_fence_id : Z; desc_index : Z; d_len : Z }.

Record FenceState := mkFences { descs : list FenceDescriptor; completed_fences : gmap VirtioGpuRing Z }.

Record VirtioGpuResource := mkRes { size : Z; shmem_offset : option Z; rutabaga_external_mapping : bool }.

Definition VirtioGpuResource_new (sz : Z) : VirtioGpuResource := mkRes sz None false.

(** The arguments of a [mmap] on the host. *)
Record HostMapping := mkMap { m_addr : Z; m_size : Z; m_prot : Z; m_flags : Z; m_fd : Z }.

Section gpu.
Context {G M : Type} `{Graphics G} `{GuestMemory M}.

(** Host addresses of guest memory, the way blobs are mapped (the feature
    [virgl_resource_map2]), and whether the n-th [mmap] and the n-th write of
    the interrupt event succeed. *)
Context (host_ptr : Z -> Z) (map2 : bool) (mmap_ok irq_ok : nat -> bool).

(** What the worker's thread and the library's share: [queue_ctl] and
    [fence_state] are behind locks.  The last three are histories, the latest
    first, which no code reads: the host mappings made, the chains given back
    with their lengths, and the fences reported. *)
Record Worker := mkWorker {
  mem : M;
  queue_ctl : Queue;
  interrupt_status : Z;
  irqs : nat;
  intc : bool;
  irq_line : option Z;
  shm_region : VirtioShmRegion;
  rutabaga : Rutabaga.Rutabaga (G := G);
  resources : gmap Z VirtioGpuResource;
  fence_state : FenceState;
  mmaps : list (HostMapping * bool);
  returned : list (Z * Z);
  reported : list RutabagaFence }.

Definition set_queue (w : Worker) (q : Queue) (m : M) : Worker :=
  mkWorker m q (interrupt_status w) (irqs w) (intc w) (irq_line w) (shm_region w) (rutabaga w) (resources w) (fence_state w) (mmaps w) (returned w) (reported w).

Definition set_mem (w : Worker) (m : M) : Worker := set_queue w (queue_ctl w) m.

Definition interrupted (w : Worker) (n : nat) : Worker :=
  mkWorker (mem w) (queue_ctl w) (interrupt_status w .| VIRTIO_MMIO_INT_VRING) n (intc w) (irq_line w) (shm_region w) (rutabaga w) (resources w)
    (fence_state w) (mmaps w) (returned w) (reported w).

Definition set_rutabaga (w : Worker) (r : Rutabaga.Rutabaga (G := G)) : Worker :=
  mkWorker (mem w) (queue_ctl w) (interrupt_status w) (irqs w) (intc w) (irq_line w) (shm_region w) r (resources w) (fence_state w) (mmaps w) (returned w) (reported w).

Definition set_resources (w : Worker) (rs : gmap Z VirtioGpuResource) : Worker :=
  mkWorker (mem w) (queue_ctl w) (interrupt_status w) (irqs w) (intc w) (irq_line w) (shm_region w) (rutabaga w) rs (fence_state w) (mmaps w) (returned w) (reported w).

Definition set_fences (w : Worker) (f : FenceState) (done : list RutabagaFence) : Worker :=
  mkWorker (mem w) (queue_ctl w) (interrupt_status w) (irqs w) (intc w) (irq_line w) (shm_region w) (rutabaga w) (resources w) f (mmaps w) (returned w) (done ++ reported w).

Definition mmap (w : Worker) (hm : HostMapping) : bool * Worker :=
  let ok := mmap_ok (length (mmaps w)) in
  (ok, mkWorker (mem w) (queue_ctl w) (interrupt_status w) (irqs w) (intc w) (irq_line w) (shm_region w) (rutabaga w) (resources w) (fence_state w)
         ((hm, ok) :: mmaps w) (returned w) (reported w)).

(** [VirtioGpu::new] asks for [VirglRenderer] and every capability set. *)
Definition new_rutabaga (virgl_flags : Z) (feature : Rutabaga.RutabagaComponentType -> bool)
    (init : Rutabaga.RutabagaComponentType -> RutabagaResult unit) (g : G) : outcome (Rutabaga.Rutabaga (G := G)) :=
  match Rutabaga.build (Rutabaga.RutabagaBuilder_new Rutabaga.VirglRenderer virgl_flags 0) feature init g with Ok r => Ret r | Err _ => Panic end.

Definition Worker_new (m : M) (q : Queue) (status : Z) (intc : bool) (line : option Z) (shm : VirtioShmRegion) (r : Rutabaga.Rutabaga (G := G)) : Worker :=
  mkWorker m q status 0 intc line shm r ∅ (mkFences [] ∅) [] [] [].

(** [signal_used_queue]; a failed write of the event is logged. *)
Definition signal_used_queue (w : Worker) : outcome Worker :=
  if intc w then _ ← unwrap (irq_line w); Ret (interrupted w (S (irqs w)))
  else if irq_ok (irqs w) then Ret (interrupted w (S (irqs w)))
  else Ret (interrupted w (irqs w)).

(** ** Fences *)

(** The ring a fence or an answer belongs to. *)
Definition ring_of (flags ctx_id ring_idx : Z) : VirtioGpuRing :=
  if flags .& VIRTIO_GPU_FLAG_INFO_RING_IDX =? 0 then Global else ContextSpecific ctx_id ring_idx.

Definition fence_ring (f : RutabagaFence) : VirtioGpuRing := ring_of (f_flags f) (f_ctx_id f) (ring_idx f).

(** The chain goes back; an error is logged. *)
Definition add_used_chain (w : Worker) (index len : Z) : Worker :=
  let '(_, q, m) := add_used (mem w) (queue_ctl w) index len in
  mkWorker m q (interrupt_status w) (irqs w) (intc w) (irq_line w) (shm_region w) (rutabaga w) (resources w) (fence_state w) (mmaps w)
    ((index, len) :: returned w) (reported w).

(** The [while] loop of the fence handler over [descs]: those it keeps. *)
Fixpoint release_descs (r : VirtioGpuRing) (id : Z) (ds : list FenceDescriptor) (w : Worker) : outcome (list FenceDescriptor * Worker) :=
  match ds with
  | [] => Ret ([], w)
  | d :: ds =>
      if bool_decide (ring d = r) && (d_fence_id d <=? id) then
        w ← signal_used_queue (add_used_chain w (desc_index d) (d_len d));
        release_descs r id ds w
      else '(kept, w) ← release_descs r id ds w; Ret (d :: kept, w)
  end.

(** The closure of [create_fence_handler]. *)
Definition fence_handler (completed : RutabagaFence) (w : Worker) : outcome Worker :=
  let r := fence_ring completed in
  '(kept, w) ← release_descs r (fence_id completed) (descs (fence_state w)) w;
  Ret (set_fences w (mkFences kept (<[r := fence_id completed]> (completed_fences (fence_state w)))) [completed]).

Fixpoint fence_handlers (fs : list RutabagaFence) (w : Worker) : outcome Worker :=
  match fs with [] => Ret w | f :: fs => w ← fence_handler f w; fence_handlers fs w end.

(** Whether the chain can be returned at once. *)
Definition process_fence (w : Worker) (r : VirtioGpuRing) (id index len : Z) : bool * Worker :=
  let f := fence_state w in
  if default 0 (completed_fences f !! r) <? id then (false, set_fences w (mkFences (descs f ++ [mkDesc r id index len]) (completed_fences f)) [])
  else (true, w).

(** The fence is created before its answer is parked; the library may report
    it before it returns. *)
Definition create_fence (w : Worker) (f : RutabagaFence) : outcome (VirtioGpuResult * Worker) :=
  let '(res, done, r) := Rutabaga.create_fence (rutabaga w) f in
  w ← fence_handlers done (set_rutabaga w r);
  Ret (match res with Ok _ => Ok OkNoData | Err e => Err (ErrRutabaga e) end, w).

(** ** Operations of [VirtioGpu] *)

(** A call of the library, with [?] and the answer on success. *)
Definition call {A} (w : Worker) (p : RutabagaResult A * Rutabaga.Rutabaga (G := G)) (k : A -> GpuResponse) : VirtioGpuResult * Worker :=
  (match fst p with Ok a => Ok (k a) | Err e => Err (ErrRutabaga e) end, set_rutabaga w (snd p)).

(** [mem.get_slice(addr, len)] *)
Definition slice_ok (m : M) (v : Z * Z) : bool :=
  match gm_find_region m v.1 with Some (start, rlen) => v.1 - start + v.2 <=? rlen | None => false end.

Definition sglist_to_rutabaga_iovecs (m : M) (vecs : list (Z * Z)) : option (list RutabagaIovec) :=
  if forallb (slice_ok m) vecs then Some ((fun v => mkIovec (host_ptr v.1) v.2) <$> vecs) else None.

Definition result_from_query (w : Worker) (id : Z) : GpuResponse :=
  match Rutabaga.query (rutabaga w) id with
  | Ok q =>
      let plane i := mkPlane (nth i (Rutabaga.strides q) 0) (nth i (Rutabaga.offsets q) 0) in
      OkResourcePlaneInfo (Rutabaga.modifier q) [plane 0%nat; plane 1%nat; plane 2%nat; plane 3%nat]
  | Err _ => OkNoData
  end.

Definition force_ctx_0 (w : Worker) : Worker := set_rutabaga w (Rutabaga.force_ctx_0 (rutabaga w)).

(** A new resource, entered when the library has created it. *)
Definition enter (w : Worker) (id sz : Z) (p : RutabagaResult unit * Rutabaga.Rutabaga (G := G)) : VirtioGpuResult * Worker :=
  let w := set_rutabaga w (snd p) in
  match fst p with
  | Err e => (Err (ErrRutabaga e), w)
  | Ok _ => let w := set_resources w (<[id := VirtioGpuResource_new sz]> (resources w)) in (Ok (result_from_query w id), w)
  end.

Definition resource_create_3d (w : Worker) (id : Z) (create : ResourceCreate3D) : VirtioGpuResult * Worker :=
  enter w id 0 (Rutabaga.resource_create_3d (rutabaga w) id create).

Definition unref_resource (w : Worker) (id : Z) : VirtioGpuResult * Worker :=
  match resources w !! id with
  | None => (Err ErrInvalidResourceId, w)
  | Some x =>
      let w := set_resources w (delete id (resources w)) in
      let unref w := call w (Rutabaga.unref_resource (rutabaga w) id) (fun _ => OkNoData) in
      if rutabaga_external_mapping x then
        let '(res, r) := Rutabaga.unmap (rutabaga w) id in
        match res with Err e => (Err (ErrRutabaga e), set_rutabaga w r) | Ok _ => unref (set_rutabaga w r) end
      else unref w
  end.

Definition flush_resource (w : Worker) (id : Z) : VirtioGpuResult * Worker := (Ok OkNoData, w).

Definition transfer_write (w : Worker) (ctx_id id : Z) (t : Transfer3D) : VirtioGpuResult * Worker :=
  call w (Rutabaga.transfer_write (rutabaga w) ctx_id id t) (fun _ => OkNoData).

Definition attach_backing (w : Worker) (id : Z) (vecs : list (Z * Z)) : VirtioGpuResult * Worker :=
  match sglist_to_rutabaga_iovecs (mem w) vecs with
  | None => (Err ErrUnspec, w)
  | Some iovecs => call w (Rutabaga.attach_backing (rutabaga w) id iovecs) (fun _ => OkNoData)
  end.

Definition detach_backing (w : Worker) (id : Z) : VirtioGpuResult * Worker :=
  call w (Rutabaga.detach_backing (rutabaga w) id) (fun _ => OkNoData).

Definition resource_assign_uuid (w : Worker) (id : Z) : VirtioGpuResult :=
  match resources w !! id with None => Err ErrInvalidResourceId | Some _ => Ok (OkResourceUuid (replicate 12 0 ++ rev (le_bytes 4 id))) end.

Definition get_capset_info (w : Worker) (index : Z) : VirtioGpuResult :=
  match Rutabaga.get_capset_info (rutabaga w) index with
  | Ok (capset_id, version, size) => Ok (OkCapsetInfo capset_id version size)
  | Err e => Err (ErrRutabaga e)
  end.

Definition get_capset (w : Worker) (capset_id version : Z) : VirtioGpuResult :=
  match Rutabaga.get_capset (rutabaga w) capset_id version with Ok bs => Ok (OkCapset bs) | Err e => Err (ErrRutabaga e) end.

Definition create_context (w : Worker) (ctx_id context_init : Z) (context_name : option string) : VirtioGpuResult * Worker :=
  call w (Rutabaga.create_context (rutabaga w) ctx_id context_init context_name) (fun _ => OkNoData).

Definition destroy_context (w : Worker) (ctx_id : Z) : VirtioGpuResult * Worker :=
  call w (Rutabaga.destroy_context (rutabaga w) ctx_id) (fun _ => OkNoData).

Definition context_attach_resource (w : Worker) (ctx_id id : Z) : VirtioGpuResult * Worker :=
  call w (Rutabaga.context_attach_resource (rutabaga w) ctx_id id) (fun _ => OkNoData).

Definition context_detach_resource (w : Worker) (ctx_id id : Z) : VirtioGpuResult * Worker :=
  call w (Rutabaga.context_detach_resource (rutabaga w) ctx_id id) (fun _ => OkNoData).

Definition submit_command (w : Worker) (ctx_id : Z) (commands : list byte) (fence_ids : list Z) : VirtioGpuResult * Worker :=
  call w (Rutabaga.submit_command (rutabaga w) ctx_id commands fence_ids) (fun _ => OkNoData).

Definition resource_create_blob (w : Worker) (ctx_id id : Z) (create : Rutabaga.ResourceCreateBlob) (vecs : list (Z * Z)) : outcome (VirtioGpuResult * Worker) :=
  let go iovecs := enter w id (cb_size create) (Rutabaga.resource_create_blob (rutabaga w) ctx_id id create iovecs None) in
  if negb (cb_blob_flags create .& VIRTIO_GPU_BLOB_FLAG_CREATE_GUEST_HANDLE =? 0) then Panic
  else if negb (cb_blob_mem create =? VIRTIO_GPU_BLOB_MEM_HOST3D) then
    match sglist_to_rutabaga_iovecs (mem w) vecs with None => Ret (Err ErrUnspec, w) | Some iovecs => Ret (go (Some iovecs)) end
  else Ret (go None).

(** The protection a mapping gets; another access mode panics. *)
Definition prot_of (map_info : Z) : outcome Z :=
  let access := map_info .& Rutabaga.RUTABAGA_MAP_ACCESS_MASK in
  if access =? Rutabaga.RUTABAGA_MAP_ACCESS_READ then Ret PROT_READ
  else if access =? Rutabaga.RUTABAGA_MAP_ACCESS_WRITE then Ret PROT_WRITE
  else if access =? Rutabaga.RUTABAGA_MAP_ACCESS_RW then Ret (PROT_READ .| PROT_WRITE)
  else Panic.

(** [resource.shmem_offset = Some(offset)], and the answer. *)
Definition mapped (w : Worker) (id : Z) (x : VirtioGpuResource) (offset map_info : Z) : VirtioGpuResult * Worker :=
  (Ok (OkMapInfo (map_info .& Rutabaga.RUTABAGA_MAP_CACHE_MASK)),
   set_resources w (<[id := mkRes (size x) (Some offset) (rutabaga_external_mapping x)]> (resources w))).

(** Without [virgl_resource_map2]: a mapping that does not fit is only
    logged. *)
Definition resource_map_blob (w : Worker) (id offset : Z) : outcome (VirtioGpuResult * Worker) :=
  match resources w !! id with
  | None => Ret (Err ErrInvalidResourceId, w)
  | Some x =>
      match Rutabaga.get_map_info (rutabaga w) id with
      | Err _ => Ret (Err ErrUnspec, w)
      | Ok map_info =>
          let '(export, r) := Rutabaga.export_blob (rutabaga w) id in
          let w := set_rutabaga w r in
          match export with
          | Err _ => Ret (Err ErrUnspec, w)
          | Ok export =>
              if negb (Rutabaga.handle_type export =? Rutabaga.RUTABAGA_MEM_HANDLE_TYPE_OPAQUE_FD) then
                prot ← prot_of map_info;
                let addr := host_addr (shm_region w) +[64] offset in
                let '(ok, w) := mmap w (mkMap addr (size x) prot MAP_SHARED_FIXED (Rutabaga.os_handle export)) in
                if ok then Ret (mapped w id x offset map_info) else Ret (Err ErrUnspec, w)
              else Ret (Err ErrUnspec, w)
          end
      end
  end.

(** With [virgl_resource_map2]. *)
Definition resource_map_blob2 (w : Worker) (id offset : Z) : outcome (VirtioGpuResult * Worker) :=
  match resources w !! id with
  | None => Ret (Err ErrInvalidResourceId, w)
  | Some x =>
      match Rutabaga.get_map_info (rutabaga w) id with
      | Err _ => Ret (Err ErrUnspec, w)
      | Ok map_info =>
          prot ← prot_of map_info;
          if shm_size (shm_region w) <? offset +[64] size x then Ret (Err ErrUnspec, w)
          else
            let addr := host_addr (shm_region w) +[64] offset in
            let '(export, r) := Rutabaga.export_blob (rutabaga w) id in
            let w := set_rutabaga w r in
            match export with
            | Err _ => Ret (mapped w id x offset map_info)
            | Ok export =>
                if Rutabaga.handle_type export =? Rutabaga.RUTABAGA_MEM_HANDLE_TYPE_SHM then
                  let '(ok, w) := mmap w (mkMap addr (size x) prot MAP_SHARED_FIXED (Rutabaga.os_handle export)) in
                  if ok then Ret (mapped w id x offset map_info) else Ret (Err ErrUnspec, w)
                else
                  let '(res, r) := Rutabaga.resource_map (rutabaga w) id addr (size x) prot MAP_SHARED_FIXED in
                  let w := set_rutabaga w r in
                  match res with Err e => Ret (Err (ErrRutabaga e), w) | Ok _ => Ret (mapped w id x offset map_info) end
            end
      end
  end.

Definition map_blob (w : Worker) (id offset : Z) : outcome (VirtioGpuResult * Worker) :=
  if map2 then resource_map_blob2 w id offset else resource_map_blob w id offset.

Definition resource_unmap_blob (w : Worker) (id : Z) : outcome (VirtioGpuResult * Worker) :=
  match resources w !! id with
  | None => Ret (Err ErrInvalidResourceId, w)
  | Some x =>
      match shmem_offset x with
      | None => Ret (Err ErrUnspec, w)
      | Some offset =>
          let addr := host_addr (shm_region w) +[64] offset in
          let '(ok, w) := mmap w (mkMap addr (size x) 0 MAP_ANONYMOUS_FIXED (-1)) in
          if ok then Ret (Ok OkNoData, set_resources w (<[id := mkRes (size x) None (rutabaga_external_mapping x)]> (resources w))) else Panic
      end
  end.

(** ** Commands *)

(** [Vec::with_capacity(n)] and the loop of [read_obj] that fills it; [None]:
    an object could not be read. *)
Fixpoint read_list {A} (m : M) (sz : nat) (f : list byte -> A) (n : nat) (c : DescriptorChainConsumer) : outcome (option (list A) * DescriptorChainConsumer) :=
  match n with
  | O => Ret (Some [], c)
  | S n =>
      '(r, c) ← read_obj m c sz;
      match r with
      | Err _ => Ret (None, c)
      | Ok bs => '(l, c) ← read_list m sz f n c; Ret (match l with Some l => Some (f bs :: l) | None => None end, c)
      end
  end.

Definition read_entries (m : M) (n : Z) (c : DescriptorChainConsumer) : outcome (option (list (Z * Z)) * DescriptorChainConsumer) :=
  read_list m (size_of virtio_gpu_mem_entry) (fun bs => let e : virtio_gpu_mem_entry := from_slice bs in (mem_entry_addr e, mem_entry_length e)) (Z.to_nat n) c.

Definition create_3d_of (i : virtio_gpu_resource_create_3d) : ResourceCreate3D :=
  mkCreate3D (resource_create_3d_target i) (resource_create_3d_format i) (resource_create_3d_bind i) (resource_create_3d_width i)
    (resource_create_3d_height i) (resource_create_3d_depth i) (resource_create_3d_array_size i) (resource_create_3d_last_level i)
    (resource_create_3d_nr_samples i) (resource_create_3d_flags i).

Definition create_2d_of (i : virtio_gpu_resource_create_2d) : ResourceCreate3D :=
  mkCreate3D Rutabaga.RUTABAGA_PIPE_TEXTURE_2D (resource_create_2d_format i) Rutabaga.RUTABAGA_PIPE_BIND_RENDER_TARGET (resource_create_2d_width i)
    (resource_create_2d_height i) 1 1 0 0 0.

Definition transfer_3d_of (i : virtio_gpu_transfer_host_3d) : Transfer3D :=
  let b := transfer_host_3d_box i in
  mkTransfer (box_x b) (box_y b) (box_z b) (box_w b) (box_h b) (box_d b) (transfer_host_3d_level i) (transfer_host_3d_stride i)
    (transfer_host_3d_layer_stride i) (transfer_host_3d_offset i).

(** The part of [CmdSubmit3d] behind its structure: fences, then commands. *)
Definition submit (w : Worker) (hdr : virtio_gpu_ctrl_hdr) (i : virtio_gpu_cmd_submit) (c : DescriptorChainConsumer) : outcome (VirtioGpuResult * Worker) :=
  if available_bytes c =? 0 then Ret (Ok OkNoData, w)
  else
    '(fences, c) ← read_list (mem w) 8 le_val (Z.to_nat (cmd_submit_num_in_fences i)) c;
    match fences with
    | None => Ret (Err ErrUnspec, w)
    | Some fences =>
        '(r, _) ← read_obj (mem w) c (Z.to_nat (cmd_submit_size i));
        match r with
        | Ok commands => Ret (submit_command w (ctrl_hdr_ctx_id hdr) commands fences)
        | Err _ => Ret (Err ErrInvalidParameter, w)
        end
    end.

Definition process_gpu_command (w : Worker) (hdr : virtio_gpu_ctrl_hdr) (cmd : GpuCommand) (c : DescriptorChainConsumer) : outcome (VirtioGpuResult * Worker) :=
  let w := force_ctx_0 w in
  let ctx_id := ctrl_hdr_ctx_id hdr in
  match cmd with
  | GetDisplayInfo _ | SetScanout _ | UpdateCursor _ | MoveCursor _ | SetScanoutBlob _ | TransferFromHost3d _ => Panic
  | ResourceCreate2d i => Ret (resource_create_3d w (resource_create_2d_resource_id i) (create_2d_of i))
  | ResourceUnref i => Ret (unref_resource w (resource_unref_resource_id i))
  | ResourceFlush i => Ret (flush_resource w (resource_flush_resource_id i))
  | TransferToHost2d i =>
      let r := transfer_to_host_2d_r i in
      Ret (transfer_write w 0 (transfer_to_host_2d_resource_id i) (Rutabaga.new_2d (rect_x r) (rect_y r) (rect_width r) (rect_height r)))
  | ResourceAttachBacking i =>
      if available_bytes c =? 0 then Ret (Err ErrUnspec, w)
      else
        '(vecs, _) ← read_entries (mem w) (resource_attach_backing_nr_entries i) c;
        Ret (match vecs with Some vecs => attach_backing w (resource_attach_backing_resource_id i) vecs | None => (Err ErrUnspec, w) end)
  | ResourceDetachBacking i => Ret (detach_backing w (resource_detach_backing_resource_id i))
  | ResourceAssignUuid i => Ret (resource_assign_uuid w (resource_assign_uuid_resource_id i), w)
  | GetCapsetInfo i => Ret (get_capset_info w (get_capset_info_capset_index i), w)
  | GetCapset i => Ret (get_capset w (get_capset_capset_id i) (get_capset_capset_version i), w)
  | CtxCreate i => Ret (create_context w ctx_id (ctx_create_context_init i) (from_utf8 (le_bytes 64 (ctx_create_debug_name i))))
  | CtxDestroy _ => Ret (destroy_context w ctx_id)
  | CtxAttachResource i => Ret (context_attach_resource w ctx_id (ctx_resource_resource_id i))
  | CtxDetachResource i => Ret (context_detach_resource w ctx_id (ctx_resource_resource_id i))
  | ResourceCreate3d i => Ret (resource_create_3d w (resource_create_3d_resource_id i) (create_3d_of i))
  | TransferToHost3d i => Ret (transfer_write w ctx_id (transfer_host_3d_resource_id i) (transfer_3d_of i))
  | CmdSubmit3d i => submit w hdr i c
  | ResourceCreateBlob i =>
      let count := resource_create_blob_nr_entries i in
      if (available_bytes c =? 0) && (0 <? count) then Ret (Err ErrUnspec, w)
      else
        '(vecs, _) ← read_entries (mem w) count c;
        match vecs with
        | None => Ret (Err ErrUnspec, w)
        | Some vecs =>
            resource_create_blob w ctx_id (resource_create_blob_resource_id i)
              (mkCreateBlob (resource_create_blob_blob_mem i) (resource_create_blob_blob_flags i) (resource_create_blob_blob_id i) (resource_create_blob_size i)) vecs
        end
  | ResourceMapBlob i => map_blob w (resource_map_blob_resource_id i) (resource_map_blob_offset i)
  | ResourceUnmapBlob i => resource_unmap_blob w (resource_unmap_blob_resource_id i)
  end.

(** ** The queue

    The body of the loop in [process_queue] in four parts, between which the
    library's thread may report fences. *)

(** Decodes the request and runs it: the response, and the header if there is
    a command. *)
Definition execute (w : Worker) (head : DescriptorChain) : outcome (GpuResponse * option virtio_gpu_ctrl_hdr * DescriptorChainConsumer * Worker) :=
  reader ← Reader_new (mem w) head;
  match reader with
  | Err _ => Panic
  | Ok reader =>
      writer ← Writer_new (mem w) head;
      match writer with
      | Err _ => Panic
      | Ok writer =>
          '(r, reader) ← decode (mem w) reader;
          match r with
          | Err _ => Ret (ErrUnspec, None, writer, w)
          | Ok (hdr, cmd) =>
              '(resp, w) ← process_gpu_command w hdr cmd reader;
              Ret (match resp with Ok a => a | Err e => e end, Some hdr, writer, w)
          end
      end
  end.

(** The fence of a fenced command, as the library gets it. *)
Definition fence_of (hdr : option virtio_gpu_ctrl_hdr) : option RutabagaFence :=
  match hdr with
  | Some h =>
      if ctrl_hdr_flags h .& VIRTIO_GPU_FLAG_FENCE =? 0 then None
      else Some (mkFence (ctrl_hdr_flags h) (ctrl_hdr_fence_id h) (ctrl_hdr_ctx_id h) (ctrl_hdr_ring_idx h))
  | None => None
  end.

(** Creates the fence; it is left out when there is no room for an answer. *)
Definition make_fence (w : Worker) (resp : GpuResponse) (fence : option RutabagaFence) : outcome (GpuResponse * Worker) :=
  match fence with
  | None => Ret (resp, w)
  | Some f => '(r, w) ← create_fence w f; Ret (match r with Ok _ => resp | Err e => e end, w)
  end.

(** Writes the answer: its length, 0 when it cannot be encoded. *)
Definition respond (w : Worker) (resp : GpuResponse) (fence : option RutabagaFence) (writer : DescriptorChainConsumer) : outcome (Z * Worker) :=
  let '(flags, id, ctx, idx) := match fence with Some f => (f_flags f, fence_id f, f_ctx_id f, ring_idx f) | None => (0, 0, 0, 0) end in
  '(r, _, m) ← encode resp flags id ctx idx writer (mem w);
  Ret (match r with Ok l => l | Err _ => 0 end, set_mem w m).

(** Whether the chain goes back now. *)
Definition park (w : Worker) (fence : option RutabagaFence) (index len : Z) : bool * Worker :=
  match fence with
  | None => (true, w)
  | Some f => process_fence w (fence_ring f) (fence_id f) index len
  end.

(** One chain; whether it was returned. *)
Definition serve (w : Worker) (head : DescriptorChain) : outcome (bool * Worker) :=
  '(resp, hdr, writer, w) ← execute w head;
  let index := VirtQueue.index head in
  if available_bytes writer =? 0 then Ret (true, add_used_chain w index 0)
  else
    let fence := fence_of hdr in
    '(resp, w) ← make_fence w resp fence;
    '(len, w) ← respond w resp fence writer;
    let '(add_to_queue, w) := park w fence index len in
    Ret (if add_to_queue then (true, add_used_chain w index len) else (false, w)).

(** One round of [process_queue], with [used_any]. *)
Definition process_round (s : bool * Worker) : outcome (bool * (bool * Worker)) :=
  let '(used_any, w) := s in
  '(h, q) ← pop (mem w) (queue_ctl w);
  let w := set_queue w q (mem w) in
  match h with
  | None => Ret (false, (used_any, w))
  | Some head => '(used, w) ← serve w head; Ret (true, (used_any || used, w))
  end.

(** [None] is a loop still running after [fuel] rounds. *)
Definition process_queue (fuel : nat) (w : Worker) : option (outcome (bool * Worker)) := round_loop process_round fuel (false, w).

(** One message of the channel; whatever queue it names, the worker looks at
    the control queue. *)
Definition work (fuel : nat) (queue_index : Z) (w : Worker) : option (outcome Worker) :=
  match process_queue fuel w with
  | None => None
  | Some Panic => Some Panic
  | Some (Ret (used, w)) => Some (if used then signal_used_queue w else Ret w)
  end.

(** ** The device *)

Record Gpu := mkGpu {
  dev_queue_ctl : Queue; dev_queue_cur : Queue; dev_queues : list Queue; avail_features : Z; acked_features : Z; dev_interrupt_status : Z;
  device_state : option M; dev_shm_region : option VirtioShmRegion; dev_intc : bool; dev_irq_line : option Z;
  (** the messages sent to the worker *)
  sender : option (list Z); virgl_flags : Z }.

Definition with_queues (queues : list Queue) (virgl_flags : Z) : outcome Gpu :=
  ctl ← unwrap (queues !! CTL_INDEX); cur ← unwrap (queues !! CUR_INDEX);
  Ret (mkGpu ctl cur queues AVAIL_FEATURES 0 0 None None false None None virgl_flags).

Definition gpu_new (virgl_flags : Z) : outcome Gpu := with_queues (Queue_new <$> QUEUE_SIZES) virgl_flags.

Definition set_intc (d : Gpu) : Gpu :=
  mkGpu (dev_queue_ctl d) (dev_queue_cur d) (dev_queues d) (avail_features d) (acked_features d) (dev_interrupt_status d) (device_state d) (dev_shm_region d)
    true (dev_irq_line d) (sender d) (virgl_flags d).

Definition set_shm_region (d : Gpu) (shm : VirtioShmRegion) : Gpu :=
  mkGpu (dev_queue_ctl d) (dev_queue_cur d) (dev_queues d) (avail_features d) (acked_features d) (dev_interrupt_status d) (device_state d) (Some shm)
    (dev_intc d) (dev_irq_line d) (sender d) (virgl_flags d).

Definition set_acked_features (d : Gpu) (f : Z) : Gpu :=
  mkGpu (dev_queue_ctl d) (dev_queue_cur d) (dev_queues d) (avail_features d) f (dev_interrupt_status d) (device_state d) (dev_shm_region d)
    (dev_intc d) (dev_irq_line d) (sender d) (virgl_flags d).

Definition set_irq_line (d : Gpu) (irq : Z) : Gpu :=
  mkGpu (dev_queue_ctl d) (dev_queue_cur d) (dev_queues d) (avail_features d) (acked_features d) (dev_interrupt_status d) (device_state d) (dev_shm_region d)
    (dev_intc d) (Some irq) (sender d) (virgl_flags d).

(** [virtio_gpu_config] *)
Record virtio_gpu_config := mkConfig { events_read : Z; events_clear : Z; num_scanouts : Z; num_capsets : Z }.

Definition config_bytes (c : virtio_gpu_config) : list byte :=
  le_bytes 4 (events_read c) ++ le_bytes 4 (events_clear c) ++ le_bytes 4 (num_scanouts c) ++ le_bytes 4 (num_capsets c).

Definition read_config (offset : Z) (data : list byte) : list byte := config_read (config_bytes (mkConfig 0 0 0 5)) offset data.

(** [activate]; [r]: the library the worker's thread starts with.  Whether it
    succeeds, and the worker if one was started. *)
Definition activate (d : Gpu) (m : M) (evt_ok : bool) (r : Rutabaga.Rutabaga (G := G)) : outcome (bool * option Worker * Gpu) :=
  if negb (length (dev_queues d) =? NUM_QUEUES)%nat then Ret (false, None, d)
  else
    shm ← unwrap (dev_shm_region d);
    ctl ← unwrap (dev_queues d !! CTL_INDEX); cur ← unwrap (dev_queues d !! CUR_INDEX);
    Ret (evt_ok, Some (Worker_new m ctl (dev_interrupt_status d) (dev_intc d) (dev_irq_line d) shm r),
         mkGpu ctl cur (dev_queues d) (avail_features d) (acked_features d) (dev_interrupt_status d)
           (if evt_ok then Some m else device_state d) (dev_shm_region d) (dev_intc d) (dev_irq_line d) (Some []) (virgl_flags d)).

Definition is_activated (d : Gpu) : bool := match device_state d with Some _ => true | None => false end.

Definition EV_IN : Z := 1.

(** [handle_ctl_event] and [handle_cur_event]: a message for the worker;
    [read_ok]: the event can be read. *)
Definition handle_queue_event (i : nat) (event_set : Z) (read_ok : bool) (d : Gpu) : outcome Gpu :=
  if negb (event_set =? EV_IN) then Ret d
  else if negb read_ok then Ret d
  else
    sent ← unwrap (sender d);
    Ret (mkGpu (dev_queue_ctl d) (dev_queue_cur d) (dev_queues d) (avail_features d) (acked_features d) (dev_interrupt_status d) (device_state d)
           (dev_shm_region d) (dev_intc d) (dev_irq_line d) (Some (sent ++ [Z.of_nat i])) (virgl_flags d)).

Inductive gpu_source := CtlEv | CurEv | ActivateEv | OtherEv.

(** [process]; the activation event only registers descriptors. *)
Definition process (d : Gpu) (src : gpu_source) (event_set : Z) (read_ok : bool) : outcome Gpu :=
  if negb (is_activated d) then Ret d
  else
    match src with
    | CtlEv => handle_queue_event CTL_INDEX event_set read_ok d
    | CurEv => handle_queue_event CUR_INDEX event_set read_ok d
    | ActivateEv | OtherEv => Ret d
    end.

(** ** Chains

    What one part of the loop leaves alone. *)

Definition same_chains (w w' : Worker) : Prop :=
  fence_state w' = fence_state w /\ returned w' = returned w /\ reported w' = reported w /\ queue_ctl w' = queue_ctl w.

Lemma same_chains_trans w1 w2 w3 : same_chains w1 w2 -> same_chains w2 w3 -> same_chains w1 w3.
Proof. unfold same_chains. intuition congruence. Qed.

(** Takes the operations of [VirtioGpu] apart. *)
Ltac operation :=
  repeat first
    [ match goal with
      | |- (Ret _ = Ret _) -> _ => intros [= <- <-] || intros [= <-] || intros [= -> <-]
      | |- (Panic = Ret _) -> _ => discriminate
      | |- ((_, _) = (_, _)) -> _ => intros [= <- <-]
      | |- (mbind _ ?e = Ret _) -> _ => destruct e as [?|]; cbn [mbind outcome_bind]
      | |- ((match ?e with _ => _ end) = _) -> _ => destruct e; cbn [mbind outcome_bind]
      end ].

Lemma enter_same w id sz p r w' : enter w id sz p = (r, w') -> same_chains w w'.
Proof. unfold enter. operation; done. Qed.

Lemma unref_same w id r w' : unref_resource w id = (r, w') -> same_chains w w'.
Proof. unfold unref_resource, call. operation; done. Qed.

Lemma attach_same w id v r w' : attach_backing w id v = (r, w') -> same_chains w w'.
Proof. unfold attach_backing, call. operation; done. Qed.

Lemma mapped_same w id x o i : same_chains w (mapped w id x o i).2.
Proof. done. Qed.

Lemma map_blob_same w id off r w' : map_blob w id off = Ret (r, w') -> same_chains w w'.
Proof. unfold map_blob, resource_map_blob2, resource_map_blob, mmap, mapped. operation; done. Qed.

Lemma unmap_blob_same w id r w' : resource_unmap_blob w id = Ret (r, w') -> same_chains w w'.
Proof. unfold resource_unmap_blob, mmap. operation; done. Qed.

Lemma submit_same w hdr i c r w' : submit w hdr i c = Ret (r, w') -> same_chains w w'.
Proof. unfold submit, submit_command, call. operation; done. Qed.

Lemma create_blob_same w ctx id c v r w' : resource_create_blob w ctx id c v = Ret (r, w') -> same_chains w w'.
Proof. unfold resource_create_blob. operation; try done; intros [= E]; by eapply enter_same. Qed.

Lemma command_same w hdr cmd c r w' : process_gpu_command w hdr cmd c = Ret (r, w') -> same_chains w w'.
Proof.
  assert (same_chains w (force_ctx_0 w)) as Hf by done. unfold process_gpu_command. intros E. apply (same_chains_trans _ (force_ctx_0 w)); [done|].
  revert E. destruct cmd; try discriminate; try (by intros [= <- <-]).
  - intros [= E]. by eapply enter_same.
  - intros [= E]. by eapply unref_same.
  - operation; try done. destruct o; intros [= E]; [by eapply attach_same|by subst].
  - intros [= E]. by eapply enter_same.
  - apply submit_same.
  - operation; try done; apply create_blob_same.
  - apply map_blob_same.
  - apply unmap_blob_same.
Qed.

Lemma execute_same w head resp hdr wr w' : execute w head = Ret (resp, hdr, wr, w') -> same_chains w w'.
Proof.
  unfold execute. destruct (Reader_new _ _) as [[rd|]|]; cbn [mbind outcome_bind]; [|done..].
  destruct (Writer_new _ _) as [[wr'|]|]; cbn [mbind outcome_bind]; [|done..].
  destruct (decode _ _) as [[[[h cmd]|] rd']|]; cbn [mbind outcome_bind]; [|by intros [= <- <- <- <-]|done].
  destruct (process_gpu_command _ _ _ _) as [[r w1]|] eqn:E; cbn [mbind outcome_bind]; [|done]. intros [= <- <- <- <-]. by eapply command_same.
Qed.

Lemma respond_same w resp f wr len w' : respond w resp f wr = Ret (len, w') -> same_chains w w'.
Proof.
  unfold respond. destruct (match f with Some _ => _ | None => _ end) as [[[? ?] ?] ?]. destruct (encode _ _ _ _ _ _ _) as [[[l c] m]|]; cbn; [|done].
  by intros [= <- <-].
Qed.

(** ** Fences *)

Definition waiting (w : Worker) : list Z := desc_index <$> descs (fence_state w).

Lemma signal_same w w' : signal_used_queue w = Ret w' -> same_chains w w'.
Proof. unfold signal_used_queue. destruct (intc w); [destruct (irq_line w); [|done]; by intros [= <-]|]. destruct (irq_ok _); by intros [= <-]. Qed.

Lemma add_used_chain_fields w i l :
  fence_state (add_used_chain w i l) = fence_state w /\ returned (add_used_chain w i l) = (i, l) :: returned w /\
  reported (add_used_chain w i l) = reported w /\ next_avail (queue_ctl (add_used_chain w i l)) = next_avail (queue_ctl w).
Proof. unfold add_used_chain. destruct (add_used _ _ _ _) as [[r q] m] eqn:E. apply add_used_next_avail in E. done. Qed.

(** What the handler does to [descs]. *)
Definition released (r : VirtioGpuRing) (id : Z) (d : FenceDescriptor) : bool := bool_decide (ring d = r) && (d_fence_id d <=? id).

Lemma release_descs_exact r id ds w kept w' :
  release_descs r id ds w = Ret (kept, w') ->
  kept = filter (fun d => released r id d = false) ds /\
  returned w' = reverse ((fun d => (desc_index d, d_len d)) <$> filter (fun d => released r id d = true) ds) ++ returned w /\
  fence_state w' = fence_state w /\ reported w' = reported w /\ next_avail (queue_ctl w') = next_avail (queue_ctl w).
Proof.
  revert w kept w'. induction ds as [|d ds IH]; intros w kept w'; cbn [release_descs]; [by intros [= <- <-]|].
  fold (released r id d). rewrite !filter_cons. destruct (released r id d).
  - destruct (signal_used_queue _) as [w1|] eqn:Es; cbn [mbind outcome_bind]; [|done]. intros E. apply IH in E as (-> & Hr & Hf & Hp & Hn).
    destruct (signal_same _ _ Es) as (Hf1 & Hr1 & Hp1 & Hq1). destruct (add_used_chain_fields w (desc_index d) (d_len d)) as (Hf2 & Hr2 & Hp2 & Hn2).
    rewrite decide_False, decide_True by done. split_and!; [done| |congruence|congruence|congruence].
    rewrite Hr, Hr1, Hr2. rewrite fmap_cons, reverse_cons. by rewrite <- (assoc_L (++)).
  - destruct (release_descs r id ds w) as [[kept1 w1]|] eqn:E; cbn [mbind outcome_bind]; [|done]. intros [= <- <-].
    apply IH in E as (-> & Hr & Hf & Hp & Hn). rewrite decide_True, decide_False by done. done.
Qed.

Lemma filter_split {A} (f : A -> bool) (l : list A) : l ≡ₚ filter (fun x => f x = true) l ++ filter (fun x => f x = false) l.
Proof.
  induction l as [|x l IH]; [done|]. rewrite !filter_cons. destruct (f x).
  - rewrite decide_True, decide_False by done. cbn. by constructor.
  - rewrite decide_False, decide_True by done. rewrite <- Permutation_middle. by constructor.
Qed.

(** A report: the chains that wait for this fence or an earlier one of its
    ring go back, all others keep waiting, and the ring's last fence is the
    reported one. *)
Lemma fence_handler_exact f w w' :
  fence_handler f w = Ret w' ->
  let r := fence_ring f in
  descs (fence_state w') = filter (fun d => released r (fence_id f) d = false) (descs (fence_state w)) /\
  completed_fences (fence_state w') = <[r := fence_id f]> (completed_fences (fence_state w)) /\
  returned w' = reverse ((fun d => (desc_index d, d_len d)) <$> filter (fun d => released r (fence_id f) d = true) (descs (fence_state w))) ++ returned w /\
  reported w' = f :: reported w /\ next_avail (queue_ctl w') = next_avail (queue_ctl w).
Proof.
  unfold fence_handler. destruct (release_descs _ _ _ _) as [[kept w1]|] eqn:E; cbn [mbind outcome_bind]; [|done]. intros [= <-].
  apply release_descs_exact in E as (-> & Hr & Hf & Hp & Hn). cbn. rewrite Hf, Hr, Hp, Hn. done.
Qed.

(** Several reports, one after the other. *)
Lemma fence_handlers_ind (P : Worker -> Worker -> Prop) :
  (forall w, P w w) -> (forall f w w1 w2, fence_handler f w = Ret w1 -> P w1 w2 -> P w w2) ->
  forall fs w w', fence_handlers fs w = Ret w' -> P w w'.
Proof.
  intros H0' Hs fs. induction fs as [|f fs IH]; intros w w'; cbn [fence_handlers]; [by intros [= <-]|].
  destruct (fence_handler f w) as [w1|] eqn:E; cbn [mbind outcome_bind]; [|done]. intros. eapply Hs; eauto.
Qed.

(** Every chain that waits, waits for a fence later than its ring's last. *)
Definition later (w : Worker) : Prop :=
  forall d, d ∈ descs (fence_state w) -> default 0 (completed_fences (fence_state w) !! ring d) < d_fence_id d.

(** The reports come in order on every ring. *)
Fixpoint ordered (fs : list RutabagaFence) : Prop :=
  match fs with
  | [] => True
  | f :: fs => (forall g, g ∈ fs -> fence_ring g = fence_ring f -> fence_id g <= fence_id f) /\ ordered fs
  end.

(** The last fence of a ring is the highest that was reported. *)
Definition highest (w : Worker) : Prop :=
  ordered (reported w) -> forall f, f ∈ reported w -> fence_id f <= default 0 (completed_fences (fence_state w) !! fence_ring f).

(** Chains that were given back or wait. *)
Definition answered (w : Worker) : list Z := (returned w).*1 ++ waiting w.

Lemma fence_handler_answered f w w' : fence_handler f w = Ret w' -> answered w' ≡ₚ answered w.
Proof.
  intros E. apply fence_handler_exact in E as (Hd & _ & Hr & _ & _). unfold answered, waiting. rewrite Hd, Hr.
  rewrite (filter_split (released (fence_ring f) (fence_id f)) (descs (fence_state w))) at 3.
  rewrite !fmap_app, fmap_reverse, reverse_Permutation, <- list_fmap_compose. cbn.
  rewrite (assoc_L (++)). apply Permutation_app_tail. rewrite Permutation_app_comm. done.
Qed.

Lemma fence_handler_later f w w' : fence_handler f w = Ret w' -> later w -> later w'.
Proof.
  intros E Hl. apply fence_handler_exact in E as (Hd & Hc & _). intros d. rewrite Hd, Hc. intros [Hn Hin]%list_elem_of_filter.
  destruct (decide (fence_ring f = ring d)) as [Er|Hne].
  - rewrite Er, lookup_insert_eq. cbn. unfold released in Hn. rewrite bool_decide_true in Hn by done. cbn in Hn. apply Z.leb_gt in Hn. done.
  - rewrite lookup_insert_ne by done. by apply Hl.
Qed.

Lemma fence_handler_highest f w w' : fence_handler f w = Ret w' -> highest w -> highest w'.
Proof.
  intros E Hh. apply fence_handler_exact in E as (_ & Hc & _ & Hp & _). unfold highest. rewrite Hp, Hc. intros [Ho1 Ho2] g [->|Hg]%elem_of_cons.
  - rewrite lookup_insert_eq. cbn. lia.
  - destruct (decide (fence_ring f = fence_ring g)) as [Hr|Hne].
    + rewrite Hr, lookup_insert_eq. cbn. by apply Ho1.
    + rewrite lookup_insert_ne by done. by apply Hh.
Qed.

Lemma make_fence_kept w resp f resp' w' :
  make_fence w resp f = Ret (resp', w') -> answered w' ≡ₚ answered w /\ (later w -> later w') /\ (highest w -> highest w') /\
    next_avail (queue_ctl w') = next_avail (queue_ctl w).
Proof.
  unfold make_fence, create_fence. destruct f as [f|]; [|by intros [= <- <-]].
  destruct (Rutabaga.create_fence _ _) as [[res fs] r]. destruct (fence_handlers fs _) as [w1|] eqn:E; cbn [mbind outcome_bind]; [|done]. intros [= <- <-].
  change (answered w) with (answered (set_rutabaga w r)). change (later w) with (later (set_rutabaga w r)). change (highest w) with (highest (set_rutabaga w r)).
  change (queue_ctl w) with (queue_ctl (set_rutabaga w r)). revert E. generalize (set_rutabaga w r). intros w0.
  apply (fence_handlers_ind (fun v v' => answered v' ≡ₚ answered v /\ (later v -> later v') /\ (highest v -> highest v') /\ next_avail (queue_ctl v') = next_avail (queue_ctl v))); [done|].
  intros g v v1 v2 E (Ha & Hl & Hh & Hn).
  split_and!; [by rewrite Ha; eapply fence_handler_answered|intros; by eapply Hl, fence_handler_later|intros; by eapply Hh, fence_handler_highest|].
  rewrite Hn. apply (fence_handler_exact _ _ _ E).
Qed.

Lemma park_kept w f index len b w' :
  park w f index len = (b, w') ->
  returned w' = returned w /\ waiting w' = waiting w ++ (if b then [] else [index]) /\ reported w' = reported w /\ queue_ctl w' = queue_ctl w /\
  completed_fences (fence_state w') = completed_fences (fence_state w) /\ (later w -> later w').
Proof.
  unfold park, process_fence. destruct f as [f|]; [|intros [= <- <-]; by rewrite app_nil_r].
  destruct (Z.ltb_spec (default 0 (completed_fences (fence_state w) !! fence_ring f)) (fence_id f)); intros [= <- <-]; [|by rewrite app_nil_r].
  unfold waiting. cbn. split_and!; try done; [by rewrite fmap_app|]. intros Hl d [Hd| ->%list_elem_of_singleton]%elem_of_app; [by apply Hl|done].
Qed.

(** *** The threads

    The worker's place in the loop; the library's thread may report a fence
    and the guest may change its memory between any two parts. *)
Inductive phase :=
| Idle
| Taken (head : DescriptorChain)
| Executed (head : DescriptorChain) (resp : GpuResponse) (hdr : option virtio_gpu_ctrl_hdr) (writer : DescriptorChainConsumer)
| Fenced (head : DescriptorChain) (resp : GpuResponse) (fence : option RutabagaFence) (writer : DescriptorChainConsumer)
| Answered (head : DescriptorChain) (fence : option RutabagaFence) (len : Z)
| Leaving (index len : Z).

(** The chains popped so far, the latest first. *)
Record Sys := mkSys { at_ : phase; dev : Worker; popped : list Z }.

Inductive step : Sys -> Sys -> Prop :=
| step_pop w l head q : pop (mem w) (queue_ctl w) = Ret (Some head, q) ->
    step (mkSys Idle w l) (mkSys (Taken head) (set_queue w q (mem w)) (VirtQueue.index head :: l))
| step_execute w l head resp hdr wr w' : execute w head = Ret (resp, hdr, wr, w') ->
    step (mkSys (Taken head) w l) (mkSys (if available_bytes wr =? 0 then Leaving (VirtQueue.index head) 0 else Executed head resp hdr wr) w' l)
| step_fence w l head resp hdr wr resp' w' : make_fence w resp (fence_of hdr) = Ret (resp', w') ->
    step (mkSys (Executed head resp hdr wr) w l) (mkSys (Fenced head resp' (fence_of hdr) wr) w' l)
| step_respond w l head resp fence wr len w' : respond w resp fence wr = Ret (len, w') ->
    step (mkSys (Fenced head resp fence wr) w l) (mkSys (Answered head fence len) w' l)
| step_park w l head fence len b w' : park w fence (VirtQueue.index head) len = (b, w') ->
    step (mkSys (Answered head fence len) w l) (mkSys (if b then Leaving (VirtQueue.index head) len else Idle) w' l)
| step_return w l index len : step (mkSys (Leaving index len) w l) (mkSys Idle (add_used_chain w index len) l)
| step_report p w l f w' : fence_handler f w = Ret w' -> step (mkSys p w l) (mkSys p w' l)
| step_guest p w l m : step (mkSys p w l) (mkSys p (set_mem w m) l).

(** A worker that has just started. *)
Definition fresh (w : Worker) : Prop := fence_state w = mkFences [] ∅ /\ returned w = [] /\ reported w = [].

Definition reachable (s : Sys) : Prop := exists w, fresh w /\ rtc step (mkSys Idle w []) s.

(** The chain in the worker's hands. *)
Definition in_hands (p : phase) : list Z :=
  match p with
  | Idle => []
  | Taken h | Executed h _ _ _ | Fenced h _ _ _ | Answered h _ _ => [VirtQueue.index h]
  | Leaving i _ => [i]
  end.

Record accounted (s : Sys) : Prop := {
  ac_chains : popped s ≡ₚ in_hands (at_ s) ++ answered (dev s);
  ac_later : later (dev s);
  ac_highest : highest (dev s) }.

Lemma same_accounted p p' w w' l :
  same_chains w w' -> in_hands p' = in_hands p -> accounted (mkSys p w l) -> accounted (mkSys p' w' l).
Proof.
  intros (Hf & Hr & Hp & _) Hh [A1 A2 A3]. cbn in *. split; cbn.
  - unfold answered, waiting in *. by rewrite Hf, Hr, Hh.
  - unfold later in *. by rewrite Hf.
  - unfold highest in *. by rewrite Hf, Hp.
Qed.

Lemma step_accounted s s' : step s s' -> accounted s -> accounted s'.
Proof.
  intros Hst Hac. destruct Hst as [w l head q|w l head resp hdr wr w' E|w l head resp hdr wr resp' w' E|w l head resp fence wr len w' E|w l head fence len b w' E|w l index len|p w l f w' E|p w l m].
  - destruct Hac as [A1 A2 A3]. split; cbn in *; [by constructor|done|done].
  - apply (same_accounted (Taken head) _ w); [by eapply execute_same|by destruct (_ =? _)|done].
  - apply make_fence_kept in E as (Ha & Hl & Hh & _). destruct Hac as [A1 A2 A3]. cbn in *. split; cbn; [by rewrite A1, Ha|auto|auto].
  - apply (same_accounted (Fenced head resp fence wr) _ w); [by eapply respond_same|done|done].
  - apply park_kept in E as (Hr & Hw & Hp & _ & Hc & Hl). destruct Hac as [A1 A2 A3]. cbn in *. split; cbn; [|auto|].
    + rewrite A1. unfold answered. rewrite Hr, Hw. destruct b; cbn; [by rewrite app_nil_r|]. rewrite (assoc_L (++)). apply Permutation_cons_append.
    + unfold highest. by rewrite Hp, Hc.
  - destruct (add_used_chain_fields w index len) as (Hf & Hr & Hp & _). destruct Hac as [A1 A2 A3]. cbn in *. split; cbn.
    + rewrite A1. unfold answered, waiting. by rewrite Hf, Hr.
    + unfold later. by rewrite Hf.
    + unfold highest. by rewrite Hf, Hp.
  - destruct Hac as [A1 A2 A3]. cbn in *. split; cbn; [rewrite A1; apply Permutation_app_head; symmetry; by eapply fence_handler_answered|by eapply fence_handler_later|by eapply fence_handler_highest].
  - apply (same_accounted p p w); done.
Qed.

Lemma reachable_accounted s : reachable s -> accounted s.
Proof.
  intros (w & (Hf & Hr & Hp) & Hst). refine (rtc_preserves step accounted _ _ Hst _ step_accounted).
  split; cbn; unfold answered, waiting, later, highest; rewrite Hf, ?Hr, ?Hp; cbn; [done|by intros d ?%not_elem_of_nil|by intros _ f ?%not_elem_of_nil].
Qed.

(** C16. In every state the worker, the library's thread and the guest reach
    together, each popped chain is in the worker's hands, waits for its fence or
    was given back, exactly one of these and once.  A chain waits only for a
    fence later than the last one of its ring; when the library reports the
    fences of a ring in order, its fence has not been reported yet, however
    the report and the parking of the answer interleave. *)
Theorem chains_answered_once s :
  reachable s ->
  popped s ≡ₚ in_hands (at_ s) ++ (returned (dev s)).*1 ++ waiting (dev s) /\
  (forall d, d ∈ descs (fence_state (dev s)) -> default 0 (completed_fences (fence_state (dev s)) !! ring d) < d_fence_id d) /\
  (ordered (reported (dev s)) -> forall d f, d ∈ descs (fence_state (dev s)) -> f ∈ reported (dev s) -> fence_ring f = ring d -> fence_id f < d_fence_id d).
Proof.
  intros [A1 A2 A3]%reachable_accounted. split; [done|]. split; [done|]. intros Ho d f Hd Hf E. specialize (A2 d Hd). specialize (A3 Ho f Hf). rewrite E in A3. lia.
Qed.

(** *** The loop as a run of the threads *)

Lemma serve_steps w head l used w' :
  serve w head = Ret (used, w') -> rtc step (mkSys (Taken head) w l) (mkSys Idle w' l).
Proof.
  unfold serve. destruct (execute w head) as [[[[resp hdr] wr] w1]|] eqn:E1; cbn [mbind outcome_bind]; [|done].
  intros E. eapply rtc_l; [by apply step_execute, E1|]. revert E. destruct (available_bytes wr =? 0).
  { intros [= <- <-]. apply rtc_once, step_return. }
  destruct (make_fence w1 resp (fence_of hdr)) as [[resp2 w2]|] eqn:E2; cbn [mbind outcome_bind]; [|done].
  destruct (respond w2 resp2 (fence_of hdr) wr) as [[len w3]|] eqn:E3; cbn [mbind outcome_bind]; [|done].
  destruct (park w3 (fence_of hdr) (VirtQueue.index head) len) as [b w4] eqn:E4. intros E.
  eapply rtc_l; [by apply step_fence, E2|]. eapply rtc_l; [by apply step_respond, E3|]. eapply rtc_l; [by apply step_park, E4|].
  destruct b; injection E as <- <-; [apply rtc_once, step_return|done].
Qed.

(** A round without reports from outside is such a run. *)
Lemma round_steps used w used' w' :
  process_round (used, w) = Ret (true, (used', w')) -> exists i, forall l, rtc step (mkSys Idle w l) (mkSys Idle w' (i :: l)).
Proof.
  unfold process_round. destruct (pop _ _) as [[[head|] q]|] eqn:Ep; cbn [mbind outcome_bind]; [|done..].
  destruct (serve _ head) as [[u w1]|] eqn:Es; cbn [mbind outcome_bind]; [|done]. intros [= <- <-]. exists (VirtQueue.index head). intros l.
  eapply rtc_l; [by apply step_pop, Ep|]. by eapply serve_steps.
Qed.

Lemma serve_next_avail w head used w' : serve w head = Ret (used, w') -> next_avail (queue_ctl w') = next_avail (queue_ctl w).
Proof.
  unfold serve. destruct (execute w head) as [[[[resp hdr] wr] w1]|] eqn:E1; cbn [mbind outcome_bind]; [|done].
  apply execute_same in E1 as (_ & _ & _ & <-). destruct (available_bytes wr =? 0); [intros [= _ <-]; apply add_used_chain_fields|].
  destruct (make_fence w1 resp (fence_of hdr)) as [[resp2 w2]|] eqn:E2; cbn [mbind outcome_bind]; [|done]. apply make_fence_kept in E2 as (_ & _ & _ & <-).
  destruct (respond w2 resp2 (fence_of hdr) wr) as [[len w3]|] eqn:E3; cbn [mbind outcome_bind]; [|done]. apply respond_same in E3 as (_ & _ & _ & <-).
  destruct (park w3 (fence_of hdr) (VirtQueue.index head) len) as [b w4] eqn:E4. apply park_kept in E4 as (_ & _ & _ & <- & _).
  destruct b; intros [= _ <-]; [apply add_used_chain_fields|done].
Qed.

Definition queue_view (s : bool * Worker) : M * Queue := (mem s.2, queue_ctl s.2).

Lemma gpu_round_pops : pops_one process_round queue_view.
Proof.
  intros [u w] b [u' w']. unfold process_round, queue_view. cbn [snd fst]. destruct (pop _ _) as [[[head|] q]|] eqn:Ep; cbn [mbind outcome_bind]; [| |done].
  - destruct (serve _ head) as [[v w1]|] eqn:Es; cbn [mbind outcome_bind]; [|done]. intros [= <- <- <-]. exists head, q. split; [done|]. by apply serve_next_avail in Es.
  - apply pop_result in Ep as Hq. subst q. intros [= <- <- <-]. split; [|done]. unfold set_queue. by destruct w.
Qed.

(** The worker's loop ends within one round more than there are published
    requests, whatever they say, and leaves none. *)
Theorem gpu_queue_drains fuel w :
  index_kept process_round queue_view (false, w) -> outstanding (mem w) (queue_ctl w) < Z.of_nat fuel ->
  exists o, process_queue fuel w = Some o /\ forall b w', o = Ret (b, w') -> pop (mem w') (queue_ctl w') = Ret (None, queue_ctl w').
Proof.
  intros Hk Ho. destruct (round_loop_drains _ _ fuel (false, w) gpu_round_pops Hk Ho) as (o & E & Hd). exists o. split; [exact E|].
  intros b w' ->. by apply (Hd (b, w')).
Qed.

(** *** Reports *)

(** The interrupt is wired when a line goes with the controller. *)
Definition wired (w : Worker) : Prop := intc w = true -> is_Some (irq_line w).

Lemma signal_wired w : wired w -> exists w', signal_used_queue w = Ret w' /\ wired w'.
Proof.
  intros Hw. unfold signal_used_queue. destruct (intc w) eqn:Ei.
  - destruct (Hw Ei) as [l El]. rewrite El. cbn. eexists. split; [done|]. intros _. cbn. by rewrite El.
  - destruct (irq_ok _); (eexists; split; [done|]; unfold wired; cbn; by rewrite Ei).
Qed.

Lemma add_used_chain_wired w i l : wired w -> wired (add_used_chain w i l).
Proof. unfold add_used_chain. by destruct (add_used _ _ _ _) as [[r q] m]. Qed.

Lemma release_descs_total r id ds w : wired w -> exists kept w', release_descs r id ds w = Ret (kept, w').
Proof.
  revert w. induction ds as [|d ds IH]; intros w Hw; cbn [release_descs]; [eauto|]. destruct (_ && _).
  - destruct (signal_wired _ (add_used_chain_wired w (desc_index d) (d_len d) Hw)) as (w1 & -> & Hw1). cbn [mbind outcome_bind]. by apply IH.
  - destruct (IH w Hw) as (kept & w1 & ->). cbn. eauto.
Qed.

(** A report of a fence never panics; every chain of the ring that waits for
    it or for an earlier fence goes back with the length of its answer, the
    others keep waiting in their order. *)
Theorem report_releases f w :
  wired w ->
  exists w', fence_handler f w = Ret w' /\
    (forall d, d ∈ descs (fence_state w) -> ring d = fence_ring f -> d_fence_id d <= fence_id f ->
       (desc_index d, d_len d) ∈ returned w' /\ d ∉ descs (fence_state w')) /\
    (forall d, d ∈ descs (fence_state w) -> ring d <> fence_ring f \/ fence_id f < d_fence_id d -> d ∈ descs (fence_state w')) /\
    descs (fence_state w') `sublist_of` descs (fence_state w).
Proof.
  intros Hw. destruct (release_descs_total (fence_ring f) (fence_id f) (descs (fence_state w)) w Hw) as (kept & w1 & E).
  assert (exists w', fence_handler f w = Ret w') as [w' E'] by (unfold fence_handler; rewrite E; cbn; eauto). exists w'. split; [done|].
  apply fence_handler_exact in E' as (Hd & _ & Hr & _ & _). rewrite Hd, Hr. split_and!.
  - intros d Hin Hring Hid. assert (released (fence_ring f) (fence_id f) d = true) as Hrel.
    { unfold released. rewrite bool_decide_true by done. cbn. by apply Z.leb_le. }
    split; [|intros [Hn _]%list_elem_of_filter; congruence]. apply elem_of_app. left. apply elem_of_reverse, list_elem_of_fmap. exists d. split; [done|]. by apply list_elem_of_filter.
  - intros d Hin Hor. apply list_elem_of_filter. split; [|done]. unfold released. destruct Hor as [Hne|Hlt].
    + by rewrite bool_decide_false.
    + rewrite (proj2 (Z.leb_gt _ _)) by done. apply andb_false_r.
  - apply sublist_filter.
Qed.

(** ** The two tables of resources *)

Definition synced (w : Worker) : Prop :=
  dom (resources w) = dom (Rutabaga.resources (rutabaga w)) /\ Rutabaga.well_built (rutabaga w) /\
  forall id x, resources w !! id = Some x -> rutabaga_external_mapping x = false.

(** Requests that create and drop no resources. *)
Definition keeps_ids (q : Rutabaga.request) : Prop :=
  match q with Rutabaga.Create3d _ _ | Rutabaga.CreateBlob _ _ _ _ _ | Rutabaga.Unref _ => False | _ => True end.

Lemma synced_follows w q ok r' :
  Rutabaga.follows (rutabaga w) q ok r' -> keeps_ids q -> synced w -> synced (set_rutabaga w r').
Proof.
  intros Hf Hq (Hd & Hw & Hx). split_and!; [|by eapply Rutabaga.follows_well_built|done]. cbn. rewrite Hd. destruct Hf as [_ Ht].
  destruct ok; [destruct Ht as [_ Ht]|by injection Ht as ->]. destruct q; try done; injection Ht as -> _; done.
Qed.

Lemma call_synced {A} w q (p : RutabagaResult A * Rutabaga.Rutabaga (G := G)) k :
  Rutabaga.post (Rutabaga.follows (rutabaga w) q) p -> keeps_ids q -> synced w -> synced (call w p k).2.
Proof. intros. by eapply synced_follows. Qed.

Lemma enter_synced w id sz q p :
  Rutabaga.post (Rutabaga.follows (rutabaga w) q) p -> Rutabaga.effect (rutabaga w) q = ({[id]} ∪ dom (Rutabaga.resources (rutabaga w)), Rutabaga.contexts (rutabaga w)) ->
  synced w -> synced (enter w id sz p).2.
Proof.
  unfold enter, Rutabaga.post. destruct p as [[[]|e] r]; cbn [fst snd Rutabaga.is_ok]; intros Hf He (Hd & Hw & Hx).
  - split_and!; [|by eapply Rutabaga.follows_well_built|].
    + destruct Hf as [_ [_ Ht]]. rewrite He in Ht. injection Ht as Ht _. change (dom (<[id := VirtioGpuResource_new sz]> (resources w)) = dom (Rutabaga.resources r)). rewrite dom_insert_L, Hd, Ht. done.
    + intros i x. cbn. intros [[_ <-]|[_ Hi]]%lookup_insert_Some; [done|by eapply Hx].
  - split_and!; [|by eapply Rutabaga.follows_well_built|done]. destruct Hf as [_ Ht]. injection Ht as Ht _. cbn. by rewrite Hd, Ht.
Qed.

Lemma unref_synced w id : synced w -> synced (unref_resource w id).2.
Proof.
  intros (Hd & Hw & Hx). unfold unref_resource. destruct (resources w !! id) as [x|] eqn:Ex; [|done]. rewrite (Hx _ _ Ex).
  assert (is_Some (Rutabaga.resources (rutabaga w) !! id)) as Hk by (apply elem_of_dom; rewrite <- Hd; by eapply elem_of_dom_2).
  pose proof (Rutabaga.follows_Unref (rutabaga w) id) as Hf. pose proof (Rutabaga.unref_known _ _ Hw Hk) as Hok. unfold Rutabaga.post in Hf. rewrite Hok in Hf.
  split_and!; [|by eapply Rutabaga.follows_well_built|].
  - destruct Hf as [_ [_ Ht]]. injection Ht as Ht _. cbn [call snd]. change (dom (delete id (resources w)) = dom (Rutabaga.resources (Rutabaga.unref_resource (rutabaga w) id).2)).
    by rewrite dom_delete_L, Hd, Ht.
  - cbn. intros i y [_ Hi]%lookup_delete_Some. by eapply Hx.
Qed.

(** An entry of a known resource changes. *)
Lemma update_synced w id x y :
  synced w -> resources w !! id = Some x -> rutabaga_external_mapping y = rutabaga_external_mapping x -> synced (set_resources w (<[id := y]> (resources w))).
Proof.
  intros (Hd & Hw & Hx) Ex Ey. split_and!; [|done|].
  - change (dom (<[id := y]> (resources w)) = dom (Rutabaga.resources (rutabaga w))). rewrite dom_insert_L, <- Hd. apply elem_of_dom_2 in Ex. set_solver.
  - cbn. intros i z [[_ <-]|[_ Hi]]%lookup_insert_Some; [rewrite Ey; by eapply Hx|by eapply Hx].
Qed.

Lemma mapped_synced w id x off i : synced w -> resources w !! id = Some x -> synced (mapped w id x off i).2.
Proof. intros Hs Ex. by apply (update_synced w id x). Qed.

Lemma mmap_synced w hm : synced w -> synced (mmap w hm).2.
Proof. done. Qed.

Lemma export_synced w id : synced w -> synced (set_rutabaga w (Rutabaga.export_blob (rutabaga w) id).2).
Proof. intros. by eapply synced_follows; [apply (Rutabaga.follows_Export (rutabaga w) id)| |]. Qed.

Lemma map_blob_synced w id off r w' : map_blob w id off = Ret (r, w') -> synced w -> synced w'.
Proof.
  unfold map_blob, resource_map_blob2, resource_map_blob, mmap. intros E Hs. pose proof (export_synced w id Hs) as Hx. revert E.
  destruct (resources w !! id) as [x|] eqn:Ex; [|by destruct map2; intros [= <- <-]].
  destruct (Rutabaga.get_map_info _ _) as [i|]; [|by destruct map2; intros [= <- <-]].
  destruct (Rutabaga.export_blob _ _) as [ex r0]. cbn [snd] in Hx. destruct map2.
  - destruct (prot_of i) as [prot|]; [|done]. cbn [mbind outcome_bind]. destruct (_ <? _); [by intros [= <- <-]|].
    destruct ex as [ex|]; [|intros [= <- <-]; by apply (mapped_synced (set_rutabaga w r0) id x off i)]. destruct (_ =? _).
    + destruct (mmap_ok _); intros [= <- <-]; [|done].
      by apply (mapped_synced (mmap (set_rutabaga w r0) (mkMap (host_addr (shm_region w) +[64] off) (size x) prot MAP_SHARED_FIXED (Rutabaga.os_handle ex))).2 id x off i).
    + set (w1 := set_rutabaga w r0) in *. pose proof (Rutabaga.follows_MapAt (rutabaga w1) id (host_addr (shm_region w) +[64] off) (size x) prot MAP_SHARED_FIXED) as Hf.
      destruct (Rutabaga.resource_map _ _ _ _ _ _) as [res r1]. unfold Rutabaga.post in Hf. cbn [fst snd] in Hf.
      assert (synced (set_rutabaga w1 r1)) by (by eapply synced_follows). destruct res; intros [= <- <-]; [by apply (mapped_synced (set_rutabaga w1 r1) id x off i)|done].
  - destruct ex as [ex|]; [|by intros [= <- <-]]. destruct (negb _); [|by intros [= <- <-]]. destruct (prot_of i) as [prot|]; [|done]. cbn [mbind outcome_bind].
    destruct (mmap_ok _); intros [= <- <-]; [|done].
    by apply (mapped_synced (mmap (set_rutabaga w r0) (mkMap (host_addr (shm_region w) +[64] off) (size x) prot MAP_SHARED_FIXED (Rutabaga.os_handle ex))).2 id x off i).
Qed.

Lemma unmap_blob_synced w id r w' : resource_unmap_blob w id = Ret (r, w') -> synced w -> synced w'.
Proof.
  unfold resource_unmap_blob, mmap. intros E Hs. revert E. destruct (resources w !! id) as [x|] eqn:Ex; [|by intros [= <- <-]].
  destruct (shmem_offset x); [|by intros [= <- <-]]. destruct (mmap_ok _); intros [= <- <-].
  by apply (update_synced (mmap w (mkMap (host_addr (shm_region w) +[64] z) (size x) 0 MAP_ANONYMOUS_FIXED (-1))).2 id x).
Qed.

Lemma create_blob_synced w ctx id c v r w' : resource_create_blob w ctx id c v = Ret (r, w') -> synced w -> synced w'.
Proof.
  unfold resource_create_blob. intros E Hs. revert E. destruct (negb _); [done|].
  assert (forall iov r1 w1, enter w id (cb_size c) (Rutabaga.resource_create_blob (rutabaga w) ctx id c iov None) = (r1, w1) -> synced w1) as He.
  { intros iov r1 w1 E. change (synced (r1, w1).2). rewrite <- E. by eapply enter_synced; [apply Rutabaga.follows_CreateBlob|done|]. }
  destruct (negb _); [destruct (sglist_to_rutabaga_iovecs _ _)|]; intros [= E]; [by eapply He|by subst|by eapply He].
Qed.

Lemma command_synced w hdr cmd c r w' : process_gpu_command w hdr cmd c = Ret (r, w') -> synced w -> synced w'.
Proof.
  intros E Hs0. assert (synced (force_ctx_0 w)) as Hs.
  { pose proof (Rutabaga.exec_follows (rutabaga w) Rutabaga.ForceCtx0) as Hf. by eapply synced_follows. }
  revert E. unfold process_gpu_command. set (w0 := force_ctx_0 w) in *. clearbody w0.
  assert (forall (p : VirtioGpuResult * Worker), synced p.2 -> Ret p = Ret (r, w') -> synced w') as Hret by (intros p Hp [= ->]; done).
  destruct cmd; try discriminate; try (by intros [= <- <-]); try apply Hret.
  - by eapply enter_synced; [apply Rutabaga.follows_Create3d| |].
  - by apply unref_synced.
  - by eapply call_synced; [apply Rutabaga.follows_TransferWrite| |].
  - destruct (available_bytes c =? 0); [by apply Hret|]. destruct (read_entries _ _ _) as [[v c']|]; cbn [mbind outcome_bind]; [|done].
    destruct v as [v|]; [|by apply Hret]. apply Hret. unfold attach_backing. destruct (sglist_to_rutabaga_iovecs _ _); [|done].
    by eapply call_synced; [apply Rutabaga.follows_Attach| |].
  - by eapply call_synced; [apply Rutabaga.follows_Detach| |].
  - by eapply call_synced; [apply Rutabaga.follows_CreateContext| |].
  - by eapply call_synced; [apply Rutabaga.follows_DestroyContext| |].
  - by eapply call_synced; [apply Rutabaga.follows_AttachResource| |].
  - by eapply call_synced; [apply Rutabaga.follows_DetachResource| |].
  - by eapply enter_synced; [apply Rutabaga.follows_Create3d| |].
  - by eapply call_synced; [apply Rutabaga.follows_TransferWrite| |].
  - unfold submit. destruct (_ =? 0); [by apply Hret|]. destruct (read_list _ _ _ _ _) as [[l c1]|]; cbn [mbind outcome_bind]; [|done].
    destruct l as [l|]; [|by apply Hret]. destruct (read_obj _ _ _) as [[[bs|] c2]|]; cbn [mbind outcome_bind]; [|by apply Hret|done]. apply Hret.
    by eapply call_synced; [apply Rutabaga.follows_Submit| |].
  - destruct (_ && _); [by apply Hret|]. destruct (read_entries _ _ _) as [[v c']|]; cbn [mbind outcome_bind]; [|done].
    destruct v as [v|]; [|by apply Hret]. intros E. by eapply create_blob_synced.
  - intros E. by eapply map_blob_synced.
  - intros E. by eapply unmap_blob_synced.
Qed.

(** Fences leave the tables alone. *)
Definition same_tables (w w' : Worker) : Prop := resources w' = resources w /\ rutabaga w' = rutabaga w.

Lemma release_descs_tables r id ds w kept w' : release_descs r id ds w = Ret (kept, w') -> same_tables w w'.
Proof.
  revert w kept w'. induction ds as [|d ds IH]; intros w kept w'; cbn [release_descs]; [by intros [= _ <-]|]. destruct (_ && _).
  - destruct (signal_used_queue _) as [w1|] eqn:Es; cbn [mbind outcome_bind]; [|done]. intros E%IH.
    assert (same_tables w w1) as [Hr Hb].
    { unfold signal_used_queue, add_used_chain in Es. destruct (add_used _ _ _ _) as [[? ?] ?]. cbn in Es.
      destruct (intc w); [destruct (irq_line w); [|done]; by injection Es as <-|]. destruct (irq_ok _); by injection Es as <-. }
    destruct E as [E1 E2]. split; congruence.
  - destruct (release_descs r id ds w) as [[kept1 w1]|] eqn:E; cbn [mbind outcome_bind]; [|done]. intros [= _ <-]. by eapply IH.
Qed.

Lemma fence_handler_tables f w w' : fence_handler f w = Ret w' -> same_tables w w'.
Proof.
  unfold fence_handler. destruct (release_descs _ _ _ _) as [[kept w1]|] eqn:E; cbn [mbind outcome_bind]; [|done]. intros [= <-]. by apply release_descs_tables in E.
Qed.

Lemma same_tables_synced w w' : same_tables w w' -> synced w -> synced w'.
Proof. unfold synced. by intros [-> ->]. Qed.

Lemma make_fence_synced w resp f resp' w' : make_fence w resp f = Ret (resp', w') -> synced w -> synced w'.
Proof.
  unfold make_fence, create_fence. destruct f as [f|]; [|by intros [= <- <-]]. pose proof (Rutabaga.follows_Fence (rutabaga w) f) as Hf.
  destruct (Rutabaga.create_fence _ _) as [[res fs] r]. destruct (fence_handlers fs _) as [w1|] eqn:E; cbn [mbind outcome_bind]; [|done]. intros [= <- <-] Hs.
  assert (synced (set_rutabaga w r)) as Hs1 by (by eapply synced_follows). revert E Hs1. generalize (set_rutabaga w r). intros w0.
  apply (fence_handlers_ind (fun v v' => synced v -> synced v')); [done|]. intros g v v1 v2 E Hv Hs1. by eapply Hv, same_tables_synced, Hs1; eapply fence_handler_tables.
Qed.

Lemma execute_synced w head resp hdr wr w' : execute w head = Ret (resp, hdr, wr, w') -> synced w -> synced w'.
Proof.
  unfold execute. destruct (Reader_new _ _) as [[rd|]|]; cbn [mbind outcome_bind]; [|done..].
  destruct (Writer_new _ _) as [[wr'|]|]; cbn [mbind outcome_bind]; [|done..].
  destruct (decode _ _) as [[[[h cmd]|] rd']|]; cbn [mbind outcome_bind]; [|by intros [= <- <- <- <-]|done].
  destruct (process_gpu_command _ _ _ _) as [[r w1]|] eqn:E; cbn [mbind outcome_bind]; [|done]. intros [= <- <- <- <-]. by eapply command_synced.
Qed.

Lemma step_synced s s' : step s s' -> synced (dev s) -> synced (dev s').
Proof.
  intros Hst Hs. destruct Hst as [w l head q|w l head resp hdr wr w' E|w l head resp hdr wr resp' w' E|w l head resp fence wr len w' E|w l head fence len b w' E|w l index len|p w l f w' E|p w l m]; cbn in *.
  - done.
  - by eapply execute_synced.
  - by eapply make_fence_synced.
  - revert E. unfold respond. destruct (match fence with Some _ => _ | None => _ end) as [[[? ?] ?] ?].
    destruct (encode _ _ _ _ _ _ _) as [[[? ?] ?]|]; cbn; [|done]. by intros [= <- <-].
  - revert E. unfold park, process_fence. destruct fence; [destruct (_ <? _)|]; by intros [= <- <-].
  - unfold add_used_chain. by destruct (add_used _ _ _ _) as [[? ?] ?].
  - by eapply same_tables_synced; [eapply fence_handler_tables|].
  - done.
Qed.

(** C17. Starting from a new library and no resources, in every state the threads
    reach, the device knows exactly the resources the library has; so dropping
    a resource the device knows never fails in the library. *)
Theorem resource_tables_agree w s b feature init g :
  Rutabaga.build b feature init g = Ok (rutabaga w) -> resources w = ∅ -> rtc step (mkSys Idle w []) s ->
  dom (resources (dev s)) = dom (Rutabaga.resources (rutabaga (dev s))) /\
  forall id, is_Some (resources (dev s) !! id) -> fst (unref_resource (dev s) id) = Ok OkNoData.
Proof.
  intros Hb Hr Hst. assert (synced w) as Hs.
  { apply Rutabaga.build_well_built in Hb as (Hw & _ & Ht). injection Ht as Ht _. split_and!; [by rewrite Hr, Ht|done|]. intros id x. by rewrite Hr. }
  assert (synced (dev s)) as (Hd & Hw & Hx) by (apply (rtc_preserves step (fun s => synced (dev s)) _ _ Hst Hs step_synced)).
  split; [done|]. intros id [x Ex]. unfold unref_resource. rewrite Ex, (Hx _ _ Ex). unfold call. cbn [fst rutabaga set_resources].
  rewrite Rutabaga.unref_known; [done|done|]. apply elem_of_dom. rewrite <- Hd. by eapply elem_of_dom_2.
Qed.

(** ** Blobs in the window *)

Definition inside (shm : VirtioShmRegion) (a sz : Z) : Prop := host_addr shm <= a /\ a + sz <= host_addr shm + shm_size shm.

(** Every mapping lies in the window, and so would every unmapping. *)
Record windows (w : Worker) : Prop := {
  wi_shm : 0 <= host_addr (shm_region w) /\ host_addr (shm_region w) + shm_size (shm_region w) < 2 ^ 64;
  wi_maps hm ok : (hm, ok) ∈ mmaps w -> inside (shm_region w) (m_addr hm) (m_size hm);
  wi_resources id x off : resources w !! id = Some x -> shmem_offset x = Some off -> 0 <= off /\ 0 <= size x /\ off + size x <= shm_size (shm_region w) }.

Lemma windows_same w w' : shm_region w' = shm_region w -> mmaps w' = mmaps w -> resources w' = resources w -> windows w -> windows w'.
Proof. intros E1 E2 E3 [A1 A2 A3]. split; rewrite ?E1, ?E2, ?E3; done. Qed.

Lemma windows_mmap w hm : inside (shm_region w) (m_addr hm) (m_size hm) -> windows w -> windows (mmap w hm).2.
Proof. intros Hi [A1 A2 A3]. split; [done| |done]. cbn. intros hm' ok [[= -> ->]|Hin]%elem_of_cons; [done|by eapply A2]. Qed.

Lemma windows_entry w id y :
  (forall off, shmem_offset y = Some off -> 0 <= off /\ 0 <= size y /\ off + size y <= shm_size (shm_region w)) -> windows w ->
  windows (set_resources w (<[id := y]> (resources w))).
Proof. intros Hy [A1 A2 A3]. split; [done|done|]. cbn. intros i x off [[_ <-]|[_ Hi]]%lookup_insert_Some; [apply Hy|by apply A3 with i]. Qed.

(** A property of the components' state that an export keeps. *)
Lemma export_blob_gfx (I : G -> Prop) rb id : (forall hd g, I g -> I (Rutabaga.os_try_clone hd g).2) ->
  I (Rutabaga.gfx rb) -> I (Rutabaga.gfx (Rutabaga.export_blob rb id).2).
Proof.
  intros Hc Hi. unfold Rutabaga.export_blob, Rutabaga.try_in, Rutabaga.try_clone. destruct (Rutabaga.get_resource rb id) as [x|]; [|done].
  destruct (Rutabaga.handle x) as [hd|]; [|done]. destruct (_ || _); [|by destruct (Rutabaga.strong hd =? 1)%nat].
  specialize (Hc (Rutabaga.os_handle (Rutabaga.arc_handle hd)) _ Hi). destruct (Rutabaga.os_try_clone _ _) as [[fd|] g]; done.
Qed.

(** The library is asked to map only where the device says. *)
Lemma resource_map_gfx (I : G -> Prop) rb id a sz p f : (forall t g, I g -> I (Rutabaga.c_resource_map t id a sz p f g).2) ->
  I (Rutabaga.gfx rb) -> I (Rutabaga.gfx (Rutabaga.resource_map rb id a sz p f).2).
Proof.
  intros Hm Hi. unfold Rutabaga.resource_map, Rutabaga.try_in. destruct (Rutabaga.get_resource rb id) as [x|]; [|done].
  destruct (Rutabaga.calculate_component _) as [ct|]; [|done]. destruct (decide _); [done|]. destruct (Rutabaga.get_component rb ct) as [t|]; [|done].
  specialize (Hm t _ Hi). by destruct (Rutabaga.c_resource_map _ _ _ _ _ _ _).
Qed.

(** C20. With [virgl_resource_map2], mapping and unmapping a blob stays inside the
    window of the device, and so will every later unmapping, provided the
    guest's offset plus the size does not wrap around.  That holds of the
    mappings the device makes and of those it has the library make: whatever
    property the state of the library's components keeps under requests to map
    inside the window (and copies of descriptors), it keeps here. *)
Theorem map_blob_contained (I : G -> Prop) w id offset r w' :
  (forall t i a sz p f g, inside (shm_region w) a sz -> I g -> I (Rutabaga.c_resource_map t i a sz p f g).2) ->
  (forall hd g, I g -> I (Rutabaga.os_try_clone hd g).2) ->
  windows w -> I (Rutabaga.gfx (rutabaga w)) -> 0 <= offset ->
  (forall x, resources w !! id = Some x -> 0 <= size x /\ offset + size x < 2 ^ 64) ->
  resource_map_blob2 w id offset = Ret (r, w') \/ resource_unmap_blob w id = Ret (r, w') ->
  windows w' /\ I (Rutabaga.gfx (rutabaga w')).
Proof.
  intros Hmap Hclone Hw Hi Ho Hsz [E|E]; revert E; pose proof (wi_shm _ Hw) as [Hh0 Hh1].
  - unfold resource_map_blob2. destruct (resources w !! id) as [x|] eqn:Ex; [|by intros [= <- <-]]. destruct (Hsz x eq_refl) as [Hs0 Hs1].
    destruct (Rutabaga.get_map_info _ _) as [i|]; [|by intros [= <- <-]]. destruct (prot_of i) as [prot|]; [|done]. cbn [mbind outcome_bind].
    rewrite (wrap_small 64 (offset + size x)) by (unfold fits; lia). destruct (Z.ltb_spec (shm_size (shm_region w)) (offset + size x)) as [|Hfit]; [by intros [= <- <-]|].
    rewrite (wrap_small 64 (host_addr (shm_region w) + offset)) by (unfold fits; lia).
    assert (inside (shm_region w) (host_addr (shm_region w) + offset) (size x)) as Hin by (split; lia).
    assert (forall v, shm_region v = shm_region w -> windows v -> windows (mapped v id x offset i).2) as Hm.
    { intros v Ev Hv. apply (windows_entry v id); [|done]. cbn. intros off [= <-]. rewrite Ev. lia. }
    pose proof (export_blob_gfx I (rutabaga w) id Hclone Hi) as Hi0.
    destruct (Rutabaga.export_blob _ _) as [[ex|] r0]; [|intros [= <- <-]; split; [by apply (Hm (set_rutabaga w r0)), (windows_same w)|done]]. destruct (_ =? _).
    + destruct (mmap _ _) as [ok w1] eqn:Em. assert (windows w1) as Hw1.
      { change w1 with (ok, w1).2. rewrite <- Em. apply windows_mmap; [done|by apply (windows_same w)]. }
      assert (shm_region w1 = shm_region w /\ rutabaga w1 = r0) as [Er Eg] by (by injection Em as _ <-).
      destruct ok; intros [= <- <-]; (split; [|cbn; by rewrite Eg]); [by apply (Hm w1)|done].
    + pose proof (resource_map_gfx I r0 id (host_addr (shm_region w) + offset) (size x) prot MAP_SHARED_FIXED
        (fun t g => Hmap t id _ _ prot MAP_SHARED_FIXED g Hin) Hi0) as Hi1. cbn [rutabaga set_rutabaga].
      destruct (Rutabaga.resource_map _ _ _ _ _ _) as [[] r1]; intros [= <- <-]; (split; [|done]);
        [by apply (Hm (set_rutabaga (set_rutabaga w r0) r1)), (windows_same w)|by apply (windows_same w)].
  - unfold resource_unmap_blob. destruct (resources w !! id) as [x|] eqn:Ex; [|by intros [= <- <-]]. destruct (shmem_offset x) as [off|] eqn:Eo; [|by intros [= <- <-]].
    destruct (wi_resources _ Hw id x off Ex Eo) as (H0' & H1' & H2'). rewrite (wrap_small 64) by (unfold fits; lia).
    destruct (mmap _ _) as [ok w1] eqn:Em. assert (windows w1) as Hw1.
    { change w1 with (ok, w1).2. rewrite <- Em. apply windows_mmap; [|done]. split; cbn; lia. }
    assert (rutabaga w1 = rutabaga w) as Eg by (by injection Em as _ <-).
    destruct ok; intros [= <- <-]. split; [by apply (windows_entry w1 id)|cbn; by rewrite Eg].
Qed.

(** Without it, a blob that does not fit is mapped all the same, over whatever
    lies behind the window. *)
Lemma map_blob_escapes w id x i ex r0 offset :
  resources w !! id = Some x -> Rutabaga.get_map_info (rutabaga w) id = Ok i -> i .& Rutabaga.RUTABAGA_MAP_ACCESS_MASK = Rutabaga.RUTABAGA_MAP_ACCESS_RW ->
  Rutabaga.export_blob (rutabaga w) id = (Ok ex, r0) -> Rutabaga.handle_type ex = Rutabaga.RUTABAGA_MEM_HANDLE_TYPE_SHM ->
  mmap_ok (length (mmaps w)) = true ->
  exists w', resource_map_blob w id offset = Ret (Ok (OkMapInfo (i .& Rutabaga.RUTABAGA_MAP_CACHE_MASK)), w') /\
    mmaps w' = (mkMap (host_addr (shm_region w) +[64] offset) (size x) (PROT_READ .| PROT_WRITE) MAP_SHARED_FIXED (Rutabaga.os_handle ex), true) :: mmaps w.
Proof.
  intros Ex Ei Ea Ee Et Em. unfold resource_map_blob, prot_of. rewrite Ex, Ei, Ee, Et, Ea. cbn. rewrite Em. eauto.
Qed.

(** With it, a blob whose handle cannot be exported counts as mapped although
    nothing is. *)
Lemma unexported_blob_counts_as_mapped w id x i e r0 offset :
  resources w !! id = Some x -> Rutabaga.get_map_info (rutabaga w) id = Ok i -> i .& Rutabaga.RUTABAGA_MAP_ACCESS_MASK = Rutabaga.RUTABAGA_MAP_ACCESS_RW ->
  Rutabaga.export_blob (rutabaga w) id = (Err e, r0) -> offset +[64] size x <= shm_size (shm_region w) ->
  exists w', resource_map_blob2 w id offset = Ret (Ok (OkMapInfo (i .& Rutabaga.RUTABAGA_MAP_CACHE_MASK)), w') /\ mmaps w' = mmaps w /\
    resources w' !! id = Some (mkRes (size x) (Some offset) (rutabaga_external_mapping x)).
Proof.
  intros Ex Ei Ea Ee Hf. unfold resource_map_blob2, prot_of. rewrite Ex, Ei, Ee, Ea. cbn - [wrap]. rewrite (proj2 (Z.ltb_ge _ _)) by done.
  eexists. split; [done|]. split; [done|]. cbn. apply lookup_insert_eq.
Qed.

(** A report that comes after a later one of its ring sets the ring's last
    fence back. *)
Lemma late_report_forgets f w w' :
  fence_handler f w = Ret w' -> completed_fences (fence_state w') !! fence_ring f = Some (fence_id f).
Proof. intros E. apply fence_handler_exact in E as (_ & -> & _). apply lookup_insert_eq. Qed.
End gpu.

(** ** Witnesses

    A library that does as it is told, and one fenced command to create a
    resource. *)

Definition demo_methods {G} (map_at : Z -> Z -> G -> G) : Graphics G := {|
  Rutabaga.c_get_capset_info := fun _ _ _ => (1, 64);
  Rutabaga.c_get_capset := fun _ _ _ _ => [];
  Rutabaga.c_force_ctx_0 := fun _ g => g;
  Rutabaga.c_create_fence := fun _ _ g => (Ok tt, [], g);
  Rutabaga.c_create_3d := fun _ id _ g => (Ok (Rutabaga.default_resource id), g);
  Rutabaga.c_attach_backing := fun _ _ v g => (Ok v, g);
  Rutabaga.c_detach_backing := fun _ _ g => g;
  Rutabaga.c_unref_resource := fun _ _ g => g;
  Rutabaga.c_transfer_write := fun _ _ r _ g => (Ok tt, r, g);
  Rutabaga.c_transfer_read := fun _ _ r _ b g => (Ok tt, r, b, g);
  Rutabaga.c_resource_flush := fun _ r g => (Ok tt, r, g);
  Rutabaga.c_create_blob := fun _ _ id _ _ _ g => (Ok (Rutabaga.default_resource id), g);
  Rutabaga.c_resource_map := fun _ _ a sz _ _ g => (Ok tt, map_at a sz g);
  Rutabaga.c_map := fun _ _ g => (Ok (Rutabaga.mkMapping 0 0), g);
  Rutabaga.c_unmap := fun _ _ g => (Ok tt, g);
  Rutabaga.c_export_fence := fun _ _ g => (Err Rutabaga.Unsupported, g);
  Rutabaga.c_create_context := fun _ _ _ _ g => (Ok tt, g);
  Rutabaga.x_drop := fun _ _ g => g;
  Rutabaga.x_create_blob := fun _ _ id _ _ g => (Ok (Rutabaga.default_resource id), g);
  Rutabaga.x_submit_cmd := fun _ _ _ _ g => (Ok tt, g);
  Rutabaga.x_attach := fun _ _ r g => (r, g);
  Rutabaga.x_detach := fun _ _ _ g => g;
  Rutabaga.x_create_fence := fun _ _ _ g => (Ok tt, [], g);
  Rutabaga.os_try_clone := fun fd g => (Some (fd + 1), g);
  Rutabaga.os_map := fun _ sz _ g => (Ok (Rutabaga.mkMapping 0 sz), g) |}.

#[local] Instance demo_graphics : Graphics unit := demo_methods (fun _ _ g => g).

Definition demo_hdr : virtio_gpu_ctrl_hdr := mk_ctrl_hdr VIRTIO_GPU_CMD_RESOURCE_CREATE_2D VIRTIO_GPU_FLAG_FENCE 7 0 0 0.

Definition demo_mem : FlatMem := mkFlat 0
  (le_bytes 8 512 ++ le_bytes 4 40 ++ le_bytes 2 1 ++ le_bytes 2 1 ++
   le_bytes 8 640 ++ le_bytes 4 24 ++ le_bytes 2 2 ++ le_bytes 2 0 ++ replicate 32 0 ++
   le_bytes 2 0 ++ le_bytes 2 1 ++ replicate 60 0 ++ replicate 384 0 ++
   FuseAbi.as_slice demo_hdr ++ FuseAbi.as_slice (mk_resource_create_2d 1 67 640 480) ++ replicate 500 0).

Definition demo_queue : Queue := {|
  max_size := 4; VirtQueue.size := 4; ready := true; q_desc_table := 0; avail_ring := 64; used_ring := 128;
  next_avail := 0; next_used := 0; event_idx_enabled := false; num_added := 0 |}.

Definition demo_library : Rutabaga.Rutabaga (G := unit) :=
  Rutabaga.mkRutabaga ∅ ∅ [Rutabaga.VirglRenderer; Rutabaga.CrossDomain] Rutabaga.VirglRenderer
    (Rutabaga.push_capsets (Rutabaga.RutabagaBuilder_new Rutabaga.VirglRenderer 0 0) [1; 2; 4; 6; 5]) tt.

Definition demo_shm : VirtioShmRegion := {| host_addr := 0x700000000000; guest_addr := 0x100000000; shm_size := 0x10000 |}.

Definition demo_worker : Worker (G := unit) (M := FlatMem) := Worker_new demo_mem demo_queue 0 false None demo_shm demo_library.

Definition yes : nat -> bool := fun _ => true.

Definition demo_round : bool * Worker -> outcome (bool * (bool * Worker)) := process_round (G := unit) (M := FlatMem) id true yes yes.

(** The command has run; its chain waits for fence 7. *)
Definition demo_worker' : Worker (G := unit) (M := FlatMem) :=
  match demo_round (false, demo_worker) with Ret (_, (_, w)) => w | Panic => demo_worker end.

Lemma gpu_demo_rounds : demo_round (false, demo_worker) = Ret (true, (false, demo_worker')) /\ demo_round (false, demo_worker') = Ret (false, (false, demo_worker')) /\
  descs (fence_state demo_worker') = [mkDesc Global 7 0 24] /\ returned demo_worker' = [].
Proof. split_and!; vm_compute; reflexivity. Qed.

Lemma chains_answered_once_witness :
  exists s, reachable (G := unit) (M := FlatMem) id true yes yes s /\ waiting (dev s) = [0] /\
    popped s ≡ₚ in_hands (at_ s) ++ (returned (dev s)).*1 ++ waiting (dev s).
Proof.
  destruct gpu_demo_rounds as (E & _ & Hd & _). destruct (round_steps id true yes yes false demo_worker false demo_worker' E) as [i Hst].
  assert (reachable id true yes yes (mkSys Idle demo_worker' [i])) as Hr by (exists demo_worker; split; [by split_and!|apply Hst]).
  exists (mkSys Idle demo_worker' [i]). split; [exact Hr|]. split; [cbn; unfold waiting; rewrite Hd; reflexivity|].
  exact (proj1 (chains_answered_once id true yes yes (mkSys Idle demo_worker' [i]) Hr)).
Defined.

Lemma gpu_demo_index_kept : index_kept demo_round queue_view (false, demo_worker).
Proof.
  destruct gpu_demo_rounds as (E1 & E2 & _). intros w1 w2 Hr Hs.
  destruct (one_step (fun a b => demo_round a = Ret (true, b)) (false, demo_worker) (false, demo_worker') w1 w2) as [-> ->]; [| |done..|].
  - intros z Hz. rewrite E1 in Hz. congruence.
  - intros z Hz. rewrite E2 in Hz. discriminate Hz.
  - vm_compute. reflexivity.
Qed.

Lemma gpu_queue_drains_witness :
  exists b w', process_queue id true yes yes 3 demo_worker = Some (Ret (b, w')) /\ pop (mem w') (queue_ctl w') = Ret (None, queue_ctl w').
Proof.
  destruct (gpu_queue_drains id true yes yes 3 demo_worker gpu_demo_index_kept) as (o & Ho & Hr); [vm_compute; reflexivity|].
  destruct o as [[b w']|]; [|vm_compute in Ho; discriminate]. exists b, w'. split; [exact Ho|exact (Hr b w' eq_refl)].
Defined.

Lemma report_releases_witness :
  exists w', fence_handler yes (mkFence VIRTIO_GPU_FLAG_FENCE 7 0 0) demo_worker' = Ret w' /\ (0, 24) ∈ returned w'.
Proof.
  destruct gpu_demo_rounds as (_ & _ & Hd & _).
  destruct (report_releases yes (mkFence VIRTIO_GPU_FLAG_FENCE 7 0 0) demo_worker') as (w' & E & Hin & _).
  - intros Hc. vm_compute in Hc. discriminate.
  - exists w'. split; [exact E|]. apply (Hin (mkDesc Global 7 0 24)); [rewrite Hd; by left|reflexivity|reflexivity].
Defined.

Lemma resource_tables_agree_witness :
  exists s, dom (resources (dev s)) = {[1]} /\ dom (Rutabaga.resources (rutabaga (dev s))) = {[1]} /\
    fst (unref_resource (dev s : Worker (G := unit) (M := FlatMem)) 1) = Ok OkNoData.
Proof.
  destruct gpu_demo_rounds as (E & _). destruct (round_steps id true yes yes false demo_worker false demo_worker' E) as [i Hst].
  destruct (resource_tables_agree id true yes yes demo_worker (mkSys Idle demo_worker' [i])
    (Rutabaga.RutabagaBuilder_new Rutabaga.VirglRenderer 0 0) (fun _ => true) (fun _ => Ok tt) tt) as [Hd Hu]; [vm_compute; reflexivity|reflexivity|apply Hst|].
  assert (dom (resources demo_worker') = {[1]}) as E1 by (vm_compute; reflexivity).
  exists (mkSys Idle demo_worker' [i]). split; [exact E1|]. split; [rewrite <- Hd; exact E1|]. apply Hu. vm_compute. by eexists.
Defined.

(** A blob of two pages, which the library maps and notes. *)
#[local] Instance noting_graphics : Graphics (list (Z * Z)) := demo_methods (fun a sz g => (a, sz) :: g).

Definition demo_noting : Rutabaga.Rutabaga (G := list (Z * Z)) :=
  Rutabaga.mkRutabaga {[ 9 := Rutabaga.mkResource 9
    (Some (Rutabaga.mkArc (Rutabaga.mkHandle 20 Rutabaga.RUTABAGA_MEM_HANDLE_TYPE_OPAQUE_FD) 1)) true 2 2 (Some 0x31) None None None None 2 0x2000 None ]}
    ∅ [Rutabaga.VirglRenderer] Rutabaga.VirglRenderer [] [].

Definition demo_blob_worker : Worker (G := list (Z * Z)) (M := FlatMem) :=
  set_resources (Worker_new demo_mem demo_queue 0 false None demo_shm demo_noting) {[ 9 := VirtioGpuResource_new 0x2000 ]}.

Lemma map_blob_contained_witness :
  exists r w', resource_map_blob2 yes demo_blob_worker 9 0x1000 = Ret (r, w') /\
    Rutabaga.gfx (rutabaga w') = [(0x700000001000, 0x2000)] /\ windows w' /\
    Forall (fun '(a, sz) => inside demo_shm a sz) (Rutabaga.gfx (rutabaga w')).
Proof.
  destruct (resource_map_blob2 yes demo_blob_worker 9 0x1000) as [[r w']|] eqn:E; [|vm_compute in E; discriminate]. exists r, w'. split; [reflexivity|]. split.
  - assert (Rutabaga.gfx (rutabaga w') = Rutabaga.gfx (rutabaga (match resource_map_blob2 yes demo_blob_worker 9 0x1000 with Ret (_, w) => w | Panic => demo_blob_worker end))) as -> by (by rewrite E).
    vm_compute. reflexivity.
  - apply (map_blob_contained yes (Forall (fun '(a, sz) => inside demo_shm a sz)) demo_blob_worker 9 0x1000 r w'); [| | |constructor|lia| |by left].
    + intros t i a sz p f g Hin Hg. by constructor.
    + done.
    + split; [vm_compute; split; congruence|by intros hm ok ?%not_elem_of_nil|]. intros i x off Hx. cbn in Hx. apply lookup_singleton_Some in Hx as [_ <-]. discriminate.
    + intros x Hx. cbn in Hx. apply lookup_singleton_Some in Hx as [_ <-]. vm_compute. split; congruence.
Defined.
End Gpu.
